(* ===== verification/_CoqProject ===== *)
-Q . S2P
Prelude.v
Leb128.v
Loader.v
FileTable.v
Opcode.v
IntOps.v
FloatOps.v
Jump.v
Sections.v
Packets.v
PacketsSpec.v
Sockets.v
NetStack.v
NetSpec.v
NetFlow.v
World.v
Text.v
Editor.v
Machine.v
Dispatch.v
Safety.v
Instantiate.v
Specs.v
Host.v
HostSpec.v
NetHost.v
Jit.v
X86.v
JitSpec.v
JitSim.v
JitNative.v
JitAgree.v
Phys.v
Paging.v
Engine.v
EngineSpec.v
Task.v
Block.v
WasmFs.v
WasmFsSpec.v
Fat.v
Virtio.v
VirtioBlk.v
VirtioBlkSpec.v
VirtioNic.v
VirtioNicSpec.v
AsmEmit.v
AsmParse.v
AsmParseSpec.v
ShellText.v
Shell.v
ShellSpec.v
ShellFiles.v
Vga.v
VgaSpec.v
Interrupts.v
InterruptsSpec.v
Boot.v
BootSpec.v
Agree.v
Harness.v
HarnessSpec.v
Userland.v
UserlandSpec.v
Demo.v
CorrectInterp.v
CorrectCode.v
CorrectKernel.v
CorrectHost.v
CorrectLoader.v
CorrectNet.v
CorrectFs.v
CorrectAsm.v
CorrectShell.v
CorrectJit.v
CorrectMemory.v
CorrectVirtio.v
CorrectBoot.v
CorrectUserland.v
