(* ===== verification/Prelude.v ===== *)
(** * WASM-OS: a verification library

    The program is a kernel for x86-64 ([src/kernel]) that runs WebAssembly
    modules as cooperative tasks, with its drivers, a network stack, file systems,
    a shell and an assembler; two emulator guests ([src/userland]) and a test
    harness ([src/wasm-test]) belong to it. This library models them as executable
    functions and proves what makes them correct.

    ** How the parts work together

    [kernel_main] brings up console, interrupts, clock, disk and network and enters
    the scheduler. One turn of the scheduler pumps the network, lets the shell take
    what was typed, and gives one runnable task its turn. A task is an instance of
    a module in a pool of four slots; the engine loads the module, resolves its
    imports against the registry of host functions and starts or resumes the
    interpreter, which runs until the module returns, traps or yields in a host
    function. Host functions read and write the module's memory, the file table,
    the network stack, the clock and the output devices. The file table is filled
    at boot from a FAT volume, which lies on a block cache over the virtio disk
    driver; the network stack moves frames through the virtio network driver. The
    native code generator compiles bodies without control flow when a module is
    instantiated; [call] enters the code where there is some.

    ** Conventions

    Rust's [Result] is [result] of this file, with two more outcomes: [Panic] is a
    panic (an index out of range, an overflow in a checked build, [unwrap] of
    [None], a [panic!]), [OutOfFuel] a loop the model stopped. [&mut self] code that
    may fail is the monad [M], which returns the state beside the outcome, because
    mutations made before an error stay. A [w]-bit integer is a [Z] with its
    wrap-around written as a cast ([as_u32], [as_i64], ...). A megabyte of memory is
    a [slice], a length and a function; a [Vec] or array is a list whose accesses
    are written out. Statics are fields of [World], [Kernel], [Sys] or of the boot
    state. Output devices and the FAT volume, seen from a module, are a log of
    events. Spec files (with their mid-file parts) hold reference definitions and
    the lemmas; the files [Correct*] state the properties, each with an instance at
    a concrete input.

    ** Files and sources (under [src/kernel/src] unless said otherwise)

    - [Prelude]: this file: outcomes, the monad and its triples, casts, bytes,
      slices, UTF-8, loops with early exit, and the tactics [zlia], [zbool] and
      [case_split].
    - WebAssembly: [Leb128] and [Loader] ([wasm/loader.rs], readers of
      [wasm/interp.rs]); [Opcode] ([wasm/opcode.rs], the traps); [IntOps], [FloatOps]
      (numeric arms of [Interpreter::run]); [Jump] ([scan_block_end], the jump
      table); [Sections] (the section parsers); [Machine] ([Interpreter], stacks,
      frames, [new]); [Dispatch] (every arm of [run], [call], [resume]); [Safety],
      [Instantiate], [Specs] (invariant, reachability, behaviour of accesses, calls
      and blocks); [Agree] (two instances with different host functions in lock
      step).
    - Kernel around a module: [World] ([drivers/pit.rs], [drivers/keyboard.rs], the
      statics), [FileTable] ([fs/mod.rs]), [Host] and [HostSpec], [NetHost] (host
      functions of [wasm/engine.rs]), [Engine] and [EngineSpec] (registry, pool,
      [spawn], [run], ...), [Task] ([wasm/task.rs], [scheduler.rs]).
    - Native code: [Jit] ([jit/]), [X86] (the processor, as reference), [JitSpec],
      [JitSim], [JitNative], [JitAgree].
    - Memory: [Phys] (physical memory), [Paging] ([memory/mod.rs],
      [memory/allocator.rs], [make_jit_executable]).
    - Network: [Packets], [PacketsSpec] (wire formats), [Sockets] (ARP cache, UDP,
      TCP, DHCP), [NetStack] ([drivers/netstack/mod.rs]), [NetSpec], [NetFlow].
    - Storage: [Block] ([fs/block.rs], [BlockIo] of [fs/fat.rs]), [Fat] ([fs/fat.rs]),
      [WasmFs], [WasmFsSpec] ([fs/wasmfs.rs]).
    - Drivers: [Virtio] (transport), [VirtioBlk], [VirtioBlkSpec]
      ([drivers/virtio_blk.rs]), [VirtioNic], [VirtioNicSpec] ([drivers/virtio_net.rs]),
      [Vga], [VgaSpec] ([vga.rs]), [Interrupts], [InterruptsSpec] ([interrupts/],
      [drivers/pit.rs], [drivers/serial.rs]).
    - Shell: [Text] (strings), [Editor] ([shell/command_line_editor.rs]),
      [ShellText], [Shell], [ShellSpec], [ShellFiles] ([shell/] and its commands),
      [AsmEmit], [AsmParse], [AsmParseSpec] ([shell/commands/asm.rs]).
    - Start: [Boot], [BootSpec] ([main.rs]).
    - Guests: [Userland], [UserlandSpec] ([src/userland/nes-wasm], [src/userland/gb-wasm]).
    - Tests: [Harness], [HarnessSpec] ([src/wasm-test/src/lib.rs]).
    - [Demo]: modules and kernels the instances are about.

    ** What is proved

    - Interpreter ([CorrectInterp], [CorrectCode]): no bytecode makes the dispatch
      loop panic from a well-formed state, as long as two situations the code does
      not guard are not reached; memory above the current pages stays untouched;
      integer instructions are those of the WebAssembly specification; the jump
      table answers what a scan answers, as long as it is not full; calls, returns
      and blocks do what they should.
    - Engine and scheduler ([CorrectKernel]): [spawn], [start_task], [resume_task],
      [run]; a spawned module satisfies the interpreter's invariant, given at most
      [MAX_FUNCS] functions and none of the built-ins that index unchecked; the
      ownership of pool slots by tasks in every reachable state; isolation of tasks;
      fairness; sleeping.
    - Host functions, file table, keyboard ([CorrectHost]) and loader
      ([CorrectLoader]).
    - Network ([CorrectNet]): safety for every sequence of frames and calls, the TCP
      handshake, delivery of bytes from one guest's memory to another's as far as
      the buffers have room, UDP, DHCP.
    - Native code ([CorrectJit], [CorrectMemory]): what the compiler writes
      disassembles to what it means and, executed by the processor model, does what
      the interpreter does; the code pages become executable and nothing else
      changes; the kernel's walk of the page tables is the processor's.
    - Storage and drivers ([CorrectFs], [CorrectVirtio]): the block cache is a flat
      disk, the virtio drivers are a disk and a network card over any device that
      serves its queues, files on FAT and WasmFS read back as written.
    - Shell, assembler, console ([CorrectShell], [CorrectAsm]): invariants of the main
      loop in every state it reaches, files through [write], [cat] and [edit], the
      line editor as a text with a cursor, the assembler's termination and round
      trip, the console as a grid.
    - Start and interrupts ([CorrectBoot]): [kernel_main] reaches a state the other
      theorems start from, given hardware that keeps the laws of [Hardware] and
      statics with their initial values where the kernel does not set them
      ([reset]); the timer interrupt is armed and transparent; the clock is
      accurate.
    - Guests and harness ([CorrectUserland]): ROM files load, pictures arrive, and
      what passes under the harness with the imports of the same effect on both
      sides runs in the kernel.

    ** Interfaces

    [FloatEnv] (the crate [libm] and NaN bits), [Features] (cargo features and the
    call of native code, which returns or strays from its buffers; straying, which
    the compiler does not prevent for invalid bodies, ends the model's run as a
    panic does), [BlockDevice]/[BlockDeviceOk] (the trait and its contract,
    with the RAM disks and the virtio driver as instances), [FatFs]/[FatFsOk] (the
    crate [fatfs]), [PortIO] (port input and output) with the contracts [BlkDevice] of a
    virtio disk, [NicDevice] of a card and the laws [Hardware] the boot relies on,
    [Clock]/[ClockOk], [Emulator] (the crate
    [runes]).
    Clients are proved against the contract, and each contract has an instance, so
    that none is empty.

    ** Fuel and bounds

    [run_loop] takes one unit per iteration; its theorems hold for every amount, and
    from a well-formed state more fuel does not change an outcome once reached. The assembler's fuel is
    the length of its source and is proved never to run out. Loops of the loader and
    of the section parsers run as often as the bytes can feed them. Waiting for a
    device is bounded as in the code, by its spin counters; waiting for a key ends
    with the input. The boot code and the harness pass their fuel to the loops they
    start. Sizes (stacks of 256 values, 128 frames, four instances, 32 pages, ...) are
    the source's constants.

    ** Not modelled

    The runner ([src/runner], a program that builds an image and starts an emulator),
    the build script, the tests themselves, and the crates behind the interfaces
    above ([fatfs], [libm], [bootloader_api], [runes], [rgy], the allocators of the
    guests). [src/shared] has a type no code uses. Formatting by [core::fmt] is
    modelled where its text matters. Interrupts other than the timer are not enabled
    by the kernel; a timer interrupt changes nothing but its counter, so kernel code
    is modelled as sequential. The safety theorems of the interpreter are about
    instances without native code; its agreement with the interpreter is proved for
    single calls of accepted bodies. *)

From stdpp Require Export base numbers list option.
From Stdlib Require Export ZArith Lia.
From Stdlib Require String Ascii.
Export String.StringSyntax.

#[global] Open Scope Z_scope.
#[global] Arguments replicate : simpl never.

(** ** Automation *)

Create HintDb wasmos discriminated.

(** [lia] with division and remainder by constants turned into equations. *)
Ltac zlia :=
  try (unfold Is_true in * ); Z.to_euclidean_division_equations; lia.

(** Splits every boolean comparison of the goal and the hypotheses and keeps
    the arithmetic fact it decides. *)
Ltac zbool :=
  repeat match goal with
  | H : (_ && _)%bool = true |- _ => apply andb_prop in H; destruct H
  | H : (_ || _)%bool = false |- _ => apply orb_false_elim in H; destruct H
  | H : negb _ = true |- _ => apply negb_true_iff in H
  | H : negb _ = false |- _ => apply negb_false_iff in H
  | H : (_ <? _) = true |- _ => apply Z.ltb_lt in H
  | H : (_ <? _) = false |- _ => apply Z.ltb_ge in H
  | H : (_ <=? _) = true |- _ => apply Z.leb_le in H
  | H : (_ <=? _) = false |- _ => apply Z.leb_gt in H
  | H : (_ =? _) = true |- _ => apply Z.eqb_eq in H
  | H : (_ =? _) = false |- _ => apply Z.eqb_neq in H
  | H : (_ <? _)%nat = true |- _ => apply Nat.ltb_lt in H
  | H : (_ <? _)%nat = false |- _ => apply Nat.ltb_ge in H
  | H : (_ <=? _)%nat = true |- _ => apply Nat.leb_le in H
  | H : (_ <=? _)%nat = false |- _ => apply Nat.leb_gt in H
  | H : (_ =? _)%nat = true |- _ => apply Nat.eqb_eq in H
  | H : (_ =? _)%nat = false |- _ => apply Nat.eqb_neq in H
  end.

(** Case analysis on the innermost [match] of a hypothesis or of the goal. *)
Ltac case_split :=
  match goal with
  | H : context [match ?x with _ => _ end] |- _ =>
      lazymatch x with context [match _ with _ => _ end] => fail | _ => destruct x eqn:? end
  | |- context [match ?x with _ => _ end] =>
      lazymatch x with context [match _ with _ => _ end] => fail | _ => destruct x eqn:? end
  end.

(** ** Outcomes of fallible code

    [Ok] and [Err] are Rust's [Result]; [Panic] is a Rust panic (slice index
    out of range, arithmetic overflow in a checked build, [unwrap] on [None]),
    which stops the kernel; [OutOfFuel] marks a computation the model stopped
    because its fuel, or the input it waits for, ran out. *)

Inductive result (E A : Type) : Type :=
| Ok (a : A)
| Err (e : E)
| Panic
| OutOfFuel.
Arguments Ok {E A} a.
Arguments Err {E A} e.
Arguments Panic {E A}.
Arguments OutOfFuel {E A}.

Definition rbind {E A B} (c : result E A) (k : A -> result E B) : result E B :=
  match c with
  | Ok a => k a
  | Err e => Err e
  | Panic => Panic
  | OutOfFuel => OutOfFuel
  end.

(** [option] turned into an error: Rust's [.ok_or(e)?]. *)
Definition ok_or {E A} (o : option A) (e : E) : result E A :=
  match o with Some a => Ok a | None => Err e end.

(** An index or slice that must exist: Rust's [a[i]]. *)
Definition or_panic {E A} (o : option A) : result E A :=
  match o with Some a => Ok a | None => Panic end.

Definition is_ok {E A} (c : result E A) : bool :=
  match c with Ok _ => true | _ => false end.

(** ** State-passing code whose state survives errors

    [&mut self] methods returning [Result] keep the mutations made before the
    error, so the state is returned beside the outcome. *)

Definition M (S E A : Type) : Type := S -> result E A * S.

Section monad.
Context {S E : Type}.

Definition ret {A} (a : A) : M S E A := fun s => (Ok a, s).

Definition bind {A B} (m : M S E A) (k : A -> M S E B) : M S E B :=
  fun s =>
    match m s with
    | (Ok a, s') => k a s'
    | (Err e, s') => (Err e, s')
    | (Panic, s') => (Panic, s')
    | (OutOfFuel, s') => (OutOfFuel, s')
    end.

Definition fail {A} (e : E) : M S E A := fun s => (Err e, s).
Definition panic {A} : M S E A := fun s => (Panic, s).
Definition gets {A} (f : S -> A) : M S E A := fun s => (Ok (f s), s).
Definition modify (f : S -> S) : M S E unit := fun s => (Ok tt, f s).
Definition lift {A} (r : result E A) : M S E A := fun s => (r, s).
End monad.

Declare Scope wasmos_scope.
Delimit Scope wasmos_scope with wasmos.

(** [let?] sequences pure fallible code, [let!] state-passing code. *)
Notation "'let?' x ':=' c 'in' k" := (rbind c (fun x => k))
  (at level 10, x pattern, c at level 100, k at level 200) : wasmos_scope.
Notation "'let!' x ':=' c 'in' k" := (bind c (fun x => k))
  (at level 10, x pattern, c at level 100, k at level 200) : wasmos_scope.
Notation "'do!' c 'in' k" := (bind c (fun _ => k))
  (at level 10, c at level 100, k at level 200) : wasmos_scope.
#[global] Open Scope wasmos_scope.

Lemma rbind_ok {E A B} (c : result E A) (k : A -> result E B) b :
  rbind c k = Ok b <-> exists a, c = Ok a /\ k a = Ok b.
Proof. destruct c; simpl; naive_solver. Qed.

Lemma ok_or_ok {E A} (o : option A) (e : E) a : ok_or o e = Ok a <-> o = Some a.
Proof. destruct o; simpl; naive_solver. Qed.

Lemma or_panic_ok {E A} (o : option A) (a : A) :
  or_panic (E := E) o = Ok a <-> o = Some a.
Proof. destruct o; simpl; naive_solver. Qed.

(** ** Hoare triples

    [triple P m Q X]: from a state satisfying [P], [m] does not panic, a
    normal result satisfies [Q] and an error satisfies [X]. *)

Definition triple {S E A} (P : S -> Prop) (m : M S E A)
    (Q : A -> S -> Prop) (X : E -> S -> Prop) : Prop :=
  forall s, P s ->
    match m s with
    | (Ok a, s') => Q a s'
    | (Err e, s') => X e s'
    | (Panic, _) => False
    | (OutOfFuel, _) => True
    end.

Section triples.
Context {S E : Type}.
Implicit Types P : S -> Prop.

Lemma triple_ret {A} (a : A) P (Q : A -> S -> Prop) (X : E -> S -> Prop) :
  (forall s, P s -> Q a s) -> triple P (ret a) Q X.
Proof. intros H s Hs. simpl. auto. Qed.

Lemma triple_bind {A B} P (m : M S E A) (k : A -> M S E B) R Q X :
  triple P m R X -> (forall a, triple (R a) (k a) Q X) -> triple P (bind m k) Q X.
Proof.
  intros Hm Hk s Hs. specialize (Hm s Hs). unfold bind.
  destruct (m s) as [[a|e| |] s']; auto. apply Hk, Hm.
Qed.

Lemma triple_fail {A} (e : E) P (Q : A -> S -> Prop) X :
  (forall s, P s -> X e s) -> triple P (fail e) Q X.
Proof. intros H s Hs. simpl. auto. Qed.

Lemma triple_gets {A} (f : S -> A) P (Q : A -> S -> Prop) (X : E -> S -> Prop) :
  (forall s, P s -> Q (f s) s) -> triple P (gets f) Q X.
Proof. intros H s Hs. simpl. auto. Qed.

Lemma triple_modify (f : S -> S) P (Q : unit -> S -> Prop) (X : E -> S -> Prop) :
  (forall s, P s -> Q tt (f s)) -> triple P (modify f) Q X.
Proof. intros H s Hs. simpl. auto. Qed.

Lemma triple_conseq {A} P P' (m : M S E A) (Q Q' : A -> S -> Prop) (X X' : E -> S -> Prop) :
  triple P' m Q' X' -> (forall s, P s -> P' s) ->
  (forall a s, Q' a s -> Q a s) -> (forall e s, X' e s -> X e s) ->
  triple P m Q X.
Proof.
  intros Hm HP HQ HX s Hs. specialize (Hm s (HP s Hs)).
  destruct (m s) as [[a|e| |] s']; auto.
Qed.
End triples.

(** ** Fixed-width integers *)

Definition as_u8  (x : Z) : Z := x mod 256.
Definition as_u16 (x : Z) : Z := x mod 65536.
Definition as_u32 (x : Z) : Z := x mod 4294967296.
Definition as_u64 (x : Z) : Z := x mod 18446744073709551616.
(** [usize] is 64 bits wide on [x86_64]. *)
Definition as_usize (x : Z) : Z := as_u64 x.
Definition as_i8  (x : Z) : Z := (x + 128) mod 256 - 128.
Definition as_i16 (x : Z) : Z := (x + 32768) mod 65536 - 32768.
Definition as_i32 (x : Z) : Z := (x + 2147483648) mod 4294967296 - 2147483648.
Definition as_i64 (x : Z) : Z :=
  (x + 9223372036854775808) mod 18446744073709551616 - 9223372036854775808.

Definition is_u8  (x : Z) : Prop := 0 <= x < 256.
Definition is_u32 (x : Z) : Prop := 0 <= x < 4294967296.
Definition is_i32 (x : Z) : Prop := -2147483648 <= x < 2147483648.
Definition is_i64 (x : Z) : Prop := -9223372036854775808 <= x < 9223372036854775808.

Definition USIZE_MAX : Z := 18446744073709551615.
Definition sat_add_usize (a b : Z) : Z := Z.min (a + b) USIZE_MAX.
Definition sat_mul_usize (a b : Z) : Z := Z.min (a * b) USIZE_MAX.

Ltac unfold_width :=
  unfold as_usize, as_u8, as_u16, as_u32, as_u64, as_i8, as_i16, as_i32, as_i64,
    is_u8, is_u32, is_i32, is_i64, sat_add_usize, sat_mul_usize, USIZE_MAX in *.

Lemma as_u8_range x : is_u8 (as_u8 x).
Proof. unfold_width. zlia. Qed.
Lemma as_u32_range x : is_u32 (as_u32 x).
Proof. unfold_width. zlia. Qed.
Lemma as_i32_range x : is_i32 (as_i32 x).
Proof. unfold_width. zlia. Qed.
Lemma as_i64_range x : is_i64 (as_i64 x).
Proof. unfold_width. zlia. Qed.
Lemma as_u32_id x : is_u32 x -> as_u32 x = x.
Proof. unfold_width. zlia. Qed.
Lemma as_i32_id x : is_i32 x -> as_i32 x = x.
Proof. unfold_width. zlia. Qed.
Lemma as_i64_id x : is_i64 x -> as_i64 x = x.
Proof. unfold_width. zlia. Qed.
Lemma i32_is_i64 x : is_i32 x -> is_i64 x.
Proof. unfold_width. lia. Qed.
Lemma u32_is_i64 x : is_u32 x -> is_i64 x.
Proof. unfold_width. lia. Qed.

#[export] Hint Resolve as_u8_range as_u32_range as_i32_range as_i64_range
  i32_is_i64 u32_is_i64 : wasmos.

(** Or-ing a multiple of [2^n] into a value below [2^n] is addition. *)
Lemma lor_disjoint a m n :
  0 <= n -> 0 <= a < 2 ^ n -> Z.lor a (m * 2 ^ n) = a + m * 2 ^ n.
Proof.
  intros Hn Ha.
  assert (Z.land a (m * 2 ^ n) = 0) as Hz.
  { apply Z.bits_inj'. intros k Hk. rewrite Z.land_spec, Z.bits_0.
    destruct (decide (k < n)).
    - rewrite Z.mul_pow2_bits_low by lia. apply andb_false_r.
    - rewrite <- (Z.mod_small a (2 ^ n)) by lia.
      rewrite Z.mod_pow2_bits_high by lia. done. }
  rewrite Z.add_nocarry_lxor by done. symmetry. by apply Z.lxor_lor.
Qed.

(** ** Byte strings *)

(** The bytes of an ASCII string literal. *)
Fixpoint str (s : String.string) : list Z :=
  match s with
  | String.EmptyString => []
  | String.String c s' => Z.of_nat (Ascii.nat_of_ascii c) :: str s'
  end.
Arguments str s%_string_scope.

Definition bytes_eqb (a b : list Z) : bool := bool_decide (a = b).

Lemma bytes_eqb_true a b : bytes_eqb a b = true <-> a = b.
Proof. apply bool_decide_eq_true. Qed.

(** [&bytes[from..]] *)
Definition slice_from {E} (bs : list Z) (from : nat) : result E (list Z) :=
  if (from <=? length bs)%nat then Ok (drop from bs) else Panic.

(** [&bytes[from..to]] *)
Definition slice_range {E} (bs : list Z) (from to : nat) : result E (list Z) :=
  if ((from <=? to) && (to <=? length bs))%nat
  then Ok (take (to - from) (drop from bs)) else Panic.

(** Little- and big-endian readings of a byte list. *)
Fixpoint le_bytes (bs : list Z) : Z :=
  match bs with [] => 0 | b :: bs' => b + 256 * le_bytes bs' end.

Fixpoint to_le_bytes (n : nat) (v : Z) : list Z :=
  match n with O => [] | S n' => v mod 256 :: to_le_bytes n' (v / 256) end.

Definition be_bytes (bs : list Z) : Z := le_bytes (rev bs).
Definition to_be_bytes (n : nat) (v : Z) : list Z := rev (to_le_bytes n v).

Lemma to_le_bytes_length n v : length (to_le_bytes n v) = n.
Proof. revert v; induction n; intros; simpl; auto. Qed.

Lemma to_le_bytes_u8 n v : Forall is_u8 (to_le_bytes n v).
Proof.
  revert v; induction n; intros; simpl; constructor; auto.
  unfold is_u8. zlia.
Qed.

Lemma le_bytes_to_le n v : le_bytes (to_le_bytes n v) = v mod 256 ^ Z.of_nat n.
Proof.
  revert v; induction n as [|n IH]; intros v; simpl.
  - symmetry. apply Z.mod_1_r.
  - rewrite IH, Nat2Z.inj_succ, Z.pow_succ_r by lia.
    pose proof (Z.pow_pos_nonneg 256 (Z.of_nat n)).
    rewrite (Z.rem_mul_r v 256) by lia. reflexivity.
Qed.

Lemma le_bytes_range bs :
  Forall is_u8 bs -> 0 <= le_bytes bs < 256 ^ Z.of_nat (length bs).
Proof.
  induction 1 as [|b bs Hb _ IH]; simpl; [lia|].
  rewrite Nat2Z.inj_succ, Z.pow_succ_r by lia.
  unfold is_u8 in Hb. nia.
Qed.

Lemma to_le_bytes_le_bytes bs :
  Forall is_u8 bs -> to_le_bytes (length bs) (le_bytes bs) = bs.
Proof.
  induction 1 as [|b bs Hb _ IH]; simpl; [done|].
  unfold is_u8 in Hb. f_equal.
  - rewrite Z.mul_comm, Z.mod_add by lia. apply Z.mod_small. lia.
  - rewrite Z.mul_comm, Z.div_add by lia. rewrite Z.div_small by lia.
    rewrite Z.add_0_l. apply IH.
Qed.

(** ** Byte slices with a large, mostly uniform content

    A [&mut [u8]] of megabytes (linear memory) is its length and the contents
    as a function of the index; an access outside [0, slen) panics. *)

Record slice := Slice { slen : Z; sget : Z -> Z }.

Definition in_slice (s : slice) (i : Z) : bool := (0 <=? i) && (i <? slen s).

Definition sread {E} (s : slice) (i : Z) : result E Z :=
  if in_slice s i then Ok (sget s i) else Panic.

(** [s[lo..hi]] as a list. *)
Definition srange (s : slice) (lo hi : Z) : list Z :=
  map (fun k => sget s (lo + Z.of_nat k)) (seq 0 (Z.to_nat (hi - lo))).

Definition sread_range {E} (s : slice) (lo hi : Z) : result E (list Z) :=
  if (0 <=? lo) && (lo <=? hi) && (hi <=? slen s) then Ok (srange s lo hi) else Panic.

(** [s[lo..lo+bs.len()].copy_from_slice(bs)] *)
Definition swrite_bytes {E} (s : slice) (lo : Z) (bs : list Z) : result E slice :=
  let hi := lo + Z.of_nat (length bs) in
  if (0 <=? lo) && (hi <=? slen s)
  then Ok (Slice (slen s) (fun i =>
         if (lo <=? i) && (i <? hi) then nth (Z.to_nat (i - lo)) bs 0 else sget s i))
  else Panic.

(** [s[lo..hi].fill(v)] *)
Definition sfill {E} (s : slice) (lo hi v : Z) : result E slice :=
  if (0 <=? lo) && (lo <=? hi) && (hi <=? slen s)
  then Ok (Slice (slen s) (fun i => if (lo <=? i) && (i <? hi) then v else sget s i))
  else Panic.

(** [s.copy_within(src..src+n, dst)] *)
Definition scopy_within {E} (s : slice) (src n dst : Z) : result E slice :=
  if (0 <=? src) && (0 <=? n) && (src + n <=? slen s) && (0 <=? dst) && (dst + n <=? slen s)
  then Ok (Slice (slen s) (fun i =>
         if (dst <=? i) && (i <? dst + n) then sget s (src + (i - dst)) else sget s i))
  else Panic.

Definition zero_slice (n : Z) : slice := Slice n (fun _ => 0).

(** Two slices with the same bytes. *)
Definition slice_eq (a b : slice) : Prop :=
  slen a = slen b /\ forall i, 0 <= i < slen a -> sget a i = sget b i.

#[export] Instance slice_eq_equiv : Equivalence slice_eq.
Proof.
  split.
  - intros a; split; auto.
  - intros a b [Hl H]. split; [auto|]. intros i Hi. symmetry. apply H. lia.
  - intros a b c [Hl H] [Hl' H']. split; [congruence|].
    intros i Hi. rewrite H by done. apply H'. lia.
Qed.

Lemma srange_length s lo hi : length (srange s lo hi) = Z.to_nat (hi - lo).
Proof. unfold srange. by rewrite length_map, length_seq. Qed.

Lemma srange_lookup s lo hi k :
  (k < Z.to_nat (hi - lo))%nat -> srange s lo hi !! k = Some (sget s (lo + Z.of_nat k)).
Proof.
  intros Hk. unfold srange. rewrite list_lookup_fmap, lookup_seq_lt by done. done.
Qed.

Lemma srange_ext a b lo hi :
  (forall i, lo <= i < hi -> sget a i = sget b i) -> srange a lo hi = srange b lo hi.
Proof.
  intros H. unfold srange. apply map_ext_in. intros k Hk%in_seq. apply H. lia.
Qed.

Lemma swrite_bytes_ok {E} s lo bs s' :
  swrite_bytes (E := E) s lo bs = Ok s' ->
  0 <= lo /\ lo + Z.of_nat (length bs) <= slen s /\ slen s' = slen s /\
  srange s' lo (lo + Z.of_nat (length bs)) = bs /\
  forall i, ~ lo <= i < lo + Z.of_nat (length bs) -> sget s' i = sget s i.
Proof.
  unfold swrite_bytes. destruct (_ && _) eqn:Hb; [|discriminate].
  intros [= <-]. zbool. simpl. repeat split; try lia.
  - apply list_eq. intros k.
    destruct (decide (k < length bs)%nat) as [Hk|Hk].
    + rewrite srange_lookup by lia. simpl.
      rewrite (proj2 (Z.leb_le _ _)), (proj2 (Z.ltb_lt _ _)) by lia. simpl.
      replace (Z.to_nat _) with k by lia.
      destruct (nth_lookup_or_length bs k 0) as [->|]; [done|lia].
    + rewrite !lookup_ge_None_2; [done|lia|]. rewrite srange_length. lia.
  - intros i Hi. destruct (_ && _) eqn:Hc; [zbool; lia|done].
Qed.

Lemma swrite_bytes_some {E} s lo bs :
  0 <= lo -> lo + Z.of_nat (length bs) <= slen s ->
  exists s', swrite_bytes (E := E) s lo bs = Ok s'.
Proof.
  intros H1 H2. unfold swrite_bytes.
  rewrite (proj2 (Z.leb_le 0 lo)), (proj2 (Z.leb_le _ (slen s))) by lia. eauto.
Qed.

Lemma srange_u8 m lo hi : (forall k, is_u8 (sget m k)) -> Forall is_u8 (srange m lo hi).
Proof. intros Hm. unfold srange. apply Forall_fmap, Forall_true. intros k. apply Hm. Qed.

Lemma swrite_bytes_u8 {E} m lo bs m' :
  swrite_bytes (E := E) m lo bs = Ok m' -> (forall k, is_u8 (sget m k)) -> Forall is_u8 bs ->
  forall k, is_u8 (sget m' k).
Proof.
  unfold swrite_bytes. destruct (_ && _); [|done]. intros [= <-] Hm Hb k. cbn.
  destruct (_ && _) eqn:E'; [|apply Hm]. zbool. rewrite Forall_nth in Hb. apply Hb. lia.
Qed.

(** ** UTF-8 validity, as [core::str::from_utf8] decides it *)

Definition is_cont (b : Z) : bool := (128 <=? b) && (b <=? 191).

Fixpoint utf8_valid (bs : list Z) : bool :=
  match bs with
  | [] => true
  | b0 :: r0 =>
    if b0 <=? 127 then utf8_valid r0 else
    if (194 <=? b0) && (b0 <=? 223) then
      match r0 with b1 :: r1 => is_cont b1 && utf8_valid r1 | _ => false end else
    if (224 <=? b0) && (b0 <=? 239) then
      match r0 with
      | b1 :: b2 :: r2 =>
        (if b0 =? 224 then (160 <=? b1) && (b1 <=? 191)
         else if b0 =? 237 then (128 <=? b1) && (b1 <=? 159) else is_cont b1)
        && is_cont b2 && utf8_valid r2
      | _ => false
      end else
    if (240 <=? b0) && (b0 <=? 244) then
      match r0 with
      | b1 :: b2 :: b3 :: r3 =>
        (if b0 =? 240 then (144 <=? b1) && (b1 <=? 191)
         else if b0 =? 244 then (128 <=? b1) && (b1 <=? 143) else is_cont b1)
        && is_cont b2 && is_cont b3 && utf8_valid r3
      | _ => false
      end
    else false
  end.

(** [core::str::from_utf8(bs).ok()] *)
Definition from_utf8 (bs : list Z) : option (list Z) :=
  if utf8_valid bs then Some bs else None.

(** ** Loops with early exit *)

(** [for i in start..start+n]: the first index at which [f] answers. *)
Fixpoint find_from {A} (f : nat -> option A) (start n : nat) : option A :=
  match n with
  | O => None
  | S n' => match f start with Some a => Some a | None => find_from f (S start) n' end
  end.

(** [iter().position(p)] *)
Fixpoint position {A} (p : A -> bool) (l : list A) : option nat :=
  match l with
  | [] => None
  | x :: l' => if p x then Some O else option_map S (position p l')
  end.

Lemma find_from_some {A} (f : nat -> option A) start n a :
  find_from f start n = Some a <->
  exists i, (start <= i < start + n)%nat /\ f i = Some a /\
            forall j, (start <= j < i)%nat -> f j = None.
Proof.
  revert start; induction n as [|n IH]; intros start; simpl.
  - split; [done|]. intros (i & Hi & _). lia.
  - destruct (f start) as [b|] eqn:Hs.
    + split.
      * intros [= <-]. exists start. repeat split; [lia..|done|]. intros; lia.
      * intros (i & Hi & Hf & Hj). destruct (decide (i = start)) as [->|]; [congruence|].
        rewrite Hj in Hs by lia. done.
    + rewrite IH. split; intros (i & Hi & Hf & Hj).
      * exists i. repeat split; [lia..|done|]. intros j Hjj.
        destruct (decide (j = start)) as [->|]; [done|]. apply Hj. lia.
      * exists i. destruct (decide (i = start)) as [->|]; [congruence|].
        repeat split; [lia..|done|]. intros j Hjj. apply Hj. lia.
Qed.

Lemma find_from_none {A} (f : nat -> option A) start n :
  find_from f start n = None <-> forall i, (start <= i < start + n)%nat -> f i = None.
Proof.
  revert start; induction n as [|n IH]; intros start; simpl.
  - split; [|done]. intros; lia.
  - destruct (f start) eqn:Hs.
    + split; [done|]. intros H. rewrite H in Hs by lia. done.
    + rewrite IH. split; intros H i Hi.
      * destruct (decide (i = start)) as [->|]; [done|]. apply H. lia.
      * apply H. lia.
Qed.

Lemma find_from_ext_in {A} (f g : nat -> option A) start n :
  (forall j, (start <= j < start + n)%nat -> f j = g j) -> find_from f start n = find_from g start n.
Proof.
  revert start; induction n as [|n IH]; intros start H; cbn [find_from]; [done|].
  rewrite H by lia. destruct (g start); [done|]. apply IH. intros j Hj. apply H. lia.
Qed.

Lemma find_from_ext {A} (f g : nat -> option A) start n :
  (forall j, f j = g j) -> find_from f start n = find_from g start n.
Proof.
  intros H. revert start; induction n as [|n IH]; intros start; cbn [find_from]; [done|].
  by rewrite H, IH.
Qed.

Lemma position_some {A} (p : A -> bool) l i :
  position p l = Some i <->
  (exists x, l !! i = Some x /\ p x = true) /\
  forall j y, (j < i)%nat -> l !! j = Some y -> p y = false.
Proof.
  revert i; induction l as [|x l IH]; intros i; simpl.
  - split; [done|]. intros [(y & Hy & _) _]. done.
  - destruct (p x) eqn:Hx.
    + split.
      * intros [= <-]. split; [eauto|]. intros; lia.
      * intros [_ H]. destruct i; [done|]. specialize (H O x). simpl in H.
        rewrite H in Hx by (done || lia). done.
    + split.
      * destruct (position p l) as [k|]; [|done]. intros [= <-].
        destruct (proj1 (IH k) eq_refl) as [Hk Hlt]. split; [done|].
        intros [|j] y Hj Hy; simpl in Hy; [congruence|]. apply (Hlt j); [lia|done].
      * intros [Hex Hlt]. destruct i as [|i].
        { destruct Hex as (y & [= <-] & Hy). congruence. }
        rewrite (proj2 (IH i)); [done|]. split; [done|].
        intros j y Hj Hy. apply (Hlt (S j) y); [lia|done].
Qed.

Lemma position_none {A} (p : A -> bool) l :
  position p l = None <-> forall i x, l !! i = Some x -> p x = false.
Proof.
  induction l as [|x l IH]; simpl; [done|].
  destruct (p x) eqn:Hx.
  - split; [done|]. intros H. specialize (H O x eq_refl). congruence.
  - destruct (position p l); simpl; split; try done.
    + intros H. enough (Some n = None) by done.
      apply IH. intros i y Hy. apply (H (S i) y Hy).
    + intros _ [|i] y Hy; simpl in Hy; [congruence|]. by apply (proj1 IH eq_refl i).
Qed.

(** ** Cursors into a byte string

    [at_cursor bs cur rest]: the cursor is inside the buffer and [rest] is
    what remains from it. *)

Definition at_cursor (bs : list Z) (cur : nat) (rest : list Z) : Prop :=
  (cur <= length bs)%nat /\ drop cur bs = rest.

Section cursors.
Context (bs : list Z).
Implicit Types (x r : list Z).

Lemma at_start : at_cursor bs 0 bs.
Proof. split; [lia|done]. Qed.

Lemma at_app pre r : bs = pre ++ r -> at_cursor bs (length pre) r.
Proof. intros ->. split; [rewrite length_app; lia|]. apply drop_app_length. Qed.

Lemma at_length cur r : at_cursor bs cur r -> length bs = (cur + length r)%nat.
Proof. intros [Hle <-]. rewrite length_drop. lia. Qed.

Lemma at_skip cur x r : at_cursor bs cur (x ++ r) -> at_cursor bs (cur + length x) r.
Proof.
  intros H. pose proof (at_length _ _ H) as Hl. rewrite length_app in Hl.
  destruct H as [Hle Hd]. split; [lia|].
  rewrite <- drop_drop, Hd. apply drop_app_length.
Qed.

Lemma at_skip1 cur b r : at_cursor bs cur (b :: r) -> at_cursor bs (cur + 1) r.
Proof. apply (at_skip cur [b] r). Qed.

Lemma at_lookup cur b r : at_cursor bs cur (b :: r) -> bs !! cur = Some b.
Proof.
  intros [Hle Hd]. rewrite <- (Nat.add_0_r cur), <- lookup_drop, Hd. done.
Qed.

Lemma at_slice_from {E} cur r : at_cursor bs cur r -> slice_from (E := E) bs cur = Ok r.
Proof. intros [Hle <-]. unfold slice_from. by rewrite (proj2 (Nat.leb_le _ _)). Qed.

Lemma at_slice_range {E} cur x r n :
  at_cursor bs cur (x ++ r) -> n = (cur + length x)%nat ->
  slice_range (E := E) bs cur n = Ok x.
Proof.
  intros H ->. pose proof (at_length _ _ H) as Hl. rewrite length_app in Hl.
  destruct H as [Hle Hd]. unfold slice_range.
  rewrite !(proj2 (Nat.leb_le _ _)) by lia. simpl. rewrite Hd.
  replace (cur + length x - cur)%nat with (length x) by lia.
  by rewrite take_app_length.
Qed.
End cursors.
