(* ===== verification/Leb128.v ===== *)
(** * LEB-128 integers

    [read_u32_leb128] of [kernel/src/wasm/loader.rs] and [read_i32_leb128],
    [read_i64_leb128], [skip_leb128] of [kernel/src/wasm/interp.rs], with the
    encoder they are meant to invert as reference definition. *)

From S2P Require Import Prelude.

(** ** Decoders *)

Fixpoint read_u32_loop (bs : list Z) (result shift : Z) (i : nat) : option (Z * nat) :=
  match bs with
  | [] => None
  | byte :: bs' =>
    if 35 <=? shift then None else
    let result := Z.lor result (as_u32 (Z.shiftl (Z.land byte 0x7F) shift)) in
    let shift := shift + 7 in
    if Z.land byte 0x80 =? 0 then Some (result, S i)
    else read_u32_loop bs' result shift (S i)
  end.

Definition read_u32_leb128 (bytes : list Z) : option (Z * nat) := read_u32_loop bytes 0 0 0.

(** The two signed readers differ in the shift limit, the width and the cast. *)
Fixpoint read_signed_loop (limit width : Z) (cast : Z -> Z)
    (bs : list Z) (result shift : Z) (i : nat) : option (Z * nat) :=
  match bs with
  | [] => None
  | byte :: bs' =>
    if limit <=? shift then None else
    let result := Z.lor result (cast (Z.shiftl (Z.land byte 0x7F) shift)) in
    let shift := shift + 7 in
    if Z.land byte 0x80 =? 0 then
      let result :=
        if (shift <? width) && negb (Z.land byte 0x40 =? 0)
        then Z.lor result (cast (Z.shiftl (-1) shift)) else result in
      Some (result, S i)
    else read_signed_loop limit width cast bs' result shift (S i)
  end.

Definition read_i64_leb128 (bytes : list Z) : option (Z * nat) :=
  read_signed_loop 70 64 as_i64 bytes 0 0 0.

Definition read_i32_leb128 (bytes : list Z) : option (Z * nat) :=
  read_signed_loop 35 32 as_i32 bytes 0 0 0.

(** Bytes of one LEB-128 value at the front of [bs]. *)
Fixpoint skip_leb_loop (bs : list Z) (i : nat) : option nat :=
  match bs with
  | [] => None
  | b :: bs' => if Z.land b 0x80 =? 0 then Some (S i) else skip_leb_loop bs' (S i)
  end.

Definition skip_leb128 (bytes : list Z) (start : nat) : option nat :=
  skip_leb_loop (drop start bytes) 0.

(** ** Reference encoders *)

Fixpoint leb128_u (fuel : nat) (v : Z) : list Z :=
  match fuel with
  | O => []
  | S f => if v <? 128 then [v] else (v mod 128 + 128) :: leb128_u f (v / 128)
  end.

Fixpoint leb128_s (fuel : nat) (v : Z) : list Z :=
  match fuel with
  | O => []
  | S f => if (-64 <=? v) && (v <? 64) then [v mod 128]
           else (v mod 128 + 128) :: leb128_s f (v / 128)
  end.

Definition encode_u32 : Z -> list Z := leb128_u 5.
Definition encode_i32 : Z -> list Z := leb128_s 5.
Definition encode_i64 : Z -> list Z := leb128_s 10.

(** ** Bit facts *)

(** A boolean statement about every byte is decided by evaluation. *)
Lemma u8_forall (P : Z -> bool) :
  forallb P (map Z.of_nat (seq 0 256)) = true -> forall b, is_u8 b -> P b = true.
Proof.
  intros H b Hb. rewrite forallb_forall in H. apply H.
  unfold is_u8 in Hb. apply in_map_iff. exists (Z.to_nat b).
  rewrite in_seq. lia.
Qed.

Lemma land_0x7f b : Z.land b 0x7F = b mod 128.
Proof. apply (Z.land_ones b 7). lia. Qed.

Lemma land_0x80 b : is_u8 b -> (Z.land b 0x80 =? 0) = (b <? 128).
Proof.
  intros Hb. apply eqb_prop.
  exact (u8_forall (fun b => Bool.eqb (Z.land b 0x80 =? 0) (b <? 128)) eq_refl b Hb).
Qed.

Lemma land_0x40 b : is_u8 b -> (Z.land b 0x40 =? 0) = (b mod 128 <? 64).
Proof.
  intros Hb. apply eqb_prop.
  exact (u8_forall (fun b => Bool.eqb (Z.land b 0x40 =? 0) (b mod 128 <? 64)) eq_refl b Hb).
Qed.

(** ** The decoders invert the encoders *)

Lemma leb128_u_length f v : (length (leb128_u f v) <= f)%nat.
Proof.
  revert v; induction f as [|f IH]; intros v; simpl; [lia|].
  destruct (_ <? _); simpl; [lia|]. specialize (IH (v / 128)). lia.
Qed.

Lemma leb128_u_u8 f v : 0 <= v -> Forall is_u8 (leb128_u f v).
Proof.
  revert v; induction f as [|f IH]; intros v Hv; simpl; [done|].
  destruct (_ <? _) eqn:E; zbool; constructor; unfold is_u8 in *; try done.
  - lia.
  - zlia.
  - apply IH. zlia.
Qed.

Lemma pow2_7 k : 0 <= k -> 2 ^ (7 * (k + 1)) = 2 ^ (7 * k) * 128.
Proof.
  intros Hk. replace (7 * (k + 1)) with (7 * k + 7) by lia.
  rewrite Z.pow_add_r by lia. done.
Qed.

Lemma read_u32_loop_encode f v r k i rest :
  0 <= k -> Z.of_nat f + k <= 5 -> 0 <= v < 2 ^ (7 * Z.of_nat f) -> (0 < f)%nat ->
  0 <= r < 2 ^ (7 * k) -> r + v * 2 ^ (7 * k) < 2 ^ 32 ->
  read_u32_loop (leb128_u f v ++ rest) r (7 * k) i
    = Some (r + v * 2 ^ (7 * k), (i + length (leb128_u f v))%nat).
Proof.
  revert v r k i; induction f as [|f IH]; intros v r k i Hk Hfk Hv Hf Hr Hb; [lia|].
  assert (0 < 2 ^ (7 * k)) by (apply Z.pow_pos_nonneg; lia).
  cbn [leb128_u]. destruct (v <? 128) eqn:Ev; zbool; cbn [app read_u32_loop].
  - rewrite (proj2 (Z.leb_gt _ _)) by lia.
    rewrite land_0x80, (proj2 (Z.ltb_lt _ _)) by (unfold is_u8; lia).
    rewrite land_0x7f, Z.mod_small, Z.shiftl_mul_pow2 by lia.
    rewrite as_u32_id by (unfold is_u32; nia).
    rewrite lor_disjoint by lia. simpl. f_equal. f_equal. lia.
  - rewrite (proj2 (Z.leb_gt _ _)) by lia.
    rewrite land_0x80, (proj2 (Z.ltb_ge _ _)) by (unfold is_u8; zlia).
    rewrite land_0x7f, Z.shiftl_mul_pow2 by lia.
    replace ((v mod 128 + 128) mod 128) with (v mod 128) by zlia.
    assert (0 <= v / 128 /\ v = 128 * (v / 128) + v mod 128 /\ 0 <= v mod 128 < 128)
      as (Hd & Hvd & Hm) by zlia.
    rewrite as_u32_id by (unfold is_u32; nia).
    rewrite lor_disjoint by lia.
    destruct f as [|f]; [simpl in Hv; lia|].
    replace (7 * k + 7) with (7 * (k + 1)) by lia.
    rewrite IH; rewrite ?pow2_7 by lia; try lia; try nia.
    + f_equal. f_equal; [nia|]. simpl length. lia.
    + split; [lia|]. apply Z.div_lt_upper_bound; [lia|].
      eapply Z.lt_le_trans; [apply Hv|].
      replace (7 * Z.of_nat (S (S f))) with (7 * (Z.of_nat (S f) + 1)) by lia.
      rewrite pow2_7 by lia. lia.
Qed.

(** [read_u32_leb128] on an encoded [u32] gives the value back and consumes
    exactly its encoding. *)
Lemma read_u32_encode v rest :
  is_u32 v ->
  read_u32_leb128 (encode_u32 v ++ rest) = Some (v, length (encode_u32 v)).
Proof.
  unfold is_u32. intros Hv. unfold read_u32_leb128, encode_u32.
  pose proof (read_u32_loop_encode 5 v 0 0 0 rest) as H. rewrite Z.mul_0_r in H.
  rewrite H by lia. f_equal. f_equal. lia.
Qed.

Section signed.
(** [n] groups of seven bits cover the width [w]. *)
Context (n w : Z) (cast : Z -> Z).
Hypothesis Hw : 7 * n - 7 < w <= 7 * n.
Hypothesis Hw0 : 0 < w.
Hypothesis cast_id : forall x, -2 ^ (w - 1) <= x < 2 ^ (w - 1) -> cast x = x.
Hypothesis cast_mod : forall x m, cast (x + m * 2 ^ w) = cast x.

Lemma pow_split k : 0 <= k -> 7 * k + 7 < w -> 2 ^ (7 * k) * 128 <= 2 ^ (w - 1).
Proof. intros. rewrite <- pow2_7 by lia. apply Z.pow_le_mono_r; lia. Qed.

(** The last group: its own bits, or the truncated ones with their sign. *)
Lemma signed_last v r k :
  0 <= k < n -> 0 <= r < 2 ^ (7 * k) -> -64 <= v < 64 ->
  -2 ^ (w - 1) <= v * 2 ^ (7 * k) -> v * 2 ^ (7 * k) + r < 2 ^ (w - 1) ->
  (let res := Z.lor r (cast (v mod 128 * 2 ^ (7 * k))) in
   if (7 * k + 7 <? w) && negb (v mod 128 <? 64)
   then Z.lor res (cast (-1 * 2 ^ (7 * k + 7))) else res) = r + v * 2 ^ (7 * k).
Proof.
  intros Hk Hr Hv Hlo Hhi. cbv zeta.
  assert (0 < 2 ^ (7 * k)) by (apply Z.pow_pos_nonneg; lia).
  assert (0 <= v mod 128 < 128) as Hm by zlia.
  destruct (decide (7 * k + 7 < w)) as [Hs|Hs].
  - rewrite (proj2 (Z.ltb_lt _ _)) by lia. cbn [andb].
    pose proof (pow_split k ltac:(lia) Hs) as Hp.
    rewrite cast_id, lor_disjoint by nia.
    destruct (v mod 128 <? 64) eqn:Em; zbool; cbn [negb].
    + replace (v mod 128) with v by zlia. done.
    + replace (7 * k + 7) with (7 * (k + 1)) by lia.
      rewrite cast_id by (rewrite pow2_7 by lia; nia).
      rewrite lor_disjoint by (rewrite ?pow2_7 by lia; nia).
      rewrite pow2_7 by lia. replace (v mod 128) with (v + 128) by zlia. lia.
  - rewrite (proj2 (Z.ltb_ge _ _)) by lia. cbn [andb].
    replace (v mod 128 * 2 ^ (7 * k))
      with (v * 2 ^ (7 * k) + (- (v / 128) * 2 ^ (7 * k + 7 - w)) * 2 ^ w).
    + rewrite cast_mod, cast_id, lor_disjoint by lia. done.
    + rewrite <- Z.mul_assoc, <- Z.pow_add_r by lia.
      replace (7 * k + 7 - w + w) with (7 * (k + 1)) by lia. rewrite pow2_7 by lia.
      replace (v mod 128) with (v - 128 * (v / 128)) by zlia. lia.
Qed.

Lemma read_signed_loop_encode f v r k i rest :
  0 <= k -> Z.of_nat f + k = n -> (0 < f)%nat -> 0 <= r < 2 ^ (7 * k) ->
  -2 ^ (w - 1) <= v * 2 ^ (7 * k) -> v * 2 ^ (7 * k) + r < 2 ^ (w - 1) ->
  read_signed_loop (7 * n) w cast (leb128_s f v ++ rest) r (7 * k) i
    = Some (r + v * 2 ^ (7 * k), (i + length (leb128_s f v))%nat).
Proof.
  revert v r k i; induction f as [|f IH]; intros v r k i Hk Hfk Hf Hr Hlo Hhi; [lia|].
  assert (0 < 2 ^ (7 * k)) by (apply Z.pow_pos_nonneg; lia).
  cbn [leb128_s]. destruct ((-64 <=? v) && (v <? 64)) eqn:Ev; cbn [app read_signed_loop].
  - zbool. rewrite (proj2 (Z.leb_gt _ _)) by lia.
    rewrite land_0x80, (proj2 (Z.ltb_lt _ _)) by (unfold is_u8; zlia).
    rewrite land_0x40 by (unfold is_u8; zlia).
    rewrite land_0x7f, Z.mod_mod, !Z.shiftl_mul_pow2 by lia.
    cbv zeta. pose proof (signed_last v r k) as Hl. cbv zeta in Hl.
    rewrite Hl by lia. f_equal. f_equal. simpl length. lia.
  - rewrite (proj2 (Z.leb_gt _ _)) by lia.
    rewrite land_0x80, (proj2 (Z.ltb_ge _ _)) by (unfold is_u8; zlia).
    rewrite land_0x7f, Z.shiftl_mul_pow2 by lia.
    replace ((v mod 128 + 128) mod 128) with (v mod 128) by zlia.
    assert (v = 128 * (v / 128) + v mod 128 /\ 0 <= v mod 128 < 128) as (Hvd & Hm) by zlia.
    assert (7 * k + 7 < w) as Hs.
    { destruct (decide (7 * k + 7 < w)) as [|Hs]; [done|exfalso].
      assert (2 ^ (w - 1) <= 64 * 2 ^ (7 * k)).
      { change 64 with (2 ^ 6). rewrite <- Z.pow_add_r by lia.
        apply Z.pow_le_mono_r; lia. }
      apply andb_false_iff in Ev as [Ev|Ev]; zbool; nia. }
    pose proof (pow_split k Hk Hs) as Hp.
    rewrite cast_id, lor_disjoint by nia.
    replace (7 * k + 7) with (7 * (k + 1)) by lia.
    assert (v / 128 * (2 ^ (7 * k) * 128) = v * 2 ^ (7 * k) - v mod 128 * 2 ^ (7 * k))
      as Heq by (rewrite Hvd at 2; ring).
    assert (0 <= v mod 128 * 2 ^ (7 * k) <= 127 * 2 ^ (7 * k)) as Hb by nia.
    rewrite IH; rewrite ?pow2_7 by lia; try lia.
    + f_equal. f_equal; [lia|]. simpl length. lia.
    + assert (2 ^ (w - 1) = 2 ^ (w - 1 - (7 * k + 7)) * (2 ^ (7 * k) * 128)) as Hd.
      { rewrite <- pow2_7, <- Z.pow_add_r by lia. f_equal. lia. }
      assert (- 2 ^ (w - 1 - (7 * k + 7)) <= v / 128); [|nia].
      apply Z.div_le_lower_bound; nia.
Qed.

Lemma read_signed_encode v rest :
  -2 ^ (w - 1) <= v < 2 ^ (w - 1) ->
  read_signed_loop (7 * n) w cast (leb128_s (Z.to_nat n) v ++ rest) 0 0 0
    = Some (v, length (leb128_s (Z.to_nat n) v)).
Proof.
  intros Hv. pose proof (read_signed_loop_encode (Z.to_nat n) v 0 0 0 rest) as H.
  rewrite Z.mul_0_r in H. rewrite H by lia. f_equal. f_equal. lia.
Qed.
End signed.

Lemma read_i32_encode v rest :
  is_i32 v ->
  read_i32_leb128 (encode_i32 v ++ rest) = Some (v, length (encode_i32 v)).
Proof.
  intros Hv. apply (read_signed_encode 5 32 as_i32); try lia.
  - intros x Hx. apply as_i32_id. unfold is_i32. lia.
  - intros x m. unfold as_i32. zlia.
  - unfold is_i32 in Hv. lia.
Qed.

Lemma read_i64_encode v rest :
  is_i64 v ->
  read_i64_leb128 (encode_i64 v ++ rest) = Some (v, length (encode_i64 v)).
Proof.
  intros Hv. apply (read_signed_encode 10 64 as_i64); try lia.
  - intros x Hx. apply as_i64_id. unfold is_i64. lia.
  - intros x m. unfold as_i64. zlia.
  - unfold is_i64 in Hv. lia.
Qed.

(** ** Bounds of the decoders on arbitrary bytes *)

Lemma read_u32_loop_bounds bs r s i v n :
  read_u32_loop bs r s i = Some (v, n) -> is_u32 r ->
  is_u32 v /\ (i < n <= i + length bs)%nat /\ Z.of_nat n <= Z.of_nat i + Z.max 0 ((41 - s) / 7).
Proof.
  revert r s i; induction bs as [|b bs IH]; intros r s i; cbn [read_u32_loop]; [done|].
  destruct (35 <=? s) eqn:Es; [done|]. zbool.
  assert (is_u32 r -> is_u32 (Z.lor r (as_u32 (Z.shiftl (Z.land b 0x7F) s)))) as Hlor.
  { intros Hr. pose proof (as_u32_range (Z.shiftl (Z.land b 0x7F) s)) as Hx.
    unfold is_u32 in *. split; [apply Z.lor_nonneg; lia|].
    destruct (decide (Z.lor r (as_u32 (Z.shiftl (Z.land b 0x7F) s)) = 0)); [lia|].
    apply (Z.log2_lt_cancel _ 4294967296). rewrite Z.log2_lor by lia.
    destruct (Z.le_gt_cases (Z.log2 r) (Z.log2 (as_u32 (Z.shiftl (Z.land b 0x7F) s)))).
    - rewrite Z.max_r by lia. change (Z.log2 4294967296) with 32.
      destruct (decide (0 < as_u32 (Z.shiftl (Z.land b 0x7F) s))).
      + apply Z.log2_lt_pow2; [done|]. lia.
      + rewrite Z.log2_nonpos; lia.
    - rewrite Z.max_l by lia. change (Z.log2 4294967296) with 32.
      destruct (decide (0 < r)).
      + apply Z.log2_lt_pow2; [done|]. lia.
      + rewrite Z.log2_nonpos; lia. }
  destruct (_ =? 0).
  - intros [= <- <-] Hr. split; [auto|]. simpl length. split; [lia|]. zlia.
  - intros H Hr. apply IH in H; [|auto]. simpl length. destruct H as (Hv & Hn & Hb).
    split; [done|]. split; [lia|]. zlia.
Qed.

(** A decoded [u32] fits 32 bits, and 1 to 5 bytes of the input are consumed. *)
Lemma read_u32_bounds bs v n :
  read_u32_leb128 bs = Some (v, n) ->
  is_u32 v /\ (1 <= n <= 5)%nat /\ (n <= length bs)%nat.
Proof.
  intros H. apply read_u32_loop_bounds in H; [|unfold is_u32; lia].
  destruct H as (Hv & Hn & Hb). split; [done|].
  change (Z.max 0 ((41 - 0) / 7)) with 5 in Hb. lia.
Qed.

Lemma skip_leb_loop_bounds bs i n :
  skip_leb_loop bs i = Some n -> (i < n <= i + length bs)%nat.
Proof.
  revert i; induction bs as [|b bs IH]; intros i; simpl; [done|].
  destruct (_ =? 0); [intros [= <-]; lia|]. intros H%IH. lia.
Qed.

Lemma skip_leb128_bounds bs start n :
  skip_leb128 bs start = Some n -> (0 < n)%nat /\ (start + n <= length bs)%nat.
Proof.
  intros H%skip_leb_loop_bounds. rewrite length_drop in H.
  destruct (decide (start <= length bs)%nat); lia.
Qed.
