(* ===== verification/Loader.v ===== *)
(** * The WASM binary loader ([kernel/src/wasm/loader.rs])

    Header check, section split, export lookup, import iteration and the
    memory-section reader, each on arbitrary bytes; then the theorems that
    relate them to the binary format they parse. *)

From S2P Require Import Prelude Leb128.

(** ** Data *)

Definition SECTION_TYPE : Z := 1.
Definition SECTION_IMPORT : Z := 2.
Definition SECTION_FUNCTION : Z := 3.
Definition SECTION_TABLE : Z := 4.
Definition SECTION_MEMORY : Z := 5.
Definition SECTION_GLOBAL : Z := 6.
Definition SECTION_EXPORT : Z := 7.
Definition SECTION_ELEMENT : Z := 9.
Definition SECTION_CODE : Z := 10.
Definition SECTION_DATA : Z := 11.

Definition MAGIC : list Z := [0x00; 0x61; 0x73; 0x6D].
Definition VERSION : list Z := [0x01; 0x00; 0x00; 0x00].

Inductive LoadError := TooShort | BadMagic | BadVersion | InvalidLeb128 | UnexpectedEof.

#[export] Instance LoadError_eq_dec : EqDecision LoadError.
Proof. solve_decision. Defined.

Definition LoadError_as_str (e : LoadError) : list Z :=
  match e with
  | TooShort => str "binary too short"
  | BadMagic => str "bad magic (not a WASM file)"
  | BadVersion => str "unsupported WASM version"
  | InvalidLeb128 => str "malformed LEB-128 integer"
  | UnexpectedEof => str "unexpected end of section data"
  end.

Record Module_ := mkModule {
  type_section : option (list Z);
  import_section : option (list Z);
  function_section : option (list Z);
  table_section : option (list Z);
  memory_section : option (list Z);
  global_section : option (list Z);
  export_section : option (list Z);
  element_section : option (list Z);
  code_section : option (list Z);
  data_section : option (list Z)
}.

Definition empty_module : Module_ :=
  mkModule None None None None None None None None None None.

(** ** Operations *)

(** The [match section_id] of the section loop. *)
Definition store_section (id : Z) (data : list Z) (m : Module_) : Module_ :=
  let '(mkModule t i f tb me g ex el c d) := m in
  if id =? SECTION_TYPE then mkModule (Some data) i f tb me g ex el c d else
  if id =? SECTION_IMPORT then mkModule t (Some data) f tb me g ex el c d else
  if id =? SECTION_FUNCTION then mkModule t i (Some data) tb me g ex el c d else
  if id =? SECTION_TABLE then mkModule t i f (Some data) me g ex el c d else
  if id =? SECTION_MEMORY then mkModule t i f tb (Some data) g ex el c d else
  if id =? SECTION_GLOBAL then mkModule t i f tb me (Some data) ex el c d else
  if id =? SECTION_EXPORT then mkModule t i f tb me g (Some data) el c d else
  if id =? SECTION_ELEMENT then mkModule t i f tb me g ex (Some data) c d else
  if id =? SECTION_CODE then mkModule t i f tb me g ex el (Some data) d else
  if id =? SECTION_DATA then mkModule t i f tb me g ex el c (Some data)
  else m.

(** The section loop. Every iteration reads at least two bytes, so
    [length bytes] iterations are enough ([load_total]). *)
Fixpoint load_loop (fuel : nat) (bytes : list Z) (cursor : nat) (m : Module_)
    : result LoadError Module_ :=
  match fuel with
  | O => OutOfFuel
  | S fuel' =>
    if (length bytes <=? cursor)%nat then Ok m else
    let? section_id := or_panic (bytes !! cursor) in
    let cursor := (cursor + 1)%nat in
    let? rest := slice_from bytes cursor in
    let? (size, consumed) := ok_or (read_u32_leb128 rest) InvalidLeb128 in
    let cursor := (cursor + consumed)%nat in
    let end_ := Z.of_nat cursor + size in
    if Z.of_nat (length bytes) <? end_ then Err UnexpectedEof else
    let? data := slice_range bytes cursor (Z.to_nat end_) in
    load_loop fuel' bytes (Z.to_nat end_) (store_section section_id data m)
  end.

Definition load (bytes : list Z) : result LoadError Module_ :=
  if (length bytes <? 8)%nat then Err TooShort else
  if negb (bytes_eqb (take 4 bytes) MAGIC) then Err BadMagic else
  if negb (bytes_eqb (take 4 (drop 4 bytes)) VERSION) then Err BadVersion else
  load_loop (length bytes) bytes 8 empty_module.

(** [None] is [Err tt]; the loop body runs [count] times. *)
Fixpoint find_export_loop (n : nat) (bytes : list Z) (name : list Z) (cur : nat)
    : result unit Z :=
  match n with
  | O => Err tt
  | S n' =>
    let? rest := slice_from bytes cur in
    let? (name_len, k) := ok_or (read_u32_leb128 rest) tt in
    let cur := (cur + k)%nat in
    let name_end := Z.of_nat cur + name_len in
    if Z.of_nat (length bytes) <? name_end then Err tt else
    let? raw := slice_range bytes cur (Z.to_nat name_end) in
    let? export_name := ok_or (from_utf8 raw) tt in
    let cur := Z.to_nat name_end in
    if (length bytes <=? cur)%nat then Err tt else
    let? kind := or_panic (bytes !! cur) in
    let cur := (cur + 1)%nat in
    let? rest := slice_from bytes cur in
    let? (index, k) := ok_or (read_u32_leb128 rest) tt in
    let cur := (cur + k)%nat in
    if (kind =? 0) && bytes_eqb export_name name then Ok index
    else find_export_loop n' bytes name cur
  end.

Definition find_export (m : Module_) (name : list Z) : result unit Z :=
  let? bytes := ok_or (export_section m) tt in
  let? (count, n) := ok_or (read_u32_leb128 bytes) tt in
  find_export_loop (Z.to_nat count) bytes name n.

(** [section.get(cur..cur + n)] *)
Definition get_range (bs : list Z) (cur : nat) (n : Z) : option (list Z) :=
  if Z.of_nat cur + n <=? Z.of_nat (length bs)
  then Some (take (Z.to_nat n) (drop cur bs)) else None.

(** Table and memory limits: flag byte, minimum, maximum when flagged. *)
Definition skip_limits {E} (stop : E) (bs : list Z) (cur : nat) : result E nat :=
  let? flag := ok_or (bs !! cur) stop in
  let cur := (cur + 1)%nat in
  let? rest := slice_from bs cur in
  let? (_, n) := ok_or (read_u32_leb128 rest) stop in
  let cur := (cur + n)%nat in
  if flag =? 0 then Ok cur else
  let? rest := slice_from bs cur in
  let? (_, n) := ok_or (read_u32_leb128 rest) stop in
  Ok (cur + n)%nat.

Section imports.
(** The callback [f(module_name, func_name)] acts on an accumulator [a]; an
    early return ([?]) leaves with the accumulator reached so far. *)
Context {A : Type} (f : list Z -> list Z -> A -> A).

Fixpoint func_import_loop (n : nat) (section : list Z) (cur : nat) (a : A) : result A A :=
  match n with
  | O => Ok a
  | S n' =>
    let? rest := slice_from section cur in
    let? (ml, k) := ok_or (read_u32_leb128 rest) a in
    let cur := (cur + k)%nat in
    let? raw := ok_or (get_range section cur ml) a in
    let? mod_name := ok_or (from_utf8 raw) a in
    let cur := (cur + Z.to_nat ml)%nat in
    let? rest := slice_from section cur in
    let? (nl, k) := ok_or (read_u32_leb128 rest) a in
    let cur := (cur + k)%nat in
    let? raw := ok_or (get_range section cur nl) a in
    let? func_name := ok_or (from_utf8 raw) a in
    let cur := (cur + Z.to_nat nl)%nat in
    let? kind := ok_or (section !! cur) a in
    let cur := (cur + 1)%nat in
    if kind =? 0 then
      let? rest := slice_from section cur in
      let? (_, k) := ok_or (read_u32_leb128 rest) a in
      func_import_loop n' section (cur + k) (f mod_name func_name a)
    else if kind =? 1 then
      let? cur := skip_limits a section (cur + 1) in
      func_import_loop n' section cur a
    else if kind =? 2 then
      let? cur := skip_limits a section cur in
      func_import_loop n' section cur a
    else if kind =? 3 then func_import_loop n' section (cur + 2) a
    else Err a
  end.

Definition for_each_func_import (section : list Z) (a : A) : result unit A :=
  let inner :=
    let? (count, n) := ok_or (read_u32_leb128 section) a in
    func_import_loop (Z.to_nat count) section n a in
  match inner with
  | Ok a' | Err a' => Ok a'
  | Panic => Panic
  | OutOfFuel => OutOfFuel
  end.
End imports.

Definition read_memory_min_pages (section : list Z) : result unit Z :=
  let inner : result unit Z :=
    let? (count, n) := ok_or (read_u32_leb128 section) tt in
    if count =? 0 then Ok 0 else
    if (length section <=? n)%nat then Err tt else
    let? rest := slice_from section (n + 1) in
    let? (min, _) := ok_or (read_u32_leb128 rest) tt in
    Ok min in
  match inner with Err _ => Ok 0 | r => r end.

(** ** Reference encoders of the parsed sections *)

Definition encode_section (s : Z * list Z) : list Z :=
  s.1 :: encode_u32 (Z.of_nat (length s.2)) ++ s.2.

Definition encode_module (secs : list (Z * list Z)) : list Z :=
  MAGIC ++ VERSION ++ concat (map encode_section secs).

(** The module the sections describe: later sections of an id replace earlier. *)
Definition module_of (secs : list (Z * list Z)) : Module_ :=
  fold_left (fun m s => store_section s.1 s.2 m) secs empty_module.

Record export := mkExport { ex_name : list Z; ex_kind : Z; ex_index : Z }.

Definition encode_name (n : list Z) : list Z := encode_u32 (Z.of_nat (length n)) ++ n.

Definition encode_export (e : export) : list Z :=
  encode_name (ex_name e) ++ ex_kind e :: encode_u32 (ex_index e).

Definition encode_vec {A} (enc : A -> list Z) (l : list A) : list Z :=
  encode_u32 (Z.of_nat (length l)) ++ concat (map enc l).

Definition export_ok (e : export) : Prop :=
  Z.of_nat (length (ex_name e)) < 4294967296 /\ utf8_valid (ex_name e) = true /\
  is_u32 (ex_index e).

Inductive import_desc :=
| IFunc (type_idx : Z)
| ITable (reftype : Z) (min : Z) (max : option Z)
| IMem (min : Z) (max : option Z)
| IGlobal (valtype mutability : Z).

Record import := mkImport { im_mod : list Z; im_name : list Z; im_desc : import_desc }.

Definition encode_limits (min : Z) (max : option Z) : list Z :=
  match max with
  | None => 0 :: encode_u32 min
  | Some m => 1 :: encode_u32 min ++ encode_u32 m
  end.

Definition encode_desc (d : import_desc) : list Z :=
  match d with
  | IFunc t => 0 :: encode_u32 t
  | ITable r mi ma => 1 :: r :: encode_limits mi ma
  | IMem mi ma => 2 :: encode_limits mi ma
  | IGlobal v mu => [3; v; mu]
  end.

Definition encode_import (i : import) : list Z :=
  encode_name (im_mod i) ++ encode_name (im_name i) ++ encode_desc (im_desc i).

Definition limits_ok (mi : Z) (ma : option Z) : Prop :=
  is_u32 mi /\ match ma with Some m => is_u32 m | None => True end.

Definition import_ok (i : import) : Prop :=
  Z.of_nat (length (im_mod i)) < 4294967296 /\ utf8_valid (im_mod i) = true /\
  Z.of_nat (length (im_name i)) < 4294967296 /\ utf8_valid (im_name i) = true /\
  match im_desc i with
  | IFunc t => is_u32 t
  | ITable _ mi ma | IMem mi ma => limits_ok mi ma
  | IGlobal _ _ => True
  end.

Definition is_func_import (i : import) : bool :=
  match im_desc i with IFunc _ => true | _ => false end.

(** ** Step lemmas for the parsers *)

Lemma read_at bs cur v r :
  at_cursor bs cur (encode_u32 v ++ r) -> is_u32 v ->
  slice_from (E := unit) bs cur = Ok (encode_u32 v ++ r) /\
  read_u32_leb128 (encode_u32 v ++ r) = Some (v, length (encode_u32 v)) /\
  at_cursor bs (cur + length (encode_u32 v)) r.
Proof.
  intros H Hv. split; [by apply at_slice_from|]. split; [by apply read_u32_encode|].
  by apply at_skip.
Qed.

(** One [let? rest := slice_from ..; let? (v, n) := read_u32_leb128 rest] step. *)
Ltac parse_u32 H Hv :=
  rewrite (at_slice_from _ _ _ H); cbn [rbind];
  rewrite (read_u32_encode _ _ Hv); cbn [ok_or rbind];
  apply at_skip in H.

Lemma len_u32 (l : list Z) : Z.of_nat (length l) < 4294967296 -> is_u32 (Z.of_nat (length l)).
Proof. unfold is_u32. lia. Qed.

Lemma get_range_at bs cur x r :
  at_cursor bs cur (x ++ r) -> get_range bs cur (Z.of_nat (length x)) = Some x.
Proof.
  intros H. pose proof (at_length _ _ _ H) as Hl. rewrite length_app in Hl.
  unfold get_range. rewrite (proj2 (Z.leb_le _ _)) by lia.
  rewrite Nat2Z.id. destruct H as [_ ->]. by rewrite take_app_length.
Qed.

Lemma from_utf8_valid n : utf8_valid n = true -> from_utf8 n = Some n.
Proof. unfold from_utf8. by intros ->. Qed.

(** ** Loading *)

Lemma load_loop_encode secs fuel bs cur m :
  at_cursor bs cur (concat (map encode_section secs)) ->
  Forall (fun s => Z.of_nat (length s.2) < 4294967296) secs ->
  (length secs < fuel)%nat ->
  load_loop fuel bs cur m = Ok (fold_left (fun m s => store_section s.1 s.2 m) secs m).
Proof.
  revert fuel cur m; induction secs as [|[id data] secs IH]; intros fuel cur m H Hok Hf;
    (destruct fuel as [|fuel]; [simpl in Hf; lia|]); cbn [load_loop].
  - pose proof (at_length _ _ _ H) as Hl. simpl in Hl.
    rewrite (proj2 (Nat.leb_le _ _)) by lia. done.
  - apply Forall_cons_iff in Hok as [Hlen Hok].
    cbn [map concat] in H. unfold encode_section at 1 in H. cbn [fst snd] in *.
    rewrite <- app_comm_cons, <- app_assoc in H.
    pose proof (at_length _ _ _ H) as Hl. cbn [length] in Hl.
    rewrite (proj2 (Nat.leb_gt _ _)) by lia.
    rewrite (at_lookup _ _ _ _ H). cbn [or_panic rbind].
    apply at_skip1 in H. parse_u32 H (len_u32 _ Hlen).
    pose proof (at_length _ _ _ H) as Hl'. rewrite length_app in Hl'.
    rewrite (proj2 (Z.ltb_ge _ _)) by lia.
    erewrite at_slice_range by (eauto; lia). cbn [rbind].
    simpl fold_left. apply IH; [|done|simpl in Hf; lia].
    apply at_skip in H. replace (Z.to_nat _) with (cur + 1 + length (encode_u32 (Z.of_nat (length data))) + length data)%nat by lia.
    done.
Qed.

Lemma encode_sections_length secs :
  (length secs <= length (concat (map encode_section secs)))%nat.
Proof.
  induction secs as [|s secs IH]; simpl; [lia|]. rewrite length_app. lia.
Qed.

Lemma load_encode secs :
  Forall (fun s => Z.of_nat (length s.2) < 4294967296) secs ->
  load (encode_module secs) = Ok (module_of secs).
Proof.
  intros Hok. unfold load, encode_module.
  pose proof (encode_sections_length secs) as Hl.
  rewrite (proj2 (Nat.ltb_ge _ _)) by (rewrite !length_app; simpl; lia).
  unfold bytes_eqb. rewrite !bool_decide_eq_true_2 by done. cbn [negb].
  rewrite app_assoc. apply load_loop_encode; [|done|].
  - by apply (at_app _ (MAGIC ++ VERSION)).
  - rewrite length_app. simpl. lia.
Qed.

(** The parsed fields, by section id. *)
Definition section_of (id : Z) (m : Module_) : option (list Z) :=
  if id =? SECTION_TYPE then type_section m else
  if id =? SECTION_IMPORT then import_section m else
  if id =? SECTION_FUNCTION then function_section m else
  if id =? SECTION_TABLE then table_section m else
  if id =? SECTION_MEMORY then memory_section m else
  if id =? SECTION_GLOBAL then global_section m else
  if id =? SECTION_EXPORT then export_section m else
  if id =? SECTION_ELEMENT then element_section m else
  if id =? SECTION_CODE then code_section m else
  if id =? SECTION_DATA then data_section m
  else None.

Definition known_section (id : Z) : bool := ((1 <=? id) && (id <=? 7)) || ((9 <=? id) && (id <=? 11)).

Lemma section_of_store id id' data m :
  section_of id (store_section id' data m) =
  if (id =? id') && known_section id then Some data else section_of id m.
Proof.
  destruct (known_section id) eqn:Hk.
  - unfold known_section in Hk.
    assert (id = 1 \/ id = 2 \/ id = 3 \/ id = 4 \/ id = 5 \/ id = 6 \/ id = 7 \/
            id = 9 \/ id = 10 \/ id = 11) as Hid
      by (apply orb_true_iff in Hk as [Hk|Hk]; zbool; lia).
    rewrite andb_true_r. destruct m. unfold store_section.
    destruct (id =? id') eqn:He; zbool.
    + subst id'. destruct_or! Hid; subst; reflexivity.
    + repeat match goal with
        |- context [if id' =? ?c then _ else _] => destruct (id' =? c) eqn:?; zbool
      end; subst; destruct_or! Hid; subst; try reflexivity; exfalso; apply He; reflexivity.
  - rewrite andb_false_r. unfold known_section in Hk.
    assert (forall m, section_of id m = None) as Hnone; [|by rewrite !Hnone].
    intros m'. apply orb_false_elim in Hk as [H1 H2].
    unfold section_of.
    repeat match goal with |- context [if id =? ?c then _ else _] =>
      let E := fresh in destruct (id =? c) eqn:E; zbool; [subst id; discriminate|] end.
    done.
Qed.

(** [d] is a contiguous part of [bytes]. *)
Definition subslice (d bytes : list Z) : Prop := exists pre post, bytes = pre ++ d ++ post.

Lemma slice_range_subslice {E} bytes a b d :
  slice_range (E := E) bytes a b = Ok d ->
  subslice d bytes /\ length d = (b - a)%nat /\ (a <= b <= length bytes)%nat.
Proof.
  unfold slice_range. destruct (_ && _) eqn:Hb; [|done]. intros [= <-]. zbool.
  split; [|split; [|lia]].
  - exists (take a bytes), (drop (b - a) (drop a bytes)).
    by rewrite take_drop, take_drop.
  - rewrite length_take, length_drop. lia.
Qed.

(** From any cursor inside the buffer the section loop ends without panicking,
    and every section it stores is a part of the buffer. *)
Lemma load_loop_total fuel bytes cursor m :
  (cursor <= length bytes)%nat -> (length bytes - cursor < fuel)%nat ->
  (forall id d, section_of id m = Some d -> subslice d bytes) ->
  match load_loop fuel bytes cursor m with
  | Ok m' => forall id d, section_of id m' = Some d -> subslice d bytes
  | Err e => e = InvalidLeb128 \/ e = UnexpectedEof
  | Panic | OutOfFuel => False
  end.
Proof.
  revert cursor m; induction fuel as [|fuel IH]; intros cursor m Hc Hf Hm; [lia|].
  cbn [load_loop]. destruct (length bytes <=? cursor)%nat eqn:Hle; zbool; [done|].
  destruct (lookup_lt_is_Some_2 bytes cursor) as [b Hb]; [lia|].
  rewrite Hb. cbn [or_panic rbind]. unfold slice_from.
  rewrite (proj2 (Nat.leb_le (cursor + 1) _)) by lia. cbn [rbind].
  destruct (read_u32_leb128 _) as [[size k]|] eqn:Hr; cbn [ok_or rbind]; [|auto].
  apply read_u32_bounds in Hr as (Hsz & Hk & Hkl). rewrite length_drop in Hkl.
  destruct (_ <? _) eqn:He; zbool; [auto|].
  unfold is_u32 in Hsz.
  destruct (slice_range (E := LoadError) bytes (cursor + 1 + k)%nat
              (Z.to_nat (Z.of_nat (cursor + 1 + k) + size))) as [d| | |] eqn:Hd.
  2-4: unfold slice_range in Hd;
       rewrite !(proj2 (Nat.leb_le _ _)) in Hd by lia; discriminate Hd.
  cbn [rbind]. apply IH; [lia|lia|].
  intros id d' Hid. rewrite section_of_store in Hid.
  destruct (_ && _); [|by eapply Hm].
  injection Hid as <-. apply slice_range_subslice in Hd. tauto.
Qed.

Lemma section_of_empty id : section_of id empty_module = None.
Proof. unfold section_of. by repeat case_split. Qed.

Lemma load_total bytes :
  match load bytes with
  | Ok m => forall id d, section_of id m = Some d -> subslice d bytes
  | Err _ => True
  | Panic | OutOfFuel => False
  end.
Proof.
  unfold load. destruct (_ <? 8)%nat eqn:Hl; [done|]. zbool.
  do 2 (destruct (negb _); [done|]).
  pose proof (load_loop_total (length bytes) bytes 8 empty_module) as H.
  destruct (load_loop _ _ _ _); auto; apply H; try lia;
    intros id' d'; by rewrite section_of_empty.
Qed.

(** ** Exports *)

(** The function export a table names, first match first. *)
Definition lookup_export (name : list Z) (es : list export) : option Z :=
  option_map ex_index
    (head (List.filter (fun e => (ex_kind e =? 0) && bytes_eqb (ex_name e) name) es)).

Lemma find_export_loop_encode es bs name cur :
  at_cursor bs cur (concat (map encode_export es)) -> Forall export_ok es ->
  find_export_loop (length es) bs name cur = ok_or (lookup_export name es) tt.
Proof.
  revert cur; induction es as [|[nm kd ix] es IH]; intros cur H Hok; [done|].
  apply Forall_cons_iff in Hok as [(Hlen & Hutf & Hix) Hok]. cbn [ex_name ex_index] in *.
  cbn [map concat length] in *. unfold encode_export at 1, encode_name at 1 in H.
  cbn [ex_name ex_kind ex_index] in H. rewrite <- !app_assoc in H. cbn [app] in H.
  cbn [find_export_loop]. parse_u32 H (len_u32 _ Hlen).
  pose proof (at_length _ _ _ H) as Hl. rewrite length_app in Hl. cbn [length] in Hl.
  rewrite (proj2 (Z.ltb_ge _ _)) by lia.
  erewrite at_slice_range by (eauto; lia). cbn [rbind].
  rewrite (from_utf8_valid _ Hutf). cbn [ok_or rbind].
  apply at_skip in H.
  replace (Z.to_nat _) with (cur + length (encode_u32 (Z.of_nat (length nm))) + length nm)%nat by lia.
  rewrite (proj2 (Nat.leb_gt _ _)) by lia.
  rewrite (at_lookup _ _ _ _ H). cbn [or_panic rbind].
  apply at_skip1 in H. parse_u32 H Hix.
  unfold lookup_export. cbn [List.filter ex_kind ex_name].
  destruct (_ && _); [done|]. by apply IH.
Qed.

Lemma encode_vec_count {A} (enc : A -> list Z) l :
  Z.of_nat (length l) < 4294967296 ->
  read_u32_leb128 (encode_vec enc l)
    = Some (Z.of_nat (length l), length (encode_u32 (Z.of_nat (length l)))) /\
  at_cursor (encode_vec enc l) (length (encode_u32 (Z.of_nat (length l))))
    (concat (map enc l)).
Proof.
  intros Hl. split; [by apply read_u32_encode; unfold is_u32; lia|].
  by apply at_app.
Qed.

Lemma find_export_encode m es name :
  export_section m = Some (encode_vec encode_export es) ->
  Z.of_nat (length es) < 4294967296 -> Forall export_ok es ->
  find_export m name = ok_or (lookup_export name es) tt.
Proof.
  intros Hm Hl Hok. unfold find_export. rewrite Hm. cbn [ok_or rbind].
  destruct (encode_vec_count encode_export es Hl) as [-> Hat]. cbn [ok_or rbind].
  rewrite Nat2Z.id. by apply find_export_loop_encode.
Qed.

Lemma find_export_loop_safe n bytes name cur :
  (cur <= length bytes)%nat ->
  match find_export_loop n bytes name cur with
  | Ok v => is_u32 v | Err _ => True | Panic | OutOfFuel => False
  end.
Proof.
  revert cur; induction n as [|n IH]; intros cur Hc; [done|].
  cbn [find_export_loop]. unfold slice_from at 1.
  rewrite (proj2 (Nat.leb_le cur _)) by lia. cbn [rbind].
  destruct (read_u32_leb128 (drop cur bytes)) as [[nl k]|] eqn:Hr; cbn [ok_or rbind]; [|done].
  apply read_u32_bounds in Hr as (Hnl & Hk & Hkl). rewrite length_drop in Hkl.
  unfold is_u32 in Hnl. destruct (_ <? _) eqn:He; zbool; [done|].
  unfold slice_range. rewrite !(proj2 (Nat.leb_le _ _)) by lia. cbn [andb rbind].
  destruct (from_utf8 _) as [en|]; cbn [ok_or rbind]; [|done].
  destruct (length bytes <=? _)%nat eqn:Hle; zbool; [done|].
  destruct (lookup_lt_is_Some_2 bytes (Z.to_nat (Z.of_nat (cur + k) + nl))) as [b Hb]; [lia|].
  rewrite Hb. cbn [or_panic rbind]. unfold slice_from.
  rewrite (proj2 (Nat.leb_le (_ + 1) _)) by lia. cbn [rbind].
  destruct (read_u32_leb128 (drop (_ + 1) bytes)) as [[ix k']|] eqn:Hr'; cbn [ok_or rbind]; [|done].
  apply read_u32_bounds in Hr' as (Hix & Hk' & Hkl'). rewrite length_drop in Hkl'.
  destruct (_ && _); [done|]. apply IH. lia.
Qed.

Lemma find_export_safe m name :
  match find_export m name with
  | Ok v => is_u32 v | Err _ => True | Panic | OutOfFuel => False
  end.
Proof.
  unfold find_export. destruct (export_section m) as [bytes|]; cbn [ok_or rbind]; [|done].
  destruct (read_u32_leb128 bytes) as [[c k]|] eqn:Hr; cbn [ok_or rbind]; [|done].
  apply read_u32_bounds in Hr. apply find_export_loop_safe. lia.
Qed.

(** ** Imports *)

Lemma skip_limits_at {E} (stop : E) bs cur mi ma r :
  at_cursor bs cur (encode_limits mi ma ++ r) -> limits_ok mi ma ->
  skip_limits stop bs cur = Ok (cur + length (encode_limits mi ma))%nat.
Proof.
  intros H [Hmi Hma]. unfold skip_limits. destruct ma as [ma|]; cbn [encode_limits app] in H.
  - rewrite (at_lookup _ _ _ _ H). cbn [ok_or rbind].
    apply at_skip1 in H. rewrite <- app_assoc in H. parse_u32 H Hmi. cbn [Z.eqb].
    parse_u32 H Hma. f_equal. simpl. rewrite length_app. lia.
  - rewrite (at_lookup _ _ _ _ H). cbn [ok_or rbind].
    apply at_skip1 in H. parse_u32 H Hmi. cbn [Z.eqb]. f_equal. simpl. lia.
Qed.

(** One length-prefixed name. *)
Ltac parse_name H Hlen Hutf :=
  unfold encode_name at 1 in H; rewrite <- app_assoc in H;
  parse_u32 H (len_u32 _ Hlen);
  rewrite (get_range_at _ _ _ _ H); cbn [ok_or rbind];
  rewrite (from_utf8_valid _ Hutf); cbn [ok_or rbind];
  rewrite Nat2Z.id; apply at_skip in H.

Lemma func_import_loop_encode {A} (f : list Z -> list Z -> A -> A) ims bs cur a :
  at_cursor bs cur (concat (map encode_import ims)) -> Forall import_ok ims ->
  func_import_loop f (length ims) bs cur a =
  Ok (fold_left (fun a i => f (im_mod i) (im_name i) a) (List.filter is_func_import ims) a).
Proof.
  revert cur a; induction ims as [|[mo nm d] ims IH]; intros cur a H Hok; [done|].
  apply Forall_cons_iff in Hok as [(Hml & Hmu & Hnl & Hnu & Hd) Hok].
  cbn [im_mod im_name im_desc] in *.
  cbn [map concat length] in *. unfold encode_import at 1 in H.
  cbn [im_mod im_name im_desc] in H. rewrite <- !app_assoc in H.
  cbn [func_import_loop]. parse_name H Hml Hmu. parse_name H Hnl Hnu.
  destruct d as [t|rt mi ma|mi ma|v mu]; cbn [encode_desc app] in H;
    rewrite (at_lookup _ _ _ _ H); cbn [ok_or rbind]; apply at_skip1 in H; cbn [Z.eqb Pos.eqb].
  - parse_u32 H Hd. cbn [List.filter is_func_import im_desc]. by apply IH.
  - apply at_skip1 in H. rewrite (skip_limits_at _ _ _ _ _ _ H Hd). cbn [rbind].
    apply at_skip in H. by apply IH.
  - rewrite (skip_limits_at _ _ _ _ _ _ H Hd). cbn [rbind]. apply at_skip in H. by apply IH.
  - apply IH; [|done]. apply (at_skip _ _ [v; mu] _ H).
Qed.

Lemma for_each_func_import_encode {A} (f : list Z -> list Z -> A -> A) ims a :
  Z.of_nat (length ims) < 4294967296 -> Forall import_ok ims ->
  for_each_func_import f (encode_vec encode_import ims) a =
  Ok (fold_left (fun a i => f (im_mod i) (im_name i) a) (List.filter is_func_import ims) a).
Proof.
  intros Hl Hok. unfold for_each_func_import.
  destruct (encode_vec_count encode_import ims Hl) as [-> Hat]. cbn [ok_or rbind].
  rewrite Nat2Z.id. by rewrite func_import_loop_encode.
Qed.

(** ** Memory section *)

Lemma read_memory_min_pages_encode lims :
  Z.of_nat (length lims) < 4294967296 -> Forall (fun l => limits_ok l.1 l.2) lims ->
  read_memory_min_pages (encode_vec (fun l => encode_limits l.1 l.2) lims)
    = Ok (match lims with [] => 0 | l :: _ => l.1 end).
Proof.
  intros Hl Hok. unfold read_memory_min_pages.
  destruct (encode_vec_count (fun l => encode_limits l.1 l.2) lims Hl) as [-> H].
  cbn [ok_or rbind]. destruct lims as [|[mi ma] lims]; [done|].
  apply Forall_cons_iff in Hok as [[Hmi Hma] _]. cbn [fst snd] in *.
  rewrite (proj2 (Z.eqb_neq _ _)) by (simpl length; lia).
  cbn [map concat fst snd] in H.
  assert (exists b r, encode_limits mi ma ++ concat (map (fun l => encode_limits l.1 l.2) lims)
            = b :: encode_u32 mi ++ r) as (b & r & Hr).
  { destruct ma; simpl; [rewrite <- app_assoc|]; eauto. }
  rewrite Hr in H. pose proof (at_length _ _ _ H) as Hlen. cbn [length] in Hlen.
  rewrite (proj2 (Nat.leb_gt _ _)) by (simpl length in *; lia).
  apply at_skip1 in H. rewrite (at_slice_from _ _ _ H). cbn [rbind].
  by rewrite (read_u32_encode _ _ Hmi).
Qed.

Lemma read_memory_min_pages_range section :
  exists n, read_memory_min_pages section = Ok n /\ is_u32 n.
Proof.
  unfold read_memory_min_pages.
  destruct (read_u32_leb128 section) as [[c k]|] eqn:Hr; cbn [ok_or rbind].
  2: { exists 0. split; [done|unfold is_u32; lia]. }
  apply read_u32_bounds in Hr as (Hc & Hk & Hkl).
  destruct (c =? 0). { exists 0. split; [done|unfold is_u32; lia]. }
  destruct (_ <=? k)%nat eqn:Hle; zbool. { exists 0. split; [done|unfold is_u32; lia]. }
  unfold slice_from. rewrite (proj2 (Nat.leb_le (k + 1) _)) by lia. cbn [rbind].
  destruct (read_u32_leb128 (drop _ _)) as [[v j]|] eqn:Hr'; cbn [ok_or rbind].
  - apply read_u32_bounds in Hr'. exists v. tauto.
  - exists 0. split; [done|unfold is_u32; lia].
Qed.
