(* ===== verification/FileTable.v ===== *)
(** * The in-memory file table ([kernel/src/fs/mod.rs])

    The static name registry, the write-buffer pool and the boot arena. A
    [&'static [u8]] stays a reference into the pool or the arena, so that what
    a later allocation does to an earlier file is a statement, not a
    convention. The FAT volume (crate [fatfs]) is a parameter. *)

From S2P Require Import Prelude.

Definition MAX_FILES : nat := 64.
Definition WRITE_SLOTS : nat := 16.
Definition WRITE_SLOT_CAP : Z := 4096.
Definition FILE_BUF_SIZE : Z := 4 * 1024 * 1024.
Definition DISK_SLOTS : nat := 64.

(** A ['static] slice: in the write pool, in the arena, or in the image
    embedded in the kernel binary. *)
Inductive dref :=
| DWrite (slot : nat) (len : Z)
| DBuf (base len : Z)
| DImage (bs : list Z).

Record File := mkFile { name : list Z; name_len : nat; data : dref }.

Record FsState := mkFs {
  FILE_TABLE : list (option File);
  FILE_COUNT : nat;
  WRITE_POOL : list slice;
  WRITE_POOL_NEXT : nat;
  FILE_BUF : slice;
  FILE_BUF_NEXT : Z
}.

(** The statics as the linker lays them out. *)
Definition fs_static : FsState :=
  mkFs (replicate MAX_FILES None) 0 (replicate WRITE_SLOTS (zero_slice WRITE_SLOT_CAP)) 0
       (zero_slice FILE_BUF_SIZE) 0.

Definition dref_len (d : dref) : Z :=
  match d with DWrite _ l => l | DBuf _ l => l | DImage bs => Z.of_nat (length bs) end.

(** The bytes behind a reference. *)
Definition deref (st : FsState) (d : dref) : list Z :=
  match d with
  | DWrite slot len =>
    match WRITE_POOL st !! slot with Some s => srange s 0 len | None => [] end
  | DBuf base len => srange (FILE_BUF st) base (base + len)
  | DImage bs => bs
  end.

Definition File_name_str (f : File) : list Z :=
  default [] (from_utf8 (take (name_len f) (name f))).

Definition set_table (st : FsState) t c : FsState :=
  mkFs t c (WRITE_POOL st) (WRITE_POOL_NEXT st) (FILE_BUF st) (FILE_BUF_NEXT st).

Definition fs_init (st : FsState) : FsState := set_table st (replicate MAX_FILES None) 0.

(** [buf[..len].copy_from_slice(..)] into a zeroed array of [n] bytes. *)
Definition pad_name (n : nat) (nm : list Z) : list Z :=
  take n nm ++ replicate (n - length nm) 0.

Definition register_file (nm : list Z) (d : dref) (st : FsState) : FsState :=
  if (FILE_COUNT st <? MAX_FILES)%nat then
    let len := Nat.min (length nm) 64 in
    let f := mkFile (pad_name 64 nm) len d in
    set_table st (<[FILE_COUNT st := Some f]> (FILE_TABLE st)) (S (FILE_COUNT st))
  else st.

(** The file of slot [i] when its name is [nm]. *)
Definition entry_named (st : FsState) (nm : list Z) (i : nat) : option File :=
  match FILE_TABLE st !! i with
  | Some (Some f) => if bytes_eqb (File_name_str f) nm then Some f else None
  | _ => None
  end.

Definition find_file (nm : list Z) (st : FsState) : option dref :=
  data <$> find_from (entry_named st nm) 0 (FILE_COUNT st).

Definition remove_file (nm : list Z) (st : FsState) : bool * FsState :=
  match find_from (fun i => (fun _ => i) <$> entry_named st nm i) 0 (FILE_COUNT st) with
  | Some i => (true, set_table st (<[i := None]> (FILE_TABLE st)) (FILE_COUNT st))
  | None => (false, st)
  end.

(** [f(name, size)] for every registered file, in order. *)
Definition for_each_file {A} (f : list Z -> Z -> A -> A) (st : FsState) (a : A) : A :=
  fold_left (fun a o => match o with
                        | Some fl => f (File_name_str fl) (dref_len (data fl)) a
                        | None => a end)
    (take (FILE_COUNT st) (FILE_TABLE st)) a.

(** [None] when the data is too long or every slot was claimed. *)
Definition alloc_write_buf (bs : list Z) (st : FsState) : option dref * FsState :=
  if WRITE_SLOT_CAP <? Z.of_nat (length bs) then (None, st) else
  if (WRITE_SLOTS <=? WRITE_POOL_NEXT st)%nat then (None, st) else
  let slot := WRITE_POOL_NEXT st in
  match WRITE_POOL st !! slot with
  | Some s =>
    match swrite_bytes (E := unit) s 0 bs with
    | Ok s' =>
      (Some (DWrite slot (Z.of_nat (length bs))),
       mkFs (FILE_TABLE st) (FILE_COUNT st) (<[slot := s']> (WRITE_POOL st)) (S slot)
            (FILE_BUF st) (FILE_BUF_NEXT st))
    | _ => (None, st)
    end
  | None => (None, st)
  end.

(** [(FILE_BUF_NEXT + 7) & !7] *)
Definition align8 (n : Z) : Z := Z.land (n + 7) (Z.lnot 7).

(** The base of the carved region, or [None]. *)
Definition alloc_disk_slot (len : Z) (st : FsState) : option Z * FsState :=
  if len =? 0 then (None, st) else
  let base := align8 (FILE_BUF_NEXT st) in
  let new_end := base + len in
  if FILE_BUF_SIZE <? new_end then (None, st) else
  (Some base, mkFs (FILE_TABLE st) (FILE_COUNT st) (WRITE_POOL st) (WRITE_POOL_NEXT st)
                   (FILE_BUF st) new_end).

(** [copy_nonoverlapping(data, ptr, len)] into the carved region. *)
Definition fill_disk_slot (base : Z) (bs : list Z) (st : FsState) : FsState :=
  match swrite_bytes (E := unit) (FILE_BUF st) base bs with
  | Ok b => mkFs (FILE_TABLE st) (FILE_COUNT st) (WRITE_POOL st) (WRITE_POOL_NEXT st)
                 b (FILE_BUF_NEXT st)
  | _ => st
  end.

Section fat.
(** The mounted volume: what it lists, reads and stores. *)
Context {Fat : Type}.
Context (fat_list : Fat -> list (list Z * Z)).
Context (fat_read_file : Fat -> list Z -> option (list Z)).
Context (fat_write_file : Fat -> list Z -> list Z -> bool * Fat).

(** The names are copied first (at most [DISK_SLOTS], cut at 64 bytes). *)
Definition collect_names (fat : Fat) : list (list Z) :=
  map (fun e => take 64 e.1) (take DISK_SLOTS (fat_list fat)).

Definition load_one (fat : Fat) (st : FsState) (raw : list Z) : FsState :=
  let nm := default [] (from_utf8 raw) in
  if bool_decide (nm = []) then st else
  match fat_read_file fat nm with
  | None => st
  | Some bs =>
    match alloc_disk_slot (Z.of_nat (length bs)) st with
    | (Some base, st') =>
      register_file nm (DBuf base (Z.of_nat (length bs))) (fill_disk_slot base bs st')
    | (None, st') => st'
    end
  end.

Definition load_fat_files_to_table (fat : Fat) (st : FsState) : FsState :=
  fold_left (load_one fat) (collect_names fat) st.

Definition save_to_fat (st : FsState) (fat : Fat) : nat * Fat :=
  fold_left (fun acc o =>
    match o with
    | Some f =>
      let '(ok, fat') := fat_write_file acc.2 (File_name_str f) (deref st (data f)) in
      (if ok : bool then S acc.1 else acc.1, fat')
    | None => acc
    end) (take (FILE_COUNT st) (FILE_TABLE st)) (O, fat).
End fat.

(** ** Invariant *)

Definition dref_ok (st : FsState) (d : dref) : Prop :=
  match d with
  | DWrite slot len => (slot < WRITE_POOL_NEXT st)%nat /\ 0 <= len <= WRITE_SLOT_CAP
  | DBuf base len => 0 <= base /\ 0 < len /\ base + len <= FILE_BUF_NEXT st
  | DImage _ => True
  end.

Record fs_wf (st : FsState) : Prop := {
  wf_table_len : length (FILE_TABLE st) = MAX_FILES;
  wf_count : (FILE_COUNT st <= MAX_FILES)%nat;
  wf_tail : forall i, (FILE_COUNT st <= i)%nat -> FILE_TABLE st !! i = Some None \/ FILE_TABLE st !! i = None;
  wf_pool_len : length (WRITE_POOL st) = WRITE_SLOTS;
  wf_pool_next : (WRITE_POOL_NEXT st <= WRITE_SLOTS)%nat;
  wf_pool_cap : Forall (fun s => slen s = WRITE_SLOT_CAP) (WRITE_POOL st);
  wf_buf_len : slen (FILE_BUF st) = FILE_BUF_SIZE;
  wf_buf_next : 0 <= FILE_BUF_NEXT st <= FILE_BUF_SIZE;
  wf_refs : forall i f, FILE_TABLE st !! i = Some (Some f) ->
    dref_ok st (data f) /\ length (name f) = 64%nat /\ (name_len f <= 64)%nat
}.

Lemma fs_wf_static : fs_wf fs_static.
Proof.
  split; simpl; try (done || lia).
  - intros i _. destruct (decide (i < 64)%nat).
    + left. by apply lookup_replicate_2.
    + right. apply lookup_ge_None_2. rewrite length_replicate. unfold MAX_FILES. lia.
  - apply Forall_replicate. done.
  - intros i f H%lookup_replicate_1. naive_solver.
Qed.

Lemma pad_name_length n nm : length (pad_name n nm) = n.
Proof. unfold pad_name. rewrite length_app, length_take, length_replicate. lia. Qed.

Lemma pad_name_take n nm : take (Nat.min (length nm) n) (pad_name n nm) = take n nm.
Proof.
  unfold pad_name. rewrite take_app_le by (rewrite length_take; lia).
  rewrite take_take. destruct (decide (length nm <= n)%nat).
  - by rewrite !take_ge by lia.
  - f_equal. lia.
Qed.

Lemma register_name_str nm d :
  (length nm <= 64)%nat -> utf8_valid nm = true ->
  File_name_str (mkFile (pad_name 64 nm) (Nat.min (length nm) 64) d) = nm.
Proof.
  intros Hl Hu. unfold File_name_str. cbn [name name_len].
  rewrite pad_name_take, take_ge by done. unfold from_utf8. by rewrite Hu.
Qed.

(** ** Lookup after each operation *)

Lemma entry_named_insert st t c nm i o j :
  FILE_TABLE st = t -> (i < length t)%nat ->
  entry_named (set_table st (<[i := o]> t) c) nm j =
  if decide (i = j) then
    match o with Some f => if bytes_eqb (File_name_str f) nm then Some f else None | None => None end
  else entry_named st nm j.
Proof.
  intros <- Hi. unfold entry_named, set_table. cbn [FILE_TABLE].
  destruct (decide (i = j)) as [<-|Hne].
  - rewrite list_lookup_insert_eq by done. by destruct o.
  - by rewrite list_lookup_insert_ne.
Qed.

Lemma entry_named_ge st nm i :
  fs_wf st -> (FILE_COUNT st <= i)%nat -> entry_named st nm i = None.
Proof.
  intros Hwf Hi. unfold entry_named. destruct (wf_tail st Hwf i Hi) as [-> | ->]; done.
Qed.

(** The table can be searched past the count: the tail is empty. *)
Lemma find_file_all st nm n :
  fs_wf st -> (FILE_COUNT st <= n)%nat ->
  find_file nm st = data <$> find_from (entry_named st nm) 0 n.
Proof.
  intros Hwf Hn. unfold find_file. f_equal.
  destruct (find_from _ 0 (FILE_COUNT st)) as [f|] eqn:Hf.
  - apply find_from_some in Hf as (i & Hi & Hfi & Hlt). symmetry.
    apply find_from_some. exists i. repeat split; [lia..|done|done].
  - symmetry. apply find_from_none. intros i Hi. destruct (decide (i < FILE_COUNT st)%nat).
    + apply (proj1 (find_from_none _ _ _) Hf). lia.
    + apply entry_named_ge; [done|lia].
Qed.

Lemma fs_wf_register nm d st : fs_wf st -> dref_ok st d -> fs_wf (register_file nm d st).
Proof.
  intros Hwf Hd. unfold register_file. destruct (_ <? _)%nat eqn:Hc; [|done]. zbool.
  destruct Hwf. split; unfold set_table; cbn -[MAX_FILES WRITE_SLOTS]; auto; try lia.
  - by rewrite length_insert.
  - intros i Hi. rewrite list_lookup_insert_ne by lia. apply wf_tail0. lia.
  - intros i f. destruct (decide (FILE_COUNT st = i)) as [<-|Hne].
    + rewrite list_lookup_insert_eq by lia. intros [= <-]. cbn [name name_len data].
      rewrite pad_name_length. split; [done|]. lia.
    + rewrite list_lookup_insert_ne by done. apply wf_refs0.
Qed.

Lemma fs_wf_remove nm st : fs_wf st -> fs_wf (remove_file nm st).2.
Proof.
  intros Hwf. unfold remove_file. destruct (find_from _ _ _) as [k|]; cbn [snd]; [|done].
  destruct Hwf. split; unfold set_table; cbn -[MAX_FILES WRITE_SLOTS]; auto.
  - by rewrite length_insert.
  - intros i Hi. destruct (decide (k = i)) as [<-|Hne].
    + destruct (decide (k < length (FILE_TABLE st))%nat).
      * left. by apply list_lookup_insert_eq.
      * right. apply lookup_ge_None_2. rewrite length_insert. lia.
    + rewrite list_lookup_insert_ne by done. by apply wf_tail0.
  - intros i f. destruct (decide (k = i)) as [<-|Hne].
    + intros Hk. destruct (decide (k < length (FILE_TABLE st))%nat).
      * rewrite list_lookup_insert_eq in Hk by done. done.
      * rewrite list_insert_ge in Hk by lia. by apply wf_refs0 in Hk.
    + rewrite list_lookup_insert_ne by done. apply wf_refs0.
Qed.

(** Registering appends: an earlier entry of the same name keeps answering,
    every other name is untouched. *)
Lemma find_file_register st nm d nm' :
  fs_wf st -> (FILE_COUNT st < MAX_FILES)%nat ->
  (length nm <= 64)%nat -> utf8_valid nm = true ->
  find_file nm' (register_file nm d st) =
  match find_file nm' st with
  | Some d0 => Some d0
  | None => if bytes_eqb nm nm' then Some d else None
  end.
Proof.
  intros Hwf Hc Hl Hu. pose proof (wf_table_len st Hwf) as Hlen.
  unfold find_file, register_file. rewrite (proj2 (Nat.ltb_lt _ _)) by done.
  cbn [FILE_COUNT set_table]. set (f := mkFile _ _ _).
  assert (forall j, entry_named (set_table st (<[FILE_COUNT st := Some f]> (FILE_TABLE st)) (S (FILE_COUNT st))) nm' j
    = if decide (FILE_COUNT st = j) then (if bytes_eqb nm nm' then Some f else None)
      else entry_named st nm' j) as He.
  { intros j. rewrite (entry_named_insert st (FILE_TABLE st)) by (done || lia).
    unfold f at 1. by rewrite register_name_str. }
  destruct (find_from (entry_named st nm') 0 (FILE_COUNT st)) as [g|] eqn:Hg; cbn [fmap option_fmap option_map].
  - apply find_from_some in Hg as (i & Hi & Hfi & Hlt).
    rewrite (proj2 (find_from_some _ 0 (S (FILE_COUNT st)) g)); [done|].
    exists i. split; [lia|]. rewrite He, decide_False by lia. split; [done|].
    intros j Hj. rewrite He, decide_False by lia. by apply Hlt.
  - pose proof (proj1 (find_from_none _ _ _) Hg) as Hnone.
    destruct (bytes_eqb nm nm') eqn:Hb.
    + rewrite (proj2 (find_from_some _ 0 (S (FILE_COUNT st)) f)); [done|].
      exists (FILE_COUNT st). split; [lia|]. rewrite He, decide_True by done. split; [done|].
      intros j Hj. rewrite He, decide_False by lia. apply Hnone. lia.
    + rewrite (proj2 (find_from_none _ 0 (S (FILE_COUNT st)))); [done|].
      intros j Hj. rewrite He. destruct (decide _); [done|]. apply Hnone. lia.
Qed.

(** ** Allocation: a new file's bytes, and the bytes of every older file *)

(** [stable st st']: every reference valid before still is, and reads the
    same bytes. *)
Definition stable (st st' : FsState) : Prop :=
  forall d, dref_ok st d -> dref_ok st' d /\ deref st' d = deref st d.

#[export] Instance stable_preorder : PreOrder stable.
Proof.
  split; [by intros st d|]. intros a b c Hab Hbc d Hd.
  destruct (Hab d Hd) as [H1 E1]. destruct (Hbc d H1) as [H2 E2]. split; [done|congruence].
Qed.

Lemma set_table_stable st t c : stable st (set_table st t c).
Proof. intros d Hd. split; by destruct d. Qed.

Lemma alloc_write_buf_ok st bs :
  fs_wf st -> Z.of_nat (length bs) <= WRITE_SLOT_CAP -> (WRITE_POOL_NEXT st < WRITE_SLOTS)%nat ->
  exists d st', alloc_write_buf bs st = (Some d, st') /\
    dref_ok st' d /\ deref st' d = bs /\ stable st st' /\
    FILE_TABLE st' = FILE_TABLE st /\ FILE_COUNT st' = FILE_COUNT st /\
    WRITE_POOL_NEXT st' = S (WRITE_POOL_NEXT st) /\ fs_wf st'.
Proof.
  intros Hwf Hlen Hn. unfold alloc_write_buf.
  rewrite (proj2 (Z.ltb_ge _ _)), (proj2 (Nat.leb_gt _ _)) by lia.
  pose proof (wf_pool_len st Hwf) as Hpl. pose proof (wf_pool_cap st Hwf) as Hcap.
  destruct (lookup_lt_is_Some_2 (WRITE_POOL st) (WRITE_POOL_NEXT st)) as [s Hs]; [lia|].
  rewrite Hs. rewrite Forall_lookup in Hcap. specialize (Hcap _ _ Hs).
  destruct (swrite_bytes_some (E := unit) s 0 bs) as [s' Hs']; [lia..|].
  rewrite Hs'. apply swrite_bytes_ok in Hs' as (_ & _ & Hl & Hr & _).
  eexists _, _. split; [done|].
  assert (stable st (mkFs (FILE_TABLE st) (FILE_COUNT st)
    (<[WRITE_POOL_NEXT st := s']> (WRITE_POOL st)) (S (WRITE_POOL_NEXT st))
    (FILE_BUF st) (FILE_BUF_NEXT st))) as Hst.
  { intros [slot l|b l|im] Hd; simpl in *; (split; [lia|]); [|done..].
    by rewrite list_lookup_insert_ne by lia. }
  split; [simpl; lia|]. split; [simpl; rewrite list_lookup_insert_eq by lia; done|].
  split; [done|]. do 3 (split; [done|]).
  destruct Hwf. split; simpl; auto; try lia.
  - by rewrite length_insert.
  - apply Forall_insert; [done|congruence].
  - intros i f Hf. destruct (wf_refs0 i f Hf) as [Hok Hrest]. split; [by apply Hst|done].
Qed.

(** A failed claim changes nothing. *)
Lemma alloc_write_buf_none st bs :
  fs_wf st -> WRITE_SLOT_CAP < Z.of_nat (length bs) \/ WRITE_POOL_NEXT st = WRITE_SLOTS ->
  alloc_write_buf bs st = (None, st).
Proof.
  intros Hwf H. unfold alloc_write_buf. destruct (WRITE_SLOT_CAP <? _) eqn:Hc; [done|]. zbool.
  destruct H as [H| ->]; [lia|]. done.
Qed.

Lemma align8_spec n : n <= align8 n < n + 8 /\ align8 n mod 8 = 0.
Proof.
  unfold align8. change (Z.lnot 7) with (Z.lnot (Z.ones 3)).
  rewrite <- Z.ldiff_land, Z.ldiff_ones_r, Z.shiftr_div_pow2, Z.shiftl_mul_pow2 by lia.
  change (2 ^ 3) with 8. split; [zlia|]. apply Z.mod_mul. lia.
Qed.

(** What a successful carve and fill gives: an aligned region of its own,
    holding the bytes, with every older file intact. *)
Lemma alloc_disk_slot_ok st bs base st1 :
  fs_wf st -> alloc_disk_slot (Z.of_nat (length bs)) st = (Some base, st1) ->
  let st' := fill_disk_slot base bs st1 in
  let d := DBuf base (Z.of_nat (length bs)) in
  base mod 8 = 0 /\ FILE_BUF_NEXT st <= base /\
  dref_ok st' d /\ deref st' d = bs /\ stable st st' /\
  FILE_TABLE st' = FILE_TABLE st /\ FILE_COUNT st' = FILE_COUNT st /\ fs_wf st'.
Proof.
  intros Hwf. unfold alloc_disk_slot. destruct (_ =? 0) eqn:Hz; [done|].
  destruct (FILE_BUF_SIZE <? _) eqn:Hsz; [done|]. intros [= <- <-]. zbool.
  destruct (align8_spec (FILE_BUF_NEXT st)) as [Hal Hmod].
  pose proof (wf_buf_len st Hwf) as Hbl. pose proof (wf_buf_next st Hwf) as Hbn.
  unfold fill_disk_slot. cbn [FILE_BUF FILE_TABLE FILE_COUNT WRITE_POOL WRITE_POOL_NEXT FILE_BUF_NEXT].
  destruct (swrite_bytes_some (E := unit) (FILE_BUF st) (align8 (FILE_BUF_NEXT st)) bs)
    as [b Hb]; [lia..|].
  rewrite Hb. apply swrite_bytes_ok in Hb as (_ & _ & Hl & Hr & Hfr).
  assert (stable st (mkFs (FILE_TABLE st) (FILE_COUNT st) (WRITE_POOL st) (WRITE_POOL_NEXT st) b
    (align8 (FILE_BUF_NEXT st) + Z.of_nat (length bs)))) as Hst.
  { intros [slot l|bb l|im] Hd; simpl in *; (split; [lia|]); [done| |done].
    apply srange_ext. intros i Hi. apply Hfr. lia. }
  split; [done|]. split; [lia|]. split; [simpl; lia|]. split; [done|]. do 3 (split; [done|]).
  destruct Hwf. split; cbn -[FILE_BUF_SIZE]; auto; try lia; try congruence.
  intros i f Hf. destruct (wf_refs0 i f Hf) as [Hok Hrest]. split; [by apply Hst|done].
Qed.

(** ** The boot loader *)

Section boot.
Context {Fat : Type} (fat_list : Fat -> list (list Z * Z))
  (fat_read_file : Fat -> list Z -> option (list Z)) (fat : Fat).

(** Every entry of the table holds what the volume stores under its name. *)
Definition mirrors (st : FsState) : Prop :=
  forall i f, FILE_TABLE st !! i = Some (Some f) ->
    fat_read_file fat (File_name_str f) = Some (deref st (data f)).

Lemma mirrors_register st nm d :
  fs_wf st -> mirrors st -> (length nm <= 64)%nat -> utf8_valid nm = true ->
  fat_read_file fat nm = Some (deref st d) -> mirrors (register_file nm d st).
Proof.
  intros Hwf Hm Hl Hu Hr. unfold register_file. destruct (_ <? _)%nat eqn:Hc; [|done]. zbool.
  intros i f. unfold set_table. cbn [FILE_TABLE].
  destruct (decide (FILE_COUNT st = i)) as [<-|Hne].
  - rewrite list_lookup_insert_eq by (rewrite (wf_table_len st Hwf); done).
    intros [= <-]. rewrite register_name_str by done. cbn [data].
    rewrite Hr. by destruct d.
  - rewrite list_lookup_insert_ne by done. intros Hf. rewrite (Hm i f Hf).
    by destruct (data f).
Qed.

Lemma load_one_ok st raw :
  (length raw <= 64)%nat -> fs_wf st -> mirrors st ->
  fs_wf (load_one fat_read_file fat st raw) /\ mirrors (load_one fat_read_file fat st raw).
Proof.
  intros Hl Hwf Hm. unfold load_one, from_utf8. destruct (utf8_valid raw) eqn:Hu; simpl; [|done].
  destruct (bool_decide _); [done|]. destruct (fat_read_file fat raw) as [bs|] eqn:Hr; [|done].
  destruct (alloc_disk_slot _ st) as [[base|] st1] eqn:Ha.
  - pose proof (alloc_disk_slot_ok st bs base st1 Hwf Ha) as (_ & _ & Hok & Hd & Hst & Ht & Hc & Hwf').
    split; [by apply fs_wf_register|].
    apply mirrors_register; try done; [|congruence].
    intros i f Hf. rewrite Ht in Hf. rewrite (Hm i f Hf). f_equal. symmetry. apply Hst.
    by eapply wf_refs.
  - unfold alloc_disk_slot in Ha. repeat case_split; simplify_eq; done.
Qed.

Lemma load_fat_files_ok st :
  fs_wf st -> mirrors st ->
  fs_wf (load_fat_files_to_table fat_list fat_read_file fat st) /\
  mirrors (load_fat_files_to_table fat_list fat_read_file fat st).
Proof.
  unfold load_fat_files_to_table.
  assert (Forall (fun r => length r <= 64)%nat (collect_names fat_list fat)) as Hn.
  { apply Forall_fmap, Forall_true. intros e. simpl. rewrite length_take. lia. }
  revert st. induction Hn as [|raw names Hr _ IH]; intros st Hwf Hm; simpl; [done|].
  destruct (load_one_ok st raw Hr Hwf Hm). by apply IH.
Qed.
End boot.

(** ** Tables without duplicate names: a map from names to contents *)

Definition unique_names (st : FsState) : Prop :=
  forall i j f g, FILE_TABLE st !! i = Some (Some f) -> FILE_TABLE st !! j = Some (Some g) ->
    File_name_str f = File_name_str g -> i = j.

Lemma entry_named_some st nm i f :
  entry_named st nm i = Some f <-> FILE_TABLE st !! i = Some (Some f) /\ File_name_str f = nm.
Proof.
  unfold entry_named. destruct (FILE_TABLE st !! i) as [[g|]|]; [|naive_solver..].
  destruct (bytes_eqb _ _) eqn:E.
  - apply bytes_eqb_true in E. naive_solver.
  - split; [done|]. intros [[= ->] Hn]. apply bytes_eqb_true in Hn. congruence.
Qed.

Lemma find_file_entry st nm d :
  find_file nm st = Some d -> exists i f, FILE_TABLE st !! i = Some (Some f) /\ data f = d /\ File_name_str f = nm.
Proof.
  unfold find_file. destruct (find_from _ _ _) as [f|] eqn:E; [|done]. intros [= <-].
  apply find_from_some in E as (i & _ & Hi & _). apply entry_named_some in Hi as [Hi Hn]. eauto.
Qed.

(** What [remove_file] removes. *)
Lemma remove_file_cases nm st :
  (exists i f, remove_file nm st = (true, set_table st (<[i := None]> (FILE_TABLE st)) (FILE_COUNT st)) /\
     FILE_TABLE st !! i = Some (Some f) /\ File_name_str f = nm) \/
  (remove_file nm st = (false, st) /\ forall i, (i < FILE_COUNT st)%nat -> entry_named st nm i = None).
Proof.
  unfold remove_file. destruct (find_from _ _ _) as [i|] eqn:E.
  - left. apply find_from_some in E as (j & _ & Hj & _).
    destruct (entry_named st nm j) as [f|] eqn:Ef; [|done]. injection Hj as <-.
    apply entry_named_some in Ef as [Hj Hn]. eauto.
  - right. split; [done|]. intros i Hi.
    pose proof (proj1 (find_from_none _ _ _) E i ltac:(lia)) as Hn. cbn beta in Hn. by destruct (entry_named st nm i).
Qed.

Lemma unique_names_remove nm st : unique_names st -> unique_names (remove_file nm st).2.
Proof.
  intros Hu. destruct (remove_file_cases nm st) as [(k & h & -> & _)|[-> _]]; [|done].
  intros i j f g. cbn [snd FILE_TABLE set_table]. intros Hi Hj.
  apply list_lookup_insert_Some in Hi as [(_ & ? & _)|[_ Hi]]; [done|].
  apply list_lookup_insert_Some in Hj as [(_ & ? & _)|[_ Hj]]; [done|]. by apply Hu.
Qed.

Lemma find_file_none st nm :
  find_file nm st = None <-> forall i, (i < FILE_COUNT st)%nat -> entry_named st nm i = None.
Proof.
  unfold find_file. destruct (find_from _ _ _) as [f|] eqn:E; split; try done.
  - intros H. apply find_from_some in E as (i & Hi & Hf & _). rewrite H in Hf; [done|lia].
  - intros _ i Hi. apply (proj1 (find_from_none _ _ _) E). lia.
Qed.

(** Lookup after a removal. *)
Lemma find_file_remove st nm nm' :
  fs_wf st -> unique_names st ->
  find_file nm' (remove_file nm st).2 = if bytes_eqb nm nm' then None else find_file nm' st.
Proof.
  intros Hwf Hu. destruct (remove_file_cases nm st) as [(k & h & -> & Hk & Hn)|[-> Hnone]]; cbn [snd].
  - assert (k < length (FILE_TABLE st))%nat as Hlt by by eapply lookup_lt_Some.
    assert (forall j, entry_named (set_table st (<[k := None]> (FILE_TABLE st)) (FILE_COUNT st)) nm' j
      = if decide (k = j) then None else entry_named st nm' j) as He.
    { intros j. by rewrite (entry_named_insert st (FILE_TABLE st)). }
    destruct (bytes_eqb nm nm') eqn:Eb.
    + apply bytes_eqb_true in Eb as <-. apply find_file_none. intros j _. rewrite He.
      destruct (decide (k = j)) as [|Hne]; [done|]. destruct (entry_named st nm j) as [g|] eqn:Eg; [|done].
      apply entry_named_some in Eg as [Hj Hgn]. destruct Hne. eapply Hu; [done..|congruence].
    + unfold find_file. cbn [FILE_COUNT set_table]. f_equal.
      assert (entry_named st nm' k = None) as Hkn.
      { destruct (entry_named st nm' k) as [g|] eqn:Eg; [|done].
        apply entry_named_some in Eg as [Hj Hgn]. rewrite Hk in Hj. injection Hj as ->.
        rewrite Hn in Hgn. apply bytes_eqb_true in Hgn. congruence. }
      apply find_from_ext. intros j. rewrite He. by destruct (decide (k = j)) as [<-|].
  - destruct (bytes_eqb nm nm') eqn:Eb; [|done]. apply bytes_eqb_true in Eb as <-. by apply find_file_none.
Qed.

Lemma unique_names_register nm d st :
  fs_wf st -> unique_names st -> (length nm <= 64)%nat -> utf8_valid nm = true ->
  find_file nm st = None -> unique_names (register_file nm d st).
Proof.
  intros Hwf Hu Hl Hv Hnone. unfold register_file. destruct (_ <? _)%nat eqn:Ec; [|done]. zbool.
  pose proof (wf_table_len st Hwf) as Hlen.
  set (new := mkFile _ _ _).
  assert (forall i f, FILE_TABLE st !! i = Some (Some f) -> File_name_str f <> nm) as Hno.
  { intros i f Hi Hn. destruct (decide (i < FILE_COUNT st)%nat) as [Hlt|].
    - pose proof (proj1 (find_file_none st nm) Hnone i Hlt) as He.
      rewrite (proj2 (entry_named_some st nm i f)) in He; done.
    - destruct (wf_tail st Hwf i ltac:(lia)); congruence. }
  assert (File_name_str new = nm) as Hnew by by apply register_name_str.
  intros i j f g. cbn [FILE_TABLE set_table].
  intros [(-> & [= ->] & _)|[Hi1 Hi]]%list_lookup_insert_Some;
  intros [(<- & Hg & _)|[Hj1 Hj]]%list_lookup_insert_Some; intros Hn; try done.
  - exfalso. eapply Hno; [exact Hj|]. congruence.
  - injection Hg as ->. exfalso. eapply Hno; [exact Hi|]. congruence.
  - by eapply Hu.
Qed.

Lemma FILE_COUNT_remove nm st : FILE_COUNT (remove_file nm st).2 = FILE_COUNT st.
Proof. unfold remove_file. by destruct (find_from _ _ _). Qed.

(** Remove-then-register replaces the entry in the map, while a slot is left. *)
Lemma find_file_replace st nm d nm' :
  fs_wf st -> unique_names st -> (FILE_COUNT st < MAX_FILES)%nat ->
  (length nm <= 64)%nat -> utf8_valid nm = true ->
  find_file nm' (register_file nm d (remove_file nm st).2) =
  if bytes_eqb nm nm' then Some d else find_file nm' st.
Proof.
  intros Hwf Hu Hc Hl Hv. rewrite find_file_register; [|by apply fs_wf_remove| |done..].
  - rewrite find_file_remove by done. destruct (bytes_eqb nm nm'); [done|]. by destruct (find_file nm' st).
  - by rewrite FILE_COUNT_remove.
Qed.

(** With every slot used, the replaced file is gone. *)
Lemma find_file_replace_full st nm d nm' :
  fs_wf st -> unique_names st -> FILE_COUNT st = MAX_FILES ->
  find_file nm' (register_file nm d (remove_file nm st).2) =
  if bytes_eqb nm nm' then None else find_file nm' st.
Proof.
  intros Hwf Hu Hc. unfold register_file. rewrite FILE_COUNT_remove, Hc.
  rewrite Nat.ltb_irrefl. by apply find_file_remove.
Qed.
