(* ===== verification/Opcode.v ===== *)
(** * Opcodes and traps ([kernel/src/wasm/opcode.rs], [InterpError])

    The opcode bytes by the names the source gives them, and the error type of
    the interpreter. *)

From S2P Require Import Prelude.

Definition OP_UNREACHABLE : Z := 0x00.
Definition OP_NOP : Z := 0x01.
Definition OP_BLOCK : Z := 0x02.
Definition OP_LOOP : Z := 0x03.
Definition OP_IF : Z := 0x04.
Definition OP_ELSE : Z := 0x05.
Definition OP_END : Z := 0x0b.
Definition OP_BR : Z := 0x0c.
Definition OP_BR_IF : Z := 0x0d.
Definition OP_BR_TABLE : Z := 0x0e.
Definition OP_RETURN : Z := 0x0f.
Definition OP_CALL : Z := 0x10.
Definition OP_CALL_INDIRECT : Z := 0x11.
Definition OP_DROP : Z := 0x1a.
Definition OP_SELECT : Z := 0x1b.
Definition OP_LOCAL_GET : Z := 0x20.
Definition OP_LOCAL_SET : Z := 0x21.
Definition OP_LOCAL_TEE : Z := 0x22.
Definition OP_GLOBAL_GET : Z := 0x23.
Definition OP_GLOBAL_SET : Z := 0x24.
Definition OP_I32_LOAD : Z := 0x28.
Definition OP_I32_LOAD8_U : Z := 0x2d.
Definition OP_I32_STORE : Z := 0x36.
Definition OP_I32_STORE8 : Z := 0x3a.
Definition OP_MEMORY_SIZE : Z := 0x3f.
Definition OP_MEMORY_GROW : Z := 0x40.
Definition OP_I32_CONST : Z := 0x41.
Definition OP_I32_EQZ : Z := 0x45.
Definition OP_I32_EQ : Z := 0x46.
Definition OP_I32_NE : Z := 0x47.
Definition OP_I32_LT_S : Z := 0x48.
Definition OP_I32_LT_U : Z := 0x49.
Definition OP_I32_GT_S : Z := 0x4a.
Definition OP_I32_GT_U : Z := 0x4b.
Definition OP_I32_LE_S : Z := 0x4c.
Definition OP_I32_LE_U : Z := 0x4d.
Definition OP_I32_GE_S : Z := 0x4e.
Definition OP_I32_GE_U : Z := 0x4f.
Definition OP_I32_CLZ : Z := 0x67.
Definition OP_I32_CTZ : Z := 0x68.
Definition OP_I32_POPCNT : Z := 0x69.
Definition OP_I32_ADD : Z := 0x6a.
Definition OP_I32_SUB : Z := 0x6b.
Definition OP_I32_MUL : Z := 0x6c.
Definition OP_I32_DIV_S : Z := 0x6d.
Definition OP_I32_DIV_U : Z := 0x6e.
Definition OP_I32_REM_S : Z := 0x6f.
Definition OP_I32_REM_U : Z := 0x70.
Definition OP_I32_AND : Z := 0x71.
Definition OP_I32_OR : Z := 0x72.
Definition OP_I32_XOR : Z := 0x73.
Definition OP_I32_SHL : Z := 0x74.
Definition OP_I32_SHR_S : Z := 0x75.
Definition OP_I32_SHR_U : Z := 0x76.
Definition OP_I32_ROTL : Z := 0x77.
Definition OP_I32_ROTR : Z := 0x78.
Definition OP_I64_CONST : Z := 0x42.
Definition OP_I64_EQZ : Z := 0x50.
Definition OP_I64_EQ : Z := 0x51.
Definition OP_I64_NE : Z := 0x52.
Definition OP_I64_LT_S : Z := 0x53.
Definition OP_I64_LT_U : Z := 0x54.
Definition OP_I64_GT_S : Z := 0x55.
Definition OP_I64_GT_U : Z := 0x56.
Definition OP_I64_LE_S : Z := 0x57.
Definition OP_I64_LE_U : Z := 0x58.
Definition OP_I64_GE_S : Z := 0x59.
Definition OP_I64_GE_U : Z := 0x5a.
Definition OP_I64_LOAD : Z := 0x29.
Definition OP_I64_STORE : Z := 0x37.
Definition OP_I64_CLZ : Z := 0x79.
Definition OP_I64_CTZ : Z := 0x7a.
Definition OP_I64_POPCNT : Z := 0x7b.
Definition OP_I64_ADD : Z := 0x7c.
Definition OP_I64_SUB : Z := 0x7d.
Definition OP_I64_MUL : Z := 0x7e.
Definition OP_I64_AND : Z := 0x83.
Definition OP_I64_OR : Z := 0x84.
Definition OP_I64_XOR : Z := 0x85.
Definition OP_I64_SHL : Z := 0x86.
Definition OP_I64_SHR_S : Z := 0x87.
Definition OP_I64_SHR_U : Z := 0x88.
Definition OP_I64_ROTL : Z := 0x89.
Definition OP_I64_ROTR : Z := 0x8a.
Definition OP_I32_LOAD8_S : Z := 0x2c.
Definition OP_I32_LOAD16_S : Z := 0x2e.
Definition OP_I32_LOAD16_U : Z := 0x2f.
Definition OP_I64_LOAD8_S : Z := 0x30.
Definition OP_I64_LOAD8_U : Z := 0x31.
Definition OP_I64_LOAD16_S : Z := 0x32.
Definition OP_I64_LOAD16_U : Z := 0x33.
Definition OP_I64_LOAD32_S : Z := 0x34.
Definition OP_I64_LOAD32_U : Z := 0x35.
Definition OP_I32_STORE16 : Z := 0x3b.
Definition OP_I64_STORE8 : Z := 0x3c.
Definition OP_I64_STORE16 : Z := 0x3d.
Definition OP_I64_STORE32 : Z := 0x3e.
Definition OP_I64_DIV_S : Z := 0x7f.
Definition OP_I64_DIV_U : Z := 0x80.
Definition OP_I64_REM_S : Z := 0x81.
Definition OP_I64_REM_U : Z := 0x82.
Definition OP_I32_WRAP_I64 : Z := 0xa7.
Definition OP_I64_EXTEND_I32_S : Z := 0xac.
Definition OP_I64_EXTEND_I32_U : Z := 0xad.
Definition OP_I32_EXTEND8_S : Z := 0xc0.
Definition OP_I32_EXTEND16_S : Z := 0xc1.
Definition OP_I64_EXTEND8_S : Z := 0xc2.
Definition OP_I64_EXTEND16_S : Z := 0xc3.
Definition OP_I64_EXTEND32_S : Z := 0xc4.

Inductive InterpError :=
| NoCodeSection
| MalformedCode
| TooManyFuncs
| TooManyTypes
| TooManyLocals
| TooManyGlobals
| CtrlStackOverflow
| FuncIndexOutOfRange
| LocalIndexOutOfRange
| GlobalIndexOutOfRange
| GlobalImmutable
| IndirectCallNull
| IndirectCallTypeMismatch
| ImportNotFound
| Unreachable
| StackOverflow
| StackUnderflow
| CallStackOverflow
| MemOutOfBounds
| DivisionByZero
| InvalidConversion
| UnknownOpcode (op : Z)
| Yielded
| Exited.

#[export] Instance InterpError_eq_dec : EqDecision InterpError.
Proof. solve_decision. Defined.

Open Scope string_scope.

Definition InterpError_as_str (e : InterpError) : list Z :=
  str match e with
  | NoCodeSection => "no code section"
  | MalformedCode => "malformed bytecode"
  | TooManyFuncs => "too many functions (increase MAX_FUNCS)"
  | TooManyTypes => "too many types (increase MAX_TYPES)"
  | TooManyLocals => "too many locals (increase MAX_LOCALS)"
  | TooManyGlobals => "too many globals (increase MAX_GLOBALS)"
  | CtrlStackOverflow => "control stack overflow (increase MAX_CTRL_DEPTH)"
  | FuncIndexOutOfRange => "function index out of range"
  | LocalIndexOutOfRange => "local variable index out of range"
  | GlobalIndexOutOfRange => "global variable index out of range"
  | GlobalImmutable => "write to immutable global"
  | IndirectCallNull => "call_indirect: null table entry"
  | IndirectCallTypeMismatch => "call_indirect: type mismatch"
  | ImportNotFound => "call to unresolved import"
  | Unreachable => "unreachable executed"
  | StackOverflow => "value stack overflow"
  | StackUnderflow => "value stack underflow"
  | CallStackOverflow => "call stack overflow"
  | MemOutOfBounds => "memory access out of bounds"
  | DivisionByZero => "integer divide by zero"
  | InvalidConversion => "invalid float-to-integer conversion"
  | UnknownOpcode _ => "unknown opcode"
  | Yielded => "task yielded"
  | Exited => "module exited"
  end.
Close Scope string_scope.

(** ** Capacity limits of the interpreter *)

Definition MAX_FUNCS : nat := 512.
Definition MAX_TYPES : nat := 128.
Definition MAX_LOCALS : nat := 64.
Definition MAX_GLOBALS : nat := 64.
Definition MAX_TABLE : nat := 512.
Definition NULL_FUNC : Z := 4294967295.
Definition MAX_CTRL_DEPTH : nat := 128.
Definition STACK_DEPTH : nat := 256.
Definition CALL_DEPTH : nat := 128.
Definition PAGE_SIZE : Z := 65536.
Definition JUMP_SLOTS : nat := 4096.

(** The entry of an opcode-indexed table. *)
Fixpoint assoc {A} (op : Z) (t : list (Z * A)) : option A :=
  match t with
  | [] => None
  | (k, v) :: t' => if op =? k then Some v else assoc op t'
  end.

Lemma assoc_Forall {A} (Q : A -> Prop) op t a :
  Forall (fun e : Z * A => Q e.2) t -> assoc op t = Some a -> Q a.
Proof.
  induction 1 as [|[k v] t Hp _ IH]; simpl; [done|].
  destruct (op =? k); [|done]. intros [= <-]. done.
Qed.

Lemma assoc_app {A} op (t1 t2 : list (Z * A)) :
  assoc op (t1 ++ t2) = match assoc op t1 with Some v => Some v | None => assoc op t2 end.
Proof. induction t1 as [|[k v] t1 IH]; simpl; [done|]. by destruct (op =? k). Qed.
