(* ===== verification/FloatOps.v ===== *)
(** * Float instructions ([Interpreter::run], the f32/f64 arms)

    IEEE 754 binary32 and binary64 through the Standard Library's [SpecFloat]
    (round to nearest even). Stack entries hold the bit patterns. The crate
    [libm] and the bits of a NaN produced by the hardware are parameters. *)

From Stdlib Require Import SpecFloat.
From S2P Require Import Prelude Opcode IntOps.

(** ** Bit patterns

    [mw] significand bits, [ew] exponent bits. *)
Section bits.
Context (mw ew : Z).

Definition fprec : Z := mw + 1.
Definition femax : Z := 2 ^ (ew - 1).
Definition femin : Z := 3 - femax - fprec.

Definition sign_bit (s : bool) : Z := if s then 2 ^ (mw + ew) else 0.

Definition from_bits (b : Z) : spec_float :=
  let s := Z.testbit b (mw + ew) in
  let e := Z.shiftr b mw mod 2 ^ ew in
  let m := b mod 2 ^ mw in
  if e =? 0 then
    match m with Zpos p => S754_finite s p femin | _ => S754_zero s end
  else if e =? 2 ^ ew - 1 then
    if m =? 0 then S754_infinity s else S754_nan
  else
    match m + 2 ^ mw with Zpos p => S754_finite s p (e - 1 + femin) | _ => S754_nan end.

(** [nan]: the bits chosen for a NaN. *)
Definition to_bits (nan : Z) (f : spec_float) : Z :=
  match f with
  | S754_zero s => sign_bit s
  | S754_infinity s => sign_bit s + (2 ^ ew - 1) * 2 ^ mw
  | S754_nan => nan
  | S754_finite s m e =>
    if Zpos m <? 2 ^ mw then sign_bit s + Zpos m
    else sign_bit s + (e - femin + 1) * 2 ^ mw + (Zpos m - 2 ^ mw)
  end.

(** [n as f32] / [n as f64] *)
Definition from_Z (n : Z) : spec_float := binary_normalize fprec femax n 0 false.

(** A float of another format rounded to this one. *)
Definition convert (f : spec_float) : spec_float :=
  match f with
  | S754_finite s m e => binary_normalize fprec femax (if s then Zneg m else Zpos m) e s
  | _ => f
  end.
End bits.

(** Truncation toward zero of a finite value. *)
Definition sf_trunc (f : spec_float) : Z :=
  match f with
  | S754_finite s m e =>
    let v := if 0 <=? e then Zpos m * 2 ^ e else Zpos m / 2 ^ (- e) in
    if s then - v else v
  | _ => 0
  end.

(** Rust's [a as iN]/[a as uN]: truncate and saturate at the bounds, NaN is 0. *)
Definition sf_as (lo hi : Z) (f : spec_float) : Z :=
  match f with
  | S754_infinity s => if s then lo else hi
  | S754_finite _ _ _ => Z.max lo (Z.min hi (sf_trunc f))
  | _ => 0
  end.
Definition f_as_i32 : spec_float -> Z := sf_as (-2147483648) 2147483647.
Definition f_as_u32 : spec_float -> Z := sf_as 0 4294967295.
Definition f_as_i64 : spec_float -> Z := sf_as (-9223372036854775808) 9223372036854775807.
Definition f_as_u64 : spec_float -> Z := sf_as 0 18446744073709551615.

Definition is_nan (f : spec_float) : bool := match f with S754_nan => true | _ => false end.

(** What the interpreter takes from [libm], on bit patterns, and the NaN bits
    an arithmetic instruction delivers ([nan32 op a b]). *)
Class FloatEnv := {
  ceilf : Z -> Z; floorf : Z -> Z; truncf : Z -> Z; rintf : Z -> Z; sqrtf : Z -> Z;
  fminf : Z -> Z -> Z; fmaxf : Z -> Z -> Z; copysignf : Z -> Z -> Z;
  ceil : Z -> Z; floor : Z -> Z; trunc : Z -> Z; rint : Z -> Z; sqrt : Z -> Z;
  fmin : Z -> Z -> Z; fmax : Z -> Z -> Z; copysign : Z -> Z -> Z;
  nan32 : Z -> Z -> Z -> Z;
  nan64 : Z -> Z -> Z -> Z
}.

Section ops.
Context `{FloatEnv}.

Definition f32 (a : Z) : spec_float := from_bits 23 8 (as_u32 a).
Definition f64 (a : Z) : spec_float := from_bits 52 11 (as_u64 a).
(** [x.to_bits() as i64] *)
Definition push32 (bits : Z) : result InterpError Z := Ok (as_u32 bits).
Definition push64 (bits : Z) : result InterpError Z := Ok (as_i64 bits).
Definition f32_bits (nan : Z) (f : spec_float) : Z := to_bits 23 8 nan f.
Definition f64_bits (nan : Z) (f : spec_float) : Z := to_bits 52 11 nan f.
Definition f32_lit : Z -> spec_float := from_Z 23 8.
Definition f64_lit : Z -> spec_float := from_Z 52 11.

Definition f32_cmp : list (Z * binop) :=
  [ (0x5B, fun a b => Ok (b2i (SFeqb (f32 a) (f32 b))));
    (0x5C, fun a b => Ok (b2i (negb (SFeqb (f32 a) (f32 b)))));
    (0x5D, fun a b => Ok (b2i (SFltb (f32 a) (f32 b))));
    (0x5E, fun a b => Ok (b2i (SFltb (f32 b) (f32 a))));
    (0x5F, fun a b => Ok (b2i (SFleb (f32 a) (f32 b))));
    (0x60, fun a b => Ok (b2i (SFleb (f32 b) (f32 a)))) ].

Definition f64_cmp : list (Z * binop) :=
  [ (0x61, fun a b => Ok (b2i (SFeqb (f64 a) (f64 b))));
    (0x62, fun a b => Ok (b2i (negb (SFeqb (f64 a) (f64 b)))));
    (0x63, fun a b => Ok (b2i (SFltb (f64 a) (f64 b))));
    (0x64, fun a b => Ok (b2i (SFltb (f64 b) (f64 a))));
    (0x65, fun a b => Ok (b2i (SFleb (f64 a) (f64 b))));
    (0x66, fun a b => Ok (b2i (SFleb (f64 b) (f64 a)))) ].

(** [abs] clears and negation flips the sign bit, also of a NaN. *)
Definition f32_un : list (Z * unop) :=
  [ (0x8B, fun a => push32 (Z.land (as_u32 a) 0x7FFFFFFF));
    (0x8C, fun a => push32 (Z.lxor (as_u32 a) 0x80000000));
    (0x8D, fun a => push32 (ceilf (as_u32 a)));
    (0x8E, fun a => push32 (floorf (as_u32 a)));
    (0x8F, fun a => push32 (truncf (as_u32 a)));
    (0x90, fun a => push32 (rintf (as_u32 a)));
    (0x91, fun a => push32 (sqrtf (as_u32 a))) ].

Definition f32_arith (op : Z) (f : Z -> Z -> spec_float -> spec_float -> spec_float) : binop :=
  fun a b => push32 (f32_bits (nan32 op (as_u32 a) (as_u32 b)) (f 24 128 (f32 a) (f32 b))).

Definition f32_bin : list (Z * binop) :=
  [ (0x92, f32_arith 0x92 SFadd);
    (0x93, f32_arith 0x93 SFsub);
    (0x94, f32_arith 0x94 SFmul);
    (0x95, f32_arith 0x95 SFdiv);
    (0x96, fun a b => push32 (fminf (as_u32 a) (as_u32 b)));
    (0x97, fun a b => push32 (fmaxf (as_u32 a) (as_u32 b)));
    (0x98, fun a b => push32 (copysignf (as_u32 a) (as_u32 b))) ].

Definition f64_un : list (Z * unop) :=
  [ (0x99, fun a => push64 (Z.land (as_u64 a) 0x7FFFFFFFFFFFFFFF));
    (0x9A, fun a => push64 (Z.lxor (as_u64 a) 0x8000000000000000));
    (0x9B, fun a => push64 (ceil (as_u64 a)));
    (0x9C, fun a => push64 (floor (as_u64 a)));
    (0x9D, fun a => push64 (trunc (as_u64 a)));
    (0x9E, fun a => push64 (rint (as_u64 a)));
    (0x9F, fun a => push64 (sqrt (as_u64 a))) ].

Definition f64_arith (op : Z) (f : Z -> Z -> spec_float -> spec_float -> spec_float) : binop :=
  fun a b => push64 (f64_bits (nan64 op (as_u64 a) (as_u64 b)) (f 53 1024 (f64 a) (f64 b))).

Definition f64_bin : list (Z * binop) :=
  [ (0xA0, f64_arith 0xA0 SFadd);
    (0xA1, f64_arith 0xA1 SFsub);
    (0xA2, f64_arith 0xA2 SFmul);
    (0xA3, f64_arith 0xA3 SFdiv);
    (0xA4, fun a b => push64 (fmin (as_u64 a) (as_u64 b)));
    (0xA5, fun a b => push64 (fmax (as_u64 a) (as_u64 b)));
    (0xA6, fun a b => push64 (copysign (as_u64 a) (as_u64 b))) ].

(** The range guard of a trapping truncation: [a.is_nan() || a >= hi || a < lo]. *)
Definition guarded_trunc (lit : Z -> spec_float) (lo hi : Z) (cast : spec_float -> Z)
    (a : spec_float) : result InterpError Z :=
  if is_nan a || SFleb (lit hi) a || SFltb a (lit lo) then Err InvalidConversion
  else Ok (as_i64 (cast a)).

Definition f_trunc : list (Z * unop) :=
  [ (0xA8, fun a => guarded_trunc f32_lit (-2147483648) 2147483648 f_as_i32 (f32 a));
    (0xA9, fun a => guarded_trunc f32_lit 0 4294967296 f_as_u32 (f32 a));
    (0xAA, fun a => guarded_trunc f64_lit (-2147483648) 2147483648 f_as_i32 (f64 a));
    (0xAB, fun a => guarded_trunc f64_lit 0 4294967296 f_as_u32 (f64 a));
    (0xAE, fun a => guarded_trunc f32_lit I64_MIN (- I64_MIN) f_as_i64 (f32 a));
    (0xAF, fun a => guarded_trunc f32_lit 0 18446744073709551616 f_as_u64 (f32 a));
    (0xB0, fun a => guarded_trunc f64_lit I64_MIN (- I64_MIN) f_as_i64 (f64 a));
    (0xB1, fun a => guarded_trunc f64_lit 0 18446744073709551616 f_as_u64 (f64 a)) ].

(** [u32::swap_bytes] *)
Definition swap_bytes (x : Z) : Z := le_bytes (rev (to_le_bytes 4 x)).

Definition i32_reinterpret_f32 (a : Z) : result InterpError Z :=
  push32 (swap_bytes
    (fold_left (fun acc b => Z.lor (as_u32 (Z.shiftl acc 8)) b) (to_le_bytes 4 (as_i32 a)) 0)).

Definition f_conv : list (Z * unop) :=
  [ (0xB2, fun a => push32 (f32_bits 0 (f32_lit (as_i32 a))));
    (0xB3, fun a => push32 (f32_bits 0 (f32_lit (as_u32 a))));
    (0xB4, fun a => push32 (f32_bits 0 (f32_lit a)));
    (0xB5, fun a => push32 (f32_bits 0 (f32_lit (as_u64 a))));
    (0xB6, fun a => push32 (f32_bits (nan32 0xB6 (as_u64 a) 0) (convert 23 8 (f64 a))));
    (0xB7, fun a => push64 (f64_bits 0 (f64_lit (as_i32 a))));
    (0xB8, fun a => push64 (f64_bits 0 (f64_lit (as_u32 a))));
    (0xB9, fun a => push64 (f64_bits 0 (f64_lit a)));
    (0xBA, fun a => push64 (f64_bits 0 (f64_lit (as_u64 a))));
    (0xBB, fun a => push64 (f64_bits (nan64 0xBB (as_u32 a) 0) (convert 52 11 (f32 a))));
    (0xBC, i32_reinterpret_f32) ].

(** Saturating truncations, the sub-opcodes 0 to 7 of [0xFC]. *)
Definition sat_s (lit : Z -> spec_float) (hi : Z) (cast : spec_float -> Z) (a : spec_float)
    : result InterpError Z :=
  Ok (if is_nan a then 0 else
      if SFleb (lit hi) a then hi - 1 else
      if SFltb a (lit (- hi)) then - hi else cast a).
Definition sat_u (lit : Z -> spec_float) (hi : Z) (cast : spec_float -> Z) (a : spec_float)
    : result InterpError Z :=
  Ok (as_i64 (if is_nan a || SFltb a (lit 0) then 0 else
              if SFleb (lit hi) a then hi - 1 else cast a)).

Definition trunc_sat : list (Z * unop) :=
  [ (0, fun a => sat_s f32_lit 2147483648 f_as_i32 (f32 a));
    (1, fun a => sat_u f32_lit 4294967296 f_as_u32 (f32 a));
    (2, fun a => sat_s f64_lit 2147483648 f_as_i32 (f64 a));
    (3, fun a => sat_u f64_lit 4294967296 f_as_u32 (f64 a));
    (4, fun a => sat_s f32_lit 9223372036854775808 f_as_i64 (f32 a));
    (5, fun a => sat_u f32_lit 18446744073709551616 f_as_u64 (f32 a));
    (6, fun a => sat_s f64_lit 9223372036854775808 f_as_i64 (f64 a));
    (7, fun a => sat_u f64_lit 18446744073709551616 f_as_u64 (f64 a)) ].

Definition float_unops : list (Z * unop) := f32_un ++ f64_un ++ f_trunc ++ f_conv.
Definition float_binops : list (Z * binop) := f32_cmp ++ f64_cmp ++ f32_bin ++ f64_bin.

(** ** Results are stack entries *)

Lemma push32_typed b : num_result (push32 b).
Proof. apply u32_is_i64, as_u32_range. Qed.
Lemma push64_typed b : num_result (push64 b).
Proof. apply as_i64_range. Qed.
Lemma guarded_trunc_typed lit lo hi cast a : num_result (guarded_trunc lit lo hi cast a).
Proof. unfold guarded_trunc. destruct (_ || _); [by right|apply as_i64_range]. Qed.

Lemma sf_as_range lo hi f : lo <= 0 <= hi -> lo <= sf_as lo hi f <= hi.
Proof. intros Hr. destruct f as [s|s| |s m e]; try destruct s; cbn [sf_as]; lia. Qed.

Lemma sat_s_typed lit hi a :
  0 < hi <= 9223372036854775808 -> num_result (sat_s lit hi (sf_as (- hi) (hi - 1)) a).
Proof.
  intros Hh. unfold sat_s, num_result, is_i64.
  pose proof (sf_as_range (- hi) (hi - 1) a). repeat case_match; lia.
Qed.
Lemma sat_u_typed lit hi cast a : num_result (sat_u lit hi cast a).
Proof. apply as_i64_range. Qed.

Lemma float_binops_typed : Forall (fun e => binop_typed e.2) float_binops.
Proof.
  table; intros a b _ _; first [apply b2i_i64 | apply push32_typed | apply push64_typed].
Qed.

Lemma float_unops_typed : Forall (fun e => unop_typed e.2) float_unops.
Proof.
  table; intros a _; first [apply guarded_trunc_typed | apply push32_typed | apply push64_typed].
Qed.

Lemma trunc_sat_typed : Forall (fun e => unop_typed e.2) trunc_sat.
Proof.
  table; intros a _; first [apply sat_u_typed | by apply sat_s_typed].
Qed.
End ops.

(** ** Round trip of the bit patterns *)

Section roundtrip.
Context (mw ew : Z) (Hmw : 0 < mw) (Hew : 1 < ew).

Lemma fields_range b :
  0 <= Z.shiftr b mw mod 2 ^ ew < 2 ^ ew /\ 0 <= b mod 2 ^ mw < 2 ^ mw.
Proof. split; apply Z.mod_pos_bound, Z.pow_pos_nonneg; lia. Qed.

(** Sign, exponent and significand make up the pattern. *)
Lemma fields_split b :
  0 <= b < 2 ^ (mw + ew + 1) ->
  b = sign_bit mw ew (Z.testbit b (mw + ew))
      + Z.shiftr b mw mod 2 ^ ew * 2 ^ mw + b mod 2 ^ mw.
Proof.
  intros Hb. rewrite Z.shiftr_div_pow2 by lia.
  rewrite (Z.div_mod b (2 ^ mw)) at 1 by (apply Z.pow_nonzero; lia).
  set (q := b / 2 ^ mw).
  assert (Z.testbit b (mw + ew) = Z.testbit q ew) as ->.
  { unfold q. rewrite <- Z.shiftr_div_pow2, Z.shiftr_spec by lia. f_equal. lia. }
  assert (0 <= q < 2 ^ ew * 2) as Hq.
  { unfold q. split; [apply Z.div_pos; [lia|apply Z.pow_pos_nonneg; lia]|].
    apply Z.div_lt_upper_bound; [apply Z.pow_pos_nonneg; lia|].
    replace (mw + ew + 1) with (mw + (ew + 1)) in Hb by lia.
    rewrite !Z.pow_add_r in Hb by lia. lia. }
  rewrite (Z.div_mod q (2 ^ ew)) at 1 by (apply Z.pow_nonzero; lia).
  rewrite Z.testbit_eqb by lia.
  assert (0 <= q / 2 ^ ew < 2) as Hs.
  { split; [apply Z.div_pos; [lia|apply Z.pow_pos_nonneg; lia]|].
    apply Z.div_lt_upper_bound; [apply Z.pow_pos_nonneg; lia|lia]. }
  unfold sign_bit. rewrite Z.pow_add_r by lia.
  rewrite (Z.mod_small (q / 2 ^ ew)) by lia.
  assert (q / 2 ^ ew = 0 \/ q / 2 ^ ew = 1) as [-> | ->] by lia; simpl; lia.
Qed.

Lemma to_from_bits nan b :
  0 <= b < 2 ^ (mw + ew + 1) -> is_nan (from_bits mw ew b) = false ->
  to_bits mw ew nan (from_bits mw ew b) = b.
Proof.
  intros Hb Hn. pose proof (fields_split b Hb) as Hsplit. pose proof (fields_range b) as [He Hm].
  pose proof (Z.pow_pos_nonneg 2 mw).
  unfold from_bits in *.
  set (s := Z.testbit b (mw + ew)) in *. set (e := Z.shiftr b mw mod 2 ^ ew) in *.
  set (m := b mod 2 ^ mw) in *. clearbody s e m.
  destruct (e =? 0) eqn:E0; [|destruct (e =? 2 ^ ew - 1) eqn:E1]; zbool.
  - subst e. destruct m as [|p|p]; cbn [to_bits]; [lia| |lia].
    rewrite (proj2 (Z.ltb_lt _ _)) by lia. lia.
  - destruct (m =? 0) eqn:Em; [|done]. zbool. cbn [to_bits]. subst. lia.
  - destruct (m + 2 ^ mw) as [|p|p] eqn:Ep; [lia| |lia]. cbn [to_bits].
    rewrite (proj2 (Z.ltb_ge _ _)) by lia. rewrite <- Ep. lia.
Qed.
End roundtrip.

(** The byte-folding [i32.reinterpret_f32] is the zero-extended bit pattern. *)
Lemma reinterpret_f32_bits a : i32_reinterpret_f32 a = Ok (as_u32 a).
Proof.
  unfold i32_reinterpret_f32, push32. f_equal. unfold swap_bytes.
  set (v := as_i32 a).
  assert (as_u32 a = as_u32 v) as -> by (unfold v; unfold_width; zlia).
  rewrite <- (le_bytes_to_le 4 v : _ = as_u32 v).
  pose proof (to_le_bytes_u8 4 v) as Hu. pose proof (to_le_bytes_length 4 v) as Hlen.
  generalize dependent (to_le_bytes 4 v). intros l Hu Hlen.
  destruct l as [|b0 [|b1 [|b2 [|b3 [|]]]]]; try discriminate Hlen.
  rewrite !Forall_cons_iff in Hu. destruct Hu as (H0 & H1 & H2 & H3 & _).
  unfold is_u8 in *. cbn [fold_left].
  assert (forall acc x, 0 <= acc < 16777216 -> 0 <= x < 256 ->
    Z.lor (as_u32 (Z.shiftl acc 8)) x = acc * 256 + x) as Hl.
  { intros acc x Ha Hx. rewrite Z.shiftl_mul_pow2 by lia. rewrite as_u32_id by (unfold is_u32; lia).
    rewrite Z.lor_comm, lor_disjoint by lia. lia. }
  rewrite (Hl 0 b0), (Hl _ b1), (Hl _ b2), (Hl _ b3) by lia. rewrite Z.mul_0_l, Z.add_0_l.
  replace (to_le_bytes 4 _) with [b3; b2; b1; b0].
  { cbn [rev app le_bytes]. apply as_u32_id. unfold is_u32. lia. }
  transitivity (to_le_bytes (length [b3; b2; b1; b0]) (le_bytes [b3; b2; b1; b0])).
  - symmetry. apply to_le_bytes_le_bytes. repeat constructor; unfold is_u8; lia.
  - cbn [length le_bytes]. f_equal. lia.
Qed.
