(* ===== verification/Jump.v ===== *)
(** * Block ends and the jump table ([kernel/src/wasm/interp.rs])

    [scan_block_end], the linear scan for the [end] and [else] of a block, and
    the open-addressing hash table that caches its results. *)

From S2P Require Import Prelude Leb128 Opcode.

(** The arms of the two scanners, by how an opcode's immediates are skipped. *)
Inductive imm_class :=
| KBlock      (* block, loop, if: a one-byte block type *)
| KElse
| KEnd
| KLeb        (* one LEB-128 *)
| KLeb2       (* two LEB-128 *)
| KTable      (* br_table *)
| KByte       (* one reserved byte *)
| KBytes4
| KBytes8
| KNone.

Definition scan_class (op : Z) : imm_class :=
  if (op =? 0x02) || (op =? 0x03) || (op =? 0x04) then KBlock else
  if op =? 0x05 then KElse else
  if op =? 0x0B then KEnd else
  if (op =? 0x0C) || (op =? 0x0D) || (op =? 0x10)
     || (op =? 0x20) || (op =? 0x21) || (op =? 0x22)
     || (op =? 0x23) || (op =? 0x24) || (op =? 0x41) || (op =? 0x42) then KLeb else
  if op =? 0x11 then KLeb2 else
  if op =? 0x0E then KTable else
  if (0x28 <=? op) && (op <=? 0x3E) then KLeb2 else
  if (op =? 0x3F) || (op =? 0x40) then KByte else
  if op =? 0x43 then KBytes4 else
  if op =? 0x44 then KBytes8 else
  if op =? 0xFC then KLeb else
  KNone.

(** [for _ in 0..n { i += skip_leb128(body, i)?; }] *)
Fixpoint skip_lebs (n : nat) (body : list Z) (i : nat) : option nat :=
  match n with
  | O => Some i
  | S n' => match skip_leb128 body i with Some k => skip_lebs n' body (i + k) | None => None end
  end.

(** The cursor after the immediates of a non-structural opcode. *)
Definition skip_imm (body : list Z) (op : Z) (i : nat) : option nat :=
  match scan_class op with
  | KLeb => skip_lebs 1 body i
  | KLeb2 => skip_lebs 2 body i
  | KTable =>
    match read_u32_leb128 (drop i body) with
    | Some (count, n) => skip_lebs (S (Z.to_nat count)) body (i + n)
    | None => None
    end
  | KByte => Some (i + 1)%nat
  | KBytes4 => Some (i + 4)%nat
  | KBytes8 => Some (i + 8)%nat
  | _ => Some i
  end.

(** [(end_pc, else_pc)]; an absent [else] ([NO_ELSE]) is [None]. *)
Definition targets : Type := nat * option nat.

Fixpoint scan_loop (fuel : nat) (body : list Z) (i depth : nat) (else_pc : option nat)
    : option targets :=
  match fuel, body !! i with
  | S fuel', Some op =>
    let i := S i in
    match scan_class op with
    | KBlock => scan_loop fuel' body (i + 1) (S depth) else_pc
    | KElse => scan_loop fuel' body i depth (if (depth =? 1)%nat then Some (i - 1)%nat else else_pc)
    | KEnd =>
      let depth := (depth - 1)%nat in
      if (depth =? 0)%nat then Some (i - 1, else_pc)%nat
      else scan_loop fuel' body i depth else_pc
    | _ =>
      match skip_imm body op i with
      | Some i => scan_loop fuel' body i depth else_pc
      | None => None
      end
    end
  | _, _ => None
  end.

(** Every iteration reads one byte of the body. *)
Definition scan_block_end (body : list Z) (start : nat) : option targets :=
  scan_loop (length body) body start 1 None.

(** ** The table *)

Record JumpSlot := mkSlot { key_body : Z; key_pc : Z; slot_end : Z; slot_else : Z }.

Definition U16_MAX : Z := 65535.
Definition U32_MAX : Z := 4294967295.
Definition EMPTY_JUMP_SLOT : JumpSlot := mkSlot U16_MAX 0 0 U32_MAX.

Definition jump_hash (body_idx scan_start : nat) : nat :=
  let h := Z.lxor (as_u64 (Z.of_nat body_idx * 2654435761))
                  (as_u64 (Z.of_nat scan_start * 2246822519)) in
  Z.to_nat (Z.land (Z.lxor h (Z.shiftr h 16)) (Z.of_nat JUMP_SLOTS - 1)).

(** [(i + 1) & (JUMP_SLOTS - 1)] *)
Definition next_slot (i : nat) : nat := ((i + 1) mod JUMP_SLOTS)%nat.

Definition slot_of (body_idx scan_start : nat) (t : targets) : JumpSlot :=
  mkSlot (Z.of_nat body_idx mod 65536) (as_u32 (Z.of_nat scan_start)) (as_u32 (Z.of_nat t.1))
         (match t.2 with None => U32_MAX | Some e => as_u32 (Z.of_nat e) end).

Fixpoint jump_insert_loop (n : nat) (table : list JumpSlot) (i : nat) (s : JumpSlot)
    : list JumpSlot :=
  match n with
  | O => table
  | S n' =>
    match table !! i with
    | Some s0 =>
      if key_body s0 =? U16_MAX then <[i := s]> table
      else jump_insert_loop n' table (next_slot i) s
    | None => table
    end
  end.

Definition jump_insert (table : list JumpSlot) (body_idx scan_start : nat) (t : targets)
    : list JumpSlot :=
  if U16_MAX <=? Z.of_nat body_idx then table
  else jump_insert_loop JUMP_SLOTS table (jump_hash body_idx scan_start)
         (slot_of body_idx scan_start t).

(** The probe sequence has period [JUMP_SLOTS]: a lookup that visited that
    many slots without an answer never ends. *)
Fixpoint jump_lookup_loop (fuel : nat) (table : list JumpSlot) (body_idx scan_start i : nat)
    : result InterpError (option targets) :=
  match fuel with
  | O => OutOfFuel
  | S fuel' =>
    let? s := or_panic (table !! i) in
    if key_body s =? U16_MAX then Ok None else
    if (key_body s =? Z.of_nat body_idx) && (key_pc s =? Z.of_nat scan_start) then
      Ok (Some (Z.to_nat (slot_end s),
                if slot_else s =? U32_MAX then None else Some (Z.to_nat (slot_else s))))
    else jump_lookup_loop fuel' table body_idx scan_start (next_slot i)
  end.

Definition jump_lookup (table : list JumpSlot) (body_idx scan_start : nat)
    : result InterpError (option targets) :=
  jump_lookup_loop JUMP_SLOTS table body_idx scan_start (jump_hash body_idx scan_start).

(** [.unwrap_or(d)] of [skip_leb128], [n] times. *)
Fixpoint skip_lebs_or (d n : nat) (body : list Z) (i : nat) : nat :=
  match n with
  | O => i
  | S n' => skip_lebs_or d n' body (i + default d (skip_leb128 body i))
  end.

Fixpoint pre_scan_loop (fuel : nat) (body : list Z) (body_idx i : nat) (table : list JumpSlot)
    : list JumpSlot :=
  match fuel, body !! i with
  | S fuel', Some op =>
    let i := S i in
    match scan_class op with
    | KBlock =>
      if (length body <=? i)%nat then table else
      let scan_start := (i + 1)%nat in
      let table :=
        match scan_block_end body scan_start with
        | Some t => jump_insert table body_idx scan_start t
        | None => table
        end in
      pre_scan_loop fuel' body body_idx scan_start table
    | KLeb => pre_scan_loop fuel' body body_idx (skip_lebs_or 0 1 body i) table
    | KLeb2 => pre_scan_loop fuel' body body_idx (skip_lebs_or 0 2 body i) table
    | KTable =>
      match read_u32_leb128 (drop i body) with
      | Some (count, n) =>
        pre_scan_loop fuel' body body_idx (skip_lebs_or 1 (S (Z.to_nat count)) body (i + n)) table
      | None => table
      end
    | KByte => pre_scan_loop fuel' body body_idx (i + 1) table
    | KBytes4 => pre_scan_loop fuel' body body_idx (i + 4) table
    | KBytes8 => pre_scan_loop fuel' body body_idx (i + 8) table
    | _ => pre_scan_loop fuel' body body_idx i table
    end
  | _, _ => table
  end.

Definition pre_scan_body_jumps (body : list Z) (body_idx : nat) (table : list JumpSlot)
    : list JumpSlot := pre_scan_loop (length body) body body_idx 0 table.

(** The loop of [Interpreter::new] over the bodies. *)
Definition build_jump_table (bodies : list (list Z)) : list JumpSlot :=
  (fix go bi bodies table :=
     match bodies with
     | [] => table
     | b :: bodies' => go (S bi) bodies' (pre_scan_body_jumps b bi table)
     end) O bodies (replicate JUMP_SLOTS EMPTY_JUMP_SLOT).

(** [jump_lookup(..).or_else(|| scan_block_end(..)).ok_or(MalformedCode)] *)
Definition block_targets (table : list JumpSlot) (body : list Z) (body_idx pc_body : nat)
    : result InterpError targets :=
  let? r := jump_lookup table body_idx pc_body in
  match r with
  | Some t => Ok t
  | None => ok_or (scan_block_end body pc_body) MalformedCode
  end.

(** ** Where a scan ends *)

Lemma skip_lebs_ge n body i j : skip_lebs n body i = Some j -> (i <= j)%nat.
Proof.
  revert i; induction n as [|n IH]; intros i; simpl; [by intros [= <-]|].
  destruct (skip_leb128 body i) as [k|]; [|done]. intros H%IH. lia.
Qed.

Lemma skip_imm_ge body op i j : skip_imm body op i = Some j -> (i <= j)%nat.
Proof.
  unfold skip_imm. repeat case_match; intros H'; simplify_eq; try lia;
    try (by apply skip_lebs_ge in H'). apply skip_lebs_ge in H'. lia.
Qed.

Lemma scan_class_KEnd op : scan_class op = KEnd -> op = 0x0B.
Proof. unfold scan_class. intros H. repeat case_match; simplify_eq; by apply Z.eqb_eq. Qed.
Lemma scan_class_KElse op : scan_class op = KElse -> op = 0x05.
Proof. unfold scan_class. intros H. repeat case_match; simplify_eq; by apply Z.eqb_eq. Qed.

(** The targets are an [end] and an [else] of the body, past the start. *)
Definition good_targets (body : list Z) (start : nat) (t : targets) : Prop :=
  (start <= t.1)%nat /\ body !! t.1 = Some 0x0B /\
  forall x, t.2 = Some x -> (start <= x < t.1)%nat /\ body !! x = Some 0x05.

Lemma scan_loop_good fuel body start i depth e t :
  scan_loop fuel body i depth e = Some t -> (start <= i)%nat ->
  (forall x, e = Some x -> (start <= x < i)%nat /\ body !! x = Some 0x05) ->
  good_targets body start t.
Proof.
  revert i depth e; induction fuel as [|fuel IH]; intros i depth e; cbn [scan_loop]; [done|].
  destruct (body !! i) as [op|] eqn:Hop; [|done].
  assert ((forall x, e = Some x -> (start <= x < i)%nat /\ body !! x = Some 0x05) ->
    forall j, (i <= j)%nat -> forall x, e = Some x -> (start <= x < j)%nat /\ body !! x = Some 0x05) as Hm.
  { intros H j Hj x Hx. destruct (H x Hx). split; [lia|done]. }
  intros H Hi He. destruct (scan_class op) eqn:Hc.
  1: { eapply IH; [exact H|lia|]. apply Hm; [done|lia]. }
  1: { eapply IH; [exact H|lia|]. apply scan_class_KElse in Hc. subst op.
       destruct (depth =? 1)%nat; [|apply Hm; [done|lia]].
       intros x [= <-]. rewrite ?Nat.sub_0_r. split; [lia|done]. }
  1: { apply scan_class_KEnd in Hc. subst op. destruct (_ =? 0)%nat.
       - injection H as <-. unfold good_targets. cbn [fst snd]. rewrite ?Nat.sub_0_r. done.
       - eapply IH; [exact H|lia|]. apply Hm; [done|lia]. }
  all: destruct (skip_imm body op (S i)) as [j|] eqn:Hj; [|done]; apply skip_imm_ge in Hj;
    eapply IH; [exact H|lia|]; apply Hm; [done|lia].
Qed.

Lemma scan_block_end_good body start t :
  scan_block_end body start = Some t -> good_targets body start t.
Proof. intros H. eapply scan_loop_good; [exact H|lia|done]. Qed.

(** ** Soundness of the cached table *)

Section table.
Context (bodies : list (list Z)).
(** A body's length is a [u32] of the code section. *)
Context (Hlen : Forall (fun b => Z.of_nat (length b) < U32_MAX) bodies).

Definition slot_sound (s : JumpSlot) : Prop :=
  key_body s = U16_MAX \/
  exists bi body pc t, bodies !! bi = Some body /\ Z.of_nat bi < U16_MAX /\
    scan_block_end body pc = Some t /\ s = slot_of bi pc t.

Definition table_sound (table : list JumpSlot) : Prop :=
  length table = JUMP_SLOTS /\ Forall slot_sound table.

Lemma table_sound_empty : table_sound (replicate JUMP_SLOTS EMPTY_JUMP_SLOT).
Proof. split; [apply length_replicate|]. apply Forall_replicate. by left. Qed.

Lemma insert_loop_sound n table i s :
  table_sound table -> slot_sound s -> table_sound (jump_insert_loop n table i s).
Proof.
  intros [Hl Hf] Hs. revert i; induction n as [|n IH]; intros i; cbn [jump_insert_loop]; [done|].
  destruct (table !! i); [|done]. destruct (_ =? _); [|done].
  split; [by rewrite length_insert|]. by apply Forall_insert.
Qed.

Lemma jump_insert_sound table bi body pc t :
  table_sound table -> bodies !! bi = Some body -> scan_block_end body pc = Some t ->
  table_sound (jump_insert table bi pc t).
Proof.
  intros Ht Hb Hs. unfold jump_insert. destruct (_ <=? _) eqn:E; [done|]. zbool.
  apply insert_loop_sound; [done|]. right. eauto 10.
Qed.

Lemma pre_scan_sound fuel body bi i table :
  table_sound table -> bodies !! bi = Some body ->
  table_sound (pre_scan_loop fuel body bi i table).
Proof.
  intros Ht Hb. revert i table Ht; induction fuel as [|fuel IH]; intros i table Ht;
    cbn [pre_scan_loop]; [done|].
  destruct (body !! i) as [op|]; [|done].
  destruct (scan_class op); try by apply IH.
  - destruct (_ <=? _)%nat; [done|]. apply IH. destruct (scan_block_end _ _) eqn:Es; [|done].
    by eapply jump_insert_sound.
  - destruct (read_u32_leb128 _) as [[c n]|]; [|done]. by apply IH.
Qed.

Lemma next_slot_lt i : (next_slot i < JUMP_SLOTS)%nat.
Proof. apply Nat.mod_upper_bound. done. Qed.

Lemma jump_hash_lt bi pc : (jump_hash bi pc < JUMP_SLOTS)%nat.
Proof.
  unfold jump_hash. change (Z.of_nat JUMP_SLOTS - 1) with (Z.ones 12).
  rewrite Z.land_ones by lia. pose proof (Z.mod_pos_bound) as H.
  match goal with |- (Z.to_nat (?x mod _) < _)%nat => specialize (H x (2 ^ 12) eq_refl) end.
  change (2 ^ 12) with 4096 in *. unfold JUMP_SLOTS. lia.
Qed.

(** A hit decodes to what the scan finds. *)
Lemma slot_sound_hit s bi body pc :
  slot_sound s -> bodies !! bi = Some body ->
  (key_body s =? U16_MAX) = false -> Z.of_nat pc <= U32_MAX ->
  (key_body s =? Z.of_nat bi) && (key_pc s =? Z.of_nat pc) = true ->
  Some (Z.to_nat (slot_end s),
        if slot_else s =? U32_MAX then None else Some (Z.to_nat (slot_else s)))
  = scan_block_end body pc.
Proof.
  intros [Hs|(bi' & body' & pc' & t & Hb' & Hbi' & Ht & ->)] Hb He Hpc Hk; [zbool; lia|].
  pose proof (scan_block_end_good _ _ _ Ht) as (Hge & Hend & Helse).
  apply lookup_lt_Some in Hend as Hlt.
  pose proof Hb' as Hl'. eapply Forall_lookup_1 in Hl'; [|exact Hlen].
  unfold slot_of in *. cbn [key_body key_pc slot_end slot_else] in *.
  unfold U16_MAX, U32_MAX in *. zbool.
  rewrite Z.mod_small in * by lia. rewrite !as_u32_id in * by (unfold is_u32; lia).
  assert (bi' = bi) as -> by lia. assert (pc' = pc) as -> by lia.
  rewrite Hb in Hb'. injection Hb' as ->. rewrite Ht, Nat2Z.id. destruct t as [te [x|]]; simpl in *.
  - destruct (Helse x eq_refl) as [Hx _]. rewrite as_u32_id by (unfold is_u32; lia).
    rewrite (proj2 (Z.eqb_neq _ _)) by lia. by rewrite Nat2Z.id.
  - done.
Qed.

Lemma jump_lookup_loop_sound fuel table bi body pc i :
  table_sound table -> bodies !! bi = Some body -> Z.of_nat pc <= U32_MAX ->
  (i < JUMP_SLOTS)%nat ->
  match jump_lookup_loop fuel table bi pc i with
  | Ok (Some t) => scan_block_end body pc = Some t
  | Ok None => True
  | OutOfFuel => forall d s, (d < fuel)%nat -> table !! ((i + d) mod JUMP_SLOTS)%nat = Some s ->
                 key_body s <> U16_MAX
  | _ => False
  end.
Proof.
  intros [Hl Hf] Hb Hpc. revert i; induction fuel as [|fuel IH]; intros i Hi;
    cbn [jump_lookup_loop]; [intros; lia|].
  destruct (lookup_lt_is_Some_2 table i) as [s Hs]; [lia|]. rewrite Hs. cbn [or_panic rbind].
  pose proof Hs as Hss. eapply Forall_lookup_1 in Hss; [|exact Hf].
  destruct (key_body s =? U16_MAX) eqn:Ek; [done|].
  destruct (_ && _) eqn:Em; [symmetry; by apply slot_sound_hit with (bi := bi)|].
  specialize (IH (next_slot i) (next_slot_lt i)).
  destruct (jump_lookup_loop fuel table bi pc (next_slot i)) as [[t|]| | |]; try done.
  intros d s' Hd Hs'. destruct d as [|d].
  - rewrite Nat.add_0_r, Nat.mod_small in Hs' by done. rewrite Hs in Hs'. simplify_eq. by zbool.
  - apply (IH d s'); [lia|]. unfold next_slot. rewrite Nat.Div0.add_mod_idemp_l.
    by replace (i + 1 + d)%nat with (i + S d)%nat by lia.
Qed.

(** Whatever the table holds, a lookup that ends agrees with the scan. *)
Lemma block_targets_sound table bi body pc :
  table_sound table -> bodies !! bi = Some body -> Z.of_nat pc <= U32_MAX ->
  block_targets table body bi pc = ok_or (scan_block_end body pc) MalformedCode \/ block_targets table body bi pc = OutOfFuel.
Proof.
  intros Ht Hb Hpc. unfold block_targets, jump_lookup.
  pose proof (jump_lookup_loop_sound JUMP_SLOTS table bi body pc _ Ht Hb Hpc (jump_hash_lt bi pc)) as H.
  destruct (jump_lookup_loop _ _ _ _ _) as [[t|]| | |]; cbn [rbind]; try done; [|by left|by right].
  left. by rewrite H.
Qed.

(** With one slot left empty the cached lookup is the scan. *)
Lemma block_targets_scan table bi body pc :
  table_sound table -> (exists i, key_body <$> table !! i = Some U16_MAX) ->
  bodies !! bi = Some body -> Z.of_nat pc <= U32_MAX ->
  block_targets table body bi pc = ok_or (scan_block_end body pc) MalformedCode.
Proof.
  intros Ht [e He] Hb Hpc. unfold block_targets, jump_lookup.
  pose proof (jump_lookup_loop_sound JUMP_SLOTS table bi body pc _ Ht Hb Hpc (jump_hash_lt bi pc)) as H.
  destruct (jump_lookup_loop _ _ _ _ _) as [[t|]| | |]; cbn [rbind]; try done.
  - by rewrite H.
  - exfalso. apply fmap_Some in He as (s & Hs & Hk). destruct Ht as [Hl _].
    assert (e < JUMP_SLOTS)%nat by (rewrite <- Hl; by eapply lookup_lt_Some).
    pose proof (jump_hash_lt bi pc). set (i := jump_hash bi pc) in *.
    apply (H ((e + JUMP_SLOTS - i) mod JUMP_SLOTS)%nat s).
    + by apply Nat.mod_upper_bound.
    + rewrite Nat.Div0.add_mod_idemp_r. replace (i + (e + JUMP_SLOTS - i))%nat with (e + 1 * JUMP_SLOTS)%nat by lia.
      rewrite Nat.Div0.mod_add, Nat.mod_small by done. done.
    + by rewrite Hk.
Qed.
End table.

(** ** The table keeps an empty slot *)

Definition is_block_op (op : Z) : bool := match scan_class op with KBlock => true | _ => false end.

(** Structural opcode bytes of a body. *)
Definition block_ops (body : list Z) : nat := length (filter (fun op => is_block_op op = true) body).

Definition filled (table : list JumpSlot) : nat :=
  length (filter (fun s => key_body s <> U16_MAX) table).

Lemma filled_insert table i s : (filled (<[i := s]> table) <= S (filled table))%nat.
Proof.
  unfold filled. revert i; induction table as [|s0 table IH]; intros [|i]; simpl; try lia.
  - rewrite !filter_cons. repeat case_decide; simpl; lia.
  - specialize (IH i). rewrite !filter_cons. repeat case_decide; simpl; lia.
Qed.

Lemma filled_jump_insert table bi pc t : (filled (jump_insert table bi pc t) <= S (filled table))%nat.
Proof.
  unfold jump_insert. destruct (_ <=? _); [lia|]. generalize (jump_hash bi pc).
  induction JUMP_SLOTS as [|n IH]; intros i; cbn [jump_insert_loop]; [lia|].
  destruct (table !! i); [|lia]. destruct (_ =? _); [apply filled_insert|apply IH].
Qed.

Lemma block_ops_drop_le body i j : (i <= j)%nat -> (block_ops (drop j body) <= block_ops (drop i body))%nat.
Proof.
  intros Hij. replace j with (i + (j - i))%nat by lia. rewrite <- drop_drop.
  generalize (drop i body). generalize (j - i)%nat. clear. intros n; induction n as [|n IH]; intros l.
  - done.
  - destruct l as [|x l]; [done|]. simpl. rewrite (IH l).
    unfold block_ops. rewrite filter_cons. case_decide; simpl; lia.
Qed.

Lemma skip_lebs_or_ge d n body i : (i <= skip_lebs_or d n body i)%nat.
Proof.
  revert i; induction n as [|n IH]; intros i; simpl; [lia|].
  etransitivity; [|apply IH]. lia.
Qed.

Lemma filled_pre_scan fuel body bi i table :
  (filled (pre_scan_loop fuel body bi i table) <= filled table + block_ops (drop i body))%nat.
Proof.
  revert i table; induction fuel as [|fuel IH]; intros i table; cbn [pre_scan_loop]; [lia|].
  destruct (body !! i) as [op|] eqn:Hop; [|lia].
  assert (forall j table', (S i <= j)%nat -> (filled table' <= filled table + (if is_block_op op then 1 else 0))%nat ->
    (filled (pre_scan_loop fuel body bi j table') <= filled table + block_ops (drop i body))%nat) as Hstep.
  { intros j table' Hj Ht. pose proof (IH j table') as H1.
    pose proof (block_ops_drop_le body (S i) j Hj) as H2.
    rewrite (drop_S _ _ _ Hop). unfold block_ops at 1. rewrite filter_cons.
    unfold block_ops in *. case_decide as Hd; [|destruct (is_block_op op); [done|]];
      rewrite ?Hd in Ht; simpl; lia. }
  unfold is_block_op in Hstep.
  destruct (scan_class op); try (apply Hstep; lia).
  - destruct (_ <=? _)%nat; [lia|]. apply Hstep; [lia|].
    destruct (scan_block_end _ _); [|lia].
    match goal with |- context [jump_insert ?t ?b ?p ?x] => pose proof (filled_jump_insert t b p x) end. lia.
  - apply Hstep; [apply skip_lebs_or_ge|lia].
  - apply Hstep; [apply skip_lebs_or_ge|lia].
  - destruct (read_u32_leb128 _) as [[c n]|]; [|lia]. apply Hstep; [|lia].
    etransitivity; [|apply skip_lebs_or_ge]. lia.
Qed.

Lemma filled_lt_empty table :
  (filled table < length table)%nat -> exists i, key_body <$> table !! i = Some U16_MAX.
Proof.
  unfold filled. induction table as [|s table IH]; simpl; [lia|].
  rewrite filter_cons. case_decide as Hs; simpl.
  - intros Hlt. destruct IH as [i Hi]; [lia|]. exists (S i). done.
  - intros _. exists O. destruct (decide (key_body s = U16_MAX)) as [Heq|]; [|done].
    cbn. by rewrite Heq.
Qed.

Lemma build_jump_table_ok bodies :
  let table := build_jump_table bodies in
  table_sound bodies table /\
  (filled table <= list_sum (map block_ops bodies))%nat.
Proof.
  simpl. unfold build_jump_table.
  assert (filled (replicate JUMP_SLOTS EMPTY_JUMP_SLOT) = 0%nat) as H0.
  { unfold filled. induction JUMP_SLOTS as [|n IH]; [done|].
    rewrite replicate_S, filter_cons. case_decide as Hd; [by destruct Hd|done]. }
  pose proof (table_sound_empty bodies) as Ht.
  assert (forall rest pre table, bodies = pre ++ rest -> table_sound bodies table ->
    let table' := (fix go bi bodies table :=
     match bodies with
     | [] => table
     | b :: bodies' => go (S bi) bodies' (pre_scan_body_jumps b bi table)
     end) (length pre) rest table in
    table_sound bodies table' /\
    (filled table' <= filled table + list_sum (map block_ops rest))%nat) as Hgo.
  { clear. induction rest as [|b rest IH]; intros pre table Hb Ht; simpl; [split; [done|lia]|].
    destruct (IH (pre ++ [b]) (pre_scan_body_jumps b (length pre) table)) as [H1 H2].
    - by rewrite <- app_assoc.
    - apply pre_scan_sound; [done|]. subst. by rewrite lookup_app_r, Nat.sub_diag by lia.
    - rewrite length_app, Nat.add_comm in H1, H2. simpl in H1, H2. split; [done|].
      rewrite H2. pose proof (filled_pre_scan (length b) b (length pre) 0 table) as H3.
      unfold pre_scan_body_jumps. rewrite drop_0 in H3. lia. }
  destruct (Hgo bodies [] _ eq_refl Ht) as [H1 H2]. rewrite H0 in H2. done.
Qed.

(** ** Structured code

    The grammar of instruction sequences, as far as the scanner can tell:
    plain instructions with the immediates of their class, blocks, loops and
    ifs closed by [end], and two-armed ifs. *)

Definition leb_bytes (l : list Z) : Prop :=
  exists init last, l = init ++ [last] /\
    Forall (fun b => Z.land b 0x80 <> 0) init /\ Z.land last 0x80 = 0.

Definition imm_ok (op : Z) (imm : list Z) : Prop :=
  match scan_class op with
  | KLeb => leb_bytes imm
  | KLeb2 => exists a b, imm = a ++ b /\ leb_bytes a /\ leb_bytes b
  | KTable => exists count labels, imm = encode_u32 count ++ concat labels /\ is_u32 count /\
                Z.of_nat (length labels) = count + 1 /\ Forall leb_bytes labels
  | KByte => length imm = 1%nat
  | KBytes4 => length imm = 4%nat
  | KBytes8 => length imm = 8%nat
  | KNone => imm = []
  | _ => False
  end.

Inductive seq_code : list Z -> Prop :=
| sc_nil : seq_code []
| sc_plain op imm rest : imm_ok op imm -> seq_code rest -> seq_code (op :: imm ++ rest)
| sc_block op bt body rest :
    is_block_op op = true -> seq_code body -> seq_code rest ->
    seq_code (op :: bt :: body ++ 0x0B :: rest)
| sc_if_else bt thn els rest :
    seq_code thn -> seq_code els -> seq_code rest ->
    seq_code (0x04 :: bt :: thn ++ 0x05 :: els ++ 0x0B :: rest).

Lemma skip_leb_at bs i l r :
  at_cursor bs i (l ++ r) -> leb_bytes l -> skip_leb128 bs i = Some (length l).
Proof.
  intros [_ Hd] (init & last & -> & Hi & Hl). unfold skip_leb128. rewrite Hd, <- app_assoc. simpl.
  rewrite length_app. simpl. clear Hd. rewrite Nat.add_comm. change (1 + length init)%nat with (S (length init)).
  change (Some (S (length init))) with (Some (S (0 + length init)))%nat. generalize O.
  induction Hi as [|b init Hb _ IH]; intros n; simpl.
  - rewrite Hl. simpl. by rewrite Nat.add_0_r.
  - rewrite (proj2 (Z.eqb_neq _ _)) by done. rewrite IH. f_equal. lia.
Qed.

Lemma skip_lebs_at bs i ls r :
  at_cursor bs i (concat ls ++ r) -> Forall leb_bytes ls ->
  skip_lebs (length ls) bs i = Some (i + length (concat ls))%nat.
Proof.
  intros Ha Hls. revert i Ha; induction Hls as [|l ls Hl _ IH]; intros i Ha; simpl in *.
  - f_equal. lia.
  - rewrite <- app_assoc in Ha. rewrite (skip_leb_at _ _ _ _ Ha Hl).
    rewrite IH by by apply at_skip in Ha. rewrite length_app. f_equal. lia.
Qed.

Lemma skip_imm_at bs i op imm r :
  at_cursor bs i (imm ++ r) -> imm_ok op imm -> skip_imm bs op i = Some (i + length imm)%nat.
Proof.
  intros Ha. unfold imm_ok, skip_imm. destruct (scan_class op); try done.
  - intros Hl. change 1%nat with (length [imm]). rewrite (skip_lebs_at bs i [imm] r) by (simpl; rewrite ?app_nil_r; auto).
    simpl. by rewrite app_nil_r.
  - intros (a & b & -> & H1 & H2). change 2%nat with (length [a; b]). rewrite (skip_lebs_at bs i [a; b] r) by (simpl; rewrite ?app_nil_r; auto).
    simpl. by rewrite app_nil_r.
  - intros (count & labels & -> & Hc & Hn & Hl). rewrite <- app_assoc in Ha. pose proof Ha as [_ Hd].
    rewrite Hd, (read_u32_encode _ _ Hc). unfold is_u32 in Hc.
    replace (S (Z.to_nat count)) with (length labels) by lia.
    rewrite (skip_lebs_at _ _ _ r) by (done || by apply at_skip in Ha).
    rewrite length_app. f_equal. lia.
  - intros ->. done.
  - intros ->. done.
  - intros ->. done.
  - intros ->. simpl. f_equal. lia.
Qed.

Lemma scan_loop_S fuel bs i op r depth e :
  at_cursor bs i (op :: r) ->
  scan_loop (S fuel) bs i depth e =
  match scan_class op with
  | KBlock => scan_loop fuel bs (i + 2) (S depth) e
  | KElse => scan_loop fuel bs (i + 1) depth (if (depth =? 1)%nat then Some i else e)
  | KEnd => if (depth - 1 =? 0)%nat then Some (i, e) else scan_loop fuel bs (i + 1) (depth - 1) e
  | _ => match skip_imm bs op (i + 1) with Some j => scan_loop fuel bs j depth e | None => None end
  end.
Proof.
  intros H. cbn [scan_loop]. rewrite (at_lookup _ _ _ _ H).
  replace (S i + 1)%nat with (i + 2)%nat by lia. replace (S i) with (i + 1)%nat by lia.
  replace (i + 1 - 1)%nat with i by lia. done.
Qed.

Lemma at_skip2 bs i a b r : at_cursor bs i (a :: b :: r) -> at_cursor bs (i + 2) r.
Proof. apply (at_skip bs i [a; b] r). Qed.

Lemma scan_loop_code code : seq_code code ->
  exists spent, (spent <= length code)%nat /\ forall bs rest fuel i depth e,
    at_cursor bs i (code ++ rest) -> (1 <= depth)%nat ->
    scan_loop (spent + fuel) bs i depth e = scan_loop fuel bs (i + length code) depth e.
Proof.
  induction 1 as [|op imm code Himm _ IH|op bt body code Hop _ IHb _ IH|bt thn els code _ IHt _ IHe _ IH].
  - exists O. split; [done|]. intros. by rewrite Nat.add_0_r.
  - destruct IH as (n & Hn & E). exists (S n).
    cbn [length]. rewrite length_app. split; [lia|]. intros bs rest fuel i depth e Ha Hd.
    simpl in Ha. rewrite <- app_assoc in Ha.
    pose proof (at_skip1 _ _ _ _ Ha) as Ha1. pose proof (at_skip _ _ _ _ Ha1) as Ha2.
    cbn [Nat.add]. rewrite (scan_loop_S _ _ _ _ _ _ _ Ha).
    rewrite (skip_imm_at _ _ _ _ _ Ha1 Himm), (E _ _ _ _ _ _ Ha2) by lia.
    replace (i + 1 + length imm + length code)%nat with (i + S (length imm + length code))%nat by lia.
    unfold imm_ok in Himm. by destruct (scan_class op).
  - destruct IH as (n2 & Hn2 & E2), IHb as (n1 & Hn1 & E1).
    exists (S (n1 + S n2)). cbn [length]. rewrite length_app. cbn [length]. split; [lia|].
    intros bs rest fuel i depth e Ha Hd. simpl in Ha. rewrite <- app_assoc in Ha. simpl in Ha.
    pose proof (at_skip2 _ _ _ _ _ Ha) as Ha1. pose proof (at_skip _ _ _ _ Ha1) as Ha2.
    pose proof (at_skip1 _ _ _ _ Ha2) as Ha3.
    replace (S (n1 + S n2) + fuel)%nat with (S (n1 + S (n2 + fuel))) by lia.
    rewrite (scan_loop_S _ _ _ _ _ _ _ Ha). unfold is_block_op in Hop.
    destruct (scan_class op); try done.
    rewrite (E1 _ _ _ _ _ _ Ha1), (scan_loop_S _ _ _ _ _ _ _ Ha2) by lia.
    change (scan_class 11) with KEnd. cbn iota beta. rewrite (proj2 (Nat.eqb_neq _ _)) by lia.
    replace (S depth - 1)%nat with depth by lia. rewrite (E2 _ _ _ _ _ _ Ha3) by lia. f_equal. lia.
  - destruct IH as (n3 & Hn3 & E3), IHe as (n2 & Hn2 & E2), IHt as (n1 & Hn1 & E1).
    exists (S (n1 + S (n2 + S n3))). cbn [length]. rewrite !length_app. cbn [length].
    rewrite !length_app. cbn [length]. split; [lia|]. intros bs rest fuel i depth e Ha Hd.
    simpl in Ha. rewrite <- !app_assoc in Ha. simpl in Ha. rewrite <- !app_assoc in Ha. simpl in Ha.
    pose proof (at_skip2 _ _ _ _ _ Ha) as Ha1. pose proof (at_skip _ _ _ _ Ha1) as Ha2.
    pose proof (at_skip1 _ _ _ _ Ha2) as Ha3. pose proof (at_skip _ _ _ _ Ha3) as Ha4.
    pose proof (at_skip1 _ _ _ _ Ha4) as Ha5.
    replace (S (n1 + S (n2 + S n3)) + fuel)%nat with (S (n1 + S (n2 + S (n3 + fuel)))) by lia.
    rewrite (scan_loop_S _ _ _ _ _ _ _ Ha). change (scan_class 4) with KBlock. cbn iota beta.
    rewrite (E1 _ _ _ _ _ _ Ha1), (scan_loop_S _ _ _ _ _ _ _ Ha2) by lia.
    change (scan_class 5) with KElse. cbn iota beta. rewrite (proj2 (Nat.eqb_neq _ _)) by lia.
    rewrite (E2 _ _ _ _ _ _ Ha3), (scan_loop_S _ _ _ _ _ _ _ Ha4) by lia.
    change (scan_class 11) with KEnd. cbn iota beta. rewrite (proj2 (Nat.eqb_neq _ _)) by lia.
    replace (S depth - 1)%nat with depth by lia. rewrite (E3 _ _ _ _ _ _ Ha5) by lia. f_equal. lia.
Qed.

(** The scan finds the closing [end] of a structured block body. *)
Lemma scan_block_end_code pre body post :
  seq_code body ->
  scan_block_end (pre ++ body ++ 0x0B :: post) (length pre)
  = Some (length pre + length body, None)%nat.
Proof.
  intros Hb. destruct (scan_loop_code body Hb) as (n & Hn & E). unfold scan_block_end.
  set (bs := pre ++ body ++ 0x0B :: post).
  pose proof (at_app bs pre _ eq_refl) as Ha.
  pose proof (at_length _ _ _ Ha) as Hl. rewrite length_app in Hl. cbn [length] in Hl.
  replace (length bs) with (n + S (length bs - n - 1))%nat by lia.
  rewrite (E _ _ _ _ _ _ Ha) by lia. apply at_skip in Ha.
  by rewrite (scan_loop_S _ _ _ _ _ _ _ Ha).
Qed.

(** ... and the [else] of a two-armed [if]. *)
Lemma scan_block_end_if pre thn els post :
  seq_code thn -> seq_code els ->
  scan_block_end (pre ++ thn ++ 0x05 :: els ++ 0x0B :: post) (length pre)
  = Some (length pre + length thn + 1 + length els, Some (length pre + length thn))%nat.
Proof.
  intros Ht He. destruct (scan_loop_code thn Ht) as (n & Hn & E).
  destruct (scan_loop_code els He) as (m & Hm & E'). unfold scan_block_end.
  set (bs := pre ++ thn ++ 0x05 :: els ++ 0x0B :: post).
  pose proof (at_app bs pre _ eq_refl) as Ha.
  pose proof (at_length _ _ _ Ha) as Hl. rewrite length_app in Hl. cbn [length] in Hl.
  rewrite length_app in Hl. cbn [length] in Hl.
  replace (length bs) with (n + S (m + S (length bs - n - m - 2)))%nat by lia.
  rewrite (E _ _ _ _ _ _ Ha) by lia. apply at_skip in Ha.
  rewrite (scan_loop_S _ _ _ _ _ _ _ Ha). apply at_skip1 in Ha.
  change (scan_class 5) with KElse. cbn iota beta.
  rewrite (E' _ _ _ _ _ _ Ha) by lia. apply at_skip in Ha.
  by rewrite (scan_loop_S _ _ _ _ _ _ _ Ha).
Qed.
