(* ===== verification/Sections.v ===== *)
(** * Section parsers of the interpreter ([kernel/src/wasm/interp.rs])

    Arrays are filled in place: a parser threads the arrays it writes. *)

From S2P Require Import Prelude Leb128 Loader Opcode.

(** [read_u32_leb128(&bytes[cur..]).ok_or(MalformedCode)?] *)
Definition read_u32_at (bytes : list Z) (cur : nat) : result InterpError (Z * nat) :=
  let? rest := slice_from bytes cur in ok_or (read_u32_leb128 rest) MalformedCode.

Definition read_i32_at (bytes : list Z) (cur : nat) : result InterpError (Z * nat) :=
  let? rest := slice_from bytes cur in ok_or (read_i32_leb128 rest) MalformedCode.

Definition read_i64_at (bytes : list Z) (cur : nat) : result InterpError (Z * nat) :=
  let? rest := slice_from bytes cur in ok_or (read_i64_leb128 rest) MalformedCode.

(** [if cur >= bytes.len() { return Err(MalformedCode); } bytes[cur]] *)
Definition byte_at (bytes : list Z) (cur : nat) : result InterpError Z :=
  ok_or (bytes !! cur) MalformedCode.

(** The same, when the byte must be [b]. *)
Definition expect_byte (bytes : list Z) (cur : nat) (b : Z) : result InterpError unit :=
  match bytes !! cur with
  | Some x => if x =? b then Ok tt else Err MalformedCode
  | None => Err MalformedCode
  end.

Definition read_memarg (bytes : list Z) (cur : nat) : result InterpError (Z * nat) :=
  let? (_, n1) := read_u32_at bytes cur in
  let? (offset, n2) := read_u32_at bytes (cur + n1) in
  Ok (offset, n1 + n2)%nat.

(** ** Types *)

Fixpoint parse_type_loop (n i : nat) (bytes : list Z) (cur : nat) (params results : list Z)
    : result InterpError (list Z * list Z) :=
  match n with
  | O => Ok (params, results)
  | S n' =>
    if (length bytes <=? cur)%nat then Err MalformedCode else
    let cur := (cur + 1)%nat in
    let? (param_count, k) := read_u32_at bytes cur in
    let cur := (cur + k + Z.to_nat param_count)%nat in
    let? (result_count, k) := read_u32_at bytes cur in
    let cur := (cur + k + Z.to_nat result_count)%nat in
    parse_type_loop n' (S i) bytes cur (<[i := param_count]> params) (<[i := result_count]> results)
  end.

Definition parse_type_section (bytes : list Z) (params results : list Z)
    : result InterpError (nat * list Z * list Z) :=
  let? (count, n) := read_u32_at bytes 0 in
  if Z.of_nat MAX_TYPES <? count then Err TooManyTypes else
  let? (params, results) := parse_type_loop (Z.to_nat count) 0 bytes n params results in
  Ok (Z.to_nat count, params, results).

(** ** Functions *)

Fixpoint parse_function_loop (n i : nat) (bytes : list Z) (cur : nat) (out : list Z)
    : result InterpError (list Z) :=
  match n with
  | O => Ok out
  | S n' =>
    let? (type_idx, k) := read_u32_at bytes cur in
    parse_function_loop n' (S i) bytes (cur + k) (<[i := type_idx]> out)
  end.

Definition parse_function_section (bytes : list Z) (out : list Z) : result InterpError (list Z) :=
  let? (count, n) := read_u32_at bytes 0 in
  if Z.of_nat MAX_FUNCS <? count then Err TooManyFuncs else
  parse_function_loop (Z.to_nat count) 0 bytes n out.

(** ** Code *)

(** The local declarations of a body: the cursor after them and their total. *)
Fixpoint parse_locals (n : nat) (entry : list Z) (lc : nat) (total : Z)
    : result InterpError (nat * Z) :=
  match n with
  | O => Ok (lc, total)
  | S n' =>
    let? (group_count, k) := read_u32_at entry lc in
    parse_locals n' entry (lc + (k + 1)) (total + group_count)
  end.

Fixpoint parse_code_loop (n i : nat) (bytes : list Z) (cur : nat)
    (bodies : list (list Z)) (local_counts : list Z) : result InterpError (list (list Z) * list Z) :=
  match n with
  | O => Ok (bodies, local_counts)
  | S n' =>
    let? (body_size, k) := read_u32_at bytes cur in
    let cur := (cur + k)%nat in
    let entry_end := (cur + Z.to_nat body_size)%nat in
    if (length bytes <? entry_end)%nat then Err MalformedCode else
    let? entry := slice_range bytes cur entry_end in
    let? (local_groups, k) := read_u32_at entry 0 in
    let? (lc, total_declared) := parse_locals (Z.to_nat local_groups) entry k 0 in
    if (length entry <? lc)%nat then Err MalformedCode else
    let? body := slice_from entry lc in
    parse_code_loop n' (S i) bytes entry_end (<[i := body]> bodies)
      (<[i := total_declared]> local_counts)
  end.

Definition parse_code_section (bytes : list Z) (bodies : list (list Z)) (local_counts : list Z)
    : result InterpError (nat * list (list Z) * list Z) :=
  let? (count, n) := read_u32_at bytes 0 in
  if Z.of_nat MAX_FUNCS <? count then Err TooManyFuncs else
  let? (bodies, local_counts) := parse_code_loop (Z.to_nat count) 0 bytes n bodies local_counts in
  Ok (Z.to_nat count, bodies, local_counts).

(** ** Imports *)

Fixpoint parse_import_loop (n : nat) (bytes : list Z) (cur func_count : nat) (out : list Z)
    : result InterpError (nat * list Z) :=
  match n with
  | O => Ok (func_count, out)
  | S n' =>
    let? (mod_len, k) := read_u32_at bytes cur in
    let cur := (cur + (k + Z.to_nat mod_len))%nat in
    let? (name_len, k) := read_u32_at bytes cur in
    let cur := (cur + (k + Z.to_nat name_len))%nat in
    let? kind := byte_at bytes cur in
    let cur := (cur + 1)%nat in
    if kind =? 0 then
      let? (type_idx, k) := read_u32_at bytes cur in
      parse_import_loop n' bytes (cur + k) (S func_count)
        (if (func_count <? MAX_FUNCS)%nat then <[func_count := type_idx]> out else out)
    else if kind =? 1 then
      let? cur := skip_limits MalformedCode bytes (cur + 1) in parse_import_loop n' bytes cur func_count out
    else if kind =? 2 then
      let? cur := skip_limits MalformedCode bytes cur in parse_import_loop n' bytes cur func_count out
    else if kind =? 3 then parse_import_loop n' bytes (cur + 2) func_count out
    else Err MalformedCode
  end.

Definition parse_import_func_types (bytes : list Z) (out : list Z)
    : result InterpError (nat * list Z) :=
  let? (count, n) := read_u32_at bytes 0 in
  parse_import_loop (Z.to_nat count) bytes n 0 out.

(** ** Elements *)

(** [for j in 0..elem_count]: the table entries from [base], those past
    [MAX_TABLE] dropped. *)
Fixpoint parse_elems (n : nat) (j : Z) (base : Z) (bytes : list Z) (cur : nat)
    (table : list Z) (table_size : nat) : result InterpError (nat * list Z * nat) :=
  match n with
  | O => Ok (cur, table, table_size)
  | S n' =>
    let? (func_idx, k) := read_u32_at bytes cur in
    let cur := (cur + k)%nat in
    let ti := base + j in
    if USIZE_MAX <? ti then Panic else
    if ti <? Z.of_nat MAX_TABLE then
      parse_elems n' (j + 1) base bytes cur (<[Z.to_nat ti := func_idx]> table)
        (Nat.max table_size (S (Z.to_nat ti)))
    else parse_elems n' (j + 1) base bytes cur table table_size
  end.

Fixpoint parse_element_loop (n : nat) (bytes : list Z) (cur : nat) (table : list Z)
    (table_size : nat) : result InterpError (list Z * nat) :=
  match n with
  | O => Ok (table, table_size)
  | S n' =>
    let? (kind, k) := read_u32_at bytes cur in
    let cur := (cur + k)%nat in
    if kind =? 0 then
      let? _ := expect_byte bytes cur 0x41 in
      let cur := (cur + 1)%nat in
      let? (offset, k) := read_i32_at bytes cur in
      let cur := (cur + k)%nat in
      let? _ := expect_byte bytes cur 0x0B in
      let cur := (cur + 1)%nat in
      let? (elem_count, k) := read_u32_at bytes cur in
      let cur := (cur + k)%nat in
      let base := as_usize offset in
      let? (cur, table, table_size) :=
        parse_elems (Z.to_nat elem_count) 0 base bytes cur table table_size in
      parse_element_loop n' bytes cur table table_size
    else Ok (table, table_size)
  end.

Definition parse_element_section (bytes : list Z) (table : list Z) (table_size : nat)
    : result InterpError (list Z * nat) :=
  let? (seg_count, n) := read_u32_at bytes 0 in
  parse_element_loop (Z.to_nat seg_count) bytes n table table_size.

(** ** Globals *)

Fixpoint parse_global_loop (n i : nat) (bytes : list Z) (cur : nat) (vals : list Z)
    (mutability : list bool) : result InterpError (list Z * list bool) :=
  match n with
  | O => Ok (vals, mutability)
  | S n' =>
    if (length bytes <? cur + 2)%nat then Err MalformedCode else
    let cur := (cur + 1)%nat in
    let? m := or_panic (bytes !! cur) in
    let mutability := <[i := m =? 0x01]> mutability in
    let cur := (cur + 1)%nat in
    let? init_op := byte_at bytes cur in
    let cur := (cur + 1)%nat in
    let? (val, cur) :=
      if init_op =? 0x41 then
        let? (v, k) := read_i32_at bytes cur in Ok (v, cur + k)%nat
      else if init_op =? 0x42 then
        let? (v, k) := read_i64_at bytes cur in Ok (v, cur + k)%nat
      else Err MalformedCode in
    let? _ := expect_byte bytes cur 0x0B in
    parse_global_loop n' (S i) bytes (cur + 1) (<[i := val]> vals) mutability
  end.

Definition parse_global_section (bytes : list Z) (vals : list Z) (mutability : list bool)
    : result InterpError (nat * list Z * list bool) :=
  let? (count, n) := read_u32_at bytes 0 in
  if Z.of_nat MAX_GLOBALS <? count then Err TooManyGlobals else
  let? (vals, mutability) := parse_global_loop (Z.to_nat count) 0 bytes n vals mutability in
  Ok (Z.to_nat count, vals, mutability).

(** ** Reference encoders and round trips *)

Definition encode_type (t : list Z * list Z) : list Z :=
  0x60 :: encode_vec (fun v => [v]) t.1 ++ encode_vec (fun v => [v]) t.2.

Definition encode_body (b : list (Z * Z) * list Z) : list Z :=
  let entry := encode_vec (fun g => encode_u32 g.1 ++ [g.2]) b.1 ++ b.2 in
  encode_u32 (Z.of_nat (length entry)) ++ entry.

Inductive init_expr := I32Const (v : Z) | I64Const (v : Z).

Definition encode_init (e : init_expr) : list Z :=
  match e with
  | I32Const v => 0x41 :: encode_i32 v
  | I64Const v => 0x42 :: encode_i64 v
  end.
Definition init_val (e : init_expr) : Z := match e with I32Const v | I64Const v => v end.
Definition init_ok (e : init_expr) : Prop :=
  match e with I32Const v => is_i32 v | I64Const v => is_i64 v end.

Record global := mkGlobal { g_valtype : Z; g_mut : bool; g_init : init_expr }.

Definition encode_global (g : global) : list Z :=
  g_valtype g :: (if g_mut g then 1 else 0) :: encode_init (g_init g) ++ [0x0B].

Record segment := mkSegment { s_offset : Z; s_funcs : list Z }.

Definition encode_segment (s : segment) : list Z :=
  encode_u32 0 ++ 0x41 :: encode_i32 (s_offset s) ++ 0x0B :: encode_vec encode_u32 (s_funcs s).

Definition short {A} (l : list A) : Prop := Z.of_nat (length l) < 4294967296.

Lemma short_u32 {A} (l : list A) : short l -> is_u32 (Z.of_nat (length l)).
Proof. unfold short, is_u32. lia. Qed.

(** An array whose first entries are replaced by [l]. *)
Definition filled_with {A} (l arr : list A) : list A := l ++ drop (length l) arr.

Lemma fill_step {A} (pre arr : list A) i v :
  i = length pre -> (0 < length arr)%nat ->
  <[i := v]> (pre ++ arr) = (pre ++ [v]) ++ drop 1 arr.
Proof.
  intros -> Ha. destruct arr as [|x arr]; [simpl in Ha; lia|].
  rewrite insert_app_r_alt, Nat.sub_diag by lia. simpl. by rewrite <- app_assoc.
Qed.

Lemma fill_lens {A} (pre : list A) v i : i = length pre -> S i = length (pre ++ [v]).
Proof. intros ->. rewrite length_app. simpl. lia. Qed.

Lemma read_u32_step bs cur v r :
  at_cursor bs cur (encode_u32 v ++ r) -> is_u32 v ->
  read_u32_at bs cur = Ok (v, length (encode_u32 v)) /\
  at_cursor bs (cur + length (encode_u32 v)) r.
Proof.
  intros H Hv. unfold read_u32_at. rewrite (at_slice_from _ _ _ H). cbn [rbind].
  rewrite (read_u32_encode _ _ Hv). split; [done|by apply at_skip].
Qed.

(** One [let? (v, n) := read_u32_at ..] on encoded input. *)
Ltac step_u32 H Hv :=
  let E := fresh in
  destruct (read_u32_step _ _ _ _ H Hv) as [E ?H']; rewrite E; cbn [rbind];
  clear E; clear H; rename H' into H.

Lemma concat_single (l : list Z) : concat (map (fun v => [v]) l) = l.
Proof. induction l as [|x l IH]; simpl; congruence. Qed.

Lemma parse_type_loop_encode ts bs cur i pp pr ap ar r :
  at_cursor bs cur (concat (map encode_type ts) ++ r) ->
  Forall (fun t => short t.1 /\ short t.2) ts ->
  i = length pp -> i = length pr -> (length ts <= length ap)%nat -> (length ts <= length ar)%nat ->
  parse_type_loop (length ts) i bs cur (pp ++ ap) (pr ++ ar) =
  Ok (pp ++ filled_with (map (fun t => Z.of_nat (length t.1)) ts) ap,
      pr ++ filled_with (map (fun t => Z.of_nat (length t.2)) ts) ar).
Proof.
  revert cur i pp pr ap ar; induction ts as [|[ps rs] ts IH]; intros cur i pp pr ap ar H Hok Hp Hr Hap Har;
    cbn [parse_type_loop length map]; [done|].
  apply Forall_cons_iff in Hok as [[Hs1 Hs2] Hok]. cbn [fst snd] in *. simpl in Hap, Har.
  cbn [map concat] in H. unfold encode_type at 1, encode_vec in H. cbn [fst snd] in H.
  rewrite !concat_single in H.
  rewrite <- !app_comm_cons, <- !app_assoc in H.
  pose proof (at_length _ _ _ H) as Hl. cbn [length] in Hl.
  rewrite (proj2 (Nat.leb_gt _ _)) by lia. apply at_skip1 in H.
  step_u32 H (len_u32 _ Hs1). rewrite Nat2Z.id. apply at_skip in H.
  step_u32 H (len_u32 _ Hs2). rewrite Nat2Z.id. apply at_skip in H.
  rewrite (fill_step pp), (fill_step pr) by (done || lia).
  rewrite (IH _ _ _ _ _ _ H) by (done || (by apply fill_lens) || (rewrite length_drop; lia)).
  unfold filled_with. rewrite !drop_drop. cbn [length]. by rewrite <- !app_assoc.
Qed.

(** The whole type section: the counts of every signature, in order. *)
Lemma parse_type_section_encode ts params results :
  (length ts <= MAX_TYPES)%nat -> (MAX_TYPES <= length params)%nat -> (MAX_TYPES <= length results)%nat ->
  Forall (fun t => short t.1 /\ short t.2) ts ->
  parse_type_section (encode_vec encode_type ts) params results =
  Ok (length ts, filled_with (map (fun t => Z.of_nat (length t.1)) ts) params,
                 filled_with (map (fun t => Z.of_nat (length t.2)) ts) results).
Proof.
  intros Hts Hp Hr Hok. unfold parse_type_section.
  pose proof (at_start (encode_vec encode_type ts)) as H. unfold encode_vec at 2 in H.
  assert (is_u32 (Z.of_nat (length ts))) as Hc by (unfold is_u32, MAX_TYPES in *; lia).
  step_u32 H Hc. rewrite (proj2 (Z.ltb_ge _ _)) by lia. rewrite Nat2Z.id.
  rewrite <- (app_nil_r (concat _)) in H.
  change params with ([] ++ params) at 1. change results with ([] ++ results) at 1.
  rewrite (parse_type_loop_encode _ _ _ 0 [] [] _ _ _ H) by (done || lia). done.
Qed.

Lemma parse_function_loop_encode fs bs cur i pre arr r :
  at_cursor bs cur (concat (map encode_u32 fs) ++ r) -> Forall is_u32 fs ->
  i = length pre -> (length fs <= length arr)%nat ->
  parse_function_loop (length fs) i bs cur (pre ++ arr) = Ok (pre ++ filled_with fs arr).
Proof.
  revert cur i pre arr; induction fs as [|f fs IH]; intros cur i pre arr H Hok Hp Ha;
    cbn [parse_function_loop length map]; [done|].
  apply Forall_cons_iff in Hok as [Hf Hok]. simpl in Ha.
  cbn [map concat] in H. rewrite <- app_assoc in H. step_u32 H Hf.
  rewrite fill_step by (done || lia).
  rewrite (IH _ _ _ _ H) by (done || (by apply fill_lens) || (rewrite length_drop; lia)).
  unfold filled_with. rewrite drop_drop. cbn [length]. by rewrite <- app_assoc.
Qed.

Lemma parse_function_section_encode fs out :
  (length fs <= MAX_FUNCS)%nat -> (MAX_FUNCS <= length out)%nat -> Forall is_u32 fs ->
  parse_function_section (encode_vec encode_u32 fs) out = Ok (filled_with fs out).
Proof.
  intros Hfs Ho Hok. unfold parse_function_section.
  pose proof (at_start (encode_vec encode_u32 fs)) as H. unfold encode_vec at 2 in H.
  assert (is_u32 (Z.of_nat (length fs))) as Hc by (unfold is_u32, MAX_FUNCS in *; lia).
  step_u32 H Hc. rewrite (proj2 (Z.ltb_ge _ _)) by lia. rewrite Nat2Z.id.
  rewrite <- (app_nil_r (concat _)) in H.
  change out with ([] ++ out) at 1.
  by rewrite (parse_function_loop_encode _ _ _ 0 [] _ _ H) by (done || lia).
Qed.

Lemma parse_locals_encode gs entry lc total r :
  at_cursor entry lc (concat (map (fun g => encode_u32 g.1 ++ [g.2]) gs) ++ r) ->
  Forall (fun g => is_u32 g.1) gs ->
  exists lc', parse_locals (length gs) entry lc total
                = Ok (lc', total + fold_right Z.add 0 (map fst gs)) /\ at_cursor entry lc' r.
Proof.
  revert lc total; induction gs as [|g gs IH]; intros lc total H Hok; cbn [parse_locals length map].
  - exists lc. simpl. rewrite Z.add_0_r. done.
  - apply Forall_cons_iff in Hok as [Hg Hok]. cbn [map concat] in H.
    rewrite <- !app_assoc in H. step_u32 H Hg. apply at_skip1 in H.
    rewrite <- Nat.add_assoc in H. destruct (IH _ (total + g.1) H Hok) as (lc' & E & H').
    exists lc'. rewrite E. simpl. split; [|done]. do 2 f_equal. lia.
Qed.

Definition body_ok (b : list (Z * Z) * list Z) : Prop :=
  Forall (fun g => is_u32 g.1) b.1 /\ short b.1 /\
  Z.of_nat (length (encode_vec (fun g => encode_u32 g.1 ++ [g.2]) b.1 ++ b.2)) < 4294967296.

Definition local_total (b : list (Z * Z) * list Z) : Z := fold_right Z.add 0 (map fst b.1).

Lemma parse_code_loop_encode bds bs cur i pb pl ab al r :
  at_cursor bs cur (concat (map encode_body bds) ++ r) -> Forall body_ok bds ->
  i = length pb -> i = length pl -> (length bds <= length ab)%nat -> (length bds <= length al)%nat ->
  parse_code_loop (length bds) i bs cur (pb ++ ab) (pl ++ al) =
  Ok (pb ++ filled_with (map snd bds) ab, pl ++ filled_with (map local_total bds) al).
Proof.
  revert cur i pb pl ab al; induction bds as [|[gs code] bds IH];
    intros cur i pb pl ab al H Hok Hp Hr Hab Hal; cbn [parse_code_loop length map]; [done|].
  apply Forall_cons_iff in Hok as [(Hg & Hs & He) Hok]. cbn [fst snd] in *. simpl in Hab, Hal.
  cbn [map concat] in H. unfold encode_body at 1 in H. cbn [fst snd] in H.
  set (entry := encode_vec _ gs ++ code) in *. rewrite <- !app_assoc in H.
  step_u32 H (len_u32 _ He). rewrite Nat2Z.id.
  pose proof (at_length _ _ _ H) as Hl. rewrite length_app in Hl.
  rewrite (proj2 (Nat.ltb_ge _ _)) by lia.
  rewrite (at_slice_range _ _ _ _ _ H eq_refl). cbn [rbind].
  assert (at_cursor entry 0 (encode_u32 (Z.of_nat (length gs)) ++
    concat (map (fun g => encode_u32 g.1 ++ [g.2]) gs) ++ code)) as Hen.
  { pose proof (at_start entry) as Hst. unfold entry at 2, encode_vec in Hst.
    by rewrite <- app_assoc in Hst. }
  step_u32 Hen (short_u32 _ Hs). rewrite Nat2Z.id. rewrite Nat.add_0_l in Hen.
  destruct (parse_locals_encode _ _ _ 0 _ Hen Hg) as (lc' & -> & Hlc). cbn [rbind].
  pose proof (at_length _ _ _ Hlc). rewrite (proj2 (Nat.ltb_ge _ _)) by lia.
  rewrite (at_slice_from _ _ _ Hlc). cbn [rbind]. apply at_skip in H.
  rewrite (fill_step pb), (fill_step pl) by (done || lia).
  rewrite (IH _ _ _ _ _ _ H) by (done || (by apply fill_lens) || (rewrite length_drop; lia)).
  unfold filled_with. rewrite !drop_drop. cbn [length]. by rewrite <- !app_assoc.
Qed.

(** The bodies are cut out after their local declarations, which are summed. *)
Lemma parse_code_section_encode bds bodies counts :
  (length bds <= MAX_FUNCS)%nat -> (MAX_FUNCS <= length bodies)%nat -> (MAX_FUNCS <= length counts)%nat ->
  Forall body_ok bds ->
  parse_code_section (encode_vec encode_body bds) bodies counts =
  Ok (length bds, filled_with (map snd bds) bodies, filled_with (map local_total bds) counts).
Proof.
  intros Hb Hp Hr Hok. unfold parse_code_section.
  pose proof (at_start (encode_vec encode_body bds)) as H. unfold encode_vec at 2 in H.
  assert (is_u32 (Z.of_nat (length bds))) as Hc by (unfold is_u32, MAX_FUNCS in *; lia).
  step_u32 H Hc. rewrite (proj2 (Z.ltb_ge _ _)) by lia. rewrite Nat2Z.id.
  rewrite <- (app_nil_r (concat _)) in H.
  change bodies with ([] ++ bodies) at 1. change counts with ([] ++ counts) at 1.
  by rewrite (parse_code_loop_encode _ _ _ 0 [] [] _ _ _ H) by (done || lia).
Qed.

(** ** Imports, elements and globals *)

Definition func_type_of (i : import) : list Z :=
  match im_desc i with IFunc ty => [ty] | _ => [] end.
Definition func_types (ims : list import) : list Z := concat (map func_type_of ims).

Lemma func_types_length ims : length (func_types ims) = length (List.filter is_func_import ims).
Proof.
  unfold func_types. induction ims as [|[m n [t| | |]] ims IH]; simpl; auto.
Qed.

(** One length-prefixed name that is skipped. *)
Ltac skip_name H Hlen :=
  unfold encode_name at 1 in H; rewrite <- app_assoc in H;
  step_u32 H (len_u32 _ Hlen); rewrite Nat2Z.id; apply at_skip in H;
  rewrite <- Nat.add_assoc in H.

Lemma parse_import_loop_encode ims bs cur pre arr r :
  at_cursor bs cur (concat (map encode_import ims) ++ r) -> Forall import_ok ims ->
  (length pre + length (func_types ims) <= MAX_FUNCS)%nat ->
  (length (func_types ims) <= length arr)%nat ->
  parse_import_loop (length ims) bs cur (length pre) (pre ++ arr) =
  Ok (length pre + length (func_types ims), pre ++ filled_with (func_types ims) arr)%nat.
Proof.
  revert cur pre arr; induction ims as [|[mo nm d] ims IH]; intros cur pre arr H Hok Hm Ha.
  { cbn. by rewrite Nat.add_0_r, drop_0. }
  apply Forall_cons_iff in Hok as [(Hml & _ & Hnl & _ & Hd) Hok].
  cbn [im_mod im_name im_desc] in *. cbn [map concat length] in *.
  unfold encode_import at 1 in H. cbn [im_mod im_name im_desc] in H. rewrite <- !app_assoc in H.
  cbn [parse_import_loop]. skip_name H Hml. skip_name H Hnl.
  unfold byte_at. unfold func_types in *. cbn [map concat] in *.
  destruct d as [t|rt mi ma|mi ma|v mu]; cbn [encode_desc app func_type_of im_desc length] in *;
    rewrite (at_lookup _ _ _ _ H); cbn [ok_or rbind]; apply at_skip1 in H; cbn [Z.eqb Pos.eqb].
  - step_u32 H Hd. rewrite (proj2 (Nat.ltb_lt _ _)) by lia.
    rewrite fill_step by (done || lia). rewrite (fill_lens pre t _ eq_refl).
    rewrite (IH _ _ _ H) by (done || (rewrite ?length_app, ?length_drop; simpl; lia)).
    unfold filled_with. rewrite drop_drop, length_app, <- !app_assoc. cbn [length app]. do 2 f_equal. lia.
  - apply at_skip1 in H. rewrite (skip_limits_at _ _ _ _ _ _ H Hd). cbn [rbind].
    apply at_skip in H. by apply IH.
  - rewrite (skip_limits_at _ _ _ _ _ _ H Hd). cbn [rbind]. apply at_skip in H. by apply IH.
  - apply IH; try done. apply (at_skip _ _ [v; mu] _ H).
Qed.

(** The interpreter's own reading of the import section: the type index of
    every function import, in order. *)
Lemma parse_import_func_types_encode ims out :
  short ims -> (length (func_types ims) <= MAX_FUNCS)%nat -> (MAX_FUNCS <= length out)%nat ->
  Forall import_ok ims ->
  parse_import_func_types (encode_vec encode_import ims) out =
  Ok (length (func_types ims), filled_with (func_types ims) out).
Proof.
  intros Hs Hf Ho Hok. unfold parse_import_func_types.
  pose proof (at_start (encode_vec encode_import ims)) as H. unfold encode_vec at 2 in H.
  step_u32 H (short_u32 _ Hs). rewrite Nat2Z.id.
  rewrite <- (app_nil_r (concat _)) in H.
  rewrite Nat.add_0_l in H.
  pose proof (parse_import_loop_encode ims _ _ [] out _ H Hok) as E. simpl in E.
  apply E; lia.
Qed.

(** An active segment that fits the table overwrites its range. *)
Lemma parse_elems_encode fs bs cur j base table size r :
  at_cursor bs cur (concat (map encode_u32 fs) ++ r) -> Forall is_u32 fs ->
  0 <= base -> 0 <= j -> base + j + Z.of_nat (length fs) <= Z.of_nat MAX_TABLE ->
  (Z.to_nat (base + j) + length fs <= length table)%nat ->
  exists cur', at_cursor bs cur' r /\
  parse_elems (length fs) j base bs cur table size =
  Ok (cur', take (Z.to_nat (base + j)) table ++ fs ++ drop (Z.to_nat (base + j) + length fs) table,
      if (length fs =? 0)%nat then size else Nat.max size (Z.to_nat (base + j) + length fs)).
Proof.
  revert cur j table size; induction fs as [|f fs IH]; intros cur j table size H Hok Hb Hj Hm Hl;
    cbn [parse_elems length map] in *.
  - exists cur. split; [done|]. simpl. by rewrite Nat.add_0_r, take_drop.
  - apply Forall_cons_iff in Hok as [Hf Hok]. cbn [concat] in H. rewrite <- app_assoc in H.
    step_u32 H Hf. unfold MAX_TABLE, USIZE_MAX in *.
    rewrite (proj2 (Z.ltb_ge _ _)), (proj2 (Z.ltb_lt _ _)) by lia.
    destruct (IH _ (j + 1) (<[Z.to_nat (base + j):=f]> table)
      (Nat.max size (S (Z.to_nat (base + j)))) H Hok) as (cur' & H' & E);
      [lia..|rewrite length_insert; lia|].
    exists cur'. split; [done|]. rewrite E. clear E.
    replace (Z.to_nat (base + (j + 1))) with (S (Z.to_nat (base + j))) by lia.
    set (k := Z.to_nat (base + j)) in *.
    assert (take (S k) (<[k:=f]> table) = take k table ++ [f]) as ->.
    { rewrite (take_S_r _ _ f) by (apply list_lookup_insert_eq; lia).
      f_equal. apply take_insert_ge. lia. }
    rewrite drop_insert_lt by lia. rewrite <- app_assoc. cbn [app].
    replace (S k + length fs)%nat with (k + S (length fs))%nat by lia.
    do 2 f_equal. cbn [Nat.eqb]. destruct (length fs =? 0)%nat eqn:E0; zbool; lia.
Qed.

Lemma read_i32_step bs cur v r :
  at_cursor bs cur (encode_i32 v ++ r) -> is_i32 v ->
  read_i32_at bs cur = Ok (v, length (encode_i32 v)) /\ at_cursor bs (cur + length (encode_i32 v)) r.
Proof.
  intros H Hv. unfold read_i32_at. rewrite (at_slice_from _ _ _ H). cbn [rbind].
  rewrite (read_i32_encode _ _ Hv). split; [done|by apply at_skip].
Qed.

Lemma read_i64_step bs cur v r :
  at_cursor bs cur (encode_i64 v ++ r) -> is_i64 v ->
  read_i64_at bs cur = Ok (v, length (encode_i64 v)) /\ at_cursor bs (cur + length (encode_i64 v)) r.
Proof.
  intros H Hv. unfold read_i64_at. rewrite (at_slice_from _ _ _ H). cbn [rbind].
  rewrite (read_i64_encode _ _ Hv). split; [done|by apply at_skip].
Qed.

Lemma expect_byte_at bs cur b r :
  at_cursor bs cur (b :: r) -> expect_byte bs cur b = Ok tt.
Proof. intros H. unfold expect_byte. by rewrite (at_lookup _ _ _ _ H), Z.eqb_refl. Qed.

Lemma parse_global_loop_encode gs bs cur i pv pm av am r :
  at_cursor bs cur (concat (map encode_global gs) ++ r) -> Forall (fun g => init_ok (g_init g)) gs ->
  i = length pv -> i = length pm -> (length gs <= length av)%nat -> (length gs <= length am)%nat ->
  parse_global_loop (length gs) i bs cur (pv ++ av) (pm ++ am) =
  Ok (pv ++ filled_with (map (fun g => init_val (g_init g)) gs) av,
      pm ++ filled_with (map g_mut gs) am).
Proof.
  revert cur i pv pm av am; induction gs as [|[vt mu ini] gs IH];
    intros cur i pv pm av am H Hok Hp Hm Hav Ham; cbn [parse_global_loop length map]; [done|].
  apply Forall_cons_iff in Hok as [Hi Hok]. cbn [g_init g_mut] in *. simpl in Hav, Ham.
  cbn [map concat] in H. unfold encode_global at 1 in H. cbn [g_valtype g_mut g_init] in H.
  rewrite <- !app_comm_cons, <- !app_assoc in H.
  pose proof (at_length _ _ _ H) as Hl. cbn [length] in Hl.
  rewrite (proj2 (Nat.ltb_ge _ _)) by lia.
  apply at_skip1 in H. rewrite (at_lookup _ _ _ _ H). cbn [or_panic rbind].
  apply at_skip1 in H.
  replace ((if mu then 1 else 0) =? 1) with mu by by destruct mu.
  rewrite (fill_step pm) by (done || lia). unfold byte_at.
  destruct ini as [v|v]; cbn [encode_init init_ok init_val app] in *;
    rewrite (at_lookup _ _ _ _ H); cbn [ok_or rbind Z.eqb Pos.eqb]; apply at_skip1 in H.
  - destruct (read_i32_step _ _ _ _ H Hi) as [-> H']. cbn [rbind]. cbn [app] in H'.
    rewrite (expect_byte_at _ _ _ _ H'). cbn [rbind]. apply at_skip1 in H'.
    rewrite (fill_step pv) by (done || lia).
    rewrite (IH _ _ _ _ _ _ H') by (done || (by apply fill_lens) || (rewrite length_drop; lia)).
    unfold filled_with. rewrite !drop_drop. cbn [length]. by rewrite <- !app_assoc.
  - destruct (read_i64_step _ _ _ _ H Hi) as [-> H']. cbn [rbind]. cbn [app] in H'.
    rewrite (expect_byte_at _ _ _ _ H'). cbn [rbind]. apply at_skip1 in H'.
    rewrite (fill_step pv) by (done || lia).
    rewrite (IH _ _ _ _ _ _ H') by (done || (by apply fill_lens) || (rewrite length_drop; lia)).
    unfold filled_with. rewrite !drop_drop. cbn [length]. by rewrite <- !app_assoc.
Qed.

Lemma parse_global_section_encode gs vals muts :
  (length gs <= MAX_GLOBALS)%nat -> (MAX_GLOBALS <= length vals)%nat -> (MAX_GLOBALS <= length muts)%nat ->
  Forall (fun g => init_ok (g_init g)) gs ->
  parse_global_section (encode_vec encode_global gs) vals muts =
  Ok (length gs, filled_with (map (fun g => init_val (g_init g)) gs) vals,
                 filled_with (map g_mut gs) muts).
Proof.
  intros Hg Hv Hm Hok. unfold parse_global_section.
  pose proof (at_start (encode_vec encode_global gs)) as H. unfold encode_vec at 2 in H.
  assert (is_u32 (Z.of_nat (length gs))) as Hc by (unfold is_u32, MAX_GLOBALS in *; lia).
  step_u32 H Hc. rewrite (proj2 (Z.ltb_ge _ _)) by lia. rewrite Nat2Z.id.
  rewrite <- (app_nil_r (concat _)) in H.
  change vals with ([] ++ vals) at 1. change muts with ([] ++ muts) at 1.
  by rewrite (parse_global_loop_encode _ _ _ 0 [] [] _ _ _ H) by (done || lia).
Qed.

Lemma parse_element_loop_encode seg bs cur table size :
  at_cursor bs cur (encode_segment seg) -> Forall is_u32 (s_funcs seg) -> short (s_funcs seg) ->
  is_i32 (s_offset seg) -> 0 <= s_offset seg ->
  s_offset seg + Z.of_nat (length (s_funcs seg)) <= Z.of_nat MAX_TABLE -> length table = MAX_TABLE ->
  parse_element_loop 1 bs cur table size =
  let k := Z.to_nat (s_offset seg) in let n := length (s_funcs seg) in
  Ok (take k table ++ s_funcs seg ++ drop (k + n) table,
      if (n =? 0)%nat then size else Nat.max size (k + n)).
Proof.
  intros H Hf Hs Hi H0 Hm Ht. cbn [parse_element_loop]. unfold encode_segment in H.
  step_u32 H (conj (Z.le_refl 0) eq_refl : is_u32 0). cbn [Z.eqb].
  rewrite (expect_byte_at _ _ _ _ H). cbn [rbind]. apply at_skip1 in H.
  destruct (read_i32_step _ _ _ _ H Hi) as [-> Hx]. cbn [rbind].
  rewrite (expect_byte_at _ _ _ _ Hx). cbn [rbind]. apply at_skip1 in Hx.
  unfold encode_vec in Hx. step_u32 Hx (short_u32 _ Hs). rewrite Nat2Z.id.
  rewrite <- (app_nil_r (concat _)) in Hx.
  assert (as_usize (s_offset seg) = s_offset seg) as -> by (unfold_width; zlia).
  destruct (parse_elems_encode _ _ _ 0 (s_offset seg) table size _ Hx Hf) as (cur' & _ & E); [lia..|].
  rewrite E, Z.add_0_r. done.
Qed.
