(* ===== verification/Packets.v ===== *)
(** * Wire formats ([kernel/src/drivers/netstack/{ethernet,arp,ip,udp,tcp}.rs])

    One module per protocol layer: the packet as a record, its parser, its
    builder and the Internet checksum. A parser answers [Err tt] for the
    source's [None]; every index and slice of the source is written out, so
    that an access the guards do not cover is a [Panic]. *)

From S2P Require Import Prelude.

(** ** Byte access *)

(** [bytes[i]] *)
Definition byte (bs : list Z) (i : nat) : result unit Z := or_panic (bs !! i).

(** [u16::from_be_bytes([bytes[i], bytes[i + 1]])] *)
Definition u16_at (bs : list Z) (i : nat) : result unit Z :=
  let? a := byte bs i in let? b := byte bs (i + 1) in Ok (be_bytes [a; b]).

(** [u32::from_be_bytes([bytes[i], .., bytes[i + 3]])] *)
Definition u32_at (bs : list Z) (i : nat) : result unit Z :=
  let? a := byte bs i in let? b := byte bs (i + 1) in
  let? c := byte bs (i + 2) in let? d := byte bs (i + 3) in Ok (be_bytes [a; b; c; d]).

(** [buf[off..off + bs.len()].copy_from_slice(bs)] *)
Definition write_at (buf : list Z) (off : nat) (bs : list Z) : result unit (list Z) :=
  if (off + length bs <=? length buf)%nat
  then Ok (take off buf ++ bs ++ drop (off + length bs) buf) else Panic.

Definition is_u16 (x : Z) : Prop := 0 <= x < 65536.

(** Addresses: [[u8; 6]] and [IpAddr([u8; 4])]. *)
Definition mac_ok (m : list Z) : Prop := length m = 6%nat /\ Forall is_u8 m.
Definition ip_ok (a : list Z) : Prop := length a = 4%nat /\ Forall is_u8 a.

(** ** Ethernet *)

Module Eth.

Definition ETH_TYPE_IPV4 : Z := 0x0800.
Definition ETH_TYPE_ARP : Z := 0x0806.

Record EthFrame := mkEth { dst : list Z; src : list Z; ethertype : Z; payload : list Z }.

Definition parse_eth (bytes : list Z) : result unit EthFrame :=
  if (length bytes <? 14)%nat then Err tt else
  let? dst := slice_range bytes 0 6 in
  let? src := slice_range bytes 6 12 in
  let? ethertype := u16_at bytes 12 in
  let? payload := slice_from bytes 14 in
  Ok (mkEth dst src ethertype payload).

(** Fills [buf] and answers it with the frame's length. *)
Definition compose (buf dst src : list Z) (ethertype : Z) (payload : list Z)
    : result unit (list Z * nat) :=
  let? buf := write_at buf 0 dst in
  let? buf := write_at buf 6 src in
  let? buf := write_at buf 12 (to_be_bytes 2 ethertype) in
  let n := (14 + length payload)%nat in
  let? buf := write_at buf 14 payload in
  Ok (buf, n).

Definition is_for_me (mac : list Z) (e : EthFrame) : bool := bytes_eqb (dst e) mac.
Definition BROADCAST : list Z := replicate 6 255.
Definition is_broadcast (e : EthFrame) : bool := bytes_eqb (dst e) BROADCAST.
End Eth.

(** ** ARP *)

Module Arp.

Definition ARP_OP_REQUEST : Z := 1.
Definition ARP_OP_REPLY : Z := 2.

Record ArpPacket := mkArp {
  operation : Z; sender_ip : list Z; target_ip : list Z; sender_mac : list Z; target_mac : list Z }.

Definition parse_arp (bytes : list Z) : result unit ArpPacket :=
  if (length bytes <? 28)%nat then Err tt else
  let? htype := u16_at bytes 0 in
  let? ptype := u16_at bytes 2 in
  if negb (htype =? 1) || negb (ptype =? 0x0800) then Err tt else
  let? operation := u16_at bytes 6 in
  let? sender_mac := slice_range bytes 8 14 in
  let? target_mac := slice_range bytes 18 24 in
  let? sender_ip := slice_range bytes 14 18 in
  let? target_ip := slice_range bytes 24 28 in
  Ok (mkArp operation sender_ip target_ip sender_mac target_mac).

Definition new_reply (sender_ip target_ip sender_mac target_mac : list Z) : ArpPacket :=
  mkArp ARP_OP_REPLY sender_ip target_ip sender_mac target_mac.

(** The fields in the order of their offsets. *)
Definition arp_to_bytes (p : ArpPacket) : list Z :=
  to_be_bytes 2 1 ++ to_be_bytes 2 0x0800 ++ [6; 4] ++ to_be_bytes 2 (operation p) ++
  sender_mac p ++ sender_ip p ++ target_mac p ++ target_ip p.
End Arp.

(** ** Internet checksum and IPv4 *)

Module Ip.

Definition IP_PROTO_ICMP : Z := 1.
Definition IP_PROTO_TCP : Z := 6.
Definition IP_PROTO_UDP : Z := 17.

Definition ZERO_IP : list Z := [0; 0; 0; 0].
Definition from_u32 (v : Z) : list Z := to_le_bytes 4 v.
Definition to_u32 (a : list Z) : Z := le_bytes a.
Definition is_zero (a : list Z) : bool := bytes_eqb a ZERO_IP.

(** [sum += w] on a [u32]. *)
Definition add_word (sum w : Z) : result unit Z :=
  if sum + w <? 4294967296 then Ok (sum + w) else Panic.

(** [for chunk in data.chunks(2)] *)
Fixpoint sum_words (sum : Z) (data : list Z) : result unit Z :=
  match data with
  | [] => Ok sum
  | [a] => add_word sum (Z.shiftl a 8)
  | a :: b :: rest => let? sum := add_word sum (Z.lor (Z.shiftl a 8) b) in sum_words sum rest
  end.

(** [while sum > 0xFFFF { sum = (sum & 0xFFFF) + (sum >> 16); }] *)
Fixpoint fold_carry (fuel : nat) (sum : Z) : result unit Z :=
  if sum <=? 0xFFFF then Ok sum else
  match fuel with
  | O => OutOfFuel
  | S fuel' => fold_carry fuel' (Z.land sum 0xFFFF + Z.shiftr sum 16)
  end.

(** Two rounds fold any [u32]. *)
Definition FOLDS : nat := 2.

(** [!(sum as u16)] *)
Definition complement (sum : Z) : Z := as_u16 (Z.lnot (as_u16 sum)).

Definition ip_chksum (data : list Z) : result unit Z :=
  let? sum := sum_words 0 data in
  let? sum := fold_carry FOLDS sum in
  Ok (complement sum).

Record Ipv4Packet := mkIp {
  version_ihl : Z; tos : Z; total_len : Z; id : Z; flags_offset : Z; ttl : Z; protocol : Z;
  src : list Z; dst : list Z; payload : list Z }.

Definition parse_ip (bytes : list Z) : result unit Ipv4Packet :=
  if (length bytes <? 20)%nat then Err tt else
  let? version_ihl := byte bytes 0 in
  if negb (Z.shiftr version_ihl 4 =? 4) then Err tt else
  let ihl := Z.to_nat (Z.land version_ihl 0x0F * 4) in
  if (ihl <? 20)%nat || (length bytes <? ihl)%nat then Err tt else
  let? total_len := u16_at bytes 2 in
  let? id := u16_at bytes 4 in
  let? flags_offset := u16_at bytes 6 in
  let? ttl := byte bytes 8 in
  let? protocol := byte bytes 9 in
  let? src := slice_range bytes 12 16 in
  let? dst := slice_range bytes 16 20 in
  let? tos := byte bytes 1 in
  let? payload := slice_from bytes ihl in
  Ok (mkIp version_ihl tos total_len id flags_offset ttl protocol src dst payload).

(** [20 + payload.len() as u16] overflows above 65515 bytes. *)
Definition new_ip (src dst : list Z) (protocol : Z) (payload : list Z) : result unit Ipv4Packet :=
  let total_len := 20 + as_u16 (Z.of_nat (length payload)) in
  if 65536 <=? total_len then Panic else
  Ok (mkIp 0x45 0 total_len 0 0 64 protocol src dst payload).

(** The header with its checksum field. *)
Definition ip_header (p : Ipv4Packet) (sum : list Z) : list Z :=
  [version_ihl p; tos p] ++ to_be_bytes 2 (total_len p) ++ to_be_bytes 2 (id p) ++
  to_be_bytes 2 (flags_offset p) ++ [ttl p; protocol p] ++ sum ++ src p ++ dst p.

Definition ip_to_bytes (p : Ipv4Packet) : result unit (list Z) :=
  let v := ip_header p (to_be_bytes 2 0) ++ payload p in
  let? h := slice_range v 0 20 in
  let? sum := ip_chksum h in
  write_at v 10 [as_u8 (Z.shiftr sum 8); as_u8 sum].
End Ip.

(** ** UDP *)

Module Udp.

Definition MAX_UDP_PAYLOAD : nat := 1472.
#[global] Arguments MAX_UDP_PAYLOAD : simpl never.

Record UdpPacket := mkUdp { src_port : Z; dst_port : Z; length_ : Z; checksum : Z; payload : list Z }.

Definition parse_udp (bytes : list Z) : result unit UdpPacket :=
  if (length bytes <? 8)%nat then Err tt else
  let? src_port := u16_at bytes 0 in
  let? dst_port := u16_at bytes 2 in
  let? len := u16_at bytes 4 in
  let? checksum := u16_at bytes 6 in
  let? payload := slice_from bytes 8 in
  Ok (mkUdp src_port dst_port len checksum payload).

(** [8 + payload.len() as u16] *)
Definition new_udp (src_port dst_port : Z) (payload : list Z) : result unit UdpPacket :=
  let len := 8 + as_u16 (Z.of_nat (length payload)) in
  if 65536 <=? len then Panic else Ok (mkUdp src_port dst_port len 0 payload).

Definition udp_to_bytes (p : UdpPacket) : list Z :=
  to_be_bytes 2 (src_port p) ++ to_be_bytes 2 (dst_port p) ++ to_be_bytes 2 (length_ p) ++
  to_be_bytes 2 (checksum p) ++ payload p.
End Udp.

(** ** TCP segments *)

Module TcpSeg.

Definition MAX_TCP_PAYLOAD : nat := 1460.
#[global] Arguments MAX_TCP_PAYLOAD : simpl never.
Definition TCP_FIN : Z := 0x01.
Definition TCP_SYN : Z := 0x02.
Definition TCP_RST : Z := 0x04.
Definition TCP_PSH : Z := 0x08.
Definition TCP_ACK : Z := 0x10.

Record TcpPacket := mkSeg {
  src_port : Z; dst_port : Z; seq_no : Z; ack_no : Z; flags : Z; payload : list Z }.

Definition parse_tcp (bytes : list Z) : result unit TcpPacket :=
  if (length bytes <? 20)%nat then Err tt else
  let? src_port := u16_at bytes 0 in
  let? dst_port := u16_at bytes 2 in
  let? seq := u32_at bytes 4 in
  let? ack_no := u32_at bytes 8 in
  let? data_off := byte bytes 12 in
  let hdr_len := Z.to_nat (Z.shiftr data_off 4 * 4) in
  if (hdr_len <? 20)%nat || (length bytes <? hdr_len)%nat then Err tt else
  let? flags := byte bytes 13 in
  let? payload := slice_from bytes hdr_len in
  Ok (mkSeg src_port dst_port seq ack_no flags payload).

(** [self.flags & bit != 0] *)
Definition flag (bit : Z) (p : TcpPacket) : bool := negb (Z.land (flags p) bit =? 0).
Definition syn := flag TCP_SYN.
Definition ack := flag TCP_ACK.
Definition fin := flag TCP_FIN.
Definition rst := flag TCP_RST.

(** The segment with its checksum field. *)
Definition tcp_segment (src_port dst_port seq ack flags window : Z) (sum payload : list Z) : list Z :=
  to_be_bytes 2 src_port ++ to_be_bytes 2 dst_port ++ to_be_bytes 4 seq ++ to_be_bytes 4 ack ++
  [0x50; flags] ++ to_be_bytes 2 window ++ sum ++ to_be_bytes 2 0 ++ payload.

(** Addresses, protocol and length of the pseudo-header. *)
Definition sum_pseudo (src_ip dst_ip : list Z) (len : Z) : result unit Z :=
  let word a i := let? x := byte a i in let? y := byte a (i + 1) in Ok (Z.lor (Z.shiftl x 8) y) in
  let? w := word src_ip 0%nat in let? sum := Ip.add_word 0 w in
  let? w := word src_ip 2%nat in let? sum := Ip.add_word sum w in
  let? w := word dst_ip 0%nat in let? sum := Ip.add_word sum w in
  let? w := word dst_ip 2%nat in let? sum := Ip.add_word sum w in
  let? sum := Ip.add_word sum 6 in
  Ip.add_word sum (as_u32 len).

Definition make_tcp_packet (src_port dst_port seq ack flags window : Z) (payload src_ip dst_ip : list Z)
    : result unit (list Z) :=
  let v := tcp_segment src_port dst_port seq ack flags window (to_be_bytes 2 0) payload in
  let? sum := sum_pseudo src_ip dst_ip (Z.of_nat (length v)) in
  let? sum := Ip.sum_words sum v in
  let? sum := Ip.fold_carry Ip.FOLDS sum in
  let cksum := Ip.complement sum in
  write_at v 16 [as_u8 (Z.shiftr cksum 8); as_u8 cksum].
End TcpSeg.
