(* ===== verification/PacketsSpec.v ===== *)
(** * Wire formats: safety, round trips and checksums

    No parser panics on any bytes; each inverts its builder; the checksum a
    builder stores makes the receiver's sum come out as zero. *)

From S2P Require Import Prelude Packets.

(** ** Pure code that cannot panic *)

(** [r] does not panic or run out of fuel, and a value it gives satisfies [Q]. *)
Definition rsafe {A} (r : result unit A) (Q : A -> Prop) : Prop :=
  match r with Ok a => Q a | Err _ => True | Panic | OutOfFuel => False end.

Lemma rsafe_bind {A B} (r : result unit A) (k : A -> result unit B) Q R :
  rsafe r R -> (forall a, R a -> rsafe (k a) Q) -> rsafe (let? a := r in k a) Q.
Proof. destruct r; simpl; auto. Qed.

Lemma rsafe_ok {A} (a : A) (Q : A -> Prop) : Q a -> rsafe (Ok a) Q.
Proof. done. Qed.

Lemma rsafe_conseq {A} (r : result unit A) (Q R : A -> Prop) :
  rsafe r Q -> (forall a, Q a -> R a) -> rsafe r R.
Proof. destruct r; simpl; auto. Qed.

Section access.
Context (bs : list Z) (Hbs : Forall is_u8 bs).

Lemma byte_safe i : (i < length bs)%nat -> rsafe (byte bs i) is_u8.
Proof.
  intros Hi. unfold byte. destruct (lookup_lt_is_Some_2 bs i Hi) as [b E]. rewrite E. cbn.
  by apply (Forall_lookup_1 _ _ _ _ Hbs E).
Qed.

Lemma u16_at_safe i : (i + 1 < length bs)%nat -> rsafe (u16_at bs i) is_u16.
Proof.
  intros Hi. unfold u16_at.
  eapply rsafe_bind; [apply byte_safe; lia|]. intros a Ha.
  eapply rsafe_bind; [apply byte_safe; lia|]. intros b Hb. apply rsafe_ok.
  unfold be_bytes, is_u16, is_u8 in *. cbn. lia.
Qed.

Lemma u32_at_safe i : (i + 3 < length bs)%nat -> rsafe (u32_at bs i) is_u32.
Proof.
  intros Hi. unfold u32_at.
  do 4 (eapply rsafe_bind; [apply byte_safe; lia|]; intros ? ?). apply rsafe_ok.
  unfold be_bytes, is_u32, is_u8 in *. cbn. lia.
Qed.

Lemma slice_range_safe i j :
  (i <= j <= length bs)%nat -> rsafe (slice_range bs i j) (fun l => length l = (j - i)%nat /\ Forall is_u8 l).
Proof.
  intros Hij. unfold slice_range. rewrite !(proj2 (Nat.leb_le _ _)) by lia. cbn. split.
  - rewrite length_take, length_drop. lia.
  - by apply Forall_take, Forall_drop.
Qed.

Lemma slice_from_safe i :
  (i <= length bs)%nat -> rsafe (slice_from bs i) (fun l => length l = (length bs - i)%nat /\ Forall is_u8 l).
Proof.
  intros Hi. unfold slice_from. rewrite (proj2 (Nat.leb_le _ _)) by lia. cbn. split.
  - by rewrite length_drop.
  - by apply Forall_drop.
Qed.
End access.

(** ** Access in the middle of a byte string *)

Lemma slice_range_mid {E} a b c i j :
  i = length a -> j = (i + length b)%nat -> slice_range (E := E) (a ++ b ++ c) i j = Ok b.
Proof.
  intros -> ->. unfold slice_range. rewrite !length_app.
  rewrite (proj2 (Nat.leb_le _ _)), (proj2 (Nat.leb_le _ _)) by lia. cbn [andb].
  rewrite drop_app_length. rewrite take_app_length' by lia. done.
Qed.

Lemma slice_range_pre {E} b c : slice_range (E := E) (b ++ c) 0 (length b) = Ok b.
Proof. exact (slice_range_mid [] b c 0 (length b) eq_refl eq_refl). Qed.

Lemma byte_mid a x c i : i = length a -> byte (a ++ x :: c) i = Ok x.
Proof. intros ->. unfold byte. by rewrite list_lookup_middle. Qed.

Lemma byte_next a x y c i : i = S (length a) -> byte (a ++ x :: y :: c) i = Ok y.
Proof. intros ->. change (a ++ x :: y :: c) with (a ++ [x] ++ y :: c). rewrite app_assoc. apply byte_mid. rewrite length_app. cbn. lia. Qed.

(** Steps over the accesses of a parser, whose ranges [lia] checks. *)
Ltac parse_step :=
  lazymatch goal with
  | |- rsafe (rbind (byte _ _) _) _ => eapply rsafe_bind; [apply byte_safe; [done|lia]|intros ? ?]
  | |- rsafe (rbind (u16_at _ _) _) _ => eapply rsafe_bind; [apply u16_at_safe; [done|lia]|intros ? ?]
  | |- rsafe (rbind (u32_at _ _) _) _ => eapply rsafe_bind; [apply u32_at_safe; [done|lia]|intros ? ?]
  | |- rsafe (rbind (slice_range _ _ _) _) _ =>
      eapply rsafe_bind; [apply slice_range_safe; [done|lia]|intros ? [? ?]]
  | |- rsafe (rbind (slice_from _ _) _) _ =>
      eapply rsafe_bind; [apply slice_from_safe; [done|lia]|intros ? [? ?]]
  | |- rsafe (if ?c then _ else _) _ => destruct c eqn:?; zbool
  | |- rsafe (let _ := _ in _) _ => cbv zeta
  | |- rsafe (Err _) _ => exact Logic.I
  end.

(** The field facts of a parsed packet. *)
Ltac parsed_ok := hnf; unfold mac_ok, ip_ok; cbn; split_and!; assumption.

Definition eth_ok (e : Eth.EthFrame) : Prop :=
  mac_ok (Eth.dst e) /\ mac_ok (Eth.src e) /\ is_u16 (Eth.ethertype e) /\ Forall is_u8 (Eth.payload e).

Lemma parse_eth_safe bs :
  Forall is_u8 bs ->
  rsafe (Eth.parse_eth bs) (fun e => eth_ok e /\ length bs = (14 + length (Eth.payload e))%nat).
Proof.
  intros Hbs. unfold Eth.parse_eth. repeat parse_step. apply rsafe_ok.
  split; [|cbn; lia]. by parsed_ok.
Qed.

Definition arp_ok (p : Arp.ArpPacket) : Prop :=
  is_u16 (Arp.operation p) /\ ip_ok (Arp.sender_ip p) /\ ip_ok (Arp.target_ip p) /\
  mac_ok (Arp.sender_mac p) /\ mac_ok (Arp.target_mac p).

Lemma parse_arp_safe bs : Forall is_u8 bs -> rsafe (Arp.parse_arp bs) arp_ok.
Proof. intros Hbs. unfold Arp.parse_arp. repeat parse_step. apply rsafe_ok. by parsed_ok. Qed.

Definition ip_packet_ok (p : Ip.Ipv4Packet) : Prop :=
  is_u8 (Ip.protocol p) /\ ip_ok (Ip.src p) /\ ip_ok (Ip.dst p) /\ Forall is_u8 (Ip.payload p).

Lemma parse_ip_safe bs :
  Forall is_u8 bs ->
  rsafe (Ip.parse_ip bs) (fun p => ip_packet_ok p /\ (20 + length (Ip.payload p) <= length bs)%nat).
Proof.
  intros Hbs. unfold Ip.parse_ip. repeat parse_step. apply rsafe_ok.
  split; [|cbn; lia]. by parsed_ok.
Qed.

Definition udp_ok (p : Udp.UdpPacket) : Prop :=
  is_u16 (Udp.src_port p) /\ is_u16 (Udp.dst_port p) /\ Forall is_u8 (Udp.payload p).

Lemma parse_udp_safe bs : Forall is_u8 bs -> rsafe (Udp.parse_udp bs) udp_ok.
Proof. intros Hbs. unfold Udp.parse_udp. repeat parse_step. apply rsafe_ok. by parsed_ok. Qed.

Definition tcpseg_ok (p : TcpSeg.TcpPacket) : Prop :=
  is_u16 (TcpSeg.src_port p) /\ is_u16 (TcpSeg.dst_port p) /\ is_u32 (TcpSeg.seq_no p) /\
  is_u32 (TcpSeg.ack_no p) /\ is_u8 (TcpSeg.flags p) /\ Forall is_u8 (TcpSeg.payload p).

Lemma parse_tcp_safe bs : Forall is_u8 bs -> rsafe (TcpSeg.parse_tcp bs) tcpseg_ok.
Proof. intros Hbs. unfold TcpSeg.parse_tcp. repeat parse_step. apply rsafe_ok. by parsed_ok. Qed.

(** ** Fixed-width fields *)

Lemma to_be_2 v : to_be_bytes 2 v = [v / 256 mod 256; v mod 256].
Proof. reflexivity. Qed.

Lemma to_be_4 v :
  to_be_bytes 4 v = [v / 256 / 256 / 256 mod 256; v / 256 / 256 mod 256; v / 256 mod 256; v mod 256].
Proof. reflexivity. Qed.

Lemma be_2 v : is_u16 v -> be_bytes [v / 256 mod 256; v mod 256] = v.
Proof. unfold is_u16, be_bytes. cbn. zlia. Qed.

Lemma be_4 v :
  is_u32 v -> be_bytes [v / 256 / 256 / 256 mod 256; v / 256 / 256 mod 256; v / 256 mod 256; v mod 256] = v.
Proof. unfold is_u32, be_bytes. cbn. zlia. Qed.

Lemma to_be_u8 n v : Forall is_u8 (to_be_bytes n v).
Proof. unfold to_be_bytes. rewrite Forall_forall. intros x Hx%in_rev. revert x Hx. rewrite <- Forall_forall. apply to_le_bytes_u8. Qed.

Lemma to_be_length n v : length (to_be_bytes n v) = n.
Proof. unfold to_be_bytes. by rewrite length_rev, to_le_bytes_length. Qed.

Ltac u8_list :=
  repeat (apply Forall_cons_2; [first [assumption | split; [discriminate|reflexivity]]|]); apply Forall_nil_2.

(** An address or MAC as its bytes. *)
Lemma ip_bytes a : ip_ok a -> exists w x y z, a = [w; x; y; z].
Proof. intros [Hl _]. destruct a as [|w [|x [|y [|z [|]]]]]; try discriminate Hl. eauto. Qed.

Lemma mac_bytes m : mac_ok m -> exists a b c d e f, m = [a; b; c; d; e; f].
Proof.
  intros [Hl _]. destruct m as [|a [|b [|c [|d [|e [|f [|]]]]]]]; try discriminate Hl. eauto 7.
Qed.

Ltac open_addr :=
  repeat match goal with
  | H : ip_ok ?a |- _ => is_var a; destruct (ip_bytes a H) as (? & ? & ? & ? & ->); clear H
  | H : mac_ok ?a |- _ => is_var a; destruct (mac_bytes a H) as (? & ? & ? & ? & ? & ? & ->); clear H
  end.

(** Evaluates a parser on a header whose bytes are explicit. *)
Ltac parse_explicit :=
  cbn [app length Nat.ltb Nat.leb byte u16_at u32_at slice_range slice_from or_panic lookup list_lookup rbind
       Nat.add Nat.sub take drop orb andb negb].

(** ** Round trips *)

Lemma write_at_split buf off bs buf' :
  write_at buf off bs = Ok buf' -> length buf' = length buf /\
  take (off + length bs) buf' = take off buf ++ bs.
Proof.
  unfold write_at. destruct (_ <=? _)%nat eqn:E; [|discriminate]. intros [= <-]. zbool. split.
  - rewrite !length_app, length_take, length_drop. lia.
  - rewrite app_assoc. apply take_app_length'. rewrite length_app, length_take. lia.
Qed.

Lemma compose_ok buf d s t p :
  mac_ok d -> mac_ok s -> (14 + length p <= length buf)%nat ->
  exists buf', Eth.compose buf d s t p = Ok (buf', (14 + length p)%nat) /\ length buf' = length buf /\
    take (14 + length p) buf' = d ++ s ++ to_be_bytes 2 t ++ p.
Proof.
  intros Hd Hs Hl. open_addr.
  do 14 (destruct buf as [|? buf]; [cbn in Hl; lia|]).
  unfold Eth.compose. rewrite to_be_2. unfold write_at.
  cbn [length app Nat.add Nat.leb take drop rbind]. cbn [length] in Hl.
  rewrite !drop_0, take_0. rewrite (proj2 (Nat.leb_le _ _)) by lia. cbn [rbind app].
  eexists. split; [reflexivity|]. cbn [length app take]. split.
  - rewrite length_app, length_drop. lia.
  - do 14 f_equal. by rewrite take_app_length.
Qed.

Lemma parse_eth_frame d s t p :
  mac_ok d -> mac_ok s -> is_u16 t ->
  Eth.parse_eth (d ++ s ++ to_be_bytes 2 t ++ p) = Ok (Eth.mkEth d s t p).
Proof.
  intros Hd Hs Ht. open_addr. rewrite to_be_2. unfold Eth.parse_eth, u16_at, byte, slice_range, slice_from.
  parse_explicit. by rewrite be_2.
Qed.

Lemma parse_arp_bytes p : arp_ok p -> Arp.parse_arp (Arp.arp_to_bytes p) = Ok p.
Proof.
  destruct p as [op sip tip sm tm]. intros (Ho & H1 & H2 & H3 & H4).
  cbn [Arp.operation Arp.sender_ip Arp.target_ip Arp.sender_mac Arp.target_mac] in *. open_addr.
  unfold Arp.arp_to_bytes. cbn [Arp.operation Arp.sender_ip Arp.target_ip Arp.sender_mac Arp.target_mac].
  rewrite !to_be_2. unfold Arp.parse_arp, u16_at, byte, slice_range. parse_explicit.
  change (be_bytes [1 / 256 mod 256; 1 mod 256]) with 1.
  change (be_bytes [2048 / 256 mod 256; 2048 mod 256]) with 2048. parse_explicit. by rewrite be_2.
Qed.

Lemma parse_udp_bytes p :
  udp_ok p -> is_u16 (Udp.length_ p) -> is_u16 (Udp.checksum p) -> Udp.parse_udp (Udp.udp_to_bytes p) = Ok p.
Proof.
  destruct p as [sp dp n c pl]. intros (H1 & H2 & _) H3 H4.
  cbn [Udp.src_port Udp.dst_port Udp.length_ Udp.checksum] in *.
  unfold Udp.udp_to_bytes. cbn [Udp.src_port Udp.dst_port Udp.length_ Udp.checksum Udp.payload].
  rewrite !to_be_2. unfold Udp.parse_udp, u16_at, byte, slice_from. parse_explicit. by rewrite !be_2.
Qed.

(** ** The checksum *)

(** The 16-bit words of a byte string, the last one padded with zero. *)
Fixpoint words_sum (data : list Z) : Z :=
  match data with
  | [] => 0
  | [a] => 256 * a
  | a :: b :: rest => 256 * a + b + words_sum rest
  end.

Lemma pair_ind (P : list Z -> Prop) :
  P [] -> (forall a, P [a]) -> (forall a b l, P l -> P (a :: b :: l)) -> forall l, P l.
Proof.
  intros H0 H1 H2. fix IH 1. intros [|a [|b l]]; [exact H0|apply H1|apply H2, IH].
Qed.

Lemma word_lor a b : is_u8 a -> is_u8 b -> Z.lor (Z.shiftl a 8) b = 256 * a + b.
Proof.
  intros Ha Hb. unfold is_u8 in *. rewrite Z.lor_comm, Z.shiftl_mul_pow2 by lia.
  rewrite lor_disjoint by (lia || (change (2 ^ 8) with 256; lia)). change (2 ^ 8) with 256. lia.
Qed.

Lemma words_sum_bound data : Forall is_u8 data -> 0 <= words_sum data <= 65535 * Z.of_nat (length data).
Proof.
  induction data as [|a|a b l IH] using pair_ind; intros H; cbn [words_sum length].
  - lia.
  - apply Forall_inv in H. unfold is_u8 in H. lia.
  - pose proof (Forall_inv H). apply Forall_inv_tail in H. pose proof (Forall_inv H).
    apply Forall_inv_tail in H. specialize (IH H). unfold is_u8 in *. lia.
Qed.

Lemma sum_words_ok data s :
  Forall is_u8 data -> 0 <= s -> s + words_sum data < 4294967296 ->
  Ip.sum_words s data = Ok (s + words_sum data).
Proof.
  revert s. induction data as [|a|a b l IH] using pair_ind; intros s H Hs Hb; cbn [Ip.sum_words words_sum] in *.
  - by rewrite Z.add_0_r.
  - apply Forall_inv in H. unfold Ip.add_word, is_u8 in *. rewrite Z.shiftl_mul_pow2 by lia.
    change (2 ^ 8) with 256. rewrite (proj2 (Z.ltb_lt _ _)) by lia. f_equal. lia.
  - pose proof (Forall_inv H) as Ha. apply Forall_inv_tail in H. pose proof (Forall_inv H) as Hb'.
    apply Forall_inv_tail in H. pose proof (words_sum_bound l H). rewrite word_lor by done.
    unfold Ip.add_word. unfold is_u8 in *. rewrite (proj2 (Z.ltb_lt _ _)) by lia. cbn [rbind].
    rewrite IH by (done || lia). f_equal. lia.
Qed.

Lemma lor_bound x y k : 0 <= k -> 0 <= x < 2 ^ k -> 0 <= y < 2 ^ k -> 0 <= Z.lor x y < 2 ^ k.
Proof.
  intros Hk Hx Hy. pose proof (Z.pow_pos_nonneg 2 k).
  assert (0 <= Z.lor x y) by (apply Z.lor_nonneg; lia). split; [done|].
  assert (Z.shiftr (Z.lor x y) k = 0) as E.
  { rewrite Z.shiftr_lor, !Z.shiftr_div_pow2 by done. by rewrite !Z.div_small by done. }
  rewrite Z.shiftr_div_pow2 in E by done. apply Z.div_small_iff in E; lia.
Qed.

(** One round keeps the sum modulo 65535. *)
Lemma carry_round s :
  0 <= s -> Z.land s 0xFFFF + Z.shiftr s 16 = s mod 65536 + s / 65536.
Proof.
  intros Hs. change 0xFFFF with (Z.ones 16). rewrite Z.land_ones by lia.
  by rewrite Z.shiftr_div_pow2 by lia.
Qed.

Lemma fold_carry_ok s :
  0 <= s < 4294967296 ->
  exists f, Ip.fold_carry Ip.FOLDS s = Ok f /\ 0 <= f <= 65535 /\ f mod 65535 = s mod 65535 /\ (f = 0 <-> s = 0).
Proof.
  intros Hs. unfold Ip.FOLDS. cbn [Ip.fold_carry].
  destruct (s <=? 65535) eqn:E1; zbool; [exists s; repeat split; lia|].
  rewrite carry_round by lia. set (s1 := s mod 65536 + s / 65536).
  assert (0 < s1 <= 131070 /\ s1 mod 65535 = s mod 65535) as [H1 H1'] by (unfold s1; zlia).
  destruct (s1 <=? 65535) eqn:E2; zbool; [exists s1; repeat split; try lia; done|].
  rewrite carry_round by lia. set (s2 := s1 mod 65536 + s1 / 65536).
  assert (0 < s2 <= 65535 /\ s2 mod 65535 = s1 mod 65535) as [H2 H2'] by (unfold s2; zlia).
  rewrite (proj2 (Z.leb_le s2 65535)) by lia. exists s2. repeat split; try lia.
Qed.

Lemma complement_spec f : 0 <= f <= 65535 -> Ip.complement f = 65535 - f.
Proof. intros Hf. unfold Ip.complement, as_u16, Z.lnot. zlia. Qed.

(** A checksum [c] of the sum [s] stored in a field that was zero makes the
    sum fold to all ones. *)
Lemma checksum_verifies s f :
  0 <= s < 4294901760 -> Ip.fold_carry Ip.FOLDS s = Ok f ->
  0 <= Ip.complement f <= 65535 /\ Ip.fold_carry Ip.FOLDS (s + Ip.complement f) = Ok 65535.
Proof.
  intros Hs E. destruct (fold_carry_ok s) as (f' & E' & Hf & Hm & Hz); [lia|]. rewrite E in E'. injection E' as <-.
  rewrite complement_spec by done. split; [lia|].
  destruct (fold_carry_ok (s + (65535 - f))) as (g & Eg & Hg & Hgm & Hgz); [lia|]. rewrite Eg. f_equal.
  assert (g <> 0) by lia. zlia.
Qed.

(** The two bytes a builder stores. *)
Lemma sum_bytes c : 0 <= c <= 65535 ->
  [as_u8 (Z.shiftr c 8); as_u8 c] = to_be_bytes 2 c /\ 256 * as_u8 (Z.shiftr c 8) + as_u8 c = c.
Proof.
  intros Hc. rewrite Z.shiftr_div_pow2 by lia. change (2 ^ 8) with 256. unfold as_u8.
  split; [by rewrite to_be_2|]. zlia.
Qed.

(** ** IPv4 *)

Definition ip_fields_ok (p : Ip.Ipv4Packet) : Prop :=
  Ip.version_ihl p = 0x45 /\ is_u8 (Ip.tos p) /\ is_u16 (Ip.total_len p) /\ is_u16 (Ip.id p) /\
  is_u16 (Ip.flags_offset p) /\ is_u8 (Ip.ttl p) /\ is_u8 (Ip.protocol p) /\
  ip_ok (Ip.src p) /\ ip_ok (Ip.dst p).

Lemma ip_header_u8 p sum : ip_fields_ok p -> Forall is_u8 sum -> Forall is_u8 (Ip.ip_header p sum).
Proof.
  intros (Hv & H1 & _ & _ & _ & H2 & H3 & [_ H4] & [_ H5]) Hs. unfold Ip.ip_header. rewrite Hv.
  rewrite !Forall_app; split_and!; auto using to_be_u8.
  all: u8_list.
Qed.

Lemma ip_header_length p sum : ip_fields_ok p -> length sum = 2%nat -> length (Ip.ip_header p sum) = 20%nat.
Proof.
  intros (_ & _ & _ & _ & _ & _ & _ & [H4 _] & [H5 _]) Hs. unfold Ip.ip_header.
  rewrite !length_app, !to_be_length, Hs, H4, H5. reflexivity.
Qed.

(** The checksum field adds its own word. *)
Lemma ip_header_words p c :
  ip_fields_ok p -> 0 <= c <= 65535 ->
  words_sum (Ip.ip_header p (to_be_bytes 2 c)) = words_sum (Ip.ip_header p (to_be_bytes 2 0)) + c.
Proof.
  destruct p as [v t tl i fo tt' pr s d pl]. intros (_ & _ & _ & _ & _ & _ & _ & H1 & H2) Hc. cbn in H1, H2.
  open_addr. unfold Ip.ip_header. cbn [Ip.version_ihl Ip.tos Ip.total_len Ip.id Ip.flags_offset Ip.ttl Ip.protocol Ip.src Ip.dst].
  rewrite !to_be_2. cbn [app words_sum]. destruct (sum_bytes c Hc) as [_ H]. zlia.
Qed.

(** What [to_bytes] gives: the header with its checksum, then the payload. *)
Lemma ip_to_bytes_ok p :
  ip_fields_ok p -> exists c, 0 <= c <= 65535 /\
    Ip.ip_to_bytes p = Ok (Ip.ip_header p (to_be_bytes 2 c) ++ Ip.payload p) /\
    Ip.ip_chksum (Ip.ip_header p (to_be_bytes 2 c)) = Ok 0.
Proof.
  intros Hp. set (h0 := Ip.ip_header p (to_be_bytes 2 0)).
  pose proof (ip_header_length p (to_be_bytes 2 0) Hp eq_refl) as Hl. fold h0 in Hl.
  pose proof (ip_header_u8 p (to_be_bytes 2 0) Hp (to_be_u8 2 0)) as Hu. fold h0 in Hu.
  pose proof (words_sum_bound h0 Hu) as Hb. rewrite Hl in Hb.
  destruct (fold_carry_ok (words_sum h0)) as (f & Ef & Hf & _); [lia|].
  destruct (checksum_verifies (words_sum h0) f) as [Hc Hv]; [lia|done|].
  exists (Ip.complement f). split; [done|]. split.
  - unfold Ip.ip_to_bytes. fold h0. unfold slice_range. rewrite length_app, Hl. cbn [Nat.leb Nat.add andb].
    cbn [rbind]. change (20 - 0)%nat with 20%nat. rewrite drop_0, (take_app_length' h0 _ 20) by done.
    unfold Ip.ip_chksum. rewrite (sum_words_ok h0 0) by (done || lia). cbn [rbind]. rewrite Z.add_0_l, Ef. cbn [rbind].
    rewrite (proj1 (sum_bytes _ Hc)). unfold write_at. rewrite length_app, Hl, to_be_length. cbn [Nat.add Nat.leb].
    subst h0. unfold Ip.ip_header. rewrite !to_be_2. destruct Hp as (_ & _ & _ & _ & _ & _ & _ & H1 & H2).
    destruct (ip_bytes _ H1) as (? & ? & ? & ? & ->). destruct (ip_bytes _ H2) as (? & ? & ? & ? & ->).
    reflexivity.
  - unfold Ip.ip_chksum.
    pose proof (ip_header_words p _ Hp Hc) as Hw. fold h0 in Hw.
    rewrite sum_words_ok; [|by apply ip_header_u8, to_be_u8|lia|lia].
    cbn [rbind]. rewrite Z.add_0_l, Hw, Hv. reflexivity.
Qed.

Lemma parse_ip_bytes p c :
  ip_fields_ok p -> Ip.parse_ip (Ip.ip_header p (to_be_bytes 2 c) ++ Ip.payload p) = Ok p.
Proof.
  destruct p as [v t tl i fo tt' pr s d pl]. intros (Hv & _ & H1 & H2 & H3 & _ & _ & H4 & H5).
  cbn [Ip.version_ihl Ip.total_len Ip.id Ip.flags_offset Ip.src Ip.dst] in *. subst v. open_addr.
  unfold Ip.ip_header. cbn [Ip.version_ihl Ip.tos Ip.total_len Ip.id Ip.flags_offset Ip.ttl Ip.protocol Ip.src Ip.dst Ip.payload].
  rewrite !to_be_2. unfold Ip.parse_ip, u16_at, byte, slice_range, slice_from. parse_explicit.
  change (Z.shiftr 69 4 =? 4) with true. change (Z.to_nat (Z.land 69 15 * 4)) with 20%nat. parse_explicit.
  by rewrite !be_2.
Qed.

Lemma new_ip_ok s d pr pl :
  ip_ok s -> ip_ok d -> is_u8 pr -> Z.of_nat (length pl) <= 65515 ->
  exists p, Ip.new_ip s d pr pl = Ok p /\ ip_fields_ok p /\ Ip.payload p = pl /\
    Ip.src p = s /\ Ip.dst p = d /\ Ip.protocol p = pr /\ Ip.total_len p = 20 + Z.of_nat (length pl).
Proof.
  intros Hs Hd Hp Hl. unfold Ip.new_ip, as_u16. rewrite Z.mod_small by lia.
  rewrite (proj2 (Z.leb_gt _ _)) by lia. eexists. split; [reflexivity|]. cbn.
  split_and!; try done; unfold ip_fields_ok, is_u16; cbn; split_and!; try done; lia.
Qed.

(** ** TCP segments *)

Section tcp.
Context (sp dp sq ak fl win : Z) (pl sip dip : list Z).
Context (Hsp : is_u16 sp) (Hdp : is_u16 dp) (Hsq : is_u32 sq) (Hak : is_u32 ak) (Hfl : is_u8 fl) (Hwin : is_u16 win)
  (Hpl : Forall is_u8 pl) (Hsip : ip_ok sip) (Hdip : ip_ok dip) (Hlen : Z.of_nat (length pl) <= 65000).

Definition seg c := TcpSeg.tcp_segment sp dp sq ak fl win (to_be_bytes 2 c) pl.

Lemma seg_u8 c : Forall is_u8 (seg c).
Proof.
  unfold seg, TcpSeg.tcp_segment. rewrite !Forall_app; split_and!; auto using to_be_u8.
  u8_list.
Qed.

Lemma seg_length c : length (seg c) = (20 + length pl)%nat.
Proof. unfold seg, TcpSeg.tcp_segment. rewrite !length_app, !to_be_length. reflexivity. Qed.

Lemma seg_words c : 0 <= c <= 65535 -> words_sum (seg c) = words_sum (seg 0) + c.
Proof.
  intros Hc. unfold seg, TcpSeg.tcp_segment. rewrite !to_be_2, !to_be_4. cbn [app words_sum].
  destruct (sum_bytes c Hc) as [_ H]. zlia.
Qed.

(** The pseudo-header's sum. *)
Definition pseudo : Z := words_sum sip + words_sum dip + 6 + Z.of_nat (length (seg 0)).

Lemma pseudo_ok :
  TcpSeg.sum_pseudo sip dip (Z.of_nat (length (seg 0))) = Ok pseudo /\ 0 <= pseudo <= 800000.
Proof.
  pose proof (words_sum_bound sip (proj2 Hsip)) as Hs. pose proof (words_sum_bound dip (proj2 Hdip)) as Hd.
  rewrite (proj1 Hsip) in Hs. rewrite (proj1 Hdip) in Hd. pose proof (seg_length 0) as Hl.
  unfold pseudo. split; [|lia]. destruct Hsip as [Hs1 Hs2], Hdip as [Hd1 Hd2].
  destruct (ip_bytes sip Hsip) as (a & b & c & d & E). destruct (ip_bytes dip Hdip) as (e & f & g & h & E').
  rewrite E, E' in *. clear E E'. repeat match goal with H : Forall _ (_ :: _) |- _ => apply Forall_cons_1 in H as [? H] end.
  unfold TcpSeg.sum_pseudo, byte. cbn [lookup list_lookup or_panic rbind Nat.add]. rewrite !word_lor by done.
  cbn [words_sum] in *. unfold Ip.add_word, as_u32. rewrite (Z.mod_small (Z.of_nat _)) by lia. unfold is_u8 in *.
  do 6 (rewrite (proj2 (Z.ltb_lt _ _)) by lia; cbn [rbind]). f_equal. lia.
Qed.

Lemma make_tcp_packet_ok :
  exists c, 0 <= c <= 65535 /\
    TcpSeg.make_tcp_packet sp dp sq ak fl win pl sip dip = Ok (seg c) /\
    (let? s := Ip.sum_words pseudo (seg c) in let? s := Ip.fold_carry Ip.FOLDS s in Ok (Ip.complement s)) = Ok 0.
Proof.
  destruct pseudo_ok as [Ep Hp]. pose proof (words_sum_bound (seg 0) (seg_u8 0)) as Hb. rewrite seg_length in Hb.
  assert (0 <= pseudo + words_sum (seg 0) < 4294901760) as Hs0 by lia.
  destruct (fold_carry_ok (pseudo + words_sum (seg 0))) as (f & Ef & Hf & _); [lia|].
  destruct (checksum_verifies _ f Hs0 Ef) as [Hc Hv]. exists (Ip.complement f). split; [done|].
  assert (Ip.sum_words pseudo (seg 0) = Ok (pseudo + words_sum (seg 0))) as E0
    by (apply sum_words_ok; [apply seg_u8|lia|lia]).
  assert (words_sum (seg (Ip.complement f)) = words_sum (seg 0) + Ip.complement f) as Hw by (by apply seg_words).
  split.
  - unfold TcpSeg.make_tcp_packet. fold (seg 0). rewrite Ep. cbn [rbind]. rewrite E0. cbn [rbind]. rewrite Ef. cbn [rbind].
    rewrite (proj1 (sum_bytes _ Hc)). unfold write_at. rewrite seg_length, to_be_length.
    rewrite (proj2 (Nat.leb_le _ _)) by lia. unfold seg, TcpSeg.tcp_segment. rewrite !to_be_2, !to_be_4. reflexivity.
  - rewrite sum_words_ok; [|apply seg_u8|lia|lia].
    rewrite Hw. cbn [rbind]. rewrite Z.add_assoc, Hv. reflexivity.
Qed.

Lemma parse_tcp_segment c : TcpSeg.parse_tcp (seg c) = Ok (TcpSeg.mkSeg sp dp sq ak fl pl).
Proof.
  unfold seg, TcpSeg.tcp_segment. rewrite !to_be_2, !to_be_4.
  unfold TcpSeg.parse_tcp, u16_at, u32_at, byte, slice_from. parse_explicit.
  change (Z.to_nat (Z.shiftr 80 4 * 4)) with 20%nat. parse_explicit. by rewrite !be_2, !be_4.
Qed.
End tcp.
