(* ===== verification/Sockets.v ===== *)
(** * Protocol state ([kernel/src/drivers/netstack/{arp,udp,tcp,dhcp}.rs])

    The ARP cache, the UDP socket, the TCP socket with its state machine and
    the DHCP client. *)

From S2P Require Import Prelude Packets.

(** ** ARP cache *)

Module ArpCache.

Definition MAX_ARP_ENTRIES : nat := 16.

Record t := mkCache { ips : list (list Z); macs : list (list Z); valid : list bool }.

Definition new_cache : t :=
  mkCache (replicate MAX_ARP_ENTRIES [0; 0; 0; 0]) (replicate MAX_ARP_ENTRIES [0; 0; 0; 0; 0; 0])
          (replicate MAX_ARP_ENTRIES false).

(** [self.valid[i] && self.ips[i] == ip] *)
Definition holds (c : t) (ip : list Z) (i : nat) : bool :=
  match valid c !! i, ips c !! i with
  | Some v, Some a => v && bytes_eqb a ip
  | _, _ => false
  end.

Definition insert_arp (ip mac : list Z) (c : t) : t :=
  match find_from (fun i => if holds c ip i then Some i else None) 0 MAX_ARP_ENTRIES with
  | Some i => mkCache (ips c) (<[i := mac]> (macs c)) (valid c)
  | None =>
    match find_from (fun i => if bool_decide (valid c !! i = Some false) then Some i else None) 0 MAX_ARP_ENTRIES with
    | Some i => mkCache (<[i := ip]> (ips c)) (<[i := mac]> (macs c)) (<[i := true]> (valid c))
    | None => c
    end
  end.

Definition lookup_arp (ip : list Z) (c : t) : option (list Z) :=
  find_from (fun i => if holds c ip i then macs c !! i else None) 0 MAX_ARP_ENTRIES.
End ArpCache.

(** [n = a.len().min(cap); buf[..n].copy_from_slice(&a[..n])]: the buffer and
    [n]. *)
Definition copy_min (cap : nat) (buf a : list Z) : result unit (list Z * nat) :=
  let n := Nat.min (length a) cap in
  let? buf := write_at buf 0 (take n a) in Ok (buf, n).

(** ** UDP socket *)

Module UdpSocket.

Record t := mkSock {
  local_port : Z; remote_port : Z; remote_ip : list Z; recv_buf : list Z; recv_len : nat }.

Definition new_socket (port : Z) : t :=
  mkSock port 0 Ip.ZERO_IP (replicate Udp.MAX_UDP_PAYLOAD 0) 0.

Definition handle_datagram (pkt : Udp.UdpPacket) (src : list Z) (s : t) : result unit t :=
  let? (buf, n) := copy_min Udp.MAX_UDP_PAYLOAD (recv_buf s) (Udp.payload pkt) in
  Ok (mkSock (local_port s) (Udp.src_port pkt) src buf n).

(** What a buffer of [cap] bytes receives, [Err tt] when nothing is there. *)
Definition recv_udp (cap : nat) (s : t) : result unit (list Z) * t :=
  if (recv_len s =? 0)%nat then (Err tt, s) else
  (slice_range (recv_buf s) 0 (Nat.min (recv_len s) cap),
   mkSock (local_port s) (remote_port s) (remote_ip s) (recv_buf s) 0).
End UdpSocket.

(** ** TCP socket *)

Module Tcp.

Inductive TcpState :=
| Closed | Listen | SynSent | SynRecv | Established | FinWait1 | FinWait2 | CloseWait | Closing.

#[global] Instance TcpState_eq_dec : EqDecision TcpState.
Proof. solve_decision. Defined.

Record TcpSocket := mkTcp {
  local_port : Z; remote_port : Z; remote_ip : list Z; state : TcpState;
  seq : Z; ack : Z; last_seq : Z; last_ack : Z; recv_buf : list Z; recv_len : nat }.

Record TcpReply := mkReply { r_flags : Z; r_seq : Z; r_ack : Z }.

Definition listen (port : Z) : TcpSocket :=
  mkTcp port 0 Ip.ZERO_IP Listen 1 0 0 0 (replicate TcpSeg.MAX_TCP_PAYLOAD 0) 0.

Definition connect (local_port : Z) : TcpSocket :=
  mkTcp local_port 0 Ip.ZERO_IP SynSent 1000 0 0 0 (replicate TcpSeg.MAX_TCP_PAYLOAD 0) 0.

(** Field updates. *)
Definition set_last q a (s : TcpSocket) := mkTcp (local_port s) (remote_port s) (remote_ip s) (state s)
  (seq s) (ack s) q a (recv_buf s) (recv_len s).
Definition set_tstate st (s : TcpSocket) := mkTcp (local_port s) (remote_port s) (remote_ip s) st
  (seq s) (ack s) (last_seq s) (last_ack s) (recv_buf s) (recv_len s).
Definition set_seq q (s : TcpSocket) := mkTcp (local_port s) (remote_port s) (remote_ip s) (state s)
  q (ack s) (last_seq s) (last_ack s) (recv_buf s) (recv_len s).
Definition set_ack a (s : TcpSocket) := mkTcp (local_port s) (remote_port s) (remote_ip s) (state s)
  (seq s) a (last_seq s) (last_ack s) (recv_buf s) (recv_len s).
Definition set_remote ip port (s : TcpSocket) := mkTcp (local_port s) port ip (state s)
  (seq s) (ack s) (last_seq s) (last_ack s) (recv_buf s) (recv_len s).
Definition set_buf b n (s : TcpSocket) := mkTcp (local_port s) (remote_port s) (remote_ip s) (state s)
  (seq s) (ack s) (last_seq s) (last_ack s) b n.

(** [Some(TcpReply { flags, seq: self.seq, ack: self.ack })] *)
Definition reply (flags : Z) (s : TcpSocket) : option TcpReply := Some (mkReply flags (seq s) (ack s)).

(** [pkt.seq.wrapping_add(n)] *)
Definition after (pkt : TcpSeg.TcpPacket) (n : Z) : Z := as_u32 (TcpSeg.seq_no pkt + n).

Definition on_listen (pkt : TcpSeg.TcpPacket) (src : list Z) (s : TcpSocket) : option TcpReply * TcpSocket :=
  if TcpSeg.syn pkt && negb (TcpSeg.ack pkt) then
    let s := set_tstate SynRecv (set_ack (after pkt 1) (set_remote src (TcpSeg.src_port pkt) s)) in
    (reply (Z.lor TcpSeg.TCP_SYN TcpSeg.TCP_ACK) s, s)
  else (None, s).

Definition on_syn_sent (pkt : TcpSeg.TcpPacket) (src : list Z) (s : TcpSocket) : option TcpReply * TcpSocket :=
  if TcpSeg.syn pkt && TcpSeg.ack pkt then
    let s := set_tstate Established (set_ack (after pkt 1) (set_seq (TcpSeg.ack_no pkt) s)) in
    (reply TcpSeg.TCP_ACK s, s)
  else if TcpSeg.syn pkt then
    let s := set_tstate SynRecv (set_ack (after pkt 1) (set_remote src (TcpSeg.src_port pkt) s)) in
    (reply (Z.lor TcpSeg.TCP_SYN TcpSeg.TCP_ACK) s, s)
  else (None, s).

(** A FIN moves the socket to [st] and is acknowledged. *)
Definition take_fin (pkt : TcpSeg.TcpPacket) (st : TcpState) (s : TcpSocket) : option TcpReply * TcpSocket :=
  let s := set_tstate st (set_ack (after pkt 1) s) in (reply TcpSeg.TCP_ACK s, s).

(** Data is appended as far as the buffer has room; the whole payload is
    acknowledged. *)
Definition on_established (pkt : TcpSeg.TcpPacket) (s : TcpSocket) : result unit (option TcpReply * TcpSocket) :=
  if TcpSeg.fin pkt then Ok (take_fin pkt CloseWait s) else
  if negb (bool_decide (TcpSeg.payload pkt = [])) then
    if (TcpSeg.MAX_TCP_PAYLOAD <? recv_len s)%nat then Panic else
    let n := Nat.min (length (TcpSeg.payload pkt)) (TcpSeg.MAX_TCP_PAYLOAD - recv_len s) in
    let? buf := write_at (recv_buf s) (recv_len s) (take n (TcpSeg.payload pkt)) in
    let s := set_ack (after pkt (as_u32 (Z.of_nat (length (TcpSeg.payload pkt)))))
                     (set_buf buf (recv_len s + n) s) in
    Ok (reply TcpSeg.TCP_ACK s, s)
  else Ok (None, s).

Definition on_fin_wait1 (pkt : TcpSeg.TcpPacket) (s : TcpSocket) : option TcpReply * TcpSocket :=
  if TcpSeg.fin pkt && TcpSeg.ack pkt then take_fin pkt Closed s else
  if TcpSeg.fin pkt then take_fin pkt Closing s else
  if TcpSeg.ack pkt then (None, set_tstate FinWait2 s) else (None, s).

Definition handle_segment (pkt : TcpSeg.TcpPacket) (src : list Z) (s : TcpSocket)
    : result unit (option TcpReply * TcpSocket) :=
  let s := set_last (TcpSeg.seq_no pkt) (TcpSeg.ack_no pkt) s in
  if TcpSeg.rst pkt then Ok (None, set_tstate Closed s) else
  match state s with
  | Listen => Ok (on_listen pkt src s)
  | SynSent => Ok (on_syn_sent pkt src s)
  | SynRecv =>
    if TcpSeg.ack pkt then Ok (None, set_tstate Established (set_seq (as_u32 (seq s + 1)) s)) else Ok (None, s)
  | Established => on_established pkt s
  | FinWait1 => Ok (on_fin_wait1 pkt s)
  | FinWait2 => if TcpSeg.fin pkt then Ok (take_fin pkt Closed s) else Ok (None, s)
  | Closing => if TcpSeg.ack pkt then Ok (None, set_tstate Closed s) else Ok (None, s)
  | _ => Ok (None, s)
  end.

Definition recv_tcp (cap : nat) (s : TcpSocket) : result unit (list Z) * TcpSocket :=
  if (recv_len s =? 0)%nat then (Err tt, s) else
  (slice_range (recv_buf s) 0 (Nat.min (recv_len s) cap), set_buf (recv_buf s) 0 s).
End Tcp.

(** ** DHCP client *)

Module Dhcp.

Definition CLIENT_PORT : Z := 68.
Definition SERVER_PORT : Z := 67.
Definition MSG_DISCOVER : Z := 1.
Definition MSG_OFFER : Z := 2.
Definition MSG_REQUEST : Z := 3.
Definition MSG_ACK : Z := 5.
Definition MSG_NAK : Z := 6.
Definition COOKIE : list Z := [0x63; 0x82; 0x53; 0x63].

Inductive DhcpState := Idle | Selecting | Requesting | Bound.

#[global] Instance DhcpState_eq_dec : EqDecision DhcpState.
Proof. solve_decision. Defined.

Record DhcpClient := mkDhcp {
  state : DhcpState; xid : Z; offered_ip : list Z; server_ip : list Z;
  subnet_mask : list Z; gateway : list Z; lease_secs : Z }.

Inductive DhcpAction := SendRequest | BoundTo (ip : list Z) | Nak.

Definition new_client (mac : list Z) : result unit DhcpClient :=
  let? a := byte mac 2 in let? b := byte mac 3 in let? c := byte mac 4 in let? d := byte mac 5 in
  Ok (mkDhcp Idle (Z.lor (Z.lor (Z.lor (Z.shiftl a 24) (Z.shiftl b 16)) (Z.shiftl c 8)) d)
        Ip.ZERO_IP Ip.ZERO_IP Ip.ZERO_IP Ip.ZERO_IP 86400).

(** An option that carries an address, present when it is not zero. *)
Definition addr_option (tag : Z) (a : list Z) : list Z :=
  if bytes_eqb a Ip.ZERO_IP then [] else tag :: 4 :: a.

(** The options in the order they are written from offset 240 on. *)
Definition bootp_options (msg_type : Z) (requested_ip server_id : list Z) : list Z :=
  [53; 1; msg_type] ++ addr_option 50 requested_ip ++ addr_option 54 server_id ++ [55; 3; 1; 3; 51] ++ [255].

Definition build_bootp (c : DhcpClient) (mac : list Z) (msg_type : Z) (requested_ip server_id : list Z)
    : result unit (list Z) :=
  let p := replicate 300 0 in
  let? p := write_at p 0 [1; 1; 6] in
  let? p := write_at p 4 (to_be_bytes 4 (xid c)) in
  let? p := write_at p 10 (to_be_bytes 2 0x8000) in
  let? p := write_at p 28 mac in
  let? p := write_at p 236 COOKIE in
  let opts := bootp_options msg_type requested_ip server_id in
  let? p := write_at p 240 opts in
  Ok (take (240 + length opts) p).

Definition build_discover (c : DhcpClient) (mac : list Z) : result unit (list Z) :=
  build_bootp c mac MSG_DISCOVER Ip.ZERO_IP Ip.ZERO_IP.
Definition build_request (c : DhcpClient) (mac : list Z) : result unit (list Z) :=
  build_bootp c mac MSG_REQUEST (offered_ip c) (server_ip c).

(** What the option walk collects. *)
Record Options := mkOpts {
  o_msg : Z; o_server : list Z; o_mask : list Z; o_gateway : list Z; o_lease : Z }.
Definition no_options : Options := mkOpts 0 Ip.ZERO_IP Ip.ZERO_IP Ip.ZERO_IP 86400.

Definition take_option (tag : Z) (val : list Z) (o : Options) : result unit Options :=
  let len := length val in
  if (tag =? 53) && (1 <=? len)%nat then
    let? m := byte val 0 in Ok (mkOpts m (o_server o) (o_mask o) (o_gateway o) (o_lease o))
  else if (tag =? 54) && (4 <=? len)%nat then
    let? a := slice_range val 0 4 in Ok (mkOpts (o_msg o) a (o_mask o) (o_gateway o) (o_lease o))
  else if (tag =? 1) && (4 <=? len)%nat then
    let? a := slice_range val 0 4 in Ok (mkOpts (o_msg o) (o_server o) a (o_gateway o) (o_lease o))
  else if (tag =? 3) && (4 <=? len)%nat then
    let? a := slice_range val 0 4 in Ok (mkOpts (o_msg o) (o_server o) (o_mask o) a (o_lease o))
  else if (tag =? 51) && (4 <=? len)%nat then
    let? v := u32_at val 0 in Ok (mkOpts (o_msg o) (o_server o) (o_mask o) (o_gateway o) v)
  else Ok o.

(** [while i < data.len()]; each round moves [i] forward. *)
Fixpoint walk_options (fuel : nat) (data : list Z) (i : nat) (o : Options) : result unit Options :=
  if (length data <=? i)%nat then Ok o else
  match fuel with
  | O => OutOfFuel
  | S fuel' =>
    let? tag := byte data i in
    if tag =? 255 then Ok o else
    if tag =? 0 then walk_options fuel' data (i + 1) o else
    if (length data <=? i + 1)%nat then Ok o else
    let? len := byte data (i + 1) in
    let len := Z.to_nat len in
    if (length data <? i + 2 + len)%nat then Ok o else
    let? val := slice_range data (i + 2) (i + 2 + len) in
    let? o := take_option tag val o in
    walk_options fuel' data (i + (2 + len)) o
  end.

Definition set_dstate st (c : DhcpClient) :=
  mkDhcp st (xid c) (offered_ip c) (server_ip c) (subnet_mask c) (gateway c) (lease_secs c).

(** The transition on a message for us. *)
Definition on_message (yiaddr : list Z) (o : Options) (c : DhcpClient) : option DhcpAction * DhcpClient :=
  match state c with
  | Selecting =>
    if o_msg o =? MSG_OFFER then
      (Some SendRequest, mkDhcp Requesting (xid c) yiaddr (o_server o) (o_mask o) (o_gateway o) (o_lease o))
    else (None, c)
  | Requesting =>
    if o_msg o =? MSG_ACK then
      (Some (BoundTo yiaddr), mkDhcp Bound (xid c) yiaddr (server_ip c) (subnet_mask c) (gateway c) (lease_secs c))
    else if o_msg o =? MSG_NAK then (Some Nak, set_dstate Idle c)
    else (None, c)
  | _ => (None, c)
  end.

Definition handle_packet (data : list Z) (c : DhcpClient) : result unit (option DhcpAction * DhcpClient) :=
  if (length data <? 240)%nat then Ok (None, c) else
  let? op := byte data 0 in
  if negb (op =? 2) then Ok (None, c) else
  let? cookie := slice_range data 236 240 in
  if negb (bytes_eqb cookie COOKIE) then Ok (None, c) else
  let? x := u32_at data 4 in
  if negb (x =? xid c) then Ok (None, c) else
  let? yiaddr := slice_range data 16 20 in
  let? o := walk_options (length data) data 240 no_options in
  Ok (on_message yiaddr o c).
End Dhcp.
