(* ===== verification/NetStack.v ===== *)
(** * The network stack ([kernel/src/drivers/netstack/mod.rs])

    [NetworkStack] with its socket tables, the receive path from an Ethernet
    frame down to a socket and the operations the host functions call. The
    network card is what the driver shows of it: completed receive buffers
    to come and the frames handed over for transmission. *)

From S2P Require Import Prelude Packets Sockets.

Definition MAX_SOCKETS : nat := 8.

(** ** The driver's interface ([kernel/src/drivers/virtio_net.rs]) *)

Definition NET_HDR_SIZE : nat := 10.
Definition ETH_FRAME_SIZE : nat := 1514.
Definition ETH_HDR_SIZE : nat := 14.
Definition RX_BUF_SIZE : nat := NET_HDR_SIZE + ETH_FRAME_SIZE.

(** [rx]: for each receive the device completes, the length it reports and
    the contents of [RX_BUF]; [tx]: the frames given to the device. *)
Record VirtioNet := mkNet { rx : list (Z * list Z); tx : list (list Z) }.

Definition net_send (frame : list Z) (d : VirtioNet) : result unit nat * VirtioNet :=
  if (length frame <? ETH_HDR_SIZE)%nat || (ETH_FRAME_SIZE <? length frame)%nat then (Err tt, d)
  else (Ok (length frame), mkNet (rx d) (tx d ++ [frame])).

(** The frame the call copies into the caller's 1514-byte buffer, empty when
    none is available. *)
Definition net_recv (d : VirtioNet) : result unit (list Z) * VirtioNet :=
  match rx d with
  | [] => (Ok [], d)
  | (used_len, buf) :: rest =>
    let frame_len := Z.to_nat (Z.min (Z.max (used_len - Z.of_nat NET_HDR_SIZE) 0) (Z.of_nat ETH_FRAME_SIZE)) in
    (slice_range buf NET_HDR_SIZE (NET_HDR_SIZE + frame_len), mkNet rest (tx d))
  end.

(** ** State *)

Record NetworkStack := mkStack {
  net : VirtioNet; mac : list Z; ip : list Z; dhcp : Dhcp.DhcpClient; arp : ArpCache.t;
  tcp_sockets : list (option Tcp.TcpSocket); udp_sockets : list (option UdpSocket.t) }.

(** The stack and the lines it printed. *)
Record NetSt := mkNetSt { stack : NetworkStack; said : list (list Z) }.

Definition N := M NetSt unit.

Definition set_net d (s : NetworkStack) := mkStack d (mac s) (ip s) (dhcp s) (arp s) (tcp_sockets s) (udp_sockets s).
Definition set_ip_addr a (s : NetworkStack) := mkStack (net s) (mac s) a (dhcp s) (arp s) (tcp_sockets s) (udp_sockets s).
Definition set_dhcp c (s : NetworkStack) := mkStack (net s) (mac s) (ip s) c (arp s) (tcp_sockets s) (udp_sockets s).
Definition set_arp c (s : NetworkStack) := mkStack (net s) (mac s) (ip s) (dhcp s) c (tcp_sockets s) (udp_sockets s).
Definition set_tcp t (s : NetworkStack) := mkStack (net s) (mac s) (ip s) (dhcp s) (arp s) t (udp_sockets s).
Definition set_udp u (s : NetworkStack) := mkStack (net s) (mac s) (ip s) (dhcp s) (arp s) (tcp_sockets s) u.

Definition the {A} (f : NetworkStack -> A) : N A := gets (fun s => f (stack s)).
Definition on_stack (f : NetworkStack -> NetworkStack) : N unit :=
  modify (fun s => mkNetSt (f (stack s)) (said s)).
Definition say (line : list Z) : N unit := modify (fun s => mkNetSt (stack s) (said s ++ [line ++ [10]])).

(** [l[i]] for a [usize] index. *)
Definition slot_at {A} (l : list A) (i : Z) : option A :=
  if (0 <=? i) && (i <? Z.of_nat (length l)) then l !! Z.to_nat i else None.

(** [if let Some(p) = parse(bytes) { k }] *)
Definition when {A} (r : result unit A) (k : A -> N unit) : N unit :=
  match r with
  | Ok a => k a
  | Err _ => ret tt
  | Panic => panic
  | OutOfFuel => lift OutOfFuel
  end.

(** ** Printed addresses *)

Fixpoint dec_text (fuel : nat) (n : Z) (acc : list Z) : list Z :=
  let acc := 48 + n mod 10 :: acc in
  match fuel with
  | O => acc
  | S fuel' => if n <? 10 then acc else dec_text fuel' (n / 10) acc
  end.
Definition show_dec (n : Z) : list Z := dec_text 9 n [].

(** [{}.{}.{}.{}] *)
Definition show_ip (a : list Z) : list Z :=
  match a with
  | [] => []
  | x :: rest => fold_left (fun t y => t ++ str "." ++ show_dec y) rest (show_dec x)
  end.

Definition hex_low : list Z := str "0123456789abcdef".
Definition show_hex2 (n : Z) : list Z := [nth (Z.to_nat (n / 16)) hex_low 0; nth (Z.to_nat (n mod 16)) hex_low 0].
Definition show_mac (m : list Z) : list Z :=
  match m with
  | [] => []
  | x :: rest => fold_left (fun t y => t ++ str ":" ++ show_hex2 y) rest (show_hex2 x)
  end.

(** ** Sending *)

(** A failed transmission is ignored. *)
Definition send_eth (dst_mac : list Z) (ethertype : Z) (payload : list Z) : N unit :=
  let! m := the mac in
  let! (frame, n) := lift (Eth.compose (replicate ETH_FRAME_SIZE 0) dst_mac m ethertype payload) in
  let! f := lift (slice_range frame 0 n) in
  on_stack (fun s => set_net (net_send f (net s)).2 s).

Definition send_arp_request (target_ip : list Z) : N unit :=
  let! m := the mac in
  let! a := the ip in
  send_eth Eth.BROADCAST Eth.ETH_TYPE_ARP
    (Arp.arp_to_bytes (Arp.mkArp Arp.ARP_OP_REQUEST a target_ip m [0; 0; 0; 0; 0; 0])).

Definition IP_BROADCAST : list Z := [255; 255; 255; 255].

Definition send_ip (dst_ip ip_payload : list Z) : N unit :=
  if bytes_eqb dst_ip IP_BROADCAST then send_eth Eth.BROADCAST Eth.ETH_TYPE_IPV4 ip_payload else
  let! c := the arp in
  match ArpCache.lookup_arp dst_ip c with
  | Some m => send_eth m Eth.ETH_TYPE_IPV4 ip_payload
  | None => send_arp_request dst_ip
  end.

(** [Ipv4Packet::new(src, dst, proto, payload).to_bytes()] *)
Definition ip_datagram (src dst : list Z) (proto : Z) (payload : list Z) : result unit (list Z) :=
  let? p := Ip.new_ip src dst proto payload in Ip.ip_to_bytes p.

Definition send_tcp_seg (lport rport : Z) (rip : list Z) (seq ack flags : Z) (payload : list Z) : N unit :=
  let! a := the ip in
  let! seg := lift (TcpSeg.make_tcp_packet lport rport seq ack flags 65535 payload a rip) in
  let! b := lift (ip_datagram a rip Ip.IP_PROTO_TCP seg) in
  send_ip rip b.

(** ** ARP and ICMP *)

(** The loop body of [flush_pending_syncs]. *)
Definition flush_one (resolved_ip : list Z) (i : nat) : N unit :=
  let! socks := the tcp_sockets in
  let! o := lift (or_panic (socks !! i)) in
  match o with
  | Some s =>
    if bool_decide (Tcp.state s = Tcp.SynSent) && bytes_eqb (Tcp.remote_ip s) resolved_ip
    then send_tcp_seg (Tcp.local_port s) (Tcp.remote_port s) (Tcp.remote_ip s) (Tcp.seq s) 0 TcpSeg.TCP_SYN []
    else ret tt
  | None => ret tt
  end.

Fixpoint flush_loop (resolved_ip : list Z) (i n : nat) : N unit :=
  match n with
  | O => ret tt
  | S n' => do! flush_one resolved_ip i in flush_loop resolved_ip (S i) n'
  end.

Definition flush_pending_syncs (resolved_ip : list Z) : N unit := flush_loop resolved_ip 0 MAX_SOCKETS.

Definition handle_arp (pkt : Arp.ArpPacket) : N unit :=
  let! a := the ip in
  let! m := the mac in
  do! if (Arp.operation pkt =? Arp.ARP_OP_REQUEST) && bytes_eqb (Arp.target_ip pkt) a
      then send_eth (Arp.sender_mac pkt) Eth.ETH_TYPE_ARP
             (Arp.arp_to_bytes (Arp.new_reply a (Arp.sender_ip pkt) m (Arp.sender_mac pkt)))
      else ret tt in
  if Arp.operation pkt =? Arp.ARP_OP_REPLY then
    do! on_stack (fun s => set_arp (ArpCache.insert_arp (Arp.sender_ip pkt) (Arp.sender_mac pkt) (arp s)) s) in
    flush_pending_syncs (Arp.sender_ip pkt)
  else ret tt.

(** The echo reply: the request's bytes from the fourth on, at most 64. *)
Definition icmp_reply (request : list Z) : result unit (list Z) :=
  let reply_len := Nat.min (length request) 64 in
  let copy := Nat.min (reply_len - 4) (length request - 4) in
  let? body := slice_range request 4 (4 + copy) in
  let? icmp := write_at (replicate 64 0) 4 body in
  let? covered := slice_range icmp 0 reply_len in
  let? cksum := Ip.ip_chksum covered in
  let? icmp := write_at icmp 2 [as_u8 (Z.shiftr cksum 8); as_u8 cksum] in
  slice_range icmp 0 reply_len.

Definition send_icmp_reply (dst request : list Z) : N unit :=
  if (length request <? 8)%nat then ret tt else
  let! icmp := lift (icmp_reply request) in
  let! a := the ip in
  let! b := lift (ip_datagram a dst Ip.IP_PROTO_ICMP icmp) in
  send_ip dst b.

(** ** DHCP *)

Definition send_dhcp_udp (payload : list Z) : N unit :=
  let! u := lift (Udp.new_udp Dhcp.CLIENT_PORT Dhcp.SERVER_PORT payload) in
  let! b := lift (ip_datagram Ip.ZERO_IP IP_BROADCAST Ip.IP_PROTO_UDP (Udp.udp_to_bytes u)) in
  send_eth Eth.BROADCAST Eth.ETH_TYPE_IPV4 b.

Definition dhcp_start : N unit :=
  do! on_stack (fun s => set_dhcp (Dhcp.set_dstate Dhcp.Selecting (dhcp s)) s) in
  let! c := the dhcp in
  let! m := the mac in
  let! pkt := lift (Dhcp.build_discover c m) in
  do! send_dhcp_udp pkt in
  say (str "[net] DHCP DISCOVER sent").

Definition is_dhcp_bound (s : NetworkStack) : bool := bool_decide (Dhcp.state (dhcp s) = Dhcp.Bound).

Definition handle_dhcp (payload : list Z) : N unit :=
  let! (buf, n) := lift (copy_min 1024 (replicate 1024 0) payload) in
  let! data := lift (slice_range buf 0 n) in
  let! c := the dhcp in
  let! (action, c') := lift (Dhcp.handle_packet data c) in
  do! on_stack (set_dhcp c') in
  match action with
  | Some Dhcp.SendRequest =>
    do! say (str "[net] DHCP OFFER " ++ show_ip (Dhcp.offered_ip c') ++ str " from " ++ show_ip (Dhcp.server_ip c')) in
    let! m := the mac in
    let! req := lift (Dhcp.build_request c' m) in
    send_dhcp_udp req
  | Some (Dhcp.BoundTo a) =>
    do! on_stack (set_ip_addr a) in
    say (str "[net] DHCP ACK — IP " ++ show_ip a ++ str "  GW " ++ show_ip (Dhcp.gateway c')
         ++ str "  lease " ++ show_dec (Dhcp.lease_secs c') ++ str "s")
  | Some Dhcp.Nak =>
    do! say (str "[net] DHCP NAK — restarting discovery") in
    dhcp_start
  | None => ret tt
  end.

(** ** TCP and UDP dispatch *)

Definition tcp_match (lport rport : Z) (o : option Tcp.TcpSocket) : bool :=
  match o with Some s => (Tcp.local_port s =? lport) && (Tcp.remote_port s =? rport) | None => false end.
Definition tcp_listening (lport : Z) (o : option Tcp.TcpSocket) : bool :=
  match o with Some s => (Tcp.local_port s =? lport) && bool_decide (Tcp.state s = Tcp.Listen) | None => false end.

Definition find_tcp_socket (lport rport : Z) (socks : list (option Tcp.TcpSocket)) : option nat :=
  match position (tcp_match lport rport) socks with
  | Some i => Some i
  | None => position (tcp_listening lport) socks
  end.

Definition put_tcp (i : nat) (s : Tcp.TcpSocket) : N unit :=
  on_stack (fun st => set_tcp (<[i := Some s]> (tcp_sockets st)) st).

Definition handle_tcp (src_ip : list Z) (pkt : TcpSeg.TcpPacket) : N unit :=
  let! socks := the tcp_sockets in
  match find_tcp_socket (TcpSeg.dst_port pkt) (TcpSeg.src_port pkt) socks with
  | None => ret tt
  | Some idx =>
    let! s := lift (or_panic (mjoin (socks !! idx))) in
    let! (reply, s') := lift (Tcp.handle_segment pkt src_ip s) in
    do! put_tcp idx s' in
    match reply with
    | Some r => send_tcp_seg (Tcp.local_port s') (Tcp.remote_port s') (Tcp.remote_ip s')
                  (Tcp.r_seq r) (Tcp.r_ack r) (Tcp.r_flags r) []
    | None => ret tt
    end
  end.

Definition udp_match (port : Z) (o : option UdpSocket.t) : bool :=
  match o with Some s => UdpSocket.local_port s =? port | None => false end.

Definition put_udp (i : nat) (s : option UdpSocket.t) : N unit :=
  on_stack (fun st => set_udp (<[i := s]> (udp_sockets st)) st).

Definition handle_udp (src_ip : list Z) (pkt : Udp.UdpPacket) : N unit :=
  if (Udp.src_port pkt =? Dhcp.SERVER_PORT) && (Udp.dst_port pkt =? Dhcp.CLIENT_PORT)
  then handle_dhcp (Udp.payload pkt) else
  let! socks := the udp_sockets in
  match position (udp_match (Udp.dst_port pkt)) socks with
  | None => ret tt
  | Some i =>
    let! s := lift (or_panic (mjoin (socks !! i))) in
    let! s' := lift (UdpSocket.handle_datagram pkt src_ip s) in
    put_udp i (Some s')
  end.

Definition handle_ip (pkt : Ip.Ipv4Packet) : N unit :=
  if Ip.protocol pkt =? Ip.IP_PROTO_ICMP then
    if (8 <=? length (Ip.payload pkt))%nat then
      let! b := lift (byte (Ip.payload pkt) 0) in
      if b =? 8 then send_icmp_reply (Ip.src pkt) (Ip.payload pkt) else ret tt
    else ret tt
  else if Ip.protocol pkt =? Ip.IP_PROTO_TCP then
    when (TcpSeg.parse_tcp (Ip.payload pkt)) (handle_tcp (Ip.src pkt))
  else if Ip.protocol pkt =? Ip.IP_PROTO_UDP then
    when (Udp.parse_udp (Ip.payload pkt)) (handle_udp (Ip.src pkt))
  else ret tt.

Definition handle_eth (frame : list Z) : N unit :=
  when (Eth.parse_eth frame) (fun eth =>
    let! m := the mac in
    if negb (Eth.is_for_me m eth) && negb (Eth.is_broadcast eth) then ret tt else
    if Eth.ethertype eth =? Eth.ETH_TYPE_ARP then when (Arp.parse_arp (Eth.payload eth)) handle_arp else
    if Eth.ethertype eth =? Eth.ETH_TYPE_IPV4 then
      when (Ip.parse_ip (Eth.payload eth)) (fun p =>
        do! if negb (Eth.is_broadcast eth)
            then on_stack (fun s => set_arp (ArpCache.insert_arp (Ip.src p) (Eth.src eth) (arp s)) s)
            else ret tt in
        handle_ip p)
    else ret tt).

(** One turn of the receive pump: the length of the frame handled. *)
Definition poll : N (option nat) :=
  let! d := the net in
  let '(r, d') := net_recv d in
  do! on_stack (set_net d') in
  let! frame := lift r in
  if (0 <? length frame)%nat then do! handle_eth frame in ret (Some (length frame)) else ret None.

(** ** Socket operations *)

Definition has_port (port : Z) (o : option Tcp.TcpSocket) : bool :=
  match o with Some s => Tcp.local_port s =? port | None => false end.

Fixpoint ephemeral_loop (fuel : nat) (port : Z) (socks : list (option Tcp.TcpSocket)) : result unit Z :=
  if existsb (has_port port) socks then
    match fuel with
    | O => OutOfFuel
    | S fuel' => ephemeral_loop fuel' (as_u16 (port + 1)) socks
    end
  else Ok port.

(** At most one round per socket. *)
Definition alloc_ephemeral_port (socks : list (option Tcp.TcpSocket)) : result unit Z :=
  ephemeral_loop MAX_SOCKETS 49152 socks.

Definition is_free {A} (o : option A) : bool := match o with None => true | Some _ => false end.

Definition tcp_listen (port : Z) : N (option nat) :=
  let! socks := the tcp_sockets in
  match position is_free socks with
  | Some i => do! put_tcp i (Tcp.listen port) in ret (Some i)
  | None => ret None
  end.

Definition tcp_connect (dst_ip : list Z) (dst_port : Z) : N (option nat) :=
  let! socks := the tcp_sockets in
  let! local_port := lift (alloc_ephemeral_port socks) in
  match position is_free socks with
  | None => ret None
  | Some i =>
    let s := Tcp.set_remote dst_ip dst_port (Tcp.connect local_port) in
    do! put_tcp i s in
    let! c := the arp in
    do! match ArpCache.lookup_arp dst_ip c with
        | Some _ => send_tcp_seg local_port dst_port dst_ip (Tcp.seq s) 0 TcpSeg.TCP_SYN []
        | None => send_arp_request dst_ip
        end in
    ret (Some i)
  end.

(** [&self.tcp_sockets[sock_idx]]; an empty slot is the error. *)
Definition tcp_at (sock_idx : Z) : N Tcp.TcpSocket :=
  let! socks := the tcp_sockets in
  let! o := lift (or_panic (slot_at socks sock_idx)) in
  lift (ok_or o tt).

Definition tcp_send (sock_idx : Z) (data : list Z) : N nat :=
  let! s := tcp_at sock_idx in
  if negb (bool_decide (Tcp.state s = Tcp.Established)) then fail tt else
  let n := Nat.min (length data) TcpSeg.MAX_TCP_PAYLOAD in
  do! send_tcp_seg (Tcp.local_port s) (Tcp.remote_port s) (Tcp.remote_ip s) (Tcp.seq s) (Tcp.ack s)
        (Z.lor TcpSeg.TCP_PSH TcpSeg.TCP_ACK) (take n data) in
  do! put_tcp (Z.to_nat sock_idx) (Tcp.set_seq (as_u32 (Tcp.seq s + as_u32 (Z.of_nat n))) s) in
  ret n.

(** The bytes put into a buffer of [cap] bytes. *)
Definition tcp_recv (sock_idx : Z) (cap : nat) : N (list Z) :=
  let! s := tcp_at sock_idx in
  let '(r, s') := Tcp.recv_tcp cap s in
  do! put_tcp (Z.to_nat sock_idx) s' in
  lift r.

Definition tcp_accept (listen_idx : Z) : N (option nat) :=
  let! socks := the tcp_sockets in
  let! o := lift (or_panic (slot_at socks listen_idx)) in
  match o with
  | None => ret None
  | Some s =>
    if negb (bool_decide (Tcp.state s = Tcp.Established)) then ret None else
    match position is_free socks with
    | None => ret None
    | Some free_slot =>
      do! put_tcp free_slot s in
      do! put_tcp (Z.to_nat listen_idx) (Tcp.listen (Tcp.local_port s)) in
      ret (Some free_slot)
    end
  end.

Definition tcp_status (sock_idx : Z) (st : NetworkStack) : Z :=
  match mjoin (slot_at (tcp_sockets st) sock_idx) with
  | None => 0
  | Some s =>
    match Tcp.state s with
    | Tcp.Closed => 0
    | Tcp.Listen => 1
    | Tcp.SynSent | Tcp.SynRecv => 2
    | Tcp.Established => 3
    | _ => 4
    end
  end.

Definition get_ip (st : NetworkStack) : Z := Ip.to_u32 (ip st).

Definition tcp_close (sock_idx : Z) : N unit :=
  let! s := tcp_at sock_idx in
  match Tcp.state s with
  | Tcp.Established | Tcp.CloseWait =>
    do! put_tcp (Z.to_nat sock_idx) (Tcp.set_tstate Tcp.FinWait1 s) in
    send_tcp_seg (Tcp.local_port s) (Tcp.remote_port s) (Tcp.remote_ip s) (Tcp.seq s) (Tcp.ack s)
      (Z.lor TcpSeg.TCP_FIN TcpSeg.TCP_ACK) []
  | _ => fail tt
  end.

Definition udp_bind (port : Z) : N (option nat) :=
  let! socks := the udp_sockets in
  match position is_free socks with
  | Some i => do! put_udp i (Some (UdpSocket.new_socket port)) in ret (Some i)
  | None => ret None
  end.

(** [&self.udp_sockets[sock_idx]] *)
Definition udp_at (sock_idx : Z) : N UdpSocket.t :=
  let! socks := the udp_sockets in
  let! o := lift (or_panic (slot_at socks sock_idx)) in
  lift (ok_or o tt).

Definition udp_send (sock_idx : Z) (data : list Z) : N nat :=
  let! s := udp_at sock_idx in
  if (UdpSocket.remote_port s =? 0) || Ip.is_zero (UdpSocket.remote_ip s) then fail tt else
  let n := Nat.min (length data) Udp.MAX_UDP_PAYLOAD in
  let! pkt := lift (Udp.new_udp (UdpSocket.local_port s) (UdpSocket.remote_port s) (take n data)) in
  let! a := the ip in
  let! b := lift (ip_datagram a (UdpSocket.remote_ip s) Ip.IP_PROTO_UDP (Udp.udp_to_bytes pkt)) in
  do! send_ip (UdpSocket.remote_ip s) b in
  ret n.

Definition udp_connect (sock_idx : Z) (dst_ip : list Z) (dst_port : Z) : N unit :=
  let! socks := the udp_sockets in
  match mjoin (slot_at socks sock_idx) with
  | Some s =>
    put_udp (Z.to_nat sock_idx)
      (Some (UdpSocket.mkSock (UdpSocket.local_port s) dst_port dst_ip (UdpSocket.recv_buf s) (UdpSocket.recv_len s)))
  | None => fail tt
  end.

Definition udp_close (sock_idx : Z) : N unit :=
  if sock_idx <? Z.of_nat MAX_SOCKETS then put_udp (Z.to_nat sock_idx) None else ret tt.

Definition udp_recv (sock_idx : Z) (cap : nat) : N (list Z) :=
  let! s := udp_at sock_idx in
  let '(r, s') := UdpSocket.recv_udp cap s in
  do! put_udp (Z.to_nat sock_idx) (Some s') in
  lift r.

Definition set_ip (a : list Z) : N unit :=
  do! on_stack (set_ip_addr a) in
  say (str "[net] IP " ++ show_ip a).

(** ** Start-up *)

(** The record [try_init] fills. *)
Definition blank_stack (d : VirtioNet) (m : list Z) : NetworkStack :=
  mkStack d m Ip.ZERO_IP (Dhcp.mkDhcp Dhcp.Idle 0 Ip.ZERO_IP Ip.ZERO_IP Ip.ZERO_IP Ip.ZERO_IP 0)
    ArpCache.new_cache (replicate MAX_SOCKETS None) (replicate MAX_SOCKETS None).

(** [try_init] once the driver found a device. *)
Definition init_stack (d : VirtioNet) (m : list Z) (link_up : bool) : result unit unit * NetSt :=
  (do! if negb link_up then say (str "[net] warning: link is down") else ret tt in
   do! say (str "[net] MAC " ++ show_mac m) in
   let! c := lift (Dhcp.new_client m) in
   do! on_stack (set_dhcp c) in
   dhcp_start) (mkNetSt (blank_stack d m) []).
