(* ===== verification/NetSpec.v ===== *)
(** * The network stack: invariant and safety

    The shape the fixed-size arrays of the stack keep, and that no received
    frame and no socket operation on an existing slot can panic. *)

From S2P Require Import Prelude Packets PacketsSpec Sockets NetStack.

(** ** Invariant *)

Record cache_ok (c : ArpCache.t) : Prop := {
  ca_ips : length (ArpCache.ips c) = ArpCache.MAX_ARP_ENTRIES /\ Forall ip_ok (ArpCache.ips c);
  ca_macs : length (ArpCache.macs c) = ArpCache.MAX_ARP_ENTRIES /\ Forall mac_ok (ArpCache.macs c);
  ca_valid : length (ArpCache.valid c) = ArpCache.MAX_ARP_ENTRIES
}.

Record tcp_ok (s : Tcp.TcpSocket) : Prop := {
  to_lport : is_u16 (Tcp.local_port s);
  to_rport : is_u16 (Tcp.remote_port s);
  to_rip : ip_ok (Tcp.remote_ip s);
  to_seq : is_u32 (Tcp.seq s);
  to_ack : is_u32 (Tcp.ack s);
  to_buf : length (Tcp.recv_buf s) = TcpSeg.MAX_TCP_PAYLOAD /\ Forall is_u8 (Tcp.recv_buf s);
  to_len : (Tcp.recv_len s <= TcpSeg.MAX_TCP_PAYLOAD)%nat
}.

Record udpsock_ok (s : UdpSocket.t) : Prop := {
  uo_lport : is_u16 (UdpSocket.local_port s);
  uo_rport : is_u16 (UdpSocket.remote_port s);
  uo_rip : ip_ok (UdpSocket.remote_ip s);
  uo_buf : length (UdpSocket.recv_buf s) = Udp.MAX_UDP_PAYLOAD /\ Forall is_u8 (UdpSocket.recv_buf s);
  uo_len : (UdpSocket.recv_len s <= Udp.MAX_UDP_PAYLOAD)%nat
}.

Record dhcp_ok (c : Dhcp.DhcpClient) : Prop := {
  do_xid : is_u32 (Dhcp.xid c);
  do_ip : ip_ok (Dhcp.offered_ip c);
  do_server : ip_ok (Dhcp.server_ip c)
}.

(** A frame the card accepts, a receive buffer it completes. *)
Definition frame_ok (f : list Z) : Prop := (ETH_HDR_SIZE <= length f <= ETH_FRAME_SIZE)%nat /\ Forall is_u8 f.
Definition rx_ok (e : Z * list Z) : Prop := length e.2 = RX_BUF_SIZE /\ Forall is_u8 e.2.

Definition all_some {A} (P : A -> Prop) (l : list (option A)) : Prop :=
  length l = MAX_SOCKETS /\ Forall (fun o => match o with Some a => P a | None => True end) l.

Record net_ok (s : NetworkStack) : Prop := {
  no_mac : mac_ok (mac s);
  no_ip : ip_ok (ip s);
  no_dhcp : dhcp_ok (dhcp s);
  no_arp : cache_ok (arp s);
  no_tcp : all_some tcp_ok (tcp_sockets s);
  no_udp : all_some udpsock_ok (udp_sockets s);
  no_tx : Forall frame_ok (tx (net s));
  no_rx : Forall rx_ok (rx (net s))
}.

(** ** Code that keeps the invariant and does not panic *)

Definition nok {A} (m : N A) (Q : A -> Prop) : Prop :=
  forall s, net_ok (stack s) ->
    match m s with
    | (Ok a, s') => net_ok (stack s') /\ Q a
    | (Err _, s') => net_ok (stack s')
    | (Panic, _) | (OutOfFuel, _) => False
    end.

Lemma nok_ret {A} (a : A) (Q : A -> Prop) : Q a -> nok (ret a) Q.
Proof. intros Ha s Hs. done. Qed.

Lemma nok_fail {A} (Q : A -> Prop) : nok (fail tt) Q.
Proof. intros s Hs. done. Qed.

Lemma nok_bind {A B} (m : N A) (k : A -> N B) (R : A -> Prop) (Q : B -> Prop) :
  nok m R -> (forall a, R a -> nok (k a) Q) -> nok (bind m k) Q.
Proof.
  intros Hm Hk s Hs. specialize (Hm s Hs). unfold bind. destruct (m s) as [[a|e| |] s']; try done.
  destruct Hm as [Hs' Ha]. by apply (Hk a Ha).
Qed.

Lemma nok_lift {A} (r : result unit A) Q : rsafe r Q -> nok (lift r) Q.
Proof. intros Hr s Hs. unfold lift. destruct r; done. Qed.

Lemma nok_the {A} (f : NetworkStack -> A) : nok (the f) (fun a => exists s, net_ok s /\ a = f s).
Proof. intros s Hs. split; [done|]. exists (stack s). done. Qed.

Lemma nok_on_stack (f : NetworkStack -> NetworkStack) :
  (forall s, net_ok s -> net_ok (f s)) -> nok (on_stack f) (fun _ => True).
Proof. intros Hf s Hs. split; [by apply Hf|done]. Qed.

Lemma nok_say l : nok (say l) (fun _ => True).
Proof. intros s Hs. done. Qed.

Lemma nok_conseq {A} (m : N A) (Q R : A -> Prop) : nok m Q -> (forall a, Q a -> R a) -> nok m R.
Proof.
  intros Hm HQ s Hs. specialize (Hm s Hs). destruct (m s) as [[a|e| |] s']; try done.
  destruct Hm as [Hs' Ha]. split; [done|by apply HQ].
Qed.

Lemma nok_when {A} (r : result unit A) (k : A -> N unit) (R : A -> Prop) :
  rsafe r R -> (forall a, R a -> nok (k a) (fun _ => True)) -> nok (when r k) (fun _ => True).
Proof. intros Hr Hk. unfold when. destruct r; cbn in Hr; [by apply Hk|by apply nok_ret|done|done]. Qed.

Lemma nok_seq {B} (m : N unit) (k : N B) Q :
  nok m (fun _ => True) -> nok k Q -> nok (bind m (fun _ => k)) Q.
Proof. intros Hm Hk. eapply nok_bind; [exact Hm|]. intros _ _. exact Hk. Qed.

(** Reads a field, keeping what the invariant says of it. *)
Ltac nread f := eapply nok_bind; [apply (nok_the f)|intros ? (? & ? & ->)].
Ltac nlift L := eapply nok_bind; [apply nok_lift, L|].

(** ** Field updates keep the invariant *)

Section updates.
Context (s : NetworkStack) (Hs : net_ok s).
Lemma net_ok_dhcp c : dhcp_ok c -> net_ok (set_dhcp c s).
Proof. destruct Hs. by split. Qed.
Lemma net_ok_ip a : ip_ok a -> net_ok (set_ip_addr a s).
Proof. destruct Hs. by split. Qed.
Lemma net_ok_arp c : cache_ok c -> net_ok (set_arp c s).
Proof. destruct Hs. by split. Qed.
Lemma net_ok_net d : Forall rx_ok (rx d) -> Forall frame_ok (tx d) -> net_ok (set_net d s).
Proof. destruct Hs. by split. Qed.
Lemma net_ok_tcp l : all_some tcp_ok l -> net_ok (set_tcp l s).
Proof. destruct Hs. by split. Qed.
Lemma net_ok_udp l : all_some udpsock_ok l -> net_ok (set_udp l s).
Proof. destruct Hs. by split. Qed.
End updates.

Lemma all_some_insert {A} (P : A -> Prop) l i o :
  all_some P l -> match o with Some a => P a | None => True end -> all_some P (<[i := o]> l).
Proof. intros [Hl HF] Ho. split; [by rewrite length_insert|]. by apply Forall_insert. Qed.

Lemma all_some_lookup {A} (P : A -> Prop) l i a : all_some P l -> l !! i = Some (Some a) -> P a.
Proof. intros [_ HF] Hi. exact (Forall_lookup_1 _ _ _ _ HF Hi). Qed.

Lemma slot_at_lookup {A} (l : list A) i a : slot_at l i = Some a -> l !! Z.to_nat i = Some a.
Proof. unfold slot_at. by destruct (_ && _). Qed.

Lemma nok_put_tcp i s : tcp_ok s -> nok (put_tcp i s) (fun _ => True).
Proof. intros Hs. apply nok_on_stack. intros st Hst. apply net_ok_tcp; [done|]. apply all_some_insert; [apply Hst|done]. Qed.

Lemma nok_put_udp i o : match o with Some s => udpsock_ok s | None => True end -> nok (put_udp i o) (fun _ => True).
Proof. intros Hs. apply nok_on_stack. intros st Hst. apply net_ok_udp; [done|]. apply all_some_insert; [apply Hst|done]. Qed.

(** ** ARP cache *)

Lemma cache_ok_new : cache_ok ArpCache.new_cache.
Proof.
  split; [split; [reflexivity|]|split; [reflexivity|]|reflexivity]; apply Forall_replicate; (split; [reflexivity|u8_list]).
Qed.

Lemma cache_ok_insert ip m c : cache_ok c -> ip_ok ip -> mac_ok m -> cache_ok (ArpCache.insert_arp ip m c).
Proof.
  intros [[Hi1 Hi2] [Hm1 Hm2] Hv] Hip Hm. unfold ArpCache.insert_arp.
  destruct (find_from _ _ _); [|destruct (find_from _ _ _)]; split; cbn; rewrite ?length_insert; try done;
    split; try done; by apply Forall_insert.
Qed.

Lemma lookup_arp_mac ip c m : cache_ok c -> ArpCache.lookup_arp ip c = Some m -> mac_ok m.
Proof.
  intros [_ [_ Hm] _] (i & _ & E & _)%find_from_some. destruct (ArpCache.holds _ _ _); [|done].
  exact (Forall_lookup_1 _ _ _ _ Hm E).
Qed.

(** ** Sending *)

Lemma broadcast_mac : mac_ok Eth.BROADCAST.
Proof. split; [reflexivity|]. apply Forall_replicate. split; [discriminate|reflexivity]. Qed.

Definition eth_wire (d s : list Z) (t : Z) (p : list Z) : list Z := d ++ s ++ to_be_bytes 2 t ++ p.

Lemma eth_wire_ok d s t p :
  mac_ok d -> mac_ok s -> Forall is_u8 p -> (length p <= 1500)%nat -> frame_ok (eth_wire d s t p).
Proof.
  intros [Hd Hd'] [Hs Hs'] Hp Hl. unfold eth_wire. split.
  - rewrite !length_app, Hd, Hs, to_be_length. unfold ETH_HDR_SIZE, ETH_FRAME_SIZE. lia.
  - rewrite !Forall_app. split_and!; auto using to_be_u8.
Qed.

(** The whole effect of [send_eth]: the frame is handed to the card. *)
Lemma send_eth_run d t p s :
  mac_ok d -> mac_ok (mac (stack s)) -> (length p <= 1500)%nat ->
  let f := eth_wire d (mac (stack s)) t p in
  send_eth d t p s =
  (Ok tt, mkNetSt (set_net (mkNet (rx (net (stack s))) (tx (net (stack s)) ++ [f])) (stack s)) (said s)).
Proof.
  intros Hd Hs Hl f. unfold send_eth, the. unfold bind, gets, lift, on_stack, modify.
  destruct (compose_ok (replicate ETH_FRAME_SIZE 0) d (mac (stack s)) t p) as (b & E & Hb & Ht); try done.
  { rewrite length_replicate. unfold ETH_FRAME_SIZE. lia. }
  rewrite E. unfold slice_range. rewrite Hb, length_replicate, (proj2 (Nat.leb_le _ ETH_FRAME_SIZE)) by (unfold ETH_FRAME_SIZE; lia).
  cbn [andb Nat.leb]. rewrite Nat.sub_0_r, drop_0, Ht. fold (eth_wire d (mac (stack s)) t p). fold f.
  assert (length f = 14 + length p)%nat as Hf.
  { unfold f, eth_wire. rewrite !length_app, to_be_length. destruct Hd as [-> _], Hs as [-> _]. lia. }
  unfold net_send. rewrite Hf, (proj2 (Nat.ltb_ge _ ETH_HDR_SIZE)), (proj2 (Nat.ltb_ge ETH_FRAME_SIZE _))
    by (unfold ETH_HDR_SIZE, ETH_FRAME_SIZE; lia). done.
Qed.

Lemma send_eth_ok d t p :
  mac_ok d -> Forall is_u8 p -> (length p <= 1500)%nat -> nok (send_eth d t p) (fun _ => True).
Proof.
  intros Hd Hp Hl s Hs. rewrite send_eth_run by (done || apply Hs). cbn [stack]. split; [|done].
  apply net_ok_net; [done|apply Hs|]. cbn [tx]. apply Forall_app. split; [apply Hs|].
  apply Forall_cons_2; [|apply Forall_nil_2]. apply eth_wire_ok; [done|apply Hs|done|done].
Qed.

Lemma arp_bytes_ok p :
  arp_ok p -> Forall is_u8 (Arp.arp_to_bytes p) /\ length (Arp.arp_to_bytes p) = 28%nat.
Proof.
  intros (_ & [A1 A2] & [B1 B2] & [C1 C2] & [D1 D2]). unfold Arp.arp_to_bytes. split.
  - rewrite !Forall_app. split_and!; auto using to_be_u8. u8_list.
  - by rewrite !length_app, !to_be_length, A1, B1, C1, D1.
Qed.

Lemma send_arp_request_ok a : ip_ok a -> nok (send_arp_request a) (fun _ => True).
Proof.
  intros Ha. unfold send_arp_request. nread mac. nread ip.
  destruct (arp_bytes_ok (Arp.mkArp Arp.ARP_OP_REQUEST (ip x0) a (mac x) [0; 0; 0; 0; 0; 0])) as [H1 H2].
  { split; [split; [discriminate|reflexivity]|]. split; [by apply no_ip|]. split; [done|]. split; [by apply no_mac|].
    split; [reflexivity|u8_list]. }
  apply send_eth_ok; [apply broadcast_mac|done|rewrite H2; lia].
Qed.

Lemma send_ip_ok d b : ip_ok d -> Forall is_u8 b -> (length b <= 1500)%nat -> nok (send_ip d b) (fun _ => True).
Proof.
  intros Hd Hb Hl. unfold send_ip. destruct (bytes_eqb _ _); [by apply send_eth_ok; [apply broadcast_mac|..]|].
  nread arp. destruct (ArpCache.lookup_arp _ _) as [m|] eqn:E; [|by apply send_arp_request_ok].
  apply send_eth_ok; try done. eapply lookup_arp_mac; [|exact E]. by apply no_arp.
Qed.

(** An IPv4 datagram of this stack: its bytes, by header checksum. *)
Lemma ip_datagram_wire src dst proto pl :
  ip_ok src -> ip_ok dst -> is_u8 proto -> Z.of_nat (length pl) <= 65515 ->
  exists p c, ip_fields_ok p /\ ip_datagram src dst proto pl = Ok (Ip.ip_header p (to_be_bytes 2 c) ++ pl) /\
    Ip.src p = src /\ Ip.dst p = dst /\ Ip.protocol p = proto /\ Ip.payload p = pl.
Proof.
  intros Hs Hd Hp Hl. destruct (new_ip_ok src dst proto pl Hs Hd Hp Hl) as (p & E & Hf & Epl & Es & Ed & Ep & _).
  destruct (ip_to_bytes_ok p Hf) as (c & _ & Ec & _). exists p, c. rewrite <- Epl at 2.
  unfold ip_datagram. rewrite E. cbn [rbind]. done.
Qed.

Lemma ip_datagram_ok src dst proto pl :
  ip_ok src -> ip_ok dst -> is_u8 proto -> Forall is_u8 pl -> (length pl <= 1480)%nat ->
  rsafe (ip_datagram src dst proto pl) (fun b => Forall is_u8 b /\ (length b <= 1500)%nat).
Proof.
  intros Hs Hd Hp Hpl Hl.
  destruct (ip_datagram_wire src dst proto pl Hs Hd Hp ltac:(lia)) as (p & c & Hf & E & _). rewrite E. cbn [rsafe]. split.
  - apply Forall_app. split; [|done]. apply ip_header_u8; [done|apply to_be_u8].
  - rewrite length_app, ip_header_length; [lia|done|by rewrite to_be_length].
Qed.

Lemma send_tcp_seg_ok lp rp rip sq ak fl pl :
  is_u16 lp -> is_u16 rp -> ip_ok rip -> is_u32 sq -> is_u32 ak -> is_u8 fl -> Forall is_u8 pl ->
  (length pl <= TcpSeg.MAX_TCP_PAYLOAD)%nat ->
  nok (send_tcp_seg lp rp rip sq ak fl pl) (fun _ => True).
Proof.
  intros Hlp Hrp Hrip Hsq Hak Hfl Hpl Hl. unfold TcpSeg.MAX_TCP_PAYLOAD in Hl. unfold send_tcp_seg. nread ip.
  assert (ip_ok (ip x)) as Hx by (by apply no_ip).
  assert (is_u16 65535) as Hw by (split; [discriminate|reflexivity]).
  eapply (nok_bind _ _ (fun seg => Forall is_u8 seg /\ (length seg <= 1480)%nat)).
  - apply nok_lift.
    destruct (make_tcp_packet_ok lp rp sq ak fl 65535 pl (ip x) rip Hfl Hpl Hx Hrip ltac:(lia)) as (c & _ & E & _).
    rewrite E. cbn [rsafe]. split; [by apply seg_u8|]. rewrite seg_length. lia.
  - intros seg [Hs1 Hs2].
    eapply (nok_bind _ _ (fun b => Forall is_u8 b /\ (length b <= 1500)%nat)).
    + apply nok_lift, ip_datagram_ok; done.
    + intros b [Hb1 Hb2]. by apply send_ip_ok.
Qed.

(** ** ARP and ICMP *)

Lemma write_at_safe buf off bs :
  (off + length bs <= length buf)%nat -> Forall is_u8 buf -> Forall is_u8 bs ->
  rsafe (write_at buf off bs) (fun b => length b = length buf /\ Forall is_u8 b).
Proof.
  intros Hl Hb Hs. unfold write_at. rewrite (proj2 (Nat.leb_le _ _)) by done. cbn [rsafe]. split.
  - rewrite !length_app, length_take, length_drop. lia.
  - rewrite !Forall_app. split_and!; [by apply Forall_take|done|by apply Forall_drop].
Qed.

Lemma zeros_u8 n : Forall is_u8 (replicate n 0).
Proof. apply Forall_replicate. split; [discriminate|reflexivity]. Qed.

Lemma flush_one_ok a i : (i < MAX_SOCKETS)%nat -> nok (flush_one a i) (fun _ => True).
Proof.
  intros Hi. unfold flush_one. nread tcp_sockets. rename x into st, H into Hst.
  pose proof (no_tcp st Hst) as Ht. pose proof (proj1 Ht) as Hl.
  destruct (lookup_lt_is_Some_2 (tcp_sockets st) i) as [o Eo]; [by rewrite Hl|].
  eapply (nok_bind _ _ (fun o' => o' = o)); [apply nok_lift; by rewrite Eo|]. intros ? ->.
  destruct o as [s|]; [|by apply nok_ret]. destruct (_ && _); [|by apply nok_ret].
  destruct (all_some_lookup _ _ _ _ Ht Eo).
  apply send_tcp_seg_ok; try done; try (split; [discriminate|reflexivity]). cbn. lia.
Qed.

Lemma flush_loop_ok a n i : (i + n <= MAX_SOCKETS)%nat -> nok (flush_loop a i n) (fun _ => True).
Proof.
  revert i; induction n as [|n IH]; intros i Hi; cbn [flush_loop]; [by apply nok_ret|].
  apply nok_seq; [apply flush_one_ok; lia|apply IH; lia].
Qed.

Lemma handle_arp_ok p : arp_ok p -> nok (handle_arp p) (fun _ => True).
Proof.
  intros Hp. pose proof Hp as (_ & Hsi & _ & Hsm & _). unfold handle_arp. nread ip. nread mac.
  rename x into s1, x0 into s2. apply nok_seq.
  - destruct (_ && _); [|by apply nok_ret].
    destruct (arp_bytes_ok (Arp.new_reply (ip s1) (Arp.sender_ip p) (mac s2) (Arp.sender_mac p))) as [H1 H2].
    { split; [split; [discriminate|reflexivity]|]. split; [by apply no_ip|]. split; [done|]. split; [by apply no_mac|done]. }
    apply send_eth_ok; [done|done|rewrite H2; lia].
  - destruct (_ =? _); [|by apply nok_ret]. apply nok_seq; [|apply flush_loop_ok; lia].
    apply nok_on_stack. intros s Hs. apply net_ok_arp; [done|]. apply cache_ok_insert; [by apply no_arp|done|done].
Qed.

Lemma ip_chksum_safe d : Forall is_u8 d -> (length d <= 1500)%nat -> rsafe (Ip.ip_chksum d) (fun c => 0 <= c <= 65535).
Proof.
  intros Hd Hl. pose proof (words_sum_bound d Hd). unfold Ip.ip_chksum. rewrite sum_words_ok by (done || lia).
  cbn [rbind]. destruct (fold_carry_ok (0 + words_sum d)) as (f & -> & Hf & _); [lia|]. cbn [rbind rsafe].
  rewrite complement_spec by done. lia.
Qed.

Lemma icmp_reply_safe req :
  Forall is_u8 req -> (8 <= length req)%nat ->
  rsafe (icmp_reply req) (fun b => Forall is_u8 b /\ length b = Nat.min (length req) 64).
Proof.
  intros Hr Hl. unfold icmp_reply. cbv zeta.
  eapply rsafe_bind; [apply slice_range_safe; [done|lia]|]. intros body [Hb1 Hb2].
  eapply rsafe_bind; [apply write_at_safe; [rewrite length_replicate; lia|apply zeros_u8|done]|].
  intros icmp [Hi1 Hi2]. rewrite length_replicate in Hi1.
  eapply rsafe_bind; [apply slice_range_safe; [done|lia]|]. intros cov [Hc1 Hc2].
  eapply rsafe_bind; [apply ip_chksum_safe; [done|lia]|]. intros c Hc.
  eapply rsafe_bind.
  { apply write_at_safe; [cbn [length]; lia|done|]. apply Forall_cons_2; [|apply Forall_cons_2; [|apply Forall_nil_2]]; apply as_u8_range. }
  intros icmp' [Hi1' Hi2']. eapply rsafe_conseq; [apply slice_range_safe; [done|lia]|]. intros b [H1 H2]. split; [done|lia].
Qed.

Lemma send_icmp_reply_ok d req : ip_ok d -> Forall is_u8 req -> nok (send_icmp_reply d req) (fun _ => True).
Proof.
  intros Hd Hr. unfold send_icmp_reply. destruct (_ <? _)%nat eqn:E; zbool; [by apply nok_ret|].
  nlift icmp_reply_safe; [done|done|]. intros b [Hb1 Hb2]. nread ip.
  nlift ip_datagram_ok; [by apply no_ip|done|split; [discriminate|reflexivity]|done|lia|].
  intros q [Hq1 Hq2]. by apply send_ip_ok.
Qed.

(** ** DHCP *)

Lemma addr_option_ok tag a : is_u8 tag -> ip_ok a ->
  Forall is_u8 (Dhcp.addr_option tag a) /\ (length (Dhcp.addr_option tag a) <= 6)%nat.
Proof.
  intros Ht [Ha1 Ha2]. unfold Dhcp.addr_option. destruct (bytes_eqb _ _); cbn; [split; [apply Forall_nil_2|lia]|].
  split; [|lia]. apply Forall_cons_2; [done|]. apply Forall_cons_2; [split; [discriminate|reflexivity]|done].
Qed.

Lemma build_bootp_safe c m mt a b :
  dhcp_ok c -> mac_ok m -> is_u8 mt -> ip_ok a -> ip_ok b ->
  rsafe (Dhcp.build_bootp c m mt a b) (fun p => Forall is_u8 p /\ (length p <= 300)%nat).
Proof.
  intros Hc [Hm1 Hm2] Hmt Ha Hb.
  destruct (addr_option_ok 50 a) as [A1 A2]; [split; [discriminate|reflexivity]|done|].
  destruct (addr_option_ok 54 b) as [B1 B2]; [split; [discriminate|reflexivity]|done|].
  assert (Forall is_u8 (Dhcp.bootp_options mt a b) /\ (length (Dhcp.bootp_options mt a b) <= 60)%nat) as [O1 O2].
  { unfold Dhcp.bootp_options. split.
    - rewrite !Forall_app. split_and!; try done; u8_list.
    - rewrite !length_app. cbn [length]. lia. }
  unfold Dhcp.build_bootp. cbv zeta.
  eapply rsafe_bind; [apply write_at_safe; [rewrite length_replicate; cbn; lia|apply zeros_u8|u8_list]|].
  rewrite length_replicate. intros p1 [L1 U1].
  eapply rsafe_bind; [apply write_at_safe; [rewrite to_be_length; lia|done|apply to_be_u8]|]. intros p2 [L2 U2].
  eapply rsafe_bind; [apply write_at_safe; [rewrite to_be_length; lia|done|apply to_be_u8]|]. intros p3 [L3 U3].
  eapply rsafe_bind; [apply write_at_safe; [rewrite Hm1; lia|done|done]|]. intros p4 [L4 U4].
  eapply rsafe_bind; [apply write_at_safe; [cbn; lia|done|u8_list]|]. intros p5 [L5 U5].
  eapply rsafe_bind; [apply write_at_safe; [lia|done|done]|]. intros p6 [L6 U6].
  apply rsafe_ok. split; [by apply Forall_take|]. rewrite length_take. lia.
Qed.

Lemma new_udp_safe sp dp pl :
  is_u16 sp -> is_u16 dp -> Forall is_u8 pl -> (length pl <= Udp.MAX_UDP_PAYLOAD)%nat ->
  rsafe (Udp.new_udp sp dp pl)
    (fun p => Forall is_u8 (Udp.udp_to_bytes p) /\ length (Udp.udp_to_bytes p) = (8 + length pl)%nat).
Proof.
  intros Hs Hd Hp Hl. unfold Udp.MAX_UDP_PAYLOAD in Hl. unfold Udp.new_udp, as_u16. rewrite Z.mod_small by lia.
  rewrite (proj2 (Z.leb_gt _ _)) by lia. cbn [rsafe]. unfold Udp.udp_to_bytes. split.
  - rewrite !Forall_app. split_and!; auto using to_be_u8.
  - rewrite !length_app, !to_be_length. cbn [Udp.payload]. lia.
Qed.

Lemma zero_ip_ok : ip_ok Ip.ZERO_IP.
Proof. split; [reflexivity|u8_list]. Qed.
Lemma ip_broadcast_ok : ip_ok IP_BROADCAST.
Proof. split; [reflexivity|u8_list]. Qed.

Lemma send_dhcp_udp_ok pl : Forall is_u8 pl -> (length pl <= 1024)%nat -> nok (send_dhcp_udp pl) (fun _ => True).
Proof.
  intros Hp Hl. unfold send_dhcp_udp.
  nlift new_udp_safe; [split; [discriminate|reflexivity]..|done|unfold Udp.MAX_UDP_PAYLOAD; lia|]. intros u [Hu1 Hu2].
  nlift ip_datagram_ok; [apply zero_ip_ok|apply ip_broadcast_ok|split; [discriminate|reflexivity]|done|lia|].
  intros b [Hb1 Hb2]. apply send_eth_ok; [apply broadcast_mac|done|done].
Qed.

Lemma build_discover_safe c m :
  dhcp_ok c -> mac_ok m -> rsafe (Dhcp.build_discover c m) (fun p => Forall is_u8 p /\ (length p <= 300)%nat).
Proof.
  intros Hc Hm. unfold Dhcp.build_discover.
  apply build_bootp_safe; [done|done|split; [discriminate|reflexivity]|apply zero_ip_ok|apply zero_ip_ok].
Qed.

Lemma build_request_safe c m :
  dhcp_ok c -> mac_ok m -> rsafe (Dhcp.build_request c m) (fun p => Forall is_u8 p /\ (length p <= 300)%nat).
Proof.
  intros Hc Hm. unfold Dhcp.build_request.
  apply build_bootp_safe; [done|done|split; [discriminate|reflexivity]|apply Hc|apply Hc].
Qed.

Lemma dhcp_start_ok : nok dhcp_start (fun _ => True).
Proof.
  unfold dhcp_start. apply nok_seq.
  { apply nok_on_stack. intros s Hs. apply net_ok_dhcp; [done|]. destruct (no_dhcp s Hs). by split. }
  nread dhcp. nread mac.
  nlift build_discover_safe; [by apply no_dhcp|by apply no_mac|].
  intros p [Hp1 Hp2]. apply nok_seq; [apply send_dhcp_udp_ok; [done|lia]|apply nok_say].
Qed.

Definition opts_ok (o : Dhcp.Options) : Prop := is_u8 (Dhcp.o_msg o) /\ ip_ok (Dhcp.o_server o).

Lemma take_option_safe tag v o : Forall is_u8 v -> opts_ok o -> rsafe (Dhcp.take_option tag v o) opts_ok.
Proof.
  intros Hv [Ho1 Ho2]. unfold Dhcp.take_option. cbv zeta.
  repeat match goal with
  | |- rsafe (if ?c then _ else _) _ => destruct c eqn:?; zbool
  end; repeat parse_step; try (apply rsafe_ok; done).
Qed.

Lemma walk_options_safe fuel d i o :
  Forall is_u8 d -> opts_ok o -> (length d <= i + fuel)%nat -> rsafe (Dhcp.walk_options fuel d i o) opts_ok.
Proof.
  intros Hd. revert i o; induction fuel as [|fuel IH]; intros i o Ho Hf; cbn [Dhcp.walk_options];
    destruct (length d <=? i)%nat eqn:E; zbool; try (by apply rsafe_ok); [lia|].
  parse_step. destruct (_ =? 255); [by apply rsafe_ok|]. destruct (_ =? 0); [apply IH; [done|lia]|].
  destruct (_ <=? _)%nat eqn:E1; zbool; [by apply rsafe_ok|]. parse_step. cbv zeta.
  destruct (_ <? _)%nat eqn:E2; zbool; [by apply rsafe_ok|]. parse_step.
  eapply rsafe_bind; [by apply take_option_safe|]. intros o' Ho'. apply IH; [done|lia].
Qed.

Lemma handle_packet_safe d c :
  Forall is_u8 d -> dhcp_ok c ->
  rsafe (Dhcp.handle_packet d c) (fun r => dhcp_ok r.2 /\ forall a, r.1 = Some (Dhcp.BoundTo a) -> ip_ok a).
Proof.
  intros Hd Hc. unfold Dhcp.handle_packet.
  assert (forall b : bool, rsafe (Ok (None, c)) (fun r : option Dhcp.DhcpAction * Dhcp.DhcpClient =>
    dhcp_ok r.2 /\ forall a, r.1 = Some (Dhcp.BoundTo a) -> ip_ok a)) as Hnone by (intros; by apply rsafe_ok).
  repeat first [apply Hnone; exact true | parse_step].
  eapply rsafe_bind; [apply walk_options_safe; [done| |lia]|].
  { split; [split; [discriminate|reflexivity]|apply zero_ip_ok]. }
  intros o [Ho1 Ho2]. apply rsafe_ok. destruct Hc as [Hx Hip Hsv]. unfold Dhcp.on_message.
  destruct (Dhcp.state c); repeat case_split; cbn; (split; [by split|intros a' [= <-]; by split]) || done.
Qed.

Lemma copy_min_safe cap buf a :
  length buf = cap -> Forall is_u8 buf -> Forall is_u8 a ->
  rsafe (copy_min cap buf a) (fun r => length r.1 = cap /\ Forall is_u8 r.1 /\ r.2 = Nat.min (length a) cap).
Proof.
  intros Hl Hb Ha. unfold copy_min. cbv zeta.
  eapply rsafe_bind; [apply write_at_safe; [rewrite length_take; lia|done|by apply Forall_take]|].
  intros b [H1 H2]. apply rsafe_ok. cbn [fst snd]. split; [lia|done].
Qed.

Lemma handle_dhcp_ok pl : Forall is_u8 pl -> nok (handle_dhcp pl) (fun _ => True).
Proof.
  intros Hp. unfold handle_dhcp.
  nlift copy_min_safe; [apply length_replicate|apply zeros_u8|exact Hp|]. intros [buf n] (H1 & H2 & H3). cbn [fst snd] in *.
  nlift slice_range_safe; [exact H2|lia|]. intros d [Hd1 Hd2]. nread dhcp.
  nlift handle_packet_safe; [exact Hd2|by apply no_dhcp|]. intros [action c'] [Hc Ha]. cbn [fst snd] in *.
  apply nok_seq; [apply nok_on_stack; intros s Hs; by apply net_ok_dhcp|].
  destruct action as [[|a|]|]; [| | |by apply nok_ret].
  - apply nok_seq; [apply nok_say|]. nread mac. nlift build_request_safe; [done|by apply no_mac|].
    intros r [Hr1 Hr2]. apply send_dhcp_udp_ok; [done|lia].
  - apply nok_seq; [|apply nok_say]. apply nok_on_stack. intros s Hs. apply net_ok_ip; [done|by apply Ha].
  - apply nok_seq; [apply nok_say|apply dhcp_start_ok].
Qed.

(** ** TCP *)

Definition reply_ok (r : option Tcp.TcpReply) : Prop :=
  match r with
  | Some r => is_u8 (Tcp.r_flags r) /\ is_u32 (Tcp.r_seq r) /\ is_u32 (Tcp.r_ack r)
  | None => True
  end.

(** The effect of one segment keeps the socket well formed. *)
Definition step_ok (r : option Tcp.TcpReply * Tcp.TcpSocket) : Prop := reply_ok r.1 /\ tcp_ok r.2.

Lemma take_fin_ok pkt st s : tcp_ok s -> step_ok (Tcp.take_fin pkt st s).
Proof.
  intros [? ? ? ? ? ? ?]. unfold Tcp.take_fin, Tcp.reply, Tcp.after. split; cbn.
  - split; [split; [discriminate|reflexivity]|]. split; [done|apply as_u32_range].
  - split; cbn; try done. apply as_u32_range.
Qed.

Lemma on_established_ok pkt s : tcpseg_ok pkt -> tcp_ok s -> rsafe (Tcp.on_established pkt s) step_ok.
Proof.
  intros (_ & _ & _ & _ & _ & Hp) Hs. unfold Tcp.on_established.
  destruct (TcpSeg.fin pkt); [by apply take_fin_ok|]. destruct (negb _); [|by apply rsafe_ok].
  destruct Hs as [? ? ? ? ? [Hb1 Hb2] Hlen]. rewrite (proj2 (Nat.ltb_ge _ _)) by done.
  eapply rsafe_bind; [apply write_at_safe; [rewrite length_take; lia|done|by apply Forall_take]|].
  intros b [H1 H2]. apply rsafe_ok. unfold Tcp.reply, Tcp.after. split; cbn.
  - split; [split; [discriminate|reflexivity]|]. split; [done|apply as_u32_range].
  - split; cbn; try done; [apply as_u32_range|split; [lia|done]|lia].
Qed.

Lemma handle_segment_ok pkt src s :
  tcpseg_ok pkt -> ip_ok src -> tcp_ok s -> rsafe (Tcp.handle_segment pkt src s) step_ok.
Proof.
  intros Hp Hsrc Hs. pose proof Hp as (Hp1 & _ & Hq & Hk & _). unfold Tcp.handle_segment. cbv zeta.
  set (s' := Tcp.set_last _ _ _). assert (tcp_ok s') as Hs' by (destruct Hs; by split). clearbody s'. clear Hs s.
  destruct (TcpSeg.rst pkt); [apply rsafe_ok; split; [done|destruct Hs'; by split]|].
  pose proof (take_fin_ok pkt) as Hfin. pose proof (as_u32_range) as Hr.
  destruct (Tcp.state s'); try (by apply rsafe_ok).
  - apply rsafe_ok. unfold Tcp.on_listen, Tcp.reply, Tcp.after. destruct (_ && _); [|done]. destruct Hs'.
    split; cbn; [split; [split; [discriminate|reflexivity]|]; split|split]; cbn; auto.
  - apply rsafe_ok. unfold Tcp.on_syn_sent, Tcp.reply, Tcp.after. destruct (_ && _); [|destruct (TcpSeg.syn pkt); [|done]];
      destruct Hs'; (split; cbn; [split; [split; [discriminate|reflexivity]|]; split|split]; cbn; auto).
  - destruct (TcpSeg.ack pkt); apply rsafe_ok; [|done]. split; [done|]. destruct Hs'. split; cbn; auto.
  - by apply on_established_ok.
  - apply rsafe_ok. unfold Tcp.on_fin_wait1. destruct (_ && _); [by apply Hfin|]. destruct (TcpSeg.fin pkt); [by apply Hfin|].
    destruct (TcpSeg.ack pkt); [|done]. split; [done|]. destruct Hs'. by split.
  - destruct (TcpSeg.fin pkt); apply rsafe_ok; [by apply Hfin|done].
  - destruct (TcpSeg.ack pkt); apply rsafe_ok; [|done]. split; [done|]. destruct Hs'. by split.
Qed.

Lemma position_lookup {A} (p : A -> bool) l i : position p l = Some i -> exists x, l !! i = Some x /\ p x = true.
Proof. intros [(x & Hx & Hp) _]%position_some. eauto. Qed.

Lemma find_tcp_some lp rp l i : find_tcp_socket lp rp l = Some i -> exists s, l !! i = Some (Some s) /\ Tcp.local_port s = lp.
Proof.
  unfold find_tcp_socket. destruct (position _ l) eqn:E.
  - intros [= ->]. destruct (position_lookup _ _ _ E) as ([s|] & Hs & Hm); [|done]. cbn in Hm. zbool. eauto.
  - intros (x & Hx & Hm)%position_lookup. destruct x as [s|]; [|done]. cbn in Hm. zbool. eauto.
Qed.

Lemma handle_tcp_ok src pkt : ip_ok src -> tcpseg_ok pkt -> nok (handle_tcp src pkt) (fun _ => True).
Proof.
  intros Hs Hp. unfold handle_tcp. nread tcp_sockets. rename x into st, H into Hst.
  destruct (find_tcp_socket _ _ _) as [i|] eqn:E; [|by apply nok_ret].
  destruct (find_tcp_some _ _ _ _ E) as (s & Hi & _).
  eapply (nok_bind _ _ (fun s' => s' = s)); [apply nok_lift; by rewrite Hi|]. intros ? ->.
  pose proof (all_some_lookup _ _ _ _ (no_tcp st Hst) Hi) as Hok.
  nlift handle_segment_ok; [done..|]. intros [r s'] [Hr Hs']. cbn [fst snd] in *.
  apply nok_seq; [by apply nok_put_tcp|]. destruct r as [r|]; [|by apply nok_ret].
  destruct Hs', Hr as (H1 & H2 & H3). apply send_tcp_seg_ok; try done. cbn. lia.
Qed.

(** ** UDP, IPv4, Ethernet *)

Lemma handle_udp_ok src pkt : ip_ok src -> udp_ok pkt -> nok (handle_udp src pkt) (fun _ => True).
Proof.
  intros Hs (Hp1 & Hp2 & Hp3). unfold handle_udp. destruct (_ && _); [by apply handle_dhcp_ok|].
  nread udp_sockets. rename x into st, H into Hst.
  destruct (position _ _) as [i|] eqn:E; [|by apply nok_ret].
  destruct (position_lookup _ _ _ E) as ([s|] & Hi & Hm); [|done].
  eapply (nok_bind _ _ (fun s' => s' = s)); [apply nok_lift; by rewrite Hi|]. intros ? ->.
  destruct (all_some_lookup _ _ _ _ (no_udp st Hst) Hi) as [? ? ? [Hb1 Hb2] ?].
  eapply (nok_bind _ _ udpsock_ok); [|intros s' Hs'; by apply nok_put_udp].
  apply nok_lift. unfold UdpSocket.handle_datagram.
  eapply rsafe_bind; [by apply copy_min_safe|]. intros [b n] (H1 & H2 & H3). cbn [fst snd] in *. apply rsafe_ok.
  split; cbn; try done. rewrite H3. lia.
Qed.

Lemma handle_ip_ok p : ip_packet_ok p -> nok (handle_ip p) (fun _ => True).
Proof.
  intros (Hp & Hs & Hd & Hpl). unfold handle_ip. destruct (_ =? _).
  { destruct (_ <=? _)%nat eqn:E; zbool; [|by apply nok_ret].
    nlift byte_safe; [exact Hpl|lia|]. intros b _. destruct (b =? 8); [by apply send_icmp_reply_ok|by apply nok_ret]. }
  destruct (_ =? _); [eapply nok_when; [by apply parse_tcp_safe|]; intros seg Hseg; by apply handle_tcp_ok|].
  destruct (_ =? _); [eapply nok_when; [by apply parse_udp_safe|]; intros u Hu; by apply handle_udp_ok|].
  by apply nok_ret.
Qed.

Lemma handle_eth_ok f : Forall is_u8 f -> nok (handle_eth f) (fun _ => True).
Proof.
  intros Hf. unfold handle_eth. eapply nok_when; [by apply parse_eth_safe|]. intros e [(He1 & He2 & He3 & He4) _].
  nread mac. destruct (_ && _); [by apply nok_ret|]. destruct (_ =? _).
  { eapply nok_when; [by apply parse_arp_safe|]. intros p Hp. by apply handle_arp_ok. }
  destruct (_ =? _); [|by apply nok_ret].
  eapply nok_when; [by apply parse_ip_safe|]. intros p [Hp _]. apply nok_seq; [|by apply handle_ip_ok].
  destruct (negb _); [|by apply nok_ret]. apply nok_on_stack. intros s Hs. apply net_ok_arp; [done|].
  apply cache_ok_insert; [by apply no_arp|apply Hp|done].
Qed.

Lemma poll_ok : nok poll (fun _ => True).
Proof.
  unfold poll. nread net. rename x into st, H into Hst. pose proof (no_rx st Hst) as Hrx. pose proof (no_tx st Hst) as Htx.
  unfold net_recv. destruct (rx (net st)) as [|[u b] rest] eqn:E.
  - apply nok_seq; [apply nok_on_stack; intros s Hs; apply net_ok_net; [done|by rewrite E|done]|].
    eapply (nok_bind _ _ (fun f => f = [])); [by apply nok_lift|]. intros ? ->. by apply nok_ret.
  - apply Forall_cons_1 in Hrx as [[Hb1 Hb2] Hrx]. cbn [snd] in Hb1, Hb2.
    apply nok_seq; [apply nok_on_stack; intros s Hs; by apply net_ok_net|].
    nlift slice_range_safe; [exact Hb2|rewrite Hb1; unfold RX_BUF_SIZE; lia|]. intros f [_ Hf].
    destruct (_ <? _)%nat; [|by apply nok_ret]. apply nok_seq; [by apply handle_eth_ok|by apply nok_ret].
Qed.

(** ** Socket operations *)

Definition taken (socks : list (option Tcp.TcpSocket)) (port : Z) : Prop := existsb (has_port port) socks = true.

(** The search finds the first free port, or every candidate was taken. *)
Lemma ephemeral_loop_spec fuel port socks :
  0 <= port -> port + Z.of_nat fuel < 65536 ->
  match ephemeral_loop fuel port socks with
  | Ok p => port <= p <= port + Z.of_nat fuel /\ ~ taken socks p /\ forall q, port <= q < p -> taken socks q
  | OutOfFuel => forall q, port <= q <= port + Z.of_nat fuel -> taken socks q
  | _ => False
  end.
Proof.
  revert port; induction fuel as [|fuel IH]; intros port Hp Hf; cbn [ephemeral_loop];
    destruct (existsb (has_port port) socks) eqn:E; unfold taken.
  - intros q Hq. by replace q with port by lia.
  - split; [lia|]. split; [congruence|]. lia.
  - unfold as_u16. rewrite Z.mod_small by lia. specialize (IH (port + 1) ltac:(lia) ltac:(lia)).
    destruct (ephemeral_loop fuel (port + 1) socks) as [p| | |]; try done.
    + destruct IH as (H1 & H2 & H3). split; [lia|]. split; [done|]. intros q Hq.
      destruct (decide (q = port)) as [->|]; [done|]. apply H3. lia.
    + intros q Hq. destruct (decide (q = port)) as [->|]; [done|]. apply IH. lia.
  - split; [lia|]. split; [congruence|]. lia.
Qed.

(** More distinct ports than sockets cannot all be taken. *)
Lemma ports_pigeonhole (ports : list Z) socks : NoDup ports -> Forall (taken socks) ports -> (length ports <= length socks)%nat.
Proof.
  intros Hn Ht. transitivity (length (omap (fmap Tcp.local_port) socks)).
  - apply submseteq_length, NoDup_submseteq; [done|]. intros q Hq.
    rewrite Forall_forall in Ht. specialize (Ht q (proj1 (list_elem_of_In _ _) Hq)).
    apply existsb_exists in Ht as (o & Ho & Hp). apply list_elem_of_omap. exists o. split; [by apply list_elem_of_In|].
    destruct o as [s|]; [|done]. cbn in *. f_equal. by apply Z.eqb_eq.
  - clear. induction socks as [|[s|] socks IH]; cbn; lia.
Qed.

Lemma alloc_ephemeral_port_ok socks :
  length socks = MAX_SOCKETS ->
  exists p, alloc_ephemeral_port socks = Ok p /\ 49152 <= p <= 49160 /\ ~ taken socks p.
Proof.
  intros Hl. pose proof (ephemeral_loop_spec MAX_SOCKETS 49152 socks ltac:(lia) ltac:(unfold MAX_SOCKETS; lia)) as H.
  unfold alloc_ephemeral_port. destruct (ephemeral_loop _ _ _) as [p| | |]; try done.
  - exists p. change (Z.of_nat MAX_SOCKETS) with 8 in H. destruct H as (H1 & H2 & _). split; [done|]. split; [lia|done].
  - exfalso. pose proof (ports_pigeonhole (seqZ 49152 9) socks (NoDup_seqZ _ _)) as Hpig.
    rewrite length_seqZ, Hl in Hpig. unfold MAX_SOCKETS in *. enough (9 <= 8)%nat by lia. apply Hpig.
    apply Forall_forall. intros q Hq%list_elem_of_In%elem_of_seqZ. apply H. lia.
Qed.

Lemma listen_ok port : is_u16 port -> tcp_ok (Tcp.listen port).
Proof.
  intros Hp. split; cbn; try done; try (split; [discriminate|reflexivity]); [apply zero_ip_ok|split; [apply length_replicate|apply zeros_u8]|lia].
Qed.

Lemma connect_ok port : is_u16 port -> tcp_ok (Tcp.connect port).
Proof.
  intros Hp. split; cbn; try done; try (split; [discriminate|reflexivity]); [apply zero_ip_ok|split; [apply length_replicate|apply zeros_u8]|lia].
Qed.

Lemma tcp_listen_ok port : is_u16 port -> nok (tcp_listen port) (fun _ => True).
Proof.
  intros Hp. unfold tcp_listen. nread tcp_sockets. destruct (position _ _); [|by apply nok_ret].
  apply nok_seq; [by apply nok_put_tcp, listen_ok|by apply nok_ret].
Qed.

Lemma tcp_connect_ok a port : ip_ok a -> is_u16 port -> nok (tcp_connect a port) (fun _ => True).
Proof.
  intros Ha Hp. unfold tcp_connect. nread tcp_sockets. rename x into st, H into Hst.
  destruct (alloc_ephemeral_port_ok _ (proj1 (no_tcp st Hst))) as (lp & E & Hlp & _).
  assert (is_u16 lp) as Hl by (unfold is_u16; lia).
  eapply (nok_bind _ _ (fun p => p = lp)); [apply nok_lift; by rewrite E|]. intros ? ->.
  destruct (position _ _); [|by apply nok_ret]. cbv zeta.
  apply nok_seq; [apply nok_put_tcp; destruct (connect_ok lp Hl); by split|]. nread arp.
  apply nok_seq; [|by apply nok_ret]. destruct (ArpCache.lookup_arp _ _); [|by apply send_arp_request_ok].
  apply send_tcp_seg_ok; try done; try (split; [discriminate|reflexivity]). cbn. lia.
Qed.

(** Operations on a handle: safe for the slots the table has. *)
Definition handle_ok (i : Z) : Prop := 0 <= i < Z.of_nat MAX_SOCKETS.

Lemma slot_at_some {A} (P : A -> Prop) l i :
  all_some P l -> handle_ok i -> exists o, slot_at l i = Some o /\ match o with Some a => P a | None => True end.
Proof.
  intros [Hl HF] Hi. unfold slot_at, handle_ok in *. rewrite Hl. destruct (lookup_lt_is_Some_2 l (Z.to_nat i)) as [o Eo]; [lia|].
  rewrite (proj2 (Z.leb_le _ _)), (proj2 (Z.ltb_lt _ _)) by lia. exists o. split; [done|]. exact (Forall_lookup_1 _ _ _ _ HF Eo).
Qed.

Lemma tcp_at_ok i : handle_ok i -> nok (tcp_at i) tcp_ok.
Proof.
  intros Hi. unfold tcp_at. nread tcp_sockets. rename x into st, H into Hst.
  destruct (slot_at_some _ _ i (no_tcp st Hst) Hi) as (o & E & Ho).
  eapply (nok_bind _ _ (fun o' => o' = o)); [apply nok_lift; by rewrite E|]. intros ? ->. apply nok_lift. by destruct o.
Qed.

Lemma udp_at_ok i : handle_ok i -> nok (udp_at i) udpsock_ok.
Proof.
  intros Hi. unfold udp_at. nread udp_sockets. rename x into st, H into Hst.
  destruct (slot_at_some _ _ i (no_udp st Hst) Hi) as (o & E & Ho).
  eapply (nok_bind _ _ (fun o' => o' = o)); [apply nok_lift; by rewrite E|]. intros ? ->. apply nok_lift. by destruct o.
Qed.

Lemma tcp_send_ok i d : handle_ok i -> Forall is_u8 d -> nok (tcp_send i d) (fun n => n <= length d)%nat.
Proof.
  intros Hi Hd. unfold tcp_send. eapply nok_bind; [by apply tcp_at_ok|]. intros s Hs.
  destruct (negb _); [apply nok_fail|]. cbv zeta. destruct Hs.
  apply nok_seq; [apply send_tcp_seg_ok; try done; [by apply Forall_take|rewrite length_take; lia]|].
  apply nok_seq; [apply nok_put_tcp; split; cbn; try done; apply as_u32_range|]. apply nok_ret. lia.
Qed.

Lemma recv_tcp_ok cap s : tcp_ok s ->
  rsafe (Tcp.recv_tcp cap s).1 (fun b => Forall is_u8 b /\ (length b <= cap)%nat) /\ tcp_ok (Tcp.recv_tcp cap s).2.
Proof.
  intros [? ? ? ? ? [H1 H2] ?]. unfold Tcp.recv_tcp. destruct (_ =? _)%nat; cbn [fst snd]; [done|]. split.
  - eapply rsafe_conseq; [apply slice_range_safe; [done|lia]|]. intros b [Hb1 Hb2]. split; [done|lia].
  - split; cbn; try done. lia.
Qed.

Lemma tcp_recv_ok i cap : handle_ok i -> nok (tcp_recv i cap) (fun b => Forall is_u8 b /\ (length b <= cap)%nat).
Proof.
  intros Hi. unfold tcp_recv. eapply nok_bind; [by apply tcp_at_ok|]. intros s Hs.
  destruct (recv_tcp_ok cap s Hs) as [H1 H2]. destruct (Tcp.recv_tcp cap s) as [r s']. cbn [fst snd] in *.
  apply nok_seq; [by apply nok_put_tcp|by apply nok_lift].
Qed.

Lemma tcp_accept_ok i : handle_ok i -> nok (tcp_accept i) (fun _ => True).
Proof.
  intros Hi. unfold tcp_accept. nread tcp_sockets. rename x into st, H into Hst.
  destruct (slot_at_some _ _ i (no_tcp st Hst) Hi) as (o & E & Ho).
  eapply (nok_bind _ _ (fun o' => o' = o)); [apply nok_lift; by rewrite E|]. intros ? ->.
  destruct o as [s|]; [|by apply nok_ret]. destruct (negb _); [by apply nok_ret|].
  destruct (position _ _); [|by apply nok_ret]. apply nok_seq; [by apply nok_put_tcp|].
  apply nok_seq; [apply nok_put_tcp, listen_ok; by destruct Ho|by apply nok_ret].
Qed.

Lemma tcp_close_ok i : handle_ok i -> nok (tcp_close i) (fun _ => True).
Proof.
  intros Hi. unfold tcp_close. eapply nok_bind; [by apply tcp_at_ok|]. intros s Hs.
  destruct (Tcp.state s); try apply nok_fail; (apply nok_seq; [apply nok_put_tcp; destruct Hs; by split|]);
    destruct Hs; (apply send_tcp_seg_ok; try done; cbn; lia).
Qed.

Lemma udp_bind_ok port : is_u16 port -> nok (udp_bind port) (fun _ => True).
Proof.
  intros Hp. unfold udp_bind. nread udp_sockets. destruct (position _ _); [|by apply nok_ret].
  apply nok_seq; [|by apply nok_ret]. apply nok_put_udp.
  split; cbn; try done; [apply zero_ip_ok|split; [apply length_replicate|apply zeros_u8]|lia].
Qed.

Lemma udp_send_ok i d : handle_ok i -> Forall is_u8 d -> nok (udp_send i d) (fun n => n <= length d)%nat.
Proof.
  intros Hi Hd. unfold udp_send. eapply nok_bind; [by apply udp_at_ok|]. intros s Hs.
  destruct (_ || _); [apply nok_fail|]. cbv zeta. destruct Hs.
  nlift new_udp_safe; [done|done|by apply Forall_take|rewrite length_take; lia|]. intros u [Hu1 Hu2].
  rewrite length_take in Hu2. nread ip.
  nlift ip_datagram_ok; [by apply no_ip|done|split; [discriminate|reflexivity]|done|unfold Udp.MAX_UDP_PAYLOAD in *; lia|].
  intros b [Hb1 Hb2]. apply nok_seq; [by apply send_ip_ok|]. apply nok_ret. lia.
Qed.

Lemma udp_connect_ok i a port : ip_ok a -> is_u16 port -> nok (udp_connect i a port) (fun _ => True).
Proof.
  intros Ha Hp. unfold udp_connect. nread udp_sockets. rename x into st, H into Hst.
  destruct (slot_at (udp_sockets st) i) as [[s|]|] eqn:E; cbn; try apply nok_fail.
  apply slot_at_lookup in E. destruct (all_some_lookup _ _ _ _ (no_udp st Hst) E). apply nok_put_udp. by split.
Qed.

Lemma udp_close_ok i : nok (udp_close i) (fun _ => True).
Proof. unfold udp_close. destruct (_ <? _); [by apply nok_put_udp|by apply nok_ret]. Qed.

Lemma udp_recv_ok i cap : handle_ok i -> nok (udp_recv i cap) (fun b => Forall is_u8 b /\ (length b <= cap)%nat).
Proof.
  intros Hi. unfold udp_recv. eapply nok_bind; [by apply udp_at_ok|]. intros s [? ? ? [H1 H2] ?].
  unfold UdpSocket.recv_udp. destruct (_ =? _)%nat.
  - apply nok_seq; [by apply nok_put_udp|by apply nok_lift].
  - apply nok_seq; [apply nok_put_udp; split; cbn; try done; lia|].
    apply nok_lift. eapply rsafe_conseq; [apply slice_range_safe; [done|lia]|]. intros b [Hb1 Hb2]. split; [done|lia].
Qed.

Lemma set_ip_ok a : ip_ok a -> nok (set_ip a) (fun _ => True).
Proof. intros Ha. unfold set_ip. apply nok_seq; [|apply nok_say]. apply nok_on_stack. intros s Hs. by apply net_ok_ip. Qed.

(** ** Start-up *)

Lemma blank_stack_ok d m : Forall rx_ok (rx d) -> Forall frame_ok (tx d) -> mac_ok m -> net_ok (blank_stack d m).
Proof.
  intros Hr Ht Hm.
  split; cbn; try done; [apply zero_ip_ok|split; cbn; [split; [discriminate|reflexivity]|apply zero_ip_ok..]|apply cache_ok_new| |];
    (split; [apply length_replicate|by apply Forall_replicate]).
Qed.

Lemma new_client_safe m : mac_ok m -> rsafe (Dhcp.new_client m) dhcp_ok.
Proof.
  intros [Hl Hm]. unfold Dhcp.new_client. repeat parse_step. apply rsafe_ok.
  split; cbn; [|apply zero_ip_ok..]. unfold is_u8, is_u32 in *.
  apply (lor_bound _ _ 32); [lia|apply (lor_bound _ _ 32); [lia|apply (lor_bound _ _ 32); [lia|..]|]|];
    rewrite ?Z.shiftl_mul_pow2 by lia; lia.
Qed.

Lemma init_stack_ok d m up :
  Forall rx_ok (rx d) -> Forall frame_ok (tx d) -> mac_ok m ->
  match init_stack d m up with
  | (Ok _, s) | (Err _, s) => net_ok (stack s)
  | (Panic, _) | (OutOfFuel, _) => False
  end.
Proof.
  intros Hr Ht Hm. pose proof (blank_stack_ok d m Hr Ht Hm) as Hb. unfold init_stack.
  match goal with |- match ?f ?s with _ => _ end => assert (nok f (fun _ => True)) as Hf; [|specialize (Hf s Hb)] end.
  - apply nok_seq; [destruct (negb up); [apply nok_say|by apply nok_ret]|]. apply nok_seq; [apply nok_say|].
    nlift new_client_safe; [done|]. intros c Hc. apply nok_seq; [|apply dhcp_start_ok].
    apply nok_on_stack. intros s Hs. by apply net_ok_dhcp.
  - match goal with |- match ?c with _ => _ end => destruct c as [[u|e| |] s] end; try done. apply Hf.
Qed.

(** ** Histories *)

(** What can happen to the stack: the card completes a receive, the pump
    turns, or a guest's call comes in. *)
Inductive NetEvent :=
| EvArrive (e : Z * list Z) | EvPoll
| EvListen (port : Z) | EvConnect (a : list Z) (port : Z) | EvSend (h : Z) (d : list Z) | EvRecv (h : Z) (cap : nat)
| EvAccept (h : Z) | EvClose (h : Z) | EvSetIp (a : list Z)
| EvUdpBind (port : Z) | EvUdpConnect (h : Z) (a : list Z) (port : Z) | EvUdpSend (h : Z) (d : list Z)
| EvUdpRecv (h : Z) (cap : nat) | EvUdpClose (h : Z).

Definition event_ok (e : NetEvent) : Prop :=
  match e with
  | EvArrive e => rx_ok e
  | EvPoll | EvUdpClose _ => True
  | EvListen p | EvUdpBind p => is_u16 p
  | EvConnect a p | EvUdpConnect _ a p => ip_ok a /\ is_u16 p
  | EvSend h d | EvUdpSend h d => handle_ok h /\ Forall is_u8 d
  | EvRecv h _ | EvAccept h | EvClose h | EvUdpRecv h _ => handle_ok h
  | EvSetIp a => ip_ok a
  end.

(** The caller sees an error as a value. *)
Definition observe {A} (m : N A) : N unit := fun s =>
  match m s with
  | (Ok _, s') | (Err _, s') => (Ok tt, s')
  | (Panic, s') => (Panic, s')
  | (OutOfFuel, s') => (OutOfFuel, s')
  end.

Definition run_event (e : NetEvent) : N unit :=
  match e with
  | EvArrive e => on_stack (fun s => set_net (mkNet (rx (net s) ++ [e]) (tx (net s))) s)
  | EvPoll => observe poll
  | EvListen p => observe (tcp_listen p)
  | EvConnect a p => observe (tcp_connect a p)
  | EvSend h d => observe (tcp_send h d)
  | EvRecv h cap => observe (tcp_recv h cap)
  | EvAccept h => observe (tcp_accept h)
  | EvClose h => observe (tcp_close h)
  | EvSetIp a => observe (set_ip a)
  | EvUdpBind p => observe (udp_bind p)
  | EvUdpConnect h a p => observe (udp_connect h a p)
  | EvUdpSend h d => observe (udp_send h d)
  | EvUdpRecv h cap => observe (udp_recv h cap)
  | EvUdpClose h => observe (udp_close h)
  end.

Fixpoint run_events (es : list NetEvent) : N unit :=
  match es with
  | [] => ret tt
  | e :: es => do! run_event e in run_events es
  end.

(** Never panics, always answers. *)
Definition total_keeps (m : N unit) : Prop := forall s, net_ok (stack s) -> exists s', m s = (Ok tt, s') /\ net_ok (stack s').

Lemma observe_total {A} (m : N A) Q : nok m Q -> total_keeps (observe m).
Proof.
  intros Hm s Hs. specialize (Hm s Hs). unfold observe.
  destruct (m s) as [[a|e| |] s']; try done; exists s'; [split; [done|apply Hm]|done].
Qed.

Lemma run_event_ok e : event_ok e -> total_keeps (run_event e).
Proof.
  destruct e as [e| |p|a p|h d|h cap|h|h|a|p|h a p|h d|h cap|h]; cbn [event_ok run_event]; intros He.
  1: { intros s Hs. eexists. split; [reflexivity|]. cbn [stack]. apply net_ok_net; [done| |apply Hs].
    cbn [rx]. apply Forall_app. split; [apply Hs|]. apply Forall_cons_2; [done|apply Forall_nil_2]. }
  all: eapply observe_total; try destruct He;
    first [ by apply tcp_listen_ok | by apply tcp_connect_ok | by apply tcp_send_ok | by apply tcp_recv_ok | by apply tcp_accept_ok
          | by apply tcp_close_ok | by apply set_ip_ok | by apply udp_bind_ok | by apply udp_connect_ok | by apply udp_send_ok
          | by apply udp_recv_ok | apply udp_close_ok | apply poll_ok ].
Qed.

Lemma run_events_ok es : Forall event_ok es -> total_keeps (run_events es).
Proof.
  induction 1 as [|e es He _ IH]; intros s Hs; [by exists s|]. cbn [run_events].
  destruct (run_event_ok e He s Hs) as (s1 & E1 & H1). unfold bind. rewrite E1. by apply IH.
Qed.

(** ** The receive buffer of a TCP socket *)

(** Bytes received and not read yet. *)
Definition pending (t : Tcp.TcpSocket) : list Z := take (Tcp.recv_len t) (Tcp.recv_buf t).

(** Whatever segment comes in whatever state, the bytes not read yet stay, and
    what is added is the start of the payload, as much as the buffer holds. *)
Lemma segment_appends pkt src t r t' :
  tcp_ok t -> Tcp.handle_segment pkt src t = Ok (r, t') ->
  pending t' = pending t ++
    (if bool_decide (Tcp.state t = Tcp.Established) && negb (TcpSeg.rst pkt) && negb (TcpSeg.fin pkt)
     then take (TcpSeg.MAX_TCP_PAYLOAD - Tcp.recv_len t) (TcpSeg.payload pkt) else []).
Proof.
  intros [_ _ _ _ _ [Hb _] Hl]. unfold Tcp.handle_segment. cbv zeta. destruct (TcpSeg.rst pkt).
  { intros [= <- <-]. by rewrite andb_false_r, app_nil_r. }
  cbn [negb]. rewrite andb_true_r. cbn [Tcp.state Tcp.set_last].
  destruct (Tcp.state t);
    try (rewrite bool_decide_eq_false_2 by done; cbn [andb]; unfold Tcp.on_listen, Tcp.on_syn_sent, Tcp.on_fin_wait1, Tcp.take_fin; repeat case_split; intros [= <- <-]; by rewrite app_nil_r).
  rewrite bool_decide_eq_true_2 by done. cbn [andb].
  unfold Tcp.on_established. destruct (TcpSeg.fin pkt); cbn [negb]; [intros [= <- <-]; by rewrite app_nil_r|].
  case_bool_decide as Hp; cbn [negb].
  { intros [= <- <-]. by rewrite Hp, take_nil, app_nil_r. }
  cbn [Tcp.recv_len Tcp.set_last Tcp.recv_buf]. rewrite (proj2 (Nat.ltb_ge _ _)) by lia.
  unfold write_at. rewrite length_take. rewrite (proj2 (Nat.leb_le _ _)) by lia. cbn [rbind]. intros [= <- <-].
  unfold pending. cbn [Tcp.recv_len Tcp.recv_buf Tcp.set_ack Tcp.set_buf Tcp.set_last].
  rewrite app_assoc, take_app_length' by (rewrite length_app, !length_take; lia). f_equal.
  destruct (Nat.le_ge_cases (length (TcpSeg.payload pkt)) (TcpSeg.MAX_TCP_PAYLOAD - Tcp.recv_len t)).
  - rewrite Nat.min_l, !take_ge by lia. done.
  - by rewrite Nat.min_r by lia.
Qed.
