(* ===== verification/NetFlow.v ===== *)
(** * The network stack at work

    The ARP cache as a map, what a transmitted frame carries and what
    receiving it does, and from these the TCP handshake and the delivery of
    data between two stacks. *)

From S2P Require Import Prelude Packets PacketsSpec Sockets NetStack NetSpec.

(** ** The ARP cache is a bounded map *)

(** The cache holds the address or has a free entry. *)
Definition has_room (a : list Z) (c : ArpCache.t) : Prop :=
  (exists i, (i < ArpCache.MAX_ARP_ENTRIES)%nat /\ ArpCache.holds c a i = true) \/
  (exists i, ArpCache.valid c !! i = Some false).

Lemma holds_inv c a i : ArpCache.holds c a i = true -> ArpCache.valid c !! i = Some true /\ ArpCache.ips c !! i = Some a.
Proof.
  unfold ArpCache.holds. destruct (_ !! i) as [v|]; [|done]. destruct (ArpCache.ips c !! i) as [x|]; [|done].
  intros H. zbool. subst v. match goal with H : bytes_eqb _ _ = true |- _ => apply bytes_eqb_true in H as -> end. done.
Qed.

Lemma holds_new i a m c a' j :
  cache_ok c -> (i < ArpCache.MAX_ARP_ENTRIES)%nat ->
  ArpCache.holds (ArpCache.mkCache (<[i := a]> (ArpCache.ips c)) (<[i := m]> (ArpCache.macs c))
                                   (<[i := true]> (ArpCache.valid c))) a' j =
  if decide (j = i) then bytes_eqb a a' else ArpCache.holds c a' j.
Proof.
  intros [[Hi _] _ Hv] Hlt. unfold ArpCache.holds. cbn [ArpCache.ips ArpCache.valid]. case_decide as E.
  - subst j. by rewrite !list_lookup_insert_eq by lia.
  - by rewrite !list_lookup_insert_ne by done.
Qed.

Lemma holds_macs c ms a j :
  ArpCache.holds (ArpCache.mkCache (ArpCache.ips c) ms (ArpCache.valid c)) a j = ArpCache.holds c a j.
Proof. reflexivity. Qed.

Lemma find_from_at {A} (f : nat -> option A) n i a :
  (i < n)%nat -> f i = Some a -> (forall j, (j < i)%nat -> f j = None) -> find_from f 0 n = Some a.
Proof. intros Hi Hf Hj. apply find_from_some. exists i. split; [lia|]. split; [done|]. intros j H. apply Hj. lia. Qed.

Lemma arp_insert_lookup a m c a' :
  cache_ok c -> has_room a c ->
  ArpCache.lookup_arp a' (ArpCache.insert_arp a m c) =
  if bytes_eqb a a' then Some m else ArpCache.lookup_arp a' c.
Proof.
  intros Hc Hroom. pose proof Hc as [[Hi1 _] [Hm1 _] Hv]. unfold ArpCache.insert_arp.
  destruct (find_from _ 0 _) as [i|] eqn:E1.
  - apply find_from_some in E1 as (k & Hk & Ek & Hj). cbn beta in Ek. destruct (ArpCache.holds c a k) eqn:Hh; [|done]. injection Ek as ->.
    destruct (bytes_eqb a a') eqn:Ea.
    + apply bytes_eqb_true in Ea as <-. unfold ArpCache.lookup_arp. apply (find_from_at _ _ i); [lia| |].
      * rewrite holds_macs, Hh. cbn [ArpCache.macs]. apply list_lookup_insert_eq. lia.
      * intros j Hlt. specialize (Hj j ltac:(lia)). cbn beta in Hj. rewrite holds_macs. by destruct (ArpCache.holds c a j).
    + unfold ArpCache.lookup_arp. apply find_from_ext. intros j. rewrite holds_macs. cbn [ArpCache.macs].
      destruct (ArpCache.holds c a' j) eqn:Hj'; [|done].
      apply list_lookup_insert_ne. intros ->. apply holds_inv in Hh as [_ Hh], Hj' as [_ Hj']. rewrite Hh in Hj'.
      injection Hj' as ->. by rewrite (proj2 (bytes_eqb_true a' a') eq_refl) in Ea.
  - assert (forall j, (j < ArpCache.MAX_ARP_ENTRIES)%nat -> ArpCache.holds c a j = false) as Hnone.
    { intros j Hj. pose proof (proj1 (find_from_none _ _ _) E1 j ltac:(lia)) as H. cbn beta in H. by destruct (ArpCache.holds c a j). }
    clear E1. destruct (find_from _ 0 _) as [i|] eqn:E2.
    + apply find_from_some in E2 as (k & Hk & Ek & _). cbn beta in Ek. case_bool_decide as Hf; [|done]. injection Ek as ->.
      unfold ArpCache.lookup_arp. destruct (bytes_eqb a a') eqn:Ea.
      * apply bytes_eqb_true in Ea as <-. apply (find_from_at _ _ i); [lia| |].
        { rewrite holds_new by (done || lia). rewrite decide_True by done. rewrite (proj2 (bytes_eqb_true a a) eq_refl).
          cbn [ArpCache.macs]. apply list_lookup_insert_eq. lia. }
        intros j Hlt. rewrite holds_new by (done || lia). rewrite decide_False by lia. by rewrite Hnone by lia.
      * apply find_from_ext. intros j. rewrite holds_new by (done || lia). cbn [ArpCache.macs]. case_decide as Ej.
        { subst j. rewrite Ea. unfold ArpCache.holds. rewrite Hf. by destruct (ArpCache.ips c !! i). }
        destruct (ArpCache.holds c a' j); [|done]. by apply list_lookup_insert_ne.
    + exfalso. destruct Hroom as [(i & Hi & Hh)|(i & Hf)]; [by rewrite Hnone in Hh|].
      pose proof (lookup_lt_Some _ _ _ Hf) as Hlt. rewrite Hv in Hlt.
      pose proof (proj1 (find_from_none _ _ _) E2 i ltac:(lia)) as H. cbn beta in H. by rewrite bool_decide_eq_true_2 in H.
Qed.

Lemma arp_insert_full a m c :
  ~ has_room a c -> cache_ok c -> ArpCache.insert_arp a m c = c.
Proof.
  intros Hn [_ _ Hv]. unfold ArpCache.insert_arp. destruct (find_from _ 0 _) as [i|] eqn:E1.
  { destruct Hn. left. apply find_from_some in E1 as (k & Hk & Ek & _). cbn beta in Ek. destruct (ArpCache.holds c a k) eqn:Hh; [|done].
    exists k. split; [lia|done]. }
  clear E1. destruct (find_from _ 0 _) as [i|] eqn:E2; [|done]. destruct Hn. right.
  apply find_from_some in E2 as (k & _ & Ek & _). cbn beta in Ek. case_bool_decide; [|done]. eauto.
Qed.

(** ** Frames on the wire *)

(** The state after a frame was handed to the card. *)
Definition transmit (f : list Z) (s : NetSt) : NetSt :=
  mkNetSt (set_net (mkNet (rx (net (stack s))) (tx (net (stack s)) ++ [f])) (stack s)) (said s).

(** [f] is an Ethernet frame from [sm] to [dm] around an IPv4 packet [p]. *)
Definition ip_frame (f dm sm : list Z) (p : Ip.Ipv4Packet) : Prop :=
  exists b, Eth.parse_eth f = Ok (Eth.mkEth dm sm Eth.ETH_TYPE_IPV4 b) /\ Ip.parse_ip b = Ok p.

(** The packet's header checksum and that of its TCP segment verify. *)
Definition tcp_frame (f dm sm sip dip : list Z) (seg : TcpSeg.TcpPacket) : Prop :=
  exists p, ip_frame f dm sm p /\ Ip.src p = sip /\ Ip.dst p = dip /\ Ip.protocol p = Ip.IP_PROTO_TCP /\
    TcpSeg.parse_tcp (Ip.payload p) = Ok seg.

Section sending.
Context (s : NetSt) (Hs : net_ok (stack s)).

Lemma send_ip_run d m b :
  d <> IP_BROADCAST -> ArpCache.lookup_arp d (arp (stack s)) = Some m -> (length b <= 1500)%nat ->
  send_ip d b s = (Ok tt, transmit (eth_wire m (mac (stack s)) Eth.ETH_TYPE_IPV4 b) s).
Proof.
  intros Hd Hm Hl. unfold send_ip. destruct (bytes_eqb _ _) eqn:E; [apply bytes_eqb_true in E; done|].
  unfold bind at 1, the at 1, gets at 1. rewrite Hm. apply send_eth_run; [|apply Hs|done].
  eapply lookup_arp_mac; [|exact Hm]. apply Hs.
Qed.

Lemma send_tcp_seg_run lp rp rip sq ak fl pl m :
  is_u16 lp -> is_u16 rp -> ip_ok rip -> is_u32 sq -> is_u32 ak -> is_u8 fl -> Forall is_u8 pl ->
  (length pl <= TcpSeg.MAX_TCP_PAYLOAD)%nat -> rip <> IP_BROADCAST -> ArpCache.lookup_arp rip (arp (stack s)) = Some m ->
  exists f, send_tcp_seg lp rp rip sq ak fl pl s = (Ok tt, transmit f s) /\
    tcp_frame f m (mac (stack s)) (ip (stack s)) rip (TcpSeg.mkSeg lp rp sq ak fl pl).
Proof.
  intros Hlp Hrp Hrip Hsq Hak Hfl Hpl Hl Hb Hm. unfold TcpSeg.MAX_TCP_PAYLOAD in Hl.
  assert (mac_ok m) as Hmok by (eapply lookup_arp_mac; [|exact Hm]; apply Hs).
  pose proof (no_ip _ Hs) as Hip.
  destruct (make_tcp_packet_ok lp rp sq ak fl 65535 pl (ip (stack s)) rip Hfl Hpl Hip Hrip ltac:(lia)) as (c & _ & E & _).
  pose proof (seg_length lp rp sq ak fl 65535 pl c) as Hsl.
  pose proof (parse_tcp_segment lp rp sq ak fl 65535 pl Hlp Hrp Hsq Hak c) as Hparse.
  set (w := seg lp rp sq ak fl 65535 pl c) in *. clearbody w.
  destruct (ip_datagram_wire (ip (stack s)) rip Ip.IP_PROTO_TCP w Hip Hrip ltac:(split; [discriminate|reflexivity]) ltac:(lia))
    as (p & c' & Hf & Ed & E1 & E2 & E3 & E4).
  eexists. split.
  - unfold send_tcp_seg. unfold bind at 1, the at 1, gets at 1. unfold bind at 1, lift at 1. rewrite E.
    unfold bind at 1, lift at 1. rewrite Ed. apply send_ip_run; [done|exact Hm|].
    rewrite length_app, ip_header_length; [lia|done|by rewrite to_be_length].
  - exists p. split; [|rewrite E4; done]. eexists. split.
    + unfold eth_wire. apply parse_eth_frame; [done|apply Hs|split; [discriminate|reflexivity]].
    + rewrite <- E4. by apply parse_ip_bytes.
Qed.
End sending.

(** Receiving a unicast TCP frame for this stack: the sender is learned, the
    segment reaches [handle_tcp]. *)
Definition learn (a m : list Z) (s : NetSt) : NetSt :=
  mkNetSt (set_arp (ArpCache.insert_arp a m (arp (stack s))) (stack s)) (said s).

Lemma receive_tcp f sm sip dip seg s :
  tcp_frame f (mac (stack s)) sm sip dip seg -> mac (stack s) <> Eth.BROADCAST ->
  handle_eth f s = handle_tcp sip seg (learn sip sm s).
Proof.
  intros (p & (b & Ee & Ei) & Es & _ & Ep & Et) Hb. unfold handle_eth. rewrite Ee. cbn [when].
  unfold bind at 1, the at 1, gets at 1. unfold Eth.is_for_me, Eth.is_broadcast. cbn [Eth.dst Eth.ethertype Eth.payload Eth.src].
  rewrite (proj2 (bytes_eqb_true _ _) eq_refl). cbn [negb andb].
  destruct (bytes_eqb (mac (stack s)) Eth.BROADCAST) eqn:E; [apply bytes_eqb_true in E; done|].
  change (Eth.ETH_TYPE_IPV4 =? Eth.ETH_TYPE_ARP) with false. change (Eth.ETH_TYPE_IPV4 =? Eth.ETH_TYPE_IPV4) with true.
  rewrite Ei. cbn [when negb]. unfold bind at 1, on_stack at 1, modify at 1. unfold handle_ip. rewrite Ep, Es.
  change (Ip.IP_PROTO_TCP =? Ip.IP_PROTO_ICMP) with false. change (Ip.IP_PROTO_TCP =? Ip.IP_PROTO_TCP) with true.
  rewrite Et. reflexivity.
Qed.

(** ** Sockets in the table *)

Definition with_tcp (i : nat) (t : Tcp.TcpSocket) (s : NetSt) : NetSt :=
  mkNetSt (set_tcp (<[i := Some t]> (tcp_sockets (stack s))) (stack s)) (said s).

Definition socket (s : NetSt) (i : nat) : option Tcp.TcpSocket := mjoin (tcp_sockets (stack s) !! i).

Definition send_reply (t : Tcp.TcpSocket) (r : option Tcp.TcpReply) : N unit :=
  match r with
  | Some r => send_tcp_seg (Tcp.local_port t) (Tcp.remote_port t) (Tcp.remote_ip t)
                (Tcp.r_seq r) (Tcp.r_ack r) (Tcp.r_flags r) []
  | None => ret tt
  end.

Lemma handle_tcp_run sip seg s i t r t' :
  find_tcp_socket (TcpSeg.dst_port seg) (TcpSeg.src_port seg) (tcp_sockets (stack s)) = Some i ->
  tcp_sockets (stack s) !! i = Some (Some t) -> Tcp.handle_segment seg sip t = Ok (r, t') ->
  handle_tcp sip seg s = send_reply t' r (with_tcp i t' s).
Proof.
  intros Hf Hi Hh. unfold handle_tcp. unfold bind at 1, the at 1, gets at 1. rewrite Hf.
  unfold bind at 1, lift at 1. rewrite Hi. cbn [mjoin option_join or_panic]. unfold bind at 1, lift at 1. rewrite Hh.
  unfold bind at 1, put_tcp at 1, on_stack at 1, modify at 1. by destruct r.
Qed.

Section keep.
Context (s : NetSt) (Hs : net_ok (stack s)).
Lemma with_tcp_ok i t : tcp_ok t -> net_ok (stack (with_tcp i t s)).
Proof. intros Ht. apply net_ok_tcp; [done|]. apply all_some_insert; [apply Hs|done]. Qed.
Lemma learn_ok a m : ip_ok a -> mac_ok m -> net_ok (stack (learn a m s)).
Proof. intros Ha Hm. apply net_ok_arp; [done|]. by apply cache_ok_insert; [apply Hs|..]. Qed.
Lemma transmit_ok f : frame_ok f -> net_ok (stack (transmit f s)).
Proof.
  intros Hf. apply net_ok_net; [done|apply Hs|]. cbn [tx]. apply Forall_app. split; [apply Hs|].
  apply Forall_cons_2; [done|apply Forall_nil_2].
Qed.

(** The state after [send_tcp_seg] is again well formed. *)
Lemma transmit_seg_ok lp rp rip sq ak fl pl f :
  is_u16 lp -> is_u16 rp -> ip_ok rip -> is_u32 sq -> is_u32 ak -> is_u8 fl -> Forall is_u8 pl ->
  (length pl <= TcpSeg.MAX_TCP_PAYLOAD)%nat ->
  send_tcp_seg lp rp rip sq ak fl pl s = (Ok tt, transmit f s) -> net_ok (stack (transmit f s)).
Proof.
  intros ? ? ? ? ? ? ? ? E. pose proof (send_tcp_seg_ok lp rp rip sq ak fl pl) as H'.
  specialize (H' ltac:(done) ltac:(done) ltac:(done) ltac:(done) ltac:(done) ltac:(done) ltac:(done) ltac:(done) s Hs).
  rewrite E in H'. by destruct H'.
Qed.
End keep.

Lemma lookup_has_room a c m : ArpCache.lookup_arp a c = Some m -> has_room a c.
Proof.
  intros (i & Hi & E & _)%find_from_some. cbn beta in E. destruct (ArpCache.holds c a i) eqn:Hh; [|done].
  left. exists i. split; [lia|done].
Qed.

Lemma arp_insert_same a m c : cache_ok c -> has_room a c -> ArpCache.lookup_arp a (ArpCache.insert_arp a m c) = Some m.
Proof. intros Hc Hr. rewrite arp_insert_lookup by done. by rewrite (proj2 (bytes_eqb_true a a) eq_refl). Qed.

(** A socket inserted with a local port nobody had, or in the place of a
    listener, is the one its peer's segments reach. *)
Lemma position_insert {A} (p : A -> bool) l i x :
  (i < length l)%nat -> p x = true -> (forall j y, (j < i)%nat -> l !! j = Some y -> p y = false) ->
  position p (<[i := x]> l) = Some i.
Proof.
  intros Hi Hx Hb. apply position_some. split; [exists x; split; [by apply list_lookup_insert_eq|done]|].
  intros j y Hj Hy. rewrite list_lookup_insert_ne in Hy by lia. by eapply Hb.
Qed.

Lemma find_inserted lp rp socks i t :
  (i < length socks)%nat -> Tcp.local_port t = lp -> Tcp.remote_port t = rp ->
  (forall j u, socks !! j = Some (Some u) -> j <> i -> tcp_match lp rp (Some u) = false) ->
  find_tcp_socket lp rp (<[i := Some t]> socks) = Some i.
Proof.
  intros Hi Hl Hr Hb. unfold find_tcp_socket. rewrite (position_insert _ _ i); [done|done| |].
  - cbn. by rewrite Hl, Hr, !Z.eqb_refl.
  - intros j [u|] Hj Hy; [|done]. apply (Hb j u Hy). lia.
Qed.

(** Replacing a socket by one with the same ports and state changes no
    search. *)
Lemma position_insert_same {A} (p : A -> bool) l i x y :
  l !! i = Some x -> p y = p x -> position p (<[i := y]> l) = position p l.
Proof.
  revert i. induction l as [|z l IH]; intros [|i] Hi Hp; try done.
  - injection Hi as ->. cbn. by rewrite Hp.
  - change (<[S i := y]> (z :: l)) with (z :: <[i := y]> l). cbn [position].
    destruct (p z); [done|]. by rewrite (IH i Hi Hp).
Qed.

Lemma find_same_ports lp rp socks i t u :
  socks !! i = Some (Some t) -> Tcp.local_port u = Tcp.local_port t -> Tcp.remote_port u = Tcp.remote_port t ->
  Tcp.state u = Tcp.state t -> find_tcp_socket lp rp (<[i := Some u]> socks) = find_tcp_socket lp rp socks.
Proof.
  intros Hi Hl Hr Hs. unfold find_tcp_socket.
  rewrite !(position_insert_same _ _ _ (Some t)); [done|done| |done|]; cbn; by rewrite ?Hl, ?Hr, ?Hs.
Qed.

(** ** Opening a connection *)

Record can_connect (A B : NetSt) (port : Z) (i j : nat) (q : Z) : Prop := {
  cc_A : net_ok (stack A);
  cc_B : net_ok (stack B);
  cc_macA : mac (stack A) <> Eth.BROADCAST;
  cc_macB : mac (stack B) <> Eth.BROADCAST;
  cc_ipA : ip (stack A) <> IP_BROADCAST;
  cc_ipB : ip (stack B) <> IP_BROADCAST;
  cc_arp : ArpCache.lookup_arp (ip (stack B)) (arp (stack A)) = Some (mac (stack B));
  cc_room : has_room (ip (stack A)) (arp (stack B));
  cc_free : position is_free (tcp_sockets (stack A)) = Some i;
  cc_port : alloc_ephemeral_port (tcp_sockets (stack A)) = Ok q;
  cc_listen : tcp_sockets (stack B) !! j = Some (Some (Tcp.listen port));
  cc_exact : position (tcp_match port q) (tcp_sockets (stack B)) = None;
  cc_first : position (tcp_listening port) (tcp_sockets (stack B)) = Some j
}.

(** Two sockets that are the ends of one connection, nothing in flight. *)
Record connected (A B : NetSt) (i j : nat) (a b : Tcp.TcpSocket) : Prop := {
  co_a : tcp_sockets (stack A) !! i = Some (Some a);
  co_b : tcp_sockets (stack B) !! j = Some (Some b);
  co_states : Tcp.state a = Tcp.Established /\ Tcp.state b = Tcp.Established;
  co_ports : Tcp.remote_port a = Tcp.local_port b /\ Tcp.remote_port b = Tcp.local_port a;
  co_ips : Tcp.remote_ip a = ip (stack B) /\ Tcp.remote_ip b = ip (stack A);
  co_seqs : Tcp.seq a = Tcp.ack b /\ Tcp.seq b = Tcp.ack a;
  co_find_a : find_tcp_socket (Tcp.local_port a) (Tcp.remote_port a) (tcp_sockets (stack A)) = Some i;
  co_find_b : find_tcp_socket (Tcp.local_port b) (Tcp.remote_port b) (tcp_sockets (stack B)) = Some j;
  co_arp_a : ArpCache.lookup_arp (ip (stack B)) (arp (stack A)) = Some (mac (stack B));
  co_arp_b : ArpCache.lookup_arp (ip (stack A)) (arp (stack B)) = Some (mac (stack A))
}.

(** The sockets of the handshake, by step. *)
Definition zeros : list Z := replicate TcpSeg.MAX_TCP_PAYLOAD 0.
Definition client0 ipB port q : Tcp.TcpSocket := Tcp.mkTcp q port ipB Tcp.SynSent 1000 0 0 0 zeros 0.
Definition server1 ipA port q : Tcp.TcpSocket := Tcp.mkTcp port q ipA Tcp.SynRecv 1 1001 1000 0 zeros 0.
Definition client2 ipB port q : Tcp.TcpSocket := Tcp.mkTcp q port ipB Tcp.Established 1001 2 1 1001 zeros 0.
Definition server3 ipA port q : Tcp.TcpSocket := Tcp.mkTcp port q ipA Tcp.Established 2 1001 1001 2 zeros 0.

Lemma zeros_buf : length zeros = TcpSeg.MAX_TCP_PAYLOAD /\ Forall is_u8 zeros.
Proof. split; [apply length_replicate|apply zeros_u8]. Qed.

Ltac small := split; [discriminate|reflexivity].

Section handshake.
Context (A B : NetSt) (port q : Z) (i j : nat) (H : can_connect A B port i j q).

Let ipA := ip (stack A).
Let ipB := ip (stack B).
Let macA := mac (stack A).
Let macB := mac (stack B).

Lemma hs_ips : ip_ok ipA /\ ip_ok ipB /\ mac_ok macA /\ mac_ok macB.
Proof. destruct H. split_and!; [by apply no_ip|by apply no_ip|by apply no_mac|by apply no_mac]. Qed.

Lemma hs_ports : is_u16 port /\ is_u16 q /\ ~ taken (tcp_sockets (stack A)) q.
Proof.
  destruct H. destruct (alloc_ephemeral_port_ok _ (proj1 (no_tcp _ cc_A0))) as (p & E & Hp & Ht).
  rewrite cc_port0 in E. injection E as <-. pose proof (all_some_lookup _ _ _ _ (no_tcp _ cc_B0) cc_listen0) as [Hl _ _ _ _ _ _].
  split; [exact Hl|]. split; [unfold is_u16; lia|done].
Qed.

Lemma hs_slot : (i < length (tcp_sockets (stack A)))%nat /\ (j < length (tcp_sockets (stack B)))%nat.
Proof.
  destruct H. split; [|by eapply lookup_lt_Some]. destruct (position_lookup _ _ _ cc_free0) as (x & Hx & _). by eapply lookup_lt_Some.
Qed.

Lemma client_ok0 : tcp_ok (client0 ipB port q).
Proof. destruct hs_ips as (_ & ? & _), hs_ports as (? & ? & _). split; cbn; try done; try small; [apply zeros_buf|lia]. Qed.
Lemma server_ok1 : tcp_ok (server1 ipA port q).
Proof. destruct hs_ips as (? & _), hs_ports as (? & ? & _). split; cbn; try done; try small; [apply zeros_buf|lia]. Qed.
Lemma client_ok2 : tcp_ok (client2 ipB port q).
Proof. destruct hs_ips as (_ & ? & _), hs_ports as (? & ? & _). split; cbn; try done; try small; [apply zeros_buf|lia]. Qed.

(** The client's socket is the only one of [A] with its port. *)
Lemma hs_find_a t : Tcp.local_port t = q -> Tcp.remote_port t = port ->
  find_tcp_socket q port (<[i := Some t]> (tcp_sockets (stack A))) = Some i.
Proof.
  intros Hl Hr. apply find_inserted; [apply hs_slot|done|done|]. intros k u Hk _. destruct hs_ports as (_ & _ & Ht).
  cbn. destruct (Tcp.local_port u =? q) eqn:E; [|done]. exfalso. apply Ht. unfold taken. apply existsb_exists.
  exists (Some u). split; [by apply list_elem_of_In, list_elem_of_lookup_2 with k|exact E].
Qed.

Lemma hs_find_b t : Tcp.local_port t = port -> Tcp.remote_port t = q ->
  find_tcp_socket port q (<[j := Some t]> (tcp_sockets (stack B))) = Some j.
Proof.
  intros Hl Hr. apply find_inserted; [apply hs_slot|done|done|]. intros k u Hk _.
  exact (proj1 (position_none _ _) (cc_exact _ _ _ _ _ _ H) k (Some u) Hk).
Qed.

(** Step 1: the client's SYN. *)
Lemma hs_connect : exists f1,
  let A1 := transmit f1 (with_tcp i (client0 ipB port q) A) in
  tcp_connect ipB port A = (Ok (Some i), A1) /\ net_ok (stack A1) /\
  tcp_frame f1 macB macA ipA ipB (TcpSeg.mkSeg q port 1000 0 TcpSeg.TCP_SYN []).
Proof.
  destruct hs_ips as (Ha & Hb & Hma & Hmb), hs_ports as (Hp & Hq & _). pose proof H as [].
  pose proof (with_tcp_ok A cc_A0 i _ client_ok0) as Hok.
  destruct (send_tcp_seg_run (with_tcp i (client0 ipB port q) A) Hok q port ipB 1000 0 TcpSeg.TCP_SYN [] macB)
    as (f & E & Hf); try done; try small; [cbn; lia|].
  exists f. cbv zeta. split; [|split; [|exact Hf]].
  - unfold tcp_connect. unfold bind at 1, the at 1, gets at 1. unfold bind at 1, lift at 1. rewrite cc_port0, cc_free0.
    cbv zeta. unfold bind at 1, put_tcp at 1, on_stack at 1, modify at 1. unfold bind at 1, the at 1, gets at 1.
    change (ArpCache.lookup_arp ipB (arp (stack A)) = Some macB) in cc_arp0. cbn [stack set_tcp arp].
    change (Tcp.set_remote ipB port (Tcp.connect q)) with (client0 ipB port q).
    fold (with_tcp i (client0 ipB port q) A). rewrite cc_arp0. change (Tcp.seq (client0 ipB port q)) with 1000.
    unfold bind. by rewrite E.
  - by eapply transmit_seg_ok in E; try done; try small; cbn; lia.
Qed.

(** Step 2: the listener answers SYN|ACK. *)
Lemma hs_syn f1 :
  tcp_frame f1 macB macA ipA ipB (TcpSeg.mkSeg q port 1000 0 TcpSeg.TCP_SYN []) ->
  exists f2, let B1 := transmit f2 (with_tcp j (server1 ipA port q) (learn ipA macA B)) in
  handle_eth f1 B = (Ok tt, B1) /\ net_ok (stack B1) /\
  tcp_frame f2 macA macB ipB ipA (TcpSeg.mkSeg port q 1 1001 (Z.lor TcpSeg.TCP_SYN TcpSeg.TCP_ACK) []).
Proof.
  intros Hf1. destruct hs_ips as (Ha & Hb & Hma & Hmb), hs_ports as (Hp & Hq & _). pose proof H as [].
  pose proof (learn_ok B cc_B0 ipA macA Ha Hma) as Hl. pose proof (with_tcp_ok _ Hl j _ server_ok1) as Hok.
  destruct (send_tcp_seg_run (with_tcp j (server1 ipA port q) (learn ipA macA B)) Hok port q ipA 1 1001
    (Z.lor TcpSeg.TCP_SYN TcpSeg.TCP_ACK) [] macA) as (f & E & Hf); try done; try small; [cbn; lia| |].
  { cbn. by apply arp_insert_same; [apply no_arp|]. }
  exists f. cbv zeta. split; [|split; [|exact Hf]].
  - rewrite (receive_tcp f1 macA ipA ipB _ B Hf1 cc_macB0).
    rewrite (handle_tcp_run ipA _ (learn ipA macA B) j (Tcp.listen port)
      (Some (Tcp.mkReply (Z.lor TcpSeg.TCP_SYN TcpSeg.TCP_ACK) 1 1001)) (server1 ipA port q)); [exact E| |exact cc_listen0|reflexivity].
    cbn. unfold find_tcp_socket. by rewrite cc_exact0, cc_first0.
  - by eapply transmit_seg_ok in E; try done; try small; cbn; lia.
Qed.

(** Step 3: the client is established and acknowledges. *)
Lemma hs_synack f1 f2 :
  let A1 := transmit f1 (with_tcp i (client0 ipB port q) A) in
  net_ok (stack A1) -> tcp_frame f2 macA macB ipB ipA (TcpSeg.mkSeg port q 1 1001 (Z.lor TcpSeg.TCP_SYN TcpSeg.TCP_ACK) []) ->
  exists f3, let A2 := transmit f3 (with_tcp i (client2 ipB port q) (learn ipB macB A1)) in
  handle_eth f2 A1 = (Ok tt, A2) /\ net_ok (stack A2) /\
  tcp_frame f3 macB macA ipA ipB (TcpSeg.mkSeg q port 1001 2 TcpSeg.TCP_ACK []).
Proof.
  intros A1 HA1 Hf2. destruct hs_ips as (Ha & Hb & Hma & Hmb), hs_ports as (Hp & Hq & _). pose proof H as [].
  pose proof (learn_ok A1 HA1 ipB macB Hb Hmb) as Hl. pose proof (with_tcp_ok _ Hl i _ client_ok2) as Hok.
  destruct (send_tcp_seg_run (with_tcp i (client2 ipB port q) (learn ipB macB A1)) Hok q port ipB 1001 2
    TcpSeg.TCP_ACK [] macB) as (f & E & Hf); try done; try small; [cbn; lia| |].
  { cbn. apply arp_insert_same; [by apply no_arp|]. by eapply lookup_has_room. }
  exists f. cbv zeta. split; [|split; [|exact Hf]].
  - rewrite (receive_tcp f2 macB ipB ipA _ A1 Hf2 cc_macA0).
    rewrite (handle_tcp_run ipB _ (learn ipB macB A1) i (client0 ipB port q)
      (Some (Tcp.mkReply TcpSeg.TCP_ACK 1001 2)) (client2 ipB port q)); [exact E| | |reflexivity].
    + by apply hs_find_a.
    + cbn. apply list_lookup_insert_eq, hs_slot.
  - by eapply transmit_seg_ok in E; try done; try small; cbn; lia.
Qed.

(** Step 4: the server is established. *)
Lemma hs_ack f2 f3 :
  let B1 := transmit f2 (with_tcp j (server1 ipA port q) (learn ipA macA B)) in
  net_ok (stack B1) -> tcp_frame f3 macB macA ipA ipB (TcpSeg.mkSeg q port 1001 2 TcpSeg.TCP_ACK []) ->
  handle_eth f3 B1 = (Ok tt, with_tcp j (server3 ipA port q) (learn ipA macA B1)).
Proof.
  intros B1 HB1 Hf3. pose proof H as [].
  rewrite (receive_tcp f3 macA ipA ipB _ B1 Hf3 cc_macB0).
  rewrite (handle_tcp_run ipA _ (learn ipA macA B1) j (server1 ipA port q) None (server3 ipA port q)); [done| | |reflexivity].
  - by apply hs_find_b.
  - cbn. apply list_lookup_insert_eq, hs_slot.
Qed.

Lemma hs_done : exists f1 f2 f3 A1 A2 B1 B2,
  tcp_connect ipB port A = (Ok (Some i), A1) /\ tx (net (stack A1)) = tx (net (stack A)) ++ [f1] /\
  handle_eth f1 B = (Ok tt, B1) /\ tx (net (stack B1)) = tx (net (stack B)) ++ [f2] /\
  handle_eth f2 A1 = (Ok tt, A2) /\ tx (net (stack A2)) = tx (net (stack A1)) ++ [f3] /\
  handle_eth f3 B1 = (Ok tt, B2) /\ tx (net (stack B2)) = tx (net (stack B1)) /\
  net_ok (stack A2) /\ net_ok (stack B2) /\
  exists a b, connected A2 B2 i j a b /\ Tcp.local_port b = port /\ Tcp.recv_len a = 0%nat /\ Tcp.recv_len b = 0%nat.
Proof.
  destruct hs_connect as (f1 & E1 & HA1 & F1). destruct (hs_syn f1 F1) as (f2 & E2 & HB1 & F2).
  destruct (hs_synack f1 f2 HA1 F2) as (f3 & E3 & HA2 & F3). pose proof (hs_ack f2 f3 HB1 F3) as E4. cbv zeta in *.
  exists f1, f2, f3. do 4 eexists. split; [exact E1|]. split; [reflexivity|]. split; [exact E2|]. split; [reflexivity|].
  split; [exact E3|]. split; [reflexivity|]. split; [exact E4|]. split; [reflexivity|]. split; [exact HA2|].
  destruct hs_ips as (Ha & Hb & Hma & Hmb), hs_ports as (Hp & Hq & _), hs_slot as [Hi Hj]. pose proof H as [].
  split. { apply with_tcp_ok; [by apply learn_ok|]. split; cbn; try done; try small; [apply zeros_buf|lia]. }
  exists (client2 ipB port q), (server3 ipA port q). split; [|done].
  pose proof (no_arp _ cc_B0) as HcB. pose proof (no_arp _ cc_A0) as HcA.
  split; cbn; rewrite ?list_insert_insert_eq; try done.
  - apply list_lookup_insert_eq. by rewrite ?length_insert.
  - apply list_lookup_insert_eq. by rewrite ?length_insert.
  - by apply hs_find_a.
  - by apply hs_find_b.
  - apply arp_insert_same; [done|]. by eapply lookup_has_room.
  - apply arp_insert_same; [by apply cache_ok_insert|]. eapply lookup_has_room. by apply arp_insert_same.
Qed.
End handshake.

(** ** Data on a connection *)

(** The start of a payload that the receive buffer has room for. *)
Definition kept (pl : list Z) (t : Tcp.TcpSocket) : list Z := take (TcpSeg.MAX_TCP_PAYLOAD - Tcp.recv_len t) pl.

Lemma kept_all pl t : (Tcp.recv_len t + length pl <= TcpSeg.MAX_TCP_PAYLOAD)%nat -> kept pl t = pl.
Proof. intros Hf. apply take_ge. lia. Qed.
Lemma kept_u8 pl t : Forall is_u8 pl -> Forall is_u8 (kept pl t).
Proof. apply Forall_take. Qed.
Lemma kept_fits pl t : (Tcp.recv_len t <= TcpSeg.MAX_TCP_PAYLOAD)%nat -> (Tcp.recv_len t + length (kept pl t) <= TcpSeg.MAX_TCP_PAYLOAD)%nat.
Proof. intros Ht. unfold kept. rewrite length_take. lia. Qed.
Lemma kept_some pl t : pl <> [] -> (Tcp.recv_len t + length (kept pl t))%nat <> 0%nat.
Proof. intros Hp. unfold kept. rewrite length_take. destruct pl; [done|]. cbn [length]. unfold TcpSeg.MAX_TCP_PAYLOAD. lia. Qed.

(** What a data segment does to an established socket: it keeps what fits and
    acknowledges all of it. *)
Definition got (sq ak : Z) (pl : list Z) (t : Tcp.TcpSocket) : Tcp.TcpSocket :=
  Tcp.mkTcp (Tcp.local_port t) (Tcp.remote_port t) (Tcp.remote_ip t) (Tcp.state t) (Tcp.seq t)
    (as_u32 (sq + as_u32 (Z.of_nat (length pl)))) sq ak
    (take (Tcp.recv_len t) (Tcp.recv_buf t) ++ kept pl t ++ drop (Tcp.recv_len t + length (kept pl t)) (Tcp.recv_buf t))
    (Tcp.recv_len t + length (kept pl t)).

Lemma data_segment sp dp sq ak pl src t :
  tcp_ok t -> Tcp.state t = Tcp.Established -> pl <> [] ->
  let t' := got sq ak pl t in
  Tcp.handle_segment (TcpSeg.mkSeg sp dp sq ak (Z.lor TcpSeg.TCP_PSH TcpSeg.TCP_ACK) pl) src t =
    Ok (Some (Tcp.mkReply TcpSeg.TCP_ACK (Tcp.seq t') (Tcp.ack t')), t') /\
  pending t' = pending t ++ kept pl t.
Proof.
  intros Ht Hst Hpl t'. destruct Ht as [_ _ _ _ _ [Hb _] Hlen]. pose proof (kept_fits pl t Hlen) as Hfit. split.
  - unfold Tcp.handle_segment. cbv zeta. change (TcpSeg.rst _) with false. cbn [Tcp.state Tcp.set_last]. rewrite Hst.
    unfold Tcp.on_established. change (TcpSeg.fin _) with false. cbn [TcpSeg.payload Tcp.recv_len Tcp.recv_buf Tcp.set_last].
    rewrite bool_decide_eq_false_2 by done. cbn [negb]. rewrite (proj2 (Nat.ltb_ge _ _)) by lia.
    replace (Nat.min _ _) with (length (kept pl t)) by (unfold kept; rewrite length_take; lia).
    replace (take (length (kept pl t)) pl) with (kept pl t)
      by (unfold kept; rewrite length_take; destruct (Nat.min_spec (TcpSeg.MAX_TCP_PAYLOAD - Tcp.recv_len t) (length pl)) as [[? ->]|[? ->]];
          [done|by rewrite firstn_all, take_ge by lia]).
    unfold write_at. rewrite (proj2 (Nat.leb_le _ _)) by lia. cbn [rbind]. reflexivity.
  - unfold pending, t', got. cbn [Tcp.recv_len Tcp.recv_buf]. rewrite app_assoc. apply take_app_length'.
    rewrite length_app, length_take. lia.
Qed.

Lemma got_ok sq ak pl t : tcp_ok t -> is_u32 sq -> Forall is_u8 pl -> tcp_ok (got sq ak pl t).
Proof.
  intros [? ? ? ? ? [Hb1 Hb2] Hl] Hq Hpl. pose proof (kept_fits pl t Hl). split; cbn; try done; [apply as_u32_range|]. split.
  - rewrite !length_app, length_take, length_drop. lia.
  - rewrite !Forall_app. split_and!; [by apply Forall_take|by apply kept_u8|by apply Forall_drop].
Qed.

(** The bare acknowledgement coming back only touches the bookkeeping. *)
Lemma ack_segment sp dp sq ak src t :
  Tcp.state t = Tcp.Established ->
  Tcp.handle_segment (TcpSeg.mkSeg sp dp sq ak TcpSeg.TCP_ACK []) src t = Ok (None, Tcp.set_last sq ak t).
Proof. intros Hst. unfold Tcp.handle_segment. cbn. rewrite Hst. cbn. reflexivity. Qed.

Lemma tcp_at_run i t s :
  tcp_sockets (stack s) !! i = Some (Some t) -> tcp_at (Z.of_nat i) s = (Ok t, s).
Proof.
  intros Hi. pose proof (lookup_lt_Some _ _ _ Hi). unfold tcp_at, slot_at, bind, the, gets, lift.
  rewrite (proj2 (Z.leb_le _ _)), (proj2 (Z.ltb_lt _ _)), Nat2Z.id by lia. cbn [andb]. by rewrite Hi.
Qed.

(** Reading takes everything that fits and empties the buffer. *)
Lemma tcp_recv_run i t s cap :
  net_ok (stack s) -> tcp_sockets (stack s) !! i = Some (Some t) -> Tcp.recv_len t <> 0%nat ->
  tcp_recv (Z.of_nat i) cap s = (Ok (take cap (pending t)), with_tcp i (Tcp.set_buf (Tcp.recv_buf t) 0 t) s).
Proof.
  intros Hs Hi Hn. destruct (all_some_lookup _ _ _ _ (no_tcp _ Hs) Hi) as [_ _ _ _ _ [Hb _] Hlen].
  unfold tcp_recv, bind at 1. rewrite (tcp_at_run i t s Hi). unfold Tcp.recv_tcp.
  rewrite (proj2 (Nat.eqb_neq _ _) Hn). rewrite Nat2Z.id. unfold slice_range.
  rewrite (proj2 (Nat.leb_le _ (length _))) by lia. cbn [andb Nat.leb]. unfold pending. by rewrite Nat.sub_0_r, drop_0, take_take, Nat.min_comm.
Qed.

(** A send takes what one segment holds. *)
Lemma tcp_send_cut h raw s : tcp_send h raw s = tcp_send h (take TcpSeg.MAX_TCP_PAYLOAD raw) s.
Proof.
  unfold tcp_send, bind. destruct (tcp_at h s) as [[t| | |] s1]; try done.
  rewrite length_take, take_take. set (m := TcpSeg.MAX_TCP_PAYLOAD).
  by replace (Nat.min (Nat.min (Nat.min m (length raw)) m) m) with (Nat.min (length raw) m) by lia;
    replace (Nat.min (Nat.min m (length raw)) m) with (Nat.min (length raw) m) by lia.
Qed.

Section data.
Context (A B : NetSt) (i j : nat) (a b : Tcp.TcpSocket) (data : list Z).
Context (HA : net_ok (stack A)) (HB : net_ok (stack B)) (Hco : connected A B i j a b).
Context (HmA : mac (stack A) <> Eth.BROADCAST) (HmB : mac (stack B) <> Eth.BROADCAST)
  (HiA : ip (stack A) <> IP_BROADCAST) (HiB : ip (stack B) <> IP_BROADCAST).
Context (Hdata : Forall is_u8 data) (Hne : data <> []) (Hfit : (length data <= TcpSeg.MAX_TCP_PAYLOAD)%nat).

Let a' := Tcp.set_seq (as_u32 (Tcp.seq a + as_u32 (Z.of_nat (length data)))) a.
Let b' := got (Tcp.seq a) (Tcp.ack a) data b.

Lemma ends_ok : tcp_ok a /\ tcp_ok b.
Proof. destruct Hco. split; eapply all_some_lookup; [apply no_tcp, HA|done|apply no_tcp, HB|done]. Qed.

Lemma a'_ok : tcp_ok a'.
Proof. destruct ends_ok as [[] _]. split; cbn; try done. apply as_u32_range. Qed.
Lemma b'_ok : tcp_ok b'.
Proof. destruct ends_ok as [Ha Hb]. apply got_ok; [done|apply Ha|done]. Qed.

Lemma data_sent : exists f,
  let A1 := with_tcp i a' (transmit f A) in
  tcp_send (Z.of_nat i) data A = (Ok (length data), A1) /\ net_ok (stack A1) /\
  tcp_frame f (mac (stack B)) (mac (stack A)) (ip (stack A)) (ip (stack B))
    (TcpSeg.mkSeg (Tcp.local_port a) (Tcp.remote_port a) (Tcp.seq a) (Tcp.ack a) (Z.lor TcpSeg.TCP_PSH TcpSeg.TCP_ACK) data).
Proof.
  destruct ends_ok as [Ha _]. pose proof Ha as []. pose proof Hco as [].
  destruct co_states0 as [Hsa _], co_ips0 as [Hia _].
  destruct (send_tcp_seg_run A HA (Tcp.local_port a) (Tcp.remote_port a) (ip (stack B)) (Tcp.seq a) (Tcp.ack a)
    (Z.lor TcpSeg.TCP_PSH TcpSeg.TCP_ACK) data (mac (stack B))) as (f & E & Hf); try done; [by apply no_ip|].
  exists f. cbv zeta. split; [|split; [|exact Hf]].
  - unfold tcp_send. unfold bind at 1. rewrite (tcp_at_run i a A) by done.
    rewrite bool_decide_eq_true_2 by done. cbn [negb]. rewrite Nat.min_l by done. rewrite firstn_all, Hia.
    unfold bind at 1. rewrite E. unfold bind, put_tcp, on_stack, modify. by rewrite Nat2Z.id.
  - apply with_tcp_ok; [|apply a'_ok]. eapply transmit_seg_ok in E; try done. by apply no_ip.
Qed.

Lemma data_received f :
  tcp_frame f (mac (stack B)) (mac (stack A)) (ip (stack A)) (ip (stack B))
    (TcpSeg.mkSeg (Tcp.local_port a) (Tcp.remote_port a) (Tcp.seq a) (Tcp.ack a) (Z.lor TcpSeg.TCP_PSH TcpSeg.TCP_ACK) data) ->
  exists g, let B1 := transmit g (with_tcp j b' (learn (ip (stack A)) (mac (stack A)) B)) in
  handle_eth f B = (Ok tt, B1) /\ net_ok (stack B1) /\
  tcp_frame g (mac (stack A)) (mac (stack B)) (ip (stack B)) (ip (stack A))
    (TcpSeg.mkSeg (Tcp.local_port b) (Tcp.remote_port b) (Tcp.seq b') (Tcp.ack b') TcpSeg.TCP_ACK []).
Proof.
  intros Hf. destruct ends_ok as [Ha Hb]. pose proof b'_ok as Hb'. pose proof Hb' as []. pose proof Hco as [].
  destruct co_states0 as [_ Hsb], co_ips0 as [_ Hib], co_ports0 as [Hp1 Hp2].
  pose proof (learn_ok B HB _ _ (no_ip _ HA) (no_mac _ HA)) as Hl. pose proof (with_tcp_ok _ Hl j _ Hb') as Hok.
  destruct (send_tcp_seg_run (with_tcp j b' (learn (ip (stack A)) (mac (stack A)) B)) Hok (Tcp.local_port b) (Tcp.remote_port b)
    (ip (stack A)) (Tcp.seq b') (Tcp.ack b') TcpSeg.TCP_ACK [] (mac (stack A))) as (g & E & Hg);
    try done; try small; [by apply no_ip|cbn; lia| |].
  { cbn. apply arp_insert_same; [by apply no_arp|]. by eapply lookup_has_room. }
  exists g. cbv zeta. split; [|split; [|exact Hg]].
  - rewrite (receive_tcp f (mac (stack A)) (ip (stack A)) (ip (stack B)) _ B Hf HmB).
    rewrite (handle_tcp_run _ _ (learn (ip (stack A)) (mac (stack A)) B) j b
      (Some (Tcp.mkReply TcpSeg.TCP_ACK (Tcp.seq b') (Tcp.ack b'))) b'); [| |done|by apply data_segment].
    + unfold send_reply. cbn [Tcp.local_port Tcp.remote_port Tcp.remote_ip Tcp.r_seq Tcp.r_ack Tcp.r_flags].
      change (Tcp.remote_ip b') with (Tcp.remote_ip b). rewrite Hib. exact E.
    + cbn. by rewrite Hp1, <- Hp2.
  - eapply transmit_seg_ok in E; try done; try small; [by apply no_ip|cbn; lia].
Qed.

Lemma data_delivered cap :
  exists f g A1 A2 B1 B2,
  tcp_send (Z.of_nat i) data A = (Ok (length data), A1) /\ tx (net (stack A1)) = tx (net (stack A)) ++ [f] /\
  handle_eth f B = (Ok tt, B1) /\ tx (net (stack B1)) = tx (net (stack B)) ++ [g] /\
  handle_eth g A1 = (Ok tt, A2) /\ tx (net (stack A2)) = tx (net (stack A1)) /\
  tcp_recv (Z.of_nat j) cap B1 = (Ok (take cap (pending b ++ kept data b)), B2) /\
  net_ok (stack A2) /\ net_ok (stack B2) /\
  exists a2 b2, connected A2 B2 i j a2 b2 /\ Tcp.recv_len b2 = 0%nat /\ pending a2 = pending a.
Proof.
  destruct data_sent as (f & E1 & HA1 & F). destruct (data_received f F) as (g & E2 & HB1 & G). cbv zeta in *.
  pose proof a'_ok as Ha'. pose proof b'_ok as Hb'. pose proof Hco as [].
  destruct ends_ok as [Ha Hb], co_states0 as [Hsa Hsb], co_ips0 as [Hia Hib], co_ports0 as [Hp1 Hp2], co_seqs0 as [Hq1 Hq2].
  pose proof (lookup_lt_Some _ _ _ co_a0) as Hi. pose proof (lookup_lt_Some _ _ _ co_b0) as Hj.
  exists f, g. do 4 eexists. split; [exact E1|]. split; [reflexivity|]. split; [exact E2|]. split; [reflexivity|].
  split.
  { rewrite (receive_tcp g (mac (stack B)) (ip (stack B)) (ip (stack A)) _ (with_tcp i a' (transmit f A)) G HmA).
    rewrite (handle_tcp_run (ip (stack B)) _ (learn (ip (stack B)) (mac (stack B)) (with_tcp i a' (transmit f A))) i a' None
      (Tcp.set_last (Tcp.seq b') (Tcp.ack b') a')); [reflexivity| | |by apply ack_segment].
    - cbn [TcpSeg.dst_port TcpSeg.src_port]. rewrite Hp2, <- Hp1. cbn.
      by rewrite (find_same_ports _ _ _ i a).
    - cbn. by apply list_lookup_insert_eq. }
  split; [reflexivity|]. split.
  { pose proof (proj2 (data_segment 0 0 (Tcp.seq a) (Tcp.ack a) data [] b Hb Hsb Hne)) as Hpend. fold b' in Hpend.
    rewrite (tcp_recv_run j b'); [by rewrite Hpend|done| |by apply kept_some].
    cbn. by apply list_lookup_insert_eq. }
  split. { apply with_tcp_ok; [apply learn_ok; [done|by apply no_ip|by apply no_mac]|]. destruct Ha'. by split. }
  split. { apply with_tcp_ok; [done|]. destruct Hb'. split; cbn; try done. lia. }
  exists (Tcp.set_last (Tcp.seq b') (Tcp.ack b') a'), (Tcp.set_buf (Tcp.recv_buf b') 0 b').
  split; [|split; reflexivity].
  split; cbn; rewrite ?list_insert_insert_eq; try done.
  - by apply list_lookup_insert_eq.
  - by apply list_lookup_insert_eq.
  - by rewrite (find_same_ports _ _ _ i a).
  - by rewrite (find_same_ports _ _ _ j b).
  - apply arp_insert_same; [by apply no_arp|]. by eapply lookup_has_room.
  - apply arp_insert_same; [by apply no_arp|]. by eapply lookup_has_room.
Qed.
End data.

(** * Datagrams: UDP delivery and the DHCP exchange

    A datagram sent on one stack is what the bound socket of another one
    receives; the option walk of the DHCP client reads every well-formed
    option list; an offer and an acknowledgement give the stack its
    address. *)

(** ** UDP *)

Definition with_udp (i : nat) (u : UdpSocket.t) (s : NetSt) : NetSt :=
  mkNetSt (set_udp (<[i := Some u]> (udp_sockets (stack s))) (stack s)) (said s).

(** The socket after a datagram: the sender becomes its remote end. *)
Definition received (sp : Z) (sip data : list Z) (u : UdpSocket.t) : UdpSocket.t :=
  UdpSocket.mkSock (UdpSocket.local_port u) sp sip
    (data ++ drop (length data) (UdpSocket.recv_buf u)) (length data).

Definition emptied (u : UdpSocket.t) : UdpSocket.t :=
  UdpSocket.mkSock (UdpSocket.local_port u) (UdpSocket.remote_port u) (UdpSocket.remote_ip u) (UdpSocket.recv_buf u) 0.

Lemma handle_datagram_run pkt src u :
  udpsock_ok u -> (length (Udp.payload pkt) <= Udp.MAX_UDP_PAYLOAD)%nat ->
  UdpSocket.handle_datagram pkt src u = Ok (received (Udp.src_port pkt) src (Udp.payload pkt) u).
Proof.
  intros [_ _ _ [Hb _] _] Hl. unfold UdpSocket.handle_datagram, copy_min. cbv zeta. rewrite Nat.min_l, firstn_all by done.
  unfold write_at. by rewrite (proj2 (Nat.leb_le _ _)) by lia.
Qed.

Lemma udp_at_run i u s : udp_sockets (stack s) !! i = Some (Some u) -> udp_at (Z.of_nat i) s = (Ok u, s).
Proof.
  intros Hi. pose proof (lookup_lt_Some _ _ _ Hi). unfold udp_at, slot_at, bind, the, gets, lift.
  rewrite (proj2 (Z.leb_le _ _)), (proj2 (Z.ltb_lt _ _)), Nat2Z.id by lia. cbn [andb]. by rewrite Hi.
Qed.

Lemma udp_recv_run i sp sip data u s cap :
  udp_sockets (stack s) !! i = Some (Some (received sp sip data u)) -> data <> [] -> (length data <= cap)%nat ->
  udp_recv (Z.of_nat i) cap s = (Ok data, with_udp i (emptied (received sp sip data u)) s).
Proof.
  intros Hi Hne Hc. unfold udp_recv, bind at 1. rewrite (udp_at_run _ _ _ Hi). unfold UdpSocket.recv_udp.
  cbn [UdpSocket.recv_len received]. rewrite (proj2 (Nat.eqb_neq _ 0)) by (destruct data; [done|cbn; lia]).
  rewrite Nat.min_l by done. rewrite Nat2Z.id. unfold received at 5.
  cbn [UdpSocket.recv_buf]. rewrite slice_range_pre. reflexivity.
Qed.

(** The pair of ports is the DHCP client's. *)
Definition dhcp_ports (sp dp : Z) : bool := (sp =? Dhcp.SERVER_PORT) && (dp =? Dhcp.CLIENT_PORT).

Record udp_path (A B : NetSt) (i j : nat) (a b : UdpSocket.t) : Prop := {
  up_A : net_ok (stack A);
  up_B : net_ok (stack B);
  up_a : udp_sockets (stack A) !! i = Some (Some a);
  up_b : udp_sockets (stack B) !! j = Some (Some b);
  up_to : UdpSocket.remote_ip a = ip (stack B) /\ UdpSocket.remote_port a = UdpSocket.local_port b;
  up_first : position (udp_match (UdpSocket.local_port b)) (udp_sockets (stack B)) = Some j;
  up_port : UdpSocket.local_port b <> 0;
  up_ip : ip (stack B) <> Ip.ZERO_IP /\ ip (stack B) <> IP_BROADCAST;
  up_mac : mac (stack B) <> Eth.BROADCAST;
  up_dhcp : dhcp_ports (UdpSocket.local_port a) (UdpSocket.local_port b) = false;
  up_arp : ArpCache.lookup_arp (ip (stack B)) (arp (stack A)) = Some (mac (stack B))
}.

Section udp.
Context (A B : NetSt) (i j : nat) (a b : UdpSocket.t) (H : udp_path A B i j a b).
Context (data : list Z) (Hdata : Forall is_u8 data) (Hlen : (length data <= Udp.MAX_UDP_PAYLOAD)%nat).

Lemma up_socks : udpsock_ok a /\ udpsock_ok b.
Proof. destruct H. split; eapply all_some_lookup; [apply no_udp, up_A0|done|apply no_udp, up_B0|done]. Qed.

(** The frame carries the datagram. *)
Definition udp_frame (f : list Z) : Prop :=
  exists p u, ip_frame f (mac (stack B)) (mac (stack A)) p /\ Ip.src p = ip (stack A) /\ Ip.protocol p = Ip.IP_PROTO_UDP /\
    Udp.parse_udp (Ip.payload p) = Ok u /\ Udp.src_port u = UdpSocket.local_port a /\
    Udp.dst_port u = UdpSocket.local_port b /\ Udp.payload u = data.

Lemma udp_sent : exists f,
  udp_send (Z.of_nat i) data A = (Ok (length data), transmit f A) /\ udp_frame f.
Proof.
  destruct up_socks as [[Hal Har Hai _ _] _]. pose proof H as []. destruct up_to0 as [Ei Ep], up_ip0 as [Hz Hbc].
  unfold Udp.MAX_UDP_PAYLOAD in Hlen.
  assert (as_u16 (Z.of_nat (length data)) = Z.of_nat (length data)) as El by (unfold as_u16; apply Z.mod_small; lia).
  set (u := Udp.mkUdp (UdpSocket.local_port a) (UdpSocket.remote_port a) (8 + Z.of_nat (length data)) 0 data).
  assert (Udp.parse_udp (Udp.udp_to_bytes u) = Ok u) as Hu.
  { apply parse_udp_bytes; [done| |split; [discriminate|reflexivity]]. cbn. unfold is_u16. lia. }
  assert (length (Udp.udp_to_bytes u) = 8 + length data)%nat as Hul by (unfold Udp.udp_to_bytes; rewrite !length_app, !to_be_length; done).
  destruct (ip_datagram_wire (ip (stack A)) (ip (stack B)) Ip.IP_PROTO_UDP (Udp.udp_to_bytes u) (no_ip _ up_A0) (no_ip _ up_B0)
    ltac:(split; [discriminate|reflexivity]) ltac:(lia)) as (p & c & Hf & Ed & E1 & E2 & E3 & E4).
  eexists. split.
  - unfold udp_send, bind at 1. rewrite (udp_at_run i a A) by done.
    rewrite Ep, (proj2 (Z.eqb_neq _ 0)) by done. unfold Ip.is_zero. rewrite Ei.
    destruct (bytes_eqb (ip (stack B)) Ip.ZERO_IP) eqn:Ez; [by apply bytes_eqb_true in Ez|]. cbn [orb].
    unfold Udp.MAX_UDP_PAYLOAD. rewrite Nat.min_l, firstn_all by lia. unfold Udp.new_udp. rewrite El.
    rewrite (proj2 (Z.leb_gt 65536 _)) by lia. rewrite <- Ep. fold u. unfold bind at 1, lift at 1.
    unfold bind at 1, the at 1, gets at 1. unfold bind at 1, lift at 1. rewrite Ed. unfold bind at 1.
    rewrite (send_ip_run A up_A0 (ip (stack B)) (mac (stack B))); [reflexivity|done|done|].
    rewrite length_app, ip_header_length; [lia|done|by rewrite to_be_length].
  - exists p, u. split; [|rewrite E4; split_and!; done]. eexists. split.
    + unfold eth_wire. apply parse_eth_frame; [apply up_B0|apply up_A0|split; [discriminate|reflexivity]].
    + rewrite <- E4. by apply parse_ip_bytes.
Qed.

Let b' := received (UdpSocket.local_port a) (ip (stack A)) data b.

Lemma udp_received f : udp_frame f ->
  handle_eth f B = (Ok tt, with_udp j b' (learn (ip (stack A)) (mac (stack A)) B)).
Proof.
  intros (p & u & (bs & Ee & Ei) & Es & Ep & Eu & E1 & E2 & E3). destruct up_socks as [_ Hb]. pose proof H as [].
  unfold handle_eth. rewrite Ee. cbn [when].
  unfold bind at 1, the at 1, gets at 1. unfold Eth.is_for_me, Eth.is_broadcast. cbn [Eth.dst Eth.ethertype Eth.payload Eth.src].
  rewrite (proj2 (bytes_eqb_true _ _) eq_refl). cbn [negb andb].
  destruct (bytes_eqb (mac (stack B)) Eth.BROADCAST) eqn:E; [by apply bytes_eqb_true in E|].
  change (Eth.ETH_TYPE_IPV4 =? Eth.ETH_TYPE_ARP) with false. change (Eth.ETH_TYPE_IPV4 =? Eth.ETH_TYPE_IPV4) with true.
  rewrite Ei. cbn [when negb]. unfold bind at 1, on_stack at 1, modify at 1. unfold handle_ip. rewrite Ep, Es.
  change (Ip.IP_PROTO_UDP =? _) with false at 1. change (Ip.IP_PROTO_UDP =? _) with false at 1.
  change (Ip.IP_PROTO_UDP =? Ip.IP_PROTO_UDP) with true. rewrite Eu. cbn [when]. unfold handle_udp. rewrite E1, E2.
  unfold dhcp_ports in up_dhcp0. rewrite up_dhcp0. unfold bind at 1, the at 1, gets at 1.
  cbn [stack udp_sockets set_arp]. rewrite up_first0. unfold bind at 1, lift at 1. rewrite up_b0. cbn [mjoin option_join or_panic].
  unfold bind at 1, lift at 1. rewrite handle_datagram_run by (done || by rewrite E3). rewrite E1, E3. reflexivity.
Qed.

Lemma udp_delivered cap : data <> [] -> (length data <= cap)%nat ->
  exists f B1 B2,
  udp_send (Z.of_nat i) data A = (Ok (length data), transmit f A) /\
  handle_eth f B = (Ok tt, B1) /\ tx (net (stack B1)) = tx (net (stack B)) /\
  udp_recv (Z.of_nat j) cap B1 = (Ok data, B2) /\
  exists b2, udp_sockets (stack B2) !! j = Some (Some b2) /\ UdpSocket.recv_len b2 = 0%nat /\
    UdpSocket.local_port b2 = UdpSocket.local_port b /\
    UdpSocket.remote_ip b2 = ip (stack A) /\ UdpSocket.remote_port b2 = UdpSocket.local_port a.
Proof.
  intros Hne Hc. destruct udp_sent as (f & E1 & F). pose proof (udp_received f F) as E2. pose proof H as [].
  pose proof (lookup_lt_Some _ _ _ up_b0) as Hj.
  exists f. do 2 eexists. split; [exact E1|]. split; [exact E2|]. split; [reflexivity|]. split.
  - apply udp_recv_run; [|done|done]. cbn. by apply list_lookup_insert_eq.
  - exists (emptied b'). split; [|done]. cbn. rewrite list_insert_insert_eq. by apply list_lookup_insert_eq.
Qed.
End udp.

(** ** DHCP options *)

(** An option list as it is on the wire, closed by the end marker. *)
Definition enc_option (o : Z * list Z) : list Z := o.1 :: Z.of_nat (length o.2) :: o.2.
Definition enc_options (l : list (Z * list Z)) : list Z := concat (map enc_option l) ++ [255].

Definition option_ok (o : Z * list Z) : Prop :=
  is_u8 o.1 /\ o.1 <> 0 /\ o.1 <> 255 /\ (length o.2 <= 255)%nat.

(** What the options of a list say, last one first. *)
Fixpoint read_options (l : list (Z * list Z)) (o : Dhcp.Options) : result unit Dhcp.Options :=
  match l with
  | [] => Ok o
  | (tag, val) :: rest => let? o := Dhcp.take_option tag val o in read_options rest o
  end.

(** The walk reads the options of the list, whatever follows the end marker. *)
Lemma walk_options_run l pre tail o fuel :
  Forall option_ok l -> (length l < fuel)%nat ->
  Dhcp.walk_options fuel (pre ++ enc_options l ++ tail) (length pre) o = read_options l o.
Proof.
  revert pre o fuel. induction l as [|[tag val] l IH]; intros pre o [|fuel] Hl Hf; cbn [length] in Hf; try lia;
    cbn [Dhcp.walk_options]; rewrite (proj2 (Nat.leb_gt _ _)) by (rewrite !length_app; cbn; lia).
  - unfold enc_options. cbn [map concat app]. rewrite byte_mid by done. reflexivity.
  - inversion_clear Hl as [|? ? [Ht (H0 & H255 & Hv)] Hl']. cbn [fst snd] in *.
    assert (pre ++ enc_options ((tag, val) :: l) ++ tail =
            pre ++ tag :: Z.of_nat (length val) :: val ++ enc_options l ++ tail) as E.
    { unfold enc_options. cbn [map concat]. unfold enc_option at 1. cbn [fst snd app]. by rewrite <- !app_assoc. }
    rewrite E, byte_mid by done. cbn [rbind]. rewrite (proj2 (Z.eqb_neq _ _)), (proj2 (Z.eqb_neq _ _)) by done.
    assert (length (pre ++ tag :: Z.of_nat (length val) :: val ++ enc_options l ++ tail)
            = length pre + 2 + length val + length (enc_options l ++ tail))%nat as El.
    { rewrite length_app. cbn. rewrite length_app. lia. }
    rewrite El, (proj2 (Nat.leb_gt _ _)) by lia. rewrite byte_next by lia. cbn [rbind]. rewrite Nat2Z.id.
    rewrite (proj2 (Nat.ltb_ge _ _)) by lia.
    change (pre ++ tag :: Z.of_nat (length val) :: val ++ enc_options l ++ tail)
      with (pre ++ [tag; Z.of_nat (length val)] ++ val ++ enc_options l ++ tail).
    rewrite app_assoc. rewrite slice_range_mid by (rewrite ?length_app; cbn; lia). cbn [rbind read_options].
    destruct (Dhcp.take_option tag val o) as [o'| | |]; cbn [rbind]; try done.
    rewrite (app_assoc _ val). rewrite <- (IH ((pre ++ [tag; Z.of_nat (length val)]) ++ val) o' fuel) by (done || lia).
    f_equal. rewrite !length_app. cbn. lia.
Qed.

(** ** Server messages *)

(** A BOOTP reply for transaction [x] assigning [yi]; [g1] and [g2] are the
    fields the client does not read. *)
Definition bootp_reply (x : Z) (g1 yi g2 : list Z) (opts : list (Z * list Z)) : list Z :=
  [2; 1; 6; 0] ++ to_be_bytes 4 x ++ g1 ++ yi ++ g2 ++ Dhcp.COOKIE ++ enc_options opts.

Record reply_shape (x : Z) (g1 yi g2 : list Z) (opts : list (Z * list Z)) : Prop := {
  rs_x : is_u32 x;
  rs_g1 : length g1 = 8%nat;
  rs_yi : ip_ok yi;
  rs_g2 : length g2 = 216%nat;
  rs_opts : Forall option_ok opts
}.

Lemma u32_at_mid a v c i : is_u32 v -> i = length a -> u32_at (a ++ to_be_bytes 4 v ++ c) i = Ok v.
Proof.
  intros Hv ->. rewrite to_be_4. unfold u32_at, byte. cbn [app].
  rewrite !lookup_app_r by lia.
  replace (length a - length a)%nat with 0%nat by lia. replace (length a + 1 - length a)%nat with 1%nat by lia.
  replace (length a + 2 - length a)%nat with 2%nat by lia. replace (length a + 3 - length a)%nat with 3%nat by lia.
  cbn [lookup list_lookup or_panic rbind]. f_equal. by apply be_4.
Qed.

Lemma enc_options_length l : (length l < length (enc_options l))%nat.
Proof.
  unfold enc_options. rewrite length_app. cbn [length]. induction l as [|o l IH]; cbn [map concat length]; [lia|].
  rewrite length_app. cbn [enc_option length]. lia.
Qed.

Lemma handle_packet_run x g1 yi g2 opts c :
  reply_shape x g1 yi g2 opts ->
  Dhcp.handle_packet (bootp_reply x g1 yi g2 opts) c =
  if x =? Dhcp.xid c then let? o := read_options opts Dhcp.no_options in Ok (Dhcp.on_message yi o c) else Ok (None, c).
Proof.
  intros [Hx H1 [Hy _] H2 Ho]. unfold Dhcp.handle_packet.
  set (d := bootp_reply x g1 yi g2 opts).
  set (hd := [2; 1; 6; 0] ++ to_be_bytes 4 x ++ g1 ++ yi ++ g2 ++ Dhcp.COOKIE).
  assert (length hd = 240)%nat as Hhd by (unfold hd; rewrite !length_app, to_be_length, H1, Hy, H2; reflexivity).
  assert (d = hd ++ enc_options opts ++ []) as Ed by (unfold d, bootp_reply, hd; by rewrite app_nil_r, <- !app_assoc).
  assert (length d = 240 + length (enc_options opts))%nat as El by (rewrite Ed, app_nil_r, length_app; lia).
  rewrite (proj2 (Nat.ltb_ge _ _)) by lia.
  assert (byte d 0 = Ok 2) as -> by reflexivity. cbn [rbind]. change (2 =? 2) with true. cbn [negb].
  assert (slice_range (E := unit) d 236 240 = Ok Dhcp.COOKIE) as ->.
  { unfold d, bootp_reply. rewrite !app_assoc. rewrite <- (app_assoc _ Dhcp.COOKIE). apply slice_range_mid.
    - rewrite !length_app, to_be_length, H1, Hy, H2. reflexivity.
    - reflexivity. }
  cbn [rbind]. rewrite (proj2 (bytes_eqb_true _ _) eq_refl). cbn [negb].
  assert (u32_at d 4 = Ok x) as -> by (unfold d, bootp_reply; apply u32_at_mid; done). cbn [rbind].
  destruct (x =? Dhcp.xid c); cbn [negb]; [|done].
  assert (slice_range (E := unit) d 16 20 = Ok yi) as ->.
  { unfold d, bootp_reply. rewrite !app_assoc. rewrite <- !(app_assoc (_ ++ yi)), <- (app_assoc _ yi). apply slice_range_mid.
    - by rewrite !length_app, to_be_length, H1.
    - by rewrite Hy. }
  cbn [rbind]. pose proof (enc_options_length opts). rewrite El, Ed, <- Hhd. rewrite walk_options_run by (done || lia). reflexivity.
Qed.

(** ** Client messages *)

(** The layout of the client's messages. *)
Definition bootp_request (x : Z) (m : list Z) (msg_type : Z) (a srv : list Z) : list Z :=
  [1; 1; 6; 0] ++ to_be_bytes 4 x ++ [0; 0; 0x80; 0] ++ replicate 16 0 ++ m ++ replicate 202 0 ++ Dhcp.COOKIE ++
  Dhcp.bootp_options msg_type a srv.

Lemma build_bootp_run c m t a srv :
  mac_ok m -> ip_ok a -> ip_ok srv ->
  Dhcp.build_bootp c m t a srv = Ok (bootp_request (Dhcp.xid c) m t a srv).
Proof.
  intros Hm Ha Hs. open_addr. unfold Dhcp.build_bootp, bootp_request. rewrite to_be_4.
  unfold Dhcp.bootp_options, Dhcp.addr_option. destruct (bytes_eqb _ _), (bytes_eqb _ _); reflexivity.
Qed.

Lemma bootp_request_length x m t a srv :
  mac_ok m -> ip_ok a -> ip_ok srv -> (length (bootp_request x m t a srv) <= 300)%nat.
Proof.
  intros Hm Ha Hs. open_addr. unfold bootp_request. rewrite !length_app, to_be_length, !length_replicate.
  unfold Dhcp.bootp_options, Dhcp.addr_option. destruct (bytes_eqb _ _), (bytes_eqb _ _); cbn; lia.
Qed.

(** A broadcast frame around the client's DHCP message [pl]. *)
Definition dhcp_frame (f sm pl : list Z) : Prop :=
  exists p u, ip_frame f Eth.BROADCAST sm p /\ Ip.src p = Ip.ZERO_IP /\ Ip.dst p = IP_BROADCAST /\
    Ip.protocol p = Ip.IP_PROTO_UDP /\ Udp.parse_udp (Ip.payload p) = Ok u /\
    Udp.src_port u = Dhcp.CLIENT_PORT /\ Udp.dst_port u = Dhcp.SERVER_PORT /\ Udp.payload u = pl.

Lemma send_dhcp_udp_run pl s :
  net_ok (stack s) -> (length pl <= 1024)%nat ->
  exists f, send_dhcp_udp pl s = (Ok tt, transmit f s) /\ dhcp_frame f (mac (stack s)) pl.
Proof.
  intros Hs Hl.
  assert (as_u16 (Z.of_nat (length pl)) = Z.of_nat (length pl)) as El by (unfold as_u16; apply Z.mod_small; lia).
  set (u := Udp.mkUdp Dhcp.CLIENT_PORT Dhcp.SERVER_PORT (8 + Z.of_nat (length pl)) 0 pl).
  assert (Udp.parse_udp (Udp.udp_to_bytes u) = Ok u) as Hu.
  { unfold Udp.udp_to_bytes, u, Udp.parse_udp, u16_at, byte, slice_from. cbn [Udp.src_port Udp.dst_port Udp.length_ Udp.checksum Udp.payload].
    rewrite !to_be_2. parse_explicit. rewrite !be_2 by (unfold is_u16, Dhcp.CLIENT_PORT, Dhcp.SERVER_PORT; lia). done. }
  assert (length (Udp.udp_to_bytes u) = 8 + length pl)%nat as Hul by (unfold Udp.udp_to_bytes; rewrite !length_app, !to_be_length; done).
  destruct (ip_datagram_wire Ip.ZERO_IP IP_BROADCAST Ip.IP_PROTO_UDP (Udp.udp_to_bytes u) zero_ip_ok ip_broadcast_ok
    ltac:(split; [discriminate|reflexivity]) ltac:(lia)) as (p & c & Hf & Ed & E1 & E2 & E3 & E4).
  eexists. split.
  - unfold send_dhcp_udp, Udp.new_udp. rewrite El, (proj2 (Z.leb_gt 65536 _)) by lia. fold u.
    unfold bind at 1, lift at 1. unfold bind at 1, lift at 1. rewrite Ed. rewrite send_eth_run; [reflexivity|apply broadcast_mac|apply Hs|].
    rewrite length_app, ip_header_length; [lia|done|by rewrite to_be_length].
  - exists p, u. split; [|rewrite E4; split_and!; done]. eexists. split.
    + unfold eth_wire. apply parse_eth_frame; [apply broadcast_mac|apply Hs|split; [discriminate|reflexivity]].
    + rewrite <- E4. by apply parse_ip_bytes.
Qed.

Definition with_dhcp (c : Dhcp.DhcpClient) (s : NetSt) : NetSt := mkNetSt (set_dhcp c (stack s)) (said s).
Definition saying (l : list Z) (s : NetSt) : NetSt := mkNetSt (stack s) (said s ++ [l ++ [10]]).

(** The client sees at most 1024 bytes of a message. *)
Lemma handle_dhcp_step pl s act c' :
  (length pl <= 1024)%nat -> Dhcp.handle_packet pl (dhcp (stack s)) = Ok (act, c') ->
  handle_dhcp pl s =
  match act with
  | Some Dhcp.SendRequest =>
    (do! say (str "[net] DHCP OFFER " ++ show_ip (Dhcp.offered_ip c') ++ str " from " ++ show_ip (Dhcp.server_ip c')) in
     let! m := the mac in
     let! req := lift (Dhcp.build_request c' m) in
     send_dhcp_udp req) (with_dhcp c' s)
  | Some (Dhcp.BoundTo a) =>
    (do! on_stack (set_ip_addr a) in
     say (str "[net] DHCP ACK — IP " ++ show_ip a ++ str "  GW " ++ show_ip (Dhcp.gateway c')
          ++ str "  lease " ++ show_dec (Dhcp.lease_secs c') ++ str "s")) (with_dhcp c' s)
  | Some Dhcp.Nak => (do! say (str "[net] DHCP NAK — restarting discovery") in dhcp_start) (with_dhcp c' s)
  | None => (Ok tt, with_dhcp c' s)
  end.
Proof.
  intros Hl Hp. unfold handle_dhcp. unfold bind at 1, lift at 1. unfold copy_min. rewrite Nat.min_l, firstn_all by done.
  unfold write_at. rewrite length_replicate, (proj2 (Nat.leb_le _ _)) by done. cbn [rbind Nat.add].
  change (take 0 (replicate 1024 0)) with (@nil Z). cbn [app].
  unfold bind at 1, lift at 1. rewrite slice_range_pre. unfold bind at 1, the at 1, gets at 1. unfold bind at 1, lift at 1.
  rewrite Hp. unfold bind at 1, on_stack at 1, modify at 1. by destruct act as [[]|].
Qed.

Section lease.
Context (s : NetSt) (Hs : net_ok (stack s)).
Let c := dhcp (stack s).
Context (Hsel : Dhcp.state c = Dhcp.Selecting).
(** The offer and the acknowledgement that follow a discovery. *)
Context (g1 yi g2 g1' yi' g2' : list Z) (o1 o2 : list (Z * list Z)).
Context (H1 : reply_shape (Dhcp.xid c) g1 yi g2 o1) (H2 : reply_shape (Dhcp.xid c) g1' yi' g2' o2).
Let offer := bootp_reply (Dhcp.xid c) g1 yi g2 o1.
Let ack := bootp_reply (Dhcp.xid c) g1' yi' g2' o2.
Context (L1 : (length offer <= 1024)%nat) (L2 : (length ack <= 1024)%nat).
Context (opt1 opt2 : Dhcp.Options) (R1 : read_options o1 Dhcp.no_options = Ok opt1) (R2 : read_options o2 Dhcp.no_options = Ok opt2).
Context (M1 : Dhcp.o_msg opt1 = Dhcp.MSG_OFFER) (M2 : Dhcp.o_msg opt2 = Dhcp.MSG_ACK) (Hsrv : ip_ok (Dhcp.o_server opt1)).

Lemma lease_done : exists f s1 s2,
  handle_dhcp offer s = (Ok tt, s1) /\ Dhcp.state (dhcp (stack s1)) = Dhcp.Requesting /\
  tx (net (stack s1)) = tx (net (stack s)) ++ [f] /\
  dhcp_frame f (mac (stack s)) (bootp_request (Dhcp.xid c) (mac (stack s)) Dhcp.MSG_REQUEST yi (Dhcp.o_server opt1)) /\
  handle_dhcp ack s1 = (Ok tt, s2) /\ is_dhcp_bound (stack s2) = true /\ ip (stack s2) = yi' /\
  tx (net (stack s2)) = tx (net (stack s1)) /\ Dhcp.gateway (dhcp (stack s2)) = Dhcp.o_gateway opt1.
Proof.
  pose (c1 := Dhcp.mkDhcp Dhcp.Requesting (Dhcp.xid c) yi (Dhcp.o_server opt1) (Dhcp.o_mask opt1) (Dhcp.o_gateway opt1) (Dhcp.o_lease opt1)).
  pose (line := str "[net] DHCP OFFER " ++ show_ip (Dhcp.offered_ip c1) ++ str " from " ++ show_ip (Dhcp.server_ip c1)).
  assert (dhcp_ok c1) as Hc1. { destruct (no_dhcp _ Hs). split; cbn; try done. apply H1. }
  assert (net_ok (stack (saying line (with_dhcp c1 s)))) as Hs1 by (apply net_ok_dhcp; done).
  assert (Dhcp.handle_packet offer c = Ok (Some Dhcp.SendRequest, c1)) as P1.
  { unfold offer. rewrite handle_packet_run, Z.eqb_refl, R1 by done. cbn [rbind]. unfold Dhcp.on_message. by rewrite Hsel, M1. }
  destruct (send_dhcp_udp_run (bootp_request (Dhcp.xid c) (mac (stack s)) Dhcp.MSG_REQUEST yi (Dhcp.o_server opt1))
    (saying line (with_dhcp c1 s)) Hs1) as (f & Ef & Hf).
  { etransitivity; [apply bootp_request_length; [apply Hs|apply H1|done]|lia]. }
  exists f. do 2 eexists. split; [|split; [|split; [|split; [exact Hf|split; [|split; [|split]]]]]].
  - rewrite (handle_dhcp_step offer s _ _ L1 P1). unfold bind at 1, say at 1, modify at 1. fold line.
    unfold bind at 1, the at 1, gets at 1. unfold bind at 1, lift at 1. unfold Dhcp.build_request.
    rewrite build_bootp_run by (apply Hs || apply H1 || done). exact Ef.
  - reflexivity.
  - reflexivity.
  - rewrite (handle_dhcp_step ack _ (Some (Dhcp.BoundTo yi'))
      (Dhcp.mkDhcp Dhcp.Bound (Dhcp.xid c) yi' (Dhcp.server_ip c1) (Dhcp.subnet_mask c1) (Dhcp.gateway c1) (Dhcp.lease_secs c1)) L2).
    + reflexivity.
    + unfold ack. rewrite handle_packet_run by done.
      change (Dhcp.xid (dhcp (stack (transmit f (saying line (with_dhcp c1 s)))))) with (Dhcp.xid c).
      rewrite Z.eqb_refl, R2. cbn [rbind]. unfold Dhcp.on_message.
      change (Dhcp.state (dhcp (stack (transmit f (saying line (with_dhcp c1 s)))))) with Dhcp.Requesting. by rewrite M2.
  - reflexivity.
  - reflexivity.
  - split; reflexivity.
Qed.
End lease.

(** A message of another transaction changes nothing. *)
Lemma foreign_message_ignored s x g1 yi g2 opts :
  reply_shape x g1 yi g2 opts -> (length (bootp_reply x g1 yi g2 opts) <= 1024)%nat -> x <> Dhcp.xid (dhcp (stack s)) ->
  handle_dhcp (bootp_reply x g1 yi g2 opts) s = (Ok tt, s).
Proof.
  intros H Hl Hx. rewrite (handle_dhcp_step _ _ None (dhcp (stack s)) Hl).
  - by destruct s as [[] ?].
  - rewrite handle_packet_run by done. by rewrite (proj2 (Z.eqb_neq _ _)).
Qed.
