(* ===== verification/World.v ===== *)
(** * The kernel state a module can reach

    The statics host functions touch outside the instance pool, the output
    devices as a log of events, the timer ([kernel/src/drivers/pit.rs]) and
    the keyboard decoder ([kernel/src/drivers/keyboard.rs]). *)

From S2P Require Import Prelude FileTable Opcode NetStack.

(** What reaches a device or the FAT volume, in order. *)
Inductive event :=
| Print (bs : list Z)
| PrintUnknownOpcode (op : Z)
| PrintUnknownSub (sub : Z)
| PrintMemoryInit (count : Z)
| PrintMismatch (func : nat) (jit interp : Z)
| PrintJitFull (func : nat)
| PrintJitDone (compiled bodies : nat) (used : Z)
| SetPixel (x y rgb : Z)
| Blit (pixels : list Z) (width height : Z)
| FatWrite (name data : list Z).

Record World := mkWorld {
  log : list event;
  (** scancodes the controller will deliver *)
  scancodes : list Z;
  SHIFT : bool;
  PENDING_SLEEP_MS : Z;
  ARGS_BUF : list Z;
  ARGS_LEN : nat;
  OPCODE_COUNT : Z;
  FUNC_CALL_COUNT : list Z;
  TICK_COUNT : Z;
  TSC : Z;
  TSC_MHZ : Z;
  TSC_BOOT : Z;
  fs : FsState;
  NETWORK_STACK : option NetworkStack
}.

Definition ARGS_CAP : nat := 128.

(** The statics before boot code runs. *)
Definition world_static : World :=
  mkWorld [] [] false 0 (replicate ARGS_CAP 0) 0 0 (replicate MAX_FUNCS 0) 0 0 0 0 fs_static None.

Definition set_log l w := mkWorld l (scancodes w) (SHIFT w) (PENDING_SLEEP_MS w) (ARGS_BUF w)
  (ARGS_LEN w) (OPCODE_COUNT w) (FUNC_CALL_COUNT w) (TICK_COUNT w) (TSC w) (TSC_MHZ w) (TSC_BOOT w) (fs w) (NETWORK_STACK w).
Definition set_keyboard sc sh w := mkWorld (log w) sc sh (PENDING_SLEEP_MS w) (ARGS_BUF w)
  (ARGS_LEN w) (OPCODE_COUNT w) (FUNC_CALL_COUNT w) (TICK_COUNT w) (TSC w) (TSC_MHZ w) (TSC_BOOT w) (fs w) (NETWORK_STACK w).
Definition set_sleep ms w := mkWorld (log w) (scancodes w) (SHIFT w) ms (ARGS_BUF w)
  (ARGS_LEN w) (OPCODE_COUNT w) (FUNC_CALL_COUNT w) (TICK_COUNT w) (TSC w) (TSC_MHZ w) (TSC_BOOT w) (fs w) (NETWORK_STACK w).
Definition set_args_buf b n w := mkWorld (log w) (scancodes w) (SHIFT w) (PENDING_SLEEP_MS w) b
  n (OPCODE_COUNT w) (FUNC_CALL_COUNT w) (TICK_COUNT w) (TSC w) (TSC_MHZ w) (TSC_BOOT w) (fs w) (NETWORK_STACK w).
Definition set_counters oc fc w := mkWorld (log w) (scancodes w) (SHIFT w) (PENDING_SLEEP_MS w) (ARGS_BUF w)
  (ARGS_LEN w) oc fc (TICK_COUNT w) (TSC w) (TSC_MHZ w) (TSC_BOOT w) (fs w) (NETWORK_STACK w).
Definition set_clock t c w := mkWorld (log w) (scancodes w) (SHIFT w) (PENDING_SLEEP_MS w) (ARGS_BUF w)
  (ARGS_LEN w) (OPCODE_COUNT w) (FUNC_CALL_COUNT w) t c (TSC_MHZ w) (TSC_BOOT w) (fs w) (NETWORK_STACK w).
Definition set_fs f w := mkWorld (log w) (scancodes w) (SHIFT w) (PENDING_SLEEP_MS w) (ARGS_BUF w)
  (ARGS_LEN w) (OPCODE_COUNT w) (FUNC_CALL_COUNT w) (TICK_COUNT w) (TSC w) (TSC_MHZ w) (TSC_BOOT w) f (NETWORK_STACK w).
Definition set_network n w := mkWorld (log w) (scancodes w) (SHIFT w) (PENDING_SLEEP_MS w) (ARGS_BUF w)
  (ARGS_LEN w) (OPCODE_COUNT w) (FUNC_CALL_COUNT w) (TICK_COUNT w) (TSC w) (TSC_MHZ w) (TSC_BOOT w) (fs w) n.

Definition emit (e : event) (w : World) : World := set_log (log w ++ [e]) w.

(** ** Network *)

(** [with_network(f)]: what the closure answers, if there is a stack; the lines
    it printed go to the output. *)
Definition with_network {A} (f : N A) (w : World) : option (result unit A) * World :=
  match NETWORK_STACK w with
  | None => (None, w)
  | Some st =>
    let '(r, s) := f (mkNetSt st []) in
    (Some r, set_network (Some (stack s)) (set_log (log w ++ map Print (said s)) w))
  end.

(** ** Timer *)

Definition pit_on_tick (w : World) : World := set_clock (as_u64 (TICK_COUNT w + 1)) (TSC w) w.

Definition ticks (w : World) : Z := TICK_COUNT w.

Definition I64_MAX : Z := 9223372036854775807.

Definition uptime_ms (w : World) : result InterpError Z :=
  let mhz := TSC_MHZ w in
  if mhz =? 0 then Ok (Z.min (TICK_COUNT w) I64_MAX) else
  let elapsed_cycles := Z.max 0 (TSC w - TSC_BOOT w) in
  if 18446744073709551616 <=? mhz * 1000 then Panic else
  Ok (Z.min (elapsed_cycles / (mhz * 1000)) I64_MAX).

(** ** Keyboard *)

Inductive Key :=
| KeyChar (c : Z) | Backspace | Enter
| ArrowLeft | ArrowRight | ArrowUp | ArrowDown
| Delete | Home | End_ | Tab | Unknown.

(** [(first scancode, unshifted, shifted)] of the contiguous runs. *)
Definition key_rows : list (Z * list Z * list Z) :=
  [ (0x02, str "1234567890-=", str "!@#$%^&*()_+");
    (0x10, str "qwertyuiop[]", str "QWERTYUIOP{}");
    (0x1E, str "asdfghjkl;'`", str "ASDFGHJKL:" ++ [34] ++ str "~");
    (0x2B, str "\zxcvbnm,./", str "|ZXCVBNM<>?");
    (0x39, str " ", str " ") ].

Definition row_char (shift : bool) (sc : Z) (row : Z * list Z * list Z) : option Z :=
  let '(first, plain, shifted) := row in
  if sc <? first then None
  else (if shift then shifted else plain) !! Z.to_nat (sc - first).

Definition scancode_to_char (sc : Z) (shift : bool) : option Z :=
  find_from (fun i => key_rows !! i ≫= row_char shift sc) 0 (length key_rows).

(** The key a make code stands for. *)
Definition decode_key (sc : Z) (shift : bool) : Key :=
  if sc =? 0x0E then Backspace else
  if sc =? 0x1C then Enter else
  if sc =? 0x4B then ArrowLeft else
  if sc =? 0x4D then ArrowRight else
  if sc =? 0x48 then ArrowUp else
  if sc =? 0x50 then ArrowDown else
  if sc =? 0x53 then Delete else
  if sc =? 0x47 then Home else
  if sc =? 0x4F then End_ else
  if sc =? 0x0F then Tab else
  match scancode_to_char sc shift with Some c => KeyChar c | None => Unknown end.

(** One poll: the key, if the byte read makes one, and the new state. *)
Definition try_next_key_raw (scs : list Z) (shift : bool) : option Key * list Z * bool :=
  match scs with
  | [] => (None, scs, shift)
  | sc :: scs' =>
    if (sc =? 0x2A) || (sc =? 0x36) then (None, scs', true) else
    if (sc =? 0xAA) || (sc =? 0xB6) then (None, scs', false) else
    if negb (Z.land sc 0x80 =? 0) then (None, scs', shift) else
    (Some (decode_key sc shift), scs', shift)
  end.

Definition try_next_key (w : World) : option Key * World :=
  let '(k, scs, sh) := try_next_key_raw (scancodes w) (SHIFT w) in (k, set_keyboard scs sh w).

(** The blocking read spins while the controller has nothing: [None] when
    the input runs out. *)
Fixpoint next_key_raw (scs : list Z) (shift : bool) : option (Key * list Z * bool) :=
  match scs with
  | [] => None
  | sc :: scs' =>
    if (sc =? 0x2A) || (sc =? 0x36) then next_key_raw scs' true else
    if (sc =? 0xAA) || (sc =? 0xB6) then next_key_raw scs' false else
    if negb (Z.land sc 0x80 =? 0) then next_key_raw scs' shift else
    Some (decode_key sc shift, scs', shift)
  end.

(** ** The two key readers agree *)

(** Polling until a key appears. *)
Fixpoint poll_keys (n : nat) (scs : list Z) (shift : bool) : option (Key * list Z * bool) :=
  match n with
  | O => None
  | S n' =>
    match try_next_key_raw scs shift with
    | (Some k, scs', sh) => Some (k, scs', sh)
    | (None, scs', sh) => poll_keys n' scs' sh
    end
  end.

Lemma next_key_polls scs shift : next_key_raw scs shift = poll_keys (length scs) scs shift.
Proof.
  revert shift; induction scs as [|sc scs IH]; intros shift; [done|].
  cbn [next_key_raw length poll_keys try_next_key_raw].
  destruct (_ || _); [apply IH|]. destruct (_ || _); [apply IH|].
  destruct (negb _); [apply IH|done].
Qed.

Lemma next_key_consumes scs shift k scs' sh :
  next_key_raw scs shift = Some (k, scs', sh) -> (length scs' < length scs)%nat.
Proof.
  revert shift; induction scs as [|sc scs IH]; intros shift; cbn [next_key_raw length]; [done|].
  repeat case_split; try (intros H%IH; lia). intros [= <- <- <-]. lia.
Qed.
