(* ===== verification/Text.v ===== *)
(** * Strings as the kernel's Rust code handles them

    A [str] is its UTF-8 bytes; slicing, inserting and removing panic off a
    character boundary. *)

From S2P Require Import Prelude NetStack.

(** [s.is_char_boundary(i)] *)
Definition is_char_boundary (s : list Z) (i : nat) : bool :=
  (i =? 0)%nat || (i =? length s)%nat ||
  match s !! i with Some b => negb ((128 <=? b) && (b <? 192)) | None => false end.

(** The bytes of the character starting with [b]. *)
Definition char_width (b : Z) : nat :=
  if b <? 128 then 1 else if b <? 224 then 2 else if b <? 240 then 3 else 4.

(** [c.encode_utf8(..)] *)
Definition encode_char (c : Z) : list Z :=
  if c <? 128 then [c] else
  if c <? 2048 then [192 + c / 64; 128 + c mod 64] else
  if c <? 65536 then [224 + c / 4096; 128 + c / 64 mod 64; 128 + c mod 64] else
  [240 + c / 262144; 128 + c / 4096 mod 64; 128 + c / 64 mod 64; 128 + c mod 64].

Definition string_insert {E} (s : list Z) (i : nat) (c : Z) : result E (list Z) :=
  if is_char_boundary s i then Ok (take i s ++ encode_char c ++ drop i s) else Panic.

Definition string_remove {E} (s : list Z) (i : nat) : result E (list Z) :=
  match s !! i with
  | Some b => if is_char_boundary s i then Ok (take i s ++ drop (i + char_width b) s) else Panic
  | None => Panic
  end.

(** [a.starts_with(p)], [s.ends_with(p)] *)
Definition starts_with (s p : list Z) : bool := bytes_eqb (take (length p) s) p.
Definition ends_with (s p : list Z) : bool :=
  (length p <=? length s)%nat && bytes_eqb (drop (length s - length p) s) p.

(** A [usize] in decimal. *)
Definition show_usize (n : nat) : list Z := dec_text 19 (Z.of_nat n) [].

(** [&s[a..b]] *)
Definition str_slice {E} (s : list Z) (a b : nat) : result E (list Z) :=
  if (a <=? b)%nat && (b <=? length s)%nat && is_char_boundary s a && is_char_boundary s b
  then Ok (take (b - a) (drop a s)) else Panic.

(** [trim_start_matches(c)] and [trim_end_matches(c)] for one ASCII character. *)
Fixpoint trim_start (c : Z) (s : list Z) : list Z :=
  match s with
  | b :: s' => if b =? c then trim_start c s' else s
  | [] => []
  end.
Definition trim_end (c : Z) (s : list Z) : list Z := rev (trim_start c (rev s)).

(** How many bytes at the front satisfy [p]. *)
Fixpoint span_while (p : Z -> bool) (l : list Z) : nat :=
  match l with
  | b :: l' => if p b then S (span_while p l') else 0
  | [] => 0
  end.

(** [char::is_whitespace] and [char::is_alphanumeric] below U+0100. *)
Definition is_whitespace (c : Z) : bool :=
  ((9 <=? c) && (c <=? 13)) || (c =? 32) || (c =? 0x85) || (c =? 0xA0).
Definition is_digit_byte (c : Z) : bool := (48 <=? c) && (c <=? 57).
Definition is_alphanumeric (c : Z) : bool :=
  is_digit_byte c || ((65 <=? c) && (c <=? 90)) || ((97 <=? c) && (c <=? 122)) ||
  bool_decide (c ∈ [0xAA; 0xB2; 0xB3; 0xB5; 0xB9; 0xBA; 0xBC; 0xBD; 0xBE]) ||
  ((0xC0 <=? c) && (c <=? 0xFF) && negb (c =? 0xD7) && negb (c =? 0xF7)).
