(* ===== verification/Editor.v ===== *)
(** * The command line editor ([kernel/src/shell/command_line_editor.rs]) and
    the serial key decoder ([kernel/src/drivers/serial.rs])

    The buffer is a Rust [String]: its bytes, with [insert] and [remove]
    panicking off a character boundary. *)

From S2P Require Import Prelude World Text.

(** ** The editor *)

Definition PROMPT : list Z := str "> ".

Record CommandLineEditor := mkEditor {
  buffer : list Z;
  cursor_pos : nat;
  history : list (list Z);
  history_index : nat;
  needs_render : bool
}.

Definition new_editor : CommandLineEditor := mkEditor [] 0 [] 0 true.

Definition edited (b : list Z) (c : nat) (e : CommandLineEditor) := mkEditor b c (history e) (history_index e) true.

Definition request_render (e : CommandLineEditor) : CommandLineEditor :=
  mkEditor (buffer e) (cursor_pos e) (history e) (history_index e) true.

Section ops.
Context {E : Type}.
Notation R := (result E CommandLineEditor).

Definition insert_char (c : Z) (e : CommandLineEditor) : R :=
  let? b := if (cursor_pos e <? length (buffer e))%nat then string_insert (buffer e) (cursor_pos e) c
            else Ok (buffer e ++ encode_char c) in
  Ok (edited b (cursor_pos e + 1) e).

Definition move_left (e : CommandLineEditor) : CommandLineEditor :=
  if (0 <? cursor_pos e)%nat then edited (buffer e) (cursor_pos e - 1) e else e.

Definition move_right (e : CommandLineEditor) : CommandLineEditor :=
  if (cursor_pos e <? length (buffer e))%nat then edited (buffer e) (cursor_pos e + 1) e else e.

Definition delete_left (e : CommandLineEditor) : R :=
  if (0 <? cursor_pos e)%nat then
    let? b := string_remove (buffer e) (cursor_pos e - 1) in Ok (edited b (cursor_pos e - 1) e)
  else Ok e.

Definition delete_right (e : CommandLineEditor) : R :=
  if (cursor_pos e <? length (buffer e))%nat then
    let? b := string_remove (buffer e) (cursor_pos e) in Ok (edited b (cursor_pos e) e)
  else Ok e.

Definition move_home (e : CommandLineEditor) : CommandLineEditor :=
  if negb (cursor_pos e =? 0)%nat then edited (buffer e) 0 e else e.

Definition move_end (e : CommandLineEditor) : CommandLineEditor :=
  if negb (cursor_pos e =? length (buffer e))%nat then edited (buffer e) (length (buffer e)) e else e.

Definition show_entry (b : list Z) (i : nat) (e : CommandLineEditor) := mkEditor b (length b) (history e) i true.

Definition navigate_history_up (e : CommandLineEditor) : R :=
  if negb (bool_decide (history e = [])) && (0 <? history_index e)%nat then
    let i := (history_index e - 1)%nat in
    let? b := or_panic (history e !! i) in Ok (show_entry b i e)
  else Ok e.

Definition navigate_history_down (e : CommandLineEditor) : R :=
  if (history_index e <? length (history e))%nat then
    let i := (history_index e + 1)%nat in
    if (i <? length (history e))%nat then let? b := or_panic (history e !! i) in Ok (show_entry b i e)
    else Ok (show_entry [] i e)
  else Ok e.

(** The prompt line, when something changed since it was last drawn. *)
Definition render (e : CommandLineEditor) : CommandLineEditor * list (list Z) :=
  if needs_render e then
    (mkEditor (buffer e) (cursor_pos e) (history e) (history_index e) false,
     [[13; 27] ++ str "[0K" ++ PROMPT ++ buffer e ++ [27] ++ str "[" ++ show_usize (length PROMPT + cursor_pos e + 1) ++ str "G"])
  else (e, []).

(** With one match the line becomes it, with several they are listed. The
    strings printed are returned. *)
Definition auto_complete (names : list (list Z)) (e : CommandLineEditor) : CommandLineEditor * list (list Z) :=
  match List.filter (fun c => starts_with c (buffer e)) names with
  | [] => (e, [])
  | [m] => render (edited m (length m) e)
  | ms =>
    let '(e', out) := render (request_render e) in
    (e', [[10]] ++ map (fun m => m ++ str " ") ms ++ [[10]] ++ out)
  end.

Definition handle_key (names : list (list Z)) (k : Key) (e : CommandLineEditor) : result E (CommandLineEditor * list (list Z)) :=
  let quiet (r : R) := let? e' := r in Ok (e', []) in
  match k with
  | KeyChar c => quiet (insert_char c e)
  | ArrowLeft => quiet (Ok (move_left e))
  | ArrowRight => quiet (Ok (move_right e))
  | Backspace => quiet (delete_left e)
  | Delete => quiet (delete_right e)
  | Home => quiet (Ok (move_home e))
  | End_ => quiet (Ok (move_end e))
  | ArrowUp => quiet (navigate_history_up e)
  | ArrowDown => quiet (navigate_history_down e)
  | Tab => Ok (auto_complete names e)
  | Enter | Unknown => quiet (Ok e)
  end.

(** The part of [get_input] after a key was found: the finished command. *)
Definition input_key (names : list (list Z)) (k : Key) (e : CommandLineEditor) :
    result E (option (list Z) * CommandLineEditor * list (list Z)) :=
  match k with
  | Enter =>
    if bool_decide (buffer e = []) then Ok (None, e, []) else
    let h := history e ++ [buffer e] in
    Ok (Some (buffer e), mkEditor [] 0 h (length h) true, [])
  | _ => let? r := handle_key names k e in Ok (None, r.1, r.2)
  end.

(** [fmt::Write]: every character of the string is inserted. *)
Fixpoint write_str (cs : list Z) (e : CommandLineEditor) : R :=
  match cs with
  | [] => Ok e
  | c :: cs' => let? e' := insert_char c e in write_str cs' e'
  end.
End ops.

(** ** Serial keys *)

Definition serial_byte_to_key (b : Z) : Key :=
  if (b =? 0x08) || (b =? 0x7F) then Backspace else
  if (b =? 0x0D) || (b =? 0x0A) then Enter else
  if (0x20 <=? b) && (b <=? 0x7E) then KeyChar b else Unknown.

(** * The editor is a text with a cursor

    Key presses on the byte buffer and its index refine a pair of texts, the
    one before and the one after the cursor; on ASCII input no index ever falls
    off a character. *)

Definition ascii (s : list Z) : Prop := Forall (fun b => 0 <= b < 128) s.

(** ** The specification *)

Record Line := mkLine { before : list Z; after : list Z; past : list (list Z); at_past : nat }.

Definition text (z : Line) : list Z := before z ++ after z.
Definition retext (l r : list Z) (z : Line) : Line := mkLine l r (past z) (at_past z).
Definition recall (i : nat) (z : Line) : Line := mkLine (nth i (past z) []) [] (past z) i.

Definition line_key (names : list (list Z)) (k : Key) (z : Line) : option (list Z) * Line :=
  match k with
  | KeyChar c => (None, retext (before z ++ [c]) (after z) z)
  | ArrowLeft => (None, match before z with
                        | [] => z
                        | _ => retext (removelast (before z)) (List.last (before z) 0 :: after z) z end)
  | ArrowRight => (None, match after z with c :: r => retext (before z ++ [c]) r z | [] => z end)
  | Backspace => (None, retext (removelast (before z)) (after z) z)
  | Delete => (None, retext (before z) (tail (after z)) z)
  | Home => (None, retext [] (text z) z)
  | End_ => (None, retext (text z) [] z)
  | ArrowUp => (None, if (0 <? at_past z)%nat then recall (at_past z - 1) z else z)
  | ArrowDown => (None, if (at_past z <? length (past z))%nat then recall (at_past z + 1) z else z)
  | Tab => (None, match List.filter (fun c => starts_with c (text z)) names with
                  | [m] => retext m [] z
                  | _ => z end)
  | Enter => if bool_decide (text z = []) then (None, z)
             else let h := past z ++ [text z] in (Some (text z), mkLine [] [] h (length h))
  | Unknown => (None, z)
  end.

(** ** Byte strings of ASCII *)

Lemma ascii_boundary s i : ascii s -> (i <= length s)%nat -> is_char_boundary s i = true.
Proof.
  intros Hs Hi. unfold is_char_boundary. destruct (i =? length s)%nat eqn:E; zbool; [by rewrite orb_true_r|]. rewrite orb_false_r.
  destruct (i =? 0)%nat; [done|]. cbn [orb]. destruct (lookup_lt_is_Some_2 s i ltac:(lia)) as [b Hb]. rewrite Hb.
  pose proof (Forall_lookup_1 _ _ _ _ Hs Hb) as Hr. cbn in Hr. by rewrite (proj2 (Z.leb_gt _ _)) by lia.
Qed.

Lemma ascii_insert {E} s i c : ascii s -> (i <= length s)%nat -> 0 <= c < 128 ->
  string_insert (E := E) s i c = Ok (take i s ++ [c] ++ drop i s).
Proof. intros Hs Hi Hc. unfold string_insert, encode_char. rewrite ascii_boundary by done. by rewrite (proj2 (Z.ltb_lt _ _)) by lia. Qed.

Lemma ascii_remove {E} s i : ascii s -> (i < length s)%nat -> string_remove (E := E) s i = Ok (take i s ++ drop (i + 1) s).
Proof.
  intros Hs Hi. unfold string_remove, char_width. destruct (lookup_lt_is_Some_2 s i Hi) as [b Hb]. rewrite Hb, ascii_boundary by (done || lia).
  pose proof (Forall_lookup_1 _ _ _ _ Hs Hb) as Hr. cbn in Hr. by rewrite (proj2 (Z.ltb_lt _ _)) by lia.
Qed.

(** ** Refinement *)

Record shows_line (z : Line) (e : CommandLineEditor) : Prop := {
  sl_buffer : buffer e = text z;
  sl_cursor : cursor_pos e = length (before z);
  sl_history : history e = past z;
  sl_index : history_index e = at_past z;
  sl_bound : (at_past z <= length (past z))%nat;
  sl_ascii : ascii (text z);
  sl_past : Forall ascii (past z)
}.

Definition ascii_key (k : Key) : Prop := match k with KeyChar c => 0 <= c < 128 | _ => True end.

Lemma new_editor_shows : shows_line (mkLine [] [] [] 0) new_editor.
Proof. by split; cbn; try done; apply Forall_nil_2. Qed.

(** A new text under the same history. *)
Lemma shows_edited z e l r b c :
  shows_line z e -> b = l ++ r -> c = length l -> ascii (l ++ r) -> shows_line (retext l r z) (edited b c e).
Proof. intros [] -> -> Ha. by split. Qed.

Lemma shows_recall z e b i :
  shows_line z e -> b = nth i (past z) [] -> (i <= length (past z))%nat -> shows_line (recall i z) (show_entry b i e).
Proof.
  intros [] -> Hi. split; cbn; try done; unfold text; cbn; rewrite ?app_nil_r; try done.
  destruct (decide (i < length (past z))%nat) as [Hlt|]; [|rewrite nth_overflow by lia; apply Forall_nil_2].
  by apply (proj1 (List.Forall_nth _ _) sl_past0).
Qed.

Lemma removelast_snoc {A} (l : list A) x : removelast (l ++ [x]) = l.
Proof. by rewrite removelast_app, app_nil_r. Qed.

Lemma rendered_shows z e : shows_line z e -> shows_line z (render e).1.
Proof. intros []. unfold render. destruct (needs_render e); by split. Qed.

(** ** One key at a time *)

Section keys.
Context {E : Type} (z : Line) (e : CommandLineEditor) (Hs : shows_line z e).

Lemma split_text : take (length (before z)) (text z) = before z /\ drop (length (before z)) (text z) = after z.
Proof. unfold text. by rewrite take_app_length, drop_app_length. Qed.

Lemma ascii_parts : ascii (before z) /\ ascii (after z).
Proof. apply Forall_app, (sl_ascii _ _ Hs). Qed.

(** Whether there is text before, or after, the cursor. *)
Lemma text_before : (0 <? cursor_pos e)%nat = negb (bool_decide (before z = [])).
Proof. rewrite (sl_cursor _ _ Hs). by destruct (before z). Qed.

Lemma text_after : (cursor_pos e <? length (buffer e))%nat = negb (bool_decide (after z = [])).
Proof.
  rewrite (sl_cursor _ _ Hs), (sl_buffer _ _ Hs). unfold text. rewrite length_app. destruct (after z); cbn; [|apply Nat.ltb_lt; lia].
  apply Nat.ltb_ge. lia.
Qed.

Lemma insert_refines c : 0 <= c < 128 ->
  exists e', insert_char (E := E) c e = Ok e' /\ shows_line (retext (before z ++ [c]) (after z) z) e'.
Proof.
  intros Hc. destruct ascii_parts as [Hl Hr], split_text as [Ht Hd]. unfold insert_char. rewrite text_after.
  assert (ascii ((before z ++ [c]) ++ after z)) as Ha.
  { rewrite <- app_assoc. apply Forall_app. split; [done|]. by constructor. }
  case_bool_decide as Er; cbn [negb].
  - cbn [rbind]. unfold encode_char. rewrite (proj2 (Z.ltb_lt _ _)) by lia. eexists. split; [done|].
    apply shows_edited with (1 := Hs); [|rewrite length_app, (sl_cursor _ _ Hs); done|done].
    rewrite (sl_buffer _ _ Hs). unfold text. by rewrite Er, !app_nil_r.
  - rewrite (sl_buffer _ _ Hs), (sl_cursor _ _ Hs).
    rewrite ascii_insert by (apply (sl_ascii _ _ Hs) || done || (unfold text; rewrite length_app; lia)). cbn [rbind]. rewrite Ht, Hd.
    eexists. split; [done|]. apply shows_edited with (1 := Hs); [by rewrite <- app_assoc|by rewrite length_app|done].
Qed.

Lemma delete_left_refines :
  exists e', delete_left (E := E) e = Ok e' /\ shows_line (retext (removelast (before z)) (after z) z) e'.
Proof.
  destruct ascii_parts as [Hl Hr]. unfold delete_left. rewrite text_before. case_bool_decide as El; cbn [negb].
  - exists e. split; [done|]. rewrite El. by destruct z, Hs; cbn in *; subst; split.
  - destruct (exists_last El) as (l & x & Ex). rewrite (sl_buffer _ _ Hs), (sl_cursor _ _ Hs). rewrite Ex, removelast_snoc.
    assert (length (before z) = S (length l)) as Hlen by (rewrite Ex, length_app; cbn; lia).
    rewrite <- Ex, Hlen. cbn. rewrite Nat.sub_0_r.
    rewrite ascii_remove by (apply (sl_ascii _ _ Hs) || (unfold text; rewrite length_app; lia)). cbn [rbind]. eexists. split; [done|].
    unfold text. rewrite Ex, <- app_assoc, take_app_length.
    replace (length l + 1)%nat with (length (l ++ [x])) by (by rewrite length_app). rewrite (app_assoc l), drop_app_length.
    apply shows_edited with (1 := Hs); [done..|]. rewrite Ex in Hl. apply Forall_app in Hl as [? _]. by apply Forall_app.
Qed.

Lemma delete_right_refines :
  exists e', delete_right (E := E) e = Ok e' /\ shows_line (retext (before z) (tail (after z)) z) e'.
Proof.
  destruct ascii_parts as [Hl Hr], split_text as [Ht _]. unfold delete_right. rewrite text_after. case_bool_decide as Er; cbn [negb].
  - exists e. split; [done|]. rewrite Er. by destruct z, Hs; cbn in *; subst; split.
  - rewrite (sl_buffer _ _ Hs), (sl_cursor _ _ Hs).
    assert (0 < length (after z))%nat as Hpos by (destruct (after z); [done|cbn; lia]).
    rewrite ascii_remove by (apply (sl_ascii _ _ Hs) || (unfold text; rewrite length_app; lia)). cbn [rbind]. eexists. split; [done|].
    rewrite Ht. apply shows_edited with (1 := Hs); [|done|].
    + f_equal. unfold text. rewrite <- drop_drop, drop_app_length. by destruct (after z).
    + apply Forall_app. split; [done|]. by destruct (after z); [|inversion Hr].
Qed.

Lemma move_left_refines : shows_line (line_key [] ArrowLeft z).2 (move_left e).
Proof.
  unfold move_left. rewrite text_before. cbn [line_key snd]. case_bool_decide as El; cbn [negb]; [by rewrite El|].
  destruct (exists_last El) as (l & x & Ex).
  assert (match before z with [] => z | _ => retext (removelast (before z)) (List.last (before z) 0 :: after z) z end
    = retext l (x :: after z) z) as ->.
  { destruct (before z) as [|a l0]; [done|]. by rewrite Ex, removelast_snoc, List.last_last. }
  assert (text z = l ++ x :: after z) as Et by (unfold text; by rewrite Ex, <- app_assoc).
  apply shows_edited with (1 := Hs); [by rewrite (sl_buffer _ _ Hs)|rewrite (sl_cursor _ _ Hs), Ex, length_app; cbn; lia|].
  rewrite <- Et. apply (sl_ascii _ _ Hs).
Qed.

Lemma move_right_refines : shows_line (line_key [] ArrowRight z).2 (move_right e).
Proof.
  unfold move_right. rewrite text_after. cbn [line_key snd]. case_bool_decide as Er; cbn [negb]; [by rewrite Er|].
  destruct (after z) as [|c r] eqn:Ea; [done|]. assert (text z = (before z ++ [c]) ++ r) as Et by (unfold text; by rewrite Ea, <- app_assoc).
  apply shows_edited with (1 := Hs); [by rewrite (sl_buffer _ _ Hs)|by rewrite (sl_cursor _ _ Hs), length_app|].
  rewrite <- Et. apply (sl_ascii _ _ Hs).
Qed.

Lemma move_home_refines : shows_line (retext [] (text z) z) (move_home e).
Proof.
  unfold move_home. destruct (cursor_pos e =? 0)%nat eqn:El; zbool; cbn [negb].
  - destruct Hs. split; cbn; try done.
  - apply shows_edited with (1 := Hs); [by rewrite (sl_buffer _ _ Hs)|done|apply (sl_ascii _ _ Hs)].
Qed.

Lemma move_end_refines : shows_line (retext (text z) [] z) (move_end e).
Proof.
  unfold move_end. destruct (cursor_pos e =? length (buffer e))%nat eqn:El; zbool; cbn [negb].
  - destruct Hs. split; cbn; try done; unfold text in *; cbn; rewrite ?app_nil_r; try done. congruence.
  - pose proof (sl_buffer _ _ Hs) as Hb. rewrite Hb. apply shows_edited with (1 := Hs); rewrite ?app_nil_r; [done..|apply (sl_ascii _ _ Hs)].
Qed.

Lemma history_up_refines :
  exists e', navigate_history_up (E := E) e = Ok e' /\ shows_line (line_key [] ArrowUp z).2 e'.
Proof.
  pose proof (sl_bound _ _ Hs) as Hb. unfold navigate_history_up. cbn [line_key snd]. rewrite (sl_history _ _ Hs), (sl_index _ _ Hs).
  destruct (0 <? at_past z)%nat eqn:El; zbool; [|by rewrite andb_false_r; exists e].
  rewrite bool_decide_eq_false_2 by (intros E0; rewrite E0 in Hb; cbn in Hb; lia). cbn [negb andb].
  destruct (lookup_lt_is_Some_2 (past z) (at_past z - 1) ltac:(lia)) as [b Hbi]. rewrite Hbi. cbn. eexists. split; [done|].
  apply (shows_recall _ _ _ _ Hs); [symmetry; by apply nth_lookup_Some|lia].
Qed.

Lemma history_down_refines :
  exists e', navigate_history_down (E := E) e = Ok e' /\ shows_line (line_key [] ArrowDown z).2 e'.
Proof.
  unfold navigate_history_down. cbn [line_key snd]. rewrite (sl_history _ _ Hs), (sl_index _ _ Hs).
  destruct (at_past z <? length (past z))%nat eqn:El; zbool; [|by exists e]. destruct (_ <? _)%nat eqn:El2; zbool.
  - destruct (lookup_lt_is_Some_2 (past z) (at_past z + 1) ltac:(lia)) as [b Hbi]. rewrite Hbi. cbn. eexists. split; [done|].
    apply (shows_recall _ _ _ _ Hs); [symmetry; by apply nth_lookup_Some|lia].
  - eexists. split; [done|]. apply (shows_recall _ _ _ _ Hs); [by rewrite nth_overflow by lia|lia].
Qed.

Lemma auto_complete_refines names :
  Forall ascii names -> shows_line (line_key names Tab z).2 (auto_complete names e).1.
Proof.
  intros Hn. unfold auto_complete. cbn [line_key snd]. rewrite (sl_buffer _ _ Hs).
  destruct (List.filter _ names) as [|m [|m' ms]] eqn:Ef; [done| |].
  - apply rendered_shows, shows_edited with (1 := Hs); [by rewrite app_nil_r|done|rewrite app_nil_r].
    rewrite Forall_forall in Hn. apply Hn.
    assert (In m (List.filter (fun c => starts_with c (text z)) names)) as Hm by (rewrite Ef; by left). by apply filter_In in Hm as [? _].
  - pose proof (rendered_shows z (request_render e)) as HR. destruct (render _) as [e' out]. apply HR. by destruct Hs; split.
Qed.

Lemma enter_refines names :
  exists e', input_key (E := E) names Enter e = Ok ((line_key names Enter z).1, e', []) /\ shows_line (line_key names Enter z).2 e'.
Proof.
  cbn [input_key line_key]. rewrite (sl_buffer _ _ Hs). case_bool_decide; [by exists e|]. rewrite (sl_history _ _ Hs). eexists. split; [done|].
  split; cbn; try done; [apply Forall_nil_2|]. apply Forall_app. split; [apply (sl_past _ _ Hs)|]. constructor; [apply (sl_ascii _ _ Hs)|apply Forall_nil_2].
Qed.
End keys.

Lemma input_key_refines {E} names k z e :
  shows_line z e -> ascii_key k -> (k = Tab -> Forall ascii names) ->
  exists e' out, input_key (E := E) names k e = Ok ((line_key names k z).1, e', out) /\ shows_line (line_key names k z).2 e'.
Proof.
  intros Hs Hk Hn. destruct k; cbn [input_key handle_key line_key rbind fst snd].
  - destruct (insert_refines (E := E) z e Hs c Hk) as (e' & -> & H'). by eexists _, _.
  - destruct (delete_left_refines (E := E) z e Hs) as (e' & -> & H'). by eexists _, _.
  - destruct (enter_refines (E := E) z e Hs names) as (e' & E' & H'). by eexists _, _.
  - eexists _, _. split; [done|]. by apply move_left_refines.
  - eexists _, _. split; [done|]. by apply move_right_refines.
  - destruct (history_up_refines (E := E) z e Hs) as (e' & -> & H'). by eexists _, _.
  - destruct (history_down_refines (E := E) z e Hs) as (e' & -> & H'). by eexists _, _.
  - destruct (delete_right_refines (E := E) z e Hs) as (e' & -> & H'). by eexists _, _.
  - eexists _, _. split; [done|]. by apply move_home_refines.
  - eexists _, _. split; [done|]. by apply move_end_refines.
  - eexists _, _. split; [done|]. by apply auto_complete_refines; [|apply Hn].
  - by eexists _, _.
Qed.

(** ** A session *)

Fixpoint line_run (names : list (list Z)) (ks : list Key) (z : Line) : list (list Z) * Line :=
  match ks with
  | [] => ([], z)
  | k :: ks =>
    let '(o, z) := line_key names k z in
    let '(l, z) := line_run names ks z in
    (match o with Some c => c :: l | None => l end, z)
  end.

(** The commands the keys enter. *)
Fixpoint editor_run {E} (names : list (list Z)) (ks : list Key) (e : CommandLineEditor) : result E (list (list Z) * CommandLineEditor) :=
  match ks with
  | [] => Ok ([], e)
  | k :: ks =>
    let? r := input_key names k e in
    let? q := editor_run names ks r.1.2 in
    Ok (match r.1.1 with Some c => c :: q.1 | None => q.1 end, q.2)
  end.

Lemma editor_run_refines {E} names ks z e :
  shows_line z e -> Forall ascii_key ks -> (Tab ∈ ks -> Forall ascii names) ->
  exists e', editor_run (E := E) names ks e = Ok ((line_run names ks z).1, e') /\ shows_line (line_run names ks z).2 e'.
Proof.
  intros Hs Hk Hn. revert z e Hs Hn. induction Hk as [|k ks Hk _ IH]; intros z e Hs Hn; [by exists e|]. cbn [editor_run line_run].
  destruct (input_key_refines (E := E) names k z e Hs Hk) as (e1 & out & -> & H1); [intros ->; apply Hn; by left|]. cbn [rbind fst snd].
  destruct (line_key names k z) as [o z1]. cbn [fst snd] in *. destruct (IH z1 e1 H1) as (e2 & -> & H2); [intros Ht; apply Hn; by right|].
  destruct (line_run names ks z1) as [l z2]. cbn [rbind fst snd] in *. exists e2. by destruct o.
Qed.

(** The keyboard and the serial port only produce ASCII characters. *)
Lemma serial_key_ascii b : ascii_key (serial_byte_to_key b).
Proof. unfold serial_byte_to_key. destruct (_ || _); [done|]. destruct (_ || _); [done|]. destruct (_ && _) eqn:E; [|done]. zbool. cbn. lia. Qed.

Lemma keyboard_key_ascii sc shift : ascii_key (decode_key sc shift).
Proof.
  unfold decode_key. repeat (destruct (_ =? _); [done|]). destruct (scancode_to_char sc shift) as [c|] eqn:Ec; [|done]. cbn.
  unfold scancode_to_char in Ec. apply find_from_some in Ec as (i & Hi & Hr & _). apply bind_Some in Hr as ([[first plain] shifted] & Hrow & Hc).
  assert (Forall (fun r => ascii r.1.2 /\ ascii r.2) key_rows) as Hrows.
  { unfold key_rows. repeat constructor; vm_compute; congruence. }
  pose proof (Forall_lookup_1 _ _ _ _ Hrows Hrow) as [Hp Hsh]. cbn in Hp, Hsh. unfold row_char in Hc.
  destruct (sc <? first); [done|]. destruct shift; [by apply (Forall_lookup_1 _ _ _ _ Hsh Hc)|by apply (Forall_lookup_1 _ _ _ _ Hp Hc)].
Qed.
