(* ===== verification/Machine.v ===== *)
(** * The interpreter's state ([Interpreter], [kernel/src/wasm/interp.rs])

    The fixed-size arrays with their counters, instantiation, the value,
    call and control stacks, and the two ways out of a frame. *)

From S2P Require Import Prelude Leb128 Loader Opcode Jump Sections World.

Inductive BlockKind := Block | Loop | If_.

Record CtrlFrame := mkCtrl { kind : BlockKind; pc_start : nat; end_pc : nat }.
Definition BLANK_CTRL : CtrlFrame := mkCtrl Block 0 0.

Record Frame := mkFrame {
  body_idx : nat;
  pc : nat;
  locals : list Z;
  local_count : nat;
  ctrl_base : nat;
  vsp_base : nat;
  result_count : Z
}.
Definition BLANK_FRAME : Frame := mkFrame 0 0 (replicate MAX_LOCALS 0) 0 0 0 0.

(** A host function: value stack, stack pointer and linear memory, together
    with the kernel state it may change. *)
Definition HostFn : Type :=
  list Z -> nat -> slice -> World -> result InterpError unit * (list Z * nat * slice * World).

(** A pointer into the code buffer: the machine code it points at. *)
Definition JitFn : Type := list Z.

(** The tables instantiation fills and execution only reads. *)
Record Code := mkCode {
  bodies : list (list Z);
  body_count : nat;
  local_counts : list Z;
  type_param_counts : list Z;
  type_result_counts : list Z;
  type_count : nat;
  func_type_indices : list Z;
  all_func_types : list Z;
  import_count : nat;
  table : list Z;
  table_size : nat;
  global_mutable : list bool;
  global_count : nat;
  host_fns : list (option HostFn);
  jump_table : list JumpSlot;
  max_pages : Z
}.

Record Interpreter := mkInterp {
  code : Code;
  vstack : list Z;
  vsp : nat;
  frames : list Frame;
  fdepth : nat;
  ctrl : list CtrlFrame;
  ctrl_depth : nat;
  globals : list Z;
  mem : slice;
  jit_fns : list (option JitFn);
  current_pages : Z;
  yield_requested : bool;
  shadow_stop_fdepth : nat
}.

(** What [run] works on: the interpreter, the kernel around it and the local
    [active_mem] of the dispatch loop. *)
Record St := mkSt { it : Interpreter; world : World; active_mem : Z }.

Definition I := M St InterpError.

(** ** Field updates *)

Definition set_vstack v n (i : Interpreter) := mkInterp (code i) v n (frames i) (fdepth i) (ctrl i)
  (ctrl_depth i) (globals i) (mem i) (jit_fns i) (current_pages i) (yield_requested i) (shadow_stop_fdepth i).
Definition set_frames f n (i : Interpreter) := mkInterp (code i) (vstack i) (vsp i) f n (ctrl i)
  (ctrl_depth i) (globals i) (mem i) (jit_fns i) (current_pages i) (yield_requested i) (shadow_stop_fdepth i).
Definition set_ctrl c n (i : Interpreter) := mkInterp (code i) (vstack i) (vsp i) (frames i) (fdepth i) c
  n (globals i) (mem i) (jit_fns i) (current_pages i) (yield_requested i) (shadow_stop_fdepth i).
Definition set_globals g (i : Interpreter) := mkInterp (code i) (vstack i) (vsp i) (frames i) (fdepth i) (ctrl i)
  (ctrl_depth i) g (mem i) (jit_fns i) (current_pages i) (yield_requested i) (shadow_stop_fdepth i).
Definition set_mem m p (i : Interpreter) := mkInterp (code i) (vstack i) (vsp i) (frames i) (fdepth i) (ctrl i)
  (ctrl_depth i) (globals i) m (jit_fns i) p (yield_requested i) (shadow_stop_fdepth i).
Definition set_jit j (i : Interpreter) := mkInterp (code i) (vstack i) (vsp i) (frames i) (fdepth i) (ctrl i)
  (ctrl_depth i) (globals i) (mem i) j (current_pages i) (yield_requested i) (shadow_stop_fdepth i).
Definition set_yield b (i : Interpreter) := mkInterp (code i) (vstack i) (vsp i) (frames i) (fdepth i) (ctrl i)
  (ctrl_depth i) (globals i) (mem i) (jit_fns i) (current_pages i) b (shadow_stop_fdepth i).
Definition set_stop n (i : Interpreter) := mkInterp (code i) (vstack i) (vsp i) (frames i) (fdepth i) (ctrl i)
  (ctrl_depth i) (globals i) (mem i) (jit_fns i) (current_pages i) (yield_requested i) n.

Definition on_it (f : Interpreter -> Interpreter) : I unit :=
  modify (fun s => mkSt (f (it s)) (world s) (active_mem s)).
Definition on_world (f : World -> World) : I unit :=
  modify (fun s => mkSt (it s) (f (world s)) (active_mem s)).
Definition set_active (a : Z) : I unit :=
  modify (fun s => mkSt (it s) (world s) a).
Definition get {A} (f : Interpreter -> A) : I A := gets (fun s => f (it s)).

(** [a[i]] of an array of the interpreter. *)
Definition index {A} (l : list A) (i : nat) : I A := lift (or_panic (l !! i)).

(** ** Instantiation *)

(** [for i in 0..body_count { let abs = import_count + i; .. }] *)
Fixpoint fill_types (n i import_count : nat) (fti all : list Z) : result InterpError (list Z) :=
  match n with
  | O => Ok all
  | S n' =>
    let abs := (import_count + i)%nat in
    if (abs <? MAX_FUNCS)%nat then
      let? t := or_panic (fti !! i) in
      fill_types n' (S i) import_count fti (<[abs := t]> all)
    else fill_types n' (S i) import_count fti all
  end.

Definition Interpreter_new (module : Module_) (import_count : nat) (mem : slice)
    (host_fns : list (option HostFn)) (initial_pages : Z) : result InterpError Interpreter :=
  let? (type_count, params, results) :=
    match type_section module with
    | Some tb => parse_type_section tb (replicate MAX_TYPES 0) (replicate MAX_TYPES 0)
    | None => Ok (O, replicate MAX_TYPES 0, replicate MAX_TYPES 0)
    end in
  let? fti :=
    match function_section module with
    | Some fb => parse_function_section fb (replicate MAX_FUNCS 0)
    | None => Ok (replicate MAX_FUNCS 0)
    end in
  let? code_bytes := ok_or (code_section module) NoCodeSection in
  let? (body_count, bodies, local_counts) :=
    parse_code_section code_bytes (replicate MAX_FUNCS []) (replicate MAX_FUNCS 0) in
  let? (global_count, globals, global_mutable) :=
    match global_section module with
    | Some gb => parse_global_section gb (replicate MAX_GLOBALS 0) (replicate MAX_GLOBALS false)
    | None => Ok (O, replicate MAX_GLOBALS 0, replicate MAX_GLOBALS false)
    end in
  let? all :=
    match import_section module with
    | Some ib => let? (_, out) := parse_import_func_types ib (replicate MAX_FUNCS 0) in Ok out
    | None => Ok (replicate MAX_FUNCS 0)
    end in
  let? all := fill_types body_count 0 import_count fti all in
  let? (table, table_size) :=
    match element_section module with
    | Some eb => parse_element_section eb (replicate MAX_TABLE NULL_FUNC) 0
    | None => Ok (replicate MAX_TABLE NULL_FUNC, O)
    end in
  let jump_table := build_jump_table (take body_count bodies) in
  let max_pages := as_u32 (slen mem / PAGE_SIZE) in
  Ok (mkInterp
        (mkCode bodies body_count local_counts params results type_count fti all import_count
                table table_size global_mutable global_count host_fns jump_table max_pages)
        (replicate STACK_DEPTH 0) 0 (replicate CALL_DEPTH BLANK_FRAME) 0
        (replicate MAX_CTRL_DEPTH BLANK_CTRL) 0 globals mem (replicate MAX_FUNCS None)
        initial_pages false 0).

Definition active_mem_bytes (i : Interpreter) : Z := current_pages i * PAGE_SIZE.

Definition reset_for_call (i : Interpreter) : Interpreter :=
  set_yield false (set_ctrl (ctrl i) 0 (set_frames (frames i) 0 (set_vstack (vstack i) 0 i))).

Definition top (i : Interpreter) : result InterpError (option Z) :=
  if (0 <? vsp i)%nat then let? v := or_panic (vstack i !! (vsp i - 1)%nat) in Ok (Some v) else Ok None.

(** ** Stacks *)

Definition v_push (v : Z) : I unit :=
  let! n := get vsp in
  if (STACK_DEPTH <=? n)%nat then fail StackOverflow else
  on_it (fun i => set_vstack (<[n := v]> (vstack i)) (S n) i).

Definition v_pop : I Z :=
  let! n := get vsp in
  if (n =? 0)%nat then fail StackUnderflow else
  do! on_it (fun i => set_vstack (vstack i) (n - 1) i) in
  let! vs := get vstack in
  index vs (n - 1).

Definition ctrl_push (cf : CtrlFrame) : I unit :=
  let! d := get ctrl_depth in
  if (MAX_CTRL_DEPTH <=? d)%nat then fail CtrlStackOverflow else
  on_it (fun i => set_ctrl (<[d := cf]> (ctrl i)) (S d) i).

(** Parameter and result counts of a type index, 0 when it is out of range. *)
Definition sig_counts (type_idx : Z) : I (Z * Z) :=
  let! c := get code in
  if type_idx <? Z.of_nat (type_count c) then
    let! p := index (type_param_counts c) (Z.to_nat type_idx) in
    let! r := index (type_result_counts c) (Z.to_nat type_idx) in
    ret (p, r)
  else ret (0, 0).

(** [for i in (0..n).rev() { locals[i] = self.v_pop()?; }] *)
Fixpoint pop_params (n : nat) (ls : list Z) : I (list Z) :=
  match n with
  | O => ret ls
  | S n' => let! v := v_pop in pop_params n' (<[n' := v]> ls)
  end.

Definition push_frame (body_idx : nat) : I unit :=
  let! d := get fdepth in
  if (CALL_DEPTH <=? d)%nat then fail CallStackOverflow else
  let! c := get code in
  let! type_idx := index (func_type_indices c) body_idx in
  let! (param_count, result_count) := sig_counts type_idx in
  let! decl_count := index (local_counts c) body_idx in
  let total := param_count + decl_count in
  if Z.of_nat MAX_LOCALS <? total then fail TooManyLocals else
  let! cb := get ctrl_depth in
  let! ls := pop_params (Z.to_nat param_count) (replicate MAX_LOCALS 0) in
  let! vb := get vsp in
  on_it (fun i => set_frames
    (<[d := mkFrame body_idx 0 ls (Z.to_nat total) cb vb result_count]> (frames i)) (S d) i).

(** Writes a field of the frame at [fi]. *)
Definition set_frame_pc (fi : nat) (p : nat) : I unit :=
  let! f := let! fs := get frames in index fs fi in
  on_it (fun i => set_frames
    (<[fi := mkFrame (body_idx f) p (locals f) (local_count f) (ctrl_base f) (vsp_base f) (result_count f)]>
       (frames i)) (fdepth i) i).

Definition set_frame_local (fi idx : nat) (v : Z) : I unit :=
  let! f := let! fs := get frames in index fs fi in
  on_it (fun i => set_frames
    (<[fi := mkFrame (body_idx f) (pc f) (<[idx := v]> (locals f)) (local_count f) (ctrl_base f)
                     (vsp_base f) (result_count f)]> (frames i)) (fdepth i) i).

(** ** Leaving a frame *)

(** [for i in 0..n { vstack[dst + i] = vstack[src + i]; }] *)
Fixpoint copy_results (n : nat) (src dst : nat) (vs : list Z) : result InterpError (list Z) :=
  match n with
  | O => Ok vs
  | S n' =>
    let? v := or_panic (vs !! src) in
    if (dst <? length vs)%nat then copy_results n' (S src) (S dst) (<[dst := v]> vs) else Panic
  end.

Definition do_return : I unit :=
  let! d := get fdepth in
  let fi := (d - 1)%nat in
  let! f := let! fs := get frames in index fs fi in
  let! vs := get vstack in
  let! sp := get vsp in
  let rc := result_count f in
  let src := Z.to_nat (Z.of_nat sp - rc) in
  (* more results than the stack has slots: some index is out of range *)
  let! vs' := if Z.of_nat STACK_DEPTH <? rc then panic
              else lift (copy_results (Z.to_nat rc) src (vsp_base f) vs) in
  do! on_it (set_vstack vs' (vsp_base f + Z.to_nat rc)) in
  do! on_it (fun i => set_ctrl (ctrl i) (ctrl_base f) i) in
  on_it (fun i => set_frames (frames i) (d - 1) i).

Definition do_br (n : Z) : I unit :=
  let! d := get fdepth in
  let fi := (d - 1)%nat in
  let! f := let! fs := get frames in index fs fi in
  let! cd := get ctrl_depth in
  if (cd <? ctrl_base f)%nat then panic else
  let available := (cd - ctrl_base f)%nat in
  if Z.of_nat available <=? n then do_return else
  let target_abs := (cd - 1 - Z.to_nat n)%nat in
  let! cf := let! cs := get ctrl in index cs target_abs in
  match kind cf with
  | Loop =>
    do! on_it (fun i => set_ctrl (ctrl i) (target_abs + 1) i) in
    set_frame_pc fi (pc_start cf)
  | Block | If_ =>
    do! on_it (fun i => set_ctrl (ctrl i) target_abs i) in
    set_frame_pc fi (end_pc cf + 1)
  end.
