(* ===== verification/Dispatch.v ===== *)
(** * The dispatch loop ([Interpreter::run], [kernel/src/wasm/interp.rs])

    One handler per arm of the opcode [match], gathered in tables, and the
    loop around them. A handler either falls through to the write-back of the
    program counter ([Next]) or restarts the loop ([Continue], the source's
    [continue 'outer]). *)

From S2P Require Import Prelude Leb128 Opcode IntOps FloatOps Jump Sections World Machine.

(** How a call of machine code ends. It is given the bases of linear memory,
    globals and locals. Either it used nothing but these three buffers and its
    own part of the stack, and returned a value; or it left them: the emitted
    code checks no index, so an invalid body may write anywhere, and nothing is
    known of the kernel afterwards. *)
Inductive native_end :=
| Returned (value : Z) (memory : slice) (globals locals : list Z)
| Strayed.

(** The cargo features of the kernel build, and what the processor does when it
    calls machine code. *)
Class Features := {
  kernel_jit : bool;
  jit_shadow : bool;
  native_call : JitFn -> slice -> list Z -> list Z -> native_end
}.

(** The model goes no further where machine code strayed. *)
Definition confined (e : native_end) : result InterpError (Z * slice * list Z * list Z) :=
  match e with Returned v m gs ls => Ok (v, m, gs, ls) | Strayed => Panic end.

(** What the loop hoists out of the current frame. *)
Record ctx := mkCtx { fi : nat; c_body_idx : nat; body : list Z; c_pc : nat }.

Inductive flow := Next (pc : nat) | Continue.

Definition handler : Type := ctx -> I flow.

(** Runs [m] and turns an error into [None] ([.is_err()], [.is_ok()]). *)
Definition catch {A} (m : I A) : I (option A) := fun s =>
  match m s with
  | (Ok a, s') => (Ok (Some a), s')
  | (Err _, s') => (Ok None, s')
  | (Panic, s') => (Panic, s')
  | (OutOfFuel, s') => (OutOfFuel, s')
  end.

(** ** nop, unreachable, block, loop, if, else, end *)

Definition exec_block (k : BlockKind) : handler := fun c =>
  let pc_body := (c_pc c + 1)%nat in
  let! jt := get (fun i => jump_table (code i)) in
  let! (e, _) := lift (block_targets jt (body c) (c_body_idx c) pc_body) in
  do! ctrl_push (mkCtrl k pc_body e) in
  ret (Next pc_body).

Definition exec_if : handler := fun c =>
  let pc_body := (c_pc c + 1)%nat in
  let! jt := get (fun i => jump_table (code i)) in
  let! (e, else_pc) := lift (block_targets jt (body c) (c_body_idx c) pc_body) in
  let! cond := v_pop in
  if negb (cond =? 0) then
    do! ctrl_push (mkCtrl If_ pc_body e) in ret (Next pc_body)
  else
    match else_pc with
    | Some ep => do! ctrl_push (mkCtrl If_ pc_body e) in ret (Next (ep + 1))
    | None => ret (Next (e + 1))
    end.

Definition exec_else : handler := fun c =>
  let! d := get ctrl_depth in
  if (d =? 0)%nat then panic else
  let! cf := let! cs := get ctrl in index cs (d - 1) in
  do! on_it (fun i => set_ctrl (ctrl i) (d - 1) i) in
  ret (Next (end_pc cf + 1)).

Definition exec_end : handler := fun c =>
  let! d := get ctrl_depth in
  let! f := let! fs := get frames in index fs (fi c) in
  if (ctrl_base f <? d)%nat then
    do! on_it (fun i => set_ctrl (ctrl i) (d - 1) i) in ret (Next (c_pc c))
  else do! do_return in ret Continue.

Definition control_ops : list (Z * handler) :=
  [ (OP_NOP, fun c => ret (Next (c_pc c)));
    (OP_UNREACHABLE, fun _ => fail Unreachable);
    (OP_BLOCK, exec_block Block);
    (OP_LOOP, exec_block Loop);
    (OP_IF, exec_if);
    (OP_ELSE, exec_else);
    (OP_END, exec_end) ].

(** ** br, br_if, br_table, return *)

Definition exec_br : handler := fun c =>
  let! (n, consumed) := lift (read_u32_at (body c) (c_pc c)) in
  do! set_frame_pc (fi c) (c_pc c + consumed) in
  do! do_br n in
  ret Continue.

Definition exec_br_if : handler := fun c =>
  let! (n, consumed) := lift (read_u32_at (body c) (c_pc c)) in
  let pc := (c_pc c + consumed)%nat in
  let! cond := v_pop in
  if negb (cond =? 0) then
    do! set_frame_pc (fi c) pc in do! do_br n in ret Continue
  else ret (Next pc).

(** The loop over the labels: [sel] is the index taken. *)
Fixpoint walk_labels (n : nat) (k sel : Z) (body : list Z) (pos : nat) (target : Z)
    : result InterpError (nat * Z) :=
  match n with
  | O => Ok (pos, target)
  | S n' =>
    let? (label, ln) := read_u32_at body pos in
    walk_labels n' (k + 1) sel body (pos + ln) (if k =? sel then label else target)
  end.

Definition exec_br_table : handler := fun c =>
  let! (count, n) := lift (read_u32_at (body c) (c_pc c)) in
  let! v := v_pop in
  let i := as_u32 v in
  let sel := if i <? count then i else count in
  let! (pos, target_label) :=
    lift (walk_labels (S (Z.to_nat count)) 0 sel (body c) (c_pc c + n) 0) in
  do! set_frame_pc (fi c) pos in
  do! do_br target_label in
  ret Continue.

Definition branch_ops : list (Z * handler) :=
  [ (OP_BR, exec_br);
    (OP_BR_IF, exec_br_if);
    (OP_BR_TABLE, exec_br_table);
    (OP_RETURN, fun _ => do! do_return in ret Continue) ].

(** ** drop, select, locals, globals *)

Definition exec_select : handler := fun c =>
  let! cond := v_pop in
  let! b := v_pop in
  let! a := v_pop in
  do! v_push (if negb (cond =? 0) then a else b) in
  ret (Next (c_pc c)).

(** The frame, the index immediate and the program counter after it. *)
Definition local_index (c : ctx) : I (Frame * nat * nat) :=
  let! (idx, consumed) := lift (read_u32_at (body c) (c_pc c)) in
  let! f := let! fs := get frames in index fs (fi c) in
  if Z.of_nat (local_count f) <=? idx then fail LocalIndexOutOfRange
  else ret (f, Z.to_nat idx, c_pc c + consumed)%nat.

Definition exec_local_get : handler := fun c =>
  let! (f, idx, pc) := local_index c in
  let! val := index (locals f) idx in
  do! v_push val in
  ret (Next pc).

Definition exec_local_set : handler := fun c =>
  let! (f, idx, pc) := local_index c in
  let! val := v_pop in
  do! set_frame_local (fi c) idx val in
  ret (Next pc).

Definition exec_local_tee : handler := fun c =>
  let! (f, idx, pc) := local_index c in
  let! n := get vsp in
  if (n =? 0)%nat then fail StackUnderflow else
  let! val := let! vs := get vstack in index vs (n - 1) in
  do! set_frame_local (fi c) idx val in
  ret (Next pc).

Definition global_index (c : ctx) : I (nat * nat) :=
  let! (idx, consumed) := lift (read_u32_at (body c) (c_pc c)) in
  let! n := get (fun i => global_count (code i)) in
  if Z.of_nat n <=? idx then fail GlobalIndexOutOfRange
  else ret (Z.to_nat idx, c_pc c + consumed)%nat.

Definition exec_global_get : handler := fun c =>
  let! (idx, pc) := global_index c in
  let! val := let! gs := get globals in index gs idx in
  do! v_push val in
  ret (Next pc).

Definition exec_global_set : handler := fun c =>
  let! (idx, pc) := global_index c in
  let! m := let! ms := get (fun i => global_mutable (code i)) in index ms idx in
  if negb m then fail GlobalImmutable else
  let! val := v_pop in
  do! on_it (fun i => set_globals (<[idx := val]> (globals i)) i) in
  ret (Next pc).

Definition variable_ops : list (Z * handler) :=
  [ (OP_DROP, fun c => do! v_pop in ret (Next (c_pc c)));
    (OP_SELECT, exec_select);
    (OP_LOCAL_GET, exec_local_get);
    (OP_LOCAL_SET, exec_local_set);
    (OP_LOCAL_TEE, exec_local_tee);
    (OP_GLOBAL_GET, exec_global_get);
    (OP_GLOBAL_SET, exec_global_set) ].

(** ** Loads and stores *)

(** [addr.wrapping_add(offset)] and the bounds check of a [w]-byte access. *)
Definition effective (a offset : Z) : Z := as_usize (as_u32 a + offset).
Definition out_of_bounds (w ea active : Z) : bool :=
  if w =? 1 then active <=? ea else active <? ea + w.

(** [w] bytes at the effective address, read as a little-endian number. *)
Definition exec_load (w : Z) (conv : Z -> Z) : handler := fun c =>
  let! (offset, consumed) := lift (read_memarg (body c) (c_pc c)) in
  let! a := v_pop in
  let ea := effective a offset in
  let! am := gets active_mem in
  if out_of_bounds w ea am then fail MemOutOfBounds else
  let! m := get mem in
  let! bs := lift (sread_range m ea (ea + w)) in
  do! v_push (conv (le_bytes bs)) in
  ret (Next (c_pc c + consumed)).

Definition load_ops : list (Z * (Z * (Z -> Z))) :=
  [ (OP_I32_LOAD, (4, as_i32));
    (OP_I32_LOAD8_U, (1, fun v => v));
    (OP_I64_LOAD, (8, as_i64));
    (0x2A, (4, fun v => v));
    (0x2B, (8, as_i64));
    (OP_I32_LOAD8_S, (1, as_i8));
    (OP_I32_LOAD16_S, (2, as_i16));
    (OP_I32_LOAD16_U, (2, fun v => v));
    (OP_I64_LOAD8_S, (1, as_i8));
    (OP_I64_LOAD8_U, (1, fun v => v));
    (OP_I64_LOAD16_S, (2, as_i16));
    (OP_I64_LOAD16_U, (2, fun v => v));
    (OP_I64_LOAD32_S, (4, as_i32));
    (OP_I64_LOAD32_U, (4, fun v => v)) ].

(** A write to linear memory, then the program counter. *)
Definition write_mem (f : slice -> result InterpError slice) (pc : nat) : I flow :=
  let! m := get mem in
  let! m' := lift (f m) in
  do! on_it (fun i => set_mem m' (current_pages i) i) in
  ret (Next pc).

(** The low [w] bytes of the value, little-endian. *)
Definition exec_store (w : Z) : handler := fun c =>
  let! (offset, consumed) := lift (read_memarg (body c) (c_pc c)) in
  let! val := v_pop in
  let! a := v_pop in
  let ea := effective a offset in
  let! am := gets active_mem in
  if out_of_bounds w ea am then fail MemOutOfBounds else
  write_mem (fun m => swrite_bytes m ea (to_le_bytes (Z.to_nat w) val)) (c_pc c + consumed).

Definition store_ops : list (Z * Z) :=
  [ (OP_I32_STORE, 4);
    (OP_I32_STORE8, 1);
    (OP_I64_STORE, 8);
    (0x38, 4);
    (0x39, 8);
    (OP_I32_STORE16, 2);
    (OP_I64_STORE8, 1);
    (OP_I64_STORE16, 2);
    (OP_I64_STORE32, 4) ].

(** ** memory.size, memory.grow, constants *)

Definition exec_memory_size : handler := fun c =>
  let! p := get current_pages in
  do! v_push p in
  ret (Next (c_pc c + 1)).

Definition exec_memory_grow : handler := fun c =>
  let! d := v_pop in
  let delta := as_u32 d in
  let! old := get current_pages in
  let! maxp := get (fun i => max_pages (code i)) in
  if Z.min (old + delta) U32_MAX <=? maxp then
    let! m := get mem in
    let! m' := lift (sfill m (old * PAGE_SIZE) ((old + delta) * PAGE_SIZE) 0) in
    do! on_it (set_mem m' (old + delta)) in
    do! set_active ((old + delta) * PAGE_SIZE) in
    do! v_push old in
    ret (Next (c_pc c + 1))
  else
    do! v_push (-1) in
    ret (Next (c_pc c + 1)).

Definition exec_const (read : list Z -> nat -> result InterpError (Z * nat)) : handler := fun c =>
  let! (val, consumed) := lift (read (body c) (c_pc c)) in
  do! v_push val in
  ret (Next (c_pc c + consumed)).

(** f32.const and f64.const: [w] literal bytes. *)
Definition exec_fconst (w : nat) (conv : Z -> Z) : handler := fun c =>
  if (length (body c) <? c_pc c + w)%nat then fail MalformedCode else
  let! bs := lift (slice_range (body c) (c_pc c) (c_pc c + w)) in
  do! v_push (conv (le_bytes bs)) in
  ret (Next (c_pc c + w)).

Definition const_ops : list (Z * handler) :=
  [ (OP_MEMORY_SIZE, exec_memory_size);
    (OP_MEMORY_GROW, exec_memory_grow);
    (OP_I32_CONST, exec_const read_i32_at);
    (OP_I64_CONST, exec_const read_i64_at);
    (0x43, exec_fconst 4 (fun v => v));
    (0x44, exec_fconst 8 as_i64) ].

(** ** Numeric instructions *)

Definition exec_un (f : unop) (pc : nat) : I flow :=
  let! a := v_pop in
  let! r := lift (f a) in
  do! v_push r in
  ret (Next pc).

Definition exec_bin (f : binop) (pc : nat) : I flow :=
  let! b := v_pop in
  let! a := v_pop in
  let! r := lift (f a b) in
  do! v_push r in
  ret (Next pc).

(** The reinterpretations whose bits are already right. *)
Definition reinterpret_ops : list (Z * handler) :=
  [ (0xBD, fun c => ret (Next (c_pc c)));
    (0xBE, fun c => ret (Next (c_pc c)));
    (0xBF, fun c => ret (Next (c_pc c))) ].

(** ** The 0xFC prefix: bulk memory *)

Definition exec_memory_init (c : ctx) (pc : nat) : I flow :=
  let! (_, n) := lift (read_u32_at (body c) pc) in
  let! count := v_pop in
  let! _ := v_pop in
  let! _ := v_pop in
  if negb (as_usize count =? 0) then
    do! on_world (emit (PrintMemoryInit (as_usize count))) in fail (UnknownOpcode 0xFC)
  else ret (Next (pc + (n + 1))).

Definition exec_data_drop (c : ctx) (pc : nat) : I flow :=
  let! (_, n) := lift (read_u32_at (body c) pc) in
  ret (Next (pc + n)).

Definition exec_memory_copy (c : ctx) (pc : nat) : I flow :=
  let! vn := v_pop in
  let! vsrc := v_pop in
  let! vdst := v_pop in
  let n := as_usize vn in
  let src := as_usize vsrc in
  let dst := as_usize vdst in
  let! am := gets active_mem in
  if (am <? sat_add_usize src n) || (am <? sat_add_usize dst n) then fail MemOutOfBounds else
  write_mem (fun m => scopy_within m src n dst) (pc + 2).

Definition exec_memory_fill (c : ctx) (pc : nat) : I flow :=
  let! vn := v_pop in
  let! vval := v_pop in
  let! vdst := v_pop in
  let n := as_usize vn in
  let dst := as_usize vdst in
  let! am := gets active_mem in
  if am <? sat_add_usize dst n then fail MemOutOfBounds else
  write_mem (fun m => sfill m dst (dst + n) (as_u8 vval)) (pc + 1).

(** ** Calls *)

(** [host(&mut self.vstack, &mut self.vsp, &mut *self.mem)] *)
Definition call_host (h : HostFn) : I unit := fun s =>
  let i := it s in
  let '(r, (vs, n, m, w)) := h (vstack i) (vsp i) (mem i) (world s) in
  (r, mkSt (set_mem m (current_pages i) (set_vstack vs n i)) w (active_mem s)).

(** [FUNC_CALL_COUNT[callee] = FUNC_CALL_COUNT[callee].saturating_add(1)] *)
Definition count_call (callee : Z) : I unit :=
  if callee <? Z.of_nat MAX_FUNCS then
    on_world (fun w =>
      let k := Z.to_nat callee in
      set_counters (OPCODE_COUNT w)
        (<[k := Z.min (nth k (FUNC_CALL_COUNT w) 0 + 1) U32_MAX]> (FUNC_CALL_COUNT w)) w)
  else ret tt.

Definition call_import (callee : nat) : I unit :=
  let! hs := get (fun i => host_fns (code i)) in
  let! h := index hs callee in
  let! h := lift (ok_or h ImportNotFound) in
  call_host h.

(** [for &p in params { self.v_push(p)? }] *)
Fixpoint push_all (ps : list Z) : I unit :=
  match ps with
  | [] => ret tt
  | p :: ps' => do! v_push p in push_all ps'
  end.

Section shadow.
Context `{Features} (run : I unit).

Definition run_shadow (callee_body : nat) (params : list Z) (n_results : Z) : I (option Z) :=
  let! saved_stop := get shadow_stop_fdepth in
  let! saved_vsp := get vsp in
  do! on_it (fun i => set_stop (fdepth i) i) in
  let restore := do! on_it (set_stop saved_stop) in on_it (fun i => set_vstack (vstack i) saved_vsp i) in
  let! pushed := catch (push_all params) in
  match pushed with
  | None => do! restore in ret None
  | Some _ =>
    let! framed := catch (push_frame callee_body) in
    match framed with
    | None => do! restore in ret None
    | Some _ =>
      let! am := gets active_mem in
      let! ok := catch run in
      do! set_active am in
      do! on_it (set_stop saved_stop) in
      match ok with
      | None => do! on_it (fun i => set_vstack (vstack i) saved_vsp i) in ret None
      | Some _ =>
        let! n := get vsp in
        if (0 <? n_results) && (saved_vsp <? n)%nat then
          let! r := let! vs := get vstack in index vs (n - 1) in
          do! on_it (fun i => set_vstack (vstack i) (n - 1) i) in
          ret (Some r)
        else
          do! on_it (fun i => set_vstack (vstack i) saved_vsp i) in ret (Some 0)
      end
    end
  end.

(** The native fast path of [call]. *)
Definition exec_jit (jit_fn : JitFn) (callee callee_body : nat) : I flow :=
  let! type_idx := let! c := get code in index (all_func_types c) callee in
  let! (n_params, n_results) := sig_counts type_idx in
  let! n := get vsp in
  if Z.of_nat n <? n_params then fail StackUnderflow else
  let! locals :=
    if Z.of_nat MAX_LOCALS <? n_params then panic
    else pop_params (Z.to_nat n_params) (replicate MAX_LOCALS 0) in
  let! i := get (fun i => i) in
  let! (jit_result, m', gs', locals) := lift (confined (native_call jit_fn (mem i) (globals i) locals)) in
  do! on_it (fun i => set_globals gs' (set_mem m' (current_pages i) i)) in
  do! if jit_shadow then
        let! sr := run_shadow callee_body (take (Z.to_nat n_params) locals) n_results in
        match sr with
        | Some v =>
          if (0 <? n_results) && negb (v =? jit_result)
          then on_world (emit (PrintMismatch callee jit_result v)) else ret tt
        | None => ret tt
        end
      else ret tt in
  do! if 0 <? n_results then v_push jit_result else ret tt in
  ret Continue.

Definition exec_call : handler := fun c =>
  let! (callee, consumed) := lift (read_u32_at (body c) (c_pc c)) in
  do! count_call callee in
  do! set_frame_pc (fi c) (c_pc c + consumed) in
  let! cd := get code in
  if callee <? Z.of_nat (import_count cd) then
    do! call_import (Z.to_nat callee) in ret Continue
  else
    let callee_body := (Z.to_nat callee - import_count cd)%nat in
    if (body_count cd <=? callee_body)%nat then fail FuncIndexOutOfRange else
    let! jit :=
      if kernel_jit then
        let! js := get jit_fns in index js (Z.to_nat callee)
      else ret None in
    match jit with
    | Some jit_fn => exec_jit jit_fn (Z.to_nat callee) callee_body
    | None => do! push_frame callee_body in ret Continue
    end.
End shadow.

Definition exec_call_indirect : handler := fun c =>
  let! (expected_type, n1) := lift (read_u32_at (body c) (c_pc c)) in
  let! (_, n2) := lift (read_u32_at (body c) (c_pc c + n1)) in
  let! v := v_pop in
  let i := as_u32 v in
  let! cd := get code in
  if Z.of_nat (table_size cd) <=? i then fail IndirectCallNull else
  let! callee := index (table cd) (Z.to_nat i) in
  if callee =? NULL_FUNC then fail IndirectCallNull else
  do! count_call callee in
  let! actual_type :=
    if callee <? Z.of_nat MAX_FUNCS then index (all_func_types cd) (Z.to_nat callee)
    else ret USIZE_MAX in
  if negb (actual_type =? expected_type) then fail IndirectCallTypeMismatch else
  do! set_frame_pc (fi c) (c_pc c + (n1 + n2)) in
  if callee <? Z.of_nat (import_count cd) then
    do! call_import (Z.to_nat callee) in ret Continue
  else
    let callee_body := (Z.to_nat callee - import_count cd)%nat in
    if (body_count cd <=? callee_body)%nat then fail FuncIndexOutOfRange else
    do! push_frame callee_body in ret Continue.

(** ** The loop *)

Section dispatch.
Context `{FloatEnv} `{Features}.

Definition exec_prefix_fc : handler := fun c =>
  let! (sub_op, consumed) := lift (read_u32_at (body c) (c_pc c)) in
  let pc := (c_pc c + consumed)%nat in
  match assoc sub_op trunc_sat with
  | Some f => exec_un f pc
  | None =>
    if sub_op =? 8 then exec_memory_init c pc else
    if sub_op =? 9 then exec_data_drop c pc else
    if sub_op =? 10 then exec_memory_copy c pc else
    if sub_op =? 11 then exec_memory_fill c pc else
    do! on_world (emit (PrintUnknownSub sub_op)) in fail (UnknownOpcode 0xFC)
  end.

Definition plain_ops : list (Z * handler) :=
  control_ops ++ branch_ops ++ variable_ops ++ const_ops ++ reinterpret_ops
  ++ [(0xFC, exec_prefix_fc); (OP_CALL_INDIRECT, exec_call_indirect)].

(** The arms of [match opcode]. *)
Definition exec_op (run : I unit) (op : Z) : handler := fun c =>
  match assoc op (int_unops ++ float_unops) with
  | Some f => exec_un f (c_pc c)
  | None =>
  match assoc op (int_binops ++ float_binops) with
  | Some f => exec_bin f (c_pc c)
  | None =>
  match assoc op load_ops with
  | Some (w, conv) => exec_load w conv c
  | None =>
  match assoc op store_ops with
  | Some w => exec_store w c
  | None =>
  match assoc op plain_ops with
  | Some h => h c
  | None =>
    if op =? OP_CALL then exec_call run c else
    do! on_world (emit (PrintUnknownOpcode op)) in fail (UnknownOpcode op)
  end end end end end.

(** One iteration of the loop body, the frame stack being non-empty. *)
Definition iteration (run : I unit) : I unit :=
  let! i := get (fun i => i) in
  if yield_requested i then do! on_it (set_yield false) in fail Yielded else
  let fi := (fdepth i - 1)%nat in
  let! f := index (frames i) fi in
  let! body := index (bodies (code i)) (body_idx f) in
  match body !! pc f with
  | None => do_return
  | Some op =>
    do! on_world (fun w => set_counters (as_u64 (OPCODE_COUNT w + 1)) (FUNC_CALL_COUNT w) w) in
    let! fl := exec_op run op (mkCtx fi (body_idx f) body (pc f + 1)) in
    match fl with
    | Next p => set_frame_pc fi p
    | Continue => ret tt
    end
  end.

(** [let mut active_mem = self.current_pages as usize * PAGE_SIZE] *)
Definition cache_active : I unit :=
  let! i := get (fun i => i) in set_active (active_mem_bytes i).

(** [while self.fdepth > self.shadow_stop_fdepth]; one unit of fuel per
    iteration, of this loop or of a nested one. *)
Fixpoint run_loop (fuel : nat) : I unit :=
  match fuel with
  | O => fun s => (OutOfFuel, s)
  | S fuel' =>
    let! i := get (fun i => i) in
    if (fdepth i <=? shadow_stop_fdepth i)%nat then ret tt else
    do! iteration (do! cache_active in run_loop fuel') in
    run_loop fuel'
  end.

Definition run (fuel : nat) : I unit := do! cache_active in run_loop fuel.

Definition call (fuel : nat) (func_idx : nat) : I unit :=
  let! c := get code in
  if (func_idx <? import_count c)%nat then fail ImportNotFound else
  let body_idx := (func_idx - import_count c)%nat in
  if (body_count c <=? body_idx)%nat then fail FuncIndexOutOfRange else
  do! push_frame body_idx in
  run fuel.

Definition resume (fuel : nat) : I unit := run fuel.
End dispatch.
