(* ===== verification/Safety.v ===== *)
(** * Safety of the interpreter

    A well-formedness invariant of the interpreter's state, kept by every arm
    of the dispatch loop, and the two conditions under which an iteration does
    not panic. Proved against an abstract property [MP] of linear memory, so
    that one proof serves byte validity and isolation. *)

From S2P Require Import Prelude Leb128 Opcode IntOps FloatOps Jump Sections World Machine.
From S2P Require Import Dispatch.

(** ** Reasoning steps for triples *)

Section steps.
Context {S E : Type}.
Implicit Types P : S -> Prop.

Lemma triple_pure {A} (p : Prop) P (m : M S E A) Q X :
  (p -> triple P m Q X) -> triple (fun s => p /\ P s) m Q X.
Proof. intros H s [Hp Hs]. by apply H. Qed.

Lemma triple_lift {A} (r : result E A) P :
  r <> Panic -> triple P (lift r) (fun a s => r = Ok a /\ P s) (fun _ s => P s).
Proof. intros Hr s Hs. destruct r; simpl; auto. Qed.

Lemma triple_seq {A B} P R (m : M S E A) (k : A -> M S E B) Q X :
  triple P m (fun a s => R a /\ P s) X ->
  (forall a, R a -> triple P (k a) Q X) -> triple P (bind m k) Q X.
Proof. intros Hm Hk. eapply triple_bind; [exact Hm|]. intros a. apply triple_pure. auto. Qed.
End steps.

(** ** Immediates *)

Lemma slice_from_ok {E} bs cur : (cur <= length bs)%nat -> slice_from (E := E) bs cur = Ok (drop cur bs).
Proof. intros Hc. unfold slice_from. by rewrite (proj2 (Nat.leb_le _ _)). Qed.

Lemma read_u32_at_total bs cur :
  (cur <= length bs)%nat ->
  match read_u32_at bs cur with
  | Ok (v, n) => is_u32 v /\ (cur + n <= length bs)%nat
  | Err e => e = MalformedCode
  | _ => False
  end.
Proof.
  intros Hc. unfold read_u32_at. rewrite slice_from_ok by done. cbn [rbind].
  destruct (read_u32_leb128 _) as [[v n]|] eqn:E; cbn [ok_or]; [|done].
  apply read_u32_bounds in E as (Hv & _ & Hn). rewrite length_drop in Hn. split; [done|lia].
Qed.

Lemma read_signed_range limit width cast N bs r s i v n :
  0 <= N -> (forall x, - 2 ^ N <= cast x < 2 ^ N) -> - 2 ^ N <= r < 2 ^ N ->
  read_signed_loop limit width cast bs r s i = Some (v, n) -> - 2 ^ N <= v < 2 ^ N.
Proof.
  intros HN Hc. revert r s i; induction bs as [|b bs IH]; intros r s i Hr; cbn [read_signed_loop]; [done|].
  destruct (limit <=? s); [done|].
  assert (forall x y, - 2 ^ N <= x < 2 ^ N -> - 2 ^ N <= Z.lor x (cast y) < 2 ^ N) as Hl.
  { intros x y Hx. apply (bitwise_range Z.lor); auto. }
  destruct (_ =? 0).
  - intros [= <- <-]. destruct (_ && _); auto.
  - apply IH. auto.
Qed.

Lemma read_i32_at_total bs cur :
  (cur <= length bs)%nat ->
  read_i32_at bs cur <> Panic /\ forall v n, read_i32_at bs cur = Ok (v, n) -> is_i64 v.
Proof.
  intros Hc. unfold read_i32_at. rewrite slice_from_ok by done. cbn [rbind].
  destruct (read_i32_leb128 _) as [[v n]|] eqn:E; cbn [ok_or]; [|done].
  split; [done|]. intros ? ? [= <- <-]. apply i32_is_i64.
  eapply (read_signed_range 35 32 as_i32 31) in E; [done|lia|apply as_i32_range|done].
Qed.

Lemma read_i64_at_total bs cur :
  (cur <= length bs)%nat ->
  read_i64_at bs cur <> Panic /\ forall v n, read_i64_at bs cur = Ok (v, n) -> is_i64 v.
Proof.
  intros Hc. unfold read_i64_at. rewrite slice_from_ok by done. cbn [rbind].
  destruct (read_i64_leb128 _) as [[v n]|] eqn:E; cbn [ok_or]; [|done].
  split; [done|]. intros ? ? [= <- <-].
  eapply (read_signed_range 70 64 as_i64 63) in E; [done|lia|apply as_i64_range|done].
Qed.

Lemma read_memarg_total bs cur :
  (cur <= length bs)%nat ->
  read_memarg bs cur <> Panic /\
  forall o n, read_memarg bs cur = Ok (o, n) -> is_u32 o.
Proof.
  intros Hc. unfold read_memarg. pose proof (read_u32_at_total bs cur Hc) as H1.
  destruct (read_u32_at bs cur) as [[a n1]|e| |]; cbn [rbind]; [|done..].
  pose proof (read_u32_at_total bs (cur + n1) (proj2 H1)) as H2.
  destruct (read_u32_at bs (cur + n1)) as [[o n2]|e| |]; cbn [rbind]; [|done..].
  split; [done|]. intros ? ? [= <- <-]. apply H2.
Qed.

Lemma walk_labels_total n k sel bs pos t :
  (pos <= length bs)%nat -> 0 <= t ->
  match walk_labels n k sel bs pos t with
  | Ok (p, t') => (p <= length bs)%nat /\ 0 <= t'
  | Err e => e = MalformedCode
  | _ => False
  end.
Proof.
  revert k pos t; induction n as [|n IH]; intros k pos t Hp Ht; cbn [walk_labels]; [done|].
  pose proof (read_u32_at_total bs pos Hp) as H1.
  destruct (read_u32_at bs pos) as [[l ln]|e| |]; cbn [rbind]; [|done..].
  destruct H1 as [Hl Hn]. apply IH; [done|]. destruct (_ =? _); [|done]. unfold is_u32 in Hl. lia.
Qed.

Lemma block_targets_total table body bi pc :
  length table = JUMP_SLOTS -> block_targets table body bi pc <> Panic.
Proof.
  intros Hl. unfold block_targets, jump_lookup. pose proof (jump_hash_lt bi pc) as Hh.
  assert (forall fuel i, (i < JUMP_SLOTS)%nat -> jump_lookup_loop fuel table bi pc i <> Panic) as Hn.
  { induction fuel as [|fuel IH]; intros i Hi; cbn [jump_lookup_loop]; [done|].
    destruct (lookup_lt_is_Some_2 table i) as [s Hs]; [lia|]. rewrite Hs. cbn [or_panic rbind].
    destruct (_ =? _); [done|]. destruct (_ && _); [done|]. apply IH, next_slot_lt. }
  specialize (Hn JUMP_SLOTS _ Hh). destruct (jump_lookup_loop _ _ _ _ _) as [[t|]| | |]; cbn [rbind]; try done.
  by destruct (scan_block_end body pc).
Qed.

(** ** Ranges *)

(** A bound check that passed leaves the access inside the active pages. *)
Lemma in_bounds w ea p :
  0 < w -> out_of_bounds w ea (p * PAGE_SIZE) = false -> ea + w <= p * PAGE_SIZE.
Proof. unfold out_of_bounds. intros Hw. destruct (w =? 1) eqn:E; intros; zbool; lia. Qed.

Lemma effective_range a o : is_u32 o -> 0 <= effective a o < 8589934592.
Proof. unfold effective. intros Ho. pose proof (as_u32_range a). unfold_width. zlia. Qed.

Lemma sat_add_le a b lim : sat_add_usize a b <= lim -> lim < USIZE_MAX -> a + b <= lim.
Proof. unfold sat_add_usize. lia. Qed.

Lemma usize_nonneg x : 0 <= as_usize x.
Proof. unfold_width. zlia. Qed.

Lemma le_bytes_i64 bs (w : nat) conv :
  Forall is_u8 bs -> length bs = w -> (forall v, 0 <= v < 256 ^ Z.of_nat w -> is_i64 (conv v)) ->
  is_i64 (conv (le_bytes bs)).
Proof. intros Hu <- Hc. apply Hc, le_bytes_range, Hu. Qed.

(** ** The invariant *)

Section safety.
Context `{FloatEnv} `{Features}.
(** [MP p m]: a property of a memory of which [p] pages are active. *)
Context (MP : Z -> slice -> Prop).
(** [WP w]: a property of the kernel state, which printing and counting keep. *)
Context (WP : World -> Prop).
Context (WP_emit : forall e w, WP w -> WP (emit e w)).
Context (WP_count : forall oc fc w, WP w -> WP (set_counters oc fc w)).

Definition mem_ok (p : Z) (m : slice) : Prop :=
  0 <= p /\ p * PAGE_SIZE <= slen m /\ slen m < 2147483648 /\
  (forall k, is_u8 (sget m k)) /\ MP p m.

Definition stack_ok (vs : list Z) (n : nat) : Prop :=
  length vs = STACK_DEPTH /\ Forall is_i64 vs /\ (n <= STACK_DEPTH)%nat.

(** A host function that keeps the stack and the memory well formed and
    does not panic. *)
Definition host_ok (h : HostFn) : Prop :=
  forall vs n m w p, stack_ok vs n -> mem_ok p m -> WP w ->
    match h vs n m w with
    | (Panic, _) => False
    | (OutOfFuel, _) => True
    | (_, (vs', n', m', w')) => stack_ok vs' n' /\ mem_ok p m' /\ slen m' = slen m /\ WP w'
    end.

Definition frame_ok (f : Frame) : Prop :=
  (body_idx f < MAX_FUNCS)%nat /\ length (locals f) = MAX_LOCALS /\ Forall is_i64 (locals f) /\
  (local_count f <= MAX_LOCALS)%nat /\ (vsp_base f <= STACK_DEPTH)%nat /\ 0 <= result_count f.

Record code_ok (c : Code) : Prop := {
  co_bodies : length (bodies c) = MAX_FUNCS /\ Forall (Forall is_u8) (bodies c);
  co_body_count : (body_count c <= MAX_FUNCS)%nat;
  co_locals : length (local_counts c) = MAX_FUNCS /\ Forall (Z.le 0) (local_counts c);
  co_params : length (type_param_counts c) = MAX_TYPES /\ Forall (Z.le 0) (type_param_counts c);
  co_results : length (type_result_counts c) = MAX_TYPES /\ Forall (Z.le 0) (type_result_counts c);
  co_types : (type_count c <= MAX_TYPES)%nat;
  co_fti : length (func_type_indices c) = MAX_FUNCS /\ Forall (Z.le 0) (func_type_indices c);
  co_all : length (all_func_types c) = MAX_FUNCS;
  co_table : length (table c) = MAX_TABLE /\ (table_size c <= MAX_TABLE)%nat /\ Forall is_u32 (table c);
  co_mut : length (global_mutable c) = MAX_GLOBALS;
  co_globals : (global_count c <= MAX_GLOBALS)%nat;
  co_imports : (import_count c + body_count c <= MAX_FUNCS)%nat;
  co_hosts : length (host_fns c) = MAX_FUNCS /\ Forall (fun h => forall f, h = Some f -> host_ok f) (host_fns c);
  co_jump : length (jump_table c) = JUMP_SLOTS
}.

(** The control stack of a caller lies below that of its callees. *)
Definition bases_ok (i : Interpreter) : Prop :=
  (forall j f, (j < fdepth i)%nat -> frames i !! j = Some f -> (ctrl_base f <= ctrl_depth i)%nat) /\
  (forall j k f g, (j < k < fdepth i)%nat -> frames i !! j = Some f -> frames i !! k = Some g ->
    (ctrl_base f <= ctrl_base g)%nat).

Record wf (i : Interpreter) : Prop := {
  wf_code : code_ok (code i);
  wf_stack : stack_ok (vstack i) (vsp i);
  wf_frames : length (frames i) = CALL_DEPTH /\ Forall frame_ok (frames i);
  wf_fdepth : (fdepth i <= CALL_DEPTH)%nat;
  wf_ctrl : length (ctrl i) = MAX_CTRL_DEPTH;
  wf_ctrl_depth : (ctrl_depth i <= MAX_CTRL_DEPTH)%nat;
  wf_bases : bases_ok i;
  wf_globals : length (globals i) = MAX_GLOBALS /\ Forall is_i64 (globals i);
  wf_mem : mem_ok (current_pages i) (mem i);
  wf_max : current_pages i <= max_pages (code i) < U32_MAX /\ max_pages (code i) * PAGE_SIZE <= slen (mem i);
  wf_jit : Forall (fun j => j = None) (jit_fns i) /\ length (jit_fns i) = MAX_FUNCS
}.

(** The state of the loop: the cached memory size is the real one. *)
Definition WF (s : St) : Prop :=
  wf (it s) /\ active_mem s = active_mem_bytes (it s) /\ WP (world s).

(** [ok m R]: from a well-formed state, [m] does not panic, keeps the state
    well formed, and its results satisfy [R]. *)
Definition ok {A} (m : I A) (R : A -> Prop) : Prop :=
  triple WF m (fun a s => R a /\ WF s) (fun _ s => WF s).

Lemma ok_bind {A B} (m : I A) (k : A -> I B) R Q :
  ok m R -> (forall a, R a -> ok (k a) Q) -> ok (bind m k) Q.
Proof. apply triple_seq. Qed.

Lemma ok_ret {A} (a : A) (R : A -> Prop) : R a -> ok (ret a) R.
Proof. intros Ha s Hs. done. Qed.

Lemma ok_fail {A} e (R : A -> Prop) : ok (fail e) R.
Proof. intros s Hs. done. Qed.

Lemma ok_lift {A} (r : result InterpError A) : r <> Panic -> ok (lift r) (fun a => r = Ok a).
Proof. apply triple_lift. Qed.

Lemma ok_weaken {A} (m : I A) (R R' : A -> Prop) : ok m R -> (forall a, R a -> R' a) -> ok m R'.
Proof.
  intros Hm HR s Hs. specialize (Hm s Hs). destruct (m s) as [[a|e| |] s']; try done.
  destruct Hm. auto.
Qed.

(** An index inside an array. *)
Lemma ok_index {A} (l : list A) i : (i < length l)%nat -> ok (index l i) (fun a => l !! i = Some a).
Proof.
  intros Hi. destruct (lookup_lt_is_Some_2 l i Hi) as [a Ha].
  eapply ok_weaken; [apply ok_lift; by rewrite Ha|]. intros x Hx. by apply or_panic_ok in Hx.
Qed.

(** Reading a part of the state of which the invariant says [R]. *)
Lemma ok_get {A} (f : Interpreter -> A) (R : A -> Prop) :
  (forall i, wf i -> R (f i)) -> ok (get f) R.
Proof. intros HR s Hs. split; [apply HR, Hs|done]. Qed.

Lemma WF_world s f : WF s -> (forall w, WP w -> WP (f w)) -> WF (mkSt (it s) (f (world s)) (active_mem s)).
Proof. intros (Hw & Ha & HW) Hf. split; [done|]. split; [done|]. by apply Hf. Qed.

Lemma ok_world f : (forall w, WP w -> WP (f w)) -> ok (on_world f) (fun _ => True).
Proof. intros Hf s Hs. split; [done|]. by apply WF_world. Qed.

Lemma emit_fail_ok {A} e x (R : A -> Prop) : ok (do! on_world (emit e) in fail x) R.
Proof. eapply ok_bind; [apply ok_world; auto|]. intros _ _. apply ok_fail. Qed.

(** ** Stacks *)

Lemma WF_set_vstack s vs n :
  WF s -> stack_ok vs n -> WF (mkSt (set_vstack vs n (it s)) (world s) (active_mem s)).
Proof. intros [Hw Ha] Hs. split; [|done]. destruct Hw. split; auto. Qed.

Lemma v_push_ok v : is_i64 v -> ok (v_push v) (fun _ => True).
Proof.
  intros Hv s Hs. unfold v_push, get, gets, bind.
  destruct (STACK_DEPTH <=? vsp (it s))%nat eqn:E; [done|]. zbool. simpl.
  split; [done|]. apply WF_set_vstack; [done|].
  destruct (wf_stack _ (proj1 Hs)) as (Hl & Hf & Hn). split; [by rewrite length_insert|].
  split; [by apply Forall_insert|lia].
Qed.

Lemma v_pop_ok : ok v_pop is_i64.
Proof.
  intros s Hs. unfold v_pop, get, gets, bind. destruct (vsp (it s) =? 0)%nat eqn:E; [done|]. zbool.
  destruct (wf_stack _ (proj1 Hs)) as (Hl & Hf & Hn). simpl.
  destruct (lookup_lt_is_Some_2 (vstack (it s)) (vsp (it s) - 1)) as [v Hv]; [lia|].
  unfold index, lift. rewrite Hv. simpl. split.
  - eapply Forall_lookup_1; [exact Hf|exact Hv].
  - apply WF_set_vstack; [done|]. split; [done|]. split; [done|lia].
Qed.

Lemma pop_params_ok n ls :
  (n <= length ls)%nat -> Forall is_i64 ls ->
  ok (pop_params n ls) (fun ls' => length ls' = length ls /\ Forall is_i64 ls').
Proof.
  revert ls; induction n as [|n IH]; intros ls Hn Hls; cbn [pop_params]; [by apply ok_ret|].
  eapply ok_bind; [apply v_pop_ok|]. intros v Hv.
  eapply ok_weaken; [apply IH|].
  - rewrite length_insert. lia.
  - by apply Forall_insert.
  - intros ls' [H1 H2]. rewrite length_insert in H1. done.
Qed.

Lemma ctrl_push_ok cf : ok (ctrl_push cf) (fun _ => True).
Proof.
  intros s [Hw Ha]. unfold ctrl_push, get, gets, bind.
  destruct (MAX_CTRL_DEPTH <=? ctrl_depth (it s))%nat eqn:E; [done|]. zbool. simpl.
  split; [done|]. split; [|done]. destruct Hw. split; auto; unfold set_ctrl;
    cbn -[MAX_CTRL_DEPTH]; rewrite ?length_insert; try done.
  destruct wf_bases0 as [Hb1 Hb2]. split; [|done]. cbn. intros j f Hj Hf. specialize (Hb1 j f Hj Hf). lia.
Qed.

Lemma get_frame_ok fi :
  (fi < CALL_DEPTH)%nat -> ok (let! fs := get frames in index fs fi) frame_ok.
Proof.
  intros Hfi. eapply ok_bind.
  - apply (ok_get frames (fun fs => length fs = CALL_DEPTH /\ Forall frame_ok fs)).
    intros i Hw. apply Hw.
  - intros fs [Hl Hf]. eapply ok_weaken; [apply ok_index; lia|].
    intros f Hfr. eapply Forall_lookup_1; [exact Hf|exact Hfr].
Qed.

(** ** Calls and returns *)

Lemma get_code_ok : ok (get code) code_ok.
Proof. apply ok_get. intros i Hi. apply Hi. Qed.

Lemma sig_counts_ok t : 0 <= t -> ok (sig_counts t) (fun r => 0 <= r.1 /\ 0 <= r.2).
Proof.
  intros Ht. eapply ok_bind; [apply get_code_ok|]. intros c Hc.
  destruct (t <? Z.of_nat (type_count c)) eqn:E; [|by apply ok_ret]. zbool.
  destruct (co_params c Hc) as [Hp1 Hp2], (co_results c Hc) as [Hr1 Hr2]. pose proof (co_types c Hc).
  eapply ok_bind; [apply ok_index; lia|]. intros p Hp.
  eapply ok_bind; [apply ok_index; lia|]. intros r Hr.
  apply ok_ret. split; [exact (Forall_lookup_1 _ _ _ _ Hp2 Hp)|exact (Forall_lookup_1 _ _ _ _ Hr2 Hr)].
Qed.

Lemma WF_set_frames s fs n :
  WF s -> length fs = CALL_DEPTH -> Forall frame_ok fs -> (n <= CALL_DEPTH)%nat ->
  bases_ok (set_frames fs n (it s)) -> WF (mkSt (set_frames fs n (it s)) (world s) (active_mem s)).
Proof. intros [Hw Ha] Hl Hf Hn Hb. split; [|done]. destruct Hw. split; auto. Qed.

(** Everything but the last write of [push_frame]. *)
Lemma replicate_zeros n : Forall is_i64 (replicate n 0).
Proof. apply Forall_replicate. done. Qed.

Lemma pop_params_keeps n ls s r s' :
  pop_params n ls s = (r, s') ->
  frames (it s') = frames (it s) /\ fdepth (it s') = fdepth (it s) /\
  ctrl_depth (it s') = ctrl_depth (it s).
Proof.
  revert ls s; induction n as [|n IH]; intros ls s; cbn [pop_params]; [by intros [= <- <-]|].
  unfold bind at 1. destruct (v_pop s) as [o s1] eqn:E.
  assert (frames (it s1) = frames (it s) /\ fdepth (it s1) = fdepth (it s) /\
    ctrl_depth (it s1) = ctrl_depth (it s)) as (E1 & E2 & E3).
  { unfold v_pop, get, gets, bind, fail, on_it, modify, index, lift in E.
    destruct (vsp (it s) =? 0)%nat; injection E as <- <-; done. }
  destruct o as [a|e| |]; [|intros [= <- <-]; done..].
  intros Hp. apply IH in Hp as (-> & -> & ->). done.
Qed.

Lemma push_frame_ok b : (b < MAX_FUNCS)%nat -> ok (push_frame b) (fun _ => True).
Proof.
  intros Hb s Hs. unfold push_frame. unfold bind at 1, get at 1, gets at 1.
  destruct (CALL_DEPTH <=? fdepth (it s))%nat eqn:Ed; [done|]. zbool.
  pose proof (get_code_ok s Hs) as Hgc. unfold bind at 1. cbn [get gets] in *. cbn in Hgc.
  destruct Hgc as [Hc _]. set (c := code (it s)) in *. cbn beta iota.
  destruct (co_fti c Hc) as [Hf1 Hf2], (co_locals c Hc) as [Hl1 Hl2].
  destruct (lookup_lt_is_Some_2 (func_type_indices c) b) as [t Ht]; [lia|].
  destruct (lookup_lt_is_Some_2 (local_counts c) b) as [dc Hdc]; [lia|].
  assert (0 <= t) as Ht0 by exact (Forall_lookup_1 _ _ _ _ Hf2 Ht).
  assert (0 <= dc) as Hd0 by exact (Forall_lookup_1 _ _ _ _ Hl2 Hdc).
  unfold index, lift at 1, bind at 1. rewrite Ht. cbn [or_panic].
  pose proof (sig_counts_ok t Ht0 s Hs) as Hsig.
  assert (forall r s', sig_counts t s = (r, s') -> s' = s) as Hsame.
  { unfold sig_counts, bind, get, gets, index, lift, ret. intros r s'.
    repeat case_match; naive_solver. }
  unfold bind at 1. destruct (sig_counts t s) as [[[p r]|e| |] s1] eqn:Es;
    specialize (Hsame _ _ eq_refl); subst s1; [|done..].
  destruct Hsig as [[Hp Hr] _]. cbn [fst snd] in *.
  unfold lift at 1, bind at 1. rewrite Hdc. cbn [or_panic].
  destruct (Z.of_nat MAX_LOCALS <? p + dc) eqn:Et; [done|]. zbool.
  unfold bind at 1. cbn [get gets].
  unfold bind at 1. pose proof (pop_params_ok (Z.to_nat p) (replicate MAX_LOCALS 0)) as Hpop.
  specialize (Hpop ltac:(rewrite length_replicate; unfold MAX_LOCALS in *; lia) (replicate_zeros _) s Hs).
  destruct (pop_params _ _ s) as [[ls|e| |] s1] eqn:Ep; [|done..].
  apply pop_params_keeps in Ep as (Ef & Efd & Ecd). destruct Hpop as [[Hll Hlf] Hs1].
  rewrite length_replicate in Hll. unfold bind, get, gets, on_it, modify.
  split; [done|]. destruct (wf_frames _ (proj1 Hs1)) as [Hfl Hff].
  pose proof (wf_bases _ (proj1 Hs1)) as [Hb1 Hb2].
  pose proof (wf_stack _ (proj1 Hs1)) as (_ & _ & Hvsp).
  apply WF_set_frames; try done; try lia.
  - by rewrite length_insert.
  - apply Forall_insert; [done|]. repeat split; cbn; try done; lia.
  - set (d := fdepth (it s)) in *. rewrite Efd in *. unfold bases_ok, set_frames. cbn. split.
    + intros j f Hj Hf. destruct (decide (j = d)) as [->|].
      * rewrite list_lookup_insert_eq in Hf by lia. injection Hf as <-. cbn. lia.
      * rewrite list_lookup_insert_ne in Hf by done. apply (Hb1 j); [lia|done].
    + intros j k f g Hjk Hf Hg. rewrite list_lookup_insert_ne in Hf by lia.
      destruct (decide (k = d)) as [->|].
      * rewrite list_lookup_insert_eq in Hg by lia. injection Hg as <-. cbn.
        rewrite <- Ecd. apply (Hb1 j); [lia|done].
      * rewrite list_lookup_insert_ne in Hg by done. apply (Hb2 j k); [lia|done..].
Qed.

Lemma WF_update_frame s fi f f' :
  WF s -> frames (it s) !! fi = Some f -> frame_ok f' -> ctrl_base f' = ctrl_base f ->
  WF (mkSt (set_frames (<[fi := f']> (frames (it s))) (fdepth (it s)) (it s)) (world s) (active_mem s)).
Proof.
  intros Hs Hf Hok Hcb. pose proof Hs as [Hw _]. destruct (wf_frames _ Hw) as [Hl Hff].
  apply WF_set_frames; [done| | | |].
  - by rewrite length_insert.
  - by apply Forall_insert.
  - apply Hw.
  - assert (forall j g, <[fi := f']> (frames (it s)) !! j = Some g ->
      exists g', frames (it s) !! j = Some g' /\ ctrl_base g = ctrl_base g') as Hsame.
    { intros j g. destruct (decide (j = fi)) as [->|].
      - rewrite list_lookup_insert_eq by (by eapply lookup_lt_Some). intros [= <-]. eauto.
      - rewrite list_lookup_insert_ne by done. eauto. }
    destruct (wf_bases _ Hw) as [H1 H2]. split; cbn.
    + intros j g Hj (g' & Hg' & ->)%Hsame. by apply (H1 j).
    + intros j k g h Hjk (g' & Hg' & ->)%Hsame (h' & Hh' & ->)%Hsame. by apply (H2 j k).
Qed.

(** The current frame exists and its results fit on the value stack. *)
Definition ready (s : St) : Prop :=
  (0 < fdepth (it s))%nat /\
  forall f, frames (it s) !! (fdepth (it s) - 1)%nat = Some f ->
    Z.of_nat (vsp_base f) + result_count f <= Z.of_nat STACK_DEPTH.

Definition WFR (s : St) : Prop := WF s /\ ready s.

Lemma set_frame_pc_ready fi p :
  (fi < CALL_DEPTH)%nat -> triple WFR (set_frame_pc fi p) (fun _ s => WFR s) (fun _ s => WF s).
Proof.
  intros Hfi s [Hs [Hd Hr]]. unfold set_frame_pc, get, gets, bind, index, lift.
  destruct (wf_frames _ (proj1 Hs)) as [Hl Hff].
  destruct (lookup_lt_is_Some_2 (frames (it s)) fi) as [f Hf]; [lia|]. rewrite Hf. cbn [or_panic].
  pose proof (Forall_lookup_1 _ _ _ _ Hff Hf) as Hfo. cbn. split.
  - by apply (WF_update_frame s fi f).
  - split; [done|]. cbn. intros g. destruct (decide (fi = fdepth (it s) - 1)%nat) as [->|].
    + rewrite list_lookup_insert_eq by (by eapply lookup_lt_Some). intros [= <-]. cbn. auto.
    + rewrite list_lookup_insert_ne by done. auto.
Qed.

Lemma set_frame_pc_ok fi p : (fi < CALL_DEPTH)%nat -> ok (set_frame_pc fi p) (fun _ => True).
Proof.
  intros Hfi s Hs. unfold set_frame_pc, get, gets, bind, index, lift.
  destruct (wf_frames _ (proj1 Hs)) as [Hl Hff].
  destruct (lookup_lt_is_Some_2 (frames (it s)) fi) as [f Hf]; [lia|]. rewrite Hf. cbn [or_panic].
  pose proof (Forall_lookup_1 _ _ _ _ Hff Hf) as Hfo. cbn. split; [done|].
  by apply (WF_update_frame s fi f).
Qed.

Lemma set_frame_local_ok fi idx v :
  (fi < CALL_DEPTH)%nat -> is_i64 v -> ok (set_frame_local fi idx v) (fun _ => True).
Proof.
  intros Hfi Hv s Hs. unfold set_frame_local, get, gets, bind, index, lift.
  destruct (wf_frames _ (proj1 Hs)) as [Hl Hff].
  destruct (lookup_lt_is_Some_2 (frames (it s)) fi) as [f Hf]; [lia|]. rewrite Hf. cbn [or_panic].
  pose proof (Forall_lookup_1 _ _ _ _ Hff Hf) as (? & ? & ? & ? & ? & ?). cbn. split; [done|].
  apply (WF_update_frame s fi f); try done. repeat split; cbn; try done.
  - by rewrite length_insert.
  - by apply Forall_insert.
Qed.

Lemma copy_results_ok n src dst vs :
  (src + n <= length vs)%nat -> (dst + n <= length vs)%nat -> Forall is_i64 vs ->
  exists vs', copy_results n src dst vs = Ok vs' /\ length vs' = length vs /\ Forall is_i64 vs'.
Proof.
  revert src dst vs; induction n as [|n IH]; intros src dst vs H1 H2 Hf; cbn [copy_results]; [eauto|].
  destruct (lookup_lt_is_Some_2 vs src) as [v Hv]; [lia|]. rewrite Hv. cbn [or_panic rbind].
  rewrite (proj2 (Nat.ltb_lt _ _)) by lia.
  destruct (IH (S src) (S dst) (<[dst := v]> vs)) as (vs' & -> & E & Hf');
    [rewrite length_insert; lia..| |].
  - apply Forall_insert; [done|]. exact (Forall_lookup_1 _ _ _ _ Hf Hv).
  - rewrite length_insert in E. eauto.
Qed.

Lemma do_return_ok : triple WFR do_return (fun _ s => WF s) (fun _ _ => False).
Proof.
  intros s [Hs [Hd Hr]]. unfold do_return, get, gets, bind, index, lift.
  pose proof Hs as [Hw Ha]. destruct (wf_frames _ Hw) as [Hl Hff]. pose proof (wf_fdepth _ Hw).
  destruct (lookup_lt_is_Some_2 (frames (it s)) (fdepth (it s) - 1)) as [f Hf]; [lia|].
  rewrite Hf. cbn [or_panic]. specialize (Hr f Hf).
  destruct (Forall_lookup_1 _ _ _ _ Hff Hf) as (_ & _ & _ & _ & Hvb & Hrc).
  destruct (wf_stack _ Hw) as (Hvl & Hvf & Hvn).
  rewrite (proj2 (Z.ltb_ge _ _)) by lia.
  destruct (copy_results_ok (Z.to_nat (result_count f)) (Z.to_nat (Z.of_nat (vsp (it s)) - result_count f))
    (vsp_base f) (vstack (it s))) as (vs' & -> & Hvl' & Hvf'); [lia..|done|].
  cbn. split; [|done]. destruct Hw. split; auto; unfold set_frames, set_ctrl, set_vstack; cbn -[STACK_DEPTH CALL_DEPTH]; auto.
  - split; [lia|]. split; [done|lia].
  - lia.
  - destruct wf_bases0 as [Hb1 Hb2]. pose proof (Hb1 _ f (ltac:(lia) : (fdepth (it s) - 1 < fdepth (it s))%nat) Hf). lia.
  - destruct wf_bases0 as [Hb1 Hb2]. split; cbn.
    + intros j g Hj Hg. apply (Hb2 j (fdepth (it s) - 1)%nat g f); [lia|done..].
    + intros j k g h Hjk. apply Hb2. lia.
Qed.

Lemma do_br_ok n : 0 <= n -> triple WFR (do_br n) (fun _ s => WF s) (fun _ s => WF s).
Proof.
  intros Hn s [Hs [Hd Hr]]. pose proof (do_return_ok s (conj Hs (conj Hd Hr))) as Hret.
  unfold do_br, bind at 1, get at 1, gets at 1.
  pose proof Hs as [Hw Ha]. destruct (wf_frames _ Hw) as [Hl Hff]. pose proof (wf_fdepth _ Hw).
  destruct (lookup_lt_is_Some_2 (frames (it s)) (fdepth (it s) - 1)) as [f Hf]; [lia|].
  unfold bind at 1, get at 1, gets at 1, bind at 1, index at 1, lift at 1. rewrite Hf. cbn [or_panic].
  unfold bind at 1, get at 1, gets at 1.
  destruct (wf_bases _ Hw) as [Hb1 Hb2]. pose proof (Hb1 _ f (ltac:(lia) : (fdepth (it s) - 1 < fdepth (it s))%nat) Hf).
  rewrite (proj2 (Nat.ltb_ge _ _)) by done.
  destruct (_ <=? n) eqn:En; [by destruct (do_return s) as [[]]|]. zbool.
  pose proof (wf_ctrl _ Hw). pose proof (wf_ctrl_depth _ Hw).
  set (tgt := (ctrl_depth (it s) - 1 - Z.to_nat n)%nat).
  destruct (lookup_lt_is_Some_2 (ctrl (it s)) tgt) as [cf Hcf]; [unfold MAX_CTRL_DEPTH in *; lia|].
  unfold bind at 1, get at 1, gets at 1, bind at 1, index at 1, lift at 1. rewrite Hcf. cbn [or_panic].
  assert (forall d p, (ctrl_base f <= d <= ctrl_depth (it s))%nat ->
    match (do! on_it (fun i => set_ctrl (ctrl i) d i) in set_frame_pc (fdepth (it s) - 1) p) s with
    | (Ok _, s') => WF s' | (Err _, s') => WF s' | (Panic, _) => False | (OutOfFuel, _) => True end) as Hgo.
  { intros d p Hdd. unfold bind at 1, on_it at 1, modify at 1.
    match goal with |- context [set_frame_pc ?a ?b ?t] => pose proof (set_frame_pc_ok a b) as Hp;
      set (s1 := t); specialize (Hp ltac:(lia) s1) end.
    destruct (set_frame_pc _ _ s1) as [[]]; apply Hp;
      (split; [|done]); destruct Hw; split; auto; unfold s1, set_ctrl; cbn -[MAX_CTRL_DEPTH]; try lia;
      (split; [|done]); cbn; intros j g Hj Hg;
      (destruct (decide (j = fdepth (it s) - 1)%nat) as [->|];
       [rewrite Hf in Hg; injection Hg as <-; lia|
        pose proof (Hb2 j (fdepth (it s) - 1)%nat g f ltac:(lia) Hg Hf); lia]). }
  destruct (kind cf); apply Hgo; lia.
Qed.

(** ** Handlers *)

Record ctx_ok (c : ctx) : Prop := {
  cx_fi : (fi c < CALL_DEPTH)%nat;
  cx_pc : (c_pc c <= length (body c))%nat;
  cx_u8 : Forall is_u8 (body c)
}.

Definition handler_ok (h : handler) : Prop := forall c, ctx_ok c -> ok (h c) (fun _ => True).

Lemma ok_read_u32 bs cur :
  (cur <= length bs)%nat ->
  ok (lift (read_u32_at bs cur)) (fun r => is_u32 r.1 /\ (cur + r.2 <= length bs)%nat).
Proof.
  intros Hc. pose proof (read_u32_at_total bs cur Hc) as Ht.
  eapply ok_weaken; [apply ok_lift; by destruct (read_u32_at bs cur)|].
  intros [v n] E. by rewrite E in Ht.
Qed.

Lemma ok_num r : num_result r -> ok (lift r) is_i64.
Proof.
  intros Hr. eapply ok_weaken; [apply ok_lift; by destruct r|]. intros v ->. done.
Qed.

Lemma push_next v n : is_i64 v -> ok (do! v_push v in ret (Next n)) (fun _ => True).
Proof. intros Hv. eapply ok_bind; [by apply v_push_ok|]. intros _ _. by apply ok_ret. Qed.

Lemma exec_un_ok f n : unop_typed f -> ok (exec_un f n) (fun _ => True).
Proof.
  intros Hf. eapply ok_bind; [apply v_pop_ok|]. intros a Ha.
  eapply ok_bind; [apply ok_num, Hf, Ha|]. intros r Hr. by apply push_next.
Qed.

Lemma exec_bin_ok f n : binop_typed f -> ok (exec_bin f n) (fun _ => True).
Proof.
  intros Hf. eapply ok_bind; [apply v_pop_ok|]. intros b Hb.
  eapply ok_bind; [apply v_pop_ok|]. intros a Ha.
  eapply ok_bind; [apply ok_num, Hf; done|]. intros r Hr. by apply push_next.
Qed.

Lemma exec_block_ok k : handler_ok (exec_block k).
Proof.
  intros c Hc. eapply ok_bind.
  { apply (ok_get _ (fun jt => length jt = JUMP_SLOTS)). intros i Hi. apply Hi. }
  intros jt Hjt. eapply ok_bind; [apply ok_lift, block_targets_total, Hjt|]. intros [e ?] _.
  eapply ok_bind; [apply ctrl_push_ok|]. intros _ _. by apply ok_ret.
Qed.

Lemma exec_if_ok : handler_ok exec_if.
Proof.
  intros c Hc. eapply ok_bind.
  { apply (ok_get _ (fun jt => length jt = JUMP_SLOTS)). intros i Hi. apply Hi. }
  intros jt Hjt. eapply ok_bind; [apply ok_lift, block_targets_total, Hjt|]. intros [e ep] _.
  eapply ok_bind; [apply v_pop_ok|]. intros v _.
  destruct (negb _); [|destruct ep; [|by apply ok_ret]];
    (eapply ok_bind; [apply ctrl_push_ok|]; intros _ _; by apply ok_ret).
Qed.

Lemma exec_select_ok : handler_ok exec_select.
Proof.
  intros c Hc. do 3 (eapply ok_bind; [apply v_pop_ok|]; intros ? ?).
  apply push_next. by destruct (negb _).
Qed.

Lemma local_index_ok c :
  ctx_ok c -> ok (local_index c) (fun r => frame_ok r.1.1 /\ (r.1.2 < local_count r.1.1)%nat).
Proof.
  intros [Hfi Hpc _]. eapply ok_bind; [by apply ok_read_u32|]. intros [idx n] [Hi _].
  eapply ok_bind; [by apply get_frame_ok|]. intros f Hf. cbn [fst snd] in *.
  destruct (_ <=? _) eqn:E; [apply ok_fail|]. zbool. apply ok_ret. cbn. split; [done|].
  unfold is_u32 in Hi. lia.
Qed.

Lemma frame_local_ok f idx : frame_ok f -> (idx < local_count f)%nat -> ok (index (locals f) idx) is_i64.
Proof.
  intros (_ & Hl & Hf & Hc & _) Hi. eapply ok_weaken; [apply ok_index; lia|].
  intros v Hv. exact (Forall_lookup_1 _ _ _ _ Hf Hv).
Qed.

Lemma exec_local_get_ok : handler_ok exec_local_get.
Proof.
  intros c Hc. eapply ok_bind; [by apply local_index_ok|]. intros [[f idx] n] [Hf Hi].
  eapply ok_bind; [by apply frame_local_ok|]. intros v Hv. by apply push_next.
Qed.

Lemma exec_local_set_ok : handler_ok exec_local_set.
Proof.
  intros c Hc. eapply ok_bind; [by apply local_index_ok|]. intros [[f idx] n] _.
  eapply ok_bind; [apply v_pop_ok|]. intros v Hv.
  eapply ok_bind; [by apply set_frame_local_ok; [apply (cx_fi c Hc)|]|]. intros _ _. by apply ok_ret.
Qed.

Lemma exec_local_tee_ok : handler_ok exec_local_tee.
Proof.
  intros c Hc. eapply ok_bind; [by apply local_index_ok|]. intros [[f idx] n] _.
  eapply ok_bind.
  { apply (ok_get _ (fun k => (k <= STACK_DEPTH)%nat)). intros i Hi. apply (wf_stack i Hi). }
  intros k Hk. destruct (k =? 0)%nat eqn:E; [apply ok_fail|]. zbool. cbn beta in Hk.
  eapply ok_bind.
  { eapply ok_bind; [apply (ok_get vstack (fun vs => length vs = STACK_DEPTH /\ Forall is_i64 vs));
      intros i Hi; split; apply (wf_stack i Hi)|].
    intros vs [Hl Hf]. eapply ok_weaken; [apply ok_index; lia|].
    intros v Hv. exact (Forall_lookup_1 _ _ _ _ Hf Hv). }
  intros v Hv. eapply ok_bind; [by apply set_frame_local_ok; [apply (cx_fi c Hc)|]|]. intros _ _. by apply ok_ret.
Qed.

Lemma global_index_ok c : ctx_ok c -> ok (global_index c) (fun r => (r.1 < MAX_GLOBALS)%nat).
Proof.
  intros [Hfi Hpc _]. eapply ok_bind; [by apply ok_read_u32|]. intros [idx n] [Hi _].
  eapply ok_bind.
  { apply (ok_get _ (fun k => (k <= MAX_GLOBALS)%nat)). intros i Hw. apply (wf_code i Hw). }
  intros k Hk. cbn [fst snd] in *. destruct (_ <=? _) eqn:E; [apply ok_fail|]. zbool.
  apply ok_ret. cbn. unfold is_u32 in Hi. lia.
Qed.

Lemma exec_global_get_ok : handler_ok exec_global_get.
Proof.
  intros c Hc. eapply ok_bind; [by apply global_index_ok|]. intros [idx n] Hi. cbn [fst] in Hi.
  eapply ok_bind.
  { eapply ok_bind; [apply (ok_get globals (fun gs => length gs = MAX_GLOBALS /\ Forall is_i64 gs));
      intros i Hw; apply (wf_globals i Hw)|].
    intros gs [Hl Hf]. eapply ok_weaken; [apply ok_index; lia|].
    intros v Hv. exact (Forall_lookup_1 _ _ _ _ Hf Hv). }
  intros v Hv. by apply push_next.
Qed.

Lemma exec_global_set_ok : handler_ok exec_global_set.
Proof.
  intros c Hc. eapply ok_bind; [by apply global_index_ok|]. intros [idx n] Hi. cbn [fst] in Hi.
  eapply (ok_bind _ _ (fun _ => True)).
  { eapply ok_bind; [apply (ok_get (fun i => global_mutable (code i)) (fun ms => length ms = MAX_GLOBALS));
      intros i Hw; apply (wf_code i Hw)|].
    intros ms Hl. cbn beta in Hl. eapply ok_weaken; [apply ok_index; lia|done]. }
  intros b _. destruct (negb b); [apply ok_fail|].
  eapply ok_bind; [apply v_pop_ok|]. intros v Hv. eapply (ok_bind _ _ (fun _ => True)); [|intros _ _; by apply ok_ret].
  intros s [Hw Ha]. cbn. split; [done|]. split; [|done].
  destruct Hw. split; auto. destruct wf_globals0 as [Hl Hf]. cbn.
  split; [by rewrite length_insert|by apply Forall_insert].
Qed.

Lemma exec_const_ok read :
  (forall bs cur, (cur <= length bs)%nat ->
     read bs cur <> Panic /\ forall v n, read bs cur = Ok (v, n) -> is_i64 v) ->
  handler_ok (exec_const read).
Proof.
  intros Hr c [_ Hpc _]. destruct (Hr _ _ Hpc) as [Hnp Hv].
  eapply ok_bind; [by apply ok_lift|]. intros [v n] E. apply push_next. by apply (Hv v n).
Qed.

Lemma exec_fconst_ok w conv :
  (forall v, 0 <= v < 256 ^ Z.of_nat w -> is_i64 (conv v)) ->
  handler_ok (exec_fconst w conv).
Proof.
  intros Hconv c [_ Hpc Hu]. unfold exec_fconst.
  destruct (_ <? _)%nat eqn:E; [apply ok_fail|]. zbool.
  assert (slice_range (E := InterpError) (body c) (c_pc c) (c_pc c + w) =
          Ok (take w (drop (c_pc c) (body c)))) as Hs.
  { unfold slice_range. rewrite !(proj2 (Nat.leb_le _ _)) by lia. simpl. do 2 f_equal. lia. }
  eapply ok_bind; [apply ok_lift; by rewrite Hs|]. intros bs Hbs. rewrite Hs in Hbs. injection Hbs as <-.
  apply push_next, (le_bytes_i64 _ w).
  - by apply Forall_take, Forall_drop.
  - rewrite length_take, length_drop. lia.
  - done.
Qed.

Lemma exec_load_ok w conv :
  0 < w -> (forall v, 0 <= v < 256 ^ w -> is_i64 (conv v)) -> handler_ok (exec_load w conv).
Proof.
  intros Hw Hconv c [_ Hpc _]. destruct (read_memarg_total _ _ Hpc) as [Hnp Ho].
  eapply ok_bind; [by apply ok_lift|]. intros [o n] Hon. specialize (Ho o n Hon).
  eapply ok_bind; [apply v_pop_ok|]. intros a _. pose proof (effective_range a o Ho) as He.
  intros s Hs. unfold bind at 1, gets at 1. pose proof Hs as (Hwf & Ha & _).
  destruct (out_of_bounds _ _ _) eqn:Eb; [done|]. rewrite Ha in Eb. apply in_bounds in Eb; [|done].
  unfold bind at 1, get at 1, gets at 1. destruct (wf_mem _ Hwf) as (Hp & Hlen & _ & Hu8 & _).
  unfold bind at 1, lift at 1, sread_range.
  rewrite !(proj2 (Z.leb_le _ _)) by lia. cbn [andb].
  set (bs := srange _ _ _).
  assert (is_i64 (conv (le_bytes bs))) as Hv.
  { apply (le_bytes_i64 _ (Z.to_nat w)); [by apply srange_u8| |by rewrite Z2Nat.id by lia].
    unfold bs. rewrite srange_length. f_equal. lia. }
  apply (push_next _ _ Hv s Hs).
Qed.

(** ** Writing linear memory *)

(** What [MP] must survive: writes inside the active pages, and growth. *)
Context (MP_write : forall p m m',
  MP p m -> slen m' = slen m -> (forall k, p * PAGE_SIZE <= k -> sget m' k = sget m k) ->
  (forall k, is_u8 (sget m' k)) -> MP p m').
Context (MP_grow : forall p q m m',
  MP p m -> p <= q -> slen m' = slen m -> (forall k, q * PAGE_SIZE <= k -> sget m' k = sget m k) ->
  (forall k, is_u8 (sget m' k)) -> MP q m').

Lemma WF_set_mem s m' :
  WF s -> slen m' = slen (mem (it s)) -> (forall k, is_u8 (sget m' k)) ->
  (forall k, active_mem s <= k -> sget m' k = sget (mem (it s)) k) ->
  WF (mkSt (set_mem m' (current_pages (it s)) (it s)) (world s) (active_mem s)).
Proof.
  intros (Hw & Ha & HW) Hl Hu Hk. split; [|done]. rewrite Ha in Hk. destruct Hw. split; auto; cbn.
  - destruct wf_mem0 as (H1 & H2 & H3 & _ & H4). unfold mem_ok. rewrite Hl. do 3 (split; [done|]).
    split; [done|]. by eapply MP_write.
  - by rewrite Hl.
Qed.

Lemma write_mem_ok f n s :
  WF s ->
  (exists m', f (mem (it s)) = Ok m' /\ slen m' = slen (mem (it s)) /\ (forall k, is_u8 (sget m' k)) /\
     forall k, active_mem s <= k -> sget m' k = sget (mem (it s)) k) ->
  match write_mem f n s with
  | (Ok _, s') => True /\ WF s' | (Err _, s') => WF s' | (Panic, _) => False | (OutOfFuel, _) => True end.
Proof.
  intros Hs (m' & Hf & Hl & Hu & Hk). unfold write_mem, bind, get, gets, lift, on_it, modify, ret.
  rewrite Hf. split; [done|]. by apply WF_set_mem.
Qed.

Lemma exec_store_ok w : 0 < w -> handler_ok (exec_store w).
Proof.
  intros Hw c [_ Hpc _]. destruct (read_memarg_total _ _ Hpc) as [Hnp Ho].
  eapply ok_bind; [by apply ok_lift|]. intros [o n] Hon. specialize (Ho o n Hon).
  eapply ok_bind; [apply v_pop_ok|]. intros v _.
  eapply ok_bind; [apply v_pop_ok|]. intros a _. pose proof (effective_range a o Ho) as He.
  intros s Hs. unfold bind at 1, gets at 1. pose proof Hs as (Hwf & Ha & _).
  destruct (out_of_bounds _ _ _) eqn:Eb; [done|]. rewrite Ha in Eb. apply in_bounds in Eb; [|done].
  fold (active_mem_bytes (it s)) in Eb. rewrite <- Ha in Eb.
  destruct (wf_mem _ Hwf) as (Hp & Hlen & _ & Hu8 & _).
  fold (active_mem_bytes (it s)) in Hlen. rewrite <- Ha in Hlen.
  apply (write_mem_ok (fun m => swrite_bytes m (effective a o) (to_le_bytes (Z.to_nat w) v))); [done|].
  destruct (swrite_bytes_some (E := InterpError) (mem (it s)) (effective a o) (to_le_bytes (Z.to_nat w) v))
    as [m' Hm']; [lia|rewrite to_le_bytes_length; lia|].
  pose proof Hm' as (_ & _ & Hl & _ & Hfr)%swrite_bytes_ok. rewrite to_le_bytes_length in Hfr.
  exists m'. split; [done|]. split; [done|]. split; [|intros k Hk; apply Hfr; lia].
  intros k. unfold swrite_bytes in Hm'. destruct (_ && _); [|done]. injection Hm' as <-. cbn.
  destruct (_ && _) eqn:Ek; [|apply Hu8]. zbool. rewrite to_le_bytes_length in *.
  pose proof (to_le_bytes_u8 (Z.to_nat w) v) as Hu. rewrite Forall_nth in Hu. apply Hu.
  rewrite to_le_bytes_length. lia.
Qed.

Lemma active_bound s : WF s -> 0 <= active_mem s <= slen (mem (it s)) /\ active_mem s < USIZE_MAX.
Proof.
  intros (Hwf & Ha & _). destruct (wf_mem _ Hwf) as (Hp & Hlen & Hmax & _).
  rewrite Ha. unfold active_mem_bytes, USIZE_MAX, PAGE_SIZE in *. lia.
Qed.

Lemma copy_step_ok s src k dst n :
  WF s -> 0 <= k -> 0 <= src -> 0 <= dst -> src + k <= active_mem s -> dst + k <= active_mem s ->
  match write_mem (fun m => scopy_within m src k dst) n s with
  | (Ok _, s') => True /\ WF s' | (Err _, s') => WF s' | (Panic, _) => False | (OutOfFuel, _) => True end.
Proof.
  intros Hs Hk Hsrc Hdst H1 H2. pose proof (active_bound s Hs) as [[Hp Hl] _].
  destruct (wf_mem _ (proj1 Hs)) as (_ & _ & _ & Hu8 & _).
  apply write_mem_ok; [done|]. unfold scopy_within. rewrite !(proj2 (Z.leb_le _ _)) by lia.
  eexists. split; [reflexivity|]. split; [done|]. split.
  - intros j. cbn [sget]. destruct (_ && _); apply Hu8.
  - intros j Hj. cbn [sget]. destruct (_ && _) eqn:E; [zbool; lia|done].
Qed.

Lemma fill_step_ok s k dst v n :
  WF s -> 0 <= k -> 0 <= dst -> dst + k <= active_mem s -> is_u8 v ->
  match write_mem (fun m => sfill m dst (dst + k) v) n s with
  | (Ok _, s') => True /\ WF s' | (Err _, s') => WF s' | (Panic, _) => False | (OutOfFuel, _) => True end.
Proof.
  intros Hs Hk Hdst H2 Hv. pose proof (active_bound s Hs) as [[Hp Hl] _].
  destruct (wf_mem _ (proj1 Hs)) as (_ & _ & _ & Hu8 & _).
  apply write_mem_ok; [done|]. unfold sfill. rewrite !(proj2 (Z.leb_le _ _)) by lia.
  eexists. split; [reflexivity|]. split; [done|]. split.
  - intros j. cbn [sget]. destruct (_ && _); [done|apply Hu8].
  - intros j Hj. cbn [sget]. destruct (_ && _) eqn:E; [zbool; lia|done].
Qed.

Lemma exec_memory_copy_ok c n : ok (exec_memory_copy c n) (fun _ => True).
Proof.
  do 3 (eapply ok_bind; [apply v_pop_ok|]; intros ? _). intros s Hs.
  pose proof (active_bound s Hs) as [_ Hb].
  unfold bind at 1, gets at 1. destruct (_ || _) eqn:Eb; [done|].
  apply orb_false_elim in Eb as [E1 E2]. apply Z.ltb_ge, sat_add_le in E1, E2; [|done..].
  apply copy_step_ok; [done|apply usize_nonneg..|done|done].
Qed.

Lemma exec_memory_fill_ok c n : ok (exec_memory_fill c n) (fun _ => True).
Proof.
  do 3 (eapply ok_bind; [apply v_pop_ok|]; intros ? _). intros s Hs.
  pose proof (active_bound s Hs) as [_ Hb].
  unfold bind at 1, gets at 1. destruct (_ <? _) eqn:Eb; [done|].
  apply Z.ltb_ge, sat_add_le in Eb; [|done].
  apply fill_step_ok; [done|apply usize_nonneg..|done|apply as_u8_range].
Qed.

Lemma pages_i64 p m : mem_ok p m -> is_i64 p.
Proof. intros (H1 & H2 & H3 & _). unfold is_i64, PAGE_SIZE in *. lia. Qed.

Lemma exec_memory_size_ok : handler_ok exec_memory_size.
Proof.
  intros c _. eapply ok_bind.
  { apply (ok_get current_pages is_i64). intros i Hi. eapply pages_i64, Hi. }
  intros p Hp. by apply push_next.
Qed.

Lemma WF_grow s q m' :
  WF s -> current_pages (it s) <= q <= max_pages (code (it s)) -> slen m' = slen (mem (it s)) ->
  (forall k, is_u8 (sget m' k)) ->
  (forall k, q * PAGE_SIZE <= k -> sget m' k = sget (mem (it s)) k) ->
  WF (mkSt (set_mem m' q (it s)) (world s) (q * PAGE_SIZE)).
Proof.
  intros (Hw & Ha & HW) Hq Hl Hu Hk. split; [|done]. destruct Hw.
  destruct wf_mem0 as (Hp & Hlen & Hmax & _ & HMP), wf_max0 as [Hm1 Hm2].
  split; auto; cbn [it set_mem mem current_pages code]; rewrite ?Hl; [|lia].
  unfold mem_ok. rewrite Hl. split; [lia|]. split; [unfold PAGE_SIZE in *; lia|].
  split; [done|]. split; [done|]. eapply MP_grow; [exact HMP|lia|done..].
Qed.

Lemma exec_memory_grow_ok : handler_ok exec_memory_grow.
Proof.
  intros c _. eapply ok_bind; [apply v_pop_ok|]. intros d _. intros s Hs.
  pose proof Hs as (Hwf & Ha & _). pose proof (as_u32_range d) as Hd. unfold is_u32 in Hd.
  set (delta := as_u32 d) in *. destruct (wf_mem _ Hwf) as (Hp & Hlen & Hmax & Hu8 & HMP).
  destruct (wf_max _ Hwf) as [[Hm1 Hm2] Hm3].
  unfold bind at 1, get at 1, gets at 1. unfold bind at 1, get at 1, gets at 1.
  destruct (_ <=? _) eqn:E; zbool; [|by apply push_next].
  assert (current_pages (it s) + delta <= max_pages (code (it s))) as Hle by (unfold U32_MAX in *; lia).
  unfold bind at 1, get at 1, gets at 1. unfold bind at 1, lift at 1, sfill.
  unfold PAGE_SIZE in Hlen, Hm3. rewrite !(proj2 (Z.leb_le _ _)) by (unfold PAGE_SIZE; lia). cbn [andb].
  unfold bind at 1, on_it at 1, modify at 1. unfold bind at 1, set_active at 1, modify at 1.
  apply push_next; [eapply pages_i64, Hwf|]. cbn [it world]. apply (WF_grow s); [done|lia|done|..].
  - intros k. cbn [sget]. destruct (_ && _); [done|apply Hu8].
  - intros k Hk. cbn [sget]. destruct (_ && _) eqn:E2; [zbool; lia|done].
Qed.

Lemma exec_prefix_fc_ok : handler_ok exec_prefix_fc.
Proof.
  intros c [Hfi Hpc _]. eapply ok_bind; [by apply ok_read_u32|]. intros [sub n] [_ Hn]. cbn [fst snd] in Hn.
  destruct (assoc sub trunc_sat) as [f|] eqn:Ef.
  { apply exec_un_ok. eapply (assoc_Forall unop_typed); [apply trunc_sat_typed|exact Ef]. }
  destruct (sub =? 8).
  { eapply ok_bind; [by apply ok_read_u32|]. intros [sg k] _.
    do 3 (eapply ok_bind; [apply v_pop_ok|]; intros ? _).
    destruct (negb _); [|by apply ok_ret]. apply emit_fail_ok. }
  destruct (sub =? 9).
  { eapply ok_bind; [by apply ok_read_u32|]. intros [sg k] _. by apply ok_ret. }
  destruct (sub =? 10); [apply exec_memory_copy_ok|].
  destruct (sub =? 11); [apply exec_memory_fill_ok|]. apply emit_fail_ok.
Qed.

(** ** Branches and returns: from a state whose frame can return *)

Definition okr {A} (m : I A) (R : A -> Prop) : Prop :=
  triple WFR m (fun a s => R a /\ WFR s) (fun _ s => WF s).

Lemma okr_lift {A} (r : result InterpError A) : r <> Panic -> okr (lift r) (fun a => r = Ok a).
Proof. intros Hr s Hs. destruct r; simpl; try done. apply Hs. Qed.

Lemma okr_v_pop : okr v_pop is_i64.
Proof.
  intros s [Hs [Hd Hr]]. pose proof (v_pop_ok s Hs) as Hp.
  assert (forall r s', v_pop s = (r, s') -> frames (it s') = frames (it s) /\ fdepth (it s') = fdepth (it s)) as Hk.
  { unfold v_pop, get, gets, bind, fail, on_it, modify, index, lift. intros r s'.
    destruct (vsp (it s) =? 0)%nat; intros [= <- <-]; done. }
  destruct (v_pop s) as [[a|e| |] s']; try done. destruct Hp as [Ha Hs'].
  destruct (Hk _ _ eq_refl) as [E1 E2]. split; [done|]. split; [done|].
  split; rewrite E2; [done|]. by rewrite E1.
Qed.

Lemma okr_bind {A B} (m : I A) (k : A -> I B) R (Q : B -> St -> Prop) :
  okr m R -> (forall a, R a -> triple WFR (k a) Q (fun _ s => WF s)) ->
  triple WFR (bind m k) Q (fun _ s => WF s).
Proof. apply triple_seq. Qed.

Lemma okr_read_u32 bs cur :
  (cur <= length bs)%nat ->
  okr (lift (read_u32_at bs cur)) (fun r => is_u32 r.1 /\ (cur + r.2 <= length bs)%nat).
Proof.
  intros Hc s Hs. pose proof (read_u32_at_total bs cur Hc) as Ht. unfold lift.
  destruct (read_u32_at bs cur) as [[v n]|e| |]; try done. apply Hs.
Qed.

(** Handlers that may leave the frame. *)
Definition handler_okr (h : handler) : Prop :=
  forall c, ctx_ok c -> triple WFR (h c) (fun _ s => WF s) (fun _ s => WF s).

Lemma branch_to fi p n :
  (fi < CALL_DEPTH)%nat -> 0 <= n ->
  triple WFR (do! set_frame_pc fi p in do! do_br n in ret Continue) (fun _ s => WF s) (fun _ s => WF s).
Proof.
  intros Hfi Hn. eapply triple_bind; [by apply set_frame_pc_ready|]. intros [].
  eapply triple_bind; [by apply do_br_ok|]. intros []. by apply triple_ret.
Qed.

Lemma exec_br_okr : handler_okr exec_br.
Proof.
  intros c [Hfi Hpc _]. eapply okr_bind; [by apply okr_read_u32|]. intros [n k] [Hn _].
  apply branch_to; [done|]. unfold is_u32 in Hn. simpl in Hn. lia.
Qed.

Lemma exec_br_if_okr : handler_okr exec_br_if.
Proof.
  intros c [Hfi Hpc _]. eapply okr_bind; [by apply okr_read_u32|]. intros [n k] [Hn _].
  eapply okr_bind; [apply okr_v_pop|]. intros v _. destruct (negb _).
  - apply branch_to; [done|]. unfold is_u32 in Hn. simpl in Hn. lia.
  - apply triple_ret. by intros s [Hs _].
Qed.

Lemma exec_br_table_okr : handler_okr exec_br_table.
Proof.
  intros c [Hfi Hpc _]. eapply okr_bind; [by apply okr_read_u32|]. intros [n k] [Hn Hk].
  eapply okr_bind; [apply okr_v_pop|]. intros v _. cbn [fst snd] in *.
  match goal with |- context [walk_labels ?a ?b ?d ?e ?f ?g] =>
    pose proof (walk_labels_total a b d e f g Hk (Z.le_refl 0)) as Hw;
    destruct (walk_labels a b d e f g) as [[p t]|e'| |] eqn:Ew end; try done.
  - eapply (okr_bind _ _ (fun r => r = (p, t))); [|intros ? ->; apply branch_to; [done|apply Hw]].
    intros s Hs. done.
  - intros s Hs. apply Hs.
Qed.

Lemma exec_return_okr : handler_okr (fun _ => do! do_return in ret Continue).
Proof.
  intros c _. eapply (triple_bind _ _ _ (fun _ s => WF s)); [|intros []; by apply triple_ret].
  eapply triple_conseq; [apply do_return_ok|done..].
Qed.

Lemma pop_ctrl_ok s d f :
  WF s -> frames (it s) !! (fdepth (it s) - 1)%nat = Some f -> (0 < fdepth (it s))%nat ->
  (ctrl_base f <= d <= ctrl_depth (it s))%nat ->
  WF (mkSt (set_ctrl (ctrl (it s)) d (it s)) (world s) (active_mem s)).
Proof.
  intros [Hw Ha] Hf Hd Hdd. split; [|done]. pose proof (wf_ctrl_depth _ Hw).
  destruct (wf_bases _ Hw) as [Hb1 Hb2]. destruct Hw. split; auto; cbn [it set_ctrl ctrl_depth]; [lia|].
  split; [|done]. cbn [fdepth frames ctrl_depth set_ctrl]. intros j g Hj Hg.
  destruct (decide (j = fdepth (it s) - 1)%nat) as [->|].
  - rewrite Hf in Hg. injection Hg as <-. lia.
  - pose proof (Hb2 j (fdepth (it s) - 1)%nat g f ltac:(lia) Hg Hf). lia.
Qed.

(** [end] and [else] work on the frame the loop has hoisted. *)
Lemma exec_end_ok c s f :
  WFR s -> fi c = (fdepth (it s) - 1)%nat -> frames (it s) !! fi c = Some f ->
  match exec_end c s with
  | (Ok _, s') => WF s' | (Err _, s') => WF s' | (Panic, _) => False | (OutOfFuel, _) => True end.
Proof.
  intros Hs Hfi Hf. pose proof Hs as [Hw [Hd Hr]]. unfold exec_end.
  unfold bind at 1, get at 1, gets at 1. unfold bind at 1, bind at 1, get at 1, gets at 1, index at 1, lift at 1.
  rewrite Hf. cbn [or_panic]. destruct (_ <? _)%nat eqn:E; zbool.
  - unfold bind, on_it, modify, ret. rewrite Hfi in Hf.
    apply (pop_ctrl_ok s _ f); try done. lia.
  - pose proof (do_return_ok s Hs) as Hret. unfold bind, ret.
    by destruct (do_return s) as [[]].
Qed.

Lemma exec_else_ok c s f :
  WF s -> (0 < fdepth (it s))%nat -> frames (it s) !! (fdepth (it s) - 1)%nat = Some f ->
  (ctrl_base f < ctrl_depth (it s))%nat ->
  match exec_else c s with
  | (Ok _, s') => WF s' | (Err _, s') => WF s' | (Panic, _) => False | (OutOfFuel, _) => True end.
Proof.
  intros Hs Hd Hf Hb. unfold exec_else. unfold bind at 1, get at 1, gets at 1.
  rewrite (proj2 (Nat.eqb_neq _ _)) by lia.
  pose proof (wf_ctrl _ (proj1 Hs)). pose proof (wf_ctrl_depth _ (proj1 Hs)).
  destruct (lookup_lt_is_Some_2 (ctrl (it s)) (ctrl_depth (it s) - 1)) as [cf Hcf]; [lia|].
  unfold bind at 1, bind at 1, get at 1, gets at 1, index at 1, lift at 1. rewrite Hcf. cbn [or_panic].
  unfold bind, on_it, modify, ret. apply (pop_ctrl_ok s _ f); try done. lia.
Qed.

(** ** Calls *)

Lemma call_host_ok h : host_ok h -> ok (call_host h) (fun _ => True).
Proof.
  intros Hh s (Hw & Ha & HWP). unfold call_host.
  specialize (Hh (vstack (it s)) (vsp (it s)) (mem (it s)) (world s) (current_pages (it s)) (wf_stack _ Hw) (wf_mem _ Hw) HWP).
  destruct (h _ _ _ _) as [r [[[vs n] m] w]].
  assert (stack_ok vs n /\ mem_ok (current_pages (it s)) m /\ slen m = slen (mem (it s)) /\ WP w ->
    WF (mkSt (set_mem m (current_pages (it s)) (set_vstack vs n (it s))) w (active_mem s))) as HW.
  { intros (Hs' & Hm' & Hl & HWP'). split; [|done]. destruct Hw. split; auto. cbn. by rewrite Hl. }
  destruct r; cbn beta iota in Hh |- *; try done; [split; [done|]|]; by apply HW.
Qed.

Lemma call_import_ok k : (k < MAX_FUNCS)%nat -> ok (call_import k) (fun _ => True).
Proof.
  intros Hk. eapply ok_bind.
  { apply (ok_get _ (fun hs => length hs = MAX_FUNCS /\ Forall (fun h => forall f, h = Some f -> host_ok f) hs)).
    intros i Hi. apply (wf_code i Hi). }
  intros hs [Hl Hf]. eapply ok_bind; [apply ok_index; lia|]. intros h Hh. cbn beta in Hh.
  pose proof (Forall_lookup_1 _ _ _ _ Hf Hh) as Hok. cbn beta in Hok.
  eapply (ok_bind _ _ host_ok); [|apply call_host_ok].
  destruct h as [f|]; [apply ok_ret; by apply Hok|apply ok_fail].
Qed.

Lemma count_call_ok k : ok (count_call k) (fun _ => True).
Proof. unfold count_call. destruct (_ <? _); [apply ok_world; auto|by apply ok_ret]. Qed.

Lemma exec_call_indirect_ok : handler_ok exec_call_indirect.
Proof.
  intros c [Hfi Hpc _]. eapply ok_bind; [by apply ok_read_u32|]. intros [et n1] [_ Hn1].
  eapply ok_bind; [by apply ok_read_u32|]. intros [ti n2] _.
  eapply ok_bind; [apply v_pop_ok|]. intros v _.
  eapply ok_bind; [apply get_code_ok|]. intros cd Hcd. pose proof (as_u32_range v) as Hv. unfold is_u32 in Hv.
  destruct (_ <=? _) eqn:Ets; [apply ok_fail|]. zbool.
  destruct (co_table cd Hcd) as (Htl & Hts & Htu).
  eapply ok_bind; [apply ok_index; lia|]. intros callee Hcallee.
  pose proof (Forall_lookup_1 _ _ _ _ Htu Hcallee) as Hcu. unfold is_u32 in Hcu.
  destruct (callee =? NULL_FUNC); [apply ok_fail|].
  eapply ok_bind; [apply count_call_ok|]. intros _ _.
  eapply (ok_bind _ _ (fun _ => True)).
  { destruct (callee <? _) eqn:Ec; [|by apply ok_ret]. zbool. pose proof (co_all cd Hcd).
    eapply ok_weaken; [apply ok_index; lia|done]. }
  intros t _. destruct (negb _); [apply ok_fail|].
  eapply ok_bind; [by apply set_frame_pc_ok|]. intros _ _.
  destruct (callee <? Z.of_nat (import_count cd)) eqn:Ei; zbool.
  - pose proof (co_imports cd Hcd). eapply ok_bind; [apply call_import_ok; lia|]. intros _ _. by apply ok_ret.
  - pose proof (co_body_count cd Hcd). cbn zeta. destruct (_ <=? _)%nat eqn:Eb; [apply ok_fail|]. zbool.
    eapply ok_bind; [apply push_frame_ok; lia|]. intros _ _. by apply ok_ret.
Qed.

Lemma exec_call_ok run : handler_ok (exec_call run).
Proof.
  intros c [Hfi Hpc _]. eapply ok_bind; [by apply ok_read_u32|]. intros [callee n] [Hc _]. cbn [fst] in Hc.
  unfold is_u32 in Hc. eapply ok_bind; [apply count_call_ok|]. intros _ _.
  eapply ok_bind; [by apply set_frame_pc_ok|]. intros _ _.
  eapply ok_bind; [apply get_code_ok|]. intros cd Hcd.
  pose proof (co_imports cd Hcd). pose proof (co_body_count cd Hcd).
  destruct (_ <? _) eqn:Ei; zbool.
  { eapply ok_bind; [apply call_import_ok; lia|]. intros _ _. by apply ok_ret. }
  cbn zeta. destruct (_ <=? _)%nat eqn:Eb; [apply ok_fail|]. zbool.
  eapply (ok_bind _ _ (fun j => j = None)).
  { destruct kernel_jit; [|by apply ok_ret]. eapply ok_bind.
    { apply (ok_get jit_fns (fun js => Forall (fun j => j = None) js /\ length js = MAX_FUNCS)).
      intros i Hi. apply (wf_jit i Hi). }
    intros js [Hj Hl]. cbn beta in Hl. eapply ok_weaken; [apply ok_index; lia|].
    intros j Hji. exact (Forall_lookup_1 _ _ _ _ Hj Hji). }
  intros j ->. eapply ok_bind; [apply push_frame_ok; lia|]. intros _ _. by apply ok_ret.
Qed.

(** ** One iteration *)

Lemma body_current s f :
  WF s -> frames (it s) !! (fdepth (it s) - 1)%nat = Some f ->
  exists b, bodies (code (it s)) !! body_idx f = Some b /\ Forall is_u8 b.
Proof.
  intros [Hw _] Hf. destruct (co_bodies _ (wf_code _ Hw)) as [Hl Hu].
  destruct (wf_frames _ Hw) as [_ Hff]. destruct (Forall_lookup_1 _ _ _ _ Hff Hf) as [Hb _].
  destruct (lookup_lt_is_Some_2 (bodies (code (it s))) (body_idx f)) as [b Hbb]; [lia|].
  exists b. split; [done|]. exact (Forall_lookup_1 _ _ _ _ Hu Hbb).
Qed.

(** The two situations the code does not guard: an [else] whose block lies
    below the frame, and a return whose results do not fit the stack. *)
Definition guarded (s : St) : Prop :=
  forall f b, frames (it s) !! (fdepth (it s) - 1)%nat = Some f ->
    bodies (code (it s)) !! body_idx f = Some b ->
    Z.of_nat (vsp_base f) + result_count f <= Z.of_nat STACK_DEPTH /\
    (b !! pc f = Some OP_ELSE -> (ctrl_base f < ctrl_depth (it s))%nat).

Definition post (x : result InterpError unit * St) : Prop :=
  match x with
  | (Ok _, s') => WF s' | (Err _, s') => WF s' | (Panic, _) => False | (OutOfFuel, _) => True end.

Definition load_typed (l : Z * (Z -> Z)) : Prop :=
  0 < l.1 /\ forall v, 0 <= v < 256 ^ l.1 -> is_i64 (l.2 v).

Lemma load_ops_typed : Forall (fun e => load_typed e.2) load_ops.
Proof. table; (split; [done|]); intros v Hv; cbn in *; unfold_width; zlia. Qed.

Lemma store_ops_typed : Forall (fun e => Z.lt 0 e.2) store_ops.
Proof. table; done. Qed.

Lemma const_ops_ok : Forall (fun e => handler_ok e.2) (variable_ops ++ const_ops ++ reinterpret_ops).
Proof.
  table.
  - intros c _. eapply ok_bind; [apply v_pop_ok|]. intros _ _. by apply ok_ret.
  - apply exec_select_ok.
  - apply exec_local_get_ok.
  - apply exec_local_set_ok.
  - apply exec_local_tee_ok.
  - apply exec_global_get_ok.
  - apply exec_global_set_ok.
  - apply exec_memory_size_ok.
  - apply exec_memory_grow_ok.
  - apply exec_const_ok, read_i32_at_total.
  - apply exec_const_ok, read_i64_at_total.
  - apply exec_fconst_ok. intros v Hv. cbn in Hv. unfold is_i64. lia.
  - apply exec_fconst_ok. intros v _. apply as_i64_range.
  - intros c _. by apply ok_ret.
  - intros c _. by apply ok_ret.
  - intros c _. by apply ok_ret.
Qed.

Definition postf (x : result InterpError flow * St) : Prop :=
  match x with
  | (Ok _, s') => WF s' | (Err _, s') => WF s' | (Panic, _) => False | (OutOfFuel, _) => True end.

Lemma ok_postf m s : ok m (fun _ => True) -> WF s -> postf (m s).
Proof. intros Hm Hs. specialize (Hm s Hs). unfold postf. destruct (m s) as [[]]; try done. apply Hm. Qed.

Lemma control_ops_ok op c s f h :
  WFR s -> ctx_ok c -> fi c = (fdepth (it s) - 1)%nat -> frames (it s) !! fi c = Some f ->
  (op = OP_ELSE -> (ctrl_base f < ctrl_depth (it s))%nat) ->
  assoc op control_ops = Some h -> postf (h c s).
Proof.
  intros Hs Hc Hfi Hf Helse. pose proof Hs as [Hw [Hd _]]. cbn [assoc control_ops].
  destruct (op =? OP_NOP); [intros [= <-]; exact Hw|].
  destruct (op =? OP_UNREACHABLE); [intros [= <-]; exact Hw|].
  destruct (op =? OP_BLOCK); [intros [= <-]; by apply ok_postf; [apply exec_block_ok|]|].
  destruct (op =? OP_LOOP); [intros [= <-]; by apply ok_postf; [apply exec_block_ok|]|].
  destruct (op =? OP_IF); [intros [= <-]; by apply ok_postf; [apply exec_if_ok|]|].
  destruct (op =? OP_ELSE) eqn:E.
  { intros [= <-]. zbool. rewrite Hfi in Hf. apply (exec_else_ok c s f); auto. }
  destruct (op =? OP_END); [|done]. intros [= <-]. by apply (exec_end_ok c s f).
Qed.

Lemma branch_ops_ok op c s h :
  WFR s -> ctx_ok c -> assoc op branch_ops = Some h -> postf (h c s).
Proof.
  intros Hs Hc Hh.
  assert (Forall (fun e => handler_okr e.2) branch_ops) as Hall.
  { table; [apply exec_br_okr|apply exec_br_if_okr|apply exec_br_table_okr|apply exec_return_okr]. }
  pose proof (assoc_Forall _ _ _ _ Hall Hh c Hc s Hs). unfold postf. by destruct (h c s) as [[]].
Qed.

Lemma exec_op_ok run op c s f :
  WFR s -> ctx_ok c -> fi c = (fdepth (it s) - 1)%nat -> frames (it s) !! fi c = Some f ->
  (op = OP_ELSE -> (ctrl_base f < ctrl_depth (it s))%nat) -> postf (exec_op run op c s).
Proof.
  intros Hs Hc Hfi Hf Helse. pose proof Hs as [Hw _]. unfold exec_op.
  destruct (assoc op (int_unops ++ float_unops)) as [u|] eqn:E1.
  { apply ok_postf; [|done]. apply exec_un_ok. eapply (assoc_Forall unop_typed); [|exact E1].
    apply Forall_app; split; [apply int_unops_typed|apply float_unops_typed]. }
  destruct (assoc op (int_binops ++ float_binops)) as [u|] eqn:E2.
  { apply ok_postf; [|done]. apply exec_bin_ok. eapply (assoc_Forall binop_typed); [|exact E2].
    apply Forall_app; split; [apply int_binops_typed|apply float_binops_typed]. }
  destruct (assoc op load_ops) as [[w conv]|] eqn:E3.
  { apply ok_postf; [|done]. destruct (assoc_Forall _ _ _ _ load_ops_typed E3).
    by apply exec_load_ok. }
  destruct (assoc op store_ops) as [w|] eqn:E4.
  { apply ok_postf; [|done]. pose proof (assoc_Forall _ _ _ _ store_ops_typed E4).
    by apply exec_store_ok. }
  unfold plain_ops. rewrite !assoc_app.
  destruct (assoc op control_ops) as [h|] eqn:E5; [by apply (control_ops_ok op c s f)|].
  destruct (assoc op branch_ops) as [h|] eqn:E6; [by apply (branch_ops_ok op c s)|].
  pose proof const_ops_ok as Hco. rewrite !Forall_app in Hco. destruct Hco as (Hv & Hk & Hr).
  destruct (assoc op variable_ops) as [h|] eqn:E7;
    [by apply ok_postf; [apply (assoc_Forall _ _ _ _ Hv E7)|]|].
  destruct (assoc op const_ops) as [h|] eqn:E8;
    [by apply ok_postf; [apply (assoc_Forall _ _ _ _ Hk E8)|]|].
  destruct (assoc op reinterpret_ops) as [h|] eqn:E9;
    [by apply ok_postf; [apply (assoc_Forall _ _ _ _ Hr E9)|]|].
  cbn [assoc]. destruct (op =? 0xFC); [by apply ok_postf; [apply exec_prefix_fc_ok|]|].
  destruct (op =? OP_CALL_INDIRECT); [by apply ok_postf; [apply exec_call_indirect_ok|]|].
  destruct (op =? OP_CALL); [by apply ok_postf; [apply exec_call_ok|]|].
  by apply ok_postf; [apply emit_fail_ok|].
Qed.

(** An iteration from a well-formed, guarded state does not panic and ends
    in a well-formed state, whatever the bytecode. *)
Lemma iteration_safe run s :
  WF s -> (0 < fdepth (it s))%nat -> guarded s -> post (iteration run s).
Proof.
  intros Hs Hd Hg. unfold iteration. unfold bind at 1, get at 1, gets at 1.
  destruct (yield_requested (it s)).
  { unfold bind, on_it, modify, fail, post. destruct Hs as [Hw Ha]. split; [|done]. by destruct Hw; split. }
  pose proof (wf_fdepth _ (proj1 Hs)). destruct (wf_frames _ (proj1 Hs)) as [Hfl Hff].
  destruct (lookup_lt_is_Some_2 (frames (it s)) (fdepth (it s) - 1)) as [f Hf]; [lia|].
  destruct (body_current s f Hs Hf) as (b & Hb & Hbu). destruct (Hg f b Hf Hb) as [Hroom Helse].
  unfold bind at 1, index at 1, lift at 1. rewrite Hf. cbn [or_panic].
  unfold bind at 1, index at 1, lift at 1. rewrite Hb. cbn [or_panic].
  assert (ready s) as Hr by (split; [done|intros g Hg'; rewrite Hf in Hg'; by injection Hg' as <-]).
  destruct (b !! pc f) as [op|] eqn:Hop.
  - unfold bind at 1, on_world at 1, modify at 1. set (s1 := mkSt _ _ _).
    assert (WFR s1) as Hs1 by (split; [apply (WF_world s); auto|done]). unfold bind at 1.
    set (c := mkCtx _ _ _ _).
    assert (ctx_ok c) as Hc by (split; cbn; [lia|apply lookup_lt_Some in Hop; lia|done]).
    pose proof (exec_op_ok run op c s1 f Hs1 Hc eq_refl Hf) as Hx.
    specialize (Hx ltac:(intros ->; by apply Helse)).
    destruct (exec_op run op c s1) as [[[p|]|e| |] s2]; try done.
    pose proof (set_frame_pc_ok (fdepth (it s) - 1) p ltac:(lia) s2 Hx) as Hp. unfold post.
    destruct (set_frame_pc _ _ s2) as [[]]; try done. apply Hp.
  - pose proof (do_return_ok s (conj Hs Hr)) as Hret. unfold post. by destruct (do_return s) as [[]].
Qed.
End safety.
