(* ===== verification/Instantiate.v ===== *)
(** * Instantiation and whole runs

    [Interpreter::new] establishes the invariant of Safety.v, and the dispatch
    loop keeps it: reachability over the iterations of [run]. *)

From S2P Require Import Prelude Leb128 Loader Opcode IntOps FloatOps Jump Sections World.
From S2P Require Import Machine Dispatch Safety.

(** ** What the section parsers leave in the arrays *)

Lemma read_u32_at_ok bs cur v n : read_u32_at bs cur = Ok (v, n) -> is_u32 v.
Proof.
  unfold read_u32_at, slice_from. destruct (_ <=? _)%nat; cbn [rbind]; [|done].
  destruct (read_u32_leb128 _) as [[v' n']|] eqn:E; cbn [ok_or]; [|done].
  intros [= -> ->]. apply (read_u32_bounds _ _ _ E).
Qed.

Lemma u32_nonneg v : is_u32 v -> 0 <= v.
Proof. unfold is_u32. lia. Qed.

(** Splits a successful [let?] chain into its steps. *)
Ltac unchain :=
  repeat match goal with
  | H : rbind ?c _ = Ok _ |- _ => apply rbind_ok in H as (? & ? & H); cbn beta iota zeta in H
  | H : (if ?b then _ else _) = Ok _ |- _ => destruct b eqn:?; try discriminate H
  | x : _ * _ |- _ => destruct x; cbn beta iota zeta in *
  end.

Lemma parse_type_loop_shape n i bs cur ps rs ps' rs' :
  parse_type_loop n i bs cur ps rs = Ok (ps', rs') ->
  Forall (Z.le 0) ps -> Forall (Z.le 0) rs ->
  (length ps' = length ps /\ Forall (Z.le 0) ps') /\ (length rs' = length rs /\ Forall (Z.le 0) rs').
Proof.
  revert i cur ps rs; induction n as [|n IH]; intros i cur ps rs; cbn [parse_type_loop].
  { by intros [= <- <-]. }
  intros E Hp Hr. unchain. apply IH in E as [[E1 E2] [E3 E4]].
  - rewrite length_insert in E1, E3. done.
  - apply Forall_insert; [done|]. eapply u32_nonneg, read_u32_at_ok; eauto.
  - apply Forall_insert; [done|]. eapply u32_nonneg, read_u32_at_ok; eauto.
Qed.

Lemma parse_function_loop_shape n i bs cur out out' :
  parse_function_loop n i bs cur out = Ok out' -> Forall (Z.le 0) out ->
  length out' = length out /\ Forall (Z.le 0) out'.
Proof.
  revert i cur out; induction n as [|n IH]; intros i cur out; cbn [parse_function_loop].
  { by intros [= <-]. }
  intros E Ho. unchain. apply IH in E as [E1 E2].
  - rewrite length_insert in E1. done.
  - apply Forall_insert; [done|]. eapply u32_nonneg, read_u32_at_ok; eauto.
Qed.

Lemma parse_locals_nonneg n entry lc t lc' t' :
  parse_locals n entry lc t = Ok (lc', t') -> 0 <= t -> 0 <= t'.
Proof.
  revert lc t; induction n as [|n IH]; intros lc t; cbn [parse_locals]; [by intros [= <- <-]|].
  intros E Ht. unchain. apply IH in E; [done|].
  match goal with H : read_u32_at _ _ = _ |- _ => apply read_u32_at_ok, u32_nonneg in H end. lia.
Qed.

Lemma slice_Forall {E} (P : Z -> Prop) bs a b r :
  Forall P bs -> slice_range (E := E) bs a b = Ok r -> Forall P r.
Proof.
  intros Hf. unfold slice_range. destruct (_ && _); [|done]. intros [= <-].
  by apply Forall_take, Forall_drop.
Qed.

Lemma slice_from_Forall {E} (P : Z -> Prop) bs a r :
  Forall P bs -> slice_from (E := E) bs a = Ok r -> Forall P r.
Proof. intros Hf. unfold slice_from. destruct (_ <=? _)%nat; [|done]. intros [= <-]. by apply Forall_drop. Qed.

Definition bodies_ok (bds : list (list Z)) : Prop :=
  length bds = MAX_FUNCS /\ Forall (Forall is_u8) bds.

Lemma parse_code_loop_shape n i bs cur bds lcs bds' lcs' :
  parse_code_loop n i bs cur bds lcs = Ok (bds', lcs') -> Forall is_u8 bs ->
  bodies_ok bds -> Forall (Z.le 0) lcs ->
  bodies_ok bds' /\ length lcs' = length lcs /\ Forall (Z.le 0) lcs'.
Proof.
  intros E Hbs. revert i cur bds lcs E; induction n as [|n IH]; intros i cur bds lcs; cbn [parse_code_loop].
  { by intros [= <- <-]. }
  intros E [Hl Hb] Hc. unchain. apply IH in E as (E1 & E2 & E3).
  - rewrite length_insert in E2. done.
  - split; [by rewrite length_insert|]. apply Forall_insert; [done|].
    eapply slice_from_Forall; [|eassumption]. eapply slice_Forall; [|eassumption]. done.
  - apply Forall_insert; [done|]. eapply parse_locals_nonneg; [eassumption|done].
Qed.

Lemma parse_import_loop_shape n bs cur k out k' out' :
  parse_import_loop n bs cur k out = Ok (k', out') -> length out' = length out.
Proof.
  revert cur k out; induction n as [|n IH]; intros cur k out; cbn [parse_import_loop].
  { by intros [= <- <-]. }
  intros E. unchain; apply IH in E; try done. case_match; by rewrite ?length_insert in E.
Qed.

Lemma parse_elems_shape n j base bs cur t sz cur' t' sz' :
  parse_elems n j base bs cur t sz = Ok (cur', t', sz') -> 0 <= base -> 0 <= j ->
  length t = MAX_TABLE -> (sz <= MAX_TABLE)%nat -> Forall is_u32 t ->
  length t' = MAX_TABLE /\ (sz' <= MAX_TABLE)%nat /\ Forall is_u32 t'.
Proof.
  intros E Hb. revert j cur t sz E; induction n as [|n IH]; intros j cur t sz; cbn [parse_elems].
  { by intros [= <- <- <-]. }
  intros E Hj Hl Hs Hf. unchain; apply IH in E; zbool; try done; try lia; try (by rewrite length_insert);
    try (apply Forall_insert; [done|eapply read_u32_at_ok; eauto]). 
Qed.

Lemma parse_element_loop_shape n bs cur t sz t' sz' :
  parse_element_loop n bs cur t sz = Ok (t', sz') ->
  length t = MAX_TABLE -> (sz <= MAX_TABLE)%nat -> Forall is_u32 t ->
  length t' = MAX_TABLE /\ (sz' <= MAX_TABLE)%nat /\ Forall is_u32 t'.
Proof.
  revert cur t sz; induction n as [|n IH]; intros cur t sz; cbn [parse_element_loop].
  { by intros [= <- <-]. }
  intros E Hl Hs Hf. unchain; [|by simplify_eq].
  match goal with H : parse_elems _ _ _ _ _ _ _ = _ |- _ => apply parse_elems_shape in H as (Hx1 & Hx2 & Hx3) end;
    try done; [by apply IH in E|apply usize_nonneg].
Qed.

Lemma read_signed_at bs cur v n :
  read_i32_at bs cur = Ok (v, n) \/ read_i64_at bs cur = Ok (v, n) -> is_i64 v.
Proof.
  destruct (decide (cur <= length bs)%nat) as [Hc|Hc].
  - destruct (read_i32_at_total bs cur Hc) as [_ H1], (read_i64_at_total bs cur Hc) as [_ H2]. naive_solver.
  - unfold read_i32_at, read_i64_at, slice_from. rewrite (proj2 (Nat.leb_gt _ _)) by lia. naive_solver.
Qed.

Lemma parse_global_loop_shape n i bs cur vs ms vs' ms' :
  parse_global_loop n i bs cur vs ms = Ok (vs', ms') -> Forall is_i64 vs ->
  length vs' = length vs /\ Forall is_i64 vs' /\ length ms' = length ms.
Proof.
  revert i cur vs ms; induction n as [|n IH]; intros i cur vs ms; cbn [parse_global_loop].
  { by intros [= <- <-]. }
  intros E Hv. unchain; simplify_eq; apply IH in E as (E1 & E2 & E3); rewrite ?length_insert in *; try done.
  all: apply Forall_insert; [done|]; eapply read_signed_at; eauto.
Qed.

Lemma fill_types_shape n i ic fti all all' :
  fill_types n i ic fti all = Ok all' -> length all' = length all.
Proof.
  revert i all; induction n as [|n IH]; intros i all; cbn [fill_types]; [by intros [= <-]|].
  intros E. unchain; apply IH in E; by rewrite ?length_insert in E.
Qed.

Lemma zeros_le n : Forall (Z.le 0) (replicate n 0).
Proof. by apply Forall_replicate. Qed.

Definition nonneg_array (n : nat) (l : list Z) : Prop := length l = n /\ Forall (Z.le 0) l.

Lemma nonneg_zeros n : nonneg_array n (replicate n 0).
Proof. split; [apply length_replicate|by apply Forall_replicate]. Qed.

(** Each section, present or not, leaves arrays of the right shape. *)
Lemma type_section_shape o tc ps rs :
  match o with
  | Some tb => parse_type_section tb (replicate MAX_TYPES 0) (replicate MAX_TYPES 0)
  | None => Ok (O, replicate MAX_TYPES 0, replicate MAX_TYPES 0)
  end = Ok (tc, ps, rs) ->
  (tc <= MAX_TYPES)%nat /\ nonneg_array MAX_TYPES ps /\ nonneg_array MAX_TYPES rs.
Proof.
  destruct o as [tb|].
  - unfold parse_type_section. intros E. unchain. simplify_eq. zbool.
    destruct (nonneg_zeros MAX_TYPES) as [Hl Hf].
    match goal with H : parse_type_loop _ _ _ _ _ _ = _ |- _ =>
      apply parse_type_loop_shape in H as [[H1a H1b] [H2a H2b]]; [|done..] end.
    rewrite Hl in *. split; [lia|]. done.
  - intros [= <- <- <-]. split; [lia|]. split; apply nonneg_zeros.
Qed.

Lemma function_section_shape o fti :
  match o with
  | Some fb => parse_function_section fb (replicate MAX_FUNCS 0)
  | None => Ok (replicate MAX_FUNCS 0)
  end = Ok fti -> nonneg_array MAX_FUNCS fti.
Proof.
  destruct (nonneg_zeros MAX_FUNCS) as [Hl Hf].
  destruct o as [tb|]; [|intros [= <-]; done].
  unfold parse_function_section. intros E. unchain.
  apply parse_function_loop_shape in E as [E1 E2]; [|done]. by rewrite Hl in E1.
Qed.

Lemma code_section_shape cb bc bds lcs :
  Forall is_u8 cb ->
  parse_code_section cb (replicate MAX_FUNCS []) (replicate MAX_FUNCS 0) = Ok (bc, bds, lcs) ->
  (bc <= MAX_FUNCS)%nat /\ bodies_ok bds /\ nonneg_array MAX_FUNCS lcs.
Proof.
  intros Hu E. unfold parse_code_section in E. unchain. simplify_eq. zbool.
  destruct (nonneg_zeros MAX_FUNCS) as [Hl Hf].
  match goal with H : parse_code_loop _ _ _ _ _ _ = _ |- _ =>
    apply parse_code_loop_shape in H as (H1a & H1b & H1c); [|done| |done] end.
  - rewrite Hl in *. split; [lia|]. done.
  - split; [apply length_replicate|]. by apply Forall_replicate.
Qed.

Lemma global_section_shape o gc vs ms :
  match o with
  | Some gb => parse_global_section gb (replicate MAX_GLOBALS 0) (replicate MAX_GLOBALS false)
  | None => Ok (O, replicate MAX_GLOBALS 0, replicate MAX_GLOBALS false)
  end = Ok (gc, vs, ms) ->
  (gc <= MAX_GLOBALS)%nat /\ (length vs = MAX_GLOBALS /\ Forall is_i64 vs) /\ length ms = MAX_GLOBALS.
Proof.
  destruct o as [gb|].
  - unfold parse_global_section. intros E. unchain. simplify_eq. zbool.
    match goal with H : parse_global_loop _ _ _ _ _ _ = _ |- _ =>
      apply parse_global_loop_shape in H as (H1a & H1b & H1c); [|apply replicate_zeros] end.
    rewrite length_replicate in *. split; [lia|]. done.
  - intros [= <- <- <-]. rewrite !length_replicate. split; [lia|]. split; [|done].
    split; [done|apply replicate_zeros].
Qed.

Lemma element_section_shape o t sz :
  match o with
  | Some eb => parse_element_section eb (replicate MAX_TABLE NULL_FUNC) 0
  | None => Ok (replicate MAX_TABLE NULL_FUNC, O)
  end = Ok (t, sz) ->
  length t = MAX_TABLE /\ (sz <= MAX_TABLE)%nat /\ Forall is_u32 t.
Proof.
  assert (Forall is_u32 (replicate MAX_TABLE NULL_FUNC)) by by apply Forall_replicate.
  destruct o as [eb|].
  - unfold parse_element_section. intros E. unchain.
    eapply parse_element_loop_shape; [exact E|apply length_replicate|lia|done].
  - intros [= <- <-]. split; [apply length_replicate|]. split; [lia|done].
Qed.

Lemma import_section_shape o all :
  match o with
  | Some ib => let? (_, out) := parse_import_func_types ib (replicate MAX_FUNCS 0) in Ok out
  | None => Ok (replicate MAX_FUNCS 0)
  end = Ok all -> length all = MAX_FUNCS.
Proof.
  destruct o as [ib|]; [|intros [= <-]; apply length_replicate].
  intros E. unchain. simplify_eq.
  match goal with H : parse_import_func_types _ _ = _ |- _ => unfold parse_import_func_types in H; rename H into Hp end.
  unchain. apply parse_import_loop_shape in Hp. by rewrite length_replicate in Hp.
Qed.

(** [Interpreter::new] establishes the invariant. *)
Lemma new_wf MP WP module ic m hosts pages i :
  Interpreter_new module ic m hosts pages = Ok i ->
  (forall cb, code_section module = Some cb -> Forall is_u8 cb) ->
  mem_ok MP pages m -> (ic + body_count (code i) <= MAX_FUNCS)%nat ->
  length hosts = MAX_FUNCS -> Forall (fun h => forall f, h = Some f -> host_ok MP WP f) hosts ->
  wf MP WP i.
Proof.
  intros E Hcb Hm Hic Hhl Hhf. unfold Interpreter_new in E. unchain.
  injection E as <-. cbn [code body_count] in Hic.
  repeat match goal with
  | H : _ = Ok _ |- _ => first
      [ apply type_section_shape in H as (? & ? & ?)
      | apply function_section_shape in H
      | apply ok_or_ok in H; apply Hcb in H
      | apply (code_section_shape _ _ _ _ ltac:(eassumption)) in H as (? & ? & ?)
      | apply global_section_shape in H as (? & ? & ?)
      | apply element_section_shape in H as (? & ? & ?)
      | apply import_section_shape in H
      | apply fill_types_shape in H ]
  end.
  pose proof Hm as (Hp & Hpl & Hmax & _). unfold PAGE_SIZE in Hpl.
  assert (as_u32 (slen m / PAGE_SIZE) = slen m / PAGE_SIZE) as Emax by (unfold PAGE_SIZE; unfold_width; zlia).
  split; cbn [code vstack vsp frames fdepth ctrl ctrl_depth globals mem current_pages jit_fns max_pages].
  - split; cbn; try done; try congruence.
    apply (build_jump_table_ok _).
  - split; [apply length_replicate|]. split; [apply replicate_zeros|lia].
  - split; [apply length_replicate|]. apply Forall_replicate. split; [unfold MAX_FUNCS; cbn; lia|].
    split; [apply length_replicate|]. split; [apply replicate_zeros|]. cbn. lia.
  - lia.
  - apply length_replicate.
  - lia.
  - split; cbn; intros; lia.
  - done.
  - done.
  - rewrite Emax. unfold PAGE_SIZE, U32_MAX. split; [zlia|]. zlia.
  - split; [by apply Forall_replicate|apply length_replicate].
Qed.

(** ** Whole runs *)

Section runs.
Context `{FloatEnv} `{Features}.
Context (MP : Z -> slice -> Prop) (WP : World -> Prop).
Context (WP_emit : forall e w, WP w -> WP (emit e w)).
Context (WP_count : forall oc fc w, WP w -> WP (set_counters oc fc w)).
Context (MP_write : forall p m m',
  MP p m -> slen m' = slen m -> (forall k, p * PAGE_SIZE <= k -> sget m' k = sget m k) ->
  (forall k, is_u8 (sget m' k)) -> MP p m').
Context (MP_grow : forall p q m m',
  MP p m -> p <= q -> slen m' = slen m -> (forall k, q * PAGE_SIZE <= k -> sget m' k = sget m k) ->
  (forall k, is_u8 (sget m' k)) -> MP q m').

Definition running (s : St) : Prop := (shadow_stop_fdepth (it s) < fdepth (it s))%nat.

(** States the loop passes through: one successful iteration per step. *)
Inductive reach (s : St) : St -> Prop :=
| reach_refl : reach s s
| reach_step s1 s2 r :
    reach s s1 -> running s1 -> iteration r s1 = (Ok tt, s2) -> reach s s2.

Lemma reach_trans s1 s2 s3 : reach s1 s2 -> reach s2 s3 -> reach s1 s3.
Proof. intros H1. induction 1 as [|s4 s5 r _ IH Hr Hi]; [done|]. by eapply reach_step. Qed.

Definition guarded_from (s : St) : Prop := forall s', reach s s' -> running s' -> guarded s'.

Lemma reach_WF s : WF MP WP s -> guarded_from s -> forall s', reach s s' -> WF MP WP s'.
Proof.
  intros Hs Hg s' Hr. induction Hr as [|s1 s2 r Hr IH Hrun Hi]; [done|].
  pose proof (iteration_safe MP WP WP_emit WP_count MP_write MP_grow r s1 IH) as Hp.
  specialize (Hp ltac:(unfold running in Hrun; lia) (Hg s1 Hr Hrun)). by rewrite Hi in Hp.
Qed.

Lemma run_loop_safe fuel s :
  WF MP WP s -> guarded_from s ->
  match run_loop fuel s with
  | (Ok _, s') => WF MP WP s' /\ ~ running s' /\ reach s s'
  | (Err _, s') => WF MP WP s'
  | (Panic, _) => False
  | (OutOfFuel, s') => True
  end.
Proof.
  revert s; induction fuel as [|fuel IH]; intros s Hs Hg; [done|]. cbn [run_loop].
  unfold bind at 1, get at 1, gets at 1.
  destruct (_ <=? _)%nat eqn:E; zbool.
  { cbn. split; [done|]. split; [unfold running; lia|constructor]. }
  assert (running s) as Hrun by done.
  unfold bind at 1. set (r := bind _ _).
  pose proof (iteration_safe MP WP WP_emit WP_count MP_write MP_grow r s Hs) as Hp.
  specialize (Hp ltac:(unfold running in Hrun; lia) (Hg s (reach_refl s) Hrun)).
  destruct (iteration r s) as [[[]|e| |] s1] eqn:Ei; try done.
  assert (reach s s1) as Hr1 by (eapply reach_step; [constructor|done|exact Ei]).
  assert (guarded_from s1) as Hg1 by (intros s' Hr'; apply Hg; by eapply reach_trans).
  specialize (IH s1 Hp Hg1). destruct (run_loop fuel s1) as [[[]|e| |] s2]; try done.
  destruct IH as (H1 & H2 & H3). split; [done|]. split; [done|]. by eapply reach_trans.
Qed.

(** ** The outcome does not depend on the fuel *)

Lemma bind_ext {A B} (m : I A) (k1 k2 : A -> I B) s :
  (forall a s', m s = (Ok a, s') -> k1 a s' = k2 a s') -> bind m k1 s = bind m k2 s.
Proof. intros Hk. unfold bind. destruct (m s) as [[a|e| |] s']; auto. Qed.

Definition no_jit (s : St) : Prop := Forall (fun j => j = None) (jit_fns (it s)).

Lemma exec_call_run r1 r2 c s : no_jit s -> exec_call r1 c s = exec_call r2 c s.
Proof.
  intros Hj. unfold exec_call. apply bind_ext. intros [callee n] s1. unfold lift. intros [= _ <-].
  apply bind_ext. intros [] s2 E2.
  assert (no_jit s2) as Hj2.
  { unfold count_call, on_world, modify, ret in E2. destruct (_ <? _); injection E2 as <-; done. }
  apply bind_ext. intros [] s3 E3.
  assert (no_jit s3) as Hj3.
  { unfold set_frame_pc, get, gets, bind, index, lift, on_it, modify in E3.
    destruct (frames (it s2) !! fi c); [|done]. injection E3 as <-. done. }
  apply bind_ext. intros cd s4. unfold get, gets. intros [= _ <-].
  destruct (_ <? _); [done|]. cbn zeta. destruct (_ <=? _)%nat; [done|].
  apply bind_ext. intros j s5 E5. destruct kernel_jit; [|by injection E5 as <- <-].
  unfold bind, get, gets, index, lift in E5. injection E5 as E5 <-.
  apply or_panic_ok in E5. by rewrite (Forall_lookup_1 _ _ _ _ Hj3 E5).
Qed.

Lemma iteration_run r1 r2 s : no_jit s -> iteration r1 s = iteration r2 s.
Proof.
  intros Hj. unfold iteration. apply bind_ext. intros i s1. unfold get, gets. intros [= <- <-].
  destruct (yield_requested (it s)); [done|].
  apply bind_ext. intros f s2. unfold index, lift. intros [= _ <-].
  apply bind_ext. intros b s3. intros [= _ <-].
  destruct (b !! pc f) as [op|]; [|done].
  apply bind_ext. intros [] s4. unfold on_world, modify. intros [= <-].
  set (c := mkCtx _ _ _ _). set (s4 := mkSt _ _ _). assert (no_jit s4) as Hj4 by done.
  unfold bind. enough (exec_op r1 op c s4 = exec_op r2 op c s4) as -> by done.
  unfold exec_op. repeat case_match; try done. by apply exec_call_run.
Qed.

Lemma run_loop_S fuel s :
  run_loop (S fuel) s =
  if (fdepth (it s) <=? shadow_stop_fdepth (it s))%nat then (Ok tt, s) else
  match iteration (do! cache_active in run_loop fuel) s with
  | (Ok _, s1) => run_loop fuel s1
  | (Err e, s1) => (Err e, s1)
  | (Panic, s1) => (Panic, s1)
  | (OutOfFuel, s1) => (OutOfFuel, s1)
  end.
Proof. cbn [run_loop]. unfold bind at 1, get at 1, gets at 1. by destruct (_ <=? _)%nat. Qed.

(** A run that finished is unchanged by more fuel. *)
Lemma run_loop_more fuel fuel' s :
  WF MP WP s -> guarded_from s -> (fuel <= fuel')%nat -> (run_loop fuel s).1 <> OutOfFuel ->
  run_loop fuel' s = run_loop fuel s.
Proof.
  revert fuel' s; induction fuel as [|fuel IH]; intros fuel' s Hs Hg Hle; [done|].
  destruct fuel' as [|fuel']; [lia|]. rewrite !run_loop_S.
  destruct (_ <=? _)%nat eqn:E; [done|]. zbool. intros Hne.
  assert (no_jit s) as Hj by apply (wf_jit _ _ _ (proj1 Hs)).
  rewrite (iteration_run (do! cache_active in run_loop fuel') (do! cache_active in run_loop fuel) s Hj).
  pose proof (iteration_safe MP WP WP_emit WP_count MP_write MP_grow (do! cache_active in run_loop fuel) s Hs) as Hp.
  specialize (Hp ltac:(unfold running in *; lia) (Hg s (reach_refl s) E)).
  destruct (iteration _ s) as [[[]|e| |] s1] eqn:Ei; try done.
  apply IH; [done| |lia|done].
  intros s' Hr'. apply Hg. eapply reach_trans; [|exact Hr'].
  eapply reach_step; [constructor|exact E|exact Ei].
Qed.
End runs.
