(* ===== verification/Specs.v ===== *)
(** * Functional behaviour of memory access, calls, returns and blocks *)

From S2P Require Import Prelude Leb128 Opcode IntOps FloatOps Jump Sections World.
From S2P Require Import Machine Dispatch Safety Instantiate.

(** ** Stack operations on known states *)

Definition put_stack (vs : list Z) (n : nat) (s : St) : St :=
  mkSt (set_vstack vs n (it s)) (world s) (active_mem s).

Lemma v_pop_spec s n v :
  vsp (it s) = S n -> vstack (it s) !! n = Some v ->
  v_pop s = (Ok v, put_stack (vstack (it s)) n s).
Proof.
  intros Hn Hv. unfold v_pop, get, gets, bind, on_it, modify, index, lift. rewrite Hn. cbn [Nat.eqb].
  replace (S n - 1)%nat with n by lia. cbn [it set_vstack vstack]. by rewrite Hv.
Qed.

Lemma v_push_spec s v :
  (vsp (it s) < STACK_DEPTH)%nat ->
  v_push v s = (Ok tt, put_stack (<[vsp (it s) := v]> (vstack (it s))) (S (vsp (it s))) s).
Proof.
  intros Hn. unfold v_push, get, gets, bind. by rewrite (proj2 (Nat.leb_gt _ _)).
Qed.

(** ** Memory *)

(** A store of the low [w] bytes of [v]. *)
Lemma exec_store_spec w c s n a v o k :
  0 < w -> read_memarg (body c) (c_pc c) = Ok (o, k) ->
  vsp (it s) = S (S n) -> vstack (it s) !! n = Some a -> vstack (it s) !! S n = Some v ->
  0 <= effective a o -> effective a o + w <= active_mem s <= slen (mem (it s)) ->
  exists m', swrite_bytes (E := InterpError) (mem (it s)) (effective a o) (to_le_bytes (Z.to_nat w) v) = Ok m' /\
    exec_store w c s =
    (Ok (Next (c_pc c + k)),
     mkSt (set_mem m' (current_pages (it s)) (set_vstack (vstack (it s)) n (it s))) (world s) (active_mem s)).
Proof.
  intros Hw Hm Hn Ha Hv He Hb.
  destruct (swrite_bytes_some (E := InterpError) (mem (it s)) (effective a o) (to_le_bytes (Z.to_nat w) v))
    as [m' Hm']; [done|rewrite to_le_bytes_length; lia|].
  exists m'. split; [done|]. unfold exec_store. unfold bind at 1, lift at 1. rewrite Hm.
  unfold bind at 1. rewrite (v_pop_spec s (S n) v Hn Hv).
  unfold bind at 1. rewrite (v_pop_spec _ n a) by done.
  unfold bind at 1, gets at 1. cbn [put_stack active_mem it].
  replace (out_of_bounds w (effective a o) (active_mem s)) with false.
  - unfold write_mem, bind, get, gets, lift, on_it, modify, ret. cbn [put_stack it set_vstack mem]. by rewrite Hm'.
  - unfold out_of_bounds. destruct (w =? 1) eqn:E; symmetry; [apply Z.leb_gt|apply Z.ltb_ge]; zbool; lia.
Qed.

Lemma exec_load_spec w conv c s n a o k :
  0 < w -> read_memarg (body c) (c_pc c) = Ok (o, k) ->
  vsp (it s) = S n -> vstack (it s) !! n = Some a -> (n < STACK_DEPTH)%nat ->
  0 <= effective a o -> effective a o + w <= active_mem s <= slen (mem (it s)) ->
  exec_load w conv c s =
  (Ok (Next (c_pc c + k)),
   put_stack (<[n := conv (le_bytes (srange (mem (it s)) (effective a o) (effective a o + w)))]>
     (vstack (it s))) (S n) s).
Proof.
  intros Hw Hm Hn Ha Hd He Hb. unfold exec_load. unfold bind at 1, lift at 1. rewrite Hm.
  unfold bind at 1. rewrite (v_pop_spec s n a Hn Ha).
  unfold bind at 1, gets at 1. cbn [put_stack active_mem it].
  replace (out_of_bounds w (effective a o) (active_mem s)) with false.
  - unfold bind at 1, get at 1, gets at 1. unfold bind at 1, lift at 1, sread_range.
    cbn [put_stack it set_vstack mem]. rewrite !(proj2 (Z.leb_le _ _)) by lia. cbn [andb].
    unfold bind at 1. rewrite v_push_spec by done. done.
  - unfold out_of_bounds. destruct (w =? 1) eqn:E; symmetry; [apply Z.leb_gt|apply Z.ltb_ge]; zbool; lia.
Qed.

(** An access that does not fit traps and changes only the stack pointer. *)
Lemma exec_load_oob w conv c s n a o k :
  0 < w -> read_memarg (body c) (c_pc c) = Ok (o, k) ->
  vsp (it s) = S n -> vstack (it s) !! n = Some a ->
  active_mem s < effective a o + w ->
  exec_load w conv c s = (Err MemOutOfBounds, put_stack (vstack (it s)) n s).
Proof.
  intros Hw Hm Hn Ha Hb. unfold exec_load. unfold bind at 1, lift at 1. rewrite Hm.
  unfold bind at 1. rewrite (v_pop_spec s n a Hn Ha).
  unfold bind at 1, gets at 1. cbn [put_stack active_mem it].
  replace (out_of_bounds w (effective a o) (active_mem s)) with true; [done|].
  unfold out_of_bounds. destruct (w =? 1) eqn:E; symmetry; [apply Z.leb_le|apply Z.ltb_lt]; zbool; lia.
Qed.

Lemma exec_store_oob w c s n a v o k :
  0 < w -> read_memarg (body c) (c_pc c) = Ok (o, k) ->
  vsp (it s) = S (S n) -> vstack (it s) !! n = Some a -> vstack (it s) !! S n = Some v ->
  active_mem s < effective a o + w ->
  exec_store w c s = (Err MemOutOfBounds, put_stack (vstack (it s)) n s).
Proof.
  intros Hw Hm Hn Ha Hv Hb. unfold exec_store. unfold bind at 1, lift at 1. rewrite Hm.
  unfold bind at 1. rewrite (v_pop_spec s (S n) v Hn Hv).
  unfold bind at 1. rewrite (v_pop_spec _ n a) by done.
  unfold bind at 1, gets at 1. cbn [put_stack active_mem it].
  replace (out_of_bounds w (effective a o) (active_mem s)) with true; [done|].
  unfold out_of_bounds. destruct (w =? 1) eqn:E; symmetry; [apply Z.leb_le|apply Z.ltb_lt]; zbool; lia.
Qed.

(** What was stored is what a load of the same width reads. *)
Lemma store_load_same w conv c1 c2 s n a v o k1 k2 s1 :
  0 < w -> read_memarg (body c1) (c_pc c1) = Ok (o, k1) -> read_memarg (body c2) (c_pc c2) = Ok (o, k2) ->
  vsp (it s) = S (S n) -> vstack (it s) !! n = Some a -> vstack (it s) !! S n = Some v ->
  (n < STACK_DEPTH)%nat -> is_u32 o -> effective a o + w <= active_mem s <= slen (mem (it s)) ->
  exec_store w c1 s = (Ok (Next (c_pc c1 + k1)), s1) ->
  exists s2, exec_load w conv c2 (put_stack (vstack (it s1)) (S n) s1) = (Ok (Next (c_pc c2 + k2)), s2) /\
    vstack (it s2) = <[n := conv (v mod 256 ^ w)]> (vstack (it s)).
Proof.
  intros Hw Hm1 Hm2 Hn Ha Hv Hd Ho Hb Hst. pose proof (effective_range a o Ho) as He.
  destruct (exec_store_spec w c1 s n a v o k1) as (m' & Hm' & E); try done; try lia.
  rewrite Hst in E. injection E as ->.
  pose proof Hm' as (_ & _ & Hl & Hr & _)%swrite_bytes_ok. rewrite to_le_bytes_length in Hr.
  rewrite Z2Nat.id in Hr by lia.
  eexists. split.
  - apply (exec_load_spec w conv c2 _ n a o k2); try done; try lia. cbn. by rewrite Hl.
  - cbn [put_stack it set_vstack vstack set_mem mem]. rewrite Hr, le_bytes_to_le, Z2Nat.id by lia. done.
Qed.

(** ** The calling convention *)

(** The parameters arrive as the first locals, in order. *)
Lemma pop_params_spec n ls s base :
  vsp (it s) = (base + n)%nat -> (base + n <= length (vstack (it s)))%nat -> (n <= length ls)%nat ->
  pop_params n ls s =
  (Ok (take n (drop base (vstack (it s))) ++ drop n ls), put_stack (vstack (it s)) base s).
Proof.
  revert ls s; induction n as [|n IH]; intros ls s Hn Hl Hls; cbn [pop_params].
  - rewrite Nat.add_0_r in Hn. cbn. unfold put_stack. rewrite <- Hn. by destruct s as [[]].
  - destruct (lookup_lt_is_Some_2 (vstack (it s)) (base + n)) as [v Hv]; [lia|].
    unfold bind at 1. rewrite (v_pop_spec s (base + n) v) by (done || lia).
    rewrite IH by (cbn; rewrite ?length_insert; done || lia). cbn [put_stack it set_vstack vstack world active_mem].
    assert (drop n (<[n := v]> ls) = v :: drop (S n) ls) as ->.
    { rewrite (drop_S _ v n) by (apply list_lookup_insert_eq; lia). by rewrite drop_insert_lt by lia. }
    assert (take (S n) (drop base (vstack (it s))) = take n (drop base (vstack (it s))) ++ [v]) as ->.
    { apply take_S_r. by rewrite lookup_drop. }
    rewrite <- app_assoc. done.
Qed.

Lemma push_frame_spec s b t p r dc base :
  (fdepth (it s) < CALL_DEPTH)%nat ->
  let c := code (it s) in
  func_type_indices c !! b = Some t -> 0 <= t < Z.of_nat (type_count c) ->
  type_param_counts c !! Z.to_nat t = Some p -> type_result_counts c !! Z.to_nat t = Some r ->
  local_counts c !! b = Some dc -> 0 <= p -> 0 <= dc -> p + dc <= Z.of_nat MAX_LOCALS ->
  vsp (it s) = (base + Z.to_nat p)%nat -> (vsp (it s) <= length (vstack (it s)))%nat ->
  push_frame b s =
  (Ok tt,
   mkSt (set_frames
     (<[fdepth (it s) := mkFrame b 0
          (take (Z.to_nat p) (drop base (vstack (it s))) ++ replicate (MAX_LOCALS - Z.to_nat p) 0)
          (Z.to_nat (p + dc)) (ctrl_depth (it s)) base r]> (frames (it s)))
     (S (fdepth (it s))) (set_vstack (vstack (it s)) base (it s))) (world s) (active_mem s)).
Proof.
  intros Hd c Ht Htr Hp Hr Hdc Hp0 Hdc0 Htot Hv Hl. unfold push_frame.
  unfold bind at 1, get at 1, gets at 1. rewrite (proj2 (Nat.leb_gt _ _)) by done.
  unfold bind at 1, get at 1, gets at 1. fold c.
  unfold bind at 1, index at 1, lift at 1. rewrite Ht. cbn [or_panic].
  assert (sig_counts t s = (Ok (p, r), s)) as Hsig.
  { unfold sig_counts, bind, get, gets, index, lift, ret. fold c.
    rewrite (proj2 (Z.ltb_lt _ _)) by lia. by rewrite Hp, Hr. }
  unfold bind at 1. rewrite Hsig. unfold bind at 1, index at 1, lift at 1. rewrite Hdc. cbn [or_panic].
  rewrite (proj2 (Z.ltb_ge _ _)) by done.
  unfold bind at 1, get at 1, gets at 1. unfold bind at 1.
  rewrite (pop_params_spec (Z.to_nat p) _ s base) by
    (rewrite ?length_replicate; unfold MAX_LOCALS in *; lia).
  rewrite drop_replicate. done.
Qed.

(** ** Returning *)

Lemma copy_results_spec n src dst vs :
  (dst <= src)%nat -> (src + n <= length vs)%nat ->
  copy_results n src dst vs = Ok (take dst vs ++ take n (drop src vs) ++ drop (dst + n) vs).
Proof.
  revert src dst vs; induction n as [|n IH]; intros src dst vs Hds Hl; cbn [copy_results].
  - rewrite Nat.add_0_r, firstn_O, app_nil_l, take_drop. done.
  - destruct (lookup_lt_is_Some_2 vs src) as [v Hv]; [lia|]. rewrite Hv. cbn [or_panic rbind].
    rewrite (proj2 (Nat.ltb_lt _ _)) by lia. rewrite IH by (rewrite ?length_insert; lia).
    rewrite (take_S_r _ dst v) by (apply list_lookup_insert_eq; lia).
    rewrite take_insert_ge, !drop_insert_lt by lia.
    rewrite (drop_S vs v src) by done. cbn [firstn]. rewrite <- app_assoc. cbn [app].
    by replace (S dst + n)%nat with (dst + S n)%nat by lia.
Qed.

(** The results replace everything the callee left above its base. *)
Lemma do_return_spec s f :
  (0 < fdepth (it s))%nat -> frames (it s) !! (fdepth (it s) - 1)%nat = Some f ->
  0 <= result_count f <= Z.of_nat STACK_DEPTH ->
  (vsp_base f + Z.to_nat (result_count f) <= vsp (it s) <= length (vstack (it s)))%nat ->
  let rc := Z.to_nat (result_count f) in
  do_return s =
  (Ok tt,
   mkSt (set_frames (frames (it s)) (fdepth (it s) - 1)
     (set_ctrl (ctrl (it s)) (ctrl_base f)
       (set_vstack (take (vsp_base f) (vstack (it s))
                    ++ take rc (drop (vsp (it s) - rc) (vstack (it s)))
                    ++ drop (vsp_base f + rc) (vstack (it s))) (vsp_base f + rc) (it s))))
     (world s) (active_mem s)).
Proof.
  intros Hd Hf Hrc Hb. cbn zeta. unfold do_return.
  unfold bind at 1, get at 1, gets at 1. unfold bind at 1, bind at 1, get at 1, gets at 1, index at 1, lift at 1.
  rewrite Hf. cbn [or_panic]. unfold bind at 1, get at 1, gets at 1. unfold bind at 1, get at 1, gets at 1.
  unfold bind at 1. rewrite (proj2 (Z.ltb_ge _ _)) by lia. unfold lift.
  replace (Z.to_nat (Z.of_nat (vsp (it s)) - result_count f)) with (vsp (it s) - Z.to_nat (result_count f))%nat by lia.
  rewrite copy_results_spec by lia. done.
Qed.

(** ** Blocks *)

(** Entering a structured block records the position of its [end]. *)
Lemma exec_block_spec k c s pre op bt bdy post :
  body c = pre ++ op :: bt :: bdy ++ 0x0B :: post -> c_pc c = S (length pre) ->
  seq_code bdy -> (ctrl_depth (it s) < MAX_CTRL_DEPTH)%nat ->
  block_targets (jump_table (code (it s))) (body c) (c_body_idx c) (c_pc c + 1)
    = ok_or (scan_block_end (body c) (c_pc c + 1)) MalformedCode ->
  let start := (length pre + 2)%nat in
  exec_block k c s =
  (Ok (Next start),
   mkSt (set_ctrl (<[ctrl_depth (it s) := mkCtrl k start (start + length bdy)]> (ctrl (it s)))
     (S (ctrl_depth (it s))) (it s)) (world s) (active_mem s)).
Proof.
  intros Hb Hpc Hc Hd Hj. cbn zeta. unfold exec_block.
  replace (c_pc c + 1)%nat with (length pre + 2)%nat in * by lia.
  unfold bind at 1, get at 1, gets at 1. unfold bind at 1, lift at 1. rewrite Hj.
  replace (scan_block_end (body c) (length pre + 2)) with
    (Some (length pre + 2 + length bdy, @None nat)%nat).
  - cbn [ok_or]. unfold bind at 1, ctrl_push, bind at 1, get at 1, gets at 1.
    by rewrite (proj2 (Nat.leb_gt _ _)).
  - pose proof (scan_block_end_code (pre ++ [op; bt]) bdy post Hc) as Hs.
    rewrite length_app in Hs. cbn [length] in Hs. rewrite Hb.
    rewrite <- Hs. f_equal. by rewrite <- app_assoc.
Qed.

(** * Runs of the dispatch loop: an executable check of the run-time guard,
    and what a run leaves alone *)

Section checking.
Context `{FE : FloatEnv} `{FT : Features}.
Context (MP : Z -> slice -> Prop) (WP : World -> Prop).
Context (WP_emit : forall e w, WP w -> WP (emit e w)).
Context (WP_count : forall oc fc w, WP w -> WP (set_counters oc fc w)).
Context (MP_write : forall p m m',
  MP p m -> slen m' = slen m -> (forall k, p * PAGE_SIZE <= k -> sget m' k = sget m k) ->
  (forall k, is_u8 (sget m' k)) -> MP p m').
Context (MP_grow : forall p q m m',
  MP p m -> p <= q -> slen m' = slen m -> (forall k, q * PAGE_SIZE <= k -> sget m' k = sget m k) ->
  (forall k, is_u8 (sget m' k)) -> MP q m').

(** [guarded], decided. *)
Definition guardedb (s : St) : bool :=
  match frames (it s) !! (fdepth (it s) - 1)%nat with
  | None => true
  | Some f =>
    match bodies (code (it s)) !! body_idx f with
    | None => true
    | Some b =>
      (Z.of_nat (vsp_base f) + result_count f <=? Z.of_nat STACK_DEPTH) &&
      (negb (bool_decide (b !! pc f = Some OP_ELSE)) || (ctrl_base f <? ctrl_depth (it s))%nat)
    end
  end.

Lemma guardedb_sound s : guardedb s = true -> guarded s.
Proof.
  unfold guardedb, guarded. intros Hg f b Hf Hb. rewrite Hf, Hb in Hg. zbool. split; [done|].
  intros Hop. apply orb_prop in H0 as [H0|H0]; zbool; [|done].
  apply bool_decide_eq_false in H0. done.
Qed.

(** Runs the loop, checking the guard at every instruction. *)
Fixpoint guard_check (fuel : nat) (s : St) : bool :=
  match fuel with
  | O => false
  | S fuel' =>
    if (fdepth (it s) <=? shadow_stop_fdepth (it s))%nat then true else
    guardedb s &&
    match iteration (ret tt) s with
    | (Ok _, s1) => guard_check fuel' s1
    | _ => true
    end
  end.

Lemma reach_front s s' :
  reach s s' -> s' = s \/ (running s /\ exists r s1, iteration r s = (Ok tt, s1) /\ reach s1 s').
Proof.
  induction 1 as [|s1 s2 r Hr IH Hrun Hi]; [by left|]. right.
  destruct IH as [->|(Hrs & r' & s3 & Hi' & Hr')].
  - split; [done|]. exists r, s2. split; [done|constructor].
  - split; [done|]. exists r', s3. split; [done|]. by eapply reach_step.
Qed.

Lemma guard_check_sound fuel s : WF MP WP s -> guard_check fuel s = true -> guarded_from s.
Proof.
  revert s; induction fuel as [|fuel IH]; intros s Hs; cbn [guard_check]; [done|].
  destruct (_ <=? _)%nat eqn:E; zbool.
  { intros _ s' Hr Hrun. apply reach_front in Hr as [->|[Hrs _]]; unfold running in *; lia. }
  intros Hc. zbool. pose proof (guardedb_sound _ H) as Hg.
  intros s' Hr Hrun. apply reach_front in Hr as [->|(Hrs & r & s1 & Hi & Hr)]; [done|].
  assert (no_jit s) as Hj by apply (wf_jit _ _ _ (proj1 Hs)).
  rewrite (iteration_run r (ret tt) s Hj) in Hi.
  pose proof (iteration_safe MP WP WP_emit WP_count MP_write MP_grow (ret tt) s Hs ltac:(lia) Hg) as Hp.
  rewrite Hi in H0, Hp. eapply IH; [exact Hp|done|exact Hr|done].
Qed.
End checking.
