(* ===== verification/Host.v ===== *)
(** * Built-in host functions ([kernel/src/wasm/engine.rs], the [env] module)

    Each works on the value stack, the stack pointer, the linear memory of the
    instance and the kernel state. *)

From S2P Require Import Prelude FileTable Opcode World Machine.

Record HSt := mkHSt { h_vs : list Z; h_n : nat; h_mem : slice; h_w : World }.

Definition H := M HSt InterpError.

(** A host function as the interpreter calls it. *)
Definition host (h : H unit) : HostFn := fun vs n m w =>
  let '(r, s) := h (mkHSt vs n m w) in (r, (h_vs s, h_n s, h_mem s, h_w s)).

(** [if *vsp < k { return Err(StackUnderflow); }] *)
Definition need (k : nat) : H unit :=
  let! n := gets h_n in if (n <? k)%nat then fail StackUnderflow else ret tt.

(** [vstack[*vsp - k]] *)
Definition arg (k : nat) : H Z :=
  let! n := gets h_n in
  let! vs := gets h_vs in
  if (n <? k)%nat then panic else lift (or_panic (vs !! (n - k)%nat)).

(** [*vsp -= k] *)
Definition consume (k : nat) : H unit :=
  modify (fun s => mkHSt (h_vs s) (h_n s - k) (h_mem s) (h_w s)).

(** [vstack[*vsp] = v; *vsp += 1;] *)
Definition push_result (v : Z) : H unit :=
  let! n := gets h_n in
  let! vs := gets h_vs in
  if (n <? length vs)%nat
  then modify (fun s => mkHSt (<[n := v]> vs) (S n) (h_mem s) (h_w s)) else panic.

(** [if *vsp >= STACK_DEPTH { return Err(StackOverflow); }] *)
Definition room : H unit :=
  let! n := gets h_n in if (STACK_DEPTH <=? n)%nat then fail StackOverflow else ret tt.

Definition on_w (f : World -> World) : H unit :=
  modify (fun s => mkHSt (h_vs s) (h_n s) (h_mem s) (f (h_w s))).
Definition set_h_mem (m : slice) : H unit :=
  modify (fun s => mkHSt (h_vs s) (h_n s) m (h_w s)).

Definition NL : Z := 10.
Definition print (bs : list Z) : H unit := on_w (emit (Print bs)).
Definition println (bs : list Z) : H unit := print (bs ++ [NL]).

(** ** Number formatting *)

(** [while val > 0 { pos -= 1; buf[pos] = b'0' + (val % 10); val /= 10; }];
    [pos] is the room left in the buffer. *)
Fixpoint fmt_loop (pos : nat) (val : Z) (acc : list Z) : result InterpError (nat * list Z) :=
  if val <=? 0 then Ok (pos, acc) else
  match pos with
  | O => Panic
  | S pos' => fmt_loop pos' (val / 10) (48 + val mod 10 :: acc)
  end.

(** The decimal text of [n], built in a buffer of [cap] bytes. *)
Definition fmt_dec (cap : nat) (min : Z) (n : Z) : result InterpError (list Z) :=
  let negative := n <? 0 in
  let val := if n =? min then - min else if negative then - n else n in
  if val =? 0 then Ok [48] else
  let? (pos, acc) := fmt_loop cap val [] in
  if negative then match pos with O => Panic | S _ => Ok (45 :: acc) end else Ok acc.

Definition fmt_i32 (n : Z) : H unit := let! s := lift (fmt_dec 11 (-2147483648) n) in println s.
Definition fmt_i64 (n : Z) : H unit := let! s := lift (fmt_dec 20 (-9223372036854775808) n) in println s.

Definition HEX : list Z := str "0123456789ABCDEF".

(** [buf[9 - i] = HEX[(n >> (i * 4)) & 0xF]] *)
Definition hex_digits (n : Z) : list Z :=
  map (fun k => nth (Z.to_nat (Z.land (Z.shiftr n (Z.of_nat (7 - k) * 4)) 0xF)) HEX 0) (seq 0 8).

Definition fmt_hex (n : Z) : H unit := println (str "0x" ++ hex_digits n).

(** ** Output *)

Definition host_print : H unit :=
  do! need 2 in
  let! len := arg 1 in
  let! ptr := arg 2 in
  do! consume 2 in
  let! m := gets h_mem in
  let ptr := as_usize ptr in
  let e := Z.min (sat_add_usize ptr (as_usize len)) (slen m) in
  let! bs := lift (sread_range m ptr e) in
  match from_utf8 bs with Some s => print s | None => ret tt end.

Definition host_print_int : H unit :=
  do! need 1 in let! n := arg 1 in do! consume 1 in fmt_i32 (as_i32 n).

Definition host_yield : H unit := fail Yielded.

Definition host_sleep_ms : H unit :=
  do! need 1 in
  let! v := arg 1 in
  do! consume 1 in
  do! on_w (set_sleep (Z.max (as_i32 v) 0)) in
  fail Yielded.

(** The stack entry is an [i64]. *)
Definition host_print_i64 : H unit :=
  do! need 1 in let! n := arg 1 in do! consume 1 in fmt_i64 (as_i64 n).

Definition host_print_char : H unit :=
  do! need 1 in
  let! v := arg 1 in
  do! consume 1 in
  match from_utf8 [as_u8 (Z.land v 0xFF)] with Some s => print s | None => ret tt end.

Definition host_print_hex : H unit :=
  do! need 1 in let! n := arg 1 in do! consume 1 in fmt_hex (as_u32 n).

Definition I32_MAX : Z := 2147483647.

Definition host_uptime_ms : H unit :=
  do! room in
  let! w := gets h_w in
  let! ms := lift (uptime_ms w) in
  push_result (Z.min ms I32_MAX).

Definition host_wasm_opcount : H unit :=
  do! room in let! w := gets h_w in push_result (as_i64 (OPCODE_COUNT w)).

Definition host_exit : H unit := do! need 1 in do! consume 1 in fail Exited.

(** ** Keyboard input *)

(** Blocks until a character or Enter; the other keys are skipped. *)
Fixpoint read_char_loop (fuel : nat) : H Z :=
  match fuel with
  | O => fun s => (OutOfFuel, s)
  | S fuel' => fun s =>
    match next_key_raw (scancodes (h_w s)) (SHIFT (h_w s)) with
    | None => (OutOfFuel, s)
    | Some (k, scs, sh) =>
      let s' := mkHSt (h_vs s) (h_n s) (h_mem s) (set_keyboard scs sh (h_w s)) in
      match k with
      | KeyChar c => (Ok c, s')
      | Enter => (Ok 10, s')
      | _ => read_char_loop fuel' s'
      end
    end
  end.

Definition host_read_char : H unit :=
  do! room in
  let! w := gets h_w in
  let! code := read_char_loop (S (length (scancodes w))) in
  push_result code.

(** The line being read: [len] bytes at [ptr], at most [cap]. *)
Fixpoint read_line_loop (fuel : nat) (ptr cap len : Z) : H Z :=
  match fuel with
  | O => fun s => (OutOfFuel, s)
  | S fuel' => fun s =>
    match next_key_raw (scancodes (h_w s)) (SHIFT (h_w s)) with
    | None => (OutOfFuel, s)
    | Some (k, scs, sh) =>
      let s' := mkHSt (h_vs s) (h_n s) (h_mem s) (set_keyboard scs sh (h_w s)) in
      (match k with
       | Enter => do! println [] in ret len
       | Backspace =>
         if 0 <? len then do! print [8; 32; 8] in read_line_loop fuel' ptr cap (len - 1)
         else read_line_loop fuel' ptr cap len
       | KeyChar c =>
         if (c <? 128) && (len <? cap) then
           let! m := gets h_mem in
           let! m' := lift (swrite_bytes m (ptr + len) [c]) in
           do! set_h_mem m' in
           do! print [c] in
           read_line_loop fuel' ptr cap (len + 1)
         else read_line_loop fuel' ptr cap len
       | _ => read_line_loop fuel' ptr cap len
       end) s'
    end
  end.

Definition host_read_line : H unit :=
  do! need 2 in
  let! cap := arg 1 in
  let! ptr := arg 2 in
  do! consume 2 in
  let! m := gets h_mem in
  let e := sat_add_usize (as_usize ptr) (as_usize cap) in
  if slen m <? e then push_result (-1) else
  let! w := gets h_w in
  let! len := read_line_loop (S (length (scancodes w))) (as_usize ptr) (as_usize cap) 0 in
  push_result len.

(** ** Files *)

(** The body of a ['done] block: a file operation with its result value. *)
Definition fs_read_body (name_ptr name_len buf_ptr buf_cap : Z) : H Z :=
  let! m := gets h_mem in
  let! w := gets h_w in
  let name_end := sat_add_usize name_ptr name_len in
  if slen m <? name_end then ret (-1) else
  let! raw := lift (sread_range m name_ptr name_end) in
  match from_utf8 raw with
  | None => ret (-1)
  | Some name =>
    match find_file name (fs w) with
    | None => ret (-1)
    | Some d =>
      let bs := deref (fs w) d in
      let buf_end := sat_add_usize buf_ptr buf_cap in
      if (slen m <? buf_end) || (buf_cap <? Z.of_nat (length bs)) then ret (-1) else
      let! m' := lift (swrite_bytes m buf_ptr bs) in
      do! set_h_mem m' in
      ret (Z.of_nat (length bs))
    end
  end.

Definition host_fs_read : H unit :=
  do! need 4 in
  let! buf_cap := arg 1 in
  let! buf_ptr := arg 2 in
  let! name_len := arg 3 in
  let! name_ptr := arg 4 in
  do! consume 4 in
  let! r := fs_read_body (as_usize name_ptr) (as_usize name_len) (as_usize buf_ptr) (as_usize buf_cap) in
  push_result r.

(** Remove the old entry, register the new one, flush to the volume. *)
Definition replace_file (name : list Z) (d : dref) (data : list Z) (w : World) : World :=
  let st := register_file name d (remove_file name (fs w)).2 in
  emit (FatWrite name data) (set_fs st w).

Definition fs_write_body (name_ptr name_len buf_ptr buf_len : Z) : H Z :=
  let! m := gets h_mem in
  let! w := gets h_w in
  let name_end := sat_add_usize name_ptr name_len in
  let buf_end := sat_add_usize buf_ptr buf_len in
  if (slen m <? name_end) || (slen m <? buf_end) then ret (-1) else
  let nlen := Z.min name_len 64 in
  let! raw := lift (sread_range m name_ptr (name_ptr + nlen)) in
  match from_utf8 raw with
  | None => ret (-1)
  | Some name =>
    let! data := lift (sread_range m buf_ptr (buf_ptr + buf_len)) in
    match alloc_write_buf data (fs w) with
    | (None, _) => ret (-1)
    | (Some d, st) =>
      do! on_w (fun w => replace_file name d data (set_fs st w)) in
      ret 0
    end
  end.

Definition host_fs_write : H unit :=
  do! need 4 in
  let! buf_len := arg 1 in
  let! buf_ptr := arg 2 in
  let! name_len := arg 3 in
  let! name_ptr := arg 4 in
  do! consume 4 in
  let! r := fs_write_body (as_usize name_ptr) (as_usize name_len) (as_usize buf_ptr) (as_usize buf_len) in
  push_result r.

Definition args_get_body (ptr cap : Z) : H Z :=
  let! m := gets h_mem in
  let! w := gets h_w in
  let len := Z.of_nat (ARGS_LEN w) in
  if (slen m <? sat_add_usize ptr len) || (cap <? len) then ret (-1) else
  let! bs := lift (slice_range (ARGS_BUF w) 0 (ARGS_LEN w)) in
  let! m' := lift (swrite_bytes m ptr bs) in
  do! set_h_mem m' in
  ret len.

Definition host_args_get : H unit :=
  do! need 2 in
  let! cap := arg 1 in
  let! ptr := arg 2 in
  do! consume 2 in
  let! r := args_get_body (as_usize ptr) (as_usize cap) in
  push_result r.

Definition fs_size_body (name_ptr name_len : Z) : H Z :=
  let! m := gets h_mem in
  let! w := gets h_w in
  let name_end := sat_add_usize name_ptr name_len in
  if slen m <? name_end then ret (-1) else
  let! raw := lift (sread_range m name_ptr name_end) in
  match from_utf8 raw with
  | Some name =>
    match find_file name (fs w) with
    | Some d => ret (Z.of_nat (length (deref (fs w) d)))
    | None => ret (-1)
    end
  | None => ret (-1)
  end.

Definition host_fs_size : H unit :=
  do! need 2 in
  let! name_len := arg 1 in
  let! name_ptr := arg 2 in
  do! consume 2 in
  let! r := fs_size_body (as_usize name_ptr) (as_usize name_len) in
  push_result r.

(** ** Framebuffer *)

Definition host_fb_set_pixel : H unit :=
  do! need 3 in
  let! rgb := arg 1 in
  let! y := arg 2 in
  let! x := arg 3 in
  do! consume 3 in
  on_w (emit (SetPixel (as_i32 x) (as_i32 y) (as_u32 rgb))).

Definition host_fb_present : H unit := ret tt.

(** The little-endian [u32] words of a byte list. *)
Fixpoint words (bs : list Z) : list Z :=
  match bs with
  | b0 :: b1 :: b2 :: b3 :: bs' => le_bytes [b0; b1; b2; b3] :: words bs'
  | _ => []
  end.

Definition host_fb_blit : H unit :=
  do! need 3 in
  let! height := arg 1 in
  let! width := arg 2 in
  let! ptr := arg 3 in
  do! consume 3 in
  let height := as_usize height in
  let width := as_usize width in
  let ptr := as_usize ptr in
  let! m := gets h_mem in
  let pixel_count := sat_mul_usize width height in
  let byte_count := sat_mul_usize pixel_count 4 in
  if slen m <? sat_add_usize ptr byte_count then ret tt else
  let pixels := words (srange m ptr (ptr + byte_count)) in
  on_w (emit (Blit pixels width height)).
