(* ===== verification/HostSpec.v ===== *)
(** * Properties of the host functions

    Number formatting, the guarantee each built-in gives the interpreter
    ([host_ok], against an invariant of the kernel state) and what the file
    operations do to the file table. *)

From S2P Require Import Prelude Packets PacketsSpec Sockets NetStack NetSpec.
From S2P Require Import FileTable Opcode World Machine Safety Host.

(** ** Decimal and hexadecimal text *)

(** The value a decimal text denotes. *)
Definition dec_digits (ds : list Z) (a : Z) : Z := fold_left (fun a d => a * 10 + (d - 48)) ds a.

Definition dec_value (s : list Z) : Z :=
  match s with
  | [] => 0
  | d :: ds => if d =? 45 then - dec_digits ds 0 else dec_digits s 0
  end.

Definition is_digit (d : Z) : Prop := 48 <= d <= 57.

Lemma dec_digits_app ds d a : dec_digits (ds ++ [d]) a = dec_digits ds a * 10 + (d - 48).
Proof. unfold dec_digits. by rewrite fold_left_app. Qed.

Lemma fmt_loop_spec pos val acc :
  0 <= val < 10 ^ Z.of_nat pos ->
  exists pos' ds, fmt_loop pos val acc = Ok (pos', ds ++ acc) /\ pos = (pos' + length ds)%nat /\
    dec_digits ds 0 = val /\ Forall is_digit ds /\
    (forall k, val < 10 ^ Z.of_nat k -> (length ds <= k)%nat) /\
    (val = 0 -> ds = []) /\ (0 < val -> ds <> [] /\ head ds <> Some 48).
Proof.
  revert val acc; induction pos as [|pos IH]; intros val acc Hv.
  - change (10 ^ Z.of_nat 0) with 1 in Hv. exists 0%nat, []. cbn.
    replace (val <=? 0) with true by (symmetry; apply Z.leb_le; lia).
    do 2 (split; [done|]). split; [lia|]. split; [constructor|].
    split; [lia|]. split; [done|lia].
  - cbn [fmt_loop]. destruct (val <=? 0) eqn:E; zbool.
    { exists (S pos), []. split; [done|]. split; [cbn; lia|]. split; [cbn; lia|]. split; [constructor|].
      split; [cbn; lia|]. split; [done|lia]. }
    rewrite Nat2Z.inj_succ, Z.pow_succ_r in Hv by lia.
    destruct (IH (val / 10) (48 + val mod 10 :: acc)) as (p & ds & -> & Hp & Hd & Hf & Hk & Hz & Hh); [zlia|].
    exists p, (ds ++ [48 + val mod 10]). rewrite <- app_assoc. split; [done|].
    rewrite length_app. split; [cbn; lia|]. split; [rewrite dec_digits_app, Hd; zlia|].
    split; [apply Forall_app; split; [done|]; constructor; [unfold is_digit; zlia|constructor]|].
    split.
    { intros k Hlt. destruct k as [|k]; [change (10 ^ Z.of_nat 0) with 1 in Hlt; lia|].
      rewrite Nat2Z.inj_succ, Z.pow_succ_r in Hlt by lia. cbn. specialize (Hk k ltac:(zlia)). lia. }
    split; [lia|]. intros _. split; [by destruct ds|].
    destruct (decide (val / 10 = 0)) as [H0|H0].
    + rewrite (Hz H0). cbn. intros [= Hm]. zlia.
    + destruct (Hh ltac:(zlia)) as [Hn Hhd]. by destruct ds.
Qed.

(** [fmt_dec] stays inside its buffer and its text reads back as the number:
    a minus sign exactly for negative numbers, no leading zero. *)
Lemma fmt_dec_spec cap n B :
  - B <= n < B -> 0 < B < 10 ^ Z.of_nat cap ->
  exists s, fmt_dec (S cap) (- B) n = Ok s /\ dec_value s = n /\
    (n < 0 -> head s = Some 45) /\ (0 <= n -> Forall is_digit s) /\
    (n <> 0 -> head (if n <? 0 then tail s else s) <> Some 48).
Proof.
  intros Hn HB. unfold fmt_dec.
  set (val := if n =? - B then _ else _).
  assert (val = Z.abs n) as Hval by (unfold val; repeat case_split; zbool; lia).
  destruct (val =? 0) eqn:E0; zbool.
  { exists [48]. split; [done|]. assert (n = 0) as -> by lia. cbn. split; [done|]. split; [lia|].
    split; [intros _; constructor; [unfold is_digit; lia|constructor]|done]. }
  destruct (fmt_loop_spec (S cap) val []) as (p & ds & -> & Hp & Hd & Hf & Hk & _ & Hh).
  { rewrite Nat2Z.inj_succ, Z.pow_succ_r by lia. lia. }
  destruct (Hh ltac:(lia)) as [Hne Hhd]. rewrite app_nil_r. cbn [rbind].
  destruct (n <? 0) eqn:En; zbool.
  - specialize (Hk cap ltac:(lia)). destruct p as [|p]; [lia|].
    eexists. split; [done|]. cbn [dec_value tail head]. rewrite Z.eqb_refl.
    split; [lia|]. split; [done|]. split; [lia|done].
  - exists ds. split; [done|]. split.
    + destruct ds as [|d ds]; [done|]. cbn [dec_value]. inversion Hf as [|? ? Hd0]; subst.
      unfold is_digit in Hd0. destruct (d =? 45) eqn:E5; zbool; [lia|]. lia.
    + split; [lia|]. split; [done|]. by intros _.
Qed.

(** The text [fmt_hex] prints reads back as the number. *)
Definition hex_digit (c : Z) : Z := if c <=? 57 then c - 48 else c - 55.
Definition hex_value (ds : list Z) : Z := fold_left (fun a d => a * 16 + hex_digit d) ds 0.

Lemma hex_digit_nth k : 0 <= k < 16 -> hex_digit (nth (Z.to_nat k) HEX 0) = k.
Proof.
  intros Hk. assert (Forall (fun k => hex_digit (nth (Z.to_nat k) HEX 0) = k) (map Z.of_nat (seq 0 16))) as HF
    by (repeat constructor).
  rewrite Forall_forall in HF. apply HF. apply in_map_iff. exists (Z.to_nat k).
  split; [lia|]. apply in_seq. lia.
Qed.

Lemma hex_digits_value n : is_u32 n -> hex_value (hex_digits n) = n /\ length (hex_digits n) = 8%nat.
Proof.
  intros Hn. split; [|done]. unfold hex_value, hex_digits. cbn [map seq fold_left].
  rewrite !(fun k => Z.land_ones k 4) by lia. rewrite !Z.shiftr_div_pow2 by lia.
  rewrite !hex_digit_nth by zlia. cbn. unfold is_u32 in Hn. zlia.
Qed.

(** ** The invariant of the kernel state *)

(** A Rust slice: bytes, of a length that fits [isize]. *)
Definition image_ok (bs : list Z) : Prop := Forall is_u8 bs /\ Z.of_nat (length bs) <= I64_MAX.

Record fs_bytes (st : FsState) : Prop := {
  fb_pool : Forall (fun s => forall k, is_u8 (sget s k)) (WRITE_POOL st);
  fb_buf : forall k, is_u8 (sget (FILE_BUF st) k);
  fb_image : forall i f bs, FILE_TABLE st !! i = Some (Some f) -> data f = DImage bs -> image_ok bs
}.

Record world_ok (w : World) : Prop := {
  wo_fs : fs_wf (fs w);
  wo_bytes : fs_bytes (fs w);
  wo_args : length (ARGS_BUF w) = ARGS_CAP /\ (ARGS_LEN w <= ARGS_CAP)%nat /\ Forall is_u8 (ARGS_BUF w);
  wo_ticks : 0 <= TICK_COUNT w;
  wo_mhz : 0 <= TSC_MHZ w /\ TSC_MHZ w * 1000 < 18446744073709551616;
  wo_net : forall st, NETWORK_STACK w = Some st -> net_ok st
}.

Lemma world_ok_emit e w : world_ok w -> world_ok (emit e w).
Proof. intros []. by split. Qed.

Lemma world_ok_count oc fc w : world_ok w -> world_ok (set_counters oc fc w).
Proof. intros []. by split. Qed.

Lemma world_ok_static : world_ok world_static.
Proof.
  split; cbn -[ARGS_CAP]; try lia.
  - apply fs_wf_static.
  - split; cbn.
    + by apply Forall_replicate.
    + done.
    + intros i f bs H%lookup_replicate_1. naive_solver.
  - split; [apply length_replicate|]. split; [lia|]. by apply Forall_replicate.
  - done.
Qed.

#[export] Hint Resolve world_ok_emit world_ok_count : wasmos.

Lemma deref_u8 st nm d : fs_wf st -> fs_bytes st -> find_file nm st = Some d -> image_ok (deref st d).
Proof.
  intros Hwf Hb (i & f & Hi & Hd & _)%find_file_entry.
  pose proof (proj1 (wf_refs st Hwf i f Hi)) as Hok. rewrite Hd in Hok.
  pose proof (wf_buf_next st Hwf). unfold FILE_BUF_SIZE, WRITE_SLOT_CAP in *.
  destruct d as [slot l|base l|bs]; cbn [deref dref_ok] in *.
  - destruct (WRITE_POOL st !! slot) as [s|] eqn:E; [|by split].
    split; [|rewrite srange_length; unfold I64_MAX, WRITE_SLOT_CAP in *; lia].
    apply srange_u8. exact (Forall_lookup_1 _ _ _ _ (fb_pool st Hb) E).
  - split; [apply srange_u8, (fb_buf st Hb)|]. rewrite srange_length. unfold I64_MAX. lia.
  - by eapply fb_image.
Qed.

Lemma fs_bytes_table st t c :
  fs_bytes st -> (forall i f bs, t !! i = Some (Some f) -> data f = DImage bs -> image_ok bs) ->
  fs_bytes (set_table st t c).
Proof. intros [] Ht. by split. Qed.

Lemma fs_bytes_remove nm st : fs_bytes st -> fs_bytes (remove_file nm st).2.
Proof.
  intros Hb. destruct (remove_file_cases nm st) as [(i & f & -> & _)|[-> _]]; [|done]. cbn [snd].
  apply fs_bytes_table; [done|]. intros j g bs [(_ & ? & _)|[_ Hj]]%list_lookup_insert_Some; [done|].
  by eapply fb_image.
Qed.

Lemma fs_bytes_register nm slot len st : fs_bytes st -> fs_bytes (register_file nm (DWrite slot len) st).
Proof.
  intros Hb. unfold register_file. destruct (_ <? _)%nat; [|done].
  apply fs_bytes_table; [done|]. intros j g bs [(_ & [= <-] & _)|[_ Hj]]%list_lookup_insert_Some; [done|].
  by eapply fb_image.
Qed.

(** The write pool after a claim. *)
Lemma alloc_write_buf_bytes bs st d st' :
  fs_wf st -> fs_bytes st -> Forall is_u8 bs -> alloc_write_buf bs st = (Some d, st') ->
  fs_wf st' /\ fs_bytes st' /\ dref_ok st' d /\ exists slot len, d = DWrite slot len.
Proof.
  intros Hwf Hb Hu E.
  assert (Z.of_nat (length bs) <= WRITE_SLOT_CAP /\ (WRITE_POOL_NEXT st < WRITE_SLOTS)%nat) as [H1 H2].
  { unfold alloc_write_buf in E. destruct (WRITE_SLOT_CAP <? _) eqn:E1; [done|].
    destruct (WRITE_SLOTS <=? _)%nat eqn:E2; [done|]. zbool. lia. }
  destruct (alloc_write_buf_ok st bs Hwf H1 H2) as (d0 & st0 & E' & Hd & _ & _ & _ & _ & _ & Hwf').
  rewrite E in E'. injection E' as <- <-. split; [done|].
  unfold alloc_write_buf in E. rewrite (proj2 (Z.ltb_ge _ _)), (proj2 (Nat.leb_gt _ _)) in E by lia.
  destruct (WRITE_POOL st !! _) as [s|] eqn:Es; [|done].
  destruct (swrite_bytes s 0 bs) as [s'| | |] eqn:Ew; try done. injection E as <- <-.
  split; [|split; [done|eauto]]. destruct Hb as [Hp Hbf Him]. split; cbn; auto.
  apply Forall_insert; [done|]. eapply swrite_bytes_u8; [exact Ew|exact (Forall_lookup_1 _ _ _ _ Hp Es)|done].
Qed.

Lemma world_ok_fs st w : world_ok w -> fs_wf st -> fs_bytes st -> world_ok (set_fs st w).
Proof. intros []. by split. Qed.

Lemma world_ok_replace nm slot len bs st w :
  world_ok w -> fs_wf st -> fs_bytes st -> dref_ok st (DWrite slot len) ->
  world_ok (replace_file nm (DWrite slot len) bs (set_fs st w)).
Proof.
  intros Hw Hwf Hb Hd. unfold replace_file. cbn [fs set_fs].
  apply world_ok_emit, world_ok_fs; [by apply world_ok_fs| |].
  - apply fs_wf_register; [by apply fs_wf_remove|].
    unfold remove_file. destruct (find_from _ _ _); cbn [snd]; [apply (set_table_stable st)|]; done.
  - by apply fs_bytes_register, fs_bytes_remove.
Qed.

(** ** What a host function keeps *)

(** No assumption on the memory beyond its size and its bytes. *)
Definition any_mem : Z -> slice -> Prop := fun _ _ => True.

Definition hinv (p L : Z) (n : nat) (s : HSt) : Prop :=
  stack_ok (h_vs s) (h_n s) /\ mem_ok any_mem p (h_mem s) /\ slen (h_mem s) = L /\
  world_ok (h_w s) /\ h_n s = n.

(** [hok n m R n']: with [n] values on the stack, [m] does not panic, keeps the
    invariant, and ends with [n'] values and a result satisfying [R]. *)
Definition hok {A} (n : nat) (m : H A) (R : A -> Prop) (n' : nat) : Prop :=
  forall p L, triple (hinv p L n) m (fun a s => R a /\ hinv p L n' s) (fun _ s => exists k, hinv p L k s).

Lemma hok_bind {A B} n n1 n2 (m : H A) (k : A -> H B) R Q :
  hok n m R n1 -> (forall a, R a -> hok n1 (k a) Q n2) -> hok n (bind m k) Q n2.
Proof.
  intros Hm Hk p L s Hs. specialize (Hm p L s Hs). unfold bind.
  destruct (m s) as [[a|e| |] s']; try done. destruct Hm as [Ha Hs']. by apply (Hk a Ha p L).
Qed.

Lemma hok_ret {A} n (a : A) (R : A -> Prop) : R a -> hok n (ret a) R n.
Proof. intros Ha p L s Hs. done. Qed.

Lemma hok_fail {A} n e (R : A -> Prop) n' : hok n (fail e) R n'.
Proof. intros p L s Hs. by exists n. Qed.

Lemma hok_need n k : hok n (need k) (fun _ => (k <= n)%nat) n.
Proof.
  intros p L s Hs. pose proof Hs as (_ & _ & _ & _ & Hn). unfold need, bind, gets. rewrite Hn.
  destruct (n <? k)%nat eqn:E; zbool; [by exists n|]. done.
Qed.

Lemma hok_room n : hok n room (fun _ => (n < STACK_DEPTH)%nat) n.
Proof.
  intros p L s Hs. pose proof Hs as (_ & _ & _ & _ & Hn). unfold room, bind, gets. rewrite Hn.
  destruct (STACK_DEPTH <=? n)%nat eqn:E; zbool; [by exists n|]. done.
Qed.

Lemma hok_arg n k : (0 < k <= n)%nat -> hok n (arg k) is_i64 n.
Proof.
  intros Hk p L s Hs. pose proof Hs as ((Hl & Hf & Hd) & _ & _ & _ & Hn). unfold arg, bind, gets, lift. rewrite Hn in *.
  rewrite (proj2 (Nat.ltb_ge _ _)) by lia.
  destruct (lookup_lt_is_Some_2 (h_vs s) (n - k)) as [v Hv]; [lia|]. rewrite Hv. cbn.
  split; [exact (Forall_lookup_1 _ _ _ _ Hf Hv)|done].
Qed.

Lemma hok_consume n k : hok n (consume k) (fun _ => True) (n - k).
Proof.
  intros p L s ((Hl & Hf & Hd) & Hm & HL & Hw & Hn). split; [done|]. subst n.
  split; [|done]. cbn -[STACK_DEPTH]. split; [done|]. split; [done|lia].
Qed.

Lemma hok_push n v : (n < STACK_DEPTH)%nat -> is_i64 v -> hok n (push_result v) (fun _ => True) (S n).
Proof.
  intros Hlt Hv p L s ((Hl & Hf & Hd) & Hm & HL & Hw & Hn). unfold push_result, bind, gets, modify. rewrite Hn in *.
  rewrite (proj2 (Nat.ltb_lt _ _)) by lia. split; [done|].
  split; [|done]. cbn -[STACK_DEPTH]. split; [by rewrite length_insert|]. split; [by apply Forall_insert|lia].
Qed.

Lemma hok_w n f : (forall w, world_ok w -> world_ok (f w)) -> hok n (on_w f) (fun _ => True) n.
Proof. intros Hf p L s (Hs & Hm & HL & Hw & Hn). split; [done|]. repeat (split; [done|]). split; [by apply Hf|done]. Qed.

Lemma hok_print n bs : hok n (print bs) (fun _ => True) n.
Proof. apply hok_w. auto with wasmos. Qed.

Lemma hok_lift {A} n (r : result InterpError A) : r <> Panic -> hok n (lift r) (fun a => r = Ok a) n.
Proof. intros Hr p L s Hs. destruct r; try done. by exists n. Qed.

Lemma hok_gets {A} n (f : HSt -> A) (R : A -> Prop) :
  (forall p L s, hinv p L n s -> R (f s)) -> hok n (gets f) R n.
Proof. intros HR p L s Hs. split; [by eapply HR|done]. Qed.

(** The framework's guarantee is the interface the interpreter asks for. *)
Lemma hok_host (h : H unit) (R : unit -> Prop) :
  (forall n, (n <= STACK_DEPTH)%nat -> exists n', hok n h R n') -> host_ok any_mem world_ok (host h).
Proof.
  intros Hh vs n m w p Hs Hm Hw. destruct (Hh n) as [n' Hok]; [apply Hs|].
  specialize (Hok p (slen m) (mkHSt vs n m w)). unfold host.
  assert (hinv p (slen m) n (mkHSt vs n m w)) as Hi by done.
  specialize (Hok Hi). destruct (h _) as [[a|e| |] s']; try done.
  - by destruct Hok as (_ & ? & ? & ? & ? & _).
  - by destruct Hok as (k & ? & ? & ? & ? & _).
Qed.

(** One step of a host function's prologue. *)
Ltac hstep :=
  eapply hok_bind;
  [ first [ apply hok_need | apply hok_room | apply hok_arg; lia | apply hok_consume
          | apply hok_print | apply hok_w; auto with wasmos; fail ]
  | intros ? ?; cbn beta in * ].

Lemma fmt_dec_safe cap B n :
  - B <= n < B -> 0 < B < 10 ^ Z.of_nat cap -> fmt_dec (S cap) (- B) n <> Panic.
Proof. intros Hn HB. destruct (fmt_dec_spec cap n B Hn HB) as (s & -> & _). done. Qed.

Lemma host_print_int_ok : host_ok any_mem world_ok (host host_print_int).
Proof.
  apply (hok_host _ (fun _ => True)). intros n Hn. eexists. unfold host_print_int. do 3 hstep. unfold fmt_i32.
  eapply hok_bind; [apply hok_lift|intros s _; apply hok_print].
  apply (fmt_dec_safe 10 2147483648); [|lia]. pose proof (as_i32_range a0). unfold is_i32 in *. lia.
Qed.

Lemma host_print_i64_ok : host_ok any_mem world_ok (host host_print_i64).
Proof.
  apply (hok_host _ (fun _ => True)). intros n Hn. eexists. unfold host_print_i64. do 3 hstep. unfold fmt_i64.
  eapply hok_bind; [apply hok_lift|intros s _; apply hok_print].
  apply (fmt_dec_safe 19 9223372036854775808); [|lia]. pose proof (as_i64_range a0). unfold is_i64 in *. lia.
Qed.

Lemma host_print_char_ok : host_ok any_mem world_ok (host host_print_char).
Proof.
  apply (hok_host _ (fun _ => True)). intros n Hn. eexists. unfold host_print_char. do 3 hstep.
  destruct (from_utf8 _); [apply hok_print|by apply hok_ret].
Qed.

Lemma host_print_hex_ok : host_ok any_mem world_ok (host host_print_hex).
Proof.
  apply (hok_host _ (fun _ => True)). intros n Hn. eexists. unfold host_print_hex. do 3 hstep. apply hok_print.
Qed.

Lemma host_yield_ok : host_ok any_mem world_ok (host host_yield).
Proof. apply (hok_host _ (fun _ => True)). intros n Hn. exists n. apply hok_fail. Qed.

Lemma world_ok_sleep ms w : world_ok w -> world_ok (set_sleep ms w).
Proof. intros []. by split. Qed.
Lemma world_ok_keyboard sc sh w : world_ok w -> world_ok (set_keyboard sc sh w).
Proof. intros []. by split. Qed.
#[export] Hint Resolve world_ok_sleep world_ok_keyboard : wasmos.

Lemma host_sleep_ms_ok : host_ok any_mem world_ok (host host_sleep_ms).
Proof.
  apply (hok_host _ (fun _ => True)). intros n Hn. exists n. unfold host_sleep_ms. do 4 hstep. apply hok_fail.
Qed.

Lemma host_exit_ok : host_ok any_mem world_ok (host host_exit).
Proof.
  apply (hok_host _ (fun _ => True)). intros n Hn. exists n. unfold host_exit. do 2 hstep. apply hok_fail.
Qed.

Lemma host_uptime_ms_ok : host_ok any_mem world_ok (host host_uptime_ms).
Proof.
  apply (hok_host _ (fun _ => True)). intros n Hn. eexists. unfold host_uptime_ms. hstep.
  eapply hok_bind; [apply (hok_gets _ _ world_ok); by intros p L s (_ & _ & _ & Hw & _)|]. intros w Hw.
  destruct (wo_mhz w Hw) as [Hm1 Hm2]. pose proof (wo_ticks w Hw).
  eapply (hok_bind _ _ _ _ _ (fun ms => 0 <= ms)).
  - unfold uptime_ms. destruct (TSC_MHZ w =? 0) eqn:E0; [apply hok_ret; unfold I64_MAX; lia|].
    zbool. rewrite (proj2 (Z.leb_gt _ _)) by lia. apply hok_ret. unfold I64_MAX.
    pose proof (Z.div_pos (Z.max 0 (TSC w - TSC_BOOT w)) (TSC_MHZ w * 1000)). lia.
  - intros ms Hms. apply hok_push; [done|]. unfold is_i64, I32_MAX. lia.
Qed.

Lemma host_wasm_opcount_ok : host_ok any_mem world_ok (host host_wasm_opcount).
Proof.
  apply (hok_host _ (fun _ => True)). intros n Hn. eexists. unfold host_wasm_opcount. hstep.
  eapply hok_bind; [apply (hok_gets _ _ (fun _ => True)); done|]. intros w _.
  apply hok_push; [done|]. apply as_i64_range.
Qed.

Lemma host_fb_set_pixel_ok : host_ok any_mem world_ok (host host_fb_set_pixel).
Proof.
  apply (hok_host _ (fun _ => True)). intros n Hn. eexists. unfold host_fb_set_pixel. do 5 hstep.
  apply hok_w. auto with wasmos.
Qed.

Lemma host_fb_present_ok : host_ok any_mem world_ok (host host_fb_present).
Proof. apply (hok_host _ (fun _ => True)). intros n Hn. eexists. by apply hok_ret. Qed.

Lemma host_fb_blit_ok : host_ok any_mem world_ok (host host_fb_blit).
Proof.
  apply (hok_host _ (fun _ => True)). intros n Hn. eexists. unfold host_fb_blit. do 5 hstep. cbn zeta.
  eapply hok_bind; [apply (hok_gets _ _ (fun _ => True)); done|]. intros m _.
  destruct (_ <? _); [by apply hok_ret|]. apply hok_w. auto with wasmos.
Qed.

(** A range that passed the bounds check reads without panic. *)
Lemma checked_range {E} (m : slice) ptr len :
  0 <= ptr -> 0 <= len -> slen m < 2147483648 -> (slen m <? sat_add_usize ptr len) = false ->
  sread_range (E := E) m ptr (sat_add_usize ptr len) = Ok (srange m ptr (ptr + len)) /\
  sat_add_usize ptr len = ptr + len /\ ptr + len <= slen m.
Proof.
  intros Hp Hl Hm E0. zbool. pose proof (sat_add_le ptr len (slen m) E0) as Hle.
  unfold USIZE_MAX in Hle. specialize (Hle ltac:(lia)).
  assert (sat_add_usize ptr len = ptr + len) as -> by (unfold sat_add_usize, USIZE_MAX; lia).
  split; [|done]. unfold sread_range.
  rewrite !(proj2 (Z.leb_le _ _)) by lia. done.
Qed.

Lemma hinv_mem p L n s m' :
  hinv p L n s -> slen m' = slen (h_mem s) -> (forall k, is_u8 (sget m' k)) ->
  hinv p L n (mkHSt (h_vs s) (h_n s) m' (h_w s)).
Proof.
  intros (Hs & (H1 & H2 & H3 & _) & HL & Hw & Hn) Hl Hu.
  split; [done|]. split; [|split; [cbn; congruence|done]]. split; [done|]. cbn. rewrite Hl. done.
Qed.

Lemma hinv_world p L n s w' :
  hinv p L n s -> world_ok w' -> hinv p L n (mkHSt (h_vs s) (h_n s) (h_mem s) w').
Proof. intros (Hs & Hm & HL & _ & Hn) Hw. done. Qed.

Lemma minus1_i64 : is_i64 (-1).
Proof. unfold is_i64. lia. Qed.

Lemma fs_size_body_ok n np nl : 0 <= np -> 0 <= nl -> hok n (fs_size_body np nl) is_i64 n.
Proof.
  intros Hnp Hnl p L s Hs. pose proof Hs as (_ & (_ & _ & Hmax & _) & _ & Hw & _).
  unfold fs_size_body. unfold bind at 1, gets at 1. unfold bind at 1, gets at 1.
  destruct (slen (h_mem s) <? _) eqn:E0; [by split; [apply minus1_i64|]|].
  destruct (checked_range (E := InterpError) _ _ _ Hnp Hnl Hmax E0) as (Hr & Hsat & Hle).
  unfold bind, lift. rewrite Hr. destruct (from_utf8 _) as [nm|]; [|by split; [apply minus1_i64|]].
  destruct (find_file nm (fs (h_w s))) as [d|] eqn:Ef; [|by split; [apply minus1_i64|]].
  split; [|done]. destruct (deref_u8 _ nm d (wo_fs _ Hw) (wo_bytes _ Hw) Ef) as [_ Hlen].
  unfold is_i64, I64_MAX in *. lia.
Qed.

Lemma fs_read_body_ok n np nl bp bc :
  0 <= np -> 0 <= nl -> 0 <= bp -> 0 <= bc -> hok n (fs_read_body np nl bp bc) is_i64 n.
Proof.
  intros Hnp Hnl Hbp Hbc p L s Hs. pose proof Hs as (_ & (_ & _ & Hmax & Hu & _) & _ & Hw & _).
  unfold fs_read_body. unfold bind at 1, gets at 1. unfold bind at 1, gets at 1.
  destruct (slen (h_mem s) <? _) eqn:E0; [by split; [apply minus1_i64|]|].
  destruct (checked_range (E := InterpError) _ _ _ Hnp Hnl Hmax E0) as (Hr & Hsat & Hle).
  unfold bind at 1, lift at 1. rewrite Hr. destruct (from_utf8 _) as [nm|]; [|by split; [apply minus1_i64|]].
  destruct (find_file nm (fs (h_w s))) as [d|] eqn:Ef; [|by split; [apply minus1_i64|]].
  destruct (deref_u8 _ nm d (wo_fs _ Hw) (wo_bytes _ Hw) Ef) as [Hbu Hlen]. set (bs := deref _ _) in *.
  destruct (_ || _) eqn:E1; [by split; [apply minus1_i64|]|]. apply orb_false_elim in E1 as [E1 E2].
  destruct (checked_range (E := InterpError) _ _ _ Hbp Hbc Hmax E1) as (_ & _ & Hle2). zbool.
  destruct (swrite_bytes_some (E := InterpError) (h_mem s) bp bs) as [m' Hm']; [lia..|].
  unfold bind, lift. rewrite Hm'. cbn. split; [unfold is_i64, I64_MAX in *; lia|].
  pose proof Hm' as (_ & _ & Hl & _)%swrite_bytes_ok.
  apply hinv_mem; [done|done|]. by eapply swrite_bytes_u8.
Qed.

Lemma fs_write_body_ok n np nl bp bl :
  0 <= np -> 0 <= nl -> 0 <= bp -> 0 <= bl -> hok n (fs_write_body np nl bp bl) is_i64 n.
Proof.
  intros Hnp Hnl Hbp Hbl p L s Hs. pose proof Hs as (_ & (_ & _ & Hmax & Hu & _) & _ & Hw & _).
  unfold fs_write_body. unfold bind at 1, gets at 1. unfold bind at 1, gets at 1.
  destruct (_ || _) eqn:E0; [by split; [apply minus1_i64|]|]. apply orb_false_elim in E0 as [E0 E1].
  destruct (checked_range (E := InterpError) _ _ _ Hnp Hnl Hmax E0) as (_ & _ & Hle).
  destruct (checked_range (E := InterpError) _ _ _ Hbp Hbl Hmax E1) as (Hr2 & Hsat2 & Hle2).
  unfold bind at 1, lift at 1. unfold sread_range at 1. rewrite !(proj2 (Z.leb_le _ _)) by lia. cbn [andb].
  destruct (from_utf8 _) as [nm|]; [|by split; [apply minus1_i64|]].
  rewrite Hsat2 in Hr2. unfold bind at 1, lift at 1. rewrite Hr2.
  destruct (alloc_write_buf _ _) as [[d|] st] eqn:Ea; [|by split; [apply minus1_i64|]].
  destruct (alloc_write_buf_bytes _ _ _ _ (wo_fs _ Hw) (wo_bytes _ Hw) (srange_u8 _ _ _ Hu) Ea)
    as (Hwf & Hb & Hd & slot & len & ->).
  split; [unfold is_i64; lia|]. apply (hinv_world _ _ _ _ _ Hs). by apply world_ok_replace.
Qed.

Lemma args_get_body_ok n ptr cap : 0 <= ptr -> 0 <= cap -> hok n (args_get_body ptr cap) is_i64 n.
Proof.
  intros Hp Hc p L s Hs. pose proof Hs as (_ & (_ & _ & Hmax & Hu & _) & _ & Hw & _).
  unfold args_get_body. unfold bind at 1, gets at 1. unfold bind at 1, gets at 1.
  destruct (_ || _) eqn:E0; [by split; [apply minus1_i64|]|]. apply orb_false_elim in E0 as [E0 E1].
  destruct (checked_range (E := InterpError) _ _ _ Hp (Nat2Z.is_nonneg _) Hmax E0) as (_ & _ & Hle).
  destruct (wo_args _ Hw) as (Hal & Hle2 & Hau). unfold ARGS_CAP in *.
  unfold bind, lift, slice_range. rewrite !(proj2 (Nat.leb_le _ _)) by lia. cbn [andb].
  set (bs := take _ _). assert (length bs = ARGS_LEN (h_w s)) as Hbl.
  { unfold bs. rewrite length_take, length_drop. lia. }
  destruct (swrite_bytes_some (E := InterpError) (h_mem s) ptr bs) as [m' Hm']; [lia..|]. rewrite Hm'. cbn.
  split; [unfold is_i64; lia|]. pose proof Hm' as (_ & _ & Hl & _)%swrite_bytes_ok.
  apply hinv_mem; [done|done|]. eapply swrite_bytes_u8; [exact Hm'|done|]. by apply Forall_take, Forall_drop.
Qed.

(** The four operations around them. *)

Lemma host_fs_read_ok : host_ok any_mem world_ok (host host_fs_read).
Proof.
  apply (hok_host _ (fun _ => True)). intros n Hn. eexists. unfold host_fs_read. do 6 hstep.
  eapply hok_bind; [apply fs_read_body_ok; apply usize_nonneg|]. intros r Hr. apply hok_push; [lia|done].
Qed.

Lemma host_fs_write_ok : host_ok any_mem world_ok (host host_fs_write).
Proof.
  apply (hok_host _ (fun _ => True)). intros n Hn. eexists. unfold host_fs_write. do 6 hstep.
  eapply hok_bind; [apply fs_write_body_ok; apply usize_nonneg|]. intros r Hr. apply hok_push; [lia|done].
Qed.

Lemma host_fs_size_ok : host_ok any_mem world_ok (host host_fs_size).
Proof.
  apply (hok_host _ (fun _ => True)). intros n Hn. eexists. unfold host_fs_size. do 4 hstep.
  eapply hok_bind; [apply fs_size_body_ok; apply usize_nonneg|]. intros r Hr. apply hok_push; [lia|done].
Qed.

Lemma host_args_get_ok : host_ok any_mem world_ok (host host_args_get).
Proof.
  apply (hok_host _ (fun _ => True)). intros n Hn. eexists. unfold host_args_get. do 4 hstep.
  eapply hok_bind; [apply args_get_body_ok; apply usize_nonneg|]. intros r Hr. apply hok_push; [lia|done].
Qed.

(** ** Keyboard input *)

Lemma row_char_u8 sh sc row c : Forall is_u8 row.1.2 -> Forall is_u8 row.2 -> row_char sh sc row = Some c -> is_u8 c.
Proof.
  destruct row as [[first plain] shifted]. cbn [fst snd row_char]. intros Hp Hs.
  destruct (sc <? first); [done|]. destruct sh; intros Hc.
  - exact (Forall_lookup_1 _ _ _ _ Hs Hc).
  - exact (Forall_lookup_1 _ _ _ _ Hp Hc).
Qed.

Lemma key_rows_u8 : Forall (fun row => Forall is_u8 row.1.2 /\ Forall is_u8 row.2) key_rows.
Proof. repeat (constructor || split); cbn; unfold is_u8; lia. Qed.

Lemma decode_key_char sc sh c : decode_key sc sh = KeyChar c -> is_u8 c.
Proof.
  unfold decode_key. repeat (destruct (sc =? _); [done|]).
  destruct (scancode_to_char sc sh) as [x|] eqn:E; [|done]. intros [= ->].
  unfold scancode_to_char in E. apply find_from_some in E as (i & _ & Hi & _).
  destruct (key_rows !! i) as [row|] eqn:Er; [|done]. cbn in Hi.
  destruct (Forall_lookup_1 _ _ _ _ key_rows_u8 Er). by eapply row_char_u8.
Qed.

Lemma next_key_char scs sh c scs' sh' : next_key_raw scs sh = Some (KeyChar c, scs', sh') -> is_u8 c.
Proof.
  revert sh; induction scs as [|sc scs IH]; intros sh; cbn [next_key_raw]; [done|].
  repeat (destruct (_ || _); [apply IH|]). destruct (negb _); [apply IH|].
  intros [= Hd _ _]. by apply decode_key_char in Hd.
Qed.

Lemma u8_i64 c : is_u8 c -> is_i64 c.
Proof. unfold_width. lia. Qed.

Lemma read_char_loop_ok fuel n : hok n (read_char_loop fuel) is_i64 n.
Proof.
  induction fuel as [|fuel IH]; intros p L s Hs; [done|]. cbn [read_char_loop].
  destruct (next_key_raw _ _) as [[[k scs] sh]|] eqn:Ek; [|done].
  set (s' := mkHSt _ _ _ _). assert (hinv p L n s') as Hs'.
  { apply (hinv_world _ _ _ s _ Hs). apply world_ok_keyboard. apply Hs. }
  destruct k; try (by apply IH); (split; [|done]).
  - by eapply u8_i64, next_key_char.
  - unfold is_i64. lia.
Qed.

Lemma host_read_char_ok : host_ok any_mem world_ok (host host_read_char).
Proof.
  apply (hok_host _ (fun _ => True)). intros n Hn. eexists. unfold host_read_char. hstep.
  eapply hok_bind; [apply (hok_gets _ _ (fun _ => True)); done|]. intros w _.
  eapply hok_bind; [apply read_char_loop_ok|]. intros c Hc. by apply hok_push.
Qed.

(** The line stays inside the caller's buffer. *)
Lemma read_line_loop_ok fuel n ptr cap len p L :
  0 <= ptr -> 0 <= len <= cap -> ptr + cap <= L ->
  triple (hinv p L n) (read_line_loop fuel ptr cap len)
    (fun r s => 0 <= r <= cap /\ hinv p L n s) (fun _ _ => False).
Proof.
  revert len; induction fuel as [|fuel IH]; intros len Hp Hl Hc s Hs; [done|]. cbn [read_line_loop].
  destruct (next_key_raw _ _) as [[[k scs] sh]|] eqn:Ek; [|done].
  set (s' := mkHSt _ _ _ _). assert (hinv p L n s') as Hs'.
  { apply (hinv_world _ _ _ s _ Hs). apply world_ok_keyboard. apply Hs. }
  destruct k as [c| | | | | | | | | | |]; try (by apply IH).
  - destruct (_ && _) eqn:E; [|by apply IH]. zbool.
    pose proof Hs' as (_ & (_ & _ & _ & Hu & _) & HL & _).
    destruct (swrite_bytes_some (E := InterpError) (h_mem s') (ptr + len) [c]) as [m' Hm']; [lia|cbn [length]; lia|].
    unfold bind at 1, gets at 1. unfold bind at 1, lift at 1. rewrite Hm'.
    pose proof Hm' as (_ & _ & Hml & _)%swrite_bytes_ok.
    unfold bind at 1, set_h_mem at 1, modify at 1. unfold bind at 1, print at 1, on_w at 1, modify at 1.
    apply IH; [done|lia|done|]. cbn [h_vs h_n h_mem h_w].
    assert (hinv p L n (mkHSt (h_vs s') (h_n s') m' (h_w s'))) as Hs2.
    { apply hinv_mem; [done|done|]. eapply swrite_bytes_u8; [exact Hm'|done|].
      constructor; [|constructor]. by eapply next_key_char. }
    apply (hinv_world _ _ _ _ _ Hs2). cbn. apply world_ok_emit, Hs2.
  - destruct (0 <? len) eqn:E; zbool; [|apply IH; [done|lia|done|done]].
    unfold bind at 1, print at 1, on_w at 1, modify at 1. apply IH; [done|lia|done|].
    apply (hinv_world _ _ _ _ _ Hs'). cbn. apply world_ok_emit, Hs'.
  - unfold bind, println, print, on_w, modify, ret. split; [done|].
    apply (hinv_world _ _ _ _ _ Hs'). cbn. apply world_ok_emit, Hs'.
Qed.

Lemma host_read_line_ok : host_ok any_mem world_ok (host host_read_line).
Proof.
  apply (hok_host _ (fun _ => True)). intros n Hn. eexists. unfold host_read_line. do 4 hstep.
  intros p L s Hs. pose proof Hs as (_ & (_ & _ & Hmax & _) & HL & _).
  unfold bind at 1, gets at 1. cbn zeta.
  destruct (slen (h_mem s) <? _) eqn:E0; [apply (hok_push (n - 2) (-1) ltac:(lia) minus1_i64 p L s Hs)|].
  destruct (checked_range (E := InterpError) _ _ _ (usize_nonneg _) (usize_nonneg _) Hmax E0) as (_ & _ & Hle).
  unfold bind at 1, gets at 1. unfold bind at 1.
  pose proof (usize_nonneg a0) as Hc. pose proof (usize_nonneg a1) as Hp.
  match goal with |- context [read_line_loop ?f ?a ?b 0 s] =>
    pose proof (fun H1 H2 => read_line_loop_ok f (n - 2) a b 0 p L Hp H1 H2 s Hs) as Hr;
    specialize (Hr ltac:(lia) ltac:(lia)); destruct (read_line_loop f a b 0 s) as [[r|e| |] s1] end; try done.
  destruct Hr as [Hr Hs1]. apply (hok_push (n - 2) r ltac:(lia)); [|done].
  unfold is_i64. lia.
Qed.

(** ** [print] panics exactly on a start address past the memory *)

Lemma bind_run {S E A B} (m : M S E A) (k : A -> M S E B) s a s' :
  m s = (Ok a, s') -> bind m k s = k a s'.
Proof. unfold bind. by intros ->. Qed.

Lemma need_run k s : (k <= h_n s)%nat -> need k s = (Ok tt, s).
Proof. intros Hk. unfold need, bind, gets. by rewrite (proj2 (Nat.ltb_ge _ _)). Qed.

Lemma arg_run k s v : (k <= h_n s)%nat -> h_vs s !! (h_n s - k)%nat = Some v -> arg k s = (Ok v, s).
Proof. intros Hk Hv. unfold arg, bind, gets. rewrite (proj2 (Nat.ltb_ge _ _)) by done. unfold lift. by rewrite Hv. Qed.

Lemma push_result_run v s :
  (h_n s < length (h_vs s))%nat ->
  push_result v s = (Ok tt, mkHSt (<[h_n s := v]> (h_vs s)) (S (h_n s)) (h_mem s) (h_w s)).
Proof. intros Hn. unfold push_result, bind, gets, modify. by rewrite (proj2 (Nat.ltb_lt _ _)). Qed.

Lemma host_print_panics n vs m w v len :
  vs !! n = Some v -> vs !! S n = Some len -> slen m < 2147483648 ->
  (host host_print vs (S (S n)) m w).1 = (if as_usize v <=? slen m then Ok tt else Panic).
Proof.
  intros Hv Hlen Hm. unfold host, host_print. set (s := mkHSt _ _ _ _).
  rewrite (bind_run _ _ _ _ _ (need_run 2 s ltac:(cbn; lia))).
  rewrite (bind_run _ _ _ _ _ (arg_run 1 s len ltac:(cbn; lia) ltac:(cbn; by rewrite ?Nat.sub_0_r))).
  rewrite (bind_run _ _ _ _ _ (arg_run 2 s v ltac:(cbn; lia) ltac:(cbn; by rewrite ?Nat.sub_0_r))).
  unfold consume, modify, gets. cbn [h_n h_vs h_mem h_w]. unfold bind at 1 2. subst s. cbn [h_mem].
  pose proof (usize_nonneg v). pose proof (usize_nonneg len). unfold bind, lift, sread_range.
  destruct (as_usize v <=? slen m) eqn:E; zbool.
  - rewrite !(proj2 (Z.leb_le _ _)); [|unfold sat_add_usize, USIZE_MAX; lia..]. cbn [andb].
    by destruct (from_utf8 _).
  - replace (as_usize v <=? Z.min _ _) with false by (symmetry; apply Z.leb_gt; lia).
    by rewrite andb_false_r.
Qed.

(** ** The file table as a map from names to contents *)

Definition content (st : FsState) (nm : list Z) : option (list Z) := deref st <$> find_file nm st.

Lemma sat_in_range m a b :
  0 <= a -> 0 <= b -> a + b <= slen m -> slen m < 2147483648 -> (slen m <? sat_add_usize a b) = false.
Proof. intros. apply Z.ltb_ge. unfold sat_add_usize, USIZE_MAX. lia. Qed.

Lemma sread_range_ok {E} m lo hi :
  0 <= lo -> lo <= hi -> hi <= slen m -> sread_range (E := E) m lo hi = Ok (srange m lo hi).
Proof. intros. unfold sread_range. by rewrite !(proj2 (Z.leb_le _ _)). Qed.

Lemma find_file_table st st' nm :
  FILE_TABLE st' = FILE_TABLE st -> FILE_COUNT st' = FILE_COUNT st -> find_file nm st' = find_file nm st.
Proof.
  intros Ht Hc. unfold find_file. rewrite Hc. f_equal. apply find_from_ext. intros j.
  unfold entry_named. by rewrite Ht.
Qed.

Lemma find_file_ok st nm d : fs_wf st -> find_file nm st = Some d -> dref_ok st d.
Proof. intros Hwf (i & f & Hi & <- & _)%find_file_entry. by eapply wf_refs. Qed.

(** [deref] of a replaced table only depends on the pools. *)
Lemma deref_register nm d st x : deref (register_file nm d st) x = deref st x.
Proof. unfold register_file. destruct (_ <? _)%nat; [|done]. by destruct x. Qed.
Lemma deref_remove nm st x : deref (remove_file nm st).2 x = deref st x.
Proof. unfold remove_file. destruct (find_from _ _ _); [|done]. by destruct x. Qed.

(** Claiming a buffer and replacing the entry updates the map at one name. *)
Lemma write_content st nm bs d st1 :
  fs_wf st -> unique_names st -> (FILE_COUNT st < MAX_FILES)%nat -> (length nm <= 64)%nat -> utf8_valid nm = true ->
  alloc_write_buf bs st = (Some d, st1) ->
  let st2 := register_file nm d (remove_file nm st1).2 in
  unique_names st2 /\
  forall nm', content st2 nm' = if bytes_eqb nm nm' then Some bs else content st nm'.
Proof.
  intros Hwf Hu Hc Hl Hv Ha.
  assert (Z.of_nat (length bs) <= WRITE_SLOT_CAP /\ (WRITE_POOL_NEXT st < WRITE_SLOTS)%nat) as [H1 H2].
  { unfold alloc_write_buf in Ha. destruct (WRITE_SLOT_CAP <? _) eqn:E1; [done|].
    destruct (WRITE_SLOTS <=? _)%nat eqn:E2; [done|]. zbool. lia. }
  destruct (alloc_write_buf_ok st bs Hwf H1 H2) as (d0 & st0 & E' & Hd & Hder & Hst & Ht & Hcc & _ & Hwf1).
  rewrite Ha in E'. injection E' as <- <-.
  assert (unique_names st1) as Hu1 by (unfold unique_names; rewrite Ht; exact Hu).
  cbn zeta. split.
  - apply unique_names_register; [by apply fs_wf_remove|by apply unique_names_remove|done..|].
    rewrite find_file_remove by done. by rewrite (proj2 (bytes_eqb_true nm nm)).
  - intros nm'. unfold content. rewrite find_file_replace; [|done|done|by rewrite Hcc|done|done].
    destruct (bytes_eqb nm nm') eqn:E.
    + cbn. by rewrite deref_register, deref_remove, Hder.
    + rewrite (find_file_table st st1) by done. destruct (find_file nm' st) as [x|] eqn:Ex; [|done]. cbn.
      rewrite deref_register, deref_remove. f_equal. apply Hst. by eapply find_file_ok.
Qed.

Record in_mem (m : slice) (ptr len : Z) : Prop := { im_ptr : 0 <= ptr; im_len : 0 <= len; im_end : ptr + len <= slen m }.

(** A write that finds a free buffer and a free table slot. *)
Lemma fs_write_body_spec s np nl bp bl :
  slen (h_mem s) < 2147483648 -> in_mem (h_mem s) np nl -> in_mem (h_mem s) bp bl ->
  nl <= 64 -> bl <= WRITE_SLOT_CAP ->
  let nm := srange (h_mem s) np (np + nl) in
  let bs := srange (h_mem s) bp (bp + bl) in
  utf8_valid nm = true -> fs_wf (fs (h_w s)) -> unique_names (fs (h_w s)) ->
  (FILE_COUNT (fs (h_w s)) < MAX_FILES)%nat -> (WRITE_POOL_NEXT (fs (h_w s)) < WRITE_SLOTS)%nat ->
  exists w', fs_write_body np nl bp bl s = (Ok 0, mkHSt (h_vs s) (h_n s) (h_mem s) w') /\
    unique_names (fs w') /\ log w' = log (h_w s) ++ [FatWrite nm bs] /\
    forall nm', content (fs w') nm' = if bytes_eqb nm nm' then Some bs else content (fs (h_w s)) nm'.
Proof.
  intros Hm [] [] Hnl Hbl nm bs Hv Hwf Hu Hc Hp.
  assert (Z.of_nat (length bs) <= WRITE_SLOT_CAP) as Hbs by (unfold bs; rewrite srange_length; lia).
  assert (length nm <= 64)%nat as Hns by (unfold nm; rewrite srange_length; lia).
  destruct (alloc_write_buf_ok (fs (h_w s)) bs Hwf Hbs Hp) as (d & st & Ea & _).
  destruct (write_content _ nm _ _ _ Hwf Hu Hc Hns Hv Ea) as [Hu2 Hcont].
  exists (replace_file nm d bs (set_fs st (h_w s))).
  split; [|split; [exact Hu2|split; [done|exact Hcont]]].
  unfold fs_write_body. unfold bind at 1, gets at 1. unfold bind at 1, gets at 1. cbn zeta.
  rewrite !sat_in_range by done. cbn [orb]. rewrite Z.min_l by done.
  unfold bind at 1, lift at 1. rewrite sread_range_ok by lia. fold nm. unfold from_utf8. rewrite Hv.
  unfold bind at 1, lift at 1. rewrite sread_range_ok by lia. fold bs. by rewrite Ea.
Qed.

(** A read of a present file into a buffer that holds it. *)
Lemma fs_read_body_spec s np nl bp bc bs :
  slen (h_mem s) < 2147483648 -> in_mem (h_mem s) np nl -> in_mem (h_mem s) bp bc ->
  let nm := srange (h_mem s) np (np + nl) in
  utf8_valid nm = true -> content (fs (h_w s)) nm = Some bs -> Z.of_nat (length bs) <= bc ->
  exists m', fs_read_body np nl bp bc s =
      (Ok (Z.of_nat (length bs)), mkHSt (h_vs s) (h_n s) m' (h_w s)) /\
    slen m' = slen (h_mem s) /\ srange m' bp (bp + Z.of_nat (length bs)) = bs /\
    forall i, ~ bp <= i < bp + Z.of_nat (length bs) -> sget m' i = sget (h_mem s) i.
Proof.
  intros Hm [] [] nm Hv Hc Hl. unfold content in Hc.
  destruct (find_file nm (fs (h_w s))) as [d|] eqn:Ef; [|done]. injection Hc as Hd.
  destruct (swrite_bytes_some (E := InterpError) (h_mem s) bp bs) as [m' Hm']; [lia..|].
  exists m'. pose proof Hm' as (_ & _ & H1 & H2 & H3)%swrite_bytes_ok.
  split; [|done]. unfold fs_read_body. unfold bind at 1, gets at 1. unfold bind at 1, gets at 1. cbn zeta.
  rewrite sat_in_range by done. unfold bind at 1, lift at 1.
  replace (sat_add_usize np nl) with (np + nl) by (unfold sat_add_usize, USIZE_MAX; lia).
  rewrite sread_range_ok by lia. fold nm. unfold from_utf8. rewrite Hv, Ef, Hd.
  rewrite sat_in_range by done. rewrite (proj2 (Z.ltb_ge _ _)) by lia. cbn [orb].
  unfold bind, lift. by rewrite Hm'.
Qed.

(** A missing file: -1 and nothing changes. *)
Lemma fs_read_body_missing s np nl bp bc :
  slen (h_mem s) < 2147483648 -> in_mem (h_mem s) np nl ->
  content (fs (h_w s)) (srange (h_mem s) np (np + nl)) = None -> fs_read_body np nl bp bc s = (Ok (-1), s).
Proof.
  intros Hm [] Hc. unfold content in Hc. unfold fs_read_body. unfold bind at 1, gets at 1. unfold bind at 1, gets at 1.
  cbn zeta. rewrite sat_in_range by done. unfold bind at 1, lift at 1.
  replace (sat_add_usize np nl) with (np + nl) by (unfold sat_add_usize, USIZE_MAX; lia).
  rewrite sread_range_ok by lia. unfold from_utf8. destruct (utf8_valid _); [|done].
  by destruct (find_file _ _).
Qed.
