(* ===== verification/NetHost.v ===== *)
(** * Built-in host functions of the [net] module ([kernel/src/wasm/engine.rs])

    The calls a guest program makes into the network stack. Handles, pointers
    and lengths are what the guest pushed; the slices of the linear memory
    are taken as the source takes them. *)

From S2P Require Import Prelude Opcode Packets PacketsSpec Sockets NetStack NetSpec NetFlow.
From S2P Require Import World Machine Safety Host HostSpec.

(** [with_network(f)] with its error folded into the missing stack, as every
    caller's [unwrap_or] does. *)
Definition net_call {A} (f : N A) : H (option A) := fun s =>
  let '(o, w) := with_network f (h_w s) in
  let s' := mkHSt (h_vs s) (h_n s) (h_mem s) w in
  match o with
  | None => (Ok None, s')
  | Some (Ok a) => (Ok (Some a), s')
  | Some (Err _) => (Ok None, s')
  | Some Panic => (Panic, s')
  | Some OutOfFuel => (OutOfFuel, s')
  end.

(** [match result { Some(n) => n as i64, None => -1 }] *)
Definition index_or_minus1 (o : option nat) : Z :=
  match o with Some n => as_i64 (Z.of_nat n) | None => -1 end.
Definition unit_or_minus1 (o : option unit) : Z := match o with Some _ => 0 | None => -1 end.

Definition host_net_listen : H unit :=
  do! need 1 in
  let! port := arg 1 in
  do! consume 1 in
  let! r := net_call (tcp_listen (as_u16 port)) in
  push_result (index_or_minus1 (mjoin r)).

Definition host_net_connect : H unit :=
  do! need 2 in
  let! port := arg 1 in
  let! ip_bytes := arg 2 in
  do! consume 2 in
  let! r := net_call (tcp_connect (Ip.from_u32 (as_u32 ip_bytes)) (as_u16 port)) in
  push_result (index_or_minus1 (mjoin r)).

Definition host_net_send : H unit :=
  do! need 3 in
  let! len := arg 1 in
  let! ptr := arg 2 in
  let! handle := arg 3 in
  do! consume 3 in
  let! m := gets h_mem in
  let! data := lift (sread_range m (as_usize ptr) (sat_add_usize (as_usize ptr) (as_usize len))) in
  let! r := net_call (tcp_send (as_usize handle) data) in
  push_result (index_or_minus1 r).

(** [mem[ptr..e]] as a buffer a receive call fills from its start; [dflt] when
    the call fails. *)
Definition receive_into (recv : nat -> N (list Z)) (ptr e : Z) (dflt : Z) : H unit :=
  let! m := gets h_mem in
  let! buf := lift (sread_range m ptr e) in
  let! r := net_call (recv (length buf)) in
  match r with
  | Some bs =>
    let! m' := lift (swrite_bytes m ptr bs) in
    do! set_h_mem m' in
    push_result (as_i64 (Z.of_nat (length bs)))
  | None => push_result dflt
  end.

Definition host_net_recv : H unit :=
  do! need 3 in
  let! cap := arg 1 in
  let! ptr := arg 2 in
  let! handle := arg 3 in
  do! consume 3 in
  receive_into (tcp_recv (as_usize handle)) (as_usize ptr)
    (sat_add_usize (as_usize ptr) (as_usize cap)) (-1).

Definition host_net_close : H unit :=
  do! need 1 in
  let! handle := arg 1 in
  do! consume 1 in
  let! r := net_call (tcp_close (as_usize handle)) in
  push_result (unit_or_minus1 r).

Definition host_net_set_ip : H unit :=
  do! need 1 in
  let! ip_bytes := arg 1 in
  do! consume 1 in
  let! _r := net_call (set_ip (Ip.from_u32 (as_u32 ip_bytes))) in
  push_result 0.

Definition host_net_accept : H unit :=
  do! need 1 in
  let! handle := arg 1 in
  do! consume 1 in
  let! r := net_call (tcp_accept (as_usize handle)) in
  push_result (index_or_minus1 (mjoin r)).

Definition host_net_status : H unit :=
  do! need 1 in
  let! handle := arg 1 in
  do! consume 1 in
  let! r := net_call (the (tcp_status (as_usize handle))) in
  push_result (default 0 r).

Definition host_net_get_ip : H unit :=
  do! room in
  let! r := net_call (the get_ip) in
  push_result (default 0 r).

Definition host_net_udp_bind : H unit :=
  do! need 1 in
  let! port := arg 1 in
  do! consume 1 in
  let! r := net_call (udp_bind (as_u16 port)) in
  push_result (index_or_minus1 (mjoin r)).

Definition host_net_udp_connect : H unit :=
  do! need 3 in
  let! port := arg 1 in
  let! ip_bytes := arg 2 in
  let! handle := arg 3 in
  do! consume 3 in
  let! r := net_call (udp_connect (as_usize handle) (Ip.from_u32 (as_u32 ip_bytes)) (as_u16 port)) in
  push_result (unit_or_minus1 r).

Definition host_net_udp_send : H unit :=
  do! need 3 in
  let! len := arg 1 in
  let! ptr := arg 2 in
  let! handle := arg 3 in
  do! consume 3 in
  let! m := gets h_mem in
  let e := Z.min (sat_add_usize (as_usize ptr) (as_usize len)) (slen m) in
  let! data := lift (sread_range m (as_usize ptr) e) in
  let! r := net_call (udp_send (as_usize handle) data) in
  push_result (index_or_minus1 r).

Definition host_net_udp_recv : H unit :=
  do! need 3 in
  let! cap := arg 1 in
  let! ptr := arg 2 in
  let! handle := arg 3 in
  do! consume 3 in
  let! m := gets h_mem in
  receive_into (udp_recv (as_usize handle)) (as_usize ptr)
    (Z.min (sat_add_usize (as_usize ptr) (as_usize cap)) (slen m)) 0.

Definition host_net_udp_close : H unit :=
  do! need 1 in
  let! handle := arg 1 in
  do! consume 1 in
  let! _r := net_call (udp_close (as_usize handle)) in
  push_result 0.

(** In registration order. *)
Definition net_hosts : list (list Z * HostFn) :=
  [ (str "listen", host host_net_listen); (str "connect", host host_net_connect);
    (str "send", host host_net_send); (str "recv", host host_net_recv);
    (str "close", host host_net_close); (str "set_ip", host host_net_set_ip);
    (str "accept", host host_net_accept); (str "status", host host_net_status);
    (str "get_ip", host host_net_get_ip); (str "udp_bind", host host_net_udp_bind);
    (str "udp_connect", host host_net_udp_connect); (str "udp_send", host host_net_udp_send);
    (str "udp_recv", host host_net_udp_recv); (str "udp_close", host host_net_udp_close) ].

(** * Properties of the [net] host functions

    Which of them never panic, when the others do, and the path of a guest's
    bytes from its memory through two stacks into another guest's memory. *)

(** ** Calls into the stack *)

Definition opt_sat {A} (Q : A -> Prop) (o : option A) : Prop := match o with Some a => Q a | None => True end.

Lemma world_ok_network st l w : world_ok w -> net_ok st -> world_ok (set_network (Some st) (set_log l w)).
Proof. intros [] Hst. split; try done. by intros ? [= <-]. Qed.

Lemma hok_net {A} n (f : N A) Q : nok f Q -> hok n (net_call f) (opt_sat Q) n.
Proof.
  intros Hf p L s Hs. pose proof Hs as (_ & _ & _ & Hw & _). unfold net_call, with_network.
  destruct (NETWORK_STACK (h_w s)) as [st|] eqn:E.
  - specialize (Hf (mkNetSt st []) (wo_net _ Hw _ E)).
    destruct (f (mkNetSt st [])) as [[a|[]| |] s']; try done.
    + destruct Hf as [Hok Ha]. split; [done|]. apply (hinv_world _ _ _ _ _ Hs). by apply world_ok_network.
    + split; [done|]. apply (hinv_world _ _ _ _ _ Hs). by apply world_ok_network.
  - split; [done|]. by apply (hinv_world _ _ _ _ _ Hs).
Qed.

Lemma index_i64 o : is_i64 (index_or_minus1 o).
Proof. destruct o; [apply as_i64_range|apply minus1_i64]. Qed.
Lemma unit_i64 o : is_i64 (unit_or_minus1 o).
Proof. destruct o; unfold is_i64; cbn; lia. Qed.

Lemma as_u16_is x : is_u16 (as_u16 x).
Proof. apply Z.mod_pos_bound. lia. Qed.

Lemma from_u32_ok v : ip_ok (Ip.from_u32 v).
Proof.
  split; [by rewrite <- (to_le_bytes_length 4 v)|]. pose proof (to_be_u8 4 v) as H. unfold to_be_bytes in H.
  apply Forall_rev in H. by rewrite rev_involutive in H.
Qed.

Lemma tcp_status_range h st : 0 <= tcp_status h st <= 4.
Proof. unfold tcp_status. destruct (mjoin _) as [s|]; [|lia]. destruct (Tcp.state s); lia. Qed.

Lemma get_ip_range st : net_ok st -> is_u32 (get_ip st).
Proof.
  intros Hst. pose proof (no_ip _ Hst) as [Hl Hu]. unfold get_ip, Ip.to_u32.
  destruct (ip st) as [|a [|b [|c [|d [|]]]]]; try discriminate Hl.
  repeat (apply Forall_cons_1 in Hu as [? Hu]). unfold is_u8, is_u32 in *. cbn. lia.
Qed.

(** A total call between the prologue and the result. *)
Ltac net_total lem :=
  eapply hok_bind; [apply hok_net; apply lem|intros r Hr; apply hok_push; [lia|]].

Section total.
Context (n : nat) (Hn : (n <= STACK_DEPTH)%nat).

Lemma host_net_listen_hok : hok n host_net_listen (fun _ => True) (S (n - 1)).
Proof. unfold host_net_listen. do 3 hstep. net_total tcp_listen_ok; [apply as_u16_is|apply index_i64]. Qed.

Lemma host_net_connect_hok : hok n host_net_connect (fun _ => True) (S (n - 2)).
Proof. unfold host_net_connect. do 4 hstep. net_total tcp_connect_ok; [apply from_u32_ok|apply as_u16_is|apply index_i64]. Qed.

Lemma host_net_set_ip_hok : hok n host_net_set_ip (fun _ => True) (S (n - 1)).
Proof. unfold host_net_set_ip. do 3 hstep. net_total set_ip_ok; [apply from_u32_ok|unfold is_i64; lia]. Qed.

Lemma host_net_status_hok : hok n host_net_status (fun _ => True) (S (n - 1)).
Proof.
  unfold host_net_status. do 3 hstep. net_total @nok_the. destruct r as [x|]; cbn in *; [|unfold is_i64; lia].
  destruct Hr as (st & _ & ->). pose proof (tcp_status_range (as_usize a0) st). unfold is_i64. lia.
Qed.

Lemma host_net_get_ip_hok : hok n host_net_get_ip (fun _ => True) (S n).
Proof.
  unfold host_net_get_ip. hstep. net_total @nok_the. destruct r as [x|]; cbn in *; [|unfold is_i64; lia].
  destruct Hr as (st & Hst & ->). apply get_ip_range in Hst. unfold is_u32, is_i64 in *. lia.
Qed.

Lemma host_net_udp_bind_hok : hok n host_net_udp_bind (fun _ => True) (S (n - 1)).
Proof. unfold host_net_udp_bind. do 3 hstep. net_total udp_bind_ok; [apply as_u16_is|apply index_i64]. Qed.

Lemma host_net_udp_connect_hok : hok n host_net_udp_connect (fun _ => True) (S (n - 3)).
Proof. unfold host_net_udp_connect. do 5 hstep. net_total udp_connect_ok; [apply from_u32_ok|apply as_u16_is|apply unit_i64]. Qed.

Lemma host_net_udp_close_hok : hok n host_net_udp_close (fun _ => True) (S (n - 1)).
Proof. unfold host_net_udp_close. do 3 hstep. net_total udp_close_ok. unfold is_i64. lia. Qed.
End total.

(** ** The other six: exactly when they panic *)

Lemma net_call_panics {A} (f : N A) Q s st :
  NETWORK_STACK (h_w s) = Some st -> net_ok st -> nok f Q ->
  exists o s', net_call f s = (Ok o, s') /\ h_vs s' = h_vs s /\ h_n s' = h_n s /\ h_mem s' = h_mem s /\ opt_sat Q o.
Proof.
  intros E Hst Hf. unfold net_call, with_network. rewrite E. specialize (Hf (mkNetSt st []) Hst).
  destruct (f (mkNetSt st [])) as [[a|[]| |] s']; try done; do 2 eexists; (split; [reflexivity|]); [|done].
  destruct Hf. done.
Qed.

Lemma slot_at_oob {A} (l : list A) i : Z.of_nat (length l) <= i -> slot_at l i = None.
Proof. intros Hi. unfold slot_at. rewrite (proj2 (Z.ltb_ge _ _)) by lia. by rewrite andb_false_r. Qed.

Section guarded.
Context (vs : list Z) (n : nat) (m : slice) (w : World) (st : NetworkStack).
Context (Hw : NETWORK_STACK w = Some st) (Hst : net_ok st).

(** A call whose socket index is out of range. *)
Lemma net_call_oob {A} (f : N A) : (f (mkNetSt st [])).1 = Panic -> forall s, h_w s = w -> (net_call f s).1 = Panic.
Proof.
  intros Hf s E. unfold net_call, with_network. rewrite E, Hw.
  destruct (f (mkNetSt st [])) as [r s']. cbn in Hf. by subst r.
Qed.

Lemma tcp_at_oob h : Z.of_nat MAX_SOCKETS <= h -> tcp_at h (mkNetSt st []) = (Panic, mkNetSt st []).
Proof.
  intros Hh. unfold tcp_at, bind, the, gets, lift. cbn [stack]. rewrite slot_at_oob; [done|].
  by rewrite (proj1 (no_tcp _ Hst)).
Qed.

Lemma prologue1 (k : Z -> H unit) v :
  vs !! n = Some v ->
  (do! need 1 in let! x := arg 1 in do! consume 1 in k x) (mkHSt vs (S n) m w) = k v (mkHSt vs n m w).
Proof.
  intros Hv. set (s := mkHSt vs (S n) m w).
  rewrite (bind_run _ _ _ _ _ (need_run 1 s ltac:(cbn; lia))).
  rewrite (bind_run _ _ _ _ _ (arg_run 1 s v ltac:(cbn; lia) ltac:(cbn; by rewrite ?Nat.sub_0_r))).
  unfold bind, consume, modify. cbn. by rewrite Nat.sub_0_r.
Qed.

Lemma prologue3 (k : Z -> Z -> Z -> H unit) x y z :
  vs !! n = Some x -> vs !! S n = Some y -> vs !! S (S n) = Some z ->
  (do! need 3 in let! c := arg 1 in let! b := arg 2 in let! a := arg 3 in do! consume 3 in k a b c)
    (mkHSt vs (S (S (S n))) m w) = k x y z (mkHSt vs n m w).
Proof.
  intros Hx Hy Hz. set (s := mkHSt vs (S (S (S n))) m w).
  rewrite (bind_run _ _ _ _ _ (need_run 3 s ltac:(cbn; lia))).
  rewrite (bind_run _ _ _ _ _ (arg_run 1 s z ltac:(cbn; lia) ltac:(cbn; by rewrite ?Nat.sub_0_r))).
  rewrite (bind_run _ _ _ _ _ (arg_run 2 s y ltac:(cbn; lia) ltac:(cbn; by rewrite ?Nat.sub_0_r))).
  rewrite (bind_run _ _ _ _ _ (arg_run 3 s x ltac:(cbn; lia) ltac:(cbn; by rewrite ?Nat.sub_0_r))).
  unfold bind, consume, modify. cbn. by rewrite Nat.sub_0_r.
Qed.

(** The call and then a result pushed. *)
Lemma call_push {A} (f : N A) Q (g : option A -> Z) m' :
  nok f Q -> (n < length vs)%nat -> exists w',
  exists o, (let! r := net_call f in push_result (g r)) (mkHSt vs n m' w) = (Ok tt, mkHSt (<[n := g o]> vs) (S n) m' w') /\
    opt_sat Q o.
Proof.
  intros Hf Hn. destruct (net_call_panics f Q (mkHSt vs n m' w) st Hw Hst Hf) as (o & s' & E & E1 & E2 & E3 & Ho).
  cbn in E1, E2, E3. exists (h_w s'), o. split; [|done].
  rewrite (bind_run _ _ _ _ _ E). rewrite push_result_run by (rewrite E1, E2; done). by rewrite E1, E2, E3.
Qed.

Lemma bind_panic {A B} (c : H A) (k : A -> H B) s : (c s).1 = Panic -> (bind c k s).1 = Panic.
Proof. unfold bind. destruct (c s) as [r s']. cbn. by intros ->. Qed.

Lemma close_panics v :
  vs !! n = Some v ->
  (host host_net_close vs (S n) m w).1 = if as_usize v <? Z.of_nat MAX_SOCKETS then Ok tt else Panic.
Proof.
  intros Hv. pose proof (lookup_lt_Some _ _ _ Hv) as Hn. pose proof (usize_nonneg v) as H0.
  unfold host, host_net_close. rewrite (prologue1 _ v Hv).
  destruct (_ <? _) eqn:E; zbool.
  - destruct (call_push (tcp_close (as_usize v)) (fun _ => True) unit_or_minus1 m) as (w' & o & -> & _); [|done|done].
    by apply tcp_close_ok.
  - match goal with |- (let '(r, s) := ?c in _).1 = _ => assert (c.1 = Panic) as Hc end.
    { apply bind_panic. apply net_call_oob; [|done]. unfold tcp_close, bind. by rewrite tcp_at_oob. }
    destruct (bind _ _ _) as [r s']. cbn in Hc. by subst r.
Qed.
Lemma send_panics x y z :
  vs !! n = Some x -> vs !! S n = Some y -> vs !! S (S n) = Some z -> slen m < 2147483648 -> (forall k, is_u8 (sget m k)) ->
  (host host_net_send vs (S (S (S n))) m w).1 =
  if (as_usize y + as_usize z <=? slen m) && (as_usize x <? Z.of_nat MAX_SOCKETS) then Ok tt else Panic.
Proof.
  intros Hx Hy Hz Hm Hu. pose proof (lookup_lt_Some _ _ _ Hx) as Hn.
  pose proof (usize_nonneg x). pose proof (usize_nonneg y) as H1. pose proof (usize_nonneg z) as H2.
  unfold host, host_net_send. rewrite (prologue3 _ x y z Hx Hy Hz). unfold bind at 1, gets at 1. cbn [h_mem].
  unfold bind at 1, lift at 1. destruct (_ <=? _) eqn:E1; zbool.
  - replace (sat_add_usize (as_usize y) (as_usize z)) with (as_usize y + as_usize z) by (unfold sat_add_usize, USIZE_MAX; lia).
    rewrite sread_range_ok by lia. destruct (_ <? _) eqn:E2; cbn [andb]; zbool.
    + match goal with |- context [tcp_send ?h ?d] =>
        destruct (call_push (tcp_send h d) (fun k => k <= length d)%nat index_or_minus1 m) as (w' & o & -> & _) end; [|done|done].
      apply tcp_send_ok; [done|]. by apply srange_u8.
    + match goal with |- (let '(r, s) := ?c in _).1 = _ => assert (c.1 = Panic) as Hc end.
      { apply bind_panic. apply net_call_oob; [|done]. unfold tcp_send, bind. by rewrite tcp_at_oob. }
      destruct (bind _ _ _) as [r s']. cbn in Hc. by subst r.
  - cbn [andb]. unfold sread_range. rewrite (proj2 (Z.leb_gt (sat_add_usize _ _) _)) by (unfold sat_add_usize, USIZE_MAX; lia).
    by rewrite andb_false_r.
Qed.
End guarded.

(** ** From one guest's memory to another's *)

(** The frame [f] in a receive buffer of the card, after its header. *)
Definition rx_entry (hdr f pad : list Z) : Z * list Z := (Z.of_nat (NET_HDR_SIZE + length f), hdr ++ f ++ pad).

(** The state the receive pump works on. *)
Definition popped (rest : list (Z * list Z)) (st : NetworkStack) : NetworkStack :=
  set_net (mkNet rest (tx (net st))) st.

Lemma poll_run st said hdr f pad rest :
  rx (net st) = rx_entry hdr f pad :: rest -> length hdr = NET_HDR_SIZE -> NetSpec.frame_ok f ->
  poll (mkNetSt st said) = (do! handle_eth f in ret (Some (length f))) (mkNetSt (popped rest st) said).
Proof.
  intros Hrx Hh [[H1 H2] _]. unfold poll. unfold bind at 1, the at 1, gets at 1. cbn [stack]. unfold net_recv. rewrite Hrx.
  unfold rx_entry. unfold bind at 1, on_stack at 1, modify at 1. unfold bind at 1, lift at 1.
  replace (Z.to_nat _) with (length f) by (unfold NET_HDR_SIZE, ETH_FRAME_SIZE in *; lia).
  rewrite (slice_range_mid hdr f pad) by lia.
  rewrite (proj2 (Nat.ltb_lt 0 (length f))) by (unfold ETH_HDR_SIZE in *; lia). done.
Qed.

Lemma net_call_run {A} (f : N A) s st a st' :
  NETWORK_STACK (h_w s) = Some st -> f (mkNetSt st []) = (Ok a, st') ->
  net_call f s = (Ok (Some a), mkHSt (h_vs s) (h_n s) (h_mem s)
    (set_network (Some (stack st')) (set_log (log (h_w s) ++ map Print (said st')) (h_w s)))).
Proof. intros E Hf. unfold net_call, with_network. by rewrite E, Hf. Qed.

Section guests.
(** The sender: its stack holds the handle, the address and the length of a
    buffer; the receiver: a handle, an address and a capacity. *)
Context (vsA vsB : list Z) (nA nB : nat) (mA mB : slice) (wA wB : World) (stA stB : NetworkStack) (i j : nat) (a b : Tcp.TcpSocket).
Context (ptr len ptr' cap : Z).
Context (HwA : NETWORK_STACK wA = Some stA) (HA : net_ok stA).
Context (A1 : vsA !! nA = Some (Z.of_nat i)) (A2 : vsA !! S nA = Some ptr) (A3 : vsA !! S (S nA) = Some len).
Context (B1 : vsB !! nB = Some (Z.of_nat j)) (B2 : vsB !! S nB = Some ptr') (B3 : vsB !! S (S nB) = Some cap).
Context (HmA : slen mA < 2147483648) (HuA : forall k, is_u8 (sget mA k)) (HmB : slen mB < 2147483648).
Context (HinA : in_mem mA ptr len) (HinB : in_mem mB ptr' cap).
(** What is sent of the buffer, and what of it and the bytes still unread the
    receiver gets. *)
Let data := take TcpSeg.MAX_TCP_PAYLOAD (srange mA ptr (ptr + len)).
Let reply := take (Z.to_nat cap) (pending b ++ kept data b).
Let n := Z.of_nat (length reply).
Context (Hlen : 0 < len).
Context (Hco : connected (mkNetSt stA []) (mkNetSt stB []) i j a b) (HB : net_ok stB).
Context (HmacA : mac stA <> Eth.BROADCAST) (HmacB : mac stB <> Eth.BROADCAST)
  (HipA : ip stA <> IP_BROADCAST) (HipB : ip stB <> IP_BROADCAST).

Lemma usize_small v : 0 <= v < 2147483648 -> as_usize v = v.
Proof. intros Hv. unfold as_usize, as_u64. apply Z.mod_small. lia. Qed.

Lemma as_i64_small v : 0 <= v < 2147483648 -> as_i64 v = v.
Proof. intros Hv. unfold as_i64. rewrite Z.mod_small; lia. Qed.

Lemma handles_small : (i < 8)%nat /\ (j < 8)%nat.
Proof.
  destruct Hco. pose proof (lookup_lt_Some _ _ _ co_a) as Hi. pose proof (lookup_lt_Some _ _ _ co_b) as Hj. cbn in Hi, Hj.
  rewrite (proj1 (no_tcp _ HA)) in Hi. rewrite (proj1 (no_tcp _ HB)) in Hj. done.
Qed.

Lemma sent_bytes : Forall is_u8 data /\ data <> [] /\ Z.of_nat (length data) = Z.min len (Z.of_nat TcpSeg.MAX_TCP_PAYLOAD) /\
  (length data <= TcpSeg.MAX_TCP_PAYLOAD)%nat.
Proof.
  assert (Z.of_nat (length data) = Z.min len (Z.of_nat TcpSeg.MAX_TCP_PAYLOAD)) as El.
  { unfold data. rewrite length_take, srange_length. lia. }
  split_and!; [by apply Forall_take, srange_u8| |done|unfold TcpSeg.MAX_TCP_PAYLOAD in *; lia].
  intros E. rewrite E in El. unfold TcpSeg.MAX_TCP_PAYLOAD in El. cbn in El. lia.
Qed.

(** The sender's half. *)
Lemma guest_sends : exists f wA',
  host host_net_send vsA (S (S (S nA))) mA wA = (Ok tt, (<[nA := Z.of_nat (length data)]> vsA, S nA, mA, wA')) /\
  (exists stA', NETWORK_STACK wA' = Some stA' /\ tx (net stA') = tx (net stA) ++ [f]) /\ NetSpec.frame_ok f /\
  tcp_frame f (mac stB) (mac stA) (ip stA) (ip stB) (TcpSeg.mkSeg (Tcp.local_port a) (Tcp.remote_port a) (Tcp.seq a) (Tcp.ack a)
    (Z.lor TcpSeg.TCP_PSH TcpSeg.TCP_ACK) data).
Proof.
  destruct sent_bytes as (Hd & Hne & Hl & Hf), handles_small as [Hi _]. pose proof HinA as [].
  destruct (data_sent (mkNetSt stA []) (mkNetSt stB []) i j a b data HA HB Hco HipB Hd Hf) as (f & E & Hok & Hfr).
  unfold data in E. rewrite <- tcp_send_cut in E. fold data in E.
  exists f. eexists. split; [|split; [|split; [|exact Hfr]]].
  - unfold host, host_net_send. rewrite (prologue3 _ _ _ _ _ _ _ _ A1 A2 A3). unfold bind at 1, gets at 1. cbn [h_mem].
    rewrite !usize_small by lia. unfold bind at 1, lift at 1.
    replace (sat_add_usize ptr len) with (ptr + len) by (unfold sat_add_usize, USIZE_MAX; lia).
    rewrite sread_range_ok by lia. rewrite (bind_run _ _ _ _ _ (net_call_run _ (mkHSt vsA nA mA wA) stA _ _ HwA E)).
    rewrite push_result_run by (cbn; by eapply lookup_lt_Some). cbn [h_vs h_n h_mem h_w index_or_minus1].
    rewrite as_i64_small by lia. reflexivity.
  - eexists. split; reflexivity.
  - pose proof (no_tx _ Hok) as Htx. cbn in Htx. apply Forall_app in Htx as [_ Htx]. by apply Forall_cons_1 in Htx as [? _].
Qed.

(** The receiver's half. *)
Lemma guest_receives f hdr pad rest :
  tcp_frame f (mac stB) (mac stA) (ip stA) (ip stB) (TcpSeg.mkSeg (Tcp.local_port a) (Tcp.remote_port a) (Tcp.seq a) (Tcp.ack a)
    (Z.lor TcpSeg.TCP_PSH TcpSeg.TCP_ACK) data) -> NetSpec.frame_ok f ->
  length hdr = NET_HDR_SIZE -> NETWORK_STACK wB = Some (set_net (mkNet (rx_entry hdr f pad :: rest) (tx (net stB))) stB) ->
  Forall rx_ok rest ->
  exists wB1 wB2 mB', with_network poll wB = (Some (Ok (Some (length f))), wB1) /\
    host host_net_recv vsB (S (S (S nB))) mB wB1 = (Ok tt, (<[nB := n]> vsB, S nB, mB', wB2)) /\
    srange mB' ptr' (ptr' + n) = reply /\
    forall k, ~ ptr' <= k < ptr' + n -> sget mB' k = sget mB k.
Proof.
  intros Hfr Hfok Hh HwB Hrest. destruct sent_bytes as (Hd & Hne & Hl & Hf), handles_small as [_ Hj]. pose proof HinB as [].
  assert (net_ok (popped rest stB)) as HB' by (apply net_ok_net; [done|done|apply HB]).
  assert (connected (mkNetSt stA []) (mkNetSt (popped rest stB) []) i j a b) as Hco' by (destruct Hco; by split).
  destruct (data_received (mkNetSt stA []) (mkNetSt (popped rest stB) []) i j a b data HA HB' Hco' HmacB HipA Hd Hne Hf f Hfr)
    as (g & E & Hok & _). cbv zeta in E, Hok.
  set (b' := got _ _ _ _) in *. set (SB := transmit _ _) in *.
  destruct (ends_ok (mkNetSt stA []) (mkNetSt stB []) _ _ _ _ HA HB Hco) as [_ Hb]. pose proof Hco as [].
  pose proof (proj2 (data_segment 0 0 (Tcp.seq a) (Tcp.ack a) data [] b Hb (proj2 co_states) Hne)) as Hpend. fold b' in Hpend.
  assert (tcp_recv (Z.of_nat j) (Z.to_nat cap) SB = (Ok reply, with_tcp j (Tcp.set_buf (Tcp.recv_buf b') 0 b') SB)) as Er.
  { unfold reply. rewrite <- Hpend. apply tcp_recv_run; [done| |by apply kept_some].
    cbn. apply list_lookup_insert_eq. by eapply lookup_lt_Some. }
  assert (n <= cap) as Hn by (unfold n, reply; rewrite length_take; lia).
  destruct (swrite_bytes_some (E := InterpError) mB ptr' reply) as [mB' Hmw]; [fold n; lia..|].
  pose proof Hmw as (_ & _ & _ & Hs1 & Hs2)%swrite_bytes_ok. fold n in Hs1, Hs2.
  do 2 eexists. exists mB'. split; [|split; [|split; [exact Hs1|exact Hs2]]].
  - unfold with_network. rewrite HwB, (poll_run _ [] hdr f pad rest) by done. unfold bind.
    change (popped rest (set_net (mkNet (rx_entry hdr f pad :: rest) (tx (net stB))) stB)) with (popped rest stB).
    rewrite E. reflexivity.
  - unfold host, host_net_recv. rewrite (prologue3 _ _ _ _ _ _ _ _ B1 B2 B3). unfold receive_into. rewrite !usize_small by lia.
    unfold bind at 1, gets at 1. cbn [h_mem]. unfold bind at 1, lift at 1.
    replace (sat_add_usize ptr' cap) with (ptr' + cap) by (unfold sat_add_usize, USIZE_MAX; lia).
    rewrite sread_range_ok by lia. rewrite srange_length. replace (ptr' + cap - ptr') with cap by lia.
    erewrite bind_run; [|eapply net_call_run; [reflexivity|exact Er]]. cbn [h_vs h_n h_mem h_w].
    unfold bind at 1, lift at 1. rewrite Hmw. unfold bind at 1, set_h_mem at 1, modify at 1.
    rewrite push_result_run by (cbn; by eapply lookup_lt_Some). cbn [h_vs h_n h_mem h_w].
    fold n. rewrite as_i64_small by lia. reflexivity.
Qed.

Lemma guest_data_path : exists f wA',
  host host_net_send vsA (S (S (S nA))) mA wA = (Ok tt, (<[nA := Z.of_nat (length data)]> vsA, S nA, mA, wA')) /\
  (exists stA', NETWORK_STACK wA' = Some stA' /\ tx (net stA') = tx (net stA) ++ [f]) /\
  NetSpec.frame_ok f /\
  forall hdr pad rest, length hdr = NET_HDR_SIZE -> NETWORK_STACK wB = Some (set_net (mkNet (rx_entry hdr f pad :: rest) (tx (net stB))) stB) ->
    Forall rx_ok rest ->
    exists wB1 wB2 mB', with_network poll wB = (Some (Ok (Some (length f))), wB1) /\
      host host_net_recv vsB (S (S (S nB))) mB wB1 = (Ok tt, (<[nB := n]> vsB, S nB, mB', wB2)) /\
      srange mB' ptr' (ptr' + n) = reply /\
      forall k, ~ ptr' <= k < ptr' + n -> sget mB' k = sget mB k.
Proof.
  destruct guest_sends as (f & wA' & E & Htx & Hok & Hfr). exists f, wA'. split; [exact E|]. split; [exact Htx|].
  split; [exact Hok|]. intros hdr pad rest Hh HwB Hrest. by eapply guest_receives.
Qed.
End guests.
