(* ===== verification/Jit.v ===== *)
(** * The native code generator ([kernel/src/jit/])

    [CodeBuf] and its instruction emitters ([emit.rs]), the compiler of
    straight-line function bodies ([compile.rs]) and the allocation of the
    code buffer ([mod.rs]). *)

From S2P Require Import Prelude Leb128 Opcode.

(** ** Registers and conditions *)

Inductive Reg := Rax | Rcx | Rdx | Rbx | Rsp | Rbp | Rsi | Rdi | R8 | R9 | R10 | R11 | R12 | R13 | R14 | R15.

#[export] Instance Reg_eq_dec : EqDecision Reg.
Proof. solve_decision. Defined.

(** [self as u8] *)
Definition reg_u8 (r : Reg) : Z :=
  match r with
  | Rax => 0 | Rcx => 1 | Rdx => 2 | Rbx => 3 | Rsp => 4 | Rbp => 5 | Rsi => 6 | Rdi => 7
  | R8 => 8 | R9 => 9 | R10 => 10 | R11 => 11 | R12 => 12 | R13 => 13 | R14 => 14 | R15 => 15
  end.

Definition enc (r : Reg) : Z := Z.land (reg_u8 r) 7.
Definition needs_rex (r : Reg) : bool := 8 <=? reg_u8 r.

Module Cond.
Inductive t := E | NE | L | LE | G | GE | B | BE | A | AE.
End Cond.

(** [cond as u8] *)
Definition cond_u8 (c : Cond.t) : Z :=
  match c with
  | Cond.E => 0x4 | Cond.NE => 0x5 | Cond.L => 0xC | Cond.LE => 0xE | Cond.G => 0xF
  | Cond.GE => 0xD | Cond.B => 0x2 | Cond.BE => 0x6 | Cond.A => 0x7 | Cond.AE => 0x3
  end.

(** ** The code buffer *)

Record CodeBuf := mkCodeBuf { cb_buf : list Z; cursor : nat }.

Definition new_codebuf (buf : list Z) : CodeBuf := mkCodeBuf buf 0.
Definition cb_len (c : CodeBuf) : nat := cursor c.
Definition cb_pos (c : CodeBuf) : nat := cursor c.

Definition Emitter : Type := CodeBuf -> CodeBuf.

(** One emitter after the other. *)
Definition emit_seq (a b : Emitter) : Emitter := fun c => b (a c).
Declare Scope emit_scope.
Notation "a >> b" := (emit_seq a b) (at level 85, right associativity) : emit_scope.
#[local] Open Scope emit_scope.

(** A byte past the end is dropped. *)
Definition emit_u8 (b : Z) : Emitter := fun c =>
  if (cursor c <? length (cb_buf c))%nat
  then mkCodeBuf (<[cursor c := b]> (cb_buf c)) (cursor c + 1) else c.

Definition emit_u16 (v : Z) : Emitter := emit_u8 (as_u8 v) >> emit_u8 (as_u8 (Z.shiftr v 8)).

Definition emit_u32 (v : Z) : Emitter :=
  emit_u8 (as_u8 v) >> emit_u8 (as_u8 (Z.shiftr v 8)) >>
  emit_u8 (as_u8 (Z.shiftr v 16)) >> emit_u8 (as_u8 (Z.shiftr v 24)).

Definition emit_u64 (v : Z) : Emitter := emit_u32 (as_u32 v) >> emit_u32 (as_u32 (Z.shiftr v 32)).

Definition emit_i32 (v : Z) : Emitter := emit_u32 (as_u32 v).

(** ** Prefixes and operand bytes *)

Definition emit_rex_w : Emitter := emit_u8 0x48.
Definition emit_rex_wb : Emitter := emit_u8 0x49.
Definition emit_rex_wr : Emitter := emit_u8 0x4C.
Definition emit_rex_wrb : Emitter := emit_u8 0x4D.

Definition emit_rex_rr (reg rm : Reg) : Emitter :=
  let r := if needs_rex reg then 0x44 else 0x40 in
  let b := if needs_rex rm then 0x41 else 0x40 in
  emit_u8 (Z.lor (Z.lor 0x48 (Z.land r 4)) (Z.land b 1)).

Definition emit_modrm_rr (reg rm : Reg) : Emitter :=
  emit_u8 (Z.lor (Z.lor 0xC0 (Z.shiftl (enc reg) 3)) (enc rm)).

Definition emit_mem_modrm (reg base : Reg) (offset : Z) : Emitter :=
  if (offset =? 0) && negb (enc base =? 5) then
    emit_u8 (Z.lor (Z.lor 0x00 (Z.shiftl (enc reg) 3)) (enc base))
  else if (-128 <=? offset) && (offset <=? 127) then
    emit_u8 (Z.lor (Z.lor 0x40 (Z.shiftl (enc reg) 3)) (enc base)) >> emit_u8 (as_u8 offset)
  else
    emit_u8 (Z.lor (Z.lor 0x80 (Z.shiftl (enc reg) 3)) (enc base)) >> emit_i32 offset.

(** ** Moves and the stack *)

Definition emit_mov_rr (dst src : Reg) : Emitter :=
  emit_rex_rr src dst >> emit_u8 0x89 >> emit_modrm_rr src dst.

Definition emit_mov_ri64 (dst : Reg) (imm : Z) : Emitter :=
  (if needs_rex dst then emit_rex_wb else emit_rex_w) >>
  emit_u8 (Z.lor 0xB8 (enc dst)) >> emit_u64 imm.

(** [if cond { emit(b) }] *)
Definition emit_when (b : bool) (e : Emitter) : Emitter := if b then e else fun c => c.

Definition emit_mov_ri32 (dst : Reg) (imm : Z) : Emitter :=
  emit_when (needs_rex dst) (emit_u8 0x41) >> emit_u8 (Z.lor 0xB8 (enc dst)) >> emit_u32 imm.

Definition emit_push (reg : Reg) : Emitter :=
  emit_when (needs_rex reg) (emit_u8 0x41) >> emit_u8 (Z.lor 0x50 (enc reg)).

Definition emit_pop (reg : Reg) : Emitter :=
  emit_when (needs_rex reg) (emit_u8 0x41) >> emit_u8 (Z.lor 0x58 (enc reg)).

(** ** Arithmetic *)

Definition emit_add_rr (dst src : Reg) : Emitter :=
  emit_rex_rr dst src >> emit_u8 0x03 >> emit_modrm_rr dst src.
Definition emit_sub_rr (dst src : Reg) : Emitter :=
  emit_rex_rr dst src >> emit_u8 0x2B >> emit_modrm_rr dst src.
Definition emit_and_rr (dst src : Reg) : Emitter :=
  emit_rex_rr dst src >> emit_u8 0x23 >> emit_modrm_rr dst src.
Definition emit_or_rr (dst src : Reg) : Emitter :=
  emit_rex_rr dst src >> emit_u8 0x0B >> emit_modrm_rr dst src.
Definition emit_xor_rr (dst src : Reg) : Emitter :=
  emit_rex_rr dst src >> emit_u8 0x33 >> emit_modrm_rr dst src.

Definition emit_add_rsp_i8 (imm : Z) : Emitter :=
  emit_rex_w >> emit_u8 0x83 >> emit_u8 0xC4 >> emit_u8 (as_u8 imm).
Definition emit_sub_rsp_i8 (imm : Z) : Emitter :=
  emit_rex_w >> emit_u8 0x83 >> emit_u8 0xEC >> emit_u8 (as_u8 imm).

Definition emit_imul_rr (dst src : Reg) : Emitter :=
  emit_rex_rr dst src >> emit_u8 0x0F >> emit_u8 0xAF >> emit_modrm_rr dst src.

Definition emit_sar_rcx (reg : Reg) : Emitter :=
  emit_rex_rr Rcx reg >> emit_u8 0xD3 >> emit_u8 (Z.lor 0xF8 (enc reg)).
Definition emit_shl_rcx (reg : Reg) : Emitter :=
  emit_rex_rr Rcx reg >> emit_u8 0xD3 >> emit_u8 (Z.lor 0xE0 (enc reg)).
Definition emit_shr_rcx (reg : Reg) : Emitter :=
  emit_rex_rr Rcx reg >> emit_u8 0xD3 >> emit_u8 (Z.lor 0xE8 (enc reg)).

Definition emit_neg (reg : Reg) : Emitter :=
  emit_rex_w >> emit_u8 0xF7 >> emit_u8 (Z.lor 0xD8 (enc reg)).

(** ** Loads and stores *)

(** [0x48 | R bit | B bit] *)
Definition rex_mem (reg base : Reg) : Z :=
  Z.lor (Z.lor 0x48 (if needs_rex reg then 0x04 else 0)) (if needs_rex base then 0x01 else 0).

Definition emit_load_mem (dst base : Reg) (byte_offset : Z) : Emitter :=
  emit_u8 (rex_mem dst base) >> emit_u8 0x8B >> emit_mem_modrm dst base byte_offset.

Definition emit_store_mem (src base : Reg) (byte_offset : Z) : Emitter :=
  emit_u8 (rex_mem src base) >> emit_u8 0x89 >> emit_mem_modrm src base byte_offset.

Definition emit_movsx_r32_mem8 (dst base : Reg) (offset : Z) : Emitter :=
  emit_rex_rr dst base >> emit_u8 0x0F >> emit_u8 0xBE >> emit_mem_modrm dst base offset.
Definition emit_movzx_r32_mem8 (dst base : Reg) (offset : Z) : Emitter :=
  emit_rex_rr dst base >> emit_u8 0x0F >> emit_u8 0xB6 >> emit_mem_modrm dst base offset.

Definition emit_mem_load_u64 (dst base offset_reg : Reg) : Emitter :=
  emit_rex_rr dst base >> emit_u8 0x8B >>
  (if bool_decide (offset_reg = Rax)
   then emit_u8 (Z.lor (Z.lor 0x00 (Z.shiftl (enc dst) 3)) (enc base))
   else emit_u8 (Z.lor 0x04 (Z.shiftl (enc dst) 3)) >>
        emit_u8 (Z.lor (Z.shiftl (enc offset_reg) 3) (enc base))).

Definition emit_mem_store_u64 (src base offset_reg : Reg) : Emitter :=
  emit_rex_rr src base >> emit_u8 0x89 >>
  (if bool_decide (offset_reg = Rax)
   then emit_u8 (Z.lor (Z.lor 0x00 (Z.shiftl (enc src) 3)) (enc base))
   else emit_u8 (Z.lor 0x04 (Z.shiftl (enc src) 3)) >>
        emit_u8 (Z.lor (Z.shiftl (enc offset_reg) 3) (enc base))).

(** ** Flags, branches and calls *)

Definition emit_setcc (cond : Cond.t) (reg : Reg) : Emitter :=
  emit_when (needs_rex reg) (emit_u8 (Z.lor 0x40 (Z.shiftr (enc reg) 3))) >>
  emit_u8 0x0F >> emit_u8 (Z.lor 0x90 (cond_u8 cond)) >> emit_modrm_rr reg Rax.

Definition emit_movzx_r32_r8 (dst src : Reg) : Emitter :=
  emit_when (needs_rex dst || needs_rex src)
    (emit_u8 (Z.lor (Z.lor 0x40 (if needs_rex dst then 0x4 else 0)) (if needs_rex src then 0x1 else 0))) >>
  emit_u8 0x0F >> emit_u8 0xB6 >> emit_modrm_rr dst src.

Definition emit_ret : Emitter := emit_u8 0xC3.

Definition emit_jmp_rel32 (rel : Z) : Emitter := emit_u8 0xE9 >> emit_i32 rel.
Definition emit_jz_rel32 (rel : Z) : Emitter := emit_u8 0x0F >> emit_u8 0x84 >> emit_i32 rel.
Definition emit_jnz_rel32 (rel : Z) : Emitter := emit_u8 0x0F >> emit_u8 0x85 >> emit_i32 rel.

(** Where the four bytes to patch stand, and the buffer with them. *)
Definition emit_rel32_placeholder (c : CodeBuf) : nat * CodeBuf := (cursor c, emit_u32 0 c).

Definition patch_rel32 (patch_pos instr_end target_pos : nat) : Emitter := fun c =>
  let rel := as_i32 (Z.of_nat target_pos - Z.of_nat instr_end) in
  if (patch_pos + 4 <=? length (cb_buf c))%nat
  then mkCodeBuf (take patch_pos (cb_buf c) ++ to_le_bytes 4 rel ++ drop (patch_pos + 4) (cb_buf c)) (cursor c)
  else c.

Definition emit_test_rr (reg : Reg) : Emitter :=
  emit_rex_rr reg reg >> emit_u8 0x85 >> emit_modrm_rr reg reg.

Definition emit_cmp_ri32 (reg : Reg) (imm : Z) : Emitter :=
  (if needs_rex reg then emit_u8 0x49 else emit_rex_w) >>
  emit_u8 0x81 >> emit_u8 (Z.lor 0xF8 (enc reg)) >> emit_i32 imm.

Definition emit_call_r (reg : Reg) : Emitter :=
  emit_when (needs_rex reg) (emit_u8 0x41) >> emit_u8 0xFF >> emit_u8 (Z.lor 0xD0 (enc reg)).

(** ** Prologue and epilogue *)

Definition emit_prologue : Emitter :=
  emit_push Rbp >> emit_mov_rr Rbp Rsp >> emit_push Rbx >> emit_push R12 >> emit_push R13 >>
  emit_push R14 >> emit_push R15 >> emit_sub_rsp_i8 8.

Definition emit_epilogue : Emitter :=
  emit_add_rsp_i8 8 >> emit_pop R15 >> emit_pop R14 >> emit_pop R13 >> emit_pop R12 >>
  emit_pop Rbx >> emit_pop Rbp >> emit_ret.

(** ** The compiler ([compile.rs]) *)

Definition emit_return (result_count : Z) : Emitter :=
  emit_when (0 <? result_count) (emit_pop Rax) >>
  emit_mov_rr Rsp R12 >>
  emit_when (result_count =? 0) (emit_mov_ri32 Rax 0) >>
  emit_epilogue.

(** [(idx as usize).wrapping_mul(8) as i32] *)
Definition local_offset (idx : Z) : Z := as_i32 (as_usize (idx * 8)).

(** Pops the right operand to [rcx] and the left one to [rax]. *)
Definition emit_binary (op : Emitter) : Emitter :=
  emit_pop Rcx >> emit_pop Rax >> op >> emit_push Rax.

(** The arms that take no immediate. *)
Definition plain_arm (op : Z) : option Emitter :=
  if op =? OP_I32_ADD then Some (emit_binary (emit_add_rr Rax Rcx))
  else if op =? OP_I32_SUB then Some (emit_binary (emit_sub_rr Rax Rcx))
  else if op =? OP_I32_MUL then Some (emit_binary (emit_imul_rr Rax Rcx))
  else if op =? OP_I32_AND then Some (emit_binary (emit_and_rr Rax Rcx))
  else if op =? OP_I32_OR then Some (emit_binary (emit_or_rr Rax Rcx))
  else if op =? OP_I32_XOR then Some (emit_binary (emit_xor_rr Rax Rcx))
  else if op =? OP_I32_SHL then Some (emit_binary (emit_shl_rcx Rax))
  else if op =? OP_I32_SHR_U then Some (emit_binary (emit_shr_rcx Rax))
  else if op =? OP_I32_SHR_S then Some (emit_binary (emit_sar_rcx Rax))
  else if op =? OP_DROP then Some (emit_add_rsp_i8 8)
  else if op =? OP_NOP then Some (fun c => c)
  else None.

(** The arms that read an immediate behind the opcode: its size and the code. *)
Definition immediate_arm (op : Z) (rest : list Z) : option (option (Emitter * nat)) :=
  if op =? OP_I32_CONST then
    Some (match read_i32_leb128 rest with
          | Some (val, sz) => Some (emit_mov_ri64 Rax (as_u64 val) >> emit_push Rax, sz)
          | None => None end)
  else if op =? OP_I64_CONST then
    Some (match read_i64_leb128 rest with
          | Some (val, sz) => Some (emit_mov_ri64 Rax (as_u64 val) >> emit_push Rax, sz)
          | None => None end)
  else if op =? OP_LOCAL_GET then
    Some (match read_u32_leb128 rest with
          | Some (idx, sz) => Some (emit_load_mem Rax R13 (local_offset idx) >> emit_push Rax, sz)
          | None => None end)
  else if op =? OP_LOCAL_SET then
    Some (match read_u32_leb128 rest with
          | Some (idx, sz) => Some (emit_pop Rax >> emit_store_mem Rax R13 (local_offset idx), sz)
          | None => None end)
  else if op =? OP_LOCAL_TEE then
    Some (match read_u32_leb128 rest with
          | Some (idx, sz) =>
            Some (emit_pop Rax >> emit_push Rax >> emit_store_mem Rax R13 (local_offset idx), sz)
          | None => None end)
  else None.

(** [while ip < body.len()]: every round moves [ip] on by at least one, so the
    length of the body is fuel enough. *)
Fixpoint compile_loop (fuel : nat) (body : list Z) (ip : nat) (result_count : Z) (c : CodeBuf) : bool * CodeBuf :=
  match fuel, body !! ip with
  | S fuel', Some op =>
    match immediate_arm op (drop (ip + 1) body) with
    | Some (Some (e, sz)) => compile_loop fuel' body (ip + 1 + sz) result_count (e c)
    | Some None => (false, c)
    | None =>
      match plain_arm op with
      | Some e => compile_loop fuel' body (ip + 1) result_count (e c)
      | None =>
        if op =? OP_RETURN then (true, emit_return result_count c)
        else if op =? OP_END then
          if (ip + 1 =? length body)%nat then (true, emit_return result_count c) else (false, c)
        else (false, c)
      end
    end
  | _, _ => (true, emit_return result_count c)
  end.

Definition jit_compile_body (body : list Z) (result_count : Z) (c : CodeBuf) : bool * CodeBuf :=
  if 1 <? result_count then (false, c) else
  compile_loop (length body) body 0 result_count
    ((emit_prologue >> emit_mov_rr R15 Rdi >> emit_mov_rr R14 Rsi >> emit_mov_rr R13 Rdx >> emit_mov_rr R12 Rsp) c).

(** ** The shared code buffer ([mod.rs]) *)

Definition JIT_BUF_SIZE : Z := 2048 * 1024.

(** The offset of the allocation and the new [JIT_FILL]. *)
Definition jit_alloc (len fill : Z) : option (Z * Z) :=
  let aligned := Z.land (fill + 15) (Z.lnot 15) in
  if JIT_BUF_SIZE <? aligned + len then None else Some (aligned, aligned + len).

Definition jit_used (fill : Z) : Z := fill.

(** The new [JIT_FILL]. *)
Definition jit_reset (_ : Z) : Z := 0.
