(* ===== verification/X86.v ===== *)
(** * The processor the generated code runs on

    The part of the x86-64 instruction set the code generator uses, as the
    processor manuals describe it: a decoder from bytes and the effect of each
    instruction on the registers and on memory. It is the specification the
    emitters of Jit.v are proved against; flags are not modelled, so the
    instructions that set or test them decode but do not execute. *)

From S2P Require Import Prelude Jit.

Inductive alu := AAdd | ASub | AAnd | AOr | AXor | AImul.
Inductive shift := HShl | HShr | HSar.

(** A memory operand: base register, index register (scale 1) and displacement. *)
Record addr := Addr { a_base : Reg; a_index : option Reg; a_disp : Z }.

Inductive instr :=
| IMov (dst src : Reg)
| IMovImm (dst : Reg) (imm : Z)
| IPush (r : Reg)
| IPop (r : Reg)
| IAlu (op : alu) (dst src : Reg)
| IAluImm (op : alu) (dst : Reg) (imm : Z)
| IShift (op : shift) (dst : Reg)
| INeg (r : Reg)
| ILoad (dst : Reg) (a : addr)
| IStore (src : Reg) (a : addr)
| ILoad8 (signed : bool) (dst : Reg) (a : addr)
| IMovzx8 (dst src : Reg)
| ITest (r1 r2 : Reg)
| ICmpImm (r : Reg) (imm : Z)
| IJmp (rel : Z)
| IJcc (cc rel : Z)
| ISetcc (cc : Z) (r : Reg)
| ICall (r : Reg)
| IRet.

(** ** Decoding *)

Definition reg_of (ext : bool) (n : Z) : Reg :=
  nth (Z.to_nat (Z.land n 7 + (if ext then 8 else 0)))
    [Rax; Rcx; Rdx; Rbx; Rsp; Rbp; Rsi; Rdi; R8; R9; R10; R11; R12; R13; R14; R15] Rax.

(** Whether there is a REX prefix, and its bits W, R, X and B. *)
Record rex := Rex { rP : bool; rW : bool; rR : bool; rX : bool; rB : bool }.

Definition no_rex : rex := Rex false false false false false.
Definition rex_of (b : Z) : rex := Rex true (Z.testbit b 3) (Z.testbit b 2) (Z.testbit b 1) (Z.testbit b 0).

Inductive operand := OReg (r : Reg) | OMem (a : addr).

Definition imm8 (bs : list Z) : option (Z * nat) :=
  match bs with b :: _ => Some (as_i8 b, 1%nat) | [] => None end.
Definition imm32 (bs : list Z) : option (Z * nat) :=
  if (4 <=? length bs)%nat then Some (as_i32 (le_bytes (take 4 bs)), 4%nat) else None.

(** The displacement that [mod] asks for. *)
Definition disp (md : Z) (bs : list Z) : option (Z * nat) :=
  if md =? 0 then Some (0, 0%nat) else if md =? 1 then imm8 bs else imm32 bs.

(** The ModRM byte with what follows it: the [reg] field, the operand and the
    number of bytes read. RIP-relative operands and operands without base are
    not decoded. *)
Definition modrm (x : rex) (bs : list Z) : option (Z * operand * nat) :=
  match bs with
  | [] => None
  | m :: bs' =>
    let md := Z.shiftr m 6 in
    let reg := Z.land (Z.shiftr m 3) 7 in
    let rm := Z.land m 7 in
    if md =? 3 then Some (reg, OReg (reg_of (rB x) rm), 1%nat)
    else if rm =? 4 then
      match bs' with
      | [] => None
      | s :: bs'' =>
        let base := Z.land s 7 in
        let idx := reg_of (rX x) (Z.shiftr s 3) in
        if negb (Z.shiftr s 6 =? 0) || ((base =? 5) && (md =? 0)) then None
        else match disp md bs'' with
             | Some (d, n) =>
               Some (reg, OMem (Addr (reg_of (rB x) base) (if bool_decide (idx = Rsp) then None else Some idx) d), (2 + n)%nat)
             | None => None
             end
      end
    else if (rm =? 5) && (md =? 0) then None
    else match disp md bs' with
         | Some (d, n) => Some (reg, OMem (Addr (reg_of (rB x) rm) None d), (1 + n)%nat)
         | None => None
         end
  end.

Definition alu_of (op : Z) : option alu :=
  if op =? 0x03 then Some AAdd else if op =? 0x2B then Some ASub else if op =? 0x23 then Some AAnd
  else if op =? 0x0B then Some AOr else if op =? 0x33 then Some AXor else None.

(** [o] if the condition on the encoding holds. *)
Definition need (b : bool) {A} (o : option A) : option A := if b then o else None.

(** The byte register of an operand. Without a REX prefix the encodings 4 to 7
    name the second byte of another register, which is not decoded. *)
Definition byte_reg (x : rex) (r : Reg) : bool := rP x || (reg_u8 r <? 4).

(** The two-byte opcodes behind [0x0F]. *)
Definition decode_0f (x : rex) (bs : list Z) : option (instr * nat) :=
  match bs with
  | [] => None
  | op :: bs' =>
    if op =? 0xAF then
      match modrm x bs' with
      | Some (reg, OReg rm, n) => need (rW x) (Some (IAlu AImul (reg_of (rR x) reg) rm, (1 + n)%nat))
      | _ => None end
    else if (op =? 0xB6) || (op =? 0xBE) then
      match modrm x bs' with
      | Some (reg, OMem a, n) => Some (ILoad8 (op =? 0xBE) (reg_of (rR x) reg) a, (1 + n)%nat)
      | Some (reg, OReg rm, n) => need ((op =? 0xB6) && byte_reg x rm) (Some (IMovzx8 (reg_of (rR x) reg) rm, (1 + n)%nat))
      | None => None end
    else if (0x80 <=? op) && (op <=? 0x8F) then
      match imm32 bs' with Some (d, n) => Some (IJcc (op - 0x80) d, (1 + n)%nat) | None => None end
    else if (0x90 <=? op) && (op <=? 0x9F) then
      match modrm x bs' with Some (_, OReg rm, n) => need (byte_reg x rm) (Some (ISetcc (op - 0x90) rm, (1 + n)%nat)) | _ => None end
    else None
  end.

Definition decode_op (x : rex) (bs : list Z) : option (instr * nat) :=
  match bs with
  | [] => None
  | op :: bs' =>
    if op =? 0x0F then match decode_0f x bs' with Some (i, n) => Some (i, (1 + n)%nat) | None => None end
    else if (0x50 <=? op) && (op <=? 0x57) then Some (IPush (reg_of (rB x) op), 1%nat)
    else if (0x58 <=? op) && (op <=? 0x5F) then Some (IPop (reg_of (rB x) op), 1%nat)
    else if (0xB8 <=? op) && (op <=? 0xBF) then
      let w := if rW x then 8%nat else 4%nat in
      if (w <=? length bs')%nat
      then Some (IMovImm (reg_of (rB x) op) (le_bytes (take w bs')), (1 + w)%nat) else None
    else if op =? 0xC3 then Some (IRet, 1%nat)
    else if op =? 0xE9 then match imm32 bs' with Some (d, n) => Some (IJmp d, (1 + n)%nat) | None => None end
    else if op =? 0xFF then
      match modrm x bs' with
      | Some (reg, OReg rm, n) => need (reg =? 2) (Some (ICall rm, (1 + n)%nat)) | _ => None end
    else if negb (rW x) then None
    else
      match modrm x bs' with
      | None => None
      | Some (reg, rm, n) =>
        let r := reg_of (rR x) reg in
        match rm with
        | OMem a =>
          if op =? 0x89 then Some (IStore r a, (1 + n)%nat)
          else if op =? 0x8B then Some (ILoad r a, (1 + n)%nat) else None
        | OReg m =>
          match alu_of op with
          | Some o => Some (IAlu o r m, (1 + n)%nat)
          | None =>
            if op =? 0x89 then Some (IMov m r, (1 + n)%nat)
            else if op =? 0x8B then Some (IMov r m, (1 + n)%nat)
            else if op =? 0x85 then Some (ITest m r, (1 + n)%nat)
            else if op =? 0xD3 then
              if reg =? 4 then Some (IShift HShl m, (1 + n)%nat)
              else if reg =? 5 then Some (IShift HShr m, (1 + n)%nat)
              else if reg =? 7 then Some (IShift HSar m, (1 + n)%nat) else None
            else if op =? 0xF7 then need (reg =? 3) (Some (INeg m, (1 + n)%nat))
            else if op =? 0x83 then
              match imm8 (drop n bs') with
              | Some (d, k) =>
                if reg =? 0 then Some (IAluImm AAdd m d, (1 + n + k)%nat)
                else if reg =? 5 then Some (IAluImm ASub m d, (1 + n + k)%nat) else None
              | None => None
              end
            else if op =? 0x81 then
              match imm32 (drop n bs') with
              | Some (d, k) => need (reg =? 7) (Some (ICmpImm m d, (1 + n + k)%nat))
              | None => None
              end
            else None
          end
        end
      end
  end.

(** An optional REX prefix, then the instruction; its length in bytes. *)
Definition decode (bs : list Z) : option (instr * nat) :=
  match bs with
  | b :: bs' =>
    if (0x40 <=? b) && (b <=? 0x4F)
    then match decode_op (rex_of b) bs' with Some (i, n) => Some (i, S n) | None => None end
    else decode_op no_rex bs
  | [] => None
  end.

(** ** Execution *)

(** Registers hold unsigned 64-bit values; memory is the mapped 8-byte words by
    their address. *)
Record cpu := mkCpu { regs : Reg -> Z; rip : Z; words : Z -> option Z }.

Definition set_reg (r : Reg) (v : Z) (f : Reg -> Z) : Reg -> Z := fun x => if bool_decide (x = r) then v else f x.
Definition set_word (a v : Z) (m : Z -> option Z) : Z -> option Z := fun x => if x =? a then Some v else m x.

Definition alu_fun (op : alu) (a b : Z) : Z :=
  as_u64 (match op with
          | AAdd => a + b | ASub => a - b | AAnd => Z.land a b | AOr => Z.lor a b | AXor => Z.lxor a b
          | AImul => as_i64 a * as_i64 b end).

(** The count is the low six bits of [cl]. *)
Definition shift_fun (op : shift) (a c : Z) : Z :=
  let k := Z.land c 63 in
  match op with
  | HShl => as_u64 (Z.shiftl a k)
  | HShr => Z.shiftr a k
  | HSar => as_u64 (Z.shiftr (as_i64 a) k)
  end.

Definition ea (a : addr) (f : Reg -> Z) : Z :=
  as_u64 (f (a_base a) + match a_index a with Some i => f i | None => 0 end + a_disp a).

(** An access that is not mapped, or not aligned to its word, has no outcome. *)
Definition load64 (a : Z) (m : Z -> option Z) : option Z := if a mod 8 =? 0 then m a else None.
Definition store64 (a v : Z) (m : Z -> option Z) : option (Z -> option Z) :=
  match load64 a m with Some _ => Some (set_word a v m) | None => None end.

Definition execute (i : instr) (c : cpu) (next : Z) : option cpu :=
  let f := regs c in
  let m := words c in
  match i with
  | IMov d s => Some (mkCpu (set_reg d (f s) f) next m)
  | IMovImm d v => Some (mkCpu (set_reg d v f) next m)
  | IPush r =>
    let sp := as_u64 (f Rsp - 8) in
    match store64 sp (f r) m with Some m' => Some (mkCpu (set_reg Rsp sp f) next m') | None => None end
  | IPop r =>
    match load64 (f Rsp) m with
    | Some v => Some (mkCpu (set_reg r v (set_reg Rsp (as_u64 (f Rsp + 8)) f)) next m)
    | None => None
    end
  | IAlu op d s => Some (mkCpu (set_reg d (alu_fun op (f d) (f s)) f) next m)
  | IAluImm op d v => Some (mkCpu (set_reg d (alu_fun op (f d) (as_u64 v)) f) next m)
  | IShift op d => Some (mkCpu (set_reg d (shift_fun op (f d) (f Rcx)) f) next m)
  | INeg r => Some (mkCpu (set_reg r (as_u64 (- f r)) f) next m)
  | ILoad d a => match load64 (ea a f) m with Some v => Some (mkCpu (set_reg d v f) next m) | None => None end
  | IStore s a => match store64 (ea a f) (f s) m with Some m' => Some (mkCpu f next m') | None => None end
  | IJmp rel => Some (mkCpu f (next + rel) m)
  | IRet =>
    match load64 (f Rsp) m with
    | Some v => Some (mkCpu (set_reg Rsp (as_u64 (f Rsp + 8)) f) v m)
    | None => None
    end
  | _ => None
  end.

(** [code] lies at [base]. *)
Definition step (base : Z) (code : list Z) (c : cpu) : option cpu :=
  let off := rip c - base in
  if (0 <=? off) && (off <? Z.of_nat (length code)) then
    match decode (drop (Z.to_nat off) code) with
    | Some (i, n) => execute i c (rip c + Z.of_nat n)
    | None => None
    end
  else None.

(** Runs until control is at [stop]. *)
Fixpoint steps (fuel : nat) (base : Z) (code : list Z) (stop : Z) (c : cpu) : option cpu :=
  if rip c =? stop then Some c else
  match fuel with
  | O => None
  | S fuel' => match step base code c with Some c' => steps fuel' base code stop c' | None => None end
  end.
