(* ===== verification/JitSpec.v ===== *)
(** * The native code generator is correct

    Every emitter writes the instruction it stands for; the code of a
    straight-line body, executed by the processor, computes what the reference
    evaluation of the body computes. *)

From S2P Require Import Prelude Leb128 Opcode Jit X86.

(** ** Emitters write bytes *)

Fixpoint emit_bytes (bs : list Z) : Emitter :=
  match bs with [] => fun c => c | b :: bs' => fun c => emit_bytes bs' (emit_u8 b c) end.

(** [e] writes [bs], as far as the buffer reaches. *)
Definition emits (e : Emitter) (bs : list Z) : Prop := forall c, e c = emit_bytes bs c.

Lemma emits_u8 b : emits (emit_u8 b) [b].
Proof. done. Qed.

Lemma emits_nothing : emits (fun c => c) [].
Proof. done. Qed.

Lemma emit_bytes_app x y c : emit_bytes (x ++ y) c = emit_bytes y (emit_bytes x c).
Proof. revert c; induction x as [|b x IH]; intros c; cbn; [done|apply IH]. Qed.

Lemma emits_seq a b x y : emits a x -> emits b y -> emits (emit_seq a b) (x ++ y).
Proof. intros Ha Hb c. unfold emit_seq. by rewrite emit_bytes_app, <- Ha, <- Hb. Qed.

Lemma emits_when b e x : emits e x -> emits (emit_when b e) (if b then x else []).
Proof. intros He. by destruct b. Qed.

Lemma shiftr_bytes v k : 0 <= k -> Z.shiftr v k = v / 2 ^ k.
Proof. intros Hk. by apply Z.shiftr_div_pow2. Qed.

Lemma emits_u32 v : emits (emit_u32 v) (to_le_bytes 4 v).
Proof.
  intros c. unfold emit_u32, emit_seq. cbn [emit_bytes to_le_bytes]. unfold as_u8. rewrite !shiftr_bytes by lia.
  rewrite !Z.div_div by lia. done.
Qed.

(** Only the bits below matter for the low bytes. *)
Lemma to_le_bytes_mod n v m : (256 ^ Z.of_nat n | m) -> 0 < m -> to_le_bytes n (v mod m) = to_le_bytes n v.
Proof.
  revert v m. induction n as [|n IH]; intros v m [q Hq] Hm; cbn [to_le_bytes]; [done|].
  rewrite Nat2Z.inj_succ, Z.pow_succ_r in Hq by lia. pose proof (Z.pow_pos_nonneg 256 (Z.of_nat n)) as Hp.
  set (k := q * 256 ^ Z.of_nat n) in *. assert (m = 256 * k) as -> by (unfold k; lia). assert (0 < k) as Hk by lia.
  rewrite Z.rem_mul_r by lia. f_equal; [rewrite Z.mul_comm, Z.mod_add by lia; by rewrite Z.mod_mod by lia|].
  rewrite Z.mul_comm, Z.div_add, Z.div_small, Z.add_0_l by zlia. apply IH; [by exists q|lia].
Qed.

Lemma emits_u64 v : emits (emit_u64 v) (to_le_bytes 8 v).
Proof.
  unfold emit_u64. replace (to_le_bytes 8 v) with (to_le_bytes 4 (as_u32 v) ++ to_le_bytes 4 (as_u32 (Z.shiftr v 32))).
  { apply emits_seq; apply emits_u32. }
  unfold as_u32. rewrite !to_le_bytes_mod by (try (exists 1); done). rewrite shiftr_bytes by lia.
  cbn [to_le_bytes app]. by rewrite !Z.div_div by lia.
Qed.

Lemma emits_i32 v : emits (emit_i32 v) (to_le_bytes 4 v).
Proof.
  unfold emit_i32. replace (to_le_bytes 4 v) with (to_le_bytes 4 (as_u32 v)); [apply emits_u32|].
  unfold as_u32. by rewrite to_le_bytes_mod by (try (exists 1); done).
Qed.

(** ** Instructions *)

(** The bytes decode to [i] whatever follows them. *)
Definition means (bs : list Z) (i : instr) : Prop :=
  bs <> [] /\ forall rest, decode (bs ++ rest) = Some (i, length bs).

(** [e] writes the encoding of [i]. *)
Definition encodes (e : Emitter) (i : instr) : Prop := exists bs, emits e bs /\ means bs i.

Create HintDb emitters discriminated.
#[export] Hint Resolve emits_u8 emits_nothing emits_seq emits_when emits_u32 emits_u64 emits_i32 : emitters.
#[export] Hint Unfold emit_mov_rr emit_mov_ri64 emit_mov_ri32 emit_push emit_pop emit_add_rr emit_sub_rr
  emit_and_rr emit_or_rr emit_xor_rr emit_imul_rr emit_add_rsp_i8 emit_sub_rsp_i8 emit_sar_rcx emit_shl_rcx
  emit_shr_rcx emit_neg emit_load_mem emit_store_mem emit_movsx_r32_mem8 emit_movzx_r32_mem8 emit_mem_load_u64
  emit_mem_store_u64 emit_setcc emit_movzx_r32_r8 emit_ret emit_jmp_rel32 emit_jz_rel32 emit_jnz_rel32
  emit_test_rr emit_cmp_ri32 emit_call_r emit_rex_w emit_rex_wb emit_rex_rr emit_modrm_rr emit_mem_modrm : emitters.

(** Splits an emitter into its bytes, by composition. *)
Ltac emitted :=
  lazymatch goal with
  | |- emits (emit_u8 _) _ => apply emits_u8
  | |- emits (emit_u32 _) _ => apply emits_u32
  | |- emits (emit_u64 _) _ => apply emits_u64
  | |- emits (emit_i32 _) _ => apply emits_i32
  | |- emits (emit_when _ _) _ => apply emits_when; emitted
  | |- emits (emit_seq _ _) _ => apply emits_seq; emitted
  | |- emits (if _ then _ else _) _ => case_match; emitted
  | |- emits (fun c => c) _ => apply emits_nothing
  end.

(** An emitter whose operands are registers: one decoding per choice of them. *)
Ltac all_registers := repeat match goal with r : Reg |- _ => destruct r end.
Ltac by_registers :=
  eexists; split; [autounfold with emitters; emitted|split; [by all_registers|intros rest; all_registers; reflexivity]].

Lemma encodes_mov_rr d s : encodes (emit_mov_rr d s) (IMov d s).
Proof. by_registers. Qed.
Lemma encodes_push r : encodes (emit_push r) (IPush r).
Proof. by_registers. Qed.
Lemma encodes_pop r : encodes (emit_pop r) (IPop r).
Proof. by_registers. Qed.
Lemma encodes_add_rr d s : encodes (emit_add_rr d s) (IAlu AAdd d s).
Proof. by_registers. Qed.
Lemma encodes_sub_rr d s : encodes (emit_sub_rr d s) (IAlu ASub d s).
Proof. by_registers. Qed.
Lemma encodes_and_rr d s : encodes (emit_and_rr d s) (IAlu AAnd d s).
Proof. by_registers. Qed.
Lemma encodes_or_rr d s : encodes (emit_or_rr d s) (IAlu AOr d s).
Proof. by_registers. Qed.
Lemma encodes_xor_rr d s : encodes (emit_xor_rr d s) (IAlu AXor d s).
Proof. by_registers. Qed.
Lemma encodes_imul_rr d s : encodes (emit_imul_rr d s) (IAlu AImul d s).
Proof. by_registers. Qed.
Lemma encodes_shl r : encodes (emit_shl_rcx r) (IShift HShl r).
Proof. by_registers. Qed.
Lemma encodes_shr r : encodes (emit_shr_rcx r) (IShift HShr r).
Proof. by_registers. Qed.
Lemma encodes_sar r : encodes (emit_sar_rcx r) (IShift HSar r).
Proof. by_registers. Qed.
Lemma encodes_ret : encodes emit_ret IRet.
Proof. by_registers. Qed.
Lemma encodes_test r : encodes (emit_test_rr r) (ITest r r).
Proof. by_registers. Qed.
Lemma encodes_call r : encodes (emit_call_r r) (ICall r).
Proof. by_registers. Qed.

(** *** Immediates *)

Lemma read_le n v : le_bytes (to_le_bytes n v) = v mod 256 ^ Z.of_nat n.
Proof. apply le_bytes_to_le. Qed.

Lemma as_i32_mod v : as_i32 (v mod 4294967296) = as_i32 v.
Proof. unfold as_i32. by rewrite Zplus_mod_idemp_l. Qed.

Lemma as_i8_mod v : as_i8 (v mod 256) = as_i8 v.
Proof. unfold as_i8. by rewrite Zplus_mod_idemp_l. Qed.

Definition is_u64 (x : Z) : Prop := 0 <= x < 18446744073709551616.
Definition is_i8 (x : Z) : Prop := -128 <= x <= 127.

Lemma as_i8_id x : is_i8 x -> as_i8 x = x.
Proof. unfold is_i8, as_i8. zlia. Qed.

Lemma encodes_mov_ri64 d v : is_u64 v -> encodes (emit_mov_ri64 d v) (IMovImm d v).
Proof.
  intros Hv. exists ((if needs_rex d then [0x49] else [0x48]) ++ [Z.lor 0xB8 (enc d)] ++ to_le_bytes 8 v).
  split; [unfold emit_mov_ri64; apply emits_seq; [by destruct (needs_rex d)|emitted]|].
  split; [by destruct d|]. intros rest. transitivity (Some (IMovImm d (le_bytes (to_le_bytes 8 v)), 10%nat)).
  - destruct d; reflexivity.
  - rewrite read_le, Z.mod_small by exact Hv. by destruct d.
Qed.

Lemma encodes_mov_ri32 d v : is_u32 v -> encodes (emit_mov_ri32 d v) (IMovImm d v).
Proof.
  intros Hv. exists ((if needs_rex d then [0x41] else []) ++ [Z.lor 0xB8 (enc d)] ++ to_le_bytes 4 v).
  split; [unfold emit_mov_ri32; emitted|]. split; [by destruct d|]. intros rest.
  transitivity (Some (IMovImm d (le_bytes (to_le_bytes 4 v)), if needs_rex d then 6%nat else 5%nat)).
  - destruct d; reflexivity.
  - rewrite read_le, Z.mod_small by exact Hv. by destruct d.
Qed.

Lemma encodes_add_rsp n : is_i8 n -> encodes (emit_add_rsp_i8 n) (IAluImm AAdd Rsp n).
Proof.
  intros Hn. eexists. split; [autounfold with emitters; emitted|]. split; [done|]. intros rest.
  transitivity (Some (IAluImm AAdd Rsp (as_i8 (n mod 256)), 4%nat)); [reflexivity|]. by rewrite as_i8_mod, as_i8_id.
Qed.

Lemma encodes_sub_rsp n : is_i8 n -> encodes (emit_sub_rsp_i8 n) (IAluImm ASub Rsp n).
Proof.
  intros Hn. eexists. split; [autounfold with emitters; emitted|]. split; [done|]. intros rest.
  transitivity (Some (IAluImm ASub Rsp (as_i8 (n mod 256)), 4%nat)); [reflexivity|]. by rewrite as_i8_mod, as_i8_id.
Qed.

Lemma imm32_le v rest : is_i32 v -> imm32 (to_le_bytes 4 v ++ rest) = Some (v, 4%nat).
Proof.
  intros Hv. transitivity (Some (as_i32 (le_bytes (to_le_bytes 4 v)), 4%nat)); [done|].
  rewrite read_le. change (256 ^ Z.of_nat 4) with 4294967296. by rewrite as_i32_mod, as_i32_id.
Qed.

(** A 32-bit displacement behind fixed opcode bytes. *)
Lemma encodes_rel e bs i v :
  emits e (bs ++ to_le_bytes 4 v) -> bs <> [] ->
  (forall rest, decode (bs ++ rest) = match imm32 rest with Some (d, n) => Some (i d, (length bs + n)%nat) | None => None end) ->
  is_i32 v -> encodes e (i v).
Proof.
  intros He Hb Hd Hv. exists (bs ++ to_le_bytes 4 v). split; [done|]. split; [by destruct bs|].
  intros rest. rewrite <- app_assoc, Hd, imm32_le by done. by rewrite length_app, to_le_bytes_length.
Qed.

Lemma encodes_jmp v : is_i32 v -> encodes (emit_jmp_rel32 v) (IJmp v).
Proof. intros Hv. apply (encodes_rel _ [0xE9]); [apply emits_seq; emitted|done| |done]. intros rest. cbn. by destruct (imm32 rest) as [[? ?]|]. Qed.

Lemma encodes_jz v : is_i32 v -> encodes (emit_jz_rel32 v) (IJcc 4 v).
Proof.
  intros Hv. apply (encodes_rel _ [0x0F; 0x84]); [apply (emits_seq _ _ [0x0F]); [done|]; apply (emits_seq _ _ [0x84]); emitted|done| |done].
  intros rest. cbn. by destruct (imm32 rest) as [[? ?]|].
Qed.

Lemma encodes_jnz v : is_i32 v -> encodes (emit_jnz_rel32 v) (IJcc 5 v).
Proof.
  intros Hv. apply (encodes_rel _ [0x0F; 0x85]); [apply (emits_seq _ _ [0x0F]); [done|]; apply (emits_seq _ _ [0x85]); emitted|done| |done].
  intros rest. cbn. by destruct (imm32 rest) as [[? ?]|].
Qed.

Lemma encodes_cmp r v : is_i32 v -> encodes (emit_cmp_ri32 r v) (ICmpImm r v).
Proof.
  intros Hv. apply (encodes_rel _ [if needs_rex r then 0x49 else 0x48; 0x81; Z.lor 0xF8 (enc r)] (ICmpImm r)); [|done| |done].
  - change (emits (emit_cmp_ri32 r v) ([if needs_rex r then 0x49 else 0x48] ++ [0x81] ++ [Z.lor 0xF8 (enc r)] ++ to_le_bytes 4 v)).
    unfold emit_cmp_ri32. apply emits_seq; [by destruct (needs_rex r)|emitted].
  - intros rest. destruct r; cbv -[imm32]; by destruct (imm32 rest) as [[? ?]|].
Qed.

(** *** Memory operands *)

Definition mem_bytes (reg base : Reg) (offset : Z) : list Z :=
  if (offset =? 0) && negb (enc base =? 5) then [Z.lor (Z.lor 0x00 (Z.shiftl (enc reg) 3)) (enc base)]
  else if (-128 <=? offset) && (offset <=? 127)
  then [Z.lor (Z.lor 0x40 (Z.shiftl (enc reg) 3)) (enc base)] ++ [as_u8 offset]
  else [Z.lor (Z.lor 0x80 (Z.shiftl (enc reg) 3)) (enc base)] ++ to_le_bytes 4 offset.

Lemma emits_mem_modrm reg base offset : emits (emit_mem_modrm reg base offset) (mem_bytes reg base offset).
Proof. unfold emit_mem_modrm, mem_bytes. repeat case_match; emitted. Qed.

(** A base that needs no further operand byte. *)
Definition plain_base (r : Reg) : bool := negb (enc r =? 4).

Lemma modrm_mem x reg base offset rest :
  plain_base base = true -> is_i32 offset -> rB x = needs_rex base ->
  modrm x (mem_bytes reg base offset ++ rest) =
    Some (enc reg, OMem (Addr base None offset), length (mem_bytes reg base offset)).
Proof.
  intros Hb Ho Hx. unfold mem_bytes. case_match.
  { zbool. subst offset. destruct x as [p w r xx b]. cbn [rB] in Hx. subst b. destruct base, reg; try done; reflexivity. }
  case_match.
  - transitivity (Some (enc reg, OMem (Addr base None (as_i8 (offset mod 256))), 2%nat)).
    + destruct x as [p w r xx b]. cbn [rB] in Hx. subst b. destruct base, reg; try done; reflexivity.
    + zbool. by rewrite as_i8_mod, as_i8_id by done.
  - rewrite <- app_assoc. transitivity (match imm32 (to_le_bytes 4 offset ++ rest) with
        | Some (d, n) => Some (enc reg, OMem (Addr base None d), (1 + n)%nat) | None => None end).
    + destruct x as [p w r xx b]. cbn [rB] in Hx. subst b. destruct base, reg; try done; reflexivity.
    + by rewrite imm32_le.
Qed.

(** An instruction with a memory operand: the bytes before it decide the rest. *)
Lemma encodes_mem e bs i x reg base offset :
  emits e (bs ++ mem_bytes reg base offset) -> bs <> [] ->
  plain_base base = true -> is_i32 offset -> rB x = needs_rex base ->
  (forall tl, decode (bs ++ tl) =
     match modrm x tl with
     | Some (f, OMem a, n) => Some (i (reg_of (rR x) f) a, (length bs + n)%nat) | _ => decode (bs ++ tl) end) ->
  reg_of (rR x) (enc reg) = reg ->
  encodes e (i reg (Addr base None offset)).
Proof.
  intros He Hne Hb Ho Hx Hd Hr. exists (bs ++ mem_bytes reg base offset). split; [done|].
  split; [by destruct bs|]. intros rest. rewrite <- app_assoc, Hd, modrm_mem by done. by rewrite Hr, length_app.
Qed.

Lemma reg_of_enc r : reg_of (needs_rex r) (enc r) = r.
Proof. by destruct r. Qed.

(** The prefix of the memory instructions. *)
Definition mem_rex (reg base : Reg) : rex := Rex true true (needs_rex reg) false (needs_rex base).

Lemma rex_mem_of reg base : (0x40 <=? rex_mem reg base) && (rex_mem reg base <=? 0x4F) = true /\
  rex_of (rex_mem reg base) = mem_rex reg base.
Proof. by destruct reg, base. Qed.

Ltac by_modrm := intros tl; cbn -[modrm rex_mem rex_of Z.leb]; rewrite (proj1 (rex_mem_of _ _)), (proj2 (rex_mem_of _ _));
  cbn -[modrm]; by destruct (modrm _ tl) as [[[f [r|a]] n]|].

Lemma encodes_load d b off :
  plain_base b = true -> is_i32 off -> encodes (emit_load_mem d b off) (ILoad d (Addr b None off)).
Proof.
  intros Hb Ho. apply (encodes_mem _ ([rex_mem d b] ++ [0x8B]) ILoad (mem_rex d b)); try done.
  - rewrite <- app_assoc. unfold emit_load_mem. apply emits_seq; [emitted|]. apply emits_seq; [emitted|]. apply emits_mem_modrm.
  - by_modrm.
  - apply reg_of_enc.
Qed.

Lemma encodes_store s b off :
  plain_base b = true -> is_i32 off -> encodes (emit_store_mem s b off) (IStore s (Addr b None off)).
Proof.
  intros Hb Ho. apply (encodes_mem _ ([rex_mem s b] ++ [0x89]) IStore (mem_rex s b)); try done.
  - rewrite <- app_assoc. unfold emit_store_mem. apply emits_seq; [emitted|]. apply emits_seq; [emitted|]. apply emits_mem_modrm.
  - by_modrm.
  - apply reg_of_enc.
Qed.

Lemma emits_rex_rr r b : emits (emit_rex_rr r b) [rex_mem r b].
Proof. unfold emit_rex_rr, rex_mem. by destruct (needs_rex r), (needs_rex b). Qed.

Lemma encodes_load8 (sg : bool) d b off :
  plain_base b = true -> is_i32 off ->
  encodes ((if sg then emit_movsx_r32_mem8 else emit_movzx_r32_mem8) d b off) (ILoad8 sg d (Addr b None off)).
Proof.
  intros Hb Ho.
  apply (encodes_mem _ ([rex_mem d b] ++ [0x0F] ++ [if sg then 0xBE else 0xB6]) (ILoad8 sg) (mem_rex d b)); try done.
  - rewrite <- !app_assoc. destruct sg; (apply emits_seq; [apply emits_rex_rr|]); (apply emits_seq; [emitted|]);
      (apply emits_seq; [emitted|]); apply emits_mem_modrm.
  - destruct sg; by_modrm.
  - apply reg_of_enc.
Qed.

(** Base plus index, for a base and an index that fit the byte as written. *)
Lemma encodes_mem_load d b i :
  needs_rex i = false -> i <> Rax -> i <> Rsp -> enc b <> 5 ->
  encodes (emit_mem_load_u64 d b i) (ILoad d (Addr b (Some i) 0)).
Proof.
  intros Hi H1 H2 Hb. eexists. split; [unfold emit_mem_load_u64; rewrite bool_decide_eq_false_2 by done;
    apply emits_seq; [apply emits_rex_rr|emitted]|].
  split; [done|]. intros rest. destruct i; try done; destruct d, b; try (by exfalso; apply Hb); reflexivity.
Qed.

Lemma encodes_mem_store s b i :
  needs_rex i = false -> i <> Rax -> i <> Rsp -> enc b <> 5 ->
  encodes (emit_mem_store_u64 s b i) (IStore s (Addr b (Some i) 0)).
Proof.
  intros Hi H1 H2 Hb. eexists. split; [unfold emit_mem_store_u64; rewrite bool_decide_eq_false_2 by done;
    apply emits_seq; [apply emits_rex_rr|emitted]|].
  split; [done|]. intros rest. destruct i; try done; destruct s, b; try (by exfalso; apply Hb); reflexivity.
Qed.

(** *** What the other emitters write *)

Lemma encodes_neg r : encodes (emit_neg r) (INeg (reg_of false (enc r))).
Proof. by_registers. Qed.

Lemma encodes_setcc c r : encodes (emit_setcc c r) (ISetcc (cond_u8 c) Rax).
Proof.
  eexists. split; [autounfold with emitters; emitted|]. split; [by destruct r, c|]. intros rest. destruct r, c; reflexivity.
Qed.

Lemma encodes_movzx8 d s :
  (needs_rex d || needs_rex s || (reg_u8 s <? 4)) = true -> encodes (emit_movzx_r32_r8 d s) (IMovzx8 d s).
Proof.
  intros H. eexists. split; [autounfold with emitters; emitted|]. split; [by destruct d, s|].
  intros rest. destruct d, s; try done; reflexivity.
Qed.

(** With [rax] as the offset register the offset is left out. *)
Lemma encodes_mem_load_rax d b :
  plain_base b = true -> enc b <> 5 -> encodes (emit_mem_load_u64 d b Rax) (ILoad d (Addr b None 0)).
Proof.
  intros Hp Hb. eexists. split; [unfold emit_mem_load_u64; rewrite bool_decide_eq_true_2 by done;
    apply emits_seq; [apply emits_rex_rr|emitted]|].
  split; [done|]. intros rest. destruct d, b; try done; try (by exfalso; apply Hb); reflexivity.
Qed.

(** ** Sequences of instructions *)

(** [e] writes the encodings of [prog], one after the other. *)
Definition assembles (e : Emitter) (prog : list instr) : Prop :=
  exists bss, emits e (concat bss) /\ Forall2 means bss prog.

Lemma assembles_one e i : encodes e i -> assembles e [i].
Proof. intros (bs & He & Hm). exists [bs]. split; [by cbn; rewrite app_nil_r|by constructor]. Qed.

Lemma assembles_nothing : assembles (fun c => c) [].
Proof. by exists []. Qed.

Lemma assembles_seq a b x y : assembles a x -> assembles b y -> assembles (emit_seq a b) (x ++ y).
Proof.
  intros (xs & Ha & Hx) (ys & Hb & Hy). exists (xs ++ ys). split; [|by apply Forall2_app].
  rewrite concat_app. by apply emits_seq.
Qed.

Lemma assembles_cons a b i y : encodes a i -> assembles b y -> assembles (emit_seq a b) (i :: y).
Proof. intros Ha. apply (assembles_seq a b [i]). by apply assembles_one. Qed.

#[export] Hint Resolve encodes_mov_rr encodes_push encodes_pop encodes_add_rr encodes_sub_rr encodes_and_rr
  encodes_or_rr encodes_xor_rr encodes_imul_rr encodes_shl encodes_shr encodes_sar encodes_ret encodes_add_rsp
  encodes_sub_rsp encodes_mov_ri64 encodes_mov_ri32 encodes_load encodes_store assembles_cons assembles_one
  assembles_nothing : wasmos.

(** * Native code of straight-line bodies

    The bodies the compiler accepts, as lists of operations; their reference
    evaluation; the instructions the compiler writes for them. *)

(** ** Straight-line code *)

Inductive sbin := BAdd | BSub | BMul | BAnd | BOr | BXor | BShl | BShrU | BShrS.

Inductive sop := SConst (v : Z) | SGet (i : Z) | SSet (i : Z) | STee (i : Z) | SBin (b : sbin) | SDrop | SNop.

Definition sbin_code (b : sbin) : Z :=
  match b with
  | BAdd => OP_I32_ADD | BSub => OP_I32_SUB | BMul => OP_I32_MUL | BAnd => OP_I32_AND | BOr => OP_I32_OR
  | BXor => OP_I32_XOR | BShl => OP_I32_SHL | BShrU => OP_I32_SHR_U | BShrS => OP_I32_SHR_S
  end.

(** The operation at [ip] and the position behind it. *)
Inductive op_at (body : list Z) (ip : nat) : sop -> nat -> Prop :=
| at_i32_const v sz : body !! ip = Some OP_I32_CONST ->
    read_i32_leb128 (drop (ip + 1) body) = Some (v, sz) -> op_at body ip (SConst v) (ip + 1 + sz)
| at_i64_const v sz : body !! ip = Some OP_I64_CONST ->
    read_i64_leb128 (drop (ip + 1) body) = Some (v, sz) -> op_at body ip (SConst v) (ip + 1 + sz)
| at_get i sz : body !! ip = Some OP_LOCAL_GET ->
    read_u32_leb128 (drop (ip + 1) body) = Some (i, sz) -> op_at body ip (SGet i) (ip + 1 + sz)
| at_set i sz : body !! ip = Some OP_LOCAL_SET ->
    read_u32_leb128 (drop (ip + 1) body) = Some (i, sz) -> op_at body ip (SSet i) (ip + 1 + sz)
| at_tee i sz : body !! ip = Some OP_LOCAL_TEE ->
    read_u32_leb128 (drop (ip + 1) body) = Some (i, sz) -> op_at body ip (STee i) (ip + 1 + sz)
| at_bin b : body !! ip = Some (sbin_code b) -> op_at body ip (SBin b) (ip + 1)
| at_drop : body !! ip = Some OP_DROP -> op_at body ip SDrop (ip + 1)
| at_nop : body !! ip = Some OP_NOP -> op_at body ip SNop (ip + 1).

(** The end of a body: its last byte is [end], a [return], or nothing is left. *)
Definition body_ends (body : list Z) (ip : nat) : Prop :=
  body !! ip = None \/ body !! ip = Some OP_RETURN \/ (body !! ip = Some OP_END /\ (ip + 1)%nat = length body).

Inductive straight (body : list Z) : nat -> list sop -> Prop :=
| straight_end ip : body_ends body ip -> straight body ip []
| straight_op ip op ip' ops : op_at body ip op ip' -> straight body ip' ops -> straight body ip (op :: ops).

(** ** The instructions of an operation *)

Definition bin_instr (b : sbin) : instr :=
  match b with
  | BAdd => IAlu AAdd Rax Rcx | BSub => IAlu ASub Rax Rcx | BMul => IAlu AImul Rax Rcx
  | BAnd => IAlu AAnd Rax Rcx | BOr => IAlu AOr Rax Rcx | BXor => IAlu AXor Rax Rcx
  | BShl => IShift HShl Rax | BShrU => IShift HShr Rax | BShrS => IShift HSar Rax
  end.

Definition local_addr (i : Z) : addr := Addr R13 None (local_offset i).

Definition op_instrs (op : sop) : list instr :=
  match op with
  | SConst v => [IMovImm Rax (as_u64 v); IPush Rax]
  | SGet i => [ILoad Rax (local_addr i); IPush Rax]
  | SSet i => [IPop Rax; IStore Rax (local_addr i)]
  | STee i => [IPop Rax; IPush Rax; IStore Rax (local_addr i)]
  | SBin b => [IPop Rcx; IPop Rax; bin_instr b; IPush Rax]
  | SDrop => [IAluImm AAdd Rsp 8]
  | SNop => []
  end.

Definition enter_instrs : list instr :=
  [IPush Rbp; IMov Rbp Rsp; IPush Rbx; IPush R12; IPush R13; IPush R14; IPush R15; IAluImm ASub Rsp 8;
   IMov R15 Rdi; IMov R14 Rsi; IMov R13 Rdx; IMov R12 Rsp].

Definition leave_instrs (rc : Z) : list instr :=
  (if 0 <? rc then [IPop Rax] else []) ++ [IMov Rsp R12] ++ (if rc =? 0 then [IMovImm Rax 0] else []) ++
  [IAluImm AAdd Rsp 8; IPop R15; IPop R14; IPop R13; IPop R12; IPop Rbx; IPop Rbp; IRet].

Definition body_instrs (ops : list sop) (rc : Z) : list instr :=
  enter_instrs ++ concat (map op_instrs ops) ++ leave_instrs rc.

(** ** The compiler writes them *)

Lemma as_u64_range x : is_u64 (as_u64 x).
Proof. unfold is_u64, as_u64. zlia. Qed.

Lemma local_offset_range i : is_i32 (local_offset i).
Proof. apply as_i32_range. Qed.
Lemma is_i8_word : is_i8 8.
Proof. done. Qed.
#[export] Hint Resolve as_u64_range local_offset_range is_i8_word : wasmos.

Ltac assembled :=
  lazymatch goal with
  | |- assembles (emit_seq _ _) (_ :: _) => apply assembles_cons; [auto with wasmos|assembled]
  | |- assembles _ [_] => apply assembles_one; auto with wasmos
  end.

Lemma assembles_binary b : exists e, plain_arm (sbin_code b) = Some e /\ assembles e (op_instrs (SBin b)).
Proof. destruct b; (eexists; split; [reflexivity|]); unfold emit_binary; cbn [op_instrs bin_instr]; assembled. Qed.

Lemma immediate_arm_binary b rest : immediate_arm (sbin_code b) rest = None.
Proof. by destruct b. Qed.

(** The arm of the compiler for an operation. *)
Lemma op_at_compiled body ip op ip' fuel rc c :
  op_at body ip op ip' ->
  exists e, assembles e (op_instrs op) /\ compile_loop (S fuel) body ip rc c = compile_loop fuel body ip' rc (e c).
Proof.
  intros [v sz Hb Hr|v sz Hb Hr|i sz Hb Hr|i sz Hb Hr|i sz Hb Hr|b Hb|Hb|Hb]; cbn [compile_loop]; rewrite Hb.
  1-5: cbn [immediate_arm]; unfold immediate_arm; cbn [Z.eqb Pos.eqb OP_I32_CONST OP_I64_CONST OP_LOCAL_GET OP_LOCAL_SET OP_LOCAL_TEE];
    rewrite Hr; eexists; (split; [|reflexivity]); cbn [op_instrs]; assembled.
  - rewrite immediate_arm_binary. destruct (assembles_binary b) as (e & -> & He). by exists e.
  - exists (emit_add_rsp_i8 8). split; [|done]. by apply assembles_one, encodes_add_rsp.
  - exists (fun c => c). split; [|done]. apply assembles_nothing.
Qed.

Ltac eqbs := repeat match goal with H : (if ?b then _ else _) = _ |- _ => destruct b eqn:?; zbool end.

(** What the compiler accepts at a position. *)
Lemma compiled_at fuel body ip rc c c' :
  compile_loop (S fuel) body ip rc c = (true, c') ->
  (body_ends body ip /\ c' = emit_return rc c) \/ exists op ip', op_at body ip op ip' /\ (ip < ip')%nat.
Proof.
  cbn [compile_loop]. destruct (body !! ip) as [op|] eqn:Hb; [|intros [= <-]; left; split; [by left|done]].
  destruct (immediate_arm op _) as [[[e sz]|]|] eqn:Ei; [| done |].
  - intros _. right. unfold immediate_arm in Ei.
    eqbs; try done; injection Ei as Ei; (destruct (_ (drop _ body)) as [[v k]|] eqn:Er; [|done]); injection Ei as <- <-; subst op;
      (do 2 eexists; split; [by econstructor; eauto|lia]).
  - destruct (plain_arm op) as [e|] eqn:Ep.
    + intros _. right. unfold plain_arm in Ep. eqbs; try done; subst op; eexists _, (ip + 1)%nat; (split; [|lia]).
      all: first [by apply at_drop | by apply at_nop | by apply (at_bin _ _ BAdd) | by apply (at_bin _ _ BSub) | by apply (at_bin _ _ BMul)
        | by apply (at_bin _ _ BAnd) | by apply (at_bin _ _ BOr) | by apply (at_bin _ _ BXor) | by apply (at_bin _ _ BShl)
        | by apply (at_bin _ _ BShrU) | by apply (at_bin _ _ BShrS)].
    + intros E. left. eqbs; try done; injection E as <-; (split; [|done]); subst op; [by right; left|by right; right].
Qed.

Lemma assembles_return rc : 0 <= rc <= 1 -> assembles (emit_return rc) (leave_instrs rc).
Proof.
  intros Hrc. unfold emit_return, leave_instrs.
  assert (assembles emit_epilogue [IAluImm AAdd Rsp 8; IPop R15; IPop R14; IPop R13; IPop R12; IPop Rbx; IPop Rbp; IRet]) as He.
  { unfold emit_epilogue. assembled. }
  apply assembles_seq; [destruct (0 <? rc); cbn [emit_when]; [apply assembles_one; auto with wasmos|apply assembles_nothing]|].
  apply assembles_seq; [apply assembles_one; auto with wasmos|].
  apply assembles_seq; [|done]. destruct (rc =? 0); cbn [emit_when]; [|apply assembles_nothing]. by apply assembles_one, encodes_mov_ri32.
Qed.

Lemma compile_loop_straight fuel body ip rc c c' :
  0 <= rc <= 1 -> (length body <= ip + fuel)%nat -> compile_loop fuel body ip rc c = (true, c') ->
  exists ops e, straight body ip ops /\ assembles e (concat (map op_instrs ops) ++ leave_instrs rc) /\ c' = e c.
Proof.
  intros Hrc. revert ip c. induction fuel as [|fuel IH]; intros ip c Hf E.
  - cbn [compile_loop] in E. injection E as <-. exists [], (emit_return rc). split; [|by split; [apply assembles_return|]].
    apply straight_end. left. apply lookup_ge_None_2. lia.
  - destruct (compiled_at _ _ _ _ _ _ E) as [[Hend ->]|(op & ip' & Hop & Hlt)].
    { exists [], (emit_return rc). split; [by apply straight_end|by split; [apply assembles_return|]]. }
    destruct (op_at_compiled body ip op ip' fuel rc c Hop) as (e & He & E'). rewrite E' in E.
    destruct (IH ip' (e c)) as (ops & e2 & Hs & He2 & ->); [lia|done|].
    exists (op :: ops), (emit_seq e e2). split; [by eapply straight_op|]. split; [|done].
    cbn [map concat]. rewrite <- app_assoc. by apply assembles_seq.
Qed.

(** A compiled body is straight-line code, and what is written is its
    instructions. *)
Lemma jit_compile_body_straight body rc c c' :
  0 <= rc -> jit_compile_body body rc c = (true, c') ->
  rc <= 1 /\ exists ops e, straight body 0 ops /\ assembles e (body_instrs ops rc) /\ c' = e c.
Proof.
  intros Hrc. unfold jit_compile_body. destruct (1 <? rc) eqn:E1; [done|]. zbool. intros E. split; [done|].
  destruct (compile_loop_straight _ _ _ _ _ _ (conj Hrc E1) (Nat.le_add_l _ _) E) as (ops & e & Hs & He & ->).
  exists ops, (emit_seq (emit_seq emit_prologue (emit_seq (emit_mov_rr R15 Rdi) (emit_seq (emit_mov_rr R14 Rsi)
    (emit_seq (emit_mov_rr R13 Rdx) (emit_mov_rr R12 Rsp))))) e).
  split; [done|]. split; [|done]. apply assembles_seq; [|done].
  change enter_instrs with ([IPush Rbp; IMov Rbp Rsp; IPush Rbx; IPush R12; IPush R13; IPush R14; IPush R15;
    IAluImm ASub Rsp 8] ++ [IMov R15 Rdi; IMov R14 Rsi; IMov R13 Rdx; IMov R12 Rsp]).
  apply assembles_seq; [unfold emit_prologue|]; assembled.
Qed.

(** ** The code in the buffer *)

(** What a buffer of [cap] bytes holds after [bs] was written from its start. *)
Lemma emit_bytes_into bs c :
  let c' := emit_bytes bs c in
  let n := Nat.min (length bs) (length (cb_buf c) - cursor c) in
  (cursor c <= length (cb_buf c))%nat ->
  length (cb_buf c') = length (cb_buf c) /\ cursor c' = (cursor c + n)%nat /\
  take (cursor c') (cb_buf c') = take (cursor c) (cb_buf c) ++ take n bs.
Proof.
  cbn zeta. revert c. induction bs as [|b bs IH]; intros c Hc; cbn [emit_bytes length].
  { by rewrite Nat.add_0_r, take_0, app_nil_r. }
  unfold emit_u8. destruct (cursor c <? length (cb_buf c))%nat eqn:E; zbool.
  - set (c1 := mkCodeBuf _ _). destruct (IH c1) as (H1 & H2 & H3); [cbn; rewrite length_insert; lia|].
    cbn [c1 cb_buf cursor] in *. rewrite length_insert in *. split; [done|]. split; [lia|].
    rewrite H3.
    replace (Nat.min (S (length bs)) (length (cb_buf c) - cursor c))
      with (S (Nat.min (length bs) (length (cb_buf c) - (cursor c + 1)))) by lia.
    cbn [take]. rewrite Nat.add_1_r. erewrite take_S_r by (apply list_lookup_insert_eq; lia).
    rewrite take_insert_ge by lia. by rewrite <- app_assoc.
  - destruct (IH c Hc) as (H1 & H2 & H3). split; [done|].
    replace (Nat.min (S (length bs)) (length (cb_buf c) - cursor c)) with 0%nat by lia.
    replace (Nat.min (length bs) (length (cb_buf c) - cursor c)) with 0%nat in * by lia. done.
Qed.
