(* ===== verification/JitSim.v ===== *)
(** * The processor runs the compiled code

    Executed in a stack frame of its own, the code of a straight-line body
    evaluates the body on 64-bit words and returns to its caller with the
    caller's registers and memory as they were. *)

From S2P Require Import Prelude Leb128 Opcode Jit X86 JitSpec.

(** ** Evaluation on machine words *)

Definition wbin (b : sbin) (x y : Z) : Z :=
  match b with
  | BAdd => alu_fun AAdd x y | BSub => alu_fun ASub x y | BMul => alu_fun AImul x y
  | BAnd => alu_fun AAnd x y | BOr => alu_fun AOr x y | BXor => alu_fun AXor x y
  | BShl => shift_fun HShl x y | BShrU => shift_fun HShr x y | BShrS => shift_fun HSar x y
  end.

(** The operand stack, top first, and the locals. *)
Definition evs : Type := list Z * list Z.

Definition eval_op (bin : sbin -> Z -> Z -> option Z) (conv : Z -> Z) (op : sop) (s : evs) : option evs :=
  let '(st, ls) := s in
  match op with
  | SConst v => Some (conv v :: st, ls)
  | SGet i => match ls !! Z.to_nat i with Some v => Some (v :: st, ls) | None => None end
  | SSet i => match st with v :: st' => if (Z.to_nat i <? length ls)%nat then Some (st', <[Z.to_nat i := v]> ls) else None | [] => None end
  | STee i => match st with v :: _ => if (Z.to_nat i <? length ls)%nat then Some (st, <[Z.to_nat i := v]> ls) else None | [] => None end
  | SBin b => match st with
              | y :: x :: st' => match bin b x y with Some v => Some (v :: st', ls) | None => None end
              | _ => None end
  | SDrop => match st with _ :: st' => Some (st', ls) | [] => None end
  | SNop => Some s
  end.

Fixpoint eval_ops (bin : sbin -> Z -> Z -> option Z) (conv : Z -> Z) (ops : list sop) (s : evs) : option evs :=
  match ops with
  | [] => Some s
  | op :: ops' => match eval_op bin conv op s with Some s' => eval_ops bin conv ops' s' | None => None end
  end.

(** What the native code computes: every operation on 64 bits. *)
Definition weval : list sop -> evs -> option evs := eval_ops (fun b x y => Some (wbin b x y)) as_u64.

(** ** The stack frame *)

Definition straight_instr (i : instr) : bool := match i with IJmp _ | IRet => false | _ => true end.

Lemma execute_next i c n c' : straight_instr i = true -> execute i c n = Some c' -> rip c' = n.
Proof. destruct i; cbn; intros Hs E; try done; repeat case_match; by simplify_eq. Qed.

Section frame.
(** The stack pointer at entry, the locals and how many there are, the room
    for operands, the memory and the registers at entry. *)
Context (R L : Z) (n D : nat) (c0 : cpu).

(** The operand stack starts below six saved registers and the padding. *)
Definition S0 : Z := R - 56.

Record placed : Prop := {
  pl_R : R mod 8 = 0 /\ 8 * Z.of_nat D + 56 <= R /\ R + 8 < 18446744073709551616;
  pl_L : L mod 8 = 0 /\ 0 <= L /\ L + 8 * Z.of_nat n <= 18446744073709551616 /\ Z.of_nat n <= 1048576;
  pl_apart : L + 8 * Z.of_nat n <= S0 - 8 * Z.of_nat D \/ R + 8 <= L;
  pl_mapped : forall k, 0 < k <= Z.of_nat D + 7 -> is_Some (words c0 (R - 8 * k))
}.

Definition in_stack (a : Z) : Prop := S0 - 8 * Z.of_nat D <= a < R.
Definition in_locals (a : Z) : Prop := L <= a < L + 8 * Z.of_nat n.

Record frame (st ls : list Z) (c : cpu) : Prop := {
  fr_sp : regs c Rsp = S0 - 8 * Z.of_nat (length st);
  fr_base : regs c R12 = S0 /\ regs c R13 = L;
  fr_depth : (length st <= D)%nat /\ length ls = n;
  fr_stack : forall k v, rev st !! k = Some v -> words c (S0 - 8 * (Z.of_nat k + 1)) = Some v;
  fr_locals : forall k v, ls !! k = Some v -> words c (L + 8 * Z.of_nat k) = Some v;
  fr_mapped : forall k, 0 < k <= Z.of_nat D -> is_Some (words c (S0 - 8 * k));
  fr_saved : forall k r, [Rbp; Rbx; R12; R13; R14; R15] !! k = Some r ->
               words c (R - 8 * (Z.of_nat k + 1)) = Some (regs c0 r);
  fr_other : forall a, ~ in_stack a -> ~ in_locals a -> words c a = words c0 a
}.

Hypothesis P : placed.

Lemma frame_set_reg st ls c r v x :
  frame st ls c -> r <> Rsp -> r <> R12 -> r <> R13 -> frame st ls (mkCpu (set_reg r v (regs c)) x (words c)).
Proof.
  intros [] H1 H2 H3. split; cbn; unfold set_reg; rewrite ?bool_decide_eq_false_2 by congruence; done.
Qed.

Lemma stack_word k : 0 < k <= Z.of_nat D ->
  (S0 - 8 * k) mod 8 = 0 /\ 0 <= S0 - 8 * k < 18446744073709551616 /\ in_stack (S0 - 8 * k).
Proof. intros Hk. destruct P as [(H1 & H2 & H3) _ _ _]. unfold in_stack, S0. split; [|lia]. zlia. Qed.

Lemma locals_apart k i : 0 < k <= Z.of_nat D -> 0 <= i < Z.of_nat n -> S0 - 8 * k <> L + 8 * i.
Proof. intros Hk Hi. destruct P as [(H1 & H2 & H3) _ Ha _]. unfold S0 in *. lia. Qed.

Lemma push_frame_word st ls c r x :
  frame st ls c -> (S (length st) <= D)%nat ->
  exists c', execute (IPush r) c x = Some c' /\ frame (regs c r :: st) ls c' /\
    (forall q, q <> Rsp -> regs c' q = regs c q).
Proof.
  intros F Hd. destruct (stack_word (Z.of_nat (length st) + 1)) as (A1 & A2 & A3); [lia|].
  assert (as_u64 (regs c Rsp - 8) = S0 - 8 * (Z.of_nat (length st) + 1)) as Esp.
  { rewrite (fr_sp _ _ _ F). unfold as_u64. rewrite Z.mod_small; lia. }
  cbn [execute]. rewrite Esp. unfold store64, load64. rewrite A1. cbn [Z.eqb].
  destruct (fr_mapped _ _ _ F (Z.of_nat (length st) + 1)) as [w Hw]; [lia|]. rewrite Hw.
  eexists. split; [reflexivity|]. split; [|intros q Hq; cbn; unfold set_reg; by rewrite bool_decide_eq_false_2].
  destruct F as [F1 [F2a F2b] [F3a F3b] F4 F5 F6 F7 F8]. split; cbn [regs words length].
  - unfold set_reg. rewrite bool_decide_eq_true_2 by done. lia.
  - unfold set_reg. by rewrite !bool_decide_eq_false_2 by done.
  - by split.
  - intros k v. cbn [rev]. intros [Hk|[Hk Hv]]%lookup_app_Some; unfold set_word.
    + pose proof (lookup_lt_Some _ _ _ Hk) as Hlt. rewrite length_rev in Hlt.
      rewrite (proj2 (Z.eqb_neq _ _)) by lia. by apply F4.
    + rewrite length_rev in *. destruct (k - length st)%nat eqn:Ek; [|done]. injection Hv as <-.
      rewrite (proj2 (Z.eqb_eq _ _)) by lia. done.
  - intros k v Hk. unfold set_word. pose proof (lookup_lt_Some _ _ _ Hk).
    rewrite (proj2 (Z.eqb_neq _ _)); [by apply F5|]. intros E. by apply (locals_apart (Z.of_nat (length st) + 1) (Z.of_nat k)); lia.
  - intros k Hk. unfold set_word. destruct (_ =? _); [done|by apply F6].
  - intros k q Hk. unfold set_word. pose proof (lookup_lt_Some _ _ _ Hk) as Hlt. cbn in Hlt.
    rewrite (proj2 (Z.eqb_neq _ _)) by (unfold S0; lia). by apply F7.
  - intros a H1 H2. unfold set_word. rewrite (proj2 (Z.eqb_neq _ _)) by (intros ->; done). by apply F8.
Qed.

Lemma pop_frame_word v st ls c r x :
  frame (v :: st) ls c -> r <> Rsp -> r <> R12 -> r <> R13 ->
  exists c', execute (IPop r) c x = Some c' /\ frame st ls c' /\ regs c' r = v /\
    (forall q, q <> Rsp -> q <> r -> regs c' q = regs c q).
Proof.
  intros F N1 N2 N3. pose proof F as [F1 [F2a F2b] [F3a F3b] F4 F5 F6 F7 F8]. cbn [length] in *.
  destruct (stack_word (Z.of_nat (length st) + 1)) as (A1 & A2 & A3); [lia|].
  cbn [execute]. unfold load64. rewrite F1.
  replace (S0 - 8 * Z.of_nat (S (length st))) with (S0 - 8 * (Z.of_nat (length st) + 1)) by lia. rewrite A1. cbn [Z.eqb].
  rewrite (F4 (length st) v) by (cbn [rev]; rewrite lookup_app_r, length_rev, Nat.sub_diag by (rewrite length_rev; lia); done).
  eexists. split; [reflexivity|]. split; [|split].
  - apply (frame_set_reg _ _ (mkCpu (set_reg Rsp _ (regs c)) x (words c)) r v x); [|done..].
    split; cbn [regs words]; try done.
    + unfold set_reg. rewrite bool_decide_eq_true_2 by done. unfold as_u64.
      destruct P as [(B1 & B2 & B3) _ _ _]. unfold S0 in *. rewrite Z.mod_small; lia.
    + split; [lia|done].
    + intros k w Hk. apply F4. cbn [rev]. by apply lookup_app_l_Some.
  - cbn. unfold set_reg. by rewrite bool_decide_eq_true_2.
  - intros q H1 H2. cbn. unfold set_reg. by rewrite !bool_decide_eq_false_2.
Qed.

(** *** Locals *)

Lemma local_ea i st ls c : frame st ls c -> 0 <= i < Z.of_nat n ->
  ea (local_addr i) (regs c) = L + 8 * i /\ (L + 8 * i) mod 8 = 0.
Proof.
  intros F Hi. destruct P as [_ (H1 & H2 & H3 & H4) _ _]. unfold ea, local_addr. cbn [a_base a_index a_disp].
  rewrite (proj2 (fr_base _ _ _ F)). assert (local_offset i = 8 * i) as ->.
  { unfold local_offset, as_usize, as_u64, as_i32. rewrite (Z.mod_small (i * 8)) by lia. zlia. }
  unfold as_u64. rewrite Z.mod_small by lia. zlia.
Qed.

Lemma load_local i st ls c v : frame st ls c -> ls !! Z.to_nat i = Some v -> 0 <= i ->
  load64 (ea (local_addr i) (regs c)) (words c) = Some v.
Proof.
  intros F Hv Hi. pose proof (lookup_lt_Some _ _ _ Hv) as Hlt. rewrite (proj2 (fr_depth _ _ _ F)) in Hlt.
  destruct (local_ea i st ls c F) as [-> Hm]; [lia|]. unfold load64. rewrite Hm. cbn [Z.eqb].
  rewrite <- (Z2Nat.id i) by done. by apply (fr_locals _ _ _ F).
Qed.

Lemma store_local i st ls c r x : frame st ls c -> 0 <= i -> (Z.to_nat i < length ls)%nat ->
  exists c', execute (IStore r (local_addr i)) c x = Some c' /\ frame st (<[Z.to_nat i := regs c r]> ls) c' /\
    regs c' = regs c.
Proof.
  intros F Hi Hlt. destruct (lookup_lt_is_Some_2 _ _ Hlt) as [v Hv]. pose proof (load_local i st ls c v F Hv Hi) as Hl.
  cbn [execute]. unfold store64. rewrite Hl. eexists. split; [reflexivity|]. split; [|done].
  pose proof F as [F1 [F2a F2b] [F3a F3b] F4 F5 F6 F7 F8]. destruct (local_ea i st ls c F) as [-> _]; [lia|].
  assert (forall k, 0 < k <= Z.of_nat D + 7 -> (R - 8 * k =? L + 8 * i) = false) as Hap.
  { intros k Hk. apply Z.eqb_neq. destruct P as [_ _ Ha _]. unfold S0 in *. lia. }
  split; cbn [regs words]; unfold set_word; rewrite ?length_insert; try done.
  - intros k w Hk. pose proof (lookup_lt_Some _ _ _ Hk) as Hkl. rewrite length_rev in Hkl.
    replace (S0 - 8 * (Z.of_nat k + 1)) with (R - 8 * (Z.of_nat k + 8)) by (unfold S0; lia).
    rewrite Hap by lia. specialize (F4 k w Hk). rewrite <- F4. f_equal. unfold S0. lia.
  - intros k w. destruct (decide (k = Z.to_nat i)) as [->|Hne].
    + rewrite list_lookup_insert_eq by done. intros [= <-]. rewrite (proj2 (Z.eqb_eq _ _)) by lia. done.
    + rewrite list_lookup_insert_ne by done. intros Hk. rewrite (proj2 (Z.eqb_neq _ _)) by lia. by apply F5.
  - intros k Hk. destruct (_ =? _); [done|]. by apply F6.
  - intros k q Hk. pose proof (lookup_lt_Some _ _ _ Hk) as Hkl. cbn in Hkl. rewrite Hap by lia. by apply F7.
  - intros a H1 H2. rewrite (proj2 (Z.eqb_neq _ _)); [by apply F8|]. intros ->. apply H2. unfold in_locals. lia.
Qed.

(** ** Sequences *)

(** Executes instructions of the given lengths one after the other. *)
Fixpoint execs (p : list (instr * nat)) (c : cpu) : option cpu :=
  match p with
  | [] => Some c
  | (i, k) :: p' => match execute i c (rip c + Z.of_nat k) with Some c' => execs p' c' | None => None end
  end.

Lemma execs_app p q c : execs (p ++ q) c = match execs p c with Some c' => execs q c' | None => None end.
Proof. revert c; induction p as [|[i k] p IH]; intros c; cbn; [done|]. destruct (execute i c _); [apply IH|done]. Qed.

Definition op_indices (op : sop) : Prop :=
  match op with SGet i | SSet i | STee i => 0 <= i | _ => True end.

Lemma bin_instr_effect b c x :
  execute (bin_instr b) c x =
  Some (mkCpu (set_reg Rax (wbin b (regs c Rax) (regs c Rcx)) (regs c)) x (words c)).
Proof. by destruct b. Qed.

Lemma movr_effect d r c x : execute (IMov d r) c x = Some (mkCpu (set_reg d (regs c r) (regs c)) x (words c)).
Proof. done. Qed.

Lemma mov_effect d v c x : execute (IMovImm d v) c x = Some (mkCpu (set_reg d v (regs c)) x (words c)).
Proof. done. Qed.

Lemma load_effect d a c x v : load64 (ea a (regs c)) (words c) = Some v ->
  execute (ILoad d a) c x = Some (mkCpu (set_reg d v (regs c)) x (words c)).
Proof. intros E. cbn [execute]. by rewrite E. Qed.

Lemma op_simulated op st ls st' ls' c ks :
  frame st ls c -> op_indices op -> (S (length st) <= D)%nat ->
  eval_op (fun b x y => Some (wbin b x y)) as_u64 op (st, ls) = Some (st', ls') ->
  length ks = length (op_instrs op) ->
  exists c', execs (zip (op_instrs op) ks) c = Some c' /\ frame st' ls' c'.
Proof.
  intros F Hi Hd E Hk. destruct op; cbn [eval_op op_instrs op_indices] in *.
  - injection E as <- <-. destruct ks as [|k1 [|k2 []]]; try done. cbn [zip zip_with execs].
    pose proof (frame_set_reg st ls c Rax (as_u64 v) (rip c + Z.of_nat k1) F) as F1.
    destruct (push_frame_word st ls _ Rax (rip c + Z.of_nat k1 + Z.of_nat k2) (F1 ltac:(done) ltac:(done) ltac:(done)) Hd)
      as (c' & Ec & Fc & _). exists c'. rewrite mov_effect. cbn [rip]. rewrite Ec. by split.
  - destruct (ls !! Z.to_nat i) as [v|] eqn:Ev; [|done]. injection E as <- <-.
    destruct ks as [|k1 [|k2 []]]; try done. cbn [zip zip_with execs].
    rewrite (load_effect Rax _ c _ v (load_local i st ls c v F Ev Hi)). cbn [rip].
    pose proof (frame_set_reg st ls c Rax v (rip c + Z.of_nat k1) F) as F1.
    destruct (push_frame_word st ls _ Rax (rip c + Z.of_nat k1 + Z.of_nat k2) (F1 ltac:(done) ltac:(done) ltac:(done)) Hd)
      as (c' & Ec & Fc & _). exists c'. rewrite Ec. by split.
  - destruct st as [|v st1]; [done|]. destruct (_ <? _)%nat eqn:El; [|done]. zbool. injection E as <- <-.
    destruct ks as [|k1 [|k2 []]]; try done. cbn [zip zip_with execs].
    destruct (pop_frame_word v st1 ls c Rax (rip c + Z.of_nat k1) F) as (c1 & -> & F1 & Hr & _); [done..|].
    destruct (store_local i st1 ls c1 Rax (rip c1 + Z.of_nat k2) F1 Hi El) as (c2 & -> & F2 & _).
    rewrite Hr in F2. by exists c2.
  - destruct st as [|v st1]; [done|]. destruct (_ <? _)%nat eqn:El; [|done]. zbool. injection E as <- <-.
    destruct ks as [|k1 [|k2 [|k3 []]]]; try done. cbn [zip zip_with execs].
    destruct (pop_frame_word v st1 ls c Rax (rip c + Z.of_nat k1) F) as (c1 & -> & F1 & Hr & _); [done..|].
    destruct (push_frame_word st1 ls c1 Rax (rip c1 + Z.of_nat k2) F1) as (c2 & -> & F2 & Hq); [cbn in Hd; lia|].
    rewrite Hr in F2. destruct (store_local i _ ls c2 Rax (rip c2 + Z.of_nat k3) F2 Hi El) as (c3 & -> & F3 & _).
    rewrite Hq, Hr in F3 by done. by exists c3.
  - destruct st as [|y [|x st1]]; [done..|]. injection E as <- <-.
    destruct ks as [|k1 [|k2 [|k3 [|k4 []]]]]; try done. cbn [zip zip_with execs].
    destruct (pop_frame_word y (x :: st1) ls c Rcx (rip c + Z.of_nat k1) F) as (c1 & -> & F1 & Hr1 & _); [done..|].
    destruct (pop_frame_word x st1 ls c1 Rax (rip c1 + Z.of_nat k2) F1) as (c2 & -> & F2 & Hr2 & Hq); [done..|].
    rewrite bin_instr_effect. cbn [rip]. rewrite Hr2, (Hq Rcx), Hr1 by done.
    pose proof (frame_set_reg st1 ls c2 Rax (wbin b x y) (rip c2 + Z.of_nat k3) F2) as F3.
    destruct (push_frame_word st1 ls _ Rax (rip c2 + Z.of_nat k3 + Z.of_nat k4) (F3 ltac:(done) ltac:(done) ltac:(done)))
      as (c4 & Ec & Fc & _); [cbn in Hd; lia|]. rewrite Ec. by exists c4.
  - destruct st as [|v st1]; [done|]. injection E as <- <-. destruct ks as [|k1 []]; try done.
    cbn [zip zip_with execs execute]. eexists. split; [reflexivity|].
    pose proof F as [F1 [F2a F2b] [F3a F3b] F4 F5 F6 F7 F8]. cbn [length] in *. split; cbn [regs words]; try done.
    + unfold set_reg, alu_fun, as_u64. rewrite bool_decide_eq_true_2 by done. rewrite F1.
      destruct P as [(B1 & B2 & B3) _ _ _]. unfold S0 in *. rewrite (Z.mod_small 8) by lia. rewrite Z.mod_small; lia.
    + split; [lia|done].
    + intros k w Hkw. apply F4. cbn [rev]. by apply lookup_app_l_Some.
  - injection E as <- <-. destruct ks; [|done]. by exists c.
Qed.

(** The room an operation needs above what it was given. *)
Lemma eval_op_grows bin conv op st ls st' ls' :
  eval_op bin conv op (st, ls) = Some (st', ls') -> (length st' <= S (length st))%nat.
Proof. destruct op; cbn; intros E; repeat case_match; simplify_eq; cbn; lia. Qed.

Lemma ops_simulated ops st ls st' ls' c ks :
  frame st ls c -> Forall op_indices ops -> (length st + length ops <= D)%nat ->
  weval ops (st, ls) = Some (st', ls') -> length ks = length (concat (map op_instrs ops)) ->
  exists c', execs (zip (concat (map op_instrs ops)) ks) c = Some c' /\ frame st' ls' c'.
Proof.
  revert st ls c ks. induction ops as [|op ops IH]; intros st ls c ks F Hi Hd E Hk; cbn [map concat] in *.
  { injection E as <- <-. by exists c. }
  unfold weval in E. cbn [eval_ops] in E. destruct (eval_op _ _ op _) as [[st1 ls1]|] eqn:E1; [|done].
  inversion Hi as [|? ? Hi1 Hi2]; subst. rewrite length_app in Hk. cbn [length] in Hd.
  rewrite <- (take_drop (length (op_instrs op)) ks).
  rewrite zip_with_app by (rewrite length_take; lia). rewrite execs_app.
  destruct (op_simulated op st ls st1 ls1 c (take (length (op_instrs op)) ks) F Hi1) as (c1 & -> & F1);
    [lia|done|rewrite length_take; lia|].
  apply (IH st1 ls1 c1); [done..| |done|rewrite length_drop; lia]. apply eval_op_grows in E1. lia.
Qed.

(** ** Entry *)

Definition saved_regs : list Reg := [Rbp; Rbx; R12; R13; R14; R15].

(** [j] registers are saved. *)
Record entering (j : nat) (c : cpu) : Prop := {
  en_sp : regs c Rsp = R - 8 * Z.of_nat j;
  en_regs : forall q, q <> Rsp -> q <> Rbp -> regs c q = regs c0 q;
  en_saved : forall k r, (k < j)%nat -> saved_regs !! k = Some r -> words c (R - 8 * (Z.of_nat k + 1)) = Some (regs c0 r);
  en_other : forall a, ~ R - 8 * Z.of_nat j <= a < R -> words c a = words c0 a
}.

Lemma entering_push j r c x :
  entering j c -> saved_regs !! j = Some r -> regs c r = regs c0 r ->
  exists c', execute (IPush r) c x = Some c' /\ entering (S j) c' /\ forall q, q <> Rsp -> regs c' q = regs c q.
Proof.
  intros [E1 E2 E3 E4] Hj Hr. pose proof (lookup_lt_Some _ _ _ Hj) as Hlt. cbn in Hlt.
  destruct P as [(B1 & B2 & B3) _ _ Hm].
  assert (as_u64 (regs c Rsp - 8) = R - 8 * (Z.of_nat j + 1)) as Esp.
  { rewrite E1. unfold as_u64. rewrite Z.mod_small; lia. }
  cbn [execute]. rewrite Esp. unfold store64, load64.
  replace ((R - 8 * (Z.of_nat j + 1)) mod 8) with 0 by zlia. cbn [Z.eqb].
  rewrite E4 by lia. destruct (Hm (Z.of_nat j + 1)) as [w ->]; [lia|].
  eexists. split; [reflexivity|]. split; [|intros q Hq; cbn; unfold set_reg; by rewrite bool_decide_eq_false_2].
  split; cbn [regs words]; unfold set_reg, set_word.
  - rewrite bool_decide_eq_true_2 by done. lia.
  - intros q H1 H2. rewrite bool_decide_eq_false_2 by done. by apply E2.
  - intros k q Hk Hq. destruct (decide (k = j)) as [->|Hne].
    + rewrite (proj2 (Z.eqb_eq _ _)) by done. congruence.
    + rewrite (proj2 (Z.eqb_neq _ _)) by lia. apply E3; [lia|done].
  - intros a Ha. rewrite (proj2 (Z.eqb_neq _ _)) by lia. apply E4. lia.
Qed.

Lemma entering_set_reg j r v c x : entering j c -> r = Rbp -> entering j (mkCpu (set_reg r v (regs c)) x (words c)).
Proof.
  intros [E1 E2 E3 E4] ->. split; cbn [regs words]; try done.
  - intros q H1 H2. unfold set_reg. rewrite bool_decide_eq_false_2 by done. by apply E2.
Qed.

Lemma enter_simulated ls ks :
  regs c0 Rsp = R -> regs c0 Rdx = L -> length ls = n ->
  (forall k v, ls !! k = Some v -> words c0 (L + 8 * Z.of_nat k) = Some v) ->
  length ks = length enter_instrs ->
  exists c, execs (zip enter_instrs ks) c0 = Some c /\ frame [] ls c.
Proof.
  intros Hsp Hdx Hn Hls Hk.
  destruct ks as [|k1 [|k2 [|k3 [|k4 [|k5 [|k6 [|k7 [|k8 [|k9 [|k10 [|k11 [|k12 []]]]]]]]]]]]]; try done. clear Hk.
  unfold enter_instrs. cbn [zip zip_with execs].
  assert (entering 0 c0) as E0.
  { split; [lia|done|intros; lia|done]. }
  destruct (entering_push 0 Rbp c0 (rip c0 + Z.of_nat k1) E0) as (c1 & -> & E1 & Q1); [done..|].
  rewrite movr_effect.
  pose proof (entering_set_reg 1 Rbp (regs c1 Rsp) c1 (rip c1 + Z.of_nat k2) E1 eq_refl) as E2. set (c2 := mkCpu _ _ _) in *.
  assert (forall c q j, entering j c -> q <> Rsp -> q <> Rbp -> regs c q = regs c0 q) as Hq by (intros c q j []; auto).
  destruct (entering_push 1 Rbx c2 (rip c2 + Z.of_nat k3) E2) as (c3 & -> & E3 & _); [done|by eapply Hq|].
  destruct (entering_push 2 R12 c3 (rip c3 + Z.of_nat k4) E3) as (c4 & -> & E4 & _); [done|by eapply Hq|].
  destruct (entering_push 3 R13 c4 (rip c4 + Z.of_nat k5) E4) as (c5 & -> & E5 & _); [done|by eapply Hq|].
  destruct (entering_push 4 R14 c5 (rip c5 + Z.of_nat k6) E5) as (c6 & -> & E6 & _); [done|by eapply Hq|].
  destruct (entering_push 5 R15 c6 (rip c6 + Z.of_nat k7) E6) as (c7 & -> & E7 & _); [done|by eapply Hq|].
  cbn [execute execs]. eexists. split; [reflexivity|]. destruct E7 as [G1 G2 G3 G4].
  pose proof P as [(B1 & B2 & B3) (B4 & B5 & B6 & B7) Ba Bm].
  assert (as_u64 (regs c7 Rsp - as_u64 8) = S0) as Es.
  { rewrite G1. unfold as_u64, S0. rewrite (Z.mod_small 8) by lia. rewrite Z.mod_small; lia. }
  split; cbn [regs words length]; try done.
  - cbn. unfold set_reg. cbn. rewrite Z.sub_0_r. exact Es.
  - split; [exact Es|]. transitivity (regs c7 Rdx); [reflexivity|]. by rewrite G2.
  - split; [lia|done].
  - intros k v Hk. rewrite G4; [by apply Hls|]. apply lookup_lt_Some in Hk. unfold S0 in *. lia.
  - intros k Hk. rewrite G4 by (unfold S0; lia). replace (S0 - 8 * k) with (R - 8 * (k + 7)) by (unfold S0; lia). apply Bm. lia.
  - intros k r Hk. apply G3; [|done]. apply lookup_lt_Some in Hk. exact Hk.
  - intros a H1 H2. apply G4. unfold in_stack, S0 in H1. lia.
Qed.

(** ** Return *)

(** [j] saved registers are still on the stack of the frame of [w]. *)
Record leaving (v : Z) (w : cpu) (j : nat) (c : cpu) : Prop := {
  lv_sp : regs c Rsp = R - 8 * Z.of_nat j;
  lv_rax : regs c Rax = v;
  lv_regs : forall k r, (j <= k)%nat -> saved_regs !! k = Some r -> regs c r = regs c0 r;
  lv_words : words c = words w
}.

Lemma leaving_pop v w st ls j r c x :
  frame st ls w -> leaving v w (S j) c -> saved_regs !! j = Some r ->
  exists c', execute (IPop r) c x = Some c' /\ leaving v w j c'.
Proof.
  intros F [E1 E2 E3 E4] Hj. pose proof (lookup_lt_Some _ _ _ Hj) as Hlt. cbn in Hlt.
  destruct P as [(B1 & B2 & B3) _ _ _]. cbn [execute]. unfold load64. rewrite E1, E4.
  replace ((R - 8 * Z.of_nat (S j)) mod 8) with 0 by zlia. cbn [Z.eqb].
  replace (R - 8 * Z.of_nat (S j)) with (R - 8 * (Z.of_nat j + 1)) by lia. rewrite (fr_saved _ _ _ F j r Hj).
  eexists. split; [reflexivity|]. assert (r <> Rsp /\ r <> Rax) as [N1 N2].
  { do 6 (destruct j as [|j]; [by injection Hj as <-|]). lia. }
  split; cbn [regs words]; unfold set_reg; try done.
  - rewrite bool_decide_eq_false_2, bool_decide_eq_true_2 by done. unfold as_u64. rewrite Z.mod_small; lia.
  - by rewrite !bool_decide_eq_false_2 by done.
  - intros k q Hk Hq. destruct (decide (q = r)) as [->|Hne]; [by rewrite bool_decide_eq_true_2|].
    rewrite bool_decide_eq_false_2 by done.
    assert (q <> Rsp) as Nq by (by intros ->; do 6 (destruct k as [|k]; [done|])).
    rewrite bool_decide_eq_false_2 by done. apply (E3 k q); [|done]. destruct (decide (k = j)) as [->|]; [congruence|lia].
Qed.

(** What the caller finds. *)
Record returned (v ra : Z) (ls : list Z) (c : cpu) : Prop := {
  rt_rip : rip c = ra;
  rt_rax : regs c Rax = v;
  rt_rsp : regs c Rsp = R + 8;
  rt_regs : forall r, r ∈ saved_regs -> regs c r = regs c0 r;
  rt_locals : forall k w, ls !! k = Some w -> words c (L + 8 * Z.of_nat k) = Some w;
  rt_other : forall a, ~ in_stack a -> ~ in_locals a -> words c a = words c0 a
}.

(** The value of a body: the top of its stack, or 0 for a body without result. *)
Definition body_value (rc : Z) (st : list Z) : option Z := if rc =? 0 then Some 0 else hd_error st.

Lemma unwind_simulated v ra w st ls c ks :
  frame st ls w -> words c0 R = Some ra ->
  regs c Rsp = S0 -> regs c Rax = v -> words c = words w -> length ks = 8%nat ->
  exists c', execs (zip [IAluImm AAdd Rsp 8; IPop R15; IPop R14; IPop R13; IPop R12; IPop Rbx; IPop Rbp; IRet] ks) c = Some c' /\
    returned v ra ls c'.
Proof.
  intros F Hra Hsp Hax Hw Hk.
  destruct ks as [|k1 [|k2 [|k3 [|k4 [|k5 [|k6 [|k7 [|k8 []]]]]]]]]; try done. clear Hk. cbn [zip zip_with execs].
  assert (exists c1, execute (IAluImm AAdd Rsp 8) c (rip c + Z.of_nat k1) = Some c1 /\ leaving v w 6 c1) as (c1 & -> & E1).
  { cbn [execute]. eexists. split; [reflexivity|]. split; cbn [regs words]; unfold set_reg; try done.
    - rewrite bool_decide_eq_true_2 by done. unfold alu_fun. rewrite Hsp. unfold as_u64, S0.
      destruct P as [(B1 & B2 & B3) _ _ _]. rewrite (Z.mod_small 8) by lia. rewrite Z.mod_small; lia.
    - intros k r Hk Hr. apply lookup_lt_Some in Hr. cbn in Hr. lia. }
  destruct (leaving_pop v w st ls 5 R15 c1 (rip c1 + Z.of_nat k2) F E1 eq_refl) as (c2 & -> & E2).
  destruct (leaving_pop v w st ls 4 R14 c2 (rip c2 + Z.of_nat k3) F E2 eq_refl) as (c3 & -> & E3).
  destruct (leaving_pop v w st ls 3 R13 c3 (rip c3 + Z.of_nat k4) F E3 eq_refl) as (c4 & -> & E4).
  destruct (leaving_pop v w st ls 2 R12 c4 (rip c4 + Z.of_nat k5) F E4 eq_refl) as (c5 & -> & E5).
  destruct (leaving_pop v w st ls 1 Rbx c5 (rip c5 + Z.of_nat k6) F E5 eq_refl) as (c6 & -> & E6).
  destruct (leaving_pop v w st ls 0 Rbp c6 (rip c6 + Z.of_nat k7) F E6 eq_refl) as (c7 & -> & [G1 G2 G3 G4]).
  cbn [execute]. unfold load64. pose proof P as [(B1 & B2 & B3) (B4 & B5 & B6 & B7) Ba _].
  rewrite G1, G4, Z.sub_0_r, B1. cbn [Z.eqb].
  rewrite (fr_other _ _ _ F R), Hra by (unfold in_stack, in_locals, S0 in *; lia). eexists. split; [reflexivity|].
  split; cbn [regs words rip]; unfold set_reg; try done.
  - rewrite bool_decide_eq_true_2 by done. unfold as_u64. rewrite Z.mod_small; lia.
  - intros r Hr. apply list_elem_of_lookup in Hr as [k Hr].
    assert (r <> Rsp) as Nq by (by intros ->; do 6 (destruct k as [|k]; [done|])).
    rewrite bool_decide_eq_false_2 by done. by apply (G3 k); [lia|].
  - apply (fr_locals _ _ _ F).
  - apply (fr_other _ _ _ F).
Qed.

Lemma leave_simulated rc v ra st ls c ks :
  0 <= rc <= 1 -> frame st ls c -> body_value rc st = Some v -> words c0 R = Some ra ->
  length ks = length (leave_instrs rc) ->
  exists c', execs (zip (leave_instrs rc) ks) c = Some c' /\ returned v ra ls c'.
Proof.
  intros Hrc F Hv Hra Hk. unfold body_value in Hv. assert (rc = 0 \/ rc = 1) as [-> | ->] by lia; cbn [Z.eqb] in Hv.
  - injection Hv as <-. destruct ks as [|k1 [|k2 ks]]; try done.
    change (leave_instrs 0) with (IMov Rsp R12 :: IMovImm Rax 0 ::
      [IAluImm AAdd Rsp 8; IPop R15; IPop R14; IPop R13; IPop R12; IPop Rbx; IPop Rbp; IRet]) in *.
    cbn [zip zip_with execs]. rewrite movr_effect. cbn [rip]. rewrite mov_effect.
    apply (unwind_simulated 0 ra c st ls _ ks F Hra); cbn [regs words]; [|done|done|by injection Hk].
    unfold set_reg. rewrite bool_decide_eq_false_2, bool_decide_eq_true_2 by done. apply (fr_base _ _ _ F).
  - destruct st as [|v0 st]; [done|]. injection Hv as ->. destruct ks as [|k1 [|k2 ks]]; try done.
    change (leave_instrs 1) with (IPop Rax :: IMov Rsp R12 ::
      [IAluImm AAdd Rsp 8; IPop R15; IPop R14; IPop R13; IPop R12; IPop Rbx; IPop Rbp; IRet]) in *.
    cbn [zip zip_with execs].
    destruct (pop_frame_word v st ls c Rax (rip c + Z.of_nat k1) F) as (c1 & -> & F1 & Hr & Hq); [done..|].
    rewrite movr_effect.
    apply (unwind_simulated v ra c1 st ls _ ks F1 Hra); cbn [regs words]; [|done|done|by injection Hk].
    unfold set_reg. rewrite bool_decide_eq_true_2 by done. apply (fr_base _ _ _ F1).
Qed.

Lemma body_simulated ops rc v ra ls st' ls' ks :
  0 <= rc <= 1 -> regs c0 Rsp = R -> regs c0 Rdx = L -> length ls = n -> words c0 R = Some ra ->
  (forall k w, ls !! k = Some w -> words c0 (L + 8 * Z.of_nat k) = Some w) ->
  Forall op_indices ops -> (length ops <= D)%nat ->
  weval ops ([], ls) = Some (st', ls') -> body_value rc st' = Some v ->
  length ks = length (body_instrs ops rc) ->
  exists c', execs (zip (body_instrs ops rc) ks) c0 = Some c' /\ returned v ra ls' c'.
Proof.
  intros Hrc Hsp Hdx Hn Hra Hls Hi Hd E Hv Hk. unfold body_instrs in *. rewrite !length_app in Hk.
  rewrite <- (take_drop (length enter_instrs) ks), zip_with_app by (rewrite length_take; lia). rewrite execs_app.
  destruct (enter_simulated ls (take (length enter_instrs) ks)) as (c1 & -> & F1); [done..|rewrite length_take; lia|].
  set (ks1 := drop _ ks). assert (length ks1 = length (concat (map op_instrs ops)) + length (leave_instrs rc))%nat as Hk1
    by (unfold ks1; rewrite length_drop; lia). clearbody ks1.
  rewrite <- (take_drop (length (concat (map op_instrs ops))) ks1), zip_with_app by (rewrite length_take; lia). rewrite execs_app.
  destruct (ops_simulated ops [] ls st' ls' c1 (take (length (concat (map op_instrs ops))) ks1)) as (c2 & -> & F2);
    [done..|rewrite length_take; lia|].
  apply (leave_simulated rc v ra st' ls' c2); [done..|]. rewrite length_drop. lia.
Qed.
End frame.

(** ** From instructions to bytes *)

Lemma steps_execs base code stop pre bss post prog c c' fuel :
  code = pre ++ concat bss ++ post -> Forall2 means bss prog -> Forall (fun i => straight_instr i = true) prog ->
  rip c = base + Z.of_nat (length pre) -> ~ base <= stop < base + Z.of_nat (length code) ->
  execs (zip prog (map length bss)) c = Some c' ->
  steps (length prog + fuel) base code stop c = steps fuel base code stop c' /\
  rip c' = base + Z.of_nat (length pre + length (concat bss)).
Proof.
  intros -> Hm Hs. revert pre c. induction Hm as [|bs i bss prog [Hne Hdec] Hm IH]; intros pre c Hrip Hstop E.
  { injection E as <-. split; [done|]. rewrite Nat.add_0_r. done. }
  inversion Hs as [|? ? Hs1 Hs2]; subst. cbn [map zip zip_with execs] in E.
  destruct (execute i c _) as [c1|] eqn:E1; [|done]. pose proof (execute_next _ _ _ _ Hs1 E1) as Hr1.
  cbn [concat] in *. rewrite <- app_assoc in *.
  assert (0 < length bs)%nat as Hpos by (destruct bs; [done|cbn; lia]). rewrite !length_app in Hstop.
  cbn [length Nat.add steps]. rewrite (proj2 (Z.eqb_neq (rip c) stop)) by lia.
  unfold step at 1. rewrite Hrip.
  replace (base + Z.of_nat (length pre) - base) with (Z.of_nat (length pre)) by lia.
  rewrite (proj2 (Z.leb_le _ _)), (proj2 (Z.ltb_lt _ _)) by (rewrite ?length_app; lia). cbn [andb].
  rewrite Nat2Z.id, drop_app_length, Hdec. rewrite Hrip in E1. rewrite E1.
  replace (pre ++ bs ++ concat bss ++ post) with ((pre ++ bs) ++ concat bss ++ post) by by rewrite <- app_assoc.
  destruct (IH Hs2 (pre ++ bs) c1) as [IH1 IH2]; [rewrite length_app; lia|rewrite !length_app; lia|done|].
  split; [exact IH1|]. rewrite IH2, !length_app. lia.
Qed.
