(* ===== verification/JitNative.v ===== *)
(** * Calling native code

    The call of a compiled function as the processor carries it out: where the
    code, the stack and the buffer of the locals lie, the words the call may
    touch, and what the caller reads back. *)

From S2P Require Import Prelude Leb128 Opcode Jit X86 JitSpec JitSim.

(** ** The call *)

Lemma as_u64_back x : is_i64 x -> as_i64 (as_u64 x) = x.
Proof. unfold is_i64, as_i64, as_u64. intros H. rewrite Zplus_mod_idemp_l. zlia. Qed.

(** Where a call takes place: the code, the stack pointer behind the [call]
    instruction with the room below it, the buffer of the locals, the return
    address and the registers of the caller. *)
Record site := mkSite { code_at : Z; stack_at : Z; room : nat; locals_at : Z; return_to : Z; caller : Reg -> Z }.

(** The words of the call: the return address, the free stack below it and the
    locals. An access to any other word counts as a fault. *)
Definition call_words (p : site) (ls : list Z) (a : Z) : option Z :=
  let k := a - locals_at p in
  let j := stack_at p - a in
  if a =? stack_at p then Some (return_to p)
  else if (0 <? j) && (j <=? 8 * (Z.of_nat (room p) + 7)) && (j mod 8 =? 0) then Some 0
  else if (0 <=? k) && (k mod 8 =? 0) then as_u64 <$> ls !! Z.to_nat (k / 8)
  else None.

(** The registers of the System V convention: the stack pointer and the third
    argument, which is the buffer of the locals. *)
Definition call_cpu (p : site) (ls : list Z) : cpu :=
  mkCpu (set_reg Rsp (stack_at p) (set_reg Rdx (locals_at p) (caller p))) (code_at p) (call_words p ls).

Definition read_locals (p : site) (n : nat) (c : cpu) : list Z :=
  map (fun k => match words c (locals_at p + 8 * Z.of_nat k) with Some w => as_i64 w | None => 0 end) (seq 0 n).

(** Every instruction has a byte of its own, so the length of straight-line
    code bounds its steps. *)
Definition run_native (p : site) (f : list Z) (ls : list Z) : option (Z * list Z) :=
  match steps (length f) (code_at p) f (return_to p) (call_cpu p ls) with
  | Some c => Some (as_i64 (regs c Rax), read_locals p (length ls) c)
  | None => None
  end.

Record site_ok (p : site) (n code_len : nat) : Prop := {
  so_stack : stack_at p mod 8 = 0 /\ 8 * Z.of_nat (room p) + 56 <= stack_at p /\ stack_at p + 8 < 18446744073709551616;
  so_locals : locals_at p mod 8 = 0 /\ 0 <= locals_at p /\ locals_at p + 8 * Z.of_nat n <= 18446744073709551616 /\ Z.of_nat n <= 1048576;
  so_apart : locals_at p + 8 * Z.of_nat n <= stack_at p - 56 - 8 * Z.of_nat (room p) \/ stack_at p + 8 <= locals_at p;
  so_return : ~ code_at p <= return_to p < code_at p + Z.of_nat code_len
}.

Lemma call_words_stack p ls k : 0 < k <= Z.of_nat (room p) + 7 -> is_Some (call_words p ls (stack_at p - 8 * k)).
Proof.
  intros Hk. unfold call_words. cbn zeta. replace (stack_at p - (stack_at p - 8 * k)) with (8 * k) by lia.
  rewrite (proj2 (Z.eqb_neq _ _)), (proj2 (Z.ltb_lt _ _)), (proj2 (Z.leb_le _ _)), (Z.mul_comm 8 k), Z.mod_mul by lia.
  by eexists.
Qed.

Lemma call_words_locals p n len ls k v :
  site_ok p n len -> length ls = n -> ls !! k = Some v -> call_words p ls (locals_at p + 8 * Z.of_nat k) = Some (as_u64 v).
Proof.
  intros [_ HL Ha _] Hn Hv. pose proof (lookup_lt_Some _ _ _ Hv) as Hlt. unfold call_words. cbn zeta.
  replace (locals_at p + 8 * Z.of_nat k - locals_at p) with (8 * Z.of_nat k) by lia.
  rewrite (proj2 (Z.eqb_neq _ _)) by lia.
  replace ((0 <? stack_at p - (locals_at p + 8 * Z.of_nat k)) &&
    (stack_at p - (locals_at p + 8 * Z.of_nat k) <=? 8 * (Z.of_nat (room p) + 7))) with false.
  2:{ symmetry. rewrite andb_false_iff, Z.ltb_ge, Z.leb_gt. lia. }
  cbn [andb]. rewrite (proj2 (Z.leb_le _ _)), (Z.mul_comm 8), Z.mod_mul, Z.div_mul, Nat2Z.id, Hv by lia. done.
Qed.

Lemma call_placed p n len ls : site_ok p n len -> length ls = n ->
  placed (stack_at p) (locals_at p) n (room p) (call_cpu p ls).
Proof. intros [H1 H2 H3 H4] Hn. split; [done..|]. intros k Hk. by apply call_words_stack. Qed.

(** ** Running straight-line code to its return *)

Lemma code_returns base bss prog stop c c' fuel :
  Forall2 means bss (prog ++ [IRet]) -> Forall (fun i => straight_instr i = true) prog ->
  rip c = base -> ~ base <= stop < base + Z.of_nat (length (concat bss)) ->
  execs (zip (prog ++ [IRet]) (map length bss)) c = Some c' -> rip c' = stop ->
  steps (S (length prog) + fuel) base (concat bss) stop c = Some c'.
Proof.
  intros Hm Hs Hr Hstop E Hr'.
  destruct (Forall2_app_inv_r _ _ Hm) as (bss1 & bss2 & H1 & H2 & ->).
  assert (exists bs, bss2 = [bs] /\ means bs IRet) as (bs & -> & Hne & Hd).
  { inversion H2 as [|bs ? bss3 ? Hb H3]. inversion H3. by exists bs. }
  rewrite map_app, zip_with_app in E by (rewrite length_map; symmetry; by eapply Forall2_length).
  rewrite execs_app in E. destruct (execs _ c) as [c1|] eqn:E1; [|done].
  rewrite concat_app in *. cbn [concat] in *. rewrite app_nil_r in *. rewrite length_app in Hstop.
  assert (0 < length bs)%nat by (destruct bs; [done|cbn; lia]).
  replace (S (length prog) + fuel)%nat with (length prog + S fuel)%nat by lia.
  destruct (steps_execs base (concat bss1 ++ bs) stop [] bss1 bs prog c c1 (S fuel)) as [-> Hr1]; try done.
  { cbn. lia. } { rewrite length_app. lia. }
  cbn [map zip_with execs] in E. cbn [steps]. cbn [length Nat.add] in Hr1. rewrite (proj2 (Z.eqb_neq _ _)) by lia.
  unfold step. rewrite Hr1. replace (base + Z.of_nat (length (concat bss1)) - base) with (Z.of_nat (length (concat bss1))) by lia.
  rewrite (proj2 (Z.leb_le _ _)), (proj2 (Z.ltb_lt _ _)) by (rewrite ?length_app; lia). cbn [andb].
  rewrite Nat2Z.id, drop_app_length, <- (app_nil_r bs), Hd. rewrite Hr1 in E. destruct (execute IRet c1 _) as [c2|]; [|done].
  injection E as ->. destruct fuel; cbn [steps]; by rewrite Hr', Z.eqb_refl.
Qed.

Lemma op_instrs_straight op : Forall (fun i => straight_instr i = true) (op_instrs op).
Proof. destruct op as [| | | |[]| |]; repeat constructor. Qed.

Definition leave_prefix (rc : Z) : list instr :=
  (if 0 <? rc then [IPop Rax] else []) ++ [IMov Rsp R12] ++ (if rc =? 0 then [IMovImm Rax 0] else []) ++
  [IAluImm AAdd Rsp 8; IPop R15; IPop R14; IPop R13; IPop R12; IPop Rbx; IPop Rbp].

Lemma body_instrs_ret ops rc : exists prog,
  body_instrs ops rc = prog ++ [IRet] /\ Forall (fun i => straight_instr i = true) prog.
Proof.
  exists (enter_instrs ++ concat (map op_instrs ops) ++ leave_prefix rc). split.
  { unfold body_instrs, leave_instrs, leave_prefix. rewrite <- !app_assoc. by destruct (0 <? rc), (rc =? 0). }
  apply Forall_app. split; [repeat constructor|]. apply Forall_app. split.
  - induction ops as [|op ops IH]; [constructor|]. cbn. apply Forall_app. split; [apply op_instrs_straight|done].
  - unfold leave_prefix. destruct (0 <? rc), (rc =? 0); repeat constructor.
Qed.

Lemma means_lengths bss prog : Forall2 means bss prog -> (length prog <= length (concat bss))%nat.
Proof.
  induction 1 as [|bs i bss prog [Hne _] _ IH]; [done|]. cbn. rewrite length_app.
  assert (0 < length bs)%nat by (destruct bs; [done|cbn; lia]). lia.
Qed.

(** ** The code of a body *)

(** The bytes the kernel keeps for a body that was compiled into a buffer it
    did not fill. *)
Definition compiled (bd : list Z) (rc : Z) (f : list Z) : Prop :=
  exists c', jit_compile_body bd rc (new_codebuf (replicate 4096 0)) = (true, c') /\
    (cb_len c' < 4096)%nat /\ f = take (cb_len c') (cb_buf c').

Lemma compiled_code bd rc f : 0 <= rc -> compiled bd rc f ->
  rc <= 1 /\ exists ops bss, straight bd 0 ops /\ f = concat bss /\ Forall2 means bss (body_instrs ops rc).
Proof.
  intros Hrc (c' & E & Hl & ->). destruct (jit_compile_body_straight _ _ _ _ Hrc E) as (H1 & ops & e & Hs & (bss & He & Hm) & ->).
  split; [done|]. exists ops, bss. split; [done|]. split; [|done]. rewrite He in *.
  destruct (emit_bytes_into (concat bss) (new_codebuf (replicate 4096 0))) as (_ & Hcur & Ht); [cbn; lia|].
  unfold cb_len in *. rewrite Ht. cbn [new_codebuf cursor cb_buf] in *. rewrite length_replicate in *. rewrite take_0. cbn [app].
  apply take_ge. lia.
Qed.

(** The call returns the value of the body and its locals. *)
Lemma run_native_simulates p bd rc f ops ls st' ls' v :
  0 <= rc -> compiled bd rc f -> straight bd 0 ops -> (forall ops', straight bd 0 ops' -> ops' = ops) -> Forall op_indices ops ->
  site_ok p (length ls) (length f) -> (length ops <= room p)%nat ->
  weval ops ([], map as_u64 ls) = Some (st', map as_u64 ls') -> length ls' = length ls -> Forall is_i64 ls' ->
  body_value rc st' = Some (as_u64 v) -> is_i64 v ->
  run_native p f ls = Some (v, ls').
Proof.
  intros Hrc Hc Hs Hu Hi Hp Hroom E Hlen Hls' Hv Hv64.
  destruct (compiled_code _ _ _ Hrc Hc) as (Hrc1 & ops' & bss & Hs' & -> & Hm). rewrite (Hu _ Hs') in Hm. clear ops' Hs'.
  destruct (body_simulated (stack_at p) (locals_at p) (length ls) (room p) (call_cpu p ls)) with
    (ops := ops) (rc := rc) (v := as_u64 v) (ra := return_to p) (ls := map as_u64 ls) (st' := st') (ls' := map as_u64 ls')
    (ks := map length bss) as (c' & Ee & Hret); try done.
  { by eapply call_placed. } { by rewrite length_map. } { cbn. unfold call_words. by rewrite Z.eqb_refl. }
  { intros k w. rewrite list_lookup_fmap. intros (x & Hx & ->)%fmap_Some. by eapply call_words_locals. }
  { rewrite length_map. by eapply Forall2_length. }
  destruct (body_instrs_ret ops rc) as (prog & Hprog & Hst). rewrite Hprog in *.
  pose proof (means_lengths _ _ Hm) as Hlen2. rewrite length_app in Hlen2. cbn [length] in Hlen2.
  unfold run_native. replace (length (concat bss)) with (S (length prog) + (length (concat bss) - S (length prog)))%nat at 1 by lia.
  rewrite (code_returns _ _ _ _ _ c' _ Hm Hst); [|done|apply Hp|done|apply Hret].
  f_equal. f_equal; [rewrite (rt_rax _ _ _ _ _ _ _ _ _ Hret); by apply (as_u64_back v)|].
  unfold read_locals. apply list_eq. intros k. rewrite list_lookup_fmap.
  destruct (decide (k < length ls)%nat) as [Hk|Hk].
  - destruct (lookup_lt_is_Some_2 ls' k) as [x Hx]; [lia|]. rewrite lookup_seq_lt by done. cbn -[Z.mul].
    rewrite Hx. rewrite (rt_locals _ _ _ _ _ _ _ _ _ Hret k (as_u64 x)) by (by rewrite list_lookup_fmap, Hx). f_equal.
    apply as_u64_back. by eapply (Forall_lookup_1 is_i64 ls').
  - rewrite lookup_seq_ge by lia. cbn. symmetry. apply lookup_ge_None_2. lia.
Qed.

(** ** Disassembly *)

Fixpoint disassemble_from (fuel : nat) (code : list Z) : option (list instr) :=
  match fuel, code with
  | _, [] => Some []
  | O, _ => None
  | S fuel', _ =>
    match decode code with
    | Some (i, n) => cons i <$> disassemble_from fuel' (drop n code)
    | None => None
    end
  end.

Definition disassemble (code : list Z) : option (list instr) := disassemble_from (length code) code.

Lemma disassemble_means bss prog fuel :
  Forall2 means bss prog -> (length (concat bss) <= fuel)%nat -> disassemble_from fuel (concat bss) = Some prog.
Proof.
  intros H. revert fuel. induction H as [|bs i bss prog [Hne Hd] Hm IH]; intros fuel Hf; [by destruct fuel|].
  cbn [concat] in *. rewrite length_app in Hf. assert (0 < length bs)%nat by (destruct bs; [done|cbn; lia]).
  destruct fuel as [|fuel]; [lia|]. cbn [disassemble_from]. rewrite Hd, drop_app_length, IH by lia. by destruct bs.
Qed.

(** ** The code pool *)

Lemma jit_alloc_spec len fill a fill' :
  0 <= fill -> 0 <= len -> jit_alloc len fill = Some (a, fill') ->
  fill <= a <= fill + 15 /\ a mod 16 = 0 /\ fill' = a + len /\ fill' <= JIT_BUF_SIZE.
Proof.
  intros Hf Hl. unfold jit_alloc. cbn zeta. change (Z.lnot 15) with (-16).
  assert (Z.land (fill + 15) (-16) = fill + 15 - (fill + 15) mod 16) as ->.
  { change (-16) with (Z.lnot (Z.ones 4)). rewrite <- Z.ldiff_land, Z.ldiff_ones_r by lia.
    rewrite Z.shiftl_mul_pow2, Z.shiftr_div_pow2 by lia. change (2 ^ 4) with 16. pose proof (Z.div_mod (fill + 15) 16). lia. }
  destruct (_ <? _) eqn:E; [done|]. zbool. intros [= <- <-].
  pose proof (Z.mod_pos_bound (fill + 15) 16). split; [lia|]. split; [|lia]. zlia.
Qed.

(** Functions allocated one after the other. *)
Fixpoint jit_allocs (lens : list Z) (fill : Z) : option (list (Z * Z) * Z) :=
  match lens with
  | [] => Some ([], fill)
  | n :: lens' =>
    match jit_alloc n fill with
    | None => None
    | Some (a, fill') => match jit_allocs lens' fill' with Some (r, f) => Some ((a, n) :: r, f) | None => None end
    end
  end.

Lemma jit_allocs_spec lens fill r f :
  0 <= fill -> Forall (Z.le 0) lens -> jit_allocs lens fill = Some (r, f) ->
  fill <= f /\ Forall (fun x => fill <= x.1 /\ x.1 + x.2 <= f /\ x.1 + x.2 <= JIT_BUF_SIZE /\ x.1 mod 16 = 0) r /\
  (forall i j x y, (i < j)%nat -> r !! i = Some x -> r !! j = Some y -> x.1 + x.2 <= y.1).
Proof.
  intros Hf Hl. revert fill r Hf. induction Hl as [|n lens Hn Hl IH]; intros fill r Hf; cbn [jit_allocs].
  { intros [= <- <-]. split; [lia|]. split; [done|]. by intros i j x y _ Hx. }
  destruct (jit_alloc n fill) as [[a fill']|] eqn:Ea; [|done]. destruct (jit_allocs lens fill') as [[r' f']|] eqn:Er; [|done].
  intros [= <- <-]. destruct (jit_alloc_spec _ _ _ _ Hf Hn Ea) as (H1 & H2 & -> & H3).
  destruct (IH (a + n) r') as (H4 & H5 & H6); [lia|done|]. split; [lia|]. split.
  - constructor; [cbn; lia|]. eapply Forall_impl; [|exact H5]. cbn beta. intros x Hx. lia.
  - intros [|i] [|j] x y Hij Hx Hy; [lia| |lia|].
    + injection Hx as <-. apply (Forall_lookup_1 _ _ _ _ H5 Hy).
    + apply (H6 i j); [lia|done..].
Qed.
