(* ===== verification/JitAgree.v ===== *)
(** * Native code and interpreter agree

    The exact evaluation of a straight-line body: 32-bit operations whose
    result needs no wrap-around. Where it is defined, the native code and the
    dispatch loop both compute it. *)

From S2P Require Import Jit X86 JitSpec JitSim JitNative Prelude Leb128 Opcode.
From S2P Require Import IntOps FloatOps Jump Sections World Machine Dispatch Safety.
From S2P Require Import Specs.

(** ** Exact evaluation *)

Definition fits32 (x : Z) : bool := (-2147483648 <=? x) && (x <? 2147483648).

Definition exact (b : sbin) (x y : Z) : option Z :=
  let v := match b with
           | BAdd => x + y | BSub => x - y | BMul => x * y
           | BAnd => Z.land x y | BOr => Z.lor x y | BXor => Z.lxor x y
           | BShl => Z.shiftl x y | BShrU => Z.shiftr x y | BShrS => Z.shiftr x y
           end in
  let shift_ok := (0 <=? y) && (y <? 32) in
  let ok := match b with
            | BShl | BShrS => shift_ok | BShrU => shift_ok && (0 <=? x) | _ => true end in
  if fits32 x && fits32 y && fits32 v && ok then Some v else None.

Definition seval : list sop -> evs -> option evs := eval_ops exact (fun v => v).

Lemma fits32_true x : fits32 x = true <-> is_i32 x.
Proof. unfold fits32, is_i32. rewrite andb_true_iff, Z.leb_le, Z.ltb_lt. done. Qed.


(** Bitwise operations do not look at the wrap-around. *)
Lemma as_u64_land x y : Z.land (as_u64 x) (as_u64 y) = as_u64 (Z.land x y).
Proof. unfold as_u64. change 18446744073709551616 with (2 ^ 64). rewrite <- !Z.land_ones by lia. apply Z.bits_inj'. intros k Hk. rewrite !Z.land_spec. by destruct (Z.testbit x k), (Z.testbit y k), (Z.testbit (Z.ones 64) k). Qed.
Lemma as_u64_lor x y : as_u64 (Z.lor (as_u64 x) (as_u64 y)) = as_u64 (Z.lor x y).
Proof. unfold as_u64. change 18446744073709551616 with (2 ^ 64). rewrite <- !Z.land_ones by lia. apply Z.bits_inj'. intros k Hk. rewrite !Z.land_spec, !Z.lor_spec, !Z.land_spec. by destruct (Z.testbit x k), (Z.testbit y k), (Z.testbit (Z.ones 64) k). Qed.
Lemma as_u64_lxor x y : as_u64 (Z.lxor (as_u64 x) (as_u64 y)) = as_u64 (Z.lxor x y).
Proof. unfold as_u64. change 18446744073709551616 with (2 ^ 64). rewrite <- !Z.land_ones by lia. apply Z.bits_inj'. intros k Hk. rewrite !Z.land_spec, !Z.lxor_spec, !Z.land_spec. by destruct (Z.testbit x k), (Z.testbit y k), (Z.testbit (Z.ones 64) k). Qed.
Lemma as_u64_idem x : as_u64 (as_u64 x) = as_u64 x.
Proof. unfold as_u64. by rewrite Z.mod_mod. Qed.

Lemma shift_count y : 0 <= y < 32 -> Z.land (as_u64 y) 63 = y /\ Z.land (as_u32 y) 31 = y.
Proof.
  intros Hy. unfold as_u64, as_u32. rewrite !Z.mod_small by lia.
  change 63 with (Z.ones 6). change 31 with (Z.ones 5). rewrite !Z.land_ones by lia. split; apply Z.mod_small; lia.
Qed.

(** The processor's operations on exact operands. *)
Lemma wbin_exact b x y v : exact b x y = Some v -> wbin b (as_u64 x) (as_u64 y) = as_u64 v.
Proof.
  unfold exact. cbn zeta. destruct (_ && _) eqn:E; [|done]. intros [= <-]. zbool.
  apply fits32_true in H, H1, H2. assert (is_i64 x /\ is_i64 y) as [Ix Iy] by (split; by apply i32_is_i64).
  assert (0 <= y < 32 -> Z.land (as_u64 y) 63 = y) as Hc by (intros Hy; by apply shift_count).
  destruct b; cbn [wbin alu_fun shift_fun]; unfold alu_fun; zbool.
  - unfold as_u64. by rewrite <- Zplus_mod.
  - unfold as_u64. by rewrite <- Zminus_mod.
  - by rewrite !as_u64_back.
  - by rewrite as_u64_land, as_u64_idem.
  - apply as_u64_lor.
  - apply as_u64_lxor.
  - unfold shift_fun. rewrite Hc by lia. rewrite !Z.shiftl_mul_pow2 by lia. unfold as_u64.
    by rewrite Zmult_mod_idemp_l.
  - unfold shift_fun. rewrite Hc by lia. unfold as_u64.
    unfold is_i32 in *. rewrite (Z.mod_small x) by lia. rewrite Z.mod_small; [done|].
    rewrite Z.shiftr_div_pow2 by lia. pose proof (Z.pow_pos_nonneg 2 y). split; [apply Z.div_pos; lia|].
    apply (Z.le_lt_trans _ x); [|lia]. apply Z.div_le_upper_bound; nia.
  - unfold shift_fun. by rewrite Hc, as_u64_back by (lia || done).
Qed.

Lemma seval_op_words op st ls st' ls' :
  eval_op exact (fun v => v) op (st, ls) = Some (st', ls') ->
  eval_op (fun b x y => Some (wbin b x y)) as_u64 op (map as_u64 st, map as_u64 ls) = Some (map as_u64 st', map as_u64 ls').
Proof.
  destruct op; cbn [eval_op]; intros E.
  - by injection E as <- <-.
  - destruct (ls !! _) as [v|] eqn:Ev; [|done]. injection E as <- <-. by rewrite list_lookup_fmap, Ev.
  - destruct st; [done|]. cbn [map]. rewrite length_map. destruct (_ <? _)%nat; [|done]. injection E as <- <-.
    by rewrite list_fmap_insert.
  - destruct st; [done|]. cbn [map]. rewrite length_map. destruct (_ <? _)%nat; [|done]. injection E as <- <-.
    by rewrite list_fmap_insert.
  - destruct st as [|y [|x st]]; [done..|]. cbn [map]. destruct (exact b x y) as [v|] eqn:Ev; [|done].
    injection E as <- <-. by rewrite (wbin_exact b x y v).
  - destruct st; [done|]. by injection E as <- <-.
  - by injection E as <- <-.
Qed.

Lemma seval_words ops st ls st' ls' :
  seval ops (st, ls) = Some (st', ls') ->
  weval ops (map as_u64 st, map as_u64 ls) = Some (map as_u64 st', map as_u64 ls').
Proof.
  revert st ls. unfold seval, weval. induction ops as [|op ops IH]; intros st ls; cbn [eval_ops].
  { intros [= <- <-]. done. }
  destruct (eval_op _ _ op (st, ls)) as [[st1 ls1]|] eqn:E; [|done]. intros E2.
  rewrite (seval_op_words _ _ _ _ _ E). by apply IH.
Qed.

Lemma eval_op_locals bin conv op st ls st' ls' :
  eval_op bin conv op (st, ls) = Some (st', ls') -> length ls' = length ls.
Proof. destruct op; cbn; intros E; repeat case_match; simplify_eq; by rewrite ?length_insert. Qed.

(** ** The dispatch loop on straight-line code *)

Section interp.
Context `{FE : FloatEnv} `{FT : Features}.
(** The interpreter below the running frame: the caller's state, the depth,
    the body and the fields of the frame that do not change. *)
Context (i0 : Interpreter) (am : Z) (l0 : list event) (d bi lc cb vb : nat) (rc : Z) (bd tl : list Z).

Definition the_frame (ip : nat) (ls : list Z) : Frame := mkFrame bi ip (ls ++ tl) lc cb vb rc.

(** The state while the frame runs. *)
Definition running (ip : nat) (ls vs : list Z) (n : nat) (w : World) : St :=
  mkSt (set_frames (<[d := the_frame ip ls]> (frames i0)) (S d) (set_vstack vs n i0)) w am.

(** The operands lie above the caller's values. *)
Record operands (st vs : list Z) : Prop := {
  od_len : length vs = STACK_DEPTH;
  od_at : forall k v, rev st !! k = Some v -> vs !! (vb + k)%nat = Some v;
  od_below : take vb vs = take vb (vstack i0)
}.

Record base : Prop := {
  bs_quiet : yield_requested i0 = false;
  bs_depth : (d < length (frames i0))%nat;
  bs_body : bodies (code i0) !! bi = Some bd;
  bs_ctrl : ctrl_depth i0 = cb
}.
Hypothesis HB : base.

Lemma operands_top v st vs : operands (v :: st) vs -> vs !! (vb + length st)%nat = Some v.
Proof.
  intros [_ H _]. apply H. cbn [rev]. rewrite lookup_app_r, length_rev, Nat.sub_diag by (rewrite length_rev; lia). done.
Qed.

Lemma operands_pop v st vs : operands (v :: st) vs -> operands st vs.
Proof. intros [H1 H2 H3]. split; [done| |done]. intros k w Hk. apply H2. cbn [rev]. by apply lookup_app_l_Some. Qed.

Lemma operands_push v st vs :
  operands st vs -> (vb + length st < STACK_DEPTH)%nat -> operands (v :: st) (<[(vb + length st)%nat := v]> vs).
Proof.
  intros [H1 H2 H3] Hlt. split; [by rewrite length_insert| |].
  - intros k w. cbn [rev]. intros [Hk|[Hk Hw]]%lookup_app_Some.
    + pose proof (lookup_lt_Some _ _ _ Hk) as Hl. rewrite length_rev in Hl. rewrite list_lookup_insert_ne by lia. by apply H2.
    + rewrite length_rev in *. destruct (k - length st)%nat eqn:Ek; [|done]. injection Hw as <-.
      replace k with (length st) by lia. apply list_lookup_insert_eq. lia.
  - by rewrite take_insert_ge by lia.
Qed.

Lemma running_push v ip ls vs n w :
  (n < STACK_DEPTH)%nat -> v_push v (running ip ls vs n w) = (Ok tt, running ip ls (<[n := v]> vs) (S n) w).
Proof. intros Hn. rewrite v_push_spec by exact Hn. reflexivity. Qed.

Lemma running_pop v ip ls vs n w :
  vs !! n = Some v -> v_pop (running ip ls vs (S n) w) = (Ok v, running ip ls vs n w).
Proof. intros Hv. rewrite (v_pop_spec _ n v) by done. reflexivity. Qed.

Lemma running_pc p ip ls vs n w :
  set_frame_pc d p (running ip ls vs n w) = (Ok tt, running p ls vs n w).
Proof.
  unfold set_frame_pc, bind, get, gets, index, lift, on_it, modify. cbn [running it set_frames frames].
  rewrite list_lookup_insert_eq by apply HB. cbn [or_panic the_frame body_idx locals local_count ctrl_base vsp_base result_count].
  unfold running. cbn [set_frames frames fdepth]. by rewrite list_insert_insert_eq.
Qed.

Lemma running_local i v ip ls vs n w :
  (i < length ls)%nat ->
  set_frame_local d i v (running ip ls vs n w) = (Ok tt, running ip (<[i := v]> ls) vs n w).
Proof.
  intros Hi. unfold set_frame_local, bind, get, gets, index, lift, on_it, modify. cbn [running it set_frames frames].
  rewrite list_lookup_insert_eq by apply HB. cbn [or_panic the_frame body_idx locals local_count ctrl_base vsp_base result_count pc].
  unfold running. cbn [set_frames frames fdepth]. rewrite list_insert_insert_eq, insert_app_l by done. done.
Qed.

(** The counter of executed opcodes. *)
Definition counted (w : World) : World := set_counters (as_u64 (OPCODE_COUNT w + 1)) (FUNC_CALL_COUNT w) w.

(** The arm of an opcode, run from the frame: one iteration. *)
Lemma iteration_arm r op ip ls vs n w p ls' vs' n' :
  bd !! ip = Some op ->
  exec_op r op (mkCtx d bi bd (ip + 1)) (running ip ls vs n (counted w)) = (Ok (Next p), running ip ls' vs' n' (counted w)) ->
  iteration r (running ip ls vs n w) = (Ok tt, running p ls' vs' n' (counted w)).
Proof.
  intros Hop E. unfold iteration. set (s := running ip ls vs n w) in *.
  assert (yield_requested (it s) = false) as Hy by apply HB.
  assert (frames (it s) !! (fdepth (it s) - 1)%nat = Some (the_frame ip ls)) as Hf.
  { cbn [s running it set_frames frames fdepth]. rewrite Nat.sub_succ, Nat.sub_0_r. apply list_lookup_insert_eq, HB. }
  assert (bodies (code (it s)) !! body_idx (the_frame ip ls) = Some bd) as Hb by apply HB.
  unfold bind at 1, get at 1, gets at 1. cbn beta iota. rewrite Hy.
  unfold bind at 1, index at 1, lift at 1. rewrite Hf. cbn [or_panic].
  unfold bind at 1, index at 1, lift at 1. rewrite Hb. cbn [or_panic]. cbn [the_frame pc body_idx]. rewrite Hop.
  unfold bind at 1. change (on_world _ s) with (Ok (E := InterpError) tt, running ip ls vs n (counted w)). cbn beta iota.
  replace (fdepth (it s) - 1)%nat with d by (cbn; lia).
  unfold bind at 1. rewrite E. apply running_pc.
Qed.

Lemma operand_at {A} (rd : list Z -> option (A * nat)) ip op v sz :
  bd !! ip = Some op -> rd (drop (ip + 1) bd) = Some (v, sz) ->
  (let? rest := slice_from bd (ip + 1) in ok_or (rd rest) MalformedCode) = Ok (v, sz).
Proof.
  intros Hop Hr. apply lookup_lt_Some in Hop. unfold slice_from. rewrite (proj2 (Nat.leb_le _ _)) by lia. cbn [rbind].
  by rewrite Hr.
Qed.

(** The computation of an arithmetic arm on exact operands. *)
Lemma exact_computed b x y v :
  exact b x y = Some v ->
  exists f, (forall r c, exec_op r (sbin_code b) c = exec_bin f (c_pc c)) /\ f x y = Ok v.
Proof.
  unfold exact. cbn zeta. destruct (_ && _) eqn:E; [|done]. intros [= <-]. zbool. apply fits32_true in H, H1, H2.
  assert (0 <= y < 32 -> Z.land (as_u32 y) 31 = y) as Hc by (intros Hy; by apply shift_count).
  destruct b; zbool; (eexists; split; [intros r c; reflexivity|]); cbn beta; rewrite ?(as_i32_id x), ?(as_i32_id y) by done;
    rewrite ?Hc by lia; rewrite ?as_i32_id by done; try done.
  unfold as_u32. unfold is_i32 in *. by rewrite Z.mod_small by lia.
Qed.

Lemma local_index_spec ip op ls vs n w i sz :
  bd !! ip = Some op -> read_u32_leb128 (drop (ip + 1) bd) = Some (i, sz) ->
  0 <= i -> (Z.to_nat i < length ls)%nat -> (length ls <= lc)%nat ->
  local_index (mkCtx d bi bd (ip + 1)) (running ip ls vs n w) =
    (Ok (the_frame ip ls, Z.to_nat i, ip + 1 + sz)%nat, running ip ls vs n w).
Proof.
  intros Hop Hr Hi Hl Hlc. unfold local_index. unfold bind at 1, lift at 1. cbn [body c_pc].
  rewrite (operand_at read_u32_leb128 ip op i sz Hop Hr : read_u32_at bd (ip + 1) = _).
  unfold bind at 1. unfold bind at 1, get at 1, gets at 1, index, lift. cbn [Dispatch.fi].
  replace (frames (it (running ip ls vs n w)) !! d) with (Some (the_frame ip ls))
    by (symmetry; apply list_lookup_insert_eq, HB).
  cbn [or_panic the_frame local_count]. rewrite (proj2 (Z.leb_gt _ _)) by lia. done.
Qed.

Lemma the_frame_local ip ls i v : ls !! i = Some v -> locals (the_frame ip ls) !! i = Some v.
Proof. intros Hv. cbn. by apply lookup_app_l_Some. Qed.

Lemma op_iterates r op ip ip' st ls st' ls' vs w :
  op_at bd ip op ip' -> op_indices op -> eval_op exact (fun v => v) op (st, ls) = Some (st', ls') ->
  operands st vs -> (vb + length st < STACK_DEPTH)%nat -> (length ls <= lc)%nat ->
  exists vs', iteration r (running ip ls vs (vb + length st) w) = (Ok tt, running ip' ls' vs' (vb + length st') (counted w)) /\
    operands st' vs'.
Proof.
  intros Hop Hi E Ho Hroom Hlc.
  destruct Hop as [v sz Hb Hr|v sz Hb Hr|i sz Hb Hr|i sz Hb Hr|i sz Hb Hr|b Hb|Hb|Hb]; cbn [eval_op op_indices] in E, Hi.
  - injection E as <- <-. eexists. split; [|by apply (operands_push v)]. eapply iteration_arm; [exact Hb|].
    change (exec_op r OP_I32_CONST) with (exec_const read_i32_at). unfold exec_const.
    unfold bind at 1, lift at 1. cbn [body c_pc]. rewrite (operand_at read_i32_leb128 ip _ v sz Hb Hr : read_i32_at bd (ip + 1) = _).
    unfold bind at 1. rewrite running_push by done. unfold ret. cbn [length c_pc]. by rewrite (Nat.add_succ_r vb).
  - injection E as <- <-. eexists. split; [|by apply (operands_push v)]. eapply iteration_arm; [exact Hb|].
    change (exec_op r OP_I64_CONST) with (exec_const read_i64_at). unfold exec_const.
    unfold bind at 1, lift at 1. cbn [body c_pc]. rewrite (operand_at read_i64_leb128 ip _ v sz Hb Hr : read_i64_at bd (ip + 1) = _).
    unfold bind at 1. rewrite running_push by done. unfold ret. cbn [length c_pc]. by rewrite (Nat.add_succ_r vb).
  - destruct (ls !! Z.to_nat i) as [v|] eqn:Ev; [|done]. injection E as <- <-. pose proof (lookup_lt_Some _ _ _ Ev) as Hlt.
    eexists. split; [|by apply (operands_push v)]. eapply iteration_arm; [exact Hb|].
    change (exec_op r OP_LOCAL_GET) with exec_local_get. unfold exec_local_get. unfold bind at 1.
    rewrite (local_index_spec ip _ ls vs _ _ i sz Hb Hr) by done. unfold bind at 1, index, lift.
    rewrite (the_frame_local ip ls _ v Ev). cbn [or_panic]. unfold bind at 1. rewrite running_push by done.
    unfold ret. cbn [length c_pc]. by rewrite (Nat.add_succ_r vb).
  - destruct st as [|v st]; [done|]. destruct (_ <? _)%nat eqn:El; [|done]. zbool. injection E as <- <-.
    exists vs. split; [|by eapply operands_pop]. eapply iteration_arm; [exact Hb|].
    change (exec_op r OP_LOCAL_SET) with exec_local_set. unfold exec_local_set. unfold bind at 1.
    rewrite (local_index_spec ip _ ls vs _ _ i sz Hb Hr) by done. unfold bind at 1. cbn [length]. rewrite (Nat.add_succ_r vb).
    rewrite (running_pop v) by (by apply operands_top). unfold bind at 1. cbn [Dispatch.fi]. by rewrite running_local by done.
  - destruct st as [|v st]; [done|]. destruct (_ <? _)%nat eqn:El; [|done]. zbool. injection E as <- <-.
    exists vs. split; [|done]. eapply iteration_arm; [exact Hb|].
    change (exec_op r OP_LOCAL_TEE) with exec_local_tee. unfold exec_local_tee. unfold bind at 1.
    rewrite (local_index_spec ip _ ls vs _ _ i sz Hb Hr) by done. unfold bind at 1, get at 1, gets at 1.
    cbn [length]. rewrite (Nat.add_succ_r vb).
    replace (vsp (it (running ip ls vs (S (vb + length st)) (counted w)))) with (S (vb + length st)) by done. cbn [Nat.eqb].
    rewrite Nat.sub_succ, Nat.sub_0_r. unfold bind at 1. unfold bind at 1, get at 1, gets at 1, index, lift.
    replace (vstack (it (running ip ls vs (S (vb + length st)) (counted w)))) with vs by done.
    rewrite (operands_top v st vs Ho). cbn [or_panic]. unfold bind at 1. cbn [Dispatch.fi]. by rewrite running_local by done.
  - destruct st as [|y [|x st]]; [done..|]. destruct (exact b x y) as [v|] eqn:Ev; [|done]. injection E as <- <-.
    destruct (exact_computed b x y v Ev) as (f & Hf & Hfv). pose proof (operands_pop _ _ _ Ho) as Ho1.
    pose proof (operands_pop _ _ _ Ho1) as Ho2. cbn [length] in *.
    eexists. split; [|apply (operands_push v); [done|lia]]. eapply iteration_arm; [exact Hb|]. rewrite Hf. unfold exec_bin.
    unfold bind at 1. rewrite !(Nat.add_succ_r vb).
    rewrite (running_pop y) by (rewrite <- (Nat.add_succ_r vb); by apply (operands_top y (x :: st))).
    unfold bind at 1. rewrite (running_pop x) by (by apply operands_top).
    unfold bind at 1, lift at 1. rewrite Hfv. unfold bind at 1. rewrite running_push by lia. done.
  - destruct st as [|v st]; [done|]. injection E as <- <-. exists vs. split; [|by eapply operands_pop].
    eapply iteration_arm; [exact Hb|].
    change (exec_op r OP_DROP) with (fun c => (do! v_pop in ret (Next (c_pc c))) : I flow). cbn beta.
    unfold bind at 1. cbn [length]. rewrite (Nat.add_succ_r vb). by rewrite (running_pop v) by (by apply operands_top).
  - injection E as <- <-. exists vs. split; [|done]. by eapply iteration_arm; [exact Hb|].
Qed.

(** The state after the frame was left. *)
Definition finished (ip : nat) (ls vs : list Z) (w : World) : St :=
  mkSt (set_frames (<[d := the_frame ip ls]> (frames i0)) d (set_vstack vs (vb + Z.to_nat rc) i0)) w am.

Lemma do_return_running ip ls st vs w v :
  0 <= rc <= 1 -> operands st vs -> body_value rc st = Some v -> (vb + length st <= STACK_DEPTH)%nat ->
  exists vs', do_return (running ip ls vs (vb + length st) w) = (Ok tt, finished ip ls vs' w) /\
    length vs' = STACK_DEPTH /\ take vb vs' = take vb (vstack i0) /\ (rc = 1 -> vs' !! vb = Some v).
Proof.
  intros Hrc Ho Hv Hlen. set (s := running ip ls vs (vb + length st) w).
  assert (frames (it s) !! d = Some (the_frame ip ls)) as Hf by (apply list_lookup_insert_eq, HB).
  unfold do_return. unfold bind at 1, get at 1, gets at 1. replace (fdepth (it s) - 1)%nat with d by (cbn; lia).
  unfold bind at 1. unfold bind at 1, get at 1, gets at 1, index, lift. rewrite Hf. cbn [or_panic].
  unfold bind at 1, get at 1, gets at 1. unfold bind at 1, get at 1, gets at 1.
  change (vstack (it s)) with vs. change (vsp (it s)) with (vb + length st)%nat.
  change (result_count (the_frame ip ls)) with rc. change (vsp_base (the_frame ip ls)) with vb.
  rewrite (proj2 (Z.ltb_ge _ _)) by (unfold STACK_DEPTH; lia).
  assert (exists vs', copy_results (Z.to_nat rc) (Z.to_nat (Z.of_nat (vb + length st) - rc)) vb vs = Ok vs' /\
    length vs' = STACK_DEPTH /\ take vb vs' = take vb (vstack i0) /\ (rc = 1 -> vs' !! vb = Some v)) as (vs' & Ec & Hvs).
  { unfold body_value in Hv. assert (rc = 0 \/ rc = 1) as [Er|Er] by lia; rewrite Er in *; cbn [Z.eqb] in Hv.
    - exists vs. cbn. split; [done|]. split; [apply Ho|]. split; [apply Ho|done].
    - destruct st as [|v0 st]; [done|]. injection Hv as ->. cbn [length] in *. exists (<[vb := v]> vs).
      change (Z.to_nat 1) with 1%nat. cbn [copy_results].
      replace (Z.to_nat (Z.of_nat (vb + S (length st)) - 1)) with (vb + length st)%nat by lia.
      rewrite (operands_top v st vs Ho). cbn [or_panic rbind]. pose proof (od_len _ _ Ho) as Hl.
      rewrite (proj2 (Nat.ltb_lt _ _)) by lia. split; [done|]. split; [by rewrite length_insert|].
      split; [rewrite take_insert_ge by lia; apply Ho|]. intros _. apply list_lookup_insert_eq. lia. }
  unfold bind at 1. rewrite Ec. exists vs'. split; [|exact Hvs].
  cbv beta iota delta [bind on_it modify]. unfold finished. do 2 f_equal. cbn.
  rewrite <- (bs_ctrl HB). reflexivity.
Qed.

(** The iteration at the end of the body. *)
Lemma end_iterates r ip ls st vs w v :
  0 <= rc <= 1 -> body_ends bd ip -> operands st vs -> body_value rc st = Some v -> (vb + length st <= STACK_DEPTH)%nat ->
  exists vs' w', iteration r (running ip ls vs (vb + length st) w) = (Ok tt, finished ip ls vs' w') /\
    (w' = w \/ w' = counted w) /\
    length vs' = STACK_DEPTH /\ take vb vs' = take vb (vstack i0) /\ (rc = 1 -> vs' !! vb = Some v).
Proof.
  intros Hrc Hend Ho Hv Hlen. unfold iteration. set (s := running ip ls vs (vb + length st) w).
  assert (yield_requested (it s) = false) as Hy by apply HB.
  assert (frames (it s) !! (fdepth (it s) - 1)%nat = Some (the_frame ip ls)) as Hf.
  { cbn [s running it set_frames frames fdepth]. rewrite Nat.sub_succ, Nat.sub_0_r. apply list_lookup_insert_eq, HB. }
  assert (bodies (code (it s)) !! body_idx (the_frame ip ls) = Some bd) as Hb by apply HB.
  unfold bind at 1, get at 1, gets at 1. cbn beta iota. rewrite Hy.
  unfold bind at 1, index at 1, lift at 1. rewrite Hf. cbn [or_panic].
  unfold bind at 1, index at 1, lift at 1. rewrite Hb. cbn [or_panic the_frame pc].
  destruct (do_return_running ip ls st vs w v Hrc Ho Hv Hlen) as (vs0 & E0 & H0).
  destruct (do_return_running ip ls st vs (counted w) v Hrc Ho Hv Hlen) as (vs1 & E1 & H1).
  destruct Hend as [-> |[-> |[-> _]]].
  - exists vs0, w. split; [exact E0|]. split; [by left|done].
  - exists vs1, (counted w). split; [|split; [by right|done]]. unfold bind at 1.
    change (on_world _ s) with (Ok (E := InterpError) tt, running ip ls vs (vb + length st) (counted w)). cbn beta iota.
    change (exec_op r OP_RETURN) with (fun _ : ctx => (do! do_return in ret Continue) : I flow). cbn beta.
    unfold bind at 1. unfold bind at 1. by rewrite E1.
  - exists vs1, (counted w). split; [|split; [by right|done]]. unfold bind at 1.
    change (on_world _ s) with (Ok (E := InterpError) tt, running ip ls vs (vb + length st) (counted w)). cbn beta iota.
    change (exec_op r OP_END) with exec_end. unfold bind at 1. unfold exec_end.
    unfold bind at 1, get at 1, gets at 1. cbn [Dispatch.fi].
    replace (fdepth (it s) - 1)%nat with d in * by (cbn; lia).
    unfold bind at 1. unfold bind at 1, get at 1, gets at 1, index, lift.
    replace (frames (it (running ip ls vs (vb + length st) (counted w))) !! d) with (Some (the_frame ip ls)) by (symmetry; exact Hf).
    cbn [or_panic the_frame ctrl_base].
    replace (ctrl_depth (it (running ip ls vs (vb + length st) (counted w)))) with cb by (symmetry; apply HB).
    rewrite Nat.ltb_irrefl. unfold bind at 1. by rewrite E1.
Qed.

Lemma run_loop_turn fuel s :
  (shadow_stop_fdepth (it s) < fdepth (it s))%nat ->
  run_loop (S fuel) s =
    match iteration (do! cache_active in run_loop fuel) s with
    | (Ok tt, s') => run_loop fuel s' | (Err e, s') => (Err e, s') | (Panic, s') => (Panic, s') | (OutOfFuel, s') => (OutOfFuel, s') end.
Proof.
  intros Hd. cbn [run_loop]. unfold bind at 1, get at 1, gets at 1. cbn beta iota.
  rewrite (proj2 (Nat.leb_gt _ _)) by done. unfold bind at 1. by destruct (iteration _ s) as [[[]|e| |] s'].
Qed.

(** Running a straight-line body to its end. *)
Lemma straight_runs ops ip st ls st' ls' vs w v :
  straight bd ip ops -> Forall op_indices ops -> seval ops (st, ls) = Some (st', ls') ->
  0 <= rc <= 1 -> body_value rc st' = Some v ->
  operands st vs -> (vb + length st + length ops <= STACK_DEPTH)%nat -> (length ls <= lc)%nat ->
  shadow_stop_fdepth i0 = d ->
  exists ip' vs' w', run_loop (S (S (length ops))) (running ip ls vs (vb + length st) w) = (Ok tt, finished ip' ls' vs' w') /\
    log w' = log w /\ length vs' = STACK_DEPTH /\ take vb vs' = take vb (vstack i0) /\ (rc = 1 -> vs' !! vb = Some v).
Proof.
  intros Hs Hi E Hrc Hv. revert st ls vs w Hi E. induction Hs as [ip Hend|ip op ip' ops Hop Hs IH]; intros st ls vs w Hi E Ho Hroom Hlc Hstop.
  - injection E as <- <-. change (length []) with O. rewrite run_loop_turn by (cbn; lia).
    destruct (end_iterates (do! cache_active in run_loop (S 0)) ip ls st vs w v Hrc Hend Ho Hv) as (vs' & w' & -> & Hw & H); [lia|].
    exists ip, vs', w'. split; [|split; [by destruct Hw as [-> | ->]|done]].
    cbn [run_loop]. unfold bind at 1, get at 1, gets at 1. cbn beta iota.
    replace (fdepth (it (finished ip ls vs' w'))) with d by done.
    replace (shadow_stop_fdepth (it (finished ip ls vs' w'))) with d by done. by rewrite Nat.leb_refl.
  - unfold seval in E. cbn [eval_ops] in E. destruct (eval_op _ _ op (st, ls)) as [[st1 ls1]|] eqn:E1; [|done].
    inversion Hi as [|? ? Hi1 Hi2]; subst. cbn [length] in *.
    destruct (op_iterates (do! cache_active in run_loop (S (S (length ops)))) op ip ip' st ls st1 ls1 vs w Hop Hi1 E1 Ho)
      as (vs1 & Ei & Ho1); [lia|done|].
    rewrite run_loop_turn by (cbn; lia). rewrite Ei.
    destruct (IH st1 ls1 vs1 (counted w) Hi2 E Ho1) as (ip2 & vs2 & w2 & E2 & Hl & H2); [|by rewrite (eval_op_locals _ _ _ _ _ _ _ E1)|done|].
    + apply eval_op_grows in E1. lia.
    + exists ip2, vs2, w2. split; [exact E2|]. split; [exact Hl|exact H2].
Qed.
End interp.

(** ** Facts of straight-line bodies *)

Lemma op_at_indices bd ip op ip' : op_at bd ip op ip' -> op_indices op.
Proof.
  assert (forall i sz, read_u32_leb128 (drop (ip + 1) bd) = Some (i, sz) -> 0 <= i) as Hu.
  { intros i sz Hr. by apply read_u32_bounds in Hr as [[H _] _]. }
  destruct 1; cbn; eauto.
Qed.

Lemma straight_indices bd ip ops : straight bd ip ops -> Forall op_indices ops.
Proof. induction 1 as [|ip op ip' ops Hop]; constructor; [by eapply op_at_indices|done]. Qed.

(** The operation at a position, as a function. *)
Definition sop_imm {A} (mk : A -> sop) (ip : nat) (r : option (A * nat)) : option (sop * nat) :=
  match r with Some (v, sz) => Some (mk v, (ip + 1 + sz)%nat) | None => None end.

Definition sop_at (bd : list Z) (ip : nat) : option (sop * nat) :=
  match bd !! ip with
  | None => None
  | Some op =>
      let rest := drop (ip + 1) bd in
      if op =? OP_I32_CONST then sop_imm SConst ip (read_i32_leb128 rest)
      else if op =? OP_I64_CONST then sop_imm SConst ip (read_i64_leb128 rest)
      else if op =? OP_LOCAL_GET then sop_imm SGet ip (read_u32_leb128 rest)
      else if op =? OP_LOCAL_SET then sop_imm SSet ip (read_u32_leb128 rest)
      else if op =? OP_LOCAL_TEE then sop_imm STee ip (read_u32_leb128 rest)
      else if op =? OP_DROP then Some (SDrop, (ip + 1)%nat)
      else if op =? OP_NOP then Some (SNop, (ip + 1)%nat)
      else match filter (fun b => op =? sbin_code b) [BAdd; BSub; BMul; BAnd; BOr; BXor; BShl; BShrU; BShrS] with
           | b :: _ => Some (SBin b, (ip + 1)%nat)
           | [] => None
           end
  end.

Lemma op_at_fun bd ip op ip' : op_at bd ip op ip' -> sop_at bd ip = Some (op, ip').
Proof.
  unfold sop_at. destruct 1 as [v sz Hb Hr|v sz Hb Hr|i sz Hb Hr|i sz Hb Hr|i sz Hb Hr|b Hb|Hb|Hb]; rewrite Hb.
  1-5: cbn -[drop read_i32_leb128 read_i64_leb128 read_u32_leb128]; by rewrite Hr.
  - by destruct b.
  - done.
  - done.
Qed.

Lemma body_ends_fun bd ip : body_ends bd ip -> sop_at bd ip = None.
Proof. unfold sop_at. by intros [->|[->|[-> _]]]. Qed.

Lemma op_at_unique bd ip op1 ip1 op2 ip2 : op_at bd ip op1 ip1 -> op_at bd ip op2 ip2 -> op1 = op2 /\ ip1 = ip2.
Proof. intros H1%op_at_fun H2%op_at_fun. rewrite H1 in H2. by injection H2. Qed.

Lemma op_at_not_end bd ip op ip' : op_at bd ip op ip' -> body_ends bd ip -> False.
Proof. intros H1%op_at_fun H2%body_ends_fun. by rewrite H1 in H2. Qed.

Lemma straight_unique bd ip ops1 ops2 : straight bd ip ops1 -> straight bd ip ops2 -> ops1 = ops2.
Proof.
  intros H. revert ops2. induction H as [ip He|ip op ip' ops Hop Hs IH]; intros ops2 H2; inversion H2; subst; try done.
  - by exfalso; eapply op_at_not_end.
  - by exfalso; eapply op_at_not_end.
  - match goal with H : op_at bd ip _ _ |- _ => destruct (op_at_unique _ _ _ _ _ _ Hop H) as [-> ->] end. f_equal. by apply IH.
Qed.

Definition const_ok (op : sop) : Prop := match op with SConst v => is_i64 v | _ => True end.

Lemma op_at_const bd ip op ip' : op_at bd ip op ip' -> const_ok op.
Proof.
  destruct 1 as [v sz Hb Hr|v sz Hb Hr| | | | | |]; cbn; try done; apply lookup_lt_Some in Hb.
  - assert (read_i32_at bd (ip + 1) = Ok (v, sz)) as E.
    { unfold read_i32_at, slice_from. rewrite (proj2 (Nat.leb_le _ _)) by lia. cbn [rbind]. by rewrite Hr. }
    eapply read_i32_at_total; [|exact E]. lia.
  - assert (read_i64_at bd (ip + 1) = Ok (v, sz)) as E.
    { unfold read_i64_at, slice_from. rewrite (proj2 (Nat.leb_le _ _)) by lia. cbn [rbind]. by rewrite Hr. }
    eapply read_i64_at_total; [|exact E]. lia.
Qed.

Lemma exact_range b x y v : exact b x y = Some v -> is_i64 v.
Proof. unfold exact. cbn zeta. destruct (_ && _) eqn:E; [|done]. intros [= <-]. zbool. by apply i32_is_i64, fits32_true. Qed.

Lemma seval_op_range op st ls st' ls' :
  const_ok op -> Forall is_i64 st -> Forall is_i64 ls -> eval_op exact (fun v => v) op (st, ls) = Some (st', ls') ->
  Forall is_i64 st' /\ Forall is_i64 ls'.
Proof.
  intros Hc Hs Hl. destruct op; cbn [eval_op const_ok] in *; intros E; repeat case_match; simplify_eq;
    repeat match goal with H : Forall is_i64 (_ :: _) |- _ => inversion H; clear H; subst end;
    split; try done; try (by apply Forall_insert); apply List.Forall_cons; try done; first [by eapply exact_range | idtac].
  by eapply (Forall_lookup_1 is_i64 ls').
Qed.

Lemma seval_range bd ip ops st ls st' ls' :
  straight bd ip ops -> Forall is_i64 st -> Forall is_i64 ls -> seval ops (st, ls) = Some (st', ls') ->
  Forall is_i64 st' /\ Forall is_i64 ls'.
Proof.
  intros H. revert st ls. unfold seval. induction H as [|ip op ip' ops Hop Hs IH]; intros st ls Hst Hls; cbn [eval_ops].
  { by intros [= <- <-]. }
  destruct (eval_op _ _ op (st, ls)) as [[st1 ls1]|] eqn:E; [|done].
  destruct (seval_op_range op st ls st1 ls1) as [H1 H2]; [by eapply op_at_const|done..|]. by apply IH.
Qed.

(** Locals behind those of the body do not matter. *)
Lemma seval_tail ops st ls st' ls' tl :
  seval ops (st, ls) = Some (st', ls') -> seval ops (st, ls ++ tl) = Some (st', ls' ++ tl).
Proof.
  revert st ls. unfold seval. induction ops as [|op ops IH]; intros st ls; cbn [eval_ops]; [by intros [= <- <-]|].
  destruct (eval_op _ _ op (st, ls)) as [[st1 ls1]|] eqn:E; [|done]. intros E2.
  replace (eval_op exact (fun v => v) op (st, ls ++ tl)) with (Some (st1, ls1 ++ tl)); [by apply IH|]. clear E2 IH.
  destruct op; cbn [eval_op] in *; repeat case_match; simplify_eq; zbool; try done;
    rewrite ?insert_app_l, ?length_app in * by lia; try done; try lia.
  all: match goal with H : _ !! _ = Some _, H' : _ = _ |- _ => rewrite (lookup_app_l_Some _ _ _ _ H) in H'; by simplify_eq end.
Qed.

Lemma seval_locals ops st ls st' ls' : seval ops (st, ls) = Some (st', ls') -> length ls' = length ls.
Proof.
  revert st ls. unfold seval. induction ops as [|op ops IH]; intros st ls; cbn [eval_ops]; [by intros [= <- <-]|].
  destruct (eval_op _ _ op (st, ls)) as [[st1 ls1]|] eqn:E; [|done]. intros E2. rewrite (IH _ _ E2). by eapply eval_op_locals.
Qed.

Lemma body_value_words rc st v : body_value rc st = Some v -> body_value rc (map as_u64 st) = Some (as_u64 v).
Proof. unfold body_value. destruct (rc =? 0); [by intros [= <-]|]. destruct st; [done|]. by intros [= ->]. Qed.

Lemma body_value_range rc st v : Forall is_i64 st -> body_value rc st = Some v -> is_i64 v.
Proof.
  unfold body_value. destruct (rc =? 0); [by intros _ [= <-]|]. destruct st; [done|].
  intros H [= ->]. by inversion H.
Qed.

(** ** The two ways to call *)

(** The kernel on a processor that calls at [p]: the bytes are executed, and an
    access to anything but the locals and the stack at hand is one that strays. *)
Definition native_features (p : site) : Features := {|
  kernel_jit := true; jit_shadow := false;
  native_call := fun f m gs ls =>
    match run_native p f ls with Some (v, ls') => Returned v m gs ls' | None => Strayed end
|}.

Lemma native_call_value p bd rc f ops ls0 tl st' ls' v :
  straight bd 0 ops -> 0 <= rc -> compiled bd rc f -> site_ok p (length (ls0 ++ tl)) (length f) -> (length ops <= room p)%nat ->
  Forall is_i64 ls0 -> Forall is_i64 tl -> seval ops ([], ls0) = Some (st', ls') -> body_value rc st' = Some v ->
  run_native p f (ls0 ++ tl) = Some (v, ls' ++ tl).
Proof.
  intros Hs Hrc Hc Hp Hroom Hl Htl E Hv. pose proof (seval_locals _ _ _ _ _ E) as Hlen.
  destruct (seval_range _ _ _ _ _ _ _ Hs (Forall_nil _) Hl E) as [H1 H2].
  eapply run_native_simulates; try done.
  - intros ops' H'. by eapply straight_unique.
  - by eapply straight_indices.
  - apply (seval_words _ [] _ _ _ (seval_tail _ _ _ _ _ tl E)).
  - by rewrite !length_app, Hlen.
  - by apply Forall_app.
  - by apply body_value_words.
  - by apply (body_value_range rc st').
Qed.

(** What a call leaves for the code behind it. *)
Definition after_call (s : St) : list Z * slice * Z * list Z * (nat * nat) * list event :=
  let i := it s in (take (vsp i) (vstack i), mem i, current_pages i, globals i, (fdepth i, ctrl_depth i), log (world s)).

(** A call of body [b] with signature and body as given, [base] values below
    its parameters. *)
Record calls (s : St) (callee b : nat) (bd : list Z) (np rc dc : Z) (base : nat) : Prop := {
  cl_type : exists t, all_func_types (code (it s)) !! callee = Some t /\ func_type_indices (code (it s)) !! b = Some t /\
    0 <= t < Z.of_nat (type_count (code (it s))) /\
    type_param_counts (code (it s)) !! Z.to_nat t = Some np /\ type_result_counts (code (it s)) !! Z.to_nat t = Some rc;
  cl_locals : local_counts (code (it s)) !! b = Some dc /\ 0 <= np /\ 0 <= dc /\ np + dc <= Z.of_nat MAX_LOCALS;
  cl_body : bodies (code (it s)) !! b = Some bd;
  cl_stack : stack_ok (vstack (it s)) (vsp (it s)) /\ vsp (it s) = (base + Z.to_nat np)%nat;
  cl_frames : length (frames (it s)) = CALL_DEPTH /\ (fdepth (it s) < CALL_DEPTH)%nat;
  cl_quiet : yield_requested (it s) = false
}.

Definition args (s : St) (np dc : Z) (base : nat) : list Z :=
  take (Z.to_nat np) (drop base (vstack (it s))) ++ replicate (Z.to_nat dc) 0.

Lemma args_range s callee b bd np rc dc base : calls s callee b bd np rc dc base ->
  Forall is_i64 (args s np dc base) /\ length (args s np dc base) = Z.to_nat (np + dc).
Proof.
  intros [_ (_ & H1 & H2 & H3) _ [(Hl & Hr & Hv) Hn] _ _]. unfold args. split.
  - apply Forall_app. split; [by apply Forall_take, Forall_drop|by apply Forall_replicate].
  - rewrite length_app, length_take, length_drop, length_replicate. lia.
Qed.

Section agree.
Context `{FE : FloatEnv} (p : site).
Local Instance here : Features := native_features p.
Context (s : St) (callee b : nat) (bd f : list Z) (np rc dc : Z) (base : nat).
Context (ops : list sop) (st' ls' : list Z) (v : Z).
Hypothesis Hcall : calls s callee b bd np rc dc base.
Hypothesis Hops : straight bd 0 ops.
Hypothesis Hval : seval ops ([], args s np dc base) = Some (st', ls').
Hypothesis Hres : body_value rc st' = Some v.
Hypothesis Hdepth : (base + length ops < STACK_DEPTH)%nat.

Definition result_stack : list Z := take base (vstack (it s)) ++ (if rc =? 0 then [] else [v]).

Definition left_behind : list Z * slice * Z * list Z * (nat * nat) * list event :=
  let i := it s in (result_stack, mem i, current_pages i, globals i, (fdepth i, ctrl_depth i), log (world s)).

(** The native call. *)
Lemma native_path run :
  0 <= rc -> compiled bd rc f -> site_ok p MAX_LOCALS (length f) -> (length ops <= room p)%nat ->
  exists s', exec_jit run f callee b s = (Ok Continue, s') /\ after_call s' = left_behind.
Proof.
  intros Hrc Hf Hp Hroom. destruct (args_range _ _ _ _ _ _ _ _ Hcall) as [Har Hal].
  destruct Hcall as [(t & Ht1 & _ & Ht & Hnp & Hr) (_ & H1 & H2 & H3) _ [(Hl & Hi & Hv) Hn] _ _].
  set (tl := replicate (MAX_LOCALS - Z.to_nat (np + dc)) 0).
  assert (take (Z.to_nat np) (drop base (vstack (it s))) ++ drop (Z.to_nat np) (replicate MAX_LOCALS 0) = args s np dc base ++ tl) as El.
  { unfold args, tl. rewrite <- app_assoc, drop_replicate, <- replicate_add. repeat f_equal. lia. }
  assert (length (args s np dc base ++ tl) = MAX_LOCALS) as Hlen by (unfold tl; rewrite length_app, length_replicate; lia).
  assert (run_native p f (args s np dc base ++ tl) = Some (v, ls' ++ tl)) as Er.
  { eapply (native_call_value p bd rc f ops); eauto; [by rewrite Hlen|by apply Forall_replicate]. }
  unfold exec_jit. unfold bind at 1. unfold bind at 1, get at 1, gets at 1, index at 1, lift at 1. rewrite Ht1. cbn [or_panic].
  unfold bind at 1. unfold sig_counts. unfold bind at 1, get at 1, gets at 1. rewrite (proj2 (Z.ltb_lt _ _)) by lia.
  unfold bind at 1, index at 1, lift at 1. rewrite Hnp. cbn [or_panic]. unfold bind at 1, index at 1, lift at 1. rewrite Hr. cbn [or_panic].
  unfold ret at 1. unfold bind at 1, get at 1, gets at 1. rewrite (proj2 (Z.ltb_ge _ _)) by lia.
  unfold bind at 1. rewrite (proj2 (Z.ltb_ge _ _)) by lia.
  rewrite (pop_params_spec (Z.to_nat np) _ s base) by (rewrite ?length_replicate; lia). rewrite El.
  unfold bind at 1, get at 1, gets at 1. unfold bind at 1, lift at 1. unfold native_call at 1. cbn [here native_features]. rewrite Er. cbn [confined].
  unfold jit_shadow. cbn [here native_features]. unfold bind at 1, on_it at 1, modify at 1. unfold bind at 1, ret at 1.
  unfold after_call, left_behind, result_stack.
  assert (rc = 0 \/ 0 < rc) as [->|Hpos] by lia.
  - eexists. split; [reflexivity|]. cbn. by rewrite app_nil_r.
  - rewrite (proj2 (Z.eqb_neq rc 0)), (proj2 (Z.ltb_lt 0 rc)) by lia. unfold bind at 1.
    rewrite v_push_spec by (cbn; lia). eexists. split; [reflexivity|]. cbn.
    do 5 f_equal. rewrite (take_S_r _ _ v) by (apply list_lookup_insert_eq; lia). by rewrite take_insert_ge.
Qed.

(** The interpreter's way: a frame for the body, and the loop until it is left. *)
Lemma interpreted_path :
  0 <= rc <= 1 ->
  exists s', (do! on_it (fun i => set_stop (fdepth i) i) in do! push_frame b in run_loop (S (S (length ops)))) s = (Ok tt, s') /\
    after_call s' = left_behind.
Proof.
  intros Hrc. destruct (args_range _ _ _ _ _ _ _ _ Hcall) as [Har Hal].
  destruct Hcall as [(t & _ & Ht2 & Ht & Hnp & Hr) (Hdc & H1 & H2 & H3) Hb [(Hl & Hi & Hv) Hn] [Hf Hfd] Hy].
  unfold bind at 1, on_it at 1, modify at 1. set (s1 := mkSt (set_stop _ _) _ _).
  unfold bind at 1. rewrite (push_frame_spec s1 b t np rc dc base) by (try done; cbn; lia).
  set (d := fdepth (it s1)). set (tl := replicate (MAX_LOCALS - Z.to_nat (np + dc)) 0).
  assert (take (Z.to_nat np) (drop base (vstack (it s1))) ++ replicate (MAX_LOCALS - Z.to_nat np) 0 = args s np dc base ++ tl) as ->.
  { unfold args, tl. rewrite <- app_assoc, <- replicate_add.
    by replace (Z.to_nat dc + (MAX_LOCALS - Z.to_nat (np + dc)))%nat with (MAX_LOCALS - Z.to_nat np)%nat by lia. }
  set (i0 := it s1).
  assert (base_inv : JitAgree.base i0 d b (ctrl_depth i0) bd) by (split; [done|cbn; lia|done|done]).
  destruct (straight_runs i0 (active_mem s) d b (Z.to_nat (np + dc)) (ctrl_depth i0) base rc bd tl base_inv
    ops 0 [] (args s np dc base) st' ls' (vstack i0) (world s) v) as (ip' & vs' & w' & E & Hlog & Hvl & Hbelow & Htop);
    try done; first [by eapply straight_indices | by split | cbn; lia | lia | idtac].
  exists (finished i0 (active_mem s) d b (Z.to_nat (np + dc)) (ctrl_depth i0) base rc tl ip' ls' vs' w').
  split; [rewrite <- E; cbn [length]; by rewrite Nat.add_0_r|].
  unfold after_call, left_behind, result_stack. cbn. rewrite Hlog. do 5 f_equal.
  assert (rc = 0 \/ rc = 1) as [->| ->] by lia; cbn; [by rewrite app_nil_r, Nat.add_0_r|].
  change (Pos.to_nat 1) with 1%nat. rewrite Nat.add_1_r, (take_S_r _ _ v) by (by apply Htop). by f_equal.
Qed.
End agree.
