(* ===== verification/Phys.v ===== *)
(** * Physical memory

    Memory as the processor and the devices share it: a byte for every
    physical address, read and written as little-endian values. *)

From S2P Require Import Prelude.

Definition Phys : Type := Z -> Z.

Definition peek (n : nat) (a : Z) (m : Phys) : list Z := map (fun i => m (a + Z.of_nat i)) (seq 0 n).

Definition poke (bs : list Z) (a : Z) (m : Phys) : Phys := fun x =>
  if a <=? x then match bs !! Z.to_nat (x - a) with Some b => b | None => m x end else m x.

Definition pread (n : nat) (a : Z) (m : Phys) : Z := le_bytes (peek n a m).
Definition pwrite (n : nat) (a v : Z) (m : Phys) : Phys := poke (to_le_bytes n v) a m.

Definition bytes_ok (m : Phys) : Prop := forall a, is_u8 (m a).

(** Two ranges of bytes that share none. *)
Definition apart (a : Z) (n : nat) (b : Z) (k : nat) : Prop := a + Z.of_nat n <= b \/ b + Z.of_nat k <= a.

Lemma peek_length n a m : length (peek n a m) = n.
Proof. unfold peek. by rewrite length_map, length_seq. Qed.

Lemma peek_lookup n a m i : (i < n)%nat -> peek n a m !! i = Some (m (a + Z.of_nat i)).
Proof. intros Hi. unfold peek. rewrite list_lookup_fmap, lookup_seq_lt by done. done. Qed.

Lemma peek_ext n a m m' : (forall x, a <= x < a + Z.of_nat n -> m' x = m x) -> peek n a m' = peek n a m.
Proof.
  intros H. apply list_eq. intros i. destruct (decide (i < n)%nat) as [Hi|Hi].
  - rewrite !peek_lookup by done. f_equal. apply H. lia.
  - rewrite !lookup_ge_None_2 by (rewrite peek_length; lia). done.
Qed.

Lemma poke_outside bs a m x : x < a \/ a + Z.of_nat (length bs) <= x -> poke bs a m x = m x.
Proof.
  intros H. unfold poke. destruct (a <=? x) eqn:E; [|done]. zbool. by rewrite lookup_ge_None_2 by lia.
Qed.

Lemma poke_inside bs a m i b : bs !! i = Some b -> poke bs a m (a + Z.of_nat i) = b.
Proof.
  intros H. unfold poke. rewrite (proj2 (Z.leb_le _ _)) by lia.
  replace (Z.to_nat (a + Z.of_nat i - a)) with i by lia. by rewrite H.
Qed.

Lemma peek_poke_apart n a bs b m : apart a n b (length bs) -> peek n a (poke bs b m) = peek n a m.
Proof. intros H. apply peek_ext. intros x Hx. apply poke_outside. unfold apart in H. lia. Qed.

(** A range read inside the range written. *)
Lemma peek_poke_part n k bs b m : (k + n <= length bs)%nat -> peek n (b + Z.of_nat k) (poke bs b m) = take n (drop k bs).
Proof.
  intros H. apply list_eq. intros i. destruct (decide (i < n)%nat) as [Hi|Hi].
  - rewrite peek_lookup by done. destruct (lookup_lt_is_Some_2 bs (k + i)) as [x Hx]; [lia|].
    rewrite lookup_take_lt, lookup_drop, Hx by done. f_equal.
    rewrite <- (poke_inside _ b m _ _ Hx). f_equal. lia.
  - rewrite !lookup_ge_None_2; [done| |]; rewrite ?length_take, ?peek_length; lia.
Qed.

Lemma peek_poke bs b m : peek (length bs) b (poke bs b m) = bs.
Proof.
  rewrite <- (Z.add_0_r b) at 1. rewrite (peek_poke_part (length bs) 0) by lia. by rewrite drop_0, firstn_all.
Qed.

Lemma poke_ok bs a m : Forall is_u8 bs -> bytes_ok m -> bytes_ok (poke bs a m).
Proof.
  intros Hb Hm x. unfold poke. destruct (_ <=? _); [|apply Hm]. destruct (bs !! _) as [b|] eqn:E; [|apply Hm].
  exact (Forall_lookup_1 _ _ _ _ Hb E).
Qed.

Lemma peek_ok n a m : bytes_ok m -> Forall is_u8 (peek n a m).
Proof. intros H. unfold peek. apply Forall_map, Forall_forall. intros i _. apply H. Qed.

Lemma pread_range n a m : bytes_ok m -> 0 <= pread n a m < 256 ^ Z.of_nat n.
Proof. intros H. pose proof (le_bytes_range _ (peek_ok n a m H)) as E. by rewrite peek_length in E. Qed.

Lemma pwrite_ok n a v m : bytes_ok m -> bytes_ok (pwrite n a v m).
Proof. apply poke_ok, to_le_bytes_u8. Qed.

Lemma pread_pwrite n a v m : pread n a (pwrite n a v m) = v mod 256 ^ Z.of_nat n.
Proof.
  unfold pread, pwrite. pose proof (peek_poke (to_le_bytes n v) a m) as E. rewrite to_le_bytes_length in E.
  by rewrite E, le_bytes_to_le.
Qed.

Lemma pread_pwrite_small n a v m : 0 <= v < 256 ^ Z.of_nat n -> pread n a (pwrite n a v m) = v.
Proof. intros H. rewrite pread_pwrite. by apply Z.mod_small. Qed.

Lemma pread_apart n a k b v m : apart a n b k -> pread n a (pwrite k b v m) = pread n a m.
Proof. intros H. unfold pread, pwrite. by rewrite peek_poke_apart by by rewrite to_le_bytes_length. Qed.

#[export] Hint Resolve pwrite_ok poke_ok to_le_bytes_u8 : wasmos.
