(* ===== verification/Paging.v ===== *)
(** * Address translation, native code pages and the heap
    ([kernel/src/memory/mod.rs], [kernel/src/memory/allocator.rs],
    [make_jit_executable] of [kernel/src/jit/mod.rs])

    The page tables are words of physical memory, which the kernel reaches
    through the window the boot loader maps. *)

From S2P Require Import Prelude Jit Phys.

(** ** Physical access through the window *)

(** [PHYS_MEM_OFFSET] as [init] stored it, the register [cr3] and the memory. *)
Record Mem := mkMem { PHYS_MEM_OFFSET : Z; cr3 : Z; ram : Phys }.

Definition mem_init (phys_mem_offset : Z) (k : Mem) : Mem := mkMem phys_mem_offset (cr3 k) (ram k).
Definition phys_mem_offset (k : Mem) : Z := PHYS_MEM_OFFSET k.
Definition set_ram (m : Phys) (k : Mem) : Mem := mkMem (PHYS_MEM_OFFSET k) (cr3 k) m.

Section window.
(** The boot loader maps physical address [p] at [window + p]. *)
Context (window : Z).

Definition read_phys_u64 (phys : Z) (k : Mem) : Z :=
  let virt := PHYS_MEM_OFFSET k + phys in pread 8 (virt - window) (ram k).

Definition write_phys_u64 (phys val : Z) (k : Mem) : Mem :=
  let virt := PHYS_MEM_OFFSET k + phys in set_ram (pwrite 8 (virt - window) val (ram k)) k.

(** ** The walks *)

(** [(v >> n) & 0x1FF] *)
Definition table_index (v n : Z) : Z := Z.land (Z.shiftr v n) 0x1FF.
Definition PML4_MASK : Z := Z.lxor 0xFFFFFFFFFFFFFFFF 0xFFF.
Definition FRAME_MASK : Z := 0x000FFFFFFFFFF000.

Definition find_pte (virt : Z) (k : Mem) : option (Z * Z) :=
  let v := virt in
  let pml4_phys := Z.land (cr3 k) PML4_MASK in
  let pml4e := read_phys_u64 (pml4_phys + table_index v 39 * 8) k in
  if Z.land pml4e 1 =? 0 then None else
  let pdpt_phys := Z.land pml4e FRAME_MASK in
  let pdpte := read_phys_u64 (pdpt_phys + table_index v 30 * 8) k in
  if Z.land pdpte 1 =? 0 then None else
  if negb (Z.land pdpte (Z.shiftl 1 7) =? 0) then None else
  let pd_phys := Z.land pdpte FRAME_MASK in
  let pde := read_phys_u64 (pd_phys + table_index v 21 * 8) k in
  if Z.land pde 1 =? 0 then None else
  if negb (Z.land pde (Z.shiftl 1 7) =? 0) then None else
  let pt_phys := Z.land pde FRAME_MASK in
  let pte_phys := pt_phys + table_index v 12 * 8 in
  let pte_val := read_phys_u64 pte_phys k in
  Some (pte_phys, pte_val).

(** [None] where the code loops forever. *)
Definition virt_to_phys (virt : Z) (k : Mem) : option Z :=
  let v := virt in
  let pml4_phys := Z.land (cr3 k) PML4_MASK in
  let pml4e := read_phys_u64 (pml4_phys + table_index v 39 * 8) k in
  if Z.land pml4e 1 =? 0 then None else
  let pdpt_phys := Z.land pml4e FRAME_MASK in
  let pdpte := read_phys_u64 (pdpt_phys + table_index v 30 * 8) k in
  if Z.land pdpte 1 =? 0 then None else
  if negb (Z.land pdpte (Z.shiftl 1 7) =? 0) then
    Some (Z.lor (Z.land pdpte 0x000FFFFFC0000000) (Z.land v 0x3FFFFFFF))
  else
  let pd_phys := Z.land pdpte FRAME_MASK in
  let pde := read_phys_u64 (pd_phys + table_index v 21 * 8) k in
  if Z.land pde 1 =? 0 then None else
  if negb (Z.land pde (Z.shiftl 1 7) =? 0) then
    Some (Z.lor (Z.land pde 0x000FFFFFFFE00000) (Z.land v 0x001FFFFF))
  else
  let pt_phys := Z.land pde FRAME_MASK in
  let pte := read_phys_u64 (pt_phys + table_index v 12 * 8) k in
  if Z.land pte 1 =? 0 then None else
  Some (Z.lor (Z.land pte FRAME_MASK) (Z.land v 0xFFF)).

(** ** Executable pages *)

Definition NX : Z := Z.shiftl 1 63.

(** [(pte_val | 0x3) & !(1 << 63)] *)
Definition executable_pte (pte_val : Z) : Z := Z.land (Z.lor pte_val 0x3) (Z.lxor 0xFFFFFFFFFFFFFFFF NX).

(** One page; the flush of its translation has no effect on memory. *)
Definition make_page_executable (virt : Z) (k : Mem) : Mem :=
  match find_pte virt k with
  | Some (pte_phys, pte_val) => write_phys_u64 pte_phys (executable_pte pte_val) k
  | None => k
  end.

Definition JIT_PAGES : nat := Z.to_nat ((JIT_BUF_SIZE + 4095) / 4096).

(** [base] is the address of [JIT_BUF]. *)
Definition make_jit_executable (base : Z) (k : Mem) : Mem :=
  fold_left (fun k i => make_page_executable (base + Z.of_nat i * 4096) k) (seq 0 JIT_PAGES) k.
End window.

(** ** The heap *)

Definition HEAP_SIZE : Z := 8 * 1024 * 1024.

(** The offset in [HEAP] of the block and the new [HEAP_NEXT]; [None] is the
    null pointer. *)
Definition heap_alloc (align size heap_next : Z) : option Z * Z :=
  let aligned := Z.land (heap_next + align - 1) (Z.lnot (align - 1)) in
  let end_ := aligned + size in
  if HEAP_SIZE <? end_ then (None, heap_next) else (Some aligned, end_).

Definition heap_dealloc (_ : Z) (heap_next : Z) : Z := heap_next.

(** * The page-table walks and the code pages

    The walk of the kernel is the translation of the processor; making the
    code pages executable changes no translation. *)

(** ** Masks as arithmetic *)

Lemma land_low x n : 0 <= n -> Z.land x (2 ^ n - 1) = x mod 2 ^ n.
Proof. intros Hn. rewrite <- Z.land_ones by done. by rewrite Z.ones_equiv. Qed.

(** Bits [n] to [k - 1]. *)
Lemma land_field x n k : 0 <= n <= k -> Z.land x (2 ^ k - 2 ^ n) = x mod 2 ^ k / 2 ^ n * 2 ^ n.
Proof.
  intros Hn. replace (2 ^ k - 2 ^ n) with (Z.shiftl (Z.ones (k - n)) n).
  2:{ rewrite Z.shiftl_mul_pow2, Z.ones_equiv by lia. replace (2 ^ k) with (2 ^ (k - n) * 2 ^ n).
      - lia.
      - rewrite <- Z.pow_add_r by lia. f_equal. lia. }
  rewrite <- Z.shiftr_div_pow2, <- Z.shiftl_mul_pow2, <- Z.land_ones by lia.
  apply Z.bits_inj'. intros i Hi. rewrite Z.land_spec, !Z.shiftl_spec by done.
  destruct (Z.ltb_spec i n) as [Hlt|Hge].
  - rewrite !(Z.testbit_neg_r _ (i - n)) by lia. by rewrite andb_false_r.
  - rewrite Z.shiftr_spec, Z.land_spec by lia. replace (i - n + n) with i by lia.
    rewrite !Z.testbit_ones_nonneg by lia. f_equal. rewrite eq_iff_eq_true, !Z.ltb_lt. lia.
Qed.

Lemma parts_apart x v n : 0 <= n -> Z.land (Z.shiftl x n) (Z.land v (Z.ones n)) = 0.
Proof.
  intros Hn. apply Z.bits_inj'. intros i Hi. rewrite Z.land_spec, Z.shiftl_spec, Z.land_spec, Z.bits_0 by done.
  destruct (Z.ltb_spec i n); [rewrite Z.testbit_neg_r by lia; done|].
  rewrite Z.testbit_ones_nonneg, (proj2 (Z.ltb_ge i n)) by lia. by rewrite !andb_false_r.
Qed.

(** A field above the low bits and the low bits. *)
Lemma lor_parts x v n : 0 <= n -> Z.lor (x * 2 ^ n) (v mod 2 ^ n) = x * 2 ^ n + v mod 2 ^ n.
Proof.
  intros Hn. rewrite <- Z.shiftl_mul_pow2, <- (Z.land_ones v) by done.
  rewrite Z.add_nocarry_lxor by (by apply parts_apart). symmetry. by apply Z.lxor_lor, parts_apart.
Qed.

Lemma table_index_spec v n : 0 <= n -> table_index v n = v / 2 ^ n mod 512.
Proof. intros Hn. unfold table_index. change 0x1FF with (2 ^ 9 - 1). by rewrite land_low, Z.shiftr_div_pow2 by done. Qed.

Lemma frame_mask_spec e : Z.land e FRAME_MASK = e mod 2 ^ 52 / 2 ^ 12 * 2 ^ 12.
Proof. change FRAME_MASK with (2 ^ 52 - 2 ^ 12). by rewrite land_field. Qed.

Lemma present_bit e : Z.land e 1 = e mod 2.
Proof. apply (land_low e 1). done. Qed.

Lemma size_bit e : (Z.land e (Z.shiftl 1 7) =? 0) = negb (Z.testbit e 7).
Proof.
  change (Z.shiftl 1 7) with (2 ^ 7). destruct (Z.testbit e 7) eqn:E; cbn [negb].
  - apply Z.eqb_neq. intros H. apply (f_equal (fun x => Z.testbit x 7)) in H.
    rewrite Z.land_spec, E, Z.bits_0 in H. by rewrite Z.pow2_bits_true in H by done.
  - apply Z.eqb_eq, Z.bits_inj'. intros i Hi. rewrite Z.land_spec, Z.bits_0, Z.pow2_bits_eqb by done.
    destruct (Z.eqb_spec 7 i) as [<-|]; [by rewrite E|by rewrite andb_false_r].
Qed.

(** ** The processor's translation *)

(** The tables of four levels; an entry of a level maps a page of its own when
    it is of the last level or, below the first, says so in bit 7. *)
Fixpoint mmu_walk (levels : list Z) (table v : Z) (m : Phys) : option Z :=
  match levels with
  | [] => None
  | n :: rest =>
    let e := pread 8 (table + 8 * (v / 2 ^ n mod 512)) m in
    if e mod 2 =? 0 then None else
    if bool_decide (rest = []) || ((n <? 39) && Z.testbit e 7)
    then Some (e mod 2 ^ 52 / 2 ^ n * 2 ^ n + v mod 2 ^ n)
    else mmu_walk rest (e mod 2 ^ 52 / 2 ^ 12 * 2 ^ 12) v m
  end.

Definition mmu (v : Z) (k : Mem) : option Z := mmu_walk [39; 30; 21; 12] (cr3 k / 2 ^ 12 * 2 ^ 12) v (ram k).

Record tables_ok (window : Z) (k : Mem) : Prop := {
  mo_window : PHYS_MEM_OFFSET k = window;
  mo_cr3 : 0 <= cr3 k < 2 ^ 64;
  mo_bytes : bytes_ok (ram k)
}.

Lemma read_phys_spec window k a : tables_ok window k -> read_phys_u64 window a k = pread 8 a (ram k).
Proof. intros [Hw _ _]. unfold read_phys_u64. cbn zeta. f_equal. lia. Qed.

Lemma pml4_mask_spec x : 0 <= x < 2 ^ 64 -> Z.land x PML4_MASK = x / 2 ^ 12 * 2 ^ 12.
Proof.
  intros [H1 H2]. change PML4_MASK with (2 ^ 64 - 2 ^ 12). rewrite land_field by lia. by rewrite (Z.mod_small x) by lia.
Qed.

Lemma page_parts e v n : 12 <= n <= 30 ->
  Z.lor (Z.land e (2 ^ 52 - 2 ^ n)) (Z.land v (2 ^ n - 1)) = e mod 2 ^ 52 / 2 ^ n * 2 ^ n + v mod 2 ^ n.
Proof. intros Hn. rewrite land_field, land_low by lia. apply lor_parts. lia. Qed.

Lemma virt_to_phys_mmu window k v : tables_ok window k -> virt_to_phys window v k = mmu v k.
Proof.
  intros Hk. unfold virt_to_phys, mmu. cbn zeta. rewrite !(read_phys_spec window k) by done.
  rewrite (pml4_mask_spec _ (mo_cr3 _ _ Hk)). rewrite !present_bit, !size_bit, !negb_involutive, !frame_mask_spec.
  rewrite !table_index_spec by done. rewrite !(Z.mul_comm (_ mod 512) 8).
  change 0x000FFFFFC0000000 with (2 ^ 52 - 2 ^ 30). change 0x3FFFFFFF with (2 ^ 30 - 1).
  change 0x000FFFFFFFE00000 with (2 ^ 52 - 2 ^ 21). change 0x001FFFFF with (2 ^ 21 - 1).
  rewrite !page_parts by lia. change 0xFFF with (2 ^ 12 - 1). rewrite land_low, lor_parts by lia.
  cbn [mmu_walk]. cbv zeta. reflexivity.
Qed.

(** ** Entries that translate alike *)

(** The bits a walk looks at: present, page size, frame. *)
Definition WALK_MASK : Z := Z.lor FRAME_MASK 0x81.

Definition alike (e e' : Z) : Prop := Z.land e' WALK_MASK = Z.land e WALK_MASK.

Definition same_entries (m m' : Phys) : Prop := forall a, a mod 8 = 0 -> alike (pread 8 a m) (pread 8 a m').

Lemma alike_land e e' s : alike e e' -> Z.land WALK_MASK s = s -> Z.land e' s = Z.land e s.
Proof. intros H Hs. rewrite <- Hs, !Z.land_assoc. by rewrite H. Qed.

Lemma alike_present e e' : alike e e' -> e' mod 2 = e mod 2.
Proof. intros H. rewrite <- !present_bit. by apply alike_land. Qed.

Lemma alike_size e e' : alike e e' -> Z.testbit e' 7 = Z.testbit e 7.
Proof.
  intros H. pose proof (alike_land _ _ (Z.shiftl 1 7) H eq_refl) as E.
  pose proof (size_bit e) as E1. pose proof (size_bit e') as E2. rewrite E, E1 in E2. by destruct (Z.testbit e 7), (Z.testbit e' 7).
Qed.

Ltac in_levels := rewrite !elem_of_cons; tauto.

Lemma alike_frame e e' n : alike e e' -> n ∈ [39; 30; 21; 12] -> e' mod 2 ^ 52 / 2 ^ n * 2 ^ n = e mod 2 ^ 52 / 2 ^ n * 2 ^ n.
Proof.
  intros H Hn. assert (12 <= n <= 52 /\ Z.land WALK_MASK (2 ^ 52 - 2 ^ n) = 2 ^ 52 - 2 ^ n) as [Hr Hm].
  { rewrite !elem_of_cons, elem_of_nil in Hn. destruct Hn as [->|[->|[->|[->|[]]]]]; (split; [lia|reflexivity]). }
  rewrite <- !land_field by lia. by apply alike_land.
Qed.

Lemma table_slot_aligned t x : (t * 2 ^ 12 + 8 * x) mod 8 = 0.
Proof. replace (t * 2 ^ 12 + 8 * x) with ((t * 512 + x) * 8) by lia. apply Z.mod_mul. done. Qed.

Lemma mmu_walk_alike levels t v m m' :
  same_entries m m' -> Forall (fun n => n ∈ [39; 30; 21; 12]) levels ->
  mmu_walk levels (t * 2 ^ 12) v m' = mmu_walk levels (t * 2 ^ 12) v m.
Proof.
  intros Hs Hl. revert t. induction Hl as [|n levels Hn Hl IH]; intros t; cbn [mmu_walk]; [done|]. cbv zeta.
  pose proof (Hs (t * 2 ^ 12 + 8 * (v / 2 ^ n mod 512)) (table_slot_aligned _ _)) as Ha.
  rewrite (alike_present _ _ Ha), (alike_size _ _ Ha), (alike_frame _ _ n Ha Hn), (alike_frame _ _ 12 Ha) by in_levels.
  by rewrite IH.
Qed.

Lemma mmu_alike v k k' : cr3 k' = cr3 k -> same_entries (ram k) (ram k') -> mmu v k' = mmu v k.
Proof. intros Hc Hs. unfold mmu. rewrite Hc. apply mmu_walk_alike; [done|]. repeat constructor; in_levels. Qed.

(** *** The walk to the last entry *)

Fixpoint pte_walk (levels : list Z) (table v : Z) (m : Phys) : option Z :=
  match levels with
  | [] => Some (table + 8 * (v / 2 ^ 12 mod 512))
  | n :: rest =>
    let e := pread 8 (table + 8 * (v / 2 ^ n mod 512)) m in
    if (e mod 2 =? 0) || ((n <? 39) && Z.testbit e 7) then None
    else pte_walk rest (e mod 2 ^ 52 / 2 ^ 12 * 2 ^ 12) v m
  end.

Definition pte_at (v : Z) (k : Mem) : option Z := pte_walk [39; 30; 21] (cr3 k / 2 ^ 12 * 2 ^ 12) v (ram k).

Lemma find_pte_walk window k v : tables_ok window k ->
  find_pte window v k = match pte_at v k with Some p => Some (p, pread 8 p (ram k)) | None => None end.
Proof.
  intros Hk. unfold find_pte, pte_at. cbn zeta. rewrite !(read_phys_spec window k) by done.
  rewrite (pml4_mask_spec _ (mo_cr3 _ _ Hk)). rewrite !present_bit, !size_bit, !negb_involutive, !frame_mask_spec.
  rewrite !table_index_spec by done. rewrite !(Z.mul_comm (_ mod 512) 8).
  cbn [pte_walk]. cbv zeta.
  repeat match goal with |- context [if ?b then _ else _] => destruct b; cbn [orb andb Z.ltb Z.compare Pos.compare Pos.compare_cont]; try done end.
Qed.

Lemma pte_walk_alike levels t v m m' :
  same_entries m m' -> pte_walk levels (t * 2 ^ 12) v m' = pte_walk levels (t * 2 ^ 12) v m.
Proof.
  intros Hs. revert t. induction levels as [|n levels IH]; intros t; cbn [pte_walk]; [done|]. cbv zeta.
  pose proof (Hs (t * 2 ^ 12 + 8 * (v / 2 ^ n mod 512)) (table_slot_aligned _ _)) as Ha.
  rewrite (alike_present _ _ Ha), (alike_size _ _ Ha), (alike_frame _ _ 12 Ha) by in_levels. by rewrite IH.
Qed.

Lemma pte_walk_aligned levels t v m p : pte_walk levels (t * 2 ^ 12) v m = Some p -> p mod 8 = 0.
Proof.
  revert t. induction levels as [|n levels IH]; intros t; cbn [pte_walk].
  - intros [= <-]. apply table_slot_aligned.
  - cbv zeta. destruct (_ || _); [done|]. apply IH.
Qed.

(** ** Executable pages *)

Definition executable (e : Z) : Prop := Z.testbit e 0 = true /\ Z.testbit e 1 = true /\ Z.testbit e 63 = false.

Lemma executable_pte_bits e i : 0 <= i < 64 ->
  Z.testbit (executable_pte e) i = (Z.testbit e i || (i <? 2)) && negb (i =? 63).
Proof.
  intros Hi. unfold executable_pte. change (Z.lxor 0xFFFFFFFFFFFFFFFF NX) with (Z.ones 63). change 0x3 with (Z.ones 2).
  rewrite Z.land_spec, Z.lor_spec, !Z.testbit_ones_nonneg by lia. f_equal.
  rewrite eq_iff_eq_true, negb_true_iff, Z.ltb_lt, Z.eqb_neq. lia.
Qed.

Lemma executable_pte_sets e : executable (executable_pte e).
Proof. unfold executable. rewrite !executable_pte_bits by lia. by destruct (Z.testbit e 0), (Z.testbit e 1), (Z.testbit e 63). Qed.

Lemma executable_pte_range e : 0 <= executable_pte e < 2 ^ 64.
Proof.
  unfold executable_pte. change (Z.lxor 0xFFFFFFFFFFFFFFFF NX) with (Z.ones 63). rewrite Z.land_ones by lia.
  pose proof (Z.mod_pos_bound (Z.lor e 3) (2 ^ 63)). lia.
Qed.

(** A present entry keeps every bit a walk looks at. *)
Lemma executable_pte_alike e : Z.testbit e 0 = true -> alike e (executable_pte e).
Proof.
  intros Hp. unfold alike, executable_pte. change (Z.lxor 0xFFFFFFFFFFFFFFFF NX) with (Z.ones 63).
  rewrite <- Z.land_assoc. change (Z.land (Z.ones 63) WALK_MASK) with WALK_MASK.
  rewrite Z.land_lor_distr_l. change (Z.land 0x3 WALK_MASK) with (2 ^ 0).
  apply Z.bits_inj'. intros i Hi. rewrite Z.lor_spec, Z.land_spec, Z.pow2_bits_eqb by lia.
  destruct (Z.eqb_spec 0 i) as [<-|]; [|by rewrite orb_false_r]. by rewrite Hp.
Qed.

Lemma alike_refl e : alike e e.
Proof. done. Qed.

(** Writing an entry leaves the other entries alone. *)
Lemma pread_slot m a b v : a mod 8 = 0 -> b mod 8 = 0 -> 0 <= v < 2 ^ 64 ->
  pread 8 a (pwrite 8 b v m) = if a =? b then v else pread 8 a m.
Proof.
  intros Ha Hb Hv. destruct (Z.eqb_spec a b) as [->|Hne]; [by apply pread_pwrite_small|].
  apply pread_apart. unfold apart. zlia.
Qed.

Lemma make_page_spec window v k :
  tables_ok window k ->
  (forall p, pte_at v k = Some p -> Z.testbit (pread 8 p (ram k)) 0 = true) ->
  let k' := make_page_executable window v k in
  tables_ok window k' /\ cr3 k' = cr3 k /\ same_entries (ram k) (ram k') /\
  (forall p, pte_at v k = Some p -> pread 8 p (ram k') = executable_pte (pread 8 p (ram k))) /\
  (forall a, a mod 8 = 0 -> pte_at v k <> Some a -> pread 8 a (ram k') = pread 8 a (ram k)).
Proof.
  intros Hk Hp. unfold make_page_executable. rewrite (find_pte_walk _ _ _ Hk).
  destruct (pte_at v k) as [p|] eqn:E; [|cbn zeta; split; [done|]; split; [done|]; split; [by intros a _|]; by split].
  pose proof (pte_walk_aligned _ _ _ _ _ E) as Hal. specialize (Hp p eq_refl).
  pose proof (executable_pte_range (pread 8 p (ram k))) as Hr.
  unfold write_phys_u64. cbn zeta. rewrite (mo_window _ _ Hk). replace (window + p - window) with p by lia. cbn [ram cr3 set_ram].
  split; [|split; [done|split; [|split]]].
  - destruct Hk as [H1 H2 H3]. split; [done|done|by apply pwrite_ok].
  - intros a Ha. rewrite pread_slot by done. destruct (Z.eqb_spec a p) as [->|]; [by apply executable_pte_alike|apply alike_refl].
  - intros p' [= <-]. by rewrite pread_slot, Z.eqb_refl by done.
  - intros a Ha Hne. rewrite pread_slot by done. destruct (Z.eqb_spec a p) as [->|]; done.
Qed.

Lemma same_entries_trans m1 m2 m3 : same_entries m1 m2 -> same_entries m2 m3 -> same_entries m1 m3.
Proof. intros H1 H2 a Ha. unfold alike. by rewrite (H2 a Ha), (H1 a Ha). Qed.

Lemma pte_at_alike v k k' : cr3 k' = cr3 k -> same_entries (ram k) (ram k') -> pte_at v k' = pte_at v k.
Proof. intros Hc Hs. unfold pte_at. rewrite Hc. by apply pte_walk_alike. Qed.

Lemma alike_bit0 e e' : alike e e' -> Z.testbit e' 0 = Z.testbit e 0.
Proof. intros H. rewrite !Z.bit0_odd. pose proof (alike_present _ _ H) as E. rewrite !Zmod_odd in E. by destruct (Z.odd e), (Z.odd e'). Qed.

(** The pages done so far. *)
Lemma make_pages_spec window vs k :
  tables_ok window k ->
  (forall v p, v ∈ vs -> pte_at v k = Some p -> Z.testbit (pread 8 p (ram k)) 0 = true) ->
  let k' := fold_left (fun k v => make_page_executable window v k) vs k in
  tables_ok window k' /\ cr3 k' = cr3 k /\ same_entries (ram k) (ram k') /\
  (forall v p, v ∈ vs -> pte_at v k = Some p -> executable (pread 8 p (ram k'))) /\
  (forall a, a mod 8 = 0 -> (forall v, v ∈ vs -> pte_at v k <> Some a) -> pread 8 a (ram k') = pread 8 a (ram k)).
Proof.
  revert k. induction vs as [|v vs IH]; intros k Hk Hp; cbn [fold_left].
  { cbn zeta. split; [done|]. split; [done|]. split; [by intros a _|]. split; [|done]. intros v p Hv. by apply elem_of_nil in Hv. }
  destruct (make_page_spec window v k Hk) as (H1 & H2 & H3 & H4 & H5); [intros p E; by apply (Hp v); [left|]|].
  set (k1 := make_page_executable window v k) in *.
  destruct (IH k1 H1) as (G1 & G2 & G3 & G4 & G5).
  { intros w p Hw. rewrite (pte_at_alike w k k1 H2 H3). intros E.
    rewrite (alike_bit0 (pread 8 p (ram k)) (pread 8 p (ram k1))); [by apply (Hp w); [right|]|].
    apply H3. by eapply pte_walk_aligned. }
  cbn zeta in *. set (k2 := fold_left _ vs k1) in *.
  split; [done|]. split; [by rewrite G2|]. split; [by eapply same_entries_trans|]. split.
  - intros w p Hw E. pose proof (pte_walk_aligned _ _ _ _ _ E) as Hal.
    destruct (decide (w ∈ vs)) as [Hin|Hout].
    { apply (G4 w p Hin). by rewrite (pte_at_alike w k k1 H2 H3). }
    apply elem_of_cons in Hw as [->|Hw]; [|done].
    destruct (decide (Exists (fun x => pte_at x k1 = Some p) vs)) as [Hx|Hx].
    + apply Exists_exists in Hx as (x & Hx%list_elem_of_In & Ex). by apply (G4 x p Hx).
    + rewrite (G5 p Hal), (H4 p E); [apply executable_pte_sets|]. intros x Hx' Ex. apply Hx, Exists_exists. exists x. split; [by apply list_elem_of_In|done].
  - intros a Ha Hn. rewrite (G5 a Ha), (H5 a Ha); [done|apply Hn; by left|].
    intros w Hw. rewrite (pte_at_alike w k k1 H2 H3). apply Hn. by right.
Qed.

Definition jit_pages (base : Z) : list Z := map (fun i => base + Z.of_nat i * 4096) (seq 0 JIT_PAGES).

Lemma make_jit_fold window base k :
  make_jit_executable window base k = fold_left (fun k v => make_page_executable window v k) (jit_pages base) k.
Proof.
  unfold make_jit_executable, jit_pages. generalize (seq 0 JIT_PAGES). intros l. revert k.
  induction l as [|i l IH]; intros k; cbn; [done|apply IH].
Qed.

(** ** The heap *)

Lemma align_up_spec x n : 0 <= n -> 0 <= x ->
  let a := Z.land (x + 2 ^ n - 1) (Z.lnot (2 ^ n - 1)) in x <= a < x + 2 ^ n /\ a mod 2 ^ n = 0.
Proof.
  intros Hn Hx. cbn zeta. pose proof (Z.pow_pos_nonneg 2 n) as Hpos.
  replace (2 ^ n - 1) with (Z.ones n) by (rewrite Z.ones_equiv; lia).
  rewrite <- Z.ldiff_land, Z.ldiff_ones_r, Z.shiftl_mul_pow2, Z.shiftr_div_pow2 by done. split; [|apply Z.mod_mul; lia].
  pose proof (Z.div_mod (x + 2 ^ n - 1) (2 ^ n)). pose proof (Z.mod_pos_bound (x + 2 ^ n - 1) (2 ^ n)). lia.
Qed.
