(* ===== verification/Engine.v ===== *)
(** * The execution engine ([kernel/src/wasm/engine.rs])

    Host-function registry, instance pool with one memory region per slot,
    and the calls that start, resume and run a module. *)

From S2P Require Import Prelude Leb128 Loader FileTable Opcode FloatOps Sections World Machine.
From S2P Require Import Dispatch Host NetHost Jit.

Definition MAX_MEM_PAGES : Z := 32.
Definition MAX_INSTANCES : nat := 4.
Definition MAX_HOST_FUNCS : nat := 48.
Definition MAX_INST_NAME : nat := 32.

Module RunError.
Inductive t :=
| Load (e : LoadError)
| Interp (e : InterpError)
| EntryNotFound
| MemoryTooLarge
| PoolFull
| ImportNotFound.

Definition as_str (e : t) : list Z :=
  match e with
  | Load e => LoadError_as_str e
  | Interp e => InterpError_as_str e
  | EntryNotFound => str "entry point not found in exports"
  | MemoryTooLarge => str "module requests more memory than the kernel allows"
  | PoolFull => str "instance pool is full"
  | ImportNotFound => str "module imports an unregistered host function"
  end.
End RunError.

(** ** State *)

Record HostEntry := mkHostEntry { he_module : list Z; he_name : list Z; he_func : HostFn }.

(** The linear memory of a pool instance is its slot's region: [interp] holds
    it while the instance runs, [SLOT_MEM] between runs. *)
Record Instance_ := mkInstance { i_bytes : list Z; interp : Interpreter }.

Record PoolSlot := mkPoolSlot {
  active : bool;
  ps_name : list Z;
  ps_name_len : nat;
  mem_pages : Z;
  inst : option Instance_
}.
Definition BLANK_SLOT : PoolSlot := mkPoolSlot false (replicate MAX_INST_NAME 0) 0 0 None.

Record Kernel := mkKernel {
  k_world : World;
  HOST_REGISTRY : list (option HostEntry);
  HOST_COUNT : nat;
  POOL : list PoolSlot;
  SLOT_MEM : list slice;
  JIT_FILL : Z
}.

Definition kernel_static : Kernel :=
  mkKernel world_static (replicate MAX_HOST_FUNCS None) 0 (replicate MAX_INSTANCES BLANK_SLOT)
    (replicate MAX_INSTANCES (zero_slice (MAX_MEM_PAGES * PAGE_SIZE))) 0.

Definition K := M Kernel RunError.t.

Definition set_k_world w k := mkKernel w (HOST_REGISTRY k) (HOST_COUNT k) (POOL k) (SLOT_MEM k) (JIT_FILL k).
Definition set_registry r n k := mkKernel (k_world k) r n (POOL k) (SLOT_MEM k) (JIT_FILL k).
Definition set_pool p k := mkKernel (k_world k) (HOST_REGISTRY k) (HOST_COUNT k) p (SLOT_MEM k) (JIT_FILL k).
Definition set_slot_mem m k := mkKernel (k_world k) (HOST_REGISTRY k) (HOST_COUNT k) (POOL k) m (JIT_FILL k).
Definition set_fill n k := mkKernel (k_world k) (HOST_REGISTRY k) (HOST_COUNT k) (POOL k) (SLOT_MEM k) n.

(** [r.map_err(f)] *)
Definition map_err {E F A} (f : E -> F) (r : result E A) : result F A :=
  match r with Ok a => Ok a | Err e => Err (f e) | Panic => Panic | OutOfFuel => OutOfFuel end.

(** ** Arguments and sleep *)

Definition set_args (args : list Z) (w : World) : World :=
  let len := Nat.min (length args) ARGS_CAP in
  set_args_buf (take len args ++ drop len (ARGS_BUF w)) len w.

Definition take_pending_sleep_ms (w : World) : Z * World := (PENDING_SLEEP_MS w, set_sleep 0 w).

(** ** Registry *)

Definition register_host (m nm : list Z) (f : HostFn) (k : Kernel) : Kernel :=
  if (HOST_COUNT k <? MAX_HOST_FUNCS)%nat
  then set_registry (<[HOST_COUNT k := Some (mkHostEntry m nm f)]> (HOST_REGISTRY k)) (S (HOST_COUNT k)) k
  else k.

Definition entry_matches (r : list (option HostEntry)) (m nm : list Z) (i : nat) : option HostFn :=
  match r !! i with
  | Some (Some e) => if bytes_eqb (he_module e) m && bytes_eqb (he_name e) nm then Some (he_func e) else None
  | _ => None
  end.

Definition lookup_host (m nm : list Z) (k : Kernel) : option HostFn :=
  find_from (entry_matches (HOST_REGISTRY k) m nm) 0 (HOST_COUNT k).

(** The [env] built-ins, in registration order. *)
Definition env_hosts : list (list Z * HostFn) :=
  [ (str "print", host host_print); (str "print_int", host host_print_int);
    (str "print_i64", host host_print_i64); (str "print_char", host host_print_char);
    (str "print_hex", host host_print_hex); (str "yield", host host_yield);
    (str "sleep_ms", host host_sleep_ms); (str "uptime_ms", host host_uptime_ms);
    (str "wasm_opcount", host host_wasm_opcount); (str "exit", host host_exit);
    (str "read_char", host host_read_char); (str "read_line", host host_read_line);
    (str "fs_read", host host_fs_read); (str "fs_write", host host_fs_write);
    (str "fs_size", host host_fs_size); (str "args_get", host host_args_get);
    (str "fb_set_pixel", host host_fb_set_pixel); (str "fb_present", host host_fb_present);
    (str "fb_blit", host host_fb_blit) ].

Definition register_all (m : list Z) (fs : list (list Z * HostFn)) (k : Kernel) : Kernel :=
  fold_left (fun k e => register_host m e.1 e.2 k) fs k.

(** The registry is emptied first. *)
Definition init_host_fns (k : Kernel) : Kernel :=
  register_all (str "net") net_hosts
    (register_all (str "env") env_hosts (set_registry (replicate MAX_HOST_FUNCS None) 0 k)).

(** ** Data segments *)

(** Outcome [true] or [false] with the memory as written so far. *)
Fixpoint init_memory_loop (n : nat) (ds : list Z) (cur : nat) (mem : slice) : result unit (bool * slice) :=
  match n with
  | O => Ok (true, mem)
  | S n' =>
    let? rest := slice_from ds cur in
    match read_u32_leb128 rest with
    | None => Ok (false, mem)
    | Some (kind, k) =>
      let cur := (cur + k)%nat in
      if negb (kind =? 0) then init_memory_loop n' ds cur mem else
      if negb (bool_decide (ds !! cur = Some 0x41)) then Ok (false, mem) else
      let cur := (cur + 1)%nat in
      let? rest := slice_from ds cur in
      match read_i32_leb128 rest with
      | None => Ok (false, mem)
      | Some (offset, k) =>
        let cur := (cur + k)%nat in
        if negb (bool_decide (ds !! cur = Some 0x0B)) then Ok (false, mem) else
        let cur := (cur + 1)%nat in
        let? rest := slice_from ds cur in
        match read_u32_leb128 rest with
        | None => Ok (false, mem)
        | Some (data_len, k) =>
          let cur := (cur + k)%nat in
          if Z.of_nat (length ds) <? Z.of_nat cur + data_len then Ok (false, mem) else
          let dst := as_usize offset in
          let dst_end := Z.min (sat_add_usize dst data_len) (slen mem) in
          if dst_end <? dst then Panic else
          let copy_len := dst_end - dst in
          let? src := slice_range ds cur (cur + Z.to_nat copy_len) in
          let? mem := swrite_bytes mem dst src in
          init_memory_loop n' ds (cur + Z.to_nat data_len) mem
        end
      end
    end
  end.

Definition init_memory (data_section : list Z) (mem : slice) : result unit (bool * slice) :=
  match read_u32_leb128 data_section with
  | None => Ok (false, mem)
  | Some (count, n) => init_memory_loop (Z.to_nat count) data_section n mem
  end.

(** ** Counting imports *)

(** [cur += n + len; if cur > bytes.len() { return func_count; }] *)
Definition skip_name (bs : list Z) (cur : nat) (func_count : nat) : result nat nat :=
  let? rest := slice_from bs cur in
  let? (len, n) := ok_or (read_u32_leb128 rest) func_count in
  if Z.of_nat (length bs) <? Z.of_nat (cur + n) + len then Err func_count
  else Ok (cur + n + Z.to_nat len)%nat.

(** An early [return func_count] is [Err]. *)
Fixpoint count_imports_loop (n : nat) (bs : list Z) (cur func_count : nat) : result nat nat :=
  match n with
  | O => Ok func_count
  | S n' =>
    let? cur := skip_name bs cur func_count in
    let? cur := skip_name bs cur func_count in
    let? kind := ok_or (bs !! cur) func_count in
    let cur := (cur + 1)%nat in
    if kind =? 0 then
      let? rest := slice_from bs cur in
      let? (_, k) := ok_or (read_u32_leb128 rest) func_count in
      count_imports_loop n' bs (cur + k) (S func_count)
    else if kind =? 1 then
      let? cur := skip_limits func_count bs (cur + 1) in count_imports_loop n' bs cur func_count
    else if kind =? 2 then
      let? cur := skip_limits func_count bs cur in count_imports_loop n' bs cur func_count
    else if kind =? 3 then count_imports_loop n' bs (cur + 2) func_count
    else Err func_count
  end.

Definition count_func_imports (import_section : option (list Z)) : result unit nat :=
  match import_section with
  | None => Ok O
  | Some bs =>
    match read_u32_leb128 bs with
    | None => Ok O
    | Some (count, n) =>
      match count_imports_loop (Z.to_nat count) bs n 0 with
      | Ok c | Err c => Ok c
      | Panic => Panic
      | OutOfFuel => OutOfFuel
      end
    end
  end.

(** ** Pool *)

(** The state of the import-resolving closure. *)
Record resolve := mkResolve { r_fns : list (option HostFn); r_idx : nat; r_missing : bool }.

Definition resolve_import (k : Kernel) (m nm : list Z) (r : resolve) : resolve :=
  if (r_idx r <? MAX_FUNCS)%nat then
    let h := lookup_host m nm k in
    mkResolve (<[r_idx r := h]> (r_fns r)) (S (r_idx r))
      (match h with None => true | Some _ => r_missing r end)
  else r.

Definition resolve_imports (sec : option (list Z)) (k : Kernel) : result unit resolve :=
  let r0 := mkResolve (replicate MAX_FUNCS None) 0 false in
  match sec with
  | Some s => for_each_func_import (resolve_import k) s r0
  | None => Ok r0
  end.

(** Never an error: its [Err] case is not produced. *)
Definition infallible {A} (r : result unit A) : K A :=
  lift (map_err (fun _ => RunError.EntryNotFound) r).

Definition write_slot_mem (h : nat) (m : slice) : K unit :=
  modify (fun k => set_slot_mem (<[h := m]> (SLOT_MEM k)) k).

(** [SLOT_MEM[slot].fill(0)] *)
Definition zero_mem (h : nat) : K unit :=
  let! ms := gets SLOT_MEM in
  let! m := lift (or_panic (ms !! h)) in
  write_slot_mem h (zero_slice (slen m)).

(** ** Native code for the functions the generator supports *)

Definition MAX_FN_BYTES : nat := 4096.

Definition sig_or_zero (c : Code) (type_idx : Z) (counts : list Z) : result unit Z :=
  if type_idx <? Z.of_nat (type_count c) then or_panic (counts !! Z.to_nat type_idx) else Ok 0.

(** One round of the loop: the table and the fill level after it, [None] when
    the code buffer is full. *)
Definition compile_one (c : Code) (bi : nat) (fns : list (option JitFn)) (fill : Z)
    : result unit (option (list (option JitFn) * Z)) :=
  let abs_idx := (import_count c + bi)%nat in
  let? body := or_panic (bodies c !! bi) in
  let? type_idx := or_panic (func_type_indices c !! bi) in
  let? n_params := sig_or_zero c type_idx (type_param_counts c) in
  let? n_results := sig_or_zero c type_idx (type_result_counts c) in
  let? n_locals := or_panic (local_counts c !! bi) in
  let '(ok, buf) := jit_compile_body body n_results (new_codebuf (replicate MAX_FN_BYTES 0)) in
  if negb ok then Ok (Some (fns, fill)) else
  let code_size := cb_len buf in
  if (code_size =? 0)%nat then Ok (Some (fns, fill)) else
  match jit_alloc (Z.of_nat code_size) fill with
  | None => Ok None
  | Some (_, fill') =>
    if (abs_idx <? length fns)%nat
    then Ok (Some (<[abs_idx := Some (take code_size (cb_buf buf))]> fns, fill')) else Panic
  end.

Fixpoint compile_rounds (n : nat) (c : Code) (bi : nat) (fns : list (option JitFn)) (fill : Z)
    : result unit (list (option JitFn) * Z * list event) :=
  match n with
  | O => Ok (fns, fill, [])
  | S n' =>
    let? r := compile_one c bi fns fill in
    match r with
    | Some (fns', fill') => compile_rounds n' c (bi + 1) fns' fill'
    | None => Ok (fns, fill, [PrintJitFull (import_count c + bi)])
    end
  end.

(** The body of [compile_jit]: the table, [JIT_FILL] and what was printed. *)
Definition compile_bodies (c : Code) (fns : list (option JitFn)) (fill : Z)
    : result unit (list (option JitFn) * Z * list event) :=
  let? (fns, fill, out) := compile_rounds (body_count c) c 0 fns fill in
  if (import_count c <=? length fns)%nat then
    let compiled := length (filter (fun f => f <> None) (drop (import_count c) fns)) in
    Ok (fns, fill, out ++ [PrintJitDone compiled (body_count c) fill])
  else Panic.

Section engine.
Context `{FloatEnv} `{Features}.

Definition compile_jit (i : Interpreter) : K Interpreter := fun k =>
  if kernel_jit then
    match compile_bodies (code i) (jit_fns i) (JIT_FILL k) with
    | Ok (fns, fill, out) =>
      (Ok (set_jit fns i), set_fill fill (set_k_world (set_log (log (k_world k) ++ out) (k_world k)) k))
    | _ => (Panic, k)
    end
  else (Ok i, k).

Definition load_data (slot : nat) (sec : option (list Z)) (i : Interpreter) : K Interpreter :=
  match sec with
  | None => ret i
  | Some data =>
    let! (b, m) := infallible (init_memory data (mem i)) in
    do! write_slot_mem slot m in
    if (b : bool) then ret (set_mem m (current_pages i) i)
    else fail (RunError.Interp MalformedCode)
  end.

(** [s.name[..nl].copy_from_slice(..)]: the tail keeps its old bytes. *)
Definition install (slot : nat) (nm : list Z) (min_pages : Z) (bytes : list Z) (i : Interpreter) : K unit :=
  let! p := gets POOL in
  let! s := lift (or_panic (p !! slot)) in
  let nl := Nat.min (length nm) MAX_INST_NAME in
  let s' := mkPoolSlot true (take nl nm ++ drop nl (ps_name s)) nl min_pages (Some (mkInstance bytes i)) in
  modify (set_pool (<[slot := s']> p)).

Definition min_pages_of (module : Module_) : K Z :=
  match memory_section module with
  | Some s => infallible (read_memory_min_pages s)
  | None => ret 0
  end.

(** The part of [spawn] after a free slot was found. *)
Definition spawn_in (slot : nat) (name bytes : list Z) : K nat :=
  let! module := lift (map_err RunError.Load (load bytes)) in
  let! min_pages := min_pages_of module in
  if MAX_MEM_PAGES <? min_pages then fail RunError.MemoryTooLarge else
  do! zero_mem slot in
  let! import_count := infallible (count_func_imports (import_section module)) in
  let! k := gets (fun k => k) in
  let! r := infallible (resolve_imports (import_section module) k) in
  if r_missing r then fail RunError.ImportNotFound else
  let! mem := lift (or_panic (SLOT_MEM k !! slot)) in
  let! i := lift (map_err RunError.Interp (Interpreter_new module import_count mem (r_fns r) min_pages)) in
  let! i := load_data slot (data_section module) i in
  let! i := compile_jit i in
  do! install slot name min_pages bytes i in
  ret slot.

Definition spawn (name bytes : list Z) : K nat :=
  let! p := gets POOL in
  let! slot := lift (ok_or (position (fun s => negb (active s)) p) RunError.PoolFull) in
  spawn_in slot name bytes.

Definition destroy (handle : nat) : K unit :=
  if (MAX_INSTANCES <=? handle)%nat then ret tt else
  let! p := gets POOL in
  let! s := lift (or_panic (p !! handle)) in
  if negb (active s) then ret tt else
  do! modify (set_pool (<[handle := mkPoolSlot false (ps_name s) (ps_name_len s) (mem_pages s) None]> p)) in
  zero_mem handle.

(** [f(handle, name, mem_pages)] for each active slot. *)
Definition for_each_instance {A} (f : nat -> list Z -> Z -> A -> A) (k : Kernel) (a : A) : A :=
  fold_left (fun a e =>
    let '(i, s) := e in
    if active s
    then f i (default (str "?") (from_utf8 (take (ps_name_len s) (ps_name s)))) (mem_pages s) a
    else a) (imap pair (POOL k)) a.

(** ** Running an instance *)

Inductive TaskResult := Completed (v : option Z) | TaskYielded.

(** The active instance of a handle. *)
Definition get_instance (handle : nat) : K Instance_ :=
  if (MAX_INSTANCES <=? handle)%nat then fail RunError.EntryNotFound else
  let! p := gets POOL in
  let! s := lift (or_panic (p !! handle)) in
  if negb (active s) then fail RunError.EntryNotFound else
  lift (or_panic (inst s)).

(** The outcome as [start_task] and [resume_task] report it. *)
Definition finish (r : result InterpError unit) (i : Interpreter) : result RunError.t TaskResult :=
  match r with
  | Ok _ => let? v := map_err RunError.Interp (top i) in Ok (Completed v)
  | Err Yielded => Ok TaskYielded
  | Err Exited => Ok (Completed None)
  | Err e => Err (RunError.Interp e)
  | Panic => Panic
  | OutOfFuel => OutOfFuel
  end.

(** Runs interpreter code on the instance. Its memory is [SLOT_MEM[handle]],
    an array whose length no code can change. *)
Definition with_interp (handle : nat) (m : I unit) : K TaskResult := fun k =>
  match POOL k !! handle, SLOT_MEM k !! handle with
  | Some s, Some sm =>
    match inst s with
    | Some ins =>
      let i := set_mem sm (current_pages (interp ins)) (interp ins) in
      let '(r, st) := m (mkSt i (k_world k) (active_mem_bytes i)) in
      let i' := it st in
      let s' := mkPoolSlot (active s) (ps_name s) (ps_name_len s) (mem_pages s)
                           (Some (mkInstance (i_bytes ins) i')) in
      (finish r i', mkKernel (world st) (HOST_REGISTRY k) (HOST_COUNT k)
                             (<[handle := s']> (POOL k)) (<[handle := Slice (slen sm) (sget (mem i'))]> (SLOT_MEM k)) (JIT_FILL k))
    | None => (Panic, k)
    end
  | _, _ => (Panic, k)
  end.

(** Arguments go straight onto the value stack. *)
Fixpoint push_args (args : list Z) : I unit :=
  match args with
  | [] => ret tt
  | a :: args' =>
    let! n := get vsp in
    if (STACK_DEPTH <=? n)%nat then fail StackOverflow else
    do! on_it (fun i => set_vstack (<[n := a]> (vstack i)) (S n) i) in
    push_args args'
  end.

Definition start_task (fuel : nat) (handle : nat) (entry : list Z) (args : list Z) : K TaskResult :=
  let! ins := get_instance handle in
  let! module := lift (map_err RunError.Load (load (i_bytes ins))) in
  let! func_idx := lift (map_err (fun _ => RunError.EntryNotFound) (find_export module entry)) in
  with_interp handle
    (do! on_it reset_for_call in
     do! push_args args in
     call fuel (Z.to_nat func_idx)).

Definition resume_task (fuel : nat) (handle : nat) : K TaskResult :=
  do! get_instance handle in
  with_interp handle (resume fuel).

(** [while let Ok(TaskResult::Yielded) = result { result = resume_task(handle); }] *)
Fixpoint drain (fuel : nat) (handle : nat) (r : result RunError.t TaskResult * Kernel)
    : result RunError.t TaskResult * Kernel :=
  match r with
  | (Ok TaskYielded, k) =>
    match fuel with
    | O => (OutOfFuel, k)
    | S fuel' => drain fuel' handle (resume_task fuel' handle k)
    end
  | _ => r
  end.

Definition run (fuel : nat) (bytes entry args : list Z) : K (option Z) :=
  let! handle := spawn [] bytes in
  fun k =>
    let '(r, k') := drain fuel handle (start_task fuel handle entry args k) in
    match r with
    | Ok (Completed v) => (do! destroy handle in ret v) k'
    | Ok TaskYielded => (Panic, k')
    | Err e => (do! destroy handle in fail e) k'
    | Panic => (Panic, k')
    | OutOfFuel => (OutOfFuel, k')
    end.
End engine.
