(* ===== verification/EngineSpec.v ===== *)
(** * Properties of the engine: registry, import counting, data segments,
    the instance pool and its isolation *)

From S2P Require Import Prelude Leb128 Loader FileTable Opcode FloatOps Sections World Machine.
From S2P Require Import Dispatch Safety Instantiate Host HostSpec NetHost Engine.

(** ** Registry *)

Lemma register_host_ok m nm f k :
  (HOST_COUNT k < MAX_HOST_FUNCS)%nat -> length (HOST_REGISTRY k) = MAX_HOST_FUNCS ->
  let k' := register_host m nm f k in
  HOST_COUNT k' = S (HOST_COUNT k) /\ length (HOST_REGISTRY k') = MAX_HOST_FUNCS /\
  forall m' nm', lookup_host m' nm' k' =
    match lookup_host m' nm' k with
    | Some g => Some g
    | None => if bytes_eqb m m' && bytes_eqb nm nm' then Some f else None
    end.
Proof.
  intros Hc Hl. cbn zeta. unfold register_host. rewrite (proj2 (Nat.ltb_lt _ _)) by done.
  split; [done|]. split; [cbn; by rewrite length_insert|]. intros m' nm'. unfold lookup_host. cbn [HOST_COUNT HOST_REGISTRY set_registry].
  set (r' := <[_ := _]> _).
  assert (forall i, entry_matches r' m' nm' i = if decide (HOST_COUNT k = i)
    then (if bytes_eqb m m' && bytes_eqb nm nm' then Some f else None)
    else entry_matches (HOST_REGISTRY k) m' nm' i) as He.
  { intros i. unfold entry_matches, r'. destruct (decide (HOST_COUNT k = i)) as [<-|Hne].
    - by rewrite list_lookup_insert_eq by lia.
    - by rewrite list_lookup_insert_ne. }
  destruct (find_from (entry_matches (HOST_REGISTRY k) m' nm') 0 (HOST_COUNT k)) as [g|] eqn:Eg.
  - apply find_from_some in Eg as (i & Hi & Hg & Hlt). apply find_from_some. exists i. split; [lia|].
    rewrite He, decide_False by lia. split; [done|]. intros j Hj. rewrite He, decide_False by lia. by apply Hlt.
  - pose proof (proj1 (find_from_none _ _ _) Eg) as Hn.
    destruct (bytes_eqb m m' && bytes_eqb nm nm') eqn:Eb.
    + apply find_from_some. exists (HOST_COUNT k). split; [lia|]. rewrite He, decide_True by done.
      split; [done|]. intros j Hj. rewrite He, decide_False by lia. apply Hn. lia.
    + apply find_from_none. intros j Hj. rewrite He. destruct (decide _); [done|]. apply Hn. lia.
Qed.

(** The first entry of a list of named functions. *)
Definition first_named (nm : list Z) (fs : list (list Z * HostFn)) : option HostFn :=
  snd <$> List.find (fun e => bytes_eqb e.1 nm) fs.

Lemma register_all_ok m fs k :
  (HOST_COUNT k + length fs <= MAX_HOST_FUNCS)%nat -> length (HOST_REGISTRY k) = MAX_HOST_FUNCS ->
  let k' := register_all m fs k in
  HOST_COUNT k' = (HOST_COUNT k + length fs)%nat /\ length (HOST_REGISTRY k') = MAX_HOST_FUNCS /\
  forall m' nm', lookup_host m' nm' k' =
    match lookup_host m' nm' k with
    | Some g => Some g
    | None => if bytes_eqb m m' then first_named nm' fs else None
    end.
Proof.
  revert k; induction fs as [|[nm f] fs IH]; intros k Hc Hl; cbn zeta; unfold register_all; cbn [fold_left length] in *.
  - split; [lia|]. split; [done|]. intros m' nm'. destruct (lookup_host m' nm' k); [done|].
    by destruct (bytes_eqb m m').
  - destruct (register_host_ok m nm f k ltac:(lia) Hl) as (H1 & H2 & H3).
    destruct (IH (register_host m nm f k) ltac:(lia) H2) as (H4 & H5 & H6). unfold register_all in *.
    split; [cbn [fst snd]; lia|]. split; [done|]. intros m' nm'. cbn [fst snd]. rewrite H6, H3.
    destruct (lookup_host m' nm' k); [done|]. unfold first_named. cbn [List.find fst].
    destruct (bytes_eqb m m'); [|done]. cbn [andb]. by destruct (bytes_eqb nm nm').
Qed.

(** After boot: every name of [env] and [net] resolves, nothing else does. *)
Lemma init_host_fns_ok k m nm :
  lookup_host m nm (init_host_fns k) =
  if bytes_eqb (str "env") m then first_named nm env_hosts else
  if bytes_eqb (str "net") m then first_named nm net_hosts else None.
Proof.
  unfold init_host_fns. set (k0 := set_registry _ _ k).
  pose proof (register_all_ok (str "env") env_hosts k0) as H1.
  cbn zeta in H1. destruct H1 as (Hc & Hl & Hf); [cbn; unfold MAX_HOST_FUNCS; lia|done|].
  set (k1 := register_all _ _ k0) in *.
  pose proof (register_all_ok (str "net") net_hosts k1) as H2.
  cbn zeta in H2. destruct H2 as (Hc2 & Hl2 & Hf2); [rewrite Hc; cbn; unfold MAX_HOST_FUNCS; lia|done|].
  rewrite Hf2, Hf. change (lookup_host m nm k0) with (@None HostFn).
  destruct (bytes_eqb (str "env") m) eqn:E1; [|done].
  apply bytes_eqb_true in E1 as <-. by destruct (first_named nm env_hosts).
Qed.

(** ** Counting and resolving imports *)

Lemma skip_name_at bs cur nm r c :
  at_cursor bs cur (encode_name nm ++ r) -> Z.of_nat (length nm) < 4294967296 ->
  exists cur', skip_name bs cur c = Ok cur' /\ at_cursor bs cur' r.
Proof.
  intros H Hl. unfold encode_name in H. rewrite <- app_assoc in H. unfold skip_name.
  parse_u32 H (len_u32 _ Hl). pose proof (at_length _ _ _ H) as Hlen. rewrite length_app in Hlen.
  rewrite (proj2 (Z.ltb_ge _ _)) by lia. rewrite Nat2Z.id. eexists. split; [done|]. by apply at_skip.
Qed.

Lemma count_imports_loop_encode ims bs cur c :
  at_cursor bs cur (concat (map encode_import ims)) -> Forall import_ok ims ->
  count_imports_loop (length ims) bs cur c = Ok (c + length (List.filter is_func_import ims))%nat.
Proof.
  revert cur c; induction ims as [|[mo nm d] ims IH]; intros cur c H Hok; [cbn; f_equal; lia|].
  apply Forall_cons_iff in Hok as [(Hml & _ & Hnl & _ & Hd) Hok]. cbn [im_mod im_name im_desc] in *.
  cbn [map concat length] in *. unfold encode_import at 1 in H.
  cbn [im_mod im_name im_desc] in H. rewrite <- !app_assoc in H. cbn [count_imports_loop].
  destruct (skip_name_at _ _ _ _ c H Hml) as (cur1 & -> & H1). cbn [rbind].
  destruct (skip_name_at _ _ _ _ c H1 Hnl) as (cur2 & -> & H2). cbn [rbind]. clear H H1. rename H2 into H.
  destruct d as [t|rt mi ma|mi ma|v mu]; cbn [encode_desc app] in H;
    rewrite (at_lookup _ _ _ _ H); cbn [ok_or rbind]; apply at_skip1 in H; cbn [Z.eqb Pos.eqb];
    cbn [List.filter is_func_import im_desc].
  - parse_u32 H Hd. rewrite IH by done. f_equal. cbn. lia.
  - apply at_skip1 in H. rewrite (skip_limits_at _ _ _ _ _ _ H Hd). cbn [rbind].
    apply at_skip in H. by apply IH.
  - rewrite (skip_limits_at _ _ _ _ _ _ H Hd). cbn [rbind]. apply at_skip in H. by apply IH.
  - apply IH; [|done]. apply (at_skip _ _ [v; mu] _ H).
Qed.

Lemma count_func_imports_encode ims :
  Z.of_nat (length ims) < 4294967296 -> Forall import_ok ims ->
  count_func_imports (Some (encode_vec encode_import ims)) = Ok (length (List.filter is_func_import ims)).
Proof.
  intros Hl Hok. unfold count_func_imports.
  destruct (encode_vec_count encode_import ims Hl) as [-> Hat]. rewrite Nat2Z.id.
  by rewrite count_imports_loop_encode.
Qed.

(** What the import of [i] resolves to. *)
Definition resolved (k : Kernel) (i : import) : option HostFn := lookup_host (im_mod i) (im_name i) k.

Lemma resolve_fold k fims pre arr miss :
  (length pre + length fims <= MAX_FUNCS)%nat -> (length fims <= length arr)%nat ->
  fold_left (fun a i => resolve_import k (im_mod i) (im_name i) a) fims
    (mkResolve (pre ++ arr) (length pre) miss) =
  mkResolve (pre ++ filled_with (map (resolved k) fims) arr) (length pre + length fims)
    (miss || existsb (fun i => bool_decide (resolved k i = None)) fims).
Proof.
  revert pre arr miss; induction fims as [|i fims IH]; intros pre arr miss Hm Ha; cbn [fold_left map existsb length] in *.
  - unfold filled_with. cbn. by rewrite drop_0, orb_false_r, Nat.add_0_r.
  - unfold resolve_import at 2. cbn [r_idx r_fns r_missing]. rewrite (proj2 (Nat.ltb_lt _ _)) by lia.
    fold (resolved k i). rewrite fill_step by (done || lia). rewrite (fill_lens pre (resolved k i) _ eq_refl).
    rewrite IH by (rewrite ?length_app, ?length_drop; cbn; lia).
    unfold filled_with. cbn [length]. rewrite drop_drop, length_app, <- !app_assoc. cbn [length app].
    f_equal; [lia|]. destruct (resolved k i); cbn; by rewrite ?orb_true_r.
Qed.

Lemma resolve_imports_encode ims k :
  Z.of_nat (length ims) < 4294967296 -> Forall import_ok ims ->
  (length (List.filter is_func_import ims) <= MAX_FUNCS)%nat ->
  let fims := List.filter is_func_import ims in
  resolve_imports (Some (encode_vec encode_import ims)) k =
  Ok (mkResolve (filled_with (map (resolved k) fims) (replicate MAX_FUNCS None)) (length fims)
        (existsb (fun i => bool_decide (resolved k i = None)) fims)).
Proof.
  intros Hl Hok Hf fims. unfold resolve_imports. rewrite for_each_func_import_encode by done. f_equal.
  apply (resolve_fold k fims [] (replicate MAX_FUNCS None) false); [done|].
  by rewrite length_replicate.
Qed.

(** ** Data segments *)

Record data_seg := mkSeg { ds_offset : Z; ds_bytes : list Z }.

Definition encode_seg (d : data_seg) : list Z :=
  encode_u32 0 ++ 0x41 :: encode_i32 (ds_offset d) ++ 0x0B :: encode_u32 (Z.of_nat (length (ds_bytes d))) ++ ds_bytes d.

(** The bytes that fit are written from the offset. *)
Definition write_seg (m : slice) (d : data_seg) : slice :=
  match swrite_bytes (E := unit) m (ds_offset d) (take (Z.to_nat (slen m - ds_offset d)) (ds_bytes d)) with
  | Ok m' => m' | _ => m
  end.

Definition seg_ok (L : Z) (d : data_seg) : Prop :=
  0 <= ds_offset d < 2147483648 /\ ds_offset d <= L /\ Z.of_nat (length (ds_bytes d)) < 4294967296.

Lemma write_seg_len m d : slen (write_seg m d) = slen m.
Proof. unfold write_seg. destruct (swrite_bytes _ _ _) eqn:E; try done. by apply swrite_bytes_ok in E as (_ & _ & ? & _). Qed.

Lemma at_take bs cur x r n :
  at_cursor bs cur (x ++ r) -> (n <= length x)%nat ->
  slice_range (E := unit) bs cur (cur + n) = Ok (take n x).
Proof.
  intros H Hn. rewrite <- (take_drop n x) in H. rewrite <- app_assoc in H.
  apply (at_slice_range _ _ _ _ _ H). rewrite length_take. lia.
Qed.

Lemma init_memory_loop_encode segs bs cur m :
  at_cursor bs cur (concat (map encode_seg segs)) -> Forall (seg_ok (slen m)) segs -> 0 <= slen m < 2147483648 ->
  init_memory_loop (length segs) bs cur m = Ok (true, fold_left write_seg segs m).
Proof.
  revert cur m; induction segs as [|[o d] segs IH]; intros cur m H Hok Hm; [done|].
  apply Forall_cons_iff in Hok as [(Ho & HoL & Hd) Hok]. cbn [ds_offset ds_bytes] in *.
  cbn [map concat length] in *. unfold encode_seg at 1 in H. cbn [ds_offset ds_bytes] in H.
  repeat (rewrite <- app_assoc in H || rewrite <- app_comm_cons in H). cbn [init_memory_loop].
  assert (is_u32 0) as H0 by (unfold is_u32; lia). parse_u32 H H0. cbn [Z.eqb negb].
  rewrite (at_lookup _ _ _ _ H), bool_decide_true by done. cbn [negb]. apply at_skip1 in H.
  rewrite (at_slice_from _ _ _ H). cbn [rbind].
  rewrite read_i32_encode by (unfold is_i32; lia). apply at_skip in H.
  rewrite (at_lookup _ _ _ _ H), bool_decide_true by done. cbn [negb]. apply at_skip1 in H.
  parse_u32 H (len_u32 _ Hd). pose proof (at_length _ _ _ H) as Hlen. rewrite length_app in Hlen.
  rewrite (proj2 (Z.ltb_ge _ _)) by lia.
  assert (as_usize o = o) as -> by (unfold_width; zlia).
  assert (sat_add_usize o (Z.of_nat (length d)) = o + Z.of_nat (length d)) as -> by (unfold sat_add_usize, USIZE_MAX; lia).
  rewrite (proj2 (Z.ltb_ge _ _)) by lia.
  rewrite (at_take _ _ _ _ _ H) by lia. cbn [rbind].
  assert (take (Z.to_nat (Z.min (o + Z.of_nat (length d)) (slen m) - o)) d = take (Z.to_nat (slen m - o)) d) as ->.
  { destruct (decide (o + Z.of_nat (length d) <= slen m)).
    - rewrite !take_ge by lia. done.
    - f_equal. lia. }
  cbn [fold_left]. unfold write_seg at 2. cbn [ds_offset ds_bytes].
  destruct (swrite_bytes_some (E := unit) m o (take (Z.to_nat (slen m - o)) d)) as [m' Hm'];
    [lia|rewrite length_take; lia|]. rewrite Hm'. cbn [rbind].
  pose proof Hm' as (_ & _ & Hl' & _)%swrite_bytes_ok.
  rewrite Nat2Z.id. apply at_skip in H. apply IH; [done| |lia]. by rewrite Hl'.
Qed.

Lemma init_memory_encode segs m :
  Z.of_nat (length segs) < 4294967296 -> Forall (seg_ok (slen m)) segs -> 0 <= slen m < 2147483648 ->
  init_memory (encode_vec encode_seg segs) m = Ok (true, fold_left write_seg segs m).
Proof.
  intros Hl Hok Hm. unfold init_memory.
  destruct (encode_vec_count encode_seg segs Hl) as [-> Hat]. rewrite Nat2Z.id.
  by apply init_memory_loop_encode.
Qed.

(** Whatever the section, the memory keeps its size and its bytes. *)
Lemma init_memory_loop_keeps n ds cur m b m' :
  init_memory_loop n ds cur m = Ok (b, m') -> Forall is_u8 ds -> (forall k, is_u8 (sget m k)) ->
  slen m' = slen m /\ forall k, is_u8 (sget m' k).
Proof.
  revert cur m; induction n as [|n IH]; intros cur m; cbn [init_memory_loop]; [by intros [= <- <-]|].
  intros E Hd Hm.
  repeat match type of E with
  | rbind ?c _ = Ok _ => destruct c eqn:?; cbn [rbind] in E; [|done..]
  | (match ?x with _ => _ end) = Ok _ => destruct x eqn:?; try done
  | Ok _ = Ok _ => injection E as <- <-; done
  end.
  - by eapply IH.
  - match goal with
    | Hw : swrite_bytes m _ _ = Ok ?m1, Hr : slice_range _ _ _ = Ok ?src |- _ =>
      pose proof Hw as (_ & _ & Hl & _)%swrite_bytes_ok; rewrite <- Hl; eapply IH; [exact E|done|];
      eapply swrite_bytes_u8; [exact Hw|done|]; by eapply slice_Forall end.
Qed.

Lemma init_memory_keeps ds m b m' :
  init_memory ds m = Ok (b, m') -> Forall is_u8 ds -> (forall k, is_u8 (sget m k)) ->
  slen m' = slen m /\ forall k, is_u8 (sget m' k).
Proof.
  unfold init_memory. destruct (read_u32_leb128 ds) as [[c n]|]; [apply init_memory_loop_keeps|by intros [= <- <-]].
Qed.

(** ** The pool *)

Record pool_ok (k : Kernel) : Prop := {
  po_pool : length (POOL k) = MAX_INSTANCES;
  po_mems : length (SLOT_MEM k) = MAX_INSTANCES;
  po_size : Forall (fun m => slen m = MAX_MEM_PAGES * PAGE_SIZE) (SLOT_MEM k);
  po_inst : forall j s, POOL k !! j = Some s -> active s = true <-> inst s <> None
}.

Lemma pool_ok_static : pool_ok kernel_static.
Proof.
  split; try done.
  - by apply Forall_replicate.
  - intros j s [-> _]%lookup_replicate_1. done.
Qed.

Lemma pool_ok_register m nm f k : pool_ok k -> pool_ok (register_host m nm f k).
Proof. intros []. unfold register_host. destruct (_ <? _)%nat; by split. Qed.

Lemma pool_ok_register_all m fs k : pool_ok k -> pool_ok (register_all m fs k).
Proof.
  revert k; induction fs as [|[nm f] fs IH]; intros k Hk; [done|]. by apply IH, pool_ok_register.
Qed.

Lemma pool_ok_init k : pool_ok k -> pool_ok (init_host_fns k).
Proof.
  intros []. unfold init_host_fns. apply pool_ok_register_all, pool_ok_register_all. by split.
Qed.

(** Everything but the memory of slot [h] is as in [k]. *)
Definition mem_only (h : nat) (k k' : Kernel) : Prop :=
  (k_world k' = k_world k /\ JIT_FILL k' = JIT_FILL k) /\
  HOST_REGISTRY k' = HOST_REGISTRY k /\ HOST_COUNT k' = HOST_COUNT k /\
  POOL k' = POOL k /\ length (SLOT_MEM k') = length (SLOT_MEM k) /\
  Forall (fun m => slen m = MAX_MEM_PAGES * PAGE_SIZE) (SLOT_MEM k') /\
  forall j, j <> h -> SLOT_MEM k' !! j = SLOT_MEM k !! j.

(** Everything but slot [h], its memory and the kernel state is as in [k]. *)
Definition others (h : nat) (k k' : Kernel) : Prop :=
  HOST_REGISTRY k' = HOST_REGISTRY k /\ HOST_COUNT k' = HOST_COUNT k /\
  forall j, j <> h -> POOL k' !! j = POOL k !! j /\ SLOT_MEM k' !! j = SLOT_MEM k !! j.

#[export] Instance others_preorder h : PreOrder (others h).
Proof.
  split; [by intros k|]. intros a b c (R1 & C1 & O1) (R2 & C2 & O2). split; [congruence|]. split; [congruence|].
  intros j Hj. destruct (O1 j Hj), (O2 j Hj). split; congruence.
Qed.

(** [outcome P m Q]: from a state in [P], success gives [Q]; any other
    outcome leaves a state in [P]. *)
Definition outcome {A} (P : Kernel -> Prop) (m : K A) (Q : A -> Kernel -> Prop) : Prop :=
  forall k, P k -> match m k with (Ok a, k') => Q a k' | (_, k') => P k' end.

Lemma outcome_bind {A B} P (m : K A) (f : A -> K B) R Q :
  outcome P m (fun a k => R a /\ P k) -> (forall a, R a -> outcome P (f a) Q) -> outcome P (bind m f) Q.
Proof.
  intros Hm Hf k Hk. specialize (Hm k Hk). unfold bind. destruct (m k) as [[a|e| |] k']; try done.
  destruct Hm as [Ha Hk']. by apply Hf.
Qed.

Lemma outcome_lift {A} P (r : result RunError.t A) : outcome P (lift r) (fun a k => r = Ok a /\ P k).
Proof. intros k Hk. by destruct r. Qed.

Lemma outcome_gets {A} P (f : Kernel -> A) : outcome P (gets f) (fun a k => (exists k0, P k0 /\ a = f k0) /\ P k).
Proof. intros k Hk. split; [by exists k|done]. Qed.

Lemma outcome_ret {A} P (a : A) (Q : A -> Kernel -> Prop) : (forall k, P k -> Q a k) -> outcome P (ret a) Q.
Proof. intros HQ k Hk. by apply HQ. Qed.

Lemma outcome_fail {A} P e (Q : A -> Kernel -> Prop) : outcome P (fail e) Q.
Proof. by intros k Hk. Qed.

Lemma outcome_infallible {A} P (r : result unit A) : outcome P (infallible r) (fun a k => r = Ok a /\ P k).
Proof. intros k Hk. by destruct r. Qed.

Lemma mem_only_refl h k : pool_ok k -> mem_only h k k.
Proof. intros Hk. repeat (split; [done|]). split; [apply Hk|done]. Qed.

Lemma write_slot_mem_only h k m :
  slen m = MAX_MEM_PAGES * PAGE_SIZE ->
  outcome (mem_only h k) (write_slot_mem h m) (fun _ k' =>
    mem_only h k k' /\ ((h < length (SLOT_MEM k))%nat -> SLOT_MEM k' !! h = Some m)).
Proof.
  intros Hm k' (H1 & H2 & H3 & H4 & H5 & H6 & H7). cbn. split.
  - repeat (split; [done|]). cbn. split; [by rewrite length_insert|].
    split; [by apply Forall_insert|]. intros j Hj. rewrite list_lookup_insert_ne by done. by apply H7.
  - intros Hlt. apply list_lookup_insert_eq. lia.
Qed.

Section spawning.
Context `{FE : FloatEnv} `{FT : Features}.

Definition region : Z := MAX_MEM_PAGES * PAGE_SIZE.

(** What a successful [spawn] has done. *)
Record spawned (k : Kernel) (name bytes : list Z) (slot : nat) (k' : Kernel) : Prop := {
  sp_slot : position (fun s => negb (active s)) (POOL k) = Some slot;
  sp_world : k_world k' = set_log (log (k_world k')) (k_world k) /\
             HOST_REGISTRY k' = HOST_REGISTRY k /\ HOST_COUNT k' = HOST_COUNT k;
  sp_mems : length (SLOT_MEM k') = length (SLOT_MEM k) /\
            Forall (fun m => slen m = region) (SLOT_MEM k') /\
            forall j, j <> slot -> SLOT_MEM k' !! j = SLOT_MEM k !! j;
  sp_inst : exists s module ic k1 rs pages i0 m fns,
    POOL k' = <[slot := s]> (POOL k) /\ active s = true /\ mem_pages s = pages /\
    inst s = Some (mkInstance bytes (set_jit fns (set_mem m pages i0))) /\
    (if kernel_jit then exists out,
       compile_bodies (code i0) (jit_fns i0) (JIT_FILL k) = Ok (fns, JIT_FILL k', out) /\
       log (k_world k') = log (k_world k) ++ out
     else fns = jit_fns i0 /\ JIT_FILL k' = JIT_FILL k /\ log (k_world k') = log (k_world k)) /\
    take (ps_name_len s) (ps_name s) = take MAX_INST_NAME name /\
    load bytes = Ok module /\ 0 <= pages <= MAX_MEM_PAGES /\
    count_func_imports (import_section module) = Ok ic /\
    mem_only slot k k1 /\ resolve_imports (import_section module) k1 = Ok rs /\ r_missing rs = false /\
    Interpreter_new module ic (zero_slice region) (r_fns rs) pages = Ok i0 /\
    SLOT_MEM k' !! slot = Some m /\
    match data_section module with
    | None => m = zero_slice region
    | Some d => init_memory d (zero_slice region) = Ok (true, m)
    end
}.

Lemma install_name (nm old : list Z) :
  let nl := Nat.min (length nm) MAX_INST_NAME in
  take nl (take nl nm ++ drop nl old) = take MAX_INST_NAME nm.
Proof.
  cbn zeta. rewrite take_app_le by (rewrite length_take; lia). rewrite take_take, Nat.min_id.
  destruct (decide (length nm <= MAX_INST_NAME)%nat).
  - by rewrite !take_ge by lia.
  - f_equal. lia.
Qed.

Lemma zero_mem_only h k :
  (h < length (SLOT_MEM k))%nat ->
  outcome (mem_only h k) (zero_mem h)
    (fun _ k' => mem_only h k k' /\ SLOT_MEM k' !! h = Some (zero_slice region)).
Proof.
  intros Hh k' Hk'. unfold zero_mem, bind, gets, lift.
  destruct (SLOT_MEM k' !! h) as [m|] eqn:Em; [|done]. cbn [or_panic].
  destruct Hk' as (H1 & H2 & H3 & H4 & H5 & H6 & H7).
  pose proof (Forall_lookup_1 _ _ _ _ H6 Em) as Hm. cbn beta in Hm.
  pose proof (write_slot_mem_only h k (zero_slice (slen m)) Hm k') as Hw.
  cbn in Hw. rewrite Hm in *. destruct Hw as [Hw1 Hw2]; [done|]. split; [done|]. by apply Hw2.
Qed.

Lemma position_lt {A} (p : A -> bool) l i : position p l = Some i -> (i < length l)%nat.
Proof. intros [(x & Hx & _) _]%position_some. by eapply lookup_lt_Some. Qed.

Lemma load_data_outcome slot k sec i0 :
  mem i0 = zero_slice region -> (slot < length (SLOT_MEM k))%nat ->
  (forall d, sec = Some d -> Forall is_u8 d) ->
  forall k', mem_only slot k k' -> SLOT_MEM k' !! slot = Some (zero_slice region) ->
  match load_data slot sec i0 k' with
  | (Ok i, k2) => mem_only slot k k2 /\ exists m,
      i = set_mem m (current_pages i0) i0 /\ SLOT_MEM k2 !! slot = Some m /\
      match sec with
      | None => m = zero_slice region
      | Some d => init_memory d (zero_slice region) = Ok (true, m)
      end
  | (_, k2) => mem_only slot k k2
  end.
Proof.
  intros Hm Hs Hd k' Hk' Hz. unfold load_data. destruct sec as [d|].
  - unfold bind at 1, infallible, lift. rewrite Hm.
    destruct (init_memory d (zero_slice region)) as [[b m]|e| |] eqn:Ei; cbn [map_err]; try done.
    destruct (init_memory_keeps _ _ _ _ Ei (Hd d eq_refl)) as [Hl _]; [done|].
    unfold bind at 1. pose proof (write_slot_mem_only slot k m Hl k' Hk') as Hw.
    destruct (write_slot_mem slot m k') as [[]  k2]; try done. destruct Hw as [Hw1 Hw2].
    destruct b; cbn; [|done]. split; [done|]. exists m. split; [done|]. split; [by apply Hw2|done].
  - cbn. split; [done|]. exists (zero_slice region). split; [|done].
    rewrite <- Hm. by destruct i0.
Qed.

Lemma new_mem module ic m hosts pages i :
  Interpreter_new module ic m hosts pages = Ok i -> mem i = m /\ current_pages i = pages.
Proof.
  unfold Interpreter_new. intros E.
  repeat match type of E with
  | rbind ?c _ = Ok _ => destruct c as [?|?| |]; cbn [rbind] in E; [|done..]
  | (let '(_, _) := ?x in _) = Ok _ => destruct x
  | (match ?x with _ => _ end) = Ok _ => destruct x
  end. by injection E as <-.
Qed.

Lemma section_u8 bytes m id d :
  Forall is_u8 bytes -> load bytes = Ok m -> section_of id m = Some d -> Forall is_u8 d.
Proof.
  intros Hb Hl Hs. pose proof (load_total bytes) as Ht. rewrite Hl in Ht.
  destruct (Ht id d Hs) as (pre & post & ->). rewrite !Forall_app in Hb. apply Hb.
Qed.

Lemma min_pages_outcome P module : outcome P (min_pages_of module) (fun p k => 0 <= p /\ P k).
Proof.
  unfold min_pages_of. destruct (memory_section module) as [s|]; [|by apply outcome_ret].
  intros k Hk. pose proof (outcome_infallible P (read_memory_min_pages s) k Hk) as Ho.
  destruct (infallible _ k) as [[p|e| |] k']; try done. destruct Ho as [Hr Ho]. split; [|done].
  destruct (read_memory_min_pages_range s) as (n & Hp & Hn). rewrite Hr in Hp. injection Hp as ->. by apply u32_nonneg.
Qed.

Lemma map_err_ok {E F A} (f : E -> F) (r : result E A) a : map_err f r = Ok a -> r = Ok a.
Proof. destruct r; cbn; congruence. Qed.

(** What compiling does to the kernel around it. *)
Lemma compiled_effect i ij k k' :
  compile_jit i k = (Ok ij, k') ->
  exists fns, ij = set_jit fns i /\ k_world k' = set_log (log (k_world k')) (k_world k) /\
    HOST_REGISTRY k' = HOST_REGISTRY k /\ HOST_COUNT k' = HOST_COUNT k /\ POOL k' = POOL k /\ SLOT_MEM k' = SLOT_MEM k /\
    (if kernel_jit then exists out,
       compile_bodies (code i) (jit_fns i) (JIT_FILL k) = Ok (fns, JIT_FILL k', out) /\
       log (k_world k') = log (k_world k) ++ out
     else fns = jit_fns i /\ JIT_FILL k' = JIT_FILL k /\ log (k_world k') = log (k_world k)).
Proof.
  unfold compile_jit. destruct kernel_jit.
  - destruct (compile_bodies _ _ _) as [[[fns fill] out]|e| |] eqn:Ec; [|done..]. intros [= <- <-].
    exists fns. do 6 (split; [done|]). by exists out.
  - intros [= <- <-]. exists (jit_fns i). split; [by destruct i|]. split; [by destruct (k_world k)|]. done.
Qed.

Lemma compile_jit_stops i k : match compile_jit i k with (Ok _, _) => True | (_, k') => k' = k end.
Proof. unfold compile_jit. destruct kernel_jit; [|done]. by destruct (compile_bodies _ _ _) as [[[? ?] ?]|?| |]. Qed.

Lemma spawn_in_outcome k slot name bytes :
  pool_ok k -> Forall is_u8 bytes -> position (fun s => negb (active s)) (POOL k) = Some slot ->
  outcome (mem_only slot k) (spawn_in slot name bytes) (fun r k' => r = slot /\ spawned k name bytes slot k').
Proof.
  intros Hk Hb Ep.
  assert (slot < length (POOL k))%nat as Hlp by by eapply position_lt.
  assert (slot < length (SLOT_MEM k))%nat as Hlt by (rewrite (po_mems k Hk), <- (po_pool k Hk); done).
  unfold spawn_in. eapply outcome_bind; [apply outcome_lift|]. intros module Hmod%map_err_ok.
  eapply outcome_bind; [apply min_pages_outcome|]. intros pages Hp0.
  destruct (MAX_MEM_PAGES <? pages) eqn:Emp; [apply outcome_fail|]. zbool.
  intros k1 Hk1. unfold bind at 1. pose proof (zero_mem_only slot k Hlt k1 Hk1) as Hz.
  destruct (zero_mem slot k1) as [[[]|e| |] k2]; try done. destruct Hz as [Hk2 Hz].
  unfold bind at 1, infallible at 1, lift at 1.
  destruct (count_func_imports _) as [ic|e| |] eqn:Ec; cbn [map_err]; try done.
  unfold bind at 1, gets at 1. unfold bind at 1, infallible at 1, lift at 1.
  destruct (resolve_imports _ k2) as [rs|e| |] eqn:Er; cbn [map_err]; try done.
  destruct (r_missing rs) eqn:Em; [done|]. unfold bind at 1, lift at 1. rewrite Hz. cbn [or_panic].
  unfold bind at 1, lift at 1.
  destruct (Interpreter_new _ _ _ _ _) as [i0|e| |] eqn:En; cbn [map_err]; try done.
  destruct (new_mem _ _ _ _ _ _ En) as [Hi0 Hp]. unfold bind at 1.
  pose proof (load_data_outcome slot k (data_section module) i0 Hi0 Hlt) as Hd.
  specialize (Hd (fun d Hd => section_u8 bytes module SECTION_DATA d Hb Hmod Hd) k2 Hk2 Hz).
  destruct (load_data _ _ _ k2) as [[i|e| |] k3]; try done. destruct Hd as (Hk3 & m & -> & Hm & Hdm).
  rewrite Hp in *. pose proof Hk3 as ((W1 & Wf) & W2 & W3 & W4 & W5 & W6 & W7).
  unfold bind at 1. pose proof (compile_jit_stops (set_mem m pages i0) k3) as Hst.
  destruct (compile_jit _ k3) as [[ij|e| |] k4] eqn:Ej; [|by rewrite Hst..].
  destruct (compiled_effect _ _ _ _ Ej) as (fns & -> & C1 & C2 & C3 & C4 & C5 & Cj).
  cbv beta iota delta [bind install gets lift modify ret]. rewrite C4, W4.
  destruct (lookup_lt_is_Some_2 (POOL k) slot Hlp) as [s Hs]. rewrite Hs. cbn [or_panic].
  rewrite W1 in C1, Cj. rewrite Wf in Cj. split; [done|]. split; cbn; rewrite ?C5; [done|split; [done|split; congruence]|done|].
  eexists _, module, ic, k2, rs, pages, i0, m, fns. do 2 (split; [done|]).
  split; [done|]. split; [done|]. split; [done|]. split; [apply install_name|]. split; [done|]. split; [lia|]. done.
Qed.

Lemma spawn_outcome k name bytes :
  pool_ok k -> Forall is_u8 bytes ->
  match spawn name bytes k with
  | (Ok slot, k') => spawned k name bytes slot k'
  | (_, k') =>
    k' = k \/ exists slot, position (fun s => negb (active s)) (POOL k) = Some slot /\ mem_only slot k k'
  end.
Proof.
  intros Hk Hb. unfold spawn. unfold bind at 1, gets at 1. unfold bind at 1, lift at 1.
  destruct (position _ (POOL k)) as [slot|] eqn:Ep; cbn [ok_or]; [|by left].
  pose proof (spawn_in_outcome k slot name bytes Hk Hb Ep k (mem_only_refl slot k Hk)) as Ho.
  destruct (spawn_in _ _ _ k) as [[r|e| |] k']; [|right; by exists slot..].
  by destruct Ho as [-> Ho].
Qed.
End spawning.

(** ** Effects on the pool, outcome by outcome *)

Lemma mem_only_others h k k' : mem_only h k k' -> others h k k'.
Proof. intros (H1 & H2 & H3 & H4 & H5 & H6 & H7). do 2 (split; [done|]). intros j Hj. rewrite H4. split; [done|by apply H7]. Qed.

Lemma mem_only_pool_ok h k k' : pool_ok k -> mem_only h k k' -> pool_ok k'.
Proof.
  intros [] (H1 & H2 & H3 & H4 & H5 & H6 & H7). split; rewrite ?H4, ?H5; auto.
Qed.

(** The occupied slots. *)
Definition occupied (k : Kernel) (j : nat) : bool :=
  match POOL k !! j with Some s => active s | None => false end.

Lemma free_slot k slot :
  position (fun s => negb (active s)) (POOL k) = Some slot ->
  occupied k slot = false /\ forall j, (j < slot)%nat -> occupied k j = true.
Proof.
  intros [(s & Hs & Ha) Hlt]%position_some. unfold occupied. split.
  - rewrite Hs. by apply negb_true_iff.
  - intros j Hj. destruct (lookup_lt_is_Some_2 (POOL k) j) as [x Hx].
    { apply lookup_lt_Some in Hs. lia. }
    rewrite Hx. apply negb_false_iff. by eapply Hlt.
Qed.

Section effects.
Context `{FE : FloatEnv} `{FT : Features}.

Lemma spawned_effect k name bytes slot k' :
  pool_ok k -> spawned k name bytes slot k' ->
  pool_ok k' /\ others slot k k' /\ occupied k slot = false /\ occupied k' slot = true /\ (slot < MAX_INSTANCES)%nat.
Proof.
  intros Hk [Hp (_ & Hr & Hc) (Hml & Hms & Hmo) (s & md & ic & k1 & rs & pg & i0 & m & fns & HP & Ha & _ & Hi & _)].
  assert (slot < length (POOL k))%nat as Hlt by by eapply position_lt.
  split; [|split; [|split; [by apply free_slot|split]]].
  - split; [rewrite HP, length_insert; apply Hk|rewrite Hml; apply Hk|done|].
    intros j x. rewrite HP. intros [(-> & -> & _)|[_ Hj]]%list_lookup_insert_Some; [|by eapply po_inst].
    by rewrite Ha, Hi.
  - split; [done|]. split; [done|]. intros j Hj. rewrite HP, list_lookup_insert_ne by done. split; [done|by apply Hmo].
  - unfold occupied. rewrite HP, list_lookup_insert_eq by done. done.
  - by rewrite <- (po_pool k Hk).
Qed.

Lemma destroy_effect h k :
  pool_ok k ->
  exists k', destroy h k = (Ok tt, k') /\ pool_ok k' /\ others h k k' /\ k_world k' = k_world k /\
    occupied k' h = false /\ (occupied k h = false -> k' = k) /\
    (occupied k h = true -> SLOT_MEM k' !! h = Some (zero_slice region)).
Proof.
  intros Hk. unfold destroy. destruct (MAX_INSTANCES <=? h)%nat eqn:Eh; zbool.
  { exists k. split; [done|]. split; [done|]. split; [done|]. split; [done|].
    unfold occupied. rewrite (lookup_ge_None_2 (POOL k)) by (rewrite (po_pool k Hk); done). done. }
  destruct (lookup_lt_is_Some_2 (POOL k) h) as [s Hs]; [by rewrite (po_pool k Hk)|].
  destruct (lookup_lt_is_Some_2 (SLOT_MEM k) h) as [m Hm]; [by rewrite (po_mems k Hk)|].
  unfold occupied. rewrite Hs. cbv beta iota delta [bind gets lift modify ret]. rewrite Hs. cbn [or_panic].
  destruct (active s) eqn:Ea; cbn [negb]; [|exists k; rewrite Hs; by rewrite Ea].
  cbv beta iota delta [zero_mem bind gets lift]. cbn [SLOT_MEM set_pool]. rewrite Hm. cbn [or_panic].
  pose proof (Forall_lookup_1 _ _ _ _ (po_size k Hk) Hm) as Hsz. cbn beta in Hsz.
  eexists. split; [done|]. split.
  { destruct Hk. split; cbn -[MAX_INSTANCES]; rewrite ?length_insert; auto.
    - by apply Forall_insert.
    - intros j x [(-> & <- & _)|[_ Hj]]%list_lookup_insert_Some; [done|by eapply po_inst0]. }
  split; [do 2 (split; [done|]); intros j Hj; cbn; by rewrite !list_lookup_insert_ne|]. split; [done|].
  cbn. rewrite !list_lookup_insert_eq by (by eapply lookup_lt_Some). split; [done|]. split; [done|].
  intros _. by rewrite Hsz.
Qed.

(** Running an instance changes its slot, its memory and the kernel state. *)
Definition own_slot (h : nat) (k k' : Kernel) : Prop :=
  pool_ok k' /\ others h k k' /\ forall j, occupied k' j = occupied k j.

Lemma own_slot_refl h k : pool_ok k -> own_slot h k k.
Proof. done. Qed.

Lemma own_slot_trans h k1 k2 k3 : own_slot h k1 k2 -> own_slot h k2 k3 -> own_slot h k1 k3.
Proof.
  intros (P1 & O1 & A1) (P2 & O2 & A2). split; [done|]. split; [by etransitivity|].
  intros j. by rewrite A2.
Qed.

Lemma with_interp_effect h m k : pool_ok k -> own_slot h k (with_interp h m k).2.
Proof.
  intros Hk. unfold with_interp.
  destruct (POOL k !! h) as [s|] eqn:Es; [|done]. destruct (SLOT_MEM k !! h) as [sm|] eqn:Em; [|done].
  destruct (inst s) as [ins|] eqn:Ei; [|done]. destruct (m _) as [r st]. cbn [snd].
  pose proof (Forall_lookup_1 _ _ _ _ (po_size k Hk) Em) as Hsz. cbn beta in Hsz.
  split; [|split].
  - pose proof Hk as []. split; cbn; rewrite ?length_insert; auto.
    + by apply Forall_insert.
    + intros j x [(-> & <- & _)|[_ Hj]]%list_lookup_insert_Some; [|by eapply po_inst0].
      cbn. destruct (po_inst0 _ _ Es) as [H1 H2]. rewrite H2 by congruence. done.
  - do 2 (split; [done|]). intros j Hj. cbn. by rewrite !list_lookup_insert_ne.
  - intros j. unfold occupied. cbn. destruct (decide (h = j)) as [<-|Hne].
    + rewrite Es, list_lookup_insert_eq by (by eapply lookup_lt_Some). done.
    + by rewrite list_lookup_insert_ne.
Qed.

Lemma bind_own {A B} h (m : K A) (f : A -> K B) k :
  own_slot h k (m k).2 -> (forall a k', own_slot h k k' -> own_slot h k (f a k').2) ->
  own_slot h k (bind m f k).2.
Proof. intros Hm Hf. unfold bind. destruct (m k) as [[a|e| |] k']; cbn [snd] in *; auto. Qed.

Lemma get_instance_own h k : pool_ok k -> own_slot h k (get_instance h k).2.
Proof.
  intros Hk. unfold get_instance. destruct (_ <=? _)%nat; [done|].
  cbv beta iota delta [bind gets lift fail]. destruct (POOL k !! h); cbn; [|done].
  by destruct (negb _).
Qed.

Lemma start_task_own fuel h entry args k : pool_ok k -> own_slot h k (start_task fuel h entry args k).2.
Proof.
  intros Hk. unfold start_task. apply bind_own; [by apply get_instance_own|]. intros ins k1 Hk1.
  unfold bind, lift. destruct (map_err _ (load _)); [|done..]. destruct (map_err _ (find_export _ _)); [|done..].
  eapply own_slot_trans; [exact Hk1|]. apply with_interp_effect, Hk1.
Qed.

Lemma resume_task_own fuel h k : pool_ok k -> own_slot h k (resume_task fuel h k).2.
Proof.
  intros Hk. unfold resume_task. apply bind_own; [by apply get_instance_own|]. intros ins k1 Hk1.
  eapply own_slot_trans; [exact Hk1|]. apply with_interp_effect, Hk1.
Qed.

Lemma drain_own fuel h k x : own_slot h k x.2 -> own_slot h k (drain fuel h x).2.
Proof.
  revert x; induction fuel as [|fuel IH]; intros [[[v|]|e| |] k'] Hx; cbn [drain]; try done.
  apply IH. eapply own_slot_trans; [exact Hx|]. apply resume_task_own, Hx.
Qed.

(** [run] gives its slot back, however the module ends, and leaves every
    other instance as it was. *)
Lemma run_effect fuel bytes entry args k :
  pool_ok k -> Forall is_u8 bytes ->
  match run fuel bytes entry args k with
  | (Panic, _) | (OutOfFuel, _) => True
  | (_, k') => pool_ok k' /\ (forall j, occupied k' j = occupied k j) /\
      forall j, occupied k j = true -> POOL k' !! j = POOL k !! j /\ SLOT_MEM k' !! j = SLOT_MEM k !! j
  end.
Proof.
  intros Hk Hb. unfold run. unfold bind at 1. pose proof (spawn_outcome k [] bytes Hk Hb) as Hs.
  destruct (spawn [] bytes k) as [[slot|e| |] k1]; try done.
  - destruct (spawned_effect _ _ _ _ _ Hk Hs) as (Hk1 & Ho1 & Hf & Hf1 & Hlt).
    pose proof (drain_own fuel slot k1 _ (start_task_own fuel slot entry args k1 Hk1)) as Hd.
    destruct (drain fuel slot _) as [r k2]. cbn [snd] in Hd. destruct Hd as (Hk2 & Ho2 & Ha2).
    destruct (destroy_effect slot k2 Hk2) as (k3 & Ed & Hk3 & Ho3 & _ & Hf3 & _).
    assert (pool_ok k3 /\ (forall j, occupied k3 j = occupied k j) /\
      forall j, occupied k j = true -> POOL k3 !! j = POOL k !! j /\ SLOT_MEM k3 !! j = SLOT_MEM k !! j) as Hfin.
    { assert (others slot k k3) as Ho by (etransitivity; [exact Ho1|etransitivity; [exact Ho2|exact Ho3]]).
      destruct Ho as (_ & _ & Ho). split; [done|]. split.
      - intros j. destruct (decide (j = slot)) as [->|Hne]; [congruence|].
        unfold occupied. by rewrite (proj1 (Ho j Hne)).
      - intros j Hj. apply Ho. congruence. }
    destruct r as [[v|]|e| |]; try done; unfold bind; rewrite Ed; done.
  - destruct Hs as [->|(slot & Hp & Hm)]; [done|]. split; [by eapply mem_only_pool_ok|].
    destruct (free_slot _ _ Hp) as [Hfree _]. destruct (mem_only_others _ _ _ Hm) as (_ & _ & Ho).
    pose proof Hm as (_ & _ & _ & HP & _). split.
    + intros j. unfold occupied. by rewrite HP.
    + intros j Hj. apply Ho. congruence.
Qed.
End effects.

(** ** Instances stay well formed: no panic reaches the kernel *)

(** A memory of the size of a pool region. *)
Definition sized : Z -> slice -> Prop := fun _ m => slen m = region.

Lemma host_ok_sized h : host_ok any_mem world_ok h -> host_ok sized world_ok h.
Proof.
  intros Hh vs n m w p Hs (H1 & H2 & H3 & H4 & H5) Hw. specialize (Hh vs n m w p Hs (conj H1 (conj H2 (conj H3 (conj H4 Logic.I)))) Hw).
  destruct (h vs n m w) as [[a|e| |] [[[vs' n'] m'] w']]; try done;
    destruct Hh as (G1 & (G2 & G3 & G4 & G5 & _) & G6 & G7); (split; [done|]); (split; [|done]);
    unfold mem_ok, sized in *; rewrite <- H5, <- G6; done.
Qed.

(** Slot [h] holds an instance whose interpreter, with the slot's memory, is
    the well-formed [i]. *)
Record inst_ok (k : Kernel) (h : nat) (i : Interpreter) : Prop := {
  io_slot : exists s ins sm, POOL k !! h = Some s /\ active s = true /\ inst s = Some ins /\
    SLOT_MEM k !! h = Some sm /\ i = set_mem sm (current_pages (interp ins)) (interp ins);
  io_lt : (h < MAX_INSTANCES)%nat;
  io_wf : wf sized world_ok i
}.

Section instances.
Context `{FE : FloatEnv} `{FT : Features}.

Lemma sized_write p (m m' : slice) :
  sized p m -> slen m' = slen m -> (forall k, p * PAGE_SIZE <= k -> sget m' k = sget m k) ->
  (forall k, is_u8 (sget m' k)) -> sized p m'.
Proof. unfold sized. congruence. Qed.

Lemma sized_grow p q (m m' : slice) :
  sized p m -> p <= q -> slen m' = slen m -> (forall k, q * PAGE_SIZE <= k -> sget m' k = sget m k) ->
  (forall k, is_u8 (sget m' k)) -> sized q m'.
Proof. unfold sized. congruence. Qed.

Lemma new_code module ic m hosts pages i :
  Interpreter_new module ic m hosts pages = Ok i -> import_count (code i) = ic /\ host_fns (code i) = hosts.
Proof.
  unfold Interpreter_new. intros E.
  repeat match type of E with
  | rbind ?c _ = Ok _ => destruct c as [?|?| |]; cbn [rbind] in E; [|done..]
  | (let '(_, _) := ?x in _) = Ok _ => destruct x
  | (match ?x with _ => _ end) = Ok _ => destruct x
  end. by injection E as <-.
Qed.

(** [P] holds of what the import callback has accumulated, early exits
    included. *)
Definition accumulated {A} (P : A -> Prop) (r : result A A) : Prop :=
  match r with Ok a | Err a => P a | _ => True end.

Definition stops_at {A B} (a : A) (r : result A B) : Prop := match r with Err x => x = a | _ => True end.

Lemma accumulated_bind {A B} (P : A -> Prop) a (c : result A B) (f : B -> result A A) :
  stops_at a c -> P a -> (forall b, accumulated P (f b)) -> accumulated P (rbind c f).
Proof. intros Hc Ha Hf. destruct c; cbn in *; subst; auto. Qed.

Lemma stops_or {A B} (a : A) (o : option B) : stops_at a (ok_or o a).
Proof. by destruct o. Qed.
Lemma stops_slice {A} (a : A) bs n : stops_at a (slice_from bs n).
Proof. unfold slice_from. by destruct (_ <=? _)%nat. Qed.
Lemma stops_limits {A} (a : A) bs n : stops_at a (skip_limits a bs n).
Proof.
  unfold skip_limits. destruct (bs !! n) as [b|]; cbn; [|done].
  unfold slice_from. destruct (_ <=? _)%nat; cbn; [|done].
  destruct (read_u32_leb128 _) as [[x y]|]; cbn; [|done]. destruct (b =? 0); [done|].
  destruct (_ <=? _)%nat; cbn; [|done]. by destruct (read_u32_leb128 _) as [[]|].
Qed.

Lemma func_import_loop_inv {A} (f : list Z -> list Z -> A -> A) (P : A -> Prop) n sec cur a :
  (forall m nm a, P a -> P (f m nm a)) -> P a -> accumulated P (func_import_loop f n sec cur a).
Proof.
  intros Hf. revert cur a; induction n as [|n IH]; intros cur a Ha; cbn [func_import_loop]; [done|].
  repeat match goal with
  | |- accumulated _ (rbind _ _) =>
    apply (accumulated_bind P a); [first [apply stops_or|apply stops_slice|apply stops_limits]|done|intros ?]
  | |- accumulated _ (let '(_, _) := ?x in _) => destruct x
  | |- accumulated _ (if ?b then _ else _) => destruct b
  end; try (by apply IH; auto); done.
Qed.

(** Every resolved import comes from the registry. *)
Lemma resolve_imports_from sec k r :
  resolve_imports sec k = Ok r ->
  length (r_fns r) = MAX_FUNCS /\
  Forall (fun h => forall f, h = Some f -> exists m nm, lookup_host m nm k = Some f) (r_fns r).
Proof.
  set (P := fun r => length (r_fns r) = MAX_FUNCS /\
    Forall (fun h => forall f, h = Some f -> exists m nm, lookup_host m nm k = Some f) (r_fns r)).
  assert (P (mkResolve (replicate MAX_FUNCS None) 0 false)) as H0.
  { split; [apply length_replicate|]. by apply Forall_replicate. }
  unfold resolve_imports. destruct sec as [s|]; [|by intros [= <-]]. unfold for_each_func_import.
  destruct (read_u32_leb128 s) as [[c n]|]; cbn [ok_or rbind]; [|by intros [= <-]].
  intros E.
  enough (accumulated P (func_import_loop (resolve_import k) (Z.to_nat c) s n (mkResolve (replicate MAX_FUNCS None) 0 false))) as Ha.
  { destruct (func_import_loop _ _ _ _ _); simplify_eq; done. }
  apply func_import_loop_inv; [|done]. intros m nm a [Hl Hfa]. unfold resolve_import. destruct (_ <? _)%nat; [|done].
  split; cbn; [by rewrite length_insert|]. apply Forall_insert; [done|]. intros f Hf. eauto.
Qed.

(** Without the native code generator nothing is printed. *)
Lemma spawned_quiet k name bytes slot k' :
  kernel_jit = false -> spawned k name bytes slot k' -> k_world k' = k_world k.
Proof.
  intros Hj [_ [Hw _] _ (s & md & ic & k1 & rs & pg & i0 & m & fns & _ & _ & _ & _ & Hf & _)].
  rewrite Hj in Hf. destruct Hf as (_ & _ & Hl). rewrite Hw, Hl. by destruct (k_world k).
Qed.

(** A spawned instance is well formed when its imports are. *)
Lemma spawned_inst_ok k name bytes slot k' :
  pool_ok k -> Forall is_u8 bytes -> kernel_jit = false -> spawned k name bytes slot k' ->
  (forall s ins, POOL k' !! slot = Some s -> inst s = Some ins ->
     (import_count (code (interp ins)) + body_count (code (interp ins)) <= MAX_FUNCS)%nat /\
     Forall (fun h => forall f, h = Some f -> host_ok any_mem world_ok f) (host_fns (code (interp ins)))) ->
  exists i, inst_ok k' slot i.
Proof.
  intros Hk Hb Hj Hsp Hmod. destruct (spawned_effect _ _ _ _ _ Hk Hsp) as (_ & _ & _ & _ & Hlt).
  destruct Hsp as [Hp _ (_ & Hms & _) (s & md & ic & k1 & rs & pg & i0 & m & fns & HP & Ha & _ & Hi & Hfns & _ & Hld & Hpg & Hc & Hm1 & Hr & _ & Hnew & Hm & Hdat)].
  assert (POOL k' !! slot = Some s) as Hs.
  { rewrite HP. apply list_lookup_insert_eq. by eapply position_lt. }
  destruct (Hmod s _ Hs Hi) as [Hcnt Hhosts]. rewrite Hj in Hfns. destruct Hfns as (-> & _ & _). cbn [interp code] in *.
  destruct (new_mem _ _ _ _ _ _ Hnew) as [Hmem Hpages]. destruct (new_code _ _ _ _ _ _ Hnew) as [Hic Hho].
  pose proof (Forall_lookup_1 _ _ _ _ Hms Hm) as Hsz. cbn beta in Hsz.
  assert (forall x, is_u8 (sget m x)) as Hu8.
  { destruct (data_section md) as [d|] eqn:Ed; [|by subst m].
    by apply (init_memory_keeps _ _ _ _ Hdat); [eapply (section_u8 bytes md SECTION_DATA)|]. }
  assert (forall m0, slen m0 = region -> (forall x, is_u8 (sget m0 x)) -> mem_ok sized pg m0) as Hmok.
  { intros m0 Hl Hu. unfold mem_ok, sized. rewrite Hl. unfold region, MAX_MEM_PAGES, PAGE_SIZE in *.
    repeat split; try lia; auto. apply Hu. apply Hu. }
  exists (set_jit (jit_fns i0) (set_mem m pg i0)). split; [|done|].
  - exists s. eexists. exists m. do 2 (split; [done|]). split; [exact Hi|]. split; [done|]. done.
  - assert (wf sized world_ok i0) as Hwf.
    { eapply new_wf; [exact Hnew| | | | |].
      - intros cb Hcb. by eapply (section_u8 bytes md SECTION_CODE).
      - by apply Hmok.
      - cbn in Hcnt. rewrite Hic in Hcnt. exact Hcnt.
      - by apply (resolve_imports_from _ _ _ Hr).
      - cbn in Hhosts. rewrite Hho in Hhosts. revert Hhosts. apply Forall_impl.
        intros x Hx f Hf. by apply host_ok_sized, Hx. }
    destruct Hwf. split; cbn; auto. rewrite Hsz, Hmem in *. by rewrite <- Hpages.
Qed.

(** The host functions of a spawned instance are its resolved imports. *)
Lemma spawned_hosts k name bytes slot k' s ins ims :
  spawned k name bytes slot k' -> POOL k' !! slot = Some s -> inst s = Some ins ->
  (forall module, load bytes = Ok module -> import_section module = Some (encode_vec encode_import ims)) ->
  Z.of_nat (length ims) < 4294967296 -> Forall import_ok ims ->
  (length (List.filter is_func_import ims) <= MAX_FUNCS)%nat ->
  host_fns (code (interp ins)) =
    filled_with (map (resolved k) (List.filter is_func_import ims)) (replicate MAX_FUNCS None).
Proof.
  intros [Hp _ _ (s' & md & ic & k1 & rs & pg & i0 & m & fns & HP & _ & _ & Hi & _ & _ & Hld & _ & _ & Hm1 & Hr & _ & Hnew & _)]
    Hs Hins Hims Hl Hok Hf.
  rewrite HP, list_lookup_insert_eq in Hs by (by eapply position_lt). injection Hs as <-.
  rewrite Hi in Hins. injection Hins as <-. rewrite (Hims md Hld) in Hr.
  rewrite resolve_imports_encode in Hr by done. injection Hr as <-.
  destruct (new_code _ _ _ _ _ _ Hnew) as [_ Hh]. cbn [r_fns] in Hh.
  assert (map (resolved k1) (List.filter is_func_import ims) = map (resolved k) (List.filter is_func_import ims)) as E.
  { apply map_ext. intros i. unfold resolved, lookup_host. destruct Hm1 as (_ & -> & -> & _). done. }
  by rewrite E in Hh.
Qed.

(** What interpreter code must give for the kernel to go on. *)
Definition keeps (x : result InterpError unit * St) : Prop :=
  match x with
  | (Panic, _) => False
  | (OutOfFuel, _) => True
  | (_, st) => wf sized world_ok (it st) /\ world_ok (world st)
  end.

(** What an engine call gives its caller. *)
Definition step_safe (h : nat) (x : result RunError.t TaskResult * Kernel) : Prop :=
  match x with
  | (Panic, _) => False
  | (OutOfFuel, _) => True
  | (_, k') => world_ok (k_world k') /\ exists i', inst_ok k' h i'
  end.

Lemma top_safe i : wf sized world_ok i -> exists v, top i = Ok v.
Proof.
  intros Hw. unfold top. destruct (0 <? vsp i)%nat eqn:E; [|eauto]. zbool.
  destruct (wf_stack _ _ _ Hw) as (Hl & _ & Hn).
  destruct (lookup_lt_is_Some_2 (vstack i) (vsp i - 1)) as [v ->]; [lia|]. cbn. eauto.
Qed.

Lemma with_interp_safe h m k i :
  inst_ok k h i -> keeps (m (mkSt i (k_world k) (active_mem_bytes i))) -> step_safe h (with_interp h m k).
Proof.
  intros [(s & ins & sm & Hs & Ha & Hi & Hsm & Ei) Hlt Hwf] Hm. unfold with_interp.
  rewrite Hs, Hsm, Hi, <- Ei. destruct (m _) as [r st].
  assert (slen sm = region) as Hsz.
  { destruct (wf_mem _ _ _ Hwf) as (_ & _ & _ & _ & Hz). by rewrite Ei in Hz. }
  assert (wf sized world_ok (it st) -> inst_ok
    (mkKernel (world st) (HOST_REGISTRY k) (HOST_COUNT k)
       (<[h := mkPoolSlot (active s) (ps_name s) (ps_name_len s) (mem_pages s)
                 (Some (mkInstance (i_bytes ins) (it st)))]> (POOL k))
       (<[h := Slice (slen sm) (sget (mem (it st)))]> (SLOT_MEM k)) (JIT_FILL k)) h (it st)) as Hok.
  { intros Hw. split; [|done|done].
    eexists _, _, _. cbn. rewrite !list_lookup_insert_eq by (by eapply lookup_lt_Some).
    do 4 (split; [done|]). cbn [interp]. destruct (wf_mem _ _ _ Hw) as (_ & _ & _ & _ & Hz).
    unfold sized in Hz. rewrite Hsz, <- Hz. destruct (it st) as [? ? ? ? ? ? ? ? me]. by destruct me. }
  destruct r as [u|e| |]; cbn [finish]; try done; destruct Hm as [Hw Hwo].
  - destruct (top_safe _ Hw) as [v ->]. cbn. split; [done|]. eexists. by apply Hok.
  - destruct e; cbn; (split; [done|]); eexists; by apply Hok.
Qed.

Lemma loop_keeps fuel i w :
  wf sized world_ok i -> world_ok w -> guarded_from (mkSt i w (active_mem_bytes i)) ->
  forall a, keeps (Dispatch.run fuel (mkSt i w a)).
Proof.
  intros Hw Hwo Hg a. unfold Dispatch.run, cache_active, set_active, bind, get, gets, modify. cbn [it world].
  pose proof (run_loop_safe sized world_ok world_ok_emit world_ok_count sized_write sized_grow fuel
    (mkSt i w (active_mem_bytes i))) as Hl.
  specialize (Hl (conj Hw (conj eq_refl Hwo)) Hg). unfold keeps.
  destruct (run_loop fuel _) as [[u|e| |] st]; try done.
  - by destruct Hl as [(H1 & _ & H2) _].
  - by destruct Hl as (H1 & _ & H2).
Qed.

Lemma get_instance_ok h k i :
  inst_ok k h i -> exists ins, get_instance h k = (Ok ins, k) /\ exists s, POOL k !! h = Some s /\ inst s = Some ins.
Proof.
  intros [(s & ins & sm & Hs & Ha & Hi & _) Hlt _]. exists ins. unfold get_instance.
  rewrite (proj2 (Nat.leb_gt _ _)) by done. cbv beta iota delta [bind gets lift]. rewrite Hs. cbn [or_panic].
  rewrite Ha. cbn [negb]. rewrite Hi. cbn. eauto.
Qed.

(** Resuming a suspended instance. *)
Lemma resume_task_safe fuel h k i :
  inst_ok k h i -> world_ok (k_world k) -> guarded_from (mkSt i (k_world k) (active_mem_bytes i)) ->
  step_safe h (resume_task fuel h k).
Proof.
  intros Hi Hw Hg. unfold resume_task, bind. destruct (get_instance_ok _ _ _ Hi) as (ins & -> & _).
  eapply with_interp_safe; [exact Hi|]. apply loop_keeps; [apply Hi|done|done].
Qed.

(** ** Starting a function *)

Lemma wf_reset i : wf sized world_ok i -> wf sized world_ok (reset_for_call i).
Proof.
  intros []. split; cbn -[STACK_DEPTH]; auto; try lia.
  - destruct wf_stack as (? & ? & ?). split; [done|]. split; [done|lia].
  - split; cbn; intros; lia.
Qed.

Lemma push_args_ok args : Forall is_i64 args -> ok sized world_ok (push_args args) (fun _ => True).
Proof.
  induction 1 as [|a args Ha _ IH]; cbn [push_args]; [by apply ok_ret|].
  pose proof (v_push_ok sized world_ok a Ha) as Hp. intros s Hs. specialize (Hp s Hs).
  cbv beta iota delta [v_push get gets bind fail on_it modify] in *.
  destruct (_ <=? _)%nat; [done|]. apply IH, Hp.
Qed.

(** The state the dispatch loop starts from. *)
Definition entered (func_idx : nat) (args : list Z) (i : Interpreter) (w : World) : result InterpError unit * St :=
  (do! on_it reset_for_call in
   do! push_args args in
   let! c := get code in
   if (func_idx <? import_count c)%nat then fail ImportNotFound else
   let body_idx := (func_idx - import_count c)%nat in
   if (body_count c <=? body_idx)%nat then fail FuncIndexOutOfRange else
   push_frame body_idx) (mkSt i w (active_mem_bytes i)).

Lemma entered_ok func_idx args i w :
  wf sized world_ok i -> world_ok w -> Forall is_i64 args ->
  match entered func_idx args i w with
  | (Panic, _) => False
  | (OutOfFuel, _) => True
  | (_, st) => WF sized world_ok st
  end.
Proof.
  intros Hw Hwo Ha.
  enough (ok sized world_ok (do! push_args args in
   let! c := get code in
   if (func_idx <? import_count c)%nat then fail ImportNotFound else
   let body_idx := (func_idx - import_count c)%nat in
   if (body_count c <=? body_idx)%nat then fail FuncIndexOutOfRange else
   push_frame body_idx) (fun _ => True)) as Hok.
  { specialize (Hok (mkSt (reset_for_call i) w (active_mem_bytes i))). unfold entered, on_it, modify.
    unfold bind at 1. cbn [it world active_mem].
    specialize (Hok (conj (wf_reset _ Hw) (conj eq_refl Hwo))).
    destruct (bind _ _ _) as [[?|?| |] st]; try done. apply Hok. }
  eapply ok_bind; [by apply push_args_ok|]. intros _ _.
  eapply ok_bind; [apply get_code_ok|]. intros c Hc.
  destruct (_ <? _)%nat; [apply ok_fail|]. cbn zeta. destruct (_ <=? _)%nat eqn:E; [apply ok_fail|]. zbool.
  apply push_frame_ok. pose proof (co_body_count _ _ _ Hc). lia.
Qed.

(** [start_task]'s work on the interpreter: enter the function, then loop. *)
Lemma call_entered fuel func_idx args i w :
  (do! on_it reset_for_call in do! push_args args in call fuel func_idx) (mkSt i w (active_mem_bytes i)) =
  match entered func_idx args i w with
  | (Ok _, st) => Dispatch.run fuel st
  | (Err e, st) => (Err e, st)
  | (Panic, st) => (Panic, st)
  | (OutOfFuel, st) => (OutOfFuel, st)
  end.
Proof.
  unfold entered, call. cbv beta iota delta [bind on_it modify get gets fail]. cbn [it world active_mem].
  destruct (push_args args _) as [[u|e| |] s1]; try done.
  destruct (_ <? _)%nat; [done|]. destruct (_ <=? _)%nat; [done|].
  by destruct (push_frame _ s1) as [[?|?| |] s2].
Qed.

Lemma start_task_safe fuel h k i entry args :
  inst_ok k h i -> world_ok (k_world k) -> Forall is_i64 args ->
  (forall idx st, entered idx args i (k_world k) = (Ok tt, st) -> guarded_from st) ->
  step_safe h (start_task fuel h entry args k).
Proof.
  intros Hi Hw Ha Hg. unfold start_task. unfold bind at 1.
  destruct (get_instance_ok _ _ _ Hi) as (ins & -> & _).
  unfold bind at 1, lift at 1. pose proof (load_total (i_bytes ins)) as Hl.
  destruct (load (i_bytes ins)) as [md|e| |]; cbn [map_err]; try done; [|cbn; split; [done|by exists i]].
  unfold bind at 1, lift at 1. pose proof (find_export_safe md entry) as Hf.
  destruct (find_export md entry) as [idx|e| |]; cbn [map_err]; try done; [|cbn; split; [done|by exists i]].
  eapply with_interp_safe; [exact Hi|]. specialize (Hg (Z.to_nat idx)).
  pose proof (entered_ok (Z.to_nat idx) args i (k_world k) (io_wf _ _ _ Hi) Hw Ha) as He.
  rewrite call_entered. destruct (entered _ _ _ _) as [[[]|e| |] st]; try done.
  - destruct He as (H1 & H2 & H3). pose proof (loop_keeps fuel (it st) (world st) H1 H3) as Hk.
    rewrite <- H2 in Hk. specialize (Hk ltac:(destruct st; by apply Hg) (active_mem st)). by destruct st.
  - by destruct He as (H1 & _ & H3).
Qed.
End instances.

(** ** A spawned module satisfies the loop's invariant *)

(** The names of the functions a module imports. *)
Definition imported (module : Module_) : list (list Z * list Z) :=
  match import_section module with
  | Some s => match for_each_func_import (fun m nm l => (m, nm) :: l) s [] with Ok l => l | _ => [] end
  | None => []
  end.

(** How many functions it has, counted as [spawn] counts imports and
    [Interpreter::new] bodies. *)
Definition function_count (module : Module_) : nat :=
  match count_func_imports (import_section module) with Ok n => n | _ => 0 end +
  match code_section module with
  | Some s => match read_u32_at s 0 with Ok (n, _) => Z.to_nat n | _ => 0 end
  | None => 0
  end.

(** The built-ins that index guest memory or the socket tables with values of
    the module unchecked. *)
Definition unchecked : list (list Z * list Z) :=
  (str "env", str "print") ::
  map (pair (str "net")) [str "send"; str "recv"; str "close"; str "accept"; str "udp_send"; str "udp_recv"].

Lemma env_checked : Forall (fun e => (str "env", e.1) ∈ unchecked \/ host_ok any_mem world_ok e.2) env_hosts.
Proof.
  unfold env_hosts. apply Forall_cons_2; [left; apply list_elem_of_here|].
  repeat (apply Forall_cons_2; [right; first
    [ apply host_print_int_ok | apply host_print_i64_ok | apply host_print_char_ok | apply host_print_hex_ok
    | apply host_yield_ok | apply host_sleep_ms_ok | apply host_uptime_ms_ok | apply host_wasm_opcount_ok
    | apply host_exit_ok | apply host_read_char_ok | apply host_read_line_ok | apply host_fs_read_ok
    | apply host_fs_write_ok | apply host_fs_size_ok | apply host_args_get_ok | apply host_fb_set_pixel_ok
    | apply host_fb_present_ok | apply host_fb_blit_ok ]|]). apply Forall_nil_2.
Qed.

Lemma net_checked : Forall (fun e => (str "net", e.1) ∈ unchecked \/ host_ok any_mem world_ok e.2) net_hosts.
Proof.
  unfold net_hosts. repeat (apply Forall_cons_2; [first
    [ right; apply (hok_host _ (fun _ => True)); intros n Hn; eexists; first
      [ apply host_net_listen_hok | apply host_net_connect_hok | apply host_net_set_ip_hok | apply host_net_status_hok
      | apply host_net_get_ip_hok | apply host_net_udp_bind_hok | apply host_net_udp_connect_hok | apply host_net_udp_close_hok ]; lia
    | left; apply list_elem_of_In; vm_compute; tauto ]|]). apply Forall_nil_2.
Qed.

Lemma first_named_in nm hs h : first_named nm hs = Some h -> In (nm, h) hs.
Proof.
  unfold first_named. rewrite fmap_Some. intros ([x y] & [Hin Hx%bytes_eqb_true]%List.find_some & ->). cbn in *. by subst.
Qed.

Lemma builtin_checked k m nm h : lookup_host m nm (init_host_fns k) = Some h -> (m, nm) ∉ unchecked -> host_ok any_mem world_ok h.
Proof.
  rewrite init_host_fns_ok. intros E Hu.
  destruct (bytes_eqb (str "env") m) eqn:Em; [|destruct (bytes_eqb (str "net") m) eqn:En; [|done]];
    apply first_named_in in E; apply bytes_eqb_true in Em || apply bytes_eqb_true in En; subst m.
  - pose proof env_checked as HF. rewrite Forall_forall in HF. by destruct (HF _ E).
  - pose proof net_checked as HF. rewrite Forall_forall in HF. by destruct (HF _ E).
Qed.

(** Two callbacks that keep a relation keep it along the import section. *)
Definition related {A B} (R : A -> B -> Prop) (x : result A A) (y : result B B) : Prop :=
  match x, y with
  | Ok a, Ok b | Err a, Err b => R a b
  | Panic, Panic | OutOfFuel, OutOfFuel => True
  | _, _ => False
  end.

(** The same computation, stopping with [a] or with [b]. *)
Definition alike {A B X} (a : A) (b : B) (x : result A X) (y : result B X) : Prop :=
  match x, y with
  | Ok u, Ok v => u = v
  | Err e, Err e' => e = a /\ e' = b
  | Panic, Panic | OutOfFuel, OutOfFuel => True
  | _, _ => False
  end.

Lemma related_bind {A B X} (R : A -> B -> Prop) a b (x : result A X) y f g :
  alike a b x y -> R a b -> (forall u, related R (f u) (g u)) -> related R (rbind x f) (rbind y g).
Proof. destruct x, y; cbn; intros; try done; [subst; auto|]. destruct H as [-> ->]. done. Qed.

Lemma alike_or {A B X} (a : A) (b : B) (o : option X) : alike a b (ok_or o a) (ok_or o b).
Proof. by destruct o. Qed.
Lemma alike_slice {A B} (a : A) (b : B) bs n : alike a b (slice_from bs n) (slice_from bs n).
Proof. unfold slice_from. by destruct (_ <=? _)%nat. Qed.
Lemma alike_limits {A B} (a : A) (b : B) bs n : alike a b (skip_limits a bs n) (skip_limits b bs n).
Proof.
  unfold skip_limits. destruct (bs !! n) as [c|]; cbn; [|done].
  unfold slice_from. destruct (_ <=? _)%nat; cbn; [|done].
  destruct (read_u32_leb128 _) as [[x y]|]; cbn; [|done]. destruct (c =? 0); [done|].
  destruct (_ <=? _)%nat; cbn; [|done]. by destruct (read_u32_leb128 _) as [[]|].
Qed.

Lemma func_import_loop_rel {A B} f g (R : A -> B -> Prop) n sec cur a b :
  (forall m nm a b, R a b -> R (f m nm a) (g m nm b)) -> R a b ->
  related R (func_import_loop f n sec cur a) (func_import_loop g n sec cur b).
Proof.
  intros Hf. revert cur a b; induction n as [|n IH]; intros cur a b Ha; cbn [func_import_loop]; [done|].
  repeat match goal with
  | |- related _ (rbind _ _) (rbind _ _) =>
    apply (related_bind R a b); [first [apply alike_or|apply alike_slice|apply alike_limits]|done|intros ?]
  | |- related _ (let '(_, _) := ?x in _) _ => destruct x
  | |- related _ (if ?b then _ else _) _ => destruct b
  end; try (by apply IH; auto); done.
Qed.

(** Every host function of an instance is one its module imports. *)
Lemma resolved_are_imported module k rs : resolve_imports (import_section module) k = Ok rs ->
  Forall (fun h => forall f, h = Some f -> exists m nm, (m, nm) ∈ imported module /\ lookup_host m nm k = Some f) (r_fns rs).
Proof.
  set (R := fun (r : resolve) (l : list (list Z * list Z)) =>
    Forall (fun h => forall f, h = Some f -> exists m nm, (m, nm) ∈ l /\ lookup_host m nm k = Some f) (r_fns r)).
  assert (R0 : R (mkResolve (replicate MAX_FUNCS None) 0 false) []) by (by apply Forall_replicate).
  assert (RS : forall m nm r l, R r l -> R (resolve_import k m nm r) ((m, nm) :: l)).
  { intros m nm r l Hr. assert (Hr' : R r ((m, nm) :: l)).
    { revert Hr. apply Forall_impl. intros h Hh f Hf. destruct (Hh f Hf) as (m' & nm' & Hi & E). exists m', nm'.
      split; [by apply list_elem_of_further|done]. }
    unfold resolve_import. destruct (_ <? _)%nat; [|done]. apply Forall_insert; [done|].
    intros f Hf. exists m, nm. split; [apply list_elem_of_here|done]. }
  unfold resolve_imports, imported. destruct (import_section module) as [s|]; [|intros [= <-]; exact R0].
  unfold for_each_func_import. destruct (read_u32_leb128 s) as [[c n]|]; cbn [ok_or rbind]; [|intros [= <-]; exact R0].
  pose proof (func_import_loop_rel (resolve_import k) (fun m nm l => (m, nm) :: l) R (Z.to_nat c) s n _ [] RS R0) as H.
  destruct (func_import_loop (resolve_import k) _ _ _ _), (func_import_loop (fun m nm l => _) _ _ _ _); cbn in *; intros [= <-] || intros; done.
Qed.

Lemma new_body_count module ic m hosts pages i : Interpreter_new module ic m hosts pages = Ok i ->
  exists s n k, code_section module = Some s /\ read_u32_at s 0 = Ok (n, k) /\ body_count (code i) = Z.to_nat n.
Proof.
  unfold Interpreter_new, parse_code_section. intros E. destruct (code_section module) as [s|]; [|by unchain].
  exists s. unchain. injection E as <-. cbn. repeat match goal with H : _ = Ok _ |- _ => revert H end. cbn [ok_or].
  intros. simplify_eq. eauto.
Qed.

Lemma spawned_from_module `{FE : FloatEnv} `{FT : Features} k name bytes slot k' module s ins :
  spawned k name bytes slot k' -> (forall m nm, lookup_host m nm k = lookup_host m nm (init_host_fns k)) ->
  load bytes = Ok module -> (function_count module <= MAX_FUNCS)%nat -> Forall (fun im => im ∉ unchecked) (imported module) ->
  POOL k' !! slot = Some s -> inst s = Some ins ->
  (import_count (code (interp ins)) + body_count (code (interp ins)) <= MAX_FUNCS)%nat /\
  Forall (fun h => forall f, h = Some f -> host_ok any_mem world_ok f) (host_fns (code (interp ins))).
Proof.
  intros [Hp _ _ (s' & md & ic & k1 & rs & pg & i0 & m & fns & HP & _ & _ & Hi & _ & _ & Hld & _ & Hc & Hm1 & Hr & _ & Hnew & _)]
    Hreg Hl Hn Him Hs Hins.
  rewrite HP, list_lookup_insert_eq in Hs by (by eapply position_lt). injection Hs as <-.
  rewrite Hi in Hins. injection Hins as <-. rewrite Hl in Hld. injection Hld as <-. cbn [interp code set_jit set_mem].
  destruct (new_code _ _ _ _ _ _ Hnew) as [-> ->].
  destruct (new_body_count _ _ _ _ _ _ Hnew) as (cs & n & x & Ecs & En & ->). split.
  - unfold function_count in Hn. by rewrite Hc, Ecs, En in Hn.
  - apply resolved_are_imported in Hr. revert Hr. apply Forall_impl. intros h Hh f Hf.
    destruct (Hh f Hf) as (mn & nm & Hin & Hlk). eapply builtin_checked.
    + rewrite <- Hreg, <- Hlk. destruct Hm1 as (_ & E1 & E2 & _). unfold lookup_host. by rewrite E1, E2.
    + rewrite Forall_forall in Him. apply Him. by apply list_elem_of_In.
Qed.
