(* ===== verification/Task.v ===== *)
(** * Tasks and the round-robin scheduler
    ([kernel/src/wasm/task.rs], [kernel/src/scheduler.rs]) *)

From S2P Require Import Prelude Leb128 Loader FileTable Opcode FloatOps World Editor.
From S2P Require Import Machine Dispatch Safety Host HostSpec Engine EngineSpec.

Definition MAX_TASKS : nat := MAX_INSTANCES.
Definition MAX_NAME : nat := 32.
Definition MAX_TASK_ARGS : nat := 8.

Inductive TaskState := Ready | Running | Suspended | Sleeping (wake : Z) | Done.

#[export] Instance TaskState_eq_dec : EqDecision TaskState.
Proof. solve_decision. Defined.

Record Task := mkTask {
  state : TaskState;
  instance : nat;
  t_name : list Z;
  t_name_len : nat;
  wasm_args : list Z;
  wasm_argc : nat
}.

Definition set_state (st : TaskState) (t : Task) : Task :=
  mkTask st (instance t) (t_name t) (t_name_len t) (wasm_args t) (wasm_argc t).

(** The engine, the task queue, the scheduler's cursor and the shell's line
    editor. *)
Record Sys := mkSys {
  kern : Kernel;
  TASK_QUEUE : list (option Task);
  CURSOR : nat;
  editor : CommandLineEditor
}.

Definition sys_static : Sys := mkSys kernel_static (replicate MAX_TASKS None) 0 new_editor.

Definition set_kern k s := mkSys k (TASK_QUEUE s) (CURSOR s) (editor s).
Definition set_queue q s := mkSys (kern s) q (CURSOR s) (editor s).
Definition set_cursor c s := mkSys (kern s) (TASK_QUEUE s) c (editor s).
Definition set_editor e s := mkSys (kern s) (TASK_QUEUE s) (CURSOR s) e.
Definition redraw s := set_editor (request_render (editor s)) s.

Definition T := M Sys RunError.t.

(** Runs engine code. *)
Definition on_kern {A} (m : K A) : T A := fun s =>
  let '(r, k) := m (kern s) in (r, set_kern k s).

(** Runs engine code whose [Err] is a value the caller inspects. *)
Definition attempt {A} (m : K A) : T (result RunError.t A) := fun s =>
  match m (kern s) with
  | (Ok a, k) => (Ok (Ok a), set_kern k s)
  | (Err e, k) => (Ok (Err e), set_kern k s)
  | (Panic, k) => (Panic, set_kern k s)
  | (OutOfFuel, k) => (OutOfFuel, set_kern k s)
  end.

Definition on_sys_world (f : World -> World) : T unit :=
  modify (fun s => set_kern (set_k_world (f (k_world (kern s))) (kern s)) s).

Definition put_task (id : nat) (t : option Task) : T unit :=
  modify (fun s => set_queue (<[id := t]> (TASK_QUEUE s)) s).

(** [TASK_QUEUE[id]] *)
Definition get_task (id : nat) : T (option Task) :=
  let! q := gets TASK_QUEUE in lift (or_panic (q !! id)).

(** [buf[..n].copy_from_slice(&l[..n])] into [cap] zeroes. *)
Definition pad_to (cap : nat) (l : list Z) : list Z := take cap l ++ replicate (cap - length l) 0.

Section tasks.
Context `{FloatEnv} `{Features}.

Definition task_spawn (name bytes args : list Z) : T nat :=
  let! q := gets TASK_QUEUE in
  let! slot := lift (ok_or (position (fun t => bool_decide (t = None)) q) RunError.PoolFull) in
  let! ins := on_kern (spawn name bytes) in
  let nl := Nat.min (length name) MAX_NAME in
  let argc := Nat.min (length args) MAX_TASK_ARGS in
  do! put_task slot
    (Some (mkTask Ready ins (pad_to MAX_NAME name) nl (pad_to MAX_TASK_ARGS args) argc)) in
  ret slot.

Definition task_kill (id : nat) : T unit :=
  if (MAX_TASKS <=? id)%nat then ret tt else
  let! t := get_task id in
  match t with
  | Some t => do! put_task id None in on_kern (destroy (instance t))
  | None => ret tt
  end.

Definition task_state (id : nat) : T (option TaskState) :=
  if (MAX_TASKS <=? id)%nat then ret None else
  let! t := get_task id in ret (state <$> t).

(** [Sleeping] and the wake tick not reached. *)
Definition still_sleeping (t : Task) (now : Z) : bool :=
  match state t with Sleeping wake => now <? wake | _ => false end.

(** A sleeping task whose tick has come is woken before the step. *)
Definition wake_up (t : Task) : Task :=
  match state t with Sleeping _ => set_state Suspended t | _ => t end.

(** What the outcome of a step does to the task. *)
Definition update_task (id : nat) (t : Task) (r : result RunError.t TaskResult) : T unit :=
  match r with
  | Ok TaskYielded =>
    let! w := gets (fun s => k_world (kern s)) in
    let '(sleep_ms, w') := take_pending_sleep_ms w in
    do! on_sys_world (fun _ => w') in
    if 0 <? sleep_ms then
      let wake := ticks w + (sleep_ms + 9) / 10 in
      if 18446744073709551616 <=? wake then panic
      else put_task id (Some (set_state (Sleeping wake) t))
    else put_task id (Some (set_state Suspended t))
  | _ => do! on_kern (destroy (instance t)) in put_task id None
  end.

Definition task_step (fuel : nat) (id : nat) : T (option (result RunError.t TaskResult)) :=
  if (MAX_TASKS <=? id)%nat then ret None else
  let! o := get_task id in
  match o with
  | None => ret None
  | Some t =>
    let! now := gets (fun s => ticks (k_world (kern s))) in
    if still_sleeping t now then ret None else
    let t := wake_up t in
    do! put_task id (Some t) in
    match state t with
    | Ready =>
      let t' := set_state Running t in
      do! put_task id (Some t') in
      let! r := attempt (start_task fuel (instance t) (str "main") (take (wasm_argc t) (wasm_args t))) in
      do! update_task id t' r in ret (Some r)
    | Suspended =>
      let t' := set_state Running t in
      do! put_task id (Some t') in
      let! r := attempt (resume_task fuel (instance t)) in
      do! update_task id t' r in ret (Some r)
    | _ => ret None
    end
  end.

Definition runnable (t : Task) (now : Z) : bool :=
  match state t with
  | Ready | Suspended => true
  | Sleeping wake => wake <=? now
  | _ => false
  end.

Definition is_task_runnable (id : nat) (s : Sys) : bool :=
  if (MAX_TASKS <=? id)%nat then false else
  match TASK_QUEUE s !! id with
  | Some (Some t) => runnable t (ticks (k_world (kern s)))
  | _ => false
  end.

Definition for_each_task {A} (f : nat -> list Z -> TaskState -> A -> A) (s : Sys) (a : A) : A :=
  fold_left (fun a e =>
    match e with
    | (i, Some t) => f i (default (str "?") (from_utf8 (take (t_name_len t) (t_name t)))) (state t) a
    | _ => a
    end) (imap pair (TASK_QUEUE s)) a.

(** ** Scheduler *)

(** The first runnable task from the one after the cursor, cyclically. *)
Definition next_task (s : Sys) : option nat :=
  let start := ((CURSOR s + 1) mod MAX_TASKS)%nat in
  find_from (fun i => let id := ((start + i) mod MAX_TASKS)%nat in
                      if is_task_runnable id s then Some id else None) 0 MAX_TASKS.

(** ["[task {}] done"], ["[task {}] error: {}"] for [id < MAX_TASKS]. *)
Definition task_line (id : nat) (rest : list Z) : list Z :=
  str "[task " ++ [48 + Z.of_nat id] ++ str "] " ++ rest ++ [NL].

Definition run_next_task (fuel : nat) : T bool := fun s =>
  match next_task s with
  | None => (Ok false, s)
  | Some id =>
    (do! modify (set_cursor id) in
     let! r := task_step fuel id in
     do! match r with
         | Some (Ok (Completed _)) =>
           do! on_sys_world (emit (Print (task_line id (str "done")))) in modify redraw
         | Some (Err e) =>
           do! on_sys_world (emit (Print (task_line id (str "error: " ++ RunError.as_str e)))) in
           modify redraw
         | _ => ret tt
         end in
     ret true) s
  end.
End tasks.

(** * Properties of tasks and of the scheduler

    The ownership invariant between the task queue and the instance pool, for
    every sequence of kernel actions; isolation of tasks from each other;
    sleeping; fairness of the round-robin turn. *)

(** ** The ownership invariant *)

(** The states a task is in between two scheduler turns. *)
Definition parked (st : TaskState) : Prop :=
  match st with Ready | Suspended | Sleeping _ => True | Running | Done => False end.

Record sys_inv (s : Sys) : Prop := {
  si_pool : pool_ok (kern s);
  si_queue : length (TASK_QUEUE s) = MAX_TASKS;
  si_cursor : (CURSOR s < MAX_TASKS)%nat;
  si_task : forall id t, TASK_QUEUE s !! id = Some (Some t) ->
    occupied (kern s) (instance t) = true /\ parked (state t);
  si_distinct : forall i j t u, TASK_QUEUE s !! i = Some (Some t) -> TASK_QUEUE s !! j = Some (Some u) ->
    instance t = instance u -> i = j
}.

Lemma sys_inv_static : sys_inv sys_static.
Proof.
  split; try done.
  - apply pool_ok_static.
  - unfold sys_static, MAX_TASKS, MAX_INSTANCES. cbn. lia.
  - intros id t [H _]%lookup_replicate_1. done.
  - intros i j t u [H _]%lookup_replicate_1. done.
Qed.

Lemma others_occupied h k k' j : others h k k' -> j <> h -> occupied k' j = occupied k j.
Proof. intros (_ & _ & Ho) Hj. unfold occupied. by rewrite (proj1 (Ho j Hj)). Qed.

(** A task keeps its slot while its state and its instance change. *)
Lemma inv_update s id t t' k b :
  sys_inv s -> TASK_QUEUE s !! id = Some (Some t) -> instance t' = instance t -> parked (state t') ->
  pool_ok k -> others (instance t) (kern s) k -> occupied k (instance t) = true ->
  sys_inv (mkSys k (<[id := Some t']> (TASK_QUEUE s)) (CURSOR s) b).
Proof.
  intros Hs Ht Hi Hp Hk Ho Hocc. pose proof Hs as []. split; cbn; auto.
  - by rewrite length_insert.
  - intros j u [(-> & [= <-] & _)|[Hne Hj]]%list_lookup_insert_Some; [by rewrite Hi|].
    destruct (si_task0 j u Hj) as [H1 H2]. split; [|done]. rewrite (others_occupied _ _ _ _ Ho); [done|].
    intros E. apply Hne. by eapply si_distinct0.
  - intros i j u v [(-> & [= <-] & _)|[Hni Hu]]%list_lookup_insert_Some
      [(-> & [= <-] & _)|[Hnj Hv]]%list_lookup_insert_Some E; try done.
    + rewrite Hi in E. by eapply si_distinct0.
    + rewrite Hi in E. by eapply si_distinct0.
    + by eapply si_distinct0.
Qed.

(** A task and its instance go together. *)
Lemma inv_remove s id t k b :
  sys_inv s -> TASK_QUEUE s !! id = Some (Some t) -> pool_ok k -> others (instance t) (kern s) k ->
  sys_inv (mkSys k (<[id := None]> (TASK_QUEUE s)) (CURSOR s) b).
Proof.
  intros Hs Ht Hk Ho. pose proof Hs as []. split; cbn; auto.
  - by rewrite length_insert.
  - intros j u [(_ & ? & _)|[Hne Hj]]%list_lookup_insert_Some; [done|].
    destruct (si_task0 j u Hj) as [H1 H2]. split; [|done]. rewrite (others_occupied _ _ _ _ Ho); [done|].
    intros E. apply Hne. by eapply si_distinct0.
  - intros i j u v [(_ & ? & _)|[Hni Hu]]%list_lookup_insert_Some
      [(_ & ? & _)|[Hnj Hv]]%list_lookup_insert_Some E; try done.
    by eapply si_distinct0.
Qed.

(** Only the kernel state changed. *)
Lemma inv_world s w : sys_inv s -> sys_inv (set_kern (set_k_world w (kern s)) s).
Proof. intros []. split; auto. by destruct si_pool0; split. Qed.

Lemma inv_render s b : sys_inv s -> sys_inv (set_editor b s).
Proof. intros []. by split. Qed.

Lemma inv_cursor s c : sys_inv s -> (c < MAX_TASKS)%nat -> sys_inv (set_cursor c s).
Proof. intros [] Hc. by split. Qed.

(** Engine work outside the tasks' slots. *)
Lemma inv_kern s k :
  sys_inv s -> pool_ok k -> (forall j, occupied (kern s) j = true -> occupied k j = true) ->
  sys_inv (set_kern k s).
Proof.
  intros [] Hk Ho. split; cbn; auto. intros id t Ht. destruct (si_task0 id t Ht). auto.
Qed.

(** ** One step of a task *)

(** The other tasks, their instances and their memories are untouched. *)
Definition isolated (id : nat) (s s' : Sys) : Prop :=
  forall j u, j <> id -> TASK_QUEUE s !! j = Some (Some u) ->
    TASK_QUEUE s' !! j = Some (Some u) /\
    POOL (kern s') !! instance u = POOL (kern s) !! instance u /\
    SLOT_MEM (kern s') !! instance u = SLOT_MEM (kern s) !! instance u.

Definition good_step (id : nat) (s s' : Sys) : Prop :=
  sys_inv s' /\ isolated id s s' /\ CURSOR s' = CURSOR s.

Lemma isolated_others s id t k q c b :
  sys_inv s -> TASK_QUEUE s !! id = Some (Some t) -> others (instance t) (kern s) k ->
  (forall j, j <> id -> q !! j = TASK_QUEUE s !! j) -> isolated id s (mkSys k q c b).
Proof.
  intros Hs Ht (_ & _ & Ho) Hq j u Hj Hu. cbn. rewrite Hq by done. split; [done|].
  apply Ho. intros E. apply Hj. by eapply (si_distinct s Hs).
Qed.

Section steps.
Context `{FE : FloatEnv} `{FT : Features}.

Lemma insert_insert_queue (q : list (option Task)) id x y : <[id := x]> (<[id := y]> q) = <[id := x]> q.
Proof. apply list_insert_insert_eq. Qed.

(** The state between the choice of the task and its outcome. *)
Lemma update_task_good s0 id t t' k q r s' s :
  sys_inv s -> TASK_QUEUE s !! id = Some (Some t) -> instance t' = instance t ->
  own_slot (instance t) (kern s) k ->
  q = <[id := Some t']> (TASK_QUEUE s) -> s0 = mkSys k q (CURSOR s) (editor s) ->
  update_task id t' r s0 = (Ok tt, s') -> good_step id s s'.
Proof.
  intros Hs Ht Hi (Hk & Ho & Ha) -> ->. assert (occupied k (instance t) = true) as Hocc.
  { rewrite Ha. by apply (si_task s Hs id t Ht). }
  assert (forall k2 x b, pool_ok k2 -> others (instance t) k k2 ->
    match x with Some t2 => instance t2 = instance t /\ parked (state t2) /\ occupied k2 (instance t) = true | None => True end ->
    good_step id s (mkSys k2 (<[id := x]> (TASK_QUEUE s)) (CURSOR s) b)) as Hgood.
  { intros k2 x b Hk2 Ho2 Hx. assert (others (instance t) (kern s) k2) as Ho3 by (etransitivity; done).
    split; [|split; [|done]].
    - destruct x as [t2|]; [|by eapply inv_remove]. destruct Hx as (? & ? & ?). by eapply inv_update.
    - eapply isolated_others; [done|done|done|]. intros j Hj. by rewrite list_lookup_insert_ne. }
  assert (pool_ok (set_k_world (set_sleep 0 (k_world k)) k)) as Hk' by (by destruct Hk; split).
  unfold update_task. destruct r as [[v|]|e| |].
  2: { cbv beta iota delta [bind gets on_sys_world modify take_pending_sleep_ms put_task panic]. cbn [kern k_world].
    destruct (0 <? _); [destruct (18446744073709551616 <=? _); [done|]|];
      intros [= <-]; unfold set_queue, set_kern; cbn [kern TASK_QUEUE CURSOR editor];
      rewrite insert_insert_queue; by apply Hgood. }
  all: destruct (destroy_effect (instance t') k Hk) as (k2 & Ed & Hk2 & Ho2 & _);
    cbv beta iota delta [bind on_kern put_task modify]; cbn [kern]; rewrite Ed;
    intros [= <-]; unfold set_queue, set_kern; cbn [kern TASK_QUEUE CURSOR editor];
    rewrite insert_insert_queue; rewrite Hi in Ho2; by apply Hgood.
Qed.

Lemma attempt_ok {A} (m : K A) s r s' :
  attempt m s = (Ok r, s') -> s' = set_kern (m (kern s)).2 s.
Proof. unfold attempt. destruct (m (kern s)) as [[a|e| |] k]; intros [= <- <-]; done. Qed.

Lemma step_run_good id t t1 s (m : K TaskResult) o s' :
  sys_inv s -> TASK_QUEUE s !! id = Some (Some t) -> instance t1 = instance t ->
  own_slot (instance t) (kern s) (m (kern s)).2 ->
  (let! r := attempt m in do! update_task id t1 r in ret (Some r))
    (mkSys (kern s) (<[id := Some t1]> (TASK_QUEUE s)) (CURSOR s) (editor s)) = (Ok o, s') ->
  good_step id s s'.
Proof.
  intros Hs Ht Hi Hown E. unfold bind at 1 in E.
  destruct (attempt m _) as [[r|e| |] s1] eqn:Ea; try done. apply attempt_ok in Ea. cbn [kern] in Ea.
  unfold bind in E. destruct (update_task id t1 r s1) as [[[]|e| |] s2] eqn:Eu; try done.
  injection E as <- <-. eapply update_task_good; [exact Hs|exact Ht|exact Hi|exact Hown|reflexivity| |exact Eu].
  by rewrite Ea.
Qed.

Lemma task_step_good fuel id s o s' :
  sys_inv s -> task_step fuel id s = (Ok o, s') -> good_step id s s'.
Proof.
  intros Hs. unfold task_step. destruct (_ <=? _)%nat eqn:Eid; [by intros [= <- <-]|]. zbool.
  unfold get_task. unfold bind at 1, bind at 1, gets at 1, lift at 1.
  destruct (lookup_lt_is_Some_2 (TASK_QUEUE s) id) as [o' Ho']; [by rewrite (si_queue s Hs)|].
  rewrite Ho'. cbn [or_panic]. destruct o' as [t|]; [|by intros [= <- <-]].
  unfold bind at 1, gets at 1. destruct (still_sleeping t _) eqn:Esl; [by intros [= <- <-]|].
  unfold bind at 1, put_task at 1, modify at 1.
  set (s1 := set_queue _ s).
  assert (instance (wake_up t) = instance t) as Hwi by (unfold wake_up; by destruct (state t)).
  pose proof (proj2 (si_task s Hs id t Ho')) as Hpk.
  assert (own_slot (instance t) (kern s) (kern s)) as Hown by (apply own_slot_refl, Hs).
  assert (state (wake_up t) = Ready \/ state (wake_up t) = Suspended) as Hst.
  { unfold wake_up. destruct (state t) eqn:E2; cbn in *; rewrite ?E2; auto; done. }
  destruct Hst as [Est|Est]; rewrite Est; unfold bind at 1, put_task at 1, modify at 1;
    cbn [s1 set_queue TASK_QUEUE kern CURSOR editor]; rewrite insert_insert_queue; intros E;
    (eapply (step_run_good id t (set_state Running (wake_up t))); [done|exact Ho'|exact Hwi| |exact E]);
    rewrite Hwi; [apply start_task_own, Hs|apply resume_task_own, Hs].
Qed.

(** ** Creating and killing tasks *)

Lemma task_spawn_good name bytes args s :
  sys_inv s -> Forall is_u8 bytes ->
  match task_spawn name bytes args s with
  | (Ok id, s') => sys_inv s' /\ isolated id s s' /\ TASK_QUEUE s !! id = Some None /\ CURSOR s' = CURSOR s /\
      exists t, TASK_QUEUE s' = <[id := Some t]> (TASK_QUEUE s) /\ state t = Ready /\
        occupied (kern s) (instance t) = false /\
        take (wasm_argc t) (wasm_args t) = take MAX_TASK_ARGS args
  | (_, s') => sys_inv s' /\ TASK_QUEUE s' = TASK_QUEUE s /\ POOL (kern s') = POOL (kern s) /\ CURSOR s' = CURSOR s
  end.
Proof.
  intros Hs Hb. unfold task_spawn. unfold bind at 1, gets at 1. unfold bind at 1, lift at 1.
  destruct (position _ (TASK_QUEUE s)) as [id|] eqn:Ep; cbn [ok_or]; [|done].
  unfold bind at 1, on_kern. pose proof (spawn_outcome (kern s) name bytes (si_pool s Hs) Hb) as Ho.
  destruct (spawn name bytes (kern s)) as [r k].
  assert (forall k, k = kern s \/ (exists slot,
      position (fun s => negb (active s)) (POOL (kern s)) = Some slot /\ mem_only slot (kern s) k) ->
    sys_inv (set_kern k s) /\ TASK_QUEUE (set_kern k s) = TASK_QUEUE s /\
    POOL (kern (set_kern k s)) = POOL (kern s) /\ CURSOR (set_kern k s) = CURSOR s) as Hfail.
  { intros k0 [->|(slot & _ & Hm)]; [by destruct s|]. pose proof Hm as (_ & _ & _ & HP & _).
    split; [|done]. apply inv_kern; [done|by eapply mem_only_pool_ok, Hm; apply Hs|].
    intros j. unfold occupied. by rewrite HP. }
  destruct r as [ins|e| |]; [|by apply Hfail..]. clear Hfail.
  destruct (spawned_effect _ _ _ _ _ (si_pool s Hs) Ho) as (Hk & Hoth & Hfree & Hocc & Hlt).
  apply position_some in Ep as [(x & Hx & Hn) _]. apply bool_decide_eq_true in Hn as ->.
  unfold bind, put_task, modify, ret. unfold set_queue, set_kern. cbn [kern TASK_QUEUE CURSOR editor].
  set (t := mkTask _ _ _ _ _ _).
  assert (forall j u, TASK_QUEUE s !! j = Some (Some u) -> instance u <> ins) as Hne.
  { intros j u Hu E. destruct (si_task s Hs j u Hu) as [H1 _]. congruence. }
  split; [|split; [|split; [done|split; [done|]]]].
  - pose proof Hs as []. split; cbn; auto.
    + by rewrite length_insert.
    + intros j u [(-> & [= <-] & _)|[_ Hj]]%list_lookup_insert_Some; [done|].
      destruct (si_task0 j u Hj) as [H1 H2]. split; [|done].
      rewrite (others_occupied _ _ _ _ Hoth); [done|by eapply Hne].
    + intros i j u v [(-> & [= <-] & _)|[_ Hu]]%list_lookup_insert_Some
        [(-> & [= <-] & _)|[_ Hv]]%list_lookup_insert_Some E; try done.
      * exfalso. eapply Hne; [exact Hv|]. by rewrite <- E.
      * exfalso. eapply Hne; [exact Hu|]. by rewrite E.
      * by eapply si_distinct0.
  - intros j u Hj Hu. cbn. rewrite list_lookup_insert_ne by done. split; [done|].
    destruct Hoth as (_ & _ & Hoth). apply Hoth. by eapply Hne.
  - exists t. split; [done|]. split; [done|]. split; [done|]. unfold t. cbn [wasm_argc wasm_args]. unfold pad_to.
    rewrite take_app_le by (rewrite length_take; lia). rewrite take_take.
    destruct (decide (length args <= MAX_TASK_ARGS)%nat); [by rewrite !take_ge by lia|f_equal; lia].
Qed.

Lemma task_kill_good id s :
  sys_inv s -> exists s', task_kill id s = (Ok tt, s') /\ good_step id s s' /\
    forall t, TASK_QUEUE s !! id = Some (Some t) ->
      TASK_QUEUE s' !! id = Some None /\ occupied (kern s') (instance t) = false /\
      SLOT_MEM (kern s') !! instance t = Some (zero_slice region).
Proof.
  intros Hs. unfold task_kill. destruct (_ <=? _)%nat eqn:Eid; zbool.
  { exists s. split; [done|]. split; [done|]. intros t Ht%lookup_lt_Some. rewrite (si_queue s Hs) in Ht. lia. }
  unfold get_task. unfold bind at 1, bind at 1, gets at 1, lift at 1.
  destruct (lookup_lt_is_Some_2 (TASK_QUEUE s) id) as [o Ho]; [by rewrite (si_queue s Hs)|].
  rewrite Ho. cbn [or_panic]. destruct o as [t|]; [|exists s; done].
  destruct (destroy_effect (instance t) (kern s) (si_pool s Hs)) as (k2 & Ed & Hk2 & Ho2 & _ & Hf & _ & Hz).
  unfold bind, put_task, modify, on_kern. cbn [kern set_queue]. rewrite Ed. eexists. split; [done|].
  unfold set_kern. cbn [kern TASK_QUEUE CURSOR editor set_queue]. split; [split; [|split; [|done]]|].
  - by eapply inv_remove.
  - eapply isolated_others; [done|done|done|]. intros j Hj. by rewrite list_lookup_insert_ne.
  - intros t' [= <-]. split; [apply list_lookup_insert_eq; by rewrite (si_queue s Hs)|].
    split; [done|]. apply Hz. by apply (si_task s Hs id t).
Qed.

(** ** The scheduler's turn *)

Lemma next_task_some s id :
  next_task s = Some id -> (id < MAX_TASKS)%nat /\ is_task_runnable id s = true.
Proof.
  unfold next_task. intros (i & _ & Hi & _)%find_from_some. destruct (is_task_runnable _ s) eqn:E; [|done].
  assert ((((CURSOR s + 1) mod MAX_TASKS + i) mod MAX_TASKS)%nat = id) as <- by (by injection Hi).
  split; [|done]. apply Nat.mod_upper_bound. unfold MAX_TASKS, MAX_INSTANCES. lia.
Qed.

Lemma run_next_task_good fuel s b s' :
  sys_inv s -> run_next_task fuel s = (Ok b, s') ->
  match next_task s with
  | None => b = false /\ s' = s
  | Some id => b = true /\ sys_inv s' /\ isolated id s s' /\ CURSOR s' = id
  end.
Proof.
  intros Hs. unfold run_next_task. destruct (next_task s) as [id|] eqn:En; [|by intros [= <- <-]].
  destruct (next_task_some _ _ En) as [Hid _]. unfold bind at 1, modify at 1. unfold bind at 1.
  destruct (task_step fuel id _) as [[o|e| |] s1] eqn:Et; try done.
  apply task_step_good in Et as (H1 & H2 & H3); [|by apply inv_cursor].
  unfold bind at 1. destruct o as [[[v|]|e| |]|];
    cbv beta iota delta [on_sys_world modify bind ret]; intros [= <- <-];
    (split; [done|]); cbn in H3;
    (split; [first [exact H1 | apply inv_render, inv_world, H1]|]); (split; [exact H2|done]).
Qed.
End steps.

(** ** Every sequence of kernel actions *)

Section system.
Context `{FE : FloatEnv} `{FT : Features}.

(** What happens to the kernel between two points of its main loop: timer
    interrupts, key strokes, scheduler turns, and the shell's [run],
    [task-run], [task-kill] and argument passing. An action that completes;
    [a] is the action's kind. *)
Inductive action := ATick | AKey | ATurn | ASpawn | AKill (id : nat) | ARun | AArgs.

Inductive sys_step : action -> Sys -> Sys -> Prop :=
| step_tick s : sys_step ATick s (set_kern (set_k_world (pit_on_tick (k_world (kern s))) (kern s)) s)
| step_key s sc : sys_step AKey s
    (set_kern (set_k_world (set_keyboard (scancodes (k_world (kern s)) ++ [sc]) (SHIFT (k_world (kern s)))
                              (k_world (kern s))) (kern s)) s)
| step_turn s fuel b s' : run_next_task fuel s = (Ok b, s') -> sys_step ATurn s s'
| step_spawn s name bytes args id s' :
    Forall is_u8 bytes -> task_spawn name bytes args s = (Ok id, s') -> sys_step ASpawn s s'
| step_spawn_fail s name bytes args e s' :
    Forall is_u8 bytes -> task_spawn name bytes args s = (Err e, s') -> sys_step ASpawn s s'
| step_kill s id s' : task_kill id s = (Ok tt, s') -> sys_step (AKill id) s s'
| step_run s fuel bytes entry args v s' :
    Forall is_u8 bytes -> on_kern (run fuel bytes entry args) s = (Ok v, s') -> sys_step ARun s s'
| step_run_fail s fuel bytes entry args e s' :
    Forall is_u8 bytes -> on_kern (run fuel bytes entry args) s = (Err e, s') -> sys_step ARun s s'
| step_args s bs :
    sys_step AArgs s (set_kern (set_k_world (set_args bs (k_world (kern s))) (kern s)) s).

Lemma on_kern_run_good fuel bytes entry args s r s' :
  sys_inv s -> Forall is_u8 bytes -> on_kern (run fuel bytes entry args) s = (r, s') ->
  r <> Panic -> r <> OutOfFuel ->
  sys_inv s' /\ TASK_QUEUE s' = TASK_QUEUE s /\ CURSOR s' = CURSOR s.
Proof.
  intros Hs Hb E Hp Hf. pose proof (run_effect fuel bytes entry args (kern s) (si_pool s Hs) Hb) as Hr.
  unfold on_kern in E. destruct (run _ _ _ _ (kern s)) as [[v|e| |] k]; injection E as <- <-; try done;
    destruct Hr as (Hk & Ho & _); (split; [|done]); apply inv_kern; try done; intros j; by rewrite Ho.
Qed.

Lemma sys_step_inv a s s' : sys_inv s -> sys_step a s s' -> sys_inv s'.
Proof.
  intros Hs. destruct 1 as [| |s fuel b s' E|s nm bs ar id s' Hb E|s nm bs ar e s' Hb E|s id s' E
    |s fuel bs en ar v s' Hb E|s fuel bs en ar e s' Hb E|]; try by apply inv_world.
  - pose proof (run_next_task_good _ _ _ _ Hs E) as Hn. destruct (next_task s); [by destruct Hn as (_ & ? & _)|].
    by destruct Hn as [_ ->].
  - pose proof (task_spawn_good nm bs ar s Hs Hb) as Hsp. rewrite E in Hsp. apply Hsp.
  - pose proof (task_spawn_good nm bs ar s Hs Hb) as Hsp. rewrite E in Hsp. apply Hsp.
  - destruct (task_kill_good id s Hs) as (s2 & E2 & (Hi & _) & _). rewrite E in E2. by injection E2 as <-.
  - by eapply (on_kern_run_good _ _ _ _ _ _ _ Hs Hb E).
  - by eapply (on_kern_run_good _ _ _ _ _ _ _ Hs Hb E).
Qed.

(** States reachable from boot. *)
Inductive reachable (s0 : Sys) : Sys -> Prop :=
| reachable_refl : reachable s0 s0
| reachable_step a s s' : reachable s0 s -> sys_step a s s' -> reachable s0 s'.

Lemma reachable_inv s0 s : sys_inv s0 -> reachable s0 s -> sys_inv s.
Proof. intros H0. induction 1; [done|]. by eapply sys_step_inv. Qed.

(** ** Fairness *)

(** How far task [id] is from the cursor, in search order. *)
Definition distance (c id : nat) : nat := ((id + (MAX_TASKS - 1 - c)) mod MAX_TASKS)%nat.

Ltac small n H := unfold MAX_TASKS, MAX_INSTANCES in H; destruct n as [|[|[|[|n]]]]; [| | | |exfalso; lia].

Lemma distance_inv c id : (c < MAX_TASKS)%nat -> (id < MAX_TASKS)%nat ->
  (((c + 1) mod MAX_TASKS + distance c id) mod MAX_TASKS)%nat = id.
Proof.
  intros Hc Hid. small c Hc; small id Hid; reflexivity.
Qed.

(** The task chosen is at most as far as any runnable one; choosing another
    brings the runnable one nearer. *)
Lemma turn_nearer s id j :
  (CURSOR s < MAX_TASKS)%nat -> (id < MAX_TASKS)%nat -> is_task_runnable id s = true ->
  next_task s = Some j -> j <> id -> (distance j id < distance (CURSOR s) id)%nat.
Proof.
  intros Hc Hid Hr Hn Hne. unfold next_task in Hn.
  apply find_from_some in Hn as (i & Hi & Hj & Hlt).
  set (d := distance (CURSOR s) id).
  assert (d < MAX_TASKS)%nat as Hd by (apply Nat.mod_upper_bound; unfold MAX_TASKS, MAX_INSTANCES; lia).
  assert (~ (d < i)%nat) as Hle.
  { intros Hdi. specialize (Hlt d ltac:(lia)). cbn zeta beta in Hlt. unfold d in Hlt.
    rewrite distance_inv in Hlt by done. by rewrite Hr in Hlt. }
  cbn zeta beta in Hj.
  match type of Hj with context [is_task_runnable ?x s] => destruct (is_task_runnable x s); [|done] end.
  assert ((((CURSOR s + 1) mod MAX_TASKS + i) mod MAX_TASKS)%nat = j) as Ej by (by injection Hj).
  clear Hj Hlt Hr. subst d. destruct Hi as [_ Hi]. rewrite Nat.add_0_l in Hi.
  assert (id <> (((CURSOR s + 1) mod MAX_TASKS + i) mod MAX_TASKS)%nat) as Hne' by congruence.
  rewrite <- Ej. clear Ej Hne. generalize dependent (CURSOR s). intros c Hc _ Hle Hne'. revert Hle Hne'.
  small c Hc; small id Hid; small i Hi; vm_compute; lia.
Qed.

(** An action that is neither a turn nor a kill leaves the task and the
    cursor alone. *)
Lemma other_action a id s s' t :
  sys_inv s -> sys_step a s s' -> a <> ATurn -> a <> AKill id -> TASK_QUEUE s !! id = Some (Some t) ->
  TASK_QUEUE s' !! id = Some (Some t) /\ CURSOR s' = CURSOR s.
Proof.
  intros Hs Hst Ha Hk Ht. destruct Hst as [| |s fuel b s' E|s nm bs ar id' s' Hb E|s nm bs ar e s' Hb E|s id' s' E
    |s fuel bs en ar v s' Hb E|s fuel bs en ar e s' Hb E|]; try done.
  - pose proof (task_spawn_good nm bs ar s Hs Hb) as Hsp. rewrite E in Hsp.
    destruct Hsp as (_ & Hiso & Hfree & Hc & _). split; [|done]. apply Hiso; [congruence|done].
  - pose proof (task_spawn_good nm bs ar s Hs Hb) as Hsp. rewrite E in Hsp.
    destruct Hsp as (_ & -> & _ & ->). done.
  - destruct (task_kill_good id' s Hs) as (s2 & E2 & (_ & Hiso & Hc) & _). rewrite E in E2. injection E2 as <-.
    split; [|done]. apply Hiso; [congruence|done].
  - destruct (on_kern_run_good _ _ _ _ _ _ _ Hs Hb E) as (_ & -> & ->); done.
  - destruct (on_kern_run_good _ _ _ _ _ _ _ Hs Hb E) as (_ & -> & ->); done.
Qed.

(** [n] turns of other tasks, each while [id] was runnable, mixed with any other
    actions but killing [id]. *)
Inductive overtaken (id : nat) (s : Sys) : nat -> Sys -> Prop :=
| overtaken_refl : overtaken id s 0 s
| overtaken_turn n s1 fuel j b s2 : overtaken id s n s1 -> is_task_runnable id s1 = true ->
    next_task s1 = Some j -> j <> id -> run_next_task fuel s1 = (Ok b, s2) -> overtaken id s (S n) s2
| overtaken_other n s1 a s2 : overtaken id s n s1 -> sys_step a s1 s2 -> a <> ATurn -> a <> AKill id -> overtaken id s n s2.

Lemma overtaken_nearer id n s s' t :
  sys_inv s -> TASK_QUEUE s !! id = Some (Some t) -> overtaken id s n s' ->
  sys_inv s' /\ TASK_QUEUE s' !! id = Some (Some t) /\ (n + distance (CURSOR s') id <= distance (CURSOR s) id)%nat.
Proof.
  intros Hs Ht. assert (id < MAX_TASKS)%nat as Hid by (rewrite <- (si_queue s Hs); by eapply lookup_lt_Some).
  induction 1 as [|n s1 fuel j b s2 _ (Hs1 & Ht1 & Hd) Hr Hn Hj E|n s1 a s2 _ (Hs1 & Ht1 & Hd) Hstep Ha Hk]; [done| |].
  - pose proof (run_next_task_good _ _ _ _ Hs1 E) as Hg. rewrite Hn in Hg. destruct Hg as (_ & Hs2 & Hiso & Hc).
    split; [done|]. split; [by apply Hiso|]. rewrite Hc.
    pose proof (turn_nearer s1 id j (si_cursor s1 Hs1) Hid Hr Hn Hj). lia.
  - destruct (other_action a id s1 s2 t Hs1 Hstep Ha Hk Ht1) as [Ht2 Hc]. split; [by eapply sys_step_inv|].
    split; [done|]. by rewrite Hc.
Qed.

Lemma overtaken_bound id n s s' t :
  sys_inv s -> TASK_QUEUE s !! id = Some (Some t) -> overtaken id s n s' -> (n < MAX_TASKS)%nat.
Proof.
  intros Hs Ht Ho. destruct (overtaken_nearer id n s s' t Hs Ht Ho) as (_ & _ & Hd).
  pose proof (Nat.mod_upper_bound (id + (MAX_TASKS - 1 - CURSOR s)) MAX_TASKS) as Hb.
  unfold distance in Hd at 2. specialize (Hb ltac:(unfold MAX_TASKS, MAX_INSTANCES; lia)). lia.
Qed.

(** [n] turns in which the scheduler stepped some task other than [id],
    mixed with any other kernel actions but killing [id]. *)
Inductive waiting (id : nat) : nat -> Sys -> Sys -> Prop :=
| waiting_refl s : waiting id 0 s s
| waiting_turn n s s1 fuel j b s2 :
    waiting id n s s1 -> next_task s1 = Some j -> j <> id -> run_next_task fuel s1 = (Ok b, s2) ->
    waiting id (S n) s s2
| waiting_other n s s1 a s2 :
    waiting id n s s1 -> sys_step a s1 s2 -> a <> ATurn -> a <> AKill id -> waiting id n s s2.

Lemma waiting_overtaken id n s s' t :
  sys_inv s -> TASK_QUEUE s !! id = Some (Some t) -> state t = Ready \/ state t = Suspended ->
  waiting id n s s' -> overtaken id s n s'.
Proof.
  intros Hs Ht Hst. assert (id < MAX_TASKS)%nat as Hid by (rewrite <- (si_queue s Hs); by eapply lookup_lt_Some).
  induction 1 as [s|n s s1 fuel j b s2 _ IH Hn Hj E|n s s1 a s2 _ IH Hstep Ha Hk]; [constructor| |]; specialize (IH Hs Ht).
  - apply (overtaken_turn id s n s1 fuel j b s2 IH); try done. unfold is_task_runnable.
    rewrite (proj2 (Nat.leb_gt _ _) Hid). destruct (overtaken_nearer id n s s1 t Hs Ht IH) as (_ & -> & _).
    unfold runnable. by destruct Hst as [->| ->].
  - by eapply overtaken_other.
Qed.

Lemma waiting_bound id n s s' t :
  sys_inv s -> TASK_QUEUE s !! id = Some (Some t) -> state t = Ready \/ state t = Suspended ->
  waiting id n s s' -> (n < MAX_TASKS)%nat.
Proof. intros Hs Ht Hst Hw. by eapply overtaken_bound, waiting_overtaken. Qed.

(** A runnable task means the turn does something. *)
Lemma next_task_exists s id :
  (CURSOR s < MAX_TASKS)%nat -> (id < MAX_TASKS)%nat -> is_task_runnable id s = true -> next_task s <> None.
Proof.
  intros Hc Hid Hr Hn. unfold next_task in Hn. rewrite find_from_none in Hn.
  specialize (Hn (distance (CURSOR s) id)). cbn zeta beta in Hn. rewrite distance_inv, Hr in Hn by done.
  discriminate Hn. split; [lia|]. apply Nat.mod_upper_bound. unfold MAX_TASKS, MAX_INSTANCES. lia.
Qed.

(** ** Sleeping *)

(** Before its tick a sleeping task is neither chosen nor stepped. *)
Lemma sleeping_waits fuel id s t wake :
  TASK_QUEUE s !! id = Some (Some t) -> state t = Sleeping wake -> ticks (k_world (kern s)) < wake ->
  is_task_runnable id s = false /\ task_step fuel id s = (Ok None, s).
Proof.
  intros Ht Hst Hlt. unfold is_task_runnable, runnable. rewrite Ht, Hst.
  split; [destruct (_ <=? _)%nat; [done|apply Z.leb_gt; lia]|].
  unfold task_step. destruct (_ <=? _)%nat; [done|]. unfold get_task. unfold bind at 1, bind at 1, gets at 1, lift at 1.
  rewrite Ht. cbn [or_panic]. unfold bind at 1, gets at 1. unfold still_sleeping. rewrite Hst.
  by rewrite (proj2 (Z.ltb_lt _ _)).
Qed.

(** From its tick on it is runnable. *)
Lemma woken_runs id s t wake :
  (id < MAX_TASKS)%nat -> TASK_QUEUE s !! id = Some (Some t) -> state t = Sleeping wake ->
  wake <= ticks (k_world (kern s)) -> is_task_runnable id s = true.
Proof.
  intros Hid Ht Hst Hw. unfold is_task_runnable, runnable.
  rewrite (proj2 (Nat.leb_gt _ _) Hid), Ht, Hst. by apply Z.leb_le.
Qed.

(** The instance of another task, its interpreter and its memory stay through
    any action but a turn that steps it and its own kill. *)
Definition slot_kept (h : nat) (s s' : Sys) : Prop :=
  POOL (kern s') !! h = POOL (kern s) !! h /\ SLOT_MEM (kern s') !! h = SLOT_MEM (kern s) !! h.

Lemma spawn_fail_keeps name bytes args s e s' h :
  sys_inv s -> Forall is_u8 bytes -> task_spawn name bytes args s = (Err e, s') -> occupied (kern s) h = true ->
  TASK_QUEUE s' = TASK_QUEUE s /\ slot_kept h s s'.
Proof.
  intros Hs Hb. unfold task_spawn. unfold bind at 1, gets at 1. unfold bind at 1, lift at 1.
  destruct (position _ (TASK_QUEUE s)) as [id|]; cbn [ok_or]; [|by intros [= _ <-]].
  unfold bind at 1, on_kern. pose proof (spawn_outcome (kern s) name bytes (si_pool s Hs) Hb) as Ho.
  destruct (spawn name bytes (kern s)) as [[ins|e'| |] k]; [by unfold bind, put_task, modify, ret|..]; intros [= _ <-] Hocc.
  split; [done|]. destruct Ho as [->|(slot & Hp & Hm)]; [done|]. destruct Hm as (_ & _ & _ & HP & _ & _ & Hm).
  split; cbn; [by rewrite HP|]. apply Hm. intros ->. apply position_some in Hp as [(x & Hx & Hn) _].
  unfold occupied in Hocc. rewrite Hx in Hocc. by destruct (active x).
Qed.

Lemma run_keeps_slot fuel bytes entry args s r s' h :
  sys_inv s -> Forall is_u8 bytes -> on_kern (run fuel bytes entry args) s = (r, s') -> r <> Panic -> r <> OutOfFuel ->
  occupied (kern s) h = true -> slot_kept h s s'.
Proof.
  intros Hs Hb E Hp Hf Ho. pose proof (run_effect fuel bytes entry args (kern s) (si_pool s Hs) Hb) as Hr.
  unfold on_kern in E. destruct (run _ _ _ _ (kern s)) as [[v|e| |] k]; injection E as <- <-; try done;
    destruct Hr as (_ & _ & Hk); by apply Hk.
Qed.

Lemma action_keeps a id s s' t :
  sys_inv s -> sys_step a s s' -> a <> AKill id -> (a = ATurn -> next_task s <> Some id) ->
  TASK_QUEUE s !! id = Some (Some t) ->
  TASK_QUEUE s' !! id = Some (Some t) /\ slot_kept (instance t) s s'.
Proof.
  intros Hs Hst Hk Hn Ht. pose proof (proj1 (si_task s Hs id t Ht)) as Hocc.
  destruct Hst as [| |s fuel b s' E|s nm bs ar id' s' Hb E|s nm bs ar e s' Hb E|s id' s' E
    |s fuel bs en ar v s' Hb E|s fuel bs en ar e s' Hb E|]; try done.
  - pose proof (run_next_task_good _ _ _ _ Hs E) as Hg. destruct (next_task s) as [j|]; [|by destruct Hg as [_ ->]].
    destruct Hg as (_ & _ & Hiso & _). apply Hiso; [|done]. intros ->. by apply Hn.
  - pose proof (task_spawn_good nm bs ar s Hs Hb) as Hsp. rewrite E in Hsp. destruct Hsp as (_ & Hiso & Hfree & _).
    apply Hiso; [congruence|done].
  - destruct (spawn_fail_keeps nm bs ar s e s' (instance t) Hs Hb E Hocc) as [-> Hp]. by split.
  - destruct (task_kill_good id' s Hs) as (s2 & E2 & (_ & Hiso & _) & _). rewrite E in E2. injection E2 as <-.
    apply Hiso; [congruence|done].
  - destruct (on_kern_run_good _ _ _ _ _ _ _ Hs Hb E) as (_ & -> & _); try done. split; [done|]. by eapply run_keeps_slot.
  - destruct (on_kern_run_good _ _ _ _ _ _ _ Hs Hb E) as (_ & -> & _); try done. split; [done|]. by eapply run_keeps_slot.
Qed.

(** Kernel actions, none of them killing [id], that all begin before the tick
    [wake]. *)
Inductive before_tick (id : nat) (wake : Z) (s : Sys) : Sys -> Prop :=
| before_refl : before_tick id wake s s
| before_step a s1 s2 : before_tick id wake s s1 -> ticks (k_world (kern s1)) < wake ->
    sys_step a s1 s2 -> a <> AKill id -> before_tick id wake s s2.

(** A task asleep until [wake] is left alone by all of them. *)
Lemma asleep_untouched id wake s s' t :
  sys_inv s -> TASK_QUEUE s !! id = Some (Some t) -> state t = Sleeping wake -> before_tick id wake s s' ->
  sys_inv s' /\ TASK_QUEUE s' !! id = Some (Some t) /\ slot_kept (instance t) s s'.
Proof.
  intros Hs Ht Hst. induction 1 as [|a s1 s2 _ (H1 & H2 & H3) Hlt Hstep Hk]; [by split_and!|].
  split; [by eapply sys_step_inv|]. destruct (action_keeps a id s1 s2 t H1 Hstep Hk) as [Hq Hp]; [|done|].
  - intros _ Hn. apply next_task_some in Hn as [_ Hr].
    by rewrite (proj1 (sleeping_waits 0 id s1 t wake H2 Hst Hlt)) in Hr.
  - split; [done|]. unfold slot_kept in *. destruct H3, Hp. split; congruence.
Qed.

(** A yield with a pending sleep of [ms]: the wake tick, and the request is
    consumed. *)
Lemma yield_sleeps id t s :
  let w := k_world (kern s) in
  let wake := ticks w + (PENDING_SLEEP_MS w + 9) / 10 in
  0 < PENDING_SLEEP_MS w -> wake < 18446744073709551616 ->
  update_task id t (Ok TaskYielded) s =
  (Ok tt, mkSys (set_k_world (set_sleep 0 w) (kern s)) (<[id := Some (set_state (Sleeping wake) t)]> (TASK_QUEUE s))
                (CURSOR s) (editor s)).
Proof.
  cbn zeta. intros Hp Hw. cbv beta iota zeta delta [update_task bind gets on_sys_world modify take_pending_sleep_ms put_task].
  rewrite (proj2 (Z.ltb_lt _ _)), (proj2 (Z.leb_gt _ _)) by done. done.
Qed.

Lemma yield_suspends id t s :
  PENDING_SLEEP_MS (k_world (kern s)) <= 0 ->
  update_task id t (Ok TaskYielded) s =
  (Ok tt, mkSys (set_k_world (set_sleep 0 (k_world (kern s))) (kern s))
                (<[id := Some (set_state Suspended t)]> (TASK_QUEUE s)) (CURSOR s) (editor s)).
Proof.
  intros Hp. cbv beta iota zeta delta [update_task bind gets on_sys_world modify take_pending_sleep_ms put_task].
  rewrite (proj2 (Z.ltb_ge _ _)) by done. done.
Qed.
End system.
