(* ===== verification/Block.v ===== *)
(** * Block devices and the byte-level adapter
    ([kernel/src/fs/block.rs], [kernel/src/fs/fat.rs])

    The [BlockDevice] trait as a class of operations with the contract its
    clients rely on as a second class, the two in-memory disks as instances,
    and [BlockIo], the one-block write-back cache under the FAT driver. *)

From S2P Require Import Prelude Packets PacketsSpec.

Definition BLOCK_SIZE : nat := 512.
#[global] Arguments BLOCK_SIZE : simpl never.
Definition BSZ : Z := Z.of_nat BLOCK_SIZE.

(** ** The trait *)

Class BlockDevice (D : Type) := {
  read_block : Z -> M D unit (list Z);
  write_block : Z -> list Z -> M D unit unit;
  block_count : D -> Z
}.

(** What a device promises: block [lba] holds [sector d lba]; a transfer in
    range succeeds, one out of range is refused and changes nothing. *)
Class BlockDeviceOk (D : Type) `{BlockDevice D} := {
  sector : D -> Z -> list Z;
  device_ok : D -> Prop;
  read_in_range d lba : device_ok d -> 0 <= lba < block_count d ->
    exists d', read_block lba d = (Ok (sector d lba), d') /\ device_ok d' /\
      block_count d' = block_count d /\ forall l, sector d' l = sector d l;
  read_out_of_range d lba : device_ok d -> block_count d <= lba < 4294967296 ->
    exists d', read_block lba d = (Err tt, d') /\ device_ok d' /\
      block_count d' = block_count d /\ forall l, sector d' l = sector d l;
  write_in_range d lba b : device_ok d -> 0 <= lba < block_count d -> length b = BLOCK_SIZE -> Forall is_u8 b ->
    exists d', write_block lba b d = (Ok tt, d') /\ device_ok d' /\
      block_count d' = block_count d /\ forall l, sector d' l = if l =? lba then b else sector d l;
  write_out_of_range d lba b : device_ok d -> block_count d <= lba < 4294967296 -> length b = BLOCK_SIZE -> Forall is_u8 b ->
    exists d', write_block lba b d = (Err tt, d') /\ device_ok d' /\
      block_count d' = block_count d /\ forall l, sector d' l = sector d l;
  sector_ok d lba : device_ok d -> 0 <= lba < block_count d -> length (sector d lba) = BLOCK_SIZE /\ Forall is_u8 (sector d lba)
}.

(** ** In-memory disks *)

(** [buf.copy_from_slice(&DATA[off..off + BLOCK_SIZE])] behind a range check. *)
Definition mem_read (blocks lba : Z) (data : slice) : result unit (list Z) :=
  if blocks <=? lba then Err tt else
  let off := lba * BSZ in sread_range data off (off + BSZ).

Definition mem_write (blocks lba : Z) (buf : list Z) (data : slice) : result unit slice :=
  if blocks <=? lba then Err tt else
  let off := lba * BSZ in swrite_bytes data off buf.

Definition mem_put (r : result unit slice) (data : slice) : result unit unit * slice :=
  match r with
  | Ok data' => (Ok tt, data')
  | Err e => (Err e, data)
  | Panic => (Panic, data)
  | OutOfFuel => (OutOfFuel, data)
  end.

Definition RAMDISK_BLOCKS : Z := 256.
Definition RAM_FAT_SIZE : Z := 2 * 1024 * 1024.
Definition RAM_BLOCKS : Z := RAM_FAT_SIZE / BSZ.

(** [RAMDISK_DATA] and [RAM_FAT] behind their handles. *)
Record Ramdisk := mkRamdisk { RAMDISK_DATA : slice }.
Record RamDisk := mkRamDisk { RAM_FAT : slice }.

#[export] Instance ramdisk_device : BlockDevice Ramdisk := {
  read_block lba d := (mem_read RAMDISK_BLOCKS lba (RAMDISK_DATA d), d);
  write_block lba b d :=
    let '(r, s) := mem_put (mem_write RAMDISK_BLOCKS lba b (RAMDISK_DATA d)) (RAMDISK_DATA d) in (r, mkRamdisk s);
  block_count _ := RAMDISK_BLOCKS
}.

#[export] Instance ram_fat_device : BlockDevice RamDisk := {
  read_block lba d := (mem_read RAM_BLOCKS lba (RAM_FAT d), d);
  write_block lba b d :=
    let '(r, s) := mem_put (mem_write RAM_BLOCKS lba b (RAM_FAT d)) (RAM_FAT d) in (r, mkRamDisk s);
  block_count _ := RAM_BLOCKS
}.

(** [mount_ramdisk]'s copy: the image, cut to the buffer, then zeroes. *)
Definition load_image (img : list Z) : RamDisk :=
  mkRamDisk (Slice RAM_FAT_SIZE (fun k => if k <? RAM_FAT_SIZE then nth (Z.to_nat k) img 0 else 0)).

(** ** The adapter *)

Section block_io.
Context {D : Type} `{BlockDevice D}.

Record BlockIo := mkIo { dev : D; pos : Z; buf : list Z; buf_lba : option Z; buf_dirty : bool }.

Definition new_io (d : D) : BlockIo := mkIo d 0 (replicate BLOCK_SIZE 0) None false.

Definition IO := M BlockIo unit.

Definition set_dev d (io : BlockIo) := mkIo d (pos io) (buf io) (buf_lba io) (buf_dirty io).
Definition set_pos p (io : BlockIo) := mkIo (dev io) p (buf io) (buf_lba io) (buf_dirty io).
Definition set_block b l (io : BlockIo) := mkIo (dev io) (pos io) b l (buf_dirty io).
Definition set_dirty v (io : BlockIo) := mkIo (dev io) (pos io) (buf io) (buf_lba io) v.

Definition on_dev {A} (m : M D unit A) : IO A := fun io => let '(r, d) := m (dev io) in (r, set_dev d io).

Definition flush_dirty : IO unit :=
  let! io := gets id in
  if buf_dirty io then
    match buf_lba io with
    | Some lba => do! on_dev (write_block lba (buf io)) in modify (set_dirty false)
    | None => ret tt
    end
  else ret tt.

Definition ensure_block (lba : Z) : IO unit :=
  let! io := gets id in
  if bool_decide (buf_lba io = Some lba) then ret tt else
  do! flush_dirty in
  let! b := on_dev (read_block lba) in
  modify (set_block b (Some lba)).

(** [(self.pos / BLOCK_SIZE as u64) as u32] and [(self.pos % ..) as usize] *)
Definition lba_of (p : Z) : Z := as_u32 (p / BSZ).
Definition off_of (p : Z) : nat := Z.to_nat (p mod BSZ).

(** [self.pos += avail as u64] *)
Definition advance (n : nat) : IO unit :=
  let! io := gets id in
  let p := pos io + Z.of_nat n in
  if p <? 18446744073709551616 then modify (set_pos p) else panic.

(** [done] bytes are in [acc]; each round adds at least one. *)
Fixpoint read_loop (fuel want : nat) (acc : list Z) : IO (list Z) :=
  if (want <=? length acc)%nat then ret acc else
  match fuel with
  | O => lift OutOfFuel
  | S fuel' =>
    let! p := gets pos in
    let lba := lba_of p in
    let off := off_of p in
    do! ensure_block lba in
    let avail := Nat.min (BLOCK_SIZE - off) (want - length acc) in
    let! b := gets buf in
    let! part := lift (slice_range b off (off + avail)) in
    do! advance avail in
    read_loop fuel' want (acc ++ part)
  end.

Definition io_read (want : nat) : IO (list Z) := read_loop want want [].

Fixpoint write_loop (fuel : nat) (data : list Z) (done : nat) : IO nat :=
  if (length data <=? done)%nat then ret done else
  match fuel with
  | O => lift OutOfFuel
  | S fuel' =>
    let! p := gets pos in
    let lba := lba_of p in
    let off := off_of p in
    do! if negb (off =? 0)%nat || (length data - done <? BLOCK_SIZE)%nat then ensure_block lba
        else do! flush_dirty in modify (set_block (replicate BLOCK_SIZE 0) (Some lba)) in
    let avail := Nat.min (BLOCK_SIZE - off) (length data - done) in
    let! b := gets buf in
    let! part := lift (slice_range data done (done + avail)) in
    let! b' := lift (write_at b off part) in
    do! modify (fun io => set_dirty true (set_block b' (buf_lba io) io)) in
    do! advance avail in
    write_loop fuel' data (done + avail)
  end.

Definition io_write (data : list Z) : IO nat := write_loop (length data) data 0.
Definition io_flush : IO unit := flush_dirty.

Inductive SeekFrom := SeekStart (n : Z) | SeekCurrent (n : Z) | SeekEnd (n : Z).

Definition io_seek (from : SeekFrom) : IO Z :=
  let! p := gets pos in
  let to n := if n <? 0 then fail tt else do! modify (set_pos (as_u64 n)) in ret (as_u64 n) in
  match from with
  | SeekStart n => to (as_i64 n)
  | SeekCurrent n =>
    let s := as_i64 p + n in
    if (-9223372036854775808 <=? s) && (s <=? 9223372036854775807) then to s else panic
  | SeekEnd _ => fail tt
  end.
End block_io.
Arguments BlockIo D : clear implicits.

(** * The in-memory disks meet the contract, and [BlockIo] is a flat disk

    Byte reads, writes, seeks and flushes through the one-block cache refine
    the same operations on one array of bytes. *)

(** ** The in-memory disks *)

Definition disk_bytes (blocks : Z) (s : slice) : Prop := slen s = blocks * BSZ /\ forall k, is_u8 (sget s k).

Section memory.
Context (blocks : Z) (s : slice) (Hs : disk_bytes blocks s).

Definition mem_sector (s : slice) (lba : Z) : list Z := srange s (lba * BSZ) (lba * BSZ + BSZ).

Lemma mem_sector_ok lba : length (mem_sector s lba) = BLOCK_SIZE /\ Forall is_u8 (mem_sector s lba).
Proof. split; [unfold mem_sector; rewrite srange_length; unfold BSZ; lia|apply srange_u8, Hs]. Qed.

Lemma mem_read_in lba : 0 <= lba < blocks -> mem_read blocks lba s = Ok (mem_sector s lba).
Proof.
  intros Hl. unfold mem_read. rewrite (proj2 (Z.leb_gt _ _)) by lia. unfold sread_range. destruct Hs as [-> _].
  unfold BSZ, BLOCK_SIZE in *. rewrite !(proj2 (Z.leb_le _ _)) by lia. done.
Qed.

Lemma mem_sector_write lba b s' l :
  length b = BLOCK_SIZE -> swrite_bytes (E := unit) s (lba * BSZ) b = Ok s' ->
  mem_sector s' l = if l =? lba then b else mem_sector s l.
Proof.
  intros Hb (_ & _ & _ & Hin & Hout)%swrite_bytes_ok. rewrite Hb in Hin, Hout. fold BSZ in Hin, Hout.
  destruct (l =? lba) eqn:E; zbool; [by subst|]. unfold mem_sector. apply srange_ext. intros i Hi. apply Hout.
  unfold BSZ, BLOCK_SIZE in *. nia.
Qed.

Lemma mem_write_in lba b :
  0 <= lba < blocks -> length b = BLOCK_SIZE -> Forall is_u8 b ->
  exists s', mem_write blocks lba b s = Ok s' /\ disk_bytes blocks s' /\
    forall l, mem_sector s' l = if l =? lba then b else mem_sector s l.
Proof.
  intros Hl Hb Hu. destruct Hs as [Hn Hsu]. unfold mem_write. rewrite (proj2 (Z.leb_gt _ _)) by lia.
  destruct (swrite_bytes_some (E := unit) s (lba * BSZ) b) as [s' Hw];
    [unfold BSZ, BLOCK_SIZE in *; lia|rewrite Hb, Hn; unfold BSZ, BLOCK_SIZE; nia|].
  exists s'. split; [exact Hw|]. split; [|intros l; by apply (mem_sector_write lba b)].
  pose proof Hw as (_ & _ & Hn' & _)%swrite_bytes_ok. split; [congruence|].
  by eapply swrite_bytes_u8.
Qed.
End memory.

(** The reads and writes of both instances, by their data slice. *)
Ltac mem_device :=
  first
  [ intros d lba Hd Hl; exists d; cbn; rewrite (mem_read_in _ _ Hd) by exact Hl; by destruct d
  | intros d lba Hd Hl; exists d; cbn; unfold mem_read; rewrite (proj2 (Z.leb_le _ _)) by exact (proj1 Hl); by destruct d
  | intros d lba b Hd Hl Hb Hu; destruct (mem_write_in _ _ Hd lba b Hl Hb Hu) as (s' & E & Hs' & Hk); eexists; cbn; rewrite E; cbn;
    (split; [reflexivity|]); by split_and!
  | intros d lba b Hd Hl Hb Hu; exists d; cbn; unfold mem_write; rewrite (proj2 (Z.leb_le _ _)) by exact (proj1 Hl); by destruct d
  | intros d lba Hd Hl; by apply (mem_sector_ok _ _ Hd) ].

#[export, refine] Instance ramdisk_ok : BlockDeviceOk Ramdisk := {
  sector d := mem_sector (RAMDISK_DATA d);
  device_ok d := disk_bytes RAMDISK_BLOCKS (RAMDISK_DATA d)
}.
Proof. all: mem_device. Defined.

#[export, refine] Instance ram_fat_ok : BlockDeviceOk RamDisk := {
  sector d := mem_sector (RAM_FAT d);
  device_ok d := disk_bytes RAM_BLOCKS (RAM_FAT d)
}.
Proof. all: mem_device. Defined.

(** ** The cache as a flat disk *)

(** [n] bytes of [f] from [p] on. *)
Definition zrange (f : Z -> Z) (p : Z) (n : nat) : list Z := map (fun i => f (p + Z.of_nat i)) (seq 0 n).

Lemma zrange_length f p n : length (zrange f p n) = n.
Proof. unfold zrange. by rewrite length_map, length_seq. Qed.

Lemma zrange_app f p n m : zrange f p (n + m) = zrange f p n ++ zrange f (p + Z.of_nat n) m.
Proof.
  unfold zrange. rewrite seq_app, map_app. f_equal. rewrite <- (Nat.add_0_r (0 + n)), <- fmap_add_seq.
  rewrite <- list_fmap_compose. apply map_ext. intros i. cbn. f_equal. lia.
Qed.

Lemma zrange_ext f g p n : (forall k, p <= k < p + Z.of_nat n -> f k = g k) -> zrange f p n = zrange g p n.
Proof. intros H. unfold zrange. apply map_ext_in. intros i Hi%in_seq. apply H. lia. Qed.

Lemma zrange_nth f p n i : (i < n)%nat -> nth i (zrange f p n) 0 = f (p + Z.of_nat i).
Proof. intros Hi. unfold zrange. rewrite (nth_indep _ 0 (f (p + Z.of_nat 0))) by (rewrite length_map, length_seq; lia).
  change (f (p + Z.of_nat 0)) with ((fun i => f (p + Z.of_nat i)) 0%nat). rewrite map_nth, seq_nth by done. done.
Qed.

Lemma nth_write (b part : list Z) off i :
  (off + length part <= length b)%nat ->
  nth i (take off b ++ part ++ drop (off + length part) b) 0 =
  if ((off <=? i) && (i <? off + length part))%nat then nth (i - off) part 0 else nth i b 0.
Proof.
  intros Hl. destruct (off <=? i)%nat eqn:E1; zbool.
  - rewrite app_nth2 by (rewrite length_take; lia). rewrite length_take, Nat.min_l by lia.
    destruct (i <? off + length part)%nat eqn:E2; zbool; cbn [andb].
    + by rewrite app_nth1 by lia.
    + rewrite app_nth2 by lia. rewrite nth_skipn. f_equal. lia.
  - cbn [andb]. rewrite app_nth1 by (rewrite length_take; lia).
    rewrite <- (take_drop off b) at 2. by rewrite app_nth1 by (rewrite length_take; lia).
Qed.

Section cache.
Context {D : Type} `{BlockDeviceOk D}.
Implicit Types io : BlockIo D.

(** A block as the cache shows it, and one byte of the whole disk. *)
Definition view io (lba : Z) : list Z := if bool_decide (buf_lba io = Some lba) then buf io else sector (dev io) lba.
Definition byte_at io (k : Z) : Z := nth (off_of k) (view io (k / BSZ)) 0.
Definition size io : Z := block_count (dev io) * BSZ.

Record io_ok io : Prop := {
  io_dev : device_ok (dev io);
  io_count : 0 <= block_count (dev io) <= 4294967296;
  io_pos : 0 <= pos io;
  io_buf : length (buf io) = BLOCK_SIZE /\ Forall is_u8 (buf io);
  io_lba : match buf_lba io with
           | Some l => 0 <= l < block_count (dev io) /\ (buf_dirty io = false -> buf io = sector (dev io) l)
           | None => buf_dirty io = false
           end
}.

(** The disk, its size and the position are as before. *)
Record same_disk io io' : Prop := {
  sd_size : block_count (dev io') = block_count (dev io);
  sd_pos : pos io' = pos io;
  sd_view : forall l, view io' l = view io l
}.

Lemma view_ok io l : io_ok io -> 0 <= l < block_count (dev io) -> length (view io l) = BLOCK_SIZE /\ Forall is_u8 (view io l).
Proof. intros [] Hl. unfold view. case_bool_decide; [done|]. by apply sector_ok. Qed.

Lemma flush_dirty_ok io :
  io_ok io -> exists io', flush_dirty io = (Ok tt, io') /\ io_ok io' /\ same_disk io io' /\
    buf_dirty io' = false /\ buf_lba io' = buf_lba io /\ buf io' = buf io /\ forall l, sector (dev io') l = view io l.
Proof.
  intros Hio. pose proof Hio as [Hd Hc Hp [Hb Hu] Hl]. unfold flush_dirty, bind at 1, gets, id.
  destruct (buf_dirty io) eqn:Ed.
  - destruct (buf_lba io) as [lba|] eqn:El; [|done]. destruct Hl as [Hr _].
    destruct (write_in_range (dev io) lba (buf io) Hd Hr Hb Hu) as (d' & E & Hd' & Hc' & Hs').
    unfold bind, on_dev, modify. rewrite E. eexists. split; [reflexivity|]. cbn.
    assert (forall l, sector d' l = view io l) as Hview.
    { intros l. rewrite Hs'. unfold view. rewrite El. destruct (l =? lba) eqn:E1; zbool.
      - subst l. by rewrite bool_decide_eq_true_2.
      - by rewrite bool_decide_eq_false_2 by congruence. }
    split; [|split; [|done]].
    + split; cbn; try done; [by rewrite Hc'|]. rewrite El, Hc'. split; [done|]. intros _. by rewrite Hs', Z.eqb_refl.
    + split; [done|done|]. intros l. unfold view at 1. cbn. case_bool_decide as E1; [|apply Hview].
      unfold view. by rewrite bool_decide_eq_true_2.
  - exists io. split; [reflexivity|]. split; [done|]. split; [done|]. split; [done|]. split; [done|]. split; [done|].
    intros l. unfold view. case_bool_decide as E1; [|done]. rewrite E1 in Hl. by rewrite (proj2 Hl eq_refl).
Qed.

Lemma ensure_block_ok io lba :
  io_ok io -> 0 <= lba < block_count (dev io) ->
  exists io', ensure_block lba io = (Ok tt, io') /\ io_ok io' /\ same_disk io io' /\
    buf_lba io' = Some lba /\ buf io' = view io lba.
Proof.
  intros Hio Hl. unfold ensure_block, bind at 1, gets, id. case_bool_decide as E0.
  { exists io. split; [reflexivity|]. split; [done|]. split; [done|]. split; [done|]. unfold view. by rewrite bool_decide_eq_true_2. }
  destruct (flush_dirty_ok io Hio) as (io1 & E1 & H1 & [S1 S2 S3] & Hd1 & Hl1 & Hb1 & Hs1).
  unfold bind at 1. rewrite E1. rewrite <- S1 in Hl.
  destruct (read_in_range (dev io1) lba (io_dev _ H1) Hl) as (d' & E & Hd' & Hc' & Hs').
  unfold bind, on_dev, modify. rewrite E. eexists. split; [reflexivity|]. cbn. pose proof H1 as [].
  pose proof (sector_ok _ _ (io_dev _ H1) Hl) as Hsec.
  split; [|split; [|split; [done|apply Hs1]]].
  - split; cbn; try done; rewrite Hc'; [done|]. split; [done|]. intros _. by rewrite Hs'.
  - split; cbn; [congruence|done|]. intros l. unfold view at 1. cbn. case_bool_decide as El.
    + injection El as <-. apply Hs1.
    + by rewrite Hs', Hs1.
Qed.

(** Positions of the disk. *)
Lemma lba_in_range io k : io_ok io -> 0 <= k < size io -> lba_of k = k / BSZ /\ 0 <= k / BSZ < block_count (dev io).
Proof.
  intros [_ Hc _ _ _] Hk. unfold size in Hk. assert (0 <= k / BSZ < block_count (dev io)) as Hr.
  { split; [apply Z.div_pos; unfold BSZ, BLOCK_SIZE in *; lia|]. apply Z.div_lt_upper_bound; unfold BSZ, BLOCK_SIZE in *; lia. }
  split; [|done]. unfold lba_of, as_u32. rewrite Z.mod_small; lia.
Qed.

Lemma off_lt k : 0 <= k -> (off_of k < BLOCK_SIZE)%nat.
Proof. intros Hk. unfold off_of. change BSZ with 512. change BLOCK_SIZE with 512%nat. zlia. Qed.

Lemma off_add k i : 0 <= k -> (off_of k + i < BLOCK_SIZE)%nat ->
  (k + Z.of_nat i) / BSZ = k / BSZ /\ off_of (k + Z.of_nat i) = (off_of k + i)%nat.
Proof. unfold off_of. change BSZ with 512. change BLOCK_SIZE with 512%nat. intros Hk Hi. split; zlia. Qed.

Lemma same_block k j : 0 <= k -> 0 <= j -> k / BSZ = j / BSZ -> j - k = Z.of_nat (off_of j) - Z.of_nat (off_of k).
Proof. unfold off_of. change BSZ with 512. intros Hk Hj E. zlia. Qed.

Lemma advance_ok n io : io_ok io -> pos io + Z.of_nat n <= size io ->
  advance n io = (Ok tt, set_pos (pos io + Z.of_nat n) io).
Proof.
  intros [_ Hc _ _ _] Hn. unfold advance, bind, gets, id. rewrite (proj2 (Z.ltb_lt _ _)); [done|].
  unfold size, BSZ, BLOCK_SIZE in Hn. lia.
Qed.

Lemma set_pos_ok p io : io_ok io -> 0 <= p -> io_ok (set_pos p io).
Proof. intros [] Hp. by split. Qed.

(** One round of the read loop. *)
Lemma read_round io avail :
  io_ok io -> 0 <= pos io -> (0 < avail)%nat -> pos io + Z.of_nat avail <= size io -> (off_of (pos io) + avail <= BLOCK_SIZE)%nat ->
  exists io', ensure_block (lba_of (pos io)) io = (Ok tt, io') /\ io_ok io' /\ same_disk io io' /\
    slice_range (E := unit) (buf io') (off_of (pos io)) (off_of (pos io) + avail) = Ok (zrange (byte_at io) (pos io) avail).
Proof.
  intros Hio Hp Ha Hs Ho. destruct (lba_in_range io (pos io) Hio) as [El Hl]; [lia|]. rewrite El.
  destruct (ensure_block_ok io (pos io / BSZ) Hio Hl) as (io' & E & H' & Hsd & _ & Hb). exists io'. split; [done|]. split; [done|].
  split; [done|]. destruct (view_ok io _ Hio Hl) as [Hv _]. rewrite Hb. unfold slice_range. rewrite Hv.
  rewrite !(proj2 (Nat.leb_le _ _)) by lia. cbn [andb]. f_equal.
  apply (nth_ext _ _ 0 0); rewrite ?zrange_length, length_take, length_drop; [lia|]. intros i Hi.
  rewrite zrange_nth by lia. destruct (off_add (pos io) i Hp) as [E1 E2]; [lia|]. unfold byte_at. rewrite E1, E2.
  rewrite nth_firstn, nth_skipn. rewrite (proj2 (Nat.ltb_lt _ _)) by lia. done.
Qed.

Lemma byte_at_same io io' k : same_disk io io' -> byte_at io' k = byte_at io k.
Proof. intros [_ _ Hv]. unfold byte_at. by rewrite Hv. Qed.

Lemma read_loop_ok fuel want acc io :
  io_ok io -> (length acc <= want)%nat -> (want - length acc <= fuel)%nat -> pos io + Z.of_nat (want - length acc) <= size io ->
  exists io', read_loop fuel want acc io = (Ok (acc ++ zrange (byte_at io) (pos io) (want - length acc)), io') /\
    io_ok io' /\ block_count (dev io') = block_count (dev io) /\ pos io' = pos io + Z.of_nat (want - length acc) /\
    forall l, view io' l = view io l.
Proof.
  revert acc io. induction fuel as [|fuel IH]; intros acc io Hio Hacc Hf Hs; cbn [read_loop];
    (destruct (want <=? length acc)%nat eqn:E0; zbool;
     [replace (want - length acc)%nat with 0%nat in * by lia; exists io; unfold zrange; cbn [map seq];
      rewrite app_nil_r, Z.add_0_r; by split_and!|]); [lia|].
  pose proof (io_pos _ Hio) as Hp. pose proof (off_lt _ Hp) as Ho.
  unfold bind at 1, gets at 1. set (avail := Nat.min _ _).
  destruct (read_round io avail Hio Hp ltac:(lia) ltac:(lia) ltac:(lia)) as (io1 & E1 & H1 & S1 & Hsl).
  unfold bind at 1. rewrite E1. unfold bind at 1, gets at 1. unfold bind at 1, lift at 1. rewrite Hsl.
  destruct S1 as [S1 S2 S3]. assert (size io1 = size io) as Hsz by (unfold size; congruence).
  unfold bind at 1. rewrite advance_ok by (done || rewrite S2, Hsz; lia). rewrite S2.
  destruct (IH (acc ++ zrange (byte_at io) (pos io) avail) (set_pos (pos io + Z.of_nat avail) io1)) as (io2 & E2 & H2 & C2 & P2 & V2).
  - apply set_pos_ok; [done|lia].
  - rewrite length_app, zrange_length. lia.
  - rewrite length_app, zrange_length. lia.
  - rewrite length_app, zrange_length. unfold size. cbn. fold (size io1). lia.
  - rewrite length_app, zrange_length in *. exists io2. rewrite E2. cbn [pos set_pos] in *. split.
    + f_equal. f_equal. rewrite <- app_assoc. f_equal.
      replace (want - length acc)%nat with (avail + (want - (length acc + avail)))%nat by lia. rewrite zrange_app. f_equal.
      apply zrange_ext. intros k _. unfold byte_at. cbn. f_equal. by rewrite <- S3.
    + split; [done|]. split; [cbn in C2; congruence|]. split; [lia|]. intros l. rewrite V2. by rewrite <- S3.
Qed.

(** One round of the write loop: the block, then the bytes into it. *)
Definition pick_block io rest : M (BlockIo D) unit unit :=
  if negb (off_of (pos io) =? 0)%nat || (rest <? BLOCK_SIZE)%nat then ensure_block (lba_of (pos io))
  else do! flush_dirty in modify (set_block (replicate BLOCK_SIZE 0) (Some (lba_of (pos io)))).

(** What the write loop works on: the block is there, or all of it is about to
    be overwritten. *)
Record picked io rest io1 : Prop := {
  pk_dev : device_ok (dev io1);
  pk_count : block_count (dev io1) = block_count (dev io);
  pk_pos : pos io1 = pos io;
  pk_lba : buf_lba io1 = Some (pos io / BSZ);
  pk_buf : length (buf io1) = BLOCK_SIZE /\ Forall is_u8 (buf io1);
  pk_view : forall l, l <> pos io / BSZ -> view io1 l = view io l;
  pk_kept : buf io1 = view io (pos io / BSZ) \/ (off_of (pos io) = 0%nat /\ (BLOCK_SIZE <= rest)%nat)
}.

Lemma pick_block_ok io rest :
  io_ok io -> (0 < rest)%nat -> pos io < size io -> exists io1, pick_block io rest io = (Ok tt, io1) /\ picked io rest io1.
Proof.
  intros Hio Hr Hs. pose proof (io_pos _ Hio) as Hp. destruct (lba_in_range io (pos io) Hio) as [El Hl]; [lia|].
  unfold pick_block. rewrite El. destruct (_ || _) eqn:E0.
  - destruct (ensure_block_ok io _ Hio Hl) as (io1 & E & [] & [] & Hlb & Hb). exists io1. split; [done|]. split; try done. by left.
  - apply orb_false_elim in E0 as [E0%negb_false_iff%Nat.eqb_eq E1%Nat.ltb_ge].
    destruct (flush_dirty_ok io Hio) as (io1 & E & [] & [] & Hd & Hlb & Hb & Hsec). unfold bind, modify. rewrite E.
    eexists. split; [reflexivity|]. split; cbn; try done.
    + split; [apply length_replicate|by apply Forall_replicate].
    + intros l Hne. unfold view at 1. cbn. rewrite bool_decide_eq_false_2 by congruence. apply Hsec.
    + right. done.
Qed.

Definition stored (b : list Z) io1 : BlockIo D := set_dirty true (set_block b (buf_lba io1) io1).

Lemma write_round io rest io1 part :
  io_ok io -> picked io rest io1 -> Forall is_u8 part -> (off_of (pos io) + length part <= BLOCK_SIZE)%nat ->
  (length part = Nat.min (BLOCK_SIZE - off_of (pos io)) rest)%nat -> pos io < size io ->
  exists b', write_at (buf io1) (off_of (pos io)) part = Ok b' /\ io_ok (stored b' io1) /\
    forall k, 0 <= k -> byte_at (stored b' io1) k =
      if (pos io <=? k) && (k <? pos io + Z.of_nat (length part)) then nth (Z.to_nat (k - pos io)) part 0 else byte_at io k.
Proof.
  intros Hio [Hd Hc Hp Hlb [Hb Hbu] Hv Hk] Hu Ho Hpart Hs. pose proof (io_pos _ Hio) as Hp0.
  destruct (lba_in_range io (pos io) Hio) as [_ Hl]; [lia|].
  unfold write_at. rewrite Hb, (proj2 (Nat.leb_le _ _)) by lia. eexists. split; [reflexivity|]. set (b' := take _ _ ++ _).
  assert (length b' = BLOCK_SIZE) as Hb' by (unfold b'; rewrite !length_app, length_take, length_drop; lia).
  split.
  - split; cbn; try done; [rewrite Hc; apply Hio|by rewrite Hp| |].
    + split; [done|]. unfold b'. rewrite !Forall_app. split_and!; [by apply Forall_take|done|by apply Forall_drop].
    + rewrite Hlb, Hc. done.
  - intros k Hk0. unfold byte_at at 1, view. cbn. rewrite Hlb. case_bool_decide as E1.
    + injection E1 as E1. pose proof (same_block (pos io) k Hp0 Hk0 E1) as Hoff. unfold b'. rewrite nth_write by lia.
      assert (((off_of (pos io) <=? off_of k) && (off_of k <? off_of (pos io) + length part))%nat =
              ((pos io <=? k) && (k <? pos io + Z.of_nat (length part)))) as ->.
      { apply eq_true_iff_eq. rewrite !andb_true_iff, !Nat.leb_le, !Nat.ltb_lt, Z.leb_le, Z.ltb_lt. lia. }
      destruct (_ && _) eqn:E2; [f_equal; lia|]. unfold byte_at. rewrite <- E1. destruct Hk as [<-|[Hz Hr]]; [done|].
      exfalso. pose proof (off_lt k Hk0). rewrite Hz in *. rewrite andb_false_iff, Z.leb_gt, Z.ltb_ge in E2. lia.
    + assert (pos io / BSZ <> k / BSZ) as Hne by congruence.
      rewrite (proj2 (andb_false_iff _ _)).
      * unfold byte_at. rewrite <- (Hv (k / BSZ)) by done. unfold view. by rewrite Hlb, bool_decide_eq_false_2 by congruence.
      * destruct (Z.leb_spec (pos io) k); [|by left]. right. apply Z.ltb_ge.
        destruct (Z.le_gt_cases (pos io + Z.of_nat (length part)) k); [done|]. exfalso. apply Hne.
        destruct (off_add (pos io) (Z.to_nat (k - pos io)) Hp0) as [E3 _]; [lia|]. rewrite <- E3. f_equal. lia.
Qed.

(** [bs] written at [p] over [f]. *)
Definition over (f : Z -> Z) (p : Z) (bs : list Z) (k : Z) : Z :=
  if (p <=? k) && (k <? p + Z.of_nat (length bs)) then nth (Z.to_nat (k - p)) bs 0 else f k.

Lemma write_loop_ok fuel data n io :
  io_ok io -> Forall is_u8 data -> (n <= length data)%nat -> (length data - n <= fuel)%nat ->
  pos io + Z.of_nat (length data - n) <= size io ->
  exists io', write_loop fuel data n io = (Ok (length data), io') /\ io_ok io' /\
    block_count (dev io') = block_count (dev io) /\ pos io' = pos io + Z.of_nat (length data - n) /\
    forall k, 0 <= k -> byte_at io' k = over (byte_at io) (pos io) (drop n data) k.
Proof.
  revert n io. induction fuel as [|fuel IH]; intros n io Hio Hu Hn Hf Hs; cbn [write_loop];
    (destruct (length data <=? n)%nat eqn:E0; zbool;
     [assert (n = length data) as -> by lia; rewrite Nat.sub_diag in *; exists io; rewrite Z.add_0_r, drop_ge by lia;
      split; [done|]; split; [done|]; split; [done|]; split; [done|]; intros k _; unfold over; cbn [length];
      by rewrite (proj2 (andb_false_iff _ _)) by (destruct (Z.leb_spec (pos io) k); [right; apply Z.ltb_ge; lia|by left])|]); [lia|].
  pose proof (io_pos _ Hio) as Hp. pose proof (off_lt _ Hp) as Ho.
  unfold bind at 1, gets at 1. fold (pick_block io (length data - n)).
  destruct (pick_block_ok io (length data - n) Hio ltac:(lia) ltac:(lia)) as (io1 & E1 & Hpk).
  unfold bind at 1. rewrite E1. unfold bind at 1, gets at 1. set (avail := Nat.min _ _).
  set (part := take avail (drop n data)).
  assert (length part = avail) as Hpl by (unfold part; rewrite length_take, length_drop; lia).
  assert (slice_range (E := unit) data n (n + avail) = Ok part) as Hsl.
  { unfold slice_range. rewrite !(proj2 (Nat.leb_le _ _)) by lia. cbn [andb]. unfold part. by rewrite (Nat.add_comm n), Nat.add_sub. }
  unfold bind at 1, lift at 1. rewrite Hsl.
  destruct (write_round io _ io1 part Hio Hpk) as (b' & Eb & H2 & Hby); [by apply Forall_take, Forall_drop|lia|lia|lia|].
  unfold bind at 1, lift at 1. rewrite Eb. unfold bind at 1, modify at 1. fold (stored b' io1). set (io2 := stored b' io1) in *.
  assert (pos io2 = pos io) as P2 by apply Hpk.
  assert (block_count (dev io2) = block_count (dev io)) as C2 by apply Hpk.
  clearbody io2. assert (size io2 = size io) as S2 by (unfold size; congruence).
  unfold bind at 1. rewrite (advance_ok avail io2 H2) by lia. rewrite P2.
  destruct (IH (n + avail)%nat (set_pos (pos io + Z.of_nat avail) io2)) as (io3 & E3 & H3 & C3 & P3 & B3);
    [apply set_pos_ok; [done|lia]|done|lia|lia|change (size (set_pos _ io2)) with (size io2); cbn [pos set_pos]; lia|].
  exists io3. rewrite E3. split; [done|]. split; [done|]. split; [cbn in C3; congruence|]. split; [cbn in P3; lia|].
  intros k Hk. rewrite B3 by done. cbn [pos set_pos]. change (byte_at (set_pos (pos io + Z.of_nat avail) io2)) with (byte_at io2).
  unfold over. rewrite !length_drop, Hby, Hpl by done.
  destruct (Z.leb_spec (pos io + Z.of_nat avail) k); cbn [andb].
  - rewrite (proj2 (Z.leb_le (pos io) k)) by lia. cbn [andb]. rewrite (proj2 (Z.ltb_ge k (pos io + Z.of_nat avail))) by lia.
    replace (pos io + Z.of_nat avail + Z.of_nat (length data - (n + avail))) with (pos io + Z.of_nat (length data - n)) by lia.
    destruct (_ <? _) eqn:E4; [|done]. rewrite !nth_skipn. f_equal. lia.
  - destruct (Z.leb_spec (pos io) k); [|done]. cbn [andb]. rewrite !(proj2 (Z.ltb_lt _ _)) by lia.
    unfold part. rewrite nth_firstn. by rewrite (proj2 (Nat.ltb_lt _ _)) by lia.
Qed.

(** ** The abstract disk *)

(** One array of bytes and a position. *)
Record Flat := mkFlat { f_byte : Z -> Z; f_pos : Z }.

Inductive io_op := OpRead (n : nat) | OpWrite (bs : list Z) | OpSeek (p : Z) | OpFlush.
Inductive io_out := OutBytes (bs : list Z) | OutCount (n : nat) | OutPos (p : Z) | OutDone.

Definition flat_step (o : io_op) (f : Flat) : io_out * Flat :=
  match o with
  | OpRead n => (OutBytes (zrange (f_byte f) (f_pos f) n), mkFlat (f_byte f) (f_pos f + Z.of_nat n))
  | OpWrite bs => (OutCount (length bs), mkFlat (over (f_byte f) (f_pos f) bs) (f_pos f + Z.of_nat (length bs)))
  | OpSeek p => (OutPos p, mkFlat (f_byte f) p)
  | OpFlush => (OutDone, f)
  end.

Definition io_step (o : io_op) : M (BlockIo D) unit io_out :=
  match o with
  | OpRead n => let! bs := io_read n in ret (OutBytes bs)
  | OpWrite bs => let! n := io_write bs in ret (OutCount n)
  | OpSeek p => let! p' := io_seek (SeekStart p) in ret (OutPos p')
  | OpFlush => do! io_flush in ret OutDone
  end.

(** The operation stays on the disk. *)
Definition fits (sz : Z) (o : io_op) (f : Flat) : Prop :=
  match o with
  | OpRead n => f_pos f + Z.of_nat n <= sz
  | OpWrite bs => f_pos f + Z.of_nat (length bs) <= sz /\ Forall is_u8 bs
  | OpSeek p => 0 <= p <= sz
  | OpFlush => True
  end.

Record shows (sz : Z) (f : Flat) io : Prop := {
  sh_ok : io_ok io;
  sh_size : size io = sz;
  sh_pos : f_pos f = pos io;
  sh_byte : forall k, 0 <= k < sz -> f_byte f k = byte_at io k
}.

Lemma io_step_refines sz o f io :
  shows sz f io -> fits sz o f ->
  exists io', io_step o io = (Ok (flat_step o f).1, io') /\ shows sz (flat_step o f).2 io' /\
    (o = OpFlush -> forall l, 0 <= l < block_count (dev io') -> sector (dev io') l = zrange (f_byte f) (l * BSZ) BLOCK_SIZE).
Proof.
  intros [Hok Hsz Hp Hb] Hf. pose proof (io_pos _ Hok) as Hp0. destruct o as [n|bs|p|]; cbn [fits flat_step fst snd io_step] in *.
  - destruct (read_loop_ok n n [] io Hok) as (io' & E & H' & C' & P' & V'); [cbn; lia|cbn; lia|rewrite Nat.sub_0_r; lia|].
    rewrite Nat.sub_0_r, app_nil_l in *. exists io'. unfold bind, io_read. rewrite E. rewrite Hp in *. split; [|split; [|done]].
    + unfold ret. do 3 f_equal. apply zrange_ext. intros k Hk. symmetry. apply Hb. lia.
    + split; cbn; [done|unfold size in *; congruence|lia|]. intros k Hk. rewrite Hb by done. unfold byte_at. by rewrite V'.
  - destruct Hf as [Hf Hu]. destruct (write_loop_ok (length bs) bs 0 io Hok Hu) as (io' & E & H' & C' & P' & B'); [lia|lia|rewrite Nat.sub_0_r; lia|].
    rewrite Nat.sub_0_r, drop_0 in *. exists io'. unfold bind, io_write. rewrite E. rewrite Hp in *. split; [done|]. split; [|done].
    split; cbn; [done|unfold size in *; congruence|lia|]. intros k Hk. rewrite B' by lia. unfold over.
    destruct (_ && _); [done|by apply Hb].
  - assert (sz <= 2199023255552) as Hlim.
    { rewrite <- Hsz. unfold size. pose proof (io_count _ Hok). change BSZ with 512. lia. }
    unfold io_seek. exists (set_pos p io). unfold bind, gets. unfold as_i64. rewrite Z.mod_small by lia.
    replace (p + 9223372036854775808 - 9223372036854775808) with p by lia. rewrite (proj2 (Z.ltb_ge p 0)) by lia.
    unfold modify, ret, as_u64. rewrite Z.mod_small by lia. split; [done|]. split; [|done].
    split; cbn; [apply set_pos_ok; [done|lia]|done|done|done].
  - destruct (flush_dirty_ok io Hok) as (io' & E & H' & [S1 S2 S3] & _ & _ & _ & Hsec). exists io'. unfold bind, io_flush. rewrite E.
    split; [done|]. split.
    + split; cbn; [done|unfold size in *; congruence|congruence|]. intros k Hk. rewrite Hb by done. unfold byte_at. by rewrite S3.
    + intros _ l Hl. rewrite Hsec. rewrite S1 in Hl. destruct (view_ok io l Hok Hl) as [Hvl _].
      apply (nth_ext _ _ 0 0); [by rewrite Hvl, zrange_length|]. intros i Hi. rewrite Hvl in Hi. rewrite zrange_nth by done.
      rewrite Hb by (rewrite <- Hsz; unfold size; change BSZ with 512; change BLOCK_SIZE with 512%nat in Hi; nia).
      unfold byte_at. assert (off_of (l * BSZ) = 0%nat /\ l * BSZ / BSZ = l) as [E1 E2].
      { unfold off_of. change BSZ with 512. split; zlia. }
      destruct (off_add (l * BSZ) i) as [E3 E4]; [change BSZ with 512; lia|lia|]. rewrite E3, E4, E1, E2. done.
Qed.

Fixpoint flat_run (os : list io_op) (f : Flat) : list io_out * Flat :=
  match os with
  | [] => ([], f)
  | o :: os => let '(a, f) := flat_step o f in let '(l, f) := flat_run os f in (a :: l, f)
  end.

Fixpoint io_run (os : list io_op) : M (BlockIo D) unit (list io_out) :=
  match os with
  | [] => ret []
  | o :: os => let! a := io_step o in let! l := io_run os in ret (a :: l)
  end.

Fixpoint all_fit (sz : Z) (os : list io_op) (f : Flat) : Prop :=
  match os with
  | [] => True
  | o :: os => fits sz o f /\ all_fit sz os (flat_step o f).2
  end.

Lemma io_run_refines sz os f io :
  shows sz f io -> all_fit sz os f ->
  exists io', io_run os io = (Ok (flat_run os f).1, io') /\ shows sz (flat_run os f).2 io'.
Proof.
  revert f io. induction os as [|o os IH]; intros f io Hs Hf; [by exists io|]. destruct Hf as [Hf Hfs]. cbn [io_run flat_run].
  destruct (io_step_refines sz o f io Hs Hf) as (io1 & E1 & H1 & _). destruct (flat_step o f) as [a f1]. cbn [fst snd] in *.
  destruct (IH f1 io1 H1 Hfs) as (io2 & E2 & H2). exists io2. unfold bind. rewrite E1, E2. by destruct (flat_run os f1).
Qed.

(** A fresh adapter shows its device. *)
Lemma new_io_shows d : device_ok d -> 0 <= block_count d <= 4294967296 ->
  shows (block_count d * BSZ) (mkFlat (fun k => nth (off_of k) (sector d (k / BSZ)) 0) 0) (new_io d).
Proof.
  intros Hd Hc. split; [|done|done|].
  - split; cbn; try done. split; [apply length_replicate|by apply Forall_replicate].
  - intros k Hk. reflexivity.
Qed.
End cache.
