(* ===== verification/WasmFs.v ===== *)
(** * WasmFS, the flat file system ([kernel/src/fs/wasmfs.rs])

    Block 0 is a directory of eight 64-byte entries, the blocks behind it hold
    each file's bytes contiguously. Everything works on any [BlockDevice]. *)

From S2P Require Import Prelude Packets Block FileTable.

Definition DIR_ENTRY_SIZE : nat := 64.
Definition DIR_ENTRIES_PER_BLOCK : nat := 8.
Definition DIR_BLOCK : Z := 0.
Definition DATA_START_BLOCK : Z := 1.
Definition MAX_OPEN_FILES : nat := 4.
Definition FLAG_VALID : Z := 0x01.

(** ** Directory entries *)

Module DirEntry.

Record t := mkEntry { name : list Z; start_block : Z; size : Z; flags : Z }.

(** [u32::from_le_bytes([b[i], b[i + 1], b[i + 2], b[i + 3]])] *)
Definition le32_at (b : list Z) (i : nat) : result unit Z :=
  let? x := slice_range b i (i + 4) in Ok (le_bytes x).

Definition from_bytes (b : list Z) : result unit t :=
  let? name := slice_range b 0 32 in
  let? start_block := le32_at b 32 in
  let? size := le32_at b 36 in
  let? flags := byte b 40 in
  Ok (mkEntry name start_block size flags).

Definition to_bytes (e : t) : list Z :=
  name e ++ to_le_bytes 4 (start_block e) ++ to_le_bytes 4 (size e) ++ [flags e] ++ replicate 23 0.

Definition is_valid (e : t) : bool := negb (Z.land (flags e) FLAG_VALID =? 0).

(** Up to the first zero byte. *)
Definition name_str (e : t) : list Z :=
  let end_ := default 32%nat (position (fun b => b =? 0) (name e)) in
  default [] (from_utf8 (take end_ (name e))).
End DirEntry.

(** ** Open files *)

Record OpenFile := mkOpen { of_start : Z; of_size : Z; of_pos : Z; in_use : bool }.
Definition empty_open : OpenFile := mkOpen 0 0 0 false.

Definition set_of_pos p (o : OpenFile) := mkOpen (of_start o) (of_size o) p (in_use o).

Section wasmfs.
Context {D : Type} `{BlockDevice D}.

Record WasmFs := mkWfs { wdev : D; wopen : list OpenFile }.

Definition new_wfs (d : D) : WasmFs := mkWfs d (replicate MAX_OPEN_FILES empty_open).

Definition F := M WasmFs unit.

Definition on_wdev {A} (m : M D unit A) : F A := fun w => let '(r, d) := m (wdev w) in (r, mkWfs d (wopen w)).
Definition put_open (fd : nat) (o : OpenFile) : F unit :=
  modify (fun w => mkWfs (wdev w) (<[fd := o]> (wopen w))).

(** [let _ = self.dev.read_block(..)]: a failed read leaves the zeroed buffer. *)
Definition read_dir_block : F (list Z) := fun w =>
  match on_wdev (read_block DIR_BLOCK) w with
  | (Ok b, w') => (Ok b, w')
  | (Err _, w') => (Ok (replicate BLOCK_SIZE 0), w')
  | (Panic, w') => (Panic, w')
  | (OutOfFuel, w') => (OutOfFuel, w')
  end.

Definition write_dir_block (buf : list Z) : F unit := fun w =>
  match on_wdev (write_block DIR_BLOCK buf) w with
  | (Err _, w') => (Ok tt, w')
  | o => o
  end.

Definition read_entry (dir : list Z) (idx : nat) : result unit DirEntry.t :=
  let off := (idx * DIR_ENTRY_SIZE)%nat in
  let? b := slice_range dir off (off + DIR_ENTRY_SIZE) in DirEntry.from_bytes b.

Definition write_entry (dir : list Z) (idx : nat) (e : DirEntry.t) : result unit (list Z) :=
  write_at dir (idx * DIR_ENTRY_SIZE) (DirEntry.to_bytes e).

(** [((size + BLOCK_SIZE - 1) / BLOCK_SIZE).max(1)] *)
Definition blocks_of (size : Z) : Z := Z.max ((size + BSZ - 1) / BSZ) 1.

(** The loop of [next_free_block] from entry [i] on. *)
Fixpoint next_free_loop (n i : nat) (dir : list Z) (next : Z) : result unit Z :=
  match n with
  | O => Ok next
  | S n' =>
    let? e := read_entry dir i in
    if DirEntry.is_valid e then
      let end_ := DirEntry.start_block e + as_u32 (blocks_of (DirEntry.size e)) in
      if 4294967296 <=? end_ then Panic else
      next_free_loop n' (S i) dir (if next <? end_ then end_ else next)
    else next_free_loop n' (S i) dir next
  end.

Definition next_free_block : F Z :=
  let! dir := read_dir_block in
  lift (next_free_loop DIR_ENTRIES_PER_BLOCK 0 dir DATA_START_BLOCK).

(** The first valid entry called [nm] from [i] on. *)
Fixpoint find_entry (n i : nat) (dir nm : list Z) : result unit (option (nat * DirEntry.t)) :=
  match n with
  | O => Ok None
  | S n' =>
    let? e := read_entry dir i in
    if DirEntry.is_valid e && bytes_eqb (DirEntry.name_str e) nm then Ok (Some (i, e))
    else find_entry n' (S i) dir nm
  end.

Definition fs_open (nm : list Z) : F (option nat) :=
  let! dir := read_dir_block in
  let! r := lift (find_entry DIR_ENTRIES_PER_BLOCK 0 dir nm) in
  match r with
  | None => ret None
  | Some (_, e) =>
    let! os := gets wopen in
    match position (fun o => negb (in_use o)) os with
    | Some fd =>
      do! put_open fd (mkOpen (DirEntry.start_block e) (DirEntry.size e) 0 true) in ret (Some fd)
    | None => ret None
    end
  end.

(** [while done < to_read]: one block a round, until a read fails. *)
Fixpoint fs_read_loop (fuel fd to_read : nat) (acc : list Z) : F (list Z) :=
  if (to_read <=? length acc)%nat then ret acc else
  match fuel with
  | O => lift OutOfFuel
  | S fuel' =>
    let! os := gets wopen in
    let! o := lift (or_panic (os !! fd)) in
    let lba := of_start o + as_u32 (of_pos o / BSZ) in
    let off := Z.to_nat (of_pos o mod BSZ) in
    if 4294967296 <=? lba then panic else fun w =>
    match on_wdev (read_block lba) w with
    | (Ok blk, w') =>
      (let avail := Nat.min (BLOCK_SIZE - off) (to_read - length acc) in
       let! part := lift (slice_range blk off (off + avail)) in
       let p := of_pos o + Z.of_nat avail in
       if 4294967296 <=? p then panic else
       do! put_open fd (set_of_pos p o) in
       fs_read_loop fuel' fd to_read (acc ++ part)) w'
    | (Err _, w') => (Ok acc, w')
    | (Panic, w') => (Panic, w')
    | (OutOfFuel, w') => (OutOfFuel, w')
    end
  end.

(** The bytes read into a buffer of [cap] bytes. *)
Definition fs_read (fd cap len : nat) : F (list Z) :=
  if (MAX_OPEN_FILES <=? fd)%nat then ret [] else
  let! os := gets wopen in
  let! o := lift (or_panic (os !! fd)) in
  if negb (in_use o) then ret [] else
  let remaining := Z.to_nat (Z.max (of_size o - of_pos o) 0) in
  let to_read := Nat.min (Nat.min len remaining) cap in
  if (to_read =? 0)%nat then ret [] else fs_read_loop to_read fd to_read [].

(** The slot a write uses: the entry of that name, else the first free one. *)
Fixpoint pick_slot (n i : nat) (dir nm : list Z) (slot : option nat) : result unit (option nat) :=
  match n with
  | O => Ok slot
  | S n' =>
    let? e := read_entry dir i in
    if DirEntry.is_valid e && bytes_eqb (DirEntry.name_str e) nm then Ok (Some i) else
    let slot := if negb (DirEntry.is_valid e) && bool_decide (slot = None) then Some i else slot in
    pick_slot n' (S i) dir nm slot
  end.

(** [while written < data.len()]: one block a round. *)
Fixpoint write_blocks (fuel : nat) (lba : Z) (data : list Z) : F unit :=
  match data with
  | [] => ret tt
  | _ =>
    match fuel with
    | O => lift OutOfFuel
    | S fuel' =>
      let chunk := Nat.min (length data) BLOCK_SIZE in
      let blk := take chunk data ++ replicate (BLOCK_SIZE - chunk) 0 in
      do! on_wdev (write_block lba blk) in
      if 4294967296 <=? lba + 1 then panic else
      write_blocks fuel' (lba + 1) (drop chunk data)
    end
  end.

Definition fs_write (nm data : list Z) : F unit :=
  let! dir := read_dir_block in
  let! slot := lift (pick_slot DIR_ENTRIES_PER_BLOCK 0 dir nm None) in
  let! idx := lift (ok_or slot tt) in
  let! start_block := next_free_block in
  do! write_blocks (length data) start_block data in
  let e := DirEntry.mkEntry (pad_name 32 nm) start_block (as_u32 (Z.of_nat (length data))) FLAG_VALID in
  let! dir := lift (write_entry dir idx e) in
  write_dir_block dir.

Definition fs_close (fd : nat) : F unit :=
  if (fd <? MAX_OPEN_FILES)%nat then
    let! os := gets wopen in
    let! o := lift (or_panic (os !! fd)) in
    put_open fd (mkOpen (of_start o) (of_size o) (of_pos o) false)
  else ret tt.

Definition blank_entry : DirEntry.t := DirEntry.mkEntry (replicate 32 0) 0 0 0.

Definition fs_unlink (nm : list Z) : F unit :=
  let! dir := read_dir_block in
  let! r := lift (find_entry DIR_ENTRIES_PER_BLOCK 0 dir nm) in
  match r with
  | Some (i, _) => let! dir := lift (write_entry dir i blank_entry) in write_dir_block dir
  | None => fail tt
  end.

Fixpoint list_loop {A} (n i : nat) (dir : list Z) (f : list Z -> Z -> A -> A) (a : A) : result unit A :=
  match n with
  | O => Ok a
  | S n' =>
    let? e := read_entry dir i in
    list_loop n' (S i) dir f (if DirEntry.is_valid e then f (DirEntry.name_str e) (DirEntry.size e) a else a)
  end.

Definition fs_list {A} (f : list Z -> Z -> A -> A) (a : A) : F A :=
  let! dir := read_dir_block in lift (list_loop DIR_ENTRIES_PER_BLOCK 0 dir f a).

(** ** Boot mounts *)

(** One directory entry of [mount_from_blk]: the file table and the count. *)
Definition mount_entry (dir : list Z) (i : nat) (acc : FsState * nat) : F (FsState * nat) :=
  let! e := lift (read_entry dir i) in
  let '(st, count) := acc in
  if negb (DirEntry.is_valid e) then ret acc else
  let nm := DirEntry.name_str e in
  let size := DirEntry.size e in
  if size =? 0 then ret acc else
  match alloc_disk_slot size st with
  | (None, st) => ret (st, count)
  | (Some base, st) =>
    let! fd := fs_open nm in
    match fd with
    | None => ret (st, count)
    | Some fd =>
      let! bs := fs_read fd (Z.to_nat size) (Z.to_nat size) in
      do! fs_close fd in
      let st := fill_disk_slot base bs st in
      if negb (Z.of_nat (length bs) =? size) then ret (st, count)
      else ret (register_file nm (DBuf base size) st, S count)
    end
  end.

Fixpoint mount_loop (n i : nat) (dir : list Z) (acc : FsState * nat) : F (FsState * nat) :=
  match n with
  | O => ret acc
  | S n' => let! acc := mount_entry dir i acc in mount_loop n' (S i) dir acc
  end.

Definition mount_from_blk (d : D) (st : FsState) : result unit (FsState * nat) :=
  ((let! dir := read_dir_block in mount_loop DIR_ENTRIES_PER_BLOCK 0 dir (st, O)) (new_wfs d)).1.
End wasmfs.
Arguments WasmFs D : clear implicits.

Fixpoint mount_image_loop (n i : nat) (img : list Z) (st : FsState) : result unit FsState :=
  match n with
  | O => Ok st
  | S n' =>
    let off := (i * DIR_ENTRY_SIZE)%nat in
    let? b := slice_range img off (off + DIR_ENTRY_SIZE) in
    let? e := DirEntry.from_bytes b in
    let start := DirEntry.start_block e * BSZ in
    let end_ := start + DirEntry.size e in
    if DirEntry.is_valid e && (end_ <=? Z.of_nat (length img)) then
      let? bs := slice_range img (Z.to_nat start) (Z.to_nat end_) in
      mount_image_loop n' (S i) img (register_file (DirEntry.name_str e) (DImage bs) st)
    else mount_image_loop n' (S i) img st
  end.

Definition mount_from_image (img : list Z) (st : FsState) : result unit FsState :=
  if (length img <? BLOCK_SIZE)%nat then Ok st else mount_image_loop DIR_ENTRIES_PER_BLOCK 0 img st.
