(* ===== verification/WasmFsSpec.v ===== *)
(** * WasmFS stores what was written

    The files on a device as a map from names to bytes, and what writing,
    opening, reading and unlinking do to it. *)

From S2P Require Import Prelude Packets PacketsSpec Block FileTable WasmFs.

(** ** Directory entries *)

Lemma slice_range_in {E} (bs : list Z) i j :
  (i <= j <= length bs)%nat -> slice_range (E := E) bs i j = Ok (take (j - i) (drop i bs)).
Proof. intros Hij. unfold slice_range. by rewrite !(proj2 (Nat.leb_le _ _)) by lia. Qed.

Record entry_ok (e : DirEntry.t) : Prop := {
  eo_name : length (DirEntry.name e) = 32%nat;
  eo_start : is_u32 (DirEntry.start_block e);
  eo_size : is_u32 (DirEntry.size e);
  eo_flags : is_u8 (DirEntry.flags e)
}.

Lemma to_bytes_length e : entry_ok e -> length (DirEntry.to_bytes e) = DIR_ENTRY_SIZE.
Proof. intros []. unfold DirEntry.to_bytes. by rewrite !length_app, !to_le_bytes_length, length_replicate, eo_name0. Qed.

Lemma from_to_bytes e : entry_ok e -> DirEntry.from_bytes (DirEntry.to_bytes e) = Ok e.
Proof.
  destruct e as [nm st sz fl]. intros [Hn Hs Hz _]. cbn in Hn, Hs, Hz. unfold DirEntry.from_bytes, DirEntry.to_bytes, DirEntry.le32_at.
  cbn [DirEntry.name DirEntry.start_block DirEntry.size DirEntry.flags].
  assert (forall c, slice_range (E := unit) (nm ++ c) 0 32 = Ok nm) as -> by (intros c; rewrite <- Hn; apply slice_range_pre). cbn [rbind].
  rewrite slice_range_mid by (rewrite ?Hn, ?to_le_bytes_length; reflexivity). cbn [rbind].
  rewrite (app_assoc nm), slice_range_mid by (rewrite ?length_app, ?Hn, ?to_le_bytes_length; reflexivity). cbn [rbind].
  rewrite (app_assoc (nm ++ _)). cbn [app]. rewrite byte_mid by (rewrite !length_app, Hn, !to_le_bytes_length; reflexivity). cbn [rbind].
  rewrite !le_bytes_to_le. change (256 ^ Z.of_nat 4) with 4294967296. unfold is_u32 in *. by rewrite !Z.mod_small by lia.
Qed.

Definition name_fits (nm : list Z) : Prop := (length nm <= 32)%nat /\ utf8_valid nm = true /\ Forall is_u8 nm /\ 0 ∉ nm.

Lemma name_str_pad nm st sz fl : name_fits nm -> DirEntry.name_str (DirEntry.mkEntry (pad_name 32 nm) st sz fl) = nm.
Proof.
  intros (Hl & Hu & _ & Hz). unfold DirEntry.name_str. cbn [DirEntry.name].
  assert (default 32%nat (position (fun b => b =? 0) (pad_name 32 nm)) = length nm) as ->.
  { unfold pad_name. rewrite take_ge by done. destruct (position _ _) as [i|] eqn:E; cbn.
    - apply position_some in E as [(x & Hx & Hx0) Hlt]. zbool. subst x. destruct (decide (i < length nm)%nat).
      + rewrite lookup_app_l in Hx by done. destruct Hz. by eapply list_elem_of_lookup_2.
      + destruct (decide (i = length nm)) as [|]; [done|]. exfalso.
        assert ((nm ++ replicate (32 - length nm) 0) !! length nm = Some 0) as H0.
        { pose proof (lookup_lt_Some _ _ _ Hx) as Hlen. rewrite length_app, length_replicate in Hlen.
          rewrite lookup_app_r, Nat.sub_diag by done. apply lookup_replicate. lia. }
        specialize (Hlt (length nm) 0 ltac:(lia) H0). discriminate.
    - destruct (decide (length nm = 32%nat)); [done|]. exfalso.
      assert ((nm ++ replicate (32 - length nm) 0) !! length nm = Some 0) as H0.
      { rewrite lookup_app_r, Nat.sub_diag by done. apply lookup_replicate. lia. }
      pose proof (proj1 (position_none _ _) E _ _ H0). discriminate. }
  unfold pad_name. rewrite (take_ge nm) by done. rewrite take_app_length. unfold from_utf8. by rewrite Hu.
Qed.

(** ** The directory block *)

Definition entry_of (dir : list Z) (i : nat) : DirEntry.t :=
  match read_entry dir i with Ok e => e | _ => blank_entry end.

Section dir.
Context (dir : list Z) (Hdir : length dir = BLOCK_SIZE) (Hu : Forall is_u8 dir).

Lemma entry_slice i : (i < 8)%nat ->
  slice_range (E := unit) dir (i * DIR_ENTRY_SIZE) (i * DIR_ENTRY_SIZE + DIR_ENTRY_SIZE) = Ok (take 64 (drop (i * 64) dir)).
Proof.
  intros Hi. unfold slice_range, DIR_ENTRY_SIZE. rewrite Hdir. change BLOCK_SIZE with 512%nat.
  rewrite !(proj2 (Nat.leb_le _ _)) by lia. cbn [andb]. by rewrite (Nat.add_comm (i * 64)), Nat.add_sub.
Qed.

Lemma read_entry_ok i : (i < 8)%nat -> read_entry dir i = Ok (entry_of dir i) /\ entry_ok (entry_of dir i).
Proof.
  intros Hi. unfold entry_of, read_entry. rewrite entry_slice by done. cbn [rbind]. set (b := take 64 _).
  assert (length b = 64%nat) as Hb by (unfold b; rewrite length_take, length_drop, Hdir; change BLOCK_SIZE with 512%nat; lia).
  assert (Forall is_u8 b) as Hbu by (by apply Forall_take, Forall_drop).
  unfold DirEntry.from_bytes, DirEntry.le32_at. rewrite !slice_range_in by lia. cbn [rbind].
  assert (forall i n, (i + n <= 64)%nat -> length (take (i + n - i) (drop i b)) = n /\ Forall is_u8 (take (i + n - i) (drop i b))) as Hsub.
  { intros i' n Hn. split; [rewrite length_take, length_drop; lia|by apply Forall_take, Forall_drop]. }
  pose proof (byte_safe b Hbu 40 ltac:(lia)) as Hf. unfold byte in *. destruct (b !! 40%nat) as [fl|]; [|done]. cbn [or_panic rbind].
  split; [done|]. split; cbn [DirEntry.name DirEntry.start_block DirEntry.size DirEntry.flags].
  - exact (proj1 (Hsub 0%nat 32%nat ltac:(lia))).
  - destruct (Hsub 32%nat 4%nat) as [Hl Hfa]; [lia|]. pose proof (le_bytes_range _ Hfa) as Hr. rewrite Hl in Hr. exact Hr.
  - destruct (Hsub 36%nat 4%nat) as [Hl Hfa]; [lia|]. pose proof (le_bytes_range _ Hfa) as Hr. rewrite Hl in Hr. exact Hr.
  - exact Hf.
Qed.

(** An entry written at [idx] is there, and the others are as they were. *)
Lemma write_entry_ok idx e : (idx < 8)%nat -> entry_ok e -> Forall is_u8 (DirEntry.to_bytes e) ->
  exists dir', write_entry dir idx e = Ok dir' /\ length dir' = BLOCK_SIZE /\ Forall is_u8 dir' /\
    forall i, (i < 8)%nat -> entry_of dir' i = if decide (i = idx) then e else entry_of dir i.
Proof.
  intros Hi He Hbu. pose proof (to_bytes_length e He) as Hl. change BLOCK_SIZE with 512%nat in *. change DIR_ENTRY_SIZE with 64%nat in *.
  unfold write_entry, write_at. rewrite (proj2 (Nat.leb_le _ _)) by (rewrite Hl, Hdir; change DIR_ENTRY_SIZE with 64%nat; lia). eexists. split; [reflexivity|].
  set (dir' := take _ _ ++ _). assert (length dir' = 512%nat) as Hd'.
  { unfold dir'. rewrite !length_app, length_take, length_drop, Hl. change DIR_ENTRY_SIZE with 64%nat. lia. }
  split; [done|]. split; [unfold dir'; rewrite !Forall_app; split_and!; [by apply Forall_take|done|by apply Forall_drop]|].
  intros i Hii. unfold entry_of, read_entry. change DIR_ENTRY_SIZE with 64%nat. rewrite !slice_range_in by lia. cbn [rbind].
  replace (i * 64 + 64 - i * 64)%nat with 64%nat by lia.
  assert (take 64 (drop (i * 64) dir') = if decide (i = idx) then DirEntry.to_bytes e else take 64 (drop (i * 64) dir)) as ->.
  { apply (nth_ext _ _ 0 0).
    - destruct (decide _); rewrite ?Hl, !length_take, !length_drop; lia.
    - rewrite length_take, length_drop. intros k Hk. rewrite nth_firstn, nth_skipn, (proj2 (Nat.ltb_lt _ _)) by lia.
      unfold dir'. rewrite nth_write by (rewrite Hl, Hdir; change DIR_ENTRY_SIZE with 64%nat; lia).
      rewrite Hl. change DIR_ENTRY_SIZE with 64%nat. destruct (decide (i = idx)) as [->|Hne].
      + rewrite (proj2 (Nat.leb_le _ _)), (proj2 (Nat.ltb_lt _ _)) by lia. cbn [andb]. f_equal. lia.
      + rewrite (proj2 (andb_false_iff _ _)).
        * rewrite nth_firstn, nth_skipn, (proj2 (Nat.ltb_lt k 64)) by lia. done.
        * destruct (Nat.lt_ge_cases i idx); [left; apply Nat.leb_gt; lia|right; apply Nat.ltb_ge; lia]. }
  destruct (decide _); [by rewrite from_to_bytes|done].
Qed.
End dir.

(** The entry [i] when it is a file called [nm]. *)
Definition matches (dir nm : list Z) (i : nat) : option (nat * DirEntry.t) :=
  let e := entry_of dir i in
  if DirEntry.is_valid e && bytes_eqb (DirEntry.name_str e) nm then Some (i, e) else None.

Lemma matches_inv dir nm i p :
  matches dir nm i = Some p -> p = (i, entry_of dir i) /\ DirEntry.is_valid (entry_of dir i) = true /\ DirEntry.name_str (entry_of dir i) = nm.
Proof.
  unfold matches. destruct (_ && _) eqn:E; [|done]. apply andb_true_iff in E as [E1 E2]. apply bytes_eqb_true in E2. intros [= <-]. done.
Qed.

(** ** Scans of the directory *)

Section scans.
Context (dir : list Z) (Hdir : length dir = BLOCK_SIZE) (Hu : Forall is_u8 dir).

Lemma find_entry_run nm n i : (i + n <= 8)%nat -> find_entry n i dir nm = Ok (find_from (matches dir nm) i n).
Proof.
  revert i. induction n as [|n IH]; intros i Hi; [done|]. cbn [find_entry find_from].
  destruct (read_entry_ok dir Hdir Hu i ltac:(lia)) as [-> _]. cbn [rbind]. unfold matches at 1.
  destruct (_ && _); [done|]. apply IH. lia.
Qed.

Lemma pick_slot_run nm n i slot : (i + n <= 8)%nat ->
  exists r, pick_slot n i dir nm slot = Ok r /\
  match find_from (matches dir nm) i n with
  | Some (j, _) => r = Some j
  | None => match slot with
            | Some _ => r = slot
            | None => match r with
                      | Some j => (i <= j < i + n)%nat /\ DirEntry.is_valid (entry_of dir j) = false
                      | None => forall j, (i <= j < i + n)%nat -> DirEntry.is_valid (entry_of dir j) = true
                      end
            end
  end.
Proof.
  revert i slot. induction n as [|n IH]; intros i slot Hi.
  { exists slot. split; [done|]. cbn. destruct slot; [done|]. intros; lia. }
  cbn [pick_slot find_from]. destruct (read_entry_ok dir Hdir Hu i ltac:(lia)) as [-> _]. cbn [rbind]. unfold matches at 1.
  destruct (DirEntry.is_valid (entry_of dir i)) eqn:Ev; cbn [andb negb].
  - destruct (bytes_eqb _ _); [by eexists|]. destruct (IH (S i) slot ltac:(lia)) as (r & E & Hr). exists r. split; [done|].
    destruct (find_from _ _ _) as [[j e]|]; [done|]. destruct slot; [done|]. destruct r as [j|].
    + destruct Hr. split; [lia|done].
    + intros j Hj. destruct (decide (j = i)) as [->|]; [done|]. apply Hr. lia.
  - set (slot' := if bool_decide _ then _ else _). destruct (IH (S i) slot' ltac:(lia)) as (r & E & Hr). exists r. split; [done|].
    destruct (find_from _ _ _) as [[j e]|]; [done|]. unfold slot' in Hr. destruct slot as [s|]; cbn in Hr; [done|]. subst r. split; [lia|done].
Qed.

(** The first block behind every file. *)
Definition end_of (e : DirEntry.t) : Z := DirEntry.start_block e + blocks_of (DirEntry.size e).

Lemma next_free_run lim n i next : lim < 4294967296 ->
  (forall j, (i <= j < i + n)%nat -> DirEntry.is_valid (entry_of dir j) = true -> end_of (entry_of dir j) <= lim) ->
  (i + n <= 8)%nat ->
  exists m, next_free_loop n i dir next = Ok m /\ next <= m /\
    (forall j, (i <= j < i + n)%nat -> DirEntry.is_valid (entry_of dir j) = true -> end_of (entry_of dir j) <= m) /\
    (m = next \/ m <= lim).
Proof.
  intros Hlim. revert i next. induction n as [|n IH]; intros i next Hw Hi.
  { exists next. split; [done|]. split; [lia|]. split; [intros; lia|by left]. }
  cbn [next_free_loop]. destruct (read_entry_ok dir Hdir Hu i ltac:(lia)) as [-> [_ Hs Hz _]]. cbn [rbind].
  assert (forall next', exists m, next_free_loop n (S i) dir next' = Ok m /\ next' <= m /\
    (forall j, (S i <= j < S i + n)%nat -> DirEntry.is_valid (entry_of dir j) = true -> end_of (entry_of dir j) <= m) /\ (m = next' \/ m <= lim)) as IH'
    by (intros next'; apply IH; [intros j Hj; apply Hw; lia|lia]).
  destruct (DirEntry.is_valid (entry_of dir i)) eqn:Ev.
  - specialize (Hw i ltac:(lia) Ev). unfold end_of in Hw.
    assert (as_u32 (blocks_of (DirEntry.size (entry_of dir i))) = blocks_of (DirEntry.size (entry_of dir i))) as ->.
    { unfold as_u32. apply Z.mod_small. split; [unfold blocks_of; lia|]. unfold is_u32 in *. lia. }
    fold (end_of (entry_of dir i)) in *. rewrite (proj2 (Z.leb_gt _ _)) by lia.
    destruct (IH' (if next <? end_of (entry_of dir i) then end_of (entry_of dir i) else next)) as (m & E & Hm & Hends & Hc).
    exists m. split; [done|]. destruct (next <? _) eqn:El; zbool.
    + split; [lia|]. split; [|right; destruct Hc; lia]. intros j Hj Hv. destruct (decide (j = i)) as [->|]; [lia|]. apply Hends; [lia|done].
    + split; [lia|]. split; [|done]. intros j Hj Hv. destruct (decide (j = i)) as [->|]; [lia|]. apply Hends; [lia|done].
  - destruct (IH' next) as (m & E & Hm & Hends & Hc). exists m. split; [done|]. split; [done|]. split; [|done].
    intros j Hj Hv. destruct (decide (j = i)) as [->|]; [congruence|]. apply Hends; [lia|done].
Qed.
End scans.

(** ** The files of a device *)

Section files.
Context {D : Type} `{BlockDeviceOk D}.
Implicit Types (d : D) (w : WasmFs D).

Definition disk_byte d (k : Z) : Z := nth (off_of k) (sector d (k / BSZ)) 0.
Definition dir_of d : list Z := sector d DIR_BLOCK.

(** The bytes an entry names, and the file called [nm]. *)
Definition bytes_of d (e : DirEntry.t) : list Z :=
  zrange (disk_byte d) (DirEntry.start_block e * BSZ) (Z.to_nat (DirEntry.size e)).
Definition lookup_entry d (nm : list Z) : option (nat * DirEntry.t) :=
  find_from (matches (dir_of d) nm) 0 DIR_ENTRIES_PER_BLOCK.
Definition content d (nm : list Z) : option (list Z) := (fun p => bytes_of d p.2) <$> lookup_entry d nm.

(** A directory whose files lie behind it and on the device, under distinct names. *)
Record wfs_ok d : Prop := {
  wk_dev : device_ok d;
  wk_count : 0 < block_count d < 4294967296;
  wk_entry i : (i < 8)%nat -> DirEntry.is_valid (entry_of (dir_of d) i) = true ->
    1 <= DirEntry.start_block (entry_of (dir_of d) i) /\ end_of (entry_of (dir_of d) i) < 4294967296 /\
    (0 < DirEntry.size (entry_of (dir_of d) i) -> end_of (entry_of (dir_of d) i) <= block_count d);
  wk_unique i j : (i < 8)%nat -> (j < 8)%nat ->
    DirEntry.is_valid (entry_of (dir_of d) i) = true -> DirEntry.is_valid (entry_of (dir_of d) j) = true ->
    DirEntry.name_str (entry_of (dir_of d) i) = DirEntry.name_str (entry_of (dir_of d) j) -> i = j
}.

(** A device with the same blocks. *)
Record same_dev d d' : Prop := {
  sv_ok : device_ok d';
  sv_count : block_count d' = block_count d;
  sv_sector l : sector d' l = sector d l
}.

Lemma same_dev_trans a b c : same_dev a b -> same_dev b c -> same_dev a c.
Proof. intros [] []. split; [done|congruence|]. intros l. etrans; eauto. Qed.

Lemma same_dev_byte d d' k : same_dev d d' -> disk_byte d' k = disk_byte d k.
Proof. intros []. unfold disk_byte. by rewrite sv_sector0. Qed.

Lemma dir_of_ok d : wfs_ok d -> length (dir_of d) = BLOCK_SIZE /\ Forall is_u8 (dir_of d).
Proof. intros [Hd Hc _ _]. apply sector_ok; [done|unfold DIR_BLOCK; lia]. Qed.

Lemma read_dir_run w : device_ok (wdev w) -> 0 < block_count (wdev w) ->
  exists d', read_dir_block w = (Ok (dir_of (wdev w)), mkWfs d' (wopen w)) /\ same_dev (wdev w) d'.
Proof.
  intros Hd Hc. destruct (read_in_range (wdev w) DIR_BLOCK Hd) as (d' & E & H1 & H2 & H3); [unfold DIR_BLOCK; lia|].
  exists d'. unfold read_dir_block, on_wdev. rewrite E. done.
Qed.

Lemma same_dev_dir d d' : same_dev d d' -> dir_of d' = dir_of d.
Proof. intros []. apply sv_sector0. Qed.

Lemma same_dev_wfs d d' : same_dev d d' -> wfs_ok d -> wfs_ok d'.
Proof.
  intros Hs [? ? He Hq]. pose proof (same_dev_dir _ _ Hs) as Hdir. destruct Hs as [? Hc _].
  split; rewrite ?Hdir, ?Hc; auto.
Qed.

(** Blocks behind the directory decide an entry's bytes. *)
Lemma bytes_of_ext d d' e : 0 <= DirEntry.size e ->
  (forall l, DirEntry.start_block e <= l < end_of e -> sector d' l = sector d l) -> bytes_of d' e = bytes_of d e.
Proof.
  intros Hz Hs. apply zrange_ext. intros k Hk. unfold disk_byte. rewrite Hs; [done|].
  unfold end_of, blocks_of. change BSZ with 512 in *. zlia.
Qed.

Lemma content_same d d' nm : same_dev d d' -> content d' nm = content d nm.
Proof.
  intros Hs. unfold content, lookup_entry. rewrite (same_dev_dir d d' Hs). destruct (find_from _ _ _) as [[i e]|]; [|done]. cbn. f_equal.
  unfold bytes_of. apply zrange_ext. intros. by apply same_dev_byte.
Qed.

(** ** Writing *)

(** The blocks [n] bytes take. *)
Definition span (n : nat) : Z := (Z.of_nat n + BSZ - 1) / BSZ.

Lemma disk_byte_block d lba k : 0 <= k < BSZ -> disk_byte d (lba * BSZ + k) = nth (Z.to_nat k) (sector d lba) 0.
Proof.
  intros Hk. unfold disk_byte, off_of. change BSZ with 512 in *.
  assert ((lba * 512 + k) / 512 = lba) as -> by zlia. assert ((lba * 512 + k) mod 512 = k) as -> by zlia. done.
Qed.

(** One padded block, as the loop writes it. *)
Lemma pad_block (data : list Z) : Forall is_u8 data ->
  let chunk := Nat.min (length data) BLOCK_SIZE in
  let blk := take chunk data ++ replicate (BLOCK_SIZE - chunk) 0 in
  length blk = BLOCK_SIZE /\ Forall is_u8 blk /\ forall i, (i < chunk)%nat -> nth i blk 0 = nth i data 0.
Proof.
  intros Hu chunk blk. change BLOCK_SIZE with 512%nat in *. split_and!.
  - unfold blk. rewrite length_app, length_take, length_replicate. lia.
  - apply Forall_app. split; [by apply Forall_take|by apply Forall_replicate].
  - intros i Hi. unfold blk. rewrite app_nth1 by (rewrite length_take; lia). by rewrite nth_firstn, (proj2 (Nat.ltb_lt _ _)).
Qed.

Lemma write_blocks_run fuel lba data w :
  (length data <= fuel)%nat -> device_ok (wdev w) -> 0 <= lba < 4294967296 -> block_count (wdev w) < 4294967296 -> Forall is_u8 data ->
  exists d', device_ok d' /\ block_count d' = block_count (wdev w) /\
    (forall l, l < lba -> sector d' l = sector (wdev w) l) /\
    if bool_decide (data = []) || (lba + span (length data) <=? block_count (wdev w))
    then write_blocks fuel lba data w = (Ok tt, mkWfs d' (wopen w)) /\
         forall i, (i < length data)%nat -> disk_byte d' (lba * BSZ + Z.of_nat i) = nth i data 0
    else write_blocks fuel lba data w = (Err tt, mkWfs d' (wopen w)).
Proof.
  revert lba data w. induction fuel as [|fuel IH]; intros lba data w Hf Hd Hl Hc Hu.
  { destruct data; [|cbn in Hf; lia]. exists (wdev w). split_and!; try done. cbn. split; [by destruct w|intros; lia]. }
  destruct (decide (data = [])) as [->|Hne].
  { exists (wdev w). split_and!; try done. cbn. split; [by destruct w|intros; lia]. }
  rewrite bool_decide_eq_false_2 by done. cbn [orb].
  assert (0 < length data)%nat as Hpos by (destruct data; [done|cbn; lia]).
  destruct (pad_block data Hu) as (Hbl & Hbu & Hbn). set (chunk := Nat.min _ _) in *. set (blk := take chunk data ++ _) in *.
  assert (write_blocks (S fuel) lba data w =
    (do! on_wdev (write_block lba blk) in
     if 4294967296 <=? lba + 1 then panic else write_blocks fuel (lba + 1) (drop chunk data)) w) as -> by (by destruct data).
  unfold bind, on_wdev. destruct (decide (lba < block_count (wdev w))) as [Hin|Hout].
  - destruct (write_in_range (wdev w) lba blk Hd ltac:(lia) Hbl Hbu) as (d1 & -> & Hd1 & Hc1 & Hs1).
    rewrite (proj2 (Z.leb_gt 4294967296 (lba + 1))) by lia.
    destruct (IH (lba + 1) (drop chunk data) (mkWfs d1 (wopen w))) as (d' & Hd' & Hc' & Hs' & Hr); cbn [wdev wopen];
      [rewrite length_drop; unfold chunk; change BLOCK_SIZE with 512%nat; lia|done|lia|lia|by apply Forall_drop|].
    exists d'. cbn [wdev wopen] in *. rewrite Hc1 in *. split_and!; [done|done|intros l Hll; rewrite Hs', Hs1 by lia; destruct (l =? lba) eqn:E; zbool; [lia|done]|].
    assert (bool_decide (drop chunk data = []) || (lba + 1 + span (length (drop chunk data)) <=? block_count (wdev w)) =
      (lba + span (length data) <=? block_count (wdev w))) as Hcond.
    { unfold span. rewrite length_drop. change BSZ with 512. assert (drop chunk data = [] <-> (length data <= 512)%nat) as Hdr.
      { rewrite <- length_zero_iff_nil, length_drop. unfold chunk. change BLOCK_SIZE with 512%nat. lia. }
      apply Bool.eq_iff_eq_true. rewrite orb_true_iff, bool_decide_eq_true, !Z.leb_le, Hdr. unfold chunk. change BLOCK_SIZE with 512%nat. zlia. }
    rewrite Hcond in Hr. destruct (_ <=? _); [|done]. destruct Hr as [-> Hr]. split; [done|]. intros i Hi.
    destruct (decide (i < chunk)%nat) as [Hic|Hic].
    + rewrite disk_byte_block by (unfold chunk, BSZ in *; change BLOCK_SIZE with 512%nat in *; lia).
      rewrite Hs', Hs1, Z.eqb_refl, Nat2Z.id by lia. by apply Hbn.
    + specialize (Hr (i - chunk)%nat ltac:(rewrite length_drop; lia)). rewrite nth_skipn in Hr.
      replace (chunk + (i - chunk))%nat with i in Hr by lia. rewrite <- Hr. f_equal.
      assert (chunk = 512%nat) as Hck by (unfold chunk in *; change BLOCK_SIZE with 512%nat in *; lia).
      change BSZ with 512. lia.
  - destruct (write_out_of_range (wdev w) lba blk Hd ltac:(lia) Hbl Hbu) as (d1 & -> & Hd1 & Hc1 & Hs1).
    exists d1. split_and!; [done|done|intros; apply Hs1|]. rewrite (proj2 (Z.leb_gt _ _)); [done|]. unfold span. change BSZ with 512. zlia.
Qed.

(** [idx] may take the name [nm]: it is the entry of that name, or [nm] has
    none and [idx] is unused. *)
Definition slot_for (dir nm : list Z) (idx : nat) : Prop :=
  (idx < 8)%nat /\
  match find_from (matches dir nm) 0 DIR_ENTRIES_PER_BLOCK with
  | Some p => p.1 = idx
  | None => DirEntry.is_valid (entry_of dir idx) = false
  end.

Lemma slot_for_other dir nm nm' idx : slot_for dir nm idx -> nm <> nm' -> matches dir nm' idx = None.
Proof.
  intros [_ Hs] Hn. destruct (find_from _ _ _) as [[j e]|] eqn:E; cbn in Hs.
  - subst j. apply find_from_some in E as (j & _ & E & _). pose proof (matches_inv _ _ _ _ E) as ([= <- _] & _ & Hnm).
    unfold matches. rewrite (proj2 (andb_false_iff _ _)); [done|right]. apply bool_decide_eq_false. congruence.
  - unfold matches. by rewrite Hs.
Qed.

(** The lookups of a directory whose entry [idx] became [e]. *)
Lemma lookup_written dir dir' idx e nm nm' :
  (forall i, (i < 8)%nat -> entry_of dir' i = if decide (i = idx) then e else entry_of dir i) ->
  slot_for dir nm idx -> DirEntry.is_valid e = true -> DirEntry.name_str e = nm ->
  find_from (matches dir' nm') 0 DIR_ENTRIES_PER_BLOCK =
  if bytes_eqb nm nm' then Some (idx, e) else find_from (matches dir nm') 0 DIR_ENTRIES_PER_BLOCK.
Proof.
  intros Hw Hs Hv Hn. pose proof Hs as [Hi Hs2].
  assert (matches dir' nm idx = Some (idx, e)) as Hidx.
  { unfold matches. rewrite Hw, decide_True, Hv by done. cbn [andb]. by rewrite (proj2 (bytes_eqb_true _ _)). }
  assert (forall j k, (j < 8)%nat -> j <> idx -> matches dir' k j = matches dir k j) as Hoth.
  { intros j k Hj Hne. unfold matches. by rewrite Hw, decide_False. }
  destruct (bytes_eqb nm nm') eqn:Eb.
  - apply bytes_eqb_true in Eb as <-. apply find_from_some. exists idx. split; [unfold DIR_ENTRIES_PER_BLOCK; lia|]. split; [done|].
    intros j Hj. rewrite Hoth by lia. destruct (find_from _ _ _) as [[k e0]|] eqn:E; cbn in Hs2.
    + subst k. apply find_from_some in E as (k & _ & E & Hlt). pose proof (matches_inv _ _ _ _ E) as ([= <- _] & _ & _). apply Hlt. lia.
    + apply (proj1 (find_from_none _ _ _) E). unfold DIR_ENTRIES_PER_BLOCK. lia.
  - assert (nm <> nm') as Hne by (intros ->; by rewrite (proj2 (bytes_eqb_true _ _)) in Eb).
    apply find_from_ext_in. intros j Hj. unfold DIR_ENTRIES_PER_BLOCK in Hj.
    destruct (decide (j = idx)) as [->|]; [|apply Hoth; lia]. rewrite (slot_for_other dir nm nm' idx Hs Hne).
    unfold matches. rewrite Hw, decide_True, Hn, Eb, andb_false_r by done. done.
Qed.

(** The directory has no room for the name [nm]. *)
Definition dir_full d (nm : list Z) : Prop :=
  lookup_entry d nm = None /\ forall i, (i < 8)%nat -> DirEntry.is_valid (entry_of (dir_of d) i) = true.

(** The first block behind every file. *)
Definition first_free d : Z :=
  match next_free_loop DIR_ENTRIES_PER_BLOCK 0 (dir_of d) DATA_START_BLOCK with Ok m => m | _ => 0 end.

Lemma first_free_ok d : wfs_ok d ->
  next_free_loop DIR_ENTRIES_PER_BLOCK 0 (dir_of d) DATA_START_BLOCK = Ok (first_free d) /\ 1 <= first_free d < 4294967296 /\
  forall i, (i < 8)%nat -> DirEntry.is_valid (entry_of (dir_of d) i) = true -> end_of (entry_of (dir_of d) i) <= first_free d.
Proof.
  intros Hw. destruct (dir_of_ok d Hw) as [Hl Hu].
  destruct (next_free_run (dir_of d) Hl Hu 4294967295 8 0 DATA_START_BLOCK) as (m & E & Hm & He & Hlast); [lia| |lia|].
  - intros j Hj Hv. destruct (wk_entry d Hw j ltac:(lia) Hv) as (_ & ? & _). lia.
  - unfold first_free, DIR_ENTRIES_PER_BLOCK. rewrite E. split; [done|]. split; [unfold DATA_START_BLOCK in Hm, Hlast; lia|].
    intros i Hi. apply He. lia.
Qed.

Lemma pick_slot_ok d nm : wfs_ok d ->
  exists r, pick_slot DIR_ENTRIES_PER_BLOCK 0 (dir_of d) nm None = Ok r /\
  match r with Some idx => slot_for (dir_of d) nm idx | None => dir_full d nm end.
Proof.
  intros Hw. destruct (dir_of_ok d Hw) as [Hl Hu].
  destruct (pick_slot_run (dir_of d) Hl Hu nm 8 0 None ltac:(lia)) as (r & E & Hr). exists r. split; [done|].
  unfold slot_for, dir_full, lookup_entry, DIR_ENTRIES_PER_BLOCK. destruct (find_from _ _ _) as [[j e]|] eqn:Ef.
  - subst r. split; [|done]. apply find_from_some in Ef as (k & Hk & Ef & _). pose proof (matches_inv _ _ _ _ Ef) as ([= -> _] & _). lia.
  - destruct r as [j|]; [destruct Hr; split; [lia|done]|]. split; [done|]. intros i Hi. apply Hr. lia.
Qed.

(** Entries lie below the first free block, so a device that agrees with [d]
    there, and on the directory, has the same files. *)
Lemma below_keeps d d' :
  wfs_ok d -> device_ok d' -> block_count d' = block_count d ->
  (forall l, l < first_free d -> sector d' l = sector d l) ->
  wfs_ok d' /\ forall nm, content d' nm = content d nm.
Proof.
  intros Hw Hd' Hc Hs. destruct (first_free_ok d Hw) as (_ & Hm & Hb).
  assert (dir_of d' = dir_of d) as Hdir by (apply Hs; unfold DIR_BLOCK; lia). split.
  - destruct Hw as [_ ? He Hq]. split; rewrite ?Hdir, ?Hc; auto.
  - intros nm. unfold content, lookup_entry. rewrite Hdir. destruct (find_from _ _ _) as [[i e]|] eqn:E; [|done]. cbn. f_equal.
    apply find_from_some in E as (j & Hj & E & _). pose proof (matches_inv _ _ _ _ E) as ([= -> ->] & Hv & _).
    destruct (dir_of_ok d Hw) as [Hl Hu]. unfold DIR_ENTRIES_PER_BLOCK in Hj.
    destruct (read_entry_ok (dir_of d) Hl Hu j ltac:(lia)) as [_ [_ _ Hz _]].
    apply bytes_of_ext; [unfold is_u32 in Hz; lia|]. intros l Hll. apply Hs. specialize (Hb j ltac:(lia) Hv). lia.
Qed.

(** The directory block is rewritten with the entry [idx] replaced. *)
Lemma commit_entry d idx e w :
  wfs_ok d -> device_ok (wdev w) -> block_count (wdev w) = block_count d -> (idx < 8)%nat ->
  entry_ok e -> Forall is_u8 (DirEntry.name e) ->
  exists dir' d', write_entry (dir_of d) idx e = Ok dir' /\ write_dir_block dir' w = (Ok tt, mkWfs d' (wopen w)) /\
    device_ok d' /\ block_count d' = block_count d /\ dir_of d' = dir' /\ (forall l, l <> 0 -> sector d' l = sector (wdev w) l) /\
    forall i, (i < 8)%nat -> entry_of dir' i = if decide (i = idx) then e else entry_of (dir_of d) i.
Proof.
  intros Hw Hd Hc Hi He Hn. destruct (dir_of_ok d Hw) as [Hl Hu]. pose proof (wk_count d Hw) as Hcnt.
  destruct (write_entry_ok (dir_of d) Hl Hu idx e Hi He) as (dir' & E & Hl' & Hu' & Hent).
  { unfold DirEntry.to_bytes. rewrite !Forall_app. destruct He as [_ _ _ Hfl].
    split_and!; [done|apply to_le_bytes_u8..|by constructor|by apply Forall_replicate]. }
  destruct (write_in_range (wdev w) DIR_BLOCK dir' Hd) as (d' & E' & Hd' & Hc' & Hs'); [unfold DIR_BLOCK; lia|done..|].
  exists dir', d'. split; [done|]. unfold write_dir_block, on_wdev. rewrite E'. split_and!; try done; [congruence| |].
  - unfold dir_of. by rewrite Hs', Z.eqb_refl.
  - intros l Hll. rewrite Hs'. unfold DIR_BLOCK. by rewrite (proj2 (Z.eqb_neq _ _)).
Qed.

Lemma pad_name_u8 nm : Forall is_u8 nm -> Forall is_u8 (pad_name 32 nm).
Proof. intros Hu. unfold pad_name. apply Forall_app. split; [by apply Forall_take|by apply Forall_replicate]. Qed.

Lemma entry_name_length nm : length (pad_name 32 nm) = 32%nat.
Proof. unfold pad_name. rewrite length_app, length_take, length_replicate. lia. Qed.

(** The file system after the entry [idx] was committed for [nm]. *)
Lemma committed d d' idx nm data :
  wfs_ok d -> slot_for (dir_of d) nm idx -> name_fits nm -> data <> [] \/ first_free d < block_count d -> Z.of_nat (length data) < 4294967296 ->
  let e := DirEntry.mkEntry (pad_name 32 nm) (first_free d) (as_u32 (Z.of_nat (length data))) FLAG_VALID in
  device_ok d' -> block_count d' = block_count d -> first_free d + span (length data) <= block_count d ->
  (forall i, (i < 8)%nat -> entry_of (dir_of d') i = if decide (i = idx) then e else entry_of (dir_of d) i) ->
  (forall l, l <> 0 -> l < first_free d -> sector d' l = sector d l) ->
  (forall i, (i < length data)%nat -> disk_byte d' (first_free d * BSZ + Z.of_nat i) = nth i data 0) ->
  wfs_ok d' /\ forall nm', content d' nm' = if bytes_eqb nm nm' then Some data else content d nm'.
Proof.
  intros Hw Hslot Hn Hne Hlen e Hd' Hc' Hfit Hent Hsec Hbytes. destruct (first_free_ok d Hw) as (_ & Hm & Hb).
  assert (DirEntry.size e = Z.of_nat (length data)) as Hsz by (cbn; unfold as_u32; apply Z.mod_small; lia).
  assert (DirEntry.is_valid e = true /\ DirEntry.name_str e = nm) as [Hv Hnm] by (split; [done|by apply name_str_pad]).
  assert ((0 < length data)%nat \/ first_free d < block_count d) as Hpos by (destruct Hne; [left; destruct data; [done|cbn; lia]|by right]).
  assert (end_of e <= block_count d) as Hend.
  { unfold end_of, blocks_of. rewrite Hsz. cbn [DirEntry.start_block e]. unfold span in Hfit. change BSZ with 512 in *. zlia. }
  pose proof (wk_count d Hw) as Hcnt. destruct (dir_of_ok d Hw) as [Hl Hu]. split.
  - split; [done|lia| |].
    + intros i Hi. rewrite Hent by done. destruct (decide _); [intros _; cbn [DirEntry.start_block e]; split_and!; lia|].
      rewrite Hc'. by apply (wk_entry d Hw).
    + assert (forall j, (j < 8)%nat -> j <> idx -> DirEntry.is_valid (entry_of (dir_of d) j) = true -> DirEntry.name_str (entry_of (dir_of d) j) <> nm) as Hno.
      { intros j Hj Hji Hvj Hnj. assert (matches (dir_of d) nm j = Some (j, entry_of (dir_of d) j)) as Hmj.
        { unfold matches. rewrite Hvj, Hnj. cbn. by rewrite (proj2 (bytes_eqb_true _ _)). }
        destruct Hslot as [_ Hs]. destruct (find_from _ _ _) as [[k e0]|] eqn:E; cbn in Hs.
        - subst k. apply find_from_some in E as (k & Hk & E & _). pose proof (matches_inv _ _ _ _ E) as ([= -> _] & Hvk & Hnk).
          apply Hji. unfold DIR_ENTRIES_PER_BLOCK in Hk. apply (wk_unique d Hw); [lia..|done|done|congruence].
        - pose proof (proj1 (find_from_none _ _ _) E j) as Hnone. unfold DIR_ENTRIES_PER_BLOCK in Hnone. rewrite Hnone in Hmj; [done|lia]. }
      intros i j Hi Hj. rewrite !Hent by done. destruct (decide (i = idx)) as [Ei|Ei], (decide (j = idx)) as [Ej|Ej]; rewrite ?Hnm; [intros; congruence|..].
      * intros _ Hvj Hnj. by destruct (Hno j Hj Ej Hvj).
      * intros Hvi _ Hni. by destruct (Hno i Hi Ei Hvi).
      * by apply (wk_unique d Hw).
  - intros nm'. unfold content, lookup_entry. rewrite (lookup_written _ (dir_of d') idx e nm nm') by done.
    destruct (bytes_eqb nm nm') eqn:Eb.
    + cbn [fmap option_fmap option_map snd]. f_equal. unfold bytes_of. rewrite Hsz, Nat2Z.id. cbn [DirEntry.start_block e].
      apply (nth_ext _ _ 0 0); [by rewrite zrange_length|]. rewrite zrange_length. intros i Hi. rewrite zrange_nth by done. by apply Hbytes.
    + destruct (find_from _ _ _) as [[i e0]|] eqn:E; [|done]. cbn. f_equal. apply find_from_some in E as (j & Hj & E & _).
      pose proof (matches_inv _ _ _ _ E) as ([= -> ->] & Hvj & _). unfold DIR_ENTRIES_PER_BLOCK in Hj.
      destruct (read_entry_ok (dir_of d) Hl Hu j ltac:(lia)) as [_ [_ _ Hz _]]. specialize (Hb j ltac:(lia) Hvj).
      destruct (wk_entry d Hw j ltac:(lia) Hvj) as [H1 _].
      apply bytes_of_ext; [unfold is_u32 in Hz; lia|]. intros l Hll. apply Hsec; lia.
Qed.

Lemma slot_not_full d nm idx : slot_for (dir_of d) nm idx -> ~ dir_full d nm.
Proof. intros [Hi Hs] [Hl Hall]. unfold lookup_entry in Hl. rewrite Hl in Hs. specialize (Hall idx Hi). congruence. Qed.

Lemma fs_write_run nm data w :
  wfs_ok (wdev w) -> name_fits nm -> data <> [] \/ first_free (wdev w) < block_count (wdev w) ->
  Z.of_nat (length data) < 4294967296 -> Forall is_u8 data ->
  let d := wdev w in
  exists r d', fs_write nm data w = (r, mkWfs d' (wopen w)) /\ wfs_ok d' /\
    match r with
    | Ok _ => ~ (dir_full d nm \/ block_count d < first_free d + span (length data)) /\
              forall nm', content d' nm' = if bytes_eqb nm nm' then Some data else content d nm'
    | Err _ => (dir_full d nm \/ block_count d < first_free d + span (length data)) /\ forall nm', content d' nm' = content d nm'
    | _ => False
    end.
Proof.
  intros Hw Hn Hne Hlen Hu d. pose proof (wk_count _ Hw) as Hcnt. unfold fs_write, bind at 1.
  destruct (read_dir_run w (wk_dev _ Hw) ltac:(lia)) as (d1 & -> & S1).
  destruct (pick_slot_ok d nm Hw) as (slot & E & Hslot). unfold bind at 1, lift at 1. fold d. rewrite E. unfold bind at 1, lift at 1.
  destruct slot as [idx|]; cbn [ok_or].
  2: { exists (Err tt), d1. split; [done|]. split; [by eapply same_dev_wfs|]. split; [by left|]. intros nm'. by apply content_same. }
  unfold bind at 1. unfold next_free_block, bind at 1.
  pose proof (same_dev_wfs _ _ S1 Hw) as Hw1.
  destruct (read_dir_run (mkWfs d1 (wopen w)) (wk_dev _ Hw1)) as (d2 & -> & S2); [apply (wk_count _ Hw1)|]. cbn [wdev wopen] in *.
  pose proof (same_dev_wfs _ _ S2 Hw1) as Hw2. unfold lift at 1. rewrite (same_dev_dir _ _ S1). fold d.
  destruct (first_free_ok d Hw) as (-> & Hm & _).
  assert (forall l, sector d2 l = sector d l) as Hs2 by (intros l; rewrite (sv_sector _ _ S2); apply (sv_sector _ _ S1)).
  assert (block_count d2 = block_count d) as Hc2 by (rewrite (sv_count _ _ S2); apply (sv_count _ _ S1)).
  destruct (write_blocks_run (length data) (first_free d) data (mkWfs d2 (wopen w))) as (d3 & Hd3 & Hc3 & Hs3 & Hr);
    cbn [wdev wopen] in *; [lia|apply (wk_dev _ Hw2)|lia|rewrite Hc2; unfold d; lia|done|].
  rewrite Hc2 in *. assert (bool_decide (data = []) || (first_free d + span (length data) <=? block_count d) =
    (first_free d + span (length data) <=? block_count d)) as Hb.
  { case_bool_decide as Hd; [|done]. destruct Hne as [|Hroom]; [done|]. subst data. cbn [orb]. symmetry. apply Z.leb_le.
    assert (span (length (@nil Z)) = 0) as -> by reflexivity. unfold d. lia. }
  rewrite Hb in Hr. clear Hb. unfold bind at 1. destruct (_ <=? _) eqn:El; zbool.
  - destruct Hr as [-> Hbytes].
    set (e := DirEntry.mkEntry _ _ _ _).
    destruct (commit_entry d idx e (mkWfs d3 (wopen w))) as (dir' & d4 & Ew & Ed & Hd4 & Hc4 & Hdir4 & Hs4 & Hent); cbn [wdev wopen] in *;
      [done|done|done|apply Hslot| | |].
    { split; [apply entry_name_length|unfold is_u32; cbn; unfold d in *; split; [lia|]|apply as_u32_range|done].
      pose proof (Z.div_pos (Z.of_nat (length data) + BSZ - 1) BSZ). unfold span, d in El. change BSZ with 512 in *. lia. }
    { apply pad_name_u8, Hn. }
    exists (Ok tt), d4. unfold bind, lift. rewrite Ew, Ed. split; [done|]. subst dir'.
    assert (~ (dir_full d nm \/ block_count d < first_free d + span (length data))) as Hnf.
    { intros [Hfull|?]; [by destruct (slot_not_full d nm idx Hslot)|lia]. }
    destruct (committed d d4 idx nm data) as [Hw4 Hc]; try done.
    + intros l Hl0 Hl1. rewrite Hs4, Hs3 by done. apply Hs2.
    + intros i Hi. rewrite <- Hbytes by done. unfold disk_byte. rewrite Hs4; [done|].
      change BSZ with 512. zlia.
  - rewrite Hr. exists (Err tt), d3. split; [done|].
    destruct (below_keeps d d3 Hw Hd3 ltac:(congruence)) as [Hw3 Hk]; [intros l Hl; rewrite Hs3 by done; apply Hs2|].
    split; [done|]. split; [right; lia|done].
Qed.

(** ** Reading *)

Lemma zrange_sector d lba off n : 0 <= lba -> (off + n <= BLOCK_SIZE)%nat -> length (sector d lba) = BLOCK_SIZE ->
  take n (drop off (sector d lba)) = zrange (disk_byte d) (lba * BSZ + Z.of_nat off) n.
Proof.
  intros Hl Hn Hs. apply (nth_ext _ _ 0 0); [rewrite length_take, length_drop, zrange_length; lia|].
  rewrite length_take, length_drop. intros i Hi. rewrite zrange_nth by lia. rewrite nth_firstn, (proj2 (Nat.ltb_lt _ _)), nth_skipn by lia.
  rewrite <- Z.add_assoc, <- Nat2Z.inj_add, disk_byte_block by (unfold BSZ; lia). by rewrite Nat2Z.id.
Qed.

Lemma zrange_same d d' p n : same_dev d d' -> zrange (disk_byte d') p n = zrange (disk_byte d) p n.
Proof. intros Hs. apply zrange_ext. intros. by apply same_dev_byte. Qed.

Lemma fs_read_loop_run fuel fd to_read acc w o :
  device_ok (wdev w) -> block_count (wdev w) < 4294967296 -> wopen w !! fd = Some o ->
  0 <= of_start o -> 0 <= of_pos o -> (length acc <= to_read)%nat -> (to_read - length acc <= fuel)%nat ->
  let n := (to_read - length acc)%nat in
  of_pos o + Z.of_nat n < 4294967296 -> of_start o * BSZ + of_pos o + Z.of_nat n <= block_count (wdev w) * BSZ ->
  exists d', fs_read_loop fuel fd to_read acc w =
    (Ok (acc ++ zrange (disk_byte (wdev w)) (of_start o * BSZ + of_pos o) n),
     mkWfs d' (<[fd := set_of_pos (of_pos o + Z.of_nat n) o]> (wopen w))) /\ same_dev (wdev w) d'.
Proof.
  revert acc w o. induction fuel as [|fuel IH]; intros acc w o Hd Hc Ho Hs Hp Hacc Hf n Hlim Hsz.
  all: destruct (decide (to_read <= length acc)%nat) as [Hend|Hmore];
    [exists (wdev w); assert (n = 0%nat) as -> by (unfold n; lia); cbn [fs_read_loop]; rewrite (proj2 (Nat.leb_le _ _)) by done;
     cbn [zrange seq map]; rewrite app_nil_r, Z.add_0_r, list_insert_id by (by destruct o); by destruct w|].
  1: lia.
  cbn [fs_read_loop]. rewrite (proj2 (Nat.leb_gt _ _)) by lia. unfold bind at 1, gets at 1. rewrite Ho. cbn [or_panic]. unfold bind at 1, lift at 1.
  set (p := of_pos o) in *. set (st := of_start o) in *. set (lba := st + as_u32 (p / BSZ)). set (off := Z.to_nat (p mod BSZ)).
  assert (0 <= p < 4294967296) as Hpr by lia.
  assert (as_u32 (p / BSZ) = p / BSZ) as Hq by (unfold as_u32; apply Z.mod_small; change BSZ with 512; zlia).
  assert (0 <= lba < block_count (wdev w)) as Hlba by (unfold lba; rewrite Hq; change BSZ with 512 in *; zlia).
  assert (lba * BSZ + Z.of_nat off = st * BSZ + p /\ (off < BLOCK_SIZE)%nat) as [Hpos Hoff].
  { unfold lba, off. rewrite Hq. change BSZ with 512. change BLOCK_SIZE with 512%nat. zlia. }
  rewrite (proj2 (Z.leb_gt _ _)) by lia. unfold on_wdev at 1.
  destruct (read_in_range (wdev w) lba Hd Hlba) as (d1 & -> & Hd1 & Hc1 & Hs1).
  pose proof (sector_ok (wdev w) lba Hd Hlba) as [Hl _].
  set (avail := Nat.min _ _). assert (0 < avail <= n)%nat as Hav by (unfold avail, n; change BLOCK_SIZE with 512%nat in *; lia).
  unfold bind at 1, lift at 1. rewrite slice_range_in by lia. replace (off + avail - off)%nat with avail by lia.
  rewrite zrange_sector by lia. rewrite (proj2 (Z.leb_gt _ _)) by lia. unfold bind at 1, put_open, modify.
  set (w1 := mkWfs _ _).
  destruct (IH (acc ++ zrange (disk_byte (wdev w)) (lba * BSZ + Z.of_nat off) avail) w1 (set_of_pos (p + Z.of_nat avail) o)) as (d' & E & Hsd);
    cbn [wdev wopen w1 of_start of_pos set_of_pos]; rewrite ?length_app, ?zrange_length; try lia; try done;
    [apply list_lookup_insert_eq; by eapply lookup_lt_Some|].
  assert (same_dev (wdev w) d1) as S1 by done. exists d'. rewrite E. clear E. split; [|by eapply same_dev_trans].
  cbn [wdev wopen w1 of_start of_pos set_of_pos]. fold st. rewrite (zrange_same _ _ _ _ S1). rewrite length_app, zrange_length.
  replace (to_read - (length acc + avail))%nat with (n - avail)%nat by (unfold n; lia).
  rewrite list_insert_insert_eq, <- app_assoc, Hpos. replace n with (avail + (n - avail))%nat at 3 by lia. rewrite zrange_app.
  do 3 f_equal; [by rewrite Z.add_assoc|]. unfold set_of_pos. cbn. f_equal. lia.
Qed.

(** The open file [o] reads the entry [e]. *)
Definition reads_entry (o : OpenFile) (e : DirEntry.t) : Prop :=
  of_start o = DirEntry.start_block e /\ of_size o = DirEntry.size e /\ in_use o = true /\ 0 <= of_pos o <= of_size o.

Lemma lookup_entry_valid d nm i e : wfs_ok d -> lookup_entry d nm = Some (i, e) ->
  (i < 8)%nat /\ e = entry_of (dir_of d) i /\ DirEntry.is_valid e = true /\ DirEntry.name_str e = nm /\ entry_ok e /\
  1 <= DirEntry.start_block e /\ (0 < DirEntry.size e -> end_of e <= block_count d).
Proof.
  intros Hw E. apply find_from_some in E as (j & Hj & E & _). pose proof (matches_inv _ _ _ _ E) as ([= -> ->] & Hv & Hn).
  unfold DIR_ENTRIES_PER_BLOCK in Hj. destruct (dir_of_ok d Hw) as [Hl Hu]. destruct (read_entry_ok (dir_of d) Hl Hu j ltac:(lia)) as [_ Hok].
  destruct (wk_entry d Hw j ltac:(lia) Hv) as (H1 & _ & H3). split_and!; try done; lia.
Qed.

(** A read returns the next bytes of the file, as many as asked for and there are. *)
Lemma fs_read_run fd cap len w o i e nm :
  wfs_ok (wdev w) -> lookup_entry (wdev w) nm = Some (i, e) -> (fd < MAX_OPEN_FILES)%nat ->
  wopen w !! fd = Some o -> reads_entry o e ->
  let n := Nat.min (Nat.min len (Z.to_nat (of_size o - of_pos o))) cap in
  exists d', fs_read fd cap len w = (Ok (take n (drop (Z.to_nat (of_pos o)) (bytes_of (wdev w) e))),
      mkWfs d' (<[fd := set_of_pos (of_pos o + Z.of_nat n) o]> (wopen w))) /\ same_dev (wdev w) d'.
Proof.
  intros Hw Hl Hfd Ho (Hs & Hz & Hin & Hp) n. destruct (lookup_entry_valid _ _ _ _ Hw Hl) as (_ & _ & _ & _ & [_ Hes Hez _] & H1 & Hend).
  unfold fs_read. rewrite (proj2 (Nat.leb_gt _ _)) by done. unfold bind at 1, gets. rewrite Ho. cbn [or_panic]. unfold bind, lift. rewrite Hin. cbn [negb].
  rewrite Z.max_l by lia. fold n. pose proof (wk_count _ Hw) as Hc.
  assert (take n (drop (Z.to_nat (of_pos o)) (bytes_of (wdev w) e)) =
    zrange (disk_byte (wdev w)) (of_start o * BSZ + of_pos o) n) as ->.
  { unfold bytes_of. rewrite Hs, <- Hz. replace (Z.to_nat (of_size o)) with (Z.to_nat (of_pos o) + Z.to_nat (of_size o - of_pos o))%nat by lia.
    rewrite zrange_app, drop_app_length' by (by rewrite zrange_length). rewrite Z2Nat.id by lia.
    replace (Z.to_nat (of_size o - of_pos o)) with (n + (Z.to_nat (of_size o - of_pos o) - n))%nat by (unfold n; lia).
    rewrite zrange_app, take_app_length' by (by rewrite zrange_length). done. }
  destruct (n =? 0)%nat eqn:En; zbool.
  - exists (wdev w). rewrite En. cbn [zrange seq map]. rewrite Z.add_0_r, list_insert_id by (by destruct o). split; [by destruct w|by split; [apply Hw|..]].
  - pose proof (fs_read_loop_run n fd n [] w o) as HL. cbn [length app] in HL. rewrite Nat.sub_0_r in HL. apply HL; try lia; try done; [apply Hw| |].
    + unfold is_u32 in *. unfold n. lia.
    + assert (0 < DirEntry.size e) as Hpos by (rewrite <- Hz; unfold n in *; lia). specialize (Hend Hpos).
      unfold end_of, blocks_of in Hend. rewrite <- Hs, <- Hz in *. unfold n. change BSZ with 512 in *. zlia.
Qed.

(** Opening takes the first free descriptor, at the start of the file. *)
Lemma fs_open_run nm w :
  wfs_ok (wdev w) ->
  exists d', same_dev (wdev w) d' /\
  match lookup_entry (wdev w) nm, position (fun o => negb (in_use o)) (wopen w) with
  | Some (_, e), Some fd =>
    fs_open nm w = (Ok (Some fd), mkWfs d' (<[fd := mkOpen (DirEntry.start_block e) (DirEntry.size e) 0 true]> (wopen w)))
  | _, _ => fs_open nm w = (Ok None, mkWfs d' (wopen w))
  end.
Proof.
  intros Hw. destruct (read_dir_run w (wk_dev _ Hw)) as (d' & E & S1); [apply (wk_count _ Hw)|]. exists d'. split; [done|].
  destruct (dir_of_ok _ Hw) as [Hl Hu].
  assert (fs_open nm w = (match lookup_entry (wdev w) nm with
    | None => ret None
    | Some (_, e) => match position (fun o => negb (in_use o)) (wopen w) with
                     | Some fd => do! put_open fd (mkOpen (DirEntry.start_block e) (DirEntry.size e) 0 true) in ret (Some fd)
                     | None => ret None end end) (mkWfs d' (wopen w))) as ->.
  { unfold fs_open, bind at 1. rewrite E. unfold bind at 1, lift.
    rewrite (find_entry_run _ Hl Hu) by (unfold DIR_ENTRIES_PER_BLOCK; lia). fold (lookup_entry (wdev w) nm). by destruct (lookup_entry (wdev w) nm) as [[i e]|]. }
  destruct (lookup_entry (wdev w) nm) as [[i e]|]; [|done]. by destruct (position _ _).
Qed.

Lemma slot_for_found d nm i e : wfs_ok d -> lookup_entry d nm = Some (i, e) -> slot_for (dir_of d) nm i.
Proof. intros Hw Hl. pose proof (lookup_entry_valid _ _ _ _ Hw Hl) as [Hi _]. split; [done|]. unfold lookup_entry in Hl. by rewrite Hl. Qed.

(** Removing a file removes that file. *)
Lemma fs_unlink_run nm w :
  wfs_ok (wdev w) ->
  exists r d', fs_unlink nm w = (r, mkWfs d' (wopen w)) /\ wfs_ok d' /\
    (r = if bool_decide (lookup_entry (wdev w) nm = None) then Err tt else Ok tt) /\
    forall nm', content d' nm' = if bytes_eqb nm nm' then None else content (wdev w) nm'.
Proof.
  intros Hw. destruct (read_dir_run w (wk_dev _ Hw)) as (d1 & E & S1); [apply (wk_count _ Hw)|].
  destruct (dir_of_ok _ Hw) as [Hl Hu]. unfold fs_unlink, bind at 1. rewrite E. unfold bind at 1, lift at 1.
  rewrite (find_entry_run _ Hl Hu) by (unfold DIR_ENTRIES_PER_BLOCK; lia). fold (lookup_entry (wdev w) nm).
  destruct (lookup_entry (wdev w) nm) as [[i e]|] eqn:El.
  - destruct (lookup_entry_valid _ _ _ _ Hw El) as (Hi & -> & Hv & Hn & _).
    destruct (commit_entry (wdev w) i blank_entry (mkWfs d1 (wopen w))) as (dir' & d' & Ew & Ed & Hd' & Hc' & Hdir & Hs & Hent);
      cbn [wdev wopen]; [done|apply S1|apply S1|done|by split; try done|by apply Forall_replicate|].
    exists (Ok tt), d'. unfold bind, lift. rewrite Ew, Ed. split; [done|]. subst dir'.
    assert (forall j, (j < 8)%nat -> DirEntry.is_valid (entry_of (dir_of d') j) = true ->
      j <> i /\ entry_of (dir_of d') j = entry_of (dir_of (wdev w)) j) as Hval.
    { intros j Hj. rewrite Hent by done. by destruct (decide (j = i)). }
    split; [|split; [done|]].
    + split; [done|rewrite Hc'; apply Hw| |].
      * intros j Hj Hvj. destruct (Hval j Hj Hvj) as [_ Ej]. rewrite Ej in *. rewrite Hc'. by apply (wk_entry _ Hw).
      * intros j k Hj Hk Hvj Hvk. destruct (Hval j Hj Hvj) as [_ Ej], (Hval k Hk Hvk) as [_ Ek]. rewrite Ej, Ek in *. by apply (wk_unique _ Hw).
    + intros nm'. destruct (bytes_eqb nm nm') eqn:Eb.
      * apply bytes_eqb_true in Eb as <-. unfold content, lookup_entry. rewrite (proj2 (find_from_none _ _ _)); [done|].
        intros j Hj. unfold DIR_ENTRIES_PER_BLOCK in Hj. destruct (matches _ _ _) as [p|] eqn:Em; [|done].
        apply matches_inv in Em as (_ & Hvj & Hnj). destruct (Hval j ltac:(lia) Hvj) as [Hne Ej]. rewrite Ej in *.
        destruct Hne. apply (wk_unique _ Hw); [lia..|done|done|congruence].
      * assert (nm <> nm') as Hne by (intros ->; by rewrite (proj2 (bytes_eqb_true _ _)) in Eb).
        assert (lookup_entry d' nm' = lookup_entry (wdev w) nm') as Hlk.
        { apply find_from_ext_in. intros j Hj. unfold DIR_ENTRIES_PER_BLOCK in Hj. destruct (decide (j = i)) as [->|Hji].
          - rewrite (slot_for_other _ nm nm' i (slot_for_found _ _ _ _ Hw El) Hne). unfold matches. by rewrite Hent, decide_True.
          - unfold matches. by rewrite Hent, decide_False by (done || lia). }
        unfold content. rewrite Hlk. destruct (lookup_entry (wdev w) nm') as [[j e]|] eqn:Ej; [|done]. cbn. f_equal.
        destruct (lookup_entry_valid _ _ _ _ Hw Ej) as (_ & _ & _ & _ & [_ _ Hz _] & H1 & _).
        apply bytes_of_ext; [unfold is_u32 in Hz; lia|]. intros l Hll. rewrite Hs by lia. apply S1.
  - exists (Err tt), d1. split; [done|]. split; [by eapply same_dev_wfs|]. split; [done|].
    intros nm'. rewrite (content_same _ _ nm' S1). destruct (bytes_eqb nm nm') eqn:Eb; [|done]. apply bytes_eqb_true in Eb as <-.
    unfold content. by rewrite El.
Qed.

(** ** Mounting a device at boot *)

(** No file is open. *)
Definition all_closed w : Prop := length (wopen w) = MAX_OPEN_FILES /\ Forall (fun o => in_use o = false) (wopen w).

Lemma position_hd {A} (f : A -> bool) x l : f x = true -> position f (x :: l) = Some 0%nat.
Proof. intros Hx. unfold position. cbn. by rewrite Hx. Qed.

(** Open, read whole, close: the file's bytes. *)
Lemma load_file_run w nm i e :
  wfs_ok (wdev w) -> all_closed w -> lookup_entry (wdev w) nm = Some (i, e) ->
  exists w1 w2 w3, fs_open nm w = (Ok (Some 0%nat), w1) /\
    fs_read 0 (Z.to_nat (DirEntry.size e)) (Z.to_nat (DirEntry.size e)) w1 = (Ok (bytes_of (wdev w) e), w2) /\
    fs_close 0 w2 = (Ok tt, w3) /\ same_dev (wdev w) (wdev w3) /\ all_closed w3.
Proof.
  intros Hw [Hl Hcl] He. destruct (fs_open_run nm w Hw) as (d1 & S1 & Ho). rewrite He in Ho.
  destruct (wopen w) as [|o0 os] eqn:Eo; [done|]. inversion_clear Hcl as [|? ? Ho0 Hos]. rewrite position_hd in Ho by (by rewrite Ho0).
  set (o := mkOpen _ _ 0 true) in *. cbn in Ho. set (w1 := mkWfs d1 (o :: os)) in *.
  destruct (lookup_entry_valid _ _ _ _ Hw He) as (_ & _ & _ & _ & [_ _ Hz _] & _). unfold is_u32 in Hz.
  pose proof (same_dev_wfs _ _ S1 Hw) as Hw1.
  assert (lookup_entry d1 nm = Some (i, e)) as He1 by (unfold lookup_entry; by rewrite (same_dev_dir _ _ S1)).
  destruct (fs_read_run 0 (Z.to_nat (DirEntry.size e)) (Z.to_nat (DirEntry.size e)) w1 o i e nm) as (d2 & Hr & S2); try done;
    [unfold MAX_OPEN_FILES; lia|split_and!; cbn; done || lia|].
  rewrite Z.sub_0_r, drop_0 in Hr. change (of_size o) with (DirEntry.size e) in Hr. rewrite !Nat.min_id in Hr.
  rewrite take_ge in Hr by (unfold bytes_of; rewrite zrange_length; done).
  eexists w1, _, _. split; [done|]. split; [rewrite Hr; f_equal; f_equal; unfold bytes_of, w1; apply (zrange_same _ _ _ _ S1)|].
  cbn. split; [reflexivity|]. cbn. split; [by eapply same_dev_trans|]. split; [done|]. by constructor.
Qed.

Lemma name_str_ok e : entry_ok e -> (length (DirEntry.name_str e) <= 64)%nat /\ utf8_valid (DirEntry.name_str e) = true.
Proof.
  intros [Hn _ _ _]. unfold DirEntry.name_str, from_utf8. destruct (utf8_valid (take _ _)) eqn:E; cbn; [|split; [lia|done]].
  split; [rewrite length_take; lia|done].
Qed.

Lemma mount_entry_run dir i st n w d :
  wfs_ok d -> dir = dir_of d -> same_dev d (wdev w) -> all_closed w -> (i < 8)%nat ->
  fs_wf st -> mirrors content d st ->
  exists st' n' w', mount_entry dir i (st, n) w = (Ok (st', n'), w') /\ fs_wf st' /\ mirrors content d st' /\
    same_dev d (wdev w') /\ all_closed w'.
Proof.
  intros Hw -> Hs Hcl Hi Hwf Hm. destruct (dir_of_ok d Hw) as [Hl Hu]. destruct (read_entry_ok _ Hl Hu i Hi) as [E Hok].
  unfold mount_entry, bind at 1, lift. rewrite E. set (e := entry_of (dir_of d) i) in *.
  destruct (DirEntry.is_valid e) eqn:Hv; cbn [negb]; [|by exists st, n, w].
  destruct (DirEntry.size e =? 0) eqn:Hz0; [by exists st, n, w|]. zbool.
  assert (lookup_entry d (DirEntry.name_str e) = Some (i, e)) as He.
  { apply find_from_some. exists i. unfold DIR_ENTRIES_PER_BLOCK. split; [lia|]. split.
    - unfold matches. fold e. rewrite Hv. by rewrite (proj2 (bytes_eqb_true _ _)).
    - intros j Hj. destruct (matches _ _ j) as [p|] eqn:Em; [|done]. apply matches_inv in Em as (_ & Hvj & Hnj).
      assert (j = i) by (apply (wk_unique d Hw); [lia..|done|done|done]). lia. }
  pose proof (same_dev_wfs _ _ Hs Hw) as Hw'.
  assert (lookup_entry (wdev w) (DirEntry.name_str e) = Some (i, e)) as He' by (unfold lookup_entry; by rewrite (same_dev_dir _ _ Hs)).
  destruct (load_file_run w _ i e Hw' Hcl He') as (w1 & w2 & w3 & E1 & E2 & E3 & S3 & Hcl3).
  assert (bytes_of (wdev w) e = bytes_of d e) as Hbs by (apply (zrange_same _ _ _ _ Hs)). rewrite Hbs in E2.
  pose proof (eo_size _ Hok) as Hz. unfold is_u32 in Hz.
  assert (Z.of_nat (length (bytes_of d e)) = DirEntry.size e) as Hlen by (unfold bytes_of; rewrite zrange_length; lia).
  destruct (alloc_disk_slot (DirEntry.size e) st) as [[base|] st1] eqn:Ha.
  - unfold bind. rewrite E1, E2, E3. rewrite Hlen, Z.eqb_refl. cbn [negb]. unfold ret. eexists _, _, _. split; [reflexivity|].
    rewrite <- Hlen in *.
    pose proof (alloc_disk_slot_ok st (bytes_of d e) base st1 Hwf Ha) as (_ & _ & Hok' & Hd & Hst & Ht & Hc & Hwf').
    destruct (name_str_ok e Hok) as [Hn1 Hn2]. split; [by apply fs_wf_register|]. split; [|split; [by eapply same_dev_trans|done]].
    apply mirrors_register; try done.
    + intros j f Hf. rewrite Ht in Hf. rewrite (Hm j f Hf). f_equal. symmetry. apply Hst. by eapply wf_refs.
    + unfold content. rewrite He. cbn [fmap option_fmap option_map snd]. by rewrite Hd.
  - unfold alloc_disk_slot in Ha. assert (st1 = st) as ->; [|by exists st, n, w].
    destruct (_ =? 0); [by injection Ha|]. destruct (_ <? _); [by injection Ha|discriminate].
Qed.

Lemma mount_loop_run k dir i st n w d :
  wfs_ok d -> dir = dir_of d -> same_dev d (wdev w) -> all_closed w -> (i + k <= 8)%nat ->
  fs_wf st -> mirrors content d st ->
  exists st' n' w', mount_loop k i dir (st, n) w = (Ok (st', n'), w') /\ fs_wf st' /\ mirrors content d st'.
Proof.
  intros Hw Hdir. revert i st n w. induction k as [|k IH]; intros i st n w Hs Hcl Hi Hwf Hm; [by eexists _, _, _|].
  cbn [mount_loop]. destruct (mount_entry_run dir i st n w d) as (st' & n' & w' & E & H1 & H2 & H3 & H4); try done; [lia|].
  unfold bind. rewrite E. apply IH; try done; lia.
Qed.

(** Whatever the boot mount registers holds the bytes the device stores. *)
Lemma mount_from_blk_run d st :
  wfs_ok d -> fs_wf st -> mirrors content d st ->
  exists st' n, mount_from_blk d st = Ok (st', n) /\ fs_wf st' /\ mirrors content d st'.
Proof.
  intros Hw Hwf Hm. destruct (read_dir_run (new_wfs d) (wk_dev d Hw)) as (d' & E & S1); [apply (wk_count d Hw)|].
  cbn [wdev wopen new_wfs] in *. unfold mount_from_blk, bind. rewrite E.
  destruct (mount_loop_run DIR_ENTRIES_PER_BLOCK (dir_of d) 0 st 0 (mkWfs d' (wopen (new_wfs d))) d) as (st' & n & w' & E' & H1 & H2); try done.
  { split; [done|]. by apply Forall_replicate. }
  exists st', n. cbn [wopen new_wfs] in E'. by rewrite E'.
Qed.

(** The first descriptor not in use. *)
Definition free_fd w : option nat := position (fun o => negb (in_use o)) (wopen w).

(** The file called [nm], read through a descriptor. *)
Lemma content_read w nm bs cap len fd :
  wfs_ok (wdev w) -> length (wopen w) = MAX_OPEN_FILES -> free_fd w = Some fd -> content (wdev w) nm = Some bs ->
  exists w1 w2, fs_open nm w = (Ok (Some fd), w1) /\ fs_read fd cap len w1 = (Ok (take (Nat.min len cap) bs), w2).
Proof.
  intros Hw Hl Hfd Hc. unfold content in Hc. destruct (lookup_entry (wdev w) nm) as [[i e]|] eqn:He; [|done]. injection Hc as <-. cbn [snd].
  destruct (fs_open_run nm w Hw) as (d1 & S1 & Ho). unfold free_fd in Hfd. rewrite He, Hfd in Ho.
  apply position_some in Hfd as [(x & Hx & _) _]. apply lookup_lt_Some in Hx.
  set (o := mkOpen _ _ 0 true) in *. set (w1 := mkWfs d1 _) in *.
  destruct (lookup_entry_valid _ _ _ _ Hw He) as (_ & _ & _ & _ & [_ _ Hz _] & _). unfold is_u32 in Hz.
  assert (lookup_entry d1 nm = Some (i, e)) as He1 by (unfold lookup_entry; by rewrite (same_dev_dir _ _ S1)).
  destruct (fs_read_run fd cap len w1 o i e nm) as (d2 & Hr & _); try done;
    [by apply (same_dev_wfs _ _ S1)|lia|by apply list_lookup_insert_eq|split_and!; cbn; done || lia|].
  eexists w1, _. split; [done|]. rewrite Hr. do 2 f_equal. rewrite Z.sub_0_r, drop_0. cbn [of_size o wdev w1].
  assert (bytes_of d1 e = bytes_of (wdev w) e) as -> by (apply (zrange_same _ _ _ _ S1)).
  assert (length (bytes_of (wdev w) e) = Z.to_nat (DirEntry.size e)) as Hlb by apply zrange_length.
  destruct (decide (Nat.min len cap <= Z.to_nat (DirEntry.size e))%nat); [by f_equal; lia|]. rewrite !take_ge by lia. done.
Qed.

Lemma fs_write_refused nm data w :
  wfs_ok (wdev w) -> name_fits nm -> data <> [] -> Z.of_nat (length data) < 4294967296 -> Forall is_u8 data ->
  dir_full (wdev w) nm \/ block_count (wdev w) < first_free (wdev w) + span (length data) ->
  exists d', fs_write nm data w = (Err tt, mkWfs d' (wopen w)) /\ wfs_ok d' /\ forall nm', content d' nm' = content (wdev w) nm'.
Proof.
  intros Hw Hn Hne Hlen Hu Hfull. destruct (fs_write_run nm data w Hw Hn (or_introl Hne) Hlen Hu) as (r & d1 & E & Hw1 & Hr).
  destruct r as [[]|[]| |]; [by destruct Hr|by exists d1; destruct Hr|done..].
Qed.
End files.
