(* ===== verification/Fat.v ===== *)
(** * The FAT volume ([kernel/src/fs/fat.rs])

    What the kernel does with the [fatfs] crate: the crate's file system is a
    parameter, a class of the operations the code calls with the behaviour it
    documents as a second class. *)

From S2P Require Import Prelude FileTable Block.

(** ** The crate's interface *)

Record FatEntry := mkFatEntry { file_name : list Z; is_dir : bool; entry_len : Z }.

Class FatFs (V : Type) := {
  fat_dir : Type;
  fat_file : Type;
  root_dir : fat_dir;
  dir_iter : fat_dir -> V -> list (result unit FatEntry) * V;
  dir_open_dir : fat_dir -> list Z -> M V unit fat_dir;
  dir_open_file : fat_dir -> list Z -> M V unit fat_file;
  dir_create_file : fat_dir -> list Z -> M V unit fat_file;
  dir_create_dir : fat_dir -> list Z -> M V unit unit;
  dir_remove : fat_dir -> list Z -> M V unit unit;
  file_seek : fat_file -> SeekFrom -> M V unit (Z * fat_file);
  file_read : fat_file -> nat -> M V unit (list Z * fat_file);
  file_write : fat_file -> list Z -> M V unit (nat * fat_file);
  file_truncate : fat_file -> M V unit fat_file;
  file_flush : fat_file -> M V unit unit;
  fs_stats : M V unit (Z * Z * Z)
}.

(** A volume whose device works. [same_name] is the crate's comparison of
    names, [root_files] what the root directory stores, [file_at] the file and
    the position a handle stands at. *)
Class FatFsOk (V : Type) `{FatFs V} := {
  vol_ok : V -> Prop;
  same_name : list Z -> list Z -> bool;
  root_files : V -> list Z -> option (list Z);
  file_at : fat_file -> list Z * nat;
  same_name_eq :: Equivalence (fun a b => same_name a b = true);
  root_files_proper v a b : same_name a b = true -> root_files v a = root_files v b;
  open_file_some v nm c : vol_ok v -> root_files v nm = Some c ->
    exists f v', dir_open_file root_dir nm v = (Ok f, v') /\ vol_ok v' /\ root_files v' = root_files v /\ file_at f = (nm, 0%nat);
  open_file_none v nm : vol_ok v -> root_files v nm = None ->
    exists v', dir_open_file root_dir nm v = (Err tt, v') /\ vol_ok v' /\ root_files v' = root_files v;
  seek_to v f nm p c from : vol_ok v -> file_at f = (nm, p) -> root_files v nm = Some c -> from = SeekEnd 0 \/ from = SeekStart 0 ->
    exists f' v', let q := match from with SeekEnd _ => length c | _ => 0%nat end in
      file_seek f from v = (Ok (Z.of_nat q, f'), v') /\ vol_ok v' /\ root_files v' = root_files v /\ file_at f' = (nm, q);
  read_some v f nm p c k : vol_ok v -> file_at f = (nm, p) -> root_files v nm = Some c -> (p <= length c)%nat ->
    exists n f' v', file_read f k v = (Ok (take n (drop p c), f'), v') /\ vol_ok v' /\ root_files v' = root_files v /\
      (n <= k)%nat /\ (p + n <= length c)%nat /\ (0 < k -> p < length c -> 0 < n)%nat /\ file_at f' = (nm, (p + n)%nat);
  create_file v nm : vol_ok v ->
    exists r v', dir_create_file root_dir nm v = (r, v') /\ vol_ok v' /\
      match r with
      | Ok f => file_at f = (nm, 0%nat) /\
                forall nm', root_files v' nm' = if same_name nm nm' then Some (default [] (root_files v nm)) else root_files v nm'
      | Err _ => root_files v' = root_files v
      | _ => False
      end;
  truncate_file v f nm p c : vol_ok v -> file_at f = (nm, p) -> root_files v nm = Some c ->
    exists r v', file_truncate f v = (r, v') /\ vol_ok v' /\
      (forall nm', same_name nm nm' = false -> root_files v' nm' = root_files v nm') /\
      match r with
      | Ok f' => file_at f' = (nm, p) /\ root_files v' nm = Some (take p c)
      | Err _ => True
      | _ => False
      end;
  write_some v f nm p c bs : vol_ok v -> file_at f = (nm, p) -> root_files v nm = Some c -> (p <= length c)%nat ->
    exists r v', file_write f bs v = (r, v') /\ vol_ok v' /\
      (forall nm', same_name nm nm' = false -> root_files v' nm' = root_files v nm') /\
      match r with
      | Ok (n, f') => (n <= length bs)%nat /\ file_at f' = (nm, (p + n)%nat) /\
                      root_files v' nm = Some (take p c ++ take n bs ++ drop (p + n) c)
      | Err _ => True
      | _ => False
      end;
  flush_file v f : vol_ok v ->
    exists r v', file_flush f v = (r, v') /\ vol_ok v' /\ root_files v' = root_files v /\ match r with Ok _ | Err _ => True | _ => False end;
  iter_root v : vol_ok v -> vol_ok (dir_iter root_dir v).2 /\ root_files (dir_iter root_dir v).2 = root_files v
}.

(** ** One volume *)

(** [p.trim_start_matches('/')] *)
Fixpoint trim_slashes (p : list Z) : list Z :=
  match p with
  | b :: p' => if b =? 47 then trim_slashes p' else p
  | [] => []
  end.

(** [p.rfind('/')] *)
Definition rfind_slash (p : list Z) : option nat :=
  (fun i => length p - 1 - i)%nat <$> position (fun b => b =? 47) (rev p).

Definition split_path (path : list Z) : list Z * list Z :=
  let p := trim_slashes path in
  match rfind_slash p with
  | Some pos => (take pos p, drop (pos + 1) p)
  | None => ([], p)
  end.

Section volume.
Context {V : Type} `{FatFs V}.

Definition FV := M V unit.

(** The calls of the callback, in order; entries that fail are skipped. *)
Definition do_list : FV (list (list Z * Z)) := fun v =>
  let '(es, v') := dir_iter root_dir v in
  (Ok (omap (fun r => match r with
                      | Ok e => if is_dir e then None else Some (file_name e, as_u32 (entry_len e))
                      | _ => None end) es), v').

Fixpoint fat_read_loop (fuel size : nat) (f : fat_file) (acc : list Z) : FV (list Z) :=
  if (size <=? length acc)%nat then ret acc else
  match fuel with
  | O => lift OutOfFuel
  | S fuel' =>
    let! r := file_read f (size - length acc) in
    match r.1 with
    | [] => ret acc
    | bs => fat_read_loop fuel' size r.2 (acc ++ bs)
    end
  end.

(** The size by seeking to the end, then reads until it is reached. *)
Definition read_whole (f : fat_file) : FV (list Z) :=
  let! r := file_seek f (SeekEnd 0) in
  let! r' := file_seek r.2 (SeekStart 0) in
  let size := Z.to_nat r.1 in
  fat_read_loop size size r'.2 [].

Definition do_read (nm : list Z) : FV (list Z) :=
  let! f := dir_open_file root_dir nm in read_whole f.

Fixpoint fat_write_loop (fuel : nat) (f : fat_file) (data : list Z) (written : nat) : FV fat_file :=
  if (length data <=? written)%nat then ret f else
  match fuel with
  | O => lift OutOfFuel
  | S fuel' =>
    let! rest := lift (slice_from data written) in
    let! r := file_write f rest in
    if (0 <? r.1)%nat then fat_write_loop fuel' r.2 data (written + r.1) else fail tt
  end.

Definition do_write (nm data : list Z) : FV unit :=
  let! f := dir_create_file root_dir nm in
  let! f := file_truncate f in
  let! f := fat_write_loop (length data) f data 0 in
  file_flush f.

Definition do_remove (nm : list Z) : FV unit := dir_remove root_dir nm.
Definition do_is_dir (nm : list Z) : FV unit := do! dir_open_dir root_dir nm in ret tt.
Definition do_mkdir (nm : list Z) : FV unit := dir_create_dir root_dir nm.

(** [u64] products panic when they overflow. *)
Definition mul_u64 (a b : Z) : result unit Z := if a * b <? 18446744073709551616 then Ok (a * b) else Panic.

Definition do_stats : FV (Z * Z) :=
  let! s := fs_stats in
  let '(c, total, free) := s in
  let! t := lift (mul_u64 total c) in
  let! fr := lift (mul_u64 free c) in
  ret (t, fr).

(** One directory's calls of the callback: [.] and [..] are skipped. *)
Definition list_dir (d : fat_dir) : FV (list (list Z * Z * bool)) := fun v =>
  let '(es, v') := dir_iter d v in
  (Ok (omap (fun r => match r with
                      | Ok e =>
                        if bytes_eqb (file_name e) (str ".") || bytes_eqb (file_name e) (str "..") then None
                        else Some (file_name e, if is_dir e then 0 else as_u32 (entry_len e), is_dir e)
                      | _ => None end) es), v').

Definition do_list_path (path : list Z) : FV (list (list Z * Z * bool)) :=
  let dir_name := trim_slashes path in
  if bool_decide (dir_name = []) then list_dir root_dir else fun v =>
  match dir_open_dir root_dir dir_name v with
  | (Ok d, v') => list_dir d v'
  | (Err _, v') => (Ok [], v')
  | (Panic, v') => (Panic, v')
  | (OutOfFuel, v') => (OutOfFuel, v')
  end.

Definition do_read_path (path : list Z) : FV (list Z) :=
  let '(dir_part, file_part) := split_path path in
  if bool_decide (dir_part = []) then let! f := dir_open_file root_dir file_part in read_whole f
  else let! d := dir_open_dir root_dir dir_part in
       let! f := dir_open_file d file_part in read_whole f.
End volume.

(** ** The mounted volume *)

Section mounted.
Context {R W : Type} `{FatFs R} `{FatFs W}.

Inductive MountedFs := Ram (fs : R) | Virtio (fs : W).

(** [FS.lock()]: [None] before a mount. *)
Definition FS := option MountedFs.

(** One operation on whichever volume is mounted; [dflt] without one. *)
Definition with_fs {A} (dflt : A) (r : M R unit A) (w : M W unit A) (fs : FS) : result unit A * FS :=
  match fs with
  | None => (Ok dflt, None)
  | Some (Ram v) => let '(x, v') := r v in (x, Some (Ram v'))
  | Some (Virtio v) => let '(x, v') := w v in (x, Some (Virtio v'))
  end.

(** [Option] and [bool] results: an error is [None] or [false]. *)
Definition to_option {S A} (m : M S unit A) : M S unit (option A) := fun s =>
  match m s with
  | (Ok a, s') => (Ok (Some a), s')
  | (Err _, s') => (Ok None, s')
  | (Panic, s') => (Panic, s')
  | (OutOfFuel, s') => (OutOfFuel, s')
  end.
Definition to_bool {S} (m : M S unit unit) : M S unit bool :=
  let! o := to_option m in ret (bool_decide (o <> None)).

Definition fat_list : M FS unit (list (list Z * Z)) := with_fs [] do_list do_list.
Definition fat_read_file (nm : list Z) : M FS unit (option (list Z)) :=
  with_fs None (to_option (do_read nm)) (to_option (do_read nm)).
Definition fat_write_file (nm data : list Z) : M FS unit bool :=
  with_fs false (to_bool (do_write nm data)) (to_bool (do_write nm data)).
Definition fat_remove_file (nm : list Z) : M FS unit bool :=
  with_fs false (to_bool (do_remove nm)) (to_bool (do_remove nm)).
Definition fat_disk_stats : M FS unit (option (Z * Z)) :=
  with_fs None (to_option do_stats) (to_option do_stats).
Definition fat_is_dir (path : list Z) : M FS unit bool :=
  let nm := trim_slashes path in
  if bool_decide (nm = []) then ret true else with_fs false (to_bool (do_is_dir nm)) (to_bool (do_is_dir nm)).
Definition fat_mkdir (name : list Z) : M FS unit bool :=
  let nm := trim_slashes name in
  if bool_decide (nm = []) then ret false else with_fs false (to_bool (do_mkdir nm)) (to_bool (do_mkdir nm)).
Definition fat_list_path (path : list Z) : M FS unit (list (list Z * Z * bool)) :=
  with_fs [] (do_list_path path) (do_list_path path).
Definition fat_read_path (path : list Z) : M FS unit (option (list Z)) :=
  with_fs None (to_option (do_read_path path)) (to_option (do_read_path path)).

(** The crate's [FileSystem::new] on a fresh adapter, replacing the volume on
    success. *)
Definition mount_ramdisk (new_fs : BlockIo RamDisk -> result unit R) (img : list Z) : M FS unit bool := fun fs =>
  match new_fs (new_io (load_image img)) with
  | Ok v => (Ok true, Some (Ram v))
  | Err _ => (Ok false, fs)
  | Panic => (Panic, fs)
  | OutOfFuel => (OutOfFuel, fs)
  end.

Definition mount_virtio {D} (new_fs : BlockIo D -> result unit W) (blk : D) : M FS unit bool := fun fs =>
  match new_fs (new_io blk) with
  | Ok v => (Ok true, Some (Virtio v))
  | Err _ => (Ok false, fs)
  | Panic => (Panic, fs)
  | OutOfFuel => (OutOfFuel, fs)
  end.
End mounted.
Arguments MountedFs R W : clear implicits.
Arguments FS R W : clear implicits.

(** * Files on a FAT volume are whole files

    Over any volume that behaves as the crate documents: a read returns the
    whole file, a write that reports success stores exactly the data, and no
    write touches another file. *)

Section volume.
Context {V : Type} `{FatFsOk V}.
Implicit Types v : V.

(** ** Reading *)

Lemma fat_read_loop_run fuel f nm c acc v :
  vol_ok v -> root_files v nm = Some c -> file_at f = (nm, length acc) -> acc = take (length acc) c ->
  (length c - length acc <= fuel)%nat ->
  exists v', fat_read_loop fuel (length c) f acc v = (Ok c, v') /\ vol_ok v' /\ root_files v' = root_files v.
Proof.
  revert f acc v. induction fuel as [|fuel IH]; intros f acc v Hv Hc Hf Hacc Hfuel; cbn [fat_read_loop].
  all: destruct (length c <=? length acc)%nat eqn:El; zbool; [exists v; rewrite Hacc, take_ge by lia; done|].
  1: lia.
  assert (length acc <= length c)%nat as Hle by lia.
  destruct (read_some v f nm (length acc) c (length c - length acc) Hv Hf Hc Hle) as (n & f' & v1 & E & Hv1 & Hr1 & Hn & Hp & Hpos & Hf').
  specialize (Hpos ltac:(lia) ltac:(lia)). unfold bind at 1. rewrite E. cbn [fst snd].
  assert (length (take n (drop (length acc) c)) = n) as Hlen by (rewrite length_take, length_drop; lia).
  destruct (take n (drop (length acc) c)) as [|x bs] eqn:Eb; [cbn in Hlen; lia|].
  destruct (IH f' (acc ++ x :: bs) v1) as (v2 & E2 & Hv2 & Hr2); rewrite ?length_app, ?Hlen; try done; try lia; [by rewrite Hr1| |].
  - rewrite Hacc at 1. rewrite <- Eb. apply take_take_drop.
  - exists v2. split; [done|]. split; [done|]. congruence.
Qed.

Lemma do_read_some nm c v :
  vol_ok v -> root_files v nm = Some c ->
  exists v', do_read nm v = (Ok c, v') /\ vol_ok v' /\ root_files v' = root_files v.
Proof.
  intros Hv Hc. destruct (open_file_some v nm c Hv Hc) as (f & v1 & E1 & Hv1 & Hr1 & Hf1).
  assert (root_files v1 nm = Some c) as Hc1 by congruence.
  destruct (seek_to v1 f nm 0 c (SeekEnd 0) Hv1 Hf1 Hc1 ltac:(auto)) as (f2 & v2 & E2 & Hv2 & Hr2 & Hf2).
  assert (root_files v2 nm = Some c) as Hc2 by congruence.
  destruct (seek_to v2 f2 nm _ c (SeekStart 0) Hv2 Hf2 Hc2 ltac:(auto)) as (f3 & v3 & E3 & Hv3 & Hr3 & Hf3).
  assert (root_files v3 nm = Some c) as Hc3 by congruence.
  destruct (fat_read_loop_run (length c) f3 nm c [] v3 Hv3 Hc3 Hf3 eq_refl ltac:(cbn; lia)) as (v4 & E4 & Hv4 & Hr4).
  exists v4. unfold do_read, read_whole, bind. rewrite E1, E2. cbn [fst snd]. rewrite E3. cbn [fst snd]. rewrite Nat2Z.id, E4.
  split; [done|]. split; [done|congruence].
Qed.

Lemma do_read_none nm v :
  vol_ok v -> root_files v nm = None -> exists v', do_read nm v = (Err tt, v') /\ vol_ok v' /\ root_files v' = root_files v.
Proof. intros Hv Hc. destruct (open_file_none v nm Hv Hc) as (v' & E & ?). exists v'. unfold do_read, bind. by rewrite E. Qed.

(** ** Writing *)

(** Every file but [nm] is as it was. *)
Definition others_kept nm v v' : Prop := forall nm', same_name nm nm' = false -> root_files v' nm' = root_files v nm'.

Lemma others_kept_trans nm a b c : others_kept nm a b -> others_kept nm b c -> others_kept nm a c.
Proof. intros H1 H2 nm' Hn. rewrite H2 by done. by apply H1. Qed.

Definition reports {A} (r : result unit A) : Prop := match r with Ok _ | Err _ => True | _ => False end.

Lemma fat_write_loop_run fuel f nm data written v :
  vol_ok v -> root_files v nm = Some (take written data) -> file_at f = (nm, written) ->
  (written <= length data)%nat -> (length data - written <= fuel)%nat ->
  exists r v', fat_write_loop fuel f data written v = (r, v') /\ vol_ok v' /\ others_kept nm v v' /\ reports r /\
    (is_ok r = true -> root_files v' nm = Some data).
Proof.
  revert f written v. induction fuel as [|fuel IH]; intros f written v Hv Hc Hf Hw Hfuel; cbn [fat_write_loop].
  all: destruct (length data <=? written)%nat eqn:El; zbool;
    [exists (Ok f), v; split; [done|]; split; [done|]; split; [done|]; split; [done|]; intros _; by rewrite Hc, take_ge|].
  1: lia.
  unfold bind at 1, lift, slice_from. rewrite (proj2 (Nat.leb_le _ _)) by done.
  assert (length (take written data) = written) as Hlt by (rewrite length_take; lia).
  destruct (write_some v f nm written (take written data) (drop written data) Hv Hf Hc) as (r & v1 & E & Hv1 & Ho & Hr); [lia|].
  unfold bind. rewrite E. destruct r as [[n f']|e| |]; try done; [|by eexists _, v1]. cbn [fst snd].
  destruct Hr as (Hn & Hf' & Hc'). destruct (0 <? n)%nat eqn:En; zbool; [|by eexists _, v1].
  rewrite length_drop in Hn.
  assert (root_files v1 nm = Some (take (written + n) data)) as Hc1.
  { rewrite Hc'. rewrite (take_ge (take written data)), (drop_ge (take written data)), app_nil_r by lia. f_equal. apply take_take_drop. }
  destruct (IH f' (written + n)%nat v1 Hv1 Hc1 Hf') as (r & v2 & E2 & Hv2 & Ho2 & Hr2 & Hok); [lia..|].
  exists r, v2. split; [done|]. split; [done|]. split; [by eapply others_kept_trans|done].
Qed.

Lemma do_write_run nm data v :
  vol_ok v ->
  exists r v', do_write nm data v = (r, v') /\ vol_ok v' /\ others_kept nm v v' /\ reports r /\
    (r = Ok tt -> root_files v' nm = Some data).
Proof.
  intros Hv. unfold do_write, bind at 1. destruct (create_file v nm Hv) as (r & v1 & -> & Hv1 & Hr).
  destruct r as [f|e| |]; try done; [|exists (Err e), v1; split_and!; try done; intros nm' _; congruence].
  destruct Hr as [Hf Hr]. assert (others_kept nm v v1) as Ho1 by (intros nm' Hn; by rewrite Hr, Hn).
  assert (same_name nm nm = true) as Hrefl by apply (@Equivalence_Reflexive _ _ same_name_eq).
  destruct (truncate_file v1 f nm 0 (default [] (root_files v nm)) Hv1 Hf) as (r & v2 & E2 & Hv2 & Ho2 & Hr2); [by rewrite Hr, Hrefl|].
  unfold bind at 1. rewrite E2. destruct r as [f2|e| |]; try done; [|exists (Err e), v2; split_and!; try done; by eapply others_kept_trans].
  destruct Hr2 as [Hf2 Hc2]. cbn [take] in Hc2.
  destruct (fat_write_loop_run (length data) f2 nm data 0 v2 Hv2 Hc2 Hf2) as (r & v3 & E3 & Hv3 & Ho3 & Hr3 & Hok); [lia..|].
  assert (others_kept nm v v3) as Ho by (by eapply others_kept_trans; [exact Ho1|]; eapply others_kept_trans).
  unfold bind. rewrite E3. destruct r as [f3|e| |]; try done; [|by exists (Err e), v3; split_and!].
  destruct (flush_file v3 f3 Hv3) as (r & v4 & E4 & Hv4 & Hr4 & Hrep). exists r, v4.
  split_and!; try done; [by intros nm' Hn; rewrite Hr4; apply Ho|]. intros _. rewrite Hr4. by apply Hok.
Qed.

(** ** Saving the file table *)

(** [fat_write_file] on this volume. *)
Definition write_file v (nm data : list Z) : bool * V :=
  match to_bool (do_write nm data) v with (Ok b, v') => (b, v') | (_, v') => (false, v') end.

Lemma write_file_run nm data v :
  vol_ok v -> vol_ok (write_file v nm data).2 /\ others_kept nm v (write_file v nm data).2 /\
    ((write_file v nm data).1 = true -> root_files (write_file v nm data).2 nm = Some data).
Proof.
  intros Hv. unfold write_file, to_bool, to_option, bind, ret. destruct (do_write_run nm data v Hv) as (r & v' & -> & Hv' & Ho & Hr & Hok).
  destruct r as [[]|e| |]; try done. cbn. split; [done|]. split; [done|]. intros _. by apply Hok.
Qed.

Definition save_step (st : FsState) (acc : nat * V) (o : option File) : nat * V :=
  match o with
  | Some f => let '(ok, v') := write_file acc.2 (File_name_str f) (deref st (data f)) in (if ok : bool then S acc.1 else acc.1, v')
  | None => acc
  end.

(** A save that counts every file of [fs] stored every file of [fs]. *)
Lemma save_fold_run st fs n v :
  vol_ok v ->
  (forall i j f g, fs !! i = Some (Some f) -> fs !! j = Some (Some g) -> i <> j -> same_name (File_name_str f) (File_name_str g) = false) ->
  let r := fold_left (save_step st) fs (n, v) in
  vol_ok r.2 /\ (r.1 <= n + length (omap id fs))%nat /\
  (forall nm, (forall i f, fs !! i = Some (Some f) -> same_name (File_name_str f) nm = false) -> root_files r.2 nm = root_files v nm) /\
  (r.1 = n + length (omap id fs) -> forall i f, fs !! i = Some (Some f) -> root_files r.2 (File_name_str f) = Some (deref st (data f)))%nat.
Proof.
  revert n v. induction fs as [|o fs IH]; intros n v Hv Hd; [cbn; split_and!; try done; lia|].
  assert (forall i j f g, fs !! i = Some (Some f) -> fs !! j = Some (Some g) -> i <> j -> same_name (File_name_str f) (File_name_str g) = false) as Hd'.
  { intros i j f g Hi Hj Hij. apply (Hd (S i) (S j)); [done..|lia]. }
  destruct o as [f|]; cbn [fold_left save_step omap list_omap id fst snd].
  - destruct (write_file_run (File_name_str f) (deref st (data f)) v Hv) as (Hv1 & Ho1 & Hw1).
    destruct (write_file v (File_name_str f) (deref st (data f))) as [ok v1]. cbn [fst snd] in *.
    set (n1 := if ok then S n else n). destruct (IH n1 v1 Hv1 Hd') as (Hv2 & Hn2 & Ho2 & Hs2).
    split; [done|]. split; [cbn; unfold n1 in *; destruct ok; lia|]. split.
    + intros nm Hnm. rewrite Ho2 by (intros i g Hg; by apply (Hnm (S i))). apply Ho1. by apply (Hnm 0%nat).
    + intros Hn. cbn in Hn. assert (ok = true) as Eok by (destruct ok; [done|]; unfold n1 in *; lia).
      assert (n1 = S n) as En by (unfold n1; by rewrite Eok).
      intros [|i] g Hg; cbn in Hg.
      * injection Hg as <-. rewrite Ho2; [by apply Hw1|]. intros i g Hg.
        pose proof (Hd 0%nat (S i) f g eq_refl Hg ltac:(lia)) as Hne. destruct (same_name (File_name_str g) (File_name_str f)) eqn:Es; [|done].
        pose proof (@Equivalence_Symmetric _ _ same_name_eq _ _ Es). cbn in *. congruence.
      * apply (Hs2 ltac:(lia) i g Hg).
  - destruct (IH n v Hv Hd') as (Hv2 & Hn2 & Ho2 & Hs2). split; [done|]. split; [done|]. split.
    + intros nm Hnm. apply Ho2. intros i g Hg. by apply (Hnm (S i)).
    + intros Hn [|i] g Hg; [done|]. by apply (Hs2 Hn i).
Qed.
End volume.

(** ** The mounted volume, whichever device it is on *)

Section mounted_volume.
Context {V1 V2 : Type} `{F1 : FatFs V1} `{!FatFsOk V1} `{F2 : FatFs V2} `{!FatFsOk V2}.

Definition vol_fine (v : FS V1 V2) : Prop := match v with None => True | Some (Ram v) => vol_ok v | Some (Virtio v) => vol_ok v end.

(** What the mounted volume stores in its root. *)
Definition vol_reads (v : FS V1 V2) (nm : list Z) : option (list Z) :=
  match v with None => None | Some (Ram v) => root_files v nm | Some (Virtio v) => root_files v nm end.

(** The same device with the same files. *)
Definition vol_same (v v' : FS V1 V2) : Prop :=
  match v, v' with
  | None, None => True
  | Some (Ram v), Some (Ram v') => root_files v' = root_files v
  | Some (Virtio v), Some (Virtio v') => root_files v' = root_files v
  | _, _ => False
  end.

Lemma vol_same_reads v v' : vol_same v v' -> vol_reads v' = vol_reads v.
Proof. destruct v as [[v|v]|], v' as [[v'|v']|]; done. Qed.

Lemma read_file_same v nm : vol_fine v ->
  exists v', fat_read_file nm v = (Ok (vol_reads v nm), v') /\ vol_fine v' /\ vol_same v v'.
Proof.
  intros Hv. unfold fat_read_file, with_fs, to_option. destruct v as [[v|v]|]; [..|by exists None]; cbn [vol_fine vol_reads] in *.
  all: destruct (root_files v nm) as [c|] eqn:E;
    [destruct (do_read_some nm c v Hv E) as (v' & -> & Hv' & Er)|destruct (do_read_none nm v Hv E) as (v' & -> & Hv' & Er)].
  all: eexists; split; [reflexivity|]; split; [exact Hv'|exact Er].
Qed.

Lemma read_file_run v nm : vol_fine v ->
  exists v', fat_read_file nm v = (Ok (vol_reads v nm), v') /\ vol_fine v' /\ vol_reads v' = vol_reads v.
Proof. intros Hv. destruct (read_file_same v nm Hv) as (v' & E & Hf & Hs). exists v'. by apply vol_same_reads in Hs. Qed.

Lemma list_run v : vol_fine v -> exists es v', fat_list v = (Ok es, v') /\ vol_fine v' /\ vol_reads v' = vol_reads v.
Proof.
  intros Hv. unfold fat_list, with_fs, do_list. destruct v as [[v|v]|]; cbn [vol_fine vol_reads] in *; [..|by eexists _, None].
  all: pose proof (iter_root v Hv) as [Hi Hr]; destruct (dir_iter root_dir v) as [es v']; cbn [snd] in *.
  all: eexists _, _; split; [reflexivity|]; split; [exact Hi|exact Hr].
Qed.

(** The other files of the root stayed, and so did the device mounted. *)
Definition vol_kept (nm : list Z) (v v' : FS V1 V2) : Prop :=
  match v, v' with
  | None, None => True
  | Some (Ram v), Some (Ram v') => others_kept nm v v'
  | Some (Virtio v), Some (Virtio v') => others_kept nm v v'
  | _, _ => False
  end.

Lemma vol_same_kept nm v v' v2 : vol_same v v' -> vol_kept nm v' v2 -> vol_kept nm v v2.
Proof.
  destruct v as [[v|v]|], v' as [[v'|v']|], v2 as [[v2|v2]|]; cbn; try done; intros Hs Hk nm' Hn; rewrite (Hk nm' Hn); by rewrite Hs.
Qed.

(** A write ends, keeps the other files, and reports success only when the file
    has the bytes. Without a volume it reports failure. *)
Lemma write_file_mounted nm bs v : vol_fine v ->
  exists ok v', fat_write_file nm bs v = (Ok ok, v') /\ vol_fine v' /\ vol_kept nm v v' /\ (ok = true -> vol_reads v' nm = Some bs).
Proof.
  intros Hv. unfold fat_write_file, with_fs, to_bool, to_option, bind, ret. destruct v as [[v|v]|]; [..|by exists false, None]; cbn [vol_fine] in Hv.
  all: destruct (do_write_run nm bs v Hv) as (r & v' & -> & Hv' & Hk & Hr & Hok); destruct r as [[]|e| |]; try done.
  all: eexists _, _; split; [reflexivity|]; split; [exact Hv'|]; split; [exact Hk|]; cbn [vol_reads]; try (intros _; by apply Hok).
  all: intros Hb%bool_decide_eq_true; by destruct Hb.
Qed.

(** A path without a directory part names a file of the root. *)
Lemma read_path_mounted path nm v : vol_fine v -> split_path path = ([], nm) ->
  exists v', fat_read_path path v = (Ok (vol_reads v nm), v') /\ vol_fine v' /\ vol_reads v' = vol_reads v.
Proof.
  intros Hv Hp. destruct (read_file_run v nm Hv) as (v' & E & H1 & H2). exists v'. split; [|done]. rewrite <- E.
  unfold fat_read_path, fat_read_file, do_read_path. rewrite Hp. by rewrite bool_decide_eq_true_2.
Qed.
End mounted_volume.
