(* ===== verification/Virtio.v ===== *)
(** * Legacy virtio transport
    (shared parts of [kernel/src/drivers/virtio_blk.rs] and [virtio_net.rs])

    Port I/O, the PCI configuration space, the layout of a virtqueue and the
    accesses to it. The device and the translation of addresses in force are
    parameters. *)

From S2P Require Import Prelude Phys Paging.

(** ** The machine around the driver *)

(** Devices as the processor sees them: [in] and [out] instructions of one, two
    or four bytes, which may make a device access memory, and what the devices
    do while the processor spins. *)
Class PortIO (D : Type) := {
  port_in : nat -> Z -> D -> Z * D;
  port_out : nat -> Z -> Z -> Phys -> D -> Phys * D;
  device_turn : Phys -> D -> Phys * D
}.

(** The translation of kernel addresses, which the walk of the page tables
    computes. *)
Class AddressSpace := { phys_of : Z -> Z }.

Inductive message :=
| VirtioNoPages (pages_needed : Z)
| VirtioTimeout (used_idx target req_status dev_status : Z)
| VirtioBadStatus (req_status : Z).

Record Bus (D : Type) := mkBus { pm : Phys; dv : D; said : list message }.
Arguments mkBus {D}. Arguments pm {D}. Arguments dv {D}. Arguments said {D}.

Section transport.
Context {D : Type} `{PortIO D} `{AddressSpace}.

Definition IO (A : Type) : Type := M (Bus D) unit A.

Definition print (x : message) : IO unit := modify (fun b => mkBus (pm b) (dv b) (said b ++ [x])).

(** *** Port I/O *)

Definition out_n (n : nat) (port val : Z) : IO unit :=
  fun b => let '(m, d) := port_out n port val (pm b) (dv b) in (Ok tt, mkBus m d (said b)).
Definition in_n (n : nat) (port : Z) : IO Z :=
  fun b => let '(v, d) := port_in n port (dv b) in (Ok v, mkBus (pm b) d (said b)).

Definition outb : Z -> Z -> IO unit := out_n 1.
Definition outw : Z -> Z -> IO unit := out_n 2.
Definition outl : Z -> Z -> IO unit := out_n 4.
Definition inb : Z -> IO Z := in_n 1.
Definition inw : Z -> IO Z := in_n 2.
Definition inl : Z -> IO Z := in_n 4.

(** [io_base + off] in 16 bits. *)
Definition reg (io_base off : Z) : IO Z := if io_base + off <? 65536 then ret (io_base + off) else panic.

(** *** PCI configuration space *)

Definition PCI_ADDR : Z := 0xCF8.
Definition PCI_DATA : Z := 0xCFC.

Definition pci_address (bus dev func off : Z) : Z :=
  Z.lor (Z.lor (Z.lor (Z.lor 0x80000000 (Z.shiftl bus 16)) (Z.shiftl dev 11)) (Z.shiftl func 8)) (Z.land off 0xFC).

Definition pci_read32 (bus dev func off : Z) : IO Z :=
  do! outl PCI_ADDR (pci_address bus dev func off) in inl PCI_DATA.

Definition pci_write32 (bus dev func off val : Z) : IO unit :=
  do! outl PCI_ADDR (pci_address bus dev func off) in outl PCI_DATA val.

(** The slots in the order of the scan. *)
Definition pci_slots : list (Z * Z) :=
  concat (map (fun bus => map (fun dev => (Z.of_nat bus, Z.of_nat dev)) (seq 0 32)) (seq 0 256)).

(** The first function with the vendor 0x1AF4, the given device id and a BAR 0
    in I/O space. *)
Fixpoint scan_slots (device_id : Z) (slots : list (Z * Z)) : IO (option (Z * Z * Z)) :=
  match slots with
  | [] => ret None
  | (bus, dev) :: slots' =>
    let! id := pci_read32 bus dev 0 0x00 in
    if id =? 0xFFFFFFFF then scan_slots device_id slots' else
    let vendor := as_u16 (Z.land id 0xFFFF) in
    let device := as_u16 (Z.shiftr id 16) in
    if (vendor =? 0x1AF4) && (device =? device_id) then
      let! bar0 := pci_read32 bus dev 0 0x10 in
      if Z.land bar0 1 =? 1 then ret (Some (bus, dev, as_u16 (Z.land bar0 0xFFFFFFFC)))
      else scan_slots device_id slots'
    else scan_slots device_id slots'
  end.

(** *** Memory through the address space *)

(** An aligned access lies in one page: its address is translated once. *)
Definition q_write64 (base off val : Z) : IO unit :=
  modify (fun b => mkBus (pwrite 8 (phys_of (base + off)) val (pm b)) (dv b) (said b)).
Definition q_write32 (base off val : Z) : IO unit :=
  modify (fun b => mkBus (pwrite 4 (phys_of (base + off)) val (pm b)) (dv b) (said b)).
Definition q_write16 (base off val : Z) : IO unit :=
  modify (fun b => mkBus (pwrite 2 (phys_of (base + off)) val (pm b)) (dv b) (said b)).
Definition q_read16 (base off : Z) : IO Z := gets (fun b => pread 2 (phys_of (base + off)) (pm b)).
Definition q_read32 (base off : Z) : IO Z := gets (fun b => pread 4 (phys_of (base + off)) (pm b)).

(** Bytes one by one. *)
Fixpoint vpoke (bs : list Z) (v : Z) (m : Phys) : Phys :=
  match bs with [] => m | x :: bs' => vpoke bs' (v + 1) (poke [x] (phys_of v) m) end.
Definition vpeek (n : nat) (v : Z) (m : Phys) : list Z := map (fun i => m (phys_of (v + Z.of_nat i))) (seq 0 n).

Definition copy_to (v : Z) (bs : list Z) : IO unit :=
  modify (fun b => mkBus (vpoke bs v (pm b)) (dv b) (said b)).
Definition copy_from (v : Z) (n : nat) : IO (list Z) := gets (fun b => vpeek n v (pm b)).

Definition write_desc (base idx addr len flags next : Z) : IO unit :=
  let off := idx * 16 in
  do! q_write64 base off addr in
  do! q_write32 base (off + 8) len in
  do! q_write16 base (off + 12) flags in
  q_write16 base (off + 14) next.

(** *** Waiting *)

(** Runs [body] until it answers, at most [p] times. *)
Fixpoint until {A} (p : positive) (body : IO (option A)) : IO (option A) :=
  let again q := let! r := until q body in match r with Some a => ret (Some a) | None => until q body end in
  match p with
  | xH => body
  | xO q => again q
  | xI q => let! r := body in match r with Some a => ret (Some a) | None => again q end
  end.

Definition spin_hint : IO unit := fun b => let '(m, d) := device_turn (pm b) (dv b) in (Ok tt, mkBus m d (said b)).

(** Whether [used.idx] reached [target] within 100 000 000 looks. *)
Definition await_used (base used_idx_off target : Z) : IO bool :=
  let! r := until 100000000
    (let! ui := q_read16 base used_idx_off in
     if ui =? target then ret (Some tt) else do! spin_hint in ret None) in
  ret (match r with Some _ => true | None => false end).
End transport.

(** ** The layout of a virtqueue *)

Definition vq_avail_idx_off (q : Z) : Z := q * 16 + 2.
Definition vq_avail_ring_off (q : Z) : Z := q * 16 + 4.
Definition vq_used_base (q : Z) : Z :=
  let avail_end := q * 16 + 4 + q * 2 + 2 in Z.land (avail_end + 4095) (Z.lnot 4095).
Definition vq_used_idx_off (q : Z) : Z := vq_used_base q + 2.
Definition vq_total_bytes (q : Z) : Z := vq_used_base q + 4 + q * 8 + 2.
Definition vq_pages_needed (q : Z) : Z := (vq_total_bytes q + 4095) / 4096.

(** ** Registers and flags *)

Definition VIRT_DEVICE_FEATURES : Z := 0x00.
Definition VIRT_DRIVER_FEATURES : Z := 0x04.
Definition VIRT_QUEUE_PFN : Z := 0x08.
Definition VIRT_QUEUE_NUM : Z := 0x0C.
Definition VIRT_QUEUE_SELECT : Z := 0x0E.
Definition VIRT_QUEUE_NOTIFY : Z := 0x10.
Definition VIRT_DEVICE_STATUS : Z := 0x12.
Definition STATUS_ACK : Z := 0x01.
Definition STATUS_DRIVER : Z := 0x02.
Definition STATUS_DRIVER_OK : Z := 0x04.
Definition STATUS_FAILED : Z := 0x80.
Definition VRING_DESC_F_NEXT : Z := 0x0001.
Definition VRING_DESC_F_WRITE : Z := 0x0002.

(** ** Physically contiguous pages *)

Section pages.
Context `{AddressSpace}.

(** [needed - 1] neighbours from page [i] on. *)
Fixpoint contiguous_from (base i : Z) (n : nat) : bool :=
  match n with
  | O => true
  | S n' =>
    let p0 := phys_of (base + i * 4096) in
    let p1 := phys_of (base + (i + 1) * 4096) in
    (p1 =? p0 + 4096) && contiguous_from base (i + 1) n'
  end.

Fixpoint first_run (base : Z) (needed : nat) (starts : list nat) : option Z :=
  match starts with
  | [] => None
  | i :: starts' =>
    if contiguous_from base (Z.of_nat i) (needed - 1) then Some (base + Z.of_nat i * 4096)
    else first_run base needed starts'
  end.

(** The search among the six pages of a buffer; [needed] is positive and at
    most six. *)
Definition six_page_run (needed : nat) (base : Z) : option Z := first_run base needed (seq 0 (6 - needed + 1)).

Definition find_contiguous_pages (needed : Z) (base : Z) : option Z :=
  if (needed =? 0) || (6 <? needed) then None else six_page_run (Z.to_nat needed) base.
End pages.

(** * Virtqueues in physical memory

    Where the accesses of the driver land, the layout of a legacy virtqueue as
    the device reads it, and waiting for the device. *)

(** ** Ranges the address space keeps together *)

Section linear.
Context `{AddressSpace}.

(** [n] bytes at [v] lie one behind the other from [a] on. *)
Definition linear (v : Z) (n : Z) (a : Z) : Prop := forall i, 0 <= i < n -> phys_of (v + i) = a + i.

Lemma linear_sub v n a k m : linear v n a -> 0 <= k -> k + m <= n -> linear (v + k) m (a + k).
Proof. intros Hl Hk Hm i Hi. rewrite <- Z.add_assoc, Hl by lia. lia. Qed.

Lemma linear_at v n a i : linear v n a -> 0 <= i < n -> phys_of (v + i) = a + i.
Proof. intros Hl. apply Hl. Qed.

Lemma vpoke_poke bs v a m x : linear v (Z.of_nat (length bs)) a -> vpoke bs v m x = poke bs a m x.
Proof.
  revert v a m. induction bs as [|b bs IH]; intros v a m Hl; cbn [vpoke length] in *.
  { unfold poke. by destruct (a <=? x). }
  rewrite (IH (v + 1) (a + 1)) by (eapply (linear_sub v); [exact Hl|lia|lia]).
  pose proof (Hl 0 ltac:(lia)) as H0. rewrite !Z.add_0_r in H0. rewrite H0. clear IH Hl H0. unfold poke.
  destruct (Z.leb_spec (a + 1) x) as [H1|H1], (Z.leb_spec a x) as [H2|H2]; try lia; try done.
  - replace (Z.to_nat (x - a)) with (S (Z.to_nat (x - (a + 1)))) by lia. cbn [lookup list_lookup].
    by destruct (bs !! _).
  - by replace (Z.to_nat (x - a)) with 0%nat by lia.
Qed.

Lemma vpeek_peek n v a m : linear v (Z.of_nat n) a -> vpeek n v m = peek n a m.
Proof.
  intros Hl. unfold vpeek, peek. apply map_ext_in. intros i Hi. apply in_seq in Hi. by rewrite Hl by lia.
Qed.

Lemma vpoke_ok bs v m : Forall is_u8 bs -> bytes_ok m -> bytes_ok (vpoke bs v m).
Proof.
  intros Hb. revert v m. induction Hb as [|b bs Hb Hbs IH]; intros v m Hm; [done|]. apply IH, poke_ok; [by constructor|done].
Qed.

(** *** Contiguous pages *)

(** The translation maps whole pages. *)
Definition pages_whole : Prop := forall v d, v mod 4096 = 0 -> 0 <= d < 4096 -> phys_of (v + d) = phys_of v + d.

Lemma contiguous_from_spec base i n j :
  contiguous_from base i n = true -> (j <= n)%nat ->
  phys_of (base + (i + Z.of_nat j) * 4096) = phys_of (base + i * 4096) + Z.of_nat j * 4096.
Proof.
  revert i j. induction n as [|n IH]; intros i j Hc Hj.
  { replace j with 0%nat by lia. rewrite !Z.add_0_r. lia. }
  cbn [contiguous_from] in Hc. zbool. destruct j as [|j]; [rewrite !Z.add_0_r; lia|].
  replace (i + Z.of_nat (S j)) with (i + 1 + Z.of_nat j) by lia. rewrite (IH (i + 1) j) by (done || lia). lia.
Qed.

Lemma contiguous_linear base i n :
  pages_whole -> base mod 4096 = 0 -> contiguous_from base i n = true ->
  linear (base + i * 4096) (Z.of_nat (S n) * 4096) (phys_of (base + i * 4096)).
Proof.
  intros Hw Hb Hc k Hk. pose proof (Z.div_mod k 4096 ltac:(lia)) as Hd. pose proof (Z.mod_pos_bound k 4096 ltac:(lia)) as Hm.
  assert (0 <= k / 4096 <= Z.of_nat n) as Hq by zlia.
  pose proof (contiguous_from_spec base i n (Z.to_nat (k / 4096)) Hc ltac:(lia)) as E. rewrite Z2Nat.id in E by lia.
  replace (base + i * 4096 + k) with (base + (i + k / 4096) * 4096 + k mod 4096) by lia.
  rewrite Hw, E by (lia || (rewrite Z.mod_add by lia; done)). lia.
Qed.

Lemma first_run_spec base needed starts v :
  first_run base needed starts = Some v ->
  exists i, (i ∈ starts) /\ v = base + Z.of_nat i * 4096 /\ contiguous_from base (Z.of_nat i) (needed - 1) = true.
Proof.
  induction starts as [|i starts IH]; cbn [first_run]; [done|]. destruct (contiguous_from _ _ _) eqn:E.
  - intros [= <-]. exists i. by split; [left|].
  - intros (j & Hj & H')%IH. exists j. by split; [right|].
Qed.

Lemma six_page_run_spec needed base v :
  pages_whole -> base mod 4096 = 0 -> (0 < needed <= 6)%nat -> six_page_run needed base = Some v ->
  v mod 4096 = 0 /\ linear v (Z.of_nat needed * 4096) (phys_of v) /\ base <= v /\ v + Z.of_nat needed * 4096 <= base + 6 * 4096.
Proof.
  intros Hw Hb Hn E. apply first_run_spec in E as (i & Hi & -> & Hc). apply elem_of_seq in Hi.
  split; [rewrite Z.mod_add by lia; done|]. split; [|lia].
  pose proof (contiguous_linear base (Z.of_nat i) (needed - 1) Hw Hb Hc) as Hl.
  by replace (S (needed - 1)) with needed in Hl by lia.
Qed.
End linear.

(** ** The layout *)

Lemma vq_used_base_spec q : 0 <= q ->
  vq_used_base q mod 4096 = 0 /\ q * 18 + 6 <= vq_used_base q < q * 18 + 6 + 4096.
Proof.
  intros Hq. unfold vq_used_base. cbn zeta.
  destruct (align_up_spec (q * 16 + 4 + q * 2 + 2) 12) as [H1 H2]; [lia|lia|]. change (2 ^ 12) with 4096 in *. cbn zeta in *.
  replace (q * 16 + 4 + q * 2 + 2 + 4095) with (q * 16 + 4 + q * 2 + 2 + 4096 - 1) by lia. change (Z.lnot 4095) with (Z.lnot (4096 - 1)).
  split; [done|lia].
Qed.

Lemma vq_pages_hold q : 0 <= q -> vq_total_bytes q <= vq_pages_needed q * 4096.
Proof. intros Hq. unfold vq_pages_needed. zlia. Qed.

(** *** As the device sees it *)

Record vdesc := mkDesc { d_addr : Z; d_len : Z; d_flags : Z; d_next : Z }.

(** The queue of [q] entries at [Q]: descriptor [i], entry [n] of the available
    ring and its index, the used ring behind the next page boundary. *)
Definition desc_at (Q i : Z) (m : Phys) : vdesc :=
  mkDesc (pread 8 (Q + 16 * i) m) (pread 4 (Q + 16 * i + 8) m) (pread 2 (Q + 16 * i + 12) m) (pread 2 (Q + 16 * i + 14) m).
Definition avail_idx_at (Q q : Z) : Z := Q + 16 * q + 2.
Definition avail_entry_at (Q q n : Z) : Z := Q + 16 * q + 4 + 2 * (n mod q).
Definition used_at (Q q : Z) : Z := Q + (18 * q + 6 + 4095) / 4096 * 4096.
Definition used_idx_at (Q q : Z) : Z := used_at Q q + 2.
Definition used_entry_at (Q q n : Z) : Z := used_at Q q + 4 + 8 * (n mod q).

(** A chain of descriptors, followed through the [NEXT] flag. *)
Fixpoint chain (fuel : nat) (Q i : Z) (m : Phys) : option (list vdesc) :=
  let d := desc_at Q i m in
  if Z.testbit (d_flags d) 0 then
    match fuel with O => None | S fuel' => cons d <$> chain fuel' Q (d_next d) m end
  else Some [d].

Definition writable (d : vdesc) : bool := Z.testbit (d_flags d) 1.

(** The device returns chain [head] as entry [n]: [written] bytes. *)
Definition return_chain (Q q n head written : Z) (m : Phys) : Phys :=
  let e := used_entry_at Q q n in
  pwrite 2 (used_idx_at Q q) (as_u16 (n + 1)) (pwrite 4 (e + 4) written (pwrite 4 e head m)).

Lemma used_at_base Q q : 0 <= q -> used_at Q q = Q + vq_used_base q.
Proof. intros Hq. unfold used_at. destruct (vq_used_base_spec q Hq) as [H1 H2]. f_equal. zlia. Qed.

(** ** Waiting *)

Section waiting.
Context {D : Type} `{PortIO D} `{AddressSpace}.

Fixpoint until_n {A} (n : nat) (body : IO (D := D) (option A)) : IO (D := D) (option A) :=
  match n with
  | O => ret None
  | S n' => let! r := body in match r with Some a => ret (Some a) | None => until_n n' body end
  end.

Lemma until_n_add {A} n k (body : IO (D := D) (option A)) s :
  until_n (n + k) body s = (let! r := until_n n body in match r with Some a => ret (Some a) | None => until_n k body end) s.
Proof.
  revert s. induction n as [|n IH]; intros s; [done|]. cbn [Nat.add until_n]. unfold bind at 1. unfold bind at 1. unfold bind at 1.
  destruct (body s) as [[[a|]|e| |] s']; try done; exact (IH s').
Qed.

Lemma until_is_until_n {A} p (body : IO (D := D) (option A)) s : until p body s = until_n (Pos.to_nat p) body s.
Proof.
  revert s. induction p as [p IH|p IH|]; intros s; cbn [until].
  - rewrite Pos2Nat.inj_xI. cbn [Nat.mul until_n]. unfold bind at 1. unfold bind at 2.
    destruct (body s) as [[[a|]|e| |] s']; try done. rewrite Nat.add_0_r, until_n_add. unfold bind. rewrite IH.
    destruct (until_n _ _ s') as [[[a|]|e| |] s2]; try done.
  - rewrite Pos2Nat.inj_xO. cbn [Nat.mul]. rewrite Nat.add_0_r, until_n_add. unfold bind. rewrite IH.
    destruct (until_n _ _ s) as [[[a|]|e| |] s2]; try done.
  - change (Pos.to_nat 1) with 1%nat. cbn [until_n]. unfold bind. by destruct (body s) as [[[a|]|e| |] s'].
Qed.

Fixpoint turns (k : nat) (x : Phys * D) : Phys * D := match k with O => x | S k' => turns k' (device_turn x.1 x.2) end.

Lemma await_used_spec base off target a b k :
  phys_of (base + off) = a -> Z.of_nat k < 100000000 ->
  (forall j, (j < k)%nat -> pread 2 a (turns j (pm b, dv b)).1 <> target) ->
  pread 2 a (turns k (pm b, dv b)).1 = target ->
  await_used base off target b = (Ok true, mkBus (turns k (pm b, dv b)).1 (turns k (pm b, dv b)).2 (said b)).
Proof.
  intros Ha Hk Hbefore Hat. unfold await_used. unfold bind at 1. rewrite until_is_until_n.
  set (body := bind _ _).
  assert (forall n b, (k < n)%nat -> (forall j, (j < k)%nat -> pread 2 a (turns j (pm b, dv b)).1 <> target) ->
    pread 2 a (turns k (pm b, dv b)).1 = target ->
    until_n n body b = (Ok (Some tt), mkBus (turns k (pm b, dv b)).1 (turns k (pm b, dv b)).2 (said b))) as Hu.
  { clear b Hbefore Hat Hk. induction k as [|k IH]; intros [|n] b Hn Hbefore Hat; try lia; cbn [until_n].
    - unfold bind at 1, body at 1. unfold bind at 1, q_read16 at 1, gets at 1. rewrite Ha. cbn [turns fst] in Hat. rewrite Hat, Z.eqb_refl.
      unfold ret. cbn [turns fst snd]. by destruct b.
    - unfold bind at 1, body at 1. unfold bind at 1, q_read16 at 1, gets at 1. rewrite Ha.
      pose proof (Hbefore 0%nat ltac:(lia)) as Hz. cbn [turns fst] in Hz. rewrite (proj2 (Z.eqb_neq _ _)) by done.
      unfold bind at 1, spin_hint at 1. destruct (device_turn (pm b) (dv b)) as [m d] eqn:Et. unfold ret at 1.
      assert (forall j, turns (S j) (pm b, dv b) = turns j (m, d)) as Ht by (intros j; cbn [turns fst snd]; by rewrite Et).
      rewrite Ht in *. apply (IH n (mkBus m d (said b))); [lia| |done]. intros j Hj. cbn [pm dv]. rewrite <- Ht. apply Hbefore. lia. }
  rewrite Hu; [done|lia|done|done].
Qed.
End waiting.

(** ** Descriptors in memory *)

Definition put_desc (Q i : Z) (d : vdesc) (m : Phys) : Phys :=
  pwrite 2 (Q + 16 * i + 14) (d_next d) (pwrite 2 (Q + 16 * i + 12) (d_flags d)
    (pwrite 4 (Q + 16 * i + 8) (d_len d) (pwrite 8 (Q + 16 * i) (d_addr d) m))).

Definition desc_ok (d : vdesc) : Prop :=
  0 <= d_addr d < 2 ^ 64 /\ 0 <= d_len d < 2 ^ 32 /\ 0 <= d_flags d < 2 ^ 16 /\ 0 <= d_next d < 2 ^ 16.

Ltac ranges := unfold apart in *; lia.

Lemma peek_pwrite_apart n a k b v m : apart a n b k -> peek n a (pwrite k b v m) = peek n a m.
Proof. intros Hap. unfold pwrite. apply peek_poke_apart. by rewrite to_le_bytes_length. Qed.

Lemma peek_put_desc n a Q i d m : apart a n (Q + 16 * i) 16 -> peek n a (put_desc Q i d m) = peek n a m.
Proof. intros Hap. unfold put_desc. rewrite !peek_pwrite_apart by ranges. done. Qed.

Lemma pread_put_desc n a Q i d m : apart a n (Q + 16 * i) 16 -> pread n a (put_desc Q i d m) = pread n a m.
Proof. intros Hap. unfold pread. by rewrite peek_put_desc. Qed.

Lemma put_desc_same Q i d m : desc_ok d -> desc_at Q i (put_desc Q i d m) = d.
Proof.
  intros (H1 & H2 & H3 & H4). unfold desc_at, put_desc.
  repeat first [rewrite pread_pwrite_small by (cbn; lia) | rewrite pread_apart by ranges]. by destruct d.
Qed.

Lemma put_desc_other Q i j d m : i <> j -> desc_at Q j (put_desc Q i d m) = desc_at Q j m.
Proof. intros Hne. unfold desc_at. rewrite !pread_put_desc by ranges. done. Qed.

(** A write elsewhere keeps a descriptor. *)
Lemma desc_at_poke Q i bs a m : apart (Q + 16 * i) 16 a (length bs) -> desc_at Q i (poke bs a m) = desc_at Q i m.
Proof. intros Hap. unfold desc_at, pread. rewrite !peek_poke_apart by ranges. done. Qed.

Lemma desc_at_pwrite Q i k v a m : apart (Q + 16 * i) 16 a k -> desc_at Q i (pwrite k a v m) = desc_at Q i m.
Proof. intros Hap. unfold pwrite. apply desc_at_poke. by rewrite to_le_bytes_length. Qed.

Lemma put_desc_bytes Q i d m : bytes_ok m -> bytes_ok (put_desc Q i d m).
Proof. intros Hm. unfold put_desc. auto with wasmos. Qed.

Lemma write_desc_spec {D} `{AddressSpace} base i addr len flags next n Q (b : Bus D) :
  linear base n Q -> 0 <= i -> 16 * i + 16 <= n ->
  write_desc base i addr len flags next b =
  (Ok tt, mkBus (put_desc Q i (mkDesc addr len flags next) (pm b)) (dv b) (said b)).
Proof.
  intros Hl Hi Hn. unfold write_desc, q_write64, q_write32, q_write16, bind, modify. cbn zeta. cbn [pm dv said].
  rewrite !(linear_at base n Q) by (done || lia). unfold put_desc. cbn [d_addr d_len d_flags d_next].
  by rewrite !Z.add_assoc, (Z.mul_comm i 16).
Qed.

(** ** Ring arithmetic *)

(** The driver masks an index where the device divides. *)
Lemma mask_mod n e : 0 <= e <= 15 -> Z.land (as_u16 n) (as_u16 (2 ^ e - 1)) = n mod 2 ^ e.
Proof.
  intros He. pose proof (Z.pow_pos_nonneg 2 e). pose proof (Z.pow_le_mono_r 2 e 15).
  assert (as_u16 (2 ^ e - 1) = 2 ^ e - 1) as -> by (unfold as_u16; apply Z.mod_small; lia).
  rewrite land_low by lia. unfold as_u16. change 65536 with (2 ^ 16). apply Z.mod_mod_divide.
  exists (2 ^ (16 - e)). rewrite <- Z.pow_add_r by lia. f_equal. lia.
Qed.

(** Sizes of the parts of the queue. *)
Lemma queue_sizes q e : q = 2 ^ e -> 2 <= e <= 15 ->
  4 <= q <= 32768 /\ (forall n, 0 <= n mod q < q) /\ 18 * q + 6 <= vq_used_base q /\ vq_total_bytes q = vq_used_base q + 8 * q + 6.
Proof.
  intros -> He. pose proof (Z.pow_le_mono_r 2 2 e). pose proof (Z.pow_le_mono_r 2 e 15).
  destruct (vq_used_base_spec (2 ^ e)) as [_ Hu]; [lia|]. split; [lia|]. split; [|split; [lia|unfold vq_total_bytes; lia]].
  intros n. apply Z.mod_pos_bound. lia.
Qed.
