(* ===== verification/VirtioBlk.v ===== *)
(** * The block device driver ([kernel/src/drivers/virtio_blk.rs])

    Initialisation, requests of three descriptors and the [BlockDevice]
    operations. *)

From S2P Require Import Prelude Phys Packets Block Virtio.

Definition VIRT_BLK_CAP_LO : Z := 0x14.
Definition VIRT_BLK_CAP_HI : Z := 0x18.
Definition BLK_T_IN : Z := 0.
Definition BLK_T_OUT : Z := 1.
Definition BLK_S_OK : Z := 0.

(** Where the linker put the static buffers. *)
Class BlkStatics := { VIRTQ_BUF : Z; REQ_HDR : Z; REQ_DATA : Z; REQ_STATUS : Z }.

Record VirtioBlk := mkBlk {
  io_base : Z; last_used_idx : Z; vq_base : Z;
  avail_idx_off : Z; avail_ring_off : Z; used_idx_off : Z; q_size : Z
}.

Section driver.
Context {D : Type} `{PortIO D} `{AddressSpace} `{BlkStatics}.

Definition find_virtio_blk : IO (D := D) (option (Z * Z * Z)) := scan_slots 0x1001 pci_slots.

(** [6 - pages_needed] in [usize] panics below zero. *)
Definition blk_pages (pages_needed : Z) : result unit (option Z) :=
  if 6 <? pages_needed then Panic else Ok (six_page_run (Z.to_nat pages_needed) VIRTQ_BUF).

Definition write_zeros (v : Z) (n : Z) : IO (D := D) unit := copy_to v (replicate (Z.to_nat n) 0).

(** The registers of the handshake. *)
Definition blk_handshake (bus dev io_base vq_virt q_size : Z) : IO (D := D) (option VirtioBlk) :=
  let! cmd := pci_read32 bus dev 0 0x04 in
  do! pci_write32 bus dev 0 0x04 (Z.lor cmd 0x0005) in
  let! st := reg io_base VIRT_DEVICE_STATUS in
  do! outb st 0 in
  do! outb st STATUS_ACK in
  do! outb st (Z.lor STATUS_ACK STATUS_DRIVER) in
  let! fr := reg io_base VIRT_DEVICE_FEATURES in
  let! _host_feat := inl fr in
  let! fw := reg io_base VIRT_DRIVER_FEATURES in
  do! outl fw 0 in
  let! sel := reg io_base VIRT_QUEUE_SELECT in
  do! outw sel 0 in
  let q_phys := phys_of vq_virt in
  let! pfn := reg io_base VIRT_QUEUE_PFN in
  do! outl pfn (as_u32 (Z.shiftr q_phys 12)) in
  do! outb st (Z.lor (Z.lor STATUS_ACK STATUS_DRIVER) STATUS_DRIVER_OK) in
  let! status := inb st in
  if negb (Z.land status STATUS_FAILED =? 0) then ret None else
  ret (Some (mkBlk io_base 0 vq_virt (vq_avail_idx_off q_size) (vq_avail_ring_off q_size) (vq_used_idx_off q_size) q_size)).

Definition blk_try_init : IO (D := D) (option VirtioBlk) :=
  let! found := find_virtio_blk in
  match found with
  | None => ret None
  | Some (bus, dev, io_base) =>
    let! sel := reg io_base VIRT_QUEUE_SELECT in
    do! outw sel 0 in
    let! num := reg io_base VIRT_QUEUE_NUM in
    let! q_size := inw num in
    if q_size =? 0 then ret None else
    let pages_needed := vq_pages_needed q_size in
    let! q_virt := lift (blk_pages pages_needed) in
    match q_virt with
    | None => do! print (VirtioNoPages pages_needed) in ret None
    | Some vq_virt =>
      do! write_zeros vq_virt (pages_needed * 4096) in
      blk_handshake bus dev io_base vq_virt q_size
    end
  end.

(** The state of the handle and the machine. *)
Definition BlkSt : Type := VirtioBlk * Bus D.

Definition on_bus {A} (m : IO (D := D) A) : M BlkSt unit A :=
  fun s => let '(r, b) := m s.2 in (r, (s.1, b)).

Definition set_last_used (i : Z) : M BlkSt unit unit :=
  modify (fun s => let h := s.1 in
    (mkBlk (io_base h) i (vq_base h) (avail_idx_off h) (avail_ring_off h) (used_idx_off h) (q_size h), s.2)).

Definition req_status : IO (D := D) Z := let! bs := copy_from REQ_STATUS 1 in lift (or_panic (bs !! 0%nat)).

(** Descriptors, available ring and notification. *)
Definition submit (h : VirtioBlk) (hdr_phys data_phys : Z) (data_write : bool) : IO (D := D) unit :=
  let base := vq_base h in
  let q_mask := as_u16 (q_size h - 1) in
  let status_phys := phys_of REQ_STATUS in
  let! avail_idx := q_read16 base (avail_idx_off h) in
  do! write_desc base 0 hdr_phys 16 VRING_DESC_F_NEXT 1 in
  let data_flags := Z.lor VRING_DESC_F_NEXT (if data_write then VRING_DESC_F_WRITE else 0) in
  do! write_desc base 1 data_phys BSZ data_flags 2 in
  do! write_desc base 2 status_phys 1 VRING_DESC_F_WRITE 0 in
  do! copy_to REQ_STATUS [0xFF] in
  let slot := Z.land avail_idx q_mask in
  do! q_write16 base (avail_ring_off h + slot * 2) 0 in
  do! q_write16 base (avail_idx_off h) (as_u16 (avail_idx + 1)) in
  let! notify := reg (io_base h) VIRT_QUEUE_NOTIFY in
  outw notify 0.

Definition do_request (hdr_phys data_phys : Z) (data_write : bool) : M BlkSt unit unit :=
  let! h := gets fst in
  do! on_bus (submit h hdr_phys data_phys data_write) in
  let target := as_u16 (last_used_idx h + 1) in
  let! done := on_bus (await_used (vq_base h) (used_idx_off h) target) in
  if negb done then
    let! ui := on_bus (q_read16 (vq_base h) (used_idx_off h)) in
    let! st := on_bus req_status in
    let! dev := on_bus (let! p := reg (io_base h) VIRT_DEVICE_STATUS in inb p) in
    do! on_bus (print (VirtioTimeout ui target st dev)) in
    fail tt
  else
  do! set_last_used target in
  let! st := on_bus req_status in
  if negb (st =? BLK_S_OK) then
    let! st := on_bus req_status in
    do! on_bus (print (VirtioBadStatus st)) in
    fail tt
  else ret tt.

(** [REQ_HDR.req_type], [.reserved] and [.sector] *)
Definition write_hdr (req_type sector : Z) : IO (D := D) unit :=
  do! q_write32 REQ_HDR 0 req_type in
  do! q_write32 REQ_HDR 4 0 in
  q_write64 REQ_HDR 8 sector.

Definition blk_read_block (lba : Z) : M BlkSt unit (list Z) :=
  do! on_bus (write_hdr BLK_T_IN lba) in
  let hdr_phys := phys_of REQ_HDR in
  let data_phys := phys_of REQ_DATA in
  do! do_request hdr_phys data_phys true in
  on_bus (copy_from REQ_DATA BLOCK_SIZE).

Definition blk_write_block (lba : Z) (buf : list Z) : M BlkSt unit unit :=
  do! on_bus (write_hdr BLK_T_OUT lba) in
  do! on_bus (copy_to REQ_DATA buf) in
  let hdr_phys := phys_of REQ_HDR in
  let data_phys := phys_of REQ_DATA in
  do_request hdr_phys data_phys false.

Definition blk_block_count_io : M BlkSt unit Z :=
  let! h := gets fst in
  let! lo := on_bus (let! p := reg (io_base h) VIRT_BLK_CAP_LO in inl p) in
  let! hi := on_bus (let! p := reg (io_base h) VIRT_BLK_CAP_HI in inl p) in
  let sectors := Z.lor (Z.shiftl hi 32) lo in
  ret (Z.min sectors 4294967295).
End driver.

(** The [BlockDevice] implementation. *)
#[export] Instance virtio_blk {D} `{PortIO D} `{AddressSpace} `{BlkStatics} : BlockDevice (BlkSt (D := D)) := {|
  read_block := blk_read_block;
  write_block := blk_write_block;
  block_count s := match (blk_block_count_io s).1 with Ok n => n | _ => 0 end
|}.
