(* ===== verification/VirtioBlkSpec.v ===== *)
(** * The block driver implements the block device contract

    A device that serves its virtqueue as the virtio specification says, and
    the proof that the driver over it is a [BlockDeviceOk]. *)

From S2P Require Import Prelude Packets Phys Paging Block Virtio VirtioBlk.

(** ** The device *)

Record Disk := mkDisk { cap : Z; sect : Z -> list Z }.
Definition write_sect (l : Z) (b : list Z) (k : Disk) : Disk := mkDisk (cap k) (fun x => if x =? l then b else sect k x).

(** Serving entry [n]: a header that is read, a block of 512 bytes, a status
    byte that is written; an error status when the request is not one of the
    two or the sector does not exist. *)
Definition blk_serve (Q q n : Z) (disk : Disk) (m : Phys) : option (Phys * Disk) :=
  let head := pread 2 (avail_entry_at Q q n) m in
  match chain 4 Q head m with
  | Some [h; d; s] =>
    if negb (writable h) && (d_len h =? 16) && (d_len d =? 512) && writable s && (d_len s =? 1) then
      let type := pread 4 (d_addr h) m in
      let sec := pread 8 (d_addr h + 8) m in
      let finish status written m' := return_chain Q q n head (written + 1) (poke [status] (d_addr s) m') in
      if (sec <? cap disk) && (type =? 0) && writable d then Some (finish 0 512 (poke (sect disk sec) (d_addr d) m), disk)
      else if (sec <? cap disk) && (type =? 1) && negb (writable d) then
        Some (finish 0 0 m, write_sect sec (peek 512 (d_addr d) m) disk)
      else Some (finish 1 0 m, disk)
    else None
  | _ => None
  end.

(** A device whose queue of [q] entries is at [Q] and which has served [n]
    entries: it serves a new one within the time the driver waits, and tells
    its capacity. *)
Class BlkDevice (D : Type) `{PortIO D} := {
  blk_disk : D -> Disk;
  blk_live : Z -> Z -> Z -> Z -> D -> Prop;
  blk_notified io Q q n d m m' disk' :
    blk_live io Q q n d -> bytes_ok m -> pread 2 (avail_idx_at Q q) m = as_u16 (n + 1) ->
    blk_serve Q q n (blk_disk d) m = Some (m', disk') ->
    exists k d', Z.of_nat k < 100000000 /\ turns k (port_out 2 (io + VIRT_QUEUE_NOTIFY) 0 m d) = (m', d') /\
      blk_live io Q q (n + 1) d' /\ blk_disk d' = disk' /\
      forall j, (j < k)%nat ->
        pread 2 (used_idx_at Q q) (turns j (port_out 2 (io + VIRT_QUEUE_NOTIFY) 0 m d)).1 = pread 2 (used_idx_at Q q) m;
  blk_capacity io Q q n d :
    blk_live io Q q n d ->
    exists d1 d2, port_in 4 (io + VIRT_BLK_CAP_LO) d = (cap (blk_disk d) mod 2 ^ 32, d1) /\
      port_in 4 (io + VIRT_BLK_CAP_HI) d1 = (cap (blk_disk d) / 2 ^ 32, d2)
}.

(** ** The driver over it *)

Section driver.
Context {D : Type} {PIO : PortIO D} {BD : BlkDevice D} {AS : AddressSpace} {BS : BlkStatics}.

(** The buffers: the queue at [Q], header, data and status at [Hp], [Tp], [Sp]. *)
Record buffers (h : VirtioBlk) (Q Hp Tp Sp : Z) : Prop := {
  bf_queue : linear (vq_base h) (vq_total_bytes (q_size h)) Q;
  bf_hdr : linear REQ_HDR 16 Hp;
  bf_data : linear REQ_DATA 512 Tp;
  bf_status : linear REQ_STATUS 1 Sp;
  bf_range : 0 <= Hp < 2 ^ 64 /\ 0 <= Tp < 2 ^ 64 /\ 0 <= Sp < 2 ^ 64;
  bf_apart : (forall k n, In (k, n) [(Hp, 16); (Tp, 512); (Sp, 1)] -> Q + vq_total_bytes (q_size h) <= k \/ k + n <= Q) /\
    (Hp + 16 <= Tp \/ Tp + 512 <= Hp) /\ (Hp + 16 <= Sp \/ Sp + 1 <= Hp) /\ (Tp + 512 <= Sp \/ Sp + 1 <= Tp)
}.

Record handle_ok (h : VirtioBlk) (e : Z) : Prop := {
  ho_io : 0 <= io_base h /\ io_base h + VIRT_BLK_CAP_HI < 65536;
  ho_size : q_size h = 2 ^ e /\ 2 <= e <= 15;
  ho_offs : avail_idx_off h = vq_avail_idx_off (q_size h) /\ avail_ring_off h = vq_avail_ring_off (q_size h) /\
    used_idx_off h = vq_used_idx_off (q_size h)
}.

(** [n] requests were made and served. *)
Record queue_ok (h : VirtioBlk) (Q n : Z) (b : Bus D) : Prop := {
  qo_last : last_used_idx h = as_u16 n;
  qo_avail : pread 2 (avail_idx_at Q (q_size h)) (pm b) = as_u16 n;
  qo_used : pread 2 (used_idx_at Q (q_size h)) (pm b) = as_u16 n;
  qo_bytes : bytes_ok (pm b);
  qo_live : blk_live (io_base h) Q (q_size h) n (dv b)
}.

Definition disk_ok (k : Disk) : Prop :=
  0 <= cap k <= 4294967295 /\ forall l, length (sect k l) = BLOCK_SIZE /\ Forall is_u8 (sect k l).

(** The memory the device finds. *)
Definition submitted (Q q Hp Tp Sp n : Z) (flags : Z) (m : Phys) : Phys :=
  pwrite 2 (avail_idx_at Q q) (as_u16 (n + 1)) (pwrite 2 (avail_entry_at Q q n) 0 (poke [0xFF] Sp
    (put_desc Q 2 (mkDesc Sp 1 2 0) (put_desc Q 1 (mkDesc Tp 512 flags 2) (put_desc Q 0 (mkDesc Hp 16 1 1) m))))).

Section request.
Context (h : VirtioBlk) (e Q Hp Tp Sp n : Z).
Context (Hh : handle_ok h e) (Hb : buffers h Q Hp Tp Sp).

Lemma submit_spec (data_write : bool) b :
  bytes_ok (pm b) -> pread 2 (avail_idx_at Q (q_size h)) (pm b) = as_u16 n ->
  let m1 := submitted Q (q_size h) Hp Tp Sp n (if data_write then 3 else 1) (pm b) in
  submit h (phys_of REQ_HDR) (phys_of REQ_DATA) data_write b =
  (Ok tt, let '(m, d) := port_out 2 (io_base h + VIRT_QUEUE_NOTIFY) 0 m1 (dv b) in mkBus m d (said b)).
Proof.
  intros Hm Ha. cbn zeta. destruct Hh as [Hio [Hq He] (O1 & O2 & O3)]. destruct Hb as [Lq Lh Lt Ls Hr _].
  destruct (queue_sizes _ _ Hq He) as (Hqr & Hmod & Hub & Htot). specialize (Hmod n).
  pose proof (Lh 0 ltac:(lia)) as Ph. pose proof (Lt 0 ltac:(lia)) as Pt. pose proof (Ls 0 ltac:(lia)) as Ps. rewrite !Z.add_0_r in Ph, Pt, Ps.
  unfold submit. cbn zeta. rewrite Ph, Pt, Ps. unfold bind at 1, q_read16 at 1, gets at 1.
  rewrite O1. rewrite (linear_at (vq_base h) (vq_total_bytes (q_size h)) Q) by (exact Lq || (unfold vq_avail_idx_off; lia)).
  replace (Q + vq_avail_idx_off (q_size h)) with (avail_idx_at Q (q_size h)) by (unfold avail_idx_at, vq_avail_idx_off; lia). rewrite Ha.
  unfold bind at 1. rewrite (write_desc_spec _ 0 _ _ _ _ _ Q b Lq) by lia.
  unfold bind at 1. rewrite (write_desc_spec _ 1 _ _ _ _ _ Q _ Lq) by lia.
  unfold bind at 1. rewrite (write_desc_spec _ 2 _ _ _ _ _ Q _ Lq) by lia. cbn [pm dv said].
  unfold bind at 1, copy_to at 1, modify at 1. cbn [vpoke pm dv said]. rewrite Ps.
  replace (Z.land (as_u16 n) (as_u16 (q_size h - 1))) with (n mod q_size h) by (rewrite Hq, mask_mod by lia; done).
  unfold bind at 1, q_write16 at 1, modify at 1. cbn [pm dv said]. rewrite O2.
  rewrite (linear_at (vq_base h) (vq_total_bytes (q_size h)) Q) by (exact Lq || (unfold vq_avail_ring_off; lia)).
  replace (Q + (vq_avail_ring_off (q_size h) + n mod q_size h * 2)) with (avail_entry_at Q (q_size h) n)
    by (unfold avail_entry_at, vq_avail_ring_off; lia).
  unfold bind at 1, q_write16 at 1, modify at 1. cbn [pm dv said].
  rewrite (linear_at (vq_base h) (vq_total_bytes (q_size h)) Q) by (exact Lq || (unfold vq_avail_idx_off; lia)).
  replace (Q + vq_avail_idx_off (q_size h)) with (avail_idx_at Q (q_size h)) by (unfold avail_idx_at, vq_avail_idx_off; lia).
  replace (as_u16 (as_u16 n + 1)) with (as_u16 (n + 1)) by (unfold as_u16; by rewrite Zplus_mod_idemp_l).
  unfold bind at 1, reg at 1. rewrite (proj2 (Z.ltb_lt _ _)) by (unfold VIRT_BLK_CAP_HI, VIRT_QUEUE_NOTIFY in *; lia).
  unfold ret at 1, outw, out_n. cbn [pm dv said]. change BSZ with 512.
  replace (Z.lor VRING_DESC_F_NEXT (if data_write then VRING_DESC_F_WRITE else 0)) with (if data_write then 3 else 1) by (by destruct data_write).
  fold VRING_DESC_F_NEXT. unfold submitted. change VRING_DESC_F_NEXT with 1. change VRING_DESC_F_WRITE with 2.
  by destruct (port_out _ _ _ _ _).
Qed.

(** Where everything lies, for [lia]. *)
Lemma layout_facts : exists U,
  used_idx_at Q (q_size h) = Q + U + 2 /\ used_entry_at Q (q_size h) n = Q + U + 4 + 8 * (n mod q_size h) /\
  18 * q_size h + 6 <= U /\ 4 <= q_size h /\ 0 <= n mod q_size h < q_size h /\
  (Q + U + 8 * q_size h + 6 <= Hp \/ Hp + 16 <= Q) /\ (Q + U + 8 * q_size h + 6 <= Tp \/ Tp + 512 <= Q) /\
  (Q + U + 8 * q_size h + 6 <= Sp \/ Sp + 1 <= Q) /\
  (Hp + 16 <= Tp \/ Tp + 512 <= Hp) /\ (Hp + 16 <= Sp \/ Sp + 1 <= Hp) /\ (Tp + 512 <= Sp \/ Sp + 1 <= Tp).
Proof.
  destruct Hh as [_ [Hq He] _]. destruct (queue_sizes _ _ Hq He) as (Hqr & Hmod & Hub & Htot).
  destruct Hb as [_ _ _ _ _ (Hap & H1 & H2 & H3)]. exists (vq_used_base (q_size h)).
  unfold used_idx_at, used_entry_at. rewrite used_at_base by lia. rewrite <- Z.add_assoc.
  assert (forall k l, In (k, l) [(Hp, 16); (Tp, 512); (Sp, 1)] -> Q + (vq_used_base (q_size h) + 8 * q_size h + 6) <= k \/ k + l <= Q) as Ha.
  { intros k l Hk. rewrite <- Htot. by apply Hap. }
  pose proof (Ha Hp 16 ltac:(cbn; tauto)). pose proof (Ha Tp 512 ltac:(cbn; tauto)). pose proof (Ha Sp 1 ltac:(cbn; tauto)).
  specialize (Hmod n). lia.
Qed.

Ltac laid := unfold avail_idx_at, avail_entry_at in *; ranges.

Section served.
Context (flags : Z) (m : Phys).
Context (Hf : 0 <= flags < 65536).
Let m1 := submitted Q (q_size h) Hp Tp Sp n flags m.

Lemma submitted_elsewhere k a :
  apart a k Q 48 -> apart a k Sp 1 -> apart a k (avail_idx_at Q (q_size h)) 2 -> apart a k (avail_entry_at Q (q_size h) n) 2 ->
  peek k a m1 = peek k a m.
Proof.
  intros H1 H2 H3 H4. unfold m1, submitted. rewrite !peek_pwrite_apart, peek_poke_apart by (exact H2 || done).
  rewrite !peek_put_desc by ranges. done.
Qed.

Lemma submitted_desc i d : (i = 0 /\ d = mkDesc Hp 16 1 1) \/ (i = 1 /\ d = mkDesc Tp 512 flags 2) \/ (i = 2 /\ d = mkDesc Sp 1 2 0) ->
  desc_at Q i m1 = d.
Proof.
  intros Hi. destruct layout_facts as (U & _ & _ & F). pose proof (bf_range _ _ _ _ _ Hb) as Hr. unfold m1, submitted.
  rewrite !desc_at_pwrite, desc_at_poke by (cbn [length]; destruct Hi as [[-> _]|[[-> _]|[-> _]]]; laid).
  destruct Hi as [[-> ->]|[[-> ->]|[-> ->]]]; rewrite ?(put_desc_other Q 2), ?(put_desc_other Q 1) by done;
    apply put_desc_same; unfold desc_ok; cbn; lia.
Qed.

Lemma submitted_chain : Z.testbit flags 0 = true ->
  chain 4 Q 0 m1 = Some [mkDesc Hp 16 1 1; mkDesc Tp 512 flags 2; mkDesc Sp 1 2 0].
Proof.
  intros Hfl. cbn [chain]. rewrite (submitted_desc 0 (mkDesc Hp 16 1 1)) by tauto. cbn [d_flags d_next]. change (Z.testbit 1 0) with true. cbn iota.
  rewrite (submitted_desc 1 (mkDesc Tp 512 flags 2)) by tauto. cbn [d_flags d_next]. rewrite Hfl. cbn iota.
  by rewrite (submitted_desc 2 (mkDesc Sp 1 2 0)) by tauto.
Qed.

Lemma submitted_ring :
  pread 2 (avail_entry_at Q (q_size h) n) m1 = 0 /\ pread 2 (avail_idx_at Q (q_size h)) m1 = as_u16 (n + 1) /\
  pread 2 (used_idx_at Q (q_size h)) m1 = pread 2 (used_idx_at Q (q_size h)) m /\
  pread 4 Hp m1 = pread 4 Hp m /\ pread 8 (Hp + 8) m1 = pread 8 (Hp + 8) m /\ peek 512 Tp m1 = peek 512 Tp m.
Proof.
  destruct layout_facts as (U & E1 & _ & F). split; [|split; [|split; [|split; [|split]]]].
  - unfold m1, submitted. rewrite pread_apart by laid. by apply pread_pwrite_small.
  - unfold m1, submitted. apply pread_pwrite_small. unfold as_u16. cbn. zlia.
  - unfold pread. f_equal. apply submitted_elsewhere; laid.
  - unfold pread. f_equal. apply submitted_elsewhere; laid.
  - unfold pread. f_equal. apply submitted_elsewhere; laid.
  - apply submitted_elsewhere; laid.
Qed.

Lemma submitted_bytes : bytes_ok m -> bytes_ok m1.
Proof.
  intros Hm. unfold m1, submitted. apply pwrite_ok, pwrite_ok, poke_ok; [by repeat constructor|].
  by apply put_desc_bytes, put_desc_bytes, put_desc_bytes.
Qed.

End served.

(** *** What the device leaves *)

Lemma returned_reads status written m2 :
  0 <= status < 256 ->
  let m3 := return_chain Q (q_size h) n 0 written (poke [status] Sp m2) in
  pread 2 (used_idx_at Q (q_size h)) m3 = as_u16 (n + 1) /\
  pread 2 (avail_idx_at Q (q_size h)) m3 = pread 2 (avail_idx_at Q (q_size h)) m2 /\
  peek 1 Sp m3 = [status] /\ peek 512 Tp m3 = peek 512 Tp m2 /\ (bytes_ok m2 -> bytes_ok m3).
Proof.
  intros Hs. destruct layout_facts as (U & E1 & E2 & F). cbn zeta. unfold return_chain. cbn zeta. rewrite E1, E2.
  split; [apply pread_pwrite_small; unfold as_u16; cbn; zlia|].
  split; [rewrite !pread_apart by laid; unfold pread; by rewrite peek_poke_apart by (cbn [length]; laid)|].
  split; [rewrite !peek_pwrite_apart by ranges; apply (peek_poke [status])|].
  split; [rewrite !peek_pwrite_apart by ranges; by rewrite peek_poke_apart by (cbn [length]; ranges)|].
  intros Hm. apply pwrite_ok, pwrite_ok, pwrite_ok, poke_ok; [apply List.Forall_cons; [exact Hs|constructor]|done].
Qed.

Definition finish (status written : Z) (m : Phys) : Phys :=
  return_chain Q (q_size h) n 0 (written + 1) (poke [status] Sp m).

(** The device on the three descriptors of the driver. *)
Lemma blk_serve_run (data_write : bool) type sec disk m :
  pread 4 Hp m = type -> pread 8 (Hp + 8) m = sec ->
  let m1 := submitted Q (q_size h) Hp Tp Sp n (if data_write then 3 else 1) m in
  blk_serve Q (q_size h) n disk m1 =
  Some (if (sec <? cap disk) && (type =? 0) && data_write then (finish 0 512 (poke (sect disk sec) Tp m1), disk)
        else if (sec <? cap disk) && (type =? 1) && negb data_write then (finish 0 0 m1, write_sect sec (peek 512 Tp m) disk)
        else (finish 1 0 m1, disk)).
Proof.
  intros <- <-. cbn zeta. set (fl := if data_write then 3 else 1).
  assert (0 <= fl < 65536) as Hfl by (unfold fl; destruct data_write; lia).
  assert (Z.testbit fl 0 = true /\ Z.testbit fl 1 = data_write) as [B0 B1] by (unfold fl; destruct data_write; done).
  destruct (submitted_ring fl m Hfl) as (R1 & _ & _ & R4 & R5 & R6). set (m1 := submitted _ _ _ _ _ _ _ _) in *.
  unfold blk_serve. cbn zeta. rewrite R1. pose proof (submitted_chain fl m Hfl B0) as Ec. fold m1 in Ec. rewrite Ec. unfold writable. cbn [d_flags d_len d_addr].
  rewrite B1. change (Z.testbit 1 1) with false. change (Z.testbit 2 1) with true. cbn [negb andb Z.eqb Pos.eqb].
  rewrite R4, R5, R6. destruct (_ <? _), (_ =? 0), data_write, (_ =? 1); reflexivity.
Qed.

(** *** A request from start to end *)

Context (s : BlkSt (D := D)) (Hs : s.1 = h) (Hq : queue_ok h Q n s.2) (Hn : 0 <= n).

(** The state after a request the device answered with [status] and memory
    [m']. *)
Definition answered (d' : D) (m' : Phys) : BlkSt (D := D) :=
  (mkBlk (io_base h) (as_u16 (n + 1)) (vq_base h) (avail_idx_off h) (avail_ring_off h) (used_idx_off h) (q_size h),
   mkBus m' d' (said s.2)).

Lemma do_request_run (data_write : bool) status written m2 disk' :
  0 <= status < 256 -> bytes_ok m2 ->
  let m1 := submitted Q (q_size h) Hp Tp Sp n (if data_write then 3 else 1) (pm s.2) in
  let m' := return_chain Q (q_size h) n 0 written (poke [status] Sp m2) in
  blk_serve Q (q_size h) n (blk_disk (dv s.2)) m1 = Some (m', disk') ->
  pread 2 (avail_idx_at Q (q_size h)) m2 = as_u16 (n + 1) ->
  exists d', blk_disk d' = disk' /\
    queue_ok (answered d' m').1 Q (n + 1) (answered d' m').2 /\
    do_request (phys_of REQ_HDR) (phys_of REQ_DATA) data_write s =
    if status =? 0 then (Ok tt, answered d' m')
    else (Err tt, ((answered d' m').1, mkBus m' d' (said s.2 ++ [VirtioBadStatus status]))).
Proof.
  intros Hst Hm2. cbn zeta. set (fl := if data_write then 3 else 1). set (m1 := submitted _ _ _ _ _ _ _ _). set (m' := return_chain _ _ _ _ _ _).
  intros Hserve Hav. destruct Hq as [Q1 Q2 Q3 Q4 Q5].
  assert (0 <= fl < 65536) as Hfl by (unfold fl; destruct data_write; lia).
  destruct (submitted_ring fl (pm s.2) Hfl) as (R1 & R2 & R3 & _). fold m1 in R1, R2, R3.
  destruct (returned_reads status written m2 Hst) as (G1 & G2 & G3 & G4 & G5). fold m' in G1, G2, G3, G4, G5.
  destruct (blk_notified _ _ _ _ _ m1 m' disk' Q5 (submitted_bytes fl _ Q4) R2 Hserve) as (k & d' & Hk & Ht & Hl & Hd & Hj).
  exists d'. split; [done|]. split; [split; cbn [answered fst snd last_used_idx q_size io_base pm dv]; [done|by rewrite G2|done|by apply G5|done]|].
  unfold do_request. unfold bind at 1, gets at 1. rewrite Hs. unfold bind at 1, on_bus at 1.
  pose proof (submit_spec data_write s.2 Q4 Q2) as Hsub. cbn zeta in Hsub. fold fl m1 in Hsub. rewrite Hsub. clear Hsub.
  destruct (port_out 2 (io_base h + VIRT_QUEUE_NOTIFY) 0 m1 (dv s.2)) as [mo do_] eqn:Eo. rewrite Hs.
  unfold bind at 1, on_bus at 1. cbn [fst snd].
  destruct Hh as [Hio [Hqs He] (O1 & O2 & O3)]. destruct (queue_sizes _ _ Hqs He) as (Hqr & Hmod & Hub & Htot).
  assert (phys_of (vq_base h + used_idx_off h) = used_idx_at Q (q_size h)) as Ha.
  { rewrite O3, (bf_queue _ _ _ _ _ Hb) by (unfold vq_used_idx_off; lia). unfold used_idx_at, vq_used_idx_off. rewrite used_at_base by lia. lia. }
  assert (as_u16 (last_used_idx h + 1) = as_u16 (n + 1)) as Etgt by (rewrite Q1; unfold as_u16; by rewrite Zplus_mod_idemp_l).
  rewrite Etgt, (await_used_spec _ _ _ _ _ k Ha Hk); cbn [pm dv said].
  2:{ intros j Hjk. rewrite Hj, R3, Q3 by done. unfold as_u16. zlia. }
  2:{ by rewrite Ht. }
  rewrite Ht. cbn [fst snd negb]. unfold bind at 1, set_last_used at 1, modify at 1. cbn [fst snd].
  assert (forall dd : D, req_status (mkBus m' dd (said s.2)) = (Ok status, mkBus m' dd (said s.2))) as Hrs.
  { intros dd. unfold req_status, bind, copy_from, gets, lift. cbn [pm]. rewrite (vpeek_peek 1 _ Sp) by apply (bf_status _ _ _ _ _ Hb).
    by rewrite G3. }
  unfold bind at 1, on_bus at 1. cbn [fst snd]. rewrite Hrs. unfold BLK_S_OK. destruct (status =? 0); cbn [negb]; [done|].
  unfold bind at 1, on_bus at 1. cbn [fst snd]. rewrite Hrs. done.
Qed.
End request.

(** ** The operations *)

Definition put_hdr (a type sec : Z) (m : Phys) : Phys := pwrite 8 (a + 8) sec (pwrite 4 (a + 4) 0 (pwrite 4 a type m)).

Lemma write_hdr_spec h Q Hp Tp Sp type sec (b : Bus D) : buffers h Q Hp Tp Sp ->
  write_hdr type sec b = (Ok tt, mkBus (put_hdr Hp type sec (pm b)) (dv b) (said b)).
Proof.
  intros Hb. unfold write_hdr, q_write32, q_write64, bind, modify. cbn [pm dv said].
  rewrite !(linear_at REQ_HDR 16 Hp) by (apply (bf_hdr _ _ _ _ _ Hb) || lia). by rewrite Z.add_0_r.
Qed.

Lemma put_hdr_reads a type sec m : 0 <= type < 2 ^ 32 -> 0 <= sec < 2 ^ 64 ->
  pread 4 a (put_hdr a type sec m) = type /\ pread 8 (a + 8) (put_hdr a type sec m) = sec /\
  (forall k x, apart x k a 16 -> peek k x (put_hdr a type sec m) = peek k x m) /\ (bytes_ok m -> bytes_ok (put_hdr a type sec m)).
Proof.
  intros Ht Hs. unfold put_hdr. split; [|split; [|split]].
  - rewrite !pread_apart by ranges. apply pread_pwrite_small. cbn. lia.
  - apply pread_pwrite_small. cbn. lia.
  - intros k x Hx. rewrite !peek_pwrite_apart by ranges. done.
  - auto with wasmos.
Qed.

(** The promise of the driver: its handle, its buffers and its queue are in
    order, and the device stores sectors of 512 bytes. *)
Definition blk_ok (s : BlkSt (D := D)) : Prop :=
  exists e Q Hp Tp Sp n, handle_ok s.1 e /\ buffers s.1 Q Hp Tp Sp /\ queue_ok s.1 Q n s.2 /\ 0 <= n /\ disk_ok (blk_disk (dv s.2)).

Lemma queue_ok_memory h e Q Hp Tp Sp n (b : Bus D) m' :
  handle_ok h e -> buffers h Q Hp Tp Sp -> queue_ok h Q n b -> bytes_ok m' ->
  (forall k x, apart x k Hp 16 -> apart x k Tp 512 -> peek k x m' = peek k x (pm b)) ->
  queue_ok h Q n (mkBus m' (dv b) (said b)).
Proof.
  intros Hh Hb [Q1 Q2 Q3 Q4 Q5] Hm Hs. destruct (layout_facts h e Q Hp Tp Sp n Hh Hb) as (U & E1 & _ & F).
  split; cbn [pm dv]; [done| | |done|done]; unfold pread in *; rewrite Hs; try done; unfold avail_idx_at in *; ranges.
Qed.

Lemma answered_handle h e (s : BlkSt (D := D)) n d' m' : handle_ok h e -> handle_ok (answered h n s d' m').1 e.
Proof. by intros [H1 H2 H3]; split. Qed.

Lemma answered_buffers h Q Hp Tp Sp (s : BlkSt (D := D)) n d' m' : buffers h Q Hp Tp Sp -> buffers (answered h n s d' m').1 Q Hp Tp Sp.
Proof. by intros [H1 H2 H3 H4 H5 H6]; split. Qed.

(** A request whose header and data are in memory [m]. *)
Lemma request_run h e Q Hp Tp Sp n (b : Bus D) (data_write : bool) type sec :
  handle_ok h e -> buffers h Q Hp Tp Sp -> queue_ok h Q n b -> 0 <= n -> disk_ok (blk_disk (dv b)) ->
  pread 4 Hp (pm b) = type -> pread 8 (Hp + 8) (pm b) = sec -> type = (if data_write then 0 else 1) -> 0 <= sec ->
  let disk := blk_disk (dv b) in
  exists s', blk_ok s' /\
    do_request (phys_of REQ_HDR) (phys_of REQ_DATA) data_write (h, b) = (if sec <? cap disk then Ok tt else Err tt, s') /\
    blk_disk (dv s'.2) = (if (sec <? cap disk) && negb data_write then write_sect sec (peek 512 Tp (pm b)) disk else disk) /\
    (sec < cap disk -> data_write = true -> copy_from REQ_DATA BLOCK_SIZE s'.2 = (Ok (sect disk sec), s'.2)).
Proof.
  intros Hh Hb Hq Hn Hd Ht Hs Hty Hsec. cbn zeta. set (disk := blk_disk (dv b)).
  set (m1 := submitted Q (q_size h) Hp Tp Sp n (if data_write then 3 else 1) (pm b)).
  assert (0 <= (if data_write then 3 else 1) < 65536) as Hfl by (destruct data_write; lia).
  destruct (submitted_ring h e Q Hp Tp Sp n Hh Hb _ (pm b) Hfl) as (_ & R2 & _). fold m1 in R2.
  pose proof (submitted_bytes h Q Hp Tp Sp n (if data_write then 3 else 1) (pm b) (qo_bytes _ _ _ _ Hq)) as Hm1. fold m1 in Hm1.
  destruct (layout_facts h e Q Hp Tp Sp n Hh Hb) as (U & _ & _ & F). destruct Hd as [Hc Hsect]. destruct (Hsect sec) as [Hsl Hsu]. fold disk in Hsl, Hsu.
  set (read := (sec <? cap disk) && data_write). set (m2 := if read then poke (sect disk sec) Tp m1 else m1).
  set (disk' := if (sec <? cap disk) && negb data_write then write_sect sec (peek 512 Tp (pm b)) disk else disk).
  set (status := if sec <? cap disk then 0 else 1).
  assert (blk_serve Q (q_size h) n disk m1 = Some (finish h Q Sp n status (if read then 512 else 0) m2, disk')) as Hserve.
  { unfold m1. rewrite (blk_serve_run h e Q Hp Tp Sp n Hh Hb data_write type sec disk (pm b) Ht Hs). fold m1. rewrite Hty.
    unfold m2, disk', status, read. by destruct (sec <? cap disk), data_write. }
  assert (bytes_ok m2) as Hm2 by (unfold m2; destruct read; [by apply poke_ok|done]).
  assert (pread 2 (avail_idx_at Q (q_size h)) m2 = as_u16 (n + 1)) as Hav.
  { unfold m2. destruct read; [|done]. unfold pread in *. rewrite peek_poke_apart; [done|]. rewrite Hsl.
    change BLOCK_SIZE with 512%nat. unfold avail_idx_at. ranges. }
  assert (0 <= status < 256) as Hst by (unfold status; destruct (_ <? _); lia).
  destruct (do_request_run h e Q Hp Tp Sp n Hh Hb (h, b) eq_refl Hq data_write status _ m2 disk' Hst Hm2 Hserve Hav)
    as (d' & Hd' & Hq' & Hrun). cbn [fst snd] in *.
  set (m' := return_chain _ _ _ _ _ _) in *. set (s1 := answered h n (h, b) d' m') in *.
  assert (disk_ok disk') as Hdo.
  { unfold disk', write_sect. destruct ((sec <? cap disk) && negb data_write); [|exact (conj Hc Hsect)]. split; [done|]. intros l. cbn [sect].
    destruct (l =? sec); [|apply Hsect]. split; [apply peek_length|apply peek_ok, Hq]. }
  assert (forall said', blk_ok (s1.1, mkBus m' d' said')) as Hok.
  { intros said'. exists e, Q, Hp, Tp, Sp, (n + 1). split; [by apply answered_handle|]. split; [by apply answered_buffers|].
    split; [|split; [lia|cbn; by rewrite Hd']]. destruct Hq' as [G1 G2 G3 G4 G5]. by split. }
  assert (sec < cap disk -> data_write = true -> peek BLOCK_SIZE Tp m' = sect disk sec) as Hdata.
  { intros Hlt Hw. destruct (returned_reads h e Q Hp Tp Sp n Hh Hb status ((if read then 512 else 0) + 1) m2 Hst) as (_ & _ & _ & G4 & _).
    change (peek BLOCK_SIZE Tp m' = peek BLOCK_SIZE Tp m2) in G4. rewrite G4. unfold m2, read.
    rewrite (proj2 (Z.ltb_lt _ _)), Hw by done. cbn [andb]. pose proof (peek_poke (sect disk sec) Tp m1) as E. by rewrite Hsl in E. }
  exists (if status =? 0 then s1 else (s1.1, mkBus m' d' (said b ++ [VirtioBadStatus status]))).
  split; [destruct (status =? 0); [exact (Hok (said b))|apply Hok]|]. split.
  { rewrite Hrun. unfold status. by destruct (sec <? cap disk). }
  split; [by destruct (status =? 0)|].
  intros Hlt Hw. unfold copy_from, gets. rewrite (vpeek_peek _ _ Tp) by apply (bf_data _ _ _ _ _ Hb).
  unfold status. rewrite (proj2 (Z.ltb_lt _ _)) by done. cbn [Z.eqb s1 answered snd pm]. by rewrite Hdata.
Qed.

Lemma block_count_run (s : BlkSt (D := D)) : blk_ok s -> block_count s = cap (blk_disk (dv s.2)).
Proof.
  intros (e & Q & Hp & Tp & Sp & n & [Hio _ _] & _ & [_ _ _ _ Hl] & _ & [Hc _]).
  destruct (blk_capacity _ _ _ _ _ Hl) as (d1 & d2 & E1 & E2). destruct s as [h b]. cbn [fst snd] in *.
  cbn [block_count virtio_blk]. unfold blk_block_count_io, bind, gets, on_bus, reg, inl, in_n. cbn [fst snd].
  rewrite (proj2 (Z.ltb_lt (io_base h + VIRT_BLK_CAP_LO) _)) by (unfold VIRT_BLK_CAP_LO, VIRT_BLK_CAP_HI in *; lia).
  unfold ret. rewrite E1. cbn [fst snd dv]. rewrite (proj2 (Z.ltb_lt _ _)) by lia. cbn [dv]. rewrite E2. cbn [fst].
  rewrite Z.div_small, Z.mod_small by lia. rewrite Z.shiftl_0_l, Z.lor_0_l. lia.
Qed.

Lemma blk_read_run (s : BlkSt (D := D)) lba : blk_ok s -> 0 <= lba < 4294967296 ->
  exists s', blk_ok s' /\ blk_disk (dv s'.2) = blk_disk (dv s.2) /\
    read_block lba s = (if lba <? cap (blk_disk (dv s.2)) then Ok (sect (blk_disk (dv s.2)) lba) else Err tt, s').
Proof.
  intros (e & Q & Hp & Tp & Sp & n & Hh & Hb & Hq & Hn & Hd) Hlba. destruct s as [h b]. cbn [fst snd] in *.
  destruct (put_hdr_reads Hp BLK_T_IN lba (pm b)) as (P1 & P2 & P3 & P4); [done|lia|].
  set (b1 := mkBus (put_hdr Hp BLK_T_IN lba (pm b)) (dv b) (said b)).
  assert (queue_ok h Q n b1) as Hq1.
  { apply (queue_ok_memory h e Q Hp Tp Sp n b); [done|done|done|apply P4, Hq|]. intros k x Hx _. by apply P3. }
  destruct (request_run h e Q Hp Tp Sp n b1 true BLK_T_IN lba Hh Hb Hq1 Hn Hd P1 P2 eq_refl) as (s' & Hok & Hrun & Hdisk & Hdata); [lia|].
  exists s'. rewrite andb_false_r in Hdisk. split; [done|]. split; [done|].
  cbn [read_block virtio_blk]. unfold blk_read_block. unfold bind at 1, on_bus at 1. cbn [fst snd].
  rewrite (write_hdr_spec h Q Hp Tp Sp BLK_T_IN lba b Hb). unfold bind at 1. fold b1. rewrite Hrun. cbn [dv b1].
  destruct (Z.ltb_spec lba (cap (blk_disk (dv b)))) as [Hlt|_]; [|done]. unfold on_bus. rewrite Hdata by done. by destruct s'.
Qed.

Lemma blk_write_run (s : BlkSt (D := D)) lba data : blk_ok s -> 0 <= lba < 4294967296 -> length data = BLOCK_SIZE -> Forall is_u8 data ->
  exists s', blk_ok s' /\
    blk_disk (dv s'.2) = (if lba <? cap (blk_disk (dv s.2)) then write_sect lba data (blk_disk (dv s.2)) else blk_disk (dv s.2)) /\
    write_block lba data s = (if lba <? cap (blk_disk (dv s.2)) then Ok tt else Err tt, s').
Proof.
  intros (e & Q & Hp & Tp & Sp & n & Hh & Hb & Hq & Hn & Hd) Hlba Hlen Hu. destruct s as [h b]. cbn [fst snd] in *.
  destruct (put_hdr_reads Hp BLK_T_OUT lba (pm b)) as (P1 & P2 & P3 & P4); [done|lia|].
  set (m1 := put_hdr Hp BLK_T_OUT lba (pm b)). set (b1 := mkBus (vpoke data REQ_DATA m1) (dv b) (said b)).
  assert (forall k x, peek k x (pm b1) = peek k x (poke data Tp m1)) as Hpoke.
  { intros k x. apply peek_ext. intros y _. apply vpoke_poke. rewrite Hlen. apply (bf_data _ _ _ _ _ Hb). }
  assert (forall k x, apart x k Tp 512 -> peek k x (pm b1) = peek k x m1) as Hout.
  { intros k x Hx. rewrite Hpoke. apply peek_poke_apart. by rewrite Hlen. }
  destruct (layout_facts h e Q Hp Tp Sp n Hh Hb) as (U & _ & _ & F).
  assert (queue_ok h Q n b1) as Hq1.
  { apply (queue_ok_memory h e Q Hp Tp Sp n b); [done|done|done|apply vpoke_ok; [done|apply P4, Hq]|].
    intros k x Hx1 Hx2. rewrite Hout by done. by apply P3. }
  destruct (request_run h e Q Hp Tp Sp n b1 false BLK_T_OUT lba Hh Hb Hq1 Hn Hd) as (s' & Hok & Hrun & Hdisk & _).
  { unfold pread in *. rewrite Hout by ranges. exact P1. } { unfold pread in *. rewrite Hout by ranges. exact P2. } { done. } { lia. }
  exists s'. split; [done|]. rewrite andb_true_r in Hdisk. cbn [dv b1] in *. split.
  { rewrite Hdisk. rewrite Hpoke. pose proof (peek_poke data Tp m1) as E. rewrite Hlen in E. change BLOCK_SIZE with 512%nat in E. by rewrite E. }
  cbn [write_block virtio_blk]. unfold blk_write_block. unfold bind at 1, on_bus at 1. cbn [fst snd].
  rewrite (write_hdr_spec h Q Hp Tp Sp BLK_T_OUT lba b Hb). unfold bind at 1, on_bus at 1, copy_to, modify. cbn [fst snd pm dv said].
  fold m1 b1. exact Hrun.
Qed.
End driver.

(** ** The contract *)

#[export, refine] Instance virtio_blk_ok {D} {PIO : PortIO D} {BD : BlkDevice D} {AS : AddressSpace} {BS : BlkStatics} :
  BlockDeviceOk (BlkSt (D := D)) := {
  sector s l := sect (blk_disk (dv s.2)) l;
  device_ok := blk_ok
}.
Proof.
  - intros s lba Hs Hl. rewrite block_count_run in Hl by done.
    pose proof Hs as (e & Q & Hp & Tp & Sp & n & _ & _ & _ & _ & [Hc _]).
    destruct (blk_read_run s lba Hs) as (s' & H1 & H2 & H3); [lia|]. exists s'. rewrite H3, !block_count_run, H2 by done.
    by rewrite (proj2 (Z.ltb_lt _ _)) by lia.
  - intros s lba Hs Hl. rewrite block_count_run in Hl by done.
    pose proof Hs as (e & Q & Hp & Tp & Sp & n & _ & _ & _ & _ & [Hc _]).
    destruct (blk_read_run s lba Hs) as (s' & H1 & H2 & H3); [lia|]. exists s'. rewrite H3, !block_count_run, H2 by done.
    by rewrite (proj2 (Z.ltb_ge _ _)) by lia.
  - intros s lba b Hs Hl Hb Hu. rewrite block_count_run in Hl by done.
    pose proof Hs as (e & Q & Hp & Tp & Sp & n & _ & _ & _ & _ & [Hc _]).
    destruct (blk_write_run s lba b Hs) as (s' & H1 & H2 & H3); [lia|done|done|]. exists s'. rewrite H3, !block_count_run, H2 by done.
    rewrite (proj2 (Z.ltb_lt _ _)) by lia. done.
  - intros s lba b Hs Hl Hb Hu. rewrite block_count_run in Hl by done.
    pose proof Hs as (e & Q & Hp & Tp & Sp & n & _ & _ & _ & _ & [Hc _]).
    destruct (blk_write_run s lba b Hs) as (s' & H1 & H2 & H3); [lia|done|done|]. exists s'. rewrite H3, !block_count_run, H2 by done.
    rewrite (proj2 (Z.ltb_ge _ _)) by lia. done.
  - intros s lba (e & Q & Hp & Tp & Sp & n & _ & _ & _ & _ & [_ Hc]) _. apply Hc.
Defined.

(** * Bringing the block device up

    The registers of a legacy virtio device on the PCI bus, and the proof that
    the initialisation of the driver leaves a working device behind. *)

(** ** The registers *)

Record Regs := mkRegs { cfg_addr : Z; status : Z; queue_sel : Z; queue_pfn : Z }.

(** Writes to the device; writing 0 to the status resets it. *)
Definition reg_write (off v : Z) (r : Regs) : Regs :=
  if off =? VIRT_DEVICE_STATUS then (if v =? 0 then mkRegs (cfg_addr r) 0 0 0 else mkRegs (cfg_addr r) v (queue_sel r) (queue_pfn r))
  else if off =? VIRT_QUEUE_SELECT then mkRegs (cfg_addr r) (status r) v (queue_pfn r)
  else if off =? VIRT_QUEUE_PFN then (if queue_sel r =? 0 then mkRegs (cfg_addr r) (status r) (queue_sel r) v else r)
  else r.

(** A block device at a slot of the bus, with its registers at [bar] and a
    queue of [depth] entries. *)
Class BlkPlugged (D : Type) {PIO : PortIO D} {BD : BlkDevice D} := {
  bar : Z; depth : Z; slot : Z * Z;
  pci_config : Z -> Z;
  regs : D -> Regs;
  out_cfg_addr a m d : exists d', port_out 4 PCI_ADDR a m d = (m, d') /\ blk_disk d' = blk_disk d /\
    regs d' = mkRegs a (status (regs d)) (queue_sel (regs d)) (queue_pfn (regs d));
  in_cfg_data d : port_in 4 PCI_DATA d = (pci_config (cfg_addr (regs d)), d);
  out_cfg_data v m d : exists d', port_out 4 PCI_DATA v m d = (m, d') /\ blk_disk d' = blk_disk d /\ regs d' = regs d;
  out_reg w off v m d : (w, off) ∈ [(1%nat, VIRT_DEVICE_STATUS); (4%nat, VIRT_DRIVER_FEATURES); (2%nat, VIRT_QUEUE_SELECT); (4%nat, VIRT_QUEUE_PFN)] ->
    exists d', port_out w (bar + off) v m d = (m, d') /\ blk_disk d' = blk_disk d /\ regs d' = reg_write off v (regs d);
  in_features d : exists v, port_in 4 (bar + VIRT_DEVICE_FEATURES) d = (v, d);
  in_queue_num d : queue_sel (regs d) = 0 -> port_in 2 (bar + VIRT_QUEUE_NUM) d = (depth, d);
  in_status d : port_in 1 (bar + VIRT_DEVICE_STATUS) d = (status (regs d), d);
  (** Set up after a reset and told so, the device serves the queue it was given. *)
  goes_live m d m' d' : status (regs d) = 3 -> port_out 1 (bar + VIRT_DEVICE_STATUS) 7 m d = (m', d') ->
    blk_live bar (queue_pfn (regs d') * 4096) depth 0 d'
}.

(** The identity and the base register of the slot, and no other block device
    before it. *)
Record found_at {D} {PIO : PortIO D} {BD : BlkDevice D} {BP : BlkPlugged D} : Prop := {
  fa_id : pci_config (pci_address (slot.1) (slot.2) 0 0x00) = 0x10011AF4;
  fa_bar : pci_config (pci_address (slot.1) (slot.2) 0 0x10) = bar + 1;
  fa_range : 0 <= bar /\ bar + VIRT_BLK_CAP_HI < 65536 /\ bar mod 4 = 0;
  fa_first : exists pre post, pci_slots = pre ++ slot :: post /\
    Forall (fun x => let id := pci_config (pci_address x.1 x.2 0 0x00) in
      id = 0xFFFFFFFF \/ Z.land id 0xFFFF <> 0x1AF4 \/ as_u16 (Z.shiftr id 16) <> 0x1001) pre
}.
Arguments found_at D {_ _ _}.

Section init.
Context {D : Type} {PIO : PortIO D} {BD : BlkDevice D} {BP : BlkPlugged D} {AS : AddressSpace} {BS : BlkStatics}.

(** What a register access keeps. *)
Record after (b b' : Bus D) (r : Regs) : Prop := {
  af_mem : pm b' = pm b;
  af_disk : blk_disk (dv b') = blk_disk (dv b);
  af_regs : regs (dv b') = r;
  af_said : said b' = said b
}.

Lemma after_trans b1 b2 b3 r r' : after b1 b2 r -> after b2 b3 r' -> after b1 b3 r'.
Proof. intros [A1 A2 A3 A4] [B1 B2 B3 B4]. split; congruence. Qed.

Lemma pci_read_run bus dev func off (b : Bus D) : exists b',
  pci_read32 bus dev func off b = (Ok (pci_config (pci_address bus dev func off)), b') /\
  exists a, after b b' (mkRegs a (status (regs (dv b))) (queue_sel (regs (dv b))) (queue_pfn (regs (dv b)))).
Proof.
  destruct (out_cfg_addr (pci_address bus dev func off) (pm b) (dv b)) as (d' & E & Hd & Hr).
  exists (mkBus (pm b) d' (said b)). unfold pci_read32, bind, outl, inl, out_n, in_n. rewrite E. cbn [dv pm said].
  rewrite in_cfg_data, Hr. split; [done|]. eexists. split; cbn; [done|done|exact Hr|done].
Qed.

Lemma pci_write_run bus dev func off v (b : Bus D) : exists b',
  pci_write32 bus dev func off v b = (Ok tt, b') /\
  exists a, after b b' (mkRegs a (status (regs (dv b))) (queue_sel (regs (dv b))) (queue_pfn (regs (dv b)))).
Proof.
  destruct (out_cfg_addr (pci_address bus dev func off) (pm b) (dv b)) as (d1 & E1 & Hd1 & Hr1).
  destruct (out_cfg_data v (pm b) d1) as (d2 & E2 & Hd2 & Hr2).
  exists (mkBus (pm b) d2 (said b)). unfold pci_write32, bind, outl, out_n. rewrite E1. cbn [dv pm said]. rewrite E2.
  split; [done|]. eexists. split; cbn; [done|congruence|by rewrite Hr2, Hr1|done].
Qed.

Lemma out_reg_run w off v (b : Bus D) :
  (w, off) ∈ [(1%nat, VIRT_DEVICE_STATUS); (4%nat, VIRT_DRIVER_FEATURES); (2%nat, VIRT_QUEUE_SELECT); (4%nat, VIRT_QUEUE_PFN)] ->
  exists b', out_n w (bar + off) v b = (Ok tt, b') /\ after b b' (reg_write off v (regs (dv b))).
Proof.
  intros Hin. destruct (out_reg w off v (pm b) (dv b) Hin) as (d' & E & Hd & Hr).
  exists (mkBus (pm b) d' (said b)). unfold out_n. rewrite E. split; [done|]. by split.
Qed.

Lemma reg_run off (b : Bus D) : bar + off < 65536 -> reg bar off b = (Ok (bar + off), b).
Proof. intros Ho. unfold reg. by rewrite (proj2 (Z.ltb_lt _ _)). Qed.

Lemma vendor_of id : as_u16 (Z.land id 0xFFFF) = Z.land id 0xFFFF.
Proof.
  change 0xFFFF with (Z.ones 16). rewrite Z.land_ones by lia. unfold as_u16. change 65536 with (2 ^ 16). by rewrite Z.mod_mod.
Qed.

Lemma find_run (b : Bus D) : found_at D ->
  exists b' a, find_virtio_blk b = (Ok (Some (slot.1, slot.2, bar)), b') /\
    after b b' (mkRegs a (status (regs (dv b))) (queue_sel (regs (dv b))) (queue_pfn (regs (dv b)))).
Proof.
  intros [Hid Hbar [H0 [Hlt Hm4]] (pre & post & Hs & Hpre)]. unfold find_virtio_blk. rewrite Hs. clear Hs. revert b.
  induction Hpre as [|[bus dev] pre Hx Hpre IH]; intros b; cbn [app scan_slots].
  - destruct slot as [bus dev] eqn:Eslot. cbn [fst snd] in *.
    destruct (pci_read_run bus dev 0 0 b) as (b1 & E1 & a1 & A1). unfold bind at 1. rewrite E1, Hid. cbn [Z.eqb Pos.eqb].
    change (as_u16 (Z.land 0x10011AF4 0xFFFF) =? 0x1AF4) with true. change (as_u16 (Z.shiftr 0x10011AF4 16) =? 0x1001) with true. cbn [andb].
    destruct (pci_read_run bus dev 0 16 b1) as (b2 & E2 & a2 & A2). unfold bind at 1. rewrite E2, Hbar.
    assert (Z.land (bar + 1) 1 = 1) as -> by (rewrite present_bit; zlia). cbn [Z.eqb Pos.eqb].
    assert (as_u16 (Z.land (bar + 1) 0xFFFFFFFC) = bar) as ->.
    { change 0xFFFFFFFC with (2 ^ 32 - 2 ^ 2). rewrite land_field by lia. unfold as_u16, VIRT_BLK_CAP_HI in *. rewrite (Z.mod_small (bar + 1)) by lia.
      change (2 ^ 2) with 4. zlia. }
    exists b2, a2. split; [done|]. pose proof (after_trans _ _ _ _ _ A1 A2) as A. rewrite (af_regs _ _ _ A1) in A. exact A.
  - destruct (pci_read_run bus dev 0 0 b) as (b1 & E1 & a1 & A1). destruct (IH b1) as (b2 & a2 & E2 & A2). exists b2, a2.
    unfold bind at 1. rewrite E1. split.
    + destruct (_ =? 0xFFFFFFFF) eqn:Ef; [done|]. zbool. cbn zeta in Hx. cbn [fst snd] in Hx. rewrite vendor_of.
      replace ((_ =? 0x1AF4) && (_ =? 0x1001)) with false; [done|].
      symmetry. rewrite andb_false_iff, !Z.eqb_neq. tauto.
    + pose proof (after_trans _ _ _ _ _ A1 A2) as A. rewrite (af_regs _ _ _ A1) in A. exact A.
Qed.

(** The handshake, from registers in any state. *)
Lemma handshake_run vq_virt (b : Bus D) :
  bar + VIRT_BLK_CAP_HI < 65536 -> 0 <= phys_of vq_virt < 2 ^ 44 ->
  exists b', blk_handshake slot.1 slot.2 bar vq_virt depth b =
    (Ok (Some (mkBlk bar 0 vq_virt (vq_avail_idx_off depth) (vq_avail_ring_off depth) (vq_used_idx_off depth) depth)), b') /\
    pm b' = pm b /\ blk_disk (dv b') = blk_disk (dv b) /\ said b' = said b /\
    blk_live bar (phys_of vq_virt / 4096 * 4096) depth 0 (dv b').
Proof.
  unfold VIRT_BLK_CAP_HI. intros Hbar Hp. unfold blk_handshake.
  destruct (pci_read_run slot.1 slot.2 0 4 b) as (b1 & E1 & a1 & A1). unfold bind at 1. rewrite E1.
  match goal with |- context [pci_write32 _ _ 0 4 ?v] => destruct (pci_write_run slot.1 slot.2 0 4 v b1) as (b2 & E2 & a2 & A2) end.
  unfold bind at 1. rewrite E2. unfold bind at 1. rewrite reg_run by (unfold VIRT_DEVICE_STATUS; lia).
  destruct (out_reg_run 1 VIRT_DEVICE_STATUS 0 b2) as (b3 & E3 & A3); [in_levels|]. unfold bind at 1, outb at 1. rewrite E3.
  destruct (out_reg_run 1 VIRT_DEVICE_STATUS STATUS_ACK b3) as (b4 & E4 & A4); [in_levels|]. unfold bind at 1, outb at 1. rewrite E4.
  destruct (out_reg_run 1 VIRT_DEVICE_STATUS (Z.lor STATUS_ACK STATUS_DRIVER) b4) as (b5 & E5 & A5); [in_levels|].
  unfold bind at 1, outb at 1. rewrite E5.
  unfold bind at 1. rewrite reg_run by (unfold VIRT_DEVICE_FEATURES; lia).
  destruct (in_features (dv b5)) as (v & Ev). unfold bind at 1, inl at 1, in_n at 1. rewrite Ev.
  assert (mkBus (pm b5) (dv b5) (said b5) = b5) as -> by (by destruct b5).
  unfold bind at 1. rewrite reg_run by (unfold VIRT_DRIVER_FEATURES; lia).
  destruct (out_reg_run 4 VIRT_DRIVER_FEATURES 0 b5) as (b6 & E6 & A6); [in_levels|]. unfold bind at 1, outl at 1. rewrite E6.
  unfold bind at 1. rewrite reg_run by (unfold VIRT_QUEUE_SELECT; lia).
  destruct (out_reg_run 2 VIRT_QUEUE_SELECT 0 b6) as (b7 & E7 & A7); [in_levels|]. unfold bind at 1, outw at 1. rewrite E7.
  cbn zeta. unfold bind at 1. rewrite reg_run by (unfold VIRT_QUEUE_PFN; lia).
  assert (as_u32 (Z.shiftr (phys_of vq_virt) 12) = phys_of vq_virt / 4096) as ->.
  { rewrite Z.shiftr_div_pow2 by lia. change (2 ^ 12) with 4096. unfold as_u32. apply Z.mod_small. change (2 ^ 44) with 17592186044416 in Hp. zlia. }
  destruct (out_reg_run 4 VIRT_QUEUE_PFN (phys_of vq_virt / 4096) b7) as (b8 & E8 & A8); [in_levels|]. unfold bind at 1, outl at 1. rewrite E8.
  destruct (out_reg_run 1 VIRT_DEVICE_STATUS 7 b8) as (b9 & E9 & A9); [in_levels|]. unfold bind at 1, outb at 1.
  change (Z.lor (Z.lor STATUS_ACK STATUS_DRIVER) STATUS_DRIVER_OK) with 7. rewrite E9.
  unfold bind at 1, inb at 1, in_n at 1. rewrite in_status.
  assert (mkBus (pm b9) (dv b9) (said b9) = b9) as -> by (by destruct b9).
  pose proof (af_regs _ _ _ A3) as R3. pose proof (af_regs _ _ _ A4) as R4. pose proof (af_regs _ _ _ A5) as R5.
  pose proof (af_regs _ _ _ A6) as R6. pose proof (af_regs _ _ _ A7) as R7. pose proof (af_regs _ _ _ A8) as R8. pose proof (af_regs _ _ _ A9) as R9.
  rewrite R3 in R4. rewrite R4 in R5. rewrite R5 in R6. rewrite R6 in R7. rewrite R7 in R8.
  assert (status (regs (dv b8)) = 3) as Hst8 by (by rewrite R8).
  rewrite R8 in R9. clear R3 R4 R5 R6 R7 R8.
  assert (blk_live bar (queue_pfn (regs (dv b9)) * 4096) depth 0 (dv b9)) as Hlive.
  { unfold out_n in E9. destruct (port_out 1 _ 7 (pm b8) (dv b8)) as [m9 d9] eqn:Ed. injection E9 as <-.
    apply (goes_live _ _ _ _ Hst8 Ed). }
  cbn in R9. rewrite R9 in *. change (negb (Z.land (status (mkRegs _ 7 _ _)) STATUS_FAILED =? 0)) with false. cbn iota.
  pose proof (after_trans _ _ _ _ _ A1 (after_trans _ _ _ _ _ A2 (after_trans _ _ _ _ _ A3 (after_trans _ _ _ _ _ A4 (after_trans _ _ _ _ _ A5
    (after_trans _ _ _ _ _ A6 (after_trans _ _ _ _ _ A7 (after_trans _ _ _ _ _ A8 A9)))))))) as [B1 B2 _ B4].
  exists b9. split; [done|]. split; [done|]. split; [done|]. split; [done|]. exact Hlive.
Qed.

(** ** Initialisation *)

(** The static buffers: pages mapped whole, a run of them in the low 16 TiB
    long enough for the queue, and everything apart. *)
Record statics_ok (needed v Hp Tp Sp : Z) : Prop := {
  sk_whole : pages_whole;
  sk_aligned : VIRTQ_BUF mod 4096 = 0;
  sk_frame : phys_of v mod 4096 = 0 /\ 0 <= phys_of v < 2 ^ 44;
  sk_run : 0 < needed <= 6 /\ six_page_run (Z.to_nat needed) VIRTQ_BUF = Some v;
  sk_hdr : linear REQ_HDR 16 Hp;
  sk_data : linear REQ_DATA 512 Tp;
  sk_status : linear REQ_STATUS 1 Sp;
  sk_range : 0 <= Hp < 2 ^ 64 /\ 0 <= Tp < 2 ^ 64 /\ 0 <= Sp < 2 ^ 64;
  sk_apart : (forall k n, In (k, n) [(Hp, 16); (Tp, 512); (Sp, 1)] -> phys_of v + needed * 4096 <= k \/ k + n <= phys_of v) /\
    (Hp + 16 <= Tp \/ Tp + 512 <= Hp) /\ (Hp + 16 <= Sp \/ Sp + 1 <= Hp) /\ (Tp + 512 <= Sp \/ Sp + 1 <= Tp)
}.

Lemma peek_zeros k x (v : Z) n a m : linear v (Z.of_nat n) a -> a <= x -> x + Z.of_nat k <= a + Z.of_nat n ->
  peek k x (vpoke (replicate n 0) v m) = replicate k 0.
Proof.
  intros Hl Hx Hk. rewrite (peek_ext _ _ (poke (replicate n 0) a m)).
  - replace x with (a + Z.of_nat (Z.to_nat (x - a))) by lia. rewrite peek_poke_part by (rewrite length_replicate; lia).
    rewrite drop_replicate, take_replicate. f_equal. lia.
  - intros y _. apply vpoke_poke. by rewrite length_replicate.
Qed.

Lemma le_zeros k : le_bytes (replicate k 0) = 0.
Proof. induction k as [|k IH]; [done|]. change (0 + 256 * le_bytes (replicate k 0) = 0). by rewrite IH. Qed.

Lemma try_init_run e v Hp Tp Sp (b : Bus D) :
  found_at D -> depth = 2 ^ e -> 2 <= e <= 15 -> statics_ok (vq_pages_needed depth) v Hp Tp Sp ->
  bytes_ok (pm b) -> disk_ok (blk_disk (dv b)) ->
  exists h b', blk_try_init b = (Ok (Some h), b') /\ blk_ok (h, b') /\ blk_disk (dv b') = blk_disk (dv b) /\ said b' = said b.
Proof.
  intros Hf Hdep He [Hw Hal [Hpa Hpr] [Hn Hrun] L1 L2 L3 Hr [Hap Hap2]] Hm Hd.
  destruct (queue_sizes _ _ Hdep He) as (Hqr & Hmod & Hub & Htot). assert (vq_total_bytes depth <= vq_pages_needed depth * 4096) as Hpages by (apply vq_pages_hold; lia).
  assert (0 < Z.to_nat (vq_pages_needed depth) <= 6)%nat as Hnn by lia.
  destruct (six_page_run_spec _ _ _ Hw Hal Hnn Hrun) as (Hva & Hlin & _). rewrite Z2Nat.id in Hlin by lia.
  set (P := vq_pages_needed depth) in *.
  destruct (find_run b Hf) as (b1 & a1 & E1 & A1). unfold blk_try_init. unfold bind at 1. rewrite E1. destruct Hf as [_ _ [Hb0 [Hb1 _]] _].
  unfold bind at 1. rewrite reg_run by (unfold VIRT_BLK_CAP_HI, VIRT_QUEUE_SELECT in *; lia).
  destruct (out_reg_run 2 VIRT_QUEUE_SELECT 0 b1) as (b2 & E2 & A2); [in_levels|]. unfold bind at 1, outw at 1. rewrite E2.
  unfold bind at 1. rewrite reg_run by (unfold VIRT_BLK_CAP_HI, VIRT_QUEUE_NUM in *; lia).
  unfold bind at 1, inw at 1, in_n at 1. rewrite in_queue_num by (by rewrite (af_regs _ _ _ A2)).
  assert (mkBus (pm b2) (dv b2) (said b2) = b2) as -> by (by destruct b2).
  rewrite (proj2 (Z.eqb_neq _ _)) by lia. unfold bind at 1, lift at 1, blk_pages. fold P.
  rewrite (proj2 (Z.ltb_ge _ _)) by lia. rewrite Hrun. unfold bind at 1, write_zeros at 1, copy_to at 1, modify at 1.
  set (zs := replicate (Z.to_nat (P * 4096)) 0). set (b3 := mkBus (vpoke zs v (pm b2)) (dv b2) (said b2)).
  destruct (handshake_run v b3 Hb1 Hpr) as (b' & E' & M' & D' & S' & Hl). rewrite E'.
  pose proof (after_trans _ _ _ _ _ A1 A2) as [C1 C2 _ C4].
  eexists _, b'. split; [reflexivity|]. split; [|by rewrite D', S'].
  assert (Q : linear v (vq_total_bytes depth) (phys_of v)) by (intros i Hi; apply Hlin; lia).
  assert (forall k x, phys_of v <= x -> x + Z.of_nat k <= phys_of v + vq_total_bytes depth -> pread k x (pm b') = 0) as Hz.
  { intros k x Hx1 Hx2. rewrite M'. unfold pread. cbn [b3 pm]. unfold zs. rewrite (peek_zeros _ _ _ _ (phys_of v)); [apply le_zeros| |lia|].
    - rewrite Z2Nat.id by lia. exact Hlin.
    - lia. }
  exists e, (phys_of v), Hp, Tp, Sp, 0. cbn [fst snd]. split; [by split|]. split; [|split; [|split; [lia|]]].
  - split; cbn [vq_base q_size]; [done|done|done|done|done|]. split; [|done]. intros k n Hk. destruct (Hap k n Hk); [left; lia|by right].
  - split; cbn [last_used_idx q_size io_base]; [done| | | |].
    + apply Hz; unfold avail_idx_at; lia.
    + apply Hz; unfold used_idx_at; rewrite used_at_base by lia; lia.
    + rewrite M'. cbn [b3 pm]. apply vpoke_ok; [by apply Forall_replicate|]. by rewrite C1.
    + by replace (phys_of v / 4096 * 4096) with (phys_of v) in Hl by zlia.
  - rewrite D'. cbn [b3 dv]. by rewrite C2.
Qed.
End init.
