(* ===== verification/VirtioNic.v ===== *)
(** * The network card driver ([kernel/src/drivers/virtio_net.rs])

    Both virtqueues, transmission and the one receive buffer. What the network
    stack uses of it is [net_send] and [net_recv] of the stack's model. *)

From S2P Require Import Prelude Phys Packets Virtio.

Definition VIRT_NET_MAC : Z := 0x14.
Definition VIRT_NET_STATUS : Z := 0x1A.
Definition RXQ : Z := 0.
Definition TXQ : Z := 1.

Definition HDR_SIZE : Z := 10.
Definition FRAME_SIZE : Z := 1514.
Definition MIN_FRAME : Z := 14.
Definition RX_SIZE : Z := HDR_SIZE + FRAME_SIZE.

Class NicStatics := { VIRTQ_TX_BUF : Z; VIRTQ_RX_BUF : Z; TX_HDR : Z; TX_BUF : Z; RX_BUF : Z }.

Record Nic := mkNic {
  nic_io : Z; tx_last_used : Z; rx_last_used : Z; tx_vq_base : Z; rx_vq_base : Z;
  nic_avail_idx_off : Z; nic_avail_ring_off : Z; nic_used_idx_off : Z; nic_q_size : Z
}.

Section driver.
Context {D : Type} `{PortIO D} `{AddressSpace} `{NicStatics}.

Definition find_virtio_net : IO (D := D) (option (Z * Z * Z)) := scan_slots 0x1000 pci_slots.

Definition zero_pages (v pages : Z) : IO (D := D) unit := copy_to v (replicate (Z.to_nat (pages * 4096)) 0).

(** Posts chain 0 of a queue and advances [avail.idx]. *)
Definition post_head (base ring_off avail_off q_mask : Z) : IO (D := D) unit :=
  let! avail_idx := q_read16 base avail_off in
  let slot := Z.land avail_idx q_mask in
  do! q_write16 base (ring_off + slot * 2) 0 in
  q_write16 base avail_off (as_u16 (avail_idx + 1)).

Definition post_rx (rx_base avail_ring_off avail_idx_off io_base : Z) : IO (D := D) unit :=
  let rx_phys := phys_of RX_BUF in
  do! write_desc rx_base 0 rx_phys RX_SIZE VRING_DESC_F_WRITE 0 in
  do! q_write16 rx_base avail_ring_off 0 in
  do! q_write16 rx_base avail_idx_off 1 in
  let! p := reg io_base VIRT_QUEUE_NOTIFY in
  outw p RXQ.

Definition nic_handshake (bus dev io_base rx_virt tx_virt q_size : Z) : IO (D := D) (option Nic) :=
  let! cmd := pci_read32 bus dev 0 0x04 in
  do! pci_write32 bus dev 0 0x04 (Z.lor cmd 0x0005) in
  let! st := reg io_base VIRT_DEVICE_STATUS in
  do! outb st 0 in
  do! outb st STATUS_ACK in
  do! outb st (Z.lor STATUS_ACK STATUS_DRIVER) in
  let! fr := reg io_base VIRT_DEVICE_FEATURES in
  let! _host_feat := inl fr in
  let! fw := reg io_base VIRT_DRIVER_FEATURES in
  do! outl fw 0 in
  let! sel := reg io_base VIRT_QUEUE_SELECT in
  let! pfn := reg io_base VIRT_QUEUE_PFN in
  do! outw sel RXQ in
  do! outl pfn (as_u32 (Z.shiftr (phys_of rx_virt) 12)) in
  do! outw sel TXQ in
  do! outl pfn (as_u32 (Z.shiftr (phys_of tx_virt) 12)) in
  do! outb st (Z.lor (Z.lor STATUS_ACK STATUS_DRIVER) STATUS_DRIVER_OK) in
  let! status := inb st in
  if negb (Z.land status STATUS_FAILED =? 0) then ret None else
  let avail_idx_off := vq_avail_idx_off q_size in
  let avail_ring_off := vq_avail_ring_off q_size in
  let used_idx_off := vq_used_idx_off q_size in
  do! post_rx rx_virt avail_ring_off avail_idx_off io_base in
  ret (Some (mkNic io_base 0 0 tx_virt rx_virt avail_idx_off avail_ring_off used_idx_off q_size)).

Definition nic_try_init : IO (D := D) (option Nic) :=
  let! found := find_virtio_net in
  match found with
  | None => ret None
  | Some (bus, dev, io_base) =>
    let! sel := reg io_base VIRT_QUEUE_SELECT in
    do! outw sel RXQ in
    let! num := reg io_base VIRT_QUEUE_NUM in
    let! q_size := inw num in
    if q_size =? 0 then ret None else
    let pages_needed := vq_pages_needed q_size in
    if 6 <? pages_needed then ret None else
    match find_contiguous_pages pages_needed VIRTQ_RX_BUF with
    | None => ret None
    | Some rx_virt =>
      match find_contiguous_pages pages_needed VIRTQ_TX_BUF with
      | None => ret None
      | Some tx_virt =>
        do! zero_pages rx_virt pages_needed in
        do! zero_pages tx_virt pages_needed in
        nic_handshake bus dev io_base rx_virt tx_virt q_size
      end
    end
  end.

(** The handle and the machine. *)
Definition NicSt : Type := Nic * Bus D.

Definition nic_bus {A} (m : IO (D := D) A) : M NicSt unit A := fun s => let '(r, b) := m s.2 in (r, (s.1, b)).

Definition set_tx_last_used (i : Z) : M NicSt unit unit := modify (fun s => let h := s.1 in
  (mkNic (nic_io h) i (rx_last_used h) (tx_vq_base h) (rx_vq_base h) (nic_avail_idx_off h) (nic_avail_ring_off h) (nic_used_idx_off h) (nic_q_size h), s.2)).
Definition set_rx_last_used (i : Z) : M NicSt unit unit := modify (fun s => let h := s.1 in
  (mkNic (nic_io h) (tx_last_used h) i (tx_vq_base h) (rx_vq_base h) (nic_avail_idx_off h) (nic_avail_ring_off h) (nic_used_idx_off h) (nic_q_size h), s.2)).

(** [wait_for_used] *)
Definition wait_for_used (base used_idx_off target : Z) : M NicSt unit unit :=
  let! done := nic_bus (await_used base used_idx_off target) in
  if negb done then fail tt else ret tt.

Definition submit_tx (h : Nic) (len : Z) : IO (D := D) unit :=
  let base := tx_vq_base h in
  let q_mask := as_u16 (nic_q_size h - 1) in
  let hdr_phys := phys_of TX_HDR in
  let buf_phys := phys_of TX_BUF in
  do! write_desc base 0 hdr_phys HDR_SIZE VRING_DESC_F_NEXT 1 in
  do! write_desc base 1 buf_phys len 0 0 in
  do! post_head base (nic_avail_ring_off h) (nic_avail_idx_off h) q_mask in
  let! p := reg (nic_io h) VIRT_QUEUE_NOTIFY in
  outw p TXQ.

Definition do_tx (len : Z) : M NicSt unit unit :=
  let! h := gets fst in
  do! nic_bus (submit_tx h len) in
  let target := as_u16 (tx_last_used h + 1) in
  do! wait_for_used (tx_vq_base h) (nic_used_idx_off h) target in
  set_tx_last_used target.

Definition nic_send (frame : list Z) : M NicSt unit Z :=
  let len := Z.of_nat (length frame) in
  if (len <? MIN_FRAME) || (FRAME_SIZE <? len) then fail tt else
  do! nic_bus (copy_to TX_BUF frame) in
  do! do_tx len in
  ret len.

(** Gives the receive buffer back to the device. *)
Definition repost_rx (h : Nic) : IO (D := D) unit :=
  let base := rx_vq_base h in
  let q_mask := as_u16 (nic_q_size h - 1) in
  let rx_phys := phys_of RX_BUF in
  do! write_desc base 0 rx_phys RX_SIZE VRING_DESC_F_WRITE 0 in
  do! post_head base (nic_avail_ring_off h) (nic_avail_idx_off h) q_mask in
  let! p := reg (nic_io h) VIRT_QUEUE_NOTIFY in
  outw p RXQ.

(** The bytes it copies to the start of the caller's buffer. *)
Definition do_rx : M NicSt unit (list Z) :=
  let! h := gets fst in
  let base := rx_vq_base h in
  let q_mask := as_u16 (nic_q_size h - 1) in
  let! ui := nic_bus (q_read16 base (nic_used_idx_off h)) in
  if ui =? rx_last_used h then ret [] else
  let slot := Z.land (rx_last_used h) q_mask in
  let! used_len := nic_bus (q_read32 base (vq_used_base (nic_q_size h) + 4 + slot * 8 + 4)) in
  let frame_len := Z.min (Z.max (used_len - HDR_SIZE) 0) FRAME_SIZE in
  let! frame := nic_bus (copy_from (RX_BUF + HDR_SIZE) (Z.to_nat frame_len)) in
  do! set_rx_last_used (as_u16 (rx_last_used h + 1)) in
  do! nic_bus (repost_rx h) in
  ret frame.

(** [buf_len]: the length of the caller's buffer. *)
Definition nic_recv (buf_len : Z) : M NicSt unit (list Z) := if buf_len <? FRAME_SIZE then fail tt else do_rx.

Definition get_mac : M NicSt unit (list Z) :=
  let! h := gets fst in
  (fix bytes (n : nat) (i : Z) : M NicSt unit (list Z) :=
     match n with
     | O => ret []
     | S n' =>
       let! b := nic_bus (let! p := reg (nic_io h) (VIRT_NET_MAC + i) in inb p) in
       let! bs := bytes n' (i + 1) in
       ret (b :: bs)
     end) 6%nat 0.

Definition is_link_up : M NicSt unit bool :=
  let! h := gets fst in
  let! v := nic_bus (let! p := reg (nic_io h) VIRT_NET_STATUS in inw p) in
  ret (negb (Z.land v 1 =? 0)).
End driver.
