(* ===== verification/VirtioNicSpec.v ===== *)
(** * The network driver moves frames

    A card that serves both queues as the virtio specification says, and what
    sending and receiving through the driver do over it. *)

From S2P Require Import Prelude Phys Paging Packets Virtio VirtioNic.

(** ** The device *)

(** What the card may do to the receive queue at any time: nothing, or store
    the next frame behind a 10-byte header in the buffer posted as entry [n]. *)
Inductive received (Q q n : Z) (m : Phys) : Phys -> Z -> list (list Z) -> Prop :=
| received_none : received Q q n m m n []
| received_frame head d hdr frame :
    pread 2 (avail_idx_at Q q) m = as_u16 (n + 1) -> head = pread 2 (avail_entry_at Q q n) m -> d = desc_at Q head m ->
    writable d = true -> length hdr = 10%nat -> Forall is_u8 hdr -> Forall is_u8 frame -> frame <> [] ->
    10 + Z.of_nat (length frame) <= d_len d ->
    received Q q n m (return_chain Q q n head (10 + Z.of_nat (length frame)) (poke (hdr ++ frame) (d_addr d) m)) (n + 1) [frame].

(** A card with its queues of [q] entries at [QT] and [QR], of which it has
    served [nt] and [nr] entries: it transmits a chain of a header and a frame
    within the time the driver waits. *)
Class NicDevice (D : Type) `{PortIO D} := {
  nic_sent : D -> list (list Z);
  nic_stored : D -> list (list Z);
  nic_live : Z -> Z -> Z -> Z -> Z -> Z -> D -> Prop;
  nic_transmits io QT QR q nt nr d m head h f :
    nic_live io QT QR q nt nr d -> bytes_ok m -> pread 2 (avail_idx_at QT q) m = as_u16 (nt + 1) ->
    head = pread 2 (avail_entry_at QT q nt) m -> chain 4 QT head m = Some [h; f] ->
    writable h = false -> writable f = false -> d_len h = 10 ->
    exists k d' m1 nr' fs, Z.of_nat k < 100000000 /\ received QR q nr m m1 nr' fs /\ nic_stored d' = nic_stored d ++ fs /\
      turns k (port_out 2 (io + VIRT_QUEUE_NOTIFY) TXQ m d) = (return_chain QT q nt head 0 m1, d') /\
      nic_live io QT QR q (nt + 1) nr' d' /\ nic_sent d' = nic_sent d ++ [peek (Z.to_nat (d_len f)) (d_addr f) m] /\
      forall j, (j < k)%nat ->
        pread 2 (used_idx_at QT q) (turns j (port_out 2 (io + VIRT_QUEUE_NOTIFY) TXQ m d)).1 = pread 2 (used_idx_at QT q) m;
  nic_refilled io QT QR q nt nr d m :
    nic_live io QT QR q nt nr d -> bytes_ok m ->
    exists m1 nr' d' fs, port_out 2 (io + VIRT_QUEUE_NOTIFY) RXQ m d = (m1, d') /\ received QR q nr m m1 nr' fs /\
      nic_stored d' = nic_stored d ++ fs /\
      nic_live io QT QR q nt nr' d' /\ nic_sent d' = nic_sent d
}.

(** ** Memory that is the same on a range *)

Definition same_on (a n : Z) (m m' : Phys) : Prop :=
  forall k x, a <= x -> x + Z.of_nat k <= a + n -> peek k x m' = peek k x m.

Lemma same_on_refl a n m : same_on a n m m.
Proof. done. Qed.

Lemma same_on_trans a n m1 m2 m3 : same_on a n m1 m2 -> same_on a n m2 m3 -> same_on a n m1 m3.
Proof. intros H1 H2 k x Hx Hk. by rewrite H2, H1. Qed.

Lemma same_on_poke a n bs b m : a + n <= b \/ b + Z.of_nat (length bs) <= a -> same_on a n m (poke bs b m).
Proof. intros Hd k x Hx Hk. apply peek_poke_apart. ranges. Qed.

Lemma same_on_pwrite a n w b v m : a + n <= b \/ b + Z.of_nat w <= a -> same_on a n m (pwrite w b v m).
Proof. intros Hd. apply same_on_poke. by rewrite to_le_bytes_length. Qed.

Lemma same_on_put_desc a n Q i d m : a + n <= Q + 16 * i \/ Q + 16 * i + 16 <= a -> same_on a n m (put_desc Q i d m).
Proof. intros Hd k x Hx Hk. apply peek_put_desc. ranges. Qed.

Lemma same_on_pread a n m m' k x : same_on a n m m' -> a <= x -> x + Z.of_nat k <= a + n -> pread k x m' = pread k x m.
Proof. intros Hs Hx Hk. unfold pread. by rewrite Hs. Qed.

Lemma same_on_desc Q n i m m' : same_on Q n m m' -> 0 <= i -> 16 * i + 16 <= n -> desc_at Q i m' = desc_at Q i m.
Proof. intros Hs Hi Hn. unfold desc_at. by rewrite !(same_on_pread _ _ _ _ _ _ Hs) by lia. Qed.

(** ** The receive side *)

Inductive Rx := Posted | Filled (frame : list Z).

Definition filled (rx : Rx) : Z := match rx with Posted => 0 | Filled _ => 1 end.
Definition pending (rx : Rx) : list (list Z) := match rx with Posted => [] | Filled f => [f] end.

Section receive.
(** The queue of [q] entries at [Q], whose used ring starts at [Q + U], and the
    buffer at [R]. *)
Context (Q q U R : Z).

Record room : Prop := {
  rm_q : 4 <= q;
  rm_pow : exists e, q = 2 ^ e /\ 2 <= e <= 15;
  rm_used : U = vq_used_base q /\ 18 * q + 6 <= U /\ vq_total_bytes q = U + 8 * q + 6;
  rm_apart : Q + U + 8 * q + 6 <= R \/ R + 1524 <= Q;
  rm_range : 0 <= R < 2 ^ 64
}.
Context (HR : room).

(** [n] frames were taken by the driver; the buffer is with the device, or
    holds the next frame. *)
Record rx_inv (n : Z) (rx : Rx) (m : Phys) : Prop := {
  rx_avail : pread 2 (avail_idx_at Q q) m = as_u16 (n + 1);
  rx_used : pread 2 (used_idx_at Q q) m = as_u16 (n + filled rx);
  rx_desc : desc_at Q 0 m = mkDesc R 1524 2 0;
  rx_entry : pread 2 (avail_entry_at Q q n) m = 0;
  rx_frame : match rx with
             | Posted => True
             | Filled f => (0 < length f <= 1514)%nat /\ Forall is_u8 f /\
                 pread 4 (used_entry_at Q q n + 4) m = 10 + Z.of_nat (length f) /\ peek (length f) (R + 10) m = f
             end
}.

Lemma ring_places n : used_idx_at Q q = Q + U + 2 /\ used_entry_at Q q n = Q + U + 4 + 8 * (n mod q) /\ 0 <= n mod q < q.
Proof.
  destruct HR as [Hq _ (-> & _ & _) _ _]. unfold used_idx_at, used_entry_at. rewrite used_at_base by lia.
  split; [lia|]. split; [lia|]. apply Z.mod_pos_bound. lia.
Qed.

Lemma rx_inv_same n rx m m' :
  rx_inv n rx m -> same_on Q (U + 8 * q + 6) m m' -> same_on R 1524 m m' -> rx_inv n rx m'.
Proof.
  intros [H1 H2 H3 H4 H5] S1 S2. destruct (ring_places n) as (E1 & E2 & E3). destruct HR as [Hq _ (_ & Hu & _) _ _].
  split.
  - rewrite (same_on_pread _ _ _ _ _ _ S1); [done|unfold avail_idx_at; lia..].
  - rewrite (same_on_pread _ _ _ _ _ _ S1); [done|lia..].
  - rewrite (same_on_desc _ _ _ _ _ S1); [done|lia..].
  - rewrite (same_on_pread _ _ _ _ _ _ S1); [done|unfold avail_entry_at; lia..].
  - destruct rx as [|f]; [done|]. destruct H5 as (F1 & F2 & F3 & F4). split; [done|]. split; [done|].
    rewrite (same_on_pread _ _ _ _ _ _ S1), S2; [done|lia..].
Qed.

(** Whatever the device does, the receive side stays in order. *)
Lemma rx_received n rx m m1 nr fs :
  0 <= n -> rx_inv n rx m -> received Q q (n + filled rx) m m1 nr fs ->
  exists rx', nr = n + filled rx' /\ rx_inv n rx' m1 /\ pending rx' = pending rx ++ fs /\ (bytes_ok m -> bytes_ok m1) /\
    forall a l, (a + l <= Q + U \/ Q + U + 8 * q + 6 <= a) -> (a + l <= R \/ R + 1524 <= a) -> same_on a l m m1.
Proof.
  intros Hn Hi Hr. inversion Hr as [Hm Hnr Hfs|head d hdr frame Ha Hh Hd Hw Hl Hu1 Hu2 Hne Hlen Hm Hnr Hfs].
  { exists rx. split; [done|]. split; [by subst|]. split; [by rewrite app_nil_r|]. split; [by subst|]. intros a l _ _. apply same_on_refl. }
  destruct Hi as [H1 H2 H3 H4 H5]. destruct rx as [|f]; cbn [filled] in *.
  2:{ exfalso. rewrite H1 in Ha. unfold as_u16 in Ha. zlia. }
  rewrite Z.add_0_r in *. rewrite H4 in Hh. subst head. rewrite H3 in Hd. subst d. cbn [d_len d_addr] in *.
  destruct (ring_places n) as (E1 & E2 & E3). destruct HR as [Hq _ (_ & Hub & _) Hap Hrg].
  assert (0 < length frame)%nat as Hpos by (destruct frame; [done|cbn; lia]).
  assert (length (hdr ++ frame) = 10 + length frame)%nat as Hlen2 by (rewrite length_app; lia).
  set (m2 := poke (hdr ++ frame) R m). exists (Filled frame). cbn [filled]. split; [lia|].
  unfold return_chain. cbn zeta. rewrite E1, E2. split; [|split; [done|split]].
  - split; cbn [filled].
    + rewrite !pread_apart by (unfold avail_idx_at; ranges). unfold pread, m2. rewrite peek_poke_apart; [exact H1|].
      unfold avail_idx_at. ranges.
    + rewrite E1. apply pread_pwrite_small. unfold as_u16. cbn. zlia.
    + rewrite !desc_at_pwrite by ranges. unfold m2. rewrite desc_at_poke by ranges. done.
    + rewrite !pread_apart by (unfold avail_entry_at; ranges). unfold pread, m2. rewrite peek_poke_apart; [exact H4|].
      unfold avail_entry_at. ranges.
    + split; [lia|]. split; [done|]. rewrite E2. split.
      * rewrite pread_apart by ranges. apply pread_pwrite_small. cbn. lia.
      * rewrite !peek_pwrite_apart by ranges. unfold m2. change 10 with (Z.of_nat 10). rewrite peek_poke_part by lia.
        rewrite <- Hl, drop_app_length. apply firstn_all.
  - intros Hm'. apply pwrite_ok, pwrite_ok, pwrite_ok, poke_ok; [by apply Forall_app|done].
  - intros a l H6 H7. do 3 (eapply same_on_trans; [|apply same_on_pwrite; lia]). apply same_on_poke. lia.
Qed.
End receive.

(** ** The driver *)

Section driver.
Context {D : Type} {PIO : PortIO D} {ND : NicDevice D} {AS : AddressSpace} {NS : NicStatics}.

Definition clear (a n b k : Z) : Prop := a + n <= b \/ b + k <= a.

(** The queues at [QT] and [QR], the header, the frame buffer and the receive
    buffer at [TH], [TB] and [RB]. *)
Record places (h : Nic) (QT QR TH TB RB : Z) : Prop := {
  ps_io : 0 <= nic_io h /\ nic_io h + 0x1A < 65536;
  ps_size : exists e, nic_q_size h = 2 ^ e /\ 2 <= e <= 15;
  ps_offs : nic_avail_idx_off h = vq_avail_idx_off (nic_q_size h) /\ nic_avail_ring_off h = vq_avail_ring_off (nic_q_size h) /\
    nic_used_idx_off h = vq_used_idx_off (nic_q_size h);
  ps_tx : linear (tx_vq_base h) (vq_total_bytes (nic_q_size h)) QT;
  ps_rx : linear (rx_vq_base h) (vq_total_bytes (nic_q_size h)) QR;
  ps_hdr : linear TX_HDR 10 TH;
  ps_frame : linear TX_BUF 1514 TB;
  ps_buf : linear RX_BUF 1524 RB;
  ps_range : 0 <= TH < 2 ^ 64 /\ 0 <= TB < 2 ^ 64 /\ 0 <= RB < 2 ^ 64;
  ps_clear : let T := vq_total_bytes (nic_q_size h) in
    clear QT T QR T /\ clear QT T TH 10 /\ clear QT T TB 1514 /\ clear QT T RB 1524 /\
    clear QR T TB 1514 /\ clear QR T RB 1524 /\ clear TB 1514 RB 1524
}.

(** [nt] frames were sent and [na] taken, those in [taken] first to last. *)
Record nic_inv (h : Nic) (QT QR TH TB RB nt na : Z) (taken : list (list Z)) (rx : Rx) (b : Bus D) : Prop := {
  ni_counts : 0 <= nt /\ 0 <= na /\ tx_last_used h = as_u16 nt /\ rx_last_used h = as_u16 na;
  ni_tx : pread 2 (avail_idx_at QT (nic_q_size h)) (pm b) = as_u16 nt /\ pread 2 (used_idx_at QT (nic_q_size h)) (pm b) = as_u16 nt;
  ni_rx : rx_inv QR (nic_q_size h) RB na rx (pm b);
  ni_bytes : bytes_ok (pm b);
  ni_live : nic_live (nic_io h) QT QR (nic_q_size h) nt (na + filled rx) (dv b);
  ni_stored : nic_stored (dv b) = taken ++ pending rx
}.

Definition nic_ok (taken : list (list Z)) (rx : Rx) (s : NicSt (D := D)) : Prop :=
  exists QT QR TH TB RB nt na, places s.1 QT QR TH TB RB /\ nic_inv s.1 QT QR TH TB RB nt na taken rx s.2.

Lemma places_room h QT QR TH TB RB : places h QT QR TH TB RB ->
  let U := vq_used_base (nic_q_size h) in
  room QR (nic_q_size h) U RB /\ vq_total_bytes (nic_q_size h) = U + 8 * nic_q_size h + 6.
Proof.
  intros [Hio (e & Hq & He) Ho L1 L2 L3 L4 L5 Hr Hc]. cbn zeta in *. destruct (queue_sizes _ _ Hq He) as (H1 & H2 & H3 & H4).
  split; [|done]. split; [lia|by exists e|lia| |lia]. unfold clear in Hc. lia.
Qed.

(** Posting chain 0 as entry [n]. *)
Definition posted (Q q n : Z) (m : Phys) : Phys := pwrite 2 (avail_idx_at Q q) (as_u16 (n + 1)) (pwrite 2 (avail_entry_at Q q n) 0 m).

Lemma post_head_run base Q q e n (b : Bus D) :
  q = 2 ^ e -> 2 <= e <= 15 -> linear base (vq_total_bytes q) Q -> pread 2 (avail_idx_at Q q) (pm b) = as_u16 n ->
  post_head base (vq_avail_ring_off q) (vq_avail_idx_off q) (as_u16 (q - 1)) b = (Ok tt, mkBus (posted Q q n (pm b)) (dv b) (said b)).
Proof.
  intros Hq He Hl Ha. destruct (queue_sizes _ _ Hq He) as (H1 & H2 & H3 & H4). specialize (H2 n).
  unfold post_head, bind, q_read16, q_write16, gets, modify. cbn [pm dv said].
  rewrite !(linear_at base _ Q (vq_avail_idx_off q) Hl) by (unfold vq_avail_idx_off; lia).
  replace (Q + vq_avail_idx_off q) with (avail_idx_at Q q) by (unfold avail_idx_at, vq_avail_idx_off; lia). rewrite Ha.
  replace (Z.land (as_u16 n) (as_u16 (q - 1))) with (n mod q) by (rewrite Hq, mask_mod by lia; done).
  rewrite !(linear_at base _ Q (vq_avail_ring_off q + n mod q * 2) Hl) by (unfold vq_avail_ring_off; lia).
  replace (Q + (vq_avail_ring_off q + n mod q * 2)) with (avail_entry_at Q q n) by (unfold avail_entry_at, vq_avail_ring_off; lia).
  replace (as_u16 (as_u16 n + 1)) with (as_u16 (n + 1)) by (unfold as_u16; by rewrite Zplus_mod_idemp_l). done.
Qed.

Lemma posted_reads Q q e n m : q = 2 ^ e -> 2 <= e <= 15 ->
  pread 2 (avail_idx_at Q q) (posted Q q n m) = as_u16 (n + 1) /\ pread 2 (avail_entry_at Q q n) (posted Q q n m) = 0 /\
  (forall i, 0 <= i < q -> desc_at Q i (posted Q q n m) = desc_at Q i m) /\
  (forall a l, (a + l <= Q + 16 * q \/ Q + 18 * q + 6 <= a) -> same_on a l m (posted Q q n m)) /\ (bytes_ok m -> bytes_ok (posted Q q n m)).
Proof.
  intros Hq He. destruct (queue_sizes _ _ Hq He) as (H1 & H2 & H3 & H4). specialize (H2 n). unfold posted.
  split; [apply pread_pwrite_small; unfold as_u16; cbn; zlia|].
  split; [rewrite pread_apart by (unfold avail_idx_at, avail_entry_at; ranges); by apply pread_pwrite_small|].
  split; [intros i Hi; by rewrite !desc_at_pwrite by (unfold avail_idx_at, avail_entry_at; ranges)|].
  split; [|auto with wasmos]. intros a l Hal.
  eapply same_on_trans; apply same_on_pwrite; unfold avail_idx_at, avail_entry_at; lia.
Qed.

(** *** Sending *)

Definition tx_memory (QT q nt TH TB len : Z) (m : Phys) : Phys :=
  posted QT q nt (put_desc QT 1 (mkDesc TB len 0 0) (put_desc QT 0 (mkDesc TH 10 1 1) m)).

Lemma submit_tx_run h QT QR TH TB RB nt len (b : Bus D) :
  places h QT QR TH TB RB -> pread 2 (avail_idx_at QT (nic_q_size h)) (pm b) = as_u16 nt ->
  submit_tx h len b =
  (Ok tt, let '(m, d) := port_out 2 (nic_io h + VIRT_QUEUE_NOTIFY) TXQ (tx_memory QT (nic_q_size h) nt TH TB len (pm b)) (dv b)
          in mkBus m d (said b)).
Proof.
  intros [Hio (e & Hq & He) (O1 & O2 & O3) L1 L2 L3 L4 L5 Hr Hc] Ha. destruct (queue_sizes _ _ Hq He) as (H1 & H2 & H3 & H4).
  pose proof (L3 0 ltac:(lia)) as P3. pose proof (L4 0 ltac:(lia)) as P4. rewrite !Z.add_0_r in P3, P4.
  unfold submit_tx. cbn zeta. rewrite P3, P4. unfold bind at 1. rewrite (write_desc_spec _ 0 _ _ _ _ _ QT b L1) by lia.
  unfold bind at 1. rewrite (write_desc_spec _ 1 _ _ _ _ _ QT _ L1) by lia. cbn [pm dv said].
  unfold bind at 1. rewrite O1, O2, (post_head_run _ QT _ e nt _ Hq He L1).
  2:{ cbn [pm]. rewrite !pread_put_desc by (unfold avail_idx_at; ranges). exact Ha. }
  cbn [pm dv said]. unfold bind at 1, reg at 1. rewrite (proj2 (Z.ltb_lt _ _)) by (unfold VIRT_QUEUE_NOTIFY; lia). unfold ret at 1, outw, out_n.
  cbn [pm dv said]. change VRING_DESC_F_NEXT with 1. unfold HDR_SIZE.
  fold (tx_memory QT (nic_q_size h) nt TH TB len (pm b)). by destruct (port_out _ _ _ _ _).
Qed.

Lemma tx_memory_reads QT q e nt TH TB len m :
  q = 2 ^ e -> 2 <= e <= 15 -> 0 <= len < 2 ^ 32 -> 0 <= TH < 2 ^ 64 -> 0 <= TB < 2 ^ 64 ->
  let mt := tx_memory QT q nt TH TB len m in
  pread 2 (avail_idx_at QT q) mt = as_u16 (nt + 1) /\ pread 2 (avail_entry_at QT q nt) mt = 0 /\
  chain 4 QT 0 mt = Some [mkDesc TH 10 1 1; mkDesc TB len 0 0] /\
  (forall a l, (a + l <= QT \/ QT + 18 * q + 6 <= a) -> same_on a l m mt) /\ (bytes_ok m -> bytes_ok mt).
Proof.
  intros Hq He Hl Hh Hb. destruct (queue_sizes _ _ Hq He) as (H1 & _). unfold tx_memory.
  destruct (posted_reads QT q e nt (put_desc QT 1 (mkDesc TB len 0 0) (put_desc QT 0 (mkDesc TH 10 1 1) m)) Hq He) as (P1 & P2 & P3 & P4 & P5).
  split; [done|]. split; [done|]. split.
  - cbn [chain]. rewrite !P3 by lia. rewrite (put_desc_other QT 1 0) by done. rewrite put_desc_same by (unfold desc_ok; cbn; lia).
    cbn [d_flags d_next]. change (Z.testbit 1 0) with true. cbn iota. rewrite P3 by lia. by rewrite put_desc_same by (unfold desc_ok; cbn; lia).
  - split; [|intros Hm; by apply P5, put_desc_bytes, put_desc_bytes]. intros a l Hal.
    eapply same_on_trans; [|apply P4; lia]. eapply same_on_trans; apply same_on_put_desc; lia.
Qed.

(** The device returns a chain: only its used ring changes. *)
Lemma return_chain_same Q q e n head w m : q = 2 ^ e -> 2 <= e <= 15 ->
  let U := vq_used_base q in
  (forall a l, (a + l <= Q + U \/ Q + U + 8 * q + 6 <= a) -> same_on a l m (return_chain Q q n head w m)) /\
  pread 2 (used_idx_at Q q) (return_chain Q q n head w m) = as_u16 (n + 1) /\ (bytes_ok m -> bytes_ok (return_chain Q q n head w m)).
Proof.
  intros Hq He. destruct (queue_sizes _ _ Hq He) as (H1 & H2 & H3 & H4). specialize (H2 n). cbn zeta. unfold return_chain. cbn zeta.
  unfold used_idx_at, used_entry_at. rewrite used_at_base by lia. split; [|split].
  - intros a l Hal. do 3 (eapply same_on_trans; [|apply same_on_pwrite; lia]). apply same_on_refl.
  - apply pread_pwrite_small. unfold as_u16. cbn. zlia.
  - auto with wasmos.
Qed.

Definition sent_handle (h : Nic) (nt : Z) : Nic :=
  mkNic (nic_io h) (as_u16 (nt + 1)) (rx_last_used h) (tx_vq_base h) (rx_vq_base h) (nic_avail_idx_off h) (nic_avail_ring_off h) (nic_used_idx_off h) (nic_q_size h).

Lemma do_tx_run h QT QR TH TB RB nt na taken rx len (b : Bus D) :
  places h QT QR TH TB RB -> nic_inv h QT QR TH TB RB nt na taken rx b -> 0 <= len <= 1514 ->
  exists rx' b', do_tx len (h, b) = (Ok tt, (sent_handle h nt, b')) /\
    nic_inv (sent_handle h nt) QT QR TH TB RB (nt + 1) na taken rx' b' /\
    nic_sent (dv b') = nic_sent (dv b) ++ [peek (Z.to_nat len) TB (pm b)].
Proof.
  intros Hpl [(Hnt & Hna & Htl & Hrl) (Ht1 & Ht2) Hrx Hm Hlive Hst] Hlen.
  destruct (places_room _ _ _ _ _ _ Hpl) as [HR Htot]. cbn zeta in *. set (U := vq_used_base (nic_q_size h)) in *.
  pose proof Hpl as [Hio (e & Hq & He) (O1 & O2 & O3) L1 L2 L3 L4 L5 Hr Hc]. destruct (queue_sizes _ _ Hq He) as (Q1 & Q2 & Q3 & _). fold U in Q3.
  unfold clear in Hc. cbn zeta in Hc. rewrite Htot in Hc.
  destruct (tx_memory_reads QT _ e nt TH TB len (pm b) Hq He) as (M1 & M2 & M3 & M4 & M5); [lia..|].
  set (mt := tx_memory QT (nic_q_size h) nt TH TB len (pm b)) in *.
  destruct (nic_transmits _ _ _ _ _ _ _ mt 0 _ _ Hlive (M5 Hm) M1 (eq_sym M2) M3 eq_refl eq_refl eq_refl)
    as (k & d' & m1 & nr' & fs & Hk & Hrec & Hstored & Hturn & Hlive' & Hsent & Hwait).
  assert (rx_inv QR (nic_q_size h) RB na rx mt) as Hrx1.
  { apply (rx_inv_same QR _ U RB HR na rx (pm b)); [done|apply M4; lia|apply M4; lia]. }
  destruct (rx_received QR _ U RB HR na rx mt m1 nr' fs Hna Hrx1 Hrec) as (rx' & -> & Hrx' & Hor & Hb1 & Hsame).
  destruct (return_chain_same QT _ e nt 0 0 m1 Hq He) as (S1 & S2 & S3). fold U in S1. cbn zeta in S1.
  set (m' := return_chain QT (nic_q_size h) nt 0 0 m1) in *.
  exists rx', (mkBus m' d' (said b)). split; [|split].
  - unfold do_tx. unfold bind at 1, gets at 1. cbn [fst]. unfold bind at 1, nic_bus at 1. cbn [snd fst].
    rewrite (submit_tx_run h QT QR TH TB RB nt len b Hpl Ht1). fold mt.
    destruct (port_out 2 (nic_io h + VIRT_QUEUE_NOTIFY) TXQ mt (dv b)) as [mo do_] eqn:Eo.
    unfold bind at 1, wait_for_used at 1. unfold bind at 1, nic_bus at 1. cbn [fst snd].
    assert (phys_of (tx_vq_base h + nic_used_idx_off h) = used_idx_at QT (nic_q_size h)) as Ha.
    { rewrite O3, L1 by (unfold vq_used_idx_off; fold U; lia). unfold used_idx_at, vq_used_idx_off. rewrite used_at_base by lia. lia. }
    assert (as_u16 (tx_last_used h + 1) = as_u16 (nt + 1)) as Etgt by (rewrite Htl; unfold as_u16; by rewrite Zplus_mod_idemp_l).
    rewrite Etgt, (await_used_spec _ _ _ _ _ k Ha Hk); cbn [pm dv said].
    2:{ intros j Hj. rewrite Hwait by done. rewrite (same_on_pread _ _ _ _ _ _ (M4 (used_idx_at QT (nic_q_size h)) 2 ltac:(
          unfold used_idx_at; rewrite used_at_base by lia; fold U; lia))) by lia. rewrite Ht2. unfold as_u16. zlia. }
    2:{ by rewrite Hturn. }
    rewrite Hturn. done.
  - split; cbn [nic_q_size sent_handle nic_io tx_last_used rx_last_used pm dv].
    + split; [lia|]. split; [done|]. by split.
    + split; [|exact S2].
      rewrite (same_on_pread _ _ _ _ _ _ (S1 (avail_idx_at QT (nic_q_size h)) 2 ltac:(unfold avail_idx_at; lia))) by lia.
      rewrite (same_on_pread _ _ _ _ _ _ (Hsame (avail_idx_at QT (nic_q_size h)) 2 ltac:(unfold avail_idx_at; lia) ltac:(unfold avail_idx_at; lia))) by lia.
      exact M1.
    + apply (rx_inv_same QR _ U RB HR na rx' m1); [done|apply S1; lia|apply S1; lia].
    + by apply S3, Hb1, M5.
    + exact Hlive'.
    + by rewrite Hstored, Hst, Hor, app_assoc.
  - cbn [dv]. rewrite Hsent. cbn [d_len d_addr]. do 2 f_equal. apply (M4 TB 1514); lia.
Qed.

Lemma sent_places h QT QR TH TB RB nt : places h QT QR TH TB RB -> places (sent_handle h nt) QT QR TH TB RB.
Proof. intros [H1 H2 H3 H4 H5 H6 H7 H8 H9 H10]. by split. Qed.

Lemma nic_send_run frame taken rx (s : NicSt (D := D)) :
  nic_ok taken rx s -> 14 <= Z.of_nat (length frame) <= 1514 -> Forall is_u8 frame ->
  exists rx' s', nic_send frame s = (Ok (Z.of_nat (length frame)), s') /\ nic_ok taken rx' s' /\
    nic_sent (dv s'.2) = nic_sent (dv s.2) ++ [frame].
Proof.
  intros (QT & QR & TH & TB & RB & nt & na & Hpl & Hi) Hlen Hu. destruct s as [h b]. cbn [fst snd] in *.
  destruct (places_room _ _ _ _ _ _ Hpl) as [HR Htot]. cbn zeta in *. set (U := vq_used_base (nic_q_size h)) in *.
  pose proof Hpl as [Hio (e & Hq & He) _ _ _ _ L4 _ Hr Hc]. destruct (queue_sizes _ _ Hq He) as (Q1 & Q2 & Q3 & _). fold U in Q3.
  unfold clear in Hc. cbn zeta in Hc. rewrite Htot in Hc.
  set (b1 := mkBus (vpoke frame TX_BUF (pm b)) (dv b) (said b)).
  assert (forall k x, peek k x (pm b1) = peek k x (poke frame TB (pm b))) as Hpoke.
  { intros k x. apply peek_ext. intros y _. apply vpoke_poke. intros i Hi'. apply L4. lia. }
  assert (forall a l, clear a l TB 1514 -> same_on a l (pm b) (pm b1)) as Hsame.
  { intros a l Hcl k x Hx Hk. rewrite Hpoke. apply peek_poke_apart. unfold clear in Hcl. ranges. }
  destruct Hi as [N1 (T1 & T2) N3 N4 N5 N6].
  assert (nic_inv h QT QR TH TB RB nt na taken rx b1) as Hi1.
  { split; cbn [pm dv b1]; [done| | |by apply vpoke_ok|done|done].
    - assert (same_on QT (U + 8 * nic_q_size h + 6) (pm b) (pm b1)) as S by (apply Hsame; unfold clear; lia).
      cbn [pm b1] in S. split; (rewrite (same_on_pread _ _ _ _ _ _ S); [done|..]); unfold avail_idx_at, used_idx_at; rewrite ?used_at_base by lia; fold U; lia.
    - apply (rx_inv_same QR _ U RB HR na rx (pm b)); [done| |]; apply Hsame; unfold clear; lia. }
  destruct (do_tx_run h QT QR TH TB RB nt na taken rx (Z.of_nat (length frame)) b1 Hpl Hi1) as (rx' & b' & E & Hi' & Hs); [lia|].
  exists rx', (sent_handle h nt, b'). split; [|split].
  - unfold nic_send. cbn zeta. rewrite (proj2 (Z.ltb_ge _ _)), (proj2 (Z.ltb_ge _ _)) by (unfold MIN_FRAME, FRAME_SIZE; lia). cbn [orb].
    unfold bind at 1, nic_bus at 1, copy_to at 1, modify at 1. cbn [fst snd]. fold b1. unfold bind at 1. rewrite E. done.
  - exists QT, QR, TH, TB, RB, (nt + 1), na. by split; [apply sent_places|].
  - cbn [snd]. rewrite Hs, Nat2Z.id, Hpoke. by rewrite peek_poke.
Qed.

(** *** Receiving *)

Definition taken_handle (h : Nic) (na : Z) : Nic :=
  mkNic (nic_io h) (tx_last_used h) (as_u16 (na + 1)) (tx_vq_base h) (rx_vq_base h) (nic_avail_idx_off h) (nic_avail_ring_off h) (nic_used_idx_off h) (nic_q_size h).

Lemma repost_rx_run h QT QR TH TB RB na (b : Bus D) :
  places h QT QR TH TB RB -> pread 2 (avail_idx_at QR (nic_q_size h)) (pm b) = as_u16 (na + 1) ->
  repost_rx h b =
  (Ok tt, let '(m, d) := port_out 2 (nic_io h + VIRT_QUEUE_NOTIFY) RXQ
            (posted QR (nic_q_size h) (na + 1) (put_desc QR 0 (mkDesc RB 1524 2 0) (pm b))) (dv b)
          in mkBus m d (said b)).
Proof.
  intros [Hio (e & Hq & He) (O1 & O2 & O3) L1 L2 L3 L4 L5 Hr Hc] Ha. destruct (queue_sizes _ _ Hq He) as (H1 & H2 & H3 & H4).
  pose proof (L5 0 ltac:(lia)) as P5. rewrite !Z.add_0_r in P5.
  unfold repost_rx. cbn zeta. rewrite P5. unfold bind at 1. rewrite (write_desc_spec _ 0 _ _ _ _ _ QR b L2) by lia. cbn [pm dv said].
  unfold bind at 1. rewrite O1, O2, (post_head_run _ QR _ e (na + 1) _ Hq He L2).
  2:{ cbn [pm]. rewrite !pread_put_desc by (unfold avail_idx_at; ranges). exact Ha. }
  cbn [pm dv said]. unfold bind at 1, reg at 1. rewrite (proj2 (Z.ltb_lt _ _)) by (unfold VIRT_QUEUE_NOTIFY; lia). unfold ret at 1, outw, out_n.
  cbn [pm dv said]. change RX_SIZE with 1524. change VRING_DESC_F_WRITE with 2. by destruct (port_out _ _ _ _ _).
Qed.

Lemma nic_recv_run taken rx buf_len (s : NicSt (D := D)) :
  nic_ok taken rx s -> 1514 <= buf_len ->
  exists rx' s', nic_recv buf_len s = (Ok (match rx with Posted => [] | Filled f => f end), s') /\ nic_ok (taken ++ pending rx) rx' s' /\
    nic_sent (dv s'.2) = nic_sent (dv s.2) /\ (rx = Posted -> rx' = Posted /\ s' = s).
Proof.
  intros (QT & QR & TH & TB & RB & nt & na & Hpl & Hi) Hbuf. destruct s as [h b]. cbn [fst snd] in *.
  destruct (places_room _ _ _ _ _ _ Hpl) as [HR Htot]. cbn zeta in *. set (U := vq_used_base (nic_q_size h)) in *.
  pose proof Hpl as [Hio (e & Hq & He) (O1 & O2 & O3) _ L2 _ _ L5 Hr Hc]. destruct (queue_sizes _ _ Hq He) as (Q1 & Q2 & Q3 & _). fold U in Q3.
  unfold clear in Hc. cbn zeta in Hc. rewrite Htot in Hc. pose proof Hi as [(Hnt & Hna & Htl & Hrl) (T1 & T2) Hrx N4 N5 N6].
  destruct (ring_places QR _ U RB HR na) as (E1 & E2 & E3). pose proof Hrx as [R1 R2 R3 R4 R5].
  unfold nic_recv, do_rx. rewrite (proj2 (Z.ltb_ge _ _)) by (unfold FRAME_SIZE; lia).
  unfold bind at 1, gets at 1. cbn [fst snd]. unfold bind at 1, nic_bus at 1, q_read16 at 1, gets at 1. cbn [fst snd].
  rewrite O3, (linear_at _ _ QR _ L2) by (unfold vq_used_idx_off; fold U; lia).
  replace (QR + vq_used_idx_off (nic_q_size h)) with (used_idx_at QR (nic_q_size h)) by (unfold vq_used_idx_off; fold U; lia). rewrite R2, Hrl.
  destruct rx as [|f]; cbn [filled] in *.
  { rewrite Z.add_0_r, Z.eqb_refl. exists Posted, (h, b). split; [done|]. split; [|done].
    exists QT, QR, TH, TB, RB, nt, na. cbn [pending]. by rewrite app_nil_r. }
  rewrite (proj2 (Z.eqb_neq _ _)) by (unfold as_u16; zlia). destruct R5 as (F1 & F2 & F3 & F4).
  unfold bind at 1, nic_bus at 1, q_read32 at 1, gets at 1. cbn [fst snd].
  replace (Z.land (as_u16 na) (as_u16 (nic_q_size h - 1))) with (na mod nic_q_size h) by (rewrite Hq, mask_mod by lia; done).
  rewrite (linear_at _ _ QR _ L2) by (fold U; lia). fold U.
  replace (QR + (U + 4 + na mod nic_q_size h * 8 + 4)) with (used_entry_at QR (nic_q_size h) na + 4) by lia. rewrite F3.
  replace (Z.min (Z.max (10 + Z.of_nat (length f) - HDR_SIZE) 0) FRAME_SIZE) with (Z.of_nat (length f)) by (unfold HDR_SIZE, FRAME_SIZE; lia).
  unfold bind at 1, nic_bus at 1, copy_from at 1, gets at 1. cbn [fst snd]. rewrite Nat2Z.id.
  rewrite (vpeek_peek _ _ (RB + 10)) by (intros i Hi'; unfold HDR_SIZE; rewrite <- Z.add_assoc, L5 by lia; lia). rewrite F4.
  unfold bind at 1, set_rx_last_used at 1, modify at 1. cbn [fst snd].
  unfold bind at 1, nic_bus at 1. cbn [fst snd]. rewrite (repost_rx_run h QT QR TH TB RB na b Hpl R1).
  set (md := put_desc QR 0 (mkDesc RB 1524 2 0) (pm b)). destruct (posted_reads QR _ e (na + 1) md Hq He) as (P1 & P2 & P3 & P4 & P5).
  set (mp := posted QR (nic_q_size h) (na + 1) md) in *.
  assert (bytes_ok mp) as Hmp by (by apply P5, put_desc_bytes).
  destruct (nic_refilled _ _ _ _ _ _ _ mp N5 Hmp) as (m1 & nr' & d' & fs & Eo & Hrec & Hstored & Hlive' & Hsent). rewrite Eo.
  assert (forall a l, clear a l QR (U + 8 * nic_q_size h + 6) -> same_on a l (pm b) mp) as Hsame0.
  { intros a l Hcl. unfold clear in Hcl. eapply same_on_trans; [|apply P4; lia]. apply same_on_put_desc. lia. }
  assert (rx_inv QR (nic_q_size h) RB (na + 1) Posted mp) as Hrx1.
  { split; cbn [filled]; [exact P1| |rewrite P3 by lia; apply put_desc_same; unfold desc_ok; cbn; lia|exact P2|done].
    rewrite Z.add_0_r, <- R2. rewrite (same_on_pread _ _ _ _ _ _ (P4 (QR + U) 4 ltac:(lia))) by lia. unfold md. by rewrite pread_put_desc by ranges. }
  assert (received QR (nic_q_size h) (na + 1 + filled Posted) mp m1 nr' fs) as Hrec' by (cbn [filled]; by rewrite Z.add_0_r).
  destruct (rx_received QR _ U RB HR (na + 1) Posted mp m1 nr' fs ltac:(lia) Hrx1 Hrec') as (rx' & -> & Hrx' & Hpend & Hb1 & Hsame).
  exists rx', (taken_handle h na, mkBus m1 d' (said b)). split; [|split; [|split; [done|done]]].
  { unfold taken_handle. replace (as_u16 (as_u16 na + 1)) with (as_u16 (na + 1)) by (unfold as_u16; by rewrite Zplus_mod_idemp_l). done. }
  exists QT, QR, TH, TB, RB, nt, (na + 1). split; [by destruct Hpl; split|].
  split; cbn [fst snd nic_q_size taken_handle nic_io tx_last_used rx_last_used pm dv]; [by repeat split; try lia| |done|by apply Hb1|done|by rewrite Hstored, N6, Hpend].
  assert (same_on QT (U + 8 * nic_q_size h + 6) (pm b) m1) as S.
  { eapply same_on_trans; [apply Hsame0; unfold clear; lia|apply Hsame; lia]. }
  split; (rewrite (same_on_pread _ _ _ _ _ _ S); [done|..]); unfold avail_idx_at, used_idx_at; rewrite ?used_at_base by lia; fold U; lia.
Qed.
End driver.
