(* ===== verification/AsmEmit.v ===== *)
(** * The assembler's module representation and its binary emitter
    ([kernel/src/shell/commands/asm.rs]) *)

From Stdlib Require Import SpecFloat.
From S2P Require Import Prelude Leb128 Loader FileTable Opcode FloatOps Jump Sections.
From S2P Require Import World Machine Dispatch Host Engine EngineSpec.

Module Asm.

(** ** Module representation *)

Inductive ValType := I32 | I64 | F32 | F64.

#[global] Instance ValType_eq_dec : EqDecision ValType.
Proof. solve_decision. Defined.

Definition vt_byte (t : ValType) : Z :=
  match t with I32 => 0x7F | I64 => 0x7E | F32 => 0x7D | F64 => 0x7C end.

Definition from_kw (kw : list Z) : option ValType :=
  if bytes_eqb kw (str "i32") then Some I32 else
  if bytes_eqb kw (str "i64") then Some I64 else
  if bytes_eqb kw (str "f32") then Some F32 else
  if bytes_eqb kw (str "f64") then Some F64 else None.

Record FuncType := mkFuncType { params : list ValType; results : list ValType }.

(** The instructions with an immediate, and the others by their opcode: the
    enum's unit variants and [emit_instr]'s byte for each. *)
Inductive Plain :=
| Unreachable | Nop | Return | Drop_ | Select | End_ | Else_
| I32Add | I32Sub | I32Mul | I32DivS | I32DivU | I32RemS | I32RemU | I32And | I32Or | I32Xor | I32Shl | I32ShrS | I32ShrU
| I32Eqz | I32Eq | I32Ne | I32LtS | I32LtU | I32GtS | I32GtU | I32LeS | I32LeU | I32GeS | I32GeU
| I64Add | I64Sub | I64Mul | I64And | I64Or | I64Xor | I64Eqz | I64Eq | I64Ne
| F32Add | F32Sub | F32Mul | F32Div | F64Add | F64Sub | F64Mul | F64Div.

Inductive Mem := I32Load | I32Store | I32Load8S | I32Load8U | I32Store8.

(** Float constants are the [f32] value; [I64Const] and [F64Const] are kept
    in 32 bits as well. *)
Inductive Instr :=
| Op (p : Plain)
| LocalGet (i : Z) | LocalSet (i : Z) | LocalTee (i : Z)
| I32Const (n : Z) | I64Const (n : Z) | F32Const (f : spec_float) | F64Const (f : spec_float)
| Access (m : Mem) (offset align : Z)
| Call (i : Z)
| If (block_ty : Z) | Loop (block_ty : Z) | Block (block_ty : Z)
| Br (l : Z) | BrIf (l : Z).

Record FuncDef := mkFuncDef { type_idx : Z; locals : list ValType; body : list Instr }.
Record Import := mkImport { imp_module : list Z; imp_name : list Z; imp_type_idx : Z }.
Record Export := mkExport { exp_name : list Z; kind : Z; index : Z }.
Record Memory := mkMemory { min : Z; max : option Z }.
Record DataSeg := mkDataSeg { mem_idx : Z; offset : Z; bytes : list Z }.

Record Module_ := mkModule {
  types : list FuncType;
  imports : list Import;
  funcs : list FuncDef;
  memories : list Memory;
  exports : list Export;
  data : list DataSeg
}.

Definition empty_module : Module_ := mkModule [] [] [] [] [] [].

(** ** Integers *)

(** The groups after the first of a [u32] or [i32] are at most four. *)
Fixpoint leb_u32_loop (fuel : nat) (val : Z) : list Z :=
  let byte := Z.land val 0x7F in
  let val := Z.shiftr val 7 in
  if val =? 0 then [byte] else
  match fuel with O => [] | S fuel' => Z.lor byte 0x80 :: leb_u32_loop fuel' val end.

Definition write_leb128_u32 (val : Z) : list Z := leb_u32_loop 4 val.

Fixpoint leb_i32_loop (fuel : nat) (val : Z) : list Z :=
  let byte := Z.land val 0x7F in
  let val := Z.shiftr val 6 in
  let more := negb (val =? 0) && negb (val =? -1) in
  if negb more then [Z.land byte 0x7F] else
  match fuel with O => [] | S fuel' => Z.lor byte 0x80 :: leb_i32_loop fuel' (Z.shiftr val 1) end.

Definition write_leb128_i32 (val : Z) : list Z := leb_i32_loop 4 val.

(** [x.len() as u32] *)
Definition len_u32 {A} (l : list A) : Z := as_u32 (Z.of_nat (length l)).

Definition write_bytes (bs : list Z) : list Z := write_leb128_u32 (len_u32 bs) ++ bs.

Definition emit_section (id : Z) (inner : list Z) : list Z := id :: write_leb128_u32 (len_u32 inner) ++ inner.

(** A count and the items. *)
Definition write_vec {A} (f : A -> list Z) (l : list A) : list Z := write_leb128_u32 (len_u32 l) ++ concat (map f l).

(** ** Instructions *)

Definition plain_byte (p : Plain) : Z :=
  match p with
  | Unreachable => 0x00 | Nop => 0x01 | Return => 0x0F | Drop_ => 0x1A | Select => 0x1B | End_ => 0x0B | Else_ => 0x05
  | I32Add => 0x6A | I32Sub => 0x6B | I32Mul => 0x6C | I32DivS => 0x6D | I32DivU => 0x6E | I32RemS => 0x6F | I32RemU => 0x70
  | I32And => 0x71 | I32Or => 0x72 | I32Xor => 0x73 | I32Shl => 0x74 | I32ShrS => 0x75 | I32ShrU => 0x76
  | I32Eqz => 0x45 | I32Eq => 0x46 | I32Ne => 0x47 | I32LtS => 0x48 | I32LtU => 0x49 | I32GtS => 0x4A | I32GtU => 0x4B
  | I32LeS => 0x4C | I32LeU => 0x4D | I32GeS => 0x4E | I32GeU => 0x4F
  | I64Add => 0x7C | I64Sub => 0x7D | I64Mul => 0x7E | I64And => 0x83 | I64Or => 0x84 | I64Xor => 0x85
  | I64Eqz => 0x50 | I64Eq => 0x51 | I64Ne => 0x52
  | F32Add => 0x92 | F32Sub => 0x93 | F32Mul => 0x94 | F32Div => 0x95
  | F64Add => 0xA0 | F64Sub => 0xA1 | F64Mul => 0xA2 | F64Div => 0xA3
  end.

Definition mem_byte (m : Mem) : Z :=
  match m with I32Load => 0x28 | I32Store => 0x36 | I32Load8S => 0x2C | I32Load8U => 0x2D | I32Store8 => 0x3A end.

(** No literal is a NaN; the quiet NaN stands in for it. *)
Definition f32_le_bytes (f : spec_float) : list Z := to_le_bytes 4 (to_bits 23 8 0x7FC00000 f).
Definition f64_le_bytes (f : spec_float) : list Z := to_le_bytes 8 (to_bits 52 11 0x7FF8000000000000 (convert 52 11 f)).

Definition emit_instr (i : Instr) : list Z :=
  match i with
  | Op p => [plain_byte p]
  | Block t => [0x02; t]
  | Loop t => [0x03; t]
  | If t => [0x04; t]
  | Br l => 0x0C :: write_leb128_u32 l
  | BrIf l => 0x0D :: write_leb128_u32 l
  | Call i => 0x10 :: write_leb128_u32 i
  | LocalGet i => 0x20 :: write_leb128_u32 i
  | LocalSet i => 0x21 :: write_leb128_u32 i
  | LocalTee i => 0x22 :: write_leb128_u32 i
  | I32Const n => 0x41 :: write_leb128_i32 n
  | I64Const n => 0x42 :: write_leb128_i32 n
  | F32Const f => 0x43 :: f32_le_bytes f
  | F64Const f => 0x44 :: f64_le_bytes f
  | Access m o a => mem_byte m :: write_leb128_u32 a ++ write_leb128_u32 o
  end.

(** ** Sections *)

(** Runs of equal types, in order: the last group grows or a new one starts. *)
Definition compress_step (groups : list (Z * ValType)) (t : ValType) : list (Z * ValType) :=
  match rev groups with
  | (n, t') :: before => if decide (t' = t) then rev before ++ [(n + 1, t')] else groups ++ [(1, t)]
  | [] => [(1, t)]
  end.
Definition compress_locals (ls : list ValType) : list (Z * ValType) := fold_left compress_step ls [].

Definition emit_type (t : FuncType) : list Z :=
  0x60 :: write_vec (fun v => [vt_byte v]) (params t) ++ write_vec (fun v => [vt_byte v]) (results t).
Definition emit_import (i : Import) : list Z :=
  write_bytes (imp_module i) ++ write_bytes (imp_name i) ++ 0x00 :: write_leb128_u32 (imp_type_idx i).
Definition emit_memory (m : Memory) : list Z :=
  match max m with
  | Some x => 0x01 :: write_leb128_u32 (min m) ++ write_leb128_u32 x
  | None => 0x00 :: write_leb128_u32 (min m)
  end.
Definition emit_export (e : Export) : list Z := write_bytes (exp_name e) ++ kind e :: write_leb128_u32 (index e).
Definition emit_func (f : FuncDef) : list Z :=
  let b := write_vec (fun g => write_leb128_u32 g.1 ++ [vt_byte g.2]) (compress_locals (locals f)) ++
           concat (map emit_instr (body f)) ++ [0x0B] in
  write_leb128_u32 (len_u32 b) ++ b.
Definition emit_data (s : DataSeg) : list Z :=
  0x00 :: 0x41 :: write_leb128_i32 (offset s) ++ 0x0B :: write_bytes (bytes s).

Definition emit_type_section (m : Module_) : list Z := emit_section 0x01 (write_vec emit_type (types m)).
Definition emit_import_section (m : Module_) : list Z := emit_section 0x02 (write_vec emit_import (imports m)).
Definition emit_function_section (m : Module_) : list Z := emit_section 0x03 (write_vec (fun f => write_leb128_u32 (type_idx f)) (funcs m)).
Definition emit_memory_section (m : Module_) : list Z := emit_section 0x05 (write_vec emit_memory (memories m)).
Definition emit_export_section (m : Module_) : list Z := emit_section 0x07 (write_vec emit_export (exports m)).
Definition emit_data_count_section (m : Module_) : list Z := emit_section 0x0C (write_leb128_u32 (len_u32 (data m))).
Definition emit_code_section (m : Module_) : list Z := emit_section 0x0A (write_vec emit_func (funcs m)).
Definition emit_data_section (m : Module_) : list Z := emit_section 0x0B (write_vec emit_data (data m)).

Definition is_empty {A} (l : list A) : bool := match l with [] => true | _ => false end.

Definition emit_module (m : Module_) : list Z :=
  [0x00; 0x61; 0x73; 0x6D] ++ [0x01; 0x00; 0x00; 0x00] ++
  (if is_empty (types m) then [] else emit_type_section m) ++
  (if is_empty (imports m) then [] else emit_import_section m) ++
  (if is_empty (funcs m) then [] else emit_function_section m) ++
  (if is_empty (memories m) then [] else emit_memory_section m) ++
  (if is_empty (exports m) then [] else emit_export_section m) ++
  (if negb (is_empty (data m)) && negb (is_empty (memories m)) then emit_data_count_section m else []) ++
  (if is_empty (funcs m) then [] else emit_code_section m) ++
  (if is_empty (data m) then [] else emit_data_section m).
End Asm.

(** * What the assembler emits is what the loader reads

    The emitter's integers and sections are the reference encodings the
    loader and the section parsers are proved to read back. *)

(** ** Integers *)

Lemma lor_0x80 b : 0 <= b < 128 -> Z.lor b 0x80 = b + 128.
Proof. intros Hb. apply (lor_disjoint b 1 7); lia. Qed.

Lemma leb_u32_loop_ref f v : 0 <= v < 128 ^ Z.of_nat (S f) -> Asm.leb_u32_loop f v = leb128_u (S f) v.
Proof.
  revert v. induction f as [|f IH]; intros v Hv; cbn [Asm.leb_u32_loop leb128_u]; rewrite land_0x7f, Z.shiftr_div_pow2 by lia;
    change (2 ^ 7) with 128.
  - change (128 ^ Z.of_nat 1) with 128 in Hv. rewrite Z.div_small, Z.mod_small by lia. by rewrite (proj2 (Z.ltb_lt _ _)) by lia.
  - rewrite Nat2Z.inj_succ, Z.pow_succ_r in Hv by lia. destruct (v <? 128) eqn:El; zbool.
    + rewrite Z.div_small, Z.mod_small by lia. done.
    + rewrite (proj2 (Z.eqb_neq _ _)) by zlia. rewrite lor_0x80 by zlia. f_equal. apply IH.
      split; [zlia|]. apply Z.div_lt_upper_bound; lia.
Qed.

Lemma write_leb128_u32_ref v : is_u32 v -> Asm.write_leb128_u32 v = encode_u32 v.
Proof. intros Hv. apply leb_u32_loop_ref. unfold is_u32 in Hv. change (128 ^ Z.of_nat 5) with 34359738368. lia. Qed.

Lemma leb_i32_loop_ref f v : - 64 * 128 ^ Z.of_nat f <= v < 64 * 128 ^ Z.of_nat f -> Asm.leb_i32_loop f v = leb128_s (S f) v.
Proof.
  revert v. induction f as [|f IH]; intros v Hv; cbn [Asm.leb_i32_loop leb128_s]; rewrite !land_0x7f, !Z.shiftr_div_pow2 by lia;
    change (2 ^ 6) with 64; change (2 ^ 1) with 2; rewrite Z.mod_mod by lia;
    assert (negb (negb (v / 64 =? 0) && negb (v / 64 =? -1)) = (-64 <=? v) && (v <? 64)) as Hmore
      by (apply Bool.eq_iff_eq_true; rewrite negb_andb, !negb_involutive, orb_true_iff, andb_true_iff, !Z.eqb_eq, Z.leb_le, Z.ltb_lt; zlia);
    rewrite Hmore.
  - change (128 ^ Z.of_nat 0) with 1 in Hv. rewrite (proj2 (Z.leb_le _ _)), (proj2 (Z.ltb_lt _ _)) by lia. done.
  - rewrite Nat2Z.inj_succ, Z.pow_succ_r in Hv by lia. destruct ((-64 <=? v) && (v <? 64)) eqn:El; [done|].
    rewrite lor_0x80 by zlia. f_equal. rewrite Z.div_div by lia. change (64 * 2) with 128. etrans; [apply IH|reflexivity].
    split; [apply Z.div_le_lower_bound; lia|apply Z.div_lt_upper_bound; lia].
Qed.

Lemma write_leb128_i32_ref v : is_i32 v -> Asm.write_leb128_i32 v = encode_i32 v.
Proof. intros Hv. apply leb_i32_loop_ref. unfold is_i32 in Hv. change (128 ^ Z.of_nat 4) with 268435456. lia. Qed.

(** ** Vectors and names *)

Lemma len_u32_short {A} (l : list A) : short l -> Asm.len_u32 l = Z.of_nat (length l) /\ is_u32 (Asm.len_u32 l).
Proof. intros Hl. unfold Asm.len_u32, short, as_u32, is_u32 in *. rewrite Z.mod_small by lia. split; [done|lia]. Qed.

Lemma write_vec_ref {A B} (f : A -> list Z) (g : B -> list Z) (h : A -> B) (l : list A) :
  short l -> Forall (fun x => f x = g (h x)) l -> Asm.write_vec f l = encode_vec g (map h l).
Proof.
  intros Hl Hf. unfold Asm.write_vec, encode_vec. destruct (len_u32_short l Hl) as [E Hu]. rewrite write_leb128_u32_ref, E, length_map by done.
  f_equal. f_equal. clear -Hf. induction Hf as [|x l Hx Hf IH]; [done|]. cbn. by rewrite Hx, IH.
Qed.

Lemma write_bytes_ref n : short n -> Asm.write_bytes n = encode_name n.
Proof. intros Hn. unfold Asm.write_bytes, encode_name. destruct (len_u32_short n Hn) as [E Hu]. by rewrite write_leb128_u32_ref, E by done. Qed.

Lemma emit_section_ref id inner : short inner -> Asm.emit_section id inner = encode_section (id, inner).
Proof. intros Hn. unfold Asm.emit_section, encode_section. destruct (len_u32_short inner Hn) as [E Hu]. by rewrite write_leb128_u32_ref, E by done. Qed.

(** ** Items *)

Definition type_ref (t : Asm.FuncType) : list Z * list Z := (map Asm.vt_byte (Asm.params t), map Asm.vt_byte (Asm.results t)).
Definition import_ref (i : Asm.Import) : import := mkImport (Asm.imp_module i) (Asm.imp_name i) (IFunc (Asm.imp_type_idx i)).
Definition export_ref (e : Asm.Export) : export := mkExport (Asm.exp_name e) (Asm.kind e) (Asm.index e).
Definition limits_ref (m : Asm.Memory) : Z * option Z := (Asm.min m, Asm.max m).
Definition code_ref (f : Asm.FuncDef) : list Z := concat (map Asm.emit_instr (Asm.body f)) ++ [0x0B].
Definition body_ref (f : Asm.FuncDef) : list (Z * Z) * list Z :=
  (map (fun g => (g.1, Asm.vt_byte g.2)) (Asm.compress_locals (Asm.locals f)), code_ref f).

Definition type_fits (t : Asm.FuncType) : Prop := short (Asm.params t) /\ short (Asm.results t).
Definition import_fits (i : Asm.Import) : Prop :=
  short (Asm.imp_module i) /\ utf8_valid (Asm.imp_module i) = true /\
  short (Asm.imp_name i) /\ utf8_valid (Asm.imp_name i) = true /\ is_u32 (Asm.imp_type_idx i).
Definition export_fits (e : Asm.Export) : Prop :=
  short (Asm.exp_name e) /\ utf8_valid (Asm.exp_name e) = true /\ is_u32 (Asm.index e).
Definition memory_fits (m : Asm.Memory) : Prop := limits_ok (Asm.min m) (Asm.max m).
Definition func_fits (f : Asm.FuncDef) : Prop :=
  is_u32 (Asm.type_idx f) /\ Z.of_nat (length (Asm.locals f)) < 4294967296 /\ body_ok (body_ref f).

Lemma emit_type_ref t : type_fits t -> Asm.emit_type t = encode_type (type_ref t).
Proof.
  intros [Hp Hr]. unfold Asm.emit_type, encode_type, type_ref. cbn [fst snd].
  rewrite !(write_vec_ref _ (fun v => [v]) Asm.vt_byte) by (done || by apply Forall_true). done.
Qed.

Lemma emit_import_ref i : import_fits i -> Asm.emit_import i = encode_import (import_ref i).
Proof.
  intros (H1 & _ & H2 & _ & H3). unfold Asm.emit_import, encode_import, import_ref. cbn [im_mod im_name im_desc encode_desc].
  by rewrite !write_bytes_ref, write_leb128_u32_ref.
Qed.

Lemma emit_export_ref e : export_fits e -> Asm.emit_export e = encode_export (export_ref e).
Proof. intros (H1 & _ & H2). unfold Asm.emit_export, encode_export, export_ref. cbn [ex_name ex_kind ex_index]. by rewrite write_bytes_ref, write_leb128_u32_ref. Qed.

Lemma emit_memory_ref m : memory_fits m -> Asm.emit_memory m = encode_limits (limits_ref m).1 (limits_ref m).2.
Proof.
  intros [H1 H2]. unfold Asm.emit_memory, encode_limits, limits_ref. cbn [fst snd]. destruct (Asm.max m) as [x|]; by rewrite ?write_leb128_u32_ref.
Qed.

(** *** Locals *)

Definition group_total (gs : list (Z * Asm.ValType)) : Z := fold_right Z.add 0 (map fst gs).

Lemma group_total_app a b : group_total (a ++ b) = group_total a + group_total b.
Proof. induction a as [|x a IH]; [done|]. unfold group_total in *. cbn. lia. Qed.

(** The types a list of groups stands for. *)
Definition expand (gs : list (Z * Asm.ValType)) : list Asm.ValType := concat (map (fun g => replicate (Z.to_nat g.1) g.2) gs).

Lemma compress_step_ok gs t :
  Forall (fun g => 1 <= g.1) gs ->
  expand (Asm.compress_step gs t) = expand gs ++ [t] /\ Forall (fun g => 1 <= g.1) (Asm.compress_step gs t) /\
  group_total (Asm.compress_step gs t) = group_total gs + 1 /\ (length (Asm.compress_step gs t) <= S (length gs))%nat.
Proof.
  intros Hg. unfold Asm.compress_step. destruct (rev gs) as [|[n t'] before] eqn:E.
  { apply (f_equal (@rev _)) in E. rewrite rev_involutive in E. subst gs. cbn. split_and!; try done. by repeat constructor. }
  assert (gs = rev before ++ [(n, t')]) as -> by (rewrite <- (rev_involutive gs), E; done).
  apply Forall_app in Hg as [Hb Hn]. inversion Hn as [|? ? Hn1 _]; subst. cbn in Hn1.
  destruct (decide (t' = t)) as [->|Hne].
  - unfold expand. rewrite !map_app, !concat_app, !group_total_app, !length_app. cbn. rewrite !app_nil_r, <- app_assoc.
    rewrite Z2Nat.inj_add, replicate_add by lia. split_and!; [done| |lia|lia]. apply Forall_app. split; [done|]. repeat constructor. cbn. lia.
  - unfold expand. rewrite (map_app _ (rev before ++ _)), concat_app, group_total_app, !length_app. cbn. split_and!; [done| |lia|lia].
    apply Forall_app. split; [by apply Forall_app|]. by repeat constructor.
Qed.

Lemma compress_fold_ok ls gs :
  Forall (fun g => 1 <= g.1) gs ->
  let r := fold_left Asm.compress_step ls gs in
  expand r = expand gs ++ ls /\ Forall (fun g => 1 <= g.1) r /\ group_total r = group_total gs + Z.of_nat (length ls) /\
  (length r <= length gs + length ls)%nat.
Proof.
  revert gs. induction ls as [|t ls IH]; intros gs Hg; cbn [fold_left length]; [rewrite app_nil_r; split_and!; (done || lia)|].
  destruct (compress_step_ok gs t Hg) as (H1 & H2 & H3 & H4). destruct (IH _ H2) as (H5 & H6 & H7 & H8).
  split_and!; [by rewrite H5, H1, <- app_assoc|done|lia|lia].
Qed.

Lemma compress_locals_ok ls :
  expand (Asm.compress_locals ls) = ls /\ Forall (fun g => 1 <= g.1) (Asm.compress_locals ls) /\
  group_total (Asm.compress_locals ls) = Z.of_nat (length ls) /\ (length (Asm.compress_locals ls) <= length ls)%nat.
Proof. destruct (compress_fold_ok ls [] (Forall_nil_2 _)) as (H1 & H2 & H3 & H4). split_and!; try done; by unfold group_total in *. Qed.

Lemma emit_func_ref f : func_fits f -> Asm.emit_func f = encode_body (body_ref f).
Proof.
  intros (_ & Hloc & (Hg & Hs & Hlen)). unfold Asm.emit_func, encode_body.
  destruct (compress_locals_ok (Asm.locals f)) as (_ & _ & _ & Hl).
  assert (Asm.write_vec (fun g => Asm.write_leb128_u32 g.1 ++ [Asm.vt_byte g.2]) (Asm.compress_locals (Asm.locals f))
    = encode_vec (fun g => encode_u32 g.1 ++ [g.2]) (body_ref f).1) as Hv.
  { apply (write_vec_ref _ _ (fun g => (g.1, Asm.vt_byte g.2))); [unfold short in *; lia|].
    cbn [body_ref fst] in Hg. rewrite Forall_map in Hg. eapply Forall_impl; [|exact Hg]. intros g Hu. cbn [fst snd] in *. by rewrite write_leb128_u32_ref. }
  rewrite Hv. change (concat (map Asm.emit_instr (Asm.body f)) ++ [0x0B]) with (body_ref f).2.
  set (entry := encode_vec _ _ ++ _). assert (short entry) as Hsh by exact Hlen. destruct (len_u32_short entry Hsh) as [E Hu].
  by rewrite write_leb128_u32_ref, E by done.
Qed.

Definition seg_ref (s : Asm.DataSeg) : data_seg := mkSeg (Asm.offset s) (Asm.bytes s).
Definition seg_fits (s : Asm.DataSeg) : Prop := is_i32 (Asm.offset s) /\ short (Asm.bytes s).

Lemma emit_data_ref s : seg_fits s -> Asm.emit_data s = encode_seg (seg_ref s).
Proof.
  intros [Ho Hb]. unfold Asm.emit_data, encode_seg, seg_ref. cbn [ds_offset ds_bytes].
  rewrite write_leb128_i32_ref, write_bytes_ref by done. reflexivity.
Qed.

(** ** The module *)

(** Everything the binary format stores in 32 bits fits. *)
Record module_fits (m : Asm.Module_) : Prop := {
  mf_types : short (Asm.types m) /\ Forall type_fits (Asm.types m);
  mf_imports : short (Asm.imports m) /\ Forall import_fits (Asm.imports m);
  mf_funcs : short (Asm.funcs m) /\ Forall func_fits (Asm.funcs m);
  mf_memories : short (Asm.memories m) /\ Forall memory_fits (Asm.memories m);
  mf_exports : short (Asm.exports m) /\ Forall export_fits (Asm.exports m);
  mf_data : short (Asm.data m) /\ Forall seg_fits (Asm.data m)
}.

(** The sections in the reference encoding, and whether each is present. *)
Definition sections_ref (m : Asm.Module_) : list (bool * (Z * list Z)) :=
  [ (negb (Asm.is_empty (Asm.types m)), (SECTION_TYPE, encode_vec encode_type (map type_ref (Asm.types m))));
    (negb (Asm.is_empty (Asm.imports m)), (SECTION_IMPORT, encode_vec encode_import (map import_ref (Asm.imports m))));
    (negb (Asm.is_empty (Asm.funcs m)), (SECTION_FUNCTION, encode_vec encode_u32 (map Asm.type_idx (Asm.funcs m))));
    (negb (Asm.is_empty (Asm.memories m)), (SECTION_MEMORY, encode_vec (fun l => encode_limits l.1 l.2) (map limits_ref (Asm.memories m))));
    (negb (Asm.is_empty (Asm.exports m)), (SECTION_EXPORT, encode_vec encode_export (map export_ref (Asm.exports m))));
    (negb (Asm.is_empty (Asm.data m)) && negb (Asm.is_empty (Asm.memories m)), (12, encode_u32 (Z.of_nat (length (Asm.data m)))));
    (negb (Asm.is_empty (Asm.funcs m)), (SECTION_CODE, encode_vec encode_body (map body_ref (Asm.funcs m))));
    (negb (Asm.is_empty (Asm.data m)), (SECTION_DATA, encode_vec encode_seg (map seg_ref (Asm.data m)))) ].

Definition present (l : list (bool * (Z * list Z))) : list (Z * list Z) := map snd (List.filter fst l).

Definition sections_fit (m : Asm.Module_) : Prop := Forall (fun s => short s.2.2) (sections_ref m).

Lemma present_concat l : concat (map encode_section (present l)) = concat (map (fun s => if s.1 : bool then encode_section s.2 else []) l).
Proof. unfold present. induction l as [|[[] s] l IH]; [done|..]; cbn [List.filter fst snd map concat]; by rewrite IH. Qed.

Lemma emit_module_ref m : module_fits m -> sections_fit m -> Asm.emit_module m = encode_module (present (sections_ref m)).
Proof.
  intros [[T1 T2] [I1 I2] [F1 F2] [M1 M2] [E1 E2] [D1 D2]] Hs. unfold encode_module. rewrite present_concat.
  unfold sections_fit, sections_ref in Hs.
  repeat match goal with H : Forall _ (_ :: _) |- _ => apply Forall_cons_iff in H; destruct H end. cbn [fst snd] in *.
  destruct (len_u32_short (Asm.data m) D1) as [Ed Hd].
  assert (Asm.write_vec Asm.emit_type (Asm.types m) = encode_vec encode_type (map type_ref (Asm.types m))) as Et
    by (apply write_vec_ref; [done|]; eapply Forall_impl; [exact emit_type_ref|done]).
  assert (Asm.write_vec Asm.emit_import (Asm.imports m) = encode_vec encode_import (map import_ref (Asm.imports m))) as Ei
    by (apply write_vec_ref; [done|]; eapply Forall_impl; [exact emit_import_ref|done]).
  assert (Asm.write_vec (fun f => Asm.write_leb128_u32 (Asm.type_idx f)) (Asm.funcs m) = encode_vec encode_u32 (map Asm.type_idx (Asm.funcs m))) as Ef
    by (apply write_vec_ref; [done|]; eapply Forall_impl; [|exact F2]; intros f [Hu _]; by apply write_leb128_u32_ref).
  assert (Asm.write_vec Asm.emit_memory (Asm.memories m) = encode_vec (fun l => encode_limits l.1 l.2) (map limits_ref (Asm.memories m))) as Em
    by (apply write_vec_ref; [done|]; eapply Forall_impl; [exact emit_memory_ref|done]).
  assert (Asm.write_vec Asm.emit_export (Asm.exports m) = encode_vec encode_export (map export_ref (Asm.exports m))) as Ee
    by (apply write_vec_ref; [done|]; eapply Forall_impl; [exact emit_export_ref|done]).
  assert (Asm.write_vec Asm.emit_func (Asm.funcs m) = encode_vec encode_body (map body_ref (Asm.funcs m))) as Ec
    by (apply write_vec_ref; [done|]; eapply Forall_impl; [exact emit_func_ref|done]).
  assert (Asm.write_vec Asm.emit_data (Asm.data m) = encode_vec encode_seg (map seg_ref (Asm.data m))) as Eda
    by (apply write_vec_ref; [done|]; eapply Forall_impl; [exact emit_data_ref|done]).
  unfold Asm.emit_module, Asm.emit_type_section, Asm.emit_import_section, Asm.emit_function_section, Asm.emit_memory_section,
    Asm.emit_export_section, Asm.emit_data_count_section, Asm.emit_code_section, Asm.emit_data_section.
  rewrite Et, Ei, Ef, Em, Ee, Ec, Eda, (write_leb128_u32_ref (Asm.len_u32 _)), Ed by done.
  rewrite !emit_section_ref by done. unfold sections_ref. cbn [map concat fst snd].
  rewrite !if_negb, app_nil_r. reflexivity.
Qed.

(** A section is there exactly when its list is not empty. *)
Definition when_any {A} (l : list A) (enc : list Z) : option (list Z) := if Asm.is_empty l then None else Some enc.

Lemma sections_stored m :
  let lm := module_of (present (sections_ref m)) in
  type_section lm = when_any (Asm.types m) (encode_vec encode_type (map type_ref (Asm.types m))) /\
  import_section lm = when_any (Asm.imports m) (encode_vec encode_import (map import_ref (Asm.imports m))) /\
  function_section lm = when_any (Asm.funcs m) (encode_vec encode_u32 (map Asm.type_idx (Asm.funcs m))) /\
  memory_section lm = when_any (Asm.memories m) (encode_vec (fun l => encode_limits l.1 l.2) (map limits_ref (Asm.memories m))) /\
  export_section lm = when_any (Asm.exports m) (encode_vec encode_export (map export_ref (Asm.exports m))) /\
  code_section lm = when_any (Asm.funcs m) (encode_vec encode_body (map body_ref (Asm.funcs m))) /\
  data_section lm = when_any (Asm.data m) (encode_vec encode_seg (map seg_ref (Asm.data m))) /\
  table_section lm = None /\ global_section lm = None /\ element_section lm = None.
Proof.
  unfold sections_ref, when_any. cbv zeta.
  destruct (Asm.is_empty (Asm.types m)), (Asm.is_empty (Asm.imports m)), (Asm.is_empty (Asm.funcs m)), (Asm.is_empty (Asm.memories m)),
    (Asm.is_empty (Asm.exports m)), (Asm.is_empty (Asm.data m)); cbn [negb andb present List.filter fst snd map]; split_and!; reflexivity.
Qed.

(** The total of a body's local groups is the number of locals. *)
Lemma body_locals f : local_total (body_ref f) = Z.of_nat (length (Asm.locals f)).
Proof.
  destruct (compress_locals_ok (Asm.locals f)) as (_ & _ & <- & _). unfold local_total, body_ref, group_total. cbn [fst]. by rewrite map_map.
Qed.

(** The imports as the import parsers see them: all functions. *)
Lemma imports_ref_ok m : short (Asm.imports m) -> Forall import_fits (Asm.imports m) ->
  let ims := map import_ref (Asm.imports m) in
  short ims /\ Forall import_ok ims /\ func_types ims = map Asm.imp_type_idx (Asm.imports m) /\ List.filter is_func_import ims = ims.
Proof.
  intros Hs Hf ims. split_and!.
  - unfold short, ims in *. by rewrite length_map.
  - apply Forall_map. eapply Forall_impl; [|exact Hf]. intros i (H1 & H2 & H3 & H4 & H5). by split_and!.
  - unfold ims, func_types. clear. induction (Asm.imports m) as [|i l IH]; [done|]. cbn in *. by rewrite IH.
  - unfold ims. clear. induction (Asm.imports m) as [|i l IH]; [done|]. cbn in *. by rewrite IH.
Qed.

Lemma fold_pairs ims acc :
  fold_left (fun a i => a ++ [(im_mod i, im_name i)]) (map import_ref ims) acc = acc ++ map (fun i => (Asm.imp_module i, Asm.imp_name i)) ims.
Proof.
  revert acc. induction ims as [|i l IH]; intros acc; cbn; [by rewrite app_nil_r|]. by rewrite IH, <- app_assoc.
Qed.

(** ** The section parsers on an assembled module *)

Section read_back.
Context (m : Asm.Module_) (Hm : module_fits m).

Lemma types_read_back : (length (Asm.types m) <= MAX_TYPES)%nat ->
  parse_type_section (encode_vec encode_type (map type_ref (Asm.types m))) (replicate MAX_TYPES 0) (replicate MAX_TYPES 0) =
  Ok (length (Asm.types m), filled_with (map (fun t => Z.of_nat (length (Asm.params t))) (Asm.types m)) (replicate MAX_TYPES 0),
      filled_with (map (fun t => Z.of_nat (length (Asm.results t))) (Asm.types m)) (replicate MAX_TYPES 0)).
Proof.
  intros Ht. rewrite parse_type_section_encode; rewrite ?length_map, ?length_replicate; try done.
  - rewrite !map_map. unfold type_ref. cbn [fst snd].
    rewrite (map_ext (fun x => Z.of_nat (length (map Asm.vt_byte (Asm.params x)))) (fun t => Z.of_nat (length (Asm.params t)))) by (intros; by rewrite length_map).
    by rewrite (map_ext (fun x => Z.of_nat (length (map Asm.vt_byte (Asm.results x)))) (fun t => Z.of_nat (length (Asm.results t)))) by (intros; by rewrite length_map).
  - apply Forall_map. eapply Forall_impl; [|apply (mf_types m Hm)]. intros t [Hp Hr]. unfold type_ref, short in *. cbn [fst snd]. by rewrite !length_map.
Qed.

Lemma functions_read_back : (length (Asm.funcs m) <= MAX_FUNCS)%nat ->
  parse_function_section (encode_vec encode_u32 (map Asm.type_idx (Asm.funcs m))) (replicate MAX_FUNCS 0) =
  Ok (filled_with (map Asm.type_idx (Asm.funcs m)) (replicate MAX_FUNCS 0)).
Proof.
  intros Hf. apply parse_function_section_encode; rewrite ?length_map, ?length_replicate; try done.
  apply Forall_map. eapply Forall_impl; [|apply (mf_funcs m Hm)]. by intros f [Hu _].
Qed.

Lemma code_read_back : (length (Asm.funcs m) <= MAX_FUNCS)%nat ->
  parse_code_section (encode_vec encode_body (map body_ref (Asm.funcs m))) (replicate MAX_FUNCS []) (replicate MAX_FUNCS 0) =
  Ok (length (Asm.funcs m), filled_with (map code_ref (Asm.funcs m)) (replicate MAX_FUNCS []),
      filled_with (map (fun f => Z.of_nat (length (Asm.locals f))) (Asm.funcs m)) (replicate MAX_FUNCS 0)).
Proof.
  intros Hf. rewrite parse_code_section_encode; rewrite ?length_map, ?length_replicate; try done.
  - rewrite !map_map. by rewrite (map_ext (fun x => local_total (body_ref x)) (fun f => Z.of_nat (length (Asm.locals f)))) by apply body_locals.
  - apply Forall_map. eapply Forall_impl; [|apply (mf_funcs m Hm)]. by intros f (_ & _ & Hb).
Qed.

Lemma imports_read_back : (length (Asm.imports m) <= MAX_FUNCS)%nat ->
  let s := encode_vec encode_import (map import_ref (Asm.imports m)) in
  parse_import_func_types s (replicate MAX_FUNCS 0) =
    Ok (length (Asm.imports m), filled_with (map Asm.imp_type_idx (Asm.imports m)) (replicate MAX_FUNCS 0)) /\
  for_each_func_import (fun m n l => l ++ [(m, n)]) s [] = Ok (map (fun i => (Asm.imp_module i, Asm.imp_name i)) (Asm.imports m)).
Proof.
  intros Hi s. destruct (imports_ref_ok m) as (A1 & A2 & A3 & A4); [apply (mf_imports m Hm)..|]. split; unfold s.
  - rewrite parse_import_func_types_encode; rewrite ?A3, ?length_map, ?length_replicate; done.
  - rewrite for_each_func_import_encode by done. rewrite A4. f_equal. apply fold_pairs.
Qed.

Lemma memory_reads_back :
  read_memory_min_pages (encode_vec (fun l => encode_limits l.1 l.2) (map limits_ref (Asm.memories m))) =
  Ok (match Asm.memories m with [] => 0 | x :: _ => Asm.min x end).
Proof.
  rewrite read_memory_min_pages_encode; [by destruct (Asm.memories m)|rewrite length_map; apply (mf_memories m Hm)|].
  apply Forall_map. eapply Forall_impl; [|apply (mf_memories m Hm)]. by intros x.
Qed.

Lemma exports_read_back lm name : export_section lm = Some (encode_vec encode_export (map export_ref (Asm.exports m))) ->
  find_export lm name = ok_or (lookup_export name (map export_ref (Asm.exports m))) tt.
Proof.
  intros He. apply find_export_encode; [done|rewrite length_map; apply (mf_exports m Hm)|].
  apply Forall_map. eapply Forall_impl; [|apply (mf_exports m Hm)]. by intros x.
Qed.

Lemma assembled_loads : sections_fit m -> load (Asm.emit_module m) = Ok (module_of (present (sections_ref m))).
Proof.
  intros Hs. rewrite emit_module_ref by done. apply load_encode. unfold present. apply Forall_map, Forall_forall.
  intros x [Hx _]%filter_In. by apply (proj1 (Forall_forall _ _) Hs).
Qed.
End read_back.
