(* ===== verification/AsmParse.v ===== *)
(** * The assembler's tokenizer and parser
    ([kernel/src/shell/commands/asm.rs])

    Every [panic!] of the parser, every checked arithmetic overflow and every
    slice off a character boundary is [Panic]. The loops take fuel; the bytes
    left and the tokens held bound it ([AsmParseSpec]). *)

From Stdlib Require Import SpecFloat.
From S2P Require Import Prelude FloatOps Text AsmEmit.

(** ** Numbers *)

(** [res * 10 + digit] in [i32]; characters that are not digits are skipped. *)
Fixpoint asm_digits (s : list Z) (res : Z) : result unit Z :=
  match s with
  | [] => Ok res
  | c :: s' =>
    if is_digit_byte c then
      let v := res * 10 + (c - 48) in
      if v <? 2147483648 then asm_digits s' v else Panic
    else asm_digits s' res
  end.

Definition asm_parse_i32 (s : list Z) : result unit Z :=
  match s with
  | 45 :: s' => let? v := asm_digits s' 0 in Ok (- v)
  | _ => asm_digits s 0
  end.

(** [f32] arithmetic, rounding to nearest even. *)
Definition f32_add : spec_float -> spec_float -> spec_float := SFadd (fprec 23) (femax 8).
Definition f32_mul : spec_float -> spec_float -> spec_float := SFmul (fprec 23) (femax 8).
Definition f32_div : spec_float -> spec_float -> spec_float := SFdiv (fprec 23) (femax 8).
Definition f32_of_int : Z -> spec_float := from_Z 23 8.

(** The digits behind the point: [f += digit / div; div *= 10]. *)
Fixpoint frac_digits (s : list Z) (f div : spec_float) : spec_float :=
  match s with
  | [] => f
  | c :: s' => frac_digits s' (f32_add f (f32_div (f32_of_int (c - 48)) div)) (f32_mul div (f32_of_int 10))
  end.

(** [s.split('.')] *)
Fixpoint split_dot (s : list Z) : list (list Z) :=
  match s with
  | [] => [[]]
  | c :: s' =>
    if c =? 46 then [] :: split_dot s'
    else match split_dot s' with p :: ps => (c :: p) :: ps | [] => [[c]] end
  end.

Definition asm_parse_f32 (s : list Z) : result unit spec_float :=
  let neg := starts_with s [45] in
  let parts := split_dot (trim_start 45 s) in
  let? i := asm_parse_i32 (default (str "0") (parts !! 0%nat)) in
  let int_part := f32_of_int i in
  let frac := match parts !! 1%nat with
              | Some fs => frac_digits fs (S754_zero false) (f32_of_int 10)
              | None => S754_zero false
              end in
  let r := f32_add int_part frac in
  Ok (if neg then SFopp r else r).

(** ** Tokens *)

Inductive Token :=
| LParen | RParen
| Keyword (s : list Z) | Identifier (s : list Z)
| Int (n : Z) | Float (f : spec_float)
| StringLiteral (s : list Z).

(** White space and [;;] comments: the bytes skipped. A comment ends before
    its line feed, which is white space. *)
Fixpoint skip_len (comment : bool) (l : list Z) : nat :=
  match l with
  | [] => 0
  | c :: l' =>
    if comment then S (skip_len (negb (c =? 10)) l')
    else if is_whitespace c then S (skip_len false l')
    else if c =? 59 then
      match l' with
      | c2 :: l'' => if c2 =? 59 then S (S (skip_len true l'')) else 0
      | [] => 0
      end
    else 0
  end.

Definition is_ident_char (c : Z) : bool := is_alphanumeric c || (c =? 95) || (c =? 45) || (c =? 46).
Definition is_keyword_char (c : Z) : bool := negb (is_whitespace c || (c =? 40) || (c =? 41)).
Definition is_string_char (c : Z) : bool := negb (c =? 34).
Definition is_number_char (c : Z) : bool := (c =? 46) || is_digit_byte c.

(** Each reader gets the token's first byte at [start]: the token and the
    position after it. *)
Definition read_identifier (src : list Z) (start : nat) : result unit (Token * nat) :=
  let pos := (start + 1 + span_while is_ident_char (drop (start + 1) src))%nat in
  let? s := str_slice src start pos in Ok (Identifier s, pos).

Definition read_string (src : list Z) (start : nat) : result unit (Token * nat) :=
  let start := (start + 1)%nat in
  let pos := (start + span_while is_string_char (drop start src))%nat in
  let? s := str_slice src start pos in
  Ok (StringLiteral s, if (pos <? length src)%nat then (pos + 1)%nat else pos).

Definition read_number (src : list Z) (start : nat) : result unit (Token * nat) :=
  let first := match src !! start with Some 45 => (start + 1)%nat | _ => start end in
  let pos := (first + span_while is_number_char (drop first src))%nat in
  let? s := str_slice src start pos in
  if bool_decide (46 ∈ s) then let? f := asm_parse_f32 s in Ok (Float f, pos)
  else let? n := asm_parse_i32 s in Ok (Int n, pos).

Definition read_keyword (src : list Z) (start : nat) : result unit (Token * nat) :=
  let pos := (start + span_while is_keyword_char (drop start src))%nat in
  let? s := str_slice src start pos in Ok (Keyword s, pos).

Definition next_token (src : list Z) (pos : nat) : result unit (option Token * nat) :=
  let pos := (pos + skip_len false (drop pos src))%nat in
  match src !! pos with
  | None => Ok (None, pos)
  | Some c =>
    let some (r : result unit (Token * nat)) := let? t := r in Ok (Some t.1, t.2) in
    if c =? 40 then Ok (Some LParen, (pos + 1)%nat) else
    if c =? 41 then Ok (Some RParen, (pos + 1)%nat) else
    if c =? 36 then some (read_identifier src pos) else
    if c =? 34 then some (read_string src pos) else
    if is_digit_byte c || (c =? 45) then some (read_number src pos)
    else some (read_keyword src pos)
  end.

(** ** String literals *)

Definition hex_digit (b : Z) : Z :=
  if (48 <=? b) && (b <=? 57) then b - 48 else
  if (97 <=? b) && (b <=? 102) then b - 97 + 10 else
  if (65 <=? b) && (b <=? 70) then b - 65 + 10 else 0.
Definition is_hexdigit (b : Z) : bool :=
  ((48 <=? b) && (b <=? 57)) || ((97 <=? b) && (b <=? 102)) || ((65 <=? b) && (b <=? 70)).

(** The byte a one-letter escape stands for. *)
Definition simple_escape (b : Z) : option Z :=
  if b =? 110 then Some 10 else if b =? 116 then Some 9 else if b =? 114 then Some 13 else
  if b =? 34 then Some 34 else if b =? 92 then Some 92 else if b =? 48 then Some 0 else None.

Fixpoint unescape_wat_string (s : list Z) : list Z :=
  match s with
  | [] => []
  | b :: s' =>
    if b =? 92 then
      match s' with
      | [] => [b]
      | h1 :: s'' =>
        match simple_escape h1 with
        | Some v => v :: unescape_wat_string s''
        | None =>
          match s'' with
          | h2 :: s3 =>
            if is_hexdigit h1 && is_hexdigit h2
            then Z.lor (Z.shiftl (hex_digit h1) 4) (hex_digit h2) :: unescape_wat_string s3
            else b :: unescape_wat_string s'
          | [] => b :: unescape_wat_string s'
          end
        end
      end
    else b :: unescape_wat_string s'
  end.

(** ** The parser *)

Record Parser := mkParser {
  src : list Z;
  pos : nat;
  lookahead : option Token;
  unget : option Token;
  func_names : list (list Z * Z);
  type_names : list (list Z * Z);
  local_names : list (list Z * Z);
  module : Asm.Module_
}.

Definition P := M Parser unit.

Definition set_tokens n la un p := mkParser (src p) n la un (func_names p) (type_names p) (local_names p) (module p).
Definition set_names f t l p := mkParser (src p) (pos p) (lookahead p) (unget p) f t l (module p).
Definition set_module m p := mkParser (src p) (pos p) (lookahead p) (unget p) (func_names p) (type_names p) (local_names p) m.

Definition new_parser (s : list Z) : result unit Parser :=
  let? t := next_token s 0 in Ok (mkParser s t.2 t.1 None [] [] [] Asm.empty_module).

Definition bump : P unit :=
  let! p := gets id in
  match unget p with
  | Some tok => modify (set_tokens (pos p) (Some tok) None)
  | None => let! t := lift (next_token (src p) (pos p)) in modify (set_tokens t.2 t.1 None)
  end.

Definition unget_lparen : P unit := modify (fun p => set_tokens (pos p) (Some LParen) (lookahead p) p).

Definition peek : P (option Token) := gets lookahead.

Definition is_lparen (t : option Token) : bool := match t with Some LParen => true | _ => false end.
Definition is_rparen (t : option Token) : bool := match t with Some RParen => true | _ => false end.
Definition is_kw (t : option Token) (kw : list Z) : bool :=
  match t with Some (Keyword k) => bytes_eqb k kw | _ => false end.

Definition expect_lparen : P unit := let! t := peek in if is_lparen t then bump else panic.
Definition expect_rparen : P unit := let! t := peek in if is_rparen t then bump else panic.
Definition expect_keyword (kw : list Z) : P unit := let! t := peek in if is_kw t kw then bump else panic.

Definition try_identifier : P (option (list Z)) :=
  let! t := peek in
  match t with Some (Identifier id) => do! bump in ret (Some id) | _ => ret None end.

Definition expect_string : P (list Z) :=
  let! t := peek in
  match t with Some (StringLiteral s) => do! bump in ret (unescape_wat_string s) | _ => panic end.

(** [depth] is an [i32] that starts at 1. *)
Fixpoint skip_loop (fuel : nat) (depth : Z) : P unit :=
  if depth <=? 0 then ret tt else
  match fuel with
  | O => lift OutOfFuel
  | S fuel' =>
    let! t := peek in
    match t with
    | Some LParen => do! bump in skip_loop fuel' (depth + 1)
    | Some RParen => do! bump in skip_loop fuel' (depth - 1)
    | Some _ => do! bump in skip_loop fuel' depth
    | None => panic
    end
  end.

(** An integer token as an index. *)
Definition int_token (dflt : Z) : P Z :=
  let! t := peek in match t with Some (Int n) => do! bump in ret (as_u32 n) | _ => ret dflt end.

Definition same_type (a b : Asm.FuncType) : bool :=
  bool_decide (Asm.params a = Asm.params b) && bool_decide (Asm.results a = Asm.results b).

Definition with_types ts (m : Asm.Module_) :=
  Asm.mkModule ts (Asm.imports m) (Asm.funcs m) (Asm.memories m) (Asm.exports m) (Asm.data m).
Definition with_imports x (m : Asm.Module_) :=
  Asm.mkModule (Asm.types m) x (Asm.funcs m) (Asm.memories m) (Asm.exports m) (Asm.data m).
Definition with_funcs x (m : Asm.Module_) :=
  Asm.mkModule (Asm.types m) (Asm.imports m) x (Asm.memories m) (Asm.exports m) (Asm.data m).
Definition with_memories x (m : Asm.Module_) :=
  Asm.mkModule (Asm.types m) (Asm.imports m) (Asm.funcs m) x (Asm.exports m) (Asm.data m).
Definition with_exports x (m : Asm.Module_) :=
  Asm.mkModule (Asm.types m) (Asm.imports m) (Asm.funcs m) (Asm.memories m) x (Asm.data m).
Definition with_data x (m : Asm.Module_) :=
  Asm.mkModule (Asm.types m) (Asm.imports m) (Asm.funcs m) (Asm.memories m) (Asm.exports m) x.

Definition on_module (f : Asm.Module_ -> Asm.Module_) : P unit := modify (fun p => set_module (f (module p)) p).
Definition get_module : P Asm.Module_ := gets module.

Definition intern_type (ft : Asm.FuncType) : P Z :=
  let! m := get_module in
  match position (fun t => same_type t ft) (Asm.types m) with
  | Some i => ret (as_u32 (Z.of_nat i))
  | None => do! on_module (with_types (Asm.types m ++ [ft])) in ret (Asm.len_u32 (Asm.types m))
  end.

(** The first pair with that name. *)
Definition assoc (names : list (list Z * Z)) (id : list Z) : option Z :=
  snd <$> List.find (fun e => bytes_eqb e.1 id) names.

(** The numeric suffix of an identifier. *)
Definition numeric_id (id : list Z) : P Z := let! n := lift (asm_parse_i32 (trim_start 36 id)) in ret (as_u32 n).

Definition resolve_type_name (id : list Z) : P Z :=
  let! names := gets type_names in
  match assoc names id with Some i => ret i | None => numeric_id id end.

(** [(type $idx)] behind its keyword. *)
Definition type_index : P Z :=
  let! t := peek in
  match t with
  | Some (Identifier id) => do! bump in resolve_type_name id
  | Some (Int n) => do! bump in ret (as_u32 n)
  | _ => panic
  end.

(** [while let Some(Keyword(kw)) = lookahead]: value types, until another token. *)
Fixpoint val_types (fuel : nat) (acc : list Asm.ValType) : P (list Asm.ValType) :=
  let! t := peek in
  match t with
  | Some (Keyword kw) =>
    match Asm.from_kw kw with
    | Some vt => match fuel with O => lift OutOfFuel | S fuel' => do! bump in val_types fuel' (acc ++ [vt]) end
    | None => ret acc
    end
  | _ => ret acc
  end.

Fixpoint parse_func_type_fields (fuel : nat) (ft : Asm.FuncType) : P Asm.FuncType :=
  let! t := peek in
  if negb (is_lparen t) then ret ft else
  match fuel with
  | O => lift OutOfFuel
  | S fuel' =>
    do! expect_lparen in
    let! t := peek in
    if is_kw t (str "param") then
      do! bump in
      do! try_identifier in
      let! ps := val_types fuel' (Asm.params ft) in
      do! expect_rparen in parse_func_type_fields fuel' (Asm.mkFuncType ps (Asm.results ft))
    else if is_kw t (str "result") then
      do! bump in
      let! rs := val_types fuel' (Asm.results ft) in
      do! expect_rparen in parse_func_type_fields fuel' (Asm.mkFuncType (Asm.params ft) rs)
    else do! skip_loop fuel' 1 in parse_func_type_fields fuel' ft
  end.

Definition no_type : Asm.FuncType := Asm.mkFuncType [] [].

(** One group whose [(] was consumed. *)
Definition parse_param_or_result_group (fuel : nat) (ft : Asm.FuncType) : P Asm.FuncType :=
  let! t := peek in
  if is_kw t (str "param") then
    do! bump in
    do! try_identifier in
    let! ps := val_types fuel (Asm.params ft) in
    do! expect_rparen in ret (Asm.mkFuncType ps (Asm.results ft))
  else if is_kw t (str "result") then
    do! bump in
    let! rs := val_types fuel (Asm.results ft) in
    do! expect_rparen in ret (Asm.mkFuncType (Asm.params ft) rs)
  else do! skip_loop fuel 1 in ret ft.

Fixpoint inline_groups (fuel : nat) (ft : Asm.FuncType) : P Asm.FuncType :=
  let! t := peek in
  if negb (is_lparen t) then ret ft else
  match fuel with
  | O => lift OutOfFuel
  | S fuel' =>
    do! expect_lparen in
    let! ft := parse_param_or_result_group fuel' ft in inline_groups fuel' ft
  end.

Definition finish_inline_func_type_after_lparen (fuel : nat) : P Asm.FuncType :=
  let! ft := parse_param_or_result_group fuel no_type in inline_groups fuel ft.

Definition parse_type_use (fuel : nat) : P Z :=
  let! t := peek in
  if is_lparen t then
    do! expect_lparen in
    let! t := peek in
    if is_kw t (str "type") then
      do! bump in
      let! idx := type_index in
      do! expect_rparen in
      do! parse_func_type_fields fuel no_type in ret idx
    else let! ft := finish_inline_func_type_after_lparen fuel in intern_type ft
  else intern_type no_type.

(** ** Instructions *)

Definition parse_label_idx : P Z :=
  let! t := peek in
  match t with
  | Some (Int n) => do! bump in ret (as_u32 n)
  | Some (Identifier _) => do! bump in ret 0
  | _ => ret 0
  end.

Definition parse_local_or_func_idx : P Z :=
  let! t := peek in
  match t with
  | Some (Int n) => do! bump in ret (as_u32 n)
  | Some (Identifier id) =>
    do! bump in
    let! names := gets local_names in
    match assoc names id with Some i => ret i | None => numeric_id id end
  | _ => ret 0
  end.

Definition parse_func_idx : P Z :=
  let! t := peek in
  match t with
  | Some (Int n) => do! bump in ret (as_u32 n)
  | Some (Identifier id) => do! bump in let! names := gets func_names in ret (default 0 (assoc names id))
  | _ => ret 0
  end.

Fixpoint parse_memarg (fuel : nat) (offset align : Z) : P (Z * Z) :=
  let! t := peek in
  match t with
  | Some (Keyword kw) =>
    if starts_with kw (str "offset=") then
      match fuel with
      | O => lift OutOfFuel
      | S fuel' => let! n := lift (asm_parse_i32 (drop 7 kw)) in do! bump in parse_memarg fuel' (as_u32 n) align
      end
    else if starts_with kw (str "align=") then
      match fuel with
      | O => lift OutOfFuel
      | S fuel' => let! n := lift (asm_parse_i32 (drop 6 kw)) in do! bump in parse_memarg fuel' offset (as_u32 n)
      end
    else ret (offset, align)
  | _ => ret (offset, align)
  end.

(** [(result T)], or nothing: any other [(] is put back. *)
Definition parse_block_type : P Z :=
  let! t := peek in
  if is_lparen t then
    do! bump in
    let! t := peek in
    if is_kw t (str "result") then
      do! bump in
      let! t := peek in
      let bt := match t with
                | Some (Keyword kw) => match Asm.from_kw kw with Some v => Asm.vt_byte v | None => 0x40 end
                | _ => 0x40 end in
      do! bump in do! expect_rparen in ret bt
    else do! unget_lparen in ret 0x40
  else ret 0x40.

Definition const_int : P Z := let! t := peek in match t with Some (Int n) => do! bump in ret n | _ => ret 0 end.
Definition const_float : P spec_float :=
  let! t := peek in
  match t with
  | Some (Float f) => do! bump in ret f
  | Some (Int n) => do! bump in ret (f32_of_int n)
  | _ => ret (S754_zero false)
  end.

(** The mnemonics without immediates. *)
Definition plain_ops : list (list Z * Asm.Plain) :=
  [ (str "else", Asm.Else_); (str "end", Asm.End_); (str "return", Asm.Return); (str "drop", Asm.Drop_); (str "select", Asm.Select);
    (str "unreachable", Asm.Unreachable); (str "nop", Asm.Nop);
    (str "i32.add", Asm.I32Add); (str "i32.sub", Asm.I32Sub); (str "i32.mul", Asm.I32Mul); (str "i32.div_s", Asm.I32DivS);
    (str "i32.div_u", Asm.I32DivU); (str "i32.rem_s", Asm.I32RemS); (str "i32.rem_u", Asm.I32RemU);
    (str "i32.and", Asm.I32And); (str "i32.or", Asm.I32Or); (str "i32.xor", Asm.I32Xor);
    (str "i32.shl", Asm.I32Shl); (str "i32.shr_s", Asm.I32ShrS); (str "i32.shr_u", Asm.I32ShrU);
    (str "i32.eqz", Asm.I32Eqz); (str "i32.eq", Asm.I32Eq); (str "i32.ne", Asm.I32Ne);
    (str "i32.lt_s", Asm.I32LtS); (str "i32.lt_u", Asm.I32LtU); (str "i32.gt_s", Asm.I32GtS); (str "i32.gt_u", Asm.I32GtU);
    (str "i32.le_s", Asm.I32LeS); (str "i32.le_u", Asm.I32LeU); (str "i32.ge_s", Asm.I32GeS); (str "i32.ge_u", Asm.I32GeU);
    (str "i64.add", Asm.I64Add); (str "i64.sub", Asm.I64Sub); (str "i64.mul", Asm.I64Mul);
    (str "i64.and", Asm.I64And); (str "i64.or", Asm.I64Or); (str "i64.xor", Asm.I64Xor);
    (str "i64.eqz", Asm.I64Eqz); (str "i64.eq", Asm.I64Eq); (str "i64.ne", Asm.I64Ne);
    (str "f32.add", Asm.F32Add); (str "f32.sub", Asm.F32Sub); (str "f32.mul", Asm.F32Mul); (str "f32.div", Asm.F32Div);
    (str "f64.add", Asm.F64Add); (str "f64.sub", Asm.F64Sub); (str "f64.mul", Asm.F64Mul); (str "f64.div", Asm.F64Div) ].

Definition mem_ops : list (list Z * Asm.Mem) :=
  [ (str "i32.load", Asm.I32Load); (str "i32.store", Asm.I32Store); (str "i32.load8_s", Asm.I32Load8S);
    (str "i32.load8_u", Asm.I32Load8U); (str "i32.store8", Asm.I32Store8) ].

Definition op_named {A} (ops : list (list Z * A)) (kw : list Z) : option A := snd <$> List.find (fun e => bytes_eqb e.1 kw) ops.

(** The immediates of [kw]; [None] for an unknown mnemonic. *)
Definition build_instr (fuel : nat) (kw : list Z) : P (option Asm.Instr) :=
  let named s := bytes_eqb kw s in
  if named (str "i32.const") then let! n := const_int in ret (Some (Asm.I32Const n)) else
  if named (str "i64.const") then let! n := const_int in ret (Some (Asm.I64Const n)) else
  if named (str "f32.const") then let! f := const_float in ret (Some (Asm.F32Const f)) else
  if named (str "f64.const") then let! f := const_float in ret (Some (Asm.F64Const f)) else
  if named (str "local.get") || named (str "get_local") then let! i := parse_local_or_func_idx in ret (Some (Asm.LocalGet i)) else
  if named (str "local.set") || named (str "set_local") then let! i := parse_local_or_func_idx in ret (Some (Asm.LocalSet i)) else
  if named (str "local.tee") || named (str "tee_local") then let! i := parse_local_or_func_idx in ret (Some (Asm.LocalTee i)) else
  if named (str "call") then let! i := parse_func_idx in ret (Some (Asm.Call i)) else
  if named (str "br") then let! l := parse_label_idx in ret (Some (Asm.Br l)) else
  if named (str "br_if") then let! l := parse_label_idx in ret (Some (Asm.BrIf l)) else
  if named (str "if") then let! t := parse_block_type in ret (Some (Asm.If t)) else
  if named (str "loop") then let! t := parse_block_type in ret (Some (Asm.Loop t)) else
  if named (str "block") then let! t := parse_block_type in ret (Some (Asm.Block t)) else
  match op_named mem_ops kw with
  | Some m => let! r := parse_memarg fuel 0 0 in ret (Some (Asm.Access m r.1 r.2))
  | None => ret (Asm.Op <$> op_named plain_ops kw)
  end.

Definition parse_plain_instr (fuel : nat) : P (option Asm.Instr) :=
  let! t := peek in
  match t with Some (Keyword k) => do! bump in build_instr fuel k | _ => ret None end.

Definition opt_list {A} (o : option A) : list A := match o with Some a => [a] | None => [] end.

(** [block] or [loop] is the next token; [body] parses its instructions. *)
Definition parse_folded_block_or_loop (body : P (list Asm.Instr)) : P (list Asm.Instr) :=
  let! t := peek in
  let op := if is_kw t (str "loop") then Asm.Loop else Asm.Block in
  do! bump in
  do! try_identifier in
  let! bt := parse_block_type in
  let! b := body in
  do! expect_rparen in
  ret ([op bt] ++ b ++ [Asm.Op Asm.End_]).

(** Instruction sequences, folded expressions and their operand lists call
    each other; every call spends one unit. *)
Fixpoint parse_instrs (fuel : nat) (acc : list Asm.Instr) : P (list Asm.Instr) :=
  match fuel with
  | O => lift OutOfFuel
  | S fuel' =>
    let! t := peek in
    match t with
    | Some RParen | None => ret acc
    | Some LParen => do! bump in let! folded := parse_folded_instr fuel' in parse_instrs fuel' (acc ++ folded)
    | Some (Keyword _) => let! i := parse_plain_instr fuel' in parse_instrs fuel' (acc ++ opt_list i)
    | _ => do! bump in parse_instrs fuel' acc
    end
  end
with parse_folded_instr (fuel : nat) : P (list Asm.Instr) :=
  match fuel with
  | O => lift OutOfFuel
  | S fuel' =>
    let! t := peek in
    if is_kw t (str "if") then
      do! bump in
      do! try_identifier in
      let! bt := parse_block_type in
      let! ct := folded_then fuel' [] in
      let! t := peek in
      let! els :=
        if is_lparen t then
          do! bump in
          let! t := peek in
          if is_kw t (str "else") then do! bump in let! e := parse_instrs fuel' [] in do! expect_rparen in ret e
          else do! skip_loop fuel' 1 in ret []
        else ret [] in
      do! expect_rparen in
      ret (ct.1 ++ [Asm.If bt] ++ ct.2 ++ (if Asm.is_empty els then [] else Asm.Op Asm.Else_ :: els) ++ [Asm.Op Asm.End_])
    else if is_kw t (str "block") || is_kw t (str "loop") then
      parse_folded_block_or_loop (parse_instrs fuel' [])
    else
      match t with
      | Some (Keyword kw) =>
        do! bump in
        let! op := build_instr fuel' kw in
        let! subs := folded_operands fuel' [] in
        do! expect_rparen in
        ret (subs ++ opt_list op)
      | _ => do! skip_loop fuel' 1 in ret []
      end
  end
with folded_operands (fuel : nat) (acc : list Asm.Instr) : P (list Asm.Instr) :=
  match fuel with
  | O => lift OutOfFuel
  | S fuel' =>
    let! t := peek in
    if is_lparen t then do! bump in let! si := parse_folded_instr fuel' in folded_operands fuel' (acc ++ si)
    else ret acc
  end
with folded_then (fuel : nat) (cond : list Asm.Instr) : P (list Asm.Instr * list Asm.Instr) :=
  match fuel with
  | O => lift OutOfFuel
  | S fuel' =>
    let! t := peek in
    if is_lparen t then
      do! bump in
      let! t := peek in
      if is_kw t (str "then") then
        do! bump in let! th := parse_instrs fuel' [] in do! expect_rparen in ret (cond, th)
      else let! sub := parse_folded_instr fuel' in folded_then fuel' (cond ++ sub)
    else ret (cond, [])
  end.

(** ** Module fields *)

Definition push_name (get : Parser -> list (list Z * Z)) (set : list (list Z * Z) -> Parser -> Parser)
    (nm : option (list Z)) (i : Z) : P unit :=
  match nm with Some n => modify (fun p => set (get p ++ [(n, i)]) p) | None => ret tt end.
Definition push_func_name := push_name func_names (fun l p => set_names l (type_names p) (local_names p) p).
Definition push_type_name := push_name type_names (fun l p => set_names (func_names p) l (local_names p) p).
Definition push_local_name := push_name local_names (fun l p => set_names (func_names p) (type_names p) l p).

Definition parse_type_def (fuel : nat) : P unit :=
  do! bump in
  let! name := try_identifier in
  do! expect_lparen in
  do! expect_keyword (str "func") in
  let! ft := parse_func_type_fields fuel no_type in
  do! expect_rparen in
  let! m := get_module in
  let idx := Asm.len_u32 (Asm.types m) in
  do! on_module (with_types (Asm.types m ++ [ft])) in
  do! push_type_name name idx in
  expect_rparen.

Definition parse_import (fuel : nat) : P unit :=
  do! bump in
  let! mod_bytes := expect_string in
  let! name_bytes := expect_string in
  do! expect_lparen in
  let! t := peek in
  if is_kw t (str "func") then
    do! bump in
    let! m := get_module in
    let! n := try_identifier in
    do! push_func_name n (Asm.len_u32 (Asm.imports m)) in
    let! ti := parse_type_use fuel in
    do! on_module (fun m => with_imports (Asm.imports m ++ [Asm.mkImport mod_bytes name_bytes ti]) m) in
    do! expect_rparen in
    expect_rparen
  else skip_loop fuel 1.

(** What the header of a function collects. *)
Record Header := mkHeader {
  next_local : Z;
  type_parsed : bool;
  h_type_idx : Z;
  h_type : Asm.FuncType;
  h_locals : list Asm.ValType
}.

(** [next_local += 1] *)
Definition succ_u32 (n : Z) : result unit Z := if n + 1 <? 4294967296 then Ok (n + 1) else Panic.

(** A parameter or local list: one named type, or types until another token. *)
Fixpoint unnamed_types (fuel : nat) (next : Z) (acc : list Asm.ValType) : P (Z * list Asm.ValType) :=
  let! t := peek in
  match t with
  | Some (Keyword kw) =>
    match Asm.from_kw kw with
    | Some vt =>
      match fuel with
      | O => lift OutOfFuel
      | S fuel' => let! n := lift (succ_u32 next) in do! bump in unnamed_types fuel' n (acc ++ [vt])
      end
    | None => ret (next, acc)
    end
  | _ => ret (next, acc)
  end.

Definition typed_names (fuel : nat) (next : Z) (acc : list Asm.ValType) : P (Z * list Asm.ValType) :=
  let! nm := try_identifier in
  match nm with
  | Some name =>
    let! t := peek in
    match t with
    | Some (Keyword kw) =>
      match Asm.from_kw kw with
      | Some vt =>
        do! push_local_name (Some name) next in
        let! n := lift (succ_u32 next) in
        do! bump in ret (n, acc ++ [vt])
      | None => ret (next, acc)
      end
    | _ => ret (next, acc)
    end
  | None => unnamed_types fuel next acc
  end.

(** The type index, interned unless it was given. *)
Definition header_type (h : Header) : P Z := if type_parsed h then ret (h_type_idx h) else intern_type (h_type h).

Definition finish_func (h : Header) (ti : Z) (body : list Asm.Instr) : P unit :=
  do! on_module (fun m => with_funcs (Asm.funcs m ++ [Asm.mkFuncDef ti (h_locals h) body]) m) in
  expect_rparen.

(** The header groups, then the body. *)
Fixpoint func_loop (fuel : nat) (fidx : Z) (h : Header) : P unit :=
  match fuel with
  | O => lift OutOfFuel
  | S fuel' =>
    let! t := peek in
    if is_lparen t then
      do! bump in
      let! t := peek in
      if is_kw t (str "export") then
        do! bump in
        let! nm := expect_string in
        do! expect_rparen in
        do! on_module (fun m => with_exports (Asm.exports m ++ [Asm.mkExport nm 0x00 fidx]) m) in
        func_loop fuel' fidx h
      else if is_kw t (str "import") then
        do! bump in
        let! mod_bytes := expect_string in
        let! name_bytes := expect_string in
        do! expect_rparen in
        let! ti := intern_type (h_type h) in
        do! on_module (fun m => with_imports (Asm.imports m ++ [Asm.mkImport mod_bytes name_bytes ti]) m) in
        expect_rparen
      else if is_kw t (str "type") then
        do! bump in
        let! ti := type_index in
        do! expect_rparen in
        func_loop fuel' fidx (mkHeader (next_local h) true ti (h_type h) (h_locals h))
      else if is_kw t (str "param") then
        do! bump in
        let! r := typed_names fuel' (next_local h) (Asm.params (h_type h)) in
        do! expect_rparen in
        func_loop fuel' fidx (mkHeader r.1 (type_parsed h) (h_type_idx h) (Asm.mkFuncType r.2 (Asm.results (h_type h))) (h_locals h))
      else if is_kw t (str "result") then
        do! bump in
        let! rs := val_types fuel' (Asm.results (h_type h)) in
        do! expect_rparen in
        func_loop fuel' fidx (mkHeader (next_local h) (type_parsed h) (h_type_idx h) (Asm.mkFuncType (Asm.params (h_type h)) rs) (h_locals h))
      else if is_kw t (str "local") then
        let! ti := header_type h in
        do! bump in
        let! r := typed_names fuel' (next_local h) (h_locals h) in
        do! expect_rparen in
        func_loop fuel' fidx (mkHeader r.1 true ti (h_type h) r.2)
      else
        let! ti := header_type h in
        let! b := parse_folded_instr fuel' in
        let! rest := parse_instrs fuel' [] in
        finish_func h ti (b ++ rest)
    else
      let! ti := header_type h in
      let! b := parse_instrs fuel' [] in
      finish_func h ti b
  end.

Definition parse_func_def (fuel : nat) : P unit :=
  do! bump in
  let! name := try_identifier in
  let! m := get_module in
  let fidx := as_u32 (Z.of_nat (length (Asm.imports m) + length (Asm.funcs m))) in
  do! push_func_name name fidx in
  do! modify (fun p => set_names (func_names p) (type_names p) [] p) in
  func_loop fuel fidx (mkHeader 0 false 0 no_type []).

Definition parse_memory (fuel : nat) : P unit :=
  do! bump in
  do! try_identifier in
  let! t := peek in
  let! stop :=
    if is_lparen t then
      do! bump in
      let! t := peek in
      if is_kw t (str "import") then do! skip_loop fuel 1 in do! expect_rparen in ret true
      else do! skip_loop fuel 1 in ret false
    else ret false in
  if stop : bool then ret tt else
  let! mi := int_token 0 in
  let! t := peek in
  let! ma := match t with Some (Int n) => do! bump in ret (Some (as_u32 n)) | _ => ret None end in
  do! on_module (fun m => with_memories (Asm.memories m ++ [Asm.mkMemory mi ma]) m) in
  expect_rparen.

Definition export_kind (t : option Token) : option Z :=
  if is_kw t (str "func") then Some 0x00 else
  if is_kw t (str "memory") then Some 0x02 else
  if is_kw t (str "table") then Some 0x01 else
  if is_kw t (str "global") then Some 0x03 else None.

Definition parse_export (fuel : nat) : P unit :=
  do! bump in
  let! nm := expect_string in
  do! expect_lparen in
  let! t := peek in
  match export_kind t with
  | Some k =>
    do! bump in
    let! i := parse_func_idx in
    do! expect_rparen in
    do! expect_rparen in
    on_module (fun m => with_exports (Asm.exports m ++ [Asm.mkExport nm k i]) m)
  | None => do! skip_loop fuel 1 in expect_rparen
  end.

(** [while let Some(StringLiteral(_)) = lookahead] *)
Fixpoint data_strings (fuel : nat) (acc : list Z) : P (list Z) :=
  let! t := peek in
  match t with
  | Some (StringLiteral _) =>
    match fuel with
    | O => lift OutOfFuel
    | S fuel' => let! b := expect_string in data_strings fuel' (acc ++ b)
    end
  | _ => ret acc
  end.

Definition parse_data (fuel : nat) : P unit :=
  do! bump in
  let! mi := int_token 0 in
  let! t := peek in
  let! off :=
    if is_lparen t then
      do! bump in
      let! t := peek in
      do! (if is_kw t (str "offset") then do! bump in bump else ret tt) in
      do! expect_keyword (str "i32.const") in
      let! n := const_int in
      do! expect_rparen in ret n
    else ret 0 in
  let! bs := data_strings fuel [] in
  do! on_module (fun m => with_data (Asm.data m ++ [Asm.mkDataSeg mi off bs]) m) in
  expect_rparen.

(** One field, its [(] consumed. *)
Definition module_field (fuel : nat) : P unit :=
  let! t := peek in
  if is_kw t (str "type") then parse_type_def fuel else
  if is_kw t (str "import") then parse_import fuel else
  if is_kw t (str "func") then parse_func_def fuel else
  if is_kw t (str "memory") then parse_memory fuel else
  if is_kw t (str "export") then parse_export fuel else
  if is_kw t (str "data") then parse_data fuel else
  if is_kw t (str "table") || is_kw t (str "elem") || is_kw t (str "global") || is_kw t (str "start")
  then do! bump in skip_loop fuel 1
  else skip_loop fuel 1.

Fixpoint module_fields (fuel : nat) : P unit :=
  let! t := peek in
  if negb (is_lparen t) then ret tt else
  match fuel with
  | O => lift OutOfFuel
  | S fuel' => do! expect_lparen in do! module_field fuel' in module_fields fuel'
  end.

Definition parse_module (fuel : nat) : P Asm.Module_ :=
  do! expect_lparen in
  do! expect_keyword (str "module") in
  do! try_identifier in
  do! module_fields fuel in
  do! expect_rparen in
  get_module.

(** Units enough for any source: see [assemble_terminates]. *)
Definition asm_fuel (s : list Z) : nat := (4 * length s + 8)%nat.

(** [Parser::new], [parse_module] and the emitter. *)
Definition assemble (s : list Z) : result unit (list Z) :=
  let? p := new_parser s in
  let? m := (parse_module (asm_fuel s) p).1 in
  Ok (Asm.emit_module m).
