(* ===== verification/AsmParseSpec.v ===== *)
(** * The assembler terminates

    Every loop of the parser consumes a token, and every token at least one
    byte, so the fuel of [assemble] is never used up: on any source the
    assembler answers or panics. *)

From S2P Require Import Prelude FloatOps Text AsmEmit AsmParse.

(** ** Scanning *)

Lemma span_while_le p l : (span_while p l <= length l)%nat.
Proof. induction l as [|b l IH]; cbn; [lia|]. destruct (p b); lia. Qed.

Lemma skip_len_le c l : (skip_len c l <= length l)%nat.
Proof.
  revert c. induction l as [l IH] using (induction_ltof1 _ length). unfold ltof in IH. intros c. destruct l as [|b l]; cbn; [lia|].
  assert (forall c', skip_len c' l <= length l)%nat as IHl by (intros c'; apply IH; cbn; lia).
  destruct c; [specialize (IHl (negb (b =? 10))); lia|]. destruct (is_whitespace b); [specialize (IHl false); lia|].
  destruct (b =? 59); [|lia]. destruct l as [|b2 l]; [lia|]. destruct (b2 =? 59); [|cbn; lia].
  assert (skip_len true l <= length l)%nat by (apply IH; cbn; lia). cbn. lia.
Qed.

(** Skipping stops at a byte that is not white space. *)
Lemma skip_len_stop b l c : l !! skip_len b l = Some c -> is_whitespace c = false.
Proof.
  revert b. induction l as [l IH] using (induction_ltof1 _ length). unfold ltof in IH. intros b. destruct l as [|x l]; cbn [skip_len]; [done|].
  destruct b; [apply IH; cbn; lia|]. destruct (is_whitespace x) eqn:Ew; [apply IH; cbn; lia|].
  destruct (x =? 59); [|by intros [= <-]]. destruct l as [|y l]; [by intros [= <-]|]. destruct (y =? 59); [|by intros [= <-]].
  apply (IH l); cbn; lia.
Qed.

Lemma span_while_pos p l c : head l = Some c -> p c = true -> (0 < span_while p l)%nat.
Proof. destruct l as [|x l]; [done|]. intros [= ->] Hp. cbn. rewrite Hp. lia. Qed.

Lemma str_slice_not_fuel {E} s a b : str_slice (E := E) s a b <> OutOfFuel.
Proof. unfold str_slice. by destruct (_ && _). Qed.

Lemma asm_digits_not_fuel s r : asm_digits s r <> OutOfFuel.
Proof. revert r. induction s as [|c s IH]; intros r; cbn; [done|]. destruct (is_digit_byte c); [|apply IH]. by destruct (_ <? _). Qed.

Lemma asm_parse_i32_not_fuel s : asm_parse_i32 s <> OutOfFuel.
Proof.
  pose proof (asm_digits_not_fuel s 0) as H. unfold asm_parse_i32. repeat case_split; try done.
  match goal with |- context [asm_digits ?l 0] => pose proof (asm_digits_not_fuel l 0) end. by destruct (asm_digits _ 0).
Qed.

Lemma asm_parse_f32_not_fuel s : asm_parse_f32 s <> OutOfFuel.
Proof. unfold asm_parse_f32. pose proof (asm_parse_i32_not_fuel (default (str "0") (split_dot (trim_start 45 s) !! 0%nat))) as H. by destruct (asm_parse_i32 _). Qed.

(** A token ends behind its start and on the source. *)
Definition token_ok (s : list Z) (start : nat) (r : result unit (Token * nat)) : Prop :=
  match r with Ok (_, e) => (start < e <= length s)%nat | OutOfFuel => False | _ => True end.

Lemma slice_token {A} s a b (k : list Z -> result unit A) (Q : result unit A -> Prop) :
  (forall x, Q (k x)) -> Q Panic -> Q (let? x := str_slice s a b in k x).
Proof. intros Hk Hp. unfold str_slice. destruct (_ && _); cbn; auto. Qed.

Lemma next_token_ok s pos : (pos <= length s)%nat ->
  match next_token s pos with
  | Ok (Some _, e) => (pos < e <= length s)%nat
  | Ok (None, e) => (pos <= e <= length s)%nat
  | OutOfFuel => False
  | _ => True
  end.
Proof.
  intros Hp. unfold next_token. pose proof (skip_len_le false (drop pos s)) as Hsk. rewrite length_drop in Hsk.
  set (q := (pos + skip_len false (drop pos s))%nat) in *. assert (pos <= q <= length s)%nat as Hq by (unfold q; lia).
  destruct (s !! q) as [c|] eqn:Hsq; [|lia]. pose proof (lookup_lt_Some _ _ _ Hsq) as Ec.
  assert (head (drop q s) = Some c) as Hhd by (by rewrite head_lookup, lookup_drop, Nat.add_0_r).
  assert (is_whitespace c = false) as Hws by (apply (skip_len_stop false (drop pos s)); by rewrite lookup_drop).
  assert (forall r, token_ok s q r -> match (let? t := r in Ok (Some t.1, t.2)) with
    | Ok (Some _, e) => (pos < e <= length s)%nat | Ok (None, e) => (pos <= e <= length s)%nat | OutOfFuel => False | _ => True end) as Hr.
  { intros [[t e]|e| |] He; cbn in *; try done. lia. }
  assert (forall p k, (k <= length s)%nat -> (k + span_while p (drop k s) <= length s)%nat) as Hspan.
  { intros p k Hk. pose proof (span_while_le p (drop k s)) as Hw. rewrite length_drop in Hw. lia. }
  destruct (c =? 40) eqn:E40; [lia|]. destruct (c =? 41) eqn:E41; [lia|].
  destruct (c =? 36) eqn:E36; [|destruct (c =? 34) eqn:E34; [|destruct (is_digit_byte c || (c =? 45)) eqn:En]]; apply Hr.
  - unfold read_identifier. apply (slice_token _ _ _ _ (token_ok s q)); [|done]. intros x. cbn [token_ok]. pose proof (Hspan is_ident_char (q + 1)%nat). lia.
  - unfold read_string. apply (slice_token _ _ _ _ (token_ok s q)); [|done]. intros x. cbn [token_ok]. pose proof (Hspan is_string_char (q + 1)%nat).
    destruct (_ <? _)%nat eqn:El; zbool; lia.
  - unfold read_number. apply (slice_token _ _ _ _ (token_ok s q)); [|done]. intros x.
    set (first := match s !! q with Some 45 => (q + 1)%nat | _ => q end).
    assert (q < first + span_while is_number_char (drop first s) <= length s)%nat as Hend.
    { unfold first. destruct (Z.eq_dec c 45) as [->|Hc].
      - rewrite Hsq. pose proof (Hspan is_number_char (q + 1)%nat). lia.
      - assert (match s !! q with Some 45 => (q + 1)%nat | _ => q end = q) as ->.
        { rewrite Hsq. destruct c as [|p|p]; try done. repeat (destruct p as [p|p|]; try done). }
        pose proof (Hspan is_number_char q). pose proof (span_while_pos is_number_char (drop q s) c Hhd) as Hpos.
        apply orb_true_iff in En as [En|En]; [|zbool; lia]. unfold is_number_char in *. rewrite En, orb_true_r in Hpos. specialize (Hpos eq_refl). lia. }
    destruct (bool_decide _); cbn.
    + pose proof (asm_parse_f32_not_fuel x). by destruct (asm_parse_f32 x).
    + pose proof (asm_parse_i32_not_fuel x). by destruct (asm_parse_i32 x).
  - unfold read_keyword. apply (slice_token _ _ _ _ (token_ok s q)); [|done]. intros x. cbn [token_ok]. pose proof (Hspan is_keyword_char q).
    pose proof (span_while_pos is_keyword_char (drop q s) c Hhd) as Hpos. unfold is_keyword_char in *.
    rewrite Hws, E40, E41 in Hpos. specialize (Hpos eq_refl). lia.
Qed.

(** ** The measure *)

Definition held (t : option Token) : nat := match t with Some _ => 1 | None => 0 end.

(** Twice the bytes left and the tokens held. *)
Definition mu (p : Parser) : nat := (2 * (length (src p) - pos p) + held (lookahead p) + held (unget p))%nat.
Definition parser_ok (p : Parser) : Prop := (pos p <= length (src p))%nat.

(** [m] ends from [p], in a state satisfying [Q], or panics. *)
Definition ends {A} (m : P A) (p : Parser) (Q : A -> Parser -> Prop) : Prop :=
  match m p with (Ok a, p') => Q a p' | (OutOfFuel, _) => False | _ => True end.

(** [p'] is at least [k] tokens further. *)
Definition further (k : nat) (p p' : Parser) : Prop := parser_ok p' /\ (mu p' + k <= mu p)%nat.

Lemma ends_bind {A B} (m : P A) (k : A -> P B) p Q : ends m p (fun a p' => ends (k a) p' Q) -> ends (bind m k) p Q.
Proof. unfold ends, bind. by destruct (m p) as [[a|e| |] p']. Qed.

Lemma ends_mono {A} (m : P A) p (Q R : A -> Parser -> Prop) : ends m p Q -> (forall a p', Q a p' -> R a p') -> ends m p R.
Proof. unfold ends. destruct (m p) as [[a|e| |] p']; auto. Qed.

Lemma bump_ends p : parser_ok p -> ends bump p (fun _ p' => further (held (lookahead p)) p p').
Proof.
  intros Hp. unfold bump, ends, bind, gets, id. destruct (unget p) as [tok|] eqn:Eu.
  - cbn. unfold further, parser_ok, mu. cbn. rewrite Eu. cbn. split; [exact Hp|lia].
  - unfold lift. pose proof (next_token_ok (src p) (pos p) Hp) as Ht. destruct (next_token (src p) (pos p)) as [[[t|] e]|e| |]; try done;
      cbn; unfold further, parser_ok, mu; cbn; rewrite Eu; cbn; (split; [lia|]); destruct (lookahead p); cbn; lia.
Qed.

(** ** Automation: running a parser forward *)

Lemma ends_ret {A} (a : A) p (Q : A -> Parser -> Prop) : Q a p -> ends (ret a) p Q.
Proof. done. Qed.
Lemma ends_panic {A} p (Q : A -> Parser -> Prop) : ends panic p Q.
Proof. done. Qed.
Lemma ends_gets {A B} (f : Parser -> A) (k : A -> P B) p Q : ends (k (f p)) p Q -> ends (bind (gets f) k) p Q.
Proof. done. Qed.
Lemma ends_lift {A B} (r : result unit A) (k : A -> P B) p Q :
  r <> OutOfFuel -> (forall a, ends (k a) p Q) -> ends (bind (lift r) k) p Q.
Proof. intros Hr Hk. unfold ends, bind, lift. destruct r; try done. apply Hk. Qed.

Lemma is_kw_held t kw : is_kw t kw = true -> held t = 1%nat.
Proof. by destruct t. Qed.
Lemma is_lparen_held t : is_lparen t = true -> held t = 1%nat.
Proof. by destruct t. Qed.
Lemma is_rparen_held t : is_rparen t = true -> held t = 1%nat.
Proof. by destruct t. Qed.

Lemma is_kw2_held t a b : is_kw t a || is_kw t b = true -> held t = 1%nat.
Proof. by destruct t. Qed.
Lemma is_kw4_held t a b c d : is_kw t a || is_kw t b || is_kw t c || is_kw t d = true -> held t = 1%nat.
Proof. by destruct t. Qed.

Create HintDb parse discriminated.
#[export] Hint Resolve bump_ends asm_parse_i32_not_fuel : parse.
#[export] Hint Extern 2 (_ <= _)%nat => lia : parse.
#[export] Hint Extern 2 (_ < _)%nat => lia : parse.
#[export] Hint Extern 1 (parser_ok _) => assumption : parse.

(** What a test or a match on the lookahead says about the tokens held. *)
Ltac learn :=
  repeat match goal with
  | H : is_kw ?t _ = true |- _ => apply is_kw_held in H
  | H : is_kw ?t _ || is_kw ?t _ = true |- _ => apply is_kw2_held in H
  | H : is_kw ?t _ || is_kw ?t _ || is_kw ?t _ || is_kw ?t _ = true |- _ => apply is_kw4_held in H
  | H : is_lparen ?t = true |- _ => apply is_lparen_held in H
  | H : is_rparen ?t = true |- _ => apply is_rparen_held in H
  | H : negb _ = false |- _ => apply negb_false_iff in H
  | H : lookahead ?p = Some _ |- _ => apply (f_equal held) in H; cbn [held] in H
  | H : lookahead ?p = None |- _ => clear H
  | H : further _ _ _ |- _ => destruct H
  end.

(** One call: its lemma from the database, the facts it leaves. *)
Ltac pcall :=
  apply ends_bind; eapply ends_mono; [solve [eauto 4 with parse]|cbv beta; intros ? ? ?; learn].

Ltac pcase :=
  match goal with
  | |- ends ((if ?b then _ else _) _) _ _ => destruct b eqn:?; learn
  | |- ends (if ?b then _ else _) _ _ => destruct b eqn:?; learn
  | |- ends (match ?x with _ => _ end) _ _ => destruct x eqn:?; learn
  end.

Ltac pstep :=
  match goal with
  | |- ends panic _ _ => apply ends_panic
  | |- ends (bind (gets _) _) _ _ => apply ends_gets
  | |- ends (bind (lift _) _) _ _ => apply ends_lift; [solve [eauto with parse]|intros ?]
  | |- ends (bind (if _ then _ else _) _) _ _ => apply ends_bind
  | |- ends (bind (match _ with _ => _ end) _) _ _ => apply ends_bind
  | |- ends (bind _ _) _ _ => first [pcall | apply ends_bind]
  | |- ends (ret _) _ _ => apply ends_ret; cbv beta
  | |- _ => pcase
  | |- ends _ _ _ => eapply ends_mono; [solve [eauto 4 with parse]|cbv beta; intros ? ? ?; learn]
  end.

Ltac pdone := cbv beta; learn; (split; [assumption|lia]).

Ltac parse := unfold peek in *; repeat pstep; try pdone.

Lemma expect_lparen_ends p : parser_ok p -> ends expect_lparen p (fun _ p' => further 1 p p').
Proof. intros Hp. unfold expect_lparen. parse. Qed.
Lemma expect_rparen_ends p : parser_ok p -> ends expect_rparen p (fun _ p' => further 1 p p').
Proof. intros Hp. unfold expect_rparen. parse. Qed.
Lemma expect_keyword_ends kw p : parser_ok p -> ends (expect_keyword kw) p (fun _ p' => further 1 p p').
Proof. intros Hp. unfold expect_keyword. parse. Qed.
Lemma try_identifier_ends p : parser_ok p -> ends try_identifier p (fun _ p' => further 0 p p').
Proof. intros Hp. unfold try_identifier. parse. Qed.
Lemma expect_string_ends p : parser_ok p -> ends expect_string p (fun _ p' => further 1 p p').
Proof. intros Hp. unfold expect_string. parse. Qed.
#[export] Hint Resolve expect_lparen_ends expect_rparen_ends expect_keyword_ends try_identifier_ends expect_string_ends : parse.

(** ** Loops over tokens *)

Lemma skip_loop_ends fuel d p : parser_ok p -> (mu p < fuel)%nat -> ends (skip_loop fuel d) p (fun _ p' => further 0 p p').
Proof.
  revert d p. induction fuel as [|fuel IH]; intros d p Hp Hf; [lia|]. cbn [skip_loop]. destruct (d <=? 0); [parse|].
  unfold peek. apply ends_gets. destruct (lookahead p) as [[]|] eqn:E; learn; try apply ends_panic;
    (pcall; eapply ends_mono; [apply IH; [assumption|lia]|cbv beta; intros; pdone]).
Qed.
#[export] Hint Resolve skip_loop_ends : parse.

Lemma val_types_ends fuel acc p : parser_ok p -> (mu p < fuel)%nat -> ends (val_types fuel acc) p (fun _ p' => further 0 p p').
Proof.
  revert acc p. induction fuel as [|fuel IH]; intros acc p Hp Hf; [lia|]. cbn [val_types]. parse.
Qed.
#[export] Hint Resolve val_types_ends : parse.

Lemma func_type_fields_ends fuel ft p : parser_ok p -> (mu p < fuel)%nat -> ends (parse_func_type_fields fuel ft) p (fun _ p' => further 0 p p').
Proof.
  revert ft p. induction fuel as [|fuel IH]; intros ft p Hp Hf; [lia|]. cbn [parse_func_type_fields].
  parse.
Qed.

Lemma param_group_ends fuel ft p : parser_ok p -> (mu p < fuel)%nat -> ends (parse_param_or_result_group fuel ft) p (fun _ p' => further 0 p p').
Proof. intros Hp Hf. unfold parse_param_or_result_group. parse. Qed.
#[export] Hint Resolve func_type_fields_ends param_group_ends : parse.

Lemma inline_groups_ends fuel ft p : parser_ok p -> (mu p < fuel)%nat -> ends (inline_groups fuel ft) p (fun _ p' => further 0 p p').
Proof.
  revert ft p. induction fuel as [|fuel IH]; intros ft p Hp Hf; [lia|]. cbn [inline_groups].
  parse.
Qed.
#[export] Hint Resolve inline_groups_ends : parse.

(** Changes of the module and of the name tables leave the tokens alone. *)
Lemma on_module_ends f p : parser_ok p -> ends (on_module f) p (fun _ p' => further 0 p p').
Proof. intros Hp. unfold on_module, ends, modify. split; [exact Hp|]. unfold mu. cbn. lia. Qed.
Lemma set_names_ends f p : parser_ok p -> ends (modify (fun p => set_names (f p).1.1 (f p).1.2 (f p).2 p)) p (fun _ p' => further 0 p p').
Proof. intros Hp. unfold ends, modify. split; [exact Hp|]. unfold mu. cbn. lia. Qed.
Lemma push_func_name_ends n i p : parser_ok p -> ends (push_func_name n i) p (fun _ p' => further 0 p p').
Proof. intros Hp. unfold push_func_name, push_name, ends, modify. destruct n; (split; [exact Hp|unfold mu; cbn; lia]). Qed.
Lemma push_type_name_ends n i p : parser_ok p -> ends (push_type_name n i) p (fun _ p' => further 0 p p').
Proof. intros Hp. unfold push_type_name, push_name, ends, modify. destruct n; (split; [exact Hp|unfold mu; cbn; lia]). Qed.
Lemma push_local_name_ends n i p : parser_ok p -> ends (push_local_name n i) p (fun _ p' => further 0 p p').
Proof. intros Hp. unfold push_local_name, push_name, ends, modify. destruct n; (split; [exact Hp|unfold mu; cbn; lia]). Qed.
#[export] Hint Resolve on_module_ends push_func_name_ends push_type_name_ends push_local_name_ends : parse.

Lemma clear_locals_ends p : parser_ok p -> ends (modify (fun p => set_names (func_names p) (type_names p) [] p)) p (fun _ p' => further 0 p p').
Proof. intros Hp. apply (set_names_ends (fun p => (func_names p, type_names p, []))). exact Hp. Qed.
#[export] Hint Resolve clear_locals_ends : parse.

Lemma intern_type_ends ft p : parser_ok p -> ends (intern_type ft) p (fun _ p' => further 0 p p').
Proof. intros Hp. unfold intern_type, get_module. parse. Qed.
Lemma numeric_id_ends i p : parser_ok p -> ends (numeric_id i) p (fun _ p' => further 0 p p').
Proof. intros Hp. unfold numeric_id. parse. Qed.
#[export] Hint Resolve intern_type_ends numeric_id_ends : parse.

Lemma resolve_type_name_ends i p : parser_ok p -> ends (resolve_type_name i) p (fun _ p' => further 0 p p').
Proof. intros Hp. unfold resolve_type_name. parse. Qed.
#[export] Hint Resolve resolve_type_name_ends : parse.
Lemma type_index_ends p : parser_ok p -> ends type_index p (fun _ p' => further 1 p p').
Proof. intros Hp. unfold type_index. parse. Qed.
#[export] Hint Resolve type_index_ends : parse.

Lemma finish_inline_ends fuel p : parser_ok p -> (mu p < fuel)%nat ->
  ends (finish_inline_func_type_after_lparen fuel) p (fun _ p' => further 0 p p').
Proof. intros Hp Hf. unfold finish_inline_func_type_after_lparen. parse. Qed.
#[export] Hint Resolve finish_inline_ends : parse.

Lemma parse_type_use_ends fuel p : parser_ok p -> (mu p < fuel)%nat -> ends (parse_type_use fuel) p (fun _ p' => further 0 p p').
Proof. intros Hp Hf. unfold parse_type_use. parse. Qed.
#[export] Hint Resolve parse_type_use_ends : parse.

(** ** Instructions *)

Lemma label_idx_ends p : parser_ok p -> ends parse_label_idx p (fun _ p' => further 0 p p').
Proof. intros Hp. unfold parse_label_idx. parse. Qed.
Lemma local_idx_ends p : parser_ok p -> ends parse_local_or_func_idx p (fun _ p' => further 0 p p').
Proof. intros Hp. unfold parse_local_or_func_idx. parse. Qed.
Lemma func_idx_ends p : parser_ok p -> ends parse_func_idx p (fun _ p' => further 0 p p').
Proof. intros Hp. unfold parse_func_idx. parse. Qed.
Lemma const_int_ends p : parser_ok p -> ends const_int p (fun _ p' => further 0 p p').
Proof. intros Hp. unfold const_int. parse. Qed.
Lemma const_float_ends p : parser_ok p -> ends const_float p (fun _ p' => further 0 p p').
Proof. intros Hp. unfold const_float. parse. Qed.
Lemma int_token_ends d p : parser_ok p -> ends (int_token d) p (fun _ p' => further 0 p p').
Proof. intros Hp. unfold int_token. parse. Qed.
Lemma memarg_ends fuel o a p : parser_ok p -> (mu p < fuel)%nat -> ends (parse_memarg fuel o a) p (fun _ p' => further 0 p p').
Proof.
  revert o a p. induction fuel as [|fuel IH]; intros o a p Hp Hf; [lia|]. cbn [parse_memarg].
  parse.
Qed.
#[export] Hint Resolve label_idx_ends local_idx_ends func_idx_ends const_int_ends const_float_ends int_token_ends memarg_ends : parse.

(** The [(] put back costs no more than the one consumed. *)
Lemma unget_lparen_ends p q : parser_ok p -> (mu p + 1 <= mu q)%nat -> unget p = None ->
  ends unget_lparen p (fun _ p' => further 0 q p').
Proof.
  intros Hp Hq Hu. unfold unget_lparen, ends, modify. split; [exact Hp|]. unfold mu in *. cbn. rewrite Hu in Hq. cbn in Hq. lia.
Qed.

Lemma bump_unget p : ends bump p (fun _ p' => unget p' = None) \/ ~ parser_ok p.
Proof.
  destruct (decide (pos p <= length (src p))%nat) as [Hp|]; [left|by right]. pose proof (next_token_ok (src p) (pos p) Hp) as Ht.
  unfold bump, ends, bind, gets, id, lift, modify. destruct (unget p); [done|]. by destruct (next_token (src p) (pos p)) as [[[t|] e]|e| |].
Qed.

Lemma bump_ends' p : parser_ok p -> ends bump p (fun _ p' => further (held (lookahead p)) p p' /\ unget p' = None).
Proof.
  intros Hp. pose proof (bump_ends p Hp) as H1. destruct (bump_unget p) as [H2|]; [|done]. unfold ends in *. by destruct (bump p) as [[a|e| |] p'].
Qed.

Lemma block_type_ends p : parser_ok p -> ends parse_block_type p (fun _ p' => further 0 p p').
Proof.
  intros Hp. unfold parse_block_type, peek. apply ends_gets. destruct (is_lparen (lookahead p)) eqn:E; learn; [|parse].
  apply ends_bind. eapply ends_mono; [by apply bump_ends'|]. cbv beta. intros _ p1 [H1 Hu]. learn. apply ends_gets.
  destruct (is_kw (lookahead p1) _) eqn:E1; learn; [parse|].
  apply ends_bind. eapply ends_mono; [apply (unget_lparen_ends p1 p); [done|lia|done]|]. cbv beta. intros. by apply ends_ret.
Qed.
#[export] Hint Resolve block_type_ends : parse.

Lemma build_instr_ends fuel kw p : parser_ok p -> (mu p < fuel)%nat -> ends (build_instr fuel kw) p (fun _ p' => further 0 p p').
Proof. intros Hp Hf. unfold build_instr. cbv zeta. parse. Qed.
#[export] Hint Resolve build_instr_ends : parse.

Lemma plain_instr_ends fuel p : parser_ok p -> (mu p < fuel)%nat -> ends (parse_plain_instr fuel) p (fun _ p' => further (match lookahead p with Some (Keyword _) => 1 | _ => 0 end) p p').
Proof. intros Hp Hf. unfold parse_plain_instr. parse. Qed.

(** The four mutually recursive readers, by the fuel they share. *)
Lemma instrs_end fuel :
  (forall acc p, parser_ok p -> (mu p + 2 <= fuel)%nat -> ends (parse_instrs fuel acc) p (fun _ p' => further 0 p p')) /\
  (forall p, parser_ok p -> (mu p + 2 <= fuel)%nat -> ends (parse_folded_instr fuel) p (fun _ p' => further 0 p p')) /\
  (forall acc p, parser_ok p -> (mu p + 2 <= fuel)%nat -> ends (folded_operands fuel acc) p (fun _ p' => further 0 p p')) /\
  (forall acc p, parser_ok p -> (mu p + 2 <= fuel)%nat -> ends (folded_then fuel acc) p (fun _ p' => further 0 p p')).
Proof.
  induction fuel as [|fuel (IH1 & IH2 & IH3 & IH4)]; [split_and!; intros; lia|].
  split_and!; intros; cbn [parse_instrs parse_folded_instr folded_operands folded_then].
  - unfold peek. apply ends_gets. destruct (lookahead p) as [[]|] eqn:E; try (by apply ends_ret; split; [|lia]).
    2: { apply ends_bind. eapply ends_mono; [apply plain_instr_ends; [done|lia]|]. cbv beta. rewrite E. intros ? ? ?. learn. parse. }
    all: learn; parse.
  - unfold parse_folded_block_or_loop. parse.
  - parse.
  - parse.
Qed.

Lemma parse_instrs_ends fuel acc p : parser_ok p -> (mu p + 2 <= fuel)%nat -> ends (parse_instrs fuel acc) p (fun _ p' => further 0 p p').
Proof. apply (instrs_end fuel). Qed.
Lemma folded_instr_ends fuel p : parser_ok p -> (mu p + 2 <= fuel)%nat -> ends (parse_folded_instr fuel) p (fun _ p' => further 0 p p').
Proof. apply (instrs_end fuel). Qed.
#[export] Hint Resolve parse_instrs_ends folded_instr_ends : parse.

(** ** Module fields *)

Lemma succ_u32_not_fuel n : succ_u32 n <> OutOfFuel.
Proof. unfold succ_u32. by destruct (_ <? _). Qed.
#[export] Hint Resolve succ_u32_not_fuel : parse.

Lemma unnamed_types_ends fuel n acc p : parser_ok p -> (mu p < fuel)%nat -> ends (unnamed_types fuel n acc) p (fun _ p' => further 0 p p').
Proof. revert n acc p. induction fuel as [|fuel IH]; intros n acc p Hp Hf; [lia|]. cbn [unnamed_types]. parse. Qed.
#[export] Hint Resolve unnamed_types_ends : parse.
Lemma typed_names_ends fuel n acc p : parser_ok p -> (mu p < fuel)%nat -> ends (typed_names fuel n acc) p (fun _ p' => further 0 p p').
Proof. intros Hp Hf. unfold typed_names. parse. Qed.
Lemma header_type_ends h p : parser_ok p -> ends (header_type h) p (fun _ p' => further 0 p p').
Proof. intros Hp. unfold header_type. parse. Qed.
Lemma finish_func_ends h t b p : parser_ok p -> ends (finish_func h t b) p (fun _ p' => further 0 p p').
Proof. intros Hp. unfold finish_func. parse. Qed.
#[export] Hint Resolve typed_names_ends header_type_ends finish_func_ends : parse.

Lemma func_loop_ends fuel i h p : parser_ok p -> (mu p + 3 <= fuel)%nat -> ends (func_loop fuel i h) p (fun _ p' => further 0 p p').
Proof. revert h p. induction fuel as [|fuel IH]; intros h p Hp Hf; [lia|]. cbn [func_loop]. parse. Qed.
#[export] Hint Resolve func_loop_ends : parse.

Lemma data_strings_ends fuel acc p : parser_ok p -> (mu p < fuel)%nat -> ends (data_strings fuel acc) p (fun _ p' => further 0 p p').
Proof. revert acc p. induction fuel as [|fuel IH]; intros acc p Hp Hf; [lia|]. cbn [data_strings]. parse. Qed.
#[export] Hint Resolve data_strings_ends : parse.

Lemma module_field_ends fuel p : parser_ok p -> (mu p + 2 <= fuel)%nat -> ends (module_field fuel) p (fun _ p' => further 0 p p').
Proof.
  intros Hp Hf. unfold module_field, peek. apply ends_gets.
  destruct (is_kw _ _) eqn:E1; learn; [unfold parse_type_def, get_module; parse|].
  destruct (is_kw _ (str "import")) eqn:E2; learn; [unfold parse_import, get_module; parse|].
  destruct (is_kw _ (str "func")) eqn:E3; learn; [unfold parse_func_def, get_module; parse|].
  destruct (is_kw _ (str "memory")) eqn:E4; learn; [unfold parse_memory; parse|].
  destruct (is_kw _ (str "export")) eqn:E5; learn; [unfold parse_export; parse|].
  destruct (is_kw _ (str "data")) eqn:E6; learn; [unfold parse_data; parse|]. parse.
Qed.
#[export] Hint Resolve module_field_ends : parse.

Lemma module_fields_ends fuel p : parser_ok p -> (mu p + 2 <= fuel)%nat -> ends (module_fields fuel) p (fun _ p' => further 0 p p').
Proof. revert p. induction fuel as [|fuel IH]; intros p Hp Hf; [lia|]. cbn [module_fields]. parse. Qed.
#[export] Hint Resolve module_fields_ends : parse.

Lemma parse_module_ends fuel p : parser_ok p -> (mu p + 2 <= fuel)%nat -> ends (parse_module fuel) p (fun _ p' => True).
Proof. intros Hp Hf. unfold parse_module, get_module. parse. by apply ends_gets. Qed.

Lemma new_parser_ok s :
  match new_parser s with Ok p => parser_ok p /\ (mu p <= 2 * length s + 1)%nat | OutOfFuel => False | _ => True end.
Proof.
  unfold new_parser. pose proof (next_token_ok s 0 ltac:(lia)) as Ht. destruct (next_token s 0) as [[[t|] e]|e| |]; try done;
    cbn; unfold parser_ok, mu; cbn; lia.
Qed.

Lemma assemble_not_fuel s : assemble s <> OutOfFuel.
Proof.
  unfold assemble. pose proof (new_parser_ok s) as Hn. destruct (new_parser s) as [p|e| |]; try done. destruct Hn as [Hp Hm]. cbn [rbind].
  pose proof (parse_module_ends (asm_fuel s) p Hp ltac:(unfold asm_fuel; lia)) as He. unfold ends in He.
  by destruct (parse_module (asm_fuel s) p) as [[m|e| |] p'].
Qed.

(** * Folded expressions compile to postfix code

    A folded expression's operands are emitted before its operator, left to
    right, however deep it is nested. *)

(** ** Token streams *)

(** The tokens of [s] from [pos] on. *)
Inductive lexes (s : list Z) : nat -> list Token -> Prop :=
| lexes_nil pos e : next_token s pos = Ok (None, e) -> lexes s pos []
| lexes_cons pos t e ts : next_token s pos = Ok (Some t, e) -> lexes s e ts -> lexes s pos (t :: ts).

(** What the parser will see: the lookahead, the token put back, the rest. *)
Definition stream (p : Parser) (ts : list Token) : Prop :=
  exists l, lexes (src p) (pos p) l /\
    match lookahead p with
    | Some t => ts = t :: match unget p with Some u => u :: l | None => l end
    | None => ts = [] /\ unget p = None
    end.

(** The name tables and the module are kept. *)
Definition same_env (p p' : Parser) : Prop :=
  func_names p' = func_names p /\ type_names p' = type_names p /\ local_names p' = local_names p /\ module p' = module p.

#[export] Instance same_env_preorder : PreOrder same_env.
Proof. split; [by intros p|]. intros a b c (?&?&?&?) (?&?&?&?). repeat split; congruence. Qed.

Lemma stream_head p t ts : stream p (t :: ts) -> lookahead p = Some t.
Proof. intros (l & _ & H). destruct (lookahead p); [by injection H as -> _|by destruct H]. Qed.

Lemma bump_stream p t t' ts : stream p (t :: t' :: ts) -> exists p', bump p = (Ok tt, p') /\ stream p' (t' :: ts) /\ same_env p p'.
Proof.
  intros (l & Hl & H). destruct (lookahead p) as [x|] eqn:Ela; [|by destruct H]. injection H as -> H. unfold bump, bind, gets, id.
  destruct (unget p) as [u|] eqn:Eu.
  - injection H as -> ->. eexists. split; [reflexivity|]. split; [|by repeat split]. exists l. by split.
  - subst l. inversion Hl as [|? ? e ? Ht Hl']; subst. unfold lift. rewrite Ht. eexists. split; [reflexivity|]. split; [|by repeat split].
    exists ts. by split.
Qed.

(** ** Expressions *)

Inductive expr :=
| EConst (n : Z)
| EGet (i : Z)
| EOp (kw : list Z) (op : Asm.Plain) (args : list expr).

(** Postfix code. *)
Fixpoint flatten (e : expr) : list Asm.Instr :=
  match e with
  | EConst n => [Asm.I32Const n]
  | EGet i => [Asm.LocalGet (as_u32 i)]
  | EOp _ op args => concat (map flatten args) ++ [Asm.Op op]
  end.

(** The tokens behind the opening parenthesis. *)
Fixpoint folded (e : expr) : list Token :=
  match e with
  | EConst n => [Keyword (str "i32.const"); Int n; RParen]
  | EGet i => [Keyword (str "local.get"); Int i; RParen]
  | EOp kw _ args => Keyword kw :: concat (map (fun a => LParen :: folded a) args) ++ [RParen]
  end.

Fixpoint expr_ok (e : expr) : Prop :=
  match e with
  | EConst _ | EGet _ => True
  | EOp kw op args => (kw, op) ∈ plain_ops /\ (fix all l := match l with [] => True | a :: l => expr_ok a /\ all l end) args
  end.

(** The fuel an expression takes. *)
Fixpoint depth (e : expr) : nat :=
  match e with
  | EConst _ | EGet _ => 2
  | EOp _ _ args => S (fold_right (fun a n => S (Nat.max (depth a) n)) 1 args)
  end%nat.

Definition args_depth (args : list expr) : nat := fold_right (fun a n => S (Nat.max (depth a) n)) 1%nat args.
Definition args_tokens (args : list expr) : list Token := concat (map (fun a => LParen :: folded a) args).
Definition args_ok (args : list expr) : Prop := (fix all l := match l with [] => True | a :: l => expr_ok a /\ all l end) args.

Lemma folded_head e : exists k l, folded e = Keyword k :: l /\ l <> [].
Proof. destruct e as [n|i|kw op args]; eexists _, _; (split; [reflexivity|done || idtac]). by destruct (concat _). Qed.

(** A mnemonic without immediates is just its instruction, and opens no block. *)
Lemma plain_mnemonic kw op fuel : (kw, op) ∈ plain_ops ->
  build_instr fuel kw = ret (Some (Asm.Op op)) /\ bytes_eqb kw (str "if") = false /\
  bytes_eqb kw (str "block") = false /\ bytes_eqb kw (str "loop") = false.
Proof.
  assert (Forall (fun e => build_instr fuel e.1 = ret (Some (Asm.Op e.2)) /\ bytes_eqb e.1 (str "if") = false /\
    bytes_eqb e.1 (str "block") = false /\ bytes_eqb e.1 (str "loop") = false) plain_ops) as Hall.
  { unfold plain_ops. repeat (apply Forall_cons; [split_and!; vm_compute; reflexivity|]). apply Forall_nil. }
  rewrite Forall_forall in Hall. intros Hin. apply (Hall (kw, op)). by apply list_elem_of_In.
Qed.

(** One step of a run over a known stream. *)
Ltac peek_at H := unfold bind at 1, peek at 1, gets at 1; rewrite (stream_head _ _ _ H).
Ltac bump_at H p' Hp' Henv :=
  let E := fresh in destruct (bump_stream _ _ _ _ H) as (p' & E & Hp' & Henv); unfold bind at 1; rewrite E; clear E.

Lemma operands_stop fuel acc p ts : stream p (RParen :: ts) -> folded_operands (S fuel) acc p = (Ok acc, p).
Proof. intros H. cbn [folded_operands]. by peek_at H. Qed.

(** An instruction with one integer operand. *)
Lemma immediate_folds fuel kw n (mk : Z -> Asm.Instr) p t rest :
  (forall q ts, stream q (Int n :: RParen :: ts) -> exists q', build_instr (S fuel) kw q = (Ok (Some (mk n)), q') /\ stream q' (RParen :: ts) /\ same_env q q') ->
  bytes_eqb kw (str "if") = false -> bytes_eqb kw (str "block") = false -> bytes_eqb kw (str "loop") = false ->
  stream p ([Keyword kw; Int n; RParen] ++ t :: rest) ->
  exists p', parse_folded_instr (S (S fuel)) p = (Ok [mk n], p') /\ stream p' (t :: rest) /\ same_env p p'.
Proof.
  intros Hb H1 H2 H3 H. cbn [app] in H. cbn [parse_folded_instr]. peek_at H. cbn [is_kw]. rewrite H1, H2, H3. cbn [orb].
  bump_at H p1 S1 E1. destruct (Hb p1 _ S1) as (p2 & B2 & S2 & E2). unfold bind at 1. rewrite B2.
  unfold bind at 1. rewrite (operands_stop _ _ _ _ S2). unfold bind at 1, expect_rparen. peek_at S2. cbn [is_rparen].
  destruct (bump_stream _ _ _ _ S2) as (p3 & B3 & S3 & E3). rewrite B3. exists p3. split; [done|]. split; [done|].
  etrans; [exact E1|]. by etrans.
Qed.

Lemma const_builds fuel n q ts : stream q (Int n :: RParen :: ts) ->
  exists q', build_instr fuel (str "i32.const") q = (Ok (Some (Asm.I32Const n)), q') /\ stream q' (RParen :: ts) /\ same_env q q'.
Proof.
  intros H. destruct (bump_stream _ _ _ _ H) as (q' & B & S' & E'). exists q'. split; [|done].
  change (build_instr fuel (str "i32.const")) with (let! n := const_int in ret (Some (Asm.I32Const n)) : P (option Asm.Instr)).
  unfold bind at 1, const_int. peek_at H. unfold bind at 1. by rewrite B.
Qed.

Lemma get_builds fuel i q ts : stream q (Int i :: RParen :: ts) ->
  exists q', build_instr fuel (str "local.get") q = (Ok (Some (Asm.LocalGet (as_u32 i))), q') /\ stream q' (RParen :: ts) /\ same_env q q'.
Proof.
  intros H. destruct (bump_stream _ _ _ _ H) as (q' & B & S' & E'). exists q'. split; [|done].
  change (build_instr fuel (str "local.get")) with (let! i := parse_local_or_func_idx in ret (Some (Asm.LocalGet i)) : P (option Asm.Instr)).
  unfold bind at 1, parse_local_or_func_idx. peek_at H. unfold bind at 1. by rewrite B.
Qed.

Lemma fold_postfix fuel :
  (forall e p t rest, expr_ok e -> (depth e <= fuel)%nat -> stream p (folded e ++ t :: rest) ->
     exists p', parse_folded_instr fuel p = (Ok (flatten e), p') /\ stream p' (t :: rest) /\ same_env p p') /\
  (forall args acc p rest, args_ok args -> (args_depth args <= fuel)%nat -> stream p (args_tokens args ++ RParen :: rest) ->
     exists p', folded_operands fuel acc p = (Ok (acc ++ concat (map flatten args)), p') /\ stream p' (RParen :: rest) /\ same_env p p').
Proof.
  induction fuel as [|fuel [IHe IHa]]; [split; [intros [] * _ Hd _; cbn in Hd; lia|intros [] * _ Hd _; cbn in Hd; lia]|]. split.
  - intros e p t rest Hok Hd H. destruct e as [n|i|kw op args]; cbn [folded flatten depth] in *.
    + destruct fuel as [|fuel]; [lia|]. apply (immediate_folds fuel _ n Asm.I32Const p t rest (const_builds (S fuel) n)); done.
    + destruct fuel as [|fuel]; [lia|]. apply (immediate_folds fuel _ i (fun i => Asm.LocalGet (as_u32 i)) p t rest (get_builds (S fuel) i)); done.
    + destruct Hok as [Hin Hargs]. destruct (plain_mnemonic kw op fuel Hin) as (Hb & H1 & H2 & H3).
      rewrite <- app_comm_cons, <- app_assoc in H. cbn [app] in H. fold (args_tokens args) in H.
      cbn [parse_folded_instr]. peek_at H. cbn [is_kw]. rewrite H1, H2, H3. cbn [orb].
      assert (exists t0 l, args_tokens args ++ RParen :: t :: rest = t0 :: l) as (t0 & l & El) by (destruct args; eexists _, _; reflexivity).
      rewrite El in H. bump_at H p1 S1 E1. rewrite <- El in S1. rewrite Hb. unfold bind at 1, ret at 1.
      destruct (IHa args [] p1 (t :: rest) Hargs ltac:(unfold args_depth; lia) S1) as (p2 & B2 & S2 & E2). unfold bind at 1. rewrite B2.
      unfold bind at 1, expect_rparen. peek_at S2. cbn [is_rparen]. destruct (bump_stream _ _ _ _ S2) as (p3 & B3 & S3 & E3). rewrite B3.
      exists p3. split; [done|]. split; [done|]. etrans; [exact E1|]. by etrans.
  - intros args acc p rest Hok Hd H. destruct args as [|a args].
    + exists p. rewrite (operands_stop _ _ _ _ H). cbn. by rewrite app_nil_r.
    + destruct Hok as [Ha Hargs]. cbn in Hd. change (args_tokens (a :: args)) with ((LParen :: folded a) ++ args_tokens args) in H.
      rewrite <- app_assoc in H. cbn [app] in H. cbn [folded_operands]. peek_at H. cbn [is_lparen].
      destruct (folded_head a) as (k & l & Ek & _). rewrite Ek in H. cbn [app] in H. bump_at H p1 S1 E1.
      assert (exists t0 l0, args_tokens args ++ RParen :: rest = t0 :: l0) as (t0 & l0 & El) by (destruct args; eexists _, _; reflexivity).
      rewrite El in S1. change (Keyword k :: l ++ t0 :: l0) with ((Keyword k :: l) ++ t0 :: l0) in S1. rewrite <- Ek in S1.
      destruct (IHe a p1 t0 l0 Ha ltac:(lia) S1) as (p2 & B2 & S2 & E2). unfold bind at 1. rewrite B2. rewrite <- El in S2.
      destruct (IHa args (acc ++ flatten a) p2 rest Hargs ltac:(unfold args_depth; lia) S2) as (p3 & B3 & S3 & E3). exists p3. rewrite B3.
      cbn [map concat]. rewrite <- app_assoc. split; [done|]. split; [done|]. etrans; [exact E1|]. by etrans.
Qed.
