(* ===== verification/ShellText.v ===== *)
(** * The shell's text routines

    The history ring, the tokenizer, the number and hex parsers, the working
    directory and the argument strings ([kernel/src/shell/mod.rs] and
    [kernel/src/shell/commands/]). *)

From S2P Require Import Prelude NetStack Text Fat.

(** ** Constants *)

Definition CWD_MAX : nat := 128.
Definition MAX_ARGS : nat := 8.
Definition HISTORY_LEN : nat := 16.
Definition MAX_LINE : nat := 128.

Inductive ShellError := TooManyArgs.

(** ** History *)

Record HistoryBuf := mkHistory {
  lines : list (list Z);
  lens : list nat;
  head : nat;
  len : nat
}.

Definition new_history : HistoryBuf :=
  mkHistory (replicate HISTORY_LEN (replicate MAX_LINE 0)) (replicate HISTORY_LEN 0%nat) 0 0.

(** [dst[..n].copy_from_slice(&src[..n])] *)
Definition copy_front {A} (src : list A) (n : nat) (dst : list A) : list A := take n src ++ drop n dst.

Definition push_line (s : list Z) (h : HistoryBuf) : result unit HistoryBuf :=
  let copy_len := Nat.min (length s) MAX_LINE in
  let? row := or_panic (lines h !! head h) in
  Ok (mkHistory (<[head h := copy_front s copy_len row]> (lines h)) (<[head h := copy_len]> (lens h))
        ((head h + 1) mod HISTORY_LEN) (if (len h <? HISTORY_LEN)%nat then len h + 1 else len h)).

Definition get_line (i : nat) (h : HistoryBuf) : result unit (list Z) :=
  let start := if (len h <? HISTORY_LEN)%nat then 0%nat else head h in
  let idx := ((start + i) mod HISTORY_LEN)%nat in
  let? n := or_panic (lens h !! idx) in
  let? row := or_panic (lines h !! idx) in
  let? bs := slice_range row 0 n in
  Ok (default [] (from_utf8 bs)).

(** ** Tokenizer *)

Definition is_blank (b : Z) : bool := (b =? 32) || (b =? 9).
Definition is_quote (b : Z) : bool := b =? 34.

(** Where the token at [i] starts and ends, and where the scan goes on. *)
Definition token_at (line : list Z) (i : nat) : nat * nat * nat :=
  if is_quote (default 0 (line !! i)) then
    let start := (i + 1)%nat in
    let e := (start + span_while (fun b => negb (is_quote b)) (drop start line))%nat in
    (start, e, if (e <? length line)%nat then (e + 1)%nat else e)
  else
    let e := (i + span_while (fun b => negb (is_blank b)) (drop i line))%nat in
    (i, e, e).

Fixpoint tokenize_loop (fuel : nat) (line : list Z) (i : nat) (out : list (list Z)) : result ShellError (list (list Z)) :=
  if (length line <=? i)%nat then Ok out else
  match fuel with
  | O => OutOfFuel
  | S fuel' =>
    let i := (i + span_while is_blank (drop i line))%nat in
    if (length line <=? i)%nat then Ok out else
    let '(start, e, next) := token_at line i in
    if (MAX_ARGS <=? length out)%nat then Err TooManyArgs else
    let? s := str_slice line start e in
    tokenize_loop fuel' line next (out ++ [s])
  end.

Definition tokenize (line : list Z) : result ShellError (list (list Z)) := tokenize_loop (length line) line 0 [].

(** ** Numbers *)

(** The digits of [s] onto [val], in a type whose largest value is [max]. *)
Fixpoint parse_digits (max : Z) (s : list Z) (val : Z) : option Z :=
  match s with
  | [] => Some val
  | b :: s' =>
    if (b <? 48) || (57 <? b) then None else
    if max <? val * 10 then None else
    if max <? val * 10 + (b - 48) then None else
    parse_digits max s' (val * 10 + (b - 48))
  end.

Definition parse_i32 (s : list Z) : option Z :=
  match s with
  | [] => None
  | b :: s' =>
    let '(negative, digits) := if b =? 45 then (true, s') else (false, s) in
    match digits with
    | [] => None
    | _ => (fun v => if negative then - v else v) <$> parse_digits 2147483647 digits 0
    end
  end.

Definition parse_usize (s : list Z) : option Z :=
  match s with [] => None | _ => parse_digits USIZE_MAX s 0 end.

(** ** Hex strings *)

Definition hex_nibble (b : Z) : option Z :=
  if (48 <=? b) && (b <=? 57) then Some (b - 48) else
  if (97 <=? b) && (b <=? 102) then Some (b - 97 + 10) else
  if (65 <=? b) && (b <=? 70) then Some (b - 65 + 10) else None.

Fixpoint hex_pairs (src : list Z) : option (list Z) :=
  match src with
  | hi :: lo :: src' =>
    h ← hex_nibble hi; l ← hex_nibble lo; rest ← hex_pairs src';
    Some (Z.lor (Z.land (Z.shiftl h 4) 255) l :: rest)
  | _ => Some []
  end.

(** The bytes decoded, at most [cap] of them. *)
Definition hex_decode (hex : list Z) (cap : nat) : option (list Z) :=
  if negb (length hex mod 2 =? 0)%nat then None else
  if (cap <? length hex / 2)%nat then None else hex_pairs hex.

(** ** Paths *)

(** [resolve_fat_path] of [cat] and of [asm]: the path below the root for a
    name given the working directory. *)
Definition resolve_fat_path (cwd name : list Z) : list Z :=
  if starts_with name (str "/") then name else
  if bytes_eqb cwd (str "/") then name else
  trim_start 47 cwd ++ [47] ++ name.

(** [resolve] of [cd]: an absolute path without trailing slashes. *)
Definition cd_resolve (cwd target : list Z) : list Z :=
  let raw :=
    if starts_with target (str "/") then target else
    if bytes_eqb target (str "..") then
      match rfind_slash cwd with
      | Some O | None => str "/"
      | Some pos => take pos cwd
      end
    else (if ends_with cwd (str "/") then cwd else cwd ++ [47]) ++ target in
  let trimmed := trim_end 47 raw in
  if bool_decide (trimmed = []) then str "/" else trimmed.

Definition is_wat_file (name : list Z) : bool := ends_with name (str ".wat").
Definition wat_to_wasm_name (name : list Z) : list Z :=
  if ends_with name (str ".wat") then take (length name - 4) name ++ str ".wasm" else name.

(** ** Program arguments *)

Definition RAW_CAP : nat := 128.

(** The arguments joined with spaces into a buffer of [RAW_CAP] bytes. *)
Fixpoint join_args (first : bool) (args : list (list Z)) (raw : list Z) : list Z :=
  match args with
  | [] => raw
  | s :: args' =>
    let raw := if negb first && (length raw <? RAW_CAP)%nat then raw ++ [32] else raw in
    join_args false args' (raw ++ take (RAW_CAP - length raw) s)
  end.

(** The arguments as integers, at most eight; [inr] is the one that is none. *)
Fixpoint parse_args (args : list (list Z)) (acc : list Z) : list Z + list Z :=
  match args with
  | [] => inl acc
  | s :: args' =>
    if (8 <=? length acc)%nat then inl acc else
    match parse_i32 s with
    | Some n => parse_args args' (acc ++ [n])
    | None => inr s
    end
  end.

(** ** Formatting *)

(** The number of characters of a string. *)
Definition char_count (s : list Z) : nat := length (List.filter (fun b => negb (is_cont b)) s).
(** [{:>w}] and [{:<w}] *)
Definition pad_left (w : nat) (s : list Z) : list Z := replicate (w - char_count s) 32 ++ s.
Definition pad_right (w : nat) (s : list Z) : list Z := s ++ replicate (w - char_count s) 32.
Definition show_u64 (n : Z) : list Z := dec_text 19 n [].

(** * What the shell's text routines compute *)

(** ** Tokenizer *)

(** The text goes on at a character boundary. *)
Definition starts_char (s : list Z) : bool := match s with b :: _ => negb ((128 <=? b) && (b <? 192)) | [] => true end.

Lemma utf8_starts_char s : utf8_valid s = true -> starts_char s = true.
Proof.
  destruct s as [|b s]; [done|]. unfold starts_char. cbn [utf8_valid].
  destruct (128 <=? b) eqn:E1, (b <? 192) eqn:E2; try done. zbool.
  destruct (b <=? 127) eqn:E3; zbool; [lia|].
  by rewrite !(proj2 (Z.leb_gt _ b)) by lia.
Qed.

Lemma boundary_app a b : starts_char b = true -> is_char_boundary (a ++ b) (length a) = true.
Proof.
  intros Hb. unfold is_char_boundary. rewrite length_app.
  destruct b as [|x b]; [rewrite Nat.add_0_r, Nat.eqb_refl; by rewrite orb_true_r|].
  rewrite list_lookup_middle by done. unfold starts_char in Hb. rewrite Hb. by rewrite orb_true_r.
Qed.

Lemma str_slice_app {E} a b c :
  starts_char (b ++ c) = true -> starts_char c = true ->
  str_slice (E := E) (a ++ b ++ c) (length a) (length a + length b) = Ok b.
Proof.
  intros Hb Hc. unfold str_slice. rewrite boundary_app by done.
  assert (is_char_boundary (a ++ b ++ c) (length a + length b) = true) as ->
    by (rewrite <- length_app, app_assoc; by apply boundary_app).
  rewrite !length_app, !(proj2 (Nat.leb_le _ _)) by lia. cbn [andb].
  rewrite drop_app_length. replace (length a + length b - length a)%nat with (length b) by lia. by rewrite take_app_length.
Qed.

Lemma span_while_app p a b :
  Forall (fun x => p x = true) a -> match b with x :: _ => p x = false | [] => True end ->
  span_while p (a ++ b) = length a.
Proof.
  induction 1 as [|x a Hx _ IH]; intros Hb; cbn; [destruct b as [|y b]; cbn; [done|by rewrite Hb]|].
  by rewrite Hx, IH.
Qed.

(** A word that needs no quotes, and how a word is typed. *)
Definition plain (w : list Z) : bool :=
  match w with b :: _ => negb (is_quote b) && forallb (fun b => negb (is_blank b)) w | [] => false end.
Definition spell (w : list Z) : list Z := if plain w then w else [34] ++ w ++ [34].

Definition spellable (w : list Z) : Prop :=
  utf8_valid w = true /\ (plain w = true \/ Forall (fun b => is_quote b = false) w).

(** Words typed with blanks before each and at the end. *)
Definition typed (ws : list (list Z * list Z)) (tl : list Z) : list Z :=
  flat_map (fun x => x.1 ++ spell x.2) ws ++ tl.

Definition blanks (b : list Z) : Prop := Forall (fun x => is_blank x = true) b.

Definition separated (ws : list (list Z * list Z)) : Prop := Forall (fun x => blanks x.1 /\ x.1 <> [] /\ spellable x.2) ws.

(** What follows a word begins with a blank, if anything follows. *)
Definition blank_next (r : list Z) : Prop := match r with b :: _ => is_blank b = true | [] => True end.

Lemma separated_blank_next ws tl : separated ws -> blanks tl -> blank_next (typed ws tl).
Proof.
  intros [|[b w] ws' (Hb & Hn & _) _] Ht; [by destruct Ht|].
  unfold typed. cbn [flat_map fst] in *. destruct b; [done|]. by inversion Hb.
Qed.

Lemma blank_starts_char r : blank_next r -> starts_char r = true.
Proof. destruct r as [|b r]; [done|]. cbn. unfold is_blank. intros H. destruct (128 <=? b) eqn:E; [|done]. zbool. destruct (b <? 192); lia. Qed.

Lemma starts_char_app a b : starts_char a = true -> starts_char b = true -> starts_char (a ++ b) = true.
Proof. by destruct a. Qed.

Lemma spell_not_blank w r : match spell w ++ r with x :: _ => is_blank x = false | [] => True end.
Proof.
  unfold spell. destruct (plain w) eqn:E; [|done]. unfold plain in E. destruct w as [|b w]; [done|].
  cbn in *. zbool. done.
Qed.

(** Reading the word at the end of [pre]. *)
Lemma token_at_spell pre w r :
  spellable w -> blank_next r ->
  exists start e, token_at (pre ++ spell w ++ r) (length pre) = (start, e, (length pre + length (spell w))%nat) /\
    str_slice (E := ShellError) (pre ++ spell w ++ r) start e = Ok w.
Proof.
  intros [Hv Hs] Hr. assert (starts_char w = true /\ starts_char r = true) as [Hcw Hcr].
  { split; [by apply utf8_starts_char|by apply blank_starts_char]. }
  unfold token_at. destruct (plain w) eqn:Ep; unfold spell; rewrite Ep.
  - unfold plain in Ep. destruct w as [|b w]; [done|]. apply andb_prop in Ep as [Hq Hw]. apply negb_true_iff in Hq.
    cbn [app]. rewrite list_lookup_middle by done. change (default 0 (Some b)) with b. rewrite Hq. rewrite drop_app_length.
    change (b :: w ++ r) with ((b :: w) ++ r). rewrite span_while_app.
    + eexists _, _. split; [reflexivity|]. by apply (str_slice_app pre (b :: w) r).
    + rewrite Forall_forall. rewrite forallb_forall in Hw. intros x Hx. by apply Hw.
    + destruct r as [|x r]; [done|]. cbn in Hr. by rewrite Hr.
  - destruct Hs as [|Hs]; [done|]. cbn [app]. rewrite list_lookup_middle by done. change (is_quote (default 0 (Some 34))) with true. cbv iota.
    assert (pre ++ 34 :: (w ++ [34]) ++ r = (pre ++ [34]) ++ w ++ [34] ++ r) as -> by (by rewrite <- !app_assoc).
    assert (length pre + 1 = length (pre ++ [34%Z]))%nat as -> by by rewrite length_app.
    rewrite drop_app_length, (span_while_app _ w); [|eapply Forall_impl; [|exact Hs]; by intros x ->|done].
    eexists _, _. split; [|apply (str_slice_app (pre ++ [34]) w ([34] ++ r)); [by apply starts_char_app|done]].
    f_equal. rewrite (proj2 (Nat.ltb_lt _ _)); repeat (rewrite length_app || cbn [length]); lia.
Qed.

Lemma spell_pos w : (0 < length (spell w))%nat.
Proof. unfold spell. destruct (plain w) eqn:E; [|cbn; lia]. by destruct w; [|cbn; lia]. Qed.

Lemma tokenize_step fuel pre b w r out :
  blanks b -> spellable w -> blank_next r ->
  tokenize_loop (S fuel) (pre ++ b ++ spell w ++ r) (length pre) out =
  if (MAX_ARGS <=? length out)%nat then Err TooManyArgs
  else tokenize_loop fuel ((pre ++ b ++ spell w) ++ r) (length (pre ++ b ++ spell w)) (out ++ [w]).
Proof.
  intros Hb Hw Hr. pose proof (spell_pos w) as Hp. cbn [tokenize_loop].
  rewrite (proj2 (Nat.leb_gt _ _)) by (rewrite !length_app; lia).
  rewrite drop_app_length, (span_while_app _ b) by (done || apply spell_not_blank).
  rewrite (proj2 (Nat.leb_gt _ _)) by (rewrite !length_app; lia).
  rewrite <- length_app, (app_assoc pre b). destruct (token_at_spell (pre ++ b) w r Hw Hr) as (start & e & -> & Hs).
  destruct (_ <=? _)%nat; [done|]. rewrite Hs. cbn [rbind]. by rewrite <- length_app, !app_assoc.
Qed.

(** The tokenizer reads back what was typed, up to eight words. *)
Lemma tokenize_separated fuel pre ws tl out :
  separated ws -> blanks tl -> (length (typed ws tl) <= fuel)%nat -> (length out <= MAX_ARGS)%nat ->
  tokenize_loop fuel (pre ++ typed ws tl) (length pre) out =
  if (length out + length ws <=? MAX_ARGS)%nat then Ok (out ++ map snd ws) else Err TooManyArgs.
Proof.
  revert fuel pre out. induction ws as [|[b w] ws IH]; intros fuel pre out Hs Ht Hf Ho.
  - cbn [length map typed flat_map app] in *. rewrite Nat.add_0_r, (proj2 (Nat.leb_le _ _)), app_nil_r by done.
    destruct fuel; cbn [tokenize_loop].
    + rewrite (proj2 (Nat.leb_le _ _)); [done|rewrite length_app; lia].
    + rewrite drop_app_length. destruct (length (pre ++ tl) <=? length pre)%nat; [done|].
      rewrite <- (app_nil_r tl) at 2. rewrite (span_while_app _ tl []) by done.
      by rewrite (proj2 (Nat.leb_le _ _)) by (rewrite length_app; lia).
  - inversion Hs as [|? ? (Hb & Hn & Hw) Hs']; subst. clear Hs. rename Hs' into Hs. cbn [fst snd] in *.
    assert (typed ((b, w) :: ws) tl = b ++ spell w ++ typed ws tl) as Et by (unfold typed; cbn [flat_map fst snd]; by rewrite <- !app_assoc).
    rewrite Et in *. pose proof (spell_pos w). rewrite !length_app in Hf. destruct fuel as [|fuel]; [lia|].
    rewrite tokenize_step by (done || by apply separated_blank_next). cbn [length map].
    destruct (MAX_ARGS <=? length out)%nat eqn:E; zbool; [by rewrite (proj2 (Nat.leb_gt _ _)) by lia|].
    rewrite IH by (rewrite ?length_app; cbn [length]; done || lia). rewrite length_app, <- app_assoc. cbn [length app].
    by replace (length out + 1 + length ws)%nat with (length out + S (length ws))%nat by lia.
Qed.

Lemma tokenize_typed b w ws tl :
  blanks b -> spellable w -> separated ws -> blanks tl ->
  tokenize (typed ((b, w) :: ws) tl) = if (length ws <? MAX_ARGS)%nat then Ok (w :: map snd ws) else Err TooManyArgs.
Proof.
  intros Hb Hw Hs Ht. unfold tokenize.
  assert (typed ((b, w) :: ws) tl = [] ++ b ++ spell w ++ typed ws tl) as -> by (unfold typed; cbn [flat_map fst snd app]; by rewrite <- !app_assoc).
  pose proof (spell_pos w). set (n := length _). assert (n = S (n - 1)) as -> by (subst n; cbn [app]; rewrite !length_app; lia).
  change 0%nat with (length (@nil Z)). rewrite tokenize_step by (done || by apply separated_blank_next). cbn [length app].
  rewrite (tokenize_separated (n - 1)) by (done || (subst n; cbn [app length]; rewrite ?length_app; unfold MAX_ARGS; lia)).
  unfold MAX_ARGS. cbn [length]. by destruct (1 + length ws <=? 8)%nat eqn:E, (length ws <? 8)%nat eqn:E'; zbool; try lia.
Qed.

(** ** Numbers *)

Definition is_digit (b : Z) : bool := (48 <=? b) && (b <=? 57).
Definition digits_value (s : list Z) (v : Z) : Z := fold_left (fun v b => v * 10 + (b - 48)) s v.

Lemma digits_value_mono s v : forallb is_digit s = true -> 0 <= v -> v <= digits_value s v.
Proof.
  revert v. induction s as [|b s IH]; intros v Hs Hv; cbn; [lia|]. cbn in Hs. unfold is_digit in Hs at 1. zbool.
  etransitivity; [|apply IH; [done|lia]]. lia.
Qed.

(** Exactly the digit strings whose value is at most [max]. *)
Lemma parse_digits_spec max s v :
  0 <= v <= max -> parse_digits max s v = if forallb is_digit s && (digits_value s v <=? max) then Some (digits_value s v) else None.
Proof.
  revert v. induction s as [|b s IH]; intros v Hv; cbn [parse_digits forallb digits_value fold_left].
  - by rewrite (proj2 (Z.leb_le _ _)) by lia.
  - unfold is_digit at 1. destruct (b <? 48) eqn:E1, (57 <? b) eqn:E2; cbn [orb]; zbool.
    1-3: by rewrite ?(proj2 (Z.leb_gt 48 b)), ?(proj2 (Z.leb_gt b 57)), ?andb_false_r by lia.
    rewrite (proj2 (Z.leb_le 48 b)), (proj2 (Z.leb_le b 57)) by lia. cbn [andb]. fold (digits_value s (v * 10 + (b - 48))).
    destruct (forallb is_digit s) eqn:Es.
    + pose proof (digits_value_mono s (v * 10 + (b - 48)) Es ltac:(lia)) as Hm. cbn [andb] in *.
      destruct (max <? v * 10) eqn:E3; zbool; [by rewrite (proj2 (Z.leb_gt _ _)) by lia|].
      destruct (max <? v * 10 + (b - 48)) eqn:E4; zbool; [by rewrite (proj2 (Z.leb_gt _ _)) by lia|].
      by rewrite IH by lia.
    + cbn [andb]. destruct (max <? v * 10) eqn:E3; zbool; [done|]. destruct (max <? v * 10 + (b - 48)) eqn:E4; zbool; [done|].
      by rewrite IH by lia.
Qed.

(** ** Hex strings *)

Definition hex_digit (n : Z) : Z := if n <? 10 then 48 + n else 87 + n.
Definition hex_encode (bs : list Z) : list Z := flat_map (fun b => [hex_digit (b / 16); hex_digit (b mod 16)]) bs.

Lemma hex_nibble_digit n : 0 <= n < 16 -> hex_nibble (hex_digit n) = Some n.
Proof.
  intros Hn. assert (n = Z.of_nat (Z.to_nat n)) as E by lia. assert (Z.to_nat n < 16)%nat as Hk by lia. rewrite E.
  generalize dependent (Z.to_nat n). intros k _ Hk. do 16 (destruct k as [|k]; [reflexivity|]). lia.
Qed.

Lemma hex_byte b : is_u8 b -> Z.lor (Z.land (Z.shiftl (b / 16) 4) 255) (b mod 16) = b.
Proof.
  intros Hb. unfold is_u8 in Hb. rewrite (Z.land_ones _ 8) by lia. rewrite Z.shiftl_mul_pow2 by lia.
  rewrite (Z.mod_small (b / 16 * 2 ^ 4)) by zlia.
  assert (Z.land (b / 16 * 2 ^ 4) (b mod 16) = 0) as Hd.
  { apply Z.bits_inj'. intros i Hi. rewrite Z.land_spec, Z.bits_0. destruct (decide (i < 4)).
    - rewrite Z.mul_pow2_bits_low by lia. done.
    - rewrite andb_comm. change (b mod 16) with (b mod 2 ^ 4). rewrite (Z.mod_pow2_bits_high b 4 i) by lia. done. }
  rewrite <- Z.lxor_lor by done. rewrite <- Z.add_nocarry_lxor by done. zlia.
Qed.

Lemma hex_pairs_encode bs : Forall is_u8 bs -> hex_pairs (hex_encode bs) = Some bs.
Proof.
  induction 1 as [|b bs Hb _ IH]; [done|]. cbn [hex_encode flat_map app hex_pairs]. fold (hex_encode bs).
  unfold is_u8 in Hb. rewrite !hex_nibble_digit by zlia. cbn. rewrite IH. cbn. by rewrite hex_byte.
Qed.

Lemma hex_digit_range n : 0 <= n < 16 -> 48 <= hex_digit n <= 57 \/ 97 <= hex_digit n <= 102.
Proof. intros Hn. unfold hex_digit. destruct (n <? 10) eqn:E; zbool; lia. Qed.

Lemma hex_encode_range bs : Forall is_u8 bs -> Forall (fun b => 48 <= b <= 57 \/ 97 <= b <= 102) (hex_encode bs).
Proof.
  induction 1 as [|b bs Hb _ IH]; [done|]. unfold is_u8 in Hb. cbn [hex_encode flat_map app]. fold (hex_encode bs).
  do 2 (apply List.Forall_cons; [apply hex_digit_range; zlia|]). done.
Qed.

Lemma hex_spellable bs : Forall is_u8 bs -> spellable (hex_encode bs).
Proof.
  intros Hb%hex_encode_range. split; [|right; eapply Forall_impl; [|exact Hb]; intros x Hx; cbn in Hx; unfold is_quote; apply Z.eqb_neq; lia].
  induction Hb as [|x l Hx _ IH]; [done|]. cbn [utf8_valid]. cbn in Hx. by rewrite (proj2 (Z.leb_le x 127)) by lia.
Qed.

Lemma length_hex_encode bs : length (hex_encode bs) = (length bs * 2)%nat.
Proof. induction bs; cbn; [done|]. unfold hex_encode in IHbs. lia. Qed.

Lemma hex_decode_encode bs cap : Forall is_u8 bs -> hex_decode (hex_encode bs) cap = if (length bs <=? cap)%nat then Some bs else None.
Proof.
  intros Hb. unfold hex_decode. rewrite length_hex_encode, Nat.Div0.mod_mul, Nat.div_mul by done. cbn [Nat.eqb negb].
  rewrite hex_pairs_encode by done. by destruct (cap <? length bs)%nat eqn:E1, (length bs <=? cap)%nat eqn:E2; zbool; try lia.
Qed.

(** ** History *)

Definition hist_start (h : HistoryBuf) : nat := if (len h <? HISTORY_LEN)%nat then 0%nat else head h.

(** Row [i] of the arrays holds the line [x]. *)
Definition row_holds (h : HistoryBuf) (i : nat) (x : list Z) : Prop :=
  lens h !! i = Some (length x) /\ exists row, lines h !! i = Some row /\ take (length x) row = x.

(** The ring holds the lines [l], oldest first. *)
Record history_holds (h : HistoryBuf) (l : list (list Z)) : Prop := {
  hh_lines : length (lines h) = HISTORY_LEN;
  hh_rows : Forall (fun r => length r = MAX_LINE) (lines h);
  hh_lens : length (lens h) = HISTORY_LEN;
  hh_len : len h = length l;
  hh_max : (length l <= HISTORY_LEN)%nat;
  hh_head : (head h < HISTORY_LEN)%nat;
  hh_fill : (length l < HISTORY_LEN)%nat -> head h = length l;
  hh_holds : forall i x, l !! i = Some x -> row_holds h ((hist_start h + i) mod HISTORY_LEN) x
}.

Lemma new_history_holds : history_holds new_history [].
Proof. split; try done; try (cbn; unfold HISTORY_LEN; lia). by apply Forall_replicate. Qed.

(** The last [HISTORY_LEN] lines. *)
Definition remembered (l : list (list Z)) : list (list Z) := drop (length l - HISTORY_LEN) l.

Lemma length_copy_front (s : list Z) n row : (n <= length s)%nat -> (n <= length row)%nat -> length (copy_front s n row) = length row.
Proof. intros. unfold copy_front. rewrite length_app, length_take, length_drop. lia. Qed.

Lemma row_holds_push h i j s row x hd n :
  lines h !! j = Some row -> (length s <= length row)%nat -> (j < length (lens h))%nat ->
  row_holds (mkHistory (<[j := copy_front s (length s) row]> (lines h)) (<[j := length s]> (lens h)) hd n) i x <->
  if decide (i = j) then length x = length s /\ x = s else row_holds h i x.
Proof.
  intros Hj Hl Hn. unfold row_holds. cbn [lines lens]. destruct (decide (i = j)) as [->|Hne].
  - rewrite !list_lookup_insert_eq by (done || by eapply lookup_lt_Some). unfold copy_front. rewrite (take_ge s) by done.
    split.
    + intros ([= He] & r & [= <-] & Ht). rewrite <- He, take_app_length in Ht. done.
    + intros [_ ->]. split; [done|]. eexists. split; [done|]. by rewrite take_app_length.
  - by rewrite !list_lookup_insert_ne by done.
Qed.

Lemma push_line_holds h l s :
  history_holds h l ->
  exists h', push_line s h = Ok h' /\ history_holds h' (remembered (l ++ [take MAX_LINE s])).
Proof.
  intros [Hl Hr Hn Hlen Hmax Hhd Hfill Hh]. set (x := take MAX_LINE s).
  assert (Nat.min (length s) MAX_LINE = length x) as Ex by (subst x; rewrite length_take; lia).
  assert (length x <= MAX_LINE)%nat as Hx by lia.
  destruct (lookup_lt_is_Some_2 (lines h) (head h)) as [row Hrow]; [lia|].
  assert (length row = MAX_LINE) as Hrl by (by eapply Forall_lookup_1 in Hr).
  unfold push_line. rewrite Ex, Hrow. cbn [or_panic rbind]. eexists. split; [reflexivity|].
  assert (copy_front s (length x) row = copy_front x (length x) row) as ->.
  { unfold copy_front. f_equal. subst x. rewrite take_take. f_equal. rewrite length_take. lia. }
  set (h' := mkHistory _ _ _ _).
  assert (length (remembered (l ++ [x])) = if (length l <? HISTORY_LEN)%nat then (length l + 1)%nat else length l) as Hlr.
  { unfold remembered. rewrite length_drop, length_app. cbn [length]. destruct (length l <? HISTORY_LEN)%nat eqn:E; zbool; lia. }
  assert (hist_start h' = if (length l <? HISTORY_LEN)%nat then 0%nat else ((head h + 1) mod HISTORY_LEN)%nat) as Hst.
  { unfold hist_start, h'. cbn [len head]. rewrite Hlen. destruct (length l <? HISTORY_LEN)%nat eqn:E; zbool.
    - destruct (length l + 1 <? HISTORY_LEN)%nat eqn:E2; zbool; [done|]. rewrite Hfill by done.
      replace (length l + 1)%nat with HISTORY_LEN by lia. apply Nat.Div0.mod_same.
    - by rewrite (proj2 (Nat.ltb_ge _ _)) by lia. }
  split; [..|rewrite Hst]; subst h'; cbn [lines lens head len].
  - by rewrite length_insert.
  - apply Forall_insert; [done|]. rewrite length_copy_front by lia. done.
  - by rewrite length_insert.
  - by rewrite Hlr, Hlen.
  - rewrite Hlr. destruct (_ <? _)%nat eqn:E; zbool; lia.
  - apply Nat.mod_upper_bound. done.
  - rewrite Hlr. destruct (_ <? _)%nat eqn:E; zbool; [|lia]. intros Hlt. rewrite Hfill by done. apply Nat.mod_small. done.
  - intros i y Hi. pose proof (lookup_lt_Some _ _ _ Hi) as Hi'. rewrite Hlr in Hi'.
    unfold remembered in Hi. rewrite length_app, lookup_drop in Hi. cbn [length] in Hi.
    match goal with |- row_holds _ ?k _ => set (idx := k) end. apply (row_holds_push h idx (head h) x row y _ _ Hrow); [lia|lia|].
    unfold hist_start in Hh. rewrite Hlen in Hh. destruct (length l <? HISTORY_LEN)%nat eqn:E; zbool.
    + replace (length l + 1 - HISTORY_LEN)%nat with 0%nat in Hi by lia. cbn [Nat.add] in Hi.
      assert (idx = i) as -> by (subst idx; apply Nat.mod_small; lia).
      rewrite (Hfill E). destruct (decide (i = length l)) as [->|].
      * rewrite list_lookup_middle in Hi by done. by injection Hi as <-.
      * rewrite lookup_app_l in Hi by lia. specialize (Hh i y Hi). by rewrite Nat.mod_small in Hh by lia.
    + replace (length l + 1 - HISTORY_LEN)%nat with 1%nat in Hi by lia.
      assert (idx = (head h + (1 + i)) mod HISTORY_LEN)%nat as -> by (subst idx; rewrite Nat.Div0.add_mod_idemp_l; f_equal; lia).
      destruct (decide (1 + i < length l)%nat) as [Hlt|].
      * rewrite lookup_app_l in Hi by lia. specialize (Hh _ y Hi).
        destruct (decide _) as [Ei|]; [|done]. exfalso. pose proof (Nat.div_mod_eq (head h + (1 + i)) HISTORY_LEN) as Hd. rewrite Ei in Hd. unfold HISTORY_LEN in *. lia.
      * assert (1 + i = length l)%nat as Ei by lia. rewrite Ei, list_lookup_middle in Hi by done. injection Hi as <-.
        rewrite Ei. replace (length l) with HISTORY_LEN by lia.
        rewrite <- Nat.Div0.add_mod_idemp_r, Nat.Div0.mod_same, Nat.add_0_r, Nat.mod_small by lia.
        by rewrite decide_True.
Qed.

Lemma get_line_holds h l i x :
  history_holds h l -> l !! i = Some x -> get_line i h = Ok (default [] (from_utf8 x)).
Proof.
  intros Hh Hi. pose proof (hh_holds h l Hh i x Hi) as (Hn & row & Hrow & Ht).
  unfold get_line. fold (hist_start h). rewrite Hn, Hrow. cbn [or_panic rbind].
  pose proof (Forall_lookup_1 _ _ _ _ (hh_rows h l Hh) Hrow) as Hl. cbn in Hl.
  assert (length x <= length row)%nat as Hx by (rewrite <- Ht, length_take; lia).
  unfold slice_range. cbn [Nat.leb andb rbind].
  rewrite Nat.sub_0_r, drop_0, Ht, (proj2 (Nat.leb_le _ _)) by lia. done.
Qed.

(** Pushing any lines in turn. *)
Fixpoint push_lines (ls : list (list Z)) (h : HistoryBuf) : result unit HistoryBuf :=
  match ls with
  | [] => Ok h
  | s :: ls' => let? h' := push_line s h in push_lines ls' h'
  end.

Lemma remembered_app l l' : remembered (remembered l ++ l') = remembered (l ++ l').
Proof.
  unfold remembered. rewrite !length_app, length_drop.
  destruct (decide (length l <= HISTORY_LEN)%nat).
  - replace (length l - HISTORY_LEN)%nat with 0%nat by lia. rewrite drop_0. f_equal. lia.
  - rewrite <- (drop_app_le l l' (length l - HISTORY_LEN)), drop_drop by lia. f_equal. lia.
Qed.

Lemma push_lines_hold ls h l :
  history_holds h l -> exists h', push_lines ls h = Ok h' /\ history_holds h' (remembered (l ++ map (take MAX_LINE) ls)).
Proof.
  revert h l. induction ls as [|s ls IH]; intros h l Hh; cbn [push_lines map].
  - exists h. split; [done|]. unfold remembered. rewrite app_nil_r. pose proof (hh_max h l Hh).
    replace (length l - HISTORY_LEN)%nat with 0%nat by lia. by rewrite drop_0.
  - destruct (push_line_holds h l s Hh) as (h1 & -> & H1). cbn [rbind].
    destruct (IH h1 _ H1) as (h2 & E & H2). exists h2. split; [done|].
    rewrite remembered_app, <- app_assoc in H2. done.
Qed.

(** ** Program arguments *)

(** [args.join(" ")] *)
Fixpoint join_words (args : list (list Z)) : list Z :=
  match args with
  | [] => []
  | [w] => w
  | w :: args' => w ++ [32] ++ join_words args'
  end.

Lemma take_app_take {A} n (a b : list A) : take n (take n a ++ b) = take n (a ++ b).
Proof.
  destruct (decide (length a <= n)%nat); [by rewrite (take_ge a)|].
  rewrite (take_app_le a) by lia. rewrite take_app_le by (rewrite length_take; lia). rewrite take_take. f_equal. lia.
Qed.

Lemma join_args_take first args raw :
  (length raw <= RAW_CAP)%nat ->
  join_args first args raw = take RAW_CAP (raw ++ match args with [] => [] | _ => (if first then [] else [32]) ++ join_words args end).
Proof.
  revert first raw. induction args as [|s args IH]; intros first raw Hr; cbn [join_args].
  - by rewrite app_nil_r, take_ge by lia.
  - set (raw1 := if negb first && _ then _ else _).
    assert (length raw1 <= RAW_CAP)%nat as H1 by (subst raw1; destruct first; cbn [negb andb]; [lia|]; destruct (_ <? _)%nat eqn:E; zbool; rewrite ?length_app; cbn [length]; lia).
    assert (raw1 = take RAW_CAP (raw ++ if first then [] else [32])) as Er.
    { subst raw1. destruct first; cbn [negb andb]; [by rewrite app_nil_r, take_ge by lia|]. destruct (_ <? _)%nat eqn:E; zbool.
      - by rewrite take_ge by (rewrite length_app; cbn; lia).
      - rewrite take_app_le by lia. by rewrite take_ge by lia. }
    rewrite IH by (rewrite length_app, length_take; lia).
    assert (raw1 ++ take (RAW_CAP - length raw1) s = take RAW_CAP (raw1 ++ s)) as -> by (by rewrite take_app, (take_ge raw1) by lia).
    rewrite Er, app_assoc. set (pre := raw ++ _). rewrite !take_app_take. destruct args as [|s' args].
    + by rewrite app_nil_r, take_app_take.
    + change (join_words (s :: s' :: args)) with (s ++ [32] ++ join_words (s' :: args)). by rewrite <- (app_assoc (take _ _)), take_app_take.
Qed.

(** ** Paths *)

Definition absolute (p : list Z) : Prop := p !! 0%nat = Some 47.

Lemma trim_start_suffix c s :
  exists p, s = p ++ trim_start c s /\ match trim_start c s with b :: _ => b <> c | [] => True end.
Proof.
  induction s as [|b s IH]; cbn [trim_start]; [by exists []|]. destruct (b =? c) eqn:E; zbool; [|by exists []].
  destruct IH as (p & Hp & Ht). exists (b :: p). split; [|done]. cbn. by rewrite <- Hp.
Qed.

(** A trimmed text is a prefix that does not end with the character. *)
Lemma trim_end_prefix c s :
  exists q, s = trim_end c s ++ q /\ (trim_end c s = [] \/ exists t b, trim_end c s = t ++ [b] /\ b <> c).
Proof.
  unfold trim_end. destruct (trim_start_suffix c (rev s)) as (p & Hp & Ht). exists (rev p).
  split; [rewrite <- rev_app_distr, <- Hp; by rewrite rev_involutive|].
  destruct (trim_start c (rev s)) as [|b r]; [by left|]. right. by exists (rev r), b.
Qed.

Lemma absolute_app p q : absolute p -> absolute (p ++ q).
Proof. unfold absolute. by destruct p. Qed.

Lemma starts_with_slash p : starts_with p (str "/") = true -> absolute p.
Proof. unfold starts_with. destruct p as [|b p]; [done|]. intros E%bytes_eqb_true. by injection E as ->. Qed.

Lemma cd_resolve_normal cwd target :
  absolute cwd -> absolute (cd_resolve cwd target) /\
  (cd_resolve cwd target = [47] \/ ends_with (cd_resolve cwd target) [47] = false).
Proof.
  intros Hc. unfold cd_resolve.
  match goal with |- context [trim_end 47 ?r] => set (raw := r) end.
  assert (absolute raw) as Hr.
  { subst raw. destruct (starts_with target (str "/")) eqn:E; [by apply starts_with_slash|].
    destruct (bytes_eqb target (str "..")).
    - destruct (rfind_slash cwd) as [[|pos]|]; [done| |done]. unfold absolute. rewrite lookup_take_lt by lia. done.
    - apply absolute_app. destruct (ends_with cwd (str "/")); [done|by apply absolute_app]. }
  destruct (trim_end_prefix 47 raw) as (q & Hq & [E|(t & b & E & Hb)]); rewrite E in *.
  - rewrite bool_decide_eq_true_2 by done. split; [done|by left].
  - rewrite bool_decide_eq_false_2 by (by destruct t). split.
    + unfold absolute in *. rewrite Hq in Hr. rewrite <- Hr. symmetry. rewrite lookup_app_l; [done|]. rewrite length_app. cbn. lia.
    + right. unfold ends_with. rewrite length_app. cbn [length]. rewrite Nat.add_sub, drop_app_length.
      unfold bytes_eqb. rewrite (bool_decide_eq_false_2 ([b] = [47])) by congruence. apply andb_false_r.
Qed.
