(* ===== verification/Shell.v ===== *)
(** * The shell and the kernel's main loop

    The command dispatcher and the commands ([kernel/src/shell/mod.rs],
    [kernel/src/shell/commands/]), the input turn ([kernel/src/shell/input.rs])
    and one turn of the scheduler's loop ([kernel/src/scheduler.rs]). *)

From S2P Require Import Prelude Leb128 Loader FileTable Opcode FloatOps Sections NetStack World.
From S2P Require Import Text Editor Machine Dispatch Host Engine Task Block Fat.
From S2P Require Import AsmEmit AsmParse ShellText.

Section shell.
Context {V1 V2 : Type} `{FatFs V1} `{FatFs V2}.
Notation Volume := (FS V1 V2).

(** The tasks and the engine below them, the mounted volume, the shell's
    statics, and the bytes the serial line will deliver. *)
Record Sh := mkSh {
  sys : Sys;
  vol : Volume;
  HISTORY : HistoryBuf;
  CWD_BUF : list Z;
  CWD_LEN : nat;
  serial_in : list Z
}.

Definition set_sys x s := mkSh x (vol s) (HISTORY s) (CWD_BUF s) (CWD_LEN s) (serial_in s).
Definition set_vol x s := mkSh (sys s) x (HISTORY s) (CWD_BUF s) (CWD_LEN s) (serial_in s).
Definition set_history x s := mkSh (sys s) (vol s) x (CWD_BUF s) (CWD_LEN s) (serial_in s).
Definition set_cwd_buf b n s := mkSh (sys s) (vol s) (HISTORY s) b n (serial_in s).
Definition set_serial x s := mkSh (sys s) (vol s) (HISTORY s) (CWD_BUF s) (CWD_LEN s) x.

(** No command fails with a value: [Err] is not produced. *)
Definition SH := M Sh unit.

Definition the_world (s : Sh) : World := k_world (kern (sys s)).
Definition on_world (f : World -> World) : SH unit := modify (fun s =>
  set_sys (set_kern (set_k_world (f (the_world s)) (kern (sys s))) (sys s)) s).

Definition sprint (bs : list Z) : SH unit := on_world (emit (Print bs)).
Definition sprintln (bs : list Z) : SH unit := sprint (bs ++ [NL]).

Definition on_vol {A} (m : M Volume unit A) : SH A := fun s =>
  let '(r, v) := m (vol s) in (r, set_vol v s).

(** The files the host functions wrote to the volume: those of the log from
    its [n]th event on. *)
Fixpoint sync_writes (es : list event) (v : Volume) : result unit Volume :=
  match es with
  | [] => Ok v
  | FatWrite nm d :: es' =>
    match fat_write_file nm d v with
    | (Ok _, v') => sync_writes es' v'
    | (Err _, v') => sync_writes es' v'
    | (Panic, _) => Panic
    | (OutOfFuel, _) => OutOfFuel
    end
  | _ :: es' => sync_writes es' v
  end.

(** Runs task code; an [Err] of it is a value, and what it wrote to the volume
    is there afterwards. *)
Definition on_tasks {A} (m : T A) : SH (result RunError.t A) := fun s =>
  let n := length (log (the_world s)) in
  let '(r, sy) := m (sys s) in
  let s' := set_sys sy s in
  match r with
  | Panic => (Panic, s')
  | OutOfFuel => (OutOfFuel, s')
  | _ =>
    match sync_writes (drop n (log (the_world s'))) (vol s') with
    | Ok v => (Ok r, set_vol v s')
    | Err e => (Err e, s')
    | Panic => (Panic, s')
    | OutOfFuel => (OutOfFuel, s')
    end
  end.

(** ** Working directory *)

Definition get_cwd : SH (list Z) :=
  do! modify (fun s => if (CWD_LEN s =? 0)%nat then set_cwd_buf (<[0%nat := 47]> (CWD_BUF s)) 1 s else s) in
  let! b := gets CWD_BUF in
  let! n := gets CWD_LEN in
  let! bs := lift (slice_range b 0 n) in
  ret (default (str "/") (from_utf8 bs)).

Definition set_cwd (path : list Z) : SH unit := modify (fun s =>
  let n := Nat.min (length path) CWD_MAX in set_cwd_buf (copy_front path n (CWD_BUF s)) n s).

(** ** History *)

Definition history_len (s : Sh) : nat := len (HISTORY s).
Definition history_get (i : nat) : SH (list Z) := let! h := gets HISTORY in lift (get_line i h).
Definition history_push (line : list Z) : SH unit :=
  let! h := gets HISTORY in let! h' := lift (push_line line h) in modify (set_history h').

(** ** Input *)

(** [serial::read_byte] *)
Definition read_byte : SH (option Z) := fun s =>
  match serial_in s with
  | [] => (Ok None, s)
  | b :: rest => (Ok (Some b), set_serial rest s)
  end.

(** One poll of the serial line, then of the keyboard. *)
Definition poll_key : SH (option Key) :=
  let! b := read_byte in
  match b with
  | Some b => ret (Some (serial_byte_to_key b))
  | None =>
    let! w := gets the_world in
    let '(k, w') := try_next_key w in
    do! on_world (fun _ => w') in ret k
  end.

(** The blocking line read: the text typed, echoed, and the buffer. *)
Fixpoint read_line (fuel : nat) (buf : list Z) (n : nat) : SH (option (list Z) * list Z) :=
  match fuel with
  | O => lift OutOfFuel
  | S fuel' =>
    let! k := poll_key in
    match k with
    | None => read_line fuel' buf n
    | Some Enter =>
      do! sprint [13; 10] in
      let! bs := lift (slice_range buf 0 n) in
      ret (from_utf8 bs, buf)
    | Some Backspace =>
      if (0 <? n)%nat then do! sprint [8; 32; 8] in read_line fuel' buf (n - 1) else read_line fuel' buf n
    | Some (KeyChar c) =>
      if (n <? length buf)%nat then
        do! sprint (encode_char c) in read_line fuel' (<[n := as_u8 c]> buf) (n + 1)
      else read_line fuel' buf n
    | Some _ => read_line fuel' buf n
    end
  end.

(** A read of [n] keys needs at most as many polls as bytes are left. *)
Definition input_left (s : Sh) : nat := (length (serial_in s) + length (scancodes (the_world s)))%nat.

(** ** Commands *)

Definition cmd_help : SH unit := fold_right (fun l k => do! sprintln l in k) (ret tt)
  [ str "Commands:";
    str "  help               show this message";
    str "  echo <args>        print arguments";
    str "  history            show command history";
    str "  clear              clear the screen";
    str "  ls                 list files and directories";
    str "  cat <file>         print file contents";
    str "  cd <dir>           change directory";
    str "  mkdir <dir>        create a directory";
    str "  df                 show filesystem space usage";
    str "  rm <name>          remove a file";
    str "  write <name> <hex> write raw bytes (hex-encoded) as a file";
    str "  edit <name>        line-append editor (:w = save, :q = quit)";
    str "  save               flush file table to FAT volume";
    str "  info [name]        show module info, or tick count if no name";
    str "  run <name>         execute a .wasm module";
    str "  ps                 list running wasm instances";
    str "  task-run <name>    spawn a module as a task";
    str "  task-kill <id>     kill a task by ID";
    str "  tasks              list all tasks" ].

Fixpoint echo_words (first : bool) (args : list (list Z)) : SH unit :=
  match args with
  | [] => ret tt
  | w :: args' => do! (if first then ret tt else sprint [32]) in do! sprint w in echo_words false args'
  end.
Definition cmd_echo (args : list (list Z)) : SH unit := do! echo_words true args in sprintln [].

Fixpoint history_lines (n i : nat) : SH unit :=
  match n with
  | O => ret tt
  | S n' =>
    let! l := history_get i in
    do! sprintln (pad_left 4 (show_usize (i + 1)) ++ str "  " ++ l) in
    history_lines n' (S i)
  end.
Definition cmd_history : SH unit := let! n := gets history_len in history_lines n 0.

(** The escapes [CLEAR_SCREEN] and [CURSOR_POSITION]. *)
Definition cmd_clear : SH unit := sprint (27 :: str "[2J" ++ [27] ++ str "[H").

Fixpoint sprint_all (ls : list (list Z)) : SH unit :=
  match ls with [] => ret tt | l :: ls' => do! sprintln l in sprint_all ls' end.

Definition ls_line (e : list Z * Z * bool) : list Z :=
  let '(name, size, dir) := e in
  if dir : bool then str "  " ++ pad_right 24 name ++ str " <DIR>"
  else str "  " ++ pad_right 24 name ++ str " " ++ pad_left 8 (show_u64 size) ++ str " bytes".

Definition cmd_ls : SH unit :=
  let! cwd := get_cwd in
  let! es := on_vol (fat_list_path cwd) in
  do! sprint_all (map ls_line es) in
  if bool_decide (es = []) then sprintln (str "(no files)") else ret tt.

(** Runs an operation of the file table. *)
Definition on_files {A} (f : FsState -> A * FsState) : SH A :=
  let! w := gets the_world in
  let '(a, st) := f (fs w) in do! on_world (set_fs st) in ret a.

Definition cmd_rm (argv : list (list Z)) : SH unit :=
  match argv with
  | [] => sprintln (str "usage: rm <name>")
  | name :: _ =>
    let! fat_ok := on_vol (fat_remove_file name) in
    let! mem_ok := on_files (remove_file name) in
    if fat_ok || mem_ok then sprintln (str "removed " ++ name) else sprintln (str "rm: " ++ name ++ str ": not found")
  end.

(** A write of [save_to_fat] on the volume; a panic stops the writes. *)
Definition save_one (x : result unit unit * Volume) (nm d : list Z) : bool * (result unit unit * Volume) :=
  match x.1 with
  | Ok _ =>
    match fat_write_file nm d x.2 with
    | (Ok b, v) => (b, (Ok tt, v))
    | (Err _, v) => (false, (Ok tt, v))
    | (Panic, v) => (false, (Panic, v))
    | (OutOfFuel, v) => (false, (OutOfFuel, v))
    end
  | _ => (false, x)
  end.

Definition cmd_save : SH unit := fun s =>
  let '(n, (r, v)) := save_to_fat save_one (fs (the_world s)) (Ok tt, vol s) in
  (do! modify (set_vol v) in do! lift r in
   sprintln (str "saved " ++ show_usize n ++ str " file(s) to FAT volume")) s.

Definition count_bytes (name : list Z) (n : nat) : list Z := name ++ str " (" ++ show_usize n ++ str " bytes)".

(** A copy of [data] in the write pool, registered under [name]. *)
Definition keep_in_memory (name data : list Z) : SH bool :=
  let! o := on_files (alloc_write_buf data) in
  match o with
  | Some d => do! on_world (fun w => set_fs (register_file name d (fs w)) w) in ret true
  | None => ret false
  end.

Definition cmd_write (argv : list (list Z)) : SH unit :=
  match argv with
  | name :: hex :: _ =>
    match hex_decode hex 4096 with
    | None => sprintln (str "write: invalid hex string")
    | Some data =>
      let! ok := on_vol (fat_write_file name data) in
      if negb ok then sprintln (str "write: FAT write failed") else
      let! kept := keep_in_memory name data in
      if negb kept then sprintln (str "write: in-memory pool full; file saved to disk only")
      else sprintln (str "wrote " ++ count_bytes name (length data))
    end
  | _ => sprintln (str "usage: write <name> <hex-bytes>")
  end.

(** The text, ended with a newline. *)
Definition print_text (s : list Z) : SH unit :=
  do! sprint s in if ends_with s [NL] then ret tt else sprintln [].

(** [save] of [edit] and of [asm]: to the volume and to memory. *)
Definition save_both (path name data : list Z) (failed : list Z) : SH unit :=
  let! fat_ok := on_vol (fat_write_file path data) in
  let! mem_ok := keep_in_memory name data in
  if fat_ok || mem_ok then sprintln (str "saved " ++ count_bytes name (length data)) else sprintln failed.

Definition EDIT_CAP : nat := 4096.

(** A line without its [\n] and its [\r]. *)
Definition strip_eol (l : list Z) : list Z :=
  let l := if ends_with l [10] then take (length l - 1) l else l in
  if ends_with l [13] then take (length l - 1) l else l.

(** The edit loop: [text] is what the buffer holds. *)
Fixpoint edit_loop (fuel : nat) (name text line_buf : list Z) : SH unit :=
  match fuel with
  | O => lift OutOfFuel
  | S fuel' =>
    do! sprint (str "> ") in
    let! avail := gets input_left in
    let! r := read_line (S avail) line_buf 0 in
    let '(line, line_buf) := r in
    match line with
    | None => ret tt
    | Some line =>
      let trimmed := strip_eol line in
      if bytes_eqb trimmed (str ":q") then sprintln (str "quit (no save)") else
      if bytes_eqb trimmed (str ":w") then save_both name name text (str "edit: save failed") else
      if (EDIT_CAP <? length text + (length trimmed + 1))%nat then
        do! sprintln (str "edit: buffer full (" ++ show_usize (length text) ++ str " / " ++ show_usize EDIT_CAP ++ str " bytes)") in
        edit_loop fuel' name text line_buf
      else edit_loop fuel' name (text ++ trimmed ++ [NL]) line_buf
    end
  end.

Definition edit_prompt : list Z := str "Append lines.  Commands: :w = save  :q = quit".

Definition edit_from (name text : list Z) : SH unit :=
  do! sprintln edit_prompt in
  let! avail := gets input_left in
  edit_loop (S avail) name text (replicate 256 0).

Definition cmd_edit (argv : list (list Z)) : SH unit :=
  match argv with
  | [] => sprintln (str "usage: edit <name>")
  | name :: _ =>
    let! o := on_vol (fat_read_file name) in
    match o with
    | Some data =>
      if (EDIT_CAP <? length data)%nat then
        sprintln (str "edit: file too large (" ++ show_usize (length data) ++ str " bytes, max " ++ show_usize EDIT_CAP ++ str ")")
      else
        do! sprintln (str "-- " ++ count_bytes name (length data) ++ str " ---") in
        do! match from_utf8 data with
            | Some s => print_text s
            | None => sprintln (str "[binary content not shown]")
            end in
        do! sprintln (str "---") in
        edit_from name data
    | None => do! sprintln (str "-- new file: " ++ name ++ str " ---") in edit_from name []
    end
  end.

Definition module_line (m : Asm.Module_) : list Z :=
  str "asm: " ++ show_usize (length (Asm.types m)) ++ str " type(s), " ++ show_usize (length (Asm.imports m)) ++ str " import(s), "
  ++ show_usize (length (Asm.funcs m)) ++ str " func(s), " ++ show_usize (length (Asm.memories m)) ++ str " memory, "
  ++ show_usize (length (Asm.exports m)) ++ str " export(s), " ++ show_usize (length (Asm.data m)) ++ str " data seg(s)".

Definition cmd_asm (argv : list (list Z)) : SH unit :=
  match argv with
  | [] => sprintln (str "usage: asm <name>.wat")
  | name :: _ =>
    if negb (is_wat_file name) then sprintln (str "asm: " ++ name ++ str ": expected .wat file") else
    let! cwd := get_cwd in
    let wasm_name := wat_to_wasm_name name in
    let! o := on_vol (fat_read_path (resolve_fat_path cwd name)) in
    match o with
    | None => sprintln (str "asm: " ++ name ++ str ": no such file")
    | Some data =>
      match from_utf8 data with
      | None => sprintln (str "asm: " ++ name ++ str ": invalid utf-8")
      | Some src =>
        do! print_text src in
        do! sprintln (str "asm: parsing WAT source") in
        let! p := lift (new_parser src) in
        do! sprintln (str "asm: parsing module") in
        let! m := lift (parse_module (asm_fuel src) p).1 in
        do! sprintln (module_line m) in
        do! sprintln (str "asm: emitting WASM binary") in
        save_both (resolve_fat_path cwd wasm_name) wasm_name (Asm.emit_module m) (str "asm: save failed")
      end
    end
  end.

Definition cmd_cat (argv : list (list Z)) : SH unit :=
  match argv with
  | [] => sprintln (str "usage: cat <file>")
  | name :: _ =>
    let! cwd := get_cwd in
    let! o := on_vol (fat_read_path (resolve_fat_path cwd name)) in
    match o with
    | None => sprintln (str "cat: " ++ name ++ str ": no such file")
    | Some data =>
      match from_utf8 data with
      | Some s => print_text s
      | None => sprintln (str "[binary file: " ++ show_usize (length data) ++ str " bytes]")
      end
    end
  end.

Definition cmd_cd (argv : list (list Z)) : SH unit :=
  let target := default (str "/") (List.hd_error argv) in
  let! cwd := get_cwd in
  let resolved := cd_resolve cwd target in
  if bytes_eqb resolved (str "/") then set_cwd (str "/") else
  let! ok := on_vol (fat_is_dir (trim_start 47 resolved)) in
  if negb ok then sprintln (str "cd: " ++ target ++ str ": not a directory") else set_cwd resolved.

Definition cmd_mkdir (argv : list (list Z)) : SH unit :=
  match argv with
  | [] => sprintln (str "usage: mkdir <dir>")
  | name :: _ =>
    let! ok := on_vol (fat_mkdir name) in
    if negb ok then sprintln (str "mkdir: " ++ name ++ str ": cannot create directory") else ret tt
  end.

Definition cmd_df : SH unit :=
  let! o := on_vol fat_disk_stats in
  match o with
  | None => sprintln (str "df: filesystem not mounted")
  | Some (total, free) =>
    let used := Z.max 0 (total - free) in
    let col n := pad_left 8 (show_u64 (n / 1024)) in
    do! sprintln (str "Filesystem    Size (K)  Used (K)  Avail (K)") in
    sprintln (str "FAT          " ++ col total ++ str "  " ++ col used ++ str "  " ++ col free)
  end.

(** The entry count at the front of a section. *)
Definition section_count (sec : option (list Z)) : Z :=
  match sec ≫= read_u32_leb128 with Some (n, _) => n | None => 0 end.

Definition cmd_info (name : list Z) : SH unit :=
  let! w := gets the_world in
  if bool_decide (name = []) then
    sprintln (str "ticks: " ++ show_u64 (ticks w) ++ str "  (~" ++ show_u64 (ticks w / 100) ++ str " s)")
  else
  match find_file name (fs w) with
  | None => sprintln (str "not found: " ++ name)
  | Some d =>
    match load (deref (fs w) d) with
    | Ok m =>
      let! imports := lift (count_func_imports (import_section m)) in
      do! sprintln (str "file:    " ++ name) in
      do! sprintln (str "funcs:   " ++ show_u64 (section_count (function_section m)) ++ str " defined, " ++ show_usize imports ++ str " imported") in
      sprintln (str "exports: " ++ show_u64 (section_count (export_section m)))
    | Err e => sprintln (str "load error: " ++ LoadError_as_str e)
    | Panic => panic
    | OutOfFuel => lift OutOfFuel
    end
  end.

Definition cmd_ps : SH unit :=
  let! k := gets (fun s => kern (sys s)) in
  let ls := for_each_instance (fun h name pages ls =>
    ls ++ [str "[" ++ show_usize h ++ str "] " ++ name ++ str "  (" ++ show_u64 pages ++ str " page(s), " ++ show_u64 (pages * 64) ++ str " KiB)"]) k [] in
  do! sprint_all ls in
  if bool_decide (ls = []) then sprintln (str "(no instances)") else ret tt.

Definition state_text (st : TaskState) : list Z :=
  match st with
  | Ready => str "ready"
  | Running => str "running"
  | Suspended => str "suspended"
  | Sleeping _ => str "sleeping"
  | Done => str "done"
  end.

Definition cmd_tasks : SH unit :=
  let! sy := gets sys in
  let ls := for_each_task (fun id name st ls =>
    ls ++ [str "[" ++ show_usize id ++ str "] " ++ name ++ str "  (" ++ state_text st ++ str ")"]) sy [] in
  do! sprint_all ls in
  if bool_decide (ls = []) then sprintln (str "(no tasks)") else ret tt.

Definition cmd_task_kill (argv : list (list Z)) : SH unit :=
  match List.hd_error argv ≫= parse_usize with
  | None => sprintln (str "usage: task-kill <id>")
  | Some id =>
    do! on_tasks (task_kill (Z.to_nat id)) in
    sprintln (str "task " ++ show_u64 id ++ str " killed")
  end.

(** The joined arguments, when they are text. *)
Definition store_args (args : list (list Z)) : SH unit :=
  match from_utf8 (join_args true args []) with
  | Some s => on_world (set_args s)
  | None => ret tt
  end.

Section programs.
Context `{FloatEnv} `{Features} (fuel : nat).

Definition task_run_with (name : list Z) (args : list (list Z)) : SH unit :=
  do! store_args args in
  match parse_args args [] with
  | inr s => sprintln (str "invalid arg: " ++ s)
  | inl wasm_args =>
    let! w := gets the_world in
    match find_file name (fs w) with
    | None => sprintln (str "not found: " ++ name)
    | Some d =>
      let! r := on_tasks (task_spawn name (deref (fs w) d) wasm_args) in
      match r with
      | Ok id => sprintln (str "task " ++ show_usize id ++ str " spawned: " ++ name)
      | Err e => sprintln (str "error: " ++ RunError.as_str e)
      | _ => panic
      end
    end
  end.

Definition cmd_task_run (argv : list (list Z)) : SH unit :=
  match argv with
  | name :: args => if bool_decide (name = []) then sprintln (str "usage: task-run <name> [args...]") else task_run_with name args
  | [] => sprintln (str "usage: task-run <name> [args...]")
  end.

(** Spawns, runs until it no longer yields, destroys. *)
Definition run_to_end (handle : nat) (args : list Z) : K (result RunError.t TaskResult) := fun k =>
  let '(r, k') := drain fuel handle (start_task fuel handle (str "main") args k) in
  match r with
  | Panic => (Panic, k')
  | OutOfFuel => (OutOfFuel, k')
  | _ => (do! destroy handle in ret r) k'
  end.

Definition cmd_run (argv : list (list Z)) : SH unit :=
  match argv with
  | [] => sprintln (str "usage: run <name> [args...]")
  | name :: args =>
    if bool_decide (name = []) then sprintln (str "usage: run <name> [args...]") else
    let! w := gets the_world in
    match find_file name (fs w) with
    | None => sprintln (str "not found: " ++ name)
    | Some d =>
      match parse_args args [] with
      | inr s => sprintln (str "invalid arg: " ++ s)
      | inl wasm_args =>
        do! store_args args in
        let! r := on_tasks (on_kern (spawn name (deref (fs w) d))) in
        match r with
        | Ok handle =>
          let! r := on_tasks (on_kern (run_to_end handle wasm_args)) in
          match r with
          | Ok (Err e) => sprintln (str "error: " ++ RunError.as_str e)
          | _ => ret tt
          end
        | Err e => sprintln (str "error: " ++ RunError.as_str e)
        | _ => panic
        end
      end
    end
  end.

(** ** Dispatch *)

Inductive command :=
| Help | Echo | History | Clear | Ls | Rm | Save | Write_ | Edit | Asm_ | Cat | Cd_ | Mkdir | Df
| Info_ | Run | Ps | TaskRun | TaskKill | Tasks.

Definition command_table : list (list Z * command) :=
  [ (str "help", Help); (str "echo", Echo); (str "history", History); (str "clear", Clear); (str "ls", Ls);
    (str "rm", Rm); (str "save", Save); (str "write", Write_); (str "edit", Edit); (str "asm", Asm_);
    (str "cat", Cat); (str "cd", Cd_); (str "mkdir", Mkdir); (str "df", Df); (str "info", Info_);
    (str "run", Run); (str "ps", Ps); (str "task-run", TaskRun); (str "task-kill", TaskKill); (str "tasks", Tasks) ].

Definition find_command (name : list Z) : option command :=
  snd <$> List.find (fun e => bytes_eqb e.1 name) command_table.

(** [name.strip_suffix(".wasm")] *)
Definition wasm_stem (name : list Z) : option (list Z) :=
  if ends_with name (str ".wasm") then Some (take (length name - 5) name) else None.

Definition command_names (st : FsState) : list (list Z) :=
  map fst command_table ++ for_each_file (fun name _ l => l ++ option_list (wasm_stem name)) st [].

Definition run_handler (c : command) (args : list (list Z)) : SH unit :=
  match c with
  | Help => cmd_help
  | Echo => cmd_echo args
  | History => cmd_history
  | Clear => cmd_clear
  | Ls => cmd_ls
  | Rm => cmd_rm args
  | Save => cmd_save
  | Write_ => cmd_write args
  | Edit => cmd_edit args
  | Asm_ => cmd_asm args
  | Cat => cmd_cat args
  | Cd_ => cmd_cd args
  | Mkdir => cmd_mkdir args
  | Df => cmd_df
  | Info_ => cmd_info (default [] (List.hd_error args))
  | Run => cmd_run args
  | Ps => cmd_ps
  | TaskRun => cmd_task_run args
  | TaskKill => cmd_task_kill args
  | Tasks => cmd_tasks
  end.

(** A name that is no command: the module of that name, if there is one. The
    buffer for the name takes [MAX_LINE + 5] bytes. *)
Definition run_module (name : list Z) (args : list (list Z)) : SH unit :=
  if (MAX_LINE + 5 <? length name + 5)%nat then panic else
  let! w := gets the_world in
  let wasm_name := default [] (from_utf8 (name ++ str ".wasm")) in
  if negb (bool_decide (wasm_name = [])) && bool_decide (find_file wasm_name (fs w) <> None)
  then task_run_with wasm_name args
  else sprintln (str "unknown command: " ++ name).

Definition run_command (line : list Z) : SH unit :=
  if bool_decide (line = []) || starts_with line (str "#") then ret tt else
  do! history_push line in
  match tokenize line with
  | Ok [] => ret tt
  | Ok (name :: args) =>
    match find_command name with
    | Some c => run_handler c args
    | None => run_module name args
    end
  | Err TooManyArgs => sprintln (str "error: too many arguments")
  | Panic => panic
  | OutOfFuel => lift OutOfFuel
  end.

(** ** The input turn and the main loop *)

Definition the_editor (s : Sh) : CommandLineEditor := editor (sys s).
Definition put_editor (e : CommandLineEditor) : SH unit := modify (fun s => set_sys (set_editor e (sys s)) s).

Fixpoint sprints (out : list (list Z)) : SH unit :=
  match out with [] => ret tt | l :: out' => do! sprint l in sprints out' end.

(** [CommandLineEditor::get_input] *)
Definition get_input : SH (option (list Z)) :=
  let! k := poll_key in
  match k with
  | None => ret None
  | Some k =>
    let! w := gets the_world in
    let! e := gets the_editor in
    let! r := lift (input_key (command_names (fs w)) k e) in
    let '(cmd, e', out) := r in
    do! put_editor e' in do! sprints out in ret cmd
  end.

Definition poll_once : SH bool :=
  let! cmd := get_input in
  do! match cmd with
      | Some c =>
        do! sprint [13; 10] in
        do! run_command c in
        modify (fun s => set_sys (redraw (sys s)) s)
      | None => ret tt
      end in
  let! e := gets the_editor in
  let '(e', out) := render e in
  do! put_editor e' in do! sprints out in ret true.

(** One iteration of the scheduler's loop: whether it slept ([hlt]). *)
Definition loop_turn : SH bool :=
  do! (fun s =>
    match with_network poll (the_world s) with
    | (Some Panic, w) => (Panic, (on_world (fun _ => w) s).2)
    | (Some OutOfFuel, w) => (OutOfFuel, (on_world (fun _ => w) s).2)
    | (_, w) => (Ok tt, (on_world (fun _ => w) s).2)
    end) in
  let! had_input := poll_once in
  let! r := on_tasks (run_next_task fuel) in
  let ran_task := match r with Ok b => b | _ => false end in
  ret (negb had_input && negb ran_task).

(** [n] turns. *)
Fixpoint loop_turns (n : nat) : SH unit :=
  match n with O => ret tt | S n' => do! loop_turn in loop_turns n' end.
End programs.
End shell.
Arguments Sh V1 V2 : clear implicits.
