(* ===== verification/ShellSpec.v ===== *)
(** * Invariants of the shell

    Whatever is typed, a turn of the main loop that completes keeps the
    ownership of tasks and instances, the history ring and the working
    directory in order. *)

From S2P Require Import Prelude Leb128 Loader FileTable Opcode FloatOps Sections NetStack.
From S2P Require Import World Text Editor Machine Dispatch Host Engine EngineSpec.
From S2P Require Import Task Block Fat AsmEmit AsmParse ShellText Shell.

(** Every file of the table consists of bytes. *)
Definition files_are_bytes (st : FsState) : Prop := forall nm d, find_file nm st = Some d -> Forall is_u8 (deref st d).

Section invariant.
Context {V1 V2 : Type} `{FatFs V1} `{FatFs V2}.
Implicit Types s : Sh V1 V2.

(** An absolute path in a buffer of [CWD_MAX] bytes, or none yet. *)
Record cwd_ok s : Prop := {
  cwd_buf : length (CWD_BUF s) = CWD_MAX;
  cwd_len : (CWD_LEN s <= CWD_MAX)%nat;
  cwd_abs : CWD_LEN s <> 0%nat -> CWD_BUF s !! 0%nat = Some 47
}.

Record shell_inv s : Prop := {
  sh_sys : sys_inv (sys s);
  sh_history : exists l, history_holds (HISTORY s) l;
  sh_cwd : cwd_ok s
}.

(** The invariant, with the file table still [f] when one is given. *)
Definition okay (f : option FsState) s : Prop :=
  shell_inv s /\ match f with Some f => fs (the_world s) = f | None => True end.

Definition stable {A} (P Q : Sh V1 V2 -> Prop) (m : SH A) : Prop := forall s a s', P s -> m s = (Ok a, s') -> Q s'.

Lemma okay_weaken f s : okay f s -> okay None s.
Proof. by intros [? _]. Qed.

Section rules.
Context {A B : Type}.
Implicit Types P Q R : Sh V1 V2 -> Prop.

Lemma stable_bind P Q R (m : SH A) (k : A -> SH B) :
  stable P R m -> (forall a, stable R Q (k a)) -> stable P Q (bind m k).
Proof.
  intros Hm Hk s b s' Hs. unfold bind. destruct (m s) as [[a|e| |] s1] eqn:E; try done.
  intros E2. by eapply Hk; [eapply Hm|].
Qed.
Lemma stable_ret P (a : A) : stable P P (ret a).
Proof. by intros s b s' Hs [= _ <-]. Qed.
Lemma stable_lift P (r : result unit A) : stable P P (lift r).
Proof. by intros s b s' Hs [= _ <-]. Qed.
Lemma stable_gets P (g : Sh V1 V2 -> A) : stable P P (gets g).
Proof. by intros s b s' Hs [= _ <-]. Qed.
Lemma stable_panic P : stable P P (panic (A := A)).
Proof. by intros s b s' Hs [=]. Qed.
Lemma stable_weaken f Q (m : SH A) : stable (okay None) Q m -> stable (okay f) Q m.
Proof. intros Hm s a s' Hs. by eapply Hm, okay_weaken. Qed.
Lemma stable_forget f P (m : SH A) : stable P (okay f) m -> stable P (okay None) m.
Proof. intros Hm s a s' Hs E. by eapply okay_weaken, Hm. Qed.
End rules.

Lemma stable_modify f (P : Sh V1 V2 -> Prop) : (forall s, P s -> P (f s)) -> stable P P (modify f).
Proof. intros Hf s a s' Hs [= _ <-]. by apply Hf. Qed.

(** ** Operations that keep the file table *)

Lemma on_world_stable f (g : World -> World) :
  (forall w, match f with Some _ => fs (g w) = fs w | None => True end) -> stable (okay f) (okay f) (on_world g).
Proof.
  intros Hg. apply stable_modify. intros s [[Hi Hh Hc] Hf]. split; [split; [by apply inv_world|done|by destruct Hc; split]|].
  specialize (Hg (the_world s)). destruct f as [f|]; [|done]. cbn. by rewrite Hg.
Qed.

Lemma sprint_stable f bs : stable (okay f) (okay f) (sprint bs).
Proof. apply on_world_stable. by destruct f. Qed.

Lemma sprintln_stable f bs : stable (okay f) (okay f) (sprintln bs).
Proof. apply sprint_stable. Qed.

Lemma on_vol_stable f {A} (m : M (FS V1 V2) unit A) : stable (okay f) (okay f) (on_vol m).
Proof.
  intros s a s' Hs. unfold on_vol. destruct (m (vol s)) as [r v]. intros [= _ <-].
  destruct Hs as [[Hi Hh Hc] Hf]. split; [split; [done..|by destruct Hc; split]|done].
Qed.

Lemma set_cwd_buf_okay f s b n :
  okay f s -> length b = CWD_MAX -> (n <= CWD_MAX)%nat -> (n <> 0%nat -> b !! 0%nat = Some 47) -> okay f (set_cwd_buf b n s).
Proof. intros [[Hi Hh Hc] Hf] Hb Hn Ha. split; [split; [done|done|by split]|done]. Qed.

Lemma get_cwd_stable f : stable (okay f) (okay f) get_cwd.
Proof.
  unfold get_cwd. eapply stable_bind; [|intros _; repeat (eapply stable_bind; [eauto using stable_gets, stable_lift|intros ?]); apply stable_ret].
  apply stable_modify. intros s Hs. destruct (CWD_LEN s =? 0)%nat; [|done]. pose proof (sh_cwd s (proj1 Hs)) as [Hb Hl Ha].
  apply set_cwd_buf_okay; [done|by rewrite length_insert|unfold CWD_MAX; lia|].
  intros _. apply list_lookup_insert_eq. rewrite Hb. unfold CWD_MAX. lia.
Qed.

(** The path read is absolute, and so is every path stored. *)
Lemma get_cwd_absolute s p s' : shell_inv s -> get_cwd s = (Ok p, s') -> absolute p.
Proof.
  intros Hs. pose proof (sh_cwd s Hs) as [Hb Hl Ha]. unfold get_cwd, bind, modify, gets, lift, ret.
  set (s1 := if (CWD_LEN s =? 0)%nat then _ else _).
  assert (CWD_LEN s1 <> 0%nat /\ CWD_BUF s1 !! 0%nat = Some 47) as [Hn Hz].
  { subst s1. destruct (CWD_LEN s =? 0)%nat eqn:E; zbool; [|split; [done|by apply Ha]]. split; [done|].
    apply list_lookup_insert_eq. rewrite Hb. unfold CWD_MAX. lia. }
  unfold slice_range. rewrite drop_0. destruct (_ && _); [|done]. intros [= <- _].
  unfold from_utf8. destruct (utf8_valid _); [|done]. unfold absolute. cbn. rewrite lookup_take_lt by lia. done.
Qed.

Lemma set_cwd_stable f p : absolute p -> stable (okay f) (okay f) (set_cwd p).
Proof.
  intros Hp. apply stable_modify. intros s Hs. pose proof (sh_cwd s (proj1 Hs)) as [Hb Hl Ha].
  apply set_cwd_buf_okay; [done|rewrite length_copy_front; lia|lia|]. intros Hn. unfold copy_front.
  rewrite lookup_app_l by (rewrite length_take; lia). by rewrite lookup_take_lt by lia.
Qed.

Lemma history_push_stable f l : stable (okay f) (okay f) (history_push l).
Proof.
  intros s a s' Hs. unfold history_push, bind, gets, lift, modify. destruct Hs as [[Hi [ls Hh] Hc] Hf].
  destruct (push_line_holds _ ls l Hh) as (h' & -> & Hh'). intros [= _ <-].
  split; [split; [done|by eexists|by destruct Hc; split]|done].
Qed.

Lemma put_editor_stable f e : stable (okay f) (okay f) (put_editor e).
Proof. apply stable_modify. intros s [[Hi Hh Hc] Hf]. split; [split; [by apply inv_render|done|by destruct Hc; split]|done]. Qed.

Lemma read_byte_stable f : stable (okay f) (okay f) read_byte.
Proof.
  intros s a s' Hs. unfold read_byte. destruct (serial_in s); intros [= _ <-]; [done|].
  destruct Hs as [[Hi Hh Hc] Hf]. split; [split; [done..|by destruct Hc; split]|done].
Qed.

Lemma poll_key_stable f : stable (okay f) (okay f) poll_key.
Proof.
  eapply stable_bind; [apply read_byte_stable|]. intros [b|]; [apply stable_ret|].
  intros s a s' [[Hi Hh Hc] Hf]. unfold bind, gets. destruct (try_next_key (the_world s)) as [k w] eqn:E. intros [= _ <-].
  split; [split; [by apply inv_world|done|by destruct Hc; split]|]. destruct f as [f|]; [|done]. cbn. rewrite <- Hf.
  unfold try_next_key in E. destruct (try_next_key_raw _ _) as [[? ?] ?]. by injection E as _ <-.
Qed.
End invariant.

#[export] Hint Resolve stable_ret stable_lift stable_gets stable_panic sprint_stable sprintln_stable on_vol_stable get_cwd_stable
  history_push_stable put_editor_stable read_byte_stable poll_key_stable : shell.

(** Runs through a command, one bind at a time. *)
Ltac stable_step :=
  lazymatch goal with
  | |- stable _ _ (bind _ _) => eapply stable_bind; [|intros ?]
  | |- stable _ _ (let '(_, _) := ?x in _) => destruct x
  | |- stable _ _ (match ?x with _ => _ end) => destruct x eqn:?
  | |- stable _ _ _ => solve [eauto with shell]
  end.
Ltac stable_tac := repeat stable_step.

Section commands.
Context {V1 V2 : Type} `{FatFs V1} `{FatFs V2}.
Implicit Types s : Sh V1 V2.
Notation okay := (okay (V1 := V1) (V2 := V2)).

Lemma sprint_all_stable f ls : stable (okay f) (okay f) (sprint_all ls).
Proof. induction ls; cbn [sprint_all]; stable_tac. Qed.
Lemma sprints_stable f ls : stable (okay f) (okay f) (sprints ls).
Proof. induction ls; cbn [sprints]; stable_tac. Qed.
Lemma echo_words_stable f b ls : stable (okay f) (okay f) (echo_words b ls).
Proof. revert b. induction ls; intros b; cbn [echo_words]; stable_tac. Qed.
Lemma history_lines_stable f n i : stable (okay f) (okay f) (history_lines n i).
Proof. revert i. induction n; intros i; cbn [history_lines]; unfold history_get; stable_tac. Qed.
Lemma read_line_stable f fuel buf n : stable (okay f) (okay f) (read_line fuel buf n).
Proof. revert buf n. induction fuel; intros buf n; cbn [read_line]; stable_tac. Qed.
Lemma print_text_stable f t : stable (okay f) (okay f) (print_text t).
Proof. unfold print_text. stable_tac. Qed.
Lemma store_args_stable f args : stable (okay f) (okay f) (store_args args).
Proof. unfold store_args. stable_tac. apply on_world_stable. by destruct f. Qed.

Lemma on_files_stable {A} (g : FsState -> A * FsState) : stable (okay None) (okay None) (on_files g).
Proof. unfold on_files. stable_tac. by apply on_world_stable. Qed.
Hint Resolve sprint_all_stable sprints_stable echo_words_stable history_lines_stable read_line_stable print_text_stable
  store_args_stable on_files_stable : shell.

Lemma keep_in_memory_stable nm d : stable (okay None) (okay None) (keep_in_memory nm d).
Proof. unfold keep_in_memory. stable_tac. by apply on_world_stable. Qed.
Hint Resolve keep_in_memory_stable : shell.
Lemma save_both_stable p nm d e : stable (okay None) (okay None) (save_both p nm d e).
Proof. unfold save_both. stable_tac. Qed.
Hint Resolve save_both_stable : shell.
Lemma edit_loop_stable fuel nm t b : stable (okay None) (okay None) (edit_loop fuel nm t b).
Proof. revert t b. induction fuel; intros t b; cbn [edit_loop]; stable_tac. Qed.
Hint Resolve edit_loop_stable : shell.
Lemma edit_from_stable nm t : stable (okay None) (okay None) (edit_from nm t).
Proof. unfold edit_from. stable_tac. Qed.
Hint Resolve edit_from_stable : shell.

Lemma cmd_save_stable : stable (okay None) (okay None) cmd_save.
Proof.
  intros s a s' Hs. unfold cmd_save. destruct (save_to_fat _ _ _) as [n [r v]]. revert s a s' Hs.
  change (stable (okay None) (okay None) (do! modify (set_vol v) in do! lift r in
    sprintln (V1 := V1) (V2 := V2) (str "saved " ++ show_usize n ++ str " file(s) to FAT volume"))).
  stable_tac. apply stable_modify. intros s [[Hi Hh Hc] Hf]. split; [split; [done..|by destruct Hc; split]|done].
Qed.

Lemma cmd_cd_stable argv : stable (okay None) (okay None) (cmd_cd argv).
Proof.
  unfold cmd_cd. intros s a s' Hs. unfold bind at 1. destruct (get_cwd s) as [[cwd|e| |] s1] eqn:E; try done.
  pose proof (get_cwd_absolute s cwd s1 (proj1 Hs) E) as Ha. pose proof (get_cwd_stable None s cwd s1 Hs E) as Hs1.
  revert Hs1. clear E Hs. revert s1 a s'. fold (stable (A := unit) (okay None) (okay None)).
  match goal with |- forall s1 a s', okay None s1 -> ?m s1 = _ -> _ => change (stable (okay None) (okay None) m) end.
  cbv zeta. destruct (cd_resolve_normal cwd (default (str "/") (List.hd_error argv)) Ha) as [Hr _].
  stable_tac; by apply set_cwd_stable.
Qed.

(** Commands that start no program. *)
Hint Resolve cmd_save_stable cmd_cd_stable : shell.
Lemma quiet_commands :
  stable (okay None) (okay None) cmd_help /\ (forall args, stable (okay None) (okay None) (cmd_echo args)) /\
  stable (okay None) (okay None) cmd_history /\ stable (okay None) (okay None) cmd_clear /\ stable (okay None) (okay None) cmd_ls /\
  (forall args, stable (okay None) (okay None) (cmd_rm args)) /\ (forall args, stable (okay None) (okay None) (cmd_write args)) /\
  (forall args, stable (okay None) (okay None) (cmd_edit args)) /\ (forall args, stable (okay None) (okay None) (cmd_asm args)) /\
  (forall args, stable (okay None) (okay None) (cmd_cat args)) /\ (forall args, stable (okay None) (okay None) (cmd_mkdir args)) /\
  stable (okay None) (okay None) cmd_df /\ (forall nm, stable (okay None) (okay None) (cmd_info nm)) /\
  stable (okay None) (okay None) cmd_ps /\ stable (okay None) (okay None) cmd_tasks.
Proof.
  unfold cmd_help, cmd_echo, cmd_history, cmd_clear, cmd_ls, cmd_rm, cmd_write, cmd_edit, cmd_asm, cmd_cat, cmd_mkdir, cmd_df,
    cmd_info, cmd_ps, cmd_tasks. cbn [fold_right]. split_and!; intros; stable_tac.
Qed.

(** ** Programs *)

(** Task code that keeps the ownership invariant when it ends, with a value or
    with an error. *)
Lemma on_tasks_stable {A} (m : T A) (Q : result RunError.t A -> Sys -> Prop) s a s' :
  okay None s -> on_tasks m s = (Ok a, s') ->
  (forall r sy, m (sys s) = (r, sy) -> r <> Panic -> r <> OutOfFuel -> sys_inv sy /\ Q r sy) ->
  okay None s' /\ Q a (sys s').
Proof.
  intros [[Hi Hh Hc] _]. unfold on_tasks. destruct (m (sys s)) as [r sy] eqn:E. intros E2 Hm.
  assert (r <> Panic /\ r <> OutOfFuel) as [Hp Hf] by (split; intros ->; done).
  destruct (Hm r sy eq_refl Hp Hf) as [Hsy Hq].
  assert (a = r /\ exists v, s' = set_vol v (set_sys sy s)) as [-> [v ->]].
  { destruct r; try done; (destruct (sync_writes _ _) as [v|?| |]; try done; injection E2 as <- <-; by eauto). }
  split; [|done]. split; [|done]. split; [done..|by destruct Hc; split].
Qed.

Section programs.
Context `{FE : FloatEnv} `{FT : Features} (fuel : nat).

Lemma cmd_task_kill_stable argv : stable (okay None) (okay None) (cmd_task_kill argv).
Proof.
  unfold cmd_task_kill. stable_tac. intros s a s' Hs E. eapply (on_tasks_stable _ (fun _ _ => True)) in E as [? _]; [done..|].
  intros r sy Er Hp Hf. split; [|done]. destruct (task_kill_good (Z.to_nat z) (sys s) (sh_sys s (proj1 Hs))) as (sy' & E2 & (Hk & _) & _).
  rewrite Er in E2. by injection E2 as _ <-.
Qed.

Lemma task_spawn_stable name bytes args : Forall is_u8 bytes ->
  stable (okay None) (okay None) (on_tasks (task_spawn name bytes args)).
Proof.
  intros Hb s a s' Hs E. eapply (on_tasks_stable _ (fun _ _ => True)) in E as [? _]; [done..|].
  intros r sy Er Hp Hf. split; [|done]. pose proof (task_spawn_good name bytes args (sys s) (sh_sys s (proj1 Hs)) Hb) as Hg.
  rewrite Er in Hg. destruct r; by destruct Hg.
Qed.

(** No task owns the instance [h]. *)
Definition unowned (h : nat) (sy : Sys) : Prop := forall id t, TASK_QUEUE sy !! id = Some (Some t) -> instance t <> h.

Lemma spawn_unowned name bytes s a s' :
  Forall is_u8 bytes -> okay None s -> on_tasks (on_kern (spawn name bytes)) s = (Ok a, s') ->
  okay None s' /\ match a with Ok h => unowned h (sys s') | _ => True end.
Proof.
  intros Hb Hs E. eapply (on_tasks_stable _ (fun a sy => match a with Ok h => unowned h sy | _ => True end)) in E; [done..|].
  intros r sy Er Hp Hf. unfold on_kern in Er. pose proof (sh_sys s (proj1 Hs)) as Hi.
  pose proof (spawn_outcome (kern (sys s)) name bytes (si_pool _ Hi) Hb) as Ho.
  destruct (spawn name bytes (kern (sys s))) as [r0 k]. injection Er as -> <-. destruct r as [h|e| |]; try done.
  - destruct (spawned_effect _ _ _ _ _ (si_pool _ Hi) Ho) as (Hk & Hoth & Hfree & Hocc & Hlt). split.
    + apply inv_kern; [done..|]. intros j Hj. destruct (decide (j = h)) as [->|Hne]; [done|]. by rewrite (others_occupied _ _ _ _ Hoth).
    + intros id t Ht Eh. cbn in Ht. destruct (si_task _ Hi id t Ht) as [Hocc2 _]. congruence.
  - split; [|done]. destruct Ho as [->|(slot & _ & Hm)]; [by destruct (sys s)|]. pose proof Hm as (_ & _ & _ & HP & _).
    apply inv_kern; [done|by eapply mem_only_pool_ok, Hm; apply Hi|]. intros j. unfold occupied. by rewrite HP.
Qed.

Lemma run_to_end_stable h args s a s' :
  okay None s -> unowned h (sys s) -> on_tasks (on_kern (run_to_end fuel h args)) s = (Ok a, s') -> okay None s'.
Proof.
  intros Hs Hu E. eapply (on_tasks_stable _ (fun _ _ => True)) in E as [? _]; [done..|].
  intros r sy Er Hp Hf. split; [|done]. pose proof (sh_sys s (proj1 Hs)) as Hi. unfold on_kern, run_to_end in Er.
  pose proof (drain_own fuel h (kern (sys s)) _ (start_task_own fuel h (str "main") args _ (si_pool _ Hi))) as Ho.
  destruct (drain _ _ _) as [r0 k]. cbn [snd] in Ho. destruct Ho as (Hk & Hoth & Hocc).
  destruct (destroy_effect h k Hk) as (k2 & Ed & Hk2 & Ho2 & _).
  assert (sys_inv (set_kern k2 (sys s))) as Hi2.
  { pose proof Hi as [P1 P2 P3 P4 P5]. split; cbn; auto. intros id t Ht. split; [|by apply (P4 id t Ht)].
    pose proof (Hu id t Ht) as Hne. rewrite (others_occupied _ _ _ _ Ho2), Hocc by done. by apply (P4 id t Ht). }
  destruct r0; try (injection Er as <- <-; done); unfold bind in Er; rewrite Ed in Er; by injection Er as _ <-.
Qed.

Lemma task_run_with_stable f name args : files_are_bytes f -> stable (okay (Some f)) (okay None) (task_run_with name args).
Proof.
  intros Hb. unfold task_run_with. eapply stable_bind; [eauto with shell|]. intros _. destruct (parse_args args []) as [wa|x]; [|eapply stable_forget; stable_tac].
  intros s a s' Hs. unfold bind at 1, gets. destruct (find_file name (fs (the_world s))) as [d|] eqn:Ef.
  - revert s' a. assert (Forall is_u8 (deref (fs (the_world s)) d)) as Hd by (rewrite (proj2 Hs) in *; by eapply Hb).
    generalize dependent (deref (fs (the_world s)) d). intros bytes Hd. intros s' a.
    apply (stable_bind (okay None) (okay None) (okay None)); [by apply task_spawn_stable|intros r; stable_tac|by apply okay_weaken in Hs].
  - intros E. eapply (sprintln_stable None); [by apply okay_weaken in Hs|exact E].
Qed.

Lemma cmd_run_stable f argv : files_are_bytes f -> stable (okay (Some f)) (okay None) (cmd_run fuel argv).
Proof.
  intros Hb. unfold cmd_run. destruct argv as [|name args]; [eapply stable_forget; stable_tac|].
  destruct (bool_decide _); [eapply stable_forget; stable_tac|].
  intros s a s' Hs. unfold bind at 1, gets. destruct (find_file name (fs (the_world s))) as [d|] eqn:Ef;
    [|intros E; eapply (sprintln_stable None); [by apply okay_weaken in Hs|exact E]].
  destruct (parse_args args []) as [wa|x]; [|intros E; eapply (sprintln_stable None); [by apply okay_weaken in Hs|exact E]].
  assert (Forall is_u8 (deref (fs (the_world s)) d)) as Hd by (rewrite (proj2 Hs) in *; by eapply Hb).
  generalize dependent (deref (fs (the_world s)) d). intros bytes Hd.
  apply okay_weaken in Hs. revert a s'. unfold bind at 1. destruct (store_args args s) as [[u|e| |] s1] eqn:E1; try done. intros a s'.
  pose proof (store_args_stable None args s u s1 Hs E1) as Hs1. unfold bind at 1.
  destruct (on_tasks (on_kern (spawn name bytes)) s1) as [[r|e| |] s2] eqn:E2; try done.
  destruct (spawn_unowned _ _ _ _ _ Hd Hs1 E2) as [Hs2 Hu]. destruct r as [h|e| |]; [|by apply sprintln_stable|done..].
  unfold bind at 1. destruct (on_tasks (on_kern (run_to_end fuel h wa)) s2) as [[r|e| |] s3] eqn:E3; try done.
  pose proof (run_to_end_stable _ _ _ _ _ Hs2 Hu E3) as Hs3. revert Hs3. revert a s'.
  destruct r as [[v|e| |]|e| |]; intros a s' Hs3 E; try (by injection E as _ <-); by eapply (sprintln_stable None).
Qed.

(** ** The dispatcher and the main loop *)

Lemma run_handler_stable f c args : files_are_bytes f -> stable (okay (Some f)) (okay None) (run_handler fuel c args).
Proof.
  intros Hb.
  destruct quiet_commands as (Hhelp & Hecho & Hhist & Hclear & Hls & Hrm & Hwrite & Hedit & Hasm & Hcat & Hmkdir & Hdf & Hinfo & Hps & Htasks).
  destruct c; cbn [run_handler];
    [apply stable_weaken, Hhelp|apply stable_weaken, Hecho|apply stable_weaken, Hhist|apply stable_weaken, Hclear|apply stable_weaken, Hls
    |apply stable_weaken, Hrm|apply stable_weaken, cmd_save_stable|apply stable_weaken, Hwrite|apply stable_weaken, Hedit
    |apply stable_weaken, Hasm|apply stable_weaken, Hcat|apply stable_weaken, cmd_cd_stable|apply stable_weaken, Hmkdir
    |apply stable_weaken, Hdf|apply stable_weaken, Hinfo|by apply cmd_run_stable|apply stable_weaken, Hps|
    |apply stable_weaken, cmd_task_kill_stable|apply stable_weaken, Htasks].
  unfold cmd_task_run. destruct args as [|nm args]; [apply stable_weaken; stable_tac|].
  destruct (bool_decide _); [apply stable_weaken; stable_tac|by apply task_run_with_stable].
Qed.

Lemma run_module_stable f name args : files_are_bytes f -> stable (okay (Some f)) (okay None) (run_module name args).
Proof.
  intros Hb. unfold run_module. destruct (_ <? _)%nat; [by intros s a s' _ [=]|].
  eapply stable_bind; [eauto with shell|]. intros w. cbv zeta. destruct (_ && _); [by apply task_run_with_stable|].
  apply stable_weaken. stable_tac.
Qed.

Lemma run_command_stable f line : files_are_bytes f -> stable (okay (Some f)) (okay None) (run_command fuel line).
Proof.
  intros Hb. unfold run_command. destruct (_ || _); [apply stable_weaken; stable_tac|].
  eapply stable_bind; [eauto with shell|]. intros _.
  destruct (tokenize line) as [[|name args]|[]| |]; try solve [apply stable_weaken; stable_tac].
  destruct (find_command name); [by apply run_handler_stable|by apply run_module_stable].
Qed.

Lemma get_input_stable f : stable (okay f) (okay f) get_input.
Proof. unfold get_input. stable_tac. Qed.

Lemma poll_once_stable f : files_are_bytes f -> stable (okay (Some f)) (okay None) (poll_once fuel).
Proof.
  intros Hb. unfold poll_once. eapply stable_bind; [apply get_input_stable|]. intros cmd.
  eapply (stable_bind _ _ (okay None)); [|intros _; stable_tac].
  destruct cmd as [c|]; [|apply stable_weaken; stable_tac].
  eapply stable_bind; [eauto with shell|]. intros _. eapply stable_bind; [by apply run_command_stable|]. intros _.
  apply stable_modify. intros s [[Hi Hh Hc] Hf]. split; [split; [by apply inv_render|done|by destruct Hc; split]|done].
Qed.

Lemma poll_once_true s b s' : poll_once fuel s = (Ok b, s') -> b = true.
Proof.
  unfold poll_once, bind, gets, ret. intros E. repeat (case_split; try done); by injection E as <- _.
Qed.

(** The scheduler's turn reports no error of its own. *)
Definition no_err {A} (m : T A) : Prop := forall sy e sy', m sy <> (Err e, sy').

Lemma no_err_bind {A B} (m : T A) (k : A -> T B) : no_err m -> (forall a, no_err (k a)) -> no_err (bind m k).
Proof. intros Hm Hk sy e sy'. unfold bind. destruct (m sy) as [[a|e0| |] s1] eqn:E; try done; [apply Hk|by destruct (Hm sy e0 s1)]. Qed.

Lemma no_err_pure {A} (g : Sys -> A) : no_err (gets g).
Proof. by intros sy e sy'. Qed.
Lemma no_err_ret {A} (a : A) : no_err (ret a).
Proof. by intros sy e sy'. Qed.
Lemma no_err_modify g : no_err (modify g).
Proof. by intros sy e sy'. Qed.
Lemma no_err_get_task id : no_err (get_task id).
Proof. intros sy e sy'. unfold get_task, bind, gets, lift. by destruct (_ !! id). Qed.
Lemma no_err_attempt {A} (m : K A) : no_err (attempt m).
Proof. intros sy e sy'. unfold attempt. by destruct (m (kern sy)) as [[?|?| |] ?]. Qed.
Lemma no_err_destroy h : no_err (on_kern (destroy h)).
Proof.
  intros sy e sy'. unfold on_kern, destroy, zero_mem, bind, gets, lift, modify, ret. destruct (_ <=? _)%nat; [done|].
  destruct (POOL (kern sy) !! h) as [x|]; [|done]. cbn [or_panic]. destruct (negb _); [done|]. cbn [SLOT_MEM set_pool].
  by destruct (SLOT_MEM (kern sy) !! h).
Qed.
Hint Resolve no_err_bind no_err_pure no_err_ret no_err_modify no_err_get_task no_err_attempt no_err_destroy : noerr.

Ltac no_err_tac :=
  repeat lazymatch goal with
  | |- no_err (bind _ _) => apply no_err_bind; [|intros ?]
  | |- no_err (let '(_, _) := ?x in _) => destruct x
  | |- no_err (match ?x with _ => _ end) => destruct x
  | |- no_err panic => by intros ? ? ?
  | |- no_err _ => solve [auto with noerr]
  end.

Lemma run_next_task_no_err n : no_err (run_next_task n).
Proof.
  assert (forall id t r, no_err (update_task id t r)) as Hu by (intros; unfold update_task, put_task, on_sys_world; no_err_tac).
  assert (forall id, no_err (task_step n id)) as Ht.
  { intros id. unfold task_step, put_task. cbv zeta. no_err_tac; apply Hu. }
  intros sy. unfold run_next_task. destruct (next_task sy) as [id|]; [|done]. revert sy.
  match goal with |- forall sy e sy', ?m sy <> _ => change (no_err m) end. unfold on_sys_world. no_err_tac.
Qed.

Lemma on_network_stable f :
  stable (okay (Some f)) (okay (Some f)) (fun s =>
    match with_network poll (the_world s) with
    | (Some Panic, w) => (Panic, (on_world (fun _ => w) s).2)
    | (Some OutOfFuel, w) => (OutOfFuel, (on_world (fun _ => w) s).2)
    | (_, w) => (Ok tt, (on_world (fun _ => w) s).2)
    end).
Proof.
  intros s a s' [[Hi Hh Hc] Hf].
  assert (fs (with_network poll (the_world s)).2 = fs (the_world s)) as Hfs.
  { unfold with_network. destruct (NETWORK_STACK _); [|done]. by destruct (poll _). }
  destruct (with_network poll (the_world s)) as [r w]. cbn [snd] in Hfs.
  destruct r as [[?|?| |]|]; intros E; try done; injection E as _ <-;
    (split; [split; [by apply inv_world|done|by destruct Hc; split]|cbn; congruence]).
Qed.

(** [poll_once] always reports input, so the loop never executes [hlt]. *)
Lemma loop_turn_awake s b s' : loop_turn fuel s = (Ok b, s') -> b = false.
Proof.
  unfold loop_turn, bind, ret. intros E. repeat (case_split; try done).
  all: match goal with Hp : poll_once _ _ = (Ok _, _) |- _ => apply poll_once_true in Hp as -> end; by injection E as <- _.
Qed.

Lemma loop_turn_stable f : files_are_bytes f -> stable (okay (Some f)) (okay None) (loop_turn fuel).
Proof.
  intros Hb. unfold loop_turn. eapply stable_bind; [apply on_network_stable|]. intros _.
  eapply stable_bind; [by apply poll_once_stable|]. intros had. eapply (stable_bind _ _ (okay None)); [|intros r; stable_tac].
  intros s a s' Hs E. eapply (on_tasks_stable _ (fun _ _ => True)) in E as [? _]; [done..|].
  intros r sy Er Hp Hf. split; [|done]. pose proof (sh_sys s (proj1 Hs)) as Hi. destruct r as [b|e| |]; try done.
  - pose proof (run_next_task_good fuel (sys s) b sy Hi Er) as Hg. destruct (next_task (sys s)); [by destruct Hg as (_ & ? & _)|]. by destruct Hg as [_ ->].
  - exfalso. by apply (run_next_task_no_err fuel (sys s) e sy).
Qed.

(** *** The loop with the interrupts and devices around it *)

Definition world_now (f : World -> World) s : Sh V1 V2 := (on_world f s).2.

(** A turn that completes; between turns the timer ticks, a key is struck, a byte
    comes in on the serial line, the network card or the stack has changed. The
    files of the table hold bytes, as their type [&[u8]] says. *)
Inductive loop_step : Sh V1 V2 -> Sh V1 V2 -> Prop :=
| step_loop s b s' : files_are_bytes (fs (the_world s)) -> loop_turn fuel s = (Ok b, s') -> loop_step s s'
| step_timer s : loop_step s (world_now pit_on_tick s)
| step_scancode s sc : loop_step s (world_now (fun w => set_keyboard (scancodes w ++ [sc]) (SHIFT w) w) s)
| step_serial s x : loop_step s (mkSh (sys s) (vol s) (HISTORY s) (CWD_BUF s) (CWD_LEN s) (serial_in s ++ [x]))
| step_network s st : loop_step s (world_now (set_network st) s).

Lemma world_now_inv f s : shell_inv s -> shell_inv (world_now f s).
Proof. intros [Hi Hh Hc]. split; [by apply inv_world|done|by destruct Hc; split]. Qed.

Lemma loop_step_inv s s' : shell_inv s -> loop_step s s' -> shell_inv s'.
Proof.
  intros Hs. destruct 1 as [s b s' Hb E| | |s x|]; try by apply world_now_inv.
  - by apply (loop_turn_stable (fs (the_world s)) Hb s b s').
  - destruct Hs as [Hi Hh Hc]. split; [done|done|by destruct Hc; split].
Qed.

Inductive loop_reaches (s : Sh V1 V2) : Sh V1 V2 -> Prop :=
| reaches_start : loop_reaches s s
| reaches_step s1 s2 : loop_reaches s s1 -> loop_step s1 s2 -> loop_reaches s s2.

Lemma loop_reaches_inv s s' : shell_inv s -> loop_reaches s s' -> shell_inv s'.
Proof. intros Hs. induction 1; [done|]. by eapply loop_step_inv. Qed.
End programs.
End commands.
