(* ===== verification/ShellFiles.v ===== *)
(** * Files through the shell

    [write], [cat] and [edit] end to end: from the line typed to the bytes on
    the volume and back to the screen. *)

From S2P Require Import Prelude Leb128 Loader FileTable Opcode FloatOps Sections NetStack.
From S2P Require Import World Text Editor Machine Dispatch Host HostSpec Engine EngineSpec.
From S2P Require Import Task Block Fat AsmEmit AsmParse ShellText Shell ShellSpec.

Section files.
Context {V1 V2 : Type} `{F1 : FatFs V1} `{!FatFsOk V1} `{F2 : FatFs V2} `{!FatFsOk V2}.
Context `{FE : FloatEnv} `{FT : Features} (fuel : nat).
Implicit Types s : Sh V1 V2.
Notation run_line := (run_command fuel).

(** The first word and the words after it, one space apart. *)
Definition command_line (c : list Z) (args : list (list Z)) : list Z := typed (([], c) :: map (fun a => ([32], a)) args) [].

Lemma run_command_line c cmd args s :
  shell_inv s -> find_command c = Some cmd -> spellable c -> plain c = true -> starts_with c (str "#") = false ->
  Forall spellable args -> (length args < MAX_ARGS)%nat ->
  exists h, run_line (command_line c args) s = run_handler fuel cmd args (set_history h s) /\ shell_inv (set_history h s).
Proof.
  intros Hs Hc Hsp Hp Hn Ha Hl. destruct (sh_history s Hs) as [l Hh].
  destruct (push_line_holds (HISTORY s) l (command_line c args) Hh) as (h & Eh & Hh').
  exists h. split; [|split; [apply Hs|by eexists|by destruct (sh_cwd s Hs); split]].
  assert (command_line c args = c ++ typed (map (fun a => ([32], a)) args) []) as El.
  { unfold command_line, typed. cbn [map flat_map app fst snd]. unfold spell at 1. by rewrite Hp, <- app_assoc. }
  unfold run_command. assert (bool_decide (command_line c args = []) || starts_with (command_line c args) (str "#") = false) as ->.
  { rewrite El. destruct c as [|b c]; [done|]. cbn [app]. rewrite bool_decide_eq_false_2 by done. exact Hn. }
  unfold bind at 1. unfold history_push, bind, gets, lift. rewrite Eh. cbn [modify].
  unfold command_line. rewrite tokenize_typed; [|by constructor|done| |by constructor].
  - rewrite length_map, (proj2 (Nat.ltb_lt _ _)) by done. rewrite Hc, map_map. cbn [snd]. by rewrite map_id.
  - apply Forall_map. eapply Forall_impl; [|exact Ha]. intros a Hsa. cbn. split; [by repeat constructor|done].
Qed.

(** A word without slashes names a file of the root directory. *)
Definition no_slash (nm : list Z) : Prop := Forall (fun b => b <> 47) nm.

Lemma split_path_plain nm : no_slash nm -> split_path nm = ([], nm).
Proof.
  intros Hn. unfold split_path. assert (trim_slashes nm = nm) as ->.
  { destruct Hn as [|b nm Hb]; [done|]. cbn. by rewrite (proj2 (Z.eqb_neq b 47)). }
  unfold rfind_slash. assert (position (fun b => b =? 47) (rev nm) = None) as ->; [|done].
  apply position_none. intros i x Hi. apply Z.eqb_neq. eapply (Forall_lookup_1 (fun b => b <> 47)); [|exact Hi]. by apply Forall_rev.
Qed.

Lemma split_path_absolute nm : no_slash nm -> split_path (47 :: nm) = ([], nm).
Proof. exact (split_path_plain nm). Qed.

(** The working directory. *)
Lemma get_cwd_run s : shell_inv s ->
  exists cwd b n, get_cwd s = (Ok cwd, set_cwd_buf b n s) /\ ((CWD_LEN s <= 1)%nat -> cwd = str "/").
Proof.
  intros Hs. pose proof (sh_cwd s Hs) as [Hb Hl Ha]. unfold get_cwd, bind, modify, gets, lift, ret.
  assert (forall b : list Z, b !! 0%nat = Some 47 -> slice_range (E := unit) b 0 1 = Ok [47]) as Hsl.
  { intros [|x b]; [done|]. intros [= ->]. reflexivity. }
  destruct (CWD_LEN s) as [|[|n]] eqn:En; cbn [Nat.eqb].
  - eexists _, _, _. cbn [CWD_BUF CWD_LEN set_cwd_buf]. rewrite Hsl; [by split|]. apply list_lookup_insert_eq. rewrite Hb. unfold CWD_MAX. lia.
  - exists (str "/"), (CWD_BUF s), (CWD_LEN s). rewrite En, Hsl by (apply Ha; lia). cbn. split; [|done]. f_equal. by destruct s; cbn in *; subst.
  - exists (default (str "/") (from_utf8 (take (CWD_LEN s) (CWD_BUF s)))), (CWD_BUF s), (CWD_LEN s). split; [|lia]. rewrite En.
    unfold slice_range. rewrite (proj2 (Nat.leb_le (S (S n)) _)) by lia. cbn [Nat.leb andb]. rewrite Nat.sub_0_r, drop_0. f_equal.
    by destruct s; cbn in *; subst.
Qed.

(** A path by which [cat] finds the file [nm] of the root directory: with a
    slash before it from anywhere, as it is in the root directory. *)
Definition names_root (path nm : list Z) s : Prop := path = 47 :: nm \/ path = nm /\ (CWD_LEN s <= 1)%nat.

Lemma spellable_root path nm s : spellable nm -> names_root path nm s -> spellable path.
Proof.
  intros [Hu Hp] [->|[-> _]]; [|by split]. split; [exact Hu|]. destruct Hp as [Hp|Hp].
  - left. destruct nm as [|b nm]; [done|]. cbn in Hp |- *. by apply andb_prop in Hp as [_ Hp].
  - right. by constructor.
Qed.

(** What a text prints. *)
Definition text_events (t : list Z) : list event := Print t :: if ends_with t [NL] then [] else [Print [NL]].

Lemma print_text_run t s : exists s', print_text t s = (Ok tt, s') /\ log (the_world s') = log (the_world s) ++ text_events t.
Proof.
  unfold print_text, text_events, bind, sprint, sprintln, on_world, modify, ret.
  destruct (ends_with t [NL]); eexists; (split; [reflexivity|]); cbn; by rewrite <- ?app_assoc.
Qed.

(** [cat] of a file of the root directory prints its text. *)
Lemma cmd_cat_run path nm t s :
  shell_inv s -> names_root path nm s -> no_slash nm -> vol_fine (vol s) -> vol_reads (vol s) nm = Some t -> utf8_valid t = true ->
  exists s', cmd_cat [path] s = (Ok tt, s') /\ log (the_world s') = log (the_world s) ++ text_events t.
Proof.
  intros Hi Hp Hn Hv Hf Hu. destruct (get_cwd_run s Hi) as (cwd & b & n & E & Hcwd).
  assert (split_path (resolve_fat_path cwd path) = ([], nm)) as Hsp.
  { unfold resolve_fat_path. destruct Hp as [->|[-> Hr]]; [by apply split_path_absolute|]. rewrite Hcwd by done.
    destruct (starts_with nm (str "/")); by apply split_path_plain. }
  unfold cmd_cat, bind at 1. rewrite E. unfold bind at 1, on_vol. cbn [vol set_cwd_buf].
  destruct (read_path_mounted _ _ (vol s) Hv Hsp) as (v' & -> & _ & _). rewrite Hf, from_utf8_valid by done.
  destruct (print_text_run t (set_vol v' (set_cwd_buf b n s))) as (s' & Ep & El). exists s'. by split.
Qed.

(** [write] stores exactly the bytes, or says that it failed. *)
Lemma cmd_write_run nm bs s :
  vol_fine (vol s) -> Forall is_u8 bs -> (length bs <= 4096)%nat ->
  exists ok s', cmd_write [nm; hex_encode bs] s = (Ok tt, s') /\ vol_fine (vol s') /\ vol_kept nm (vol s) (vol s') /\
    CWD_LEN s' = CWD_LEN s /\
    if ok : bool then vol_reads (vol s') nm = Some bs
    else log (the_world s') = log (the_world s) ++ [Print (str "write: FAT write failed" ++ [NL])].
Proof.
  intros Hv Hb Hl. unfold cmd_write. rewrite hex_decode_encode, (proj2 (Nat.leb_le _ _)) by done.
  unfold bind at 1, on_vol. destruct (write_file_mounted nm bs (vol s) Hv) as (ok & v1 & -> & Hv1 & Hk & Hok). exists ok.
  destruct ok; cbn [negb]; [|eexists; split; [reflexivity|]; by split_and!].
  unfold bind at 1, keep_in_memory, bind at 1, on_files, bind at 1, gets, bind at 1.
  destruct (alloc_write_buf bs _) as [[d|] st]; cbn; eexists; (split; [reflexivity|]); split_and!; try done; by apply Hok.
Qed.

(** ** Typing on the serial line *)

Definition printable (l : list Z) : Prop := Forall (fun b => 32 <= b <= 126) l.

Lemma utf8_printable l : printable l -> utf8_valid l = true.
Proof. induction 1 as [|b l Hb _ IH]; [done|]. cbn [utf8_valid]. by rewrite (proj2 (Z.leb_le b 127)) by lia. Qed.

(** Only the screen and the serial line moved: [rest] is still to come. *)
Record heard (rest : list Z) s s' : Prop := {
  hd_serial : serial_in s' = rest;
  hd_vol : vol s' = vol s;
  hd_fs : fs (the_world s') = fs (the_world s);
  hd_keys : scancodes (the_world s') = scancodes (the_world s)
}.

Lemma heard_trans r1 r2 s1 s2 s3 : heard r1 s1 s2 -> heard r2 s2 s3 -> heard r2 s1 s3.
Proof. intros [A1 A2 A3 A4] [B1 B2 B3 B4]. split; congruence. Qed.

Lemma sprint_heard bs s : exists s', sprint bs s = (Ok tt, s') /\ heard (serial_in s) s s'.
Proof. eexists. split; [reflexivity|by split]. Qed.

(** Reading a typed line: what was in the buffer, then the line. *)
Lemma read_line_typed l n buf k s rest :
  printable l -> printable (take k buf) -> (k + length l <= length buf)%nat -> serial_in s = l ++ 13 :: rest -> (length l < n)%nat ->
  exists buf' s', read_line n buf k s = (Ok (Some (take k buf ++ l), buf'), s') /\ length buf' = length buf /\ heard rest s s'.
Proof.
  revert n buf k s. induction l as [|b l IH]; intros n buf k s Hl Hb Hk Hs Hn; (destruct n as [|n]; [cbn in Hn; lia|]).
  - cbn [read_line]. unfold bind at 1, poll_key, bind at 1, read_byte. rewrite Hs. cbn [app ret serial_byte_to_key].
    unfold ret at 1. cbn [Z.eqb Pos.eqb orb serial_byte_to_key]. cbn in Hk.
    unfold bind, sprint, on_world, modify, lift. cbn [fst snd]. unfold slice_range. rewrite Nat.sub_0_r, drop_0.
    rewrite (proj2 (Nat.leb_le k _)) by lia. cbn [Nat.leb andb]. unfold ret.
    rewrite app_nil_r, from_utf8_valid by (by apply utf8_printable). eexists _, _. split; [reflexivity|]. split; [done|by split].
  - inversion Hl as [|? ? Hbb Hl1]; subst. clear Hl. rename Hl1 into Hl. cbn [length] in Hk, Hn. cbn [read_line].
    unfold bind at 1, poll_key, bind at 1, read_byte. rewrite Hs. cbn [app].
    assert (serial_byte_to_key b = KeyChar b) as Ek.
    { unfold serial_byte_to_key. rewrite !(proj2 (Z.eqb_neq b _)) by lia. cbn [orb]. by rewrite !(proj2 (Z.leb_le _ _)) by lia. }
    unfold ret at 1. rewrite Ek. rewrite (proj2 (Nat.ltb_lt k _)) by lia.
    unfold bind at 1. destruct (sprint_heard (encode_char b) (set_serial (l ++ 13 :: rest) s)) as (s1 & -> & Hh1).
    assert (as_u8 b = b) as -> by (unfold_width; apply Z.mod_small; lia).
    assert (take (k + 1) (<[k:=b]> buf) = take k buf ++ [b]) as Et.
    { rewrite Nat.add_1_r. rewrite (take_S_r _ _ b) by (apply list_lookup_insert_eq; lia). by rewrite take_insert_ge. }
    destruct (IH n (<[k:=b]> buf) (k + 1)%nat s1) as (buf' & s2 & E2 & Hl2 & Hh2); try done; rewrite ?length_insert; try lia.
    + rewrite Et. apply Forall_app. split; [done|by apply Forall_singleton].
    + by rewrite (hd_serial _ _ _ Hh1).
    + rewrite E2, Et, <- app_assoc. exists buf', s2. split; [done|]. rewrite length_insert in Hl2. split; [done|].
      destruct Hh1 as [A1 A2 A3 A4], Hh2 as [B1 B2 B3 B4]. unfold the_world in *; cbn in A1, A2, A3, A4; split; unfold the_world; congruence.
Qed.

(** A line of the text: not a command of the editor, also none of those its
    comment names, and short enough. *)
Definition text_line (l : list Z) : Prop :=
  printable l /\ (length l <= 256)%nat /\ l <> str ":q" /\ l <> str ":w" /\ l <> str "quit" /\ l <> str "save".

Definition with_ends (e : Z) (ls : list (list Z)) : list Z := flat_map (fun l => l ++ [e]) ls.

Lemma strip_eol_printable l : printable l -> strip_eol l = l.
Proof.
  intros Hl. assert (forall b, b < 32 -> ends_with l [b] = false) as He.
  { intros b Hb. unfold ends_with. destruct l as [|x l' _] using rev_ind; [done|]. rewrite length_app. cbn [length].
    rewrite Nat.add_sub, drop_app_length. apply Forall_app in Hl as [_ Hl]. inversion Hl; subst.
    unfold bytes_eqb. rewrite bool_decide_eq_false_2 by (intros [= ->]; lia). apply andb_false_r. }
  unfold strip_eol. by rewrite !He by lia.
Qed.

Lemma text_line_not l c : l <> c -> bytes_eqb l c = false.
Proof. intros. unfold bytes_eqb. by apply bool_decide_eq_false_2. Qed.

Lemma printable_w : printable (str ":w").
Proof. change (str ":w") with [58; 119]. repeat constructor; lia. Qed.

(** The lines typed until [:w] are what is saved. *)
Lemma edit_loop_typed ls n nm text buf s rest :
  Forall text_line ls -> length buf = 256%nat -> (length text + length (with_ends NL ls) <= EDIT_CAP)%nat ->
  serial_in s = with_ends 13 ls ++ str ":w" ++ [13] ++ rest -> (length ls < n)%nat ->
  exists s', heard rest s s' /\
    edit_loop n nm text buf s = save_both nm nm (text ++ with_ends NL ls) (str "edit: save failed") s'.
Proof.
  revert n text buf s. induction ls as [|l ls IH]; intros n text buf s Hls Hb Hcap Hs Hn;
    (destruct n as [|n]; [cbn in Hn; lia|]); cbn [edit_loop].
  all: unfold bind at 1; destruct (sprint_heard (str "> ") s) as (s1 & -> & Hh1); unfold bind at 1, gets.
  - assert (serial_in s1 = str ":w" ++ 13 :: rest) as Hs1 by (rewrite (hd_serial _ _ _ Hh1), Hs; done).
    destruct (read_line_typed (str ":w") (S (input_left s1)) buf 0 s1 rest) as (buf' & s2 & E & Hl2 & Hh2);
      [exact printable_w|exact (List.Forall_nil _)|rewrite Hb; cbn; lia|done|unfold input_left; rewrite Hs1; cbn; lia|].
    unfold bind at 1. rewrite E. cbn [take app]. rewrite strip_eol_printable by exact printable_w. cbn [with_ends flat_map].
    rewrite app_nil_r. exists s2. split; [by eapply heard_trans|reflexivity].
  - inversion Hls as [|? ? (Hp & Hll & Hq & Hw & _) Hls1]; subst. clear Hls. rename Hls1 into Hls. cbn [with_ends flat_map] in *. fold (with_ends 13 ls) (with_ends NL ls) in *.
    rewrite !length_app in Hcap. cbn [length] in Hcap, Hn.
    assert (serial_in s1 = l ++ 13 :: (with_ends 13 ls ++ str ":w" ++ [13] ++ rest)) as Hs1.
    { rewrite (hd_serial _ _ _ Hh1), Hs. by rewrite <- !app_assoc. }
    destruct (read_line_typed l (S (input_left s1)) buf 0 s1 _ Hp (List.Forall_nil _) ltac:(rewrite Hb; cbn; lia) Hs1) as (buf' & s2 & E & Hl2 & Hh2);
      [unfold input_left; rewrite Hs1, length_app; cbn; lia|].
    rewrite take_0 in E. cbn [app] in E. unfold bind at 1. rewrite E. rewrite strip_eol_printable by done. rewrite !text_line_not by done.
    rewrite (proj2 (Nat.ltb_ge _ _)) by lia.
    destruct (IH n (text ++ l ++ [NL]) buf' s2) as (s3 & Hh3 & E3); [done|congruence|rewrite !length_app; cbn; lia|by rewrite (hd_serial _ _ _ Hh2)|lia|].
    exists s3. split; [by eapply heard_trans; [|eapply heard_trans]|]. rewrite E3. f_equal. by rewrite <- !app_assoc.
Qed.

(** Saving to the volume and to memory. *)
Lemma save_both_run nm t e s : vol_fine (vol s) ->
  exists ok v' s', fat_write_file nm t (vol s) = (Ok ok, v') /\ save_both nm nm t e s = (Ok tt, s') /\
    vol s' = v' /\ serial_in s' = serial_in s /\ vol_kept nm (vol s) v' /\ (ok = true -> vol_reads v' nm = Some t) /\
    fs (the_world s') = (match alloc_write_buf t (fs (the_world s)) with (Some d, st) => register_file nm d st | (None, st) => st end).
Proof.
  intros Hv. unfold save_both, bind at 1, on_vol. destruct (write_file_mounted nm t (vol s) Hv) as (ok & v1 & -> & Hv1 & Hk & Hok).
  unfold bind at 1, keep_in_memory, bind at 1, on_files, bind at 1, gets, bind at 1.
  change (fs (the_world (set_vol v1 s))) with (fs (the_world s)).
  destruct (alloc_write_buf t (fs (the_world s))) as [[d|] st] eqn:Ea; destruct ok;
    (eexists _, v1, _; split; [reflexivity|]; split; [reflexivity|]; by split_and!).
Qed.

(** A file kept in memory under a name the table did not have. *)
Lemma saved_file_found nm t st :
  fs_wf st -> find_file nm st = None -> spellable nm -> (length nm <= 64)%nat -> (length t <= EDIT_CAP)%nat ->
  (FILE_COUNT st < MAX_FILES)%nat -> (WRITE_POOL_NEXT st < WRITE_SLOTS)%nat ->
  let st' := match alloc_write_buf t st with (Some d, st') => register_file nm d st' | (None, st') => st' end in
  exists d, find_file nm st' = Some d /\ deref st' d = t.
Proof.
  intros Hwf Hnone Hsp Hnl Hcap Hcnt Hpool.
  destruct (alloc_write_buf_ok st t Hwf ltac:(unfold WRITE_SLOT_CAP; unfold EDIT_CAP in Hcap; lia) Hpool)
    as (d & st1 & -> & Hd & Hder & _ & Ht & Hc & _ & Hwf').
  exists d. rewrite find_file_register; [|done|by rewrite Hc|done|apply Hsp].
  assert (find_file nm st1 = None) as ->.
  { rewrite <- Hnone. unfold find_file, entry_named. by rewrite Ht, Hc. }
  unfold bytes_eqb. rewrite bool_decide_eq_true_2 by done. split; [done|]. by rewrite deref_register.
Qed.

Lemma sprintln_heard bs s : exists s', sprintln bs s = (Ok tt, s') /\ heard (serial_in s) s s'.
Proof. apply sprint_heard. Qed.

Lemma length_with_ends e ls : (length ls <= length (with_ends e ls))%nat.
Proof. induction ls as [|l ls IH]; cbn; [lia|]. rewrite !length_app. unfold with_ends in IH. cbn. lia. Qed.

Lemma print_text_heard t s : exists s', print_text t s = (Ok tt, s') /\ heard (serial_in s) s s'.
Proof.
  unfold print_text, bind, sprint, sprintln, on_world, modify, ret. destruct (ends_with t [NL]); eexists; (split; [reflexivity|by split]).
Qed.

(** What [edit] prints before the first line changes nothing else. *)
Lemma edit_opens nm s :
  vol_fine (vol s) -> (length (default [] (vol_reads (vol s) nm)) <= EDIT_CAP)%nat ->
  exists s1, vol_fine (vol s1) /\ vol_same (vol s) (vol s1) /\ serial_in s1 = serial_in s /\ fs (the_world s1) = fs (the_world s) /\
    cmd_edit [nm] s = edit_from nm (default [] (vol_reads (vol s) nm)) s1.
Proof.
  intros Hv Hl. destruct (read_file_same (vol s) nm Hv) as (v1 & Er & Hv1 & Hs1).
  unfold cmd_edit, bind at 1, on_vol. rewrite Er. set (s0 := set_vol v1 s).
  assert (forall s1, heard (serial_in s0) s0 s1 -> vol_fine (vol s1) /\ vol_same (vol s) (vol s1) /\ serial_in s1 = serial_in s /\
    fs (the_world s1) = fs (the_world s)) as Hh.
  { intros s1 [A1 A2 A3 _]. rewrite A2. by split_and!. }
  destruct (vol_reads (vol s) nm) as [c|]; cbn [default] in *.
  - rewrite (proj2 (Nat.ltb_ge _ _)) by done. unfold bind at 1.
    match goal with |- context [sprintln ?x s0] => destruct (sprintln_heard x s0) as (s1 & -> & G1) end. unfold bind at 1.
    destruct (from_utf8 c) as [x|];
      [destruct (print_text_heard x s1) as (s2 & -> & G2)|destruct (sprintln_heard (str "[binary content not shown]") s1) as (s2 & -> & G2)];
      unfold bind at 1; destruct (sprintln_heard (str "---") s2) as (s3 & -> & G3); exists s3;
      rewrite (hd_serial _ _ _ G1) in G2; rewrite (hd_serial _ _ _ G2) in G3;
      (destruct (Hh s3) as (? & ? & ? & ?); [by eapply heard_trans; [|eapply heard_trans]|by split_and!]).
  - unfold bind at 1. match goal with |- context [sprintln ?x s0] => destruct (sprintln_heard x s0) as (s1 & -> & G1) end. exists s1.
    destruct (Hh s1 G1) as (? & ? & ? & ?). by split_and!.
Qed.

(** [edit] reads the lines up to [:w] and saves them behind what the file
    held. *)
Lemma cmd_edit_run ls nm s rest :
  let old := default [] (vol_reads (vol s) nm) in
  vol_fine (vol s) -> Forall text_line ls -> (length old + length (with_ends NL ls) <= EDIT_CAP)%nat ->
  serial_in s = with_ends 13 ls ++ str ":w" ++ [13] ++ rest ->
  exists s1, vol_fine (vol s1) /\ vol_same (vol s) (vol s1) /\ serial_in s1 = rest /\ fs (the_world s1) = fs (the_world s) /\
    cmd_edit [nm] s = save_both nm nm (old ++ with_ends NL ls) (str "edit: save failed") s1.
Proof.
  intros old Hv Hls Hcap Hs. destruct (edit_opens nm s Hv) as (s1 & Hv1 & Hs1 & Hi1 & Hf1 & ->); [fold old; lia|]. fold old.
  unfold edit_from, bind at 1. destruct (sprintln_heard edit_prompt s1) as (s2 & -> & G2). unfold bind at 1, gets.
  pose proof (hd_serial _ _ _ G2) as E2.
  destruct (edit_loop_typed ls (S (input_left s2)) nm old (replicate 256 0) s2 rest Hls) as (s3 & G3 & E3).
  - apply length_replicate.
  - done.
  - rewrite E2, Hi1. exact Hs.
  - unfold input_left. rewrite E2, Hi1, Hs, length_app. pose proof (length_with_ends 13 ls). lia.
  - exists s3. pose proof (heard_trans _ _ _ _ _ G2 G3) as [A1 A2 A3 _]. rewrite A2. split_and!; try done. congruence.
Qed.
End files.
