(* ===== verification/Vga.v ===== *)
(** * The framebuffer console ([kernel/src/vga.rs])

    The pixel writer, the 8x8 font, the cursor and the ANSI escape parser. The
    framebuffer is a slice of bytes; an access through the raw pointer outside
    of it is [Err tt], an arithmetic overflow or an index out of range [Panic]. *)

From S2P Require Import Prelude Text ShellText.

Definition CHAR_W : Z := 8.
Definition CHAR_H : Z := 8.

(** ** Colours *)

Definition Color : Type := Z * Z * Z.

Definition BLACK : Color := (0, 0, 0).
Definition RED : Color := (170, 0, 0).
Definition GREEN : Color := (0, 170, 0).
Definition YELLOW : Color := (170, 170, 0).
Definition BLUE : Color := (0, 0, 170).
Definition MAGENTA : Color := (170, 0, 170).
Definition CYAN : Color := (0, 170, 170).
Definition WHITE : Color := (170, 170, 170).
Definition BRIGHT_BLACK : Color := (85, 85, 85).
Definition BRIGHT_RED : Color := (255, 85, 85).
Definition BRIGHT_GREEN : Color := (85, 255, 85).
Definition BRIGHT_YELLOW : Color := (255, 255, 85).
Definition BRIGHT_BLUE : Color := (85, 85, 255).
Definition BRIGHT_MAGENTA : Color := (255, 85, 255).
Definition BRIGHT_CYAN : Color := (85, 255, 255).
Definition BRIGHT_WHITE : Color := (255, 255, 255).

(** ** Named escape sequences *)
Module Ansi.

Definition RESET : list Z := 27 :: str "[0m".
Definition FG_BLACK : list Z := 27 :: str "[30m".
Definition FG_RED : list Z := 27 :: str "[31m".
Definition FG_GREEN : list Z := 27 :: str "[32m".
Definition FG_YELLOW : list Z := 27 :: str "[33m".
Definition FG_BLUE : list Z := 27 :: str "[34m".
Definition FG_MAGENTA : list Z := 27 :: str "[35m".
Definition FG_CYAN : list Z := 27 :: str "[36m".
Definition FG_WHITE : list Z := 27 :: str "[37m".
Definition FG_BRIGHT_BLACK : list Z := 27 :: str "[90m".
Definition FG_BRIGHT_RED : list Z := 27 :: str "[91m".
Definition FG_BRIGHT_GREEN : list Z := 27 :: str "[92m".
Definition FG_BRIGHT_YELLOW : list Z := 27 :: str "[93m".
Definition FG_BRIGHT_BLUE : list Z := 27 :: str "[94m".
Definition FG_BRIGHT_MAGENTA : list Z := 27 :: str "[95m".
Definition FG_BRIGHT_CYAN : list Z := 27 :: str "[96m".
Definition FG_BRIGHT_WHITE : list Z := 27 :: str "[97m".
Definition BG_BLACK : list Z := 27 :: str "[40m".
Definition BG_RED : list Z := 27 :: str "[41m".
Definition BG_GREEN : list Z := 27 :: str "[42m".
Definition BG_YELLOW : list Z := 27 :: str "[43m".
Definition BG_BLUE : list Z := 27 :: str "[44m".
Definition BG_MAGENTA : list Z := 27 :: str "[45m".
Definition BG_CYAN : list Z := 27 :: str "[46m".
Definition BG_WHITE : list Z := 27 :: str "[47m".
Definition BG_BRIGHT_BLACK : list Z := 27 :: str "[100m".
Definition BG_BRIGHT_RED : list Z := 27 :: str "[101m".
Definition BG_BRIGHT_GREEN : list Z := 27 :: str "[102m".
Definition BG_BRIGHT_YELLOW : list Z := 27 :: str "[103m".
Definition BG_BRIGHT_BLUE : list Z := 27 :: str "[104m".
Definition BG_BRIGHT_MAGENTA : list Z := 27 :: str "[105m".
Definition BG_BRIGHT_CYAN : list Z := 27 :: str "[106m".
Definition BG_BRIGHT_WHITE : list Z := 27 :: str "[107m".
Definition CURSOR_UP : list Z := 27 :: str "[A".
Definition CURSOR_DOWN : list Z := 27 :: str "[B".
Definition CURSOR_RIGHT : list Z := 27 :: str "[C".
Definition CURSOR_LEFT : list Z := 27 :: str "[D".
Definition CURSOR_NEXT_LINE : list Z := 27 :: str "[E".
Definition CURSOR_PREV_LINE : list Z := 27 :: str "[F".
Definition CURSOR_POSITION : list Z := 27 :: str "[H".
Definition CURSOR_SAVE : list Z := 27 :: str "[s".
Definition CURSOR_RESTORE : list Z := 27 :: str "[u".
Definition CLEAR_SCREEN : list Z := 27 :: str "[2J".
Definition CLEAR_SCREEN_END : list Z := 27 :: str "[0J".
Definition CLEAR_SCREEN_START : list Z := 27 :: str "[1J".
Definition CLEAR_LINE : list Z := 27 :: str "[2K".
Definition CLEAR_LINE_END : list Z := 27 :: str "[0K".
Definition CLEAR_LINE_START : list Z := 27 :: str "[1K".
End Ansi.

(** ** Font *)

Definition FONT : list (list Z) :=
  [ [0x00; 0x00; 0x00; 0x00; 0x00; 0x00; 0x00; 0x00];
    [0x18; 0x18; 0x18; 0x18; 0x18; 0x00; 0x18; 0x00];
    [0x66; 0x66; 0x66; 0x00; 0x00; 0x00; 0x00; 0x00];
    [0x66; 0x66; 0xFF; 0x66; 0xFF; 0x66; 0x66; 0x00];
    [0x18; 0x7E; 0xC0; 0x7C; 0x06; 0x7E; 0x18; 0x00];
    [0x62; 0x66; 0x0C; 0x18; 0x30; 0x66; 0x46; 0x00];
    [0x3C; 0x66; 0x3C; 0x38; 0x67; 0x66; 0x3F; 0x00];
    [0x06; 0x0C; 0x18; 0x00; 0x00; 0x00; 0x00; 0x00];
    [0x0C; 0x18; 0x30; 0x30; 0x30; 0x18; 0x0C; 0x00];
    [0x30; 0x18; 0x0C; 0x0C; 0x0C; 0x18; 0x30; 0x00];
    [0x00; 0x66; 0x3C; 0xFF; 0x3C; 0x66; 0x00; 0x00];
    [0x00; 0x18; 0x18; 0x7E; 0x18; 0x18; 0x00; 0x00];
    [0x00; 0x00; 0x00; 0x00; 0x00; 0x18; 0x18; 0x30];
    [0x00; 0x00; 0x00; 0x7E; 0x00; 0x00; 0x00; 0x00];
    [0x00; 0x00; 0x00; 0x00; 0x00; 0x18; 0x18; 0x00];
    [0x06; 0x0C; 0x18; 0x30; 0x60; 0xC0; 0x80; 0x00];
    [0x3C; 0x66; 0x6E; 0x76; 0x66; 0x66; 0x3C; 0x00];
    [0x18; 0x38; 0x18; 0x18; 0x18; 0x18; 0x7E; 0x00];
    [0x3C; 0x66; 0x06; 0x0C; 0x30; 0x60; 0x7E; 0x00];
    [0x3C; 0x66; 0x06; 0x1C; 0x06; 0x66; 0x3C; 0x00];
    [0x0C; 0x1C; 0x3C; 0x6C; 0x7E; 0x0C; 0x0C; 0x00];
    [0x7E; 0x60; 0x7C; 0x06; 0x06; 0x66; 0x3C; 0x00];
    [0x3C; 0x66; 0x60; 0x7C; 0x66; 0x66; 0x3C; 0x00];
    [0x7E; 0x66; 0x0C; 0x18; 0x18; 0x18; 0x18; 0x00];
    [0x3C; 0x66; 0x66; 0x3C; 0x66; 0x66; 0x3C; 0x00];
    [0x3C; 0x66; 0x66; 0x3E; 0x06; 0x66; 0x3C; 0x00];
    [0x00; 0x00; 0x18; 0x00; 0x00; 0x18; 0x00; 0x00];
    [0x00; 0x00; 0x18; 0x00; 0x00; 0x18; 0x18; 0x30];
    [0x0C; 0x18; 0x30; 0x60; 0x30; 0x18; 0x0C; 0x00];
    [0x00; 0x00; 0x7E; 0x00; 0x7E; 0x00; 0x00; 0x00];
    [0x60; 0x30; 0x18; 0x0C; 0x18; 0x30; 0x60; 0x00];
    [0x3C; 0x66; 0x06; 0x0C; 0x18; 0x00; 0x18; 0x00];
    [0x3E; 0x63; 0x6F; 0x6B; 0x6F; 0x60; 0x3E; 0x00];
    [0x18; 0x3C; 0x66; 0x66; 0x7E; 0x66; 0x66; 0x00];
    [0x7C; 0x66; 0x66; 0x7C; 0x66; 0x66; 0x7C; 0x00];
    [0x3C; 0x66; 0x60; 0x60; 0x60; 0x66; 0x3C; 0x00];
    [0x78; 0x6C; 0x66; 0x66; 0x66; 0x6C; 0x78; 0x00];
    [0x7E; 0x60; 0x60; 0x78; 0x60; 0x60; 0x7E; 0x00];
    [0x7E; 0x60; 0x60; 0x78; 0x60; 0x60; 0x60; 0x00];
    [0x3C; 0x66; 0x60; 0x6E; 0x66; 0x66; 0x3C; 0x00];
    [0x66; 0x66; 0x66; 0x7E; 0x66; 0x66; 0x66; 0x00];
    [0x3C; 0x18; 0x18; 0x18; 0x18; 0x18; 0x3C; 0x00];
    [0x1E; 0x0C; 0x0C; 0x0C; 0x0C; 0x6C; 0x38; 0x00];
    [0x66; 0x6C; 0x78; 0x70; 0x78; 0x6C; 0x66; 0x00];
    [0x60; 0x60; 0x60; 0x60; 0x60; 0x60; 0x7E; 0x00];
    [0x63; 0x77; 0x7F; 0x6B; 0x63; 0x63; 0x63; 0x00];
    [0x66; 0x76; 0x7E; 0x7E; 0x6E; 0x66; 0x66; 0x00];
    [0x3C; 0x66; 0x66; 0x66; 0x66; 0x66; 0x3C; 0x00];
    [0x7C; 0x66; 0x66; 0x7C; 0x60; 0x60; 0x60; 0x00];
    [0x3C; 0x66; 0x66; 0x66; 0x66; 0x6C; 0x36; 0x00];
    [0x7C; 0x66; 0x66; 0x7C; 0x6C; 0x66; 0x66; 0x00];
    [0x3C; 0x66; 0x60; 0x3C; 0x06; 0x66; 0x3C; 0x00];
    [0x7E; 0x18; 0x18; 0x18; 0x18; 0x18; 0x18; 0x00];
    [0x66; 0x66; 0x66; 0x66; 0x66; 0x66; 0x3C; 0x00];
    [0x66; 0x66; 0x66; 0x66; 0x66; 0x3C; 0x18; 0x00];
    [0x63; 0x63; 0x63; 0x6B; 0x7F; 0x77; 0x63; 0x00];
    [0x66; 0x66; 0x3C; 0x18; 0x3C; 0x66; 0x66; 0x00];
    [0x66; 0x66; 0x66; 0x3C; 0x18; 0x18; 0x18; 0x00];
    [0x7E; 0x06; 0x0C; 0x18; 0x30; 0x60; 0x7E; 0x00];
    [0x3C; 0x30; 0x30; 0x30; 0x30; 0x30; 0x3C; 0x00];
    [0xC0; 0x60; 0x30; 0x18; 0x0C; 0x06; 0x02; 0x00];
    [0x3C; 0x0C; 0x0C; 0x0C; 0x0C; 0x0C; 0x3C; 0x00];
    [0x18; 0x3C; 0x66; 0x00; 0x00; 0x00; 0x00; 0x00];
    [0x00; 0x00; 0x00; 0x00; 0x00; 0x00; 0x00; 0xFF];
    [0x30; 0x18; 0x0C; 0x00; 0x00; 0x00; 0x00; 0x00];
    [0x00; 0x00; 0x3C; 0x06; 0x3E; 0x66; 0x3E; 0x00];
    [0x60; 0x60; 0x7C; 0x66; 0x66; 0x66; 0x7C; 0x00];
    [0x00; 0x00; 0x3C; 0x60; 0x60; 0x60; 0x3C; 0x00];
    [0x06; 0x06; 0x3E; 0x66; 0x66; 0x66; 0x3E; 0x00];
    [0x00; 0x00; 0x3C; 0x66; 0x7E; 0x60; 0x3C; 0x00];
    [0x1C; 0x30; 0x30; 0x7C; 0x30; 0x30; 0x30; 0x00];
    [0x00; 0x00; 0x3E; 0x66; 0x66; 0x3E; 0x06; 0x3C];
    [0x60; 0x60; 0x7C; 0x66; 0x66; 0x66; 0x66; 0x00];
    [0x18; 0x00; 0x38; 0x18; 0x18; 0x18; 0x3C; 0x00];
    [0x06; 0x00; 0x06; 0x06; 0x06; 0x06; 0x66; 0x3C];
    [0x60; 0x60; 0x66; 0x6C; 0x78; 0x6C; 0x66; 0x00];
    [0x38; 0x18; 0x18; 0x18; 0x18; 0x18; 0x3C; 0x00];
    [0x00; 0x00; 0x66; 0x7F; 0x7F; 0x6B; 0x63; 0x00];
    [0x00; 0x00; 0x7C; 0x66; 0x66; 0x66; 0x66; 0x00];
    [0x00; 0x00; 0x3C; 0x66; 0x66; 0x66; 0x3C; 0x00];
    [0x00; 0x00; 0x7C; 0x66; 0x66; 0x7C; 0x60; 0x60];
    [0x00; 0x00; 0x3E; 0x66; 0x66; 0x3E; 0x06; 0x06];
    [0x00; 0x00; 0x7C; 0x66; 0x60; 0x60; 0x60; 0x00];
    [0x00; 0x00; 0x3C; 0x60; 0x3C; 0x06; 0x3C; 0x00];
    [0x30; 0x30; 0x7C; 0x30; 0x30; 0x30; 0x1C; 0x00];
    [0x00; 0x00; 0x66; 0x66; 0x66; 0x66; 0x3E; 0x00];
    [0x00; 0x00; 0x66; 0x66; 0x66; 0x3C; 0x18; 0x00];
    [0x00; 0x00; 0x63; 0x6B; 0x7F; 0x7F; 0x36; 0x00];
    [0x00; 0x00; 0x66; 0x3C; 0x18; 0x3C; 0x66; 0x00];
    [0x00; 0x00; 0x66; 0x66; 0x66; 0x3E; 0x06; 0x3C];
    [0x00; 0x00; 0x7E; 0x0C; 0x18; 0x30; 0x7E; 0x00];
    [0x0C; 0x18; 0x18; 0x70; 0x18; 0x18; 0x0C; 0x00];
    [0x18; 0x18; 0x18; 0x18; 0x18; 0x18; 0x18; 0x00];
    [0x30; 0x18; 0x18; 0x0E; 0x18; 0x18; 0x30; 0x00];
    [0x31; 0x6B; 0x46; 0x00; 0x00; 0x00; 0x00; 0x00] ].

(** ** The writer *)

Record FrameBufferInfo := mkFbInfo { width : Z; height : Z; stride : Z; bytes_per_pixel : Z; is_bgr : bool }.

Record VgaBuffer := mkVga {
  fb : slice;
  info : FrameBufferInfo;
  col : Z;
  row : Z;
  saved_col : Z;
  saved_row : Z;
  fg : Color;
  bg : Color
}.

Definition new_vga (b : slice) (i : FrameBufferInfo) : VgaBuffer := mkVga b i 0 0 0 0 BRIGHT_WHITE BLACK.

Definition set_fb b v := mkVga b (info v) (col v) (row v) (saved_col v) (saved_row v) (fg v) (bg v).
Definition move_to r c v := mkVga (fb v) (info v) c r (saved_col v) (saved_row v) (fg v) (bg v).
Definition save_cursor v := mkVga (fb v) (info v) (col v) (row v) (col v) (row v) (fg v) (bg v).
Definition set_fg c v := mkVga (fb v) (info v) (col v) (row v) (saved_col v) (saved_row v) c (bg v).
Definition set_bg c v := mkVga (fb v) (info v) (col v) (row v) (saved_col v) (saved_row v) (fg v) c.

Notation VR := (result unit VgaBuffer).

Definition cols (v : VgaBuffer) : Z := width (info v) / CHAR_W.
Definition rows (v : VgaBuffer) : Z := height (info v) / CHAR_H.

(** [usize] arithmetic that panics when it overflows. *)
Definition usize {E} (x : Z) : result E Z := if (0 <=? x) && (x <=? USIZE_MAX) then Ok x else Panic.

(** A raw access: a panic of the slice operation is an access out of bounds. *)
Definition raw (r : result unit slice) (v : VgaBuffer) : VR :=
  match r with Ok b => Ok (set_fb b v) | _ => Err tt end.

(** [ptr::write_bytes(buf.add(off), 0, n)] and [ptr::copy(buf.add(src), buf.add(dst), n)] *)
Definition raw_zero (off n : Z) (v : VgaBuffer) : VR :=
  let? off := usize off in let? n := usize n in raw (sfill (fb v) off (off + n) 0) v.
Definition raw_copy (src dst n : Z) (v : VgaBuffer) : VR :=
  let? src := usize src in let? dst := usize dst in let? n := usize n in raw (scopy_within (fb v) src n dst) v.

Definition row_bytes (v : VgaBuffer) : result unit Z := usize (CHAR_H * stride (info v) * bytes_per_pixel (info v)).

Definition scroll_up (v : VgaBuffer) : VR :=
  let? rb := row_bytes v in
  if rows v =? 0 then Ok v else
  let? v := raw_copy rb 0 ((rows v - 1) * rb) v in
  raw_zero ((rows v - 1) * rb) rb v.

Definition put_pixel (x y : Z) (c : Color) (v : VgaBuffer) : VR :=
  let '(r, g, b) := c in
  let bpp := bytes_per_pixel (info v) in
  let? off := usize ((y * stride (info v) + x) * bpp) in
  let? e := usize (off + bpp) in
  if slen (fb v) <? e then Ok v else
  raw (swrite_bytes (fb v) off (if is_bgr (info v) then [b; g; r] else [r; g; b])) v.

(** [for i in a..a+n { v = f(i, v) }] *)
Fixpoint for_range (n : nat) (a : Z) (f : Z -> VgaBuffer -> VR) (v : VgaBuffer) : VR :=
  match n with
  | O => Ok v
  | S n' => let? v := f a v in for_range n' (a + 1) f v
  end.

(** The nested loops over a block of pixels. *)
Definition paint (x0 x1 y0 h : Z) (c : Z -> Z -> Color) (v : VgaBuffer) : VR :=
  for_range (Z.to_nat h) 0 (fun j v => for_range (Z.to_nat (x1 - x0)) x0 (fun x v => put_pixel x (y0 + j) (c x j) v) v) v.

Definition clear_to_end_of_line (v : VgaBuffer) : VR :=
  paint (col v * CHAR_W) (cols v * CHAR_W) (row v * CHAR_H) CHAR_H (fun _ _ => bg v) v.

Definition clear_to_start_of_line (v : VgaBuffer) : VR :=
  paint 0 ((col v + 1) * CHAR_W) (row v * CHAR_H) CHAR_H (fun _ _ => bg v) v.

Definition clear_line (v : VgaBuffer) : VR :=
  let? v := paint 0 (cols v * CHAR_W) (row v * CHAR_H) CHAR_H (fun _ _ => bg v) v in
  Ok (move_to (row v) 0 v).

Definition clear_screen (v : VgaBuffer) : VR :=
  let? v := raw_zero 0 (slen (fb v)) v in Ok (move_to 0 0 v).

Definition clear_to_end_of_screen (v : VgaBuffer) : VR :=
  let? v := clear_to_end_of_line v in
  let next_row := row v + 1 in
  if next_row <? rows v then
    let? rb := row_bytes v in raw_zero (next_row * rb) ((rows v - next_row) * rb) v
  else Ok v.

Definition clear_to_start_of_screen (v : VgaBuffer) : VR :=
  let? rb := row_bytes v in
  let? v := if 0 <? row v then raw_zero 0 (row v * rb) v else Ok v in
  clear_to_start_of_line v.

Definition insert_lines (n : Z) (v : VgaBuffer) : VR :=
  let? below := usize (rows v - row v) in
  let n := Z.min n below in
  let moved := below - n in
  let? rb := row_bytes v in
  let? v := if 0 <? moved then raw_copy (row v * rb) ((row v + n) * rb) (moved * rb) v else Ok v in
  raw_zero (row v * rb) (n * rb) v.

Definition delete_lines (n : Z) (v : VgaBuffer) : VR :=
  let? below := usize (rows v - row v) in
  let n := Z.min n below in
  let moved := below - n in
  let? rb := row_bytes v in
  let? v := if 0 <? moved then raw_copy ((row v + n) * rb) (row v * rb) (moved * rb) v else Ok v in
  raw_zero ((rows v - n) * rb) (n * rb) v.

(** The colour a code of 30-37, 40-47, 90-97 or 100-107 selects. *)
Definition normal_palette : list Color := [BLACK; RED; GREEN; YELLOW; BLUE; MAGENTA; CYAN; WHITE].
Definition bright_palette : list Color :=
  [BRIGHT_BLACK; BRIGHT_RED; BRIGHT_GREEN; BRIGHT_YELLOW; BRIGHT_BLUE; BRIGHT_MAGENTA; BRIGHT_CYAN; BRIGHT_WHITE].
Definition palette (p : list Color) (code first : Z) : option Color :=
  if code <? first then None else p !! Z.to_nat (code - first).

Definition set_color (code : Z) (v : VgaBuffer) : VgaBuffer :=
  if code =? 0 then set_bg BLACK (set_fg BRIGHT_WHITE v) else
  match palette normal_palette code 30 with Some c => set_fg c v | None =>
  match palette normal_palette code 40 with Some c => set_bg c v | None =>
  match palette bright_palette code 90 with Some c => set_fg c v | None =>
  match palette bright_palette code 100 with Some c => set_bg c v | None => v end end end end.

(** The last part of [write_char]: scroll past the last row. *)
Definition keep_on_screen (v : VgaBuffer) : VR :=
  if rows v <=? row v then
    let? v := scroll_up v in
    let? r := usize (rows v - 1) in Ok (move_to r (col v) v)
  else Ok v.

Definition glyph (code : Z) : list Z :=
  default [] (FONT !! if (32 <=? code) && (code <=? 126) then Z.to_nat (code - 32) else O).

(** Whether the font has the pixel set: bit 7 is the leftmost. *)
Definition glyph_bit (code x y : Z) : bool := Z.testbit (nth (Z.to_nat y) (glyph code) 0) (7 - x).

Definition draw_char (c : Z) (v : VgaBuffer) : VR :=
  let px := col v * CHAR_W in
  let? v := paint px (px + CHAR_W) (row v * CHAR_H) CHAR_H (fun x y => if glyph_bit c (x - px) y then fg v else bg v) v in
  Ok (if cols v <=? col v + 1 then move_to (row v + 1) 0 v else move_to (row v) (col v + 1) v).

Definition backspace (v : VgaBuffer) : VR :=
  let? v := if 0 <? col v then Ok (move_to (row v) (col v - 1) v)
            else if 0 <? row v then let? c := usize (cols v - 1) in Ok (move_to (row v - 1) c v) else Ok v in
  let px := col v * CHAR_W in
  paint px (px + CHAR_W) (row v * CHAR_H) CHAR_H (fun _ _ => BLACK) v.

Definition write_char (c : Z) (v : VgaBuffer) : VR :=
  let? v := if c =? 10 then Ok (move_to (row v + 1) 0 v) else
            if c =? 13 then Ok (move_to (row v) 0 v) else
            if c =? 8 then backspace v else draw_char c v in
  keep_on_screen v.

(** ** Escape sequences *)

Definition is_param (c : Z) : bool := is_digit_byte c || (c =? 59).

(** The parameter characters, the command, and what follows; [None] when the
    text ends first. *)
Fixpoint read_csi (s : list Z) (params : list Z) : option (list Z * Z * list Z) :=
  match s with
  | [] => None
  | c :: s' => if is_param c then read_csi s' (params ++ [c]) else Some (params, c, s')
  end.

(** [s.split(';')] *)
Fixpoint split_semi (s : list Z) (cur : list Z) : list (list Z) :=
  match s with
  | [] => [cur]
  | c :: s' => if c =? 59 then cur :: split_semi s' [] else split_semi s' (cur ++ [c])
  end.

(** [part.parse::<T>().unwrap_or(0)] for a type whose largest value is [max]. *)
Definition parse_or_0 (max : Z) (part : list Z) : Z :=
  match part with [] => 0 | _ => default 0 (parse_digits max part 0) end.

Definition set_cursor_position (r c : Z) (v : VgaBuffer) : VR :=
  let? mr := usize (rows v - 1) in
  let? mc := usize (cols v - 1) in
  Ok (move_to (Z.min r mr) (Z.min c mc) v).

(** [a.saturating_sub(b)] *)
Definition sat_sub (a b : Z) : Z := Z.max 0 (a - b).

Definition erase_screen (n : Z) (v : VgaBuffer) : VR :=
  if n =? 0 then clear_to_end_of_screen v else
  if n =? 1 then clear_to_start_of_screen v else
  if n =? 2 then clear_screen v else Ok v.

Definition erase_line (n : Z) (v : VgaBuffer) : VR :=
  if n =? 0 then clear_to_end_of_line v else
  if n =? 1 then clear_to_start_of_line v else
  if n =? 2 then clear_line v else Ok v.

(** The command [cmd] with its parameters. *)
Definition run_csi (params : list Z) (cmd : Z) (v : VgaBuffer) : VR :=
  let parts := split_semi params [] in
  let p0 := parse_or_0 USIZE_MAX (nth 0 parts []) in
  let p1 := parse_or_0 USIZE_MAX (nth 1 parts []) in
  let n := Z.max p0 1 in
  let down := let? r := usize (row v + n) in Ok (Z.min r (sat_sub (rows v) 1)) in
  if cmd =? 109 then
    Ok (match params with
        | [] => set_color 0 v
        | _ => fold_left (fun v part => set_color (parse_or_0 255 part) v) parts v
        end) else
  if cmd =? 74 then erase_screen p0 v else
  if cmd =? 75 then erase_line p0 v else
  if (cmd =? 72) || (cmd =? 102) then set_cursor_position (sat_sub p0 1) (sat_sub p1 1) v else
  if cmd =? 65 then Ok (move_to (sat_sub (row v) n) (col v) v) else
  if cmd =? 70 then Ok (move_to (sat_sub (row v) n) 0 v) else
  if cmd =? 66 then let? r := down in Ok (move_to r (col v) v) else
  if cmd =? 69 then let? r := down in Ok (move_to r 0 v) else
  if cmd =? 67 then let? c := usize (col v + n) in Ok (move_to (row v) (Z.min c (sat_sub (cols v) 1)) v) else
  if cmd =? 68 then Ok (move_to (row v) (sat_sub (col v) n) v) else
  if cmd =? 71 then Ok (move_to (row v) (Z.min (sat_sub p0 1) (sat_sub (cols v) 1)) v) else
  if cmd =? 100 then Ok (move_to (Z.min (sat_sub p0 1) (sat_sub (rows v) 1)) (col v) v) else
  if cmd =? 115 then Ok (save_cursor v) else
  if cmd =? 117 then Ok (move_to (saved_row v) (saved_col v) v) else
  if cmd =? 76 then insert_lines n v else
  if cmd =? 77 then delete_lines n v else Ok v.

(** The characters of [s]; each round consumes at least one. *)
Fixpoint parse_ansi (fuel : nat) (s : list Z) (v : VgaBuffer) : VR :=
  match s, fuel with
  | [], _ => Ok v
  | _, O => OutOfFuel
  | c :: s', S fuel' =>
    if negb (c =? 27) then let? v := write_char c v in parse_ansi fuel' s' v else
    match s' with
    | 91 :: s'' =>
      match read_csi s'' [] with
      | None => Ok v
      | Some (params, cmd, rest) => let? v := run_csi params cmd v in parse_ansi fuel' rest v
      end
    | _ :: s'' => parse_ansi fuel' s'' v
    | [] => Ok v
    end
  end.

(** [s.chars()] of a UTF-8 string. *)
Fixpoint chars (fuel : nat) (s : list Z) : list Z :=
  match s, fuel with
  | b :: r, S fuel' =>
    match char_width b, r with
    | 2%nat, b1 :: r => (b - 192) * 64 + (b1 - 128) :: chars fuel' r
    | 3%nat, b1 :: b2 :: r => (b - 224) * 4096 + (b1 - 128) * 64 + (b2 - 128) :: chars fuel' r
    | 4%nat, b1 :: b2 :: b3 :: r => (b - 240) * 262144 + (b1 - 128) * 4096 + (b2 - 128) * 64 + (b3 - 128) :: chars fuel' r
    | _, _ => b :: chars fuel' r
    end
  | _, _ => []
  end.

(** ** The global writer *)

Definition WRITER := option VgaBuffer.

Definition vga_init (b : slice) (i : FrameBufferInfo) : result unit WRITER :=
  let? v := clear_screen (new_vga b i) in Ok (Some v).

Definition with_writer (f : VgaBuffer -> VR) (w : WRITER) : result unit WRITER :=
  match w with Some v => let? v := f v in Ok (Some v) | None => Ok None end.

Definition clear_console (w : WRITER) : result unit WRITER := with_writer clear_screen w.

Definition vga_print (bs : list Z) (w : WRITER) : result unit WRITER :=
  let s := chars (length bs) bs in with_writer (parse_ansi (length s) s) w.

(** [0x00RRGGBB] *)
Definition unpack_rgb (rgb : Z) : Color := (Z.land (Z.shiftr rgb 16) 255, Z.land (Z.shiftr rgb 8) 255, Z.land rgb 255).

Definition set_pixel (x y rgb : Z) (w : WRITER) : result unit WRITER :=
  if (x <? 0) || (y <? 0) then Ok w else with_writer (put_pixel x y (unpack_rgb rgb)) w.

Definition blit_rgb32 (buf : list Z) (w h : Z) : WRITER -> result unit WRITER :=
  with_writer (for_range (Z.to_nat h) 0 (fun y v => for_range (Z.to_nat w) 0 (fun x v =>
    let? rgb := or_panic (buf !! Z.to_nat (y * w + x)) in put_pixel x y (unpack_rgb rgb) v) v)).

(** ** Printing *)

(** [serial::write_str]: what goes over the line. *)
Definition serial_write_str (s : list Z) : list Z := flat_map (fun b => if b =? 10 then [13; b] else [b]) s.

(** [print!]: to the framebuffer, then to the serial line. *)
Definition print_both (bs : list Z) (out : list Z) (w : WRITER) : result unit (list Z * WRITER) :=
  let? w := vga_print bs w in Ok (out ++ serial_write_str bs, w).
