(* ===== verification/VgaSpec.v ===== *)
(** * The console is a grid of characters

    Printing any text, escapes included, draws exactly what a grid of cells
    with a cursor shows, and never touches a byte outside the framebuffer. *)

From S2P Require Import Prelude Text ShellText Vga.

(** ** Pixels *)

(** A framebuffer large enough for its own description. *)
Record fits (v : VgaBuffer) : Prop := {
  ft_cols : 0 < cols v;
  ft_rows : 0 < rows v;
  ft_stride : cols v * 8 <= stride (info v);
  ft_bpp : 3 <= bytes_per_pixel (info v);
  ft_len : rows v * 8 * stride (info v) * bytes_per_pixel (info v) <= slen (fb v);
  ft_max : slen (fb v) <= 2 ^ 62
}.

Definition pixel_at (v : VgaBuffer) (x y : Z) : Color :=
  let off := (y * stride (info v) + x) * bytes_per_pixel (info v) in
  let a := sget (fb v) off in let b := sget (fb v) (off + 1) in let c := sget (fb v) (off + 2) in
  if is_bgr (info v) then (c, b, a) else (a, b, c).

(** [v'] is [v] with the visible pixels [f]. *)
Definition painted (v v' : VgaBuffer) (f : Z -> Z -> Color) : Prop :=
  exists b, v' = set_fb b v /\ slen b = slen (fb v) /\
    forall x y, 0 <= x < stride (info v) -> 0 <= y < rows v * 8 -> pixel_at v' x y = f x y.

Lemma painted_fits v v' f : fits v -> painted v v' f -> fits v'.
Proof. intros [] (b & -> & Hl & _). split; cbn; try done; by rewrite Hl. Qed.

Lemma painted_trans v v1 v2 f g : painted v v1 f -> painted v1 v2 g -> painted v v2 g.
Proof. intros (b & -> & Hl & _) (b2 & -> & Hl2 & Hp). exists b2. split; [done|]. split; [by rewrite Hl2|exact Hp]. Qed.

Lemma painted_ext v v' f g : painted v v' f -> (forall x y, 0 <= x < stride (info v) -> 0 <= y < rows v * 8 -> f x y = g x y) -> painted v v' g.
Proof. intros (b & -> & Hl & Hp) Hg. exists b. split; [done|]. split; [done|]. intros x y Hx Hy. rewrite Hp by done. by apply Hg. Qed.

Lemma painted_refl v : painted v v (pixel_at v).
Proof. exists (fb v). by destruct v. Qed.

Lemma usize_ok {E} x : 0 <= x <= 2 ^ 63 -> usize (E := E) x = Ok x.
Proof. intros Hx. unfold usize, USIZE_MAX. by rewrite !(proj2 (Z.leb_le _ _)) by lia. Qed.

Section pixels.
Context (v : VgaBuffer) (Hv : fits v).
Notation s := (stride (info v)).
Notation bpp := (bytes_per_pixel (info v)).

(** Where a visible pixel lies. *)
Lemma pixel_range x y : 0 <= x < s -> 0 <= y < rows v * 8 ->
  0 <= (y * s + x) * bpp /\ y * s * bpp <= (y * s + x) * bpp /\ (y * s + x) * bpp + bpp <= (y + 1) * s * bpp /\
  (y + 1) * s * bpp <= slen (fb v).
Proof.
  intros Hx Hy. destruct Hv as [F1 F2 F3 F4 F5 F6]. assert (0 <= s * bpp) as Hp by nia.
  assert ((y + 1) * (s * bpp) <= rows v * 8 * (s * bpp)) as Hm by (apply Z.mul_le_mono_nonneg_r; lia).
  assert (0 <= y * (s * bpp)) as Hy0 by (apply Z.mul_nonneg_nonneg; lia).
  assert (0 <= x * bpp) as Hx0 by (apply Z.mul_nonneg_nonneg; lia).
  assert ((x + 1) * bpp <= s * bpp) as Hx1 by (apply Z.mul_le_mono_nonneg_r; lia).
  split_and!; lia.
Qed.

Lemma pixel_apart x y x' y' : 0 <= x < s -> 0 <= x' < s -> ~ (x = x' /\ y = y') ->
  (y * s + x) * bpp + 3 <= (y' * s + x') * bpp \/ (y' * s + x') * bpp + 3 <= (y * s + x) * bpp.
Proof.
  intros Hx Hx' Hne. destruct Hv as [F1 F2 F3 F4 F5 F6]. assert (y * s + x <> y' * s + x') as Hi.
  { intros E. apply Hne. assert (y = y') as -> by nia. split; [lia|done]. }
  destruct (Z.lt_total (y * s + x) (y' * s + x')) as [|[|]]; [left|done|right]; nia.
Qed.

Lemma put_pixel_painted x y c :
  0 <= x < s -> 0 <= y < rows v * 8 ->
  exists v', put_pixel x y c v = Ok v' /\ painted v v' (fun x' y' => if (x' =? x) && (y' =? y) then c else pixel_at v x' y').
Proof.
  intros Hx Hy. destruct (pixel_range x y Hx Hy) as (H0 & H1 & H2 & H3). pose proof Hv as [].
  destruct c as [[r g] b]. unfold put_pixel. rewrite usize_ok by lia. cbn [rbind]. rewrite usize_ok by lia. cbn [rbind].
  rewrite (proj2 (Z.ltb_ge _ _)) by lia. set (off := (y * s + x) * bpp) in *.
  assert (forall bs, length bs = 3%nat -> exists b', swrite_bytes (E := unit) (fb v) off bs = Ok b') as Hw.
  { intros bs Hbs. apply swrite_bytes_some; rewrite ?Hbs; lia. }
  set (bs := if is_bgr (info v) then [b; g; r] else [r; g; b]).
  destruct (Hw bs ltac:(subst bs; by destruct (is_bgr (info v)))) as [b' Eb]. rewrite Eb. cbn [raw]. eexists. split; [reflexivity|].
  unfold swrite_bytes in Eb. destruct (_ && _); [|done]. injection Eb as <-. eexists. split; [reflexivity|]. split; [done|].
  assert (Z.of_nat (length bs) = 3) as -> by (subst bs; by destruct (is_bgr (info v))).
  intros x' y' Hx' Hy'. unfold pixel_at. cbn [fb info set_fb sget].
  destruct (decide (x = x' /\ y = y')) as [[<- <-]|Hne].
  - fold off. rewrite !Z.eqb_refl. cbn [andb].
    repeat (rewrite (proj2 (Z.leb_le off _)) by lia). repeat (rewrite (proj2 (Z.ltb_lt _ (off + 3))) by lia). cbn [andb].
    replace (off - off) with 0 by lia. replace (off + 1 - off) with 1 by lia. replace (off + 2 - off) with 2 by lia.
    subst bs. by destruct (is_bgr (info v)).
  - assert ((x' =? x) && (y' =? y) = false) as -> by (destruct (x' =? x) eqn:E1, (y' =? y) eqn:E2; try done; zbool; destruct Hne; lia).
    pose proof (pixel_apart x y x' y' Hx Hx' Hne) as Ha. fold off in Ha. set (off' := (y' * s + x') * bpp) in *.
    assert (forall k, 0 <= k < 3 -> (off <=? off' + k) && (off' + k <? off + 3) = false) as Hk.
    { intros k Hk. destruct (_ <=? _) eqn:E1, (_ <? _) eqn:E2; try done; zbool; lia. }
    pose proof (Hk 0 ltac:(lia)) as K0. rewrite Z.add_0_r in K0. by rewrite K0, (Hk 1), (Hk 2) by lia.
Qed.
End pixels.

(** ** Blocks of pixels *)

Definition within (a b x : Z) : bool := (a <=? x) && (x <? b).

Lemma within_spec a b x : reflect (a <= x < b) (within a b x).
Proof. unfold within. destruct (a <=? x) eqn:E1, (x <? b) eqn:E2; constructor; zbool; lia. Qed.

Lemma paint_row_painted n v x0 y c :
  fits v -> 0 <= x0 -> x0 + Z.of_nat n <= stride (info v) -> 0 <= y < rows v * 8 ->
  exists v', for_range n x0 (fun x v => put_pixel x y (c x) v) v = Ok v' /\
    painted v v' (fun x' y' => if within x0 (x0 + Z.of_nat n) x' && (y' =? y) then c x' else pixel_at v x' y').
Proof.
  revert v x0. induction n as [|n IH]; intros v x0 Hv Hx Hn Hy; cbn [for_range].
  - exists v. split; [done|]. eapply painted_ext; [apply painted_refl|]. intros x y' _ _.
    by destruct (within_spec x0 (x0 + Z.of_nat 0) x); [lia|].
  - destruct (put_pixel_painted v Hv x0 y (c x0) ltac:(lia) Hy) as (v1 & -> & P1). cbn [rbind].
    pose proof P1 as (b & Ev1 & _ & Hpx). assert (info v1 = info v /\ rows v1 = rows v) as [Ei Er] by by rewrite Ev1.
    destruct (IH v1 (x0 + 1)) as (v2 & E2 & P2); rewrite ?Ei, ?Er; [by eapply painted_fits|lia..|]. exists v2. split; [done|].
    eapply painted_ext; [by eapply painted_trans|]. intros x' y' Hx' Hy'. cbn beta. rewrite Hpx by done.
    destruct (within_spec (x0 + 1) (x0 + 1 + Z.of_nat n) x'), (within_spec x0 (x0 + Z.of_nat (S n)) x'); try lia; cbn [andb]; try done.
    + destruct (y' =? y) eqn:E; [done|]. by rewrite andb_false_r.
    + assert (x' = x0) as -> by lia. rewrite Z.eqb_refl. by destruct (y' =? y).
    + by rewrite (proj2 (Z.eqb_neq x' x0)) by lia.
Qed.

Lemma paint_rows_painted n v x0 x1 y0 j0 c :
  fits v -> 0 <= x0 -> x1 <= stride (info v) -> 0 <= y0 + j0 -> y0 + j0 + Z.of_nat n <= rows v * 8 ->
  exists v', for_range n j0 (fun j v => for_range (Z.to_nat (x1 - x0)) x0 (fun x v => put_pixel x (y0 + j) (c x j) v) v) v = Ok v' /\
    painted v v' (fun x y => if within x0 x1 x && within (y0 + j0) (y0 + j0 + Z.of_nat n) y then c x (y - y0) else pixel_at v x y).
Proof.
  revert v j0. induction n as [|n IH]; intros v j0 Hv Hx0 Hx1 Hj Hn; cbn [for_range].
  - exists v. split; [done|]. eapply painted_ext; [apply painted_refl|]. intros x y _ _.
    destruct (within_spec (y0 + j0) (y0 + j0 + Z.of_nat 0) y); [lia|]. by rewrite andb_false_r.
  - destruct (decide (x0 <= x1)) as [Hle|Hgt].
    + destruct (paint_row_painted (Z.to_nat (x1 - x0)) v x0 (y0 + j0) (fun x => c x j0) Hv) as (v1 & -> & P1); [lia..|]. cbn [rbind].
      pose proof P1 as (b & Ev1 & _ & Hpx). assert (info v1 = info v /\ rows v1 = rows v) as [Ei Er] by by rewrite Ev1.
      destruct (IH v1 (j0 + 1)) as (v2 & E2 & P2); rewrite ?Ei, ?Er; [by eapply painted_fits|lia..|]. exists v2. split; [done|].
      eapply painted_ext; [by eapply painted_trans|]. intros x y Hx Hy. cbn beta. rewrite Hpx by done.
      replace (x0 + Z.of_nat (Z.to_nat (x1 - x0))) with x1 by lia.
      destruct (within_spec x0 x1 x); cbn [andb]; [|done].
      destruct (within_spec (y0 + (j0 + 1)) (y0 + (j0 + 1) + Z.of_nat n) y), (within_spec (y0 + j0) (y0 + j0 + Z.of_nat (S n)) y); try lia; [done| |].
      * assert (y = y0 + j0) as -> by lia. rewrite Z.eqb_refl. f_equal. lia.
      * by rewrite (proj2 (Z.eqb_neq y (y0 + j0))) by lia.
    + replace (Z.to_nat (x1 - x0)) with 0%nat in * by lia. cbn [for_range rbind].
      destruct (IH v (j0 + 1) Hv Hx0 Hx1 ltac:(lia) ltac:(lia)) as (v2 & E2 & P2). exists v2. split; [done|].
      eapply painted_ext; [exact P2|]. intros x y _ _. cbn beta. by destruct (within_spec x0 x1 x); [lia|].
Qed.

(** A block is painted, the rest stays. *)
Lemma paint_painted v x0 x1 y0 h c :
  fits v -> 0 <= x0 -> x1 <= stride (info v) -> 0 <= y0 -> 0 <= h -> y0 + h <= rows v * 8 ->
  exists v', paint x0 x1 y0 h c v = Ok v' /\
    painted v v' (fun x y => if within x0 x1 x && within y0 (y0 + h) y then c x (y - y0) else pixel_at v x y).
Proof.
  intros Hv Hx0 Hx1 Hy Hh Hm. unfold paint.
  destruct (paint_rows_painted (Z.to_nat h) v x0 x1 y0 0 c Hv Hx0 Hx1) as (v' & E & P); [lia..|].
  exists v'. split; [done|]. eapply painted_ext; [exact P|]. intros x y _ _. cbn beta.
  by replace (y0 + 0) with y0 by lia; replace (y0 + Z.of_nat (Z.to_nat h)) with (y0 + h) by lia.
Qed.

Section rows.
Context (v : VgaBuffer) (Hv : fits v).
Notation rb := (CHAR_H * stride (info v) * bytes_per_pixel (info v)).

Lemma rb_range : 0 <= rb /\ rows v * rb <= slen (fb v) /\ rb <= slen (fb v).
Proof.
  destruct Hv as [F1 F2 F3 F4 F5 F6]. unfold CHAR_H in *. assert (0 <= stride (info v) * bytes_per_pixel (info v)) as Hp by nia.
  assert (1 * (8 * (stride (info v) * bytes_per_pixel (info v))) <= rows v * (8 * (stride (info v) * bytes_per_pixel (info v)))) as Hm
    by (apply Z.mul_le_mono_nonneg_r; lia).
  split_and!; lia.
Qed.

Lemma rows_times a b : 0 <= a <= b -> b <= rows v -> 0 <= a * rb <= b * rb /\ b * rb <= slen (fb v).
Proof.
  intros Ha Hb. destruct rb_range as (R1 & R2 & _).
  assert (a * rb <= b * rb) as G1 by (apply Z.mul_le_mono_nonneg_r; lia).
  assert (b * rb <= rows v * rb) as G2 by (apply Z.mul_le_mono_nonneg_r; lia).
  assert (0 <= a * rb) as G3 by (apply Z.mul_nonneg_nonneg; lia). lia.
Qed.

Lemma row_bytes_ok : row_bytes v = Ok rb.
Proof. destruct rb_range as (R1 & _ & R3). destruct Hv. unfold row_bytes. apply usize_ok. lia. Qed.

(** Where the bytes of a pixel lie among the character rows. *)
Lemma pixel_row x y a : 0 <= x < stride (info v) -> 0 <= y < rows v * 8 ->
  let off := (y * stride (info v) + x) * bytes_per_pixel (info v) in
  (a * 8 <= y -> a * rb <= off) /\ (y < a * 8 -> off + 3 <= a * rb).
Proof.
  intros Hx Hy off. destruct (pixel_range v Hv x y Hx Hy) as (_ & P1 & P2 & _). fold off in P1, P2.
  destruct Hv as [F1 F2 F3 F4 F5 F6]. assert (0 <= stride (info v) * bytes_per_pixel (info v)) as Hp by nia. unfold CHAR_H. split; intros Ha.
  - assert (a * 8 * (stride (info v) * bytes_per_pixel (info v)) <= y * (stride (info v) * bytes_per_pixel (info v))) by (apply Z.mul_le_mono_nonneg_r; lia). lia.
  - assert ((y + 1) * (stride (info v) * bytes_per_pixel (info v)) <= a * 8 * (stride (info v) * bytes_per_pixel (info v))) by (apply Z.mul_le_mono_nonneg_r; lia). lia.
Qed.

Lemma raw_zero_painted a b :
  0 <= a <= b -> b <= rows v ->
  exists v', raw_zero (a * rb) ((b - a) * rb) v = Ok v' /\
    painted v v' (fun x y => if within (a * 8) (b * 8) y then BLACK else pixel_at v x y).
Proof.
  intros Ha Hb. destruct (rows_times a b Ha Hb) as [G1 G2]. pose proof (ft_max v Hv).
  assert ((b - a) * rb = b * rb - a * rb) as Em by ring.
  unfold raw_zero. rewrite !usize_ok by lia. cbn [rbind]. unfold sfill.
  rewrite !(proj2 (Z.leb_le _ _)) by lia. cbn [andb raw]. eexists. split; [reflexivity|].
  eexists. split; [reflexivity|]. split; [done|]. intros x y Hx Hy. unfold pixel_at. cbn [fb info set_fb sget].
  destruct (pixel_row x y a Hx Hy) as [A1 A2], (pixel_row x y b Hx Hy) as [B1 B2]. cbv zeta in *.
  set (off := (y * stride (info v) + x) * bytes_per_pixel (info v)) in *.
  assert (forall k, 0 <= k < 3 -> (a * rb <=? off + k) && (off + k <? a * rb + (b - a) * rb) = within (a * 8) (b * 8) y) as Hk.
  { intros k Hk. fold (within (a * rb) (a * rb + (b - a) * rb) (off + k)).
    destruct (within_spec (a * rb) (a * rb + (b - a) * rb) (off + k)), (within_spec (a * 8) (b * 8) y); try done; lia. }
  pose proof (Hk 0 ltac:(lia)) as K0. rewrite Z.add_0_r in K0. rewrite K0, (Hk 1), (Hk 2) by lia.
  destruct (within (a * 8) (b * 8) y), (is_bgr (info v)); done.
Qed.

Lemma raw_copy_painted src dst n :
  0 <= src -> 0 <= dst -> 0 <= n -> src + n <= rows v -> dst + n <= rows v ->
  exists v', raw_copy (src * rb) (dst * rb) (n * rb) v = Ok v' /\
    painted v v' (fun x y => if within (dst * 8) ((dst + n) * 8) y then pixel_at v x (y + (src - dst) * 8) else pixel_at v x y).
Proof.
  intros Hs Hd Hn Hs2 Hd2. destruct (rows_times src (src + n) ltac:(lia) Hs2) as [G1 G2], (rows_times dst (dst + n) ltac:(lia) Hd2) as [G3 G4].
  pose proof (ft_max v Hv). assert ((src + n) * rb = src * rb + n * rb) as E1 by ring. assert ((dst + n) * rb = dst * rb + n * rb) as E2 by ring.
  unfold raw_copy. rewrite !usize_ok by lia. cbn [rbind]. unfold scopy_within.
  rewrite !(proj2 (Z.leb_le _ _)) by lia. cbn [andb raw]. eexists. split; [reflexivity|].
  eexists. split; [reflexivity|]. split; [done|]. intros x y Hx Hy. unfold pixel_at. cbn [fb info set_fb sget].
  destruct (pixel_row x y dst Hx Hy) as [A1 A2], (pixel_row x y (dst + n) Hx Hy) as [B1 B2]. cbv zeta in *.
  assert (((y + (src - dst) * 8) * stride (info v) + x) * bytes_per_pixel (info v) =
    (y * stride (info v) + x) * bytes_per_pixel (info v) + (src * rb - dst * rb)) as Eo by (unfold CHAR_H; ring).
  rewrite Eo. set (off := (y * stride (info v) + x) * bytes_per_pixel (info v)) in *.
  assert (forall k, 0 <= k < 3 -> (dst * rb <=? off + k) && (off + k <? dst * rb + n * rb) = within (dst * 8) ((dst + n) * 8) y) as Hk.
  { intros k Hk. fold (within (dst * rb) (dst * rb + n * rb) (off + k)).
    destruct (within_spec (dst * rb) (dst * rb + n * rb) (off + k)), (within_spec (dst * 8) ((dst + n) * 8) y); try done; lia. }
  pose proof (Hk 0 ltac:(lia)) as K0. rewrite Z.add_0_r in K0. rewrite K0, (Hk 1), (Hk 2) by lia.
  destruct (within (dst * 8) ((dst + n) * 8) y); [|done].
  replace (src * rb + (off - dst * rb)) with (off + (src * rb - dst * rb)) by lia.
  replace (src * rb + (off + 1 - dst * rb)) with (off + (src * rb - dst * rb) + 1) by lia.
  by replace (src * rb + (off + 2 - dst * rb)) with (off + (src * rb - dst * rb) + 2) by lia.
Qed.
End rows.

(** Clearing everything. *)
Lemma clear_all_painted v : fits v -> exists v', raw_zero 0 (slen (fb v)) v = Ok v' /\ painted v v' (fun _ _ => BLACK).
Proof.
  intros Hv. pose proof Hv as [F1 F2 F3 F4 F5 F6]. unfold raw_zero. assert (0 <= slen (fb v)) as Hl by (destruct (rb_range v Hv); lia).
  rewrite !usize_ok by lia. cbn [rbind]. unfold sfill. rewrite !(proj2 (Z.leb_le _ _)) by lia. cbn [andb raw].
  eexists. split; [reflexivity|]. eexists. split; [reflexivity|]. split; [done|].
  intros x y Hx Hy. destruct (pixel_range v Hv x y Hx Hy) as (P0 & P1 & P2 & P3). unfold pixel_at. cbn [fb info set_fb sget slen].
  set (off := (y * stride (info v) + x) * bytes_per_pixel (info v)) in *.
  rewrite !(proj2 (Z.leb_le 0 _)), !(proj2 (Z.ltb_lt _ (0 + slen (fb v)))) by lia. by destruct (is_bgr (info v)).
Qed.

(** ** The specification: a grid of cells *)

Inductive cell := Fill (c : Color) | Glyph (code : Z) (f b : Color).

Definition picture (k : cell) (x y : Z) : Color :=
  match k with
  | Fill c => c
  | Glyph code f b => if glyph_bit code x y then f else b
  end.

Record Console := mkConsole {
  cells : Z -> Z -> cell;
  c_row : Z;
  c_col : Z;
  c_saved_row : Z;
  c_saved_col : Z;
  c_fg : Color;
  c_bg : Color
}.

Definition set_cells k c := mkConsole k (c_row c) (c_col c) (c_saved_row c) (c_saved_col c) (c_fg c) (c_bg c).
Definition at_cell r k c := mkConsole (cells c) r k (c_saved_row c) (c_saved_col c) (c_fg c) (c_bg c).
Definition ink f b c := mkConsole (cells c) (c_row c) (c_col c) (c_saved_row c) (c_saved_col c) f b.

(** The cells where [p] holds become [k]. *)
Definition put_cells (p : Z -> Z -> bool) (k : cell) (c : Console) : Console :=
  set_cells (fun r q => if p r q then k else cells c r q) c.

Section console.
Context (R C : Z).

Definition con_scroll (c : Console) : Console :=
  set_cells (fun r q => if r <? R - 1 then cells c (r + 1) q else Fill BLACK) c.

(** A cursor below the last row scrolls. *)
Definition con_settle (c : Console) : Console :=
  if R <=? c_row c then at_cell (R - 1) (c_col c) (con_scroll c) else c.

Definition con_char (ch : Z) (c : Console) : Console :=
  con_settle (
    if ch =? 10 then at_cell (c_row c + 1) 0 c else
    if ch =? 13 then at_cell (c_row c) 0 c else
    if ch =? 8 then
      let c := if 0 <? c_col c then at_cell (c_row c) (c_col c - 1) c
               else if 0 <? c_row c then at_cell (c_row c - 1) (C - 1) c else c in
      put_cells (fun r q => (r =? c_row c) && (q =? c_col c)) (Fill BLACK) c
    else
      let c' := put_cells (fun r q => (r =? c_row c) && (q =? c_col c)) (Glyph ch (c_fg c) (c_bg c)) c in
      if C <=? c_col c + 1 then at_cell (c_row c + 1) 0 c' else at_cell (c_row c) (c_col c + 1) c').

Definition con_color (code : Z) (c : Console) : Console :=
  if code =? 0 then ink BRIGHT_WHITE BLACK c else
  match palette normal_palette code 30 with Some k => ink k (c_bg c) c | None =>
  match palette normal_palette code 40 with Some k => ink (c_fg c) k c | None =>
  match palette bright_palette code 90 with Some k => ink k (c_bg c) c | None =>
  match palette bright_palette code 100 with Some k => ink (c_fg c) k c | None => c end end end end.

Definition con_erase_screen (n : Z) (c : Console) : Console :=
  let r0 := c_row c in
  if n =? 0 then put_cells (fun r q => r0 <? r) (Fill BLACK) (put_cells (fun r q => (r =? r0) && (c_col c <=? q)) (Fill (c_bg c)) c) else
  if n =? 1 then put_cells (fun r q => (r =? r0) && (q <=? c_col c)) (Fill (c_bg c)) (put_cells (fun r q => r <? r0) (Fill BLACK) c) else
  if n =? 2 then at_cell 0 0 (put_cells (fun _ _ => true) (Fill BLACK) c) else c.

Definition con_erase_line (n : Z) (c : Console) : Console :=
  let here r := r =? c_row c in
  if n =? 0 then put_cells (fun r q => here r && (c_col c <=? q)) (Fill (c_bg c)) c else
  if n =? 1 then put_cells (fun r q => here r && (q <=? c_col c)) (Fill (c_bg c)) c else
  if n =? 2 then at_cell (c_row c) 0 (put_cells (fun r q => here r) (Fill (c_bg c)) c) else c.

Definition con_insert (n : Z) (c : Console) : Console :=
  let n := Z.min n (R - c_row c) in
  set_cells (fun r q => if r <? c_row c then cells c r q else if r <? c_row c + n then Fill BLACK else cells c (r - n) q) c.

Definition con_delete (n : Z) (c : Console) : Console :=
  let n := Z.min n (R - c_row c) in
  set_cells (fun r q => if r <? c_row c then cells c r q else if r <? R - n then cells c (r + n) q else Fill BLACK) c.

(** A movement whose sum does not fit a machine word stops the kernel. *)
Definition con_csi (params : list Z) (cmd : Z) (c : Console) : result unit Console :=
  let parts := split_semi params [] in
  let p0 := parse_or_0 USIZE_MAX (nth 0 parts []) in
  let p1 := parse_or_0 USIZE_MAX (nth 1 parts []) in
  let n := Z.max p0 1 in
  let go r q := Ok (at_cell r q c) in
  if cmd =? 109 then
    Ok (match params with [] => con_color 0 c | _ => fold_left (fun c part => con_color (parse_or_0 255 part) c) parts c end) else
  if cmd =? 74 then Ok (con_erase_screen p0 c) else
  if cmd =? 75 then Ok (con_erase_line p0 c) else
  if (cmd =? 72) || (cmd =? 102) then go (Z.min (sat_sub p0 1) (R - 1)) (Z.min (sat_sub p1 1) (C - 1)) else
  if cmd =? 65 then go (sat_sub (c_row c) n) (c_col c) else
  if cmd =? 70 then go (sat_sub (c_row c) n) 0 else
  if cmd =? 66 then let? r := usize (c_row c + n) in go (Z.min r (R - 1)) (c_col c) else
  if cmd =? 69 then let? r := usize (c_row c + n) in go (Z.min r (R - 1)) 0 else
  if cmd =? 67 then let? q := usize (c_col c + n) in go (c_row c) (Z.min q (C - 1)) else
  if cmd =? 68 then go (c_row c) (sat_sub (c_col c) n) else
  if cmd =? 71 then go (c_row c) (Z.min (sat_sub p0 1) (C - 1)) else
  if cmd =? 100 then go (Z.min (sat_sub p0 1) (R - 1)) (c_col c) else
  if cmd =? 115 then Ok (mkConsole (cells c) (c_row c) (c_col c) (c_row c) (c_col c) (c_fg c) (c_bg c)) else
  if cmd =? 117 then go (c_saved_row c) (c_saved_col c) else
  if cmd =? 76 then Ok (con_insert n c) else
  if cmd =? 77 then Ok (con_delete n c) else Ok c.

Fixpoint con_print (fuel : nat) (s : list Z) (c : Console) : result unit Console :=
  match s, fuel with
  | [], _ => Ok c
  | _, O => OutOfFuel
  | ch :: s', S fuel' =>
    if negb (ch =? 27) then con_print fuel' s' (con_char ch c) else
    match s' with
    | 91 :: s'' =>
      match read_csi s'' [] with
      | None => Ok c
      | Some (params, cmd, rest) => let? c := con_csi params cmd c in con_print fuel' rest c
      end
    | _ :: s'' => con_print fuel' s'' c
    | [] => Ok c
    end
  end.
End console.

(** ** Refinement *)

Section refinement.
Context (R C : Z) (G : FrameBufferInfo).
Notation RB := (CHAR_H * stride G * bytes_per_pixel G).

(** The framebuffer displays the cells; the cursor may be anywhere. *)
Record displays (v : VgaBuffer) (c : Console) : Prop := {
  sw_fits : fits v;
  sw_info : info v = G;
  sw_rows : rows v = R;
  sw_cols : cols v = C;
  sw_row : row v = c_row c;
  sw_col : col v = c_col c;
  sw_srow : saved_row v = c_saved_row c;
  sw_scol : saved_col v = c_saved_col c;
  sw_fg : fg v = c_fg c;
  sw_bg : bg v = c_bg c;
  sw_sin : 0 <= c_saved_row c < R /\ 0 <= c_saved_col c < C;
  sw_pix : forall x y, 0 <= x < C * 8 -> 0 <= y < R * 8 -> pixel_at v x y = picture (cells c (y / 8) (x / 8)) (x mod 8) (y mod 8)
}.

Definition on_screen (c : Console) : Prop := 0 <= c_row c < R /\ 0 <= c_col c < C.
Definition shows (v : VgaBuffer) (c : Console) : Prop := displays v c /\ on_screen c.

(** Only the pixels changed, and they show the cells [k]. *)
Lemma displays_painted v v' f c k :
  displays v c -> painted v v' f ->
  (forall x y, 0 <= x < C * 8 -> 0 <= y < R * 8 -> f x y = picture (k (y / 8) (x / 8)) (x mod 8) (y mod 8)) ->
  displays v' (set_cells k c).
Proof.
  intros [] P Hk. pose proof (painted_fits _ _ _ sw_fits0 P) as Hf. destruct P as (b & -> & Hl & Hp). split; try done.
  intros x y Hx Hy. destruct sw_fits0. rewrite Hp; [by apply Hk| |]; cbn; lia.
Qed.

Lemma displays_ext v c k k' :
  displays v (set_cells k c) -> (forall r q, 0 <= r < R -> 0 <= q < C -> k r q = k' r q) -> displays v (set_cells k' c).
Proof. intros [] Hk. split; try done. intros x y Hx Hy. rewrite sw_pix0 by done. cbn. rewrite Hk; [done|zlia..]. Qed.

Lemma displays_move v c r q : displays v c -> displays (move_to r q v) (at_cell r q c).
Proof. intros [F]. split; try done. by destruct F; split. Qed.

Section ops.
Context (v : VgaBuffer) (c : Console) (Hd : displays v c).

Lemma paint_cells q0 q1 r col k :
  0 <= q0 -> q1 <= C -> 0 <= r < R ->
  (forall x j, q0 * 8 <= x < q1 * 8 -> 0 <= j < 8 -> col x j = picture k (x mod 8) j) ->
  exists v', paint (q0 * CHAR_W) (q1 * CHAR_W) (r * CHAR_H) CHAR_H col v = Ok v' /\
    displays v' (put_cells (fun r' q => (r' =? r) && within q0 q1 q) k c).
Proof.
  intros Hq0 Hq1 Hr Hcol. pose proof Hd as []. destruct sw_fits0 as [F1 F2 F3 F4 F5 F6]. unfold CHAR_W, CHAR_H.
  destruct (paint_painted v (q0 * 8) (q1 * 8) (r * 8) 8 col) as (v' & -> & P); [by split|lia..|]. exists v'. split; [done|].
  eapply displays_painted; [done|exact P|]. intros x y Hx Hy. cbn beta.
  destruct (within_spec (q0 * 8) (q1 * 8) x), (within_spec q0 q1 (x / 8)); try zlia; rewrite ?andb_false_r; cbn [andb]; [|by apply sw_pix0].
  rewrite andb_true_r. destruct (within_spec (r * 8) (r * 8 + 8) y), (y / 8 =? r) eqn:E; zbool; try zlia; [|by apply sw_pix0].
  rewrite Hcol by lia. f_equal. zlia.
Qed.

Lemma zero_cells a b :
  0 <= a <= b -> b <= R ->
  exists v', raw_zero (a * RB) ((b - a) * RB) v = Ok v' /\
    displays v' (put_cells (fun r q => within a b r) (Fill BLACK) c).
Proof.
  intros Ha Hb. pose proof Hd as []. destruct (raw_zero_painted v sw_fits0 a b Ha) as (v' & E & P); [lia|].
  rewrite sw_info0 in E. exists v'. split; [exact E|]. eapply displays_painted; [done|exact P|].
  intros x y Hx Hy. cbn beta. destruct (within_spec (a * 8) (b * 8) y), (within_spec a b (y / 8)); try zlia; [done|by apply sw_pix0].
Qed.

Lemma copy_cells src dst n :
  0 <= src -> 0 <= dst -> 0 <= n -> src + n <= R -> dst + n <= R ->
  exists v', raw_copy (src * RB) (dst * RB) (n * RB) v = Ok v' /\
    displays v' (set_cells (fun r q => if within dst (dst + n) r then cells c (r + (src - dst)) q else cells c r q) c).
Proof.
  intros Hs Hdst Hn Hs2 Hd2. pose proof Hd as []. destruct (raw_copy_painted v sw_fits0 src dst n Hs Hdst Hn) as (v' & E & P); [lia..|].
  rewrite sw_info0 in E. exists v'. split; [exact E|]. eapply displays_painted; [done|exact P|].
  intros x y Hx Hy. cbn beta. destruct (within_spec (dst * 8) ((dst + n) * 8) y), (within_spec dst (dst + n) (y / 8)); try zlia; [|by apply sw_pix0].
  rewrite sw_pix0 by lia. rewrite Z.div_add, Z.mod_add by lia. done.
Qed.

Lemma displays_row_bytes : row_bytes v = Ok RB.
Proof. pose proof Hd as []. by rewrite row_bytes_ok, sw_info0. Qed.
End ops.

Lemma scroll_up_displays v c : displays v c -> exists v', scroll_up v = Ok v' /\ displays v' (con_scroll R c).
Proof.
  intros Hd. pose proof Hd as []. destruct sw_fits0 as [F1 F2 F3 F4 F5 F6]. unfold scroll_up.
  rewrite (displays_row_bytes v c Hd). cbn [rbind]. rewrite (proj2 (Z.eqb_neq (rows v) 0)), sw_rows0 by lia.
  destruct (copy_cells v c Hd 1 0 (R - 1)) as (v1 & E1 & D1); [lia..|]. rewrite Z.mul_1_l, Z.mul_0_l in E1. rewrite E1. cbn [rbind].
  destruct (zero_cells v1 _ D1 (R - 1) R) as (v2 & E2 & D2); [lia..|]. replace ((R - (R - 1)) * RB) with RB in E2 by ring.
  replace (rows v1) with R by (symmetry; apply D1). exists v2. split; [exact E2|]. eapply displays_ext; [exact D2|].
  intros r q Hr Hq. cbn. destruct (within_spec (R - 1) R r), (within_spec 0 (0 + (R - 1)) r), (r <? R - 1) eqn:E; zbool; try lia; [done|].
  by f_equal.
Qed.

Lemma keep_on_screen_shows v c :
  displays v c -> 0 <= c_row c <= R -> 0 <= c_col c < C -> exists v', keep_on_screen v = Ok v' /\ shows v' (con_settle R c).
Proof.
  intros Hd Hr Hc. pose proof Hd as []. unfold keep_on_screen, con_settle. rewrite sw_rows0, sw_row0.
  destruct (R <=? c_row c) eqn:E; zbool; [|exists v; split; [done|split; [done|split; lia]]].
  destruct (scroll_up_displays v c Hd) as (v1 & -> & D1). cbn [rbind]. pose proof D1 as [].
  destruct sw_fits1 as [F1 F2 F3 F4 F5 F6]. pose proof (ft_max v sw_fits0). rewrite sw_rows1.
  rewrite usize_ok; [|split; [lia|]].
  - cbn [rbind]. eexists. split; [reflexivity|]. rewrite sw_col1. split; [by apply displays_move|]. split; cbn; lia.
  - assert (rows v1 * 8 * 1 <= rows v1 * 8 * (stride (info v1) * bytes_per_pixel (info v1))) by (apply Z.mul_le_mono_nonneg_l; nia). lia.
Qed.

(** One cell painted. *)
Lemma paint_one v c r q col k :
  displays v c -> 0 <= q < C -> 0 <= r < R ->
  (forall x j, q * 8 <= x < q * 8 + 8 -> 0 <= j < 8 -> col x j = picture k (x mod 8) j) ->
  exists v', paint (q * CHAR_W) (q * CHAR_W + CHAR_W) (r * CHAR_H) CHAR_H col v = Ok v' /\
    displays v' (put_cells (fun r' q' => (r' =? r) && (q' =? q)) k c).
Proof.
  intros Hd Hq Hr Hcol. destruct (paint_cells v c Hd q (q + 1) r col k) as (v' & E & D); [lia..|intros; apply Hcol; lia|].
  replace ((q + 1) * CHAR_W) with (q * CHAR_W + CHAR_W) in E by (unfold CHAR_W; lia). exists v'. split; [done|].
  eapply displays_ext; [exact D|]. intros r' q' _ _. cbn. destruct (r' =? r); [cbn [andb]|done].
  by destruct (within_spec q (q + 1) q'), (q' =? q) eqn:E1; zbool; try lia.
Qed.

Lemma small_sizes v c : displays v c -> R <= 2 ^ 62 /\ C <= 2 ^ 62.
Proof.
  intros []. destruct sw_fits0 as [F1 F2 F3 F4 F5 F6]. assert (1 <= rows v * 8 * stride (info v)) by nia.
  assert (rows v * 8 * stride (info v) * 1 <= rows v * 8 * stride (info v) * bytes_per_pixel (info v)) by (apply Z.mul_le_mono_nonneg_l; lia).
  assert (rows v * 8 * 1 <= rows v * 8 * stride (info v)) by (apply Z.mul_le_mono_nonneg_l; lia).
  assert (1 * stride (info v) <= rows v * 8 * stride (info v)) by (apply Z.mul_le_mono_nonneg_r; lia). lia.
Qed.

Lemma backspace_displays v c :
  shows v c ->
  exists v' c', backspace v = Ok v' /\ displays v' c' /\ on_screen c' /\
    c' = let c := if 0 <? c_col c then at_cell (c_row c) (c_col c - 1) c
                  else if 0 <? c_row c then at_cell (c_row c - 1) (C - 1) c else c in
         put_cells (fun r q => (r =? c_row c) && (q =? c_col c)) (Fill BLACK) c.
Proof.
  intros [Hd [Hr Hc]]. pose proof Hd as []. pose proof (small_sizes v c Hd) as [S1 S2]. unfold backspace. rewrite sw_col0, sw_row0, sw_cols0.
  set (c1 := if 0 <? c_col c then at_cell (c_row c) (c_col c - 1) c else if 0 <? c_row c then at_cell (c_row c - 1) (C - 1) c else c).
  assert (exists v1, (if 0 <? c_col c then Ok (move_to (c_row c) (c_col c - 1) v)
            else if 0 <? c_row c then let? k := usize (C - 1) in Ok (move_to (c_row c - 1) k v) else Ok v) = Ok v1 /\ displays v1 c1 /\ on_screen c1)
    as (v1 & -> & D1 & O1).
  { subst c1. destruct (0 <? c_col c) eqn:E1; zbool; [eexists; split; [done|]; split; [by apply displays_move|split; cbn; lia]|].
    destruct (0 <? c_row c) eqn:E2; zbool; [|by exists v; split; [|split; [|split; lia]]].
    rewrite usize_ok by lia. eexists. split; [reflexivity|]. split; [by apply displays_move|split; cbn; lia]. }
  cbn [rbind]. destruct (paint_one v1 c1 (c_row c1) (c_col c1) (fun _ _ => BLACK) (Fill BLACK) D1) as (v2 & E2 & D2); [apply O1..|done|].
  rewrite (sw_row _ _ D1), (sw_col _ _ D1). eexists _, _. split; [exact E2|]. split; [exact D2|]. by split.
Qed.

Lemma write_char_shows ch v c : shows v c -> exists v', write_char ch v = Ok v' /\ shows v' (con_char R C ch c).
Proof.
  intros Hs. pose proof Hs as [Hd [Hr Hc]]. pose proof Hd as []. unfold write_char, con_char.
  destruct (ch =? 10). { cbn [rbind]. rewrite sw_row0. apply keep_on_screen_shows; [by apply displays_move|cbn; lia..]. }
  destruct (ch =? 13). { cbn [rbind]. rewrite sw_row0. apply keep_on_screen_shows; [by apply displays_move|cbn; lia..]. }
  destruct (ch =? 8).
  { destruct (backspace_displays v c Hs) as (v1 & c1 & -> & D1 & [O1 O2] & Ec). cbn [rbind]. cbv zeta in Ec |- *. rewrite <- Ec. apply keep_on_screen_shows; [done|lia..]. }
  unfold draw_char. rewrite sw_row0, sw_col0, sw_fg0, sw_bg0.
  destruct (paint_one v c (c_row c) (c_col c) (fun x y => if glyph_bit ch (x - c_col c * CHAR_W) y then c_fg c else c_bg c)
    (Glyph ch (c_fg c) (c_bg c)) Hd) as (v1 & -> & D1); [lia..| |].
  { intros x j Hx Hj. cbn. replace (x - c_col c * CHAR_W) with (x mod 8) by (unfold CHAR_W; zlia). done. }
  cbn [rbind]. rewrite (sw_cols _ _ D1), (sw_row _ _ D1), (sw_col _ _ D1). cbn [c_row c_col put_cells set_cells].
  destruct (C <=? c_col c + 1) eqn:E; zbool; apply keep_on_screen_shows; try (by apply displays_move); cbn; lia.
Qed.

(** ** Escape sequences *)

Definition refines (r : VR) (rc : result unit Console) : Prop :=
  match rc with
  | Ok c' => exists v', r = Ok v' /\ shows v' c'
  | Panic => r = Panic
  | _ => False
  end.

Lemma refines_ok v c : shows v c -> refines (Ok v) (Ok c).
Proof. intros Hs. by exists v. Qed.

Lemma move_shows v c r q : displays v c -> 0 <= r < R -> 0 <= q < C -> shows (move_to r q v) (at_cell r q c).
Proof. intros Hd Hr Hq. split; [by apply displays_move|by split]. Qed.

(** Part of the cursor's row, from [q0] to [q1]. *)
Lemma erase_cells v c q0 q1 p :
  shows v c -> 0 <= q0 -> q1 <= C -> (forall q, 0 <= q < C -> within q0 q1 q = p q) ->
  exists v', paint (q0 * CHAR_W) (q1 * CHAR_W) (c_row c * CHAR_H) CHAR_H (fun _ _ => c_bg c) v = Ok v' /\
    shows v' (put_cells (fun r q => (r =? c_row c) && p q) (Fill (c_bg c)) c).
Proof.
  intros [Hd [Hr Hc]] H0 H1 Hp. destruct (paint_cells v c Hd q0 q1 (c_row c) (fun _ _ => c_bg c) (Fill (c_bg c))) as (v' & -> & D); [lia..|done|].
  exists v'. split; [done|]. split; [|done]. eapply displays_ext; [exact D|]. intros r q _ Hq. cbn. by rewrite Hp.
Qed.

Lemma erase_line_shows n v c : shows v c -> refines (erase_line n v) (Ok (con_erase_line n c)).
Proof.
  intros Hs. pose proof Hs as [Hd [Hr Hc]]. pose proof Hd as []. unfold erase_line, con_erase_line.
  unfold clear_to_end_of_line, clear_to_start_of_line, clear_line. rewrite sw_row0, sw_col0, sw_cols0, sw_bg0.
  destruct (n =? 0); [|destruct (n =? 1); [|destruct (n =? 2); [|by exists v]]].
  - apply (erase_cells v c (c_col c) C); [done|lia..|]. intros q Hq. by destruct (within_spec (c_col c) C q), (c_col c <=? q) eqn:E; zbool; try lia.
  - change 0 with (0 * CHAR_W). apply (erase_cells v c 0 (c_col c + 1)); [done|lia..|].
    intros q Hq. by destruct (within_spec 0 (c_col c + 1) q), (q <=? c_col c) eqn:E; zbool; try lia.
  - change 0 with (0 * CHAR_W) at 1. destruct (erase_cells v c 0 C (fun _ => true) Hs) as (v' & E & [D' _]); [lia..| |].
    { intros q Hq. by destruct (within_spec 0 C q); [|lia]. }
    rewrite E. cbn [rbind]. eexists. split; [reflexivity|]. rewrite (sw_row _ _ D'). cbn [c_row put_cells set_cells].
    apply move_shows; [|done|lia]. eapply displays_ext; [exact D'|]. intros r q _ _. cbn. by rewrite andb_true_r.
Qed.

Lemma zero_shows v c a b p :
  shows v c -> 0 <= a <= b -> b <= R -> (forall r, 0 <= r < R -> within a b r = p r) ->
  exists v', raw_zero (a * RB) ((b - a) * RB) v = Ok v' /\ shows v' (put_cells (fun r q => p r) (Fill BLACK) c).
Proof.
  intros [Hd Ho] Ha Hb Hp. destruct (zero_cells v c Hd a b Ha Hb) as (v' & E & D). exists v'. split; [done|]. split; [|done].
  eapply displays_ext; [exact D|]. intros r q Hr _. cbn. by rewrite Hp.
Qed.

Lemma clear_screen_shows v c : shows v c -> refines (clear_screen v) (Ok (at_cell 0 0 (put_cells (fun _ _ => true) (Fill BLACK) c))).
Proof.
  intros [Hd [Hr Hc]]. pose proof Hd as []. destruct (clear_all_painted v sw_fits0) as (v' & E & P). unfold clear_screen. rewrite E.
  eexists. split; [reflexivity|]. apply move_shows; [|lia..]. by eapply displays_painted.
Qed.

Lemma erase_screen_shows n v c : shows v c -> refines (erase_screen n v) (Ok (con_erase_screen n c)).
Proof.
  intros Hs. pose proof Hs as [Hd [Hr Hc]]. pose proof Hd as []. unfold erase_screen, con_erase_screen.
  destruct (n =? 0); [|destruct (n =? 1); [|destruct (n =? 2); [by apply clear_screen_shows|by exists v]]].
  - unfold clear_to_end_of_screen. destruct (erase_line_shows 0 v c Hs) as (v1 & E1 & S1). cbn in E1. rewrite E1. cbn [rbind].
    pose proof S1 as [D1 _]. rewrite (sw_row _ _ D1), (sw_rows _ _ D1). cbn [c_row put_cells set_cells con_erase_line Z.eqb].
    destruct (c_row c + 1 <? R) eqn:E; zbool.
    + rewrite (displays_row_bytes v1 _ D1). cbn [rbind]. apply (zero_shows v1 _ (c_row c + 1) R (fun r => c_row c <? r) S1); [lia..|].
      intros r Hr'. by destruct (within_spec (c_row c + 1) R r), (c_row c <? r) eqn:E'; zbool; try lia.
    + exists v1. split; [done|]. split; [|by split]. eapply displays_ext; [exact D1|]. intros r q Hr' _. cbn.
      by rewrite (proj2 (Z.ltb_ge (c_row c) r)) by lia.
  - unfold clear_to_start_of_screen. rewrite (displays_row_bytes v c Hd), sw_row0. cbn [rbind].
    assert (exists v1, (if 0 <? c_row c then raw_zero 0 (c_row c * RB) v else Ok v) = Ok v1 /\
      shows v1 (put_cells (fun r q => r <? c_row c) (Fill BLACK) c)) as (v1 & -> & S1).
    { destruct (0 <? c_row c) eqn:E; zbool.
      - destruct (zero_shows v c 0 (c_row c) (fun r => r <? c_row c) Hs) as (v1 & E1 & S1); [lia..| |].
        + intros r Hr'. by destruct (within_spec 0 (c_row c) r), (r <? c_row c) eqn:E'; zbool; try lia.
        + rewrite Z.mul_0_l, Z.sub_0_r in E1. by exists v1.
      - exists v. split; [done|]. split; [|done]. eapply (displays_ext _ _ (cells c)); [by destruct c|]. intros r q Hr' _. cbn.
        by rewrite (proj2 (Z.ltb_ge r (c_row c))) by lia. }
    cbn [rbind]. exact (erase_line_shows 1 v1 _ S1).
Qed.

Lemma insert_lines_shows n v c : 1 <= n -> shows v c -> refines (insert_lines n v) (Ok (con_insert R n c)).
Proof.
  intros Hn Hs. pose proof Hs as [Hd [Hr Hc]]. pose proof Hd as []. pose proof (small_sizes v c Hd) as [S1 _]. unfold insert_lines, con_insert.
  rewrite sw_rows0, sw_row0, usize_ok by lia. cbn [rbind]. set (m := Z.min n (R - c_row c)). rewrite (displays_row_bytes v c Hd). cbn [rbind].
  assert (exists v1, (if 0 <? R - c_row c - m then raw_copy (c_row c * RB) ((c_row c + m) * RB) ((R - c_row c - m) * RB) v else Ok v) = Ok v1 /\
    displays v1 (set_cells (fun r q => if within (c_row c + m) R r then cells c (r - m) q else cells c r q) c)) as (v1 & -> & D1).
  { destruct (0 <? R - c_row c - m) eqn:E; zbool.
    - destruct (copy_cells v c Hd (c_row c) (c_row c + m) (R - c_row c - m)) as (v1 & E1 & D1); [lia..|]. exists v1. split; [done|].
      eapply displays_ext; [exact D1|]. intros r q _ _. cbn. replace (c_row c + m + (R - c_row c - m)) with R by lia.
      destruct (within _ _ r); [f_equal; lia|done].
    - exists v. split; [done|]. eapply (displays_ext _ _ (cells c)); [by destruct c|]. intros r q Hr' _. cbn.
      by destruct (within_spec (c_row c + m) R r); [lia|]. }
  cbn [rbind]. rewrite (sw_row _ _ D1). cbn [c_row set_cells].
  destruct (zero_cells v1 _ D1 (c_row c) (c_row c + m)) as (v2 & E2 & D2); [lia..|].
  replace ((c_row c + m - c_row c) * RB) with (m * RB) in E2 by ring. exists v2. split; [exact E2|]. split; [|done].
  eapply displays_ext; [exact D2|]. intros r q Hr' _. cbn.
  destruct (within_spec (c_row c) (c_row c + m) r), (within_spec (c_row c + m) R r), (r <? c_row c) eqn:E, (r <? c_row c + m) eqn:E'; zbool; done || lia.
Qed.

Lemma delete_lines_shows n v c : 1 <= n -> shows v c -> refines (delete_lines n v) (Ok (con_delete R n c)).
Proof.
  intros Hn Hs. pose proof Hs as [Hd [Hr Hc]]. pose proof Hd as []. pose proof (small_sizes v c Hd) as [S1 _]. unfold delete_lines, con_delete.
  rewrite sw_rows0, sw_row0, usize_ok by lia. cbn [rbind]. set (m := Z.min n (R - c_row c)). rewrite (displays_row_bytes v c Hd). cbn [rbind].
  assert (exists v1, (if 0 <? R - c_row c - m then raw_copy ((c_row c + m) * RB) (c_row c * RB) ((R - c_row c - m) * RB) v else Ok v) = Ok v1 /\
    displays v1 (set_cells (fun r q => if within (c_row c) (R - m) r then cells c (r + m) q else cells c r q) c)) as (v1 & -> & D1).
  { destruct (0 <? R - c_row c - m) eqn:E; zbool.
    - destruct (copy_cells v c Hd (c_row c + m) (c_row c) (R - c_row c - m)) as (v1 & E1 & D1); [lia..|]. exists v1. split; [done|].
      eapply displays_ext; [exact D1|]. intros r q _ _. cbn. replace (c_row c + (R - c_row c - m)) with (R - m) by lia.
      destruct (within _ _ r); [f_equal; lia|done].
    - exists v. split; [done|]. eapply (displays_ext _ _ (cells c)); [by destruct c|]. intros r q Hr' _. cbn.
      by destruct (within_spec (c_row c) (R - m) r); [lia|]. }
  cbn [rbind]. rewrite (sw_rows _ _ D1).
  destruct (zero_cells v1 _ D1 (R - m) R) as (v2 & E2 & D2); [lia..|].
  replace ((R - (R - m)) * RB) with (m * RB) in E2 by ring. exists v2. split; [exact E2|]. split; [|done].
  eapply displays_ext; [exact D2|]. intros r q Hr' _. cbn.
  destruct (within_spec (R - m) R r), (within_spec (c_row c) (R - m) r), (r <? c_row c) eqn:E, (r <? R - m) eqn:E'; zbool; done || lia.
Qed.

Lemma set_color_shows code v c : shows v c -> shows (set_color code v) (con_color code c).
Proof.
  assert (forall f b, shows v c -> shows (set_bg b (set_fg f v)) (ink f b c)) as Hink.
  { intros f b [[F] Ho]. split; [|done]. split; try done. by destruct F; split. }
  intros Hs. pose proof Hs as [[] _].
  assert (forall k, shows (set_fg k v) (ink k (c_bg c) c)) as Hf.
  { intros k. rewrite <- sw_bg0. replace (set_fg k v) with (set_bg (bg v) (set_fg k v)) by by destruct v. by apply Hink. }
  assert (forall k, shows (set_bg k v) (ink (c_fg c) k c)) as Hb.
  { intros k. rewrite <- sw_fg0. replace (set_bg k v) with (set_bg k (set_fg (fg v) v)) by by destruct v. by apply Hink. }
  unfold set_color, con_color. repeat case_split; auto.
Qed.

Lemma sat_sub_range a b m : 0 <= a < m -> 0 <= b -> 0 <= sat_sub a b < m.
Proof. unfold sat_sub. lia. Qed.

Lemma parse_or_0_range max part : 0 <= max -> 0 <= parse_or_0 max part.
Proof.
  intros Hm. unfold parse_or_0. destruct part as [|b part]; [lia|].
  assert (forall s v w, parse_digits max s v = Some w -> 0 <= v -> 0 <= w) as Hp.
  { induction s as [|x s IH]; intros v w; cbn; [by intros [= <-]|]. repeat case_split; try done. zbool. intros E ?. eapply IH; [exact E|]. lia. }
  destruct (parse_digits max (b :: part) 0) as [w|] eqn:E; cbn; [|lia]. by eapply Hp.
Qed.

Lemma colors_shows parts v c :
  shows v c -> shows (fold_left (fun v part => set_color (parse_or_0 255 part) v) parts v)
                     (fold_left (fun c part => con_color (parse_or_0 255 part) c) parts c).
Proof. revert v c. induction parts as [|p ps IH]; intros v c Hs; cbn; [done|]. apply IH. by apply set_color_shows. Qed.

Lemma run_csi_refines params cmd v c : shows v c -> refines (run_csi params cmd v) (con_csi R C params cmd c).
Proof.
  intros Hs. pose proof Hs as [Hd [Hr Hc]]. pose proof Hd as []. pose proof (small_sizes v c Hd) as [S1 S2].
  unfold run_csi, con_csi. rewrite sw_rows0, sw_cols0, sw_row0, sw_col0, sw_srow0, sw_scol0. cbv zeta.
  pose proof (parse_or_0_range USIZE_MAX (nth 0 (split_semi params []) []) ltac:(done)) as Hp0.
  pose proof (parse_or_0_range USIZE_MAX (nth 1 (split_semi params []) []) ltac:(done)) as Hp1.
  set (p0 := parse_or_0 USIZE_MAX (nth 0 _ _)) in *. set (p1 := parse_or_0 USIZE_MAX (nth 1 _ _)) in *.
  assert (sat_sub R 1 = R - 1 /\ sat_sub C 1 = C - 1) as [-> ->] by (unfold sat_sub; lia).
  assert (0 <= sat_sub p0 1 /\ 0 <= sat_sub p1 1) as [Hq0 Hq1] by (unfold sat_sub; lia).
  assert (forall r q, 0 <= r < R -> 0 <= q < C -> refines (Ok (move_to r q v)) (Ok (at_cell r q c))) as Hgo.
  { intros r q H1 H2. apply refines_ok. by apply move_shows. }
  assert (forall x (f : Z -> VR) (g : Z -> result unit Console), (0 <= x -> refines (f x) (g x)) -> 0 <= x ->
    refines (let? r := usize x in f r) (let? r := usize x in g r)) as Husize.
  { intros x f g Hx H0. unfold usize. destruct (_ && _); [by apply Hx|done]. }
  destruct (cmd =? 109); [apply refines_ok; destruct params; [by apply set_color_shows|by apply colors_shows]|].
  destruct (cmd =? 74); [by apply erase_screen_shows|]. destruct (cmd =? 75); [by apply erase_line_shows|].
  destruct ((cmd =? 72) || (cmd =? 102)); [unfold set_cursor_position; rewrite sw_rows0, sw_cols0, !usize_ok by lia; cbn [rbind]; apply Hgo; lia|].
  pose proof (sat_sub_range (c_row c) (Z.max p0 1) R Hr ltac:(lia)). pose proof (sat_sub_range (c_col c) (Z.max p0 1) C Hc ltac:(lia)).
  destruct (cmd =? 65); [apply Hgo; lia|]. destruct (cmd =? 70); [apply Hgo; lia|].
  destruct (cmd =? 66). { unfold usize. destruct (_ && _); cbn [rbind]; [apply Hgo; lia|done]. }
  destruct (cmd =? 69). { unfold usize. destruct (_ && _); cbn [rbind]; [apply Hgo; lia|done]. }
  destruct (cmd =? 67). { unfold usize. destruct (_ && _); cbn [rbind]; [apply Hgo; lia|done]. }
  destruct (cmd =? 68); [apply Hgo; lia|]. destruct (cmd =? 71); [apply Hgo; lia|]. destruct (cmd =? 100); [apply Hgo; lia|].
  destruct (cmd =? 115). { apply refines_ok. split; [|done]. unfold save_cursor. split; try done. by destruct sw_fits0; split. }
  destruct (cmd =? 117); [apply Hgo; apply sw_sin0|].
  destruct (cmd =? 76); [apply insert_lines_shows; [lia|done]|]. destruct (cmd =? 77); [apply delete_lines_shows; [lia|done]|]. by apply refines_ok.
Qed.

Lemma read_csi_length s ps params cmd rest : read_csi s ps = Some (params, cmd, rest) -> (length rest < length s)%nat.
Proof. revert ps. induction s as [|x s IH]; intros ps; cbn; [done|]. destruct (is_param x); [intros E%IH; lia|]. intros [= _ _ <-]. lia. Qed.

Lemma parse_ansi_refines fuel s v c : (length s <= fuel)%nat -> shows v c -> refines (parse_ansi fuel s v) (con_print R C fuel s c).
Proof.
  revert s v c. induction fuel as [|fuel IH]; intros s v c Hl Hs; (destruct s as [|ch s]; [by apply refines_ok|]); [cbn in Hl; lia|].
  cbn [parse_ansi con_print]. cbn [length] in Hl. destruct (negb (ch =? 27)).
  { destruct (write_char_shows ch v c Hs) as (v1 & -> & S1). cbn [rbind]. apply IH; [lia|done]. }
  destruct s as [|x s]; [by apply refines_ok|]. cbn [length] in Hl.
  destruct (decide (x = 91)) as [->|Hx].
  - destruct (read_csi s []) as [[[params cmd] rest]|] eqn:E; [|by apply refines_ok]. apply read_csi_length in E.
    pose proof (run_csi_refines params cmd v c Hs) as Hr. destruct (con_csi R C params cmd c) as [c1|e| |]; try done; cbn in Hr.
    + destruct Hr as (v1 & -> & S1). cbn [rbind]. apply IH; [lia|done].
    + by rewrite Hr.
  - assert (forall (A : Type) (a b : A), (match x with 91 => a | _ => b end) = b) as Hm.
    { intros A a b. destruct x as [|p|p]; try done. do 7 (destruct p as [p|p|]; try done). }
    rewrite !Hm. apply IH; [lia|done].
Qed.
End refinement.
