(* ===== verification/Interrupts.v ===== *)
(** * Interrupts, the timer chips and the serial port
    ([kernel/src/interrupts/], [kernel/src/drivers/pit.rs],
    [kernel/src/drivers/serial.rs])

    The interrupt descriptor table, the programming of the 8259 interrupt
    controllers, of the 8253 timer and of the 16550 UART through I/O ports, the
    assembly stub of the timer interrupt and the calibration of the time-stamp
    counter. *)

From S2P Require Import Prelude World Jit X86 Phys Virtio.

(** ** The descriptor table ([interrupts/idt.rs]) *)

Record IdtEntry := mkIdtEntry {
  offset_lo : Z; selector : Z; ist : Z; type_attr : Z; offset_mid : Z; offset_hi : Z; reserved : Z
}.

Definition missing : IdtEntry := mkIdtEntry 0 0 0 0 0 0 0.

Definition new_entry (handler : Z) : IdtEntry :=
  mkIdtEntry (as_u16 (Z.land handler 0xFFFF)) 0x08 0 0x8E
    (as_u16 (Z.land (Z.shiftr handler 16) 0xFFFF)) (as_u32 (Z.shiftr handler 32)) 0.

(** [repr(C, packed)]: the fields in order, without padding. *)
Definition entry_bytes (e : IdtEntry) : list Z :=
  to_le_bytes 2 (offset_lo e) ++ to_le_bytes 2 (selector e) ++ to_le_bytes 1 (ist e) ++ to_le_bytes 1 (type_attr e) ++
  to_le_bytes 2 (offset_mid e) ++ to_le_bytes 4 (offset_hi e) ++ to_le_bytes 4 (reserved e).

Definition SIZE_OF_IDT : Z := 256 * 16.

Record IdtDescriptor := mkDescriptor { idt_limit : Z; idt_base : Z }.

(** The table, the register [lidt] loads, the interrupt flag, and the machine
    behind the ports. *)
Record Irq (D : Type) := mkIrq { IDT : list IdtEntry; idtr : IdtDescriptor; IF : bool; io : Bus D }.
Arguments mkIrq {D}. Arguments IDT {D}. Arguments idtr {D}. Arguments IF {D}. Arguments io {D}.

Definition idt_static : list IdtEntry := replicate 256 missing.

Section ports.
Context {D : Type} `{PortIO D}.

Definition IRQ (A : Type) : Type := M (Irq D) unit A.

(** Port I/O from the boot code. *)
Definition on_io {A} (m : IO (D := D) A) : IRQ A :=
  fun s => let '(r, b) := m (io s) in (r, mkIrq (IDT s) (idtr s) (IF s) b).

(** [IDT.0[vec]] panics out of range. *)
Definition set_gate (vec : nat) (handler : Z) : IRQ unit := fun s =>
  if (vec <? length (IDT s))%nat then (Ok tt, mkIrq (<[vec := new_entry handler]> (IDT s)) (idtr s) (IF s) (io s))
  else (Panic, s).

(** [idt_addr] is the address of [IDT]. *)
Definition idt_load (idt_addr : Z) : IRQ unit :=
  modify (fun s => mkIrq (IDT s) (mkDescriptor (as_u16 (SIZE_OF_IDT - 1)) idt_addr) (IF s) (io s)).

Definition sti : IRQ unit := modify (fun s => mkIrq (IDT s) (idtr s) true (io s)).

(** ** The interrupt controllers and the timer ([drivers/pit.rs]) *)

Definition io_wait : IO (D := D) unit := outb 0x80 0.

Definition PIC1_CMD : Z := 0x20.
Definition PIC1_DATA : Z := 0x21.
Definition PIC2_CMD : Z := 0xA0.
Definition PIC2_DATA : Z := 0xA1.

Definition pic_remap : IO (D := D) unit :=
  do! outb PIC1_CMD 0x11 in do! io_wait in
  do! outb PIC2_CMD 0x11 in do! io_wait in
  do! outb PIC1_DATA 0x20 in do! io_wait in
  do! outb PIC2_DATA 0x28 in do! io_wait in
  do! outb PIC1_DATA 0x04 in do! io_wait in
  do! outb PIC2_DATA 0x02 in do! io_wait in
  do! outb PIC1_DATA 0x01 in do! io_wait in
  do! outb PIC2_DATA 0x01 in do! io_wait in
  do! outb PIC1_DATA 0xFE in
  outb PIC2_DATA 0xFF.

Definition PIT_CHANNEL0 : Z := 0x40.
Definition PIT_CMD : Z := 0x43.
Definition PIT_DIVISOR : Z := 1193.

Definition pit_init : IO (D := D) unit :=
  do! outb PIT_CMD 0x34 in
  do! outb PIT_CHANNEL0 (as_u8 (Z.land PIT_DIVISOR 0xFF)) in
  outb PIT_CHANNEL0 (as_u8 (Z.shiftr PIT_DIVISOR 8)).

(** [pit::init] *)
Definition timer_init : IRQ unit := do! on_io pic_remap in do! on_io pit_init in sti.

(** [interrupts::init]; [stub] is the address of [timer_isr_stub]. *)
Definition interrupts_init (idt_addr stub : Z) : IRQ unit :=
  do! set_gate 0x20 stub in do! idt_load idt_addr in timer_init.

(** [pit_on_tick] with the end of the interrupt it signals. *)
Definition on_tick (s : World * Bus D) : result unit unit * (World * Bus D) :=
  let w := pit_on_tick (fst s) in
  let '(r, b) := outb PIC1_CMD 0x20 (snd s) in (r, (w, b)).

(** ** The serial port ([drivers/serial.rs]) *)

Definition COM1 : Z := 0x3F8.
Definition OFF_DATA : Z := 0.
Definition OFF_IER : Z := 1.
Definition OFF_FCR : Z := 2.
Definition OFF_LCR : Z := 3.
Definition OFF_MCR : Z := 4.
Definition OFF_LSR : Z := 5.
Definition OFF_DLL : Z := 0.
Definition OFF_DLH : Z := 1.
Definition LSR_DATA_READY : Z := 0x01.

Definition serial_init : IO (D := D) unit :=
  do! outb (COM1 + OFF_IER) 0x00 in
  do! outb (COM1 + OFF_LCR) 0x80 in
  do! outb (COM1 + OFF_DLL) 0x01 in
  do! outb (COM1 + OFF_DLH) 0x00 in
  do! outb (COM1 + OFF_LCR) 0x03 in
  do! outb (COM1 + OFF_FCR) 0xC7 in
  outb (COM1 + OFF_MCR) 0x0B.

Definition write_byte (b : Z) : IO (D := D) unit := outb (COM1 + OFF_DATA) b.

Fixpoint write_str (s : list Z) : IO (D := D) unit :=
  match s with
  | [] => ret tt
  | b :: s' =>
    do! if b =? 10 then write_byte 13 else ret tt in
    do! write_byte b in write_str s'
  end.

Definition uart_read_byte : IO (D := D) (option Z) :=
  let! lsr := inb (COM1 + OFF_LSR) in
  if negb (Z.land lsr LSR_DATA_READY =? 0) then let! b := inb (COM1 + OFF_DATA) in ret (Some b) else ret None.
End ports.

(** ** The timer's stub ([interrupts/handlers.rs]) *)

Inductive stub_instr := SI (i : instr) | SCall | SIretq.

Definition timer_isr_stub : list stub_instr :=
  [SI (IPush Rax); SI (IPush Rcx); SI (IPush Rdx); SI (IPush Rsi); SI (IPush Rdi);
   SI (IPush R8); SI (IPush R9); SI (IPush R10); SI (IPush R11);
   SCall;
   SI (IPop R11); SI (IPop R10); SI (IPop R9); SI (IPop R8);
   SI (IPop Rdi); SI (IPop Rsi); SI (IPop Rdx); SI (IPop Rcx); SI (IPop Rax);
   SIretq].

(** ** Calibration ([calibrate_tsc] of [drivers/pit.rs]) *)

(** What happens between two instructions that look at a clock: cycles pass
    and timer interrupts are taken. [advance] takes the tick count and the
    time-stamp counter. *)
Class Clock := { advance : Z -> Z -> Z * Z }.

Definition pass `{Clock} (w : World) : World :=
  let '(t, c) := advance (TICK_COUNT w) (TSC w) in set_clock t c w.

(** [rdtsc]: the halves in [edx] and [eax]. *)
Definition rdtsc (w : World) : Z :=
  let lo := as_u32 (TSC w) in let hi := as_u32 (Z.shiftr (TSC w) 32) in Z.lor (Z.shiftl hi 32) lo.

Definition tsc_mhz (w : World) : Z := TSC_MHZ w.

Definition set_tsc (mhz boot : Z) (w : World) : World :=
  mkWorld (log w) (scancodes w) (SHIFT w) (PENDING_SLEEP_MS w) (ARGS_BUF w) (ARGS_LEN w) (OPCODE_COUNT w)
    (FUNC_CALL_COUNT w) (TICK_COUNT w) (TSC w) mhz boot (fs w) (NETWORK_STACK w).

Section calibration.
Context `{Clock}.

(** [while TICK_COUNT.load() == t {}] *)
Fixpoint spin_while_tick (fuel : nat) (t : Z) (w : World) : option World :=
  match fuel with
  | O => None
  | S fuel' => let w := pass w in if TICK_COUNT w =? t then spin_while_tick fuel' t w else Some w
  end.

Definition calibrate_tsc (fuel : nat) (w : World) : option World :=
  let t0 := TICK_COUNT w in
  match spin_while_tick fuel t0 w with
  | None => None
  | Some w =>
    let w := pass w in
    let tsc_start := rdtsc w in
    let w := pass w in
    let t1 := TICK_COUNT w in
    match spin_while_tick fuel t1 w with
    | None => None
    | Some w =>
      let w := pass w in
      let tsc_end := rdtsc w in
      let delta := Z.max 0 (tsc_end - tsc_start) in
      let mhz := Z.max (delta / 1000) 1 in
      Some (set_tsc mhz tsc_start w)
    end
  end.
End calibration.
