(* ===== verification/InterruptsSpec.v ===== *)
(** * The chips and the processor behind the interrupt code

    The reference the port writes and the descriptor table are judged by: the
    8259 interrupt controllers, channel 0 of the 8253 timer and the 16550 UART
    as their data sheets describe them, the delivery of an interrupt by a
    processor in 64-bit mode, and a clock. *)

From S2P Require Import Prelude World Vga Jit X86 Phys Virtio Interrupts.

(** ** 8259 *)

(** [expect] is the initialisation word the next write to the data port is
    taken as. *)
Record Pic := mkPic { expect : option nat; ic4 : bool; sngl : bool; icw2 : Z; icw3 : Z; icw4 : Z; imr : Z; in_service : Z }.

Definition pic_command (v : Z) (p : Pic) : Pic :=
  if Z.testbit v 4 then mkPic (Some 2%nat) (Z.testbit v 0) (Z.testbit v 1) (icw2 p) 0 0 0 0
  else if Z.testbit v 3 then p
  else if Z.shiftr v 5 =? 1 then
    (* the end of the interrupt of highest priority in service *)
    mkPic (expect p) (ic4 p) (sngl p) (icw2 p) (icw3 p) (icw4 p) (imr p) (Z.land (in_service p) (in_service p - 1))
  else p.

Definition last_icw (p : Pic) : option nat := if ic4 p then Some 4%nat else None.

Definition pic_data (v : Z) (p : Pic) : Pic :=
  match expect p with
  | Some 2%nat => mkPic (if sngl p then last_icw p else Some 3%nat) (ic4 p) (sngl p) (Z.land v 0xF8) (icw3 p) (icw4 p) (imr p) (in_service p)
  | Some 3%nat => mkPic (last_icw p) (ic4 p) (sngl p) (icw2 p) v (icw4 p) (imr p) (in_service p)
  | Some _ => mkPic None (ic4 p) (sngl p) (icw2 p) (icw3 p) v (imr p) (in_service p)
  | None => mkPic None (ic4 p) (sngl p) (icw2 p) (icw3 p) (icw4 p) v (in_service p)
  end.

(** A request on [line], with fully nested priorities: the vector, and the
    line is in service. *)
Definition pic_accept (line : Z) (p : Pic) : option (Z * Pic) :=
  if bool_decide (expect p = None) && negb (Z.testbit (imr p) line) && (Z.land (in_service p) (Z.ones (line + 1)) =? 0) then
    Some (icw2 p + line, mkPic None (ic4 p) (sngl p) (icw2 p) (icw3 p) (icw4 p) (imr p) (Z.lor (in_service p) (Z.shiftl 1 line)))
  else None.

(** ** 8253, channel 0 *)

Record Pit := mkPit { control : Z; low_byte : option Z; reload : Z }.

Definition pit_control (v : Z) (t : Pit) : Pit := if Z.shiftr v 6 =? 0 then mkPit v None (reload t) else t.

(** Low byte, then high byte. *)
Definition pit_count (v : Z) (t : Pit) : Pit :=
  if Z.land (Z.shiftr (control t) 4) 3 =? 3 then
    match low_byte t with
    | None => mkPit (control t) (Some v) (reload t)
    | Some l => mkPit (control t) None (l + 256 * v)
    end
  else t.

Definition pit_mode (t : Pit) : Z := Z.land (Z.shiftr (control t) 1) 7.

(** ** 16550 *)

Record Uart := mkUart { ier : Z; lcr : Z; dll : Z; dlh : Z; fcr : Z; mcr : Z; sent : list Z; received : list Z }.

Definition dlab (u : Uart) : bool := Z.testbit (lcr u) 7.

Definition uart_out (off v : Z) (u : Uart) : Uart :=
  match off with
  | 0 => if dlab u then mkUart (ier u) (lcr u) v (dlh u) (fcr u) (mcr u) (sent u) (received u)
         else mkUart (ier u) (lcr u) (dll u) (dlh u) (fcr u) (mcr u) (sent u ++ [v]) (received u)
  | 1 => if dlab u then mkUart (ier u) (lcr u) (dll u) v (fcr u) (mcr u) (sent u) (received u)
         else mkUart v (lcr u) (dll u) (dlh u) (fcr u) (mcr u) (sent u) (received u)
  | 2 => mkUart (ier u) (lcr u) (dll u) (dlh u) v (mcr u) (sent u) (if Z.testbit v 1 then [] else received u)
  | 3 => mkUart (ier u) v (dll u) (dlh u) (fcr u) (mcr u) (sent u) (received u)
  | 4 => mkUart (ier u) (lcr u) (dll u) (dlh u) (fcr u) v (sent u) (received u)
  | _ => u
  end.

(** The transmitter is always empty. *)
Definition uart_in (off : Z) (u : Uart) : Z * Uart :=
  match off with
  | 0 => if dlab u then (dll u, u) else
         match received u with
         | b :: bs => (b, mkUart (ier u) (lcr u) (dll u) (dlh u) (fcr u) (mcr u) (sent u) bs)
         | [] => (0, u)
         end
  | 5 => (match received u with [] => 0x60 | _ => 0x61 end, u)
  | _ => (0, u)
  end.

(** 115200 / divisor baud, eight data bits, no parity, one stop bit. *)
Definition baud (u : Uart) : Z := 115200 / (dll u + 256 * dlh u).
Definition is_8n1 (u : Uart) : bool := Z.land (lcr u) 0x3F =? 0x03.

(** ** The ports *)

Record Chipset := mkChips { pic1 : Pic; pic2 : Pic; pit : Pit; uart : Uart }.

Definition chip_out (port v : Z) (c : Chipset) : Chipset :=
  if port =? 0x20 then mkChips (pic_command v (pic1 c)) (pic2 c) (pit c) (uart c)
  else if port =? 0x21 then mkChips (pic_data v (pic1 c)) (pic2 c) (pit c) (uart c)
  else if port =? 0xA0 then mkChips (pic1 c) (pic_command v (pic2 c)) (pit c) (uart c)
  else if port =? 0xA1 then mkChips (pic1 c) (pic_data v (pic2 c)) (pit c) (uart c)
  else if port =? 0x43 then mkChips (pic1 c) (pic2 c) (pit_control v (pit c)) (uart c)
  else if port =? 0x40 then mkChips (pic1 c) (pic2 c) (pit_count v (pit c)) (uart c)
  else if (0x3F8 <=? port) && (port <? 0x400) then mkChips (pic1 c) (pic2 c) (pit c) (uart_out (port - 0x3F8) v (uart c))
  else c.

(** A port nobody answers at reads as ones. *)
Definition chip_in (n : nat) (port : Z) (c : Chipset) : Z * Chipset :=
  if (0x3F8 <=? port) && (port <? 0x400) then
    let '(v, u) := uart_in (port - 0x3F8) (uart c) in (v, mkChips (pic1 c) (pic2 c) (pit c) u)
  else (256 ^ Z.of_nat n - 1, c).

#[export] Instance chipset : PortIO Chipset := {
  port_in n port c := chip_in n port c;
  port_out _ port v m c := (m, chip_out port v c);
  device_turn m c := (m, c)
}.

(** The vector the processor is given for a request, [None] while it is held
    back. The second controller is on line 2 of the first. *)
Definition irq_vector (irq : Z) (c : Chipset) : option (Z * Chipset) :=
  if irq <? 8 then
    match pic_accept irq (pic1 c) with Some (v, p) => Some (v, mkChips p (pic2 c) (pit c) (uart c)) | None => None end
  else
    match pic_accept (irq - 8) (pic2 c), pic_accept 2 (pic1 c) with
    | Some (v, p2), Some (_, p1) => Some (v, mkChips p1 p2 (pit c) (uart c))
    | _, _ => None
    end.

(** ** Gates *)

(** A present interrupt gate: the address and the code segment. *)
Definition decode_gate (bs : list Z) : option (Z * Z) :=
  let at_ (from n : nat) := le_bytes (take n (drop from bs)) in
  let ty := at_ 5%nat 1%nat in
  if Z.testbit ty 7 && (Z.land ty 0x1F =? 0xE) then
    Some (at_ 0%nat 2%nat + 2 ^ 16 * at_ 6%nat 2%nat + 2 ^ 32 * at_ 8%nat 4%nat, at_ 2%nat 2%nat)
  else None.

(** What the processor finds for [vec] in the table its register points to;
    the bytes of [IDT] lie at [idt_addr]. *)
Definition gate {D} (idt_addr : Z) (s : Irq D) (vec : nat) : option (Z * Z) :=
  let image := concat (map entry_bytes (IDT s)) in
  if 16 * Z.of_nat vec + 15 <=? idt_limit (idtr s) then
    decode_gate (take 16 (drop (Z.to_nat (idt_base (idtr s) - idt_addr) + 16 * vec) image))
  else None.

Lemma entry_bytes_length e : length (entry_bytes e) = 16%nat.
Proof. unfold entry_bytes. rewrite !length_app, !to_le_bytes_length. reflexivity. Qed.

Lemma image_at (l : list IdtEntry) v e : l !! v = Some e ->
  take 16 (drop (16 * v) (concat (map entry_bytes l))) = entry_bytes e.
Proof.
  revert v. induction l as [|x l IH]; intros [|v] E; [done..| |]; cbn [map concat].
  - injection E as ->. rewrite Nat.mul_0_r, drop_0, (take_app_length' _ _ 16) by (symmetry; apply entry_bytes_length). reflexivity.
  - rewrite drop_app_ge by (rewrite entry_bytes_length; lia). rewrite entry_bytes_length, <- (IH v E).
    do 2 f_equal. lia.
Qed.

Lemma decode_missing : decode_gate (entry_bytes missing) = None.
Proof. reflexivity. Qed.

(** The three parts of an address. *)
Lemma address_parts h : 0 <= h < 2 ^ 64 ->
  h mod 2 ^ 16 + 2 ^ 16 * (h / 2 ^ 16 mod 2 ^ 16) + 2 ^ 32 * (h / 2 ^ 32) = h.
Proof.
  intros Hh. replace (h / 2 ^ 32) with (h / 65536 / 65536) by (rewrite Z.div_div by lia; reflexivity).
  change (2 ^ 16) with 65536. change (2 ^ 32) with (65536 * 65536).
  pose proof (Z.div_mod h 65536). pose proof (Z.div_mod (h / 65536) 65536). lia.
Qed.

Lemma decode_new h : 0 <= h < 2 ^ 64 -> decode_gate (entry_bytes (new_entry h)) = Some (h, 8).
Proof.
  intros Hh. rewrite <- (address_parts h Hh) at 2. unfold new_entry, as_u16, as_u32.
  change 0xFFFF with (Z.ones 16). rewrite !Z.land_ones, !Z.shiftr_div_pow2 by lia.
  change (2 ^ 64) with 18446744073709551616 in Hh. change (2 ^ 16) with 65536. change (2 ^ 32) with 4294967296.
  rewrite !Z.mod_mod, (Z.mod_small (h / 4294967296)) by zlia.
  assert (Hlo : 0 <= h mod 65536 < 65536) by (apply Z.mod_pos_bound; lia).
  assert (Hm : 0 <= h / 65536 mod 65536 < 65536) by (apply Z.mod_pos_bound; lia).
  assert (Hhi : 0 <= h / 4294967296 < 4294967296) by zlia.
  revert Hlo Hm Hhi. generalize (h mod 65536), (h / 65536 mod 65536), (h / 4294967296). intros lo mid hi Hlo Hm Hhi.
  transitivity (Some (le_bytes (to_le_bytes 2 lo) + 65536 * le_bytes (to_le_bytes 2 mid)
    + 4294967296 * le_bytes (to_le_bytes 4 hi), 8)); [reflexivity|].
  rewrite !le_bytes_to_le, !Z.mod_small by (simpl; lia). reflexivity.
Qed.

(** ** Delivery and return *)

(** The registers the stub's code touches and the ones an interrupt saves. *)
Record icpu := mkICpu { core : cpu; rflags : Z; cs : Z; ss : Z }.

Definition push (v : Z) (c : cpu) : option cpu :=
  let sp := as_u64 (regs c Rsp - 8) in
  match store64 sp v (words c) with Some m => Some (mkCpu (set_reg Rsp sp (regs c)) (rip c) m) | None => None end.

Fixpoint push_all (vs : list Z) (c : cpu) : option cpu :=
  match vs with [] => Some c | v :: vs' => match push v c with Some c' => push_all vs' c' | None => None end end.

(** The stack pointer is aligned, then [ss], [rsp], [rflags], [cs] and [rip]
    are pushed. *)
Definition deliver (handler sel : Z) (c : icpu) : option icpu :=
  let k := core c in
  let sp := regs k Rsp in
  let aligned := mkCpu (set_reg Rsp (sp - sp mod 16) (regs k)) (rip k) (words k) in
  match push_all [ss c; sp; rflags c; cs c; rip k] aligned with
  | Some k' => Some (mkICpu (mkCpu (regs k') handler (words k')) (Z.land (rflags c) (Z.lnot 512)) sel (ss c))
  | None => None
  end.

Definition iretq (c : icpu) : option icpu :=
  let k := core c in
  let at_ i := load64 (regs k Rsp + 8 * i) (words k) in
  match at_ 0, at_ 1, at_ 2, at_ 3, at_ 4 with
  | Some ip, Some s, Some fl, Some sp, Some st => Some (mkICpu (mkCpu (set_reg Rsp sp (regs k)) ip (words k)) fl s st)
  | _, _, _, _, _ => None
  end.

Section stub.
(** The code of [pit_on_tick], entered after its return address [ra] was
    pushed and left by its [ret]. *)
Context (ra : Z) (callee : cpu -> option cpu).

(** The stub is straight-line code: its addresses play no part. *)
Definition stub_step (i : stub_instr) (c : icpu) : option icpu :=
  let with_core o := match o with Some k => Some (mkICpu k (rflags c) (cs c) (ss c)) | None => None end in
  match i with
  | SI i => with_core (execute i (core c) (rip (core c)))
  | SCall => match push ra (core c) with Some k => with_core (callee k) | None => None end
  | SIretq => iretq c
  end.

Fixpoint run_stub (is_ : list stub_instr) (c : icpu) : option icpu :=
  match is_ with [] => Some c | i :: is' => match stub_step i c with Some c' => run_stub is' c' | None => None end end.
End stub.

(** *** Stack frames *)

Definition mapped (lo hi : Z) (c : cpu) : Prop := forall a, lo <= a < hi -> a mod 8 = 0 -> is_Some (words c a).

Lemma push_spec v c sp : regs c Rsp = sp -> sp mod 8 = 0 -> 8 <= sp < 2 ^ 64 -> is_Some (words c (sp - 8)) ->
  push v c = Some (mkCpu (set_reg Rsp (sp - 8) (regs c)) (rip c) (set_word (sp - 8) v (words c))).
Proof.
  intros E A B [x X]. unfold push, store64, load64. rewrite E. change (2 ^ 64) with 18446744073709551616 in B.
  unfold as_u64. rewrite (Z.mod_small (sp - 8) 18446744073709551616) by lia.
  replace ((sp - 8) mod 8 =? 0) with true by (symmetry; apply Z.eqb_eq; zlia). rewrite X. reflexivity.
Qed.

(** [c'] is [c] with [vs] on its stack. *)
Record pushed (vs : list Z) (c c' : cpu) : Prop := {
  ps_sp : regs c' Rsp = regs c Rsp - 8 * Z.of_nat (length vs);
  ps_regs r : r <> Rsp -> regs c' r = regs c r;
  ps_rip : rip c' = rip c;
  ps_in i v : vs !! i = Some v -> words c' (regs c Rsp - 8 * Z.of_nat (S i)) = Some v;
  ps_out a : a < regs c Rsp - 8 * Z.of_nat (length vs) \/ regs c Rsp <= a -> words c' a = words c a
}.

Lemma push_all_spec vs c : regs c Rsp mod 8 = 0 -> 8 * Z.of_nat (length vs) <= regs c Rsp < 2 ^ 64 ->
  mapped (regs c Rsp - 8 * Z.of_nat (length vs)) (regs c Rsp) c -> exists c', push_all vs c = Some c' /\ pushed vs c c'.
Proof.
  revert c. induction vs as [|v vs IH]; intros c A B Mp; cbn [push_all length] in *.
  { exists c. split; [done|]. split; cbn [length]; intros; [lia|done|done|done|done]. }
  rewrite (push_spec v c _ eq_refl A) by (try lia; apply Mp; zlia).
  set (c1 := mkCpu _ _ _).
  assert (E1 : regs c1 Rsp = regs c Rsp - 8) by reflexivity.
  assert (W1 : forall a, a <> regs c Rsp - 8 -> words c1 a = words c a).
  { intros a Ha. cbn. unfold set_word. destruct (Z.eqb_spec a (regs c Rsp - 8)); [lia|done]. }
  destruct (IH c1) as (c' & P & Hp); rewrite ?E1; [zlia|lia| |].
  { intros a Ha Hm. rewrite W1 by lia. apply Mp; [lia|done]. }
  exists c'. split; [exact P|]. destruct Hp as [q1 q2 q3 q4 q5]. rewrite E1 in *. split.
  - cbn [length]. lia.
  - intros r Hr. rewrite q2 by done. cbn. unfold set_reg. by rewrite bool_decide_eq_false_2.
  - done.
  - intros [|i] x Hx; cbn in Hx; simplify_eq.
    + rewrite q5 by lia. cbn. unfold set_word. by replace (_ =? _) with true by (symmetry; apply Z.eqb_eq; lia).
    + rewrite <- (q4 i x Hx). f_equal. lia.
  - cbn [length]. intros a Ha. rewrite q5 by lia. apply W1. lia.
Qed.

Section stub_lemmas.
Context (ra : Z) (callee : cpu -> option cpu).

Notation run := (run_stub ra callee).

(** The pushes of the stub. *)
Lemma run_pushes rs k c : Rsp ∉ rs ->
  run (map (fun r => SI (IPush r)) rs ++ k) c =
  match push_all (map (regs (core c)) rs) (core c) with
  | Some c' => run k (mkICpu c' (rflags c) (cs c) (ss c))
  | None => None
  end.
Proof.
  revert c. induction rs as [|r rs IH]; intros c Hn; [by destruct c|].
  apply not_elem_of_cons in Hn as [Hr Hn]. cbn [map app run_stub stub_step push_all].
  unfold execute, push. destruct (store64 _ _ _) as [m|]; [|done]. rewrite IH by done. cbn [core rflags cs ss].
  erewrite map_ext_in; [reflexivity|]. intros x Hx. cbn [regs]. unfold set_reg. rewrite bool_decide_eq_false_2; [done|].
  intros ->. apply Hn, list_elem_of_In, Hx.
Qed.

(** The pops of the stub. *)
Lemma run_pops rs k c (val : Reg -> Z) : Rsp ∉ rs -> NoDup rs -> regs (core c) Rsp mod 8 = 0 ->
  0 <= regs (core c) Rsp -> regs (core c) Rsp + 8 * Z.of_nat (length rs) < 2 ^ 64 ->
  (forall i r, rs !! i = Some r -> words (core c) (regs (core c) Rsp + 8 * Z.of_nat i) = Some (val r)) ->
  exists c', run (map (fun r => SI (IPop r)) rs ++ k) c = run k (mkICpu c' (rflags c) (cs c) (ss c)) /\
    regs c' Rsp = regs (core c) Rsp + 8 * Z.of_nat (length rs) /\ words c' = words (core c) /\
    (forall r, r <> Rsp -> regs c' r = if bool_decide (r ∈ rs) then val r else regs (core c) r).
Proof.
  revert c. induction rs as [|r rs IH]; intros c Hn ND A B0 B Hw.
  { exists (core c). split; [by destruct c|]. cbn. split_and!; [lia|done|]. intros r Hr. done. }
  apply not_elem_of_cons in Hn as [Hr Hn]. inversion ND as [|? ? Hf ND']; subst; clear ND; rename ND' into ND. cbn [length] in B.
  cbn [map app run_stub stub_step]. unfold execute, load64. rewrite A. cbn [Z.eqb].
  pose proof (Hw 0%nat r eq_refl) as W0. rewrite Z.mul_0_r, Z.add_0_r in W0. rewrite W0.
  set (c1 := mkICpu _ _ _ _).
  assert (E1 : regs (core c1) Rsp = regs (core c) Rsp + 8).
  { cbn. unfold set_reg. rewrite (bool_decide_eq_false_2 (Rsp = r)) by done. cbn. unfold as_u64.
    apply Z.mod_small. change (2 ^ 64) with 18446744073709551616 in B. lia. }
  destruct (IH c1) as (c' & R & P1 & P2 & P3); rewrite ?E1; try done; [zlia|lia|lia| |].
  { intros i x Hx. cbn [words c1 core]. rewrite <- (Hw (S i) x Hx). f_equal. lia. }
  exists c'. split; [exact R|]. rewrite E1 in P1. split_and!; [cbn [length]; lia|done|].
  intros x Hx. rewrite P3 by done. cbn [regs c1 core]. unfold set_reg. repeat case_bool_decide; rewrite ?elem_of_cons in *; naive_solver.
Qed.
End stub_lemmas.

(** *** The interrupt as the interrupted code sees it *)

(** What the calling convention promises of [pit_on_tick]: entered with the
    stack 8 bytes off a 16-byte boundary, it returns with the preserved
    registers as they were, having written only the [depth] bytes below its
    stack pointer and the word [tick]. *)
Definition sysv_callee (depth tick : Z) (callee : cpu -> option cpu) : Prop := forall c,
  regs c Rsp mod 16 = 8 -> mapped (regs c Rsp - depth) (regs c Rsp) c ->
  exists c', callee c = Some c' /\ regs c' Rsp = regs c Rsp + 8 /\
    (forall r, r ∈ [Rbx; Rbp; R12; R13; R14; R15] -> regs c' r = regs c r) /\
    (forall a, a <> tick -> a < regs c Rsp - depth \/ regs c Rsp <= a -> words c' a = words c a).

Definition saved_regs : list Reg := [Rax; Rcx; Rdx; Rsi; Rdi; R8; R9; R10; R11].

Lemma stub_shape : timer_isr_stub =
  map (fun r => SI (IPush r)) saved_regs ++ SCall :: map (fun r => SI (IPop r)) (rev saved_regs) ++ [SIretq].
Proof. reflexivity. Qed.

Lemma saved_no_rsp : Rsp ∉ saved_regs /\ Rsp ∉ rev saved_regs /\ NoDup (rev saved_regs).
Proof. split_and!; apply (bool_decide_unpack _); reflexivity. Qed.

Lemma saved_rev i r : rev saved_regs !! i = Some r -> saved_regs !! (8 - i)%nat = Some r /\ (i < 9)%nat.
Proof. intros Hr. do 9 (destruct i as [|i]; [split; [exact Hr|lia]|]). discriminate. Qed.

Lemma iretq_frame frame c : regs (core c) Rsp mod 8 = 0 -> length frame = 5%nat ->
  (forall i v, frame !! i = Some v -> words (core c) (regs (core c) Rsp + 8 * Z.of_nat i) = Some v) ->
  exists c', iretq c = Some c' /\ frame = [rip (core c'); cs c'; rflags c'; regs (core c') Rsp; ss c'] /\
    (forall r, r <> Rsp -> regs (core c') r = regs (core c) r) /\ words (core c') = words (core c).
Proof.
  intros A Lf Hf. destruct frame as [|f0 [|f1 [|f2 [|f3 [|f4 [|]]]]]]; try done.
  assert (H8 : forall i, load64 (regs (core c) Rsp + 8 * i) (words (core c)) = words (core c) (regs (core c) Rsp + 8 * i)).
  { intros i. unfold load64. replace (_ mod 8 =? 0) with true; [done|]. symmetry. apply Z.eqb_eq. zlia. }
  unfold iretq. rewrite !H8.
  assert (Hz : forall z v, 0 <= z -> [f0; f1; f2; f3; f4] !! Z.to_nat z = Some v ->
    words (core c) (regs (core c) Rsp + 8 * z) = Some v).
  { intros z v Hz Hv. rewrite <- (Z2Nat.id z) by done. by apply Hf. }
  rewrite (Hz 0 f0), (Hz 1 f1), (Hz 2 f2), (Hz 3 f3), (Hz 4 f4) by done.
  eexists. split_and!; [done..| |done]. intros r Hr. cbn. unfold set_reg. by rewrite bool_decide_eq_false_2.
Qed.

(** The frame the processor built, under the frame of the stub. *)
Lemma stub_returns ra callee depth tick c frame : sysv_callee depth tick callee -> 0 <= depth ->
  let sp := regs (core c) Rsp in
  sp mod 16 = 8 -> 80 + depth <= sp -> sp + 40 < 2 ^ 64 -> mapped (sp - 80 - depth) sp (core c) ->
  tick < sp - 80 - depth \/ sp + 40 <= tick -> length frame = 5%nat ->
  (forall i v, frame !! i = Some v -> words (core c) (sp + 8 * Z.of_nat i) = Some v) ->
  exists c', run_stub ra callee timer_isr_stub c = Some c' /\
    frame = [rip (core c'); cs c'; rflags c'; regs (core c') Rsp; ss c'] /\
    (forall r, r <> Rsp -> regs (core c') r = regs (core c) r) /\
    (forall a, a <> tick -> a < sp - 80 - depth \/ sp <= a -> words (core c') a = words (core c) a).
Proof.
  intros Hc Hd sp A B0 B Mp Ht Lf Hf. rewrite stub_shape.
  destruct (push_all_spec (map (regs (core c)) saved_regs) (core c)) as (c1 & E1 & P1);
    fold sp; change (Z.of_nat (length (map _ saved_regs))) with 9; [zlia|lia|..].
  { intros a Ha Hm. apply Mp; [lia|done]. }
  rewrite run_pushes by apply saved_no_rsp. rewrite E1. destruct P1 as [p1 p2 p3 p4 p5]. fold sp in p1, p4, p5.
  change (Z.of_nat (length (map _ saved_regs))) with 9 in *.
  cbn [run_stub stub_step core rflags cs ss].
  rewrite (push_spec ra c1 _ p1) by (try zlia; rewrite p5 by lia; apply Mp; zlia).
  set (c2 := mkCpu _ _ _).
  assert (E2 : regs c2 Rsp = sp - 80) by (cbn; unfold set_reg; rewrite bool_decide_eq_true_2 by done; lia).
  assert (W2 : forall a, a <> sp - 80 -> words c2 a = words c1 a).
  { intros a Ha. cbn. unfold set_word. destruct (Z.eqb_spec a (sp - 8 * 9 - 8)); [lia|done]. }
  destruct (Hc c2) as (c3 & E3 & s3 & r3 & w3).
  { rewrite E2. zlia. }
  { rewrite E2. intros a Ha Hm. rewrite W2, p5 by lia. apply Mp; [lia|done]. }
  rewrite E3. rewrite E2 in s3, w3.
  edestruct (run_pops ra callee (rev saved_regs) [SIretq] (mkICpu c3 (rflags c) (cs c) (ss c)) (regs (core c)))
    as (c4 & -> & s4 & w4 & r4); cbn [core rflags cs ss]; rewrite ?s3; try lia.
  { apply saved_no_rsp. }
  { apply saved_no_rsp. }
  { zlia. }
  { change (length (rev saved_regs)) with 9%nat. lia. }
  { intros i r Hr. destruct (saved_rev i r Hr) as [Hs Hi]. rewrite w3, W2 by lia.
    rewrite <- (p4 (8 - i)%nat (regs (core c) r)) by (rewrite list_lookup_fmap, Hs; reflexivity). f_equal. lia. }
  cbn [core] in s4, w4, r4. rewrite s3 in s4. change (Z.of_nat (length (rev saved_regs))) with 9 in s4.
  cbn [run_stub stub_step].
  destruct (iretq_frame frame (mkICpu c4 (rflags c) (cs c) (ss c))) as (c' & -> & F & R & W); cbn [core]; [zlia|done| |].
  { intros i v Hi. pose proof (lookup_lt_Some _ _ _ Hi) as Li. rewrite w4, w3, W2, p5 by lia.
    rewrite <- (Hf i v Hi). f_equal. lia. }
  exists c'. split_and!; [done..| |].
  - intros r Hr. rewrite R by done. cbn [core]. rewrite r4 by done. case_bool_decide as Hs; [done|].
    assert (Hr' : r ∈ [Rbx; Rbp; R12; R13; R14; R15]).
    { rewrite !elem_of_cons. destruct r; first [tauto | exfalso; apply Hs, (bool_decide_unpack _); reflexivity]. }
    rewrite r3 by done. cbn. unfold set_reg. rewrite bool_decide_eq_false_2 by done. by apply p2.
  - intros a Hn Ha. rewrite W. cbn [core]. rewrite w4, w3, W2, p5 by lia. done.
Qed.

(** The whole interrupt: the interrupted code resumes with every register as it
    was, and memory is as it was but for the counter [tick] and what lay below
    the stack pointer. *)
Lemma interrupt_returns ra callee depth tick handler sel c : sysv_callee depth tick callee -> 0 <= depth ->
  let sp := regs (core c) Rsp in
  let low := sp - sp mod 16 - 120 - depth in
  0 <= low -> sp < 2 ^ 64 -> mapped low sp (core c) -> tick < low \/ sp <= tick ->
  exists c1 c2, deliver handler sel c = Some c1 /\ rip (core c1) = handler /\ cs c1 = sel /\
    run_stub ra callee timer_isr_stub c1 = Some c2 /\
    (forall r, regs (core c2) r = regs (core c) r) /\ rip (core c2) = rip (core c) /\
    rflags c2 = rflags c /\ cs c2 = cs c /\ ss c2 = ss c /\
    (forall a, a <> tick -> a < low \/ sp <= a -> words (core c2) a = words (core c) a).
Proof.
  intros Hc Hd sp low H0 H64 Mp Ht. pose proof (Z.mod_pos_bound sp 16 ltac:(lia)) as Hm.
  unfold deliver. fold sp. set (al := mkCpu _ _ _).
  assert (Ea : regs al Rsp = sp - sp mod 16) by reflexivity.
  destruct (push_all_spec [ss c; sp; rflags c; cs c; rip (core c)] al) as (k & -> & [p1 p2 p3 p4 p5]);
    rewrite ?Ea; cbn [length]; [zlia|lia|intros a Ha Ma; apply Mp; [lia|done]|].
  rewrite Ea in *. cbn [length] in *.
  eexists. destruct (stub_returns ra callee depth tick
    (mkICpu (mkCpu (regs k) handler (words k)) (Z.land (rflags c) (Z.lnot 512)) sel (ss c))
    [rip (core c); cs c; rflags c; sp; ss c] Hc Hd) as (c2 & R & F & G & W); cbn [core regs words]; rewrite ?p1; try lia.
  - zlia.
  - intros a Ha Ma. cbn [words]. rewrite p5 by lia. apply Mp; [lia|done].
  - done.
  - intros i v Hv. pose proof (lookup_lt_Some _ _ _ Hv) as Li. cbn in Li.
    rewrite <- (p4 (4 - i)%nat v); [f_equal; lia|].
    do 5 (destruct i as [|i]; [exact Hv|]). discriminate.
  - exists c2. cbn [core regs words] in *. rewrite ?p1 in *. injection F as F1 F2 F3 F4 F5. split_and!; try done.
    + intros r. destruct (decide (r = Rsp)) as [->|Hr]; [by rewrite <- F4|]. rewrite G, p2 by done. cbn. unfold set_reg.
      by rewrite bool_decide_eq_false_2.
    + intros a Hn Ha. rewrite W, p5 by lia. done.
Qed.

(** ** A clock *)

(** A time-stamp counter that advances by 1 to [g] cycles between two looks,
    and a tick every [P] cycles. *)
Class ClockOk `{Clock} (P g : Z) := {
  tick_at : Z -> Z -> Prop;
  tick_after : Z -> Z -> Z;
  clock_params : 0 < g /\ 3 * g <= P;
  tick_bounds t c : tick_at t c -> 0 <= c < tick_after t c /\ tick_after t c <= c + P;
  advance_ok t c t' c' : tick_at t c -> c + g < 2 ^ 64 -> advance t c = (t', c') ->
    tick_at t' c' /\ c < c' <= c + g /\
    if c' <? tick_after t c then t' = t /\ tick_after t' c' = tick_after t c
    else t' <> t /\ tick_after t' c' = tick_after t c + P
}.

Definition on_time `{ClockOk} (w : World) : Prop := tick_at (TICK_COUNT w) (TSC w).
Definition next_tick `{ClockOk} (w : World) : Z := tick_after (TICK_COUNT w) (TSC w).

Lemma rdtsc_tsc w : 0 <= TSC w < 2 ^ 64 -> rdtsc w = TSC w.
Proof.
  intros Hw. change (2 ^ 64) with 18446744073709551616 in Hw. unfold rdtsc, as_u32. rewrite Z.shiftr_div_pow2 by lia.
  change (2 ^ 32) with 4294967296. rewrite (Z.mod_small (_ / _)) by zlia.
  rewrite Z.shiftl_mul_pow2, Z.lor_comm, lor_disjoint by (try lia; apply Z.mod_pos_bound; lia).
  change (2 ^ 32) with 4294967296. pose proof (Z.div_mod (TSC w) 4294967296). lia.
Qed.

(** [w'] is [w] at a later time. *)
Definition later (w w' : World) : Prop := w' = set_clock (TICK_COUNT w') (TSC w') w.

#[export] Instance later_preorder : PreOrder later.
Proof. split; [intros []; reflexivity|]. intros a b c Hb Hc. unfold later in *. by rewrite Hc, Hb. Qed.

Lemma pass_only `{Clock} w : later w (pass w).
Proof. unfold later, pass. by destruct (advance _ _). Qed.

Section clock.
Context `{Clock} {P g : Z} `{!ClockOk P g}.

Lemma on_time_tsc w : on_time w -> 0 <= TSC w < next_tick w /\ next_tick w <= TSC w + P.
Proof. apply tick_bounds. Qed.

Lemma pass_ok w : on_time w -> TSC w + g < 2 ^ 64 ->
  on_time (pass w) /\ TSC w < TSC (pass w) <= TSC w + g /\
  if TSC (pass w) <? next_tick w then TICK_COUNT (pass w) = TICK_COUNT w /\ next_tick (pass w) = next_tick w
  else TICK_COUNT (pass w) <> TICK_COUNT w /\ next_tick (pass w) = next_tick w + P.
Proof.
  intros Hw H64. unfold on_time, next_tick, pass in *. destruct (advance _ _) as [t' c'] eqn:E.
  by apply advance_ok.
Qed.

(** A pass that reaches no tick. *)
Lemma pass_quiet w : on_time w -> TSC w + g < 2 ^ 64 -> TSC w + g < next_tick w ->
  on_time (pass w) /\ TSC w < TSC (pass w) <= TSC w + g /\ TICK_COUNT (pass w) = TICK_COUNT w /\
  next_tick (pass w) = next_tick w /\ later w (pass w).
Proof.
  intros Hw H64 Hn. destruct (pass_ok w Hw H64) as (Hk & Hp & Ht).
  destruct (Z.ltb_spec (TSC (pass w)) (next_tick w)); [|lia]. destruct Ht.
  split_and!; first [done | lia | apply pass_only].
Qed.

(** The wait ends just after the next tick. *)
Lemma spin_ends fuel w : on_time w -> next_tick w + g < 2 ^ 64 -> next_tick w - TSC w <= Z.of_nat fuel ->
  exists w', spin_while_tick fuel (TICK_COUNT w) w = Some w' /\ on_time w' /\ later w w' /\
    next_tick w <= TSC w' < next_tick w + g /\ next_tick w' = next_tick w + P.
Proof.
  revert w. induction fuel as [|fuel IH]; intros w Hw H64 Hf; pose proof (on_time_tsc w Hw) as Hb; [lia|].
  cbn [spin_while_tick]. assert (H64' : TSC w + g < 2 ^ 64) by lia.
  destruct (pass_ok w Hw H64') as (Hk & Hp & Ht).
  destruct (Z.ltb_spec (TSC (pass w)) (next_tick w)) as [Hlt|Hge]; destruct Ht as [T1 T2].
  - rewrite T1, Z.eqb_refl. rewrite <- T1. destruct (IH (pass w)) as (w' & E & A & B & C); rewrite ?T2 in *; [done|lia|lia|].
    exists w'. split_and!; try done; try apply C. etrans; [apply pass_only|done].
  - rewrite (proj2 (Z.eqb_neq _ _) T1). exists (pass w). split_and!; try done; try lia. apply pass_only.
Qed.

(** The measured interval. *)
Lemma calibrate_spec fuel w : on_time w -> TSC w + 3 * P < 2 ^ 64 -> P <= Z.of_nat fuel ->
  exists w2 w', calibrate_tsc fuel w = Some w' /\ on_time w2 /\ later w w2 /\
    exists delta, P - 2 * g < delta < P + 2 * g /\
      w' = set_tsc (Z.max (delta / 1000) 1) (TSC w2 - delta) w2 /\
      next_tick w < TSC w2 - delta < next_tick w + 2 * g.
Proof.
  intros Hw H64 Hf. destruct (clock_params (P := P) (g := g)) as [Hg H3]. pose proof (on_time_tsc w Hw) as [Hb1 Hb2].
  destruct (spin_ends fuel w) as (w1 & E1 & O1 & L1 & T1 & N1); [done|lia|lia|].
  destruct (pass_quiet w1) as (O2 & T2 & C2 & N2 & L2); [done|lia|lia|].
  destruct (pass_quiet (pass w1)) as (O3 & T3 & C3 & N3 & L3); [done|lia|lia|].
  destruct (spin_ends fuel (pass (pass w1))) as (w4 & E4 & O4 & L4 & T4 & N4); [done|lia|lia|].
  destruct (pass_quiet w4) as (O5 & T5 & C5 & N5 & L5); [done|lia|lia|].
  unfold calibrate_tsc. rewrite E1, E4, !rdtsc_tsc by lia.
  exists (pass w4). eexists. split; [reflexivity|]. split_and!; [done| |].
  { rewrite L1, L2, L3, L4. exact L5. }
  exists (TSC (pass w4) - TSC (pass w1)). split_and!; try lia. rewrite (Z.max_r 0) by lia. f_equal. lia.
Qed.
End clock.

(** ** The chips after initialisation *)

Definition pic_ready (vectors cascade mask : Z) : Pic := mkPic None true false vectors cascade 1 mask 0.

Lemma interrupts_init_run idt_addr stub d f m (c : Chipset) sd :
  interrupts_init idt_addr stub (mkIrq idt_static d f (mkBus m c sd)) =
  (Ok tt, mkIrq (<[32%nat := new_entry stub]> idt_static) (mkDescriptor 4095 idt_addr) true
    (mkBus m (mkChips (pic_ready 0x20 4 0xFE) (pic_ready 0x28 2 0xFF) (mkPit 0x34 None 1193) (uart c)) sd)).
Proof. reflexivity. Qed.

Lemma gate_after_init {D} idt_addr stub i b v : 0 <= stub < 2 ^ 64 -> (v < 256)%nat ->
  gate idt_addr (mkIrq (D := D) (<[32%nat := new_entry stub]> idt_static) (mkDescriptor 4095 idt_addr) i b) v =
  if (v =? 32)%nat then Some (stub, 8) else None.
Proof.
  intros Hs Hv. unfold gate. cbn [IDT idtr idt_limit idt_base]. rewrite (proj2 (Z.leb_le _ _)) by lia.
  rewrite Z.sub_diag. change (Z.to_nat 0 + 16 * v)%nat with (16 * v)%nat.
  destruct (Nat.eqb_spec v 32) as [->|Hn].
  - rewrite (image_at _ _ (new_entry stub)) by (apply list_lookup_insert_eq; vm_compute; lia). by apply decode_new.
  - rewrite (image_at _ _ missing); [apply decode_missing|].
    rewrite list_lookup_insert_ne by lia. by apply lookup_replicate_2.
Qed.

(** The serial line. *)
Definition uart_set (u : Uart) : Uart := mkUart (if dlab u then ier u else 0) 0x03 1 0 0xC7 0x0B (sent u) [].

Lemma serial_init_run m (c : Chipset) sd : serial_init (mkBus m c sd) =
  (Ok tt, mkBus m (mkChips (pic1 c) (pic2 c) (pit c) (uart_set (uart c))) sd).
Proof.
  transitivity (Ok (E := unit) tt, mkBus m (mkChips (pic1 c) (pic2 c) (pit c) (fold_left (fun u x => uart_out (fst x) (snd x) u)
    [(1, 0); (3, 0x80); (0, 1); (1, 0); (3, 3); (2, 0xC7); (4, 0x0B)] (uart c))) sd); [reflexivity|].
  cbn [fold_left fst snd]. unfold uart_set, uart_out at 7. by destruct (dlab (uart c)).
Qed.

Definition line_sent (bs : list Z) (c : Chipset) : Chipset :=
  let u := uart c in
  mkChips (pic1 c) (pic2 c) (pit c) (mkUart (ier u) (lcr u) (dll u) (dlh u) (fcr u) (mcr u) (sent u ++ bs) (received u)).

Lemma write_byte_run b m (c : Chipset) sd : dlab (uart c) = false ->
  write_byte b (mkBus m c sd) = (Ok tt, mkBus m (line_sent [b] c) sd).
Proof.
  intros E. transitivity (Ok (E := unit) tt, mkBus m (mkChips (pic1 c) (pic2 c) (pit c) (uart_out 0 b (uart c))) sd); [reflexivity|].
  unfold uart_out. by rewrite E.
Qed.

Lemma line_sent_app xs ys c : line_sent ys (line_sent xs c) = line_sent (xs ++ ys) c.
Proof. unfold line_sent. cbn. by rewrite app_assoc. Qed.

Lemma write_str_run s m (c : Chipset) sd : dlab (uart c) = false ->
  write_str s (mkBus m c sd) = (Ok tt, mkBus m (line_sent (serial_write_str s) c) sd).
Proof.
  revert c. induction s as [|b s IH]; intros c E.
  { cbn. unfold line_sent. rewrite app_nil_r. by destruct c as [? ? ? []]. }
  cbn [write_str serial_write_str flat_map]. unfold bind at 1.
  destruct (b =? 10).
  - rewrite write_byte_run by done. unfold bind. rewrite write_byte_run by done. rewrite IH by done.
    by rewrite !line_sent_app.
  - unfold ret, bind. rewrite write_byte_run by done. rewrite IH by done. by rewrite line_sent_app.
Qed.

Lemma uart_inb off m (c : Chipset) sd : 0 <= off < 8 -> inb (COM1 + off) (mkBus m c sd) =
  (Ok (fst (uart_in off (uart c))), mkBus m (mkChips (pic1 c) (pic2 c) (pit c) (snd (uart_in off (uart c)))) sd).
Proof.
  intros Ho. unfold inb, in_n. cbn [port_in chipset dv pm said]. unfold chip_in, COM1.
  rewrite (proj2 (Z.leb_le _ _)), (proj2 (Z.ltb_lt _ _)) by lia. cbn [andb].
  replace (0x3F8 + off - 0x3F8) with off by lia. by destruct (uart_in off (uart c)).
Qed.

Lemma uart_read_run m (c : Chipset) sd : dlab (uart c) = false ->
  uart_read_byte (mkBus m c sd) =
  match received (uart c) with
  | [] => (Ok None, mkBus m c sd)
  | b :: bs => let u := uart c in (Ok (Some b), mkBus m (mkChips (pic1 c) (pic2 c) (pit c)
      (mkUart (ier u) (lcr u) (dll u) (dlh u) (fcr u) (mcr u) (sent u) bs)) sd)
  end.
Proof.
  intros E. destruct c as [p1 p2 t u]. cbn [uart pic1 pic2 pit] in *. unfold uart_read_byte, bind.
  rewrite uart_inb by (vm_compute; split; congruence). cbn [uart pic1 pic2 pit].
  change (uart_in OFF_LSR u) with (match received u with [] => 0x60 | _ => 0x61 end, u). cbn [fst snd].
  destruct (received u) as [|r rs] eqn:R.
  - by change (negb (Z.land 0x60 LSR_DATA_READY =? 0)) with false.
  - change (negb (Z.land 0x61 LSR_DATA_READY =? 0)) with true. cbv beta iota.
    rewrite uart_inb by (vm_compute; split; congruence). cbn [uart pic1 pic2 pit].
    unfold uart_in. cbn [OFF_DATA]. by rewrite E, R.
Qed.
