(* ===== verification/Boot.v ===== *)
(** * The start of the kernel ([kernel/src/main.rs])

    [kernel_main] up to and into the scheduler's loop, with the loading of the
    FAT volume's files ([load_fat_files_to_table] of [kernel/src/fs/mod.rs]) and
    the start of the network ([try_init_network] of
    [kernel/src/drivers/netstack/mod.rs]). The machine the drivers talk to is one
    bus; from its mount on, the FAT volume keeps the machine as its own driver
    sees it: the two drivers use different ports and different buffers. *)

From S2P Require Import Prelude Loader FileTable Opcode FloatOps NetStack World Text Editor.
From S2P Require Import Machine Dispatch Host Engine Task Block Fat ShellText Shell Vga.
From S2P Require Import Jit Phys Paging Virtio VirtioBlk VirtioNic Interrupts.

(** What the boot loader hands over. *)
Record BootInfo := mkBootInfo {
  framebuffer : option (slice * FrameBufferInfo);
  physical_memory_offset : option Z
}.

(** Where the linker put the table, the stub and the code buffer, and where the
    boot loader maps physical memory. *)
Class Layout := { idt_addr : Z; stub_addr : Z; jit_addr : Z; window_addr : Z }.

(** [{:x}] *)
Fixpoint hex_text (fuel : nat) (n : Z) (acc : list Z) : list Z :=
  let acc := nth (Z.to_nat (n mod 16)) hex_low 0 :: acc in
  match fuel with
  | O => acc
  | S fuel' => if n / 16 =? 0 then acc else hex_text fuel' (n / 16) acc
  end.
Definition show_hex (n : Z) : list Z := hex_text 15 n [].

Section boot.
Context {V1 V2 D : Type} `{FatFs V1} `{FatFs V2} `{PortIO D}.
Context `{Layout} `{BlkStatics} `{NicStatics} `{Clock}.

(** The shell and all below it, the interrupt state and the machine,
    [PHYS_MEM_OFFSET], the page table register and the console. *)
Record Boot := mkBoot { b_sh : Sh V1 V2; b_irq : Irq D; b_offset : Z; b_cr3 : Z; b_screen : WRITER }.

Definition B (A : Type) : Type := M Boot unit A.

Definition on_shell {A} (m : SH A) : B A := fun b =>
  let '(r, s) := m (b_sh b) in (r, mkBoot s (b_irq b) (b_offset b) (b_cr3 b) (b_screen b)).
Definition on_irq {A} (m : IRQ (D := D) A) : B A := fun b =>
  let '(r, i) := m (b_irq b) in (r, mkBoot (b_sh b) i (b_offset b) (b_cr3 b) (b_screen b)).
Definition on_machine {A} (m : IO (D := D) A) : B A := on_irq (on_io m).

Definition kprintln (s : list Z) : B unit := on_shell (sprintln s).

(** The memory as the paging code sees it. *)
Definition boot_mem (b : Boot) : Mem := mkMem (b_offset b) (b_cr3 b) (pm (io (b_irq b))).
Definition on_mem (f : Mem -> Mem) : B unit := modify (fun b =>
  let k := f (boot_mem b) in
  let i := b_irq b in
  mkBoot (b_sh b) (mkIrq (IDT i) (idtr i) (IF i) (mkBus (ram k) (dv (io i)) (Virtio.said (io i))))
    (PHYS_MEM_OFFSET k) (b_cr3 b) (b_screen b)).

(** [virt_to_phys] on the tables as they are. *)
Definition address_space : B AddressSpace :=
  gets (fun b => {| phys_of v := default 0 (virt_to_phys window_addr v (boot_mem b)) |}).

Definition init_screen (fb : option (slice * FrameBufferInfo)) : B unit :=
  match fb with
  | None => ret tt
  | Some (buf, info) => fun b =>
    match vga_init buf info with
    | Ok w => (Ok tt, mkBoot (b_sh b) (b_irq b) (b_offset b) (b_cr3 b) w)
    | Err e => (Err e, b)
    | Panic => (Panic, b)
    | OutOfFuel => (OutOfFuel, b)
    end
  end.

Definition calibrate (fuel : nat) : B unit := on_shell (fun s =>
  match calibrate_tsc fuel (the_world s) with
  | Some w => on_world (fun _ => w) s
  | None => (OutOfFuel, s)
  end).

(** ** The file table *)

Definition load_file (raw : list Z) : SH (V1 := V1) (V2 := V2) unit :=
  let nm := default [] (from_utf8 raw) in
  if bool_decide (nm = []) then ret tt else
  let! o := on_vol (fat_read_file nm) in
  match o with
  | None => ret tt
  | Some bs =>
    on_world (fun w =>
      match alloc_disk_slot (Z.of_nat (length bs)) (fs w) with
      | (Some base, st) => set_fs (register_file nm (DBuf base (Z.of_nat (length bs))) (fill_disk_slot base bs st)) w
      | (None, st) => set_fs st w
      end)
  end.

Fixpoint load_files (names : list (list Z)) : SH (V1 := V1) (V2 := V2) unit :=
  match names with [] => ret tt | nm :: names' => do! load_file nm in load_files names' end.

Definition load_volume : SH (V1 := V1) (V2 := V2) unit :=
  let! es := on_vol fat_list in load_files (map (fun e => take 64 e.1) (take DISK_SLOTS es)).

(** ** The network *)

Section network.
(** What the card will deliver, as the stack's model of the driver keeps it. *)
Context (card : Nic -> Bus D -> VirtioNet).

Definition try_init_network : B bool :=
  let! space := address_space in
  let! o := on_machine nic_try_init in
  match o with
  | None => ret false
  | Some h =>
    let! mac := on_machine (fun b => let '(r, s) := get_mac (h, b) in (r, s.2)) in
    let! up := on_machine (fun b => let '(r, s) := is_link_up (h, b) in (r, s.2)) in
    let! bus := gets (fun b => io (b_irq b)) in
    match init_stack (card h bus) mac up with
    | (Ok _, s) | (Err _, s) =>
      do! on_shell (on_world (fun w => set_network (Some (stack s)) (set_log (log w ++ map Print (NetStack.said s)) w))) in
      ret true
    | (Panic, _) => panic
    | (OutOfFuel, _) => lift OutOfFuel
    end
  end.

(** [s.poll(); s.is_dhcp_bound()], at most [n] times. *)
Fixpoint dhcp_wait (n : nat) : SH (V1 := V1) (V2 := V2) unit :=
  match n with
  | O => ret tt
  | S n' => fun s =>
    let try_poll := fun st => match poll st with (Ok _, st') | (Err _, st') => (Ok tt, st') | (Panic, st') => (Panic, st') | (OutOfFuel, st') => (OutOfFuel, st') end in
    let '(r, w) := with_network (do! try_poll in gets (fun st => is_dhcp_bound (stack st))) (the_world s) in
    let s' := (on_world (fun _ => w) s).2 in
    match r with
    | Some (Ok true) => (Ok tt, s')
    | Some Panic => (Panic, s')
    | Some OutOfFuel => (OutOfFuel, s')
    | _ => dhcp_wait n' s'
    end
  end.

Definition DHCP_POLLS : nat := Z.to_nat 100000.

(** ** The boot sequence *)

(** The crate's [FileSystem::new] on either device, and the embedded image. *)
Context (new_ram : BlockIo RamDisk -> result unit V1) (new_blk : BlockIo (VirtioBlk * Bus D) -> result unit V2) (FS_IMG : list Z).

Definition mount_volume : B unit :=
  let! space := address_space in
  let! blk := on_machine blk_try_init in
  let! mounted :=
    match blk with
    | Some h =>
      let! bus := gets (fun b => io (b_irq b)) in
      let! ok := on_shell (on_vol (mount_virtio new_blk (h, bus))) in
      if ok : bool then do! kprintln (str "virtio-blk: FAT volume mounted") in ret true
      else do! kprintln (str "virtio-blk: FAT mount failed, falling back to embedded image") in ret false
    | None => ret false
    end in
  if mounted : bool then ret tt else
  let! ok := on_shell (on_vol (mount_ramdisk new_ram FS_IMG)) in
  if ok : bool then kprintln (str "ramdisk: FAT volume mounted (" ++ show_usize (length FS_IMG) ++ str " bytes)")
  else kprintln (str "ramdisk: FAT mount failed (image may be empty)").

Definition start_network : B unit :=
  let! up := try_init_network in
  if up : bool then do! on_shell (dhcp_wait DHCP_POLLS) in kprintln (str "network: initialized")
  else kprintln (str "network: not available (no virtio-net device)").

(** Without the offset the kernel stops in an endless loop. *)
Definition kernel_main (fuel : nat) (boot_info : BootInfo) : B unit :=
  do! on_shell (on_world (fun w => set_fs (fs_init (fs w)) w)) in
  do! on_machine serial_init in
  do! on_irq (interrupts_init idt_addr stub_addr) in
  do! on_shell (modify (fun s => set_sys (set_kern (init_host_fns (kern (sys s))) (sys s)) s)) in
  do! init_screen (framebuffer boot_info) in
  do! kprintln (str "vga::init - framebuffer") in
  match physical_memory_offset boot_info with
  | None => do! kprintln (str "[mem] FATAL: physical_memory_offset not provided by bootloader") in lift OutOfFuel
  | Some off =>
    do! kprintln (str "[mem] phys_mem_offset=0x" ++ show_hex off) in
    do! kprintln (str "memory::init") in
    do! on_mem (mem_init off) in
    do! on_mem (make_jit_executable window_addr jit_addr) in
    do! kprintln (str "jit: code buffer marked executable (" ++ show_u64 (JIT_BUF_SIZE / 1024) ++ str " KiB)") in
    do! calibrate fuel in
    let! mhz := gets (fun b => tsc_mhz (the_world (b_sh b))) in
    do! kprintln (str "pit: TSC calibrated (" ++ show_u64 mhz ++ str " MHz)") in
    do! mount_volume in
    do! on_shell load_volume in
    do! start_network in
    kprintln (str "Type 'help' for commands.")
  end.

(** [scheduler::run]: a fresh line editor, then turns of the loop. *)
Definition run_kernel `{FloatEnv} `{Features} (fuel turns : nat) (boot_info : BootInfo) : B unit :=
  do! kernel_main fuel boot_info in
  on_shell (do! put_editor new_editor in loop_turns fuel turns).
End network.
End boot.
Arguments Boot V1 V2 D : clear implicits.
