(* ===== verification/BootSpec.v ===== *)
(** * What the boot sequence establishes

    The boot code reaches the scheduler's loop, and the state it leaves is one
    the other components' theorems start from. *)

From S2P Require Import Prelude Loader FileTable Opcode FloatOps Packets PacketsSpec Sockets.
From S2P Require Import NetStack NetSpec World Text Editor Machine Dispatch Host.
From S2P Require Import Engine EngineSpec Task Block Fat ShellText Shell ShellSpec.
From S2P Require Import Vga Jit Phys Paging Virtio VirtioBlk VirtioNic Interrupts.
From S2P Require Import InterruptsSpec Boot.

(** ** Code that finishes *)

(** From [P], [m] answers, and [Q] holds of the answer and the state. *)
Definition runs {S A} (P : S -> Prop) (m : M S unit A) (Q : A -> S -> Prop) : Prop :=
  forall s, P s -> exists a s', m s = (Ok a, s') /\ Q a s'.

Lemma runs_bind {S A B} (P : S -> Prop) (m : M S unit A) (k : A -> M S unit B) R Q :
  runs P m R -> (forall a, runs (R a) (k a) Q) -> runs P (bind m k) Q.
Proof.
  intros Hm Hk s Hs. destruct (Hm s Hs) as (a & s1 & E & H1). destruct (Hk a s1 H1) as (b & s2 & E2 & H2).
  exists b, s2. unfold bind. rewrite E. by rewrite E2.
Qed.

Lemma runs_ret {S A} (P : S -> Prop) (a : A) Q : (forall s, P s -> Q a s) -> runs P (ret a) Q.
Proof. intros HP s Hs. exists a, s. auto. Qed.

Lemma runs_modify {S} (P : S -> Prop) f (Q : unit -> S -> Prop) : (forall s, P s -> Q tt (f s)) -> runs P (modify f) Q.
Proof. intros HP s Hs. exists tt, (f s). auto. Qed.

Lemma runs_gets {S A} (P : S -> Prop) (f : S -> A) (Q : A -> S -> Prop) : (forall s, P s -> Q (f s) s) -> runs P (gets f) Q.
Proof. intros HP s Hs. exists (f s), s. auto. Qed.

Lemma runs_weaken {S A} (P P' : S -> Prop) (m : M S unit A) (Q Q' : A -> S -> Prop) :
  runs P' m Q' -> (forall s, P s -> P' s) -> (forall a s, Q' a s -> Q a s) -> runs P m Q.
Proof. intros Hm HP HQ s Hs. destruct (Hm s (HP s Hs)) as (a & s' & E & H). eauto. Qed.

Lemma runs_given {S A} (P : S -> Prop) (X : Prop) (m : M S unit A) Q : (X -> runs P m Q) -> runs (fun s => P s /\ X) m Q.
Proof. intros Hm s [Hs HX]. by apply Hm. Qed.

(** ** The file table *)

Section volume.
Context {V1 V2 : Type} `{F1 : FatFs V1} `{!FatFsOk V1} `{F2 : FatFs V2} `{!FatFsOk V2}.
Implicit Types s : Sh V1 V2.

(** The shell with another volume and another world. *)
Definition re_vol v (w : World) s : Sh V1 V2 :=
  mkSh (set_kern (set_k_world w (kern (sys s))) (sys s)) v (HISTORY s) (CWD_BUF s) (CWD_LEN s) (serial_in s).

(** Reading the files one by one is the table [load_one] builds from what the
    volume stores. *)
Lemma boot_load_file_run raw s : vol_fine (vol s) ->
  exists v, load_file raw s = (Ok tt, re_vol v (set_fs (load_one vol_reads (vol s) (fs (the_world s)) raw) (the_world s)) s) /\
    vol_fine v /\ vol_reads v = vol_reads (vol s).
Proof.
  intros Hv. unfold load_file, load_one.
  assert (Hs : s = re_vol (vol s) (set_fs (fs (the_world s)) (the_world s)) s) by (by destruct s as [[[] ? ? ?] ? ? ? ? ?]; cbn; destruct k_world).
  case_bool_decide as Hn; [exists (vol s); by rewrite <- Hs|].
  destruct (read_file_run (vol s) (default [] (from_utf8 raw)) Hv) as (v' & E & Hv' & Er).
  exists v'. unfold bind, on_vol. rewrite E. split; [|done].
  destruct (vol_reads (vol s) (default [] (from_utf8 raw))) as [bs|] eqn:Eb; [|rewrite Hs at 1; reflexivity].
  unfold on_world, modify. cbn. destruct (alloc_disk_slot _ _) as [[base|] st]; reflexivity.
Qed.

Lemma load_same (v v' : FS V1 V2) names st : vol_reads v' = vol_reads v ->
  fold_left (load_one vol_reads v') names st = fold_left (load_one vol_reads v) names st.
Proof. intros E. revert st. induction names as [|x names IH]; intros st; [done|]. cbn. rewrite IH. unfold load_one. by rewrite E. Qed.

Lemma load_files_run names s : vol_fine (vol s) ->
  exists v, load_files names s =
    (Ok tt, re_vol v (set_fs (fold_left (load_one vol_reads (vol s)) names (fs (the_world s))) (the_world s)) s) /\
    vol_fine v /\ vol_reads v = vol_reads (vol s).
Proof.
  revert s. induction names as [|raw names IH]; intros s Hv; cbn [load_files fold_left].
  { exists (vol s). split; [|done]. destruct s as [[[w] ? ? ?] ? ? ? ? ?]. by destruct w. }
  destruct (boot_load_file_run raw s Hv) as (v1 & E1 & Hv1 & R1). unfold bind. rewrite E1.
  destruct (IH (re_vol v1 (set_fs (load_one vol_reads (vol s) (fs (the_world s)) raw) (the_world s)) s) Hv1) as (v2 & E2 & Hv2 & R2).
  exists v2. cbn [vol re_vol] in R2. split; [|split; [done|congruence]]. rewrite E2. cbn [vol re_vol].
  rewrite (load_same (vol s) v1) by done. reflexivity.
Qed.

Lemma load_volume_run s : vol_fine (vol s) ->
  exists es v, load_volume s = (Ok tt, re_vol v (set_fs (load_fat_files_to_table (fun _ => es) vol_reads v (fs (the_world s))) (the_world s)) s) /\
    vol_fine v.
Proof.
  intros Hv. destruct (list_run (vol s) Hv) as (es & v1 & E1 & Hv1 & R1).
  destruct (load_files_run (map (fun e => take 64 e.1) (take DISK_SLOTS es)) (set_vol v1 s) Hv1) as (v2 & E2 & Hv2 & R2).
  exists es, v2. unfold load_volume, bind, on_vol. rewrite E1, E2. split; [|done]. unfold load_fat_files_to_table.
  rewrite (load_same v1 v2) by done. reflexivity.
Qed.
End volume.

(** ** The drivers answer *)

Ltac port_lia := unfold VIRT_DEVICE_FEATURES, VIRT_DRIVER_FEATURES, VIRT_QUEUE_PFN, VIRT_QUEUE_NUM, VIRT_QUEUE_SELECT,
  VIRT_QUEUE_NOTIFY, VIRT_DEVICE_STATUS; lia.

Section hardware.
Context {D : Type} `{PortIO D}.

(** What is taken of the machine. An [in] of [n] bytes answers [n] bytes; the
    registers of a virtio function are aligned to their 32 ports; and the queue
    of a block device fits the six static pages, which [try_init] relies on
    without checking. *)
Class Hardware : Prop := {
  hw_in n port (d : D) : 0 <= (port_in n port d).1 < 256 ^ Z.of_nat n;
  hw_bar bus dev (b b1 b2 : Bus D) id bar0 :
    pci_read32 bus dev 0 0x00 b = (Ok id, b1) -> pci_read32 bus dev 0 0x10 b1 = (Ok bar0, b2) ->
    Z.land id 0xFFFF = 0x1AF4 -> Z.land bar0 1 = 1 -> Z.land bar0 0xFFFFFFFC mod 32 = 0;
  hw_queue (b b1 b2 b3 : Bus D) bus dev io q :
    find_virtio_blk b = (Ok (Some (bus, dev, io)), b1) -> outw (io + VIRT_QUEUE_SELECT) 0 b1 = (Ok tt, b2) ->
    inw (io + VIRT_QUEUE_NUM) b2 = (Ok q, b3) -> vq_pages_needed q <= 6
}.

(** [m] completes in every state of the machine, with an answer in [Q]. *)
Definition yields {A} (m : IO (D := D) A) (Q : A -> Prop) : Prop := forall bus, exists a bus', m bus = (Ok a, bus') /\ Q a.

Lemma yields_bind {A B} (m : IO (D := D) A) (k : A -> IO B) R Q :
  yields m R -> (forall a, R a -> yields (k a) Q) -> yields (bind m k) Q.
Proof.
  intros Hm Hk bus. destruct (Hm bus) as (a & b1 & E & Ha). destruct (Hk a Ha b1) as (x & b2 & E2 & Hx).
  exists x, b2. unfold bind. by rewrite E, E2.
Qed.

Lemma yields_ret {A} (a : A) (Q : A -> Prop) : Q a -> yields (ret a) Q.
Proof. intros Ha bus. by exists a, bus. Qed.
Lemma yields_modify f : yields (modify f) (fun _ => True).
Proof. intros bus. by exists tt, (f bus). Qed.
Lemma yields_gets {A} (f : Bus D -> A) : yields (gets f) (fun _ => True).
Proof. intros bus. by exists (f bus), bus. Qed.
Lemma yields_out n port v : yields (out_n n port v) (fun _ => True).
Proof. intros bus. unfold out_n. destruct (port_out _ _ _ _ _) as [m d]. by eexists _, _. Qed.
Lemma yields_reg io off : io + off < 65536 -> yields (reg io off) (fun _ => True).
Proof. intros Hl bus. unfold reg. rewrite (proj2 (Z.ltb_lt _ _)) by lia. by eexists _, _. Qed.

Section answering.
Context `{!Hardware}.

Lemma yields_in n port : yields (in_n n port) (fun v => 0 <= v < 256 ^ Z.of_nat n).
Proof. intros bus. pose proof (hw_in n port (dv bus)). unfold in_n. destruct (port_in _ _ _) as [v d]. by eexists _, _. Qed.

Lemma yields_read bus dev off : yields (pci_read32 bus dev 0 off) (fun _ => True).
Proof. eapply yields_bind; [apply yields_out|]. intros _ _ b. destruct (yields_in 4 PCI_DATA b) as (v & b' & E & _). by exists v, b'. Qed.

(** The ports of a function the scan answers. *)
Definition ports_fit (o : option (Z * Z * Z)) : Prop := match o with Some (_, _, io) => 0 <= io <= 65504 | None => True end.

Lemma scan_fits id slots : yields (scan_slots id slots) ports_fit.
Proof.
  induction slots as [|[bus dev] slots IH]; cbn [scan_slots]; [by apply yields_ret|]. intros b.
  destruct (yields_read bus dev 0x00 b) as (v & b1 & E1 & _). unfold bind at 1. rewrite E1.
  destruct (v =? _); [apply IH|]. destruct (_ && _) eqn:Ev; [|apply IH]. apply andb_prop in Ev as [Ev%Z.eqb_eq _].
  destruct (yields_read bus dev 0x10 b1) as (w & b2 & E2 & _). unfold bind at 1. rewrite E2.
  destruct (Z.eqb_spec (Z.land w 1) 1) as [Ew|]; [|apply IH]. eexists _, _. split; [reflexivity|]. cbn.
  assert (Hid : Z.land v 0xFFFF = 0x1AF4).
  { revert Ev. unfold as_u16. change 0xFFFF with (Z.ones 16). rewrite Z.land_ones by lia. change (2 ^ 16) with 65536. by rewrite Z.mod_mod by lia. }
  pose proof (hw_bar bus dev b b1 b2 v w E1 E2 Hid Ew). unfold as_u16. zlia.
Qed.

Ltac ports_yield := repeat match goal with
| |- yields (bind (reg _ _) _) _ => eapply yields_bind; [apply yields_reg; port_lia|intros ? _]
| |- yields (bind (pci_read32 _ _ _ _) _) _ => eapply yields_bind; [apply yields_read|intros ? _]
| |- yields (bind (inl _) _) _ => eapply yields_bind; [apply yields_in|intros ? _]
| |- yields (bind (inb _) _) _ => eapply yields_bind; [apply yields_in|intros ? _]
| |- yields (bind (inw _) _) _ => eapply yields_bind; [apply yields_in|intros ? _]
| |- yields (bind (pci_write32 _ _ _ _ _) _) _ => unfold pci_write32
| |- yields (bind (bind _ _) _) _ => eapply (yields_bind _ _ (fun _ => True)); [|intros ? _]
| |- yields (bind _ _) _ => eapply yields_bind; [first [apply yields_out|apply yields_modify]|intros ? _]
| |- yields (if ?c then _ else _) _ => destruct c
| |- yields (ret _) _ => apply yields_ret
| |- yields (outw _ _) (fun _ => True) => apply yields_out
| |- yields (outl _ _) (fun _ => True) => apply yields_out
| |- yields (modify _) (fun _ => True) => apply yields_modify
| |- True => exact Logic.I
end.

Lemma blk_handshake_yields `{AddressSpace} `{BlkStatics} bus dev io v q : 0 <= io <= 65504 ->
  yields (blk_handshake bus dev io v q) (fun _ => True).
Proof. intros Hio. unfold blk_handshake. ports_yield. Qed.

(** [VirtioBlk::try_init] completes on every machine. *)
Lemma blk_try_init_yields `{AddressSpace} `{BlkStatics} : yields blk_try_init (fun _ => True).
Proof.
  intros b. unfold blk_try_init. destruct (scan_fits 0x1001 pci_slots b) as (o & b1 & E & Ho).
  unfold bind at 1. change (find_virtio_blk b) with (scan_slots 0x1001 pci_slots b). rewrite E.
  destruct o as [[[bus dev] io]|]; [|by eexists _, _]. cbn [ports_fit] in Ho. unfold bind at 1, reg at 1.
  rewrite (proj2 (Z.ltb_lt _ _)) by port_lia. cbn [ret]. unfold bind at 1.
  destruct (yields_out 2 (io + VIRT_QUEUE_SELECT) 0 b1) as ([] & b2 & E2 & _). unfold outw at 1. rewrite E2.
  unfold bind at 1, reg at 1. rewrite (proj2 (Z.ltb_lt _ _)) by port_lia. cbn [ret]. unfold bind at 1.
  destruct (yields_in 2 (io + VIRT_QUEUE_NUM) b2) as (q & b3 & E3 & _). unfold inw at 1. rewrite E3.
  pose proof (hw_queue b b1 b2 b3 bus dev io q E E2 E3) as Hq. destruct (q =? 0); [by eexists _, _|].
  unfold blk_pages. rewrite (proj2 (Z.ltb_ge _ _)) by lia. unfold bind at 1, lift. cbv zeta.
  destruct (six_page_run _ _) as [v|]; [|eexists _, _; by split; [reflexivity|]].
  apply (yields_bind (write_zeros v _) _ (fun _ => True)); [apply yields_modify|]. intros _ _. by apply blk_handshake_yields.
Qed.

Lemma post_rx_yields `{AddressSpace} `{NicStatics} base ro ao io : 0 <= io <= 65504 -> yields (post_rx base ro ao io) (fun _ => True).
Proof. intros Hio. unfold post_rx, write_desc, q_write64, q_write32, q_write16. ports_yield. Qed.

Lemma nic_handshake_yields `{AddressSpace} `{NicStatics} bus dev io v w q : 0 <= io <= 65504 ->
  yields (nic_handshake bus dev io v w q) (fun o => forall h, o = Some h -> 0 <= nic_io h <= 65504).
Proof.
  intros Hio. unfold nic_handshake. ports_yield; [done|]. cbv zeta.
  eapply yields_bind; [by apply post_rx_yields|]. intros _ _. apply yields_ret. by intros h [= <-].
Qed.

(** So does [VirtioNet::try_init]. *)
Lemma nic_try_init_yields `{AddressSpace} `{NicStatics} : yields nic_try_init (fun o => forall h, o = Some h -> 0 <= nic_io h <= 65504).
Proof.
  unfold nic_try_init. eapply yields_bind; [apply scan_fits|]. intros [[[bus dev] io]|] Hio; [|by apply yields_ret].
  cbn [ports_fit] in Hio. ports_yield; try done. cbv zeta.
  destruct (find_contiguous_pages _ VIRTQ_RX_BUF); [|by apply yields_ret].
  destruct (find_contiguous_pages _ VIRTQ_TX_BUF); [|by apply yields_ret].
  do 2 (eapply yields_bind; [apply yields_modify|intros _ _]). by apply nic_handshake_yields.
Qed.

(** A read of the card's registers. *)
Lemma nic_register_yields h off n (b : Bus D) : 0 <= nic_io h <= 65504 -> off <= 31 ->
  exists v b', nic_bus (let! p := reg (nic_io h) off in in_n n p) (h, b) = (Ok v, (h, b')) /\ 0 <= v < 256 ^ Z.of_nat n.
Proof.
  intros Hio Ho. assert (Hy : yields (let! p := reg (nic_io h) off in in_n n p) (fun v => 0 <= v < 256 ^ Z.of_nat n)).
  { eapply yields_bind; [apply yields_reg; lia|]. intros p _. apply yields_in. }
  destruct (Hy b) as (v & b' & E & Hv). exists v, b'. unfold nic_bus. cbn [fst snd]. by rewrite E.
Qed.

(** [k] reads [n] bytes from the card. *)
Definition reads (n : nat) h (k : M (NicSt (D := D)) unit (list Z)) : Prop :=
  forall b, exists m b', k (h, b) = (Ok m, (h, b')) /\ length m = n /\ Forall is_u8 m.

Lemma reads_cons n h off k : 0 <= nic_io h <= 65504 -> off <= 31 -> reads n h k ->
  reads (S n) h (let! x := nic_bus (let! p := reg (nic_io h) off in inb p) in let! bs := k in ret (x :: bs)).
Proof.
  intros Hio Ho Hk b. destruct (nic_register_yields h off 1 b Hio Ho) as (v & b1 & E & Hv).
  destruct (Hk b1) as (m & b2 & E2 & Hl & Hm). exists (v :: m), b2. unfold bind at 1, inb. rewrite E. unfold bind. rewrite E2.
  split_and!; [done|cbn; lia|]. by constructor.
Qed.

Lemma get_mac_yields h (b : Bus D) : 0 <= nic_io h <= 65504 -> exists m b', get_mac (h, b) = (Ok m, (h, b')) /\ mac_ok m.
Proof.
  intros Hio. unfold get_mac, bind at 1, gets. cbv beta iota. cbn [fst].
  apply (reads_cons 5); [done|done|]. do 5 (apply reads_cons; [done|done|]). intros b0. eexists [], b0. by split_and!.
Qed.

Lemma is_link_up_yields h (b : Bus D) : 0 <= nic_io h <= 65504 -> exists up b', is_link_up (h, b) = (Ok up, (h, b')).
Proof.
  intros Hio. unfold is_link_up, bind at 1, gets. cbv beta iota. cbn [fst].
  destruct (nic_register_yields h VIRT_NET_STATUS 2 b Hio) as (v & b' & E & _); [unfold VIRT_NET_STATUS; lia|].
  unfold bind at 1, inw. rewrite E. by eexists _, _.
Qed.
End answering.
End hardware.

(** ** The stages of the boot *)

Section boot.
Context {V1 V2 D : Type} `{F1 : FatFs V1} `{!FatFsOk V1} `{F2 : FatFs V2} `{!FatFsOk V2} `{PortIO D}.
Context `{Layout} `{BlkStatics} `{NicStatics} `{Clock} {P g : Z} `{!ClockOk P g}.
Implicit Types b : Boot V1 V2 D.

Definition the_w b : World := the_world (b_sh b).

(** Only the timer's gate is present, and interrupts are enabled. *)
Definition armed (i : Irq D) : Prop := IF i = true /\
  forall v, (v < 256)%nat -> gate idt_addr i v = if (v =? 32)%nat then Some (stub_addr, 8) else None.

Definition net_fine (w : World) : Prop := match NETWORK_STACK w with Some n => net_ok n | None => True end.

(** [full]: the files may have been loaded; [clocked]: the counter has been
    calibrated. *)
Record stage (full clocked : bool) b : Prop := {
  st_shell : shell_inv (b_sh b);
  st_fs : fs_wf (fs (the_w b));
  st_vol : vol_fine (vol (b_sh b));
  st_mirror : mirrors vol_reads (vol (b_sh b)) (fs (the_w b));
  st_net : net_fine (the_w b);
  st_irq : armed (b_irq b);
  st_hosts m nm : lookup_host m nm (kern (sys (b_sh b))) = lookup_host m nm (init_host_fns kernel_static);
  st_empty : full = false -> FILE_COUNT (fs (the_w b)) = 0%nat;
  st_clock : clocked = false -> on_time (the_w b) /\ TSC (the_w b) + 3 * P < 2 ^ 64
}.

Definition put v w b : Boot V1 V2 D := mkBoot (re_vol v w (b_sh b)) (b_irq b) (b_offset b) (b_cr3 b) (b_screen b).

Lemma shell_inv_put v w (s : Sh V1 V2) : shell_inv s -> shell_inv (re_vol v w s).
Proof. intros [A B [C1 C2 C3]]. split; [by apply inv_world|done|by split]. Qed.

Lemma mirrors_empty (v : FS V1 V2) st : fs_wf st -> FILE_COUNT st = 0%nat -> mirrors vol_reads v st.
Proof. intros Hw Hc i f Hi. destruct (wf_tail st Hw i ltac:(lia)); congruence. Qed.

Lemma stage_world full clocked b w : stage full clocked b -> fs w = fs (the_w b) -> net_fine w ->
  (clocked = false -> TICK_COUNT w = TICK_COUNT (the_w b) /\ TSC w = TSC (the_w b)) -> stage full clocked (put (vol (b_sh b)) w b).
Proof.
  intros [] Ef En Et. split; unfold the_w, put; cbn [b_sh b_irq vol re_vol]; try done.
  - by apply shell_inv_put.
  - change (the_world _) with w. by rewrite Ef.
  - change (the_world _) with w. by rewrite Ef.
  - change (the_world _) with w. by rewrite Ef.
  - change (the_world _) with w. intros Hc. destruct (Et Hc) as [E1 E2]. unfold on_time in *. rewrite E1, E2. auto.
Qed.

Lemma say_runs full clocked x : runs (stage full clocked) (kprintln x) (fun _ => stage full clocked).
Proof.
  intros b Hb. exists tt, (put (vol (b_sh b)) (emit (Print (x ++ [NL])) (the_w b)) b). split; [reflexivity|].
  by apply stage_world; [done|reflexivity|apply Hb|].
Qed.

(** A command of the ports that always completes. *)
Definition answers {A} (m : IO (D := D) A) : Prop := yields m (fun _ => True).

Lemma machine_answers {A} full clocked (m : IO (D := D) A) (Q : A -> Prop) :
  (forall bus, exists a bus', m bus = (Ok a, bus') /\ Q a) ->
  runs (stage full clocked) (on_machine m) (fun a b => stage full clocked b /\ Q a).
Proof.
  intros Hm b []. destruct (Hm (io (b_irq b))) as (a & bus' & E & HQ).
  exists a. unfold on_machine, on_irq, on_io. rewrite E. eexists. split; [reflexivity|]. by split.
Qed.

Lemma machine_runs {A} full clocked (m : IO (D := D) A) : answers m ->
  runs (stage full clocked) (on_machine m) (fun _ => stage full clocked).
Proof.
  intros Hm. eapply runs_weaken; [apply (machine_answers full clocked m (fun _ => True))|done|by intros ? ? [? _]].
  exact Hm.
Qed.

Lemma mem_runs full clocked f : runs (stage full clocked) (on_mem f) (fun _ => stage full clocked).
Proof. apply runs_modify. intros b []. by split. Qed.

Lemma calibrate_runs full fuel : P <= Z.of_nat fuel -> runs (stage full false) (calibrate fuel) (fun _ => stage full true).
Proof.
  intros Hf b Hb. destruct (st_clock _ _ _ Hb eq_refl) as [Ht H64].
  destruct (calibrate_spec fuel (the_w b) Ht H64 Hf) as (w2 & w' & E & _ & L & delta & _ & Ew & _).
  assert (fs w' = fs (the_w b) /\ NETWORK_STACK w' = NETWORK_STACK (the_w b)) as [Ef En] by (rewrite Ew, L; done).
  exists tt, (put (vol (b_sh b)) w' b). split; [unfold calibrate, on_shell; unfold the_w in E; by rewrite E|].
  apply stage_world; [by destruct Hb|done| |done]. unfold net_fine. rewrite En. apply Hb.
Qed.

Lemma load_runs clocked : runs (stage false clocked) (on_shell load_volume) (fun _ => stage true clocked).
Proof.
  intros b Hb. destruct (load_volume_run (b_sh b) (st_vol _ _ _ Hb)) as (es & v & E & Hv).
  exists tt. eexists. unfold on_shell. rewrite E. split; [reflexivity|].
  assert (Hm : mirrors vol_reads v (fs (the_w b))) by (apply mirrors_empty; [apply Hb|by apply Hb]).
  destruct (load_fat_files_ok (fun _ => es) vol_reads v (fs (the_w b)) (st_fs _ _ _ Hb) Hm) as [Hw' Hm'].
  destruct Hb. split; cbn [b_sh b_irq]; try done. by apply shell_inv_put.
Qed.

(** ** Mounting and networking *)

(** A card the driver found. *)
Definition found (h : Nic) : Prop := 0 <= nic_io h <= 65504.

(** The frames a card delivers and takes fit their buffers, and the FAT crate
    accepts or refuses an image. *)
Class Devices (card : Nic -> Bus D -> VirtioNet) (new_ram : BlockIo RamDisk -> result unit V1)
    (new_blk : BlockIo (VirtioBlk * Bus D) -> result unit V2) : Prop := {
  dev_card h bus : Forall rx_ok (rx (card h bus)) /\ Forall frame_ok (tx (card h bus));
  dev_ram x : match new_ram x with Ok v => vol_ok v | Err _ => True | _ => False end;
  dev_vol x : match new_blk x with Ok v => vol_ok v | Err _ => True | _ => False end
}.

Lemma stage_mount clocked b v : stage false clocked b -> vol_fine v -> stage false clocked (put v (the_w b) b).
Proof.
  intros [] Hv. split; unfold the_w, put; cbn [b_sh b_irq vol re_vol]; try done; [by apply shell_inv_put|].
  change (the_world _) with (the_w b). by apply mirrors_empty; [|apply st_empty0].
Qed.

(** A volume takes the place of the old one, or not. *)
Lemma mount_runs clocked (m : M (FS V1 V2) unit bool) :
  (forall v, vol_fine v -> exists ok v', m v = (Ok ok, v') /\ vol_fine v') ->
  runs (stage false clocked) (on_shell (on_vol m)) (fun _ => stage false clocked).
Proof.
  intros Hm b Hb. destruct (Hm (vol (b_sh b)) (st_vol _ _ _ Hb)) as (ok & v' & E & Hv).
  exists ok, (put v' (the_w b) b). split; [|by apply stage_mount].
  unfold on_shell, on_vol. rewrite E. unfold put, re_vol, the_w, the_world. by destruct (b_sh b) as [[[] ? ? ?] ? ? ? ? ?].
Qed.

Section devices.
Context card new_ram new_blk `{!Hardware (D := D)} `{!Devices card new_ram new_blk} (FS_IMG : list Z).

Lemma mount_volume_runs clocked : runs (stage false clocked) (mount_volume new_ram new_blk FS_IMG) (fun _ => stage false clocked).
Proof.
  eapply runs_bind; [by apply (runs_gets _ _ (fun _ => stage false clocked))|]. intros space.
  eapply runs_bind; [apply machine_runs, blk_try_init_yields|]. intros o.
  eapply (runs_bind _ _ _ (fun _ => stage false clocked)).
  - destruct o as [h|]; [|by apply runs_ret].
    eapply runs_bind; [by apply (runs_gets _ _ (fun _ => stage false clocked))|]. intros bus.
    eapply runs_bind; [apply mount_runs|].
    { intros v Hv. unfold mount_virtio. pose proof (dev_vol (new_io (h, bus))) as Hn. destruct (new_blk _); try done; eauto. }
    intros [|]; (eapply runs_bind; [apply say_runs|]; intros; by apply runs_ret).
  - intros [|]; [by apply runs_ret|]. eapply runs_bind; [apply mount_runs|].
    { intros v Hv. unfold mount_ramdisk. pose proof (dev_ram (new_io (load_image FS_IMG))) as Hn. destruct (new_ram _); try done; eauto. }
    intros [|]; apply say_runs.
Qed.

Lemma dhcp_wait_runs n full : runs (stage full true) (on_shell (dhcp_wait n)) (fun _ => stage full true).
Proof.
  induction n as [|n IH]; intros b Hb.
  { exists tt, b. split; [by destruct b|done]. }
  unfold on_shell in *. cbn [dhcp_wait]. set (m := bind _ _).
  assert (Hm : nok m (fun _ => True)).
  { unfold m. apply (nok_bind _ _ (fun _ => True)); [|intros a _ s Hs; cbn; by split]. intros s Hs.
    pose proof (poll_ok s Hs) as Hp. by destruct (poll s) as [[a|e| |] s']. }
  unfold with_network. destruct (NETWORK_STACK (the_world (b_sh b))) as [st|] eqn:En.
  - assert (Hst : net_ok st) by (pose proof (st_net _ _ _ Hb) as Hn; unfold net_fine, the_w in Hn; by rewrite En in Hn).
    specialize (Hm (mkNetSt st []) Hst). destruct (m (mkNetSt st [])) as [[a|e| |] s1]; try done.
    all: set (w := set_network _ _).
    all: assert (Hn : net_fine w) by (first [apply Hm | exact (proj1 Hm)]).
    all: pose proof (stage_world _ _ b w Hb eq_refl Hn ltac:(done)) as Hb'.
    + destruct a; [|by apply (IH (put (vol (b_sh b)) w b))]. eexists _, _. by split; [reflexivity|].
    + by apply (IH (put (vol (b_sh b)) w b)).
  - pose proof (stage_world _ _ b (the_w b) Hb eq_refl (st_net _ _ _ Hb) ltac:(done)) as Hb'.
    by apply (IH (put (vol (b_sh b)) (the_w b) b)).
Qed.

Lemma try_init_network_runs full : runs (stage full true) (try_init_network card) (fun _ => stage full true).
Proof.
  eapply runs_bind; [by apply (runs_gets _ _ (fun _ => stage full true))|]. intros space.
  eapply runs_bind; [apply (machine_answers _ _ _ (fun o => forall h, o = Some h -> found h))|].
  { exact nic_try_init_yields. }
  intros o. apply runs_given. intros Ho. destruct o as [h|]; [|by apply runs_ret]. specialize (Ho h eq_refl).
  eapply runs_bind; [apply (machine_answers _ _ _ mac_ok)|].
  { intros bus. destruct (get_mac_yields h bus Ho) as (m & bus' & E & Hm). exists m, bus'. by rewrite E. }
  intros m. apply runs_given. intros Hm.
  eapply runs_bind; [apply machine_runs|].
  { intros bus. destruct (is_link_up_yields h bus Ho) as (up & bus' & E). exists up, bus'. by rewrite E. }
  intros up. eapply runs_bind; [by apply (runs_gets _ _ (fun _ => stage full true))|]. intros bus.
  destruct (dev_card h bus) as [Hr Ht]. pose proof (init_stack_ok (card h bus) m up Hr Ht Hm) as Hi.
  destruct (init_stack _ _ _) as [[u|e| |] s]; try done.
  all: eapply (runs_bind _ _ _ (fun _ => stage full true)); [|intros; by apply runs_ret].
  all: intros b Hb; eexists _, (put (vol (b_sh b)) _ b); split; [reflexivity|]; by apply stage_world.
Qed.

Lemma start_network_runs full : runs (stage full true) (start_network card) (fun _ => stage full true).
Proof.
  eapply runs_bind; [apply try_init_network_runs|]. intros [|]; [|apply say_runs].
  eapply runs_bind; [apply dhcp_wait_runs|]. intros. apply say_runs.
Qed.

(** ** The whole sequence *)

(** What [kernel_main] takes as given on entry: the statics it does not set
    itself (task table, instance pool, history, working directory, volume,
    network stack, gates, and the allocation cursors behind the file table) hold
    their initial values, or others with the same invariants. The file table,
    the host registry, the memory offset, the console, the calibration and the
    contents of all buffers may be anything. *)
Record reset b : Prop := {
  rs_shell : shell_inv (b_sh b);
  rs_files : fs_wf (fs_init (fs (the_w b)));
  rs_vol : vol (b_sh b) = None;
  rs_net : NETWORK_STACK (the_w b) = None;
  rs_idt : IDT (b_irq b) = idt_static;
  rs_clock : on_time (the_w b) /\ TSC (the_w b) + 3 * P < 2 ^ 64
}.

Ltac ports_answer := repeat first [apply yields_out | eapply (yields_bind _ _ (fun _ => True)); [|intros _ _]].

Lemma serial_init_answers : answers serial_init.
Proof. unfold serial_init. ports_answer. Qed.

Lemma interrupts_init_armed (i : Irq D) : IDT i = idt_static -> 0 <= stub_addr < 2 ^ 64 ->
  exists i', interrupts_init idt_addr stub_addr i = (Ok tt, i') /\ armed i'.
Proof.
  intros Ei Hs. destruct i as [t d f bus]. cbn in Ei. subst t.
  assert (Ha : answers (do! pic_remap in pit_init)) by (unfold pic_remap, pit_init, io_wait; ports_answer).
  destruct (Ha bus) as ([] & b2 & E & _). eexists. split.
  - unfold interrupts_init, timer_init, bind, on_io, set_gate, idt_load, modify in *. cbn [IDT length]. unfold bind in E.
    cbn [io IDT idtr IF]. change ((32 <? length idt_static)%nat) with true. cbn [io IDT idtr IF].
    destruct (pic_remap bus) as [[u|e| |] b1]; try done. cbn [io IDT idtr IF]. rewrite E. reflexivity.
  - split; [reflexivity|]. intros v Hv. by apply gate_after_init.
Qed.

(** The first calls, before there is a host registry; [on]: interrupts are
    armed. *)
Record early (on : bool) b : Prop := {
  ea_shell : shell_inv (b_sh b);
  ea_files : fs_wf (fs (the_w b)) /\ FILE_COUNT (fs (the_w b)) = 0%nat;
  ea_vol : vol (b_sh b) = None;
  ea_net : NETWORK_STACK (the_w b) = None;
  ea_irq : if on then armed (b_irq b) else IDT (b_irq b) = idt_static;
  ea_clock : on_time (the_w b) /\ TSC (the_w b) + 3 * P < 2 ^ 64
}.

Lemma fs_init_runs : runs reset (on_shell (on_world (fun w => set_fs (fs_init (fs w)) w))) (fun _ => early false).
Proof.
  intros b [A Ef Ev En Ei Ec]. exists tt, (put (vol (b_sh b)) (set_fs (fs_init (fs (the_w b))) (the_w b)) b).
  split; [reflexivity|]. split; cbn [put b_sh b_irq vol re_vol]; try done. by apply shell_inv_put.
Qed.

Lemma serial_runs : runs (early false) (on_machine serial_init) (fun _ => early false).
Proof.
  intros b []. destruct (serial_init_answers (io (b_irq b))) as (a & bus' & E & _).
  exists a. unfold on_machine, on_irq, on_io. rewrite E. eexists. split; [reflexivity|]. by split.
Qed.

Lemma interrupts_runs : 0 <= stub_addr < 2 ^ 64 -> runs (early false) (on_irq (interrupts_init idt_addr stub_addr)) (fun _ => early true).
Proof.
  intros Hs b []. destruct (interrupts_init_armed (b_irq b)) as (i' & E & Ha); [done..|].
  exists tt. unfold on_irq. rewrite E. eexists. split; [reflexivity|]. by split.
Qed.

Lemma register_all_world m hs k : k_world (register_all m hs k) = k_world k /\ POOL (register_all m hs k) = POOL k.
Proof.
  unfold register_all. revert k. induction hs as [|h hs IH]; intros k; [done|]. cbn. rewrite !(proj1 (IH _)), !(proj2 (IH _)).
  unfold register_host. by destruct (_ <? _)%nat.
Qed.

Lemma init_host_world k : k_world (init_host_fns k) = k_world k /\ POOL (init_host_fns k) = POOL k.
Proof. unfold init_host_fns. by rewrite !(proj1 (register_all_world _ _ _)), !(proj2 (register_all_world _ _ _)). Qed.

Lemma hosts_run : runs (early true) (on_shell (modify (fun s => set_sys (set_kern (init_host_fns (kern (sys s))) (sys s)) s)))
  (fun _ => stage false false).
Proof.
  intros b [A Ef Ev En Ei Ec]. eexists tt, _. split; [reflexivity|].
  set (b' := mkBoot _ _ _ _ _).
  assert (Ew : the_w b' = the_w b).
  { change (the_w b') with (k_world (init_host_fns (kern (sys (b_sh b))))). apply init_host_world. }
  split; rewrite ?Ew.
  - destruct A as [S1 S2 [C1 C2 C3]]. split; [|done|by split]. apply inv_kern; [done|apply pool_ok_init, S1|].
    intros j. unfold occupied. by rewrite (proj2 (init_host_world _)).
  - apply Ef.
  - change (vol (b_sh b')) with (vol (b_sh b)). by rewrite Ev.
  - by apply mirrors_empty; apply Ef.
  - unfold net_fine. by rewrite En.
  - done.
  - intros m nm. change (kern (sys (b_sh b'))) with (init_host_fns (kern (sys (b_sh b)))). by rewrite !init_host_fns_ok.
  - intros _. apply Ef.
  - done.
Qed.

(** The console is cleared whatever the framebuffer's format. *)
Lemma screen_runs full clocked fb : (forall buf i, fb = Some (buf, i) -> 0 <= slen buf <= USIZE_MAX) ->
  runs (stage full clocked) (init_screen fb) (fun _ => stage full clocked).
Proof.
  destruct fb as [[buf i]|]; intros Hi; [|by apply runs_ret]. specialize (Hi buf i eq_refl). intros b [].
  unfold init_screen, vga_init, clear_screen, raw_zero, usize. cbn [fb new_vga].
  rewrite !(proj2 (Z.leb_le _ _)) by (unfold USIZE_MAX in *; lia). cbn [andb rbind]. unfold sfill. cbn [fb new_vga].
  rewrite !(proj2 (Z.leb_le _ _)) by lia. cbn [andb raw rbind]. eexists _, _. split; [reflexivity|]. by split.
Qed.

Lemma boot_runs fuel info off : 0 <= stub_addr < 2 ^ 64 -> P <= Z.of_nat fuel ->
  physical_memory_offset info = Some off ->
  (forall buf i, framebuffer info = Some (buf, i) -> 0 <= slen buf <= USIZE_MAX) ->
  runs reset (kernel_main card new_ram new_blk FS_IMG fuel info) (fun _ => stage true true).
Proof.
  intros Hs Hf Ho Hi. unfold kernel_main. rewrite Ho.
  eapply runs_bind; [apply fs_init_runs|intros []]. eapply runs_bind; [apply serial_runs|intros []].
  eapply runs_bind; [by apply interrupts_runs|intros []]. eapply runs_bind; [apply hosts_run|intros []].
  eapply runs_bind; [by apply screen_runs|intros []]. do 3 (eapply runs_bind; [apply say_runs|intros []]).
  do 2 (eapply runs_bind; [apply mem_runs|intros []]). eapply runs_bind; [apply say_runs|intros []].
  eapply runs_bind; [by apply calibrate_runs|intros []].
  eapply runs_bind; [by apply (runs_gets _ _ (fun _ => stage false true))|intros mhz].
  eapply runs_bind; [apply say_runs|intros []]. eapply runs_bind; [apply mount_volume_runs|intros []].
  eapply runs_bind; [apply load_runs|intros []]. eapply runs_bind; [apply start_network_runs|intros []]. apply say_runs.
Qed.
End devices.
End boot.
