(* ===== verification/Agree.v ===== *)
(** * The interpreter does not look at its host functions

    Two instances that differ only in their host functions and in the kernel
    state around them run in lock step, as long as the host functions do: the
    relational counterpart of Safety.v, for builds without native code. *)

From S2P Require Import Prelude Leb128 Opcode IntOps FloatOps Jump Sections World Machine.
From S2P Require Import Dispatch.

(** ** Accesses to memories with the same bytes *)

(** The same bytes, [L] of them. *)
Definition alike_mem (L : Z) (a b : slice) : Prop := slice_eq a b /\ slen a = L.

Definition same_result {E} (L : Z) (a b : result E slice) : Prop :=
  match a, b with
  | Ok x, Ok y => alike_mem L x y
  | Err e, Err e' => e = e'
  | Panic, Panic | OutOfFuel, OutOfFuel => True
  | _, _ => False
  end.

Lemma sread_range_same {E} (a b : slice) lo hi : slice_eq a b -> sread_range (E := E) a lo hi = sread_range b lo hi.
Proof.
  intros [Hl Hg]. unfold sread_range. rewrite Hl. destruct (_ && _) eqn:Hb; [|done]. zbool.
  f_equal. apply srange_ext. intros i Hi. apply Hg. lia.
Qed.

Lemma swrite_bytes_same {E} L (a b : slice) lo bs : alike_mem L a b -> same_result L (swrite_bytes (E := E) a lo bs) (swrite_bytes b lo bs).
Proof.
  intros [[Hl Hg] HL]. unfold swrite_bytes. rewrite Hl. destruct (_ && _); [|done].
  split; [|cbn; congruence]. split; [done|]. cbn. intros i Hi. destruct (_ && _); [done|]. apply Hg. lia.
Qed.

Lemma sfill_same {E} L (a b : slice) lo hi v : alike_mem L a b -> same_result L (sfill (E := E) a lo hi v) (sfill b lo hi v).
Proof.
  intros [[Hl Hg] HL]. unfold sfill. rewrite Hl. destruct (_ && _); [|done].
  split; [|cbn; congruence]. split; [done|]. cbn. intros i Hi. destruct (_ && _); [done|]. apply Hg. lia.
Qed.

Lemma scopy_within_same {E} L (a b : slice) src n dst :
  alike_mem L a b -> same_result L (scopy_within (E := E) a src n dst) (scopy_within b src n dst).
Proof.
  intros [[Hl Hg] HL]. unfold scopy_within. rewrite Hl. destruct (_ && _) eqn:Hb; [|done]. zbool.
  split; [|cbn; congruence]. split; [done|]. cbn. intros i Hi. destruct (_ && _) eqn:Hc; zbool; apply Hg; lia.
Qed.

(** ** Related states *)

Definition rehost (hs : list (option HostFn)) (c : Code) : Code :=
  mkCode (bodies c) (body_count c) (local_counts c) (type_param_counts c) (type_result_counts c) (type_count c)
    (func_type_indices c) (all_func_types c) (import_count c) (table c) (table_size c) (global_mutable c)
    (global_count c) hs (jump_table c) (max_pages c).

(** The instance with other host functions and another memory. *)
Definition twin (hs : list (option HostFn)) (m : slice) (i : Interpreter) : Interpreter :=
  mkInterp (rehost hs (code i)) (vstack i) (vsp i) (frames i) (fdepth i) (ctrl i) (ctrl_depth i) (globals i) m
    (jit_fns i) (current_pages i) (yield_requested i) (shadow_stop_fdepth i).

(** The stack pointer, and those the frames return to, lie in the value stack. *)
Record bounded (i : Interpreter) : Prop := {
  b_len : length (vstack i) = STACK_DEPTH;
  b_vsp : (vsp i <= STACK_DEPTH)%nat;
  b_frames : Forall (fun f => (vsp_base f <= STACK_DEPTH)%nat) (frames i)
}.

(** Two host functions that do the same from related kernel states. *)
Definition host_rel (W : World -> World -> Prop) (h1 h2 : HostFn) : Prop :=
  forall vs n m1 m2 w1 w2, length vs = STACK_DEPTH -> (n <= STACK_DEPTH)%nat -> slice_eq m1 m2 -> W w1 w2 ->
    let '(r1, (vs1, n1, m1', w1')) := h1 vs n m1 w1 in
    let '(r2, (vs2, n2, m2', w2')) := h2 vs n m2 w2 in
    r1 = r2 /\ vs1 = vs2 /\ n1 = n2 /\ length vs1 = STACK_DEPTH /\ (n1 <= STACK_DEPTH)%nat /\
    slice_eq m1' m2' /\ slen m1' = slen m1 /\ W w1' w2'.

Section agree.
Context `{FE : FloatEnv} `{FT : Features} (interpreted : kernel_jit = false).
Context (hs1 hs2 : list (option HostFn)) (W : World -> World -> Prop) (L : Z).
Context (W_emit : forall e w1 w2, W w1 w2 -> W (emit e w1) (emit e w2)).
Context (W_count : forall oc1 fc1 oc2 fc2 w1 w2, W w1 w2 -> W (set_counters oc1 fc1 w1) (set_counters oc2 fc2 w2)).
Context (hosts : Forall2 (option_Forall2 (host_rel W)) hs1 hs2).

Record sim (s1 s2 : St) : Prop := {
  s_it : exists m, it s2 = twin hs2 m (it s1) /\ alike_mem L (mem (it s1)) m;
  s_hosts : host_fns (code (it s1)) = hs1;
  s_bounded : bounded (it s1);
  s_active : active_mem s2 = active_mem s1;
  s_world : W (world s1) (world s2)
}.

Definition agree {A} (m1 m2 : I A) : Prop :=
  forall s1 s2, sim s1 s2 -> (m1 s1).1 = (m2 s2).1 /\ sim (m1 s1).2 (m2 s2).2.

(** ** Steps *)

Lemma agree_lift {A} (r : result InterpError A) : agree (lift r) (lift r).
Proof. by intros s1 s2 Hs. Qed.

Lemma agree_ret {A} (a : A) : agree (ret a) (ret a).
Proof. by intros s1 s2 Hs. Qed.

Lemma agree_fail {A} e : agree (fail (A := A) e) (fail e).
Proof. by intros s1 s2 Hs. Qed.

Lemma agree_panic {A} : agree (panic (A := A)) panic.
Proof. by intros s1 s2 Hs. Qed.

Lemma agree_bind {A B} (m1 m2 : I A) (k1 k2 : A -> I B) :
  agree m1 m2 -> (forall a, agree (k1 a) (k2 a)) -> agree (bind m1 k1) (bind m2 k2).
Proof.
  intros Hm Hk s1 s2 Hs. specialize (Hm s1 s2 Hs). unfold bind.
  destruct (m1 s1) as [r1 t1], (m2 s2) as [r2 t2]. cbn in Hm. destruct Hm as [<- Ht].
  destruct r1; [by apply Hk|done..].
Qed.

Lemma agree_bind_ret {A B} (a : A) (k1 k2 : A -> I B) : agree (k1 a) (k2 a) -> agree (bind (ret a) k1) (bind (ret a) k2).
Proof. done. Qed.

(** A field that the twin shares. *)
Lemma agree_get {A} (f : Interpreter -> A) : (forall m i, f (twin hs2 m i) = f i) -> agree (get f) (get f).
Proof. intros Hf s1 s2 Hs. split; [|done]. cbn. destruct (s_it _ _ Hs) as (m & -> & _). by rewrite Hf. Qed.

Lemma agree_active : agree (gets active_mem) (gets active_mem).
Proof. intros s1 s2 Hs. split; [|done]. cbn. f_equal. symmetry. apply Hs. Qed.

Lemma agree_code {B} (k1 k2 : Code -> I B) :
  (forall c, agree (k1 c) (k2 (rehost hs2 c))) -> agree (bind (get code) k1) (bind (get code) k2).
Proof. intros Hk s1 s2 Hs. cbn. destruct (s_it _ _ Hs) as (m & E & _). rewrite E. by apply Hk. Qed.

Lemma agree_vsp {B} (k1 k2 : nat -> I B) :
  (forall n, (n <= STACK_DEPTH)%nat -> agree (k1 n) (k2 n)) -> agree (bind (get vsp) k1) (bind (get vsp) k2).
Proof. intros Hk s1 s2 Hs. cbn. destruct (s_it _ _ Hs) as (m & E & _). rewrite E. cbn. apply Hk; [apply Hs|done]. Qed.

Lemma agree_vstack {B} (k1 k2 : list Z -> I B) :
  (forall vs, length vs = STACK_DEPTH -> agree (k1 vs) (k2 vs)) -> agree (bind (get vstack) k1) (bind (get vstack) k2).
Proof. intros Hk s1 s2 Hs. cbn. destruct (s_it _ _ Hs) as (m & E & _). rewrite E. cbn. apply Hk; [apply Hs|done]. Qed.

Lemma agree_frame {B} fi (k1 k2 : Frame -> I B) :
  (forall f, (vsp_base f <= STACK_DEPTH)%nat -> agree (k1 f) (k2 f)) ->
  agree (bind (bind (get frames) (fun fs => index fs fi)) k1) (bind (bind (get frames) (fun fs => index fs fi)) k2).
Proof.
  intros Hk s1 s2 Hs. cbn. unfold bind, index, lift, get, gets. cbn.
  destruct (s_it _ _ Hs) as (m & E & _). rewrite E. cbn. destruct (frames (it s1) !! fi) as [f|] eqn:Ef; cbn; [|done].
  apply Hk; [|done]. exact (Forall_lookup_1 _ _ _ _ (b_frames _ (s_bounded _ _ Hs)) Ef).
Qed.

Lemma agree_mem {B} (k1 k2 : slice -> I B) :
  (forall m1 m2, alike_mem L m1 m2 -> agree (k1 m1) (k2 m2)) -> agree (bind (get mem) k1) (bind (get mem) k2).
Proof. intros Hk s1 s2 Hs. cbn. destruct (s_it _ _ Hs) as (m & E & Em). rewrite E. by apply Hk. Qed.

Lemma agree_lift_mem {B} (r1 r2 : result InterpError slice) (k1 k2 : slice -> I B) : same_result L r1 r2 ->
  (forall m1 m2, alike_mem L m1 m2 -> agree (k1 m1) (k2 m2)) -> agree (bind (lift r1) k1) (bind (lift r2) k2).
Proof.
  intros Hr Hk s1 s2 Hs. unfold bind, lift. destruct r1, r2; cbn in Hr; subst; try done. by apply Hk.
Qed.

(** An update that leaves code, memory and the bounds alone. *)
Lemma agree_on_it f :
  (forall i, code (f i) = code i /\ mem (f i) = mem i) -> (forall m i, f (twin hs2 m i) = twin hs2 m (f i)) ->
  (forall i, bounded i -> bounded (f i)) -> agree (on_it f) (on_it f).
Proof.
  intros Hc Ht Hb s1 s2 Hs. split; [done|]. destruct (s_it _ _ Hs) as (m & E & Em). destruct (Hc (it s1)) as [C1 C2].
  split; cbn; [|by rewrite C1; apply Hs|apply Hb, Hs|apply Hs|apply Hs].
  exists m. rewrite E, Ht. split; [done|]. by rewrite C2.
Qed.

Lemma agree_set_mem m1 m2 p : alike_mem L m1 m2 -> agree (on_it (set_mem m1 p)) (on_it (set_mem m2 p)).
Proof.
  intros Hm s1 s2 Hs. split; [done|]. destruct (s_it _ _ Hs) as (m & E & _).
  split; cbn; try apply Hs; [exists m2; by rewrite E|]. destruct (s_bounded _ _ Hs). by split.
Qed.

Lemma agree_set_mem_same m1 m2 : alike_mem L m1 m2 ->
  agree (on_it (fun i => set_mem m1 (current_pages i) i)) (on_it (fun i => set_mem m2 (current_pages i) i)).
Proof.
  intros Hm s1 s2 Hs. split; [done|]. destruct (s_it _ _ Hs) as (m & E & _).
  split; cbn; try apply Hs; [exists m2; by rewrite E|]. destruct (s_bounded _ _ Hs). by split.
Qed.

Lemma agree_on_world f g : (forall w1 w2, W w1 w2 -> W (f w1) (g w2)) -> agree (on_world f) (on_world g).
Proof. intros Hf s1 s2 Hs. split; [done|]. destruct Hs. split; try done. by apply Hf. Qed.

Lemma agree_set_active a : agree (set_active a) (set_active a).
Proof. intros s1 s2 Hs. split; [done|]. by destruct Hs. Qed.

Lemma agree_emit e : agree (on_world (emit e)) (on_world (emit e)).
Proof. apply agree_on_world, W_emit. Qed.

(** Takes the two sides apart in parallel. *)
Ltac agree_side := cbn; first [done | by intros [] | intros; split; done | by intros ? [] ].
Ltac agree_steps :=
  repeat lazymatch goal with
  | |- forall _, _ => intros ?
  | |- agree (bind (get code) _) _ => apply agree_code; intros ?; cbn [rehost bodies body_count local_counts
        type_param_counts type_result_counts type_count func_type_indices all_func_types import_count table table_size
        global_mutable global_count jump_table max_pages]
  | |- agree (bind (get vsp) _) _ => apply agree_vsp
  | |- agree (bind (get vstack) _) _ => apply agree_vstack
  | |- agree (bind (get mem) _) _ => apply agree_mem
  | |- agree (bind (bind (get frames) _) _) _ => apply agree_frame
  | |- agree (bind (lift (sfill _ _ _ _)) _) _ => apply agree_lift_mem; [by apply sfill_same|]
  | |- agree (bind (ret _) _) _ => apply agree_bind_ret
  | |- agree (bind _ _) _ => apply agree_bind
  | |- agree (ret _) _ => apply agree_ret
  | |- agree (fail _) _ => apply agree_fail
  | |- agree panic _ => apply agree_panic
  | |- agree (lift _) _ => apply agree_lift
  | |- agree (index _ _) _ => apply agree_lift
  | |- agree (gets active_mem) _ => apply agree_active
  | |- agree (get _) _ => apply agree_get; intros; reflexivity
  | |- agree (set_active _) _ => apply agree_set_active
  | |- agree (on_world (emit _)) _ => apply agree_emit
  | |- agree (match ?x with _ => _ end) _ => destruct x eqn:?
  | |- _ => eauto with agree
  end.

(** ** Stacks and frames *)

Lemma agree_set_vsp n : (n <= STACK_DEPTH)%nat -> agree (on_it (fun i => set_vstack (vstack i) n i)) (on_it (fun i => set_vstack (vstack i) n i)).
Proof. intros Hn. apply agree_on_it; [done..|]. intros i []. by split. Qed.

Lemma agree_set_ctrl (f : Interpreter -> list CtrlFrame) n : (forall m i, f (twin hs2 m i) = f i) ->
  agree (on_it (fun i => set_ctrl (f i) n i)) (on_it (fun i => set_ctrl (f i) n i)).
Proof.
  intros Hf. apply agree_on_it; [done| |by intros i []; split].
  intros m i. cbn. by rewrite Hf.
Qed.

Lemma agree_v_push v : agree (v_push v) (v_push v).
Proof.
  unfold v_push. agree_steps. zbool. apply agree_on_it; [done..|]. intros i []. split; cbn; [by rewrite length_insert|lia|done].
Qed.

Lemma agree_v_pop : agree v_pop v_pop.
Proof. unfold v_pop. agree_steps. apply agree_set_vsp. lia. Qed.

Lemma agree_ctrl_push cf : agree (ctrl_push cf) (ctrl_push cf).
Proof. unfold ctrl_push. agree_steps. by apply agree_set_ctrl. Qed.

Lemma agree_sig_counts t : agree (sig_counts t) (sig_counts t).
Proof. unfold sig_counts. agree_steps. Qed.

Hint Resolve agree_v_push agree_v_pop agree_ctrl_push agree_sig_counts agree_set_ctrl : agree.

Lemma agree_pop_params n ls : agree (pop_params n ls) (pop_params n ls).
Proof. revert ls; induction n as [|n IH]; intros ls; cbn [pop_params]; agree_steps. Qed.
Hint Resolve agree_pop_params : agree.

Lemma agree_set_frames_at d f g : (vsp_base f <= STACK_DEPTH)%nat -> (forall m i, g (twin hs2 m i) = g i) ->
  agree (on_it (fun i => set_frames (<[d := f]> (frames i)) (g i) i)) (on_it (fun i => set_frames (<[d := f]> (frames i)) (g i) i)).
Proof.
  intros Hf Hg. apply agree_on_it; [done| |].
  - intros m i. cbn. by rewrite Hg.
  - intros i []. split; cbn; [done..|]. by apply Forall_insert.
Qed.

Lemma agree_push_frame b : agree (push_frame b) (push_frame b).
Proof. unfold push_frame. agree_steps. by apply agree_set_frames_at. Qed.

Lemma agree_set_frame_pc fi p : agree (set_frame_pc fi p) (set_frame_pc fi p).
Proof. unfold set_frame_pc. agree_steps. by apply agree_set_frames_at. Qed.

Lemma agree_set_frame_local fi idx v : agree (set_frame_local fi idx v) (set_frame_local fi idx v).
Proof. unfold set_frame_local. agree_steps. by apply agree_set_frames_at. Qed.

Lemma copy_results_bounds n src dst vs vs' : copy_results n src dst vs = Ok vs' -> (dst <= length vs)%nat ->
  length vs' = length vs /\ (dst + n <= length vs)%nat.
Proof.
  revert src dst vs; induction n as [|n IH]; intros src dst vs; cbn [copy_results].
  { intros [= <-] ?. split; [done|lia]. }
  destruct (vs !! src); cbn [or_panic rbind]; [|done]. destruct (dst <? _)%nat eqn:E; [|done]. zbool.
  intros H _. apply IH in H; rewrite length_insert in *; lia.
Qed.

Lemma agree_bind_ok {A B} (r : result InterpError A) (k1 k2 : A -> I B) :
  (forall a, r = Ok a -> agree (k1 a) (k2 a)) -> agree (bind (lift r) k1) (bind (lift r) k2).
Proof. intros Hk s1 s2 Hs. unfold bind, lift. destruct r; [by apply Hk|done..]. Qed.

Lemma agree_do_return : agree do_return do_return.
Proof.
  unfold do_return. apply agree_bind; [by apply agree_get|]. intros d. apply agree_frame. intros f Hf.
  apply agree_vstack. intros vs Hvs. apply agree_vsp. intros sp Hsp.
  destruct (_ <? _); [by intros s1 s2 Hs|]. apply agree_bind_ok. intros vs' E.
  apply copy_results_bounds in E as [E1 E2]; [|by rewrite Hvs].
  agree_steps; apply agree_on_it; try done; intros i []; split; cbn; try done; lia || congruence.
Qed.
Hint Resolve agree_push_frame agree_set_frame_pc agree_set_frame_local agree_do_return : agree.

Lemma agree_do_br n : agree (do_br n) (do_br n).
Proof. unfold do_br. agree_steps. Qed.
Hint Resolve agree_do_br : agree.

(** ** The arms of the dispatch loop *)

Notation alike h := (forall c, agree (h c) (h c)).

Lemma agree_exec_block k : alike (exec_block k).
Proof. intros c. unfold exec_block. agree_steps. Qed.

Lemma agree_exec_if : alike exec_if.
Proof. intros c. unfold exec_if. agree_steps. Qed.

Lemma agree_exec_else : alike exec_else.
Proof. intros c. unfold exec_else. agree_steps. Qed.

Lemma agree_exec_end : alike exec_end.
Proof. intros c. unfold exec_end. agree_steps. Qed.

Lemma agree_branches : alike exec_br /\ alike exec_br_if /\ alike exec_br_table.
Proof. split; [|split]; intros c; unfold exec_br, exec_br_if, exec_br_table; agree_steps. Qed.

Lemma agree_local_index c : agree (local_index c) (local_index c).
Proof. unfold local_index. agree_steps. Qed.

Lemma agree_global_index c : agree (global_index c) (global_index c).
Proof. unfold global_index. agree_steps. Qed.
Hint Resolve agree_local_index agree_global_index : agree.

Lemma agree_variables : alike exec_select /\ alike exec_local_get /\ alike exec_local_set /\ alike exec_local_tee /\
  alike exec_global_get /\ alike exec_global_set.
Proof.
  split_and!; intros c; unfold exec_select, exec_local_get, exec_local_set, exec_local_tee, exec_global_get, exec_global_set;
    agree_steps.
  apply agree_on_it; [done..|]. intros i []. by split.
Qed.

Lemma agree_exec_load w conv : alike (exec_load w conv).
Proof. intros c. unfold exec_load. agree_steps. rewrite (sread_range_same _ m2) by apply H. agree_steps. Qed.

Lemma agree_write_mem f pc : (forall m1 m2, alike_mem L m1 m2 -> same_result L (f m1) (f m2)) -> agree (write_mem f pc) (write_mem f pc).
Proof.
  intros Hf. unfold write_mem. apply agree_mem. intros m1 m2 Hm. apply agree_lift_mem; [by apply Hf|]. intros m1' m2' Hm'.
  apply agree_bind; [by apply agree_set_mem_same|]. agree_steps.
Qed.

Lemma agree_exec_store w : alike (exec_store w).
Proof. intros c. unfold exec_store. agree_steps. apply agree_write_mem. intros. by apply swrite_bytes_same. Qed.

Lemma agree_memory_grow : alike exec_memory_grow.
Proof.
  intros c. unfold exec_memory_grow. agree_steps. by apply agree_set_mem.
Qed.

Lemma agree_consts : alike exec_memory_size /\ (forall rd, alike (exec_const rd)) /\ (forall w conv, alike (exec_fconst w conv)).
Proof. split_and!; intros; unfold exec_memory_size, exec_const, exec_fconst; agree_steps. Qed.

Lemma agree_exec_un f pc : agree (exec_un f pc) (exec_un f pc).
Proof. unfold exec_un. agree_steps. Qed.

Lemma agree_exec_bin f pc : agree (exec_bin f pc) (exec_bin f pc).
Proof. unfold exec_bin. agree_steps. Qed.
Hint Resolve agree_exec_un : agree.

Lemma agree_bulk c pc : agree (exec_memory_init c pc) (exec_memory_init c pc) /\ agree (exec_data_drop c pc) (exec_data_drop c pc) /\
  agree (exec_memory_copy c pc) (exec_memory_copy c pc) /\ agree (exec_memory_fill c pc) (exec_memory_fill c pc).
Proof.
  split_and!; unfold exec_memory_init, exec_data_drop, exec_memory_copy, exec_memory_fill; agree_steps;
    apply agree_write_mem; intros; by apply scopy_within_same || by apply sfill_same.
Qed.

Lemma agree_prefix_fc : alike exec_prefix_fc.
Proof. intros c. unfold exec_prefix_fc. agree_steps; apply agree_bulk. Qed.

(** ** Calls *)

Lemma agree_count_call callee : agree (count_call callee) (count_call callee).
Proof. unfold count_call. agree_steps. apply agree_on_world. intros. by apply W_count. Qed.

Lemma agree_call_host h1 h2 : host_rel W h1 h2 -> agree (call_host h1) (call_host h2).
Proof.
  intros Hh s1 s2 Hs. unfold call_host. destruct (s_it _ _ Hs) as (m & E & Em). rewrite E. cbn [twin vstack vsp mem].
  specialize (Hh (vstack (it s1)) (vsp (it s1)) (mem (it s1)) m (world s1) (world s2)
    (b_len _ (s_bounded _ _ Hs)) (b_vsp _ (s_bounded _ _ Hs)) (proj1 Em) (s_world _ _ Hs)).
  destruct (h1 _ _ _ _) as [r1 [[[vs1 n1] m1] w1]], (h2 _ _ _ _) as [r2 [[[vs2 n2] m2] w2]].
  destruct Hh as (-> & -> & -> & Hl & Hn & Hm & Hm' & Hw). split; [done|].
  split; cbn; try done; try apply Hs; [exists m2; split; [done|]; split; [done|]; rewrite Hm'; apply Em|]. destruct (s_bounded _ _ Hs). by split.
Qed.

Lemma agree_host_table {B} (k1 k2 : list (option HostFn) -> I B) : agree (k1 hs1) (k2 hs2) ->
  agree (bind (get (fun i => host_fns (code i))) k1) (bind (get (fun i => host_fns (code i))) k2).
Proof.
  intros Hk s1 s2 Hs. cbn. destruct (s_it _ _ Hs) as (m & E & _). rewrite E, (s_hosts _ _ Hs). by apply Hk.
Qed.

Lemma agree_call_import callee : agree (call_import callee) (call_import callee).
Proof.
  unfold call_import. apply agree_host_table. intros s1 s2 Hs. unfold bind, index, lift.
  pose proof (proj1 (Forall2_lookup _ _ _) hosts callee) as Hl. inversion Hl as [o1 o2 Ho E1 E2|E1 E2]; cbn; [|done].
  inversion Ho as [h1 h2 Hh|]; cbn; [|done]. by apply agree_call_host.
Qed.
Hint Resolve agree_count_call agree_call_import : agree.

Lemma agree_exec_call r1 r2 c : agree (exec_call r1 c) (exec_call r2 c).
Proof. unfold exec_call. rewrite interpreted. agree_steps. Qed.

Lemma agree_exec_call_indirect : alike exec_call_indirect.
Proof. intros c. unfold exec_call_indirect. agree_steps. Qed.

(** ** The loop *)

Lemma agree_table (t : list (Z * handler)) op h c : Forall (fun e => alike e.2) t -> assoc op t = Some h -> agree (h c) (h c).
Proof.
  induction 1 as [|[o g] t Hg _ IH]; cbn; [done|]. destruct (_ =? _); [|done]. intros [= <-]. apply Hg.
Qed.

Lemma agree_plain_ops : Forall (fun e => alike e.2) plain_ops.
Proof.
  destruct agree_branches as (? & ? & ?), agree_variables as (? & ? & ? & ? & ? & ?), agree_consts as (? & ? & ?).
  unfold plain_ops, control_ops, branch_ops, variable_ops, const_ops, reinterpret_ops. cbn [app].
  repeat (constructor; [cbn [snd]; first [done | apply agree_exec_block | apply agree_exec_if | apply agree_exec_else | apply agree_exec_end
    | apply agree_memory_grow | apply agree_prefix_fc | apply agree_exec_call_indirect | intros c; agree_steps; done]|]).
  constructor.
Qed.

Lemma agree_exec_op r1 r2 op c : agree (exec_op r1 op c) (exec_op r2 op c).
Proof.
  unfold exec_op. destruct (assoc op (int_unops ++ _)); [apply agree_exec_un|].
  destruct (assoc op (int_binops ++ _)); [apply agree_exec_bin|].
  destruct (assoc op load_ops) as [[w conv]|]; [apply agree_exec_load|].
  destruct (assoc op store_ops); [apply agree_exec_store|].
  destruct (assoc op plain_ops) as [h|] eqn:E; [by apply (agree_table _ _ _ _ agree_plain_ops E)|].
  destruct (op =? OP_CALL); [apply agree_exec_call|]. agree_steps.
Qed.
Hint Resolve agree_exec_op : agree.

(** The whole interpreter, read for its shared fields. *)
Lemma agree_self {B} (k1 k2 : Interpreter -> I B) : (forall m i, agree (k1 i) (k2 (twin hs2 m i))) ->
  agree (bind (get (fun i => i)) k1) (bind (get (fun i => i)) k2).
Proof. intros Hk s1 s2 Hs. cbn. destruct (s_it _ _ Hs) as (m & E & _). rewrite E. by apply Hk. Qed.

Lemma agree_iteration r1 r2 : agree (iteration r1) (iteration r2).
Proof.
  unfold iteration. apply agree_self. intros m i. cbn [twin rehost yield_requested fdepth frames code bodies]. agree_steps.
  - apply agree_on_it; [done..|]. by intros ? []; split.
  - apply agree_on_world. intros. by apply W_count.
Qed.

Lemma agree_cache_active : agree cache_active cache_active.
Proof. unfold cache_active. apply agree_self. intros m i. apply agree_set_active. Qed.

Lemma agree_run_loop fuel : agree (run_loop fuel) (run_loop fuel).
Proof.
  induction fuel as [|fuel IH]; cbn [run_loop]; [by intros s1 s2 Hs|].
  apply agree_self. intros m i. cbn [twin fdepth shadow_stop_fdepth]. destruct (_ <=? _)%nat; [apply agree_ret|].
  apply agree_bind; [apply agree_iteration|done].
Qed.

Lemma agree_run fuel : agree (run fuel) (run fuel).
Proof. apply agree_bind; [apply agree_cache_active|]. intros _. apply agree_run_loop. Qed.

Lemma agree_call fuel f : agree (call fuel f) (call fuel f).
Proof. unfold call. agree_steps. apply agree_run. Qed.
End agree.
