(* ===== verification/Harness.v ===== *)
(** * The test harness ([wasm-test/src/lib.rs])

    The harness compiles the kernel's loader and interpreter into a test
    program, without the native code generator, and gives them host functions of
    its own. What those print is collected; here the collected bytes are the
    [Print] events of the log. *)

From S2P Require Import Prelude Leb128 Loader FileTable Opcode FloatOps Sections World Machine.
From S2P Require Import Dispatch Host Engine.

(** ** Text as the standard library makes it *)

Definition REPLACEMENT : list Z := [239; 191; 189].

(** [String::from_utf8_lossy]: every maximal ill-formed part becomes U+FFFD. *)
Fixpoint from_utf8_lossy (bs : list Z) : list Z :=
  match bs with
  | [] => []
  | b0 :: r0 =>
    if b0 <=? 127 then b0 :: from_utf8_lossy r0 else
    if (194 <=? b0) && (b0 <=? 223) then
      match r0 with
      | b1 :: r1 => if is_cont b1 then b0 :: b1 :: from_utf8_lossy r1 else REPLACEMENT ++ from_utf8_lossy r0
      | [] => REPLACEMENT
      end else
    if (224 <=? b0) && (b0 <=? 239) then
      match r0 with
      | b1 :: r1 =>
        if (if b0 =? 224 then (160 <=? b1) && (b1 <=? 191)
            else if b0 =? 237 then (128 <=? b1) && (b1 <=? 159) else is_cont b1) then
          match r1 with
          | b2 :: r2 => if is_cont b2 then b0 :: b1 :: b2 :: from_utf8_lossy r2 else REPLACEMENT ++ from_utf8_lossy r1
          | [] => REPLACEMENT
          end
        else REPLACEMENT ++ from_utf8_lossy r0
      | [] => REPLACEMENT
      end else
    if (240 <=? b0) && (b0 <=? 244) then
      match r0 with
      | b1 :: r1 =>
        if (if b0 =? 240 then (144 <=? b1) && (b1 <=? 191)
            else if b0 =? 244 then (128 <=? b1) && (b1 <=? 143) else is_cont b1) then
          match r1 with
          | b2 :: r2 =>
            if is_cont b2 then
              match r2 with
              | b3 :: r3 =>
                if is_cont b3 then b0 :: b1 :: b2 :: b3 :: from_utf8_lossy r3 else REPLACEMENT ++ from_utf8_lossy r2
              | [] => REPLACEMENT
              end
            else REPLACEMENT ++ from_utf8_lossy r1
          | [] => REPLACEMENT
          end
        else REPLACEMENT ++ from_utf8_lossy r0
      | [] => REPLACEMENT
      end
    else REPLACEMENT ++ from_utf8_lossy r0
  end.

(** The digits of a number, least significant first in front of [acc]; twenty
    are enough for 64 bits. *)
Fixpoint radix_digits (fuel : nat) (base v : Z) (acc : list Z) : list Z :=
  match fuel with
  | O => acc
  | S fuel' =>
    let acc := nth (Z.to_nat (v mod base)) HEX 0 :: acc in
    if v <? base then acc else radix_digits fuel' base (v / base) acc
  end.

(** [{n}] *)
Definition display (n : Z) : list Z :=
  if n <? 0 then 45 :: radix_digits 20 10 (- n) [] else radix_digits 20 10 n [].

(** [{n:08X}] *)
Definition upper_hex_8 (n : Z) : list Z :=
  let ds := radix_digits 20 16 n [] in replicate (8 - length ds) 48 ++ ds.

Module Harness.

Inductive TestError :=
| Load (s : list Z)
| Interp (s : list Z)
| ExportNotFound (s : list Z).

(** [Display] of the error. *)
Definition fmt_error (e : TestError) : list Z :=
  match e with
  | Load s => str "load error: " ++ s
  | Interp s => str "interp error: " ++ s
  | ExportNotFound s => str "export not found: " ++ s
  end.

(** ** The data section *)

(** The early returns end the loop with the memory as it is. *)
Fixpoint init_data_loop (n : nat) (data : list Z) (cur : nat) (mem : slice) : result unit slice :=
  match n with
  | O => Ok mem
  | S n' =>
    let? rest := slice_from data cur in
    match read_u32_leb128 rest with
    | None => Ok mem
    | Some (kind, k) =>
      let cur := (cur + k)%nat in
      if negb (kind =? 0) then init_data_loop n' data cur mem else
      if negb (bool_decide (data !! cur = Some 0x41)) then Ok mem else
      let cur := (cur + 1)%nat in
      let? rest := slice_from data cur in
      match read_i32_leb128 rest with
      | None => Ok mem
      | Some (offset, k) =>
        let cur := (cur + k)%nat in
        if negb (bool_decide (data !! cur = Some 0x0B)) then Ok mem else
        let cur := (cur + 1)%nat in
        let? rest := slice_from data cur in
        match read_u32_leb128 rest with
        | None => Ok mem
        | Some (seg_len, k) =>
          let cur := (cur + k)%nat in
          let dst := as_usize offset in
          let avail := Z.max 0 (slen mem - dst) in
          let copy := Z.min seg_len avail in
          let? mem := if (0 <? copy) && (Z.of_nat cur + seg_len <=? Z.of_nat (length data)) then
              let? src := slice_range data cur (cur + Z.to_nat copy) in swrite_bytes mem dst src
            else Ok mem in
          init_data_loop n' data (cur + Z.to_nat seg_len) mem
        end
      end
    end
  end.

Definition init_data (data : list Z) (mem : slice) : result unit slice :=
  match read_u32_leb128 data with
  | None => Ok mem
  | Some (count, n) => init_data_loop (Z.to_nat count) data n mem
  end.

(** ** Host functions *)

(** The bytes collected so far. *)
Definition OUTPUT (w : World) : list Z :=
  concat (map (fun e => match e with Print bs => bs | _ => [] end) (log w)).

Definition append_output (bs : list Z) : H unit := on_w (emit (Print bs)).

Definition host_print : H unit :=
  do! need 2 in
  let! len := arg 1 in
  let! ptr := arg 2 in
  do! consume 2 in
  let! m := gets h_mem in
  let ptr := as_usize ptr in
  let e := Z.min (sat_add_usize ptr (as_usize len)) (slen m) in
  let! bs := lift (sread_range m ptr e) in
  append_output bs.

Definition host_print_int : H unit :=
  do! need 1 in let! n := arg 1 in do! consume 1 in append_output (display (as_i32 n) ++ [NL]).

Definition host_print_i64 : H unit :=
  do! need 1 in let! n := arg 1 in do! consume 1 in append_output (display (as_i64 n) ++ [NL]).

Definition host_print_char : H unit :=
  do! need 1 in let! v := arg 1 in do! consume 1 in append_output [as_u8 (Z.land v 0xFF)].

Definition host_print_hex : H unit :=
  do! need 1 in let! n := arg 1 in do! consume 1 in append_output (str "0x" ++ upper_hex_8 (as_u32 n) ++ [NL]).

Definition host_sleep_ms : H unit := do! need 1 in do! consume 1 in fail Yielded.

Definition host_yield_fn : H unit := fail Yielded.

Definition host_uptime_ms : H unit := do! room in push_result 0.

(** The arms of the [match (mod_name, func_name)]. *)
Definition app_hosts : list (list Z * HostFn) :=
  [ (str "print", host host_print); (str "print_int", host host_print_int);
    (str "print_i64", host host_print_i64); (str "print_char", host host_print_char);
    (str "print_hex", host host_print_hex); (str "sleep_ms", host host_sleep_ms);
    (str "yield", host host_yield_fn); (str "uptime_ms", host host_uptime_ms) ].

Definition app_host (m nm : list Z) : option HostFn :=
  if bytes_eqb m (str "env") then snd <$> List.find (fun e => bytes_eqb nm e.1) app_hosts else None.

(** The closure: [host_fns[import_count] = ..; import_count += 1;] *)
Definition resolve_app (m nm : list Z) (a : result TestError (list (option HostFn) * nat))
    : result TestError (list (option HostFn) * nat) :=
  let? (fns, n) := a in
  if (n <? length fns)%nat then Ok (<[n := app_host m nm]> fns, S n) else Panic.

(** ** The two runners *)

(** The crate has none of the kernel's cargo features. *)
#[local] Instance no_features : Features := {|
  kernel_jit := false; jit_shadow := false; native_call := fun _ _ _ _ => Strayed |}.

Definition T := M World TestError.

(** Code that never answers an error. *)
Definition never {A} (r : result unit A) : result TestError A := map_err (fun _ => Load []) r.

Definition load_wasm (wasm : list Z) : result TestError Module_ :=
  map_err (fun e => Load (LoadError_as_str e)) (load wasm).

Definition min_pages_of (module : Module_) : result TestError Z :=
  match memory_section module with
  | Some s => never (read_memory_min_pages s)
  | None => Ok 0
  end.

(** [vec![0u8; mem_size]] *)
Definition mem_buf (min_pages : Z) : slice := zero_slice (Z.max min_pages 1 * PAGE_SIZE).

Definition new_interp (module : Module_) (import_count : nat) (host_fns : list (option HostFn)) (min_pages : Z)
    : result TestError Interpreter :=
  let? i := map_err (fun e => Interp (InterpError_as_str e))
    (Interpreter_new module import_count (mem_buf min_pages) host_fns min_pages) in
  match data_section module with
  | Some data => let? m := never (init_data data (mem i)) in Ok (set_mem m (current_pages i) i)
  | None => Ok i
  end.

Definition entry_index (module : Module_) (func : list Z) : result TestError nat :=
  let? f := map_err (fun _ => ExportNotFound func) (find_export module func) in Ok (Z.to_nat f).

(** [interp.vstack[interp.vsp] = arg as i64; interp.vsp += 1;] *)
Fixpoint push_args (args : list Z) (i : Interpreter) : result TestError Interpreter :=
  match args with
  | [] => Ok i
  | a :: args' =>
    if (vsp i <? length (vstack i))%nat
    then push_args args' (set_vstack (<[vsp i := a]> (vstack i)) (S (vsp i)) i) else Panic
  end.

Section runners.
Context `{FloatEnv}.

Definition run_wasm (fuel : nat) (wasm func args : list Z) : T (option Z) :=
  let! module := lift (load_wasm wasm) in
  let! min_pages := lift (min_pages_of module) in
  let! i := lift (new_interp module 0 (replicate MAX_FUNCS None) min_pages) in
  let! func_idx := lift (entry_index module func) in
  let! i := lift (push_args args (reset_for_call i)) in
  fun w =>
    let '(r, s) := call fuel func_idx (mkSt i w (active_mem_bytes i)) in
    (let? _ := map_err (fun e => Interp (InterpError_as_str e)) r in
     map_err (fun e => Interp (InterpError_as_str e)) (top (it s)), world s).

(** [while let Err(InterpError::Yielded) = result { result = interp.resume(); }] *)
Fixpoint resume_app (fuel : nat) (x : result InterpError unit * St) : result InterpError unit * St :=
  match x with
  | (Err Yielded, s) =>
    match fuel with
    | O => (OutOfFuel, s)
    | S fuel' => resume_app fuel' (resume fuel' s)
    end
  | _ => x
  end.

Definition run_app (fuel : nat) (wasm args : list Z) : T (list Z) :=
  do! modify (set_log []) in
  let! module := lift (load_wasm wasm) in
  let! min_pages := lift (min_pages_of module) in
  let none := (replicate MAX_FUNCS None, 0%nat) in
  let! (host_fns, import_count) := lift
    (match import_section module with
     | Some sec => let? a := never (for_each_func_import resolve_app sec (Ok none)) in a
     | None => Ok none
     end) in
  let! i := lift (new_interp module import_count host_fns min_pages) in
  let! func_idx := lift (entry_index module (str "main")) in
  let! i := lift (push_args args (reset_for_call i)) in
  fun w =>
    let '(r, s) := resume_app fuel (call fuel func_idx (mkSt i w (active_mem_bytes i))) in
    (let? _ := map_err (fun e => Interp (InterpError_as_str e)) r in Ok (from_utf8_lossy (OUTPUT (world s))), world s).
End runners.
End Harness.
