(* ===== verification/HarnessSpec.v ===== *)
(** * The test harness runs modules as the kernel does

    Its data initialiser gives the memory the kernel's gives, its host functions
    print what the kernel's print, and so a module that runs under the harness
    runs in a kernel built without native code. *)

From S2P Require Import Prelude Leb128 Loader FileTable Opcode FloatOps Sections World Machine.
From S2P Require Import Dispatch Host HostSpec NetHost Engine EngineSpec Agree Harness.

(** ** Data sections *)

(** Where the kernel's initialiser accepts a data section, the harness's gives
    the same memory. *)
Lemma swrite_same (a b b' : slice) lo bs : slice_eq a b -> swrite_bytes (E := unit) b lo bs = Ok b' ->
  exists a', swrite_bytes (E := unit) a lo bs = Ok a' /\ slice_eq a' b'.
Proof.
  intros [Hl Hg] E. unfold swrite_bytes in *. rewrite Hl. destruct (_ && _); [|done]. injection E as <-.
  eexists. split; [reflexivity|]. split; [done|]. intros i Hi. cbn in *. destruct (_ && _); [done|]. apply Hg. lia.
Qed.

Lemma swrite_nothing (b b' : slice) lo : swrite_bytes (E := unit) b lo [] = Ok b' -> slice_eq b b'.
Proof.
  unfold swrite_bytes. destruct (_ && _); [|done]. intros [= <-]. split; [done|]. intros i _. cbn [sget length].
  by replace ((lo <=? i) && (i <? lo + Z.of_nat 0)) with false by (destruct (Z.leb_spec lo i), (Z.ltb_spec i (lo + Z.of_nat 0)); cbn; lia || done).
Qed.

(** One segment: cut at the end of the memory by either. *)
Lemma segment_same ds cur len (a b b' : slice) dst src : slice_eq a b -> 0 <= len -> 0 <= dst ->
  Z.of_nat cur + len <= Z.of_nat (length ds) ->
  let dst_end := Z.min (sat_add_usize dst len) (slen b) in
  dst <= dst_end -> slen b < USIZE_MAX ->
  slice_range (E := unit) ds cur (cur + Z.to_nat (dst_end - dst)) = Ok src -> swrite_bytes (E := unit) b dst src = Ok b' ->
  exists a', (if (0 <? Z.min len (Z.max 0 (slen a - dst))) && (Z.of_nat cur + len <=? Z.of_nat (length ds)) then
      let? src := slice_range (E := unit) ds cur (cur + Z.to_nat (Z.min len (Z.max 0 (slen a - dst)))) in swrite_bytes a dst src
    else Ok a) = Ok a' /\ slice_eq a' b'.
Proof.
  intros Hab Hl Hd Hc dst_end He Hb Es Ew. pose proof Hab as [Hs _]. rewrite Hs.
  assert (Ed : dst_end - dst = Z.min len (Z.max 0 (slen b - dst))) by (unfold dst_end, sat_add_usize in *; lia).
  rewrite Ed in Es. rewrite (proj2 (Z.leb_le (Z.of_nat cur + len) _)) by done. rewrite andb_true_r.
  destruct (Z.ltb_spec 0 (Z.min len (Z.max 0 (slen b - dst)))) as [Hp|Hz].
  - rewrite Es. cbn [rbind]. by apply (swrite_same a b).
  - replace (Z.to_nat (Z.min len (Z.max 0 (slen b - dst)))) with 0%nat in Es by lia.
    unfold slice_range in Es. destruct (_ && _) in Es; [|done]. rewrite Nat.add_0_r, Nat.sub_diag in Es. injection Es as <-.
    exists a. split; [done|]. rewrite Hab. by eapply swrite_nothing.
Qed.

Lemma init_loops_agree n ds cur a b b' : slice_eq a b -> slen b < USIZE_MAX -> init_memory_loop n ds cur b = Ok (true, b') ->
  exists a', Harness.init_data_loop n ds cur a = Ok a' /\ slice_eq a' b'.
Proof.
  revert cur a b. induction n as [|n IH]; intros cur a b Hab Hb E; cbn [init_memory_loop Harness.init_data_loop] in *.
  { injection E as <-. by exists a. }
  destruct (slice_from ds cur) as [rest| | |]; try done. cbn [rbind] in *.
  destruct (read_u32_leb128 rest) as [[kind k]|]; [|done]. destruct (negb (kind =? 0)); [by eapply IH|].
  destruct (negb (bool_decide _)); [done|]. destruct (slice_from ds _) as [rest2| | |] in E |- *; try done. cbn [rbind] in *.
  destruct (read_i32_leb128 rest2) as [[offset k2]|]; [|done].
  destruct (negb (bool_decide _)); [done|]. destruct (slice_from ds _) as [rest3| | |] in E |- *; try done. cbn [rbind] in *.
  destruct (read_u32_leb128 rest3) as [[len k3]|] eqn:El; [|done]. cbv zeta in *.
  set (c := (cur + k + 1 + k2 + 1 + k3)%nat) in *.
  destruct (Z.ltb_spec (Z.of_nat (length ds)) (Z.of_nat c + len)) as [|Hc]; [done|].
  destruct (Z.ltb_spec (Z.min (sat_add_usize (as_usize offset) len) (slen b)) (as_usize offset)) as [|Hd]; [done|].
  destruct (slice_range ds c _) as [src| | |] eqn:Es in E; try done. cbn [rbind] in E.
  destruct (swrite_bytes b _ src) as [b1| | |] eqn:Ew; try done. cbn [rbind] in E.
  assert (Hl : 0 <= len) by (apply read_u32_bounds in El as [[? _] _]; done).
  destruct (segment_same ds c len a b b1 (as_usize offset) src Hab Hl ltac:(unfold as_usize, as_u64; apply Z.mod_pos_bound; lia) Hc Hd Hb Es Ew)
    as (a1 & -> & H1). cbn [rbind].
  apply (IH _ a1 b1); [done| |done]. apply swrite_bytes_ok in Ew as (_ & _ & -> & _). done.
Qed.

Lemma init_agrees ds (m m' : slice) : slen m < USIZE_MAX -> init_memory ds m = Ok (true, m') ->
  exists m2, Harness.init_data ds m = Ok m2 /\ slice_eq m2 m'.
Proof.
  intros Hm. unfold init_memory, Harness.init_data. destruct (read_u32_leb128 ds) as [[count n]|]; [|done].
  by apply init_loops_agree.
Qed.

Lemma init_loop_slen n ds cur m b m' : init_memory_loop n ds cur m = Ok (b, m') -> slen m' = slen m.
Proof.
  revert cur m; induction n as [|n IH]; intros cur m E; cbn [init_memory_loop] in E; [by injection E as <- <-|].
  repeat match type of E with
  | rbind (swrite_bytes _ _ _) _ = _ => fail 1
  | rbind ?c _ = _ => destruct c as [?|?| |]; cbn [rbind] in E; [|done..]
  | (match ?x with _ => _ end) = _ => destruct x; try (by injection E as <- <-); try done
  end; try (by eapply IH).
  destruct (swrite_bytes m _ _) as [m1|?| |] eqn:Ew; try done. cbn [rbind] in E. rewrite (IH _ _ E). by apply swrite_bytes_ok in Ew as (_ & _ & -> & _).
Qed.

Lemma init_memory_slen ds m b m' : init_memory ds m = Ok (b, m') -> slen m' = slen m.
Proof. unfold init_memory. destruct (read_u32_leb128 ds) as [[c n]|]; [apply init_loop_slen|by intros [= <- <-]]. Qed.

(** ** Numbers and text *)

Lemma HEX_digit d : 0 <= d < 10 -> nth (Z.to_nat d) HEX 0 = 48 + d.
Proof.
  intros Hd. assert (Forall (fun k => nth (Z.to_nat k) HEX 0 = 48 + k) (map Z.of_nat (seq 0 10))) as HF by (repeat constructor).
  rewrite Forall_forall in HF. apply HF, in_map_iff. exists (Z.to_nat d). split; [lia|]. apply in_seq. lia.
Qed.

(** The kernel's digit loop and the standard library's. *)
Lemma fmt_loop_display pos val acc : 0 < val < 10 ^ Z.of_nat pos -> (pos <= 20)%nat ->
  exists pos', fmt_loop pos val acc = Ok (pos', radix_digits pos 10 val acc).
Proof.
  revert val acc; induction pos as [|pos IH]; intros val acc Hv Hp; [change (10 ^ Z.of_nat 0) with 1 in Hv; lia|].
  rewrite Nat2Z.inj_succ, Z.pow_succ_r in Hv by lia. cbn [fmt_loop radix_digits]. cbv zeta.
  destruct (Z.leb_spec val 0); [lia|]. rewrite HEX_digit by zlia. destruct (Z.ltb_spec val 10).
  - exists pos. replace (val / 10) with 0 by zlia. by destruct pos.
  - apply IH; [zlia|lia].
Qed.

(** More room changes nothing. *)
Lemma radix_digits_fuel base a b v acc : 1 < base -> 0 <= v < base ^ Z.of_nat a -> (1 <= a <= b)%nat ->
  radix_digits b base v acc = radix_digits a base v acc.
Proof.
  intros Hb. revert b v acc; induction a as [|a IH]; intros b v acc Hv Hab; [lia|]. destruct b as [|b]; [lia|].
  rewrite Nat2Z.inj_succ, Z.pow_succ_r in Hv by lia. cbn [radix_digits]. cbv zeta.
  destruct (Z.ltb_spec v base); [done|]. destruct a as [|a]; [change (base ^ Z.of_nat 0) with 1 in Hv; lia|].
  apply IH; [|lia]. split; [apply Z.div_pos; lia|]. apply Z.div_lt_upper_bound; lia.
Qed.

Lemma fmt_dec_display cap n B : - B <= n < B -> 0 < B < 10 ^ Z.of_nat cap -> (1 <= cap < 20)%nat ->
  fmt_dec (S cap) (- B) n = Ok (display n).
Proof.
  intros Hn HB Hc. destruct (fmt_dec_spec cap n B Hn HB) as (s & E & _). rewrite E. revert E.
  unfold fmt_dec, display. set (val := if n =? - B then _ else _).
  assert (val = Z.abs n) as -> by (unfold val; repeat case_split; zbool; lia).
  destruct (Z.eqb_spec (Z.abs n) 0) as [|Hz]; [assert (n = 0) as -> by lia; by intros [= <-]|].
  destruct (fmt_loop_display (S cap) (Z.abs n) []) as (p & ->); [rewrite Nat2Z.inj_succ, Z.pow_succ_r by lia; lia|lia|]. cbn [rbind].
  rewrite <- (radix_digits_fuel 10 (S cap) 20) by (rewrite ?Nat2Z.inj_succ, ?Z.pow_succ_r by lia; lia).
  destruct (Z.ltb_spec n 0).
  - replace (Z.abs n) with (- n) by lia. generalize (radix_digits 20 10 (- n) []). intros ds. destruct p; congruence.
  - replace (Z.abs n) with n by lia. generalize (radix_digits 20 10 n []). congruence.
Qed.

(** The hexadecimal digits of [v] at [k] places. *)
Fixpoint places (k : nat) (v : Z) : list Z :=
  match k with O => [] | S k' => places k' (v / 16) ++ [nth (Z.to_nat (v mod 16)) HEX 0] end.

Lemma places_length k v : length (places k v) = k.
Proof. revert v; induction k as [|k IH]; intros v; cbn; [done|]. rewrite length_app, IH. cbn. lia. Qed.

Lemma places_zero k : places k 0 = replicate k 48.
Proof. induction k as [|k IH]; [done|]. cbn [places]. change (0 / 16) with 0. rewrite IH. by rewrite replicate_S_end. Qed.

Lemma radix_digits_app fuel base v acc : radix_digits fuel base v acc = radix_digits fuel base v [] ++ acc.
Proof.
  revert v acc; induction fuel as [|fuel IH]; intros v acc; [done|]. cbn [radix_digits]. cbv zeta.
  destruct (_ <? _); [done|]. rewrite IH, (IH _ [_]), <- app_assoc. done.
Qed.

Lemma padded_places k v : 0 <= v < 16 ^ Z.of_nat k -> (1 <= k)%nat ->
  replicate (k - length (radix_digits k 16 v [])) 48 ++ radix_digits k 16 v [] = places k v /\ (length (radix_digits k 16 v []) <= k)%nat.
Proof.
  revert v; induction k as [|k IH]; intros v Hv Hk; [lia|]. cbn [radix_digits places]. cbv zeta.
  rewrite Nat2Z.inj_succ, Z.pow_succ_r in Hv by lia. destruct (Z.ltb_spec v 16).
  - replace (v / 16) with 0 by zlia. rewrite places_zero. cbn. rewrite Nat.sub_0_r. split; [done|lia].
  - destruct k as [|k]; [change (16 ^ Z.of_nat 0) with 1 in Hv; lia|]. destruct (IH (v / 16)) as [E L]; [zlia|lia|].
    rewrite radix_digits_app, length_app. cbn [length]. rewrite <- E, <- app_assoc. split; [f_equal; f_equal; lia|lia].
Qed.

Lemma upper_hex_kernel n : is_u32 n -> upper_hex_8 n = hex_digits n.
Proof.
  intros Hn. unfold upper_hex_8. rewrite (radix_digits_fuel 16 8 20) by (unfold is_u32 in Hn; change (16 ^ Z.of_nat 8) with 4294967296; lia).
  cbv zeta. rewrite (proj1 (padded_places 8 n ltac:(unfold is_u32 in Hn; change (16 ^ Z.of_nat 8) with 4294967296; lia) ltac:(lia))).
  unfold hex_digits. cbn [map seq places app]. rewrite !(fun k => Z.land_ones k 4) by lia. rewrite !Z.shiftr_div_pow2 by lia.
  rewrite !Z.div_div by lia. cbn. by rewrite Z.div_1_r.
Qed.

Definition ascii (bs : list Z) : Prop := Forall (fun b => b <= 127) bs.

Lemma ascii_valid bs : ascii bs -> from_utf8 bs = Some bs.
Proof.
  intros Ha. unfold from_utf8. enough (utf8_valid bs = true) as -> by done.
  induction Ha as [|b bs Hb _ IH]; cbn; [done|]. by rewrite (proj2 (Z.leb_le b 127)).
Qed.

Lemma lossy_ascii bs : ascii (from_utf8_lossy bs) -> from_utf8_lossy bs = bs.
Proof.
  assert (forall r, ~ ascii (REPLACEMENT ++ r)) as HR by (intros r Hr; inversion Hr; lia).
  assert (forall b r, 127 < b -> ~ ascii (b :: r)) as HB by (intros b r Hb Hr; inversion Hr; lia).
  induction bs as [|b0 r0 IH]; [done|]. cbn [from_utf8_lossy]. destruct (b0 <=? 127) eqn:E0.
  - intros Ha. inversion Ha; subst. f_equal. by apply IH.
  - intros Ha. exfalso. revert Ha. zbool. repeat case_split; intros Ha;
      first [by eapply HB; [|exact Ha] | by eapply HR | by eapply (HR []) ].
Qed.

(** ** Host functions *)

(** Two worlds to which the same text was printed since [pre], unless something
    was collected that the kernel does not print, because it is not UTF-8. *)
Definition printed_same (pre : list Z * list Z) (w1 w2 : World) : Prop :=
  (exists bs, Print bs ∈ log w1 /\ from_utf8 bs = None) \/
  exists d, Harness.OUTPUT w1 = pre.1 ++ d /\ Harness.OUTPUT w2 = pre.2 ++ d.

Lemma OUTPUT_emit e w : Harness.OUTPUT (emit e w) = Harness.OUTPUT w ++ match e with Print bs => bs | _ => [] end.
Proof. unfold Harness.OUTPUT, emit. cbn. rewrite map_app, concat_app. cbn. by rewrite app_nil_r. Qed.

Section hosts.
Context (pre : list Z * list Z).

Lemma printed_emit e w1 w2 : printed_same pre w1 w2 -> printed_same pre (emit e w1) (emit e w2).
Proof.
  intros [(bs & Hin & Hu)|(d & E1 & E2)]; [left|right; eexists; by rewrite !OUTPUT_emit, E1, E2, <- !app_assoc].
  exists bs. split; [|done]. cbn. apply elem_of_app. by left.
Qed.

Lemma printed_count oc1 fc1 oc2 fc2 w1 w2 : printed_same pre w1 w2 -> printed_same pre (set_counters oc1 fc1 w1) (set_counters oc2 fc2 w2).
Proof. done. Qed.

(** Collected bytes, printed when they are UTF-8. *)
Lemma printed_bytes bs w1 w2 : printed_same pre w1 w2 ->
  printed_same pre (emit (Print bs) w1) (match from_utf8 bs with Some s => emit (Print s) w2 | None => w2 end).
Proof.
  intros Hw. destruct (from_utf8 bs) as [s|] eqn:E.
  - unfold from_utf8 in E. destruct (utf8_valid bs); [|done]. injection E as <-. by apply printed_emit.
  - left. exists bs. split; [|done]. cbn. apply elem_of_app. right. apply list_elem_of_singleton. done.
Qed.

Lemma call_one (f : Z -> H unit) vs n m w :
  host (do! need 1 in let! v := arg 1 in do! consume 1 in f v) vs n m w =
  if (n <? 1)%nat then (Err StackUnderflow, (vs, n, m, w)) else
  match vs !! (n - 1)%nat with Some v => host (f v) vs (n - 1)%nat m w | None => (Panic, (vs, n, m, w)) end.
Proof.
  unfold host, need, arg, consume, bind, gets, modify, lift. cbn [h_n h_vs h_mem h_w].
  destruct (n <? 1)%nat eqn:E; cbn [fail ret h_n h_vs h_mem h_w]; [done|]. rewrite E. by destruct (vs !! _).
Qed.

(** A function of one argument. *)
Lemma one_argument (f1 f2 : Z -> H unit) :
  (forall v vs n m1 m2 w1 w2, length vs = STACK_DEPTH -> (n <= STACK_DEPTH)%nat -> slice_eq m1 m2 -> printed_same pre w1 w2 ->
    exists r w1' w2', f1 v (mkHSt vs n m1 w1) = (r, mkHSt vs n m1 w1') /\ f2 v (mkHSt vs n m2 w2) = (r, mkHSt vs n m2 w2') /\ printed_same pre w1' w2') ->
  host_rel (printed_same pre) (host (do! need 1 in let! v := arg 1 in do! consume 1 in f1 v)) (host (do! need 1 in let! v := arg 1 in do! consume 1 in f2 v)).
Proof.
  intros Hf vs n m1 m2 w1 w2 Hl Hn Hm Hw. rewrite !call_one. destruct (n <? 1)%nat eqn:E; [done|]. zbool.
  destruct (lookup_lt_is_Some_2 vs (n - 1)) as [v ->]; [lia|]. unfold host.
  destruct (Hf v vs (n - 1)%nat m1 m2 w1 w2) as (r & w1' & w2' & -> & -> & Hw'); [done|lia|done..|]. cbn. split_and!; try done. lia.
Qed.

Lemma same_print_int : host_rel (printed_same pre) (host Harness.host_print_int) (host host_print_int).
Proof.
  apply one_argument. intros v vs n m1 m2 w1 w2 Hl Hn Hm Hw. unfold fmt_i32, bind, lift.
  rewrite (fmt_dec_display 10 _ 2147483648) by (pose proof (as_i32_range v) as []; lia).
  eexists _, _, _. split; [reflexivity|]. split; [reflexivity|]. by apply printed_emit.
Qed.

Lemma same_print_i64 : host_rel (printed_same pre) (host Harness.host_print_i64) (host host_print_i64).
Proof.
  apply one_argument. intros v vs n m1 m2 w1 w2 Hl Hn Hm Hw. unfold fmt_i64, bind, lift.
  rewrite (fmt_dec_display 19 _ 9223372036854775808) by (pose proof (as_i64_range v) as []; lia).
  eexists _, _, _. split; [reflexivity|]. split; [reflexivity|]. by apply printed_emit.
Qed.

Lemma same_print_char : host_rel (printed_same pre) (host Harness.host_print_char) (host host_print_char).
Proof.
  apply one_argument. intros v vs n m1 m2 w1 w2 Hl Hn Hm Hw. pose proof (printed_bytes [as_u8 (Z.land v 0xFF)] w1 w2 Hw) as Hp.
  eexists _, _, _. split; [reflexivity|]. split; [|exact Hp]. by destruct (from_utf8 _).
Qed.

Lemma same_print_hex : host_rel (printed_same pre) (host Harness.host_print_hex) (host host_print_hex).
Proof.
  apply one_argument. intros v vs n m1 m2 w1 w2 Hl Hn Hm Hw. rewrite upper_hex_kernel by apply as_u32_range.
  eexists _, _, _. split; [reflexivity|]. split; [reflexivity|]. rewrite app_assoc. by apply printed_emit.
Qed.

Lemma same_yield : host_rel (printed_same pre) (host Harness.host_yield_fn) (host host_yield).
Proof. intros vs n m1 m2 w1 w2 Hl Hn Hm Hw. done. Qed.

Lemma same_sleep_ms : host_rel (printed_same pre) (host Harness.host_sleep_ms) (host host_sleep_ms).
Proof.
  intros vs n m1 m2 w1 w2 Hl Hn Hm Hw. unfold host_sleep_ms. rewrite call_one.
  unfold host, Harness.host_sleep_ms, need, consume, bind, gets, modify. cbn [h_n h_vs h_mem h_w].
  destruct (n <? 1)%nat eqn:E; cbn [fail ret h_n h_vs h_mem h_w]; [done|]. zbool.
  destruct (lookup_lt_is_Some_2 vs (n - 1)) as [v ->]; [lia|]. cbn. split_and!; try done. lia.
Qed.

Lemma call_two (f : Z -> Z -> H unit) vs n m w :
  host (do! need 2 in let! b := arg 1 in let! a := arg 2 in do! consume 2 in f b a) vs n m w =
  if (n <? 2)%nat then (Err StackUnderflow, (vs, n, m, w)) else
  match vs !! (n - 1)%nat, vs !! (n - 2)%nat with
  | Some b, Some a => host (f b a) vs (n - 2)%nat m w
  | _, _ => (Panic, (vs, n, m, w))
  end.
Proof.
  unfold host, need, arg, consume, bind, gets, modify, lift. cbn [h_n h_vs h_mem h_w].
  destruct (n <? 2)%nat eqn:E; cbn [fail ret h_n h_vs h_mem h_w]; [done|]. rewrite (proj2 (Nat.ltb_ge n 1)) by (zbool; lia).
  destruct (vs !! (n - 1)%nat); cbn [or_panic h_n h_vs h_mem h_w]; [|done]. rewrite E. by destruct (vs !! (n - 2)%nat).
Qed.

Lemma same_print : host_rel (printed_same pre) (host Harness.host_print) (host host_print).
Proof.
  intros vs n m1 m2 w1 w2 Hl Hn Hm Hw. unfold Harness.host_print, host_print. rewrite !call_two.
  destruct (n <? 2)%nat eqn:E; [done|]. zbool.
  destruct (lookup_lt_is_Some_2 vs (n - 1)) as [b ->]; [lia|]. destruct (lookup_lt_is_Some_2 vs (n - 2)) as [a ->]; [lia|].
  unfold host, bind, gets, lift. cbn [h_mem]. rewrite (sread_range_same m1 m2 _ _ Hm), (proj1 Hm).
  destruct (sread_range m2 _ _) as [bs| | |]; cbn; try (split_and!; first [done|lia|apply Hm]).
  pose proof (printed_bytes bs w1 w2 Hw) as Hp. destruct (from_utf8 bs); cbn; split_and!; first [done|lia|apply Hm].
Qed.
End hosts.

(** The imports with the same effect on both sides: all the harness offers but
    [uptime_ms], which answers 0 there and the time in the kernel. *)
Definition shared : list (list Z) :=
  List.filter (fun nm => negb (bytes_eqb nm (str "uptime_ms"))) (map fst Harness.app_hosts).

Lemma shared_names : shared =
  [str "print"; str "print_int"; str "print_i64"; str "print_char"; str "print_hex"; str "sleep_ms"; str "yield"].
Proof. reflexivity. Qed.

Lemma shared_hosts pre k nm : nm ∈ shared ->
  exists h1 h2, Harness.app_host (str "env") nm = Some h1 /\ lookup_host (str "env") nm (init_host_fns k) = Some h2 /\
    host_rel (printed_same pre) h1 h2.
Proof.
  rewrite init_host_fns_ok. intros Hin. rewrite shared_names, !elem_of_cons in Hin.
  destruct Hin as [->|[->|[->|[->|[->|[->|[->|Hin]]]]]]]; [..|by inversion Hin].
  - eexists _, _. split; [reflexivity|]. split; [reflexivity|]. exact (same_print pre).
  - eexists _, _. split; [reflexivity|]. split; [reflexivity|]. exact (same_print_int pre).
  - eexists _, _. split; [reflexivity|]. split; [reflexivity|]. exact (same_print_i64 pre).
  - eexists _, _. split; [reflexivity|]. split; [reflexivity|]. exact (same_print_char pre).
  - eexists _, _. split; [reflexivity|]. split; [reflexivity|]. exact (same_print_hex pre).
  - eexists _, _. split; [reflexivity|]. split; [reflexivity|]. exact (same_sleep_ms pre).
  - eexists _, _. split; [reflexivity|]. split; [reflexivity|]. exact (same_yield pre).
Qed.

(** ** Runs *)

#[local] Existing Instance Harness.no_features.

Lemma yielded_dec (r : result InterpError unit) : {r = Err Yielded} + {r <> Err Yielded}.
Proof. destruct r as [u|[]| |]; (left; reflexivity) || (right; discriminate). Defined.

Lemma resume_app_stops `{FloatEnv} fuel r s : r <> Err Yielded -> Harness.resume_app fuel (r, s) = (r, s).
Proof. intros Hr. destruct fuel, r as [|[]| |]; reflexivity || congruence. Qed.

(** What [finish] makes of an outcome that is not a yield ends [drain]. *)
Lemma drain_stops `{FloatEnv} fuel h r i k : r <> Err Yielded -> (exists v, top i = Ok v) -> drain fuel h (finish r i, k) = (finish r i, k).
Proof. intros Hr [v Ev]. unfold finish. rewrite Ev. destruct fuel, r as [|[]| |]; reflexivity || congruence. Qed.

Section runs.
Context `{FE : FloatEnv}.
Context (hs1 hs2 : list (option HostFn)) (pre : list Z * list Z) (L : Z).
Context (hosts : Forall2 (option_Forall2 (host_rel (printed_same pre))) hs1 hs2).
Notation sim := (sim hs1 hs2 (printed_same pre) L).

(** The kernel has, in slot [h], the twin of the harness's interpreter. *)
Definition holds (h : nat) (i : Interpreter) (w : World) (k : Kernel) : Prop :=
  exists s ins sm m, POOL k !! h = Some s /\ SLOT_MEM k !! h = Some sm /\ active s = true /\ inst s = Some ins /\
    interp ins = twin hs2 m i /\ alike_mem L (mem i) sm /\ host_fns (code i) = hs1 /\ bounded i /\ printed_same pre w (k_world k).

Lemma sim_call (m : I unit) : agree hs1 hs2 (printed_same pre) L m m -> forall h i w k, holds h i w k -> (h < MAX_INSTANCES)%nat ->
  let '(r, s) := m (mkSt i w (active_mem_bytes i)) in
  exists k', with_interp h m k = (finish r (it s), k') /\ holds h (it s) (world s) k' /\ (h < length (POOL k'))%nat.
Proof.
  intros Ha h i w k (s & ins & sm & m0 & Hp & Hm & Hact & Hi & Ht & Hmem & Hh & Hb & Hw) Hlt. unfold with_interp. rewrite Hp, Hm, Hi, Ht.
  set (i2 := set_mem sm _ _).
  destruct (Ha (mkSt i w (active_mem_bytes i)) (mkSt i2 (k_world k) (active_mem_bytes i2))) as [Er Hs].
  { split; try done. by exists sm. }
  destruct (m (mkSt i w _)) as [r1 s1], (m (mkSt i2 _ _)) as [r2 s2]. cbn [fst snd] in Er, Hs. subst r2.
  destruct (s_it _ _ _ _ _ _ Hs) as (m2 & E2 & Em2 & El2).
  eexists. split; [f_equal; unfold finish, top; rewrite E2; done|]. cbn.
  split; [|rewrite length_insert; by apply lookup_lt_Some in Hp].
  exists (mkPoolSlot (active s) (ps_name s) (ps_name_len s) (mem_pages s) (Some (mkInstance (i_bytes ins) (it s2)))),
    (mkInstance (i_bytes ins) (it s2)), (Slice (slen sm) (sget (mem (it s2)))), m2. cbn.
  rewrite !list_lookup_insert_eq by (by eapply lookup_lt_Some). split_and!; try done; [|apply Hs..].
  split; [|done]. rewrite E2. cbn. destruct Hmem as [[Hl _] HL]. split; cbn; [congruence|]. apply Em2.
Qed.

Lemma finish_top i : bounded i -> exists v, top i = Ok v.
Proof.
  intros [Hl Hv _]. unfold top. destruct (0 <? vsp i)%nat eqn:E; zbool; [|by eexists].
  destruct (lookup_lt_is_Some_2 (vstack i) (vsp i - 1)) as [v ->]; [lia|]. by eexists.
Qed.

(** Resuming until the end, in the harness and in the kernel. *)
Lemma drained fuel h : (h < MAX_INSTANCES)%nat -> forall r s k, holds h (it s) (world s) k ->
  let '(r', s') := Harness.resume_app fuel (r, s) in
  exists k', drain fuel h (finish r (it s), k) = (finish r' (it s'), k') /\ holds h (it s') (world s') k'.
Proof.
  intros Hh. induction fuel as [|fuel IH]; intros r s k Hk.
  all: assert (exists v, top (it s) = Ok v) as Ht by (apply finish_top; by destruct Hk as (? & ? & ? & ? & Hk); apply Hk).
  all: destruct (yielded_dec r) as [->|Hr]; [|rewrite resume_app_stops by done; exists k; by rewrite drain_stops].
  - by exists k.
  - cbn [Harness.resume_app finish drain].
    pose proof (sim_call (resume fuel) (agree_run eq_refl hs1 hs2 (printed_same pre) L (printed_emit pre) (printed_count pre) hosts fuel) h (it s) (world s) k Hk Hh) as Hc.
    change (resume fuel (mkSt (it s) (world s) (active_mem_bytes (it s)))) with (resume fuel s) in Hc.
    destruct (resume fuel s) as [r1 s1] eqn:E1. destruct Hc as (k1 & E & Hk1 & _).
    destruct Hk as (sl & ins & sm & m & Hp & Hm & Ha & Hi & _).
    enough (resume_task fuel h k = (finish r1 (it s1), k1)) as -> by (by apply IH).
    unfold resume_task, get_instance, bind, gets, lift. rewrite (proj2 (Nat.leb_gt _ _)) by done. rewrite Hp. cbn [or_panic]. rewrite Ha. cbn [negb].
    rewrite Hi. exact E.
Qed.

(** ** Starting *)

Lemma push_args_same args i i' w a : length (vstack i) = STACK_DEPTH -> Harness.push_args args i = Ok i' ->
  push_args args (mkSt i w a) = (Ok tt, mkSt i' w a) /\ current_pages i' = current_pages i.
Proof.
  revert i; induction args as [|v args IH]; intros i Hl; cbn [Harness.push_args push_args]; [by intros [= <-]|].
  destruct (vsp i <? length (vstack i))%nat eqn:E; [|done]. zbool. intros Hp. unfold bind at 1, get, gets. cbn [it].
  rewrite (proj2 (Nat.leb_gt _ _)) by lia. apply IH in Hp; [|cbn; by rewrite length_insert]. exact Hp.
Qed.

Lemma agree_push_args args : agree hs1 hs2 (printed_same pre) L (push_args args) (push_args args).
Proof.
  induction args as [|v args IH]; cbn [push_args]; [apply agree_ret|]. apply agree_vsp. intros n Hn.
  destruct (STACK_DEPTH <=? n)%nat eqn:E; [apply agree_fail|]. zbool. apply agree_bind; [|done].
  apply agree_on_it; [done..|]. intros i []. split; cbn; [by rewrite length_insert|lia|done].
Qed.

Lemma agree_start fuel f args : agree hs1 hs2 (printed_same pre) L
  (do! on_it reset_for_call in do! push_args args in call fuel f) (do! on_it reset_for_call in do! push_args args in call fuel f).
Proof.
  apply agree_bind; [|intros _; apply agree_bind; [apply agree_push_args|]].
  - apply agree_on_it; [done..|]. intros i []. split; cbn; [done|lia|done].
  - intros _. apply agree_call; [done|apply printed_emit|apply printed_count|exact hosts].
Qed.

(** [start_task] and the resumptions after it. *)
Lemma started fuel h i i' w k entry args bytes module f :
  holds h i w k -> (h < MAX_INSTANCES)%nat -> (exists s ins, POOL k !! h = Some s /\ inst s = Some ins /\ i_bytes ins = bytes) ->
  load bytes = Ok module -> find_export module entry = Ok f -> Harness.push_args args (reset_for_call i) = Ok i' ->
  let '(r, s) := Harness.resume_app fuel (call fuel (Z.to_nat f) (mkSt i' w (active_mem_bytes i'))) in
  exists k', drain fuel h (start_task fuel h entry args k) = (finish r (it s), k') /\ holds h (it s) (world s) k'.
Proof.
  intros Hk Hh (sl & ins & Hp & Hi & Hb) Hl He Ha.
  pose proof (sim_call _ (agree_start fuel (Z.to_nat f) args) h i w k Hk Hh) as Hc.
  destruct (push_args_same args (reset_for_call i) i' w (active_mem_bytes i)) as [Ep Eq]; [by destruct Hk as (? & ? & ? & ? & Hk); apply Hk|done|].
  unfold bind at 1 2, on_it, modify in Hc. cbn [it world active_mem] in Hc. rewrite Ep in Hc.
  assert (active_mem_bytes i' = active_mem_bytes i) as Eact by (unfold active_mem_bytes; by rewrite Eq).
  rewrite Eact. destruct (call fuel _ _) as [r1 s1] eqn:E1. destruct Hc as (k1 & E & Hk1 & _).
  enough (start_task fuel h entry args k = (finish r1 (it s1), k1)) as -> by (by apply drained).
  destruct Hk as (sl' & ins' & sm & m & Hp' & Hm & Hact & Hi' & _). rewrite Hp in Hp'. injection Hp' as <-.
  assert (get_instance h k = (Ok ins, k)) as Eg.
  { unfold get_instance, bind, gets, lift. rewrite (proj2 (Nat.leb_gt _ _)) by done. rewrite Hp. cbn [or_panic]. rewrite Hact. cbn [negb]. by rewrite Hi. }
  unfold start_task, bind at 1. rewrite Eg. unfold bind at 1, lift at 1. rewrite Hb, Hl. cbn [map_err]. unfold bind at 1, lift at 1. rewrite He. exact E.
Qed.
End runs.

(** ** Instantiation *)

Lemma new_twin module ic m hs1 hs2 pages i : Interpreter_new module ic m hs1 pages = Ok i ->
  Interpreter_new module ic m hs2 pages = Ok (twin hs2 m i) /\ bounded i /\ host_fns (code i) = hs1 /\ mem i = m.
Proof.
  unfold Interpreter_new. intros E.
  repeat match type of E with
  | rbind ?c _ = Ok _ => destruct c as [?|?| |]; cbn [rbind] in E |- *; [|done..]
  | (let '(_, _) := ?x in _) = Ok _ => destruct x
  | (match ?x with _ => _ end) = Ok _ => destruct x
  end. injection E as <-. split; [done|]. split; [|done]. split; cbn; [done|unfold STACK_DEPTH; lia|].
  apply Forall_replicate. cbn. lia.
Qed.

(** The import section holds these imports, all of them functions of [env] with
    the same effect on both sides. *)
Definition shared_imports (module : Module_) (ims : list import) : Prop :=
  Z.of_nat (length ims) < 4294967296 /\ Forall import_ok ims /\ (length ims <= MAX_FUNCS)%nat /\
  Forall (fun i => is_func_import i = true /\ im_mod i = str "env" /\ im_name i ∈ shared) ims /\
  match import_section module with Some sec => sec = encode_vec encode_import ims | None => ims = [] end.

Lemma all_func ims : Forall (fun i => is_func_import i = true /\ im_mod i = str "env" /\ im_name i ∈ shared) ims ->
  List.filter is_func_import ims = ims.
Proof. induction 1 as [|i ims [H _] _ IH]; cbn; [done|]. by rewrite H, IH. Qed.

Definition app_resolved (i : import) : option HostFn := Harness.app_host (im_mod i) (im_name i).

Lemma resolve_app_fold fims pre arr : (length pre + length fims <= MAX_FUNCS)%nat -> (length fims <= length arr)%nat ->
  fold_left (fun a i => Harness.resolve_app (im_mod i) (im_name i) a) fims (Ok (pre ++ arr, length pre)) =
  Ok (pre ++ filled_with (map app_resolved fims) arr, (length pre + length fims)%nat).
Proof.
  revert pre arr; induction fims as [|i fims IH]; intros pre arr Hm Ha; cbn [fold_left map length] in *.
  - unfold filled_with. cbn. by rewrite drop_0, Nat.add_0_r.
  - unfold Harness.resolve_app at 2. cbn [rbind]. rewrite (proj2 (Nat.ltb_lt _ _)) by (rewrite length_app; lia).
    fold (app_resolved i). rewrite fill_step by (done || lia). rewrite (fill_lens pre (app_resolved i) _ eq_refl).
    rewrite IH by (rewrite ?length_app, ?length_drop; cbn; lia).
    unfold filled_with. cbn [length]. rewrite drop_drop, length_app, <- !app_assoc. cbn [length app]. do 2 f_equal. lia.
Qed.

Lemma same_registry m nm k k' : HOST_REGISTRY k = HOST_REGISTRY k' -> HOST_COUNT k = HOST_COUNT k' ->
  lookup_host m nm k = lookup_host m nm k'.
Proof. unfold lookup_host. by intros -> ->. Qed.

Lemma shared_related pre k ims : HOST_REGISTRY k = HOST_REGISTRY (init_host_fns k) -> HOST_COUNT k = HOST_COUNT (init_host_fns k) ->
  Forall (fun i => is_func_import i = true /\ im_mod i = str "env" /\ im_name i ∈ shared) ims ->
  Forall2 (option_Forall2 (host_rel (printed_same pre))) (filled_with (map app_resolved ims) (replicate MAX_FUNCS None))
    (filled_with (map (resolved k) ims) (replicate MAX_FUNCS None)) /\
  existsb (fun i => bool_decide (resolved k i = None)) ims = false.
Proof.
  intros Hr Hc Hi. unfold filled_with. rewrite !length_map. induction Hi as [|i ims (_ & Em & Hn) _ IH].
  - split; [|done]. cbn [map app]. rewrite drop_0. apply Forall2_replicate. constructor.
  - destruct (shared_hosts pre k _ Hn) as (h1 & h2 & E1 & E2 & Hh).
    assert (resolved k i = Some h2) as E2'.
    { unfold resolved. rewrite Em. etransitivity; [exact (same_registry _ _ _ _ Hr Hc)|exact E2]. }
    destruct IH as [IH1 IH2]. apply Forall2_app_inv in IH1 as [IH1 IH3]; [|by rewrite !length_map].
    split; [|cbn [existsb]; by rewrite E2', IH2]. cbn [map app]. constructor; [|apply Forall2_app; [done|]].
    + unfold app_resolved. rewrite Em, E1, E2'. by constructor.
    + cbn [length]. rewrite <- !(drop_drop _ (length ims) 1), !drop_replicate in *. by apply Forall2_replicate; constructor.
Qed.

(** ** A module of the harness in the kernel *)

(** The kernel accepts the data section for a fresh region. *)
Definition accepted_data (module : Module_) : Prop :=
  match data_section module with
  | None => True
  | Some d => exists m, init_memory d (zero_slice (MAX_MEM_PAGES * PAGE_SIZE)) = Ok (true, m)
  end.

(** The built-in host functions are registered. *)
Definition has_builtins (k : Kernel) : Prop :=
  HOST_REGISTRY k = HOST_REGISTRY (init_host_fns k) /\ HOST_COUNT k = HOST_COUNT (init_host_fns k).

Lemma register_all_same m fs k k' : HOST_REGISTRY k = HOST_REGISTRY k' -> HOST_COUNT k = HOST_COUNT k' ->
  HOST_REGISTRY (register_all m fs k) = HOST_REGISTRY (register_all m fs k') /\
  HOST_COUNT (register_all m fs k) = HOST_COUNT (register_all m fs k').
Proof.
  revert k k'; induction fs as [|e fs IH]; intros k k' Hr Hc; [done|]. apply IH; unfold register_host; rewrite Hc;
    destruct (_ <? _)%nat; cbn; congruence.
Qed.

Lemma init_has_builtins k : has_builtins (init_host_fns k).
Proof.
  unfold has_builtins, init_host_fns. set (k1 := register_all _ net_hosts _) at 2 4.
  destruct (register_all_same (str "env") env_hosts (set_registry (replicate MAX_HOST_FUNCS None) 0 k)
    (set_registry (replicate MAX_HOST_FUNCS None) 0 k1) eq_refl eq_refl) as [Hr Hc].
  exact (register_all_same (str "net") net_hosts _ _ Hr Hc).
Qed.

Section spawning.
Context `{FE : FloatEnv}.
Context (k : Kernel) (bytes : list Z) (module : Module_) (ims : list import) (h : nat).
Context (Hpool : pool_ok k) (Hreg : has_builtins k) (Hfree : position (fun s => negb (active s)) (POOL k) = Some h).
Context (Hload : load bytes = Ok module) (Hpages : Harness.min_pages_of module = Ok MAX_MEM_PAGES).
Context (Hims : shared_imports module ims) (Hdata : accepted_data module).

Definition app_fns : list (option HostFn) := filled_with (map app_resolved ims) (replicate MAX_FUNCS None).
Definition kernel_fns : list (option HostFn) := filled_with (map (resolved k) ims) (replicate MAX_FUNCS None).
Notation size := (MAX_MEM_PAGES * PAGE_SIZE).

Lemma app_imports : (match import_section module with
    | Some sec => let? a := Harness.never (for_each_func_import Harness.resolve_app sec (Ok (replicate MAX_FUNCS None, 0%nat))) in a
    | None => Ok (replicate MAX_FUNCS None, 0%nat)
    end) = Ok (app_fns, length ims).
Proof.
  destruct Hims as (Hl & Hok & Hm & Hf & Hs). unfold app_fns. destruct (import_section module) as [sec|]; [subst sec|by subst ims].
  rewrite for_each_func_import_encode by done. rewrite all_func by done. cbn [Harness.never map_err rbind].
  apply (resolve_app_fold ims [] (replicate MAX_FUNCS None)); [done|]. by rewrite length_replicate.
Qed.

Lemma kernel_imports k' : HOST_REGISTRY k' = HOST_REGISTRY k -> HOST_COUNT k' = HOST_COUNT k ->
  count_func_imports (import_section module) = Ok (length ims) /\
  exists r, resolve_imports (import_section module) k' = Ok r /\ r_fns r = kernel_fns /\ r_missing r = false.
Proof.
  intros E1 E2. destruct Hims as (Hl & Hok & Hm & Hf & Hs). unfold kernel_fns.
  destruct (shared_related ([], []) k ims (proj1 Hreg) (proj2 Hreg) Hf) as [_ Hx].
  assert (forall i, resolved k' i = resolved k i) as Er by (intros i; by apply same_registry).
  destruct (import_section module) as [sec|]; [subst sec|subst ims; split; [done|]; by eexists].
  rewrite count_func_imports_encode, resolve_imports_encode, all_func by (rewrite ?all_func; done).
  split; [done|]. eexists. split; [reflexivity|]. cbn. rewrite (map_ext _ _ Er). split; [done|].
  rewrite <- Hx. clear -Er. induction ims as [|i l IH]; cbn; [done|]. by rewrite Er, IH.
Qed.

(** The data section written to the slot and to the harness's memory. *)
Lemma loaded_twin i0 i : mem i0 = zero_slice size -> host_fns (code i0) = app_fns -> bounded i0 ->
  match data_section module with
  | Some data => let? m := Harness.never (Harness.init_data data (mem i0)) in Ok (set_mem m (current_pages i0) i0)
  | None => Ok i0
  end = Ok i ->
  exists m m', load_data h (data_section module) (twin kernel_fns (zero_slice size) i0)
      (set_slot_mem (<[h := zero_slice size]> (SLOT_MEM k)) k) =
    (Ok (twin kernel_fns m' i), set_slot_mem (<[h := m]> (SLOT_MEM k)) k) /\ alike_mem size (mem i) m /\
    host_fns (code i) = app_fns /\ bounded i.
Proof.
  intros Hm Hf Hb. unfold load_data. unfold accepted_data in Hdata. destruct (data_section module) as [d|].
  - destruct Hdata as [m1 E1]. destruct (init_agrees d (zero_slice size) m1 eq_refl E1) as (m2 & E2 & Heq). rewrite Hm, E2.
    cbn [Harness.never map_err rbind]. intros [= <-]. exists m1, m1. cbn [twin mem]. unfold infallible, bind, lift. rewrite E1.
    cbn [map_err]. unfold write_slot_mem, modify. cbn. rewrite list_insert_insert_eq. split; [done|].
    apply init_memory_slen in E1. destruct Hb. split; [split; [done|]|]; [cbn; by rewrite (proj1 Heq)|]. split; [done|by split].
  - intros [= <-]. eexists _, _. split; [reflexivity|]. rewrite Hm. done.
Qed.

(** The instance [spawn] makes is the twin of the harness's. *)
Lemma spawned_twin i : Harness.new_interp module (length ims) app_fns MAX_MEM_PAGES = Ok i ->
  exists k1, spawn [] bytes k = (Ok h, k1) /\ k_world k1 = k_world k /\ pool_ok k1 /\
    (exists s ins, POOL k1 !! h = Some s /\ inst s = Some ins /\ i_bytes ins = bytes) /\
    forall pre w, printed_same pre w (k_world k) -> holds app_fns kernel_fns pre size h i w k1.
Proof.
  intros Hnew. assert (Hh : (h < MAX_INSTANCES)%nat) by (rewrite <- (po_pool k Hpool); by eapply position_lt).
  destruct (lookup_lt_is_Some_2 (POOL k) h) as [s Hs]; [by rewrite (po_pool k Hpool)|].
  destruct (lookup_lt_is_Some_2 (SLOT_MEM k) h) as [sm Hsm]; [by rewrite (po_mems k Hpool)|].
  pose proof (Forall_lookup_1 _ _ _ _ (po_size k Hpool) Hsm) as Hsize. cbn beta in Hsize.
  set (k0 := set_slot_mem (<[h := zero_slice size]> (SLOT_MEM k)) k).
  destruct (kernel_imports k0 eq_refl eq_refl) as (Ec & r & Er & Ef & Em).
  unfold Harness.new_interp in Hnew. destruct (Interpreter_new module (length ims) (Harness.mem_buf MAX_MEM_PAGES) app_fns MAX_MEM_PAGES) as [i0| | |] eqn:Ei; try done.
  cbn [map_err rbind] in Hnew. change (Harness.mem_buf MAX_MEM_PAGES) with (zero_slice size) in Ei.
  destruct (new_twin _ _ _ _ kernel_fns _ _ Ei) as (Ei2 & Hb & Hhost & Hmem).
  destruct (loaded_twin i0 i Hmem Hhost Hb Hnew) as (m & m' & Eld & Hal & Hhi & Hbi). fold k0 in Eld.
  set (k1 := set_slot_mem (<[h := m]> (SLOT_MEM k)) k) in *.
  assert (min_pages_of module k = (Ok MAX_MEM_PAGES, k)) as Emin.
  { unfold Harness.min_pages_of in Hpages. unfold min_pages_of. destruct (memory_section module) as [sec|]; [|done].
    unfold infallible, lift. destruct (read_memory_min_pages sec); cbn in Hpages |- *; congruence. }
  assert (zero_mem h k = (Ok tt, k0)) as Ez by (unfold zero_mem, bind, gets, lift, write_slot_mem, modify; rewrite Hsm; cbn; by rewrite Hsize).
  assert (lift (E := RunError.t) (or_panic (SLOT_MEM k0 !! h)) k0 = (Ok (zero_slice size), k0)) as Em0
    by (unfold lift, k0; cbn [set_slot_mem SLOT_MEM]; by rewrite (list_lookup_insert_eq (SLOT_MEM k) h _ (lookup_lt_Some _ _ _ Hsm))).
  eexists. split.
  { unfold spawn. rewrite (bind_run (gets POOL) _ k (POOL k) k eq_refl). rewrite (bind_run _ _ k h k) by (unfold lift; by rewrite Hfree).
    unfold spawn_in. rewrite (bind_run _ _ k module k) by (unfold lift; by rewrite Hload). rewrite (bind_run _ _ _ _ _ Emin).
    rewrite (Z.ltb_irrefl MAX_MEM_PAGES). rewrite (bind_run _ _ _ _ _ Ez). rewrite (bind_run _ _ k0 (length ims) k0) by (unfold infallible, lift; by rewrite Ec).
    rewrite (bind_run (gets (fun k => k)) _ k0 k0 k0 eq_refl). rewrite (bind_run _ _ k0 r k0) by (unfold infallible, lift; by rewrite Er). rewrite Em.
    rewrite (bind_run _ _ _ _ _ Em0). rewrite (bind_run _ _ k0 (twin kernel_fns (zero_slice size) i0) k0) by (unfold lift; rewrite Ef; by rewrite Ei2).
    rewrite (bind_run _ _ _ _ _ Eld). rewrite (bind_run _ _ k1 (twin kernel_fns m' i) k1) by reflexivity.
    unfold install, bind, gets, lift. cbn [k1 POOL set_slot_mem]. rewrite Hs. reflexivity. }
  split; [done|]. split; [|split].
  - split; cbn; [by rewrite length_insert, (po_pool k Hpool)|by rewrite length_insert, (po_mems k Hpool)| |].
    + apply Forall_insert; [apply Hpool|]. rewrite <- (proj1 (proj1 Hal)). apply Hal.
    + intros j x [(-> & <- & _)|[_ Hj]]%list_lookup_insert_Some; [done|by eapply po_inst].
  - eexists _, _. cbn. rewrite (list_lookup_insert_eq (POOL k) h _ (lookup_lt_Some _ _ _ Hs)). split; [reflexivity|]. done.
  - intros pre w Hw. eexists _, _, m, m'. cbn. rewrite (list_lookup_insert_eq (POOL k) h _ (lookup_lt_Some _ _ _ Hs)).
    rewrite (list_lookup_insert_eq (SLOT_MEM k) h _ (lookup_lt_Some _ _ _ Hsm)).
    split_and!; [reflexivity|done|done|reflexivity|reflexivity|done|done|done|done].
Qed.

(** What a successful run of the harness went through. *)
Lemma run_app_ok fuel args w out : (Harness.run_app fuel bytes args w).1 = Ok out ->
  exists i f i' s, Harness.new_interp module (length ims) app_fns MAX_MEM_PAGES = Ok i /\ find_export module (str "main") = Ok f /\
    Harness.push_args args (reset_for_call i) = Ok i' /\
    Harness.resume_app fuel (call fuel (Z.to_nat f) (mkSt i' (set_log [] w) (active_mem_bytes i'))) = (Ok tt, s) /\
    out = from_utf8_lossy (Harness.OUTPUT (world s)).
Proof.
  unfold Harness.run_app. rewrite (bind_run _ _ _ tt (set_log [] w)) by reflexivity. set (w0 := set_log [] w).
  rewrite (bind_run _ _ _ module w0) by (unfold lift, Harness.load_wasm; by rewrite Hload).
  rewrite (bind_run _ _ _ MAX_MEM_PAGES w0) by (unfold lift; by rewrite Hpages). cbv zeta.
  rewrite (bind_run _ _ _ (app_fns, length ims) w0) by (unfold lift; by rewrite app_imports).
  unfold bind, lift, Harness.entry_index. destruct (Harness.new_interp _ _ _ _) as [i| | |] eqn:Ei; try done.
  destruct (find_export module _) as [f| | |] eqn:Ef; try done. cbn [map_err rbind].
  destruct (Harness.push_args args _) as [i'| | |] eqn:Ep; try done.
  destruct (Harness.resume_app _ _) as [[[]| | |] s] eqn:Er; cbn; try done. intros [= <-]. by exists i, f, i', s.
Qed.

(** The kernel's run of what the harness starts. *)
Lemma entry_in_kernel fuel entry args i f i' w s : Harness.new_interp module (length ims) app_fns MAX_MEM_PAGES = Ok i ->
  find_export module entry = Ok f -> Harness.push_args args (reset_for_call i) = Ok i' ->
  Harness.resume_app fuel (call fuel (Z.to_nat f) (mkSt i' w (active_mem_bytes i'))) = (Ok tt, s) ->
  exists v k', top (it s) = Ok v /\ run fuel bytes entry args k = (Ok v, k') /\
    printed_same (Harness.OUTPUT w, Harness.OUTPUT (k_world k)) (world s) (k_world k').
Proof.
  intros Hi Hf Hp Hr. assert (Hh : (h < MAX_INSTANCES)%nat) by (rewrite <- (po_pool k Hpool); by eapply position_lt).
  destruct (spawned_twin i Hi) as (k1 & Es & Ew & Hpool1 & Hbytes & Hholds). set (pre := (Harness.OUTPUT w, Harness.OUTPUT (k_world k))).
  assert (printed_same pre w (k_world k)) as Hw by (right; exists []; unfold pre; cbn; by rewrite !app_nil_r).
  destruct Hims as (_ & _ & _ & Hshared & _).
  pose proof (started app_fns kernel_fns pre size (proj1 (shared_related pre k ims (proj1 Hreg) (proj2 Hreg) Hshared)) fuel h i i' w k1
    entry args bytes module f (Hholds pre w Hw) Hh Hbytes Hload Hf Hp) as Hst.
  rewrite Hr in Hst. destruct Hst as (k2 & Ed & Hk2).
  assert (pool_ok k2) as Hpool2.
  { pose proof (drain_own fuel h k1 _ (start_task_own fuel h entry args k1 Hpool1)) as Ho. rewrite Ed in Ho. apply Ho. }
  destruct (destroy_effect h k2 Hpool2) as (k3 & E3 & _ & _ & Ew3 & _). destruct Hk2 as (? & ? & ? & ? & _ & _ & _ & _ & _ & _ & _ & Hb & Hpr).
  destruct (finish_top (it s) Hb) as [v Ev]. exists v, k3. split; [done|]. split; [|by rewrite Ew3].
  unfold run. rewrite (bind_run _ _ _ _ _ Es), Ed. cbn [finish]. rewrite Ev. cbn [map_err rbind]. by rewrite (bind_run _ _ _ _ _ E3).
Qed.

Lemma collected_ascii w bs : ascii (Harness.OUTPUT w) -> Print bs ∈ log w -> ascii bs.
Proof.
  unfold Harness.OUTPUT. intros Ha (l1 & l2 & E)%list_elem_of_split. rewrite E, map_app, concat_app in Ha. cbn in Ha.
  by apply Forall_app in Ha as [_ [Ha _]%Forall_app].
Qed.

Lemma app_in_kernel fuel args w out : (Harness.run_app fuel bytes args w).1 = Ok out -> ascii out ->
  exists v k', run fuel bytes (str "main") args k = (Ok v, k') /\ Harness.OUTPUT (k_world k') = Harness.OUTPUT (k_world k) ++ out.
Proof.
  intros Hrun Ha. apply run_app_ok in Hrun as (i & f & i' & s & Hi & Hf & Hp & Hr & ->).
  destruct (entry_in_kernel fuel _ args i f i' _ s Hi Hf Hp Hr) as (v & k' & _ & Erun & Hpr). exists v, k'. split; [done|].
  pose proof (lossy_ascii _ Ha) as El. rewrite El in Ha |- *. destruct Hpr as [(bs & Hin & Hu)|(d & E1 & E2)]; [|cbn in E1; by rewrite E1].
  exfalso. rewrite (ascii_valid bs (collected_ascii _ _ Ha Hin)) in Hu. done.
Qed.

Lemma function_in_kernel fuel func args w v : ims = [] -> (Harness.run_wasm fuel bytes func args w).1 = Ok v ->
  exists k', run fuel bytes func args k = (Ok v, k').
Proof.
  intros Hno. unfold Harness.run_wasm. rewrite (bind_run _ _ _ module w) by (unfold lift, Harness.load_wasm; by rewrite Hload).
  rewrite (bind_run _ _ _ MAX_MEM_PAGES w) by (unfold lift; by rewrite Hpages).
  assert (replicate MAX_FUNCS None = app_fns) as -> by (unfold app_fns; by rewrite Hno). replace 0%nat with (length ims) at 1 by (by rewrite Hno).
  unfold bind, lift, Harness.entry_index. destruct (Harness.new_interp _ _ _ _) as [i| | |] eqn:Ei; try done.
  destruct (find_export module _) as [f| | |] eqn:Ef; try done. cbn [map_err rbind].
  destruct (Harness.push_args args _) as [i'| | |] eqn:Ep; try done.
  destruct (call _ _ _) as [[[]| | |] s] eqn:Er; cbn; try done. intros Ht.
  destruct (entry_in_kernel fuel func args i f i' w s Ei Ef Ep) as (v' & k' & Ev & Erun & _); [by rewrite Er, resume_app_stops|].
  exists k'. rewrite Ev in Ht. by injection Ht as <-.
Qed.
End spawning.
