(* ===== verification/Userland.v ===== *)
(** * The emulator guests ([userland/nes-wasm/src/lib.rs],
    [userland/gb-wasm/src/lib.rs])

    Guest code runs in the state the host functions see: its value stack, its
    memory and the kernel. The allocator gives the addresses of its buffers; the
    emulator crates are a class. *)

From S2P Require Import Prelude Leb128 FileTable Opcode World Machine Host.

(** ** Calls of imports *)

(** The arguments are pushed, the host function pops them, and the guest pops
    the result. *)
Fixpoint push_all_args (vs : list Z) : H unit :=
  match vs with [] => ret tt | v :: vs' => do! push_result v in push_all_args vs' end.
Definition call_import (f : H unit) (args : list Z) : H unit := do! push_all_args args in f.
Definition call_import_val (f : H unit) (args : list Z) : H Z :=
  do! call_import f args in let! v := arg 1 in do! consume 1 in ret v.
Definition call_import_i32 (f : H unit) (args : list Z) : H Z := let! v := call_import_val f args in ret (as_i32 v).

(** A host function that yields: the guest goes on when it is resumed. *)
Definition call_yielding (f : H unit) (args : list Z) : H unit := fun s =>
  match call_import f args s with
  | (Err Yielded, s') => (Ok tt, s')
  | r => r
  end.

(** The text lies among the guest's constants. *)
Definition dbg_print (s : list Z) : H unit := on_w (emit (Print s)).
Definition dbg_int (n : Z) : H unit := call_import host_print_int [as_i32 n].

(** ** NES *)
Module Nes.

Definition RGB_COLORS : list Z :=
  [0x666666; 0x002a88; 0x1412a7; 0x3b00a4; 0x5c007e; 0x6e0040; 0x6c0600; 0x561d00;
   0x333500; 0x0b4800; 0x005200; 0x004f08; 0x00404d; 0x000000; 0x000000; 0x000000;
   0xadadad; 0x155fd9; 0x4240ff; 0x7527fe; 0xa01acc; 0xb71e7b; 0xb53120; 0x994e00;
   0x6b6d00; 0x388700; 0x0c9300; 0x008f32; 0x007c8d; 0x000000; 0x000000; 0x000000;
   0xfffeff; 0x64b0ff; 0x9290ff; 0xc676ff; 0xf36aff; 0xfe6ecc; 0xfe8170; 0xea9e22;
   0xbcbe00; 0x88d800; 0x5ce430; 0x45e082; 0x48cdde; 0x4f4f4f; 0x000000; 0x000000;
   0xfffeff; 0xc0dfff; 0xd3d2ff; 0xe8c8ff; 0xfbc2ff; 0xfec4ea; 0xfeccc5; 0xf7d8a5;
   0xe4e594; 0xcfef96; 0xbdf4ab; 0xb3f3cc; 0xb5ebf2; 0xb8b8b8; 0x000000; 0x000000].

(** *** Screen: 256 x 240 words at [buf] *)

Definition put (buf x y color : Z) : H unit :=
  let! rgb := lift (or_panic (RGB_COLORS !! Z.to_nat (Z.land color 0x3f))) in
  let i := y * 256 + x in
  if 256 * 240 <=? i then panic else
  let! m := gets h_mem in
  let! m' := lift (swrite_bytes m (buf + 4 * i) (to_le_bytes 4 rgb)) in
  set_h_mem m'.

Definition blit_frame (buf : Z) : H unit := call_import host_fb_blit [buf; 256; 240].

(** *** Cartridge *)

Inductive BankType := PrgRom | ChrRom | Sram.
(** The values the guest makes of the crate's type. *)
Inductive MirrorType := Horizontal | Vertical | Four.

Record SimpleCart := mkCart { chr_rom : list Z; prg_rom : list Z; sram : list Z; mirror_type : MirrorType }.

Definition bank (kind : BankType) (c : SimpleCart) : list Z :=
  match kind with PrgRom => prg_rom c | ChrRom => chr_rom c | Sram => sram c end.
Definition get_size (kind : BankType) (c : SimpleCart) : nat := length (bank kind c).
Definition get_bank (base size : nat) (kind : BankType) (c : SimpleCart) : result InterpError (list Z) :=
  slice_range (bank kind c) base (base + size).
(** What the crate stores through the slice [get_bank_mut] gives it. *)
Definition get_bank_mut (base size : nat) (kind : BankType) (bs : list Z) (c : SimpleCart) : result InterpError SimpleCart :=
  let b := bank kind c in
  if (base + size <=? length b)%nat then
    let b' := take base b ++ take size bs ++ drop (base + length (take size bs)) b in
    Ok match kind with
       | PrgRom => mkCart (chr_rom c) b' (sram c) (mirror_type c)
       | ChrRom => mkCart b' (prg_rom c) (sram c) (mirror_type c)
       | Sram => mkCart (chr_rom c) (prg_rom c) b' (mirror_type c)
       end
  else Panic.
(** No saved states, no sound and no input. *)
Definition load_state (c : SimpleCart) : bool * SimpleCart := (false, c).
Definition save_state (c : SimpleCart) : bool := false.
Definition queue (sample : Z) : unit := tt.
Definition poll : Z := 0.
Definition get_mirror_type (c : SimpleCart) : MirrorType := mirror_type c.
Definition set_mirror_type (mt : MirrorType) (c : SimpleCart) : SimpleCart := mkCart (chr_rom c) (prg_rom c) (sram c) mt.

(** *** ROM file *)

(** The program, the characters, the battery memory, the mirroring and the
    mapper. *)
Record Rom := mkRom { r_prg : list Z; r_chr : list Z; r_sram : list Z; r_mirror : MirrorType; r_mapper : Z }.

Definition parse_rom (rom : list Z) : result InterpError (option Rom) :=
  let? magic := slice_range rom 0 4 in
  if negb (bytes_eqb magic [78; 69; 83; 0x1a]) then Ok None else
  let? prg_count := or_panic (rom !! 4%nat) in
  let? chr_count := or_panic (rom !! 5%nat) in
  let? flags6 := or_panic (rom !! 6%nat) in
  let? flags7 := or_panic (rom !! 7%nat) in
  let mapper_id := Z.lor (Z.land flags7 0xf0) (Z.shiftr flags6 4) in
  let mirror :=
    if negb (Z.land flags6 0x08 =? 0) then Four
    else if negb (Z.land flags6 0x01 =? 0) then Vertical else Horizontal in
  let trainer_size := if negb (Z.land flags6 0x04 =? 0) then 512 else 0 in
  let offset := 16 + trainer_size in
  let prg_size := prg_count * 16384 in
  let chr_size := chr_count * 8192 in
  if Z.of_nat (length rom) <? offset + prg_size + chr_size then Ok None else
  let? prg := slice_range rom (Z.to_nat offset) (Z.to_nat (offset + prg_size)) in
  let offset := offset + prg_size in
  let? chr := if 0 <? chr_size then slice_range rom (Z.to_nat offset) (Z.to_nat (offset + chr_size))
              else Ok (replicate (Z.to_nat 8192) 0) in
  Ok (Some (mkRom prg chr (replicate (Z.to_nat 8192) 0) mirror mapper_id)).

Definition NAME : list Z := str "game.nes".

(** [name] is the address of [NAME], [vec] that of the vector. *)
Definition load_rom (name vec : Z) : H (option Rom) :=
  let! size := call_import_i32 host_fs_size [name; 8] in
  if size <? 16 then ret None else
  let! read := call_import_i32 host_fs_read [name; 8; vec; size] in
  if negb (read =? size) then ret None else
  let! m := gets h_mem in
  lift (parse_rom (srange m vec (vec + size))).

(** *** Emulation *)

(** What the crate asks of the screen, in order. *)
Inductive screen_op := Put (x y color : Z) | EndFrame.

(** The crate's machine for a cartridge and a mapper number. *)
Class Emulator (E : Type) := {
  power_up : Z -> SimpleCart -> E;
  cpu_cycle : E -> Z;
  bus_tick : E -> list screen_op * E;
  cpu_step : E -> list screen_op * E
}.

Section emulation.
Context {E : Type} `{Emulator E} (buf : Z).

(** The machine and [FRAME_COUNT]. *)
Definition NesSt : Type := E * Z.

Fixpoint draw (ops : list screen_op) (frames : Z) : H Z :=
  match ops with
  | [] => ret frames
  | Put x y c :: ops' => do! put buf x y c in draw ops' frames
  | EndFrame :: ops' => do! blit_frame buf in draw ops' (as_u32 (frames + 1))
  end.

(** [while cpu.cycle > 0 { cpu.mem.bus.tick(); } cpu.step();], and again while
    the frame is not complete. *)
Fixpoint frame_loop (fuel : nat) (frame_counter : Z) (s : NesSt) : H NesSt :=
  match fuel with
  | O => lift OutOfFuel
  | S fuel' =>
    let '(e, frames) := s in
    if 0 <? cpu_cycle e then
      let '(ops, e') := bus_tick e in
      let! frames' := draw ops frames in frame_loop fuel' frame_counter (e', frames')
    else
      let '(ops, e') := cpu_step e in
      let! frames' := draw ops frames in
      if frame_counter =? frames' then frame_loop fuel' frame_counter (e', frames') else ret (e', frames')
  end.

Definition run_frame (fuel : nat) (frame_counter : Z) (s : NesSt) : H NesSt :=
  if frame_counter =? snd s then frame_loop fuel frame_counter s else ret s.

(** The frame, the time and the instruction count of the last report. *)
Record Report := mkReport { last_report_frame : Z; last_report_time : Z; last_report_ops : Z }.

Definition report (frame_counter now : Z) (r : Report) : H Report :=
  let frames_done := as_u32 (frame_counter - last_report_frame r) in
  if frames_done <? 30 then ret r else
  let elapsed_total := as_i32 (now - last_report_time r) in
  let ms_per_frame := elapsed_total ÷ as_i32 frames_done in
  let! ops_now := call_import_val host_wasm_opcount [] in
  let ops_delta := as_i64 (ops_now - last_report_ops r) in
  let ops_per_frame := ops_delta ÷ frames_done in
  let ops_per_sec := if 0 <? elapsed_total then as_i64 (ops_delta * 1000) ÷ elapsed_total else 0 in
  do! dbg_print (str "[nes] frame=") in do! dbg_int frame_counter in
  do! dbg_print (str " ms/frame=") in do! dbg_int ms_per_frame in
  do! dbg_print (str " ops/frame=") in do! dbg_int ops_per_frame in
  do! dbg_print (str " ops/sec=") in do! dbg_int ops_per_sec in
  do! dbg_print (str " (target 16ms)" ++ [NL]) in
  ret (mkReport frame_counter now ops_now).

(** One turn of the endless loop. *)
Definition nes_turn (fuel : nat) (frame_counter : Z) (s : NesSt) (r : Report) : H (NesSt * Report) :=
  let! frame_start := call_import_i32 host_uptime_ms [] in
  let! s := run_frame fuel frame_counter s in
  let frame_counter := snd s in
  let! now := call_import_i32 host_uptime_ms [] in
  let! r := report frame_counter now r in
  do! call_yielding host_sleep_ms [0] in
  let elapsed := as_i32 (now - frame_start) in
  do! if elapsed <? 16 then call_yielding host_sleep_ms [as_i32 (16 - elapsed)] else ret tt in
  ret (s, r).

(** The mapper the cartridge gets. *)
Definition mapper_for (mapper_id : Z) : option Z :=
  match mapper_id with 0 | 2 => Some 2 | 1 => Some 1 | 4 => Some 4 | _ => None end.

(** [main] up to the endless loop: the machine it enters the loop with. *)
Definition nes_main (name vec : Z) : H (option (NesSt * Report)) :=
  do! dbg_print (str "[nes] starting" ++ [NL]) in
  let! rom := load_rom name vec in
  match rom with
  | None => do! dbg_print (str "[nes] load_rom failed" ++ [NL]) in ret None
  | Some rom =>
    do! dbg_print (str "[nes] ROM loaded, mapper=") in
    do! dbg_int (r_mapper rom) in
    do! dbg_print [NL] in
    let cart := mkCart (r_chr rom) (r_prg rom) (r_sram rom) (r_mirror rom) in
    match mapper_for (r_mapper rom) with
    | None => do! dbg_print (str "[nes] unsupported mapper" ++ [NL]) in ret None
    | Some mapper =>
      do! dbg_print (str "[nes] mapper ok, wiring CPU/PPU/APU" ++ [NL]) in
      let e := power_up mapper cart in
      do! dbg_print (str "[nes] powerup done, running" ++ [NL]) in
      let! t := call_import_i32 host_uptime_ms [] in
      let! ops := call_import_val host_wasm_opcount [] in
      ret (Some ((e, 0), mkReport 0 t ops))
    end
  end.
End emulation.
End Nes.

(** ** Game Boy *)
Module Gb.

Section display.
(** The size of the picture is the crate's. *)
Context (VRAM_WIDTH VRAM_HEIGHT : nat).

(** [display[x][y]] *)
Definition new_display : list (list Z) := replicate VRAM_WIDTH (replicate VRAM_HEIGHT 0).

Fixpoint vram_update_loop (x : nat) (y : nat) (buffer : list Z) (d : list (list Z)) : result InterpError (list (list Z)) :=
  match buffer with
  | [] => Ok d
  | col :: buffer' =>
    match d !! x with
    | Some column => if (y <? length column)%nat then vram_update_loop (S x) y buffer' (<[x := <[y := col]> column]> d) else Panic
    | None => Panic
    end
  end.

Definition vram_update (line : nat) (buffer : list Z) (d : list (list Z)) : result InterpError (list (list Z)) :=
  vram_update_loop 0 line buffer d.

(** The other callbacks of the crate. *)
Definition joypad_pressed : bool := false.
Definition clock : H Z := let! last_report_time := call_import_i32 host_uptime_ms [] in ret (as_u64 last_report_time).
Definition recv_byte : option Z := None.
Definition sched : H bool := do! dbg_print (str "[gb] It's running!" ++ [NL]) in ret true.
Definition load_ram (size : nat) : list Z := replicate size 0.

(** A call of the crate and what it gets back. *)
Inductive hw_call :=
| VramUpdate (line : nat) (buffer : list Z)
| JoypadPressed
| SoundPlay
| Clock
| SendByte (b : Z)
| RecvByte
| Sched
| LoadRam (size : nat)
| SaveRam (ram : list Z).

Inductive hw_answer := Nothing | Flag (b : bool) | Time (t : Z) | Received (b : option Z) | Ram (r : list Z).

Definition hw_do (c : hw_call) (d : list (list Z)) : H (hw_answer * list (list Z)) :=
  match c with
  | VramUpdate line buffer => let! d' := lift (vram_update line buffer d) in ret (Nothing, d')
  | JoypadPressed => ret (Flag joypad_pressed, d)
  | SoundPlay | SendByte _ | SaveRam _ => ret (Nothing, d)
  | Clock => let! t := clock in ret (Time t, d)
  | RecvByte => ret (Received recv_byte, d)
  | Sched => let! b := sched in ret (Flag b, d)
  | LoadRam size => ret (Ram (load_ram size), d)
  end.

(** The calls [rgy::run] makes, one after the other. *)
Fixpoint hw_run (cs : list hw_call) (d : list (list Z)) : H (list hw_answer * list (list Z)) :=
  match cs with
  | [] => ret ([], d)
  | c :: cs' =>
    let! (a, d) := hw_do c d in
    let! (l, d) := hw_run cs' d in
    ret (a :: l, d)
  end.

(** The file is read twice. *)
Definition load_rom (name name_len vec : Z) : H (option (list Z)) :=
  let! size := call_import_i32 host_fs_size [name; name_len] in
  if size <? 16 then ret None else
  let! read := call_import_i32 host_fs_read [name; name_len; vec; size] in
  if negb (read =? size) then ret None else
  let! read := call_import_i32 host_fs_read [name; name_len; vec; size] in
  if negb (read =? size) then ret None else
  let! m := gets h_mem in ret (Some (srange m vec (vec + size))).

Definition NAME : list Z := str "game.gb".

(** [main] up to [rgy::run], with the image it runs. *)
Definition gb_main (name vec : Z) : H (option (list Z * list (list Z))) :=
  do! dbg_print (str "[gb] starting" ++ [NL]) in
  let! rom := load_rom name 7 vec in
  match rom with
  | None => do! dbg_print (str "[gb] load_rom failed" ++ [NL]) in ret None
  | Some rom =>
    do! dbg_print (str "[gb] ROM loaded:") in
    do! dbg_print NAME in
    do! dbg_print [NL] in
    do! dbg_print (str "[gb] running" ++ [NL]) in
    ret (Some (rom, new_display))
  end.
End display.
End Gb.
