(* ===== verification/UserlandSpec.v ===== *)
(** * Properties of the guests

    What an import call does to the guest's stack, the picture in the guest's
    memory and the format of ROM files. *)

From S2P Require Import Prelude Leb128 FileTable Opcode World Machine Host HostSpec Engine Userland.

(** ** Calls of imports *)

(** [s] with room for [k] values. *)
Definition stack_room (k : nat) (s : HSt) : Prop := (h_n s + k <= length (h_vs s))%nat.

(** [s'] is [s] for the guest: the same stack height below the same room, with
    what is below untouched. *)
Record back (s s' : HSt) : Prop := {
  bk_n : h_n s' = h_n s;
  bk_len : length (h_vs s') = length (h_vs s);
  bk_below i : (i < h_n s)%nat -> h_vs s' !! i = h_vs s !! i
}.

#[export] Instance back_preorder : PreOrder back.
Proof.
  split; [by split|]. intros a b c [n1 l1 b1] [n2 l2 b2]. split; [congruence..|].
  intros i Hi. rewrite b2 by lia. by apply b1.
Qed.

(** Pushing values. *)
Fixpoint put_args (vs : list Z) (n : nat) (st : list Z) : list Z :=
  match vs with [] => st | v :: vs' => put_args vs' (S n) (<[n := v]> st) end.

Lemma put_args_length vs n st : length (put_args vs n st) = length st.
Proof. revert n st. induction vs as [|v vs IH]; intros n st; [done|]. cbn. by rewrite IH, length_insert. Qed.

Lemma put_args_below vs n st i : (i < n)%nat -> put_args vs n st !! i = st !! i.
Proof.
  revert n st. induction vs as [|v vs IH]; intros n st Hi; [done|]. cbn. rewrite IH by lia. by apply list_lookup_insert_ne; lia.
Qed.

Lemma put_args_at vs n st i v : (n + length vs <= length st)%nat -> vs !! i = Some v -> put_args vs n st !! (n + i)%nat = Some v.
Proof.
  revert n st i. induction vs as [|x vs IH]; intros n st [|i] Hl Hi; simplify_eq/=.
  - rewrite put_args_below by lia. rewrite Nat.add_0_r. apply list_lookup_insert_eq. lia.
  - rewrite <- (IH (S n) (<[n := x]> st) i); [f_equal; lia|rewrite length_insert; lia|done].
Qed.

Lemma push_all_args_run vs s : stack_room (length vs) s ->
  push_all_args vs s = (Ok tt, mkHSt (put_args vs (h_n s) (h_vs s)) (h_n s + length vs) (h_mem s) (h_w s)).
Proof.
  revert s. induction vs as [|v vs IH]; intros s Hr; unfold stack_room in *; cbn [push_all_args length put_args] in *.
  { destruct s. cbn. do 2 f_equal. lia. }
  unfold bind, push_result, gets. unfold bind. rewrite (proj2 (Nat.ltb_lt _ _)) by lia. cbn [modify].
  unfold modify. rewrite IH by (cbn; rewrite length_insert; lia). cbn. do 2 f_equal. lia.
Qed.

(** The state a host function is entered in. *)
Definition entered (vs : list Z) (s : HSt) : HSt := mkHSt (put_args vs (h_n s) (h_vs s)) (h_n s + length vs) (h_mem s) (h_w s).

Lemma entered_arg vs s k v : stack_room (length vs) s -> (0 < k <= length vs)%nat -> vs !! (length vs - k)%nat = Some v ->
  arg k (entered vs s) = (Ok v, entered vs s).
Proof.
  intros Hr Hk Hv. unfold arg, gets, bind, lift, entered. cbn [h_n h_vs].
  rewrite (proj2 (Nat.ltb_ge _ _)) by lia. replace (h_n s + length vs - k)%nat with (h_n s + (length vs - k))%nat by lia.
  by rewrite (put_args_at vs _ _ _ v) by (done || apply Hr).
Qed.

Lemma entered_need vs s k : (k <= length vs)%nat -> need k (entered vs s) = (Ok tt, entered vs s).
Proof. intros Hk. unfold need, gets, bind. cbn [h_n entered]. by rewrite (proj2 (Nat.ltb_ge _ _)) by lia. Qed.

(** The arguments popped again. *)
Definition popped (vs : list Z) (s : HSt) : HSt := mkHSt (put_args vs (h_n s) (h_vs s)) (h_n s) (h_mem s) (h_w s).

Lemma entered_consume vs s : consume (length vs) (entered vs s) = (Ok tt, popped vs s).
Proof. unfold consume, modify, entered, popped. cbn. do 2 f_equal. lia. Qed.

Lemma popped_back vs s : stack_room (length vs) s -> back s (popped vs s).
Proof. intros Hr. split; [done|apply put_args_length|]. intros i Hi. by apply put_args_below. Qed.

(** A result is pushed by the host and popped by the guest. *)
Lemma result_returned v s : stack_room 1 s ->
  exists s', (do! push_result v in let! x := arg 1 in do! consume 1 in ret x) s = (Ok v, s') /\
    back s s' /\ h_mem s' = h_mem s /\ h_w s' = h_w s.
Proof.
  intros Hr. unfold stack_room in Hr. eexists. split.
  - unfold push_result, arg, consume, gets, modify, lift, ret, bind. rewrite (proj2 (Nat.ltb_lt _ _)) by lia. cbn [h_n h_vs].
    replace (S (h_n s) - 1)%nat with (h_n s) by lia. rewrite (list_lookup_insert_eq _ (h_n s)) by lia. cbn. reflexivity.
  - cbn. split; [|done]. split; cbn; [lia|apply length_insert|]. intros i Hi. apply list_lookup_insert_ne. lia.
Qed.

(** An import that computes a value from its arguments and pushes it. *)
Lemma call_value_run (f : H unit) vs v s s1 : stack_room (length vs) s -> (0 < length vs)%nat ->
  f (entered vs s) = push_result v s1 -> back s s1 ->
  exists s', call_import_i32 f vs s = (Ok (as_i32 v), s') /\ back s s' /\ h_mem s' = h_mem s1 /\ h_w s' = h_w s1.
Proof.
  intros Hr H0 Hf Hb. destruct (result_returned v s1) as (s' & E & Hb' & Em & Ew).
  { unfold stack_room in *. destruct Hb as [-> -> _]. lia. }
  exists s'. split; [|split; [by etrans|done]].
  unfold call_import_i32, call_import_val, call_import, bind at 1. unfold bind at 1. unfold bind at 1.
  rewrite push_all_args_run by done. fold (entered vs s). rewrite Hf. unfold bind in E |- *.
  destruct (push_result v s1) as [[u|e| |] s2]; try done. destruct (arg 1 s2) as [[x|e| |] s3]; try done.
  destruct (consume 1 s3) as [[u'|e| |] s4]; try done. cbn in E |- *. by injection E as -> ->.
Qed.

Lemma as_usize_small z : 0 <= z < 2147483648 -> as_usize z = z.
Proof. intros Hz. unfold as_usize, as_u64. apply Z.mod_small. lia. Qed.

(** *** Files *)

Section files.
Context (s : HSt) (name nl : Z) (bs : list Z).
Context (Hm : slen (h_mem s) < 2147483648) (Hn : in_mem (h_mem s) name nl).
Context (Hu : utf8_valid (srange (h_mem s) name (name + nl)) = true).
Context (Hc : content (fs (h_w s)) (srange (h_mem s) name (name + nl)) = Some bs).

Lemma size_call : stack_room 2 s -> Z.of_nat (length bs) < 2147483648 ->
  exists s', call_import_i32 host_fs_size [name; nl] s = (Ok (Z.of_nat (length bs)), s') /\
    back s s' /\ h_mem s' = h_mem s /\ h_w s' = h_w s.
Proof.
  intros Hr Hl. destruct Hn. pose proof (popped_back [name; nl] s Hr) as Hb.
  destruct (call_value_run host_fs_size [name; nl] (Z.of_nat (length bs)) s (popped [name; nl] s) Hr ltac:(cbn; lia)) as (s' & E & R); [|done|].
  - unfold host_fs_size, bind at 1. rewrite entered_need by (cbn; lia). unfold bind at 1. rewrite (entered_arg _ _ 1 nl) by (done || cbn; lia).
    unfold bind at 1. rewrite (entered_arg _ _ 2 name) by (done || cbn; lia). unfold bind at 1. rewrite (entered_consume [name; nl]).
    rewrite !as_usize_small by lia. unfold bind at 1. unfold content in Hc.
    destruct (find_file _ _) as [d|] eqn:Ef; [|done]. injection Hc as Hd.
    unfold fs_size_body. unfold bind at 1, gets at 1. unfold bind at 1, gets at 1. cbn [popped h_mem h_w]. cbn zeta.
    rewrite sat_in_range by done. replace (sat_add_usize name nl) with (name + nl) by (unfold sat_add_usize, USIZE_MAX; lia).
    unfold bind at 1, lift at 1. rewrite sread_range_ok by lia. unfold from_utf8. rewrite Hu, Ef, Hd. reflexivity.
  - exists s'. rewrite E, as_i32_id by (unfold is_i32; lia). done.
Qed.

Lemma read_call vec cap : stack_room 4 s -> in_mem (h_mem s) vec cap -> Z.of_nat (length bs) <= cap ->
  exists s', call_import_i32 host_fs_read [name; nl; vec; cap] s = (Ok (Z.of_nat (length bs)), s') /\
    back s s' /\ h_w s' = h_w s /\ slen (h_mem s') = slen (h_mem s) /\
    srange (h_mem s') vec (vec + Z.of_nat (length bs)) = bs /\
    forall i, ~ vec <= i < vec + Z.of_nat (length bs) -> sget (h_mem s') i = sget (h_mem s) i.
Proof.
  intros Hr Hv Hl. pose proof (popped_back [name; nl; vec; cap] s Hr) as Hb.
  destruct (fs_read_body_spec (popped [name; nl; vec; cap] s) name nl vec cap bs Hm Hn Hv Hu Hc Hl) as (m' & Er & M1 & M2 & M3).
  destruct Hn, Hv.
  destruct (call_value_run host_fs_read [name; nl; vec; cap] (Z.of_nat (length bs)) s
    (mkHSt (h_vs (popped [name; nl; vec; cap] s)) (h_n s) m' (h_w s)) Hr ltac:(cbn; lia)) as (s' & E & B & Em & Ew).
  - unfold host_fs_read, bind at 1. rewrite entered_need by (cbn; lia). unfold bind at 1. rewrite (entered_arg _ _ 1 cap) by (done || cbn; lia).
    unfold bind at 1. rewrite (entered_arg _ _ 2 vec) by (done || cbn; lia). unfold bind at 1. rewrite (entered_arg _ _ 3 nl) by (done || cbn; lia).
    unfold bind at 1. rewrite (entered_arg _ _ 4 name) by (done || cbn; lia). unfold bind at 1. rewrite (entered_consume [name; nl; vec; cap]).
    rewrite !as_usize_small by lia. unfold bind at 1. rewrite Er. reflexivity.
  - destruct Hb. by split.
  - exists s'. rewrite E, as_i32_id by (unfold is_i32; lia). rewrite Em. split_and!; try done; by cbn.
Qed.
End files.

(** ** ROM files *)
Module Ines.
Import Nes.

(** The sixth and the seventh byte of a header. *)
Definition flags6 (lo : Z) (four trainer battery vertical : bool) : Z :=
  16 * lo + (if four then 8 else 0) + (if trainer then 4 else 0) + (if battery then 2 else 0) + (if vertical then 1 else 0).
Definition flags7 (hi low_bits : Z) : Z := 16 * hi + low_bits.

Definition mirroring (four vertical : bool) : MirrorType := if four then Four else if vertical then Vertical else Horizontal.

(** A file: header, trainer, program, characters, and whatever follows. *)
Record file := mkFile {
  f_lo : Z; f_hi : Z; f_low_bits : Z; f_four : bool; f_trainer : bool; f_battery : bool; f_vertical : bool;
  f_pad : list Z; f_train : list Z; f_prg : list Z; f_chr : list Z; f_rest : list Z
}.

Record file_ok (prg_count chr_count : Z) (x : file) : Prop := {
  fo_lo : 0 <= f_lo x < 16;
  fo_hi : 0 <= f_hi x < 16;
  fo_bits : 0 <= f_low_bits x < 16;
  fo_prg : 0 <= prg_count < 256 /\ Z.of_nat (length (f_prg x)) = prg_count * 16384;
  fo_chr : 0 <= chr_count < 256 /\ Z.of_nat (length (f_chr x)) = chr_count * 8192;
  fo_pad : length (f_pad x) = 8%nat;
  fo_train : Z.of_nat (length (f_train x)) = if f_trainer x then 512 else 0
}.

Definition encode (prg_count chr_count : Z) (x : file) : list Z :=
  [78; 69; 83; 0x1a; prg_count; chr_count; flags6 (f_lo x) (f_four x) (f_trainer x) (f_battery x) (f_vertical x);
   flags7 (f_hi x) (f_low_bits x)] ++ f_pad x ++ f_train x ++ f_prg x ++ f_chr x ++ f_rest x.

Lemma flags6_bits lo four trainer battery vertical : 0 <= lo < 16 ->
  let f := flags6 lo four trainer battery vertical in
  negb (Z.land f 8 =? 0) = four /\ negb (Z.land f 4 =? 0) = trainer /\ negb (Z.land f 1 =? 0) = vertical /\ Z.shiftr f 4 = lo.
Proof.
  intros Hl. assert (Hin : lo ∈ seqZ 0 16) by (apply elem_of_seqZ; lia).
  apply list_elem_of_In in Hin. vm_compute in Hin. destruct_or! Hin; subst; try done; destruct four, trainer, battery, vertical; repeat split; reflexivity.
Qed.

Lemma mapper_bits lo hi low : 0 <= lo < 16 -> 0 <= hi < 16 -> 0 <= low < 16 ->
  Z.lor (Z.land (flags7 hi low) 0xf0) lo = 16 * hi + lo.
Proof.
  intros Hl Hh Hg. assert (E : Z.land (flags7 hi low) 0xf0 = hi * 2 ^ 4).
  { assert (Hin : hi ∈ seqZ 0 16) by (apply elem_of_seqZ; lia). apply list_elem_of_In in Hin.
    assert (Hg' : low ∈ seqZ 0 16) by (apply elem_of_seqZ; lia). apply list_elem_of_In in Hg'.
    vm_compute in Hin, Hg'. destruct_or! Hin; subst; try done; destruct_or! Hg'; subst; try done; reflexivity. }
  rewrite E, Z.lor_comm, lor_disjoint by lia. lia.
Qed.

(** What the emulator gets of a file. *)
Definition contents (chr_count : Z) (x : file) : Rom :=
  mkRom (f_prg x) (if chr_count =? 0 then replicate (Z.to_nat 8192) 0 else f_chr x) (replicate (Z.to_nat 8192) 0)
    (mirroring (f_four x) (f_vertical x)) (16 * f_hi x + f_lo x).

Lemma slice_middle {E} (a b c : list Z) n k : n = length a -> k = (n + length b)%nat ->
  slice_range (E := E) (a ++ b ++ c) n k = Ok b.
Proof.
  intros -> ->. unfold slice_range. rewrite (proj2 (Nat.leb_le (length a) _)), (proj2 (Nat.leb_le _ _)) by (rewrite ?length_app; lia).
  cbn [andb]. rewrite drop_app_length, Nat.add_comm, Nat.add_sub. by rewrite take_app_length.
Qed.

Lemma parse_encoded p c x : file_ok p c x -> parse_rom (encode p c x) = Ok (Some (contents c x)).
Proof.
  intros [Hl Hh Hg [Hp Lp] [Hc Lc] Hpad Ht].
  destruct (flags6_bits (f_lo x) (f_four x) (f_trainer x) (f_battery x) (f_vertical x) Hl) as (B1 & B2 & B3 & B4).
  pose proof (mapper_bits (f_lo x) (f_hi x) (f_low_bits x) Hl Hh Hg) as B5.
  unfold parse_rom, encode. set (h := [_; _; _; _; _; _; _; _]).
  set (start := h ++ f_pad x ++ f_train x).
  assert (Ls : Z.of_nat (length start) = 16 + if f_trainer x then 512 else 0).
  { unfold start. rewrite !length_app, Hpad. change (length h) with 8%nat. lia. }
  assert (E0 : h ++ f_pad x ++ f_train x ++ f_prg x ++ f_chr x ++ f_rest x = start ++ f_prg x ++ f_chr x ++ f_rest x).
  { unfold start. by rewrite <- !app_assoc. }
  assert (E1 : slice_range (E := InterpError) (start ++ f_prg x ++ f_chr x ++ f_rest x) 0 4 = Ok [78; 69; 83; 26]) by reflexivity.
  rewrite E0, E1. unfold rbind at 1. change (negb (bytes_eqb _ _)) with false. cbv iota.
  change ((start ++ f_prg x ++ f_chr x ++ f_rest x) !! 4%nat) with (Some p). change ((start ++ f_prg x ++ f_chr x ++ f_rest x) !! 5%nat) with (Some c).
  change ((start ++ f_prg x ++ f_chr x ++ f_rest x) !! 6%nat) with (Some (flags6 (f_lo x) (f_four x) (f_trainer x) (f_battery x) (f_vertical x))).
  change ((start ++ f_prg x ++ f_chr x ++ f_rest x) !! 7%nat) with (Some (flags7 (f_hi x) (f_low_bits x))).
  cbn [or_panic rbind]. rewrite B1, B2, B3, B4, B5.
  rewrite (proj2 (Z.ltb_ge _ _)) by (rewrite !length_app; lia). cbv zeta.
  rewrite (slice_middle start (f_prg x)) by lia. cbn [rbind].
  assert (E2 : (if 0 <? c * 8192 then slice_range (E := InterpError) (start ++ f_prg x ++ f_chr x ++ f_rest x)
      (Z.to_nat (16 + (if f_trainer x then 512 else 0) + p * 16384)) (Z.to_nat (16 + (if f_trainer x then 512 else 0) + p * 16384 + c * 8192))
    else Ok (replicate (Z.to_nat 8192) 0)) = Ok (if c =? 0 then replicate (Z.to_nat 8192) 0 else f_chr x)).
  { destruct (Z.eqb_spec c 0) as [->|Hn]; [reflexivity|]. rewrite (proj2 (Z.ltb_lt _ _)) by lia. rewrite app_assoc.
    apply slice_middle; rewrite ?length_app; lia. }
  rewrite E2. reflexivity.
Qed.
End Ines.

(** The guest's loader is the parser on the kernel's file. *)
Lemma load_rom_run s name vec bs : slen (h_mem s) < 2147483648 -> in_mem (h_mem s) name 8 ->
  srange (h_mem s) name (name + 8) = Nes.NAME -> content (fs (h_w s)) Nes.NAME = Some bs ->
  (16 <= length bs)%nat -> in_mem (h_mem s) vec (Z.of_nat (length bs)) -> stack_room 4 s ->
  exists s', Nes.load_rom name vec s = (Nes.parse_rom bs, s') /\ back s s' /\ h_w s' = h_w s.
Proof.
  intros Hm Hn En Hc Hl Hv Hr. assert (Hr2 : stack_room 2 s) by (unfold stack_room in *; lia).
  assert (Hu : utf8_valid (srange (h_mem s) name (name + 8)) = true) by (rewrite En; reflexivity). rewrite <- En in Hc.
  destruct Hv as [V1 V2 V3]. destruct (size_call s name 8 bs Hm Hn Hu Hc Hr2 ltac:(lia)) as (s1 & E1 & B1 & M1 & W1).
  destruct (read_call s1 name 8 bs) with (vec := vec) (cap := Z.of_nat (length bs)) as (s2 & E2 & B2 & W2 & L2 & R2 & _).
  1-4: by rewrite ?M1, ?W1.
  1: { unfold stack_room in *. destruct B1 as [-> -> _]. done. }
  1: by rewrite M1. 1: done.
  exists s2. split; [|split; [by etrans|congruence]].
  unfold Nes.load_rom, bind at 1. rewrite E1. rewrite (proj2 (Z.ltb_ge _ _)) by lia. unfold bind at 1. rewrite E2.
  rewrite Z.eqb_refl. cbn [negb]. unfold bind, gets, lift. by rewrite R2.
Qed.

(** ** The picture *)

Definition PIXELS : Z := 256 * 240.

(** The [i]th word of the picture at [buf]. *)
Definition pixel (m : slice) (buf i : Z) : Z := le_bytes (srange m (buf + 4 * i) (buf + 4 * i + 4)).

Definition palette (color : Z) : Z := default 0 (Nes.RGB_COLORS !! Z.to_nat (Z.land color 0x3f)).

(** What a position shows after the writes, given what it showed. *)
Fixpoint shown (puts : list (Z * Z * Z)) (x y old : Z) : Z :=
  match puts with
  | [] => old
  | (x', y', c) :: puts' => shown puts' x y (if (x =? x') && (y =? y') then palette c else old)
  end.

Lemma srange_cons m lo hi : lo < hi -> srange m lo hi = sget m lo :: srange m (lo + 1) hi.
Proof.
  intros Hl. unfold srange. replace (Z.to_nat (hi - lo)) with (S (Z.to_nat (hi - (lo + 1)))) by lia.
  cbn [seq map]. rewrite Z.add_0_r. f_equal. rewrite <- seq_shift, map_map. apply map_ext. intros i. f_equal. lia.
Qed.

Lemma srange_nil m lo : srange m lo lo = [].
Proof. unfold srange. by rewrite Z.sub_diag. Qed.

Lemma words_srange m buf n : words (srange m buf (buf + 4 * Z.of_nat n)) = map (fun i => pixel m buf (Z.of_nat i)) (seq 0 n).
Proof.
  revert buf. induction n as [|n IH]; intros buf; [by rewrite Z.add_0_r, srange_nil|].
  do 4 rewrite srange_cons by lia. cbn [words seq map].
  replace (buf + 4 * Z.of_nat (S n)) with (buf + 1 + 1 + 1 + 1 + 4 * Z.of_nat n) by lia. rewrite IH. f_equal.
  - unfold pixel. do 4 rewrite srange_cons by lia. replace (buf + 4 * Z.of_nat 0) with buf by lia.
    replace (buf + 4) with (buf + 1 + 1 + 1 + 1) by lia. by rewrite srange_nil.
  - rewrite <- seq_shift, map_map. apply map_ext. intros i. unfold pixel. f_equal. f_equal; lia.
Qed.

Lemma palette_some color : exists rgb, Nes.RGB_COLORS !! Z.to_nat (Z.land color 0x3f) = Some rgb /\ palette color = rgb /\ 0 <= rgb < 16777216.
Proof.
  assert (Hb : 0 <= Z.land color 0x3f < 64) by (change 0x3f with (Z.ones 6); rewrite Z.land_ones by lia; apply Z.mod_pos_bound; lia).
  destruct (lookup_lt_is_Some_2 Nes.RGB_COLORS (Z.to_nat (Z.land color 0x3f))) as [rgb E]; [cbn; lia|].
  exists rgb. split; [done|]. split; [unfold palette; by rewrite E|].
  assert (Hall : Forall (fun c => 0 <= c < 16777216) Nes.RGB_COLORS) by (repeat (constructor; [lia|]); constructor).
  rewrite List.Forall_forall in Hall. apply Hall, list_elem_of_In, (list_elem_of_lookup_2 _ _ _ E).
Qed.

Section picture.
Context (buf : Z).

(** The picture lies in the guest's memory. *)
Definition has_picture (s : HSt) : Prop := slen (h_mem s) < 2147483648 /\ in_mem (h_mem s) buf (4 * PIXELS).

Lemma put_run x y c s : has_picture s -> 0 <= x < 256 -> 0 <= y < 240 ->
  exists m', Nes.put buf x y c s = (Ok tt, mkHSt (h_vs s) (h_n s) m' (h_w s)) /\ slen m' = slen (h_mem s) /\
    forall i, 0 <= i < PIXELS -> pixel m' buf i = if i =? y * 256 + x then palette c else pixel (h_mem s) buf i.
Proof.
  intros [Hm []] Hx Hy. unfold PIXELS in *. destruct (palette_some c) as (rgb & E & Ep & Hb).
  destruct (swrite_bytes_some (E := InterpError) (h_mem s) (buf + 4 * (y * 256 + x)) (to_le_bytes 4 rgb)) as [m' Ew];
    [lia|rewrite to_le_bytes_length; lia|].
  exists m'. pose proof Ew as (_ & _ & L & R & O)%swrite_bytes_ok. rewrite to_le_bytes_length in *.
  split; [|split; [done|]].
  - unfold Nes.put, bind at 1, lift at 1. rewrite E. cbn [or_panic]. cbv zeta. rewrite (proj2 (Z.leb_gt _ _)) by lia.
    unfold bind, gets, lift. by rewrite Ew.
  - intros i Hi. unfold pixel. destruct (Z.eqb_spec i (y * 256 + x)) as [->|Hn].
    + change (Z.of_nat 4) with 4 in R. rewrite R, le_bytes_to_le, Ep. apply Z.mod_small. cbn; lia.
    + f_equal. apply srange_ext. intros k Hk. apply O. lia.
Qed.

Definition on_screen (p : Z * Z * Z) : Prop := let '(x, y, _) := p in 0 <= x < 256 /\ 0 <= y < 240.

Definition as_ops (puts : list (Z * Z * Z)) : list Nes.screen_op := map (fun p => let '(x, y, c) := p in Nes.Put x y c) puts.

Lemma draw_puts puts ops frames s : has_picture s -> Forall on_screen puts ->
  exists m', Nes.draw buf (as_ops puts ++ ops) frames s = Nes.draw buf ops frames (mkHSt (h_vs s) (h_n s) m' (h_w s)) /\
    slen m' = slen (h_mem s) /\
    forall x y, 0 <= x < 256 -> 0 <= y < 240 ->
      pixel m' buf (y * 256 + x) = shown puts x y (pixel (h_mem s) buf (y * 256 + x)).
Proof.
  intros Hs Hp. revert s Hs. induction Hp as [|[[x y] c] puts [Hx Hy] _ IH]; intros s Hs.
  { exists (h_mem s). by destruct s. }
  destruct (put_run x y c s Hs Hx Hy) as (m1 & E1 & L1 & P1).
  destruct (IH (mkHSt (h_vs s) (h_n s) m1 (h_w s))) as (m2 & E2 & L2 & P2).
  { destruct Hs as [A []]. split; cbn; [by rewrite L1|]. split; [done..|]. by rewrite L1. }
  exists m2. split; [|split; [cbn in L2; congruence|]].
  - cbn [as_ops map app Nes.draw]. unfold bind at 1. rewrite E1. exact E2.
  - intros a b Ha Hb. rewrite P2 by done. cbn [h_mem shown]. rewrite P1 by (unfold PIXELS; lia). f_equal.
    replace (b * 256 + a =? y * 256 + x) with ((a =? x) && (b =? y)); [done|].
    destruct (Z.eqb_spec a x), (Z.eqb_spec b y), (Z.eqb_spec (b * 256 + a) (y * 256 + x)); lia || done.
Qed.

Lemma blit_run s : has_picture s -> stack_room 3 s ->
  exists s', Nes.blit_frame buf s = (Ok tt, s') /\ back s s' /\ h_mem s' = h_mem s /\
    h_w s' = emit (Blit (map (fun i => pixel (h_mem s) buf (Z.of_nat i)) (seq 0 (Z.to_nat PIXELS))) 256 240) (h_w s).
Proof.
  intros [Hm []] Hr. unfold PIXELS in *. pose proof (popped_back [buf; 256; 240] s Hr) as Hb.
  eexists (mkHSt (h_vs (popped [buf; 256; 240] s)) (h_n s) (h_mem s) _). split; [|split; [|split; [done|reflexivity]]].
  - unfold Nes.blit_frame, call_import, bind at 1. rewrite push_all_args_run by done. fold (entered [buf; 256; 240] s).
    unfold host_fb_blit, bind at 1. rewrite entered_need by (cbn; lia). unfold bind at 1. rewrite (entered_arg _ _ 1 240) by (done || cbn; lia).
    unfold bind at 1. rewrite (entered_arg _ _ 2 256) by (done || cbn; lia). unfold bind at 1. rewrite (entered_arg _ _ 3 buf) by (done || cbn; lia).
    unfold bind at 1. rewrite (entered_consume [buf; 256; 240]). cbv zeta. rewrite !as_usize_small by lia. unfold bind at 1, gets at 1.
    change (sat_mul_usize (sat_mul_usize 256 240) 4) with 245760.
    rewrite sat_in_range by (cbn; lia || (split; cbn; lia)).
    rewrite <- (words_srange (h_mem s) buf (Z.to_nat (256 * 240))). rewrite Z2Nat.id by lia. reflexivity.
  - destruct Hb. by split.
Qed.

(** A frame: the kernel is handed the picture that was drawn. *)
Lemma frame_run puts frames s : has_picture s -> stack_room 3 s -> Forall on_screen puts ->
  exists s' px, Nes.draw buf (as_ops puts ++ [Nes.EndFrame]) frames s = (Ok (as_u32 (frames + 1)), s') /\ back s s' /\
    h_w s' = emit (Blit px 256 240) (h_w s) /\ length px = Z.to_nat PIXELS /\
    forall x y, 0 <= x < 256 -> 0 <= y < 240 ->
      px !! Z.to_nat (y * 256 + x) = Some (shown puts x y (pixel (h_mem s) buf (y * 256 + x))).
Proof.
  intros Hs Hr Hp. destruct (draw_puts puts [Nes.EndFrame] frames s Hs Hp) as (m' & -> & L & Px).
  destruct (blit_run (mkHSt (h_vs s) (h_n s) m' (h_w s))) as (s' & E & B & Em & Ew); [|done|].
  { destruct Hs as [A []]. split; cbn; [by rewrite L|]. split; [done..|]. by rewrite L. }
  eexists s', _. split; [cbn [Nes.draw]; unfold bind; by rewrite E|]. split; [destruct B; by split|]. split; [exact Ew|].
  split; [by rewrite length_map, length_seq|]. intros x y Hx Hy. rewrite list_lookup_fmap. unfold PIXELS.
  rewrite lookup_seq_lt by lia. cbn. rewrite Z2Nat.id, Px by lia. reflexivity.
Qed.
End picture.

(** ** The Game Boy's screen and callbacks *)

Section gb.
Context (W Ht : nat).

(** The display has [W] columns of [Ht] points. *)
Definition shaped (d : list (list Z)) : Prop := length d = W /\ Forall (fun c => length c = Ht) d.
Definition point (d : list (list Z)) (x y : nat) : option Z := d !! x ≫= fun c => c !! y.

(** Lines of the screen only. *)
Definition call_fits (c : Gb.hw_call) : Prop :=
  match c with Gb.VramUpdate line buffer => (line < Ht)%nat /\ (length buffer <= W)%nat | _ => True end.

(** The colour of a point after the calls. *)
Fixpoint drawn (cs : list Gb.hw_call) (x y : nat) (old : option Z) : option Z :=
  match cs with
  | [] => old
  | Gb.VramUpdate line buffer :: cs' =>
    drawn cs' x y (if (line =? y)%nat && (x <? length buffer)%nat then buffer !! x else old)
  | _ :: cs' => drawn cs' x y old
  end.

Lemma vram_update_loop_run x y buffer d : shaped d -> (y < Ht)%nat -> (x + length buffer <= W)%nat ->
  exists d', Gb.vram_update_loop x y buffer d = Ok d' /\ shaped d' /\
    forall i j, point d' i j = if (j =? y)%nat && (x <=? i)%nat && (i <? x + length buffer)%nat then buffer !! (i - x)%nat else point d i j.
Proof.
  revert x d; induction buffer as [|col buffer IH]; intros x d Hd Hy Hx; cbn [Gb.vram_update_loop length] in *.
  { exists d. split; [done|]. split; [done|]. intros i j. destruct (Nat.leb_spec x i), (Nat.ltb_spec i (x + 0)); rewrite ?andb_false_r; done || lia. }
  destruct Hd as [Hl Hc]. destruct (lookup_lt_is_Some_2 d x) as [column Ec]; [lia|]. rewrite Ec.
  pose proof (Forall_lookup_1 _ _ _ _ Hc Ec) as Hcol. cbn beta in Hcol. rewrite (proj2 (Nat.ltb_lt _ _)) by lia.
  destruct (IH (S x) (<[x := <[y := col]> column]> d)) as (d' & E & Hd' & Hp); [|done|lia|].
  { split; [by rewrite length_insert|]. apply Forall_insert; [done|]. by rewrite length_insert. }
  exists d'. split; [done|]. split; [done|]. intros i j. rewrite Hp. unfold point at 1.
  destruct (decide (i = x)) as [->|Hi].
  - rewrite list_lookup_insert_eq by lia. replace (S x <=? x)%nat with false by (symmetry; apply Nat.leb_gt; lia). rewrite andb_false_r. cbn [andb].
    rewrite (proj2 (Nat.leb_le x x)), (proj2 (Nat.ltb_lt x _)), Nat.sub_diag by lia. cbn. destruct (Nat.eqb_spec j y) as [->|Hj]; cbn.
    + rewrite list_lookup_insert_eq by lia. done.
    + rewrite list_lookup_insert_ne by done. unfold point. by rewrite Ec.
  - rewrite list_lookup_insert_ne by done. fold (point d i j). destruct (j =? y)%nat; cbn [andb]; [|done].
    destruct (Nat.leb_spec (S x) i), (Nat.leb_spec x i); cbn [andb]; try lia; [|done].
    replace (i <? S x + length buffer)%nat with (i <? x + S (length buffer))%nat by (f_equal; lia).
    destruct (i <? x + S (length buffer))%nat; [|done]. by replace (i - x)%nat with (S (i - S x)) by lia.
Qed.

(** A host function that only pushes a value. *)
Lemma clock_run s : stack_room 1 s -> (h_n s < STACK_DEPTH)%nat -> TSC_MHZ (h_w s) * 1000 < 18446744073709551616 ->
  exists t s', Gb.clock s = (Ok t, s') /\ back s s' /\ h_mem s' = h_mem s /\ h_w s' = h_w s.
Proof.
  intros Hr Hn Hmhz.
  assert (exists ms, uptime_ms (h_w s) = Ok ms) as [ms Ems].
  { unfold uptime_ms. destruct (_ =? 0); [by eexists|]. rewrite (proj2 (Z.leb_gt _ _)) by done. by eexists. }
  destruct (result_returned (Z.min ms I32_MAX) s Hr) as (s' & E & Hb & Hm & Hw). exists (as_u64 (as_i32 (Z.min ms I32_MAX))), s'.
  split; [|by split]. unfold Gb.clock, call_import_i32, call_import_val, call_import, host_uptime_ms, room. cbn [push_all_args].
  revert E. unfold bind, gets, lift, ret. rewrite (proj2 (Nat.leb_gt _ _)) by done. rewrite Ems.
  destruct (push_result _ s) as [[u|e| |] s2]; try done. destruct (arg 1 s2) as [[x|e| |] s3]; try done.
  destruct (consume 1 s3) as [[u'|e| |] s4]; try done. intros [= -> ->]. reflexivity.
Qed.

Lemma hw_run_ok cs d s : shaped d -> Forall call_fits cs -> stack_room 1 s -> (h_n s < STACK_DEPTH)%nat ->
  TSC_MHZ (h_w s) * 1000 < 18446744073709551616 ->
  exists l d' s', Gb.hw_run cs d s = (Ok (l, d'), s') /\ length l = length cs /\ shaped d' /\ back s s' /\ h_mem s' = h_mem s /\
    forall x y, (x < W)%nat -> (y < Ht)%nat -> point d' x y = drawn cs x y (point d x y).
Proof.
  intros Hd Hf. revert d s Hd; induction Hf as [|c cs Hc _ IH]; intros d s Hd Hr Hn Ht'.
  { exists [], d, s. done. }
  assert (exists a d1 s1, Gb.hw_do c d s = (Ok (a, d1), s1) /\ shaped d1 /\ back s s1 /\ h_mem s1 = h_mem s /\ TSC_MHZ (h_w s1) = TSC_MHZ (h_w s) /\
    forall x y, (x < W)%nat -> (y < Ht)%nat -> drawn cs x y (point d1 x y) = drawn (c :: cs) x y (point d x y))
    as (a & d1 & s1 & E & Hd1 & Hb & Hm & Hmhz & Hp).
  { destruct c as [line buffer| | | |b| | |n|r]; try (eexists _, d, s; done).
    - destruct Hc as [Hl Hw]. destruct (vram_update_loop_run 0 line buffer d Hd Hl Hw) as (d1 & E & Hd1 & Hp).
      eexists _, d1, s. unfold Gb.hw_do, bind, lift, Gb.vram_update. rewrite E. split; [reflexivity|]. do 4 (split; [done|]).
      intros x y Hx Hy. cbn [drawn]. rewrite Hp. cbn [Nat.leb]. rewrite andb_true_r, Nat.sub_0_r, Nat.eqb_sym. done.
    - destruct (clock_run s Hr Hn Ht') as (t & s1 & E & Hb & Hm & Hw). eexists _, d, s1. unfold Gb.hw_do, bind. rewrite E.
      split; [reflexivity|]. rewrite Hw. done.
    - eexists _, d, _. split; [reflexivity|]. split; [done|]. split; [by split|]. done. }
  destruct (IH d1 s1 Hd1) as (l & d2 & s2 & E2 & Hl & Hd2 & Hb2 & Hm2 & Hp2); [unfold stack_room in *; destruct Hb as [-> -> _]; lia|by destruct Hb as [-> _ _]|by rewrite Hmhz|].
  exists (a :: l), d2, s2. cbn [Gb.hw_run]. unfold bind. rewrite E. cbn beta iota. rewrite E2. split; [reflexivity|].
  split; [cbn; lia|]. split; [done|]. split; [by etrans|]. split; [congruence|]. intros x y Hx Hy. by rewrite Hp2, Hp.
Qed.
End gb.
