(* ===== verification/Demo.v ===== *)
(** * Two concrete modules and a booted kernel

    A factorial and a module that yields and sleeps, encoded, spawned and run
    by evaluation: the inputs at which the general theorems are instantiated. *)

From S2P Require Import Prelude Leb128 Loader FileTable Opcode IntOps FloatOps Jump.
From S2P Require Import Sections World Machine Dispatch Safety Instantiate Specs Host.
From S2P Require Import HostSpec Engine EngineSpec Editor Task.

(** Any rounding functions do: the modules use no floats. *)
#[export] Instance demo_float : FloatEnv :=
  Build_FloatEnv (fun x => x) (fun x => x) (fun x => x) (fun x => x) (fun x => x)
    (fun x _ => x) (fun x _ => x) (fun x _ => x) (fun x => x) (fun x => x) (fun x => x) (fun x => x) (fun x => x)
    (fun x _ => x) (fun x _ => x) (fun x _ => x) (fun _ _ _ => 0) (fun _ _ _ => 0).

(** The interpreter-only build. *)
#[export] Instance demo_features : Features := {| kernel_jit := false; jit_shadow := false; native_call := fun _ _ _ _ => Strayed |}.

(** [main n] multiplies [n, n-1, .., 1] in a loop inside a block. *)
Definition fac_body : list Z :=
  [0x41; 1; 0x21; 1; 0x02; 0x40; 0x03; 0x40; 0x20; 0; 0x45; 0x0D; 1; 0x20; 0; 0x20; 1; 0x6C; 0x21; 1;
   0x20; 0; 0x41; 1; 0x6B; 0x21; 0; 0x0C; 0; 0x0B; 0x0B; 0x20; 1; 0x0B].

Definition fac_sections : list (Z * list Z) :=
  [ (SECTION_TYPE, encode_vec encode_type [([0x7F], [0x7F])]);
    (SECTION_FUNCTION, encode_vec encode_u32 [0]);
    (SECTION_MEMORY, encode_vec (fun l => encode_limits l.1 l.2) [(1, None)]);
    (SECTION_EXPORT, encode_vec encode_export [mkExport (str "main") 0 0]);
    (SECTION_CODE, encode_vec encode_body [([(1, 0x7F)], fac_body)]) ].
Definition fac_bytes : list Z := encode_module fac_sections.

(** [main] yields, then sleeps 25 ms, then returns. *)
Definition nap_imports : list import :=
  [ mkImport (str "env") (str "yield") (IFunc 0); mkImport (str "env") (str "sleep_ms") (IFunc 1) ].
Definition nap_bytes : list Z := encode_module
  [ (SECTION_TYPE, encode_vec encode_type [([], []); ([0x7F], [])]);
    (SECTION_IMPORT, encode_vec encode_import nap_imports);
    (SECTION_FUNCTION, encode_vec encode_u32 [0]);
    (SECTION_EXPORT, encode_vec encode_export [mkExport (str "main") 0 2]);
    (SECTION_CODE, encode_vec encode_body [([], [0x10; 0; 0x41; 25; 0x10; 1; 0x0B])]) ].

(** The kernel after registration of the host functions. *)
Definition booted : Kernel := init_host_fns kernel_static.
Definition sys0 : Sys := mkSys booted (replicate MAX_TASKS None) 0 new_editor.

(** One task of each module. *)
Definition sys1 : Sys := (task_spawn (str "fac") fac_bytes [5] sys0).2.
Definition sys2 : Sys := (task_spawn (str "nap") nap_bytes [] sys1).2.

(** [(r, s)] from the outcome and the state apart. *)
Lemma outcome_pair {A B} (x : A * B) a : x.1 = a -> x = (a, x.2).
Proof. destruct x. by intros <-. Qed.

Example fac_runs : (run 1000 fac_bytes (str "main") [5] booted).1 = Ok (Some 120).
Proof. vm_compute. reflexivity. Qed.

Example sys1_spawned : task_spawn (str "fac") fac_bytes [5] sys0 = (Ok 0%nat, sys1).
Proof. unfold sys1. apply outcome_pair. vm_compute. reflexivity. Qed.

Example sys2_spawned : task_spawn (str "nap") nap_bytes [] sys1 = (Ok 1%nat, sys2).
Proof. unfold sys2. apply outcome_pair. vm_compute. reflexivity. Qed.

(** ** The factorial instance *)

(** The interpreter of a slot with its memory, as [with_interp] sets it up. *)
Definition interp_at (k : Kernel) (h : nat) : option Interpreter :=
  match POOL k !! h, SLOT_MEM k !! h with
  | Some s, Some sm =>
    match inst s with
    | Some ins => Some (set_mem sm (current_pages (interp ins)) (interp ins))
    | None => None
    end
  | _, _ => None
  end.

Lemma inst_ok_at k h i : inst_ok k h i -> interp_at k h = Some i.
Proof.
  intros [(s & ins & sm & Hs & _ & Hi & Hsm & ->) _ _]. unfold interp_at. by rewrite Hs, Hsm, Hi.
Qed.

Definition blank_interp : Interpreter :=
  mkInterp (mkCode [] 0 [] [] [] 0 [] [] 0 [] 0 [] 0 [] [] 0) [] 0 [] 0 [] 0 [] (zero_slice 0) [] 0 false 0.

Definition fac_kernel : Kernel := (spawn (str "fac") fac_bytes booted).2.
Definition fac_interp : Interpreter := default blank_interp (interp_at fac_kernel 0).

Lemma booted_pool_ok : pool_ok booted.
Proof. apply pool_ok_init, pool_ok_static. Qed.

Lemma fac_u8 : Forall is_u8 fac_bytes.
Proof. unfold fac_bytes. vm_compute. repeat constructor; discriminate. Qed.

Lemma nap_u8 : Forall is_u8 nap_bytes.
Proof. unfold nap_bytes. vm_compute. repeat constructor; discriminate. Qed.

Lemma fac_spawned : spawn (str "fac") fac_bytes booted = (Ok 0%nat, fac_kernel).
Proof. unfold fac_kernel. apply outcome_pair. vm_compute. reflexivity. Qed.

Lemma fac_code_facts :
  (import_count (code fac_interp) =? 0)%nat && (body_count (code fac_interp) =? 1)%nat &&
  forallb (fun h => match h with None => true | _ => false end) (host_fns (code fac_interp)) = true.
Proof. vm_compute. reflexivity. Qed.

(** The slot's interpreter before the memory is attached. *)
Lemma fac_slot s ins : POOL fac_kernel !! 0%nat = Some s -> inst s = Some ins -> code (interp ins) = code fac_interp.
Proof.
  intros Hs Hi. unfold fac_interp, interp_at. rewrite Hs, Hi.
  destruct (SLOT_MEM fac_kernel !! 0%nat) eqn:E; [done|]. exfalso. vm_compute in E. discriminate E.
Qed.

Lemma fac_inst_ok : inst_ok fac_kernel 0 fac_interp.
Proof.
  pose proof (spawn_outcome booted (str "fac") fac_bytes booted_pool_ok fac_u8) as Hs.
  rewrite fac_spawned in Hs.
  destruct (spawned_inst_ok (FT := demo_features) _ _ _ _ _ booted_pool_ok fac_u8 eq_refl Hs) as [i Hi].
  - intros s ins Hsl Hin. rewrite (fac_slot s ins Hsl Hin). pose proof fac_code_facts as Hf.
    apply andb_prop in Hf as [[Hic%Nat.eqb_eq Hbc%Nat.eqb_eq]%andb_prop Hh].
    split; [rewrite Hic, Hbc; unfold MAX_FUNCS; lia|].
    rewrite forallb_forall in Hh. apply Forall_forall. intros h Hin' f ->.
    specialize (Hh _ Hin'). discriminate Hh.
  - pose proof (inst_ok_at _ _ _ Hi) as E. unfold fac_interp. by rewrite E.
Qed.

(** Every way into the module passes the guard at every instruction. *)
Lemma fac_guarded w idx st :
  world_ok w -> w = world_static -> entered idx [5] fac_interp w = (Ok tt, st) -> guarded_from st.
Proof.
  intros Hw -> He.
  pose proof (entered_ok idx [5] fac_interp world_static (io_wf _ _ _ fac_inst_ok) Hw) as Hok.
  rewrite He in Hok. specialize (Hok ltac:(repeat constructor; discriminate)).
  apply (guard_check_sound sized world_ok world_ok_emit world_ok_count sized_write sized_grow 200 st Hok).
  assert (st = (entered idx [5] fac_interp world_static).2) as -> by by rewrite He.
  destruct idx as [|idx]; [vm_compute; reflexivity|]. exfalso.
  assert ((entered (S idx) [5] fac_interp world_static).1 = Err FuncIndexOutOfRange) as E by (vm_compute; reflexivity).
  rewrite He in E. discriminate E.
Qed.

(** ** The napping instance *)

Definition nap_kernel : Kernel := (spawn (str "nap") nap_bytes booted).2.
Definition nap_interp : Interpreter := default blank_interp (interp_at nap_kernel 0).

Lemma nap_spawned : spawn (str "nap") nap_bytes booted = (Ok 0%nat, nap_kernel).
Proof. unfold nap_kernel. apply outcome_pair. vm_compute. reflexivity. Qed.

Lemma nap_counts :
  (import_count (code nap_interp) =? 2)%nat && (body_count (code nap_interp) =? 1)%nat = true.
Proof. vm_compute. reflexivity. Qed.

Lemma nap_resolved : map (resolved booted) nap_imports = [Some (host host_yield); Some (host host_sleep_ms)].
Proof.
  unfold nap_imports, resolved, booted. cbn [map im_mod im_name]. rewrite !init_host_fns_ok. reflexivity.
Qed.

Lemma nap_import_section module :
  load nap_bytes = Ok module -> import_section module = Some (encode_vec encode_import nap_imports).
Proof. vm_compute. intros [= <-]. reflexivity. Qed.

Lemma nap_slot s ins : POOL nap_kernel !! 0%nat = Some s -> inst s = Some ins -> code (interp ins) = code nap_interp.
Proof.
  intros Hs Hi. unfold nap_interp, interp_at. rewrite Hs, Hi.
  destruct (SLOT_MEM nap_kernel !! 0%nat) eqn:E; [reflexivity|]. exfalso. vm_compute in E. discriminate E.
Qed.

Lemma nap_inst_ok : inst_ok nap_kernel 0 nap_interp.
Proof.
  pose proof (spawn_outcome booted (str "nap") nap_bytes booted_pool_ok nap_u8) as Hs.
  rewrite nap_spawned in Hs.
  destruct (spawned_inst_ok (FT := demo_features) _ _ _ _ _ booted_pool_ok nap_u8 eq_refl Hs) as [i Hi].
  - intros s ins Hsl Hin. split.
    + rewrite (nap_slot s ins Hsl Hin). pose proof nap_counts as Hf.
      apply andb_prop in Hf as [Hic%Nat.eqb_eq Hbc%Nat.eqb_eq].
      rewrite Hic, Hbc. apply Nat.leb_le. reflexivity.
    + rewrite (spawned_hosts _ _ _ _ _ s ins nap_imports Hs Hsl Hin nap_import_section).
      * change (List.filter is_func_import nap_imports) with nap_imports. rewrite nap_resolved.
        constructor; [intros f [= <-]; apply host_yield_ok|].
        constructor; [intros f [= <-]; apply host_sleep_ms_ok|].
        apply Forall_drop, Forall_replicate. discriminate.
      * reflexivity.
      * repeat constructor; discriminate.
      * apply Nat.leb_le. reflexivity.
  - pose proof (inst_ok_at _ _ _ Hi) as E. unfold nap_interp. by rewrite E.
Qed.

Lemma nap_world : k_world nap_kernel = world_static.
Proof.
  pose proof (spawn_outcome booted (str "nap") nap_bytes booted_pool_ok nap_u8) as H.
  rewrite nap_spawned in H. rewrite (spawned_quiet (FT := demo_features) _ _ _ _ _ eq_refl H). vm_compute. reflexivity.
Qed.

Lemma nap_guarded idx st : entered idx [] nap_interp world_static = (Ok tt, st) -> guarded_from st.
Proof.
  intros He.
  pose proof (entered_ok idx [] nap_interp world_static (io_wf _ _ _ nap_inst_ok) world_ok_static (Forall_nil _)) as Hok.
  rewrite He in Hok.
  apply (guard_check_sound sized world_ok world_ok_emit world_ok_count sized_write sized_grow 200 st Hok).
  assert (st = (entered idx [] nap_interp world_static).2) as -> by by rewrite He.
  destruct idx as [|[|[|idx]]].
  3: vm_compute; reflexivity.
  all: exfalso; match type of He with entered ?n _ _ _ = _ =>
    assert (is_ok (entered n [] nap_interp world_static).1 = false) as E by (vm_compute; reflexivity) end;
    rewrite He in E; discriminate E.
Qed.

(** The instance after its first yield. *)
Definition yielded_kernel : Kernel := (start_task 100 0 (str "main") [] nap_kernel).2.
Definition yielded_interp : Interpreter := default blank_interp (interp_at yielded_kernel 0).

Lemma nap_yields : start_task 100 0 (str "main") [] nap_kernel = (Ok TaskYielded, yielded_kernel).
Proof. unfold yielded_kernel. apply outcome_pair. vm_compute. reflexivity. Qed.

Lemma yielded_ok : world_ok (k_world yielded_kernel) /\ inst_ok yielded_kernel 0 yielded_interp.
Proof.
  assert (step_safe 0 (start_task 100 0 (str "main") [] nap_kernel)) as Hs.
  { apply (start_task_safe 100 0 nap_kernel nap_interp).
    - apply nap_inst_ok.
    - rewrite nap_world. apply world_ok_static.
    - constructor.
    - intros idx st. rewrite nap_world. apply nap_guarded. }
  rewrite nap_yields in Hs. destruct Hs as [Hw [i Hi]]. split; [exact Hw|].
  pose proof (inst_ok_at _ _ _ Hi) as E. unfold yielded_interp. rewrite E. exact Hi.
Qed.

Lemma WF_make i w : wf sized world_ok i -> world_ok w -> WF sized world_ok (mkSt i w (active_mem_bytes i)).
Proof. done. Qed.

Lemma yielded_guarded :
  guarded_from (mkSt yielded_interp (k_world yielded_kernel) (active_mem_bytes yielded_interp)).
Proof.
  destruct yielded_ok as [Hw Hi].
  apply (guard_check_sound sized world_ok world_ok_emit world_ok_count sized_write sized_grow 200).
  - exact (WF_make _ _ (io_wf _ _ _ Hi) Hw).
  - vm_compute. reflexivity.
Qed.
