(* ===== verification/CorrectInterp.v ===== *)
(** * Correctness of the interpreter

    The properties of the dispatch loop, of memory and of runs, each with an
    instance at a concrete module or state. *)

From S2P Require Import Prelude Leb128 Loader FileTable Opcode IntOps FloatOps Jump.
From S2P Require Import Sections World Machine Dispatch Safety Instantiate Specs Host.
From S2P Require Import HostSpec Engine EngineSpec Task Demo.

(** ** Safety of runs *)

(** The state of the factorial when its dispatch loop starts. *)
Definition fac_state : St := (entered 0 [5] fac_interp world_static).2.

Lemma fac_entered : entered 0 [5] fac_interp world_static = (Ok tt, fac_state).
Proof. unfold fac_state. apply outcome_pair. vm_compute. reflexivity. Qed.

Lemma fac_WF : WF sized world_ok fac_state.
Proof.
  pose proof (entered_ok 0 [5] fac_interp world_static (io_wf _ _ _ fac_inst_ok) world_ok_static) as H.
  rewrite fac_entered in H. apply H. repeat constructor; discriminate.
Qed.

Lemma fac_guarded_from : guarded_from fac_state.
Proof. eapply fac_guarded; [apply world_ok_static|reflexivity|apply fac_entered]. Qed.

(** C1: the dispatch loop never panics. From a well-formed state whose
    reachable instructions pass the run-time guard (results fit the value
    stack, [else] is inside a block), whatever the bytecode and for any fuel,
    [run_loop] ends, traps or is still running; it never reaches an index out
    of range. Where it ends or traps the state is well formed again, and a
    normal end is a reachable state whose frames have all returned. *)
Theorem run_loop_never_panics `{FE : FloatEnv} `{FT : Features} fuel s :
  WF sized world_ok s -> guarded_from s ->
  match run_loop fuel s with
  | (Ok _, s') => WF sized world_ok s' /\ (fdepth (it s') <= shadow_stop_fdepth (it s'))%nat /\ reach s s'
  | (Err _, s') => WF sized world_ok s'
  | (Panic, _) => False
  | (OutOfFuel, _) => True
  end.
Proof.
  intros Hs Hg.
  pose proof (run_loop_safe sized world_ok world_ok_emit world_ok_count sized_write sized_grow fuel s Hs Hg) as H.
  destruct (run_loop fuel s) as [[u|e| |] s']; try done. destruct H as (H1 & H2 & H3).
  split; [done|]. split; [unfold running in H2; lia|done].
Qed.

Lemma run_loop_never_panics_witness :
  (run_loop 200 fac_state).1 = Ok tt /\
  match run_loop 200 fac_state with
  | (Ok _, s') => WF sized world_ok s' /\ (fdepth (it s') <= shadow_stop_fdepth (it s'))%nat /\ reach fac_state s'
  | (Err _, s') => WF sized world_ok s'
  | (Panic, _) => False
  | (OutOfFuel, _) => True
  end.
Proof.
  split; [vm_compute; reflexivity|]. apply run_loop_never_panics; [apply fac_WF|apply fac_guarded_from].
Defined.

(** One instruction. In a well-formed, guarded state with a frame on the
    call stack an iteration of the loop does not panic, whatever byte the
    program counter points at, and leaves the state well formed, on success,
    on a trap and on a yield. *)
Theorem instruction_step_safe `{FE : FloatEnv} `{FT : Features} (MP : Z -> slice -> Prop) (WP : World -> Prop) run s :
  (forall e w, WP w -> WP (emit e w)) ->
  (forall oc fc w, WP w -> WP (set_counters oc fc w)) ->
  (forall p q m m', MP p m -> p <= q -> slen m' = slen m ->
     (forall k, q * PAGE_SIZE <= k -> sget m' k = sget m k) -> (forall k, is_u8 (sget m' k)) -> MP q m') ->
  WF MP WP s -> (0 < fdepth (it s))%nat -> guarded s ->
  match iteration run s with
  | (Ok _, s') | (Err _, s') => WF MP WP s'
  | (Panic, _) => False
  | (OutOfFuel, _) => True
  end.
Proof.
  intros He Hc Hg Hs Hd Hgd.
  pose proof (iteration_safe MP WP He Hc (fun p m m' Hm Hl Hk Hu => Hg p p m m' Hm (Z.le_refl p) Hl Hk Hu) Hg run s Hs Hd Hgd) as H.
  unfold post in H. by destruct (iteration run s) as [[]].
Qed.

Lemma instruction_step_safe_witness :
  (iteration (ret tt) fac_state).1 = Ok tt /\
  match iteration (ret tt) fac_state with
  | (Ok _, s') | (Err _, s') => WF sized world_ok s'
  | (Panic, _) => False
  | (OutOfFuel, _) => True
  end.
Proof.
  split; [vm_compute; reflexivity|].
  apply (instruction_step_safe sized world_ok);
    [apply world_ok_emit|apply world_ok_count|apply sized_grow|apply fac_WF|vm_compute; lia|].
  apply fac_guarded_from; [constructor|]. unfold running. vm_compute. lia.
Defined.

(** Fuel only bounds the model. A run that finished, normally or with a
    trap, has the same outcome and the same final state with any larger fuel. *)
Theorem run_outcome_fuel_independent `{FE : FloatEnv} `{FT : Features} fuel fuel' s :
  WF sized world_ok s -> guarded_from s -> (fuel <= fuel')%nat -> (run_loop fuel s).1 <> OutOfFuel ->
  run_loop fuel' s = run_loop fuel s.
Proof. apply (run_loop_more sized world_ok world_ok_emit world_ok_count sized_write sized_grow). Qed.

Lemma run_outcome_fuel_independent_witness : run_loop 5000 fac_state = run_loop 200 fac_state.
Proof.
  apply run_outcome_fuel_independent; [apply fac_WF|apply fac_guarded_from| |].
  - apply Nat.leb_le. vm_compute. reflexivity.
  - vm_compute. discriminate.
Defined.

(** ** Linear memory *)

(** The bytes above the active pages are those of [m0]. *)
Definition untouched (m0 : slice) (p : Z) (m : slice) : Prop :=
  slen m = slen m0 /\ forall k, p * PAGE_SIZE <= k -> sget m k = sget m0 k.

Lemma untouched_grow m0 p q (m m' : slice) :
  untouched m0 p m -> p <= q -> slen m' = slen m -> (forall k, q * PAGE_SIZE <= k -> sget m' k = sget m k) ->
  (forall k, is_u8 (sget m' k)) -> untouched m0 q m'.
Proof.
  intros [Hl Hm] Hpq Hl' Hk _. split; [congruence|]. intros k Hkq. rewrite Hk by done. apply Hm.
  unfold PAGE_SIZE in *. lia.
Qed.

Lemma WF_untouched s :
  WF sized world_ok s -> Forall (fun h => h = None) (host_fns (code (it s))) ->
  WF (untouched (mem (it s))) world_ok s.
Proof.
  intros [Hw Hr] Hh. split; [|done]. destruct Hw as [Hc ? ? ? ? ? ? ? (M1 & M2 & M3 & M4 & _) ? ?]. split; auto.
  - destruct Hc as [? ? ? ? ? ? ? ? ? ? ? ? [Hl _] ?]. split; auto. split; [done|]. revert Hh. apply Forall_impl.
    intros h ->. discriminate.
  - split; [done|]. split; [done|]. split; [done|]. split; [done|]. split; [done|]. auto.
Qed.

(** C11: linear memory is confined to its pages. However a module without any
    host function runs, from a well-formed state whose reachable instructions
    pass the guard of [guarded_from], the bytes of its region above the pages it has (after any
    [memory.grow]) are the ones it found there, and the region keeps its size:
    no load, store, bulk operation or growth writes past the active memory. *)
Theorem memory_confined `{FE : FloatEnv} `{FT : Features} fuel s :
  WF sized world_ok s -> Forall (fun h => h = None) (host_fns (code (it s))) -> guarded_from s ->
  match run_loop fuel s with
  | (Ok _, s') | (Err _, s') =>
    slen (mem (it s')) = slen (mem (it s)) /\
    forall k, current_pages (it s') * PAGE_SIZE <= k -> sget (mem (it s')) k = sget (mem (it s)) k
  | (Panic, _) => False
  | (OutOfFuel, _) => True
  end.
Proof.
  intros Hs Hh Hg. pose proof (WF_untouched s Hs Hh) as Hu.
  pose proof (run_loop_safe (untouched (mem (it s))) world_ok world_ok_emit world_ok_count
    (fun p m m' Hm Hl Hk Hb => untouched_grow _ p p m m' Hm (Z.le_refl p) Hl Hk Hb)
    (untouched_grow (mem (it s))) fuel s Hu Hg) as H.
  destruct (run_loop fuel s) as [[u|e| |] s']; try done; [destruct H as [H _]|];
    destruct H as [Hw _]; by destruct (wf_mem _ _ _ Hw) as (_ & _ & _ & _ & Hm).
Qed.

Lemma memory_confined_witness :
  match run_loop 200 fac_state with
  | (Ok _, s') | (Err _, s') =>
    slen (mem (it s')) = slen (mem (it fac_state)) /\
    forall k, current_pages (it s') * PAGE_SIZE <= k -> sget (mem (it s')) k = sget (mem (it fac_state)) k
  | (Panic, _) => False
  | (OutOfFuel, _) => True
  end.
Proof.
  apply memory_confined; [apply fac_WF| |apply fac_guarded_from].
  apply Forall_forall. intros h Hh.
  assert (forallb (fun h => match h with None => true | _ => false end) (host_fns (code (it fac_state))) = true) as E
    by (vm_compute; reflexivity).
  rewrite forallb_forall in E. specialize (E h Hh). destruct h; [discriminate E|reflexivity].
Defined.

(** A store followed by a load of the same width at the same address
    gives back the stored value, cut to the width and converted as the load
    opcode says; nothing else of the value stack changes. *)
Theorem store_then_load w conv c1 c2 s n a v o k1 k2 s1 :
  0 < w -> read_memarg (body c1) (c_pc c1) = Ok (o, k1) -> read_memarg (body c2) (c_pc c2) = Ok (o, k2) ->
  vsp (it s) = S (S n) -> vstack (it s) !! n = Some a -> vstack (it s) !! S n = Some v ->
  (n < STACK_DEPTH)%nat -> is_u32 o -> effective a o + w <= active_mem s <= slen (mem (it s)) ->
  exec_store w c1 s = (Ok (Next (c_pc c1 + k1)), s1) ->
  exists s2, exec_load w conv c2 (put_stack (vstack (it s1)) (S n) s1) = (Ok (Next (c_pc c2 + k2)), s2) /\
    vstack (it s2) = <[n := conv (v mod 256 ^ w)]> (vstack (it s)).
Proof. apply store_load_same. Qed.

(** A state with address 8 and value 0x1234 on the stack, one active page. *)
Definition store_state : St :=
  mkSt (set_vstack (<[1%nat := 0x1234]> (<[0%nat := 8]> (vstack fac_interp))) 2 fac_interp) world_static PAGE_SIZE.
(** [align 0, offset 4] *)
Definition store_ctx : ctx := mkCtx 0 0 [0x3B; 0; 4] 1.

Lemma store_then_load_witness :
  exists s2, exec_load 2 as_i16 store_ctx
      (put_stack (vstack (it (exec_store 2 store_ctx store_state).2)) 1 (exec_store 2 store_ctx store_state).2)
      = (Ok (Next 3), s2) /\
    vstack (it s2) = <[0%nat := as_i16 (0x1234 mod 256 ^ 2)]> (vstack (it store_state)).
Proof.
  apply (store_then_load 2 as_i16 store_ctx store_ctx store_state 0 8 0x1234 4 2 2);
    [ .. | apply (outcome_pair (exec_store 2 store_ctx store_state)); vm_compute; reflexivity].
  all: first [ vm_compute; reflexivity | apply Nat.ltb_lt; reflexivity | vm_compute; split; discriminate || reflexivity ].
Defined.

(** An access that does not fit the active memory traps with
    [MemOutOfBounds]; the load and the store alike consume their operands and
    change nothing else. *)
Theorem out_of_bounds_traps w conv c s n a v o k :
  0 < w -> read_memarg (body c) (c_pc c) = Ok (o, k) ->
  vsp (it s) = S n -> active_mem s < effective a o + w ->
  (vstack (it s) !! n = Some a ->
   exec_load w conv c s = (Err MemOutOfBounds, put_stack (vstack (it s)) n s)) /\
  (forall n', n = S n' -> vstack (it s) !! n = Some v -> vstack (it s) !! n' = Some a ->
   exec_store w c s = (Err MemOutOfBounds, put_stack (vstack (it s)) n' s)).
Proof.
  intros Hw Hm Hn Hb. split; [intros Ha; by eapply exec_load_oob|].
  intros n' -> Hv Ha. by eapply exec_store_oob.
Qed.

Lemma out_of_bounds_traps_witness :
  exec_store 2 store_ctx (mkSt (it store_state) world_static 12) =
  (Err MemOutOfBounds, put_stack (vstack (it store_state)) 0 (mkSt (it store_state) world_static 12)).
Proof.
  apply (out_of_bounds_traps 2 (fun x => x) store_ctx (mkSt (it store_state) world_static 12) 1 8 0x1234 4 2);
    try (vm_compute; reflexivity).
Defined.
