(* ===== verification/CorrectCode.v ===== *)
(** * Correctness of calls, blocks and arithmetic

    The calling convention, the branch targets of structured code and the
    numeric instructions against the WebAssembly reference semantics. *)

From S2P Require Import Prelude Leb128 Loader FileTable Opcode IntOps FloatOps Jump.
From S2P Require Import Sections World Machine Dispatch Safety Instantiate Specs Host.
From S2P Require Import HostSpec Engine EngineSpec Task Demo.

(** ** Calls *)

(** Calling a function. [push_frame] pops exactly the parameters, in
    order, into the first locals of the new frame, zeroes the declared locals,
    remembers where the caller's values end and where its control frames end,
    and leaves the rest of the caller's stack in place. *)
Theorem call_passes_arguments s b t p r dc base :
  (fdepth (it s) < CALL_DEPTH)%nat ->
  let c := code (it s) in
  func_type_indices c !! b = Some t -> 0 <= t < Z.of_nat (type_count c) ->
  type_param_counts c !! Z.to_nat t = Some p -> type_result_counts c !! Z.to_nat t = Some r ->
  local_counts c !! b = Some dc -> 0 <= p -> 0 <= dc -> p + dc <= Z.of_nat MAX_LOCALS ->
  vsp (it s) = (base + Z.to_nat p)%nat -> (vsp (it s) <= length (vstack (it s)))%nat ->
  push_frame b s =
  (Ok tt,
   mkSt (set_frames
     (<[fdepth (it s) := mkFrame b 0
          (take (Z.to_nat p) (drop base (vstack (it s))) ++ replicate (MAX_LOCALS - Z.to_nat p) 0)
          (Z.to_nat (p + dc)) (ctrl_depth (it s)) base r]> (frames (it s)))
     (S (fdepth (it s))) (set_vstack (vstack (it s)) base (it s))) (world s) (active_mem s)).
Proof. apply push_frame_spec. Qed.

(** The factorial with its argument and one caller value below it. *)
Definition call_state : St :=
  mkSt (set_vstack (<[1%nat := 6]> (<[0%nat := 77]> (vstack fac_interp))) 2 fac_interp) world_static PAGE_SIZE.

Lemma call_passes_arguments_witness :
  push_frame 0 call_state =
  (Ok tt,
   mkSt (set_frames
     (<[0%nat := mkFrame 0 0 (6 :: replicate 63 0) 2 0 1 1]> (frames (it call_state))) 1
     (set_vstack (vstack (it call_state)) 1 (it call_state))) world_static PAGE_SIZE).
Proof.
  apply (call_passes_arguments call_state 0 0 1 1 1 1);
    first [ vm_compute; reflexivity | apply Nat.ltb_lt; vm_compute; reflexivity
          | apply Nat.leb_le; vm_compute; reflexivity
          | apply Z.leb_le; vm_compute; reflexivity | vm_compute; split; discriminate || reflexivity ].
Defined.

(** Returning. [do_return] keeps the caller's values, moves the results
    down right above them (dropping whatever else the callee left), restores
    the caller's control depth and pops the frame. *)
Theorem return_passes_results s f :
  (0 < fdepth (it s))%nat -> frames (it s) !! (fdepth (it s) - 1)%nat = Some f ->
  0 <= result_count f <= Z.of_nat STACK_DEPTH ->
  (vsp_base f + Z.to_nat (result_count f) <= vsp (it s) <= length (vstack (it s)))%nat ->
  let rc := Z.to_nat (result_count f) in
  do_return s =
  (Ok tt,
   mkSt (set_frames (frames (it s)) (fdepth (it s) - 1)
     (set_ctrl (ctrl (it s)) (ctrl_base f)
       (set_vstack (take (vsp_base f) (vstack (it s))
                    ++ take rc (drop (vsp (it s) - rc) (vstack (it s)))
                    ++ drop (vsp_base f + rc) (vstack (it s))) (vsp_base f + rc) (it s))))
     (world s) (active_mem s)).
Proof. apply do_return_spec. Qed.

(** A callee with two scratch values above the caller's and one result. *)
Definition return_frame : Frame := mkFrame 0 10 (replicate MAX_LOCALS 0) 2 0 1 1.
Definition return_state : St :=
  mkSt (set_frames (<[0%nat := return_frame]> (frames fac_interp)) 1
    (set_vstack (<[2%nat := 720]> (<[1%nat := 5]> (<[0%nat := 77]> (vstack fac_interp)))) 3 fac_interp))
    world_static PAGE_SIZE.

Lemma return_passes_results_witness :
  do_return return_state =
  (Ok tt,
   mkSt (set_frames (frames (it return_state)) 0
     (set_ctrl (ctrl (it return_state)) 0
       (set_vstack (take 1 (vstack (it return_state)) ++ take 1 (drop 2 (vstack (it return_state)))
                    ++ drop 2 (vstack (it return_state))) 2 (it return_state)))) world_static PAGE_SIZE).
Proof.
  apply (return_passes_results return_state return_frame);
    first [ vm_compute; reflexivity | apply Nat.ltb_lt; vm_compute; reflexivity
          | vm_compute; split; discriminate || reflexivity
          | split; apply Nat.leb_le; vm_compute; reflexivity ].
Defined.

(** ** Branch targets *)

(** The body of the factorial's block is structured code. *)
Ltac code_step :=
  first [ apply sc_nil
        | lazymatch goal with
          | |- seq_code (0x03 :: ?bt :: _) => apply (sc_block 0x03 bt _ []); [reflexivity| |]
          | |- seq_code (?op :: ?x :: ?r) =>
            first [ apply (sc_plain op [x] r); [exists [], x; repeat split; constructor|]
                  | apply (sc_plain op [] (x :: r)); [reflexivity|] ]
          end ].

Definition loop_body : list Z := firstn 21 (skipn 8 fac_body).

Lemma loop_body_code : seq_code loop_body.
Proof. unfold loop_body. cbn [firstn skipn fac_body]. repeat code_step. Qed.

Lemma block_body_code : seq_code (0x03 :: 0x40 :: loop_body ++ [0x0B]).
Proof. apply (sc_block 0x03 0x40 loop_body []); [reflexivity|apply loop_body_code|constructor]. Qed.

(** [scan_block_end] finds the matching [end] of structured code: nested
    blocks, loops and ifs and the immediates of every instruction class are
    skipped, whatever precedes and follows; for a two-armed [if] it finds the
    [else] too. *)
Theorem structured_block_end pre thn els post :
  seq_code thn -> seq_code els ->
  scan_block_end (pre ++ thn ++ 0x0B :: post) (length pre) = Some (length pre + length thn, None)%nat /\
  scan_block_end (pre ++ thn ++ 0x05 :: els ++ 0x0B :: post) (length pre) =
    Some (length pre + length thn + 1 + length els, Some (length pre + length thn))%nat.
Proof. intros Ht He. split; [by apply scan_block_end_code|by apply scan_block_end_if]. Qed.

Lemma structured_block_end_witness :
  scan_block_end ([0x02; 0x40] ++ (0x03 :: 0x40 :: loop_body ++ [0x0B]) ++ 0x0B :: [0x20; 1; 0x0B]) 2 = Some (26, None)%nat /\
  scan_block_end ([0x02; 0x40] ++ (0x03 :: 0x40 :: loop_body ++ [0x0B]) ++ 0x05 :: loop_body ++ 0x0B :: [0x20; 1; 0x0B]) 2
    = Some (48, Some 26)%nat.
Proof.
  apply (structured_block_end [0x02; 0x40] (0x03 :: 0x40 :: loop_body ++ [0x0B]) loop_body [0x20; 1; 0x0B]).
  - apply block_body_code.
  - apply loop_body_code.
Defined.

(** C20: the jump cache never answers anything else than the scan. Whatever
    bodies a module has, a lookup in the table built at instantiation, with the
    fall back to scanning where the table has no entry, gives exactly what
    scanning the body gives, or it does not end. It ends whenever the bodies
    have fewer bytes that open a block than the table has slots (4096); only
    with a full table can a lookup of an absent entry probe forever. *)
Theorem cached_targets_are_scanned bodies bi body pc :
  Forall (fun b => Z.of_nat (length b) < U32_MAX) bodies -> bodies !! bi = Some body -> Z.of_nat pc <= U32_MAX ->
  let scanned := ok_or (scan_block_end body pc) MalformedCode in
  let cached := block_targets (build_jump_table bodies) body bi pc in
  (cached = scanned \/ cached = OutOfFuel) /\
  ((list_sum (map block_ops bodies) < JUMP_SLOTS)%nat -> cached = scanned).
Proof.
  intros Hl Hb Hpc scanned cached. destruct (build_jump_table_ok bodies) as [Hs Hf]. split.
  - by apply (block_targets_sound bodies Hl).
  - intros Hn. apply (block_targets_scan bodies Hl); try done. apply filled_lt_empty. rewrite (proj1 Hs). lia.
Qed.

Lemma cached_targets_are_scanned_witness :
  block_targets (build_jump_table [fac_body]) fac_body 0 6 = Ok (30, None)%nat.
Proof.
  destruct (cached_targets_are_scanned [fac_body] 0 fac_body 6) as [_ E].
  - repeat constructor.
  - reflexivity.
  - vm_compute. discriminate.
  - rewrite E; [vm_compute; reflexivity|]. apply Nat.ltb_lt. vm_compute. reflexivity.
Defined.

(** Entering a block. On structured code [block] and [loop] push a control
    frame with the position after the block type as start and the position of
    the matching [end] as end, so that a later branch lands there. *)
Theorem block_entry_target k c s bodies pre op bt bdy post :
  body c = pre ++ op :: bt :: bdy ++ 0x0B :: post -> c_pc c = S (length pre) ->
  seq_code bdy -> (ctrl_depth (it s) < MAX_CTRL_DEPTH)%nat ->
  jump_table (code (it s)) = build_jump_table bodies -> bodies !! c_body_idx c = Some (body c) ->
  Forall (fun b => Z.of_nat (length b) < U32_MAX) bodies ->
  (list_sum (map block_ops bodies) < JUMP_SLOTS)%nat ->
  let start := (length pre + 2)%nat in
  exec_block k c s =
  (Ok (Next start),
   mkSt (set_ctrl (<[ctrl_depth (it s) := mkCtrl k start (start + length bdy)]> (ctrl (it s)))
     (S (ctrl_depth (it s))) (it s)) (world s) (active_mem s)).
Proof.
  intros Hb Hpc Hc Hd Hj Hbi Hl Hn. eapply (exec_block_spec k c s pre op bt bdy post); try done.
  rewrite Hj. destruct (build_jump_table_ok bodies) as [Hs Hf].
  apply (block_targets_scan bodies Hl); try done.
  - apply filled_lt_empty. rewrite (proj1 Hs). lia.
  - assert (Z.of_nat (length (body c)) < U32_MAX) as Hlen by (exact (Forall_lookup_1 _ _ _ _ Hl Hbi)).
    rewrite Hb, length_app in Hlen. cbn [length] in Hlen. lia.
Qed.

Lemma block_entry_target_witness :
  exists s', exec_block Block (mkCtx 0 0 fac_body 5) call_state = (Ok (Next 6), s') /\
    ctrl (it s') !! 0%nat = Some (mkCtrl Block 6 30).
Proof.
  eexists. split.
  - eapply (block_entry_target Block (mkCtx 0 0 fac_body 5) call_state [fac_body] [0x41; 1; 0x21; 1] 0x02 0x40
      (0x03 :: 0x40 :: loop_body ++ [0x0B]) [0x20; 1; 0x0B]).
    + vm_compute. reflexivity.
    + reflexivity.
    + apply block_body_code.
    + apply Nat.ltb_lt. vm_compute. reflexivity.
    + vm_compute. reflexivity.
    + reflexivity.
    + repeat constructor.
    + apply Nat.ltb_lt. vm_compute. reflexivity.
  - vm_compute. reflexivity.
Defined.

(** ** Arithmetic *)

(** C15: integer arithmetic and comparison. Each of the fifteen binary
    operators and ten comparisons of [i32] and of [i64], found in the dispatch
    table at its opcode, computes the WebAssembly reference operator on the
    unsigned values its operands stand for, and traps with [DivisionByZero]
    exactly where the reference operator is undefined; the one exception is
    [i32.div_s] of the smallest value by -1, which wraps. *)
Theorem integer_arithmetic i g a b :
  (ibin_spec 32 !! i = Some g -> ~ (i = 3%nat /\ as_i32 a = -2147483648 /\ as_i32 b = -1) ->
     exists f, assoc (OP_I32_ADD + Z.of_nat i) int_binops = Some f /\ computes 32 f g a b) /\
  (irel_spec 32 !! i = Some g ->
     exists f, assoc (OP_I32_EQ + Z.of_nat i) int_binops = Some f /\ computes 32 f g a b) /\
  (is_i64 a -> is_i64 b -> ibin_spec 64 !! i = Some g ->
     exists f, assoc (OP_I64_ADD + Z.of_nat i) int_binops = Some f /\ computes 64 f g a b) /\
  (is_i64 a -> is_i64 b -> irel_spec 64 !! i = Some g ->
     exists f, assoc (OP_I64_EQ + Z.of_nat i) int_binops = Some f /\ computes 64 f g a b).
Proof.
  split; [apply i32_bin_ok|]. split; [apply i32_rel_ok|].
  split; intros Ha Hb Hg; [by apply i64_bin_ok|by apply i64_rel_ok].
Qed.

(** The exception: the quotient wraps to the dividend instead of trapping. *)
Theorem i32_div_s_wraps :
  exists f, assoc (OP_I32_ADD + 3) int_binops = Some f /\ f (-2147483648) (-1) = Ok (-2147483648).
Proof. eexists. split; reflexivity. Qed.

(** Floats travel as bits. Every bit pattern that is not a NaN survives
    decoding to a float and encoding back, for both widths, and the byte
    swaps of [i32.reinterpret_f32] cancel. *)
Theorem float_bits_roundtrip nan b a :
  (0 <= b < 2 ^ 32 -> is_nan (from_bits 23 8 b) = false -> to_bits 23 8 nan (from_bits 23 8 b) = b) /\
  (0 <= b < 2 ^ 64 -> is_nan (from_bits 52 11 b) = false -> to_bits 52 11 nan (from_bits 52 11 b) = b) /\
  i32_reinterpret_f32 a = Ok (as_u32 a).
Proof.
  split; [intros Hb Hn; by apply to_from_bits|]. split; [intros Hb Hn; by apply to_from_bits|].
  apply reinterpret_f32_bits.
Qed.

(** [i64.div_s] of the smallest value by -1. *)
Lemma integer_arithmetic_witness :
  exists f, assoc (OP_I64_ADD + 3) int_binops = Some f /\
    computes 64 f (nth 3 (ibin_spec 64) (fun _ _ => None)) (-9223372036854775808) (-1).
Proof.
  apply (integer_arithmetic 3 (nth 3 (ibin_spec 64) (fun _ _ => None)) (-9223372036854775808) (-1));
    [split; [discriminate|reflexivity]..|reflexivity].
Defined.

(** 1.5 as a double. *)
Lemma float_bits_roundtrip_witness : to_bits 52 11 0 (from_bits 52 11 0x3FF8000000000000) = 0x3FF8000000000000.
Proof.
  apply (float_bits_roundtrip 0 0x3FF8000000000000 0); [vm_compute; split; discriminate || reflexivity|reflexivity].
Defined.
