(* ===== verification/CorrectKernel.v ===== *)
(** * Correctness of the engine and of the scheduler

    Spawning, starting, resuming, running and destroying instances; tasks,
    their ownership of instances, isolation, fairness and sleep. *)

From S2P Require Import Prelude Leb128 Loader FileTable Opcode IntOps FloatOps Sections.
From S2P Require Import World Machine Dispatch Safety Instantiate Specs Host HostSpec.
From S2P Require Import Engine EngineSpec Editor Task Demo.

(** ** Instances *)

(** C8: the contract of [spawn]. On success the first free slot, and no
    other, becomes active; it holds the bytes and the interpreter made from
    them, its memory is the zeroed region with the data segments applied, and
    every import was found in the registry. On failure no slot changes state:
    at most the memory of that free slot has been written. Other instances,
    their memories, the registry and the kernel state are never touched. *)
Theorem spawn_contract `{FE : FloatEnv} `{FT : Features} k name bytes :
  pool_ok k -> Forall is_u8 bytes ->
  match spawn name bytes k with
  | (Ok slot, k') => spawned k name bytes slot k'
  | (_, k') =>
    k' = k \/ exists slot, position (fun s => negb (active s)) (POOL k) = Some slot /\ mem_only slot k k'
  end.
Proof. apply spawn_outcome. Qed.

Lemma spawn_contract_witness : spawned booted (str "fac") fac_bytes 0 fac_kernel.
Proof.
  pose proof (spawn_contract booted (str "fac") fac_bytes booted_pool_ok fac_u8) as H.
  rewrite fac_spawned in H. exact H.
Defined.

(** C10: a spawned module satisfies the invariant of the interpreter's loop.
    Take a kernel, built without native code, whose host functions are the
    built-ins, and a module with at most [MAX_FUNCS] functions in all, a bound
    that no code checks, which imports none of the built-ins that index
    memory or socket tables unchecked ([print] of [env]; [send], [recv],
    [close], [accept], [udp_send] and [udp_recv] of [net]). When [spawn]
    succeeds on its bytes, whatever they are, the interpreter in the slot
    together with the slot's memory is well formed: every table has its size
    and its entries their range, the pages lie in the memory, and every host
    function respects its interface. *)
Theorem spawned_module_well_formed `{FE : FloatEnv} `{FT : Features} k name bytes slot k' module :
  pool_ok k -> (forall m nm, lookup_host m nm k = lookup_host m nm (init_host_fns k)) -> kernel_jit = false ->
  Forall is_u8 bytes -> load bytes = Ok module -> (function_count module <= MAX_FUNCS)%nat ->
  Forall (fun im => im ∉ unchecked) (imported module) -> spawn name bytes k = (Ok slot, k') ->
  exists i, inst_ok k' slot i.
Proof.
  intros Hk Hr Hj Hb Hl Hn Hi E. pose proof (spawn_outcome k name bytes Hk Hb) as Hs. rewrite E in Hs.
  apply (spawned_inst_ok k name bytes slot k' Hk Hb Hj Hs). intros s ins HP HI. by eapply spawned_from_module.
Qed.

Lemma spawned_module_well_formed_witness : exists i, inst_ok nap_kernel 0 i.
Proof.
  destruct (load nap_bytes) as [module|e| |] eqn:El; [|vm_compute in El; discriminate El..].
  apply (spawned_module_well_formed (FT := demo_features) booted (str "nap") nap_bytes 0 nap_kernel module).
  - apply booted_pool_ok.
  - intros m nm. unfold booted. by rewrite !init_host_fns_ok.
  - reflexivity.
  - apply nap_u8.
  - exact El.
  - vm_compute in El. injection El as <-. apply Nat.leb_le. vm_compute. reflexivity.
  - vm_compute in El. injection El as <-. apply (bool_decide_unpack _). vm_compute. exact Logic.I.
  - apply nap_spawned.
Defined.

(** C2: starting a task never panics. On a well-formed instance, for any
    entry name and arguments, [start_task] completes, yields, reports an error
    or is still running, provided the code it enters passes the run-time
    guard; afterwards the instance and the kernel state are well formed again,
    so that it can be resumed, restarted or destroyed. *)
Theorem start_task_never_panics `{FE : FloatEnv} `{FT : Features} fuel h k i entry args :
  inst_ok k h i -> world_ok (k_world k) -> Forall is_i64 args ->
  (forall idx st, entered idx args i (k_world k) = (Ok tt, st) -> guarded_from st) ->
  step_safe h (start_task fuel h entry args k).
Proof. apply start_task_safe. Qed.

Lemma fac_world : k_world fac_kernel = world_static.
Proof.
  pose proof (spawn_outcome booted (str "fac") fac_bytes booted_pool_ok fac_u8) as H.
  rewrite fac_spawned in H. rewrite (spawned_quiet (FT := demo_features) _ _ _ _ _ eq_refl H). vm_compute. reflexivity.
Qed.

Lemma start_task_never_panics_witness :
  (start_task 1000 0 (str "main") [5] fac_kernel).1 = Ok (Completed (Some 120)) /\
  step_safe 0 (start_task 1000 0 (str "main") [5] fac_kernel).
Proof.
  split; [vm_compute; reflexivity|]. eapply start_task_never_panics.
  - apply fac_inst_ok.
  - rewrite fac_world. apply world_ok_static.
  - repeat constructor; discriminate.
  - intros idx st. apply fac_guarded; rewrite fac_world; [apply world_ok_static|reflexivity].
Defined.

(** Resuming a suspended task never panics, under the same conditions,
    and leaves the instance resumable. *)
Theorem resume_task_never_panics `{FE : FloatEnv} `{FT : Features} fuel h k i :
  inst_ok k h i -> world_ok (k_world k) -> guarded_from (mkSt i (k_world k) (active_mem_bytes i)) ->
  step_safe h (resume_task fuel h k).
Proof. apply resume_task_safe. Qed.

Lemma resume_task_never_panics_witness :
  (resume_task 100 0 yielded_kernel).1 = Ok TaskYielded /\ step_safe 0 (resume_task 100 0 yielded_kernel).
Proof.
  split; [vm_compute; reflexivity|]. destruct yielded_ok as [Hw Hi].
  exact (resume_task_never_panics 100 0 yielded_kernel yielded_interp Hi Hw yielded_guarded).
Defined.

(** C9: [run] leaves the pool as it found it. Whether the module completes or
    fails at any point (loading, missing imports or entry, a trap), the slot
    it used is free again, no other slot changed state, and every instance
    that was live keeps its interpreter and its memory. Where the build has
    native code, a call of it that strays from its buffers is not a completed
    run, and nothing is claimed of it. *)
Theorem run_releases_slot `{FE : FloatEnv} `{FT : Features} fuel bytes entry args k :
  pool_ok k -> Forall is_u8 bytes ->
  match run fuel bytes entry args k with
  | (Panic, _) | (OutOfFuel, _) => True
  | (_, k') => pool_ok k' /\ (forall j, occupied k' j = occupied k j) /\
      forall j, occupied k j = true -> POOL k' !! j = POOL k !! j /\ SLOT_MEM k' !! j = SLOT_MEM k !! j
  end.
Proof. apply run_effect. Qed.

Lemma fac_pool_ok : pool_ok fac_kernel.
Proof.
  pose proof (spawn_outcome booted (str "fac") fac_bytes booted_pool_ok fac_u8) as H.
  rewrite fac_spawned in H. by apply (spawned_effect _ _ _ _ _ booted_pool_ok H).
Qed.

(** Running the napping module while the factorial is live. *)
Lemma run_releases_slot_witness :
  is_ok (run 100 nap_bytes (str "main") [] fac_kernel).1 = true /\
  match run 100 nap_bytes (str "main") [] fac_kernel with
  | (Panic, _) | (OutOfFuel, _) => True
  | (_, k') => pool_ok k' /\ (forall j, occupied k' j = occupied fac_kernel j) /\
      forall j, occupied fac_kernel j = true ->
        POOL k' !! j = POOL fac_kernel !! j /\ SLOT_MEM k' !! j = SLOT_MEM fac_kernel !! j
  end.
Proof.
  split; [vm_compute; reflexivity|].
  exact (run_releases_slot (FE := demo_float) (FT := demo_features) 100 nap_bytes (str "main") [] fac_kernel fac_pool_ok nap_u8).
Defined.

(** ** Tasks *)

Lemma sys0_inv : sys_inv sys0.
Proof.
  split; [apply booted_pool_ok|reflexivity|apply Nat.ltb_lt; reflexivity| |].
  - intros id t [H _]%lookup_replicate_1. discriminate H.
  - intros i j t u [H _]%lookup_replicate_1. discriminate H.
Qed.

(** C3: tasks own their instances. In every state the kernel can reach from
    boot by timer ticks, key strokes, scheduler turns, spawns (also failing
    ones), kills, shell runs and argument changes: each queued task has an
    active pool slot of its own, no two tasks share one, and between turns no
    task is left running or done. *)
Theorem tasks_own_instances `{FE : FloatEnv} `{FT : Features} s0 s :
  sys_inv s0 -> reachable s0 s -> sys_inv s.
Proof. apply reachable_inv. Qed.

Lemma sys1_step : sys_step ASpawn sys0 sys1.
Proof. exact (step_spawn sys0 (str "fac") fac_bytes [5] 0 sys1 fac_u8 sys1_spawned). Qed.
Lemma sys2_step : sys_step ASpawn sys1 sys2.
Proof. exact (step_spawn sys1 (str "nap") nap_bytes [] 1 sys2 nap_u8 sys2_spawned). Qed.

(** Two spawned tasks and two turns. *)
Definition sys3 : Sys := (run_next_task 1000 sys2).2.
Definition sys4 : Sys := (run_next_task 1000 sys3).2.

Lemma sys3_turn : run_next_task 1000 sys2 = (Ok true, sys3).
Proof. unfold sys3. apply outcome_pair. vm_compute. reflexivity. Qed.
Lemma sys4_turn : run_next_task 1000 sys3 = (Ok true, sys4).
Proof. unfold sys4. apply outcome_pair. vm_compute. reflexivity. Qed.

Lemma tasks_own_instances_witness : sys_inv sys4.
Proof.
  apply (tasks_own_instances sys0); [apply sys0_inv|].
  apply (reachable_step _ ATurn sys3); [|exact (step_turn _ _ _ _ sys4_turn)].
  apply (reachable_step _ ATurn sys2); [|exact (step_turn _ _ _ _ sys3_turn)].
  apply (reachable_step _ ASpawn sys1); [|exact sys2_step].
  apply (reachable_step _ ASpawn sys0); [constructor|exact sys1_step].
Defined.

Lemma sys2_inv : sys_inv sys2.
Proof. eapply sys_step_inv; [|exact sys2_step]. eapply sys_step_inv; [apply sys0_inv|exact sys1_step]. Qed.

(** C6: the scheduler is fair. While a ready or suspended task waits, at most
    [MAX_TASKS - 1] turns can go to other tasks before its own, whatever other
    kernel actions (short of killing it) happen in between, and however the
    other tasks behave in their turns. *)
Theorem scheduler_is_fair `{FE : FloatEnv} `{FT : Features} id n s s' t :
  sys_inv s -> TASK_QUEUE s !! id = Some (Some t) -> state t = Ready \/ state t = Suspended ->
  waiting id n s s' -> (n < MAX_TASKS)%nat.
Proof. apply waiting_bound. Qed.

(** The task of a queue slot. *)
Definition task_at (s : Sys) (id : nat) : option Task := mjoin (TASK_QUEUE s !! id).
Lemma task_at_some s id t : task_at s id = Some t -> TASK_QUEUE s !! id = Some (Some t).
Proof. unfold task_at. destruct (TASK_QUEUE s !! id) as [[u|]|]; cbn; congruence. Qed.

Definition blank_task : Task := mkTask Done 0 [] 0 [] 0.
Definition fac_task : Task := default blank_task (task_at sys2 0).
Lemma fac_task_at : TASK_QUEUE sys2 !! 0%nat = Some (Some fac_task).
Proof. apply task_at_some. vm_compute. reflexivity. Qed.

(** The factorial waits while the napping module has its turn. *)
Lemma scheduler_is_fair_witness : waiting 0 1 sys2 sys3 /\ (1 < MAX_TASKS)%nat.
Proof.
  assert (waiting 0 1 sys2 sys3) as Hw.
  { apply (waiting_turn 0 0 sys2 sys2 1000 1 true sys3).
    - constructor.
    - vm_compute. reflexivity.
    - discriminate.
    - exact sys3_turn. }
  split; [exact Hw|].
  apply (scheduler_is_fair (FE := demo_float) (FT := demo_features) 0 1 sys2 sys3 fac_task sys2_inv fac_task_at);
    [left; vm_compute; reflexivity|exact Hw].
Defined.

(** C7: stepping one task does not disturb another. A step that completes keeps
    the ownership invariant, and every other task keeps its queue entry, its
    interpreter and its memory, bit for bit. Where the build has native code, a
    step completes only if the native code it called stayed within the memory,
    globals and locals it was given: of machine code that strays, which the
    compiler does not prevent for invalid bodies, nothing is claimed. *)
Theorem task_step_isolates `{FE : FloatEnv} `{FT : Features} fuel id s o s' :
  sys_inv s -> task_step fuel id s = (Ok o, s') ->
  sys_inv s' /\ CURSOR s' = CURSOR s /\
  forall j u, j <> id -> TASK_QUEUE s !! j = Some (Some u) ->
    TASK_QUEUE s' !! j = Some (Some u) /\
    POOL (kern s') !! instance u = POOL (kern s) !! instance u /\
    SLOT_MEM (kern s') !! instance u = SLOT_MEM (kern s) !! instance u.
Proof. intros Hs E. destruct (task_step_good _ _ _ _ _ Hs E) as (H1 & H2 & H3). done. Qed.

Lemma task_step_isolates_witness :
  TASK_QUEUE (task_step 1000 1 sys2).2 !! 0%nat = Some (Some fac_task) /\
  SLOT_MEM (kern (task_step 1000 1 sys2).2) !! instance fac_task = SLOT_MEM (kern sys2) !! instance fac_task.
Proof.
  destruct (task_step_isolates 1000 1 sys2 (Some (Ok TaskYielded)) (task_step 1000 1 sys2).2 sys2_inv) as (_ & _ & H).
  - apply outcome_pair. vm_compute. reflexivity.
  - destruct (H 0%nat fac_task ltac:(discriminate) fac_task_at) as (H1 & _ & H2). split; [exact H1|exact H2].
Defined.

(** Creating a task. Success puts a [Ready] task with the first eight
    arguments into a free queue slot, on an instance no task had; failure
    leaves queue, cursor and pool unchanged. No other task is disturbed. *)
Theorem task_spawn_contract `{FE : FloatEnv} `{FT : Features} name bytes args s :
  sys_inv s -> Forall is_u8 bytes ->
  match task_spawn name bytes args s with
  | (Ok id, s') => sys_inv s' /\ isolated id s s' /\ TASK_QUEUE s !! id = Some None /\ CURSOR s' = CURSOR s /\
      exists t, TASK_QUEUE s' = <[id := Some t]> (TASK_QUEUE s) /\ state t = Ready /\
        occupied (kern s) (instance t) = false /\
        take (wasm_argc t) (wasm_args t) = take MAX_TASK_ARGS args
  | (_, s') => sys_inv s' /\ TASK_QUEUE s' = TASK_QUEUE s /\ POOL (kern s') = POOL (kern s) /\ CURSOR s' = CURSOR s
  end.
Proof. apply task_spawn_good. Qed.

Lemma task_spawn_contract_witness : sys_inv sys1 /\ isolated 0 sys0 sys1.
Proof.
  pose proof (task_spawn_contract (str "fac") fac_bytes [5] sys0 sys0_inv fac_u8) as H.
  rewrite sys1_spawned in H. split; [exact (proj1 H)|exact (proj1 (proj2 H))].
Defined.

(** Killing a task always succeeds; the task is gone, its slot is free
    and its memory is zero, and no other task is disturbed. *)
Theorem task_kill_frees id s :
  sys_inv s -> exists s', task_kill id s = (Ok tt, s') /\ sys_inv s' /\ isolated id s s' /\ CURSOR s' = CURSOR s /\
    forall t, TASK_QUEUE s !! id = Some (Some t) ->
      TASK_QUEUE s' !! id = Some None /\ occupied (kern s') (instance t) = false /\
      SLOT_MEM (kern s') !! instance t = Some (zero_slice region).
Proof.
  intros Hs. destruct (task_kill_good id s Hs) as (s' & E & (H1 & H2 & H3) & H4).
  exists s'. done.
Qed.

Lemma task_kill_frees_witness :
  exists s', task_kill 0 sys2 = (Ok tt, s') /\ TASK_QUEUE s' !! 0%nat = Some None /\
    occupied (kern s') (instance fac_task) = false.
Proof.
  destruct (task_kill_frees 0 sys2 sys2_inv) as (s' & E & _ & _ & _ & H).
  destruct (H fac_task fac_task_at) as (H1 & H2 & _). exists s'. split; [exact E|]. split; [exact H1|exact H2].
Defined.

(** The wake tick. A yield with a pending request of [ms] milliseconds puts the
    task to sleep for [ceil(ms / 10)] ticks of one millisecond and consumes the
    request, a plain yield suspends it. *)
Theorem yield_sets_wake_tick `{FE : FloatEnv} `{FT : Features} id t s :
  let w := k_world (kern s) in
  let ms := PENDING_SLEEP_MS w in
  0 <= ms -> ticks w + (ms + 9) / 10 < 18446744073709551616 ->
  update_task id t (Ok TaskYielded) s =
    (Ok tt, mkSys (set_k_world (set_sleep 0 w) (kern s))
       (<[id := Some (set_state (if 0 <? ms then Sleeping (ticks w + (ms + 9) / 10) else Suspended) t)]> (TASK_QUEUE s))
       (CURSOR s) (editor s)).
Proof.
  cbn zeta. intros Hms Hov. destruct (0 <? _) eqn:E; zbool; [by apply yield_sleeps|by apply yield_suspends].
Qed.

(** C38: a sleeping task sleeps until its tick and then gets its turn. Take a
    task asleep until the tick [wake]. Whatever the kernel does before that tick
    (short of killing the task), the task keeps its queue entry, its interpreter
    and its memory, is not runnable, and a step of it does nothing. Once the tick
    has come it is runnable, and while it is, fewer than [MAX_TASKS] turns can go
    to other tasks before its own. *)
Theorem sleeping_task_wakes `{FE : FloatEnv} `{FT : Features} id t wake s s' :
  sys_inv s -> TASK_QUEUE s !! id = Some (Some t) -> state t = Sleeping wake -> before_tick id wake s s' ->
  TASK_QUEUE s' !! id = Some (Some t) /\ slot_kept (instance t) s s' /\
  (ticks (k_world (kern s')) < wake -> is_task_runnable id s' = false /\ forall fuel, task_step fuel id s' = (Ok None, s')) /\
  (wake <= ticks (k_world (kern s')) -> is_task_runnable id s' = true /\
     forall n s2, overtaken id s' n s2 -> (n < MAX_TASKS)%nat).
Proof.
  intros Hs Ht Hst Hb. destruct (asleep_untouched id wake s s' t Hs Ht Hst Hb) as (Hs' & Ht' & Hk).
  split; [done|]. split; [done|]. split; intros Hw.
  - split; [exact (proj1 (sleeping_waits 0 id s' t wake Ht' Hst Hw))|]. intros fuel.
    exact (proj2 (sleeping_waits fuel id s' t wake Ht' Hst Hw)).
  - split; [|intros n s2; by eapply overtaken_bound]. eapply woken_runs; [|done..].
    rewrite <- (si_queue s' Hs'). by eapply lookup_lt_Some.
Qed.

(** The napping task after its second yield: asleep until tick 3. *)
Definition sys5 : Sys := (task_step 1000 1 sys3).2.
Definition asleep_task : Task := default blank_task (task_at sys5 1).
Lemma asleep_task_at : TASK_QUEUE sys5 !! 1%nat = Some (Some asleep_task).
Proof. apply task_at_some. vm_compute. reflexivity. Qed.

Lemma sys5_inv : sys_inv sys5.
Proof.
  assert (sys_inv sys3) as H3 by (eapply sys_step_inv; [exact sys2_inv|exact (step_turn _ _ _ _ sys3_turn)]).
  eapply task_step_good; [exact H3|]. apply outcome_pair. vm_compute. reflexivity.
Qed.

(** Three ticks later. *)
Definition tick (s : Sys) : Sys := set_kern (set_k_world (pit_on_tick (k_world (kern s))) (kern s)) s.
Lemma ticking id wake s s' : before_tick id wake s s' -> ticks (k_world (kern s')) < wake -> before_tick id wake s (tick s').
Proof. intros H Hlt. eapply (before_step id wake s ATick); [exact H|exact Hlt|constructor|discriminate]. Qed.

Lemma sleeping_task_wakes_witness :
  state asleep_task = Sleeping 3 /\ is_task_runnable 1 (tick (tick sys5)) = false /\
  is_task_runnable 1 (tick (tick (tick sys5))) = true.
Proof.
  assert (before_tick 1 3 sys5 (tick (tick sys5))) as B2.
  { apply ticking; [apply ticking; [constructor|]|]; vm_compute; reflexivity. }
  assert (before_tick 1 3 sys5 (tick (tick (tick sys5)))) as B3 by (apply ticking; [exact B2|vm_compute; reflexivity]).
  assert (state asleep_task = Sleeping 3) as Hst by (vm_compute; reflexivity). split; [exact Hst|].
  destruct (sleeping_task_wakes (FE := demo_float) (FT := demo_features) 1 asleep_task 3 sys5 _ sys5_inv asleep_task_at Hst B2)
    as (_ & _ & H2 & _).
  destruct (sleeping_task_wakes (FE := demo_float) (FT := demo_features) 1 asleep_task 3 sys5 _ sys5_inv asleep_task_at Hst B3)
    as (_ & _ & _ & H3).
  split; [apply H2; vm_compute; reflexivity|apply H3; vm_compute; discriminate].
Defined.
