(* ===== verification/CorrectHost.v ===== *)
(** * Correctness of the host functions, the file table and the keyboard *)

From S2P Require Import Prelude Leb128 Loader FileTable Opcode World Machine Safety Host.
From S2P Require Import HostSpec NetHost Engine EngineSpec.

(** ** Host functions *)

(** The built-ins but [print], which can panic ([host_print_panics]). *)
Definition total_hosts : list (H unit) :=
  [ host_print_int; host_print_i64; host_print_char; host_print_hex; host_yield; host_sleep_ms; host_uptime_ms;
    host_wasm_opcount; host_exit; host_read_char; host_read_line; host_fs_read; host_fs_write; host_fs_size;
    host_args_get; host_fb_set_pixel; host_fb_present; host_fb_blit ].

(** C37: the built-in host functions respect the interface the interpreter is
    verified against. Called with any stack, any memory and any kernel state
    in its invariant, each of them (all of [env] but [print]) does not panic,
    whatever pointers and lengths the module passes, and keeps the stack in
    its bounds, the memory's size and bytes, and the kernel's invariant. A read
    that waits for a key that never comes does not end; of the calls into the
    console and the FAT driver it is the arguments that are recorded. *)
Theorem builtins_respect_interface h : h ∈ total_hosts -> host_ok any_mem world_ok (host h).
Proof.
  intros Hh. assert (Forall (fun h => host_ok any_mem world_ok (host h)) total_hosts) as HF.
  { repeat (apply Forall_cons; [first
      [ apply host_print_int_ok | apply host_print_i64_ok | apply host_print_char_ok | apply host_print_hex_ok
      | apply host_yield_ok | apply host_sleep_ms_ok | apply host_uptime_ms_ok | apply host_wasm_opcount_ok
      | apply host_exit_ok | apply host_read_char_ok | apply host_read_line_ok | apply host_fs_read_ok
      | apply host_fs_write_ok | apply host_fs_size_ok | apply host_args_get_ok | apply host_fb_set_pixel_ok
      | apply host_fb_present_ok | apply host_fb_blit_ok ]|]). apply Forall_nil. }
  rewrite Forall_forall in HF. apply HF. by apply list_elem_of_In.
Qed.

Lemma builtins_respect_interface_witness : host_ok any_mem world_ok (host host_fs_read).
Proof. apply builtins_respect_interface. unfold total_hosts. repeat (apply list_elem_of_here || apply list_elem_of_further). Defined.

(** After boot the registry answers for exactly the 19 names of [env] and
    the 14 of [net], each with its own function: none was lost to a full
    registry and none shadows another. *)
Theorem boot_registry k m nm :
  lookup_host m nm (init_host_fns k) =
  if bytes_eqb (str "env") m then first_named nm env_hosts else
  if bytes_eqb (str "net") m then first_named nm net_hosts else None.
Proof. apply init_host_fns_ok. Qed.

(** Printed numbers read back. The decimal text of [print_int] and of
    [print_i64] never overruns its 11 or 20 byte buffer, denotes the number,
    also for the smallest value, has a minus sign exactly for negative numbers
    and no leading zero; the eight hex digits of [print_hex] denote theirs. *)
Theorem printed_number_reads_back n :
  (is_i32 n -> exists s, fmt_dec 11 (-2147483648) n = Ok s /\ dec_value s = n /\
     (n < 0 -> head s = Some 45) /\ (0 <= n -> Forall is_digit s) /\
     (n <> 0 -> head (if n <? 0 then tail s else s) <> Some 48)) /\
  (is_i64 n -> exists s, fmt_dec 20 (-9223372036854775808) n = Ok s /\ dec_value s = n /\
     (n < 0 -> head s = Some 45) /\ (0 <= n -> Forall is_digit s) /\
     (n <> 0 -> head (if n <? 0 then tail s else s) <> Some 48)) /\
  (is_u32 n -> hex_value (hex_digits n) = n /\ length (hex_digits n) = 8%nat).
Proof.
  split; [intros Hn; apply (fmt_dec_spec 10 n 2147483648); [exact Hn|lia]|].
  split; [intros Hn; apply (fmt_dec_spec 19 n 9223372036854775808); [exact Hn|lia]|apply hex_digits_value].
Qed.

Lemma printed_number_reads_back_witness :
  exists s, fmt_dec 11 (-2147483648) (-2147483648) = Ok s /\ dec_value s = -2147483648.
Proof.
  destruct (printed_number_reads_back (-2147483648)) as [H _].
  destruct H as (s & H1 & H2 & _); [split; [discriminate|reflexivity]|]. exists s. split; [exact H1|exact H2].
Defined.

(** ** Files *)

(** [fs_write] then [fs_read]. With a free table slot and a free buffer,
    writing [bl] bytes under a name of at most 64 bytes returns 0, and a later
    read of that name, from any memory, into a large enough buffer, returns
    the length and puts exactly those bytes there; reading any other name
    still gives what it gave before the write. *)
Theorem file_write_then_read s np nl bp bl :
  slen (h_mem s) < 2147483648 -> in_mem (h_mem s) np nl -> in_mem (h_mem s) bp bl ->
  nl <= 64 -> bl <= WRITE_SLOT_CAP ->
  let nm := srange (h_mem s) np (np + nl) in
  let bs := srange (h_mem s) bp (bp + bl) in
  utf8_valid nm = true -> fs_wf (fs (h_w s)) -> unique_names (fs (h_w s)) ->
  (FILE_COUNT (fs (h_w s)) < MAX_FILES)%nat -> (WRITE_POOL_NEXT (fs (h_w s)) < WRITE_SLOTS)%nat ->
  exists w', fs_write_body np nl bp bl s = (Ok 0, mkHSt (h_vs s) (h_n s) (h_mem s) w') /\
    unique_names (fs w') /\
    (forall nm', nm' <> nm -> content (fs w') nm' = content (fs (h_w s)) nm') /\
    forall vs n m np' bp' bc,
      slen m < 2147483648 -> in_mem m np' nl -> in_mem m bp' bc -> srange m np' (np' + nl) = nm -> bl <= bc ->
      exists m', fs_read_body np' nl bp' bc (mkHSt vs n m w') = (Ok bl, mkHSt vs n m' w') /\
        srange m' bp' (bp' + bl) = bs /\ forall i, ~ bp' <= i < bp' + bl -> sget m' i = sget m i.
Proof.
  intros Hm Hn Hb Hnl Hbl nm bs Hv Hwf Hu Hc Hp.
  destruct (fs_write_body_spec s np nl bp bl Hm Hn Hb Hnl Hbl Hv Hwf Hu Hc Hp) as (w' & E & Hu' & _ & Hcont).
  exists w'. split; [done|]. split; [done|]. split.
  { intros nm' Hne. rewrite Hcont. destruct (bytes_eqb _ nm') eqn:Eb; [|done]. apply bytes_eqb_true in Eb. destruct Hne. by rewrite <- Eb. }
  intros vs n m np' bp' bc Hm' Hn' Hb' Hnm Hbc.
  assert (Z.of_nat (length bs) = bl) as Hlen by (unfold bs; rewrite srange_length; destruct Hb; lia).
  destruct (fs_read_body_spec (mkHSt vs n m w') np' nl bp' bc bs) as (m' & E' & _ & Hr & Hfr); cbn [h_mem h_w]; try done.
  - by rewrite Hnm.
  - rewrite Hnm, Hcont. fold nm. rewrite (proj2 (bytes_eqb_true nm nm) eq_refl). reflexivity.
  - lia.
  - rewrite Hlen in *. exists m'. done.
Qed.

(** A memory with the name "a" at 0 and three bytes at 16. *)
Definition note_mem : slice := Slice 65536 (fun i => if i =? 0 then 97 else if i =? 16 then 1 else if i =? 17 then 2 else if i =? 18 then 3 else 0).
Definition note_state : HSt := mkHSt (replicate STACK_DEPTH 0) 0 note_mem world_static.

Lemma static_unique : unique_names fs_static.
Proof. intros i j f g [H _]%lookup_replicate_1. discriminate H. Qed.

Lemma file_write_then_read_witness :
  exists w', fs_write_body 0 1 16 3 note_state = (Ok 0, mkHSt (h_vs note_state) 0 note_mem w') /\
    exists m', fs_read_body 0 1 100 8 (mkHSt [] 0 note_mem w') = (Ok 3, mkHSt [] 0 m' w') /\
      srange m' 100 103 = [1; 2; 3].
Proof.
  destruct (file_write_then_read note_state 0 1 16 3) as (w' & E & _ & _ & H).
  - reflexivity.
  - split; vm_compute; discriminate.
  - split; vm_compute; discriminate.
  - discriminate.
  - discriminate.
  - reflexivity.
  - apply fs_wf_static.
  - apply static_unique.
  - apply Nat.ltb_lt. reflexivity.
  - apply Nat.ltb_lt. reflexivity.
  - exists w'. split; [exact E|].
    destruct (H [] 0%nat note_mem 0 100 8) as (m' & E' & Hr & _).
    + reflexivity.
    + split; vm_compute; discriminate.
    + split; vm_compute; discriminate.
    + reflexivity.
    + discriminate.
    + exists m'. split; [exact E'|exact Hr].
Defined.

(** A full table loses files. When all 64 table slots have been used
    (removal does not free any), replacing a file, as [fs_write] does while
    reporting success, leaves its name without content; the other names keep
    theirs. *)
Theorem full_table_loses_file st nm d nm' :
  fs_wf st -> unique_names st -> FILE_COUNT st = MAX_FILES ->
  find_file nm' (register_file nm d (remove_file nm st).2) =
  if bytes_eqb nm nm' then None else find_file nm' st.
Proof. apply find_file_replace_full. Qed.

(** A table used up by one file and 63 removed ones. *)
Definition last_file : File := mkFile (pad_name 64 (str "a")) 1 (DImage [1; 2; 3]).
Definition full_fs : FsState := set_table fs_static (<[63%nat := Some last_file]> (replicate MAX_FILES None)) MAX_FILES.

Lemma full_fs_table i f : FILE_TABLE full_fs !! i = Some (Some f) -> i = 63%nat /\ f = last_file.
Proof.
  unfold full_fs. cbn [FILE_TABLE set_table]. intros [(-> & [= <-] & _)|[_ H]]%list_lookup_insert_Some; [done|].
  apply lookup_replicate_1 in H as [H _]. discriminate H.
Qed.

Lemma full_table_loses_file_witness :
  find_file (str "a") full_fs = Some (DImage [1; 2; 3]) /\
  find_file (str "a") (register_file (str "a") (DImage [9]) (remove_file (str "a") full_fs).2) = None.
Proof.
  split; [vm_compute; reflexivity|].
  rewrite (full_table_loses_file full_fs (str "a") (DImage [9]) (str "a")).
  - reflexivity.
  - destruct fs_wf_static. split; try assumption.
    + apply Nat.leb_le. reflexivity.
    + intros i Hi. right. apply lookup_ge_None_2. exact Hi.
    + intros i f [-> ->]%full_fs_table. split; [exact Logic.I|]. split; [reflexivity|]. apply Nat.leb_le. reflexivity.
  - intros i j f g [-> _]%full_fs_table [-> _]%full_fs_table _. reflexivity.
  - reflexivity.
Defined.

(** Stored files do not move. Claiming a write buffer and carving a region
    of the boot arena give the new file its own storage holding exactly its
    bytes (the arena region 8-byte aligned and past the previous ones), and
    every reference handed out before still reads the same bytes. *)
Theorem stored_files_stable st bs :
  fs_wf st ->
  (Z.of_nat (length bs) <= WRITE_SLOT_CAP -> (WRITE_POOL_NEXT st < WRITE_SLOTS)%nat ->
   exists d st', alloc_write_buf bs st = (Some d, st') /\ fs_wf st' /\
     dref_ok st' d /\ deref st' d = bs /\
     forall d0, dref_ok st d0 -> dref_ok st' d0 /\ deref st' d0 = deref st d0) /\
  (forall base st1, alloc_disk_slot (Z.of_nat (length bs)) st = (Some base, st1) ->
     let st' := fill_disk_slot base bs st1 in
     base mod 8 = 0 /\ FILE_BUF_NEXT st <= base /\ fs_wf st' /\
     deref st' (DBuf base (Z.of_nat (length bs))) = bs /\
     forall d0, dref_ok st d0 -> dref_ok st' d0 /\ deref st' d0 = deref st d0).
Proof.
  intros Hwf. split.
  - intros Hl Hn. destruct (alloc_write_buf_ok st bs Hwf Hl Hn) as (d & st' & E & H1 & H2 & H3 & _ & _ & _ & H4).
    exists d, st'. done.
  - intros base st1 E. destruct (alloc_disk_slot_ok st bs base st1 Hwf E) as (H1 & H2 & _ & H4 & H5 & _ & _ & H6). done.
Qed.

Lemma stored_files_stable_witness :
  exists d st', alloc_write_buf [7; 8] fs_static = (Some d, st') /\ deref st' d = [7; 8].
Proof.
  destruct (stored_files_stable fs_static [7; 8] fs_wf_static) as [H _].
  destruct H as (d & st' & E & _ & _ & Hd & _); [discriminate|apply Nat.ltb_lt; reflexivity|].
  exists d, st'. split; [exact E|exact Hd].
Defined.

(** The boot loader mirrors the volume. Whatever the FAT volume lists and
    stores, after copying its files into the table every entry of the table
    names a file of the volume and holds exactly the bytes the volume has under
    that name; files that do not fit are left out, none is cut. *)
Theorem boot_mirrors_volume {Fat : Type} (fat_list : Fat -> list (list Z * Z))
    (fat_read_file : Fat -> list Z -> option (list Z)) (fat : Fat) st :
  fs_wf st -> FILE_COUNT st = 0%nat ->
  let st' := load_fat_files_to_table fat_list fat_read_file fat st in
  fs_wf st' /\
  forall nm d, find_file nm st' = Some d -> fat_read_file fat nm = Some (deref st' d).
Proof.
  intros Hwf Hc. assert (mirrors fat_read_file fat st) as Hm.
  { intros i f Hi. destruct (wf_tail st Hwf i ltac:(lia)); congruence. }
  destruct (load_fat_files_ok fat_list fat_read_file fat st Hwf Hm) as [Hwf' Hm']. split; [done|].
  intros nm d (i & f & Hi & <- & <-)%find_file_entry. by apply Hm' in Hi.
Qed.

(** A volume with two files, the second one empty (and so skipped). *)
Lemma boot_mirrors_volume_witness :
  let read := fun (_ : unit) nm => if bytes_eqb nm (str "x") then Some [5; 6] else if bytes_eqb nm (str "y") then Some [] else None in
  let st' := load_fat_files_to_table (fun _ => [(str "x", 2); (str "y", 0)]) read tt fs_static in
  find_file (str "x") st' = Some (DBuf 0 2) /\ read tt (str "x") = Some (deref st' (DBuf 0 2)).
Proof.
  cbv zeta. split; [vm_compute; reflexivity|].
  apply (boot_mirrors_volume (fun _ : unit => [(str "x", 2); (str "y", 0)])
    (fun _ nm => if bytes_eqb nm (str "x") then Some [5; 6] else if bytes_eqb nm (str "y") then Some [] else None) tt fs_static).
  - apply fs_wf_static.
  - reflexivity.
  - vm_compute. reflexivity.
Defined.

(** ** Keyboard *)

(** The blocking and the polling key reader decode alike. [next_key]
    returns exactly the key, the remaining input and the shift state that
    polling [try_next_key] until it answers gives, and it consumes input. *)
Theorem keyboard_readers_agree scs shift :
  next_key_raw scs shift = poll_keys (length scs) scs shift /\
  forall k scs' sh, next_key_raw scs shift = Some (k, scs', sh) -> (length scs' < length scs)%nat.
Proof. split; [apply next_key_polls|]. intros k scs' sh. apply next_key_consumes. Qed.
