(* ===== verification/CorrectLoader.v ===== *)
(** * Correctness of the loader and of the section parsers *)

From S2P Require Import Prelude Leb128 Loader FileTable Opcode Jump Sections World Machine.
From S2P Require Import Dispatch Host Engine EngineSpec FloatOps Demo.

(** ** Modules *)

(** Loading is total and stays inside the file. For every byte string
    [load] returns a module or an error, never a panic, within as many
    iterations as there are bytes, and each section of the module is a
    contiguous part of the file. *)
Theorem load_total_safe bytes :
  match load bytes with
  | Ok m => forall id d, section_of id m = Some d -> subslice d bytes
  | Err _ => True
  | Panic | OutOfFuel => False
  end.
Proof. apply load_total. Qed.

(** What an encoder writes, [load] reads: any sequence of sections in the
    standard encoding loads to the module holding, for each known id, the
    contents of its last section; unknown ids are skipped. *)
Theorem load_roundtrip secs :
  Forall (fun s => Z.of_nat (length s.2) < 4294967296) secs ->
  load (encode_module secs) = Ok (module_of secs).
Proof. apply load_encode. Qed.

Lemma load_roundtrip_witness : load fac_bytes = Ok (module_of fac_sections).
Proof. apply load_roundtrip. repeat (constructor; [reflexivity|]). constructor. Defined.

(** Export lookup. On an encoded export section [find_export] finds the
    index of the first function export of that name and reports its absence;
    on any bytes whatever it neither panics nor loops, and what it finds is a
    32-bit index. *)
Theorem find_export_correct m es name :
  match find_export m name with Ok v => is_u32 v | Err _ => True | Panic | OutOfFuel => False end /\
  (export_section m = Some (encode_vec encode_export es) ->
   Z.of_nat (length es) < 4294967296 -> Forall export_ok es ->
   find_export m name = ok_or (lookup_export name es) tt).
Proof. split; [apply find_export_safe|apply find_export_encode]. Qed.

Lemma find_export_correct_witness :
  find_export (module_of fac_sections) (str "main") = Ok 0.
Proof.
  destruct (find_export_correct (module_of fac_sections) [mkExport (str "main") 0 0] (str "main")) as [_ H].
  rewrite H; [reflexivity|reflexivity|reflexivity|].
  constructor; [|constructor]. split; [reflexivity|]. split; [reflexivity|]. split; [discriminate|reflexivity].
Defined.

(** The three passes over the import section agree. The number of
    function imports the engine counts, the type indices the interpreter
    records and the host functions the engine resolves all follow the function
    imports of the section, in order; an import is missing exactly when one of
    them has no host function. *)
Theorem import_passes_agree ims k out :
  Z.of_nat (length ims) < 4294967296 -> Forall import_ok ims ->
  (length (List.filter is_func_import ims) <= MAX_FUNCS)%nat -> (MAX_FUNCS <= length out)%nat ->
  let sec := encode_vec encode_import ims in
  let fims := List.filter is_func_import ims in
  count_func_imports (Some sec) = Ok (length fims) /\
  parse_import_func_types sec out = Ok (length fims, filled_with (func_types ims) out) /\
  length (func_types ims) = length fims /\
  resolve_imports (Some sec) k =
    Ok (mkResolve (filled_with (map (resolved k) fims) (replicate MAX_FUNCS None)) (length fims)
          (existsb (fun i => bool_decide (resolved k i = None)) fims)).
Proof.
  intros Hl Hok Hf Ho. cbn zeta. pose proof (func_types_length ims) as Hft.
  split; [by apply count_func_imports_encode|].
  split; [rewrite <- Hft in *; apply parse_import_func_types_encode; done|].
  split; [done|]. by apply resolve_imports_encode.
Qed.

Lemma import_passes_agree_witness :
  count_func_imports (Some (encode_vec encode_import (nap_imports ++ [mkImport (str "env") (str "mem") (IMem 1 None)]))) = Ok 2%nat.
Proof.
  apply (import_passes_agree (nap_imports ++ [mkImport (str "env") (str "mem") (IMem 1 None)]) booted (replicate MAX_FUNCS 0)).
  - reflexivity.
  - repeat constructor; discriminate.
  - apply Nat.leb_le. reflexivity.
  - apply Nat.leb_le. reflexivity.
Defined.

(** ** Sections *)

(** The function tables. From the encoded type, function and code
    sections the parsers rebuild parameter and result counts, type indices,
    bodies and the number of declared locals, each in its place, the rest of
    the fixed-size tables untouched. *)
Theorem function_tables_roundtrip ts fs bds params results out bodies counts :
  (length ts <= MAX_TYPES)%nat -> (length fs <= MAX_FUNCS)%nat -> (length bds <= MAX_FUNCS)%nat ->
  length params = MAX_TYPES -> length results = MAX_TYPES -> length out = MAX_FUNCS ->
  length bodies = MAX_FUNCS -> length counts = MAX_FUNCS ->
  Forall (fun t => short t.1 /\ short t.2) ts -> Forall is_u32 fs -> Forall body_ok bds ->
  parse_type_section (encode_vec encode_type ts) params results =
    Ok (length ts, filled_with (map (fun t => Z.of_nat (length t.1)) ts) params,
                   filled_with (map (fun t => Z.of_nat (length t.2)) ts) results) /\
  parse_function_section (encode_vec encode_u32 fs) out = Ok (filled_with fs out) /\
  parse_code_section (encode_vec encode_body bds) bodies counts =
    Ok (length bds, filled_with (map snd bds) bodies, filled_with (map local_total bds) counts).
Proof.
  intros H1 H2 H3 H4 H5 H6 H7 H8 Ht Hf Hb.
  split; [apply parse_type_section_encode; try done; lia|].
  split; [apply parse_function_section_encode; try done; lia|].
  apply parse_code_section_encode; try done; lia.
Qed.

Lemma function_tables_roundtrip_witness :
  parse_code_section (encode_vec encode_body [([(1, 0x7F)], fac_body)]) (replicate MAX_FUNCS []) (replicate MAX_FUNCS 0)
  = Ok (1%nat, fac_body :: replicate 511 [], 1 :: replicate 511 0).
Proof.
  apply (function_tables_roundtrip [([0x7F], [0x7F])] [0] [([(1, 0x7F)], fac_body)] (replicate MAX_TYPES 0)
    (replicate MAX_TYPES 0) (replicate MAX_FUNCS 0));
    first [ apply Nat.leb_le; reflexivity | apply length_replicate
          | repeat (constructor; cbn); first [reflexivity | discriminate] ].
Defined.

(** Globals and table elements. The encoded globals come back with their
    initial values and mutability; an element segment that fits the table
    overwrites exactly its range and raises the table size to its end. *)
Theorem globals_and_elements_roundtrip gs vals muts seg table size :
  (length gs <= MAX_GLOBALS)%nat -> length vals = MAX_GLOBALS -> length muts = MAX_GLOBALS ->
  Forall (fun g => init_ok (g_init g)) gs ->
  Forall is_u32 (s_funcs seg) -> is_i32 (s_offset seg) -> 0 <= s_offset seg ->
  s_offset seg + Z.of_nat (length (s_funcs seg)) <= Z.of_nat MAX_TABLE -> length table = MAX_TABLE ->
  parse_global_section (encode_vec encode_global gs) vals muts =
    Ok (length gs, filled_with (map (fun g => init_val (g_init g)) gs) vals, filled_with (map g_mut gs) muts) /\
  parse_element_section (encode_vec encode_segment [seg]) table size =
    let k := Z.to_nat (s_offset seg) in let n := length (s_funcs seg) in
    Ok (take k table ++ s_funcs seg ++ drop (k + n) table,
        if (n =? 0)%nat then size else Nat.max size (k + n)).
Proof.
  intros Hg Hv Hm Hi Hf Ho Ho0 Hfit Ht. split; [apply parse_global_section_encode; try done; lia|].
  assert (short (s_funcs seg)) as Hs by (unfold short, MAX_TABLE in *; lia).
  unfold parse_element_section. pose proof (at_start (encode_vec encode_segment [seg])) as H.
  unfold encode_vec at 2 in H. cbn [map concat length] in H. rewrite app_nil_r in H.
  destruct (read_u32_step _ _ (Z.of_nat 1) _ H) as [E H']; [split; [discriminate|reflexivity]|].
  rewrite E. cbn [rbind]. by apply parse_element_loop_encode.
Qed.

Lemma globals_and_elements_roundtrip_witness :
  parse_element_section (encode_vec encode_segment [mkSegment 2 [7; 9]]) (replicate MAX_TABLE NULL_FUNC) 0 =
  Ok (take 2 (replicate MAX_TABLE NULL_FUNC) ++ [7; 9] ++ drop 4 (replicate MAX_TABLE NULL_FUNC), 4%nat).
Proof.
  destruct (globals_and_elements_roundtrip [mkGlobal 0x7F true (I32Const 5)] (replicate MAX_GLOBALS 0)
    (replicate MAX_GLOBALS false) (mkSegment 2 [7; 9]) (replicate MAX_TABLE NULL_FUNC) 0) as [_ H].
  - apply Nat.leb_le. reflexivity.
  - apply length_replicate.
  - apply length_replicate.
  - constructor; [|constructor]. cbn. split; [discriminate|reflexivity].
  - cbn [s_funcs]. constructor; [split; [discriminate|reflexivity]|].
    constructor; [split; [discriminate|reflexivity]|constructor].
  - cbn [s_offset]. split; [discriminate|reflexivity].
  - discriminate.
  - discriminate.
  - apply length_replicate.
  - exact H.
Defined.

(** Data segments. From an encoded data section whose active segments
    start inside the memory, [init_memory] writes each segment's bytes at its
    offset, in order, later segments over earlier ones, cutting what does not
    fit; it never grows the memory. *)
Theorem data_segments_written segs m :
  Z.of_nat (length segs) < 4294967296 -> Forall (seg_ok (slen m)) segs -> 0 <= slen m < 2147483648 ->
  init_memory (encode_vec encode_seg segs) m = Ok (true, fold_left write_seg segs m) /\
  slen (fold_left write_seg segs m) = slen m.
Proof.
  intros Hl Hok Hm. split; [by apply init_memory_encode|]. clear. revert m.
  induction segs as [|d segs IH]; intros m; cbn [fold_left]; [done|]. by rewrite IH, write_seg_len.
Qed.

Lemma data_segments_written_witness :
  match init_memory (encode_vec encode_seg [mkSeg 4 [1; 2; 3]; mkSeg 5 [9]; mkSeg 8 [6; 7; 8]]) (zero_slice 10) with
  | Ok (b, m) => (b, srange m 0 10)
  | _ => (false, [])
  end = (true, [0; 0; 0; 0; 1; 9; 3; 0; 6; 7]).
Proof.
  destruct (data_segments_written [mkSeg 4 [1; 2; 3]; mkSeg 5 [9]; mkSeg 8 [6; 7; 8]] (zero_slice 10)) as [H _].
  - reflexivity.
  - repeat (constructor; [vm_compute; repeat split; first [reflexivity | discriminate]|]). constructor.
  - split; [discriminate|reflexivity].
  - rewrite H. vm_compute. reflexivity.
Defined.

(** ** Integers *)

(** LEB-128. Each reader inverts the standard encoder on its whole range,
    whatever follows, and reports the encoding's length; on arbitrary bytes
    the unsigned reader's result is a [u32] and it consumes one to five of the
    bytes it was given. *)
Theorem leb128_readers v rest bs n :
  (is_u32 v -> read_u32_leb128 (encode_u32 v ++ rest) = Some (v, length (encode_u32 v))) /\
  (is_i32 v -> read_i32_leb128 (encode_i32 v ++ rest) = Some (v, length (encode_i32 v))) /\
  (is_i64 v -> read_i64_leb128 (encode_i64 v ++ rest) = Some (v, length (encode_i64 v))) /\
  (read_u32_leb128 bs = Some (v, n) -> is_u32 v /\ (1 <= n <= 5)%nat /\ (n <= length bs)%nat).
Proof.
  split; [apply read_u32_encode|]. split; [apply read_i32_encode|]. split; [apply read_i64_encode|].
  apply read_u32_bounds.
Qed.

Lemma leb128_readers_witness :
  read_i64_leb128 (encode_i64 (-9223372036854775808) ++ [0x0B]) = Some (-9223372036854775808, 10%nat).
Proof. apply (leb128_readers (-9223372036854775808) [0x0B] [] 0). split; [discriminate|reflexivity]. Defined.
