(* ===== verification/CorrectNet.v ===== *)
(** * Correctness of the network stack and of its host functions *)

From S2P Require Import Prelude Packets PacketsSpec Sockets NetStack NetSpec NetFlow Opcode.
From S2P Require Import World Machine Safety Host HostSpec NetHost.

(** ** Two stacks to run *)

Definition mac1 : list Z := [82; 84; 0; 18; 52; 86].
Definition mac2 : list Z := [82; 84; 0; 18; 52; 87].
Definition ip1 : list Z := [10; 0; 2; 15].
Definition ip2 : list Z := [10; 0; 2; 16].

Definition node m a c ts us : NetworkStack :=
  mkStack (mkNet [] []) m a (Dhcp.mkDhcp Dhcp.Selecting 7 Ip.ZERO_IP Ip.ZERO_IP Ip.ZERO_IP Ip.ZERO_IP 0) c ts us.

Definition slots {A} (a : A) : list (option A) := Some a :: replicate 7 None.
Definition nobody {A} : list (option A) := replicate 8 None.

Lemma slots_ok {A} (P : A -> Prop) a : P a -> all_some P (slots a).
Proof. intros Ha. split; [reflexivity|]. apply Forall_cons_2; [done|]. by apply Forall_replicate. Qed.
Lemma nobody_ok {A} (P : A -> Prop) : all_some P (@nobody A).
Proof. split; [reflexivity|]. by apply Forall_replicate. Qed.

Lemma addr_ok : (mac_ok mac1 /\ mac_ok mac2) /\ (ip_ok ip1 /\ ip_ok ip2).
Proof. repeat split; try reflexivity; repeat (apply Forall_cons_2; [split; [discriminate|reflexivity]|]); apply Forall_nil_2. Qed.

Lemma node_ok m a c ts us :
  mac_ok m -> ip_ok a -> cache_ok c -> all_some tcp_ok ts -> all_some udpsock_ok us -> net_ok (node m a c ts us).
Proof.
  intros. split; cbn; try done; try apply Forall_nil_2. split; cbn; [split; [discriminate|reflexivity]|apply zero_ip_ok..].
Qed.

Definition knows a m : ArpCache.t := ArpCache.insert_arp a m ArpCache.new_cache.
Lemma knows_ok a m : ip_ok a -> mac_ok m -> cache_ok (knows a m).
Proof. intros. by apply cache_ok_insert; [apply cache_ok_new|..]. Qed.

(** A client that knows the server's address, and a listening server. *)
Definition client : NetSt := mkNetSt (node mac1 ip1 (knows ip2 mac2) nobody nobody) [].
Definition server : NetSt := mkNetSt (node mac2 ip2 ArpCache.new_cache (slots (Tcp.listen 80)) nobody) [].

Lemma client_ok : net_ok (stack client).
Proof. destruct addr_ok as [[] []]. apply node_ok; try done; [by apply knows_ok|apply nobody_ok..]. Qed.
Lemma server_ok : net_ok (stack server).
Proof.
  destruct addr_ok as [[] []]. apply node_ok; try done; [apply cache_ok_new|apply slots_ok, listen_ok; split; [discriminate|reflexivity]|apply nobody_ok].
Qed.

(** ** Safety of every history *)

(** C12: whatever frames the network delivers and whatever calls the guests
    make, with socket handles of the table, the stack runs on. From the state
    [try_init] leaves, any sequence of completed receives, pump turns and
    socket calls is carried out without a panic or an endless loop, and every
    table, buffer and queued frame stays well formed. *)
Theorem network_runs_forever d m up es :
  Forall rx_ok (rx d) -> Forall NetSpec.frame_ok (tx d) -> mac_ok m -> Forall event_ok es ->
  exists s', (do! observe (fun s => init_stack d m up) in run_events es) (mkNetSt (blank_stack d m) []) = (Ok tt, s') /\
    net_ok (stack s').
Proof.
  intros Hr Ht Hm He. pose proof (init_stack_ok d m up Hr Ht Hm) as Hi. unfold bind, observe.
  destruct (init_stack d m up) as [[u|e| |] s1]; try done; by apply run_events_ok.
Qed.

Lemma network_runs_forever_witness :
  exists s', (do! observe (fun s => init_stack (mkNet [] []) mac1 true) in run_events [EvArrive (60, replicate RX_BUF_SIZE 255); EvPoll; EvListen 80])
    (mkNetSt (blank_stack (mkNet [] []) mac1) []) = (Ok tt, s') /\ net_ok (stack s').
Proof.
  apply (network_runs_forever (mkNet [] []) mac1 true); [apply Forall_nil_2|apply Forall_nil_2|apply addr_ok|].
  repeat apply Forall_cons_2; try apply Forall_nil_2; [|exact Logic.I|split; [discriminate|reflexivity]].
  split; [reflexivity|]. by apply Forall_replicate.
Defined.

(** ** TCP *)

(** The three segments of the handshake, carried from one card to the other,
    leave both ends established with nothing in flight. *)
Definition three_way (A B : NetSt) (port : Z) (i j : nat) : Prop :=
  exists f1 f2 f3 A1 A2 B1 B2,
  tcp_connect (ip (stack B)) port A = (Ok (Some i), A1) /\ tx (net (stack A1)) = tx (net (stack A)) ++ [f1] /\
  handle_eth f1 B = (Ok tt, B1) /\ tx (net (stack B1)) = tx (net (stack B)) ++ [f2] /\
  handle_eth f2 A1 = (Ok tt, A2) /\ tx (net (stack A2)) = tx (net (stack A1)) ++ [f3] /\
  handle_eth f3 B1 = (Ok tt, B2) /\ tx (net (stack B2)) = tx (net (stack B1)) /\
  net_ok (stack A2) /\ net_ok (stack B2) /\
  exists a b, connected A2 B2 i j a b /\ Tcp.local_port b = port /\ Tcp.recv_len a = 0%nat /\ Tcp.recv_len b = 0%nat.

(** C14: opening a connection. A stack with a free socket slot that knows the
    peer's hardware address calls [tcp_connect] to a port the peer listens
    on. It transmits a SYN; the peer, fed that frame, transmits a SYN|ACK; fed
    back, the first transmits an ACK; and after it both sockets are
    Established with matching ports, addresses and sequence numbers. *)
Theorem tcp_handshake A B port i j q : can_connect A B port i j q -> three_way A B port i j.
Proof. intros H. exact (hs_done A B port q i j H). Qed.

Lemma can_connect_demo : can_connect client server 80 0 0 49152.
Proof.
  split; try reflexivity; try discriminate; [apply client_ok|apply server_ok|]. right. exists 0%nat. reflexivity.
Qed.

Lemma tcp_handshake_witness : three_way client server 80 0 0.
Proof. apply (tcp_handshake client server 80 0 0 49152), can_connect_demo. Defined.

(** The receive buffer. Whatever segment arrives in whatever state, the
    bytes the guest has not read yet stay as they are; only an Established
    socket takes data, and what it adds is the longest start of the payload
    that fits the 1460-byte buffer. *)
Theorem segment_only_appends pkt src t r t' :
  tcp_ok t -> Tcp.handle_segment pkt src t = Ok (r, t') ->
  pending t' = pending t ++
    (if bool_decide (Tcp.state t = Tcp.Established) && negb (TcpSeg.rst pkt) && negb (TcpSeg.fin pkt)
     then take (TcpSeg.MAX_TCP_PAYLOAD - Tcp.recv_len t) (TcpSeg.payload pkt) else []).
Proof. apply segment_appends. Qed.

Definition hello : TcpSeg.TcpPacket := TcpSeg.mkSeg 49152 80 1001 2 (Z.lor TcpSeg.TCP_PSH TcpSeg.TCP_ACK) [104; 105].

Lemma server3_ok : tcp_ok (server3 ip1 80 49152).
Proof. destruct addr_ok as [_ []]. split; cbn; try done; try (split; [discriminate|reflexivity]); [apply zeros_buf|lia]. Qed.
Lemma client2_ok : tcp_ok (client2 ip2 80 49152).
Proof. destruct addr_ok as [_ []]. split; cbn; try done; try (split; [discriminate|reflexivity]); [apply zeros_buf|lia]. Qed.

Lemma segment_only_appends_witness :
  pending (got 1001 2 [104; 105] (server3 ip1 80 49152)) = pending (server3 ip1 80 49152) ++ [104; 105].
Proof.
  apply (segment_only_appends hello ip1 (server3 ip1 80 49152) (Some (Tcp.mkReply TcpSeg.TCP_ACK 2 1003)) _ server3_ok).
  vm_compute. reflexivity.
Defined.

(** A full buffer loses acknowledged data. With 1460 unread bytes, a data
    segment in sequence is answered with an acknowledgement of its whole
    payload although none of it is kept. *)
Theorem full_buffer_acks_lost_data pkt src t :
  tcp_ok t -> Tcp.state t = Tcp.Established -> Tcp.recv_len t = TcpSeg.MAX_TCP_PAYLOAD ->
  TcpSeg.rst pkt = false -> TcpSeg.fin pkt = false -> TcpSeg.payload pkt <> [] ->
  exists t', Tcp.handle_segment pkt src t =
      Ok (Some (Tcp.mkReply TcpSeg.TCP_ACK (Tcp.seq t)
                 (as_u32 (TcpSeg.seq_no pkt + as_u32 (Z.of_nat (length (TcpSeg.payload pkt)))))), t') /\
    pending t' = pending t.
Proof.
  intros Ht Hst Hl Hr Hf Hp. destruct (Tcp.handle_segment pkt src t) as [[r t']| | |] eqn:E; revert E;
    unfold Tcp.handle_segment; cbv zeta; rewrite Hr; cbn [Tcp.state Tcp.set_last]; rewrite Hst; unfold Tcp.on_established; rewrite Hf;
    rewrite bool_decide_eq_false_2 by done; cbn [negb Tcp.recv_len Tcp.recv_buf Tcp.set_last]; rewrite Hl, Nat.ltb_irrefl, Nat.sub_diag,
    Nat.min_0_r, take_0; unfold write_at; rewrite (proj1 (to_buf _ Ht)); change (length (@nil Z)) with 0%nat; rewrite Nat.add_0_r, Nat.leb_refl;
    try discriminate.
  intros [= <- <-]. eexists. split; [reflexivity|]. unfold pending. cbn [Tcp.recv_len Tcp.recv_buf Tcp.set_ack Tcp.set_buf Tcp.set_last].
  by rewrite take_drop, Hl.
Qed.

Definition full_socket : Tcp.TcpSocket :=
  Tcp.mkTcp 80 49152 ip1 Tcp.Established 2 1001 1001 2 zeros TcpSeg.MAX_TCP_PAYLOAD.

Lemma full_buffer_acks_lost_data_witness :
  exists t', Tcp.handle_segment hello ip1 full_socket = Ok (Some (Tcp.mkReply TcpSeg.TCP_ACK 2 1003), t') /\
    pending t' = pending full_socket.
Proof.
  apply (full_buffer_acks_lost_data hello ip1 full_socket); try reflexivity; [|discriminate].
  destruct server3_ok. by split.
Defined.

(** A free local port is always found. [alloc_ephemeral_port] stops
    after at most one round per socket, with a port of the dynamic range that
    no socket of the table uses. *)
Theorem ephemeral_port_found socks :
  length socks = MAX_SOCKETS ->
  exists p, alloc_ephemeral_port socks = Ok p /\ 49152 <= p <= 49160 /\
    forall i s, socks !! i = Some (Some s) -> Tcp.local_port s <> p.
Proof.
  intros Hl. destruct (alloc_ephemeral_port_ok socks Hl) as (p & E & Hp & Hf). exists p. split; [done|]. split; [done|].
  intros i s Hi <-. apply Hf. unfold taken. apply existsb_exists. exists (Some s).
  split; [by apply list_elem_of_In, list_elem_of_lookup_2 with i|]. apply Z.eqb_refl.
Qed.

Lemma ephemeral_port_found_witness :
  exists p, alloc_ephemeral_port (slots (Tcp.listen 49152)) = Ok p /\ 49152 <= p <= 49160 /\
    forall i s, slots (Tcp.listen 49152) !! i = Some (Some s) -> Tcp.local_port s <> p.
Proof. apply (ephemeral_port_found (slots (Tcp.listen 49152))). reflexivity. Defined.

(** ** From guest to guest *)

(** A call of [net.send] and one of [net.recv], by the values on the stack. *)
Record send_call (vs : list Z) (n : nat) (m : slice) (h : nat) (ptr len : Z) : Prop := {
  sc_h : vs !! n = Some (Z.of_nat h);
  sc_ptr : vs !! S n = Some ptr;
  sc_len : vs !! S (S n) = Some len;
  sc_small : slen m < 2147483648;
  sc_mem : in_mem m ptr len
}.

(** C13: what a guest sends is what the other guest gets, as far as there is
    room. When the sockets [i] and [j] of two kernels are the ends of a
    connection, [net.send] takes the first 1460 of the [len] bytes of the
    caller's memory, reports how many these are and transmits them in one
    frame. Once the other kernel's card has that frame and its pump has turned,
    [net.recv] with a buffer of [cap] bytes puts there the bytes still unread
    followed by as many of the sent bytes as the receive buffer of 1460 bytes
    had room for, cut to [cap], touches nothing else of the memory and reports
    their number. So everything sent arrives when both buffers have room for
    it; what they have no room for is lost. *)
Theorem guest_bytes_delivered vsA vsB nA nB mA mB wA wB stA stB i j a b ptr len ptr' cap :
  send_call vsA nA mA i ptr len -> send_call vsB nB mB j ptr' cap -> (forall k, is_u8 (sget mA k)) ->
  NETWORK_STACK wA = Some stA -> net_ok stA -> net_ok stB -> connected (mkNetSt stA []) (mkNetSt stB []) i j a b ->
  mac stB <> Eth.BROADCAST -> ip stA <> IP_BROADCAST -> ip stB <> IP_BROADCAST -> 0 < len ->
  let sent := take TcpSeg.MAX_TCP_PAYLOAD (srange mA ptr (ptr + len)) in
  let gets := take (Z.to_nat cap) (pending b ++ kept sent b) in
  let n := Z.of_nat (length gets) in
  exists f wA',
  host host_net_send vsA (S (S (S nA))) mA wA = (Ok tt, (<[nA := Z.of_nat (length sent)]> vsA, S nA, mA, wA')) /\
  (exists stA', NETWORK_STACK wA' = Some stA' /\ tx (net stA') = tx (net stA) ++ [f]) /\
  forall hdr pad rest, length hdr = NET_HDR_SIZE -> Forall rx_ok rest ->
    NETWORK_STACK wB = Some (set_net (mkNet (rx_entry hdr f pad :: rest) (tx (net stB))) stB) ->
    exists wB1 wB2 mB', with_network poll wB = (Some (Ok (Some (length f))), wB1) /\
      host host_net_recv vsB (S (S (S nB))) mB wB1 = (Ok tt, (<[nB := n]> vsB, S nB, mB', wB2)) /\
      srange mB' ptr' (ptr' + n) = gets /\
      forall k, ~ ptr' <= k < ptr' + n -> sget mB' k = sget mB k.
Proof.
  intros [] [] Hu HwA HA HB Hco HmB HiA HiB Hl sent gets n.
  destruct (guest_data_path vsA vsB nA nB mA mB wA wB stA stB i j a b ptr len ptr' cap) as (f & wA' & E & Htx & _ & Hk); try done.
  exists f, wA'. split; [exact E|]. split; [exact Htx|]. intros hdr pad rest Hh Hr Hw. by apply (Hk hdr pad rest).
Qed.

Definition nodeA : NetworkStack := node mac1 ip1 (knows ip2 mac2) (slots (client2 ip2 80 49152)) nobody.
Definition nodeB : NetworkStack := node mac2 ip2 (knows ip1 mac1) (slots (server3 ip1 80 49152)) nobody.
Lemma nodeA_ok : net_ok nodeA.
Proof. destruct addr_ok as [[] []]. apply node_ok; try done; [by apply knows_ok|apply slots_ok, client2_ok|apply nobody_ok]. Qed.
Lemma nodeB_ok : net_ok nodeB.
Proof. destruct addr_ok as [[] []]. apply node_ok; try done; [by apply knows_ok|apply slots_ok, server3_ok|apply nobody_ok]. Qed.

Lemma connected_demo : connected (mkNetSt nodeA []) (mkNetSt nodeB []) 0 0 (client2 ip2 80 49152) (server3 ip1 80 49152).
Proof. split; try reflexivity; split; reflexivity. Qed.

Definition page : slice := Slice 65536 (fun k => if k =? 100 then 104 else if k =? 101 then 105 else 0).

Lemma page_u8 k : is_u8 (sget page k).
Proof. cbn. repeat case_split; split; try discriminate; reflexivity. Qed.
Lemma page_call ptr len vs : 0 <= ptr -> 0 <= len -> ptr + len <= 65536 -> vs = [0; ptr; len] -> send_call vs 0 page 0 ptr len.
Proof. intros ? ? ? ->. by split. Qed.
Lemma demo_addrs : mac nodeB <> Eth.BROADCAST /\ ip nodeA <> IP_BROADCAST /\ ip nodeB <> IP_BROADCAST.
Proof. split_and!; discriminate. Qed.

Lemma guest_bytes_delivered_witness : exists f wA',
  host host_net_send [0; 100; 2] 3%nat page (set_network (Some nodeA) world_static) = (Ok tt, ([2; 100; 2], 1%nat, page, wA')) /\
  (exists stA', NETWORK_STACK wA' = Some stA' /\ tx (net stA') = [f]) /\
  forall hdr pad rest wB, length hdr = NET_HDR_SIZE -> Forall rx_ok rest ->
    NETWORK_STACK wB = Some (set_net (mkNet (rx_entry hdr f pad :: rest) []) nodeB) ->
    exists wB1 wB2 mB', with_network poll wB = (Some (Ok (Some (length f))), wB1) /\
      host host_net_recv [0; 7; 1500] 3%nat page wB1 = (Ok tt, ([2; 7; 1500], 1%nat, mB', wB2)) /\
      srange mB' 7 9 = [104; 105] /\ forall k, ~ 7 <= k < 9 -> sget mB' k = sget page k.
Proof.
  pose proof (page_call 100 2 _ ltac:(lia) ltac:(lia) ltac:(lia) eq_refl) as C1.
  pose proof (page_call 7 1500 _ ltac:(lia) ltac:(lia) ltac:(lia) eq_refl) as C2. destruct demo_addrs as (D1 & D2 & D3).
  pose proof (fun wB => guest_bytes_delivered _ _ _ _ _ _ (set_network (Some nodeA) world_static) wB nodeA nodeB _ _ _ _ _ _ _ _ C1 C2
    page_u8 eq_refl nodeA_ok nodeB_ok connected_demo D1 D2 D3 ltac:(lia)) as G.
  destruct (G world_static) as (f & wA' & E & Htx & _). exists f, wA'. split; [exact E|]. split; [exact Htx|].
  intros hdr pad rest wB Hh Hr HwB. destruct (G wB) as (f' & wA'' & E' & Htx' & Hk).
  rewrite E in E'. injection E' as <-. destruct Htx as (s1 & Hs1 & Ht1), Htx' as (s2 & Hs2 & Ht2). rewrite Hs1 in Hs2. injection Hs2 as <-.
  rewrite Ht1 in Ht2. injection Ht2 as <-. exact (Hk hdr pad rest Hh Hr HwB).
Defined.

(** A datagram reaches the bound socket. [udp_send] on a socket whose
    remote end is an address and port another stack has bound transmits one
    frame; fed that frame, the other stack answers nothing, its [udp_recv]
    returns exactly the bytes sent, and its socket now points back at the
    sender. *)
Theorem udp_datagram_delivered A B i j a b data cap :
  udp_path A B i j a b -> Forall is_u8 data -> data <> [] ->
  (length data <= Udp.MAX_UDP_PAYLOAD)%nat -> (length data <= cap)%nat ->
  exists f B1 B2,
  udp_send (Z.of_nat i) data A = (Ok (length data), transmit f A) /\
  handle_eth f B = (Ok tt, B1) /\ tx (net (stack B1)) = tx (net (stack B)) /\
  udp_recv (Z.of_nat j) cap B1 = (Ok data, B2) /\
  exists b2, udp_sockets (stack B2) !! j = Some (Some b2) /\ UdpSocket.recv_len b2 = 0%nat /\
    UdpSocket.local_port b2 = UdpSocket.local_port b /\
    UdpSocket.remote_ip b2 = ip (stack A) /\ UdpSocket.remote_port b2 = UdpSocket.local_port a.
Proof. intros H Hd Hne Hl Hc. by apply udp_delivered. Qed.

Definition udp_client : UdpSocket.t := UdpSocket.mkSock 5000 53 ip2 (replicate Udp.MAX_UDP_PAYLOAD 0) 0.
Definition udpA : NetSt := mkNetSt (node mac1 ip1 (knows ip2 mac2) nobody (slots udp_client)) [].
Definition udpB : NetSt := mkNetSt (node mac2 ip2 ArpCache.new_cache nobody (slots (UdpSocket.new_socket 53))) [].

Lemma udp_socks_ok : udpsock_ok udp_client /\ udpsock_ok (UdpSocket.new_socket 53).
Proof.
  destruct addr_ok as [_ []]. split; (split; cbn [udp_client UdpSocket.new_socket UdpSocket.local_port UdpSocket.remote_port
    UdpSocket.remote_ip UdpSocket.recv_buf UdpSocket.recv_len]; try done; try (split; [discriminate|reflexivity]); try apply zero_ip_ok; try lia;
    split; [apply length_replicate|apply zeros_u8]).
Qed.

Lemma udp_path_demo : udp_path udpA udpB 0 0 udp_client (UdpSocket.new_socket 53).
Proof.
  destruct addr_ok as [[] []], udp_socks_ok. split; try reflexivity; try discriminate; try (split; (reflexivity || discriminate)).
  - apply node_ok; try done; [by apply knows_ok|apply nobody_ok|by apply slots_ok].
  - apply node_ok; try done; [apply cache_ok_new|apply nobody_ok|by apply slots_ok].
Qed.

Lemma udp_datagram_delivered_witness : exists f B1 B2,
  udp_send 0 [1; 2; 3] udpA = (Ok 3%nat, transmit f udpA) /\ handle_eth f udpB = (Ok tt, B1) /\ tx (net (stack B1)) = [] /\
  udp_recv 0 16 B1 = (Ok [1; 2; 3], B2) /\
  exists b2, udp_sockets (stack B2) !! 0%nat = Some (Some b2) /\ UdpSocket.recv_len b2 = 0%nat /\
    UdpSocket.local_port b2 = 53 /\ UdpSocket.remote_ip b2 = ip1 /\ UdpSocket.remote_port b2 = 5000.
Proof.
  apply (udp_datagram_delivered udpA udpB 0 0 udp_client (UdpSocket.new_socket 53) [1; 2; 3] 16 udp_path_demo); try done;
    [|unfold Udp.MAX_UDP_PAYLOAD; cbn; lia|cbn; lia].
  repeat (apply Forall_cons_2; [split; [discriminate|reflexivity]|]). apply Forall_nil_2.
Defined.

(** ** DHCP *)

(** The option walk reads every option list. On any well-formed option
    list closed by its end marker, whatever precedes it and whatever follows,
    [walk_options] collects what reading the options one after the other
    collects, and stays within its fuel. *)
Theorem dhcp_options_read l pre tail o fuel :
  Forall option_ok l -> (length l < fuel)%nat ->
  Dhcp.walk_options fuel (pre ++ enc_options l ++ tail) (length pre) o = read_options l o.
Proof. apply walk_options_run. Qed.

Lemma dhcp_options_read_witness :
  Dhcp.walk_options 4 ([9; 9] ++ enc_options [(53, [2]); (54, [10; 0; 2; 2])] ++ [7]) 2 Dhcp.no_options =
  Ok (Dhcp.mkOpts 2 [10; 0; 2; 2] Ip.ZERO_IP Ip.ZERO_IP 86400).
Proof.
  refine (eq_trans (dhcp_options_read [(53, [2]); (54, [10; 0; 2; 2])] [9; 9] [7] Dhcp.no_options 4 _ _) _); [|cbn; lia|reflexivity].
  repeat apply Forall_cons_2; try apply Forall_nil_2; (split; [split; [discriminate|reflexivity]|split_and!; try discriminate; cbn; lia]).
Defined.

(** The address lease. A client that sent its DISCOVER answers a matching
    OFFER by broadcasting a REQUEST for the offered address to the server that
    offered it, and on the matching ACK takes the assigned address as its own
    and is bound; a reply of another transaction changes nothing. *)
Theorem dhcp_lease s g1 yi g2 o1 g1' yi' g2' o2 opt1 opt2 :
  let c := dhcp (stack s) in
  let offer := bootp_reply (Dhcp.xid c) g1 yi g2 o1 in
  let ack := bootp_reply (Dhcp.xid c) g1' yi' g2' o2 in
  net_ok (stack s) -> Dhcp.state c = Dhcp.Selecting ->
  reply_shape (Dhcp.xid c) g1 yi g2 o1 -> reply_shape (Dhcp.xid c) g1' yi' g2' o2 ->
  (length offer <= 1024)%nat -> (length ack <= 1024)%nat ->
  read_options o1 Dhcp.no_options = Ok opt1 -> read_options o2 Dhcp.no_options = Ok opt2 ->
  Dhcp.o_msg opt1 = Dhcp.MSG_OFFER -> Dhcp.o_msg opt2 = Dhcp.MSG_ACK -> ip_ok (Dhcp.o_server opt1) ->
  (exists f s1 s2,
   handle_dhcp offer s = (Ok tt, s1) /\ Dhcp.state (dhcp (stack s1)) = Dhcp.Requesting /\
   tx (net (stack s1)) = tx (net (stack s)) ++ [f] /\
   dhcp_frame f (mac (stack s)) (bootp_request (Dhcp.xid c) (mac (stack s)) Dhcp.MSG_REQUEST yi (Dhcp.o_server opt1)) /\
   handle_dhcp ack s1 = (Ok tt, s2) /\ is_dhcp_bound (stack s2) = true /\ ip (stack s2) = yi' /\
   tx (net (stack s2)) = tx (net (stack s1)) /\ Dhcp.gateway (dhcp (stack s2)) = Dhcp.o_gateway opt1) /\
  forall x, is_u32 x -> x <> Dhcp.xid c -> handle_dhcp (bootp_reply x g1 yi g2 o1) s = (Ok tt, s).
Proof.
  intros c offer ack Hs Hsel H1 H2 L1 L2 R1 R2 M1 M2 Hsrv. split; [by eapply lease_done|].
  intros x Hx Hne. apply foreign_message_ignored; [destruct H1; by split| |done].
  unfold offer, bootp_reply in L1. unfold bootp_reply. rewrite !length_app, !to_be_length in *. lia.
Qed.

Definition offer_opts : list (Z * list Z) := [(53, [2]); (54, [10; 0; 2; 2]); (3, [10; 0; 2; 1])].
Definition ack_opts : list (Z * list Z) := [(53, [5]); (54, [10; 0; 2; 2])].

Lemma reply_demo x opts : is_u32 x -> Forall option_ok opts -> reply_shape x (replicate 8 0) ip1 (replicate 216 0) opts.
Proof. intros. destruct addr_ok as [_ []]. by split. Qed.

Lemma opts_demo : Forall option_ok offer_opts /\ Forall option_ok ack_opts.
Proof.
  split; repeat apply Forall_cons_2; try apply Forall_nil_2; (split; [split; [discriminate|reflexivity]|split_and!; try discriminate; cbn; lia]).
Qed.

Lemma dhcp_lease_witness : exists s1 s2,
  handle_dhcp (bootp_reply 7 (replicate 8 0) ip1 (replicate 216 0) offer_opts) client = (Ok tt, s1) /\
  handle_dhcp (bootp_reply 7 (replicate 8 0) ip1 (replicate 216 0) ack_opts) s1 = (Ok tt, s2) /\
  is_dhcp_bound (stack s2) = true /\ ip (stack s2) = ip1 /\ Dhcp.gateway (dhcp (stack s2)) = [10; 0; 2; 1] /\
  handle_dhcp (bootp_reply 8 (replicate 8 0) ip1 (replicate 216 0) offer_opts) client = (Ok tt, client).
Proof.
  destruct opts_demo as [O1 O2]. assert (is_u32 7) as H7 by (split; [discriminate|reflexivity]).
  destruct (dhcp_lease client (replicate 8 0) ip1 (replicate 216 0) offer_opts (replicate 8 0) ip1 (replicate 216 0) ack_opts
    (Dhcp.mkOpts 2 [10; 0; 2; 2] Ip.ZERO_IP [10; 0; 2; 1] 86400) (Dhcp.mkOpts 5 [10; 0; 2; 2] Ip.ZERO_IP Ip.ZERO_IP 86400)
    client_ok eq_refl (reply_demo 7 _ H7 O1) (reply_demo 7 _ H7 O2)) as ((f & s1 & s2 & E1 & _ & _ & _ & E2 & E3 & E4 & _ & E5) & Hf);
    try reflexivity; try (apply Nat.leb_le; vm_compute; reflexivity).
  - split; [reflexivity|]. repeat (apply Forall_cons_2; [split; [discriminate|reflexivity]|]). apply Forall_nil_2.
  - exists s1, s2. split; [exact E1|]. split; [exact E2|]. split; [exact E3|]. split; [exact E4|]. split; [exact E5|].
    apply Hf; [split; [discriminate|reflexivity]|discriminate].
Defined.

(** ** Wire formats *)

(** Every builder is undone by its parser. An Ethernet frame, an ARP
    packet, a UDP datagram and an IPv4 packet read back with all their fields,
    whatever their payload; a TCP segment as [make_tcp_packet] builds it, with
    its ports, numbers, flags and payload. *)
Theorem packets_read_back :
  (forall d s t p, mac_ok d -> mac_ok s -> is_u16 t -> Eth.parse_eth (d ++ s ++ to_be_bytes 2 t ++ p) = Ok (Eth.mkEth d s t p)) /\
  (forall p, arp_ok p -> Arp.parse_arp (Arp.arp_to_bytes p) = Ok p) /\
  (forall p, udp_ok p -> is_u16 (Udp.length_ p) -> is_u16 (Udp.checksum p) -> Udp.parse_udp (Udp.udp_to_bytes p) = Ok p) /\
  (forall p, ip_fields_ok p -> exists b, Ip.ip_to_bytes p = Ok b /\ Ip.parse_ip b = Ok p) /\
  (forall sp dp sq ak fl win pl sip dip, is_u16 sp -> is_u16 dp -> is_u32 sq -> is_u32 ak -> is_u8 fl -> Forall is_u8 pl ->
     ip_ok sip -> ip_ok dip -> Z.of_nat (length pl) <= 65000 ->
     exists b, TcpSeg.make_tcp_packet sp dp sq ak fl win pl sip dip = Ok b /\ TcpSeg.parse_tcp b = Ok (TcpSeg.mkSeg sp dp sq ak fl pl)).
Proof.
  split; [apply parse_eth_frame|]. split; [apply parse_arp_bytes|]. split; [apply parse_udp_bytes|]. split.
  - intros p Hp. destruct (ip_to_bytes_ok p Hp) as (c & _ & E & _). eexists. split; [exact E|]. by apply parse_ip_bytes.
  - intros. destruct (make_tcp_packet_ok sp dp sq ak fl win pl sip dip) as (c & _ & E & _); try done.
    eexists. split; [exact E|]. by apply parse_tcp_segment.
Qed.

Lemma packets_read_back_witness : Eth.parse_eth (mac1 ++ mac2 ++ to_be_bytes 2 2048 ++ [1; 2]) = Ok (Eth.mkEth mac1 mac2 2048 [1; 2]).
Proof.
  destruct addr_ok as [[] _]. apply packets_read_back; try done.
Defined.

(** Checksums verify. The header [ip_to_bytes] writes checks out under
    the receiver's test, the ones' complement sum over it being zero, and so
    does a TCP segment with its pseudo-header. *)
Theorem checksums_verify :
  (forall p, ip_fields_ok p -> exists h, Ip.ip_to_bytes p = Ok (h ++ Ip.payload p) /\ length h = 20%nat /\ Ip.ip_chksum h = Ok 0) /\
  (forall sp dp sq ak fl win pl sip dip, is_u8 fl -> Forall is_u8 pl -> ip_ok sip -> ip_ok dip -> Z.of_nat (length pl) <= 65000 ->
     exists b, TcpSeg.make_tcp_packet sp dp sq ak fl win pl sip dip = Ok b /\
       (let? s := TcpSeg.sum_pseudo sip dip (Z.of_nat (length b)) in let? s := Ip.sum_words s b in
        let? s := Ip.fold_carry Ip.FOLDS s in Ok (Ip.complement s)) = Ok 0).
Proof.
  split.
  - intros p Hp. destruct (ip_to_bytes_ok p Hp) as (c & _ & E & Ec). eexists. split; [exact E|]. split; [|exact Ec].
    apply ip_header_length; [done|by rewrite to_be_length].
  - intros. destruct (make_tcp_packet_ok sp dp sq ak fl win pl sip dip) as (c & _ & E & Ec); try done.
    eexists. split; [exact E|]. destruct (pseudo_ok sp dp sq ak fl win pl sip dip) as [Ep _]; try done.
    rewrite !seg_length in *. rewrite Ep. exact Ec.
Qed.

Lemma checksums_verify_witness : exists b, TcpSeg.make_tcp_packet 80 5000 1 2 16 65535 [1; 2; 3] ip1 ip2 = Ok b /\
  (let? s := TcpSeg.sum_pseudo ip1 ip2 (Z.of_nat (length b)) in let? s := Ip.sum_words s b in
   let? s := Ip.fold_carry Ip.FOLDS s in Ok (Ip.complement s)) = Ok 0.
Proof.
  destruct addr_ok as [_ []]. apply checksums_verify; try done; try (split; [discriminate|reflexivity]).
  repeat (apply Forall_cons_2; [split; [discriminate|reflexivity]|]). apply Forall_nil_2.
Defined.

(** ** ARP cache *)

(** The ARP cache is a map of bounded size. While it holds the address or
    has room, [insert] changes what [lookup] answers for that address and for
    no other; a full cache stays as it is. *)
Theorem arp_cache_is_map a m c :
  cache_ok c ->
  (has_room a c -> forall a', ArpCache.lookup_arp a' (ArpCache.insert_arp a m c) =
     if bytes_eqb a a' then Some m else ArpCache.lookup_arp a' c) /\
  (~ has_room a c -> ArpCache.insert_arp a m c = c).
Proof. intros Hc. split; [intros Hr a'; by apply arp_insert_lookup|intros Hr; by apply arp_insert_full]. Qed.

Lemma arp_cache_is_map_witness : ArpCache.lookup_arp ip1 (ArpCache.insert_arp ip2 mac2 (knows ip1 mac1)) = Some mac1.
Proof.
  destruct addr_ok as [[] []].
  refine (eq_trans (proj1 (arp_cache_is_map ip2 mac2 (knows ip1 mac1) (knows_ok _ _ _ _)) _ ip1) _); try done.
  right. exists 1%nat. reflexivity.
Defined.

(** ** Host functions *)

Definition total_net_hosts : list (H unit) :=
  [ host_net_listen; host_net_connect; host_net_set_ip; host_net_status; host_net_get_ip; host_net_udp_bind;
    host_net_udp_connect; host_net_udp_close ].

(** Eight of the fourteen [net] functions respect the interface the
    interpreter is verified against: for any values the module pushes they do
    not panic and keep stack, memory and kernel invariant. *)
Theorem net_builtins_respect_interface h : h ∈ total_net_hosts -> host_ok any_mem world_ok (host h).
Proof.
  intros Hh. assert (Forall (fun h => host_ok any_mem world_ok (host h)) total_net_hosts) as HF.
  { repeat (apply Forall_cons_2; [apply (hok_host _ (fun _ => True)); intros n Hn; eexists; first
      [ apply host_net_listen_hok | apply host_net_connect_hok | apply host_net_set_ip_hok | apply host_net_status_hok
      | apply host_net_get_ip_hok | apply host_net_udp_bind_hok | apply host_net_udp_connect_hok | apply host_net_udp_close_hok ]; lia|]).
    apply Forall_nil_2. }
  rewrite Forall_forall in HF. apply HF. by apply list_elem_of_In.
Qed.

Lemma net_builtins_respect_interface_witness : host_ok any_mem world_ok (host host_net_connect).
Proof. apply net_builtins_respect_interface. unfold total_net_hosts. apply list_elem_of_further, list_elem_of_here. Defined.

(** An unchecked handle panics the kernel. [net.close] panics exactly when
    the handle the module pushed is not below 8, and [net.send] exactly when
    that is so or the buffer does not lie in the module's memory. *)
Theorem net_handle_unchecked vs n m w st h ptr len :
  vs !! n = Some h -> vs !! S n = Some ptr -> vs !! S (S n) = Some len ->
  NETWORK_STACK w = Some st -> net_ok st -> slen m < 2147483648 -> (forall k, is_u8 (sget m k)) ->
  (host host_net_close vs (S n) m w).1 = (if as_usize h <? Z.of_nat MAX_SOCKETS then Ok tt else Panic) /\
  (host host_net_send vs (S (S (S n))) m w).1 =
    (if (as_usize ptr + as_usize len <=? slen m) && (as_usize h <? Z.of_nat MAX_SOCKETS) then Ok tt else Panic).
Proof. intros H1 H2 H3 Hw Hst Hm Hu. split; [by eapply close_panics|by eapply send_panics]. Qed.

Lemma net_handle_unchecked_witness :
  (host host_net_close [8; 0; 0] 1%nat page (set_network (Some nodeA) world_static)).1 = Panic /\
  (host host_net_send [8; 0; 0] 3%nat page (set_network (Some nodeA) world_static)).1 = Panic.
Proof. apply (net_handle_unchecked [8; 0; 0] 0 page _ nodeA 8 0 0); try reflexivity; [apply nodeA_ok|apply page_u8]. Defined.
