(* ===== verification/CorrectFs.v ===== *)
(** * Correctness of the block layer and of WasmFS *)

From S2P Require Import Prelude Packets Block FileTable WasmFs WasmFsSpec Fat.

(** ** The block cache *)

(** C21: the one-block write-back cache is a plain disk. Over any device that
    keeps the block contract, every sequence of reads, writes, seeks and
    flushes that stays on the disk returns, byte for byte, what the same
    operations return on one flat array of bytes, and after a final flush the
    blocks of the device hold exactly that array: no dirty block is lost or
    written to the wrong place, whatever order the operations come in. *)
Theorem block_cache_is_flat_disk {D} `{BlockDeviceOk D} (d : D) os :
  device_ok d -> 0 <= block_count d <= 4294967296 ->
  let f0 := mkFlat (disk_byte d) 0 in
  all_fit (block_count d * BSZ) os f0 ->
  exists io io', io_run os (new_io d) = (Ok (flat_run os f0).1, io) /\ io_flush io = (Ok tt, io') /\
    block_count (dev io') = block_count d /\
    forall l, 0 <= l < block_count d -> sector (dev io') l = zrange (f_byte (flat_run os f0).2) (l * BSZ) BLOCK_SIZE.
Proof.
  intros Hd Hc f0 Hf. pose proof (new_io_shows d Hd Hc) as Hs.
  destruct (io_run_refines _ os f0 (new_io d) Hs Hf) as (io & E & Hs1).
  destruct (io_step_refines _ OpFlush _ io Hs1 I) as (io' & E' & Hs2 & Hfl). exists io, io'. split; [done|].
  cbn [io_step flat_step fst snd] in E'. unfold bind in E'. destruct (io_flush io) as [[[]| | |] io2] eqn:Efl; try done.
  injection E' as <-. split; [done|]. assert (block_count (dev io2) = block_count d) as Hcnt.
  { pose proof (sh_size _ _ _ Hs2) as Hsz. unfold size in Hsz. change BSZ with 512 in *. lia. }
  split; [done|]. intros l Hl. apply Hfl; [done|lia].
Qed.

(** A ramdisk of zeroes, written across a block boundary and read back. *)
Definition zero_disk : Ramdisk := mkRamdisk (zero_slice (RAMDISK_BLOCKS * BSZ)).

Lemma block_cache_is_flat_disk_witness :
  exists io io', io_run [OpSeek 510; OpWrite [1; 2; 3; 4]; OpSeek 511; OpRead 2] (new_io zero_disk) =
      (Ok [OutPos 510; OutCount 4; OutPos 511; OutBytes [2; 3]], io) /\ io_flush io = (Ok tt, io') /\
    take 3 (sector (dev io') 1) = [3; 4; 0].
Proof.
  destruct (block_cache_is_flat_disk zero_disk [OpSeek 510; OpWrite [1; 2; 3; 4]; OpSeek 511; OpRead 2]) as (io & io' & H1 & H2 & _ & H3).
  - split; [reflexivity|]. intros k. unfold is_u8. cbn. lia.
  - cbn. unfold RAMDISK_BLOCKS. lia.
  - cbn. unfold RAMDISK_BLOCKS, BSZ, BLOCK_SIZE. split_and!; try lia; try done. repeat constructor; unfold is_u8; lia.
  - exists io, io'. split; [rewrite H1; reflexivity|]. split; [done|]. rewrite H3 by (cbn; unfold RAMDISK_BLOCKS; lia). reflexivity.
Defined.

(** ** WasmFS *)

Section wasmfs_claims.
Context {D : Type} `{BlockDeviceOk D}.
Implicit Types w : WasmFs D.

(** C39: a file written to WasmFS reads back. Take a device in good order, a
    name that fits the directory's field (at most 32 bytes of UTF-8, no zero
    byte), a slot for it in the directory, room behind the last file for the
    bytes (for one block, if there are none) and a descriptor not in use. Then a
    write succeeds, opening the name gives that descriptor, which reads the bytes
    written, as many as asked for, and every other file still has the bytes it
    had. *)
Theorem wasmfs_write_then_read w nm bs cap len fd :
  wfs_ok (wdev w) -> length (wopen w) = MAX_OPEN_FILES -> free_fd w = Some fd -> name_fits nm ->
  Z.of_nat (length bs) < 4294967296 -> Forall is_u8 bs ->
  ~ dir_full (wdev w) nm -> first_free (wdev w) + blocks_of (Z.of_nat (length bs)) <= block_count (wdev w) ->
  exists w1 w2 w3, fs_write nm bs w = (Ok tt, w1) /\ fs_open nm w1 = (Ok (Some fd), w2) /\
    fs_read fd cap len w2 = (Ok (take (Nat.min len cap) bs), w3) /\
    wfs_ok (wdev w1) /\ forall nm', nm' <> nm -> content (wdev w1) nm' = content (wdev w) nm'.
Proof.
  intros Hw Hop Hfd Hn Hlen Hu Hnf Hroom. unfold blocks_of in Hroom. fold (span (length bs)) in Hroom.
  destruct (fs_write_run nm bs w Hw Hn ltac:(right; lia) Hlen Hu) as (r & d1 & E & Hw1 & Hr).
  destruct r as [[]|[]| |]; [destruct Hr as [_ Hr]|destruct Hr as [[?|?] _]; [done|lia]|done..].
  destruct (content_read (mkWfs d1 (wopen w)) nm bs cap len fd Hw1 Hop Hfd) as (w2 & w3 & E2 & E3).
  { cbn [wdev]. by rewrite Hr, (proj2 (bytes_eqb_true _ _)). }
  eexists _, w2, w3. split; [done|]. split; [done|]. split; [done|]. split; [done|]. intros nm' Hd. cbn [wdev]. rewrite Hr.
  destruct (bytes_eqb nm nm') eqn:Eb; [|done]. apply bytes_eqb_true in Eb. congruence.
Qed.

(** C40: a failed write loses nothing. Under a name that fits the directory's
    field, a write of some bytes for which the directory has no slot or the
    device no room behind the last file reports an error, and does not panic;
    then every file, also the one to be replaced, still has its old bytes,
    although blocks may have been written. *)
Theorem wasmfs_failed_write_keeps_files w nm bs :
  wfs_ok (wdev w) -> name_fits nm -> bs <> [] -> Z.of_nat (length bs) < 4294967296 -> Forall is_u8 bs ->
  dir_full (wdev w) nm \/ block_count (wdev w) < first_free (wdev w) + span (length bs) ->
  exists w1, fs_write nm bs w = (Err tt, w1) /\ wfs_ok (wdev w1) /\
    forall nm', content (wdev w1) nm' = content (wdev w) nm'.
Proof.
  intros Hw Hn Hne Hlen Hu Hfull. destruct (fs_write_refused nm bs w Hw Hn Hne Hlen Hu Hfull) as (d1 & E & H1 & H2).
  eexists. split; [exact E|]. done.
Qed.

(** Unlinking removes one file. It succeeds exactly when the file exists,
    the name is gone afterwards, and every other file keeps its bytes. *)
Theorem wasmfs_unlink_removes w nm :
  wfs_ok (wdev w) ->
  exists r w1, fs_unlink nm w = (r, w1) /\ wfs_ok (wdev w1) /\
    (r = Ok tt <-> content (wdev w) nm <> None) /\ r <> Panic /\
    forall nm', content (wdev w1) nm' = if bytes_eqb nm nm' then None else content (wdev w) nm'.
Proof.
  intros Hw. destruct (fs_unlink_run nm w Hw) as (r & d1 & E & Hw1 & -> & Hc). eexists _, _. split; [exact E|]. split; [done|].
  unfold content at 1. destruct (lookup_entry (wdev w) nm) as [p|]; case_bool_decide; (split; [|split; done]); naive_solver.
Qed.

(** The boot mount mirrors the device. Mounting a device in good order
    never panics, keeps the file table well formed, and every file it
    registers has exactly the bytes the device stores under that name. *)
Theorem boot_mount_mirrors_device (d : D) st :
  wfs_ok d -> fs_wf st -> mirrors content d st ->
  exists st' n, mount_from_blk d st = Ok (st', n) /\ fs_wf st' /\ mirrors content d st'.
Proof. apply mount_from_blk_run. Qed.
End wasmfs_claims.

(** ** The claims on the empty 128 KiB ramdisk *)

Lemma zero_disk_entry i : (i < 8)%nat -> DirEntry.is_valid (entry_of (dir_of zero_disk) i) = false.
Proof. intros Hi. do 8 (destruct i as [|i]; [vm_compute; reflexivity|]). lia. Qed.

Lemma zero_disk_ok : wfs_ok zero_disk.
Proof.
  split.
  - split; [reflexivity|]. intros k. unfold is_u8. cbn. lia.
  - cbn. unfold RAMDISK_BLOCKS. lia.
  - intros i Hi. by rewrite zero_disk_entry.
  - intros i j Hi Hj. by rewrite zero_disk_entry.
Qed.

Lemma name_a_fits : name_fits (str "a").
Proof. split; [cbn; lia|]. split; [reflexivity|]. split; [repeat constructor; unfold is_u8; lia|]. vm_compute. intros [?|H]%elem_of_cons; [done|by apply elem_of_nil in H]. Qed.

Lemma wasmfs_write_then_read_witness :
  exists w1 w2 w3, fs_write (str "a") (replicate 600 7) (new_wfs zero_disk) = (Ok tt, w1) /\ fs_open (str "a") w1 = (Ok (Some 0%nat), w2) /\
    fs_read 0 4 8 w2 = (Ok [7; 7; 7; 7], w3).
Proof.
  destruct (wasmfs_write_then_read (new_wfs zero_disk) (str "a") (replicate 600 7) 4 8 0) as (w1 & w2 & w3 & H1 & H2 & H3 & _).
  - exact zero_disk_ok.
  - done.
  - done.
  - exact name_a_fits.
  - rewrite length_replicate. lia.
  - by apply Forall_replicate.
  - intros [_ Hf]. specialize (Hf 0%nat ltac:(lia)). vm_compute in Hf. done.
  - rewrite length_replicate. vm_compute. done.
  - by exists w1, w2, w3.
Defined.

Lemma wasmfs_failed_write_keeps_files_witness :
  exists w1, fs_write (str "a") (replicate (255 * 512 + 1) 7) (new_wfs zero_disk) = (Err tt, w1) /\ content (wdev w1) (str "b") = content zero_disk (str "b").
Proof.
  destruct (wasmfs_failed_write_keeps_files (new_wfs zero_disk) (str "a") (replicate (255 * 512 + 1) 7)) as (w1 & H1 & _ & H2).
  - exact zero_disk_ok.
  - exact name_a_fits.
  - intros E. apply (f_equal (@length Z)) in E. rewrite length_replicate, Nat.add_1_r in E. discriminate.
  - rewrite length_replicate, Nat2Z.inj_add, Nat2Z.inj_mul. lia.
  - by apply Forall_replicate.
  - right. rewrite length_replicate. vm_compute. done.
  - exists w1. split; [exact H1|exact (H2 (str "b"))].
Defined.

Lemma wasmfs_unlink_removes_witness :
  exists r w1, fs_unlink (str "a") (new_wfs zero_disk) = (r, w1) /\ content (wdev w1) (str "a") = None.
Proof.
  destruct (wasmfs_unlink_removes (new_wfs zero_disk) (str "a") zero_disk_ok) as (r & w1 & H1 & _ & _ & _ & H2).
  exists r, w1. split; [done|]. by rewrite H2.
Defined.

Lemma boot_mount_mirrors_device_witness :
  exists st' n, mount_from_blk zero_disk fs_static = Ok (st', n) /\ fs_wf st'.
Proof.
  destruct (boot_mount_mirrors_device zero_disk fs_static) as (st' & n & H1 & H2 & _).
  - exact zero_disk_ok.
  - exact fs_wf_static.
  - intros i f Hf. cbn [FILE_TABLE fs_static] in Hf. apply lookup_replicate in Hf as [? _]. done.
  - by exists st', n.
Defined.

(** ** The FAT volume *)

Section fat_claims.
Context {V : Type} `{FatFsOk V}.

(** C25: a file written to the FAT volume reads back. Over any volume that
    behaves as its crate documents, a write neither panics nor hangs, however
    short the crate's writes are; when it reports success, a read returns
    exactly the bytes written; and whether it succeeds or not, no other file
    changes. *)
Theorem fat_write_then_read v nm bs :
  vol_ok v ->
  exists b v1, to_bool (do_write nm bs) v = (Ok b, v1) /\ vol_ok v1 /\
    (forall nm', same_name nm nm' = false -> root_files v1 nm' = root_files v nm') /\
    (b = true -> exists v2, to_option (do_read nm) v1 = (Ok (Some bs), v2)).
Proof.
  intros Hv. unfold to_bool, to_option, bind, ret. destruct (do_write_run nm bs v Hv) as (r & v1 & -> & Hv1 & Ho & Hr & Hok).
  destruct r as [[]|e| |]; try done; (eexists _, _; split; [reflexivity|]; split; [done|]; split; [done|]; intros Hb).
  - destruct (do_read_some nm bs v1 Hv1 (Hok eq_refl)) as (v2 & -> & _). by exists v2.
  - done.
Qed.

(** A complete save stores the whole table. When [save_to_fat] counts as
    many files as the table holds, the volume holds every file of the table
    with its bytes; and the volume's files that are not in the table are as
    they were. *)
Theorem save_stores_the_table st v :
  vol_ok v ->
  (forall i j f g, take (FILE_COUNT st) (FILE_TABLE st) !! i = Some (Some f) ->
     take (FILE_COUNT st) (FILE_TABLE st) !! j = Some (Some g) -> i <> j ->
     same_name (File_name_str f) (File_name_str g) = false) ->
  let files := take (FILE_COUNT st) (FILE_TABLE st) in
  let '(saved, v') := save_to_fat write_file st v in
  (saved <= length (omap id files))%nat /\
  (saved = length (omap id files) ->
     forall i f, files !! i = Some (Some f) -> root_files v' (File_name_str f) = Some (deref st (data f))) /\
  (forall nm, (forall i f, files !! i = Some (Some f) -> same_name (File_name_str f) nm = false) ->
     root_files v' nm = root_files v nm).
Proof.
  intros Hv Hd files. destruct (save_fold_run st files 0 v Hv Hd) as (_ & Hn & Ho & Hs).
  assert (save_to_fat write_file st v = fold_left (save_step st) files (0%nat, v)) as -> by reflexivity.
  destruct (fold_left _ _ _) as [saved v']. by split_and!.
Qed.
End fat_claims.

(** A volume in memory whose writes take one byte at a time. *)
Module ToyVolume.

Record t := mkVol { get : list Z -> option (list Z) }.

Definition put (v : t) (nm c : list Z) : t := mkVol (fun nm' => if bytes_eqb nm nm' then Some c else get v nm').

#[global] Instance toy_fs : FatFs t := {
  fat_dir := unit;
  fat_file := list Z * nat;
  root_dir := tt;
  dir_iter _ v := ([], v);
  dir_open_dir _ _ v := (Err tt, v);
  dir_open_file _ nm v := match get v nm with Some _ => (Ok (nm, 0%nat), v) | None => (Err tt, v) end;
  dir_create_file _ nm v := (Ok (nm, 0%nat), put v nm (default [] (get v nm)));
  dir_create_dir _ _ v := (Err tt, v);
  dir_remove _ _ v := (Err tt, v);
  file_seek f from v :=
    let q := match from with SeekEnd _ => length (default [] (get v f.1)) | _ => 0%nat end in (Ok (Z.of_nat q, (f.1, q)), v);
  file_read f k v := let n := Nat.min 1 (Nat.min k (length (default [] (get v f.1)) - f.2)) in
    (Ok (take n (drop f.2 (default [] (get v f.1))), (f.1, (f.2 + n)%nat)), v);
  file_write f bs v := let c := default [] (get v f.1) in let n := Nat.min 1 (length bs) in
    (Ok (n, (f.1, (f.2 + n)%nat)), put v f.1 (take f.2 c ++ take n bs ++ drop (f.2 + n) c));
  file_truncate f v := (Ok f, put v f.1 (take f.2 (default [] (get v f.1))));
  file_flush _ v := (Ok tt, v);
  fs_stats v := (Err tt, v)
}.

Lemma put_same v nm c : get (put v nm c) nm = Some c.
Proof. cbn. by rewrite (proj2 (bytes_eqb_true _ _)). Qed.
Lemma put_other v nm c nm' : bytes_eqb nm nm' = false -> get (put v nm c) nm' = get v nm'.
Proof. intros Hn. cbn. by rewrite Hn. Qed.

#[global, refine] Instance toy_ok : FatFsOk t := {
  vol_ok _ := True;
  same_name := bytes_eqb;
  root_files := get;
  file_at f := f
}.
Proof.
  - split.
    + intros a. by apply bytes_eqb_true.
    + intros a b E. apply bytes_eqb_true in E. by apply bytes_eqb_true.
    + intros a b c E1 E2. apply bytes_eqb_true in E1, E2. apply bytes_eqb_true. congruence.
  - intros v a b E. apply bytes_eqb_true in E. congruence.
  - intros v nm c _ Hc. eexists _, _. cbn. by rewrite Hc.
  - intros v nm _ Hc. eexists. cbn. by rewrite Hc.
  - intros v f nm p c from _ [= ->] Hc Hfrom. destruct Hfrom as [-> | ->]; eexists _, _; cbn; rewrite ?Hc; done.
  - intros v f nm p c k _ [= ->] Hc Hp. eexists _, _, _. cbn -[take drop Nat.min]. rewrite Hc. cbn -[take drop Nat.min]. split; [reflexivity|]. split_and!; try done; lia.
  - intros v nm _. eexists _, _. split; [reflexivity|]. split; [done|]. split; [done|]. intros nm'. cbn. done.
  - intros v f nm p c _ [= ->] Hc. eexists _, _. split; [reflexivity|]. split; [done|]. split; [intros; by apply put_other|].
    split; [done|]. rewrite put_same. cbn. by rewrite Hc.
  - intros v f nm p c bs _ [= ->] Hc Hp. eexists _, _. split; [reflexivity|]. split; [done|]. split; [intros; by apply put_other|].
    split; [lia|]. split; [done|]. rewrite put_same. cbn -[take drop Nat.min]. by rewrite Hc.
  - intros v f _. eexists _, _. split; [reflexivity|]. done.
  - intros v _. done.
Defined.
End ToyVolume.

Lemma fat_write_then_read_witness :
  exists v1 v2, to_bool (do_write (str "a") [1; 2; 3]) (ToyVolume.mkVol (fun _ => None)) = (Ok true, v1) /\
    to_option (do_read (str "a")) v1 = (Ok (Some [1; 2; 3]), v2).
Proof.
  destruct (fat_write_then_read (ToyVolume.mkVol (fun _ => None)) (str "a") [1; 2; 3]) as (b & v1 & E & _ & _ & Hr); [exact I|].
  assert (b = true) as -> by (vm_compute in E; by injection E). destruct (Hr eq_refl) as (v2 & E2). by exists v1, v2.
Defined.

Lemma save_stores_the_table_witness :
  let st := register_file (str "a") (DImage [7]) (register_file (str "b") (DImage [8; 9]) fs_static) in
  let '(saved, v') := save_to_fat write_file st (ToyVolume.mkVol (fun _ => None)) in
  saved = 2%nat /\ root_files v' (str "a") = Some [7] /\ root_files v' (str "b") = Some [8; 9].
Proof.
  set (st := register_file _ _ _).
  pose proof (save_stores_the_table st (ToyVolume.mkVol (fun _ => None))) as HS.
  assert (take (FILE_COUNT st) (FILE_TABLE st) = [Some (mkFile (pad_name 64 (str "b")) 1 (DImage [8; 9])); Some (mkFile (pad_name 64 (str "a")) 1 (DImage [7]))]) as Hf
    by reflexivity.
  rewrite Hf in HS. cbv zeta. destruct (save_to_fat write_file st _) as [saved v'] eqn:E.
  assert (saved = 2%nat) as -> by (vm_compute in E; by injection E).
  destruct HS as (_ & Hs & _).
  - exact I.
  - intros [|[|i]] [|[|j]] f g Hi Hj Hij; try done; injection Hi as <-; injection Hj as <-; reflexivity.
  - split; [done|]. split; [apply (Hs eq_refl 1%nat _ eq_refl)|apply (Hs eq_refl 0%nat _ eq_refl)].
Defined.
