(* ===== verification/CorrectAsm.v ===== *)
(** * Correctness of the assembler *)

From S2P Require Import Prelude Leb128 Loader FileTable Opcode FloatOps Jump Sections.
From S2P Require Import World Machine Dispatch Host Engine EngineSpec Text AsmEmit.
From S2P Require Import AsmParse AsmParseSpec Demo.

(** C29: the assembler always ends. On every byte sequence, well formed or not,
    tokenizing, parsing and emitting takes a bounded number of steps: each loop
    of the parser consumes a token and each token at least one byte, so the
    fuel the model gives is never used up. *)
Theorem assembler_terminates s : assemble s <> OutOfFuel.
Proof. apply assemble_not_fuel. Qed.

(** Folded expressions become postfix code. Parsing a folded expression of
    any depth, with any operands, yields the code of its operands from left
    to right followed by its operator, consumes exactly the tokens of the
    expression, and changes neither the name tables nor the module. *)
Theorem folded_expression_is_postfix e fuel p t rest :
  expr_ok e -> (depth e <= fuel)%nat -> stream p (folded e ++ t :: rest) ->
  exists p', parse_folded_instr fuel p = (Ok (flatten e), p') /\ stream p' (t :: rest) /\ same_env p p'.
Proof. apply (fold_postfix fuel). Qed.

(** The expression [(i32.add (local.get 0) (i32.mul (i32.const 2) (i32.const 3)))]
    behind its first parenthesis. *)
Definition sum_expr : expr :=
  EOp (str "i32.add") Asm.I32Add [EGet 0; EOp (str "i32.mul") Asm.I32Mul [EConst 2; EConst 3]].
Definition sum_source : list Z := str "i32.add (local.get 0) (i32.mul (i32.const 2) (i32.const 3))) )".
Definition sum_parser : Parser :=
  match new_parser sum_source with Ok p => p | _ => mkParser [] 0 None None [] [] [] Asm.empty_module end.

Lemma folded_expression_is_postfix_witness :
  exists p', parse_folded_instr 20 sum_parser =
    (Ok [Asm.LocalGet 0; Asm.I32Const 2; Asm.I32Const 3; Asm.Op Asm.I32Mul; Asm.Op Asm.I32Add], p') /\ stream p' [RParen].
Proof.
  destruct (folded_expression_is_postfix sum_expr 20 sum_parser RParen []) as (p' & E & Hs & _).
  - cbn. split_and!; try done; apply list_elem_of_In; vm_compute; auto 60.
  - cbn. lia.
  - eexists. split; [|vm_compute; reflexivity].
    repeat (eapply lexes_cons; [vm_compute; reflexivity|]). eapply lexes_nil. vm_compute. reflexivity.
  - exists p'. split; [rewrite E; reflexivity|exact Hs].
Defined.




(** A factorial written in the text format, assembled by the kernel's own
    assembler and run by its interpreter. *)
Definition quoted (s : list Z) : list Z := [34] ++ s ++ [34].
Definition fac_text : list Z :=
  str "(module ;; n!
  (func $fac (export " ++ quoted (str "main") ++ str ") (param $n i32) (result i32)
    (if (result i32) (i32.eqz (local.get $n))
      (then (i32.const 1))
      (else (i32.mul (local.get $n) (call $fac (i32.sub (local.get $n) (i32.const 1))))))))".

Example fac_text_runs :
  match assemble fac_text with
  | Ok bytes => (run 1000 bytes (str "main") [5] booted).1 = Ok (Some 120)
  | _ => False
  end.
Proof. vm_compute. reflexivity. Qed.

(** An [offset] wrapper around a data segment's offset leaves a parenthesis
    unread: the parser panics, and with it the kernel. *)
Example offset_wrapper_panics :
  assemble (str "(module (memory 1) (data (offset (i32.const 0)) " ++ quoted (str "x") ++ str "))") = Panic.
Proof. vm_compute. reflexivity. Qed.

(** An import that is not a function ends the module early: what follows is
    dropped without a message. *)
Example memory_import_drops_rest :
  assemble (str "(module (import " ++ quoted (str "env") ++ quoted (str "m") ++ str " (memory 1)) (func (nop)))") =
  Ok (Asm.emit_module Asm.empty_module).
Proof. vm_compute. reflexivity. Qed.
