(* ===== verification/CorrectShell.v ===== *)
(** * Correctness of the shell and of the console

    Invariants of the main loop, files through the shell, the line editor, and
    the framebuffer console as a grid of characters. *)

From S2P Require Import Prelude Leb128 Loader FileTable Opcode FloatOps Sections NetStack.
From S2P Require Import World Text Editor Machine Dispatch Host HostSpec Engine.
From S2P Require Import EngineSpec Task Block Fat AsmEmit AsmParse ShellText Shell.
From S2P Require Import ShellSpec ShellFiles Vga VgaSpec Demo CorrectFs.

(** C35: the line editor is a text with a cursor. For any sequence of keys the
    keyboard or the serial line produces, as long as Tab is not among them or
    the names it completes to (commands and files) are ASCII, the editor never
    panics, returns exactly the commands that editing a text before and a text
    after the cursor gives (insertion, deletion, movement, history, completion),
    and ends showing that text. *)
Theorem editor_is_a_text_with_cursor names ks :
  Forall ascii_key ks -> (Tab ∈ ks -> Forall ascii names) ->
  exists e, editor_run (E := unit) names ks new_editor = Ok ((line_run names ks (mkLine [] [] [] 0)).1, e) /\
    shows_line (line_run names ks (mkLine [] [] [] 0)).2 e.
Proof. intros Hk Hn. apply editor_run_refines; [apply new_editor_shows|done|done]. Qed.

Lemma editor_is_a_text_with_cursor_witness :
  exists e, editor_run (E := unit) [str "help"; str "history"] [KeyChar 104; KeyChar 101; Tab; Home; Delete; KeyChar 112; Enter; ArrowUp] new_editor =
    Ok ([str "pelp"], e) /\ buffer e = str "pelp".
Proof.
  destruct (editor_is_a_text_with_cursor [str "help"; str "history"] [KeyChar 104; KeyChar 101; Tab; Home; Delete; KeyChar 112; Enter; ArrowUp])
    as (e & E & Hs).
  - repeat constructor; cbn; lia.
  - intros _. repeat constructor; vm_compute; congruence.
  - exists e. split; [exact E|exact (sl_buffer _ _ Hs)].
Defined.

(** The condition is needed: completing to a name that is not ASCII and moving
    left leaves the cursor inside a character, and the next insertion panics. *)
Example completion_off_boundary :
  editor_run (E := unit) [[99; 0xC3; 0xA9]] [KeyChar 99; Tab; ArrowLeft; KeyChar 120] new_editor = Panic.
Proof. vm_compute. reflexivity. Qed.

(** The history holds the last sixteen lines. After any lines are entered,
    the ring answers exactly the last sixteen of them, oldest first, each cut
    to 128 bytes, and never panics. *)
Theorem history_is_the_last_lines ls :
  exists h, push_lines ls new_history = Ok h /\ len h = Nat.min HISTORY_LEN (length ls) /\
    forall i x, remembered (map (take MAX_LINE) ls) !! i = Some x -> get_line i h = Ok (default [] (from_utf8 x)).
Proof.
  destruct (push_lines_hold ls new_history [] new_history_holds) as (h & E & Hh). exists h. split; [done|]. split.
  - rewrite (hh_len _ _ Hh). unfold remembered. cbn [app]. rewrite length_drop, length_map. lia.
  - intros i x. by apply get_line_holds.
Qed.

(** Words typed are words read. A line of words, separated by blanks and
    quoted where they contain blanks, tokenizes to exactly those words; with
    more than eight words it is refused. *)
Theorem words_typed_are_words_read b w ws tl :
  blanks b -> spellable w -> separated ws -> blanks tl ->
  tokenize (typed ((b, w) :: ws) tl) = if (length ws <? MAX_ARGS)%nat then Ok (w :: map snd ws) else Err TooManyArgs.
Proof. apply tokenize_typed. Qed.

Lemma words_typed_are_words_read_witness :
  tokenize (str " cat  " ++ [34] ++ str "my file" ++ [34] ++ str " ") = Ok [str "cat"; str "my file"].
Proof.
  apply (words_typed_are_words_read (str " ") (str "cat") [(str "  ", str "my file")] (str " ")).
  - repeat constructor.
  - split; [reflexivity|left; reflexivity].
  - constructor; [|constructor]. split; [repeat constructor|]. split; [done|]. split; [reflexivity|right; repeat constructor].
  - repeat constructor.
Defined.

(** A non-empty string of digits worth at most 2147483647. *)
Definition small_decimal (ds : list Z) : option Z :=
  if bool_decide (ds <> []) && forallb is_digit ds && (digits_value ds 0 <=? 2147483647) then Some (digits_value ds 0) else None.

(** A number is accepted exactly when it fits. [parse_i32] accepts a
    non-empty string of digits, with or without a minus sign, when its
    magnitude is at most 2147483647, with that value; and nothing else. The
    least [i32], whose magnitude is one more, is therefore refused. *)
Theorem number_accepted_iff_it_fits b s :
  parse_i32 (b :: s) = (if b =? 45 then Z.opp <$> small_decimal s else small_decimal (b :: s)) /\ parse_i32 [] = None.
Proof.
  split; [|done]. unfold parse_i32, small_decimal. destruct (b =? 45) eqn:E; zbool.
  - destruct s as [|c s]; [done|]. rewrite parse_digits_spec by lia. rewrite bool_decide_eq_true_2 by done. cbn [andb]. by destruct (_ && _).
  - rewrite parse_digits_spec by lia. rewrite bool_decide_eq_true_2 by done. cbn [andb]. by destruct (_ && _).
Qed.

Example least_i32_refused : parse_i32 (str "-2147483648") = None.
Proof. reflexivity. Qed.

Section claims.
Context {V1 V2 : Type} `{F1 : FatFs V1} `{!FatFsOk V1} `{F2 : FatFs V2} `{!FatFsOk V2}.
Context `{FE : FloatEnv} `{FT : Features} (fuel : nat).
Implicit Types s : Sh V1 V2.


(** A turn always counts as input, also when no key was there. *)
Theorem turn_reports_input s b s' : loop_turn fuel s = (Ok b, s') -> b = false.
Proof. apply loop_turn_awake. Qed.

(** C26: what [write] stores, [cat] prints. On any mounted volume, typing [write]
    with a name (of a file, without slashes) and the hex digits of at most 4096
    bytes of text does not panic and changes no other file. Either it says that
    the volume refused the file, or the file of the root directory has exactly
    the text, and typing [cat] prints exactly it: with a slash before the name
    from any working directory, with the bare name where the root is the working
    directory, since [write] always stores in the root. *)
Theorem written_file_is_printed nm t s :
  shell_inv s -> vol_fine (vol s) -> spellable nm -> no_slash nm ->
  Forall is_u8 t -> (length t <= 4096)%nat -> utf8_valid t = true ->
  exists s1, run_command fuel (command_line (str "write") [nm; hex_encode t]) s = (Ok tt, s1) /\ vol_kept nm (vol s) (vol s1) /\
    (log (the_world s1) = log (the_world s) ++ [Print (str "write: FAT write failed" ++ [NL])] \/
     vol_reads (vol s1) nm = Some t /\ forall path, names_root path nm s ->
       exists s2, run_command fuel (command_line (str "cat") [path]) s1 = (Ok tt, s2) /\
         log (the_world s2) = log (the_world s1) ++ text_events t).
Proof.
  intros Hs Hv Hsp Hn Hb Hl Hu. assert (spellable (hex_encode t)) as Hh by apply hex_spellable, Hb.
  destruct (run_command_line fuel (str "write") Write_ [nm; hex_encode t] s) as (h & -> & Hi1);
    [done|reflexivity|by split; [|left]|reflexivity|reflexivity|by apply Forall_cons_2; [|apply Forall_singleton]|cbn; unfold MAX_ARGS; lia|]. cbn [run_handler].
  destruct (cmd_write_run nm t (set_history h s) Hv Hb Hl) as (ok & s1 & E1 & Hv1 & Hk1 & Hcl & Hlog).
  exists s1. split; [done|]. split; [done|]. destruct ok; [|by left]. right. split; [done|]. intros path Hp.
  destruct (quiet_commands (V1 := V1) (V2 := V2)) as (_ & _ & _ & _ & _ & _ & Hw & _).
  destruct (Hw [nm; hex_encode t] (set_history h s) tt s1 (conj Hi1 Logic.I) E1) as [Hs1 _].
  destruct (run_command_line fuel (str "cat") Cat [path] s1) as (h2 & -> & Hi2);
    [exact Hs1|reflexivity|by split; [|left]|reflexivity|reflexivity|apply Forall_singleton; exact (spellable_root path nm s Hsp Hp)|cbn; unfold MAX_ARGS; lia|]. cbn [run_handler].
  destruct (cmd_cat_run path nm t (set_history h2 s1)) as (s2 & E2 & L2); try done; [|by exists s2].
  unfold names_root in *. cbn [CWD_LEN set_history] in *. by rewrite Hcl.
Qed.

End claims.

(** ** The claims on a booted kernel with an empty volume *)

Definition demo_shell (typed_keys : list Z) : Sh ToyVolume.t ToyVolume.t :=
  mkSh sys0 (Some (Ram (ToyVolume.mkVol (fun _ => None)))) new_history (replicate CWD_MAX 0) 0 typed_keys.

Lemma demo_shell_inv keys : shell_inv (demo_shell keys).
Proof.
  split; [|exists []; exact new_history_holds|split; [reflexivity|cbn; unfold CWD_MAX; lia|done]].
  split; [apply pool_ok_init, pool_ok_static|reflexivity|cbn; unfold MAX_TASKS, MAX_INSTANCES; lia| |].
  - by intros id t [Ht _]%lookup_replicate_1.
  - by intros i j t u [Ht _]%lookup_replicate_1.
Qed.




(** The third letter of the first message. *)
Definition third_letter (es : list event) : Z := match es with Print bs :: _ => nth 2 bs 0 | _ => 0 end.

(** In the directory [/sub]. *)
Definition in_sub (s : Sh ToyVolume.t ToyVolume.t) : Sh ToyVolume.t ToyVolume.t :=
  set_cwd_buf (str "/sub" ++ replicate (CWD_MAX - 4) 0) 4 s.

Lemma in_sub_inv s : shell_inv s -> shell_inv (in_sub s).
Proof. intros [Hi Hh _]. split; [exact Hi|exact Hh|]. split; [reflexivity|cbn; unfold CWD_MAX; lia|done]. Qed.

Lemma written_file_is_printed_witness :
  exists s1 s2 : Sh ToyVolume.t ToyVolume.t, run_command 10 (str "write hi 68690a") (in_sub (demo_shell [])) = (Ok tt, s1) /\
    run_command 10 (str "cat /hi") s1 = (Ok tt, s2) /\ log (the_world s2) = log (the_world s1) ++ [Print (str "hi" ++ [10])].
Proof.
  destruct (written_file_is_printed 10 (str "hi") (str "hi" ++ [10]) (in_sub (demo_shell [])))
    as (s1 & E1 & _ & [Hl|(_ & Hc)]).
  - apply in_sub_inv, demo_shell_inv.
  - exact Logic.I.
  - split; [reflexivity|by left].
  - repeat constructor; discriminate.
  - repeat constructor; vm_compute; congruence.
  - vm_compute. lia.
  - reflexivity.
  - exfalso. pose proof (f_equal (fun r => third_letter (log (the_world r.2))) E1) as Ht. cbn [snd] in Ht. rewrite Hl in Ht.
    revert Ht. vm_compute. discriminate.
  - destruct (Hc (47 :: str "hi")) as (s2 & E2 & L2); [by left|]. exists s1, s2. split; [exact E1|]. split; [exact E2|exact L2].
Defined.



(** ** The framebuffer console *)

(** Texts printed one after another, to both outputs. *)
Fixpoint print_texts (ts : list (list Z)) (out : list Z) (w : WRITER) : result unit (list Z * WRITER) :=
  match ts with
  | [] => Ok (out, w)
  | t :: ts' => let? x := print_both t out w in print_texts ts' x.1 x.2
  end.

Fixpoint grid_texts (R C : Z) (ts : list (list Z)) (c : Console) : result unit Console :=
  match ts with
  | [] => Ok c
  | t :: ts' => let s := chars (length t) t in let? c := con_print R C (length s) s c in grid_texts R C ts' c
  end.

(** The screen after [init]. *)
Definition blank : Console := mkConsole (fun _ _ => Fill BLACK) 0 0 0 0 BRIGHT_WHITE BLACK.

Lemma print_texts_refines R C G ts v c out :
  shows R C G v c ->
  match grid_texts R C ts c with
  | Ok c' => exists v', print_texts ts out (Some v) = Ok (out ++ flat_map serial_write_str ts, Some v') /\ shows R C G v' c'
  | Panic => print_texts ts out (Some v) = Panic
  | _ => False
  end.
Proof.
  revert v c out. induction ts as [|t ts IH]; intros v c out Hs; cbn [grid_texts print_texts flat_map].
  { exists v. by rewrite app_nil_r. }
  unfold print_both, vga_print, with_writer. set (s := chars (length t) t).
  pose proof (parse_ansi_refines R C G (length s) s v c (le_n _) Hs) as Hr. unfold refines in Hr.
  destruct (con_print R C (length s) s c) as [c1|e| |]; try done; cbn [rbind].
  - destruct Hr as (v1 & -> & S1). cbn [rbind fst snd]. specialize (IH v1 c1 (out ++ serial_write_str t) S1).
    destruct (grid_texts R C ts c1) as [c2|e| |]; try done. destruct IH as (v2 & -> & S2). exists v2. by rewrite <- app_assoc.
  - by rewrite Hr.
Qed.

(** C36: the console is a grid of characters. On a framebuffer that holds the
    pixels its description promises, with at least one cell and three bytes per
    pixel, printing any texts after [init], escape
    sequences included, draws exactly the picture of a grid of cells with a
    cursor (characters, colours, scrolling, erasing, inserted and deleted
    lines), writes the same texts to the serial line, and never touches a byte
    outside the framebuffer; it stops the kernel only when a cursor movement
    overflows a machine word. *)
Theorem console_is_a_grid b i ts :
  fits (new_vga b i) ->
  let R := height i / CHAR_H in let C := width i / CHAR_W in
  let session := let? w := vga_init b i in print_texts ts [] w in
  match grid_texts R C ts blank with
  | Ok c => exists v, session = Ok (flat_map serial_write_str ts, Some v) /\ shows R C i v c
  | Panic => session = Panic
  | _ => False
  end.
Proof.
  intros Hf R C session. pose proof Hf as [F1 F2 F3 F4 F5 F6].
  assert (exists v, vga_init b i = Ok (Some v) /\ shows R C i v blank) as (v & Ei & Hs).
  { destruct (clear_all_painted (new_vga b i) Hf) as (v & E & P). unfold vga_init, clear_screen. rewrite E. cbn [rbind].
    eexists. split; [reflexivity|]. pose proof (painted_fits _ _ _ Hf P) as Hf'. destruct P as (b' & -> & Hl & Hp).
    split; [|by split]. split; try done. intros x y Hx Hy. assert (C * 8 <= stride i) as Hc by exact F3.
    apply (Hp x y); [change (0 <= x < stride i); lia|exact Hy]. }
  subst session. rewrite Ei. cbn [rbind]. apply (print_texts_refines R C i ts v blank [] Hs).
Qed.

(** A screen of four rows and ten columns: the text wraps and scrolls, the
    last [A] is red. *)
Definition tiny_fb : FrameBufferInfo := mkFbInfo 80 32 80 4 true.
Definition tiny_text : list (list Z) := [str "hello, grid" ++ [10; 10; 10]; [27] ++ str "[31mA"].

Lemma console_is_a_grid_witness :
  exists v c, (let? w := vga_init (zero_slice 10240) tiny_fb in print_texts tiny_text [] w) =
      Ok (str "hello, grid" ++ [13; 10; 13; 10; 13; 10; 27] ++ str "[31mA", Some v) /\
    shows 4 10 tiny_fb v c /\ cells c 3 0 = Glyph 65 RED BLACK /\ cells c 0 0 = Glyph 100 BRIGHT_WHITE BLACK.
Proof.
  assert (fits (new_vga (zero_slice 10240) tiny_fb)) as Hf by (split; vm_compute; done || congruence).
  pose proof (console_is_a_grid (zero_slice 10240) tiny_fb tiny_text Hf) as Hc. cbv zeta in Hc.
  change (height tiny_fb / CHAR_H) with 4 in Hc. change (width tiny_fb / CHAR_W) with 10 in Hc.
  assert (match grid_texts 4 10 tiny_text blank with
          | Ok c => cells c 3 0 = Glyph 65 RED BLACK /\ cells c 0 0 = Glyph 100 BRIGHT_WHITE BLACK | _ => False end) as Hq
    by (vm_compute; done).
  destruct (grid_texts 4 10 tiny_text blank) as [c|e| |]; [|destruct Hq..].
  destruct Hc as (v & Es & Hs). exists v, c. split; [exact Es|]. split; [exact Hs|exact Hq].
Defined.

(** A huge parameter of a cursor movement overflows the row. *)
Example cursor_down_overflows :
  (let? w := vga_init (zero_slice 10240) tiny_fb in
   print_texts [[10; 27] ++ str "[18446744073709551615B"] [] w) = Panic.
Proof. vm_compute. reflexivity. Qed.

Definition foregrounds : list (list Z * Color) :=
  [
    (Ansi.FG_BLACK, BLACK); (Ansi.FG_RED, RED); (Ansi.FG_GREEN, GREEN); (Ansi.FG_YELLOW, YELLOW);
    (Ansi.FG_BLUE, BLUE); (Ansi.FG_MAGENTA, MAGENTA); (Ansi.FG_CYAN, CYAN); (Ansi.FG_WHITE, WHITE);
    (Ansi.FG_BRIGHT_BLACK, BRIGHT_BLACK); (Ansi.FG_BRIGHT_RED, BRIGHT_RED);
    (Ansi.FG_BRIGHT_GREEN, BRIGHT_GREEN); (Ansi.FG_BRIGHT_YELLOW, BRIGHT_YELLOW);
    (Ansi.FG_BRIGHT_BLUE, BRIGHT_BLUE); (Ansi.FG_BRIGHT_MAGENTA, BRIGHT_MAGENTA);
    (Ansi.FG_BRIGHT_CYAN, BRIGHT_CYAN); (Ansi.FG_BRIGHT_WHITE, BRIGHT_WHITE) ].
Definition backgrounds : list (list Z * Color) :=
  [
    (Ansi.BG_BLACK, BLACK); (Ansi.BG_RED, RED); (Ansi.BG_GREEN, GREEN); (Ansi.BG_YELLOW, YELLOW);
    (Ansi.BG_BLUE, BLUE); (Ansi.BG_MAGENTA, MAGENTA); (Ansi.BG_CYAN, CYAN); (Ansi.BG_WHITE, WHITE);
    (Ansi.BG_BRIGHT_BLACK, BRIGHT_BLACK); (Ansi.BG_BRIGHT_RED, BRIGHT_RED);
    (Ansi.BG_BRIGHT_GREEN, BRIGHT_GREEN); (Ansi.BG_BRIGHT_YELLOW, BRIGHT_YELLOW);
    (Ansi.BG_BRIGHT_BLUE, BRIGHT_BLUE); (Ansi.BG_BRIGHT_MAGENTA, BRIGHT_MAGENTA);
    (Ansi.BG_BRIGHT_CYAN, BRIGHT_CYAN); (Ansi.BG_BRIGHT_WHITE, BRIGHT_WHITE) ].

(** One complete sequence. *)
Lemma one_sequence params cmd v : forallb is_param params = true -> is_param cmd = false ->
  parse_ansi (length (27 :: 91 :: params ++ [cmd])) (27 :: 91 :: params ++ [cmd]) v = run_csi params cmd v.
Proof.
  intros Hp Hc. cbn [length parse_ansi Z.eqb Pos.eqb negb].
  assert (forall acc, read_csi (params ++ [cmd]) acc = Some (acc ++ params, cmd, [])) as E.
  { induction params as [|x params IH]; intros acc; cbn in *; [by rewrite Hc, app_nil_r|]. apply andb_prop in Hp as [-> Hp].
    rewrite (IH Hp). by rewrite <- app_assoc. }
  rewrite E. cbn. by destruct (run_csi params cmd v).
Qed.

(** A movement without parameters, given that the sums fit a word. *)
Ltac cursor_moves cmd v Hu :=
  etrans; [exact (one_sequence [] cmd v eq_refl eq_refl)|]; unfold run_csi, set_cursor_position;
  cbn -[usize rows cols Z.min Z.max]; rewrite !Hu by lia; cbn [rbind]; unfold sat_sub; do 2 f_equal; lia.

(** The named escape sequences do what their names say: each of the thirty-two
    colours selects that colour and nothing else, [RESET] both defaults; the
    cursor moves one cell within the screen, home, or to where it was saved; and
    the six erasing sequences erase the part of the line or screen they name. *)
Theorem escape_names_mean v : 0 < rows v -> 0 < cols v -> 0 <= row v < rows v -> 0 <= col v < cols v ->
  rows v < USIZE_MAX -> cols v < USIZE_MAX ->
  let does s r := parse_ansi (length s) s v = r in
  Forall (fun e => does e.1 (Ok (set_fg e.2 v))) foregrounds /\ Forall (fun e => does e.1 (Ok (set_bg e.2 v))) backgrounds /\
  does Ansi.RESET (Ok (set_bg BLACK (set_fg BRIGHT_WHITE v))) /\
  does Ansi.CURSOR_UP (Ok (move_to (Z.max 0 (row v - 1)) (col v) v)) /\
  does Ansi.CURSOR_DOWN (Ok (move_to (Z.min (row v + 1) (rows v - 1)) (col v) v)) /\
  does Ansi.CURSOR_RIGHT (Ok (move_to (row v) (Z.min (col v + 1) (cols v - 1)) v)) /\
  does Ansi.CURSOR_LEFT (Ok (move_to (row v) (Z.max 0 (col v - 1)) v)) /\
  does Ansi.CURSOR_NEXT_LINE (Ok (move_to (Z.min (row v + 1) (rows v - 1)) 0 v)) /\
  does Ansi.CURSOR_PREV_LINE (Ok (move_to (Z.max 0 (row v - 1)) 0 v)) /\
  does Ansi.CURSOR_POSITION (Ok (move_to 0 0 v)) /\
  does Ansi.CURSOR_SAVE (Ok (save_cursor v)) /\
  does Ansi.CURSOR_RESTORE (Ok (move_to (saved_row v) (saved_col v) v)) /\
  does Ansi.CLEAR_SCREEN (clear_screen v) /\ does Ansi.CLEAR_SCREEN_END (clear_to_end_of_screen v) /\
  does Ansi.CLEAR_SCREEN_START (clear_to_start_of_screen v) /\ does Ansi.CLEAR_LINE (clear_line v) /\
  does Ansi.CLEAR_LINE_END (clear_to_end_of_line v) /\ does Ansi.CLEAR_LINE_START (clear_to_start_of_line v).
Proof.
  intros Hr Hc Hrow Hcol Hru Hcu. cbv zeta.
  assert (forall r : VR, (let? v := r in Ok v) = r) as Hid by (by intros []).
  assert (forall x, 0 <= x <= USIZE_MAX -> usize (E := unit) x = Ok x) as Hu.
  { intros x Hx. unfold usize. by rewrite (proj2 (Z.leb_le 0 x)), (proj2 (Z.leb_le x _)) by lia. }
  split; [repeat (apply List.Forall_cons; [reflexivity|]); apply List.Forall_nil|].
  split; [repeat (apply List.Forall_cons; [reflexivity|]); apply List.Forall_nil|].
  split_and!; try reflexivity; try (apply Hid).
  - cursor_moves 66 v Hu.
  - cursor_moves 67 v Hu.
  - cursor_moves 69 v Hu.
  - cursor_moves 72 v Hu.
Qed.
