(* ===== verification/CorrectJit.v ===== *)
(** * Correctness of the native code generator

    The code the compiler writes is the code it means, it lies in the pool
    apart from other code, and calling it does what interpreting the body
    does. *)

From S2P Require Import Prelude Leb128 Loader FileTable Opcode IntOps FloatOps Jump.
From S2P Require Import Sections World Machine Dispatch Safety Instantiate Specs Host.
From S2P Require Import HostSpec Jit X86 JitSpec JitSim JitNative JitAgree Engine.
From S2P Require Import EngineSpec Task Demo.

(** ** The calls agree *)

(** C16: native code and interpreter agree. For a body that the compiler
    accepted and whose code fits the scratch buffer, when every 32-bit operation
    of the body stays in range (no wrap-around, shift counts below 32), the
    native fast path of [call] and a frame run by the dispatch loop both
    return, and leave the same value stack, memory, globals, depths and
    output. The processor executes the bytes the compiler wrote. *)
Theorem native_calls_agree `{FloatEnv} (p : site) s callee b bd f np rc dc base ops st' ls' v run :
  calls s callee b bd np rc dc base -> 0 <= rc -> compiled bd rc f ->
  straight bd 0 ops -> seval ops ([], args s np dc base) = Some (st', ls') -> body_value rc st' = Some v ->
  (base + length ops < STACK_DEPTH)%nat -> (length ops <= room p)%nat -> site_ok p MAX_LOCALS (length f) ->
  exists s1 s2,
    exec_jit (H := native_features p) run f callee b s = (Ok Continue, s1) /\
    (do! on_it (fun i => set_stop (fdepth i) i) in
     do! push_frame b in run_loop (H0 := native_features p) (S (S (length ops)))) s = (Ok tt, s2) /\
    after_call s1 = after_call s2.
Proof.
  intros Hc Hrc Hf Hs E Hv Hd Hr Hp. destruct (compiled_code _ _ _ Hrc Hf) as [Hrc1 _].
  destruct (native_path p s callee b bd f np rc dc base ops st' ls' v Hc Hs E Hv Hd run Hrc Hf Hp Hr) as (s1 & E1 & H1).
  destruct (interpreted_path p s callee b bd np rc dc base ops st' ls' v Hc Hs E Hv Hd (conj Hrc Hrc1)) as (s2 & E2 & H2).
  exists s1, s2. split; [exact E1|]. split; [exact E2|]. by rewrite H1, H2.
Qed.

(** A function of two parameters and one local: [((a * b) + a) xor 5]. *)
Definition calc_body : list Z :=
  [0x20; 0; 0x20; 1; 0x6C; 0x21; 2; 0x20; 2; 0x20; 0; 0x6A; 0x41; 5; 0x73; 0x0B].
Definition calc_ops : list sop :=
  [SGet 0; SGet 1; SBin BMul; SSet 2; SGet 2; SGet 0; SBin BAdd; SConst 5; SBin BXor].
Definition calc_bytes : list Z := encode_module
  [ (SECTION_TYPE, encode_vec encode_type [([0x7F; 0x7F], [0x7F])]);
    (SECTION_FUNCTION, encode_vec encode_u32 [0]);
    (SECTION_EXPORT, encode_vec encode_export [mkExport (str "calc") 0 0]);
    (SECTION_CODE, encode_vec encode_body [([(1, 0x7F)], calc_body)]) ].
Definition calc_interp : Interpreter := default blank_interp (interp_at (spawn (str "calc") calc_bytes booted).2 0).

(** The arguments 7 and 9 above a value of the caller. *)
Definition calc_state : St :=
  mkSt (set_vstack (<[2%nat := 9]> (<[1%nat := 7]> (<[0%nat := 77]> (vstack calc_interp)))) 3 calc_interp) world_static PAGE_SIZE.

Definition calc_code : list Z :=
  let c := (jit_compile_body calc_body 1 (new_codebuf (replicate 4096 0))).2 in take (cb_len c) (cb_buf c).

Definition calc_site : site := mkSite 0x100000 0x7FF000 64 0x7FF100 0x200000 (fun _ => 0).

Lemma calc_straight : straight calc_body 0 calc_ops.
Proof.
  unfold calc_ops.
  repeat (eapply straight_op; [first
    [ eapply at_get; vm_compute; reflexivity | eapply at_set; vm_compute; reflexivity | eapply at_i32_const; vm_compute; reflexivity
    | eapply at_bin; vm_compute; reflexivity ]|]).
  eapply straight_end. right. right. vm_compute. done.
Qed.

Lemma calc_called : calls calc_state 0 0 calc_body 2 1 1 1.
Proof.
  split.
  - exists 0. repeat split; try (vm_compute; reflexivity); vm_compute; discriminate.
  - repeat split; try (vm_compute; reflexivity); vm_compute; discriminate.
  - vm_compute. reflexivity.
  - split; [|vm_compute; reflexivity]. split; [vm_compute; reflexivity|]. split; [|apply Nat.leb_le; vm_compute; reflexivity].
    cbn [calc_state it set_vstack vstack]. replace (vstack calc_interp) with (replicate STACK_DEPTH 0) by (vm_compute; reflexivity).
    by repeat apply Forall_insert; try done; apply Forall_replicate.
  - split; [vm_compute; reflexivity|apply Nat.ltb_lt; vm_compute; reflexivity].
  - vm_compute. reflexivity.
Qed.

Lemma native_calls_agree_witness :
  exists s1 s2,
    exec_jit (H := native_features calc_site) (ret tt) calc_code 0 0 calc_state = (Ok Continue, s1) /\
    (do! on_it (fun i => set_stop (fdepth i) i) in
     do! push_frame 0 in run_loop (H0 := native_features calc_site) 11) calc_state = (Ok tt, s2) /\
    after_call s1 = after_call s2.
Proof.
  apply (native_calls_agree calc_site calc_state 0 0 calc_body calc_code 2 1 1 1 calc_ops [67] [7; 9; 63] 67 (ret tt));
    [ apply calc_called | lia | | apply calc_straight | vm_compute; reflexivity | reflexivity
    | apply Nat.ltb_lt; vm_compute; reflexivity | apply Nat.leb_le; vm_compute; reflexivity | ].
  - eexists. split; [apply outcome_pair; vm_compute; reflexivity|]. split; [apply Nat.ltb_lt; vm_compute; reflexivity|reflexivity].
  - split; cbn; repeat split; try done; try (right; done); vm_compute; intros [? ?]; discriminate || auto.
Defined.

(** The two paths, evaluated: 67 above the caller's 77. *)
Example calc_native_stack :
  option_map (fun r => r.1) (run_native calc_site calc_code (7 :: 9 :: replicate 62 0)) = Some 67.
Proof. vm_compute. reflexivity. Qed.

(** ** What is written is what is meant *)

(** C17: the machine code of every body the compiler accepts, if it fits the
    scratch buffer, disassembles completely, into exactly the entry sequence,
    the instructions of the operations of the body in order, and one return
    sequence: every emitter used encodes its instruction, and nothing is lost
    or left over. *)
Theorem compiled_code_disassembles bd rc f :
  0 <= rc -> compiled bd rc f ->
  exists ops, straight bd 0 ops /\ disassemble f = Some (body_instrs ops rc).
Proof.
  intros Hrc Hf. destruct (compiled_code _ _ _ Hrc Hf) as (_ & ops & bss & Hs & -> & Hm).
  exists ops. split; [done|]. by apply disassemble_means.
Qed.

Lemma calc_compiled : compiled calc_body 1 calc_code.
Proof.
  eexists. split; [apply outcome_pair; vm_compute; reflexivity|]. split; [apply Nat.ltb_lt; vm_compute; reflexivity|reflexivity].
Qed.

Lemma compiled_code_disassembles_witness :
  exists ops, straight calc_body 0 ops /\ disassemble calc_code = Some (body_instrs ops 1).
Proof. apply (compiled_code_disassembles calc_body 1 calc_code); [lia|apply calc_compiled]. Defined.

(** The arithmetic of native code is 64 bits wide: the sum of two large [i32]
    values is not the wrapped one. *)
Definition sum_body : list Z := [0x20; 0; 0x20; 1; 0x6A; 0x0B].
Definition sum_code : list Z :=
  let c := (jit_compile_body sum_body 1 (new_codebuf (replicate 4096 0))).2 in take (cb_len c) (cb_buf c).

Example native_sum_not_wrapped :
  option_map (fun r => r.1) (run_native calc_site sum_code (2147483647 :: 1 :: replicate 62 0)) = Some 2147483648 /\
  option_map (fun f => f 2147483647 1) (assoc OP_I32_ADD int_binops) = Some (Ok (-2147483648)).
Proof. vm_compute. split; reflexivity. Qed.

(** ** The code pool *)

(** Code of different functions never overlaps. Allocations made one after
    the other lie inside the pool, start on a multiple of 16, and each ends
    before the next one starts. *)
Theorem native_code_apart lens fill r f :
  0 <= fill -> Forall (Z.le 0) lens -> jit_allocs lens fill = Some (r, f) ->
  Forall (fun x => fill <= x.1 /\ x.1 + x.2 <= JIT_BUF_SIZE /\ x.1 mod 16 = 0) r /\
  (forall i j x y, (i < j)%nat -> r !! i = Some x -> r !! j = Some y -> x.1 + x.2 <= y.1).
Proof.
  intros Hf Hl E. destruct (jit_allocs_spec _ _ _ _ Hf Hl E) as (_ & H1 & H2). split; [|done].
  eapply Forall_impl; [|exact H1]. cbn beta. tauto.
Qed.

Lemma native_code_apart_witness :
  Forall (fun x => 5 <= x.1 /\ x.1 + x.2 <= JIT_BUF_SIZE /\ x.1 mod 16 = 0) [(16, 100); (128, 40)] /\
  (forall i j x y, (i < j)%nat -> [(16, 100); (128, 40)] !! i = Some x -> [(16, 100); (128, 40)] !! j = Some y -> x.1 + x.2 <= y.1).
Proof. apply (native_code_apart [100; 40] 5 [(16, 100); (128, 40)] 168); [lia|repeat constructor; lia|reflexivity]. Defined.
