(* ===== verification/CorrectVirtio.v ===== *)
(** * Correctness of the virtio drivers

    Over any device that serves its queues as documented, the block driver is a
    disk and the network driver moves frames. *)

From S2P Require Import Prelude Packets Phys Paging Block Virtio VirtioBlk VirtioBlkSpec.
From S2P Require Import VirtioNic VirtioNicSpec.

(** ** Reads and writes *)

Inductive disk_op := DRead (lba : Z) | DWrite (lba : Z) (data : list Z).
Inductive disk_answer := ARead (r : result unit (list Z)) | AWrite (r : result unit unit).

Definition disk_op_ok (o : disk_op) : Prop :=
  match o with DRead lba => 0 <= lba < 4294967296
  | DWrite lba data => 0 <= lba < 4294967296 /\ length data = BLOCK_SIZE /\ Forall is_u8 data end.

Section ops.
Context {D : Type} {PIO : PortIO D} {AS : AddressSpace} {BS : BlkStatics}.

Definition driver_op (o : disk_op) (s : BlkSt (D := D)) : disk_answer * BlkSt (D := D) :=
  match o with
  | DRead lba => let '(r, s') := read_block lba s in (ARead r, s')
  | DWrite lba data => let '(r, s') := write_block lba data s in (AWrite r, s')
  end.

Fixpoint driver_ops (os : list disk_op) (s : BlkSt (D := D)) : list disk_answer * BlkSt (D := D) :=
  match os with
  | [] => ([], s)
  | o :: os' => let '(a, s1) := driver_op o s in let '(l, s2) := driver_ops os' s1 in (a :: l, s2)
  end.
End ops.

(** The same on an array of sectors. *)
Definition array_op (o : disk_op) (k : Disk) : disk_answer * Disk :=
  match o with
  | DRead lba => (ARead (if lba <? cap k then Ok (sect k lba) else Err tt), k)
  | DWrite lba data => if lba <? cap k then (AWrite (Ok tt), write_sect lba data k) else (AWrite (Err tt), k)
  end.

Fixpoint array_ops (os : list disk_op) (k : Disk) : list disk_answer * Disk :=
  match os with
  | [] => ([], k)
  | o :: os' => let '(a, k1) := array_op o k in let '(l, k2) := array_ops os' k1 in (a :: l, k2)
  end.

Lemma driver_op_run {D} {PIO : PortIO D} {BD : BlkDevice D} {AS : AddressSpace} {BS : BlkStatics} o (s : BlkSt (D := D)) :
  blk_ok s -> disk_op_ok o ->
  exists s', driver_op o s = ((array_op o (blk_disk (dv s.2))).1, s') /\ blk_ok s' /\ blk_disk (dv s'.2) = (array_op o (blk_disk (dv s.2))).2.
Proof.
  intros Hs Ho. destruct o as [lba|lba data]; unfold driver_op, array_op.
  - destruct (blk_read_run s lba Hs Ho) as (s' & H1 & H2 & H3). exists s'. rewrite H3. split; [reflexivity|]. split; [exact H1|exact H2].
  - destruct Ho as (Hl & Hd & Hu). destruct (blk_write_run s lba data Hs Hl Hd Hu) as (s' & H1 & H2 & H3). exists s'.
    rewrite H3, H2.
    destruct (lba <? cap (blk_disk (dv s.2))); (split; [reflexivity|]; split; [exact H1|reflexivity]).
Qed.

(** C22: the driver implements a disk. Over any device that serves its
    virtqueue as documented (entry by entry, within the time the driver waits),
    any sequence of block reads and writes through descriptors, rings and
    notifications gives exactly the answers of an array of sectors, transfers
    beyond the end refused, and leaves the array's contents on the device; the
    driver stays ready, however often the 16-bit indices wrap around. *)
Theorem virtio_driver_is_a_disk {D} {PIO : PortIO D} {BD : BlkDevice D} {AS : AddressSpace} {BS : BlkStatics} os (s : BlkSt (D := D)) :
  blk_ok s -> Forall disk_op_ok os ->
  let '(answers, s') := driver_ops os s in
  let '(answers', k') := array_ops os (blk_disk (dv s.2)) in
  answers = answers' /\ blk_disk (dv s'.2) = k' /\ blk_ok s'.
Proof.
  intros Hs Hos. revert s Hs. induction Hos as [|o os Ho Hos IH]; intros s Hs; cbn [driver_ops array_ops]; [done|].
  destruct (driver_op_run o s Hs Ho) as (s1 & -> & Hs1 & Hd1). destruct (array_op o _) as [a k1]. cbn [fst snd] in *.
  specialize (IH s1 Hs1). destruct (driver_ops os s1) as [l s2]. rewrite Hd1 in IH. destruct (array_ops os k1) as [l' k2].
  destruct IH as (-> & H2 & H3). done.
Qed.

(** C23: initialisation. On a machine with a legacy virtio block device, whose
    queue size is a power of two that fits the six static pages, and with the
    request buffers in physically contiguous memory, [try_init] finds the device on the bus and a run of physically contiguous pages, and
    ends with a driver that is ready: queue handed over, indices at zero, the
    contents of the disk untouched. *)
Theorem virtio_init_makes_ready {D} {PIO : PortIO D} {BD : BlkDevice D} {BP : BlkPlugged D} {AS : AddressSpace} {BS : BlkStatics}
    e v Hp Tp Sp (b : Bus D) :
  found_at D -> depth = 2 ^ e -> 2 <= e <= 15 -> statics_ok (vq_pages_needed depth) v Hp Tp Sp ->
  bytes_ok (pm b) -> disk_ok (blk_disk (dv b)) ->
  exists h b', blk_try_init b = (Ok (Some h), b') /\ blk_ok (h, b') /\ blk_disk (dv b') = blk_disk (dv b) /\ said b' = said b.
Proof. apply try_init_run. Qed.

(** ** A device *)

(** Serves a request as soon as it is notified. *)
Record Quick := mkQuick { k_regs : Regs; k_served : Z; k_disk : Disk }.

Definition quick_bar : Z := 0xC000.
Definition quick_depth : Z := 256.

Definition quick_out (w : nat) (port v : Z) (m : Phys) (d : Quick) : Phys * Quick :=
  let r := k_regs d in
  if port =? PCI_ADDR then (m, mkQuick (mkRegs v (status r) (queue_sel r) (queue_pfn r)) (k_served d) (k_disk d))
  else if port =? PCI_DATA then (m, d)
  else if port =? quick_bar + VIRT_QUEUE_NOTIFY then
    match blk_serve (queue_pfn r * 4096) quick_depth (k_served d) (k_disk d) m with
    | Some (m', disk') => (m', mkQuick r (k_served d + 1) disk')
    | None => (m, d)
    end
  else
    let r' := reg_write (port - quick_bar) v r in
    (m, mkQuick r' (if (port =? quick_bar + VIRT_DEVICE_STATUS) then 0 else k_served d) (k_disk d)).

Definition quick_config (a : Z) : Z :=
  if a =? pci_address 0 3 0 0 then 0x10011AF4 else if a =? pci_address 0 3 0 0x10 then quick_bar + 1 else 0xFFFFFFFF.

Definition quick_in (w : nat) (port : Z) (d : Quick) : Z * Quick :=
  let v :=
    if port =? PCI_DATA then quick_config (cfg_addr (k_regs d))
    else if port =? quick_bar + VIRT_QUEUE_NUM then quick_depth
    else if port =? quick_bar + VIRT_DEVICE_STATUS then status (k_regs d)
    else if port =? quick_bar + VIRT_BLK_CAP_LO then cap (k_disk d) mod 2 ^ 32
    else if port =? quick_bar + VIRT_BLK_CAP_HI then cap (k_disk d) / 2 ^ 32
    else 0 in
  (v, d).

#[export] Instance quick_ports : PortIO Quick := {|
  port_in := quick_in; port_out := quick_out; device_turn m d := (m, d)
|}.

#[export, refine] Instance quick_device : BlkDevice Quick := {|
  blk_disk := k_disk;
  blk_live io Q q n d := io = quick_bar /\ Q = queue_pfn (k_regs d) * 4096 /\ q = quick_depth /\ n = k_served d
|}.
Proof.
  - intros io Q q n d m m' disk' (-> & -> & -> & ->) _ _ E. exists 0%nat, (mkQuick (k_regs d) (k_served d + 1) disk').
    cbn [turns port_out quick_ports]. unfold quick_out. cbn zeta.
    change (quick_bar + VIRT_QUEUE_NOTIFY =? PCI_ADDR) with false. change (quick_bar + VIRT_QUEUE_NOTIFY =? PCI_DATA) with false.
    rewrite Z.eqb_refl, E. split; [lia|]. split; [done|]. split; [done|]. split; [done|]. intros j Hj. lia.
  - intros io Q q n d (-> & _). by exists d, d.
Defined.

Lemma quick_out_reg w off v m d :
  (w, off) ∈ [(1%nat, VIRT_DEVICE_STATUS); (4%nat, VIRT_DRIVER_FEATURES); (2%nat, VIRT_QUEUE_SELECT); (4%nat, VIRT_QUEUE_PFN)] ->
  exists d', quick_out w (quick_bar + off) v m d = (m, d') /\ k_disk d' = k_disk d /\ k_regs d' = reg_write off v (k_regs d).
Proof.
  rewrite !elem_of_cons, elem_of_nil. intros [[= -> ->]|[[= -> ->]|[[= -> ->]|[[= -> ->]|[]]]]]; by eexists.
Qed.

#[export, refine] Instance quick_plugged : BlkPlugged Quick := {|
  bar := quick_bar; depth := quick_depth; slot := (0, 3); pci_config := quick_config; regs := k_regs
|}.
Proof.
  - intros a m d. by eexists.
  - done.
  - intros v m d. by exists d.
  - intros w off v m d Hin. by apply quick_out_reg.
  - intros d. by exists 0.
  - done.
  - done.
  - intros m d m' d' _ [= <- <-]. done.
Defined.

(** The first page of the queue buffer is elsewhere than its neighbours. *)
#[export] Instance scattered : AddressSpace := {| phys_of v := if v / 4096 =? 0x10 then v + 0x100000 else v |}.
#[export] Instance demo_statics : BlkStatics := {| VIRTQ_BUF := 0x10000; REQ_HDR := 0x20000; REQ_DATA := 0x21100; REQ_STATUS := 0x22001 |}.

Definition demo_disk : Disk := mkDisk 1000 (fun l => replicate 512 (l mod 256)).
Definition demo_bus : Bus Quick := mkBus (fun _ => 0xEE) (mkQuick (mkRegs 0 7 5 0x777) 42 demo_disk) [].

Lemma demo_disk_ok : disk_ok demo_disk.
Proof.
  split; [cbn; lia|]. intros l. split; [apply length_replicate|]. apply Forall_replicate. unfold is_u8. zlia.
Qed.

Lemma demo_found : found_at Quick.
Proof.
  split; [reflexivity|reflexivity|repeat split; vm_compute; (reflexivity || discriminate)|].
  exists [(0, 0); (0, 1); (0, 2)], (drop 4 pci_slots). split; [vm_compute; reflexivity|].
  repeat constructor; left; reflexivity.
Qed.

Lemma demo_pages : statics_ok (vq_pages_needed depth) 0x11000 0x20000 0x21100 0x22001.
Proof.
  assert (forall v n, 0x11000 <= v -> linear v n v) as Hl.
  { intros v n Hv i Hi. cbn. rewrite (proj2 (Z.eqb_neq _ _)) by zlia. lia. }
  split; try (apply Hl; lia).
  - intros v d Hv Hd. cbn. replace ((v + d) / 4096) with (v / 4096) by zlia. destruct (_ =? _); lia.
  - reflexivity.
  - repeat split; vm_compute; (reflexivity || discriminate).
  - repeat split; vm_compute; (reflexivity || discriminate).
  - lia.
  - split; [|lia]. change (vq_pages_needed depth) with 3. change (phys_of 0x11000) with 0x11000.
    intros k n [[= <- <-]|[[= <- <-]|[[= <- <-]|[]]]]; lia.
Qed.

Lemma demo_bytes : bytes_ok (pm demo_bus).
Proof. intros a. by unfold is_u8. Qed.

Lemma virtio_init_makes_ready_witness :
  exists h b', blk_try_init demo_bus = (Ok (Some h), b') /\ blk_ok (h, b') /\
    blk_disk (dv b') = blk_disk (dv demo_bus) /\ said b' = said demo_bus.
Proof.
  apply (virtio_init_makes_ready 8 0x11000 0x20000 0x21100 0x22001 demo_bus);
    [apply demo_found|reflexivity|lia|apply demo_pages|apply demo_bytes|apply demo_disk_ok].
Defined.

(** The driver as initialisation leaves it. *)
Definition demo_driver : BlkSt (D := Quick) :=
  match blk_try_init demo_bus with
  | (Ok (Some h), b) => (h, b)
  | (_, b) => (mkBlk 0 0 0 0 0 0 0, b)
  end.

Lemma demo_driver_ok : blk_ok demo_driver /\ blk_disk (dv demo_driver.2) = demo_disk.
Proof.
  destruct (try_init_run 8 0x11000 0x20000 0x21100 0x22001 demo_bus demo_found eq_refl ltac:(lia) demo_pages demo_bytes demo_disk_ok)
    as (h & b' & E & Hok & Hd & _). unfold demo_driver. rewrite E. by split.
Qed.

Lemma virtio_driver_is_a_disk_witness :
  let '(answers, s') := driver_ops [DRead 7; DWrite 7 (replicate 512 9); DRead 7; DRead 1000] demo_driver in
  answers = [ARead (Ok (replicate 512 7)); AWrite (Ok tt); ARead (Ok (replicate 512 9)); ARead (Err tt)] /\ blk_ok s'.
Proof.
  destruct demo_driver_ok as [Hok Hd].
  pose proof (virtio_driver_is_a_disk [DRead 7; DWrite 7 (replicate 512 9); DRead 7; DRead 1000] demo_driver Hok) as H.
  rewrite Hd in H. destruct (driver_ops _ demo_driver) as [answers s']. destruct H as (H1 & _ & H3).
  - repeat constructor; try done; try lia.
  - split; [exact H1|exact H3].
Defined.

(** ** The network card driver

    Over any card that serves its queues as documented, frames go out and come
    in unchanged and in order. *)

Inductive nic_op := NSend (frame : list Z) | NRecv.
Inductive nic_answer := ASent (r : result unit Z) | AGot (r : result unit (list Z)).

Definition nic_step {D} `{PortIO D} `{AddressSpace} `{NicStatics} (o : nic_op) (s : NicSt (D := D)) : nic_answer * NicSt (D := D) :=
  match o with
  | NSend frame => let '(r, s') := nic_send frame s in (ASent r, s')
  | NRecv => let '(r, s') := nic_recv 1514 s in (AGot r, s')
  end.

Fixpoint nic_run {D} `{PortIO D} `{AddressSpace} `{NicStatics} (os : list nic_op) (s : NicSt (D := D)) : list nic_answer * NicSt (D := D) :=
  match os with
  | [] => ([], s)
  | o :: os' => let '(a, s1) := nic_step o s in let '(l, s2) := nic_run os' s1 in (a :: l, s2)
  end.

Definition legal (frame : list Z) : bool := (14 <=? Z.of_nat (length frame)) && (Z.of_nat (length frame) <=? 1514).

(** The frames of legal length, and the frames the driver returned. *)
Definition offered (os : list nic_op) : list (list Z) :=
  concat (map (fun o => match o with NSend f => if legal f then [f] else [] | NRecv => [] end) os).
Definition got (l : list nic_answer) : list (list Z) :=
  concat (map (fun a => match a with AGot (Ok (x :: f)) => [x :: f] | _ => [] end) l).

(** A send succeeds exactly for a frame of legal length; a receive never fails. *)
Definition answered_well (o : nic_op) (a : nic_answer) : Prop :=
  match o, a with
  | NSend f, ASent r => r = if legal f then Ok (Z.of_nat (length f)) else Err tt
  | NRecv, AGot (Ok _) => True
  | _, _ => False
  end.

Definition nic_op_ok (o : nic_op) : Prop := match o with NSend f => Forall is_u8 f | NRecv => True end.

Section card.
Context {D : Type} {PIO : PortIO D} {ND : NicDevice D} {AS : AddressSpace} {NS : NicStatics}.

Lemma nic_ok_frame taken f (s : NicSt (D := D)) : nic_ok taken (Filled f) s -> f <> [].
Proof. intros (QT & QR & TH & TB & RB & nt & na & _ & [_ _ [_ _ _ _ [Hl _]] _ _ _]). destruct f; [cbn in Hl; lia|done]. Qed.

Lemma nic_step_run o taken rx (s : NicSt (D := D)) :
  nic_ok taken rx s -> nic_op_ok o ->
  let '(a, s') := nic_step o s in
  exists rx', nic_ok (taken ++ got [a]) rx' s' /\ nic_sent (dv s'.2) = nic_sent (dv s.2) ++ offered [o] /\ answered_well o a.
Proof.
  intros Hs Ho. destruct o as [frame|]; cbn [nic_step].
  - unfold offered. cbn [map concat]. destruct (legal frame) eqn:El; unfold legal in El; cbn [answered_well].
    + zbool. destruct (nic_send_run frame taken rx s Hs) as (rx' & s' & -> & Hs' & Hsent); [lia|done|]. exists rx'. unfold got. cbn [map concat].
      rewrite app_nil_r. split; [done|]. split; [exact Hsent|]. cbn. unfold legal. by rewrite !(proj2 (Z.leb_le _ _)) by lia.
    + assert (nic_send frame s = (Err tt, s)) as ->.
      { unfold nic_send. cbn zeta. replace (_ || _) with true; [done|]. symmetry. rewrite orb_true_iff, !Z.ltb_lt.
        rewrite andb_false_iff, !Z.leb_gt in El. unfold MIN_FRAME, FRAME_SIZE. lia. }
      exists rx. unfold got. cbn [map concat app]. rewrite !app_nil_r. split; [done|]. split; [done|]. cbn. unfold legal. by rewrite El.
  - destruct (nic_recv_run taken rx 1514 s Hs) as (rx' & s' & -> & Hs' & Hsent & _); [lia|]. exists rx'.
    unfold offered. cbn [map concat]. rewrite app_nil_r. split; [|by split].
    destruct rx as [|f]; [exact Hs'|]. pose proof (nic_ok_frame _ _ _ Hs) as Hne. destruct f as [|x f]; [done|]. exact Hs'.
Qed.

Lemma got_cons a l : got (a :: l) = got [a] ++ got l.
Proof. unfold got. cbn [map concat]. by rewrite app_nil_r. Qed.
Lemma offered_cons o os : offered (o :: os) = offered [o] ++ offered os.
Proof. unfold offered. cbn [map concat]. by rewrite app_nil_r. Qed.

(** C24: the network card. Over any card that serves its two virtqueues as
    documented, and whatever arrives meanwhile, every sequence of sends and
    receives through the driver behaves like a wire: a frame of legal length is
    accepted and transmitted byte for byte, in order, other lengths are
    refused; and the frames returned by the receives are exactly those the card
    has stored, in order, but for at most the one still in the buffer. *)
Theorem nic_moves_frames os taken rx (s : NicSt (D := D)) :
  nic_ok taken rx s -> Forall nic_op_ok os ->
  let '(answers, s') := nic_run os s in
  nic_sent (dv s'.2) = nic_sent (dv s.2) ++ offered os /\ Forall2 answered_well os answers /\
  exists rx', nic_ok (taken ++ got answers) rx' s' /\ nic_stored (dv s'.2) = taken ++ got answers ++ pending rx'.
Proof.
  intros Hs Hos. revert taken rx s Hs. induction Hos as [|o os Ho Hos IH]; intros taken rx s Hs; cbn [nic_run].
  - unfold offered, got. cbn [map concat]. rewrite !app_nil_r. split; [done|]. split; [constructor|]. exists rx. split; [done|].
    destruct Hs as (QT & QR & TH & TB & RB & nt & na & _ & [_ _ _ _ _ Hst]). exact Hst.
  - pose proof (nic_step_run o taken rx s Hs Ho) as H1. destruct (nic_step o s) as [a s1]. destruct H1 as (rx1 & Hs1 & Hsent1 & Ha).
    specialize (IH _ _ _ Hs1). destruct (nic_run os s1) as [l s2]. destruct IH as (Hsent2 & Hl & rx2 & Hs2 & Hst2).
    rewrite got_cons, offered_cons. split; [by rewrite Hsent2, Hsent1, app_assoc|]. split; [by constructor|].
    exists rx2. rewrite <- !app_assoc in *. by split.
Qed.
End card.

(** ** A card *)

(** Transmits at once, and stores the next frame of its inbox whenever the
    receive buffer is handed back. *)
Record Card := mkCard { c_sent : list (list Z); c_stored : list (list Z); c_inbox : list (list Z); c_nt : Z; c_nr : Z }.

Definition CQT : Z := 0x11000.
Definition CQR : Z := 0x15000.

(** The buffer posted as the next entry, when it is there and the frame fits. *)
Definition card_takes (frame : list Z) (d : Card) (m : Phys) : option vdesc :=
  let b := desc_at CQR (pread 2 (avail_entry_at CQR 256 (c_nr d)) m) m in
  if (pread 2 (avail_idx_at CQR 256) m =? as_u16 (c_nr d + 1)) && writable b && (10 + Z.of_nat (length frame) <=? d_len b) &&
     negb (bool_decide (frame = [])) && forallb (fun x => (0 <=? x) && (x <? 256)) frame
  then Some b else None.

Definition card_out (w : nat) (port v : Z) (m : Phys) (d : Card) : Phys * Card :=
  if negb (port =? 0xC010) then (m, d)
  else if v =? TXQ then
    let head := pread 2 (avail_entry_at CQT 256 (c_nt d)) m in
    match chain 4 CQT head m with
    | Some [h; f] =>
      (return_chain CQT 256 (c_nt d) head 0 m,
       mkCard (c_sent d ++ [peek (Z.to_nat (d_len f)) (d_addr f) m]) (c_stored d) (c_inbox d) (c_nt d + 1) (c_nr d))
    | _ => (m, d)
    end
  else
    match c_inbox d with
    | [] => (m, d)
    | frame :: rest =>
      match card_takes frame d m with
      | Some b =>
        (return_chain CQR 256 (c_nr d) (pread 2 (avail_entry_at CQR 256 (c_nr d)) m) (10 + Z.of_nat (length frame))
           (poke (replicate 10 0 ++ frame) (d_addr b) m),
         mkCard (c_sent d) (c_stored d ++ [frame]) rest (c_nt d) (c_nr d + 1))
      | None => (m, d)
      end
    end.

#[export] Instance card_ports : PortIO Card := {| port_in w p d := (0, d); port_out := card_out; device_turn m d := (m, d) |}.

#[export, refine] Instance card_device : NicDevice Card := {|
  nic_sent := c_sent; nic_stored := c_stored;
  nic_live io QT QR q nt nr d := io = 0xC000 /\ QT = CQT /\ QR = CQR /\ q = 256 /\ nt = c_nt d /\ nr = c_nr d
|}.
Proof.
  - intros io QT QR q nt nr d m head h f (-> & -> & -> & -> & -> & ->) _ _ -> Hc _ _ _.
    eexists 0%nat, _, m, (c_nr d), []. split; [lia|]. split; [constructor|].
    cbn [turns port_out card_ports]. change (card_out 2 (0xC000 + VIRT_QUEUE_NOTIFY) TXQ m d) with (
      match chain 4 CQT (pread 2 (avail_entry_at CQT 256 (c_nt d)) m) m with
      | Some [h; f] => (return_chain CQT 256 (c_nt d) (pread 2 (avail_entry_at CQT 256 (c_nt d)) m) 0 m,
          mkCard (c_sent d ++ [peek (Z.to_nat (d_len f)) (d_addr f) m]) (c_stored d) (c_inbox d) (c_nt d + 1) (c_nr d))
      | _ => (m, d) end).
    rewrite Hc. split; [|split; [reflexivity|split; [done|split; [done|]]]].
    + cbn. by rewrite app_nil_r.
    + intros j Hj. lia.
  - intros io QT QR q nt nr d m (-> & -> & -> & -> & -> & ->) _.
    cbn [port_out card_ports]. unfold card_out. change (negb (0xC000 + VIRT_QUEUE_NOTIFY =? 0xC010)) with false. change (RXQ =? TXQ) with false. cbn iota.
    destruct (c_inbox d) as [|frame rest].
    { exists m, (c_nr d), d, []. split; [done|]. split; [constructor|]. by rewrite app_nil_r. }
    destruct (card_takes frame d m) as [b|] eqn:Eb.
    2:{ exists m, (c_nr d), d, []. split; [done|]. split; [constructor|]. by rewrite app_nil_r. }
    unfold card_takes in Eb. cbn zeta in Eb. destruct (_ && _) eqn:Ec; [|done]. injection Eb as <-. zbool.
    eexists _, (c_nr d + 1), _, [frame]. split; [reflexivity|]. split; [|done].
    apply received_frame; [done|done|done|done|done|by apply Forall_replicate| |by intros ->|done].
    apply Forall_forall. intros x Hx. rewrite forallb_forall in *.
    match goal with H : forall x, In x frame -> _ |- _ => specialize (H x Hx) end. zbool. unfold is_u8. lia.
Defined.

(** ** The driver over it *)

#[export] Instance flat_space : AddressSpace := {| phys_of v := v |}.
#[export] Instance card_statics : NicStatics := {|
  VIRTQ_TX_BUF := 0x11000; VIRTQ_RX_BUF := 0x15000; TX_HDR := 0x20000; TX_BUF := 0x21000; RX_BUF := 0x22000 |}.

(** Initialised: the receive buffer is posted; two frames will arrive. *)
Definition card_nic : Nic :=
  mkNic 0xC000 0 0 0x11000 0x15000 (vq_avail_idx_off 256) (vq_avail_ring_off 256) (vq_used_idx_off 256) 256.
Definition first_frame : list Z := replicate 20 7.
Definition second_frame : list Z := replicate 60 8.

(** The card already stored the first of them. *)
Definition card_memory : Phys :=
  return_chain CQR 256 0 0 30 (poke (replicate 10 0 ++ first_frame) 0x22000
    (posted CQR 256 0 (put_desc CQR 0 (mkDesc 0x22000 1524 2 0) (fun _ => 0)))).
Definition card_state : NicSt (D := Card) :=
  (card_nic, mkBus card_memory (mkCard [] [first_frame] [second_frame] 0 1) []).

Lemma card_places : places card_nic CQT CQR 0x20000 0x21000 0x22000.
Proof.
  assert (forall v n, linear v n v) as Hl by (intros v n i _; done).
  split; try apply Hl.
  - cbn. lia.
  - by exists 8.
  - done.
  - lia.
  - change (vq_total_bytes (nic_q_size card_nic)) with 10246. unfold clear, CQT, CQR. cbn zeta. lia.
Qed.

Lemma card_ready : nic_ok [] (Filled first_frame) card_state.
Proof.
  exists CQT, CQR, 0x20000, 0x21000, 0x22000, 0, 0. split; [apply card_places|].
  split; cbn [fst snd card_state].
  - cbn. done.
  - split; vm_compute; reflexivity.
  - split; [vm_compute; reflexivity..|]. split; [vm_compute; lia|]. split; [by apply Forall_replicate|]. split; vm_compute; reflexivity.
  - cbn [pm]. unfold card_memory, return_chain, posted. cbn zeta.
    do 3 apply pwrite_ok. apply poke_ok; [by repeat constructor|]. do 2 apply pwrite_ok. by apply put_desc_bytes.
  - done.
  - done.
Qed.

Definition card_ops : list nic_op := [NRecv; NSend (replicate 14 1); NSend [1]; NRecv; NRecv].

Lemma nic_moves_frames_witness :
  let '(answers, s') := nic_run card_ops card_state in
  nic_sent (dv s'.2) = [replicate 14 1] /\ Forall2 answered_well card_ops answers /\
  exists rx', nic_ok (got answers) rx' s' /\ nic_stored (dv s'.2) = got answers ++ pending rx'.
Proof.
  apply (nic_moves_frames card_ops [] (Filled first_frame) card_state card_ready). repeat constructor; done.
Defined.

(** Evaluated: both frames arrive, the short one is refused. *)
Example card_answers :
  (nic_run card_ops card_state).1 =
  [AGot (Ok first_frame); ASent (Ok 14); ASent (Err tt); AGot (Ok second_frame); AGot (Ok [])].
Proof. vm_compute. reflexivity. Qed.
