(* ===== verification/CorrectBoot.v ===== *)
(** * Correctness of the start, and of the interrupt, timer and serial code

    The chips and the processor are the references of InterruptsSpec.v; the
    devices of the boot sequence are those of BootSpec.v. *)

From S2P Require Import Prelude Loader FileTable Opcode FloatOps NetStack World Text.
From S2P Require Import Editor Machine Dispatch Host NetHost Engine EngineSpec Task.
From S2P Require Import Block Fat ShellText Shell ShellSpec Vga Jit X86.
From S2P Require Import Phys Paging Virtio VirtioBlk VirtioNic Interrupts InterruptsSpec Boot BootSpec.
From S2P Require Import CorrectFs.

(** C30: the timer interrupt is armed, whatever state the chips were left in.
    [interrupts::init] enables interrupts with every descriptor absent but that
    of vector 32, which leads to the timer's stub in the kernel's code segment;
    of the sixteen interrupt lines only line 0 gets through, as vector 32, every
    1193 cycles of the timer's clock. While a tick is served the next is held
    back, and the handler counts one tick and leaves the chips as they were, so
    that the next is delivered the same way. *)
Theorem timer_armed idt_addr stub d f m (c : Chipset) sd (w : World) : 0 <= stub < 2 ^ 64 ->
  exists s, interrupts_init idt_addr stub (mkIrq idt_static d f (mkBus m c sd)) = (Ok tt, s) /\ IF s = true /\
    (forall v, (v < 256)%nat -> gate idt_addr s v = if (v =? 32)%nat then Some (stub, 8) else None) /\
    (forall irq, 0 < irq < 16 -> irq_vector irq (dv (io s)) = None) /\
    pit_mode (pit (dv (io s))) = 2 /\ reload (pit (dv (io s))) = 1193 /\
    exists c1, irq_vector 0 (dv (io s)) = Some (32, c1) /\
      (forall irq, 0 <= irq < 16 -> irq_vector irq c1 = None) /\
      on_tick (w, mkBus (pm (io s)) c1 (said (io s))) = (Ok tt, (pit_on_tick w, io s)).
Proof.
  intros Hs. rewrite interrupts_init_run. eexists. split; [reflexivity|].
  assert (all : forall (Q : Z -> Prop), Forall Q (seqZ 0 16) -> forall irq, 0 <= irq < 16 -> Q irq).
  { intros Q HQ irq Hi. rewrite List.Forall_forall in HQ. apply HQ, list_elem_of_In, elem_of_seqZ. lia. }
  split_and!; try reflexivity.
  - intros v Hv. by apply gate_after_init.
  - intros irq Hi. apply (all (fun irq => 0 < irq -> irq_vector irq _ = None)); [|lia..].
    repeat (constructor; [intros; reflexivity || lia|]). constructor.
  - eexists. split_and!; [reflexivity| |reflexivity].
    intros irq Hi. apply (all (fun irq => irq_vector irq _ = None)); [|lia].
    repeat (constructor; [reflexivity|]). constructor.
Qed.

Definition idle_pic : Pic := mkPic None false false 8 0 0 0 0.
Definition idle_chips : Chipset := mkChips idle_pic idle_pic (mkPit 0 None 0) (mkUart 0 0 0 0 0 0 [] []).

Lemma timer_armed_witness : 0 <= 0x1000 < 2 ^ 64 /\
  exists s, interrupts_init 0x2000 0x1000 (mkIrq idt_static (mkDescriptor 0 0) false (mkBus (fun _ => 0) idle_chips [])) = (Ok tt, s) /\
    gate 0x2000 s 32 = Some (0x1000, 8).
Proof.
  split; [lia|]. destruct (timer_armed 0x2000 0x1000 (mkDescriptor 0 0) false (fun _ => 0) idle_chips [] world_static)
    as (s & E & _ & G & _); [lia|]. exists s. split; [exact E|]. rewrite G by lia. reflexivity.
Defined.

(** C31: the timer interrupt is invisible to the code it interrupts. Delivered
    at any instruction, with [pit_on_tick] any code that keeps the calling
    convention, the stub returns to that instruction with every register, the
    flags and the segments as they were; memory differs only in the tick counter
    and below the interrupted stack pointer, and the call is made with the stack
    aligned as the convention demands. *)
Theorem timer_interrupt_transparent ra callee depth tick stub c : sysv_callee depth tick callee -> 0 <= depth ->
  let sp := regs (core c) Rsp in
  let low := sp - sp mod 16 - 120 - depth in
  0 <= low -> sp < 2 ^ 64 -> mapped low sp (core c) -> tick < low \/ sp <= tick ->
  exists c1 c2, deliver stub 8 c = Some c1 /\ rip (core c1) = stub /\
    run_stub ra callee timer_isr_stub c1 = Some c2 /\
    (forall r, regs (core c2) r = regs (core c) r) /\ rip (core c2) = rip (core c) /\
    rflags c2 = rflags c /\ cs c2 = cs c /\ ss c2 = ss c /\
    (forall a, a <> tick -> a < low \/ sp <= a -> words (core c2) a = words (core c) a).
Proof.
  intros Hc Hd sp low H0 H64 Mp Ht.
  destruct (interrupt_returns ra callee depth tick stub 8 c Hc Hd H0 H64 Mp Ht) as (c1 & c2 & A & B & _ & C).
  by exists c1, c2.
Qed.

(** A callee that counts in the word [tick] and clobbers what it may. *)
Definition counter (tick : Z) (c : cpu) : option cpu :=
  Some (mkCpu (set_reg Rax 77 (set_reg Rsp (regs c Rsp + 8) (regs c))) (rip c)
    (set_word tick (default 0 (words c tick) + 1) (words c))).
Definition at_work : icpu :=
  mkICpu (mkCpu (fun r => if bool_decide (r = Rsp) then 4000 else reg_u8 r) 0x5000 (fun _ => Some 5)) 0x202 8 16.

Lemma counter_callee tick : sysv_callee 0 tick (counter tick).
Proof.
  intros c _ _. eexists. split; [reflexivity|]. split_and!; [reflexivity| |].
  - intros r Hr. rewrite !elem_of_cons, elem_of_nil in Hr. destruct_or! Hr; try done; by subst.
  - intros a Ha _. cbn. unfold set_word. by rewrite (proj2 (Z.eqb_neq _ _) Ha).
Qed.

Lemma timer_interrupt_transparent_witness : exists c1 c2, deliver 0x1000 8 at_work = Some c1 /\
  run_stub 0 (counter 8192) timer_isr_stub c1 = Some c2 /\ rip (core c2) = 0x5000 /\ regs (core c2) Rax = regs (core at_work) Rax.
Proof.
  destruct (timer_interrupt_transparent 0 (counter 8192) 0 8192 0x1000 at_work (counter_callee 8192))
    as (c1 & c2 & A & _ & B & C & D & _); [lia|vm_compute; congruence|reflexivity|intros a _ _; eexists; reflexivity|
    right; vm_compute; congruence|].
  exists c1, c2. split_and!; [exact A|exact B|exact D|apply C].
Defined.

(** C32: [uptime_ms] keeps time after [calibrate_tsc]. On a machine with a tick
    every [P] cycles, whose counters the kernel reads at least every [g] cycles,
    the calibration ends; from then on the time answered for a counter [e]
    cycles past the calibration is [e] divided by at least [P - 2g - 1000] and
    at most [P + 2g]. It never panics and never runs backwards. *)
Theorem uptime_accurate `{Clock} (P g : Z) `{!ClockOk P g} fuel w :
  on_time w -> 2 * g + 1000 <= P -> TSC w + 3 * P < 2 ^ 64 -> P <= Z.of_nat fuel ->
  exists w', calibrate_tsc fuel w = Some w' /\ next_tick w < TSC_BOOT w' < next_tick w + 2 * g /\
    forall t1 t2 e1 e2, 0 <= e1 <= e2 -> TSC_BOOT w' + e2 < 2 ^ 64 ->
      exists ms1 ms2, uptime_ms (set_clock t1 (TSC_BOOT w' + e1) w') = Ok ms1 /\ uptime_ms (set_clock t2 (TSC_BOOT w' + e2) w') = Ok ms2 /\
        ms1 <= ms2 /\ ms1 * (P - 2 * g - 1000) <= e1 < (ms1 + 1) * (P + 2 * g).
Proof.
  intros Hw HP H64 Hf. destruct (calibrate_spec fuel w Hw H64 Hf) as (w2 & w' & E & O2 & L2 & delta & Hd & -> & Hs).
  destruct (clock_params (P := P) (g := g)) as [Hg _]. pose proof (on_time_tsc w Hw) as [Hb1 Hb2].
  eexists. split; [exact E|]. cbn [TSC_BOOT set_tsc]. split; [exact Hs|]. intros t1 t2 e1 e2 He H2.
  change (2 ^ 64) with 18446744073709551616 in *.
  set (b := TSC w2 - delta) in *. set (q := Z.max (delta / 1000) 1).
  assert (Hq : delta - 1000 < q * 1000 <= delta) by (subst q; zlia).
  assert (Hu : forall t e, 0 <= e -> b + e < 18446744073709551616 ->
    uptime_ms (set_clock t (b + e) (set_tsc q b w2)) = Ok (e / (q * 1000))).
  { intros t e He0 Hb. unfold uptime_ms. cbn [TSC_MHZ TSC TSC_BOOT set_clock set_tsc].
    rewrite (proj2 (Z.eqb_neq q 0)), (proj2 (Z.leb_gt _ _)) by lia. rewrite Z.max_r by lia.
    replace (b + e - b) with e by lia. f_equal. apply Z.min_l. unfold I64_MAX.
    apply Z.div_le_upper_bound; lia. }
  exists (e1 / (q * 1000)), (e2 / (q * 1000)). rewrite !Hu by lia. split_and!; try done.
  - apply Z.div_le_mono; lia.
  - pose proof (Z.mul_div_le e1 (q * 1000) ltac:(lia)).
    pose proof (Z.mul_le_mono_nonneg_l (P - 2 * g - 1000) (q * 1000) _ (Z.div_pos e1 (q * 1000) ltac:(lia) ltac:(lia)) ltac:(lia)). lia.
  - pose proof (Z.mul_succ_div_gt e1 (q * 1000) ltac:(lia)).
    pose proof (Z.mul_le_mono_nonneg_l (q * 1000) (P + 2 * g) (e1 / (q * 1000) + 1)
      ltac:(pose proof (Z.div_pos e1 (q * 1000) ltac:(lia) ltac:(lia)); lia) ltac:(lia)). lia.
Qed.

(** A clock that advances by ten cycles, with a tick every 5000. *)
#[local] Instance metronome : Clock := {
  advance t c := (if (c + 10) mod 5000 <? 10 then t + 1 else t, c + 10)
}.

#[local] Instance metronome_ok : ClockOk 5000 10.
Proof.
  refine {| tick_at _ c := 0 <= c; tick_after _ c := (c / 5000 + 1) * 5000 |}; [lia|intros; zlia|].
  intros t c t' c' Hc H64 [= <- <-]. split_and!; [lia..|].
  destruct (Z.ltb_spec (c + 10) ((c / 5000 + 1) * 5000)).
  - rewrite (proj2 (Z.ltb_ge _ _)) by zlia. split; [done|]. zlia.
  - rewrite (proj2 (Z.ltb_lt _ _)) by zlia. split; [lia|]. zlia.
Defined.

Lemma uptime_accurate_witness : exists w', calibrate_tsc 5000 world_static = Some w' /\
  exists ms, uptime_ms (set_clock 0 (TSC_BOOT w' + 1000000) w') = Ok ms /\ ms * 3980 <= 1000000 < (ms + 1) * 5020.
Proof.
  assert (O : on_time world_static) by (vm_compute; congruence).
  assert (N : next_tick world_static = 5000) by reflexivity.
  assert (T : TSC world_static = 0) by reflexivity.
  destruct (uptime_accurate 5000 10 5000 world_static O) as (w' & E & B & U); [lia|rewrite T; vm_compute; reflexivity|lia|].
  rewrite N in B. exists w'. split; [exact E|].
  destruct (U 0 0 1000000 1000000) as (ms & _ & A & _ & _ & C); [lia|lia|].
  exists ms. split; [exact A|lia].
Defined.

(** The serial line carries the console's text. After [serial::init] the
    line runs at 115200 baud with eight data bits, no parity and one stop bit;
    [write_str] then sends the text with a carriage return before each newline,
    and [read_byte] answers the received bytes one at a time in their order,
    [None] when there are none. *)
Theorem serial_line_carries_text m (c : Chipset) sd text input :
  exists b, serial_init (mkBus m c sd) = (Ok tt, b) /\
    baud (uart (dv b)) = 115200 /\ is_8n1 (uart (dv b)) = true /\
    exists b', write_str text b = (Ok tt, b') /\ sent (uart (dv b')) = sent (uart c) ++ serial_write_str text /\
    let hear u := mkUart (ier u) (lcr u) (dll u) (dlh u) (fcr u) (mcr u) (sent u) input in
    let bi := mkBus (pm b') (mkChips (pic1 (dv b')) (pic2 (dv b')) (pit (dv b')) (hear (uart (dv b')))) (said b') in
    exists bo, uart_read_byte bi = (Ok (hd_error input), bo) /\ received (uart (dv bo)) = tail input.
Proof.
  rewrite serial_init_run. eexists. split_and!; [reflexivity..|]. rewrite write_str_run by reflexivity.
  eexists. split_and!; [reflexivity..|]. cbv zeta. rewrite uart_read_run by reflexivity. cbn [received uart dv].
  destruct input; eexists; split; reflexivity.
Qed.

(** ** The boot sequence *)

Section boot.
Context {V1 V2 D : Type} `{F1 : FatFs V1} `{!FatFsOk V1} `{F2 : FatFs V2} `{!FatFsOk V2} `{PortIO D} `{!Hardware (D := D)}.
Context `{Layout} `{BlkStatics} `{NicStatics} `{Clock} {P g : Z} `{!ClockOk P g}.
Context card new_ram new_blk `{!Devices (D := D) (V1 := V1) (V2 := V2) card new_ram new_blk} (FS_IMG : list Z).

End boot.

(** A machine with a disk in slot 3 and a card in slot 4 of its PCI bus: the
    latch of the configuration address, and registers that answer zero but for
    the queues of 256 entries. *)
Record Box := mkBox { latch : Z }.

Definition box_config (a : Z) : Z :=
  let r := Z.land a 0xFC in
  let f := Z.land a 0xFFFFFF00 in
  if f =? pci_address 0 3 0 0 then (if r =? 0 then 0x10011AF4 else if r =? 0x10 then 0xC001 else 0)
  else if f =? pci_address 0 4 0 0 then (if r =? 0 then 0x10001AF4 else if r =? 0x10 then 0xC041 else 0)
  else 0xFFFFFFFF.

Definition box_in (n : nat) (port : Z) (d : Box) : Z * Box :=
  (match n with
   | 4%nat => if port =? PCI_DATA then box_config (latch d) else 0
   | 2%nat => if (port =? 0xC00C) || (port =? 0xC04C) then 256 else 0
   | _ => 0
   end, d).

#[local] Instance box_ports : PortIO Box := {|
  port_in := box_in;
  port_out n port v m d := (m, if port =? PCI_ADDR then mkBox v else d);
  device_turn m d := (m, d)
|}.

Lemma box_config_range a : 0 <= box_config a < 2 ^ 32.
Proof. unfold box_config. repeat case_match; (split; [vm_compute; congruence|reflexivity]). Qed.

Lemma box_slot bus dev off : Z.land (pci_address bus dev 0 off) 0xFFFFFF00 = Z.land (pci_address bus dev 0 0) 0xFFFFFF00.
Proof.
  unfold pci_address. rewrite !(Z.land_lor_distr_l _ (Z.land _ 0xFC)), <- !(Z.land_assoc _ 0xFC). change (Z.land 0xFC 0xFFFFFF00) with 0. by rewrite !Z.land_0_r.
Qed.

#[local] Instance box_hardware : Hardware (D := Box).
Proof.
  split.
  - intros n port d. cbn. unfold box_in. destruct n as [|[|[|[|[|n]]]]]; cbn [fst]; try (split; [lia|reflexivity]).
    + destruct (_ || _); (split; [lia|reflexivity]).
    + destruct (_ =? _); [apply box_config_range|split; [lia|reflexivity]].
    + split; [lia|]. apply Z.pow_pos_nonneg; lia.
  - intros bus dev b b1 b2 id bar0 [= <- <-] [= <- <-]. cbn [dv latch]. unfold box_config. cbv zeta.
    rewrite (box_slot bus dev 0x10). repeat case_match; intros A B; vm_compute in A, B |- *; congruence.
  - intros b b1 b2 b3 bus dev io q _ _ E. unfold inw, in_n in E. cbn in E. injection E as <- _.
    destruct (_ || _); vm_compute; congruence.
Qed.

(** The loader's tables map the first gigabyte onto itself. *)
Definition box_ram : Phys := fun a => if a =? 0x1000 then 0x03 else if a =? 0x1001 then 0x20 else if a =? 0x2000 then 0x83 else 0.

#[local] Instance demo_layout : Layout := {| idt_addr := 0x2000; stub_addr := 0x1000; jit_addr := 0x100000; window_addr := 0 |}.
#[local] Instance demo_blk : BlkStatics := {| VIRTQ_BUF := 0x10000; REQ_HDR := 0x20000; REQ_DATA := 0x21100; REQ_STATUS := 0x22001 |}.
#[local] Instance demo_nic : NicStatics := {| VIRTQ_TX_BUF := 0x30000; VIRTQ_RX_BUF := 0x40000; TX_HDR := 0x50000; TX_BUF := 0x51000; RX_BUF := 0x52000 |}.

Definition demo_image (nm : list Z) : option (list Z) := if bytes_eqb nm (str "a") then Some [1] else None.
Definition demo_ram (_ : BlockIo RamDisk) : result unit ToyVolume.t := Err tt.
Definition demo_disk (_ : BlockIo (VirtioBlk * Bus Box)) : result unit ToyVolume.t := Ok (ToyVolume.mkVol demo_image).
Definition quiet_card (_ : Nic) (_ : Bus Box) : VirtioNet := mkNet [] [].

#[local] Instance demo_devices : Devices (D := Box) quiet_card demo_ram demo_disk.
Proof. split; [intros h b; split; apply Forall_nil_2|done|done]. Qed.

Definition powered_on : Boot ToyVolume.t ToyVolume.t Box :=
  mkBoot (mkSh sys_static None new_history (replicate CWD_MAX 0) 0 [])
    (mkIrq idt_static (mkDescriptor 0 0) false (mkBus box_ram (mkBox 0) [])) 0 0x1000 None.


(** Both drivers find their device. *)
#[local] Instance box_space : AddressSpace := {| phys_of v := default 0 (virt_to_phys window_addr v (boot_mem powered_on)) |}.


