(* ===== verification/CorrectUserland.v ===== *)
(** * Correctness of the emulator guests and of the test harness *)

From S2P Require Import Prelude Leb128 Loader FileTable Opcode FloatOps Sections World Machine.
From S2P Require Import Host HostSpec Engine EngineSpec Harness HarnessSpec Userland UserlandSpec.
From S2P Require Import Demo.

(** C33: the NES guest loads what the kernel stores. When the kernel's table
    holds, as [game.nes], any file in the iNES format (with or without trainer
    and characters, for any mapper and mirroring), the guest's [load_rom],
    calling [fs_size] and [fs_read] through its value stack, returns exactly the
    program, the characters, the mirroring and the mapper of that file, and
    leaves its stack and the kernel as they were. *)
Theorem nes_rom_loads s name vec p c x : slen (h_mem s) < 2147483648 -> stack_room 4 s ->
  in_mem (h_mem s) name 8 -> srange (h_mem s) name (name + 8) = Nes.NAME ->
  Ines.file_ok p c x -> content (fs (h_w s)) Nes.NAME = Some (Ines.encode p c x) ->
  in_mem (h_mem s) vec (Z.of_nat (length (Ines.encode p c x))) ->
  exists s', Nes.load_rom name vec s = (Ok (Some (Ines.contents c x)), s') /\ back s s' /\ h_w s' = h_w s.
Proof.
  intros Hm Hr Hn En Hx Hc Hv. destruct (load_rom_run s name vec _ Hm Hn En Hc) as (s' & E & R); [|done|done|].
  - unfold Ines.encode. rewrite !length_app, (Ines.fo_pad _ _ _ Hx). cbn [length]. lia.
  - exists s'. by rewrite E, (Ines.parse_encoded p c x Hx).
Qed.

Definition small_rom : Ines.file := Ines.mkFile 1 0 0 false false false true (replicate 8 0) [] [] [] [7].

Definition rom_world : World :=
  match alloc_write_buf (Ines.encode 0 0 small_rom) fs_static with
  | (Some d, st) => set_fs (register_file Nes.NAME d st) world_static
  | _ => world_static
  end.
Definition rom_guest : HSt :=
  mkHSt (replicate 8 0) 1 (Slice 1000 (fun i => nth (Z.to_nat i) Nes.NAME 0)) rom_world.

Lemma nes_rom_loads_witness : exists s', Nes.load_rom 0 100 rom_guest = (Ok (Some (Ines.contents 0 small_rom)), s') /\ h_n s' = 1%nat.
Proof.
  destruct (nes_rom_loads rom_guest 0 100 0 0 small_rom) as (s' & E & [Hn _ _] & _).
  - reflexivity.
  - apply Nat.leb_le. reflexivity.
  - split; vm_compute; congruence.
  - reflexivity.
  - split; try (cbn; lia); try reflexivity; split; (cbn; lia) || reflexivity.
  - vm_compute. reflexivity.
  - split; vm_compute; congruence.
  - exists s'. split; [exact E|exact Hn].
Defined.

(** The picture the NES guest draws is the picture the kernel shows. After
    any writes of pixels on the 256 by 240 screen, the end of the frame hands
    the kernel one picture of that size, in which each position has the palette
    colour of the last write to it, or what it had before; the guest's stack
    is as it was and one frame is counted. *)
Theorem nes_frame_reaches_kernel buf puts frames s : has_picture buf s -> stack_room 3 s -> Forall on_screen puts ->
  exists s' px, Nes.draw buf (as_ops puts ++ [Nes.EndFrame]) frames s = (Ok (as_u32 (frames + 1)), s') /\ back s s' /\
    h_w s' = emit (Blit px 256 240) (h_w s) /\ length px = Z.to_nat PIXELS /\
    forall x y, 0 <= x < 256 -> 0 <= y < 240 ->
      px !! Z.to_nat (y * 256 + x) = Some (shown puts x y (pixel (h_mem s) buf (y * 256 + x))).
Proof. apply frame_run. Qed.

Lemma nes_frame_reaches_kernel_witness :
  let s := mkHSt (replicate 8 0) 0 (zero_slice 300000) world_static in
  exists s' (px : list Z), Nes.draw 16 (as_ops [(1, 2, 0x11); (1, 2, 0x12)] ++ [Nes.EndFrame]) 0 s = (Ok 1, s') /\
    px !! Z.to_nat (2 * 256 + 1) = Some 0x4240ff.
Proof.
  cbv zeta. destruct (nes_frame_reaches_kernel 16 [(1, 2, 0x11); (1, 2, 0x12)] 0 (mkHSt (replicate 8 0) 0 (zero_slice 300000) world_static))
    as (s' & px & E & _ & _ & _ & P).
  - split; [reflexivity|]. split; cbn; unfold PIXELS; lia.
  - apply Nat.leb_le. reflexivity.
  - constructor; [cbn; lia|]. constructor; [cbn; lia|]. constructor.
  - exists s', px. split; [exact E|]. rewrite (P 1 2) by lia. reflexivity.
Defined.

(** The Game Boy guest answers every call its emulator makes. Whatever calls the
    crate makes, with lines of its screen, none panics and none gives the
    processor back to the kernel; the guest's stack and memory are as they were
    afterwards, and every point of the display has the colour of the last line
    drawn over it, or black. *)
Theorem gb_screen_holds_lines W Ht cs s : Forall (call_fits W Ht) cs -> stack_room 1 s -> (h_n s < STACK_DEPTH)%nat ->
  TSC_MHZ (h_w s) * 1000 < 18446744073709551616 ->
  exists l d' s', Gb.hw_run cs (Gb.new_display W Ht) s = (Ok (l, d'), s') /\ length l = length cs /\ back s s' /\ h_mem s' = h_mem s /\
    forall x y, (x < W)%nat -> (y < Ht)%nat -> point d' x y = drawn cs x y (Some 0).
Proof.
  intros Hf Hr Hn Hm. destruct (hw_run_ok W Ht cs (Gb.new_display W Ht) s) as (l & d' & s' & E & Hl & _ & Hb & Hmem & Hp); try done.
  { split; [apply length_replicate|]. apply Forall_replicate, length_replicate. }
  exists l, d', s'. do 4 (split; [done|]). intros x y Hx Hy. rewrite Hp by done. f_equal. unfold point, Gb.new_display.
  rewrite (lookup_replicate_2 W _ x Hx). by apply lookup_replicate_2.
Qed.

(** The test harness initialises memory as the kernel does. Whenever the
    kernel's [init_memory] accepts a data section, the harness's own [init_data]
    leaves a memory with the same bytes, so a module that passes under the
    harness starts from the memory the kernel gives it. *)
Theorem harness_initialises_like_kernel ds (m m' : slice) : slen m < USIZE_MAX -> init_memory ds m = Ok (true, m') ->
  exists m2, Harness.init_data ds m = Ok m2 /\ slice_eq m2 m'.
Proof. apply init_agrees. Qed.

Lemma harness_initialises_like_kernel_witness : exists m' m2,
  init_memory [1; 0; 0x41; 2; 0x0B; 2; 8; 9] (zero_slice 16) = Ok (true, m') /\
  Harness.init_data [1; 0; 0x41; 2; 0x0B; 2; 8; 9] (zero_slice 16) = Ok m2 /\ slice_eq m2 m'.
Proof.
  eexists. destruct (harness_initialises_like_kernel [1; 0; 0x41; 2; 0x0B; 2; 8; 9] (zero_slice 16) _ eq_refl eq_refl) as (m2 & E & S).
  exists m2. split; [reflexivity|]. split; [exact E|exact S].
Defined.

(** C34: what passes under the test harness runs in the kernel. Take a module that
    declares the 32 pages every slot of the kernel's pool has, whose imports are
    all among [print], [print_int], [print_i64], [print_char], [print_hex],
    [sleep_ms] and [yield] of [env] ([uptime_ms] is left out: the harness
    answers 0, the kernel the time), and whose data section the kernel accepts;
    and a kernel, built without native code, whose built-ins are registered and
    which has a free slot. If [run_app] under the harness ends with some ASCII
    output, then [engine::run] of the same bytes, with the same arguments, ends
    without error and prints exactly that output after what the kernel had
    printed before, however often the module yields or sleeps. If the module
    imports nothing at all, since [run_wasm] offers no host function, and
    [run_wasm] returns a value, [engine::run] returns the same value. *)
Theorem harness_runs_like_kernel `{FloatEnv} fuel (wasm args : list Z) (w : World) (k : Kernel) module ims h :
  pool_ok k -> has_builtins k -> position (fun s => negb (active s)) (POOL k) = Some h ->
  load wasm = Ok module -> Harness.min_pages_of module = Ok MAX_MEM_PAGES -> shared_imports module ims -> accepted_data module ->
  (forall out, (Harness.run_app fuel wasm args w).1 = Ok out -> ascii out ->
    exists v k', @Engine.run _ Harness.no_features fuel wasm (str "main") args k = (Ok v, k') /\
      Harness.OUTPUT (k_world k') = Harness.OUTPUT (k_world k) ++ out) /\
  (forall func v, ims = [] -> (Harness.run_wasm fuel wasm func args w).1 = Ok v ->
    exists k', @Engine.run _ Harness.no_features fuel wasm func args k = (Ok v, k')).
Proof.
  intros Hp Hb Hf Hl Hm Hi Hd. split.
  - intros out. by eapply app_in_kernel.
  - intros func v. by eapply function_in_kernel.
Qed.

(** [main n] prints [n], yields and prints [n] in hexadecimal. *)
Definition talk_imports : list import :=
  [ mkImport (str "env") (str "print_int") (IFunc 1); mkImport (str "env") (str "yield") (IFunc 0);
    mkImport (str "env") (str "print_hex") (IFunc 1) ].
Definition talk_bytes : list Z := encode_module
  [ (SECTION_TYPE, encode_vec encode_type [([], []); ([0x7F], [])]);
    (SECTION_IMPORT, encode_vec encode_import talk_imports);
    (SECTION_FUNCTION, encode_vec encode_u32 [1]);
    (SECTION_MEMORY, encode_vec (fun l => encode_limits l.1 l.2) [(32, None)]);
    (SECTION_EXPORT, encode_vec encode_export [mkExport (str "main") 0 3]);
    (SECTION_CODE, encode_vec encode_body [([], [0x20; 0; 0x10; 0; 0x10; 1; 0x20; 0; 0x10; 2; 0x0B])]) ].
Definition talk_module : Module_ := match load talk_bytes with Ok m => m | _ => empty_module end.

Lemma talk_shared : shared_imports talk_module talk_imports.
Proof.
  unfold shared_imports, talk_imports. split; [reflexivity|].
  split; [repeat (apply List.Forall_cons; [unfold import_ok; split_and!; reflexivity || (cbn; unfold is_u32; lia)|]); apply List.Forall_nil|].
  split; [apply Nat.leb_le; reflexivity|]. split; [|vm_compute; reflexivity].
  repeat (apply List.Forall_cons; [split_and!; [reflexivity..|]; cbn; apply list_elem_of_In; vm_compute; tauto|]); apply List.Forall_nil.
Qed.

Lemma harness_runs_like_kernel_witness : exists v k',
  @Engine.run _ Harness.no_features 100 talk_bytes (str "main") [-5] booted = (Ok v, k') /\
  Harness.OUTPUT (k_world k') = str "-5" ++ [10] ++ str "0xFFFFFFFB" ++ [10].
Proof.
  destruct (harness_runs_like_kernel 100 talk_bytes [-5] world_static booted talk_module talk_imports 0) as [A _].
  - exact booted_pool_ok.
  - exact (init_has_builtins kernel_static).
  - reflexivity.
  - vm_compute. reflexivity.
  - vm_compute. reflexivity.
  - exact talk_shared.
  - exact Logic.I.
  - destruct (A (str "-5" ++ [10] ++ str "0xFFFFFFFB" ++ [10])) as (v & k' & E & O).
    + vm_compute. reflexivity.
    + repeat constructor; vm_compute; discriminate.
    + exists v, k'. split; [exact E|exact O].
Defined.
